(* ===== verification/_CoqProject ===== *)
-Q . S2P
Prelude.v
Bytes.v
EpeeValue.v
EpeeObject.v
EpeeStruct.v
FixedBytes.v
Pruning.v
Levin.v
NetAddress.v
WireMessages.v
WireFacts.v
PeerProtocol.v
Connection.v
ConnectionFacts.v
PeerList.v
AddressBook.v
AddressBookFacts.v
Handshake.v
HandshakeFacts.v
AsyncBuffer.v
HardForks.v
Median.v
ChainDb.v
Difficulty.v
RulesBase.v
TxData.v
TxRules.v
TxContext.v
BlockRules.v
Weights.v
HardForkState.v
RxVms.v
Context.v
Helpers.v
DbTables.v
TxOps.v
TxStore.v
AltBlocks.v
BlockOps.v
ChainStore.v
BlockchainService.v
ChainReads.v
FastSync.v
SyncRequests.v
AltStore.v
OutputIndex.v
TxVerification.v
TxVerifyFacts.v
OutputCacheFacts.v
FullVerifyFacts.v
BlockVerification.v
BlockVerifyFacts.v
Manager.v
ManagerFacts.v
TxPool.v
TxPoolFacts.v
TxPoolManager.v
Dandelion.v
TxPoolManagerFacts.v
IncomingTxFacts.v
DandelionFacts.v
ChainTracker.v
BlockDownloader.v
BlockDownloaderFacts.v
DownloadRunFacts.v
