(* ===== verification/Prelude.v ===== *)
(** * Cuprate: a verification development of a Monero node

    Cuprate is a Monero node in Rust. This library models the parts of it that decide what
    the node believes and stores, and proves that they do so correctly. Everything is a
    shallow embedding: a Rust function is a Rocq function, a fallible one returns
    [result E A] (below: [Ok], [Err] and [Panic], the last for every [unwrap], [expect],
    [assert!] and index out of bounds), a stateful one takes and returns its state, a task
    that others talk to is a step function or a step relation on its state. Integers are [Z]
    with the wrap-around of their width written out ([+!], [-!], [*!] for [usize]/[u64] in a
    release build). Definitions are executable; the [Test..] modules run them.

    ** The program and its model

    The node gets bytes from peers, turns them into messages, blocks and transactions,
    checks these against the consensus rules and its chain, stores them, and passes them on.
    The parts, from the wire up, with the files under [src/] they are in:

    - _Levin_ ([net/levin]): the framing of messages on a connection. [Levin] has the bucket
      header, both codecs as state machines over the receive buffer, fragmentation and
      dummy messages.
    - _Epee_ ([net/epee-encoding]): the binary format of messages. [Bytes] models the
      reader and writer, [EpeeValue] the values, [EpeeObject] the objects and the code that
      the macro [epee_object!] generates, over a description of a struct's fields;
      [EpeeStruct] the same for records with nested objects and fields with functions of
      their own, [FixedBytes] the fixed-size byte strings of [types/fixed-bytes].
    - _Messages_ ([net/wire], [types]): [WireMessages], every message of the P2P protocol,
      the commands and the dispatch between messages and buckets, with [WireFacts].
    - _Pruning_ ([pruning]): which peers keep which blocks. [Pruning].
    - _Addresses_ ([net/wire/src/network_address], [p2p/p2p-core/src/network_zones]):
      [NetAddress], the addresses of peers, their form on the wire and as text, and what
      the address book needs of the addresses of a network zone as a class.
    - _Address book_ ([p2p/address-book], [p2p/p2p-core/src/handles.rs]): [PeerList] (a list
      of peers with its indexes), [AddressBook] (white and gray list, anchors, bans, and
      the handles shared with the connections), with [AddressBookFacts].
    - _Peers_ ([p2p/p2p-core/src]): [PeerProtocol], requests and responses as the node sees
      them; [Connection], the task of a connection, its clients with the futures they wait
      on, and its timeout monitor as a transition system, with [ConnectionFacts]; [Handshake], how a connection begins and
      how admin requests are answered, with [HandshakeFacts].
    - _Dandelion++_ ([p2p/dandelion-tower], [cuprated/src/txpool/dandelion]): [Dandelion],
      the router of stem transactions and the pool manager with its embargo timers, with
      [DandelionFacts].
    - _Async buffer_ ([p2p/async-buffer]): [AsyncBuffer], a step relation for the two sides
      of the weighted channel between the block downloader and the node.
    - _Block downloader_ ([p2p/p2p/src/block_downloader], [consensus/fast-sync],
      [cuprated/src/blockchain/chain_service.rs]): [FastSync] checks block ids against
      embedded hashes, [ChainTracker] follows one chain, [BlockDownloader] asks peers for
      its blocks; [BlockDownloaderFacts] and [DownloadRunFacts] have the theorems.
    - _Consensus rules_ ([consensus/rules]): [HardForks], [RulesBase], [TxData], [TxRules]
      (semantic checks of a transaction), [TxContext] (checks against the chain) and
      [BlockRules] (blocks and miner transactions).
    - _Consensus context_ ([consensus/context]): what a new block is checked against, kept
      in caches next to the chain. [Median] (rolling medians), [Difficulty], [Weights],
      [HardForkState], [RxVms] (RandomX VMs) and [Context] (the task that holds them and
      the alternative chains). The database they read is the interface of [ChainDb].
    - _Verification_ ([consensus/src]): [TxVerification] (batches of transactions, cached
      results, the output cache) and [BlockVerification]; their theorems are in
      [TxVerifyFacts], [OutputCacheFacts], [FullVerifyFacts] and [BlockVerifyFacts].
    - _Blockchain database_ ([storage/blockchain]): [DbTables] (the tables as finite maps),
      [Helpers] (number encodings, time locks, fees, commitments of [helper]), [TxOps],
      [AltBlocks], [BlockOps] (adding and popping blocks) and [BlockchainService] (the
      requests). [TxStore] and [ChainStore] say what it means that tables hold a chain;
      [ChainReads], [SyncRequests], [AltStore] and [OutputIndex] prove what is read back.
    - _Blockchain manager_ ([cuprated/src/blockchain/manager]): [Manager], the only writer
      of database and context: new blocks, batches, alternative blocks, reorganisations.
      [ManagerFacts].
    - _Transaction pool_ ([storage/txpool], [cuprated/src/txpool]): [TxPool] (tables and
      services), [TxPoolManager] (timers, relay rules, incoming transactions), with
      [TxPoolFacts], [TxPoolManagerFacts] and [IncomingTxFacts].

    [Prelude] (this file) has the outcomes and the machine integers, the tactics ([bsimp],
    [zlia], [dlia], [inv_ok], ...), the hint database [cuprate] and the lemmas on lists and
    loops the components share.

    Where one part relies on another, the client is proved against an interface and the
    implementation discharges it: [ChainDb.Serves] between the caches and the database
    ([ChainReads.storage_serves_context]), [ChainTracker.EntryValidator] between the chain
    tracker and fast sync ([ChainTracker.fast_sync_validator]), [Handshake.BookService] and
    its laws between handshakes and the address book. Code outside the
    repository is a parameter with the documented behaviour that is relied on as named
    laws: the transaction library and its curve ([TxData.MoneroOxide], [Helpers.Dalek],
    [TxOps.MoneroCodec], [TxData.TransactionOps] and their law classes), proof-of-work
    hashes and RandomX VMs, Blake3, the clock, random numbers, the keys and the longest
    delay of tokio's queues of timers, and the order in which a heap is iterated. The [Test..] modules instantiate them.

    ** What is proved

    - _The chain and what is kept beside it_. Adding a block and popping it restores every
      table; the tables are a function of the chain; the difficulty and weight caches are,
      after any additions and pops, those made afresh from the chain. This is not so for
      the hard-fork state and the RandomX VMs: a pop from a full window of votes keeps the
      fork and panics beyond the window ([HardForkState.hardfork_pop_full_window]), a pop
      across a seed height loses a seed and a VM ([RxVms.rx_pop_seeds],
      [RxVms.rx_pop_loses_vm]); while the chain grows both are right. So the context task
      publishes what a freshly started one would up to the hard fork, which lies between
      that of the chain and that of the greatest height reached, and exactly that when the
      two are the same. The database answers as the caches assume. The manager keeps
      database and context in step; a reorganisation within one fork happens wholly or not
      at all, unless the verification of one of its blocks panics.
    - _The rules_. The semantic check of transactions and the check of blocks accept exactly
      what the rules, stated as predicates, allow; contextual checks are sound, down to the
      rings the signatures are over; a block creates no more coins than its reward;
      verification never panics; in a batch that passes, nothing is spent twice, every rule
      that no cached result covers holds and the batch verifier has accepted the range
      proofs; cached results carry over to longer chains.
    - _The pool_. Its services refine a map of transactions no two of which spend the same
      key image; the manager tracks exactly the stored transactions, with the right timers,
      and panics only if the maximum age is too long for the queue of the timers; what is
      let in is new, satisfies the rules on the stored chain and the relay rules; a fired
      timer relays its transaction or, at the maximum age, drops it.
    - _The network_. What the codecs write they read back, from any cutting of the stream,
      and so does every P2P message, up to the empty lists and the parts of IPv6 addresses
      that the format has no place for; whatever bytes a peer sends, reading never panics;
      a connection answers every request made of it once, and the only request that stays
      unanswered, and whose caller may panic, is one sent after the connection has ended in
      a slot reserved before; a handshake lets in only peers of the same network and enters
      them in the address book, and two nodes that may connect do. The block downloader
      gives on the blocks its peers told it of, in order, whatever peers answer, checked
      against the embedded hashes below their end; it never panics if its queue may hold
      something; the buffer behind it is first-in first-out, bounded but for a single item
      heavier than all of it, and loses no wake-up. The address book keeps its indexes
      right, never gives out, keeps or takes in an address of a banned host, and panics on
      its unfinished requests only, in the cases its theorem lists; within an epoch the
      transactions of one source leave by one peer, and a transaction in the stem is made
      public when its embargo ends, unless the key of its timer was remembered for another.

    Bounds and fuel. Most recursion is structural. [BlockchainService.compact_heights] takes
    fuel 80: its offsets double, enough for every height below 2^63. The codec loops of
    [Levin] take the state's pending work plus the length of the buffer, the searches of
    [Prelude.partition_point] and [EpeeValue.chunks] the length of the list,
    [Helpers.ilog10_loop] the digits of the largest word, and the walks over alternative
    chains in [AltBlocks] the number of chains, where running out is a [Panic] that the
    theorems exclude. Theorems on machine integers assume sizes that fit in memory (sums of
    lengths below 2^64) and heights below the sanity limit of the code, 500 000 000.

    ** What is not modelled

    Socket and file I/O, threads and task wiring, the LMDB and redb back ends (the tables
    are finite maps, a write transaction is all or nothing), the RPC and ZMQ surface
    (declarations with derived serialisation, and handlers much of which is [todo!()]), the
    command line and configuration, the CryptoNight hash functions (a hash is an argument
    of the rules), and test utilities. Parallel iteration is done in order: of several
    errors the code may report another one. Atomics are sequentially consistent. *)
From Stdlib Require Import ZArith Lia.
From stdpp Require Import base tactics option list numbers sets.

#[local] Open Scope Z_scope.

(** ** Outcomes of Rust functions

    [Ok] and [Err] are the two constructors of Rust's [Result]; [Panic] is the
    outcome of [unwrap]/[expect] on the wrong constructor, of a failed [assert!]
    and of an index or a slice range out of bounds. *)
Inductive result (E A : Type) : Type :=
  | Ok (a : A)
  | Err (e : E)
  | Panic.
Arguments Ok {E A} a.
Arguments Err {E A} e.
Arguments Panic {E A}.

#[export] Instance result_ret {E} : MRet (result E) := fun A a => Ok a.
#[export] Instance result_bind {E} : MBind (result E) :=
  fun A B f r => match r with Ok a => f a | Err e => Err e | Panic => Panic end.
#[export] Instance result_fmap {E} : FMap (result E) :=
  fun A B f r => match r with Ok a => Ok (f a) | Err e => Err e | Panic => Panic end.

#[export] Instance result_eq_dec {E A} `{EqDecision E, EqDecision A} : EqDecision (result E A).
Proof. solve_decision. Defined.

(** [r.map_err(f)?] *)
Definition map_err {E F A} (f : E -> F) (r : result E A) : result F A :=
  match r with Ok a => Ok a | Err e => Err (f e) | Panic => Panic end.

(** [o.ok_or(e)] *)
Definition ok_or {E A} (o : option A) (e : E) : result E A :=
  match o with Some a => Ok a | None => Err e end.

(** [o.unwrap()], [o.expect(..)] *)
Definition unwrap {E A} (o : option A) : result E A :=
  match o with Some a => Ok a | None => Panic end.

(** [r.expect(..)] of a [Result] *)
Definition expect {E F A} (r : result F A) : result E A :=
  match r with Ok a => Ok a | _ => Panic end.

(** [assert!(b)] *)
Definition rassert {E} (b : bool) : result E () := if b then Ok () else Panic.

(** [if !b { return Err(e) }] *)
Definition ensure {E} (b : bool) (e : E) : result E () := if b then Ok () else Err e.

(** [iter.try_for_each(f)]: the loop stops at the first error. *)
Fixpoint try_for_each {E A} (f : A -> result E ()) (l : list A) : result E () :=
  match l with
  | [] => Ok ()
  | x :: l => f x ≫= fun _ => try_for_each f l
  end.

(** A loop over [l] that updates an accumulator and may fail. *)
Fixpoint try_fold {E A S} (f : S -> A -> result E S) (s : S) (l : list A) : result E S :=
  match l with
  | [] => Ok s
  | x :: l => f s x ≫= fun s => try_fold f s l
  end.

(** [iter.map(f).collect::<Result<Vec<_>, _>>()] *)
Fixpoint collect {E A B} (f : A -> result E B) (l : list A) : result E (list B) :=
  match l with
  | [] => Ok []
  | x :: l => b ← f x; bs ← collect f l; Ok (b :: bs)
  end.

(** [iter.max()] *)
Definition iter_max (l : list Z) : option Z :=
  match l with [] => None | x :: l => Some (foldl Z.max x l) end.

(** [slice.partition_point(pred)]: the binary search of [core], here on the positions of
    the slice. *)
Fixpoint partition_loop (fuel : nat) (p : nat -> bool) (base size : nat) : nat :=
  match fuel with
  | O => base
  | S fuel =>
      if (size <=? 1)%nat then base
      else
        let half := (size / 2)%nat in
        let mid := (base + half)%nat in
        partition_loop fuel p (if p mid then mid else base) (size - half)
  end.

Definition partition_point {A} (pred : A -> bool) (l : list A) : nat :=
  let p i := match l !! i with Some x => pred x | None => false end in
  if (length l =? 0)%nat then 0%nat
  else
    let base := partition_loop (length l) p 0 (length l) in
    if p base then S base else base.

(** ** Fixed-width integers

    An integer of [w] bits is a [Z]; [wrap w] is the wrap-around of the release
    profile (which does not turn on overflow checks). *)
Definition wrap (w z : Z) : Z := z mod 2 ^ w.
Definition u64_MAX : Z := 2 ^ 64 - 1.

Definition is_u (w z : Z) : Prop := 0 <= z < 2 ^ w.

(** [a.checked_add(b)], [a.checked_sub(b)], [a.checked_mul(b)] at width [w]. *)
Definition checked_add (w a b : Z) : option Z := if a + b <? 2 ^ w then Some (a + b) else None.
Definition checked_sub (a b : Z) : option Z := if b <=? a then Some (a - b) else None.
Definition checked_mul (w a b : Z) : option Z := if a * b <? 2 ^ w then Some (a * b) else None.

(** [a.saturating_sub(b)], [a.saturating_add(b)] *)
Definition saturating_sub (a b : Z) : Z := Z.max 0 (a - b).
Definition saturating_add (w a b : Z) : Z := Z.min (2 ^ w - 1) (a + b).

(** [a << n] and [a >> n] at width [w]: the release profile masks the shift amount. *)
Definition shl (w a n : Z) : Z := wrap w (Z.shiftl a (n mod w)).
Definition shr (w a n : Z) : Z := Z.shiftr a (n mod w).

(** [usize] (and [u64]) arithmetic of the release profile on the 64-bit targets. *)
Declare Scope usize_scope.
Delimit Scope usize_scope with usize.
Notation "a +! b" := (wrap 64 (a + b)) (at level 50, left associativity) : usize_scope.
Notation "a -! b" := (wrap 64 (a - b)) (at level 50, left associativity) : usize_scope.
Notation "a *! b" := (wrap 64 (a * b)) (at level 40, left associativity) : usize_scope.

(** [iter().sum()] *)
Definition usize_sum (l : list Z) : Z := foldl (fun a b => wrap 64 (a + b)) 0 l.

(** [a.div_ceil(b)] *)
Definition div_ceil (a b : Z) : Z := if a mod b =? 0 then a / b else a / b + 1.

(** The length of a [Vec], slice or [VecDeque] as a [usize]. *)
Definition len {A} (l : list A) : Z := Z.of_nat (length l).

(** [l.get(i)] with an integer index *)
Definition lookZ {A} (l : list A) (i : Z) : option A := if i <? 0 then None else l !! Z.to_nat i.

(** ** Tactics *)

(** Turns boolean tests of hypotheses and goal into propositions. *)
Ltac bsimp :=
  repeat match goal with
  | H : (_ =? _) = true |- _ => apply Z.eqb_eq in H
  | H : (_ =? _) = false |- _ => apply Z.eqb_neq in H
  | H : (_ <=? _) = true |- _ => apply Z.leb_le in H
  | H : (_ <=? _) = false |- _ => apply Z.leb_gt in H
  | H : (_ <? _) = true |- _ => apply Z.ltb_lt in H
  | H : (_ <? _) = false |- _ => apply Z.ltb_ge in H
  | H : negb _ = true |- _ => apply negb_true_iff in H
  | H : negb _ = false |- _ => apply negb_false_iff in H
  | H : (_ && _)%bool = true |- _ => apply andb_true_iff in H; destruct H
  | H : (_ && _)%bool = false |- _ => apply andb_false_iff in H; destruct H
  | H : (_ || _)%bool = true |- _ => apply orb_true_iff in H; destruct H
  | H : (_ || _)%bool = false |- _ => apply orb_false_iff in H; destruct H
  end.

(** Splits on the tests of [if] and [match] in the goal, keeping the equations. *)
Ltac split_if :=
  repeat match goal with
  | |- context [if ?b then _ else _] =>
      lazymatch type of b with
      | bool => let E := fresh "Hb" in destruct b eqn:E
      end
  end; bsimp.

Ltac split_match :=
  repeat match goal with
  | |- context [match ?x with _ => _ end] => let E := fresh "Hm" in destruct x eqn:E
  end; bsimp.

(** Succeeds on closed arithmetic expressions. *)
Ltac closedZ n :=
  lazymatch n with
  | Z0 => idtac
  | Zpos _ => idtac
  | Zneg _ => idtac
  | ?a + ?b => closedZ a; closedZ b
  | ?a - ?b => closedZ a; closedZ b
  | ?a * ?b => closedZ a; closedZ b
  | ?a ^ ?b => closedZ a; closedZ b
  end.

(** Evaluates powers of two with closed exponents before [lia]. *)
Ltac zpow :=
  repeat match goal with
  | H : context [2 ^ ?n] |- _ =>
      closedZ n; let v := eval vm_compute in (2 ^ n) in change (2 ^ n) with v in H
  | |- context [2 ^ ?n] =>
      closedZ n; let v := eval vm_compute in (2 ^ n) in change (2 ^ n) with v
  end.

Ltac zlia := unfold is_u, u64_MAX in *; zpow; lia.

(** [lia] with division and modulo by numerals. *)
Ltac dlia := Z.to_euclidean_division_equations; lia.

(** ** Results *)
Section result_facts.
Context {E A B : Type}.

Lemma bind_Ok (r : result E A) (f : A -> result E B) b :
  r ≫= f = Ok b <-> exists a, r = Ok a /\ f a = Ok b.
Proof. split; [destruct r; cbn; eauto; discriminate|]. by intros (a & -> & H). Qed.

Lemma bind_Err (r : result E A) (f : A -> result E B) e :
  r ≫= f = Err e <-> r = Err e \/ exists a, r = Ok a /\ f a = Err e.
Proof.
  split; [destruct r; cbn; eauto; [left; congruence|discriminate]|].
  by intros [->|(a & -> & H)].
Qed.

Lemma bind_Panic (r : result E A) (f : A -> result E B) :
  r ≫= f = Panic <-> r = Panic \/ exists a, r = Ok a /\ f a = Panic.
Proof.
  split; [destruct r; cbn; eauto; discriminate|]. by intros [->|(a & -> & H)].
Qed.

Lemma ensure_Ok (b : bool) (e : E) u : ensure b e = Ok u <-> b = true.
Proof. destruct b, u; cbn; intuition congruence. Qed.

Lemma try_for_each_Ok (f : A -> result E ()) l u :
  try_for_each f l = Ok u <-> Forall (fun x => f x = Ok ()) l.
Proof.
  destruct u. induction l as [|x l IH]; cbn; [intuition constructor|].
  rewrite List.Forall_cons_iff, <- IH. destruct (f x) as [[]| |]; cbn; intuition congruence.
Qed.
End result_facts.

(** Takes apart [bind]s known to return [Ok]. *)
Ltac inv_ok :=
  repeat match goal with
  | H : _ ≫= _ = Ok _ |- _ =>
      apply bind_Ok in H; let x := fresh "v" in let H1 := fresh "Hok" in destruct H as (x & H1 & H)
  | H : ensure _ _ = Ok _ |- _ => apply ensure_Ok in H
  | H : Ok _ = Ok _ |- _ => injection H as H
  | H : Err _ = Ok _ |- _ => discriminate H
  | H : Panic = Ok _ |- _ => discriminate H
  end.

(** ** Integers *)
Lemma wrap_small w z : is_u w z -> wrap w z = z.
Proof. intros H. apply Z.mod_small, H. Qed.

Lemma wrap_is_u w z : 0 <= w -> is_u w (wrap w z).
Proof. intros H. apply Z.mod_pos_bound. lia. Qed.

Lemma shl_small w a n :
  0 <= n < w -> 0 <= a -> a * 2 ^ n < 2 ^ w -> shl w a n = a * 2 ^ n.
Proof.
  intros Hn Ha Hl. unfold shl. rewrite Z.mod_small, Z.shiftl_mul_pow2 by lia.
  apply wrap_small. split; lia.
Qed.

Lemma shr_small w a n : 0 <= n < w -> shr w a n = a / 2 ^ n.
Proof. intros Hn. unfold shr. rewrite Z.mod_small, Z.shiftr_div_pow2 by lia. done. Qed.

Lemma div_ceil_spec a b : 0 < b -> div_ceil a b = (a + b - 1) / b.
Proof.
  intros Hb. unfold div_ceil.
  pose proof (Z.mod_pos_bound a b Hb). pose proof (Z.div_mod a b ltac:(lia)) as Hd.
  destruct (Z.eqb_spec (a mod b) 0) as [E|E].
  - apply (Z.div_unique _ _ _ (b - 1)); lia.
  - apply (Z.div_unique _ _ _ (a mod b - 1)); lia.
Qed.

(** [q = a.div_ceil(b)] is the least [q] with [a <= q * b]. *)
Lemma div_ceil_le a b q : 0 < b -> div_ceil a b <= q <-> a <= q * b.
Proof.
  intros Hb. rewrite div_ceil_spec by done.
  split; intros H.
  - pose proof (Z.mod_pos_bound (a + b - 1) b Hb).
    pose proof (Z.div_mod (a + b - 1) b ltac:(lia)). nia.
  - apply Z.lt_succ_r, Z.div_lt_upper_bound; nia.
Qed.

(** Masking with [2^n - 1] and shifting, as arithmetic. *)
Lemma land_mask a n : 0 <= n -> Z.land a (2 ^ n - 1) = a mod 2 ^ n.
Proof. intros Hn. rewrite <- Z.land_ones by done. f_equal. rewrite Z.ones_equiv. lia. Qed.

Lemma shiftl_1 n : 0 <= n -> Z.shiftl 1 n = 2 ^ n.
Proof. intros Hn. rewrite Z.shiftl_mul_pow2 by done. lia. Qed.

(** Or-ing disjoint parts adds them. *)
Lemma lor_shiftl_add a b n : 0 <= n -> 0 <= b < 2 ^ n -> Z.lor (Z.shiftl a n) b = a * 2 ^ n + b.
Proof.
  intros Hn Hb. rewrite <- Z.shiftl_mul_pow2 by done.
  assert (Z.land (Z.shiftl a n) b = 0) as Hd.
  { apply Z.bits_inj'. intros i Hi. rewrite Z.land_spec, Z.bits_0, Z.shiftl_spec by done.
    destruct (decide (i < n)); [rewrite (Z.testbit_neg_r a) by lia; done|].
    rewrite <- (Z.mod_small b (2 ^ n)), Z.mod_pow2_bits_high by lia. apply andb_false_r. }
  rewrite Z.add_nocarry_lxor, Z.lxor_lor by done. done.
Qed.

(** ** Lists *)
Lemma filter_all {A} (P : A -> Prop) `{!forall x, Decision (P x)} l : Forall P l -> filter P l = l.
Proof.
  induction 1 as [|x l Hx _ IH]; [done|]. by rewrite filter_cons, decide_True, IH.
Qed.

(** ** Panic freedom *)
Create HintDb cuprate.
Create Rewrite HintDb cuprate.

Lemma np_bind {E A B} (r : result E A) (f : A -> result E B) :
  r <> Panic -> (forall a, r = Ok a -> f a <> Panic) -> r ≫= f <> Panic.
Proof. destruct r; cbn; auto; done. Qed.

Section panic_facts.
Context {E A : Type}.

Lemma np_try_for_each (f : A -> result E ()) l :
  (forall x, x ∈ l -> f x <> Panic) -> try_for_each f l <> Panic.
Proof.
  induction l as [|x l IH]; cbn [try_for_each]; [done|]. intros H.
  apply np_bind; [apply H; set_solver|]. intros _ _. apply IH. set_solver.
Qed.

Lemma np_try_fold {S} (f : S -> A -> result E S) s l :
  (forall s x, x ∈ l -> f s x <> Panic) -> try_fold f s l <> Panic.
Proof.
  revert s. induction l as [|x l IH]; intros s; cbn [try_fold]; [done|]. intros H.
  apply np_bind; [apply H; set_solver|]. intros s' _. apply IH. set_solver.
Qed.

Lemma np_ensure b (e : E) : ensure b e <> Panic.
Proof. by destruct b. Qed.

Lemma np_ok_or (o : option A) (e : E) : ok_or o e <> Panic.
Proof. by destruct o. Qed.

Lemma np_map_err {F} (f : E -> F) (r : result E A) : r <> Panic -> map_err f r <> Panic.
Proof. by destruct r. Qed.

Lemma ok_or_Ok (o : option A) (e : E) a : ok_or o e = Ok a <-> o = Some a.
Proof. destruct o; cbn; split; congruence. Qed.

Lemma map_err_Ok {F} (f : E -> F) (r : result E A) a : map_err f r = Ok a <-> r = Ok a.
Proof. destruct r; cbn; split; congruence. Qed.
End panic_facts.

#[export] Hint Resolve np_bind np_try_for_each np_try_fold np_ensure np_ok_or np_map_err : cuprate.

Lemma collect_Ok {E A B} (f : A -> result E B) l bs :
  collect f l = Ok bs <-> Forall2 (fun a b => f a = Ok b) l bs.
Proof.
  revert bs. induction l as [|a l IH]; intros bs; cbn [collect].
  { split; [intros [= <-]; constructor|]. intros H. by inversion H. }
  split.
  - intros H. apply bind_Ok in H as (b & Hb & H). apply bind_Ok in H as (bs' & Hbs & [= <-]).
    constructor; [done|]. by apply IH.
  - intros H. inversion H as [|? b ? bs' Hb Hbs]; subst. rewrite Hb. cbn [mbind result_bind].
    apply IH in Hbs. rewrite Hbs. done.
Qed.

Lemma collect_map {E A B D} (f : B -> result E D) (g : A -> B) l : collect f (map g l) = collect (fun x => f (g x)) l.
Proof. induction l as [|x l IH]; cbn [collect map]; [done|]. by rewrite IH. Qed.

Lemma np_collect {E A B} (f : A -> result E B) l :
  (forall x, x ∈ l -> f x <> Panic) -> collect f l <> Panic.
Proof.
  induction l as [|x l IH]; cbn [collect]; [done|]. intros H.
  apply np_bind; [apply H; set_solver|intros b _]. apply np_bind; [apply IH; set_solver|done].
Qed.

Lemma foldl_max_ge l y : y <= foldl Z.max y l /\ forall x, x ∈ l -> x <= foldl Z.max y l.
Proof.
  revert y. induction l as [|z l IH]; intros y; cbn [foldl]; [split; [done|set_solver]|].
  destruct (IH (Z.max y z)) as [H1 H2]. split; [lia|]. intros x. rewrite elem_of_cons. intros [-> |Hx]; [lia|auto].
Qed.

Lemma iter_max_ge l m x : iter_max l = Some m -> x ∈ l -> x <= m.
Proof.
  destruct l as [|y l]; [done|]. intros [= <-]. destruct (foldl_max_ge l y) as [H1 H2].
  rewrite elem_of_cons. intros [-> |Hx]; auto.
Qed.

Lemma foldl_max_le l y n : y <= n -> (forall x, x ∈ l -> x <= n) -> foldl Z.max y l <= n.
Proof.
  revert y. induction l as [|x l IH]; intros y Hy H; cbn; [done|].
  apply IH; [pose proof (H x ltac:(by left)); lia|]. intros z Hz. apply H. by right.
Qed.

Lemma iter_max_eq l n : n ∈ l -> (forall x, x ∈ l -> x <= n) -> iter_max l = Some n.
Proof.
  intros Hn H. destruct l as [|y l]; [by apply not_elem_of_nil in Hn|]. cbn. f_equal.
  pose proof (foldl_max_ge l y) as [Hy Hl].
  pose proof (foldl_max_le l y n (H y ltac:(by left)) (fun x Hx => H x (list_elem_of_further _ _ _ Hx))).
  apply elem_of_cons in Hn as [->|Hn]; [lia|]. specialize (Hl n Hn). lia.
Qed.

(** ** Integer indices *)
Lemma lookZ_lt {A} (l : list A) i x : lookZ l i = Some x -> 0 <= i < len l.
Proof.
  unfold lookZ. destruct (i <? 0) eqn:E; bsimp; [done|]. intros H. apply lookup_lt_Some in H. unfold len. lia.
Qed.

Lemma lookZ_is_Some {A} (l : list A) i : 0 <= i < len l -> is_Some (lookZ l i).
Proof.
  intros H. unfold lookZ. destruct (i <? 0) eqn:E; bsimp; [lia|]. apply lookup_lt_is_Some_2. unfold len in H. lia.
Qed.

Lemma lookZ_nat {A} (l : list A) (i : nat) : lookZ l (Z.of_nat i) = l !! i.
Proof. unfold lookZ. destruct (_ <? 0) eqn:E; bsimp; [lia|]. by rewrite Nat2Z.id. Qed.

Lemma lookZ_app_l {A} (l l' : list A) i : i < len l -> lookZ (l ++ l') i = lookZ l i.
Proof. intros H. unfold lookZ. destruct (i <? 0) eqn:E; bsimp; [done|]. apply lookup_app_l. unfold len in H. lia. Qed.

Lemma lookZ_snoc {A} (l : list A) x i : lookZ (l ++ [x]) i = if bool_decide (i = len l) then Some x else lookZ l i.
Proof.
  unfold lookZ, len. destruct (i <? 0) eqn:E; bsimp; case_bool_decide as Hi; try lia; [done| |].
  - subst. by rewrite Nat2Z.id, lookup_app_r, Nat.sub_diag by done.
  - destruct (decide (Z.to_nat i < length l)%nat); [by rewrite lookup_app_l by done|].
    rewrite lookup_app_r, (lookup_ge_None_2 l) by lia.
    apply lookup_ge_None_2. cbn. lia.
Qed.

(** ** Binary search *)
Lemma partition_loop_spec fuel p k base size :
  (forall i, (i < k)%nat -> p i = true) -> (forall i, (k <= i)%nat -> p i = false) ->
  (size <= fuel)%nat -> (1 <= size)%nat -> (base = 0 \/ base < k)%nat -> (k <= base + size)%nat ->
  let b := partition_loop fuel p base size in (b = 0 \/ b < k)%nat /\ (k <= S b)%nat.
Proof.
  intros Hlo Hhi. revert base size. induction fuel as [|fuel IH]; intros base size Hf H1 Hb Hk; [lia|].
  cbn [partition_loop]. destruct (Nat.leb_spec size 1); [split; [done|lia]|].
  pose proof (Nat.div_lt size 2 ltac:(lia) ltac:(lia)). assert (1 <= size / 2)%nat by (apply Nat.div_le_lower_bound; lia).
  destruct (Nat.lt_ge_cases (base + size / 2) k) as [Hm|Hm].
  - rewrite Hlo by done. apply IH; lia.
  - rewrite Hhi by done. apply IH; try lia. pose proof (Nat.Div0.mul_div_le size 2). lia.
Qed.

(** On a slice whose elements that satisfy the predicate come first, their number. *)
Lemma partition_point_spec {A} (pred : A -> bool) l1 l2 :
  Forall (fun x => pred x = true) l1 -> Forall (fun x => pred x = false) l2 ->
  partition_point pred (l1 ++ l2) = length l1.
Proof.
  intros H1 H2. unfold partition_point. rewrite length_app.
  destruct (Nat.eqb_spec (length l1 + length l2) 0); [lia|].
  set (p := fun i : nat => match (l1 ++ l2) !! i with Some x => pred x | None => false end).
  assert (forall i, (i < length l1)%nat -> p i = true) as Hlo.
  { intros i Hi. unfold p. rewrite lookup_app_l by done. destruct (lookup_lt_is_Some_2 l1 i Hi) as [x Hx].
    rewrite Hx. rewrite Forall_lookup in H1. eauto. }
  assert (forall i, (length l1 <= i)%nat -> p i = false) as Hhi.
  { intros i Hi. unfold p. rewrite lookup_app_r by done. destruct (l2 !! (i - length l1)%nat) as [x|] eqn:E; [|done].
    rewrite Forall_lookup in H2. eauto. }
  destruct (partition_loop_spec (length l1 + length l2) p (length l1) 0 (length l1 + length l2)) as [Hb Hk];
    [done|done|lia..|].
  change (partition_loop _ (fun i => _) 0 _) with (partition_loop (length l1 + length l2) p 0 (length l1 + length l2)).
  set (b := partition_loop _ _ _ _) in *. cbv beta zeta in Hb, Hk.
  change (match (l1 ++ l2) !! b with Some x => pred x | None => false end) with (p b).
  destruct (Nat.lt_ge_cases b (length l1)) as [Hlt|Hge].
  - rewrite Hlo by done. lia.
  - rewrite Hhi by done. lia.
Qed.

(** ** Sums with overflow checks *)
Definition sumZ (l : list Z) : Z := foldr Z.add 0 l.

Lemma sumZ_nonneg l : Forall (fun x => 0 <= x) l -> 0 <= sumZ l.
Proof. induction 1; cbn [sumZ foldr]; [done|]. fold (sumZ l). lia. Qed.

Lemma try_fold_ext {E A S} (f g : S -> A -> result E S) s l :
  (forall s x, f s x = g s x) -> try_fold f s l = try_fold g s l.
Proof.
  intros H. revert s. induction l as [|x l IH]; intros s; cbn [try_fold]; [done|].
  rewrite H. destruct (g s x); cbn; auto.
Qed.

Lemma collect_ext {E A B} (f g : A -> result E B) l : Forall (fun x => f x = g x) l -> collect f l = collect g l.
Proof. induction 1 as [|x l Hx _ IH]; cbn [collect]; [done|]. by rewrite Hx, IH. Qed.

Lemma try_fold_ext_Forall {E A S} (f g : S -> A -> result E S) s l :
  Forall (fun x => forall s, f s x = g s x) l -> try_fold f s l = try_fold g s l.
Proof. intros H. revert s. induction H as [|x l Hx _ IH]; intros s; cbn [try_fold]; [done|]. rewrite Hx. by destruct (g s x); cbn; [apply IH| |]. Qed.

Lemma try_fold_map {E A B S} (f : S -> B -> result E S) (g : A -> B) s l :
  try_fold f s (map g l) = try_fold (fun s x => f s (g x)) s l.
Proof. revert s. induction l as [|x l IH]; intros s; cbn [try_fold map]; [done|]. by destruct (f s (g x)); cbn. Qed.

(** A loop that checks each element and adds its amount with [checked_add]. *)
Lemma try_fold_checked_sum {E A} w (f : A -> Z) (g : A -> result E ()) (e : E) l s r :
  Forall (fun x => 0 <= f x) l -> s < 2 ^ w ->
  try_fold (fun s x => g x ≫= fun _ => ok_or (checked_add w s (f x)) e) s l = Ok r <->
  Forall (fun x => g x = Ok ()) l /\ r = s + sumZ (map f l) /\ r < 2 ^ w.
Proof.
  intros Hl. revert s. induction Hl as [|x l Hx Hl IH]; intros s Hs; cbn [try_fold map sumZ foldr].
  { split; [intros H; injection H as <-; split_and!; [constructor|lia|lia]|].
    intros (_ & -> & _). f_equal. lia. }
  fold (sumZ (map f l)). assert (0 <= sumZ (map f l)) by (apply sumZ_nonneg; by apply Forall_map).
  rewrite List.Forall_cons_iff. destruct (g x) as [[]| |]; cbn; [|split; [done|intuition congruence]..].
  unfold checked_add. destruct (_ <? _) eqn:E1; bsimp; cbn.
  - rewrite IH by done. intuition lia.
  - split; [done|]. intuition lia.
Qed.

#[export] Hint Resolve wrap_is_u : cuprate.

(** A sum of machine words that fits is the sum of the numbers. *)
Lemma usize_sum_fits l : Forall (fun x => 0 <= x) l -> sumZ l < 2 ^ 64 -> usize_sum l = sumZ l.
Proof.
  intros Hl Hs. unfold usize_sum. assert (forall a, 0 <= a -> a + sumZ l < 2 ^ 64 -> foldl (fun a b => wrap 64 (a + b)) a l = a + sumZ l) as H.
  { clear Hs. induction Hl as [|x l Hx Hl IH]; intros a Ha Hs; cbn [foldl sumZ foldr] in *; [lia|]. fold (sumZ l) in *.
    pose proof (sumZ_nonneg l Hl). rewrite wrap_small by (unfold is_u; lia). rewrite IH; lia. }
  rewrite H; lia.
Qed.
