(* ===== verification/Bytes.v ===== *)
(** * Byte buffers

    The part of the [bytes] crate's [Buf]/[BufMut] interface the codecs use: a
    reader is the list of the bytes that remain; a writer is what has been written
    and how much room is left ([remaining_mut]). A byte is a [Z] in [0, 256). *)
From S2P Require Import Prelude.
From Stdlib Require Import ZArith Lia.
From stdpp Require Import base tactics option list numbers.

#[local] Open Scope Z_scope.

Abbreviation bytes := (list Z).

Definition is_byte (b : Z) : Prop := 0 <= b < 256.

(** ** Little-endian integers *)
Fixpoint le_split (n : nat) (z : Z) : bytes :=
  match n with O => [] | S n => z mod 256 :: le_split n (z / 256) end.

Fixpoint le_combine (bs : bytes) : Z :=
  match bs with [] => 0 | b :: bs => b + 256 * le_combine bs end.

(** The two's-complement reading of a [w]-bit word. *)
Definition to_signed (w z : Z) : Z := if z <? 2 ^ (w - 1) then z else z - 2 ^ w.

(** ** Readers: [get_uN_le] and [get_iN_le] panic when bytes are missing. *)
Definition get_le {E} (n : nat) (r : bytes) : result E (Z * bytes) :=
  if len r <? Z.of_nat n then Panic else Ok (le_combine (take n r), drop n r).
Definition get_i_le {E} (n : nat) (r : bytes) : result E (Z * bytes) :=
  '(z, r) ← get_le n r; Ok (to_signed (8 * Z.of_nat n) z, r).

(** ** Writers *)
Record Writer := mk_writer { out : bytes; remaining_mut : Z }.

(** What [put_slice] does when there is room. *)
Definition put (bs : bytes) (w : Writer) : Writer :=
  mk_writer (out w ++ bs) (remaining_mut w - len bs).

(** A growable buffer ([Vec], [BytesMut]). *)
Definition new_buf : Writer := mk_writer [] (2 ^ 63 - 1).

(** ** Facts *)
Section byte_facts.
Context (n : nat).

Lemma length_le_split z : length (le_split n z) = n.
Proof. revert z. induction n; intros z; cbn; auto. Qed.

Lemma le_split_bytes z : Forall is_byte (le_split n z).
Proof.
  revert z. induction n; intros z; cbn; constructor; auto. unfold is_byte. dlia.
Qed.

Lemma le_combine_split z : le_combine (le_split n z) = z mod 2 ^ (8 * Z.of_nat n).
Proof.
  revert z. induction n as [|m IH]; intros z; cbn [le_split le_combine].
  { rewrite Z.mod_1_r. done. }
  rewrite IH. replace (8 * Z.of_nat (S m)) with (8 + 8 * Z.of_nat m) by lia.
  rewrite Z.pow_add_r by lia. change (2 ^ 8) with 256.
  rewrite Z.rem_mul_r by lia. done.
Qed.

End byte_facts.

Lemma len_le_split n z : len (le_split n z) = Z.of_nat n.
Proof. unfold len. by rewrite length_le_split. Qed.

Lemma le_combine_bound bs :
  Forall is_byte bs -> 0 <= le_combine bs < 2 ^ (8 * Z.of_nat (length bs)).
Proof.
  induction 1 as [|b bs Hb _ IH]; cbn [le_combine length]; [done|].
  replace (8 * Z.of_nat (S (length bs))) with (8 + 8 * Z.of_nat (length bs)) by lia.
  rewrite Z.pow_add_r by lia. change (2 ^ 8) with 256. unfold is_byte in Hb. lia.
Qed.

Lemma le_split_combine bs :
  Forall is_byte bs -> le_split (length bs) (le_combine bs) = bs.
Proof.
  induction 1 as [|b bs Hb _ IH]; cbn [le_split le_combine length]; [done|].
  unfold is_byte in Hb. f_equal.
  - rewrite Z.mul_comm, Z.mod_add by done. by apply Z.mod_small.
  - rewrite Z.mul_comm, Z.div_add, (Z.div_small b) by lia. done.
Qed.

Lemma le_split_byte b : is_byte b -> le_split 1 b = [b].
Proof. intros Hb. cbn. by rewrite Z.mod_small. Qed.

Lemma to_signed_wrap w z :
  0 < w -> - 2 ^ (w - 1) <= z < 2 ^ (w - 1) -> to_signed w (wrap w z) = z.
Proof.
  intros Hw Hz. unfold to_signed, wrap.
  assert (2 ^ w = 2 * 2 ^ (w - 1)) as Hp.
  { replace w with (1 + (w - 1)) at 1 by lia. rewrite Z.pow_add_r by lia. done. }
  destruct (decide (0 <= z)).
  - rewrite Z.mod_small by lia. destruct (_ <? _) eqn:E; bsimp; lia.
  - rewrite <- (Z.mod_add z 1 (2 ^ w)), Z.mod_small by lia.
    destruct (_ <? _) eqn:E; bsimp; lia.
Qed.

Lemma get_le_app {E} n bs r :
  length bs = n -> get_le (E := E) n (bs ++ r) = Ok (le_combine bs, r).
Proof.
  intros <-. unfold get_le, len. rewrite length_app.
  destruct (_ <? _) eqn:E1; bsimp; [lia|].
  by rewrite take_app_length, drop_app_length.
Qed.

Lemma get_le_split {E} n z r :
  is_u (8 * Z.of_nat n) z -> get_le (E := E) n (le_split n z ++ r) = Ok (z, r).
Proof.
  intros Hz. rewrite get_le_app by apply length_le_split.
  rewrite le_combine_split. by rewrite Z.mod_small.
Qed.

Lemma get_i_le_split {E} n z r :
  (0 < n)%nat -> - 2 ^ (8 * Z.of_nat n - 1) <= z < 2 ^ (8 * Z.of_nat n - 1) ->
  get_i_le (E := E) n (le_split n (wrap (8 * Z.of_nat n) z) ++ r) = Ok (z, r).
Proof.
  intros Hn Hz. unfold get_i_le. rewrite get_le_split by (apply wrap_is_u; lia).
  cbn. by rewrite to_signed_wrap by lia.
Qed.

Lemma put_nil w : put [] w = w.
Proof. destruct w. unfold put, len. cbn. rewrite app_nil_r. f_equal. lia. Qed.

Lemma len_app {A} (l1 l2 : list A) : len (l1 ++ l2) = len l1 + len l2.
Proof. unfold len. rewrite length_app. lia. Qed.

Lemma len_cons {A} (x : A) (l : list A) : len (x :: l) = len l + 1.
Proof. unfold len. cbn [length]. lia. Qed.

Lemma len_nonneg {A} (l : list A) : 0 <= len l.
Proof. unfold len. lia. Qed.

Lemma len_map {A B} (f : A -> B) (l : list A) : len (map f l) = len l.
Proof. unfold len. by rewrite length_map. Qed.

Lemma put_put bs1 bs2 w : put bs2 (put bs1 w) = put (bs1 ++ bs2) w.
Proof. unfold put. cbn. rewrite len_app, <- app_assoc. f_equal. lia. Qed.

#[export] Hint Resolve le_split_bytes len_nonneg : cuprate.
#[export] Hint Rewrite @len_app @len_le_split put_put : cuprate.
