(* ===== verification/EpeeValue.v ===== *)
(** * Epee values ([src/net/epee-encoding/src]: [varint.rs], [marker.rs], [io.rs],
    [error.rs], [value.rs], [container_as_blob.rs])

    Variable-length integers, type markers, checked reads and writes, and the
    [EpeeValue] implementations, each with the law that reading back what was
    written gives the value and leaves what follows. *)
From S2P Require Import Prelude Bytes.
From Stdlib Require Import ZArith Lia String.
From stdpp Require Import base tactics option list numbers.

#[local] Open Scope Z_scope.

Module Epee.

(** ** Errors ([error.rs]) *)
Inductive Error :=
  | IO (msg : string)
  | Format (msg : string)
  | Value (msg : string).

Abbreviation Result := (result Error).

(** [From<TryFromIntError>] and [From<Utf8Error>] *)
Definition from_try_from_int : Error := Value "Int is too large".
Definition from_utf8_error : Error := Value "Invalid utf8 str".

(** ** Checked reads and writes ([io.rs]) *)
Definition checked_read {R} (b : bytes) (read : bytes -> Result (R * bytes)) (size : Z)
    : Result (R * bytes) :=
  if len b <? size then Err (IO "Not enough bytes in buffer to build object.") else read b.

Definition checked_write (w : Writer) (write : Writer -> Writer) (size : Z) : Result Writer :=
  if remaining_mut w <? size then Err (IO "Not enough capacity to write object.")
  else Ok (write w).

(** [copy_to_bytes(n)] and [advance(n)] of [Buf] panic past the end. *)
Definition copy_to_bytes {E} (n : Z) (r : bytes) : result E (bytes * bytes) :=
  if len r <? n then Panic else Ok (take (Z.to_nat n) r, drop (Z.to_nat n) r).

(** ** Varints ([varint.rs]) *)
Definition SIZE_OF_SIZE_MARKER : Z := 2.
Definition FITS_IN_ONE_BYTE : Z := 2 ^ (8 - SIZE_OF_SIZE_MARKER) - 1.
Definition FITS_IN_TWO_BYTES : Z := 2 ^ (16 - SIZE_OF_SIZE_MARKER) - 1.
Definition FITS_IN_FOUR_BYTES : Z := 2 ^ (32 - SIZE_OF_SIZE_MARKER) - 1.

(** The loop [for i in 1..len { vi |= u64::from(r.get_u8()) << (((i - 1) * 8) + 6) }]. *)
Fixpoint varint_loop (i : Z) (bs : bytes) (vi : Z) : Z :=
  match bs with
  | [] => vi
  | b :: bs => varint_loop (i + 1) bs (Z.lor vi (shl 64 b ((i - 1) * 8 + 6)))
  end.

(** [read_varint::<_, T>]: [max] is the largest [u64] that [T::try_from] accepts. *)
Definition read_varint (max : Z) (r : bytes) : Result (Z * bytes) :=
  match r with
  | [] => Err (IO "Not enough bytes to build VarInt")
  | vi_start :: r =>
      let len_ := Z.shiftl 1 (Z.land vi_start 3) in
      if len r <? len_ - 1 then Err (IO "Not enough bytes to build VarInt")
      else
        let n := Z.to_nat (len_ - 1) in
        let vi := varint_loop 1 (take n r) (Z.shiftr vi_start 2) in
        if vi <=? max then Ok (vi, drop n r) else Err (IO "VarInt is too big")
  end.

(** The largest [u64] accepted by [usize::try_from] / [u64::try_from], and by
    [i32::try_from]. *)
Definition max_usize : Z := 2 ^ 64 - 1.
Definition max_i32 : Z := 2 ^ 31 - 1.

Definition write_varint (number : Z) (w : Writer) : Result Writer :=
  number ← unwrap (if (0 <=? number) && (number <? 2 ^ 64) then Some number else None);
  let size_marker :=
    if number <=? FITS_IN_ONE_BYTE then 0
    else if number <=? FITS_IN_TWO_BYTES then 1
    else if number <=? FITS_IN_FOUR_BYTES then 2
    else 3 in
  if remaining_mut w <? Z.shiftl 1 size_marker
  then Err (IO "Not enough capacity to write VarInt")
  else
    let number := Z.lor (shl 64 number 2) size_marker in
    Ok (put (if size_marker =? 0 then le_split 1 number
             else if size_marker =? 1 then le_split 2 number
             else if size_marker =? 2 then le_split 4 number
             else le_split 8 number) w).

(** ** Markers ([marker.rs]) *)
Inductive InnerMarker :=
  | I64 | I32 | I16 | I8 | U64 | U32 | U16 | U8 | F64 | String_ | Bool | Object.

Definition InnerMarker_size (m : InnerMarker) : option Z :=
  match m with
  | I64 | U64 | F64 => Some 8
  | I32 | U32 => Some 4
  | I16 | U16 => Some 2
  | I8 | U8 | Bool => Some 1
  | String_ | Object => None
  end.

Record Marker := mk_marker { inner_marker : InnerMarker; is_seq : bool }.

#[export] Instance InnerMarker_eq_dec : EqDecision InnerMarker.
Proof. solve_decision. Defined.
#[export] Instance Marker_eq_dec : EqDecision Marker.
Proof. solve_decision. Defined.

Definition Marker_new (i : InnerMarker) : Marker := mk_marker i false.

(** [into_seq]; its [assert!] is evaluated at compile time on the constant markers
    of [value.rs], none of which is a sequence. *)
Definition into_seq (m : Marker) : Marker :=
  match inner_marker m with
  | U8 => mk_marker String_ false
  | i => mk_marker i true
  end.

Definition as_u8 (m : Marker) : Z :=
  let marker_val :=
    match inner_marker m with
    | I64 => 1 | I32 => 2 | I16 => 3 | I8 => 4 | U64 => 5 | U32 => 6 | U16 => 7 | U8 => 8
    | F64 => 9 | String_ => 10 | Bool => 11 | Object => 12
    end in
  if is_seq m then Z.lor marker_val 0x80 else marker_val.

Definition Marker_try_from (value : Z) : Result Marker :=
  let is_seq := 0 <? Z.land value 0x80 in
  let value := if is_seq then Z.lxor value 0x80 else value in
  inner ← (match value with
           | 1 => Ok I64 | 2 => Ok I32 | 3 => Ok I16 | 4 => Ok I8 | 5 => Ok U64 | 6 => Ok U32
           | 7 => Ok U16 | 8 => Ok U8 | 9 => Ok F64 | 10 => Ok String_ | 11 => Ok Bool
           | 12 => Ok Object
           | _ => Err (Format "Unknown value Marker")
           end);
  Ok (mk_marker inner is_seq).

(** ** The [EpeeValue] trait ([value.rs]) *)
Record EpeeValue (T : Type) := {
  MARKER : Marker;
  read : bytes -> Marker -> Result (T * bytes);
  should_write : T -> bool;
  epee_default_value : option T;
  write : T -> Writer -> Result Writer;
}.
Arguments MARKER {T}.
Arguments read {T}.
Arguments should_write {T}.
Arguments epee_default_value {T}.
Arguments write {T}.

Definition MAX_STRING_LEN_POSSIBLE : Z := 2000000000.

(** [read_marker], [read_epee_value] and [write_epee_value] of [lib.rs] *)
Definition read_marker (r : bytes) : Result (Marker * bytes) :=
  '(b, r) ← checked_read r (get_le 1) 1;
  m ← Marker_try_from b;
  Ok (m, r).

Definition read_epee_value {T} (V : EpeeValue T) (r : bytes) : Result (T * bytes) :=
  '(marker, r) ← read_marker r;
  read V r marker.

Definition write_epee_value {T} (V : EpeeValue T) (val : T) (w : Writer) : Result Writer :=
  w ← checked_write w (put (le_split 1 (as_u8 (MARKER V)))) 1;
  write V val w.

(** [write_bytes] of [lib.rs] *)
Definition write_bytes (t : bytes) (w : Writer) : Result Writer :=
  w ← write_varint (len t) w;
  if remaining_mut w <? len t then Err (IO "Not enough capacity to write bytes")
  else Ok (put t w).

(** [write_iterator] of [lib.rs] *)
Definition write_iterator {T} (V : EpeeValue T) (items : list T) (w : Writer) : Result Writer :=
  w ← write_varint (len items) w;
  try_fold (fun w item => write V item w) w items.

(** [epee_numb!]: an unsigned or signed integer of [n] bytes. *)
Definition marker_mismatch : Error := Format "Marker does not match expected Marker".

Definition epee_uint (m : InnerMarker) (n : nat) : EpeeValue Z := {|
  MARKER := Marker_new m;
  read r marker :=
    if decide (marker = Marker_new m) then checked_read r (get_le n) (Z.of_nat n)
    else Err marker_mismatch;
  should_write _ := true;
  epee_default_value := None;
  write v w := checked_write w (put (le_split n v)) (Z.of_nat n);
|}.

Definition epee_int (m : InnerMarker) (n : nat) : EpeeValue Z := {|
  MARKER := Marker_new m;
  read r marker :=
    if decide (marker = Marker_new m) then checked_read r (get_i_le n) (Z.of_nat n)
    else Err marker_mismatch;
  should_write _ := true;
  epee_default_value := None;
  write v w := checked_write w (put (le_split n (wrap (8 * Z.of_nat n) v))) (Z.of_nat n);
|}.

Definition epee_i64 := epee_int I64 8.
Definition epee_i32 := epee_int I32 4.
Definition epee_i16 := epee_int I16 2.
Definition epee_i8 := epee_int I8 1.
Definition epee_u8 := epee_uint U8 1.
Definition epee_u16 := epee_uint U16 2.
Definition epee_u32 := epee_uint U32 4.
Definition epee_u64 := epee_uint U64 8.
(** [f64], as its IEEE bit pattern *)
Definition epee_f64 := epee_uint F64 8.

Definition epee_bool : EpeeValue bool := {|
  MARKER := Marker_new Bool;
  read r marker :=
    if decide (marker = Marker_new Bool) then
      '(b, r) ← checked_read r (get_le 1) 1; Ok (negb (b =? 0), r)
    else Err marker_mismatch;
  should_write _ := true;
  epee_default_value := None;
  write v w := checked_write w (put (le_split 1 (if v : bool then 1 else 0))) 1;
|}.

(** [Vec<u8>], [Bytes] and [BytesMut] *)
Definition epee_bytes : EpeeValue bytes := {|
  MARKER := Marker_new String_;
  read r marker :=
    if decide (marker = Marker_new String_) then
      '(n, r) ← read_varint max_usize r;
      if MAX_STRING_LEN_POSSIBLE <? n then Err (Format "Byte array exceeded max length")
      else if len r <? n then Err (IO "Not enough bytes to fill object")
      else copy_to_bytes n r
    else Err marker_mismatch;
  should_write v := negb (len v =? 0);
  epee_default_value := Some [];
  write v w := write_bytes v w;
|}.

(** [[u8; N]] *)
Definition epee_byte_array (N : nat) : EpeeValue bytes := {|
  MARKER := Marker_new String_;
  read r marker :=
    '(bs, r) ← read epee_bytes r marker;
    if negb (len bs =? Z.of_nat N) then Err (Format "Byte array has incorrect length")
    else Ok (bs, r);
  should_write _ := true;
  epee_default_value := None;
  write v w := write_bytes v w;
|}.

(** UTF-8 validation as [core::str::from_utf8] does it. *)
Definition utf8_cont (b : Z) : bool := (0x80 <=? b) && (b <=? 0xBF).
Definition between (lo b hi : Z) : bool := (lo <=? b) && (b <=? hi).

Fixpoint utf8_valid (bs : bytes) : bool :=
  match bs with
  | [] => true
  | b0 :: t0 =>
      if b0 <? 0x80 then utf8_valid t0
      else if between 0xC2 b0 0xDF then
        match t0 with b1 :: t1 => utf8_cont b1 && utf8_valid t1 | _ => false end
      else if between 0xE0 b0 0xEF then
        match t0 with
        | b1 :: b2 :: t2 =>
            between (if b0 =? 0xE0 then 0xA0 else 0x80) b1 (if b0 =? 0xED then 0x9F else 0xBF)
            && utf8_cont b2 && utf8_valid t2
        | _ => false
        end
      else if between 0xF0 b0 0xF4 then
        match t0 with
        | b1 :: b2 :: b3 :: t3 =>
            between (if b0 =? 0xF0 then 0x90 else 0x80) b1 (if b0 =? 0xF4 then 0x8F else 0xBF)
            && utf8_cont b2 && utf8_cont b3 && utf8_valid t3
        | _ => false
        end
      else false
  end.

(** [String], as its UTF-8 bytes *)
Definition epee_string : EpeeValue bytes := {|
  MARKER := Marker_new String_;
  read r marker :=
    '(bs, r) ← read epee_bytes r marker;
    if utf8_valid bs then Ok (bs, r) else Err (Format "Invalid string");
  should_write v := negb (len v =? 0);
  epee_default_value := Some [];
  write v w := write_bytes v w;
|}.

(** The loop [for _ in 0..len { res.push(T::read(r, &individual_marker)?) }]. *)
Fixpoint read_items {T} (V : EpeeValue T) (m : Marker) (n : nat) (r : bytes) : Result (list T * bytes) :=
  match n with
  | O => Ok ([], r)
  | S n =>
      '(x, r) ← read V r m;
      '(xs, r) ← read_items V m n r;
      Ok (x :: xs, r)
  end.

(** [Vec<T>] ([epee_seq!], and the implementations for vectors of objects and of
    byte arrays). *)
Definition epee_vec {T} (V : EpeeValue T) : EpeeValue (list T) := {|
  MARKER := into_seq (MARKER V);
  read r marker :=
    if negb (is_seq marker)
    then Err (Format "Marker is not sequence when a sequence was expected")
    else
      '(n, r) ← read_varint max_usize r;
      read_items V (Marker_new (inner_marker marker)) (Z.to_nat n) r;
  should_write v := negb (len v =? 0);
  epee_default_value := Some [];
  write v w := write_iterator V v w;
|}.

(** [[T; N]] *)
Definition epee_array {T} (V : EpeeValue T) (N : nat) : EpeeValue (list T) := {|
  MARKER := into_seq (MARKER V);
  read r marker :=
    '(vs, r) ← read (epee_vec V) r marker;
    if negb (len vs =? Z.of_nat N) then Err (Format "Array has incorrect length")
    else Ok (vs, r);
  should_write _ := true;
  epee_default_value := None;
  write v w := write_iterator V v w;
|}.

(** [Option<T>] *)
Definition epee_option {T} (V : EpeeValue T) : EpeeValue (option T) := {|
  MARKER := MARKER V;
  read r marker := '(v, r) ← read V r marker; Ok (Some v, r);
  should_write v := match v with Some t => should_write V t | None => false end;
  epee_default_value := Some None;
  write v w := match v with Some t => write V t w | None => Panic end;
|}.

(** [ContainerAsBlob<T>] for an integer of [n] bytes ([container_as_blob.rs]). *)
Fixpoint chunks (k : nat) (fuel : nat) (bs : bytes) : list bytes :=
  match fuel, bs with
  | _, [] | O, _ => []
  | S fuel, _ => take k bs :: chunks k fuel (drop k bs)
  end.

Definition epee_blob (n : nat) : EpeeValue (list Z) := {|
  MARKER := Marker_new String_;
  read r marker :=
    '(bs, r) ← read epee_bytes r marker;
    if negb (len bs mod Z.of_nat n =? 0)
    then Err (Value "Can't convert blob container to Vec type.")
    else Ok (map le_combine (chunks n (length bs) bs), r);
  should_write v := negb (len v =? 0);
  epee_default_value := Some [];
  write v w := write (epee_bytes) (concat (map (le_split n) v)) w;
|}.

(** ** Varints: reading and writing *)
Lemma varint_loop_spec bs : forall i vi,
  1 <= i -> Forall is_byte bs -> 0 <= vi < 2 ^ ((i - 1) * 8 + 6) ->
  (i - 1) * 8 + 6 + 8 * len bs <= 64 ->
  varint_loop i bs vi = vi + 2 ^ ((i - 1) * 8 + 6) * le_combine bs.
Proof.
  induction bs as [|b bs IH]; intros i vi Hi Hbs Hvi Hlen; cbn [varint_loop le_combine]; [lia|].
  inversion_clear Hbs as [|? ? Hb Hbs']. unfold len in Hlen. cbn [length] in Hlen. unfold is_byte in Hb.
  set (s := (i - 1) * 8 + 6) in *.
  assert (0 < 2 ^ s) by (apply Z.pow_pos_nonneg; lia).
  assert (2 ^ (i * 8 + 6) = 256 * 2 ^ s) as Hs.
  { replace (i * 8 + 6) with (8 + s) by lia. rewrite Z.pow_add_r by lia. done. }
  assert (b * 2 ^ s < 2 ^ 64) as Hfit.
  { apply Z.lt_le_trans with (256 * 2 ^ s); [nia|]. rewrite <- Hs. apply Z.pow_le_mono_r; lia. }
  rewrite shl_small, Z.lor_comm by lia.
  rewrite <- Z.shiftl_mul_pow2, lor_shiftl_add by lia.
  rewrite IH; [| lia | done | | unfold len; lia];
    replace ((i + 1 - 1) * 8 + 6) with (i * 8 + 6) by lia; rewrite Hs; nia.
Qed.

(** The size marker of a number and its encoding. *)
Definition varint_marker (n : Z) : Z :=
  if n <=? FITS_IN_ONE_BYTE then 0
  else if n <=? FITS_IN_TWO_BYTES then 1
  else if n <=? FITS_IN_FOUR_BYTES then 2
  else 3.

Definition varint_bytes (n : Z) : bytes :=
  le_split (Z.to_nat (2 ^ varint_marker n)) (4 * n + varint_marker n).

Lemma varint_marker_bound n :
  0 <= n < 2 ^ 62 -> 0 <= varint_marker n <= 3 /\
  0 <= 4 * n + varint_marker n < 2 ^ (8 * 2 ^ varint_marker n).
Proof.
  intros Hn. unfold varint_marker, FITS_IN_ONE_BYTE, FITS_IN_TWO_BYTES, FITS_IN_FOUR_BYTES,
    SIZE_OF_SIZE_MARKER. split_if; zpow; lia.
Qed.

Lemma len_varint_bytes n : 0 <= n < 2 ^ 62 -> len (varint_bytes n) = 2 ^ varint_marker n.
Proof.
  intros Hn. apply varint_marker_bound in Hn. unfold varint_bytes. rewrite len_le_split.
  rewrite Z2Nat.id; [done|]. apply Z.pow_nonneg. lia.
Qed.

Lemma write_varint_spec n w :
  0 <= n < 2 ^ 62 ->
  write_varint n w =
    if remaining_mut w <? len (varint_bytes n) then Err (IO "Not enough capacity to write VarInt")
    else Ok (put (varint_bytes n) w).
Proof.
  intros Hn. rewrite len_varint_bytes by done. destruct (varint_marker_bound n Hn) as [Hm Hb].
  unfold write_varint. replace ((0 <=? n) && (n <? 2 ^ 64)) with true
    by (symmetry; apply andb_true_iff; rewrite Z.leb_le, Z.ltb_lt; zpow; lia).
  cbn [unwrap mbind result_bind]. fold (varint_marker n). rewrite shiftl_1 by lia.
  destruct (remaining_mut w <? _); [done|]. do 2 f_equal. unfold varint_bytes.
  rewrite shl_small by (zpow; lia). rewrite <- Z.shiftl_mul_pow2, lor_shiftl_add by (zpow; lia).
  replace (n * 2 ^ 2 + varint_marker n) with (4 * n + varint_marker n) by (zpow; lia).
  assert (varint_marker n = 0 \/ varint_marker n = 1 \/ varint_marker n = 2 \/ varint_marker n = 3)
    as [E|[E|[E|E]]] by lia; rewrite E; reflexivity.
Qed.

Lemma read_varint_le k x max r :
  is_u (8 * 2 ^ k) x -> x mod 4 = k ->
  read_varint max (le_split (Z.to_nat (2 ^ k)) x ++ r) =
    if x / 4 <=? max then Ok (x / 4, r) else Err (IO "VarInt is too big").
Proof.
  intros Hx Hk. assert (0 <= k < 4) by (rewrite <- Hk; dlia).
  assert (1 <= 2 ^ k <= 8) as Hk2.
  { split; [change 1 with (2 ^ 0)|change 8 with (2 ^ 3)]; apply Z.pow_le_mono_r; lia. }
  destruct (Z.to_nat (2 ^ k)) as [|n] eqn:En; [lia|]. cbn [le_split app read_varint].
  change 3 with (2 ^ 2 - 1). rewrite land_mask by lia.
  replace ((x mod 256) mod 2 ^ 2) with k by (rewrite <- Hk; zpow; dlia).
  rewrite shiftl_1, len_app, len_le_split by lia. pose proof (len_nonneg r).
  destruct (_ <? 2 ^ k - 1) eqn:E; bsimp; [lia|].
  replace (Z.to_nat (2 ^ k - 1)) with n by lia.
  rewrite take_app_le, drop_app_le, take_ge, drop_ge by (rewrite length_le_split; lia).
  rewrite varint_loop_spec; [| lia | apply le_split_bytes | | rewrite len_le_split; lia].
  2: { rewrite Z.shiftr_div_pow2 by lia. zpow. dlia. }
  rewrite le_combine_split, Z.shiftr_div_pow2 by lia.
  rewrite (Z.mod_small (x / 256)).
  2: { split; [apply Z.div_pos; unfold is_u in *; lia|]. apply Z.div_lt_upper_bound; [lia|].
       change 256 with (2 ^ 8). rewrite <- Z.pow_add_r by lia.
       replace (8 + 8 * Z.of_nat n) with (8 * 2 ^ k) by lia. apply Hx. }
  change ((1 - 1) * 8 + 6) with 6. replace (x mod 256 / 2 ^ 2 + 2 ^ 6 * (x / 256)) with (x / 4)
    by (zpow; dlia). done.
Qed.

(** ** The law of an [EpeeValue] implementation

    [enc] is what [write] appends. With room for it, [write] succeeds; without, it
    returns an I/O error and never panics; and [read], given the marker of the type,
    gives the value back and leaves exactly what follows. *)
Class EpeeLaws {T} (V : EpeeValue T) (valid : T -> Prop) := {
  enc : T -> bytes;
  write_enc v w : valid v -> len (enc v) <= remaining_mut w -> write V v w = Ok (put (enc v) w);
  write_full v w : valid v -> 0 <= remaining_mut w < len (enc v) -> exists msg, write V v w = Err (IO msg);
  read_enc v r : valid v -> read V (enc v ++ r) (MARKER V) = Ok (v, r);
}.

Lemma read_varint_bytes n max r :
  0 <= n < 2 ^ 62 ->
  read_varint max (varint_bytes n ++ r) =
    if n <=? max then Ok (n, r) else Err (IO "VarInt is too big").
Proof.
  intros Hn. destruct (varint_marker_bound n Hn) as [Hm Hb].
  unfold varint_bytes. rewrite read_varint_le by (done || dlia).
  by replace ((4 * n + varint_marker n) / 4) with n by dlia.
Qed.

Lemma checked_write_put bs w n :
  n = len bs -> len bs <= remaining_mut w -> checked_write w (put bs) n = Ok (put bs w).
Proof. intros -> H. unfold checked_write. destruct (_ <? _) eqn:E; bsimp; [lia|done]. Qed.

Lemma checked_write_full bs w n :
  n = len bs -> remaining_mut w < len bs -> exists msg, checked_write w (put bs) n = Err (IO msg).
Proof. intros -> H. unfold checked_write. destruct (_ <? _) eqn:E; bsimp; [by eexists|lia]. Qed.

Lemma checked_read_app {R} bs r (f : bytes -> Result (R * bytes)) n :
  n = len bs -> checked_read (bs ++ r) f n = f (bs ++ r).
Proof.
  intros ->. unfold checked_read. rewrite len_app. pose proof (len_nonneg r).
  destruct (_ <? _) eqn:E; bsimp; [lia|done].
Qed.

#[export] Instance epee_uint_laws m n : EpeeLaws (epee_uint m n) (is_u (8 * Z.of_nat n)).
Proof.
  refine {| enc v := le_split n v |}; cbn.
  - intros v w Hv Hw. apply checked_write_put; [by rewrite len_le_split|done].
  - intros v w Hv Hw. apply checked_write_full; [by rewrite len_le_split|lia].
  - intros v r Hv. rewrite decide_True by done.
    rewrite checked_read_app by (by rewrite len_le_split). by apply get_le_split.
Defined.

Definition fits_signed (n : nat) (z : Z) : Prop :=
  - 2 ^ (8 * Z.of_nat n - 1) <= z < 2 ^ (8 * Z.of_nat n - 1).

#[export] Instance epee_int_laws m n : EpeeLaws (epee_int m (S n)) (fits_signed (S n)).
Proof.
  refine {| enc v := le_split (S n) (wrap (8 * Z.of_nat (S n)) v) |}; unfold epee_int; cbn [write read MARKER].
  - intros v w Hv Hw. apply checked_write_put; [by rewrite len_le_split|done].
  - intros v w Hv Hw. apply checked_write_full; [by rewrite len_le_split|lia].
  - intros v r Hv. rewrite decide_True by done.
    rewrite checked_read_app by (by rewrite len_le_split). apply get_i_le_split; [lia|done].
Defined.

#[export] Instance epee_bool_laws : EpeeLaws epee_bool (fun _ => True).
Proof.
  refine {| enc v := le_split 1 (if v : bool then 1 else 0) |}; unfold epee_bool; cbn [write read MARKER].
  - intros v w Hv Hw. apply checked_write_put; [by rewrite len_le_split|done].
  - intros v w Hv Hw. apply checked_write_full; [by rewrite len_le_split|lia].
  - intros v r Hv. rewrite decide_True by done.
    rewrite checked_read_app by (by rewrite len_le_split).
    rewrite get_le_split by (destruct v; zlia). by destruct v.
Defined.

Lemma write_bytes_spec t w :
  len t < 2 ^ 62 ->
  (len (varint_bytes (len t) ++ t) <= remaining_mut w ->
     write_bytes t w = Ok (put (varint_bytes (len t) ++ t) w)) /\
  (remaining_mut w < len (varint_bytes (len t) ++ t) -> exists msg, write_bytes t w = Err (IO msg)).
Proof.
  intros Ht. pose proof (len_nonneg t). unfold write_bytes.
  rewrite write_varint_spec by lia. rewrite len_app.
  destruct (remaining_mut w <? len (varint_bytes (len t))) eqn:E; bsimp; cbn [mbind result_bind];
    [split; [lia|by intros _; eexists]|].
  cbn [remaining_mut put]. destruct (_ <? len t) eqn:E2; bsimp; [split; [lia|by intros _; eexists]|].
  rewrite put_put. split; [done|lia].
Qed.

Lemma copy_to_bytes_app {E} bs r : copy_to_bytes (E := E) (len bs) (bs ++ r) = Ok (bs, r).
Proof.
  unfold copy_to_bytes. rewrite len_app. pose proof (len_nonneg r).
  destruct (_ <? _) eqn:E1; bsimp; [lia|]. unfold len. rewrite Nat2Z.id.
  by rewrite take_app_length, drop_app_length.
Qed.

Lemma read_bytes_app t r :
  len t <= MAX_STRING_LEN_POSSIBLE ->
  read epee_bytes ((varint_bytes (len t) ++ t) ++ r) (Marker_new String_) = Ok (t, r).
Proof.
  intros Ht. pose proof (len_nonneg t). pose proof (len_nonneg r).
  unfold MAX_STRING_LEN_POSSIBLE in Ht. unfold epee_bytes. cbn [read]. rewrite decide_True by done.
  rewrite <- app_assoc, read_varint_bytes by (zpow; lia).
  replace (len t <=? max_usize) with true by (symmetry; apply Z.leb_le; unfold max_usize; zpow; lia).
  cbn [mbind result_bind]. unfold MAX_STRING_LEN_POSSIBLE. rewrite len_app.
  destruct (_ <? len t) eqn:E; bsimp; [lia|]. destruct (_ <? len t) eqn:E2; bsimp; [lia|].
  apply copy_to_bytes_app.
Qed.

(** The byte-like implementations share their encoding. *)
Definition string_enc (t : bytes) : bytes := varint_bytes (len t) ++ t.

Lemma string_max_62 (t : bytes) : len t <= MAX_STRING_LEN_POSSIBLE -> len t < 2 ^ 62.
Proof. unfold MAX_STRING_LEN_POSSIBLE. zpow. lia. Qed.

#[export] Instance epee_bytes_laws : EpeeLaws epee_bytes (fun t : bytes => len t <= MAX_STRING_LEN_POSSIBLE).
Proof.
  refine {| enc := string_enc |}; cbn [write epee_bytes MARKER].
  - intros t w Ht. by apply write_bytes_spec, string_max_62.
  - intros t w Ht Hw. apply write_bytes_spec; [by apply string_max_62|apply Hw].
  - intros t r Ht. by apply read_bytes_app.
Defined.

#[export] Instance epee_byte_array_laws N :
  EpeeLaws (epee_byte_array N) (fun t : bytes => length t = N /\ len t <= MAX_STRING_LEN_POSSIBLE).
Proof.
  refine {| enc := string_enc |}; unfold epee_byte_array; cbn [write read MARKER].
  - intros t w [_ Ht]. by apply write_bytes_spec, string_max_62.
  - intros t w [_ Ht] Hw. apply write_bytes_spec; [by apply string_max_62|apply Hw].
  - intros t r [HN Ht]. unfold string_enc. rewrite read_bytes_app by done. cbn.
    unfold len. by rewrite HN, Z.eqb_refl.
Defined.

#[export] Instance epee_string_laws :
  EpeeLaws epee_string (fun t : bytes => utf8_valid t = true /\ len t <= MAX_STRING_LEN_POSSIBLE).
Proof.
  refine {| enc := string_enc |}; unfold epee_string; cbn [write read MARKER].
  - intros t w [_ Ht]. by apply write_bytes_spec, string_max_62.
  - intros t w [_ Ht] Hw. apply write_bytes_spec; [by apply string_max_62|apply Hw].
  - intros t r [Hu Ht]. unfold string_enc. rewrite read_bytes_app by done. cbn. by rewrite Hu.
Defined.

(** ** Sequences *)
Section seq_laws.
Context {T} (V : EpeeValue T) (valid : T -> Prop) `{L : !EpeeLaws V valid}.
(** Sequences of sequences are refused at compile time, and [Vec<u8>] is not a
    sequence but a string. *)
Context (Hnoseq : is_seq (MARKER V) = false) (Hnou8 : inner_marker (MARKER V) <> U8).

Definition items_enc (vs : list T) : bytes := concat (map (enc (EpeeLaws := L)) vs).
Definition seq_enc (vs : list T) : bytes := varint_bytes (len vs) ++ items_enc vs.

Lemma write_items vs : forall w,
  Forall valid vs ->
  (len (items_enc vs) <= remaining_mut w ->
     try_fold (fun w item => write V item w) w vs = Ok (put (items_enc vs) w)) /\
  (0 <= remaining_mut w < len (items_enc vs) ->
     exists msg, try_fold (fun w item => write V item w) w vs = Err (IO msg)).
Proof.
  unfold items_enc. induction vs as [|v vs IH]; intros w Hvs; cbn [map concat try_fold].
  { rewrite put_nil. split; [done|]. unfold len. cbn. lia. }
  inversion_clear Hvs as [|? ? Hv Hvs']. rewrite len_app.
  pose proof (len_nonneg (concat (map enc vs))).
  destruct (decide (len (enc v) <= remaining_mut w)) as [Hfit|Hfit].
  - rewrite (write_enc v w Hv Hfit). cbn [mbind result_bind].
    destruct (IH (put (enc v) w) Hvs') as [IH1 IH2]. cbn [remaining_mut put] in IH1, IH2.
    rewrite put_put in IH1. split; intros ?; [apply IH1|apply IH2]; lia.
  - split; [lia|]. intros Hw. destruct (write_full v w Hv) as [msg ->]; [lia|by exists msg].
Qed.

Lemma write_seq_spec vs w :
  Forall valid vs -> len vs < 2 ^ 62 ->
  (len (seq_enc vs) <= remaining_mut w -> write_iterator V vs w = Ok (put (seq_enc vs) w)) /\
  (0 <= remaining_mut w < len (seq_enc vs) -> exists msg, write_iterator V vs w = Err (IO msg)).
Proof.
  intros Hvs Hl. pose proof (len_nonneg vs). unfold write_iterator, seq_enc.
  rewrite write_varint_spec by lia. rewrite len_app. pose proof (len_nonneg (items_enc vs)).
  destruct (remaining_mut w <? _) eqn:E; bsimp; cbn [mbind result_bind];
    [split; [lia|by intros _; eexists]|].
  destruct (write_items vs (put (varint_bytes (len vs)) w) Hvs) as [W1 W2].
  cbn [remaining_mut put] in W1, W2. rewrite put_put in W1.
  split; intros ?; [apply W1|apply W2]; lia.
Qed.

Lemma read_items_enc vs r :
  Forall valid vs -> read_items V (MARKER V) (length vs) (items_enc vs ++ r) = Ok (vs, r).
Proof.
  unfold items_enc. induction 1 as [|v vs Hv _ IH]; cbn [map concat read_items length]; [done|].
  rewrite <- app_assoc, read_enc by done. cbn [mbind result_bind]. by rewrite IH.
Qed.

Lemma seq_marker : Marker_new (inner_marker (into_seq (MARKER V))) = MARKER V /\
  is_seq (into_seq (MARKER V)) = true.
Proof using Hnoseq Hnou8.
  destruct (MARKER V) as [i q]. cbn in *. subst q. destruct i; done.
Qed.

Lemma read_seq_spec vs r :
  Forall valid vs -> len vs < 2 ^ 62 ->
  read (epee_vec V) (seq_enc vs ++ r) (MARKER (epee_vec V)) = Ok (vs, r).
Proof using Hnoseq Hnou8.
  intros Hvs Hl. pose proof (len_nonneg vs). unfold epee_vec, seq_enc. cbn [read MARKER].
  destruct seq_marker as [-> ->]. cbn [negb].
  rewrite <- app_assoc, read_varint_bytes by lia.
  replace (len vs <=? max_usize) with true by (symmetry; apply Z.leb_le; unfold max_usize; zpow; lia).
  cbn [mbind result_bind]. unfold len. rewrite Nat2Z.id. by apply read_items_enc.
Qed.

#[export] Instance epee_vec_laws :
  EpeeLaws (epee_vec V) (fun vs => Forall valid vs /\ len vs < 2 ^ 62).
Proof using Hnoseq Hnou8 L.
  refine {| enc := seq_enc |}.
  - intros vs w [Hvs Hl]. by apply write_seq_spec.
  - intros vs w [Hvs Hl]. by apply write_seq_spec.
  - intros vs r [Hvs Hl]. by apply read_seq_spec.
Defined.

#[export] Instance epee_array_laws N :
  EpeeLaws (epee_array V N) (fun vs => length vs = N /\ Forall valid vs /\ len vs < 2 ^ 62).
Proof using Hnoseq Hnou8 L.
  refine {| enc := seq_enc |}.
  - intros vs w (_ & Hvs & Hl). by apply write_seq_spec.
  - intros vs w (_ & Hvs & Hl). by apply write_seq_spec.
  - intros vs r (HN & Hvs & Hl). unfold epee_array. cbn [read MARKER].
    change (into_seq (MARKER V)) with (MARKER (epee_vec V)). rewrite read_seq_spec by done.
    cbn [mbind result_bind]. unfold len. by rewrite HN, Z.eqb_refl.
Defined.
End seq_laws.

#[export] Instance epee_option_laws {T} (V : EpeeValue T) valid `{!EpeeLaws V valid} :
  EpeeLaws (epee_option V) (fun o => match o with Some v => valid v | None => False end).
Proof.
  refine {| enc o := match o with Some v => enc (V := V) v | None => [] end |}.
  - intros [v|] w Hv; [|done]. apply (write_enc (V := V)), Hv.
  - intros [v|] w Hv; [|done]. apply (write_full (V := V)), Hv.
  - intros [v|] r Hv; [|done]. cbn. by rewrite read_enc.
Defined.

(** ** Containers of integers as blobs *)
Lemma chunks_cons k fuel bs :
  bs <> [] -> chunks k (S fuel) bs = take k bs :: chunks k fuel (drop k bs).
Proof. by destruct bs. Qed.

Lemma chunks_concat n vs : forall fuel,
  (0 < n)%nat -> Forall (is_u (8 * Z.of_nat n)) vs ->
  (length (concat (map (le_split n) vs)) <= fuel)%nat ->
  map le_combine (chunks n fuel (concat (map (le_split n) vs))) = vs.
Proof.
  induction vs as [|v vs IH]; intros fuel Hn Hvs Hf; [by destruct fuel|].
  inversion_clear Hvs as [|? ? Hv Hvs']. cbn [map concat] in *.
  rewrite length_app, length_le_split in Hf. destruct fuel as [|fuel]; [lia|].
  rewrite chunks_cons by (destruct n; [lia|done]).
  rewrite take_app_length', drop_app_length' by (by rewrite length_le_split).
  cbn [map]. rewrite le_combine_split, Z.mod_small by done. f_equal. apply IH; [lia|done|lia].
Qed.

Lemma length_blob n vs : length (concat (map (le_split n) vs)) = (n * length vs)%nat.
Proof.
  induction vs as [|v vs IH]; cbn [map concat length]; [lia|].
  rewrite length_app, length_le_split, IH. lia.
Qed.

#[export] Instance epee_blob_laws n :
  EpeeLaws (epee_blob (S n)) (fun vs => Forall (is_u (8 * Z.of_nat (S n))) vs /\
    Z.of_nat (S n) * len vs <= MAX_STRING_LEN_POSSIBLE).
Proof.
  assert (Hlen : forall vs : list Z, len (concat (map (le_split (S n)) vs)) = Z.of_nat (S n) * len vs).
  { intros vs. unfold len. rewrite length_blob. lia. }
  refine {| enc vs := string_enc (concat (map (le_split (S n)) vs)) |};
    unfold epee_blob; cbn [read write MARKER]; intros vs ?.
  - intros [_ Hl]. rewrite <- Hlen in Hl. by apply write_bytes_spec, string_max_62.
  - intros [_ Hl] Hw. rewrite <- Hlen in Hl. apply write_bytes_spec; [by apply string_max_62|apply Hw].
  - intros [Hvs Hl]. rewrite <- Hlen in Hl. unfold string_enc. rewrite read_bytes_app by done.
    cbn [mbind result_bind]. rewrite Hlen, Z.mul_comm, Z.mod_mul, Z.eqb_refl by lia. cbn [negb].
    rewrite chunks_concat by (done || lia). done.
Defined.

(** ** Properties *)

Lemma Marker_try_from_as_u8 m : Marker_try_from (as_u8 m) = Ok m.
Proof. destruct m as [[] []]; reflexivity. Qed.

Lemma read_marker_app m r : read_marker (le_split 1 (as_u8 m) ++ r) = Ok (m, r).
Proof.
  unfold read_marker. rewrite checked_read_app by (by rewrite len_le_split).
  assert (is_u (8 * Z.of_nat 1) (as_u8 m)) by (destruct m as [[] []]; (split; [discriminate|reflexivity])).
  rewrite get_le_split by done. cbn [mbind result_bind]. by rewrite Marker_try_from_as_u8.
Qed.

Lemma drop_split {A} n (l : list A) : exists pre, l = pre ++ drop n l /\ length pre = Nat.min n (length l).
Proof. exists (take n l). rewrite take_drop, length_take. done. Qed.

(** Varints below 2^62 round trip: [write_varint] succeeds exactly when the 1, 2, 4 or
    8 bytes fit, and [read_varint] gives the number back (or "too big" for a narrower
    target type), leaving what follows. *)
Theorem varint_roundtrip n w r max :
  0 <= n < 2 ^ 62 ->
  let size := if n <? 2 ^ 6 then 1 else if n <? 2 ^ 14 then 2 else if n <? 2 ^ 30 then 4 else 8 in
  if remaining_mut w <? size
  then write_varint n w = Err (IO "Not enough capacity to write VarInt")
  else exists bs, write_varint n w = Ok (put bs w) /\ len bs = size /\
    read_varint max (bs ++ r) =
      if n <=? max then Ok (n, r) else Err (IO "VarInt is too big").
Proof.
  intros Hn. cbv zeta. rewrite write_varint_spec by done.
  assert (len (varint_bytes n) =
    if n <? 2 ^ 6 then 1 else if n <? 2 ^ 14 then 2 else if n <? 2 ^ 30 then 4 else 8) as Hl.
  { rewrite len_varint_bytes by done. unfold varint_marker, FITS_IN_ONE_BYTE, FITS_IN_TWO_BYTES,
      FITS_IN_FOUR_BYTES, SIZE_OF_SIZE_MARKER. split_if; try done; revert Hb; zpow; lia. }
  rewrite <- Hl. destruct (_ <? len _); [done|].
  exists (varint_bytes n). by rewrite read_varint_bytes.
Qed.

Lemma varint_roundtrip_witness :
  exists bs, write_varint 16384 new_buf = Ok (put bs new_buf) /\ len bs = 4 /\
    read_varint max_usize (bs ++ [7]) = Ok (16384, [7]).
Proof.
  destruct (varint_roundtrip 16384 new_buf [7] max_usize ltac:(zpow; lia)) as (bs & Hw & Hl & Hr).
  exists bs. split_and!; [exact Hw|exact Hl|rewrite Hr; reflexivity].
Defined.

(** A number of 2^62 or more is accepted by [write_varint] and silently loses its two
    top bits: what is read back is the number modulo 2^62. *)
Theorem varint_write_truncates n w r :
  2 ^ 62 <= n < 2 ^ 64 -> 8 <= remaining_mut w ->
  exists bs, write_varint n w = Ok (put bs w) /\
    read_varint max_usize (bs ++ r) = Ok (n mod 2 ^ 62, r) /\ n mod 2 ^ 62 <> n.
Proof.
  intros Hn Hw. exists (le_split 8 (4 * (n mod 2 ^ 62) + 3)).
  assert (0 <= n mod 2 ^ 62 < 2 ^ 62) as Hm by (apply Z.mod_pos_bound; zpow; lia).
  split_and!.
  - unfold write_varint. replace ((0 <=? n) && (n <? 2 ^ 64)) with true
      by (symmetry; apply andb_true_iff; rewrite Z.leb_le, Z.ltb_lt; revert Hn; zpow; lia).
    cbn [unwrap mbind result_bind]. fold (varint_marker n).
    assert (varint_marker n = 3) as ->.
    { unfold varint_marker, FITS_IN_ONE_BYTE, FITS_IN_TWO_BYTES, FITS_IN_FOUR_BYTES,
        SIZE_OF_SIZE_MARKER. revert Hn. split_if; try done; revert Hb; zpow; lia. }
    change (Z.shiftl 1 3) with 8. destruct (_ <? 8) eqn:E; bsimp; [lia|]. cbn [Z.eqb Pos.eqb].
    unfold shl, wrap. change (2 mod 64) with 2. rewrite Z.shiftl_mul_pow2 by lia.
    replace ((n * 2 ^ 2) mod 2 ^ 64) with (Z.shiftl (n mod 2 ^ 62) 2).
    2: { rewrite Z.shiftl_mul_pow2 by lia. change (2 ^ 64) with (2 ^ 62 * 2 ^ 2).
         by rewrite Z.mul_mod_distr_r. }
    rewrite lor_shiftl_add by (zpow; lia). do 3 f_equal. zpow. lia.
  - change 8%nat with (Z.to_nat (2 ^ 3)). rewrite read_varint_le.
    2: { unfold is_u. change (2 ^ (8 * 2 ^ 3)) with (4 * 2 ^ 62). lia. }
    2: { rewrite Z.add_comm, Z.mul_comm, Z.mod_add by done. done. }
    replace ((4 * (n mod 2 ^ 62) + 3) / 4) with (n mod 2 ^ 62)
      by (generalize dependent (n mod 2 ^ 62); intros; dlia).
    destruct (_ <=? _) eqn:E; bsimp; [done|]. revert E Hm. unfold max_usize. zpow. lia.
  - intros Heq. revert Hm Hn. rewrite Heq. lia.
Qed.

Lemma varint_write_truncates_witness :
  exists bs, write_varint (2 ^ 62 + 5) new_buf = Ok (put bs new_buf) /\
    read_varint max_usize bs = Ok (5, []).
Proof.
  destruct (varint_write_truncates (2 ^ 62 + 5) new_buf []) as (bs & Hw & Hr & _);
    [vm_compute; intuition discriminate..|].
  exists bs. split; [exact Hw|]. rewrite app_nil_r in Hr. rewrite Hr. reflexivity.
Defined.

(** [read_varint] on arbitrary input bytes never panics; a value it returns is below
    2^62 and within the target type, and it consumes at least one byte. *)
Theorem read_varint_safe max r :
  Forall is_byte r ->
  match read_varint max r with
  | Ok (v, r') => 0 <= v <= max /\ v < 2 ^ 62 /\ exists pre, r = pre ++ r' /\ pre <> []
  | Err (IO _) => True
  | _ => False
  end.
Proof.
  destruct r as [|b r]; intros Hr; [done|]. inversion_clear Hr as [|? ? Hb Hr'].
  unfold is_byte in Hb. cbn [read_varint]. set (n := Z.shiftl 1 (Z.land b 3)).
  assert (Hn : 1 <= n <= 8).
  { subst n. change 3 with (2 ^ 2 - 1). rewrite land_mask by lia. change (2 ^ 2) with 4.
    assert (0 <= b mod 4 < 4) as H by dlia. rewrite shiftl_1 by lia.
    split; [change 1 with (2 ^ 0)|change 8 with (2 ^ 3)]; apply Z.pow_le_mono_r; lia. }
  destruct (len r <? n - 1) eqn:E; bsimp; [done|].
  set (k := Z.to_nat (n - 1)). assert (Hlk : length (take k r) = k).
  { rewrite length_take. unfold len in E. lia. }
  assert (Hbs : Forall is_byte (take k r)) by (by apply Forall_take).
  pose proof (le_combine_bound _ Hbs) as Hc. rewrite Hlk in Hc.
  assert (2 ^ (8 * Z.of_nat k) <= 2 ^ 56) by (apply Z.pow_le_mono_r; lia).
  rewrite varint_loop_spec; [|lia|done| |unfold len; lia];
    rewrite Z.shiftr_div_pow2 by lia; change ((1 - 1) * 8 + 6) with 6; [|zpow; dlia].
  destruct (_ <=? max) eqn:E2; bsimp; [|done]. assert (0 <= b / 2 ^ 2 < 64) by (zpow; dlia).
  split_and!; [lia|done|revert Hc; zpow; lia|].
  exists (b :: take k r). split; [|done]. cbn. by rewrite take_drop.
Qed.

Lemma read_varint_safe_witness :
  match read_varint max_usize [253; 255; 7] with
  | Ok (v, r') => 0 <= v <= max_usize /\ v < 2 ^ 62 /\ exists pre, [253; 255; 7] = pre ++ r' /\ pre <> []
  | Err (IO _) => True
  | _ => False
  end.
Proof.
  apply (read_varint_safe max_usize [253; 255; 7]).
  repeat constructor; vm_compute; intuition discriminate.
Defined.

(** An epee value written with its marker is read back, for every implementation
    that satisfies the law ([EpeeLaws]: integers, booleans, byte strings, UTF-8 strings,
    fixed arrays, vectors, options and blob containers do). *)
Theorem epee_value_roundtrip {T} (V : EpeeValue T) valid `{!EpeeLaws V valid} v w r :
  valid v -> 1 + len (enc (V := V) v) <= remaining_mut w ->
  exists bs, write_epee_value V v w = Ok (put bs w) /\ read_epee_value V (bs ++ r) = Ok (v, r).
Proof.
  intros Hv Hw. pose proof (len_nonneg (enc (V := V) v)).
  exists (le_split 1 (as_u8 (MARKER V)) ++ enc (V := V) v).
  unfold write_epee_value, read_epee_value.
  rewrite checked_write_put by (rewrite len_le_split; lia). cbn [mbind result_bind].
  rewrite write_enc, put_put; [|done|cbn [remaining_mut put]; rewrite len_le_split; lia].
  split; [done|]. rewrite <- app_assoc, read_marker_app. cbn [mbind result_bind]. by apply read_enc.
Qed.

Lemma epee_value_roundtrip_witness :
  exists bs, write_epee_value (epee_vec epee_i16) [-2; 300] new_buf = Ok (put bs new_buf) /\
    read_epee_value (epee_vec epee_i16) (bs ++ [9]) = Ok ([-2; 300], [9]).
Proof.
  unshelve eapply (epee_value_roundtrip (epee_vec epee_i16) _).
  - exact (fun vs => Forall (fits_signed 2) vs /\ len vs < 2 ^ 62).
  - apply epee_vec_laws; [apply epee_int_laws|reflexivity|discriminate].
  - split; [repeat constructor; vm_compute; discriminate|reflexivity].
  - vm_compute. discriminate.
Defined.

End Epee.
