(* ===== verification/EpeeObject.v ===== *)
(** * Epee objects ([src/net/epee-encoding/src]: [lib.rs], [macros.rs])

    Whole messages: the header, objects as sequences of named fields in any order,
    skipping of unknown fields with its depth limit, and the object implementations
    the [epee_object!] macro generates. *)
From S2P Require Import Prelude Bytes EpeeValue.
From Stdlib Require Import ZArith Lia String.
From stdpp Require Import base tactics option list numbers sets.
Import Epee.

#[local] Open Scope Z_scope.

Module EpeeObj.

(** ** Constants, header and field names *)
Definition HEADER : bytes := [0x01; 0x11; 0x01; 0x01; 0x01; 0x01; 0x02; 0x01; 0x01].
Definition MAX_DEPTH_OF_SKIPPED_OBJECTS : Z := 20.
Definition MAX_NUM_FIELDS : Z := 1000.

Definition read_header (r : bytes) : Result bytes :=
  '(buf, r) ← checked_read r (copy_to_bytes (len HEADER)) (len HEADER);
  if negb (bool_decide (buf = HEADER)) then Err (Format "Data does not contain header") else Ok r.

Definition write_header (w : Writer) : Result Writer :=
  checked_write w (put HEADER) (len HEADER).

Definition read_field_name_bytes (r : bytes) : Result (bytes * bytes) :=
  '(n, r) ← checked_read r (get_le 1) 1;
  checked_read r (copy_to_bytes n) n.

Definition write_field_name (val : bytes) (w : Writer) : Result Writer :=
  n ← (if len val <=? 255 then Ok (len val) else Err from_try_from_int);
  w ← checked_write w (put (le_split 1 n)) 1;
  checked_write w (put val) (len val).

Definition write_field {T} (V : EpeeValue T) (val : T) (field_name : bytes) (w : Writer)
    : Result Writer :=
  if should_write V val then
    w ← write_field_name field_name w;
    write_epee_value V val w
  else Ok w.

(** ** [EpeeObject] and its builder *)
Record EpeeObject (T : Type) := {
  Builder : Type;
  builder_default : Builder;
  (** [add_field(name, r)]: whether the field was read, the builder and what remains *)
  add_field : Builder -> bytes -> bytes -> Result (bool * Builder * bytes);
  finish : Builder -> Result T;
  number_of_fields : T -> Z;
  write_fields : T -> Writer -> Result Writer;
}.
Arguments Builder {T}.
Arguments builder_default {T}.
Arguments add_field {T}.
Arguments finish {T}.
Arguments number_of_fields {T}.
Arguments write_fields {T}.

(** ** Reading and skipping

    [read_object] and [skip_epee_value] call each other; [read_object_with] is
    [read_object] with the skipping of a value as a parameter. *)
Fixpoint read_fields {T} (skip : bytes -> Result bytes) (O : EpeeObject T) (n : nat)
    (b : Builder O) (r : bytes) : Result (Builder O * bytes) :=
  match n with
  | O => Ok (b, r)
  | S n =>
      '(field_name, r) ← read_field_name_bytes r;
      if negb (utf8_valid field_name) then Err from_utf8_error
      else
        '(read_it, b, r) ← add_field O b field_name r;
        r ← (if read_it : bool then Ok r else skip r);
        read_fields skip O n b r
  end.

Definition read_object_with {T} (skip : bytes -> Result bytes) (O : EpeeObject T) (r : bytes)
    : Result (T * bytes) :=
  '(number_o_field, r) ← read_varint max_usize r;
  if MAX_NUM_FIELDS <? number_o_field
  then Err (Format "Data has object with more fields than the maximum allowed")
  else
    '(b, r) ← read_fields skip O (Z.to_nat number_o_field) (builder_default O) r;
    v ← finish O b;
    Ok (v, r).

(** [SkipObject]: a builder that skips every field. *)
Definition SkipObject : EpeeObject () := {|
  Builder := ();
  builder_default := ();
  add_field b _ r := Ok (false, b, r);
  finish b := Ok b;
  number_of_fields _ := 0;
  write_fields _ _ := Panic;
|}.

Definition advance (n : Z) (b : bytes) : Result bytes :=
  '(_, r) ← checked_read b (copy_to_bytes n) n; Ok r.

(** [for _ in 0..n { r = f(r)? }] *)
Fixpoint repeat_n (n : nat) (f : bytes -> Result bytes) (r : bytes) : Result bytes :=
  match n with O => Ok r | S n => r ← f r; repeat_n n f r end.

(** [skip_epee_value] with [d] more nested objects allowed: [d] is
    [MAX_DEPTH_OF_SKIPPED_OBJECTS - *skipped_objects]. The count of a sequence is an
    [i32], which is what the literal [1] in the source makes of it. *)
Fixpoint skip_value (d : nat) (r : bytes) : Result bytes :=
  '(marker, r) ← read_marker r;
  '(n, r) ← (if is_seq marker then read_varint max_i32 r else Ok (1, r));
  match InnerMarker_size (inner_marker marker) with
  | Some size =>
      bytes_to_skip ← ok_or (checked_mul 64 size n) (Value "List is too big");
      advance bytes_to_skip r
  | None =>
      repeat_n (Z.to_nat n) (fun r =>
        match inner_marker marker with
        | String_ => '(l, r) ← read_varint max_usize r; advance l r
        | Object =>
            match d with
            | O => Err (Format "Depth of skipped objects exceeded maximum")
            | S d => '(_, r) ← read_object_with (skip_value d) SkipObject r; Ok r
            end
        | _ => Panic
        end) r
  end.

Definition skip_epee_value (r : bytes) (skipped_objects : Z) : Result bytes :=
  skip_value (Z.to_nat (MAX_DEPTH_OF_SKIPPED_OBJECTS - skipped_objects)) r.

Definition read_object {T} (O : EpeeObject T) (r : bytes) (skipped_objects : Z) : Result (T * bytes) :=
  read_object_with (fun r => skip_epee_value r skipped_objects) O r.

(** An object as a value. *)
Definition epee_object_value {T} (O : EpeeObject T) : EpeeValue T := {|
  MARKER := Marker_new Object;
  read r marker :=
    if decide (marker = Marker_new Object) then read_object O r 0 else Err marker_mismatch;
  should_write _ := true;
  epee_default_value := None;
  write v w := w ← write_varint (number_of_fields O v) w; write_fields O v w;
|}.

(** ** Whole messages *)
Definition read_head_object {T} (O : EpeeObject T) (r : bytes) : Result (T * bytes) :=
  r ← read_header r;
  read_object O r 0.

Definition write_head_object {T} (O : EpeeObject T) (val : T) (w : Writer) : Result Writer :=
  w ← write_header w;
  write (epee_object_value O) val w.

Definition from_bytes {T} (O : EpeeObject T) (buf : bytes) : Result (T * bytes) :=
  read_head_object O buf.

Definition to_bytes {T} (O : EpeeObject T) (val : T) : Result bytes :=
  w ← write_head_object O val new_buf; Ok (out w).

(** ** The [epee_object!] macro

    A field: its name in the data, how its type is encoded, and the optional default
    given with [= default] (compared with [PartialEq], here [f_eqb]). A struct is the
    tuple of its fields' values. *)
Record Field := mk_field {
  f_ty : Type;
  f_name : bytes;
  f_val : EpeeValue f_ty;
  f_default : option f_ty;
  f_eqb : f_ty -> f_ty -> bool;
}.

Fixpoint values (fs : list Field) : Type :=
  match fs with [] => () | f :: fs => f_ty f * values fs end.
Fixpoint builders (fs : list Field) : Type :=
  match fs with [] => () | f :: fs => option (f_ty f) * builders fs end.

Fixpoint fields_builder_default (fs : list Field) : builders fs :=
  match fs with [] => () | f :: fs => (None, fields_builder_default fs) end.

(** The string of a [Duplicate field] or [Missing field] error carries the field name. *)
Definition bytes_to_string (bs : bytes) : string :=
  string_of_list_ascii (map (fun b => Ascii.ascii_of_N (Z.to_N b)) bs).

Fixpoint fields_add_field (fs : list Field) : builders fs -> bytes -> bytes -> Result (bool * builders fs * bytes) :=
  match fs with
  | [] => fun b _ r => Ok (false, b, r)
  | f :: fs => fun '(o, b) name r =>
      if bool_decide (name = f_name f) then
        '(v, r) ← read_epee_value (f_val f) r;
        match o with
        | Some _ => Err (Value ("Duplicate field in data: " ++ bytes_to_string (f_name f)))
        | None => Ok (true, (Some v, b), r)
        end
      else
        '(read_it, b, r) ← fields_add_field fs b name r;
        Ok (read_it, (o, b), r)
  end.

(** [self.field.or(Some(default)).or(epee_default_value)] *)
Definition or_default {f : Field} (o : option (f_ty f)) : option (f_ty f) :=
  match o with
  | Some v => Some v
  | None => match f_default f with Some d => Some d | None => epee_default_value (f_val f) end
  end.

Fixpoint fields_finish (fs : list Field) : builders fs -> Result (values fs) :=
  match fs with
  | [] => fun b => Ok b
  | f :: fs => fun '(o, b) =>
      v ← ok_or (or_default (f := f) o)
            (Value ("Missing field in data: " ++ bytes_to_string (f_name f)));
      vs ← fields_finish fs b;
      Ok (v, vs)
  end.

(** [field != default && should_write(field)] *)
Definition field_written (f : Field) (v : f_ty f) : bool :=
  match f_default f with Some d => negb (f_eqb f v d) | None => true end
  && should_write (f_val f) v.

Fixpoint fields_number (fs : list Field) : values fs -> Z :=
  match fs with
  | [] => fun _ => 0
  | f :: fs => fun '(v, vs) => (if field_written f v then 1 else 0) + fields_number fs vs
  end.

Fixpoint fields_write (fs : list Field) : values fs -> Writer -> Result Writer :=
  match fs with
  | [] => fun _ w => Ok w
  | f :: fs => fun '(v, vs) w =>
      w ← (if field_written f v then write_field (f_val f) v (f_name f) w else Ok w);
      fields_write fs vs w
  end.

Definition fields_object (fs : list Field) : EpeeObject (values fs) := {|
  Builder := builders fs;
  builder_default := fields_builder_default fs;
  add_field := fields_add_field fs;
  finish := fields_finish fs;
  number_of_fields := fields_number fs;
  write_fields := fields_write fs;
|}.

(** [!flatten]: an unknown name is offered to the flattened object's builder. *)
Definition flatten_object {T1 T2} (O1 : EpeeObject T1) (O2 : EpeeObject T2) : EpeeObject (T1 * T2) := {|
  Builder := Builder O1 * Builder O2;
  builder_default := (builder_default O1, builder_default O2);
  add_field '(b1, b2) name r :=
    '(read_it, b1, r) ← add_field O1 b1 name r;
    if read_it : bool then Ok (true, (b1, b2), r)
    else
      '(read_it, b2, r) ← add_field O2 b2 name r;
      Ok (read_it, (b1, b2), r);
  finish '(b1, b2) := v1 ← finish O1 b1; v2 ← finish O2 b2; Ok (v1, v2);
  number_of_fields '(v1, v2) := number_of_fields O1 v1 + number_of_fields O2 v2;
  write_fields '(v1, v2) w := w ← write_fields O1 v1 w; write_fields O2 v2 w;
|}.

(** ** Messages of [net/wire]: [BasicNodeData] and [CoreSyncData] *)
Definition str_bytes (s : string) : bytes :=
  map (fun a => Z.of_N (Ascii.N_of_ascii a)) (list_ascii_of_string s).

Definition field_req {T} (name : string) (V : EpeeValue T) : Field :=
  mk_field T (str_bytes name) V None (fun _ _ => false).
Definition field_def (name : string) (V : EpeeValue Z) (d : Z) : Field :=
  mk_field Z (str_bytes name) V (Some d) Z.eqb.

Definition BasicNodeData : list Field :=
  [ field_req "my_port" epee_u32;
    field_req "network_id" (epee_byte_array 16);
    field_req "peer_id" epee_u64;
    field_def "support_flags" epee_u32 0;
    field_def "rpc_port" epee_u16 0;
    field_def "rpc_credits_per_hash" epee_u32 0 ].

Definition CoreSyncData : list Field :=
  [ field_req "cumulative_difficulty" epee_u64;
    field_def "cumulative_difficulty_top64" epee_u64 0;
    field_req "current_height" epee_u64;
    field_def "pruning_seed" epee_u32 0;
    field_req "top_id" (epee_byte_array 32);
    field_def "top_version" epee_u8 0 ].

(** ** Encoded fields *)

(** A field name the format can carry. *)
Definition name_ok (n : bytes) : Prop := utf8_valid n = true /\ len n <= 255.

(** [bs] is a value with its marker: what the writer appends and the reader takes. *)
Definition value_chunk {T} (V : EpeeValue T) (v : T) (bs : bytes) : Prop :=
  (forall w, len bs <= remaining_mut w -> write_epee_value V v w = Ok (put bs w)) /\
  (forall r, read_epee_value V (bs ++ r) = Ok (v, r)).

(** A field on the wire: the length of its name, the name, the value. *)
Definition chunk_bytes (c : bytes * bytes) : bytes := le_split 1 (len c.1) ++ c.1 ++ c.2.
Definition chunks_bytes (cs : list (bytes * bytes)) : bytes := concat (map chunk_bytes cs).

(** What makes [v] survive the trip through the object implementation [O]: [cs] are
    its fields on the wire, and [Filled W b] says that the builder [b] has read exactly
    the fields named in [W]. *)
Record object_law {T} (O : EpeeObject T) (names : list bytes) (v : T) (cs : list (bytes * bytes))
    (Filled : list bytes -> Builder O -> Prop) : Prop := {
  law_names : Forall (fun c => c.1 ∈ names) cs;
  law_nodup : NoDup cs.*1;
  law_name_ok : Forall name_ok names;
  law_number : number_of_fields O v = len cs;
  law_write w : len (chunks_bytes cs) <= remaining_mut w ->
    write_fields O v w = Ok (put (chunks_bytes cs) w);
  law_init : Filled [] (builder_default O);
  law_step W b n bs r : Filled W b -> (n, bs) ∈ cs -> n ∉ W ->
    exists b', add_field O b n (bs ++ r) = Ok (true, b', r) /\ Filled (n :: W) b';
  law_other b n r : n ∉ names -> add_field O b n r = Ok (false, b, r);
  law_done W b : Filled W b -> Forall (fun c => c.1 ∈ W) cs -> finish O b = Ok v;
}.

Lemma read_name n r :
  len n <= 255 -> read_field_name_bytes (le_split 1 (len n) ++ n ++ r) = Ok (n, r).
Proof.
  intros Hn. pose proof (len_nonneg n). unfold read_field_name_bytes.
  rewrite checked_read_app by (by rewrite len_le_split).
  rewrite get_le_split by (unfold is_u; change (8 * Z.of_nat 1) with 8; zpow; lia).
  cbn [mbind result_bind]. rewrite checked_read_app by done. apply copy_to_bytes_app.
Qed.

(** Fields on the wire for a reader that knows [cs]: each is one of [cs], or carries a
    name the object does not have and a value that is skipped. *)
Definition known (ns : list bytes) (cs : list (bytes * bytes)) : list (bytes * bytes) :=
  filter (fun c => c.1 ∈ ns) cs.

Definition readable (skip : bytes -> Result bytes) (ns : list bytes) (cs : list (bytes * bytes))
    (c : bytes * bytes) : Prop :=
  c ∈ cs \/ (c.1 ∉ ns /\ name_ok c.1 /\ forall r, skip (c.2 ++ r) = Ok r).

(** Reading such fields, in any order, fills the builder with the known ones. *)
Lemma read_fields_chunks {T} (O : EpeeObject T) ns v cs Filled skip :
  object_law O ns v cs Filled ->
  forall cs' W b r, Filled W b -> Forall (readable skip ns cs) cs' -> NoDup (known ns cs').*1 ->
  (forall n, n ∈ (known ns cs').*1 -> n ∉ W) ->
  exists b' W', read_fields skip O (length cs') b (chunks_bytes cs' ++ r) = Ok (b', r) /\
    Filled W' b' /\ (forall n, n ∈ W' <-> n ∈ W \/ n ∈ (known ns cs').*1).
Proof.
  intros L. pose proof (law_names _ _ _ _ _ L) as HN. pose proof (law_name_ok _ _ _ _ _ L) as HO.
  rewrite Forall_forall in HN. rewrite Forall_forall in HO. unfold known.
  induction cs' as [|[n bs] cs' IH]; intros W b r HF Hread Hnd Hdisj.
  { exists b, W. split_and!; [done..|]. intros n. set_solver. }
  apply Forall_cons in Hread as [Hc Hread]. rewrite filter_cons in Hnd, Hdisj |- *.
  unfold chunks_bytes. cbn [length read_fields map concat]. unfold chunk_bytes at 1. cbn [fst snd] in *.
  assert (Hok : name_ok n) by (destruct Hc as [Hc|(_ & ? & _)]; [by apply HO, (HN _ Hc)|done]).
  rewrite <- !app_assoc, read_name by apply Hok. cbn [mbind result_bind].
  destruct Hok as [-> _]. cbn [negb].
  destruct Hc as [Hin|(Hnot & _ & Hskip)].
  - rewrite decide_True in Hnd, Hdisj |- * by apply (HN _ Hin).
    cbn [fmap list_fmap fst] in *. apply NoDup_cons in Hnd as [Hn Hnd].
    destruct (law_step _ _ _ _ _ L W b n bs (chunks_bytes cs' ++ r) HF Hin) as (b1 & Hadd & HF1).
    { apply Hdisj. constructor. }
    unfold chunks_bytes in Hadd. rewrite Hadd. cbn [mbind result_bind].
    destruct (IH (n :: W) b1 r HF1 Hread Hnd) as (b' & W' & Hr & HF' & HW').
    { intros m Hm. rewrite not_elem_of_cons. split; [by intros ->|]. apply Hdisj. by constructor. }
    exists b', W'. split_and!; [exact Hr|done|]. intros m. rewrite HW', !elem_of_cons. tauto.
  - rewrite decide_False in Hnd, Hdisj |- * by done. cbn [snd] in Hskip.
    rewrite (law_other _ _ _ _ _ L) by done. cbn [mbind result_bind]. rewrite Hskip. cbn [mbind result_bind].
    by apply IH.
Qed.

(** ** The macro's implementations satisfy the law *)
Abbreviation names fs := (map f_name fs).

(** [cs] are the written fields of [vs]; a field that is not written is restored from
    its default. *)
Fixpoint fields_chunks (fs : list Field) : values fs -> list (bytes * bytes) -> Prop :=
  match fs with
  | [] => fun _ cs => cs = []
  | f :: fs => fun '(v, vs) cs =>
      if field_written f v
      then exists bs cs', cs = (f_name f, bs) :: cs' /\ value_chunk (f_val f) v bs /\
             fields_chunks fs vs cs'
      else or_default (f := f) None = Some v /\ fields_chunks fs vs cs
  end.

Fixpoint fields_filled (fs : list Field) : values fs -> list bytes -> builders fs -> Prop :=
  match fs with
  | [] => fun _ _ _ => True
  | f :: fs => fun '(v, vs) W '(o, b) =>
      o = (if decide (f_name f ∈ W) then Some v else None) /\ fields_filled fs vs W b
  end.

Lemma fields_filled_skip fs vs W b n :
  n ∉ names fs -> fields_filled fs vs W b -> fields_filled fs vs (n :: W) b.
Proof.
  induction fs as [|f fs IH]; [done|]. destruct vs as [v vs], b as [o b]. cbn.
  intros Hn [-> HF]. rewrite not_elem_of_cons in Hn. destruct Hn as [Hne Hn]. split; [|by apply IH].
  repeat case_decide; set_solver.
Qed.

Lemma fields_filled_init fs vs : fields_filled fs vs [] (fields_builder_default fs).
Proof.
  induction fs as [|f fs IH]; [done|]. destruct vs as [v vs]. cbn.
  split; [|done]. case_decide; [set_solver|done].
Qed.

Lemma fields_chunks_names fs vs cs :
  fields_chunks fs vs cs -> NoDup (names fs) -> Forall (fun c => c.1 ∈ names fs) cs /\ NoDup cs.*1.
Proof.
  revert cs. induction fs as [|f fs IH]; [by intros ? ->|]. destruct vs as [v vs]. cbn.
  intros cs H Hnd. apply NoDup_cons in Hnd as [Hn Hnd].
  destruct (field_written f v).
  - destruct H as (bs & cs' & -> & _ & Hcs). destruct (IH vs cs' Hcs Hnd) as [Hin Hnd'].
    split; [constructor; [set_solver|eapply Forall_impl; [done|set_solver]]|].
    cbn. constructor; [|done]. intros Hc. apply list_elem_of_fmap in Hc as (c & Hc1 & Hc2).
    rewrite Forall_forall in Hin. specialize (Hin c Hc2). by rewrite <- Hc1 in Hin.
  - destruct H as [_ Hcs]. destruct (IH vs cs Hcs Hnd) as [Hin Hnd'].
    split; [eapply Forall_impl; [done|set_solver]|done].
Qed.

Lemma fields_add_other fs b n r :
  n ∉ names fs -> fields_add_field fs b n r = Ok (false, b, r).
Proof.
  induction fs as [|f fs IH]; [done|]. destruct b as [o b]. cbn. intros Hn.
  rewrite not_elem_of_cons in Hn. destruct Hn as [Hne Hn].
  rewrite bool_decide_eq_false_2 by done. by rewrite IH.
Qed.

Lemma fields_step fs vs cs : NoDup (names fs) -> fields_chunks fs vs cs ->
  forall W b n bs r, fields_filled fs vs W b -> (n, bs) ∈ cs -> n ∉ W ->
  exists b', fields_add_field fs b n (bs ++ r) = Ok (true, b', r) /\ fields_filled fs vs (n :: W) b'.
Proof.
  revert cs. induction fs as [|f fs IH]; [intros cs _ ->; set_solver|].
  destruct vs as [v vs]. cbn. intros cs Hnd H W [o b] n bs r [Ho HF] Hin HnW.
  apply NoDup_cons in Hnd as [Hf Hnd].
  assert (Hcase : (n = f_name f /\ value_chunk (f_val f) v bs) \/
    (n <> f_name f /\ exists cs', fields_chunks fs vs cs' /\ (n, bs) ∈ cs')).
  { destruct (field_written f v).
    - destruct H as (bs0 & cs' & -> & Hv & Hcs). apply elem_of_cons in Hin as [[= -> ->]|Hin]; [by left|].
      right. split; [|eauto]. intros ->. apply fields_chunks_names in Hcs as [Hns _]; [|done].
      rewrite Forall_forall in Hns. by apply Hns in Hin.
    - right. destruct H as [_ Hcs]. split; [|eauto]. intros ->.
      apply fields_chunks_names in Hcs as [Hns _]; [|done].
      rewrite Forall_forall in Hns. by apply Hns in Hin. }
  destruct Hcase as [[-> [_ Hread]]|(Hne & cs' & Hcs & Hin')].
  - rewrite bool_decide_eq_true_2, Hread by done. cbn [mbind result_bind].
    rewrite Ho, decide_False by done. exists (Some v, b). split; [done|].
    rewrite decide_True by set_solver. split; [done|]. by apply fields_filled_skip.
  - rewrite bool_decide_eq_false_2 by done.
    destruct (IH vs cs' Hnd Hcs W b n bs r HF Hin' HnW) as (b' & -> & HF'). cbn [mbind result_bind].
    exists (o, b'). split; [done|]. split; [|done]. rewrite Ho. repeat case_decide; set_solver.
Qed.

Lemma fields_done fs vs cs W b : fields_chunks fs vs cs -> fields_filled fs vs W b ->
  Forall (fun c => c.1 ∈ W) cs -> fields_finish fs b = Ok vs.
Proof.
  revert cs. induction fs as [|f fs IH]; [by destruct vs, b|].
  destruct vs as [v vs], b as [o b]. cbn. intros cs H [Ho HF] HW.
  assert (or_default (f := f) o = Some v /\ exists cs', fields_chunks fs vs cs' /\ Forall (fun c => c.1 ∈ W) cs')
    as (-> & cs' & Hcs & HW').
  { destruct (field_written f v).
    - destruct H as (bs & cs' & -> & _ & Hcs). apply Forall_cons in HW as [Hin HW].
      rewrite Ho, decide_True by done. eauto.
    - destruct H as [Hd Hcs]. split; [|eauto]. rewrite Ho. by case_decide. }
  cbn. by rewrite (IH vs b cs').
Qed.

Lemma fields_write_ok fs vs cs w :
  Forall name_ok (names fs) -> fields_chunks fs vs cs -> len (chunks_bytes cs) <= remaining_mut w ->
  fields_write fs vs w = Ok (put (chunks_bytes cs) w).
Proof.
  revert cs w. induction fs as [|f fs IH]; [intros cs w _ -> _; cbn; by rewrite put_nil|].
  destruct vs as [v vs]. cbn. intros cs w Hok H Hw. apply Forall_cons in Hok as [[_ Hname] Hok].
  destruct (field_written f v) eqn:E; [|destruct H as [_ H]; by apply IH].
  destruct H as (bs & cs' & -> & [Hval _] & Hcs). unfold chunks_bytes in *. cbn [map concat] in *.
  unfold chunk_bytes at 1 in Hw. unfold chunk_bytes at 1. cbn [fst snd] in *.
  rewrite !len_app, len_le_split in Hw. pose proof (len_nonneg (f_name f)). pose proof (len_nonneg bs).
  pose proof (len_nonneg (concat (map chunk_bytes cs'))).
  unfold write_field. apply andb_true_iff in E as [_ ->]. unfold write_field_name.
  destruct (_ <=? 255) eqn:E2; bsimp; [|lia]. cbn [mbind result_bind].
  rewrite checked_write_put by (rewrite len_le_split; lia). cbn [mbind result_bind].
  rewrite checked_write_put, put_put by (done || (cbn [remaining_mut put]; rewrite len_le_split; lia)).
  cbn [mbind result_bind]. rewrite Hval, put_put
    by (cbn [remaining_mut put]; rewrite len_app, len_le_split; lia). cbn [mbind result_bind].
  rewrite (IH vs cs'), put_put; [by rewrite <- !app_assoc|done|done|].
  cbn [remaining_mut put]. rewrite !len_app, len_le_split. lia.
Qed.

Lemma fields_object_law fs vs cs :
  NoDup (names fs) -> Forall name_ok (names fs) -> fields_chunks fs vs cs ->
  object_law (fields_object fs) (names fs) vs cs (fields_filled fs vs).
Proof.
  intros Hnd Hok Hcs. destruct (fields_chunks_names fs vs cs Hcs Hnd) as [Hns Hnd'].
  constructor; [done..| | | | | |]; cbn.
  - clear Hnd Hok Hns Hnd'. revert cs Hcs. induction fs as [|f fs IH]; [by intros cs ->|].
    destruct vs as [v vs]. cbn. intros cs H.
    destruct (field_written f v); [destruct H as (bs & cs' & -> & _ & H)|destruct H as [_ H]];
      rewrite (IH vs _ H); unfold len; cbn; lia.
  - intros w Hw. by apply fields_write_ok.
  - apply fields_filled_init.
  - intros W b n bs r HF Hin HnW. by eapply fields_step.
  - intros b n r Hn. by apply fields_add_other.
  - intros W b HF HW. by eapply fields_done.
Qed.

(** A flattened object keeps the law when the names do not overlap. *)
Lemma flatten_object_law {T1 T2} (O1 : EpeeObject T1) (O2 : EpeeObject T2) ns1 ns2 v1 v2 cs1 cs2 F1 F2 :
  object_law O1 ns1 v1 cs1 F1 -> object_law O2 ns2 v2 cs2 F2 -> (forall n, n ∈ ns1 -> n ∉ ns2) ->
  object_law (flatten_object O1 O2) (ns1 ++ ns2) (v1, v2) (cs1 ++ cs2)
    (fun W '(b1, b2) => exists W1 W2, F1 W1 b1 /\ F2 W2 b2 /\ W1 ⊆ ns1 /\ W2 ⊆ ns2 /\
       forall n, n ∈ W <-> n ∈ W1 \/ n ∈ W2).
Proof.
  intros L1 L2 Hd.
  assert (HN1 := law_names _ _ _ _ _ L1). assert (HN2 := law_names _ _ _ _ _ L2).
  rewrite Forall_forall in HN1, HN2.
  constructor.
  - rewrite Forall_app, !Forall_forall. split; intros c Hc; apply elem_of_app; auto.
  - rewrite fmap_app. apply NoDup_app. split_and!; [apply L1| |apply L2].
    intros n Hn1 Hn2. apply list_elem_of_fmap in Hn1 as (c1 & -> & Hc1), Hn2 as (c2 & He & Hc2).
    apply (Hd c1.1); [by apply HN1|]. rewrite He. by apply HN2.
  - apply Forall_app. split; [apply L1|apply L2].
  - cbn. rewrite (law_number _ _ _ _ _ L1), (law_number _ _ _ _ _ L2), len_app. done.
  - intros w. unfold chunks_bytes. rewrite map_app, concat_app, len_app. intros Hw.
    pose proof (len_nonneg (concat (map chunk_bytes cs1))). pose proof (len_nonneg (concat (map chunk_bytes cs2))).
    cbn. rewrite (law_write _ _ _ _ _ L1) by (unfold chunks_bytes; lia). cbn [mbind result_bind].
    rewrite (law_write _ _ _ _ _ L2) by (unfold chunks_bytes; cbn [remaining_mut put]; lia).
    by rewrite put_put.
  - exists [], []. split_and!; [apply L1|apply L2|set_solver..].
  - intros W [b1 b2] n bs r (W1 & W2 & HF1 & HF2 & Hs1 & Hs2 & HW) Hin HnW. cbn.
    apply elem_of_app in Hin as [Hin|Hin].
    + destruct (law_step _ _ _ _ _ L1 W1 b1 n bs r HF1 Hin) as (b1' & -> & HF1'); [set_solver|].
      exists (b1', b2). split; [done|]. exists (n :: W1), W2. apply HN1 in Hin. set_solver.
    + apply HN2 in Hin as Hn2. rewrite (law_other _ _ _ _ _ L1) by set_solver. cbn [mbind result_bind].
      destruct (law_step _ _ _ _ _ L2 W2 b2 n bs r HF2 Hin) as (b2' & -> & HF2'); [set_solver|].
      exists (b1, b2'). split; [done|]. exists W1, (n :: W2). set_solver.
  - intros [b1 b2] n r Hn. cbn. rewrite (law_other _ _ _ _ _ L1) by set_solver. cbn [mbind result_bind].
    by rewrite (law_other _ _ _ _ _ L2) by set_solver.
  - intros W [b1 b2] (W1 & W2 & HF1 & HF2 & Hs1 & Hs2 & HW) HC. apply Forall_app in HC as [HC1 HC2].
    rewrite Forall_forall in HC1, HC2. cbn.
    rewrite (law_done _ _ _ _ _ L1 W1 b1 HF1), (law_done _ _ _ _ _ L2 W2 b2 HF2); [done|..];
      apply Forall_forall; intros c Hc.
    + specialize (HC2 c Hc). apply HN2 in Hc. apply HW in HC2 as [?|?]; set_solver.
    + specialize (HC1 c Hc). apply HN1 in Hc. apply HW in HC1 as [?|?]; set_solver.
Qed.

(** ** Objects on the wire *)
Definition object_bytes (cs : list (bytes * bytes)) : bytes := varint_bytes (len cs) ++ chunks_bytes cs.

Lemma read_object_any {T} (O : EpeeObject T) ns v cs F skip cs' r :
  object_law O ns v cs F -> len cs' <= MAX_NUM_FIELDS ->
  Forall (readable skip ns cs) cs' -> known ns cs' ≡ₚ cs ->
  read_object_with skip O (object_bytes cs' ++ r) = Ok (v, r).
Proof.
  intros L Hl Hread Hperm. pose proof (len_nonneg cs'). unfold MAX_NUM_FIELDS in Hl.
  unfold read_object_with, object_bytes, MAX_NUM_FIELDS.
  rewrite <- app_assoc, read_varint_bytes by (zpow; lia).
  replace (len cs' <=? max_usize) with true by (symmetry; apply Z.leb_le; unfold max_usize; zpow; lia).
  cbn [mbind result_bind]. destruct (1000 <? _) eqn:E; bsimp; [lia|].
  unfold len. rewrite Nat2Z.id.
  destruct (read_fields_chunks O ns v cs F skip L cs' [] (builder_default O) r)
    as (b' & W' & -> & HF & HW); [apply L|done|rewrite Hperm; apply L|set_solver|].
  cbn [mbind result_bind]. rewrite (law_done _ _ _ _ _ L W' b' HF); [done|].
  apply Forall_forall. intros c Hc. apply HW. right. rewrite Hperm. by apply list_elem_of_fmap_2.
Qed.

Lemma read_object_chunks {T} (O : EpeeObject T) ns v cs F skip r :
  object_law O ns v cs F -> len cs <= MAX_NUM_FIELDS ->
  read_object_with skip O (object_bytes cs ++ r) = Ok (v, r).
Proof.
  intros L Hl. eapply read_object_any; [done|done| |].
  - apply Forall_forall. by left.
  - unfold known. by rewrite (filter_all _ cs (law_names _ _ _ _ _ L)).
Qed.

Lemma write_object_chunks {T} (O : EpeeObject T) ns v cs F w :
  object_law O ns v cs F -> len cs <= MAX_NUM_FIELDS -> len (object_bytes cs) <= remaining_mut w ->
  write (epee_object_value O) v w = Ok (put (object_bytes cs) w).
Proof.
  intros L Hl. pose proof (len_nonneg cs). unfold MAX_NUM_FIELDS, object_bytes in *.
  rewrite len_app. intros Hw. pose proof (len_nonneg (chunks_bytes cs)).
  unfold epee_object_value. cbn [write]. rewrite (law_number _ _ _ _ _ L), write_varint_spec by (zpow; lia).
  destruct (_ <? len _) eqn:E; bsimp; [lia|]. cbn [mbind result_bind].
  rewrite (law_write _ _ _ _ _ L) by (cbn [remaining_mut put]; lia). by rewrite put_put.
Qed.

(** An object is a value, so it can be a field of another object. *)
Lemma object_value_chunk {T} (O : EpeeObject T) ns v cs F :
  object_law O ns v cs F -> len cs <= MAX_NUM_FIELDS ->
  value_chunk (epee_object_value O) v (le_split 1 (as_u8 (Marker_new Object)) ++ object_bytes cs).
Proof.
  intros L Hl. split.
  - intros w. rewrite len_app, len_le_split. intros Hw. pose proof (len_nonneg (object_bytes cs)).
    unfold write_epee_value. cbn [MARKER epee_object_value].
    rewrite checked_write_put by (rewrite len_le_split; lia). cbn [mbind result_bind].
    erewrite write_object_chunks by (done || (cbn [remaining_mut put]; rewrite len_le_split; lia)).
    by rewrite put_put.
  - intros r. unfold read_epee_value. rewrite <- app_assoc, read_marker_app. cbn [mbind result_bind].
    unfold epee_object_value. cbn [read]. rewrite decide_True by done.
    by eapply read_object_chunks.
Qed.

Lemma law_value_chunk {T} (V : EpeeValue T) valid `{!EpeeLaws V valid} v :
  valid v -> value_chunk V v (le_split 1 (as_u8 (MARKER V)) ++ enc (V := V) v).
Proof.
  intros Hv. pose proof (len_nonneg (enc (V := V) v)). split.
  - intros w. rewrite len_app, len_le_split. intros Hw. unfold write_epee_value.
    rewrite checked_write_put by (rewrite len_le_split; lia). cbn [mbind result_bind].
    rewrite write_enc, put_put; [done|done|cbn [remaining_mut put]; rewrite len_le_split; lia].
  - intros r. unfold read_epee_value. rewrite <- app_assoc, read_marker_app. by apply read_enc.
Qed.

(** ** Skipping

    The encodings of values whose objects nest at most [d] deep. *)
Definition marker_byte (m : InnerMarker) (q : bool) : bytes := le_split 1 (as_u8 (mk_marker m q)).

Definition object_body (P : bytes -> Prop) (body : bytes) : Prop :=
  exists cs, body = object_bytes cs /\ len cs <= MAX_NUM_FIELDS /\
    Forall (fun c => name_ok c.1 /\ P c.2) cs.

(** Values that hold no object. *)
Inductive flat_value : bytes -> Prop :=
  | flat_fixed m p :
      InnerMarker_size m = Some (len p) -> flat_value (marker_byte m false ++ p)
  | flat_fixed_seq m k n p :
      InnerMarker_size m = Some k -> 0 <= n <= max_i32 -> len p = k * n ->
      flat_value (marker_byte m true ++ varint_bytes n ++ p)
  | flat_string (t : bytes) :
      len t < 2 ^ 62 -> flat_value (marker_byte String_ false ++ string_enc t)
  | flat_string_seq (ts : list bytes) :
      len ts <= max_i32 -> Forall (fun t => len t < 2 ^ 62) ts ->
      flat_value (marker_byte String_ true ++ varint_bytes (len ts) ++ concat (map string_enc ts)).

Fixpoint skippable (d : nat) (bs : bytes) : Prop :=
  flat_value bs \/
  match d with
  | O => False
  | S d =>
      (exists body, object_body (skippable d) body /\ bs = marker_byte Object false ++ body) \/
      (exists bodies, len bodies <= max_i32 /\ Forall (object_body (skippable d)) bodies /\
         bs = marker_byte Object true ++ varint_bytes (len bodies) ++ concat bodies)
  end.

Lemma advance_app bs r : advance (len bs) (bs ++ r) = Ok r.
Proof. unfold advance. rewrite checked_read_app, copy_to_bytes_app by done. done. Qed.

Lemma read_count n r :
  0 <= n <= max_i32 -> read_varint max_i32 (varint_bytes n ++ r) = Ok (n, r).
Proof.
  intros Hn. unfold max_i32 in *. rewrite read_varint_bytes by (revert Hn; zpow; lia).
  destruct (_ <=? _) eqn:E; bsimp; [done|lia].
Qed.

Lemma InnerMarker_size_bound m k : InnerMarker_size m = Some k -> 1 <= k <= 8.
Proof. destruct m; cbn; intros [= <-] || done; lia. Qed.

(** A loop that consumes one item per iteration. *)
Lemma repeat_n_items (f : bytes -> Result bytes) items r :
  Forall (fun i => forall r, f (i ++ r) = Ok r) items ->
  repeat_n (length items) f (concat items ++ r) = Ok r.
Proof.
  induction 1 as [|i items Hi _ IH]; cbn [length concat repeat_n]; [done|].
  rewrite <- app_assoc, Hi. exact IH.
Qed.

Lemma skip_string t r :
  len t < 2 ^ 62 ->
  ('(l, r) ← read_varint max_usize (string_enc t ++ r); advance l r) = Ok r.
Proof.
  intros Ht. pose proof (len_nonneg t). unfold string_enc. rewrite <- app_assoc, read_varint_bytes by lia.
  replace (len t <=? max_usize) with true by (symmetry; apply Z.leb_le; unfold max_usize; zpow; lia).
  apply advance_app.
Qed.

Lemma skip_object_body (skip : bytes -> Result bytes) (P : bytes -> Prop) body r :
  (forall bs r, P bs -> skip (bs ++ r) = Ok r) -> object_body P body ->
  read_object_with skip SkipObject (body ++ r) = Ok ((), r).
Proof.
  intros Hskip (cs & -> & Hl & Hcs). pose proof (len_nonneg cs). unfold MAX_NUM_FIELDS in Hl.
  unfold read_object_with, object_bytes, MAX_NUM_FIELDS.
  rewrite <- app_assoc, read_varint_bytes by (zpow; lia).
  replace (len cs <=? max_usize) with true by (symmetry; apply Z.leb_le; unfold max_usize; zpow; lia).
  cbn [mbind result_bind]. destruct (1000 <? _) eqn:E; bsimp; [lia|].
  unfold len. rewrite Nat2Z.id. cbn [builder_default SkipObject].
  assert (read_fields skip SkipObject (length cs) () (chunks_bytes cs ++ r) = Ok ((), r)) as ->; [|done].
  clear -Hskip Hcs. unfold chunks_bytes.
  induction Hcs as [|[n bs] cs [[Hu Hn] HP] _ IH]; cbn [length map concat read_fields]; [done|].
  unfold chunk_bytes at 1. cbn [fst snd] in *. rewrite <- !app_assoc, read_name by done.
  cbn [mbind result_bind]. rewrite Hu. cbn [negb add_field SkipObject mbind result_bind].
  rewrite Hskip by done. exact IH.
Qed.

(** One step into [skip_value] on a marker. *)
Ltac skip_marker d :=
  unfold marker_byte; destruct d; cbn [skip_value]; rewrite <- !app_assoc, read_marker_app;
  cbn [mbind result_bind is_seq inner_marker InnerMarker_size].

Lemma skip_flat d bs r : flat_value bs -> skip_value d (bs ++ r) = Ok r.
Proof.
  intros Hbs. destruct Hbs as [m p Hm|m k n p Hm Hn Hp|t Ht|ts Hl Hts]; skip_marker d.
  1,2: rewrite Hm; unfold checked_mul;
    pose proof (InnerMarker_size_bound _ _ Hm); rewrite Z.mul_1_r;
    destruct (_ <? _) eqn:E; bsimp; [apply advance_app|revert E; zpow; lia].
  1,2: rewrite read_count by done; cbn [mbind result_bind]; rewrite Hm;
    pose proof (InnerMarker_size_bound _ _ Hm); unfold checked_mul; destruct (_ <? _) eqn:E; bsimp;
    [cbn [ok_or mbind result_bind]; rewrite <- Hp; apply advance_app
    |unfold max_i32 in Hn; revert E Hn; zpow; nia].
  1,2: change (Z.to_nat 1) with 1%nat; cbn [repeat_n]; by rewrite skip_string.
  all: pose proof (len_nonneg ts); rewrite read_count by done; cbn [mbind result_bind]; unfold len;
    rewrite Nat2Z.id, <- (length_map string_enc ts); apply repeat_n_items;
    rewrite Forall_map; eapply Forall_impl; [exact Hts|]; intros t Ht r'; by apply skip_string.
Qed.

Lemma skip_value_exact d : forall bs r, skippable d bs -> skip_value d (bs ++ r) = Ok r.
Proof.
  induction d as [|d IH]; intros bs r [Hflat|Hobj]; [by apply skip_flat|done|by apply skip_flat|].
  destruct Hobj as [(body & Hb & ->)|(bodies & Hl & Hbs & ->)];
    unfold marker_byte; cbn [skip_value]; rewrite <- !app_assoc, read_marker_app;
    cbn [mbind result_bind is_seq inner_marker InnerMarker_size].
  - change (Z.to_nat 1) with 1%nat. cbn [repeat_n]. by rewrite (skip_object_body _ (skippable d)).
  - pose proof (len_nonneg bodies). rewrite read_count by done. cbn [mbind result_bind].
    unfold len. rewrite Nat2Z.id. apply repeat_n_items. eapply Forall_impl; [exact Hbs|].
    intros body Hb r'. cbn beta. by rewrite (skip_object_body _ (skippable d)).
Qed.

(** ** Untrusted input

    [safe r res]: reading from [r] did not panic, and what remains is a suffix of [r]. *)
Definition safe {A} (r : bytes) (res : Result (A * bytes)) : Prop :=
  match res with Ok (_, r') => r' `suffix_of` r | Err _ => True | Panic => False end.
Definition safe_rest (r : bytes) (res : Result bytes) : Prop :=
  match res with Ok r' => r' `suffix_of` r | Err _ => True | Panic => False end.

Definition safe_reader {T} (V : EpeeValue T) : Prop := forall r m, safe r (read V r m).

Lemma safe_bind {A B} r (res : Result (A * bytes)) (f : A * bytes -> Result (B * bytes)) :
  safe r res -> (forall a r', r' `suffix_of` r -> safe r' (f (a, r'))) -> safe r (res ≫= f).
Proof.
  destruct res as [[a r']| |]; cbn; [|done..]. intros Hs Hf. specialize (Hf a r' Hs).
  destruct (f (a, r')) as [[b r'']| |]; cbn in *; [by etrans|done..].
Qed.

Lemma safe_rest_bind {A} r (res : Result (A * bytes)) (f : A * bytes -> Result bytes) :
  safe r res -> (forall a r', r' `suffix_of` r -> safe_rest r' (f (a, r'))) -> safe_rest r (res ≫= f).
Proof.
  destruct res as [[a r']| |]; cbn; [|done..]. intros Hs Hf. specialize (Hf a r' Hs).
  destruct (f (a, r')) as [r''| |]; cbn in *; [by etrans|done..].
Qed.

Lemma safe_of_rest {B} r (res : Result bytes) (f : bytes -> Result (B * bytes)) :
  safe_rest r res -> (forall r', r' `suffix_of` r -> safe r' (f r')) -> safe r (res ≫= f).
Proof.
  destruct res as [r'| |]; cbn; [|done..]. intros Hs Hf. specialize (Hf r' Hs).
  destruct (f r') as [[b r'']| |]; cbn in *; [by etrans|done..].
Qed.

Lemma suffix_drop n (r : bytes) : drop n r `suffix_of` r.
Proof. exists (take n r). by rewrite take_drop. Qed.

Lemma safe_copy n r : safe r (checked_read r (copy_to_bytes n) n).
Proof.
  unfold checked_read, copy_to_bytes. destruct (_ <? _); cbn; [done|apply suffix_drop].
Qed.

Lemma safe_get_le n r : safe r (checked_read r (get_le n) (Z.of_nat n)).
Proof. unfold checked_read, get_le. destruct (_ <? _); cbn; [done|apply suffix_drop]. Qed.

Lemma safe_varint max r : safe r (read_varint max r).
Proof.
  destruct r as [|b r]; cbn [read_varint]; [done|]. cbv zeta.
  destruct (_ <? _); [done|]. destruct (_ <=? _); [|done]. cbn.
  etrans; [apply suffix_drop|]. by exists [b].
Qed.

Lemma safe_marker r : safe r (read_marker r).
Proof.
  unfold read_marker. apply safe_bind; [apply (safe_get_le 1)|].
  intros b r' _. cbv beta iota. assert (Marker_try_from b <> Panic).
  { unfold Marker_try_from. cbv zeta. repeat case_match; done. }
  destruct (Marker_try_from b); cbn; done.
Qed.

Lemma safe_epee_uint m n : safe_reader (epee_uint m n).
Proof. intros r k. cbn. case_decide; [apply safe_get_le|done]. Qed.

Lemma safe_epee_bytes : safe_reader epee_bytes.
Proof.
  intros r k. unfold epee_bytes. cbn [read]. case_decide; [|done].
  apply safe_bind; [apply safe_varint|]. intros n r' _. cbv beta iota.
  destruct (_ <? n); [done|]. unfold copy_to_bytes. destruct (len r' <? n); cbn; [done|apply suffix_drop].
Qed.

Lemma safe_epee_byte_array N : safe_reader (epee_byte_array N).
Proof.
  intros r k. unfold epee_byte_array. cbn [read]. apply safe_bind; [apply safe_epee_bytes|].
  intros bs r' _. cbv beta iota. destruct (negb _); by cbn.
Qed.

Lemma safe_epee_string : safe_reader epee_string.
Proof.
  intros r k. unfold epee_string. cbn [read]. apply safe_bind; [apply safe_epee_bytes|].
  intros bs r' _. cbv beta iota. destruct (utf8_valid bs); by cbn.
Qed.

Lemma safe_epee_vec {T} (V : EpeeValue T) : safe_reader V -> safe_reader (epee_vec V).
Proof.
  intros HV r k. unfold epee_vec. cbn [read]. destruct (negb _); [done|].
  apply safe_bind; [apply safe_varint|]. intros n r' _. cbv beta iota.
  generalize (Z.to_nat n). clear n r. intros n. revert r'.
  induction n as [|n IH]; intros r; cbn [read_items]; [by cbn|].
  apply safe_bind; [apply HV|]. intros v r1 _. cbv beta iota.
  apply safe_bind; [apply IH|]. intros vs r2 _. by cbn.
Qed.

Lemma safe_read_epee_value {T} (V : EpeeValue T) r : safe_reader V -> safe r (read_epee_value V r).
Proof.
  intros HV. unfold read_epee_value. apply safe_bind; [apply safe_marker|]. intros m r' _. apply HV.
Qed.

(** A builder that never panics. *)
Definition safe_object {T} (O : EpeeObject T) : Prop :=
  (forall b n r, match add_field O b n r with
                 | Ok (_, _, r') => r' `suffix_of` r | Err _ => True | Panic => False end) /\
  (forall b, finish O b <> Panic).

Lemma safe_read_object {T} (O : EpeeObject T) skip r :
  safe_object O -> (forall r, safe_rest r (skip r)) -> safe r (read_object_with skip O r).
Proof.
  intros [Hadd Hfin] Hskip. unfold read_object_with. apply safe_bind; [apply safe_varint|].
  intros n r1 _. cbv beta iota. destruct (_ <? _); [done|].
  apply safe_bind.
  - generalize (Z.to_nat n) (builder_default O). clear n r. intros n b. revert b r1.
    induction n as [|n IH]; intros b r; cbn [read_fields]; [by cbn|].
    apply safe_bind.
    { unfold read_field_name_bytes. apply safe_bind; [apply (safe_get_le 1)|].
      intros k r' _. apply safe_copy. }
    intros name r1 _. cbv beta iota. destruct (negb _); [done|].
    specialize (Hadd b name r1). destruct (add_field O b name r1) as [[[it b'] r2]| |]; cbn in *; [|done..].
    assert (Hrest : safe_rest r2 (if it then Ok r2 else skip r2)) by (destruct it; [by cbn|apply Hskip]).
    destruct (if it then Ok r2 else skip r2) as [r3| |]; cbn in *; [|done..].
    specialize (IH b' r3). destruct (read_fields _ _ _ _ _) as [[b'' r4]| |]; cbn in *; [|done..].
    by do 2 (etrans; [eassumption|]).
  - intros b r2 _. cbv beta iota. specialize (Hfin b). by destruct (finish O b); cbn.
Qed.

Lemma safe_repeat_n n f r : (forall r, safe_rest r (f r)) -> safe_rest r (repeat_n n f r).
Proof.
  intros Hf. revert r. induction n as [|n IH]; intros r; cbn [repeat_n]; [by cbn|].
  specialize (Hf r). destruct (f r) as [r1| |]; cbn in *; [|done..].
  specialize (IH r1). destruct (repeat_n n f r1); cbn in *; [by etrans|done..].
Qed.

Lemma safe_advance n r : safe_rest r (advance n r).
Proof. unfold advance. apply safe_rest_bind; [apply safe_copy|]. by cbn. Qed.

Lemma safe_skip_value d : forall r, safe_rest r (skip_value d r).
Proof.
  induction d as [|d IH]; intros r; cbn [skip_value];
    (apply safe_rest_bind; [apply safe_marker|]); intros m r1 _; cbv beta iota;
    (apply safe_rest_bind; [destruct (is_seq m); [apply safe_varint|by cbn]|]); intros n r2 _; cbv beta iota;
    (destruct (InnerMarker_size (inner_marker m)) as [size|] eqn:Em;
     [destruct (checked_mul 64 size n); cbn; [apply safe_advance|done]|]);
    apply safe_repeat_n; intros r3; destruct (inner_marker m); try done;
    try (apply safe_rest_bind; [apply safe_varint|]; intros l r4 _; apply safe_advance).
  apply safe_rest_bind; [|by cbn]. apply safe_read_object; [split; by cbn|apply IH].
Qed.

Lemma safe_fields_object fs : Forall (fun f => safe_reader (f_val f)) fs -> safe_object (fields_object fs).
Proof.
  intros Hfs. split; cbn.
  - induction Hfs as [|f fs Hf _ IH]; [intros b n r; by cbn|]. intros [o b] n r. cbn. case_bool_decide.
    + pose proof (safe_read_epee_value (f_val f) r Hf) as Hs.
      destruct (read_epee_value (f_val f) r) as [[v r']| |]; cbn in *; [destruct o; done|done..].
    + specialize (IH b n r). destruct (fields_add_field fs b n r) as [[[it b'] r']| |]; cbn in *; done.
  - clear Hfs. induction fs as [|f fs IH]; [done|]. intros [o b]. cbn.
    destruct (or_default o); cbn; [|done]. specialize (IH b). destruct (fields_finish fs b); cbn; done.
Qed.

(** ** Properties *)
Lemma fields_chunks_len fs vs cs : fields_chunks fs vs cs -> len cs <= len fs.
Proof.
  revert cs. induction fs as [|f fs IH]; [by intros cs ->|]. destruct vs as [v vs]. cbn. intros cs H.
  unfold len in *. destruct (field_written f v);
    [destruct H as (bs & cs' & -> & _ & H)|destruct H as [_ H]]; apply IH in H; cbn [length] in *; lia.
Qed.

Lemma read_header_app r : read_header (HEADER ++ r) = Ok r.
Proof. unfold read_header. rewrite checked_read_app, copy_to_bytes_app by done. done. Qed.

(** Round trip of every struct that [epee_object!] implements: its fields have distinct,
    encodable names, and each value is written (and readable) or restored by its default.
    [to_bytes] then succeeds and [from_bytes] returns the struct and what follows it. *)
Theorem epee_object_roundtrip fs vs cs r :
  NoDup (names fs) -> Forall name_ok (names fs) -> len fs <= MAX_NUM_FIELDS ->
  fields_chunks fs vs cs -> len (chunks_bytes cs) < 2 ^ 62 ->
  exists bs, to_bytes (fields_object fs) vs = Ok bs /\
    from_bytes (fields_object fs) (bs ++ r) = Ok (vs, r).
Proof.
  intros Hnd Hok Hfs Hcs Hlen. pose proof (fields_object_law fs vs cs Hnd Hok Hcs) as L.
  assert (len cs <= MAX_NUM_FIELDS) as Hl by (apply fields_chunks_len in Hcs; lia).
  pose proof (len_nonneg cs). pose proof (len_nonneg (chunks_bytes cs)).
  exists (HEADER ++ object_bytes cs). split.
  - unfold to_bytes, write_head_object, write_header, new_buf.
    rewrite checked_write_put by (done || (cbn; zpow; lia)). cbn [mbind result_bind].
    erewrite write_object_chunks; [done|exact L|done|].
    unfold object_bytes. rewrite len_app, len_varint_bytes by (unfold MAX_NUM_FIELDS in Hl; zpow; lia).
    destruct (varint_marker_bound (len cs)) as [Hm _]; [unfold MAX_NUM_FIELDS in Hl; zpow; lia|].
    assert (2 ^ varint_marker (len cs) <= 2 ^ 3) by (apply Z.pow_le_mono_r; lia).
    cbn [remaining_mut put]. change (len HEADER) with 9. revert Hlen. zpow. lia.
  - unfold from_bytes, read_head_object. rewrite <- app_assoc, read_header_app. cbn [mbind result_bind].
    unfold read_object. by eapply read_object_chunks.
Qed.

Definition sync_data : values CoreSyncData := (5, (0, (7, (384, (repeat 9 32, (16, ())))))).

Lemma epee_object_roundtrip_witness :
  exists bs, to_bytes (fields_object CoreSyncData) sync_data = Ok bs /\
    from_bytes (fields_object CoreSyncData) (bs ++ [1; 2]) = Ok (sync_data, [1; 2]).
Proof.
  eapply (epee_object_roundtrip CoreSyncData sync_data _ [1; 2]).
  - apply (bool_decide_unpack _). vm_compute. exact I.
  - repeat constructor; vm_compute; discriminate.
  - vm_compute. discriminate.
  - unfold CoreSyncData, sync_data. cbn -[le_split le_combine enc].
    repeat first
      [ exact (eq_refl [])
      | split; [reflexivity|]
      | eexists _, _; split; [reflexivity|]; split;
        [ first
            [ apply (law_value_chunk (epee_byte_array 32)
                (fun t : bytes => length t = 32%nat /\ len t <= MAX_STRING_LEN_POSSIBLE));
              split; [reflexivity|vm_compute; discriminate]
            | apply (law_value_chunk epee_u64 (is_u (8 * Z.of_nat 8))); vm_compute; intuition discriminate
            | apply (law_value_chunk epee_u32 (is_u (8 * Z.of_nat 4))); vm_compute; intuition discriminate
            | apply (law_value_chunk epee_u8 (is_u (8 * Z.of_nat 1))); vm_compute; intuition discriminate ] |] ].
  - vm_compute. reflexivity.
Defined.

(** Reading does not depend on the order of the fields and ignores unknown ones: any
    arrangement of the fields of [vs] mixed with fields of other names, whose values nest
    objects at most [MAX_DEPTH_OF_SKIPPED_OBJECTS] deep, is read as [vs]. *)
Theorem epee_object_order_and_unknown_fields fs vs cs cs' r :
  NoDup (names fs) -> Forall name_ok (names fs) -> fields_chunks fs vs cs ->
  len cs' <= MAX_NUM_FIELDS -> known (names fs) cs' ≡ₚ cs ->
  Forall (fun c => c.1 ∈ names fs \/ (name_ok c.1 /\ skippable 20 c.2)) cs' ->
  from_bytes (fields_object fs) (HEADER ++ object_bytes cs' ++ r) = Ok (vs, r).
Proof.
  intros Hnd Hok Hcs Hl Hperm Hcs'. pose proof (fields_object_law fs vs cs Hnd Hok Hcs) as L.
  unfold from_bytes, read_head_object. rewrite read_header_app. cbn [mbind result_bind].
  unfold read_object. eapply read_object_any; [exact L|done| |done].
  rewrite Forall_forall in Hcs' |- *. intros c Hc. unfold readable.
  destruct (decide (c.1 ∈ names fs)) as [Hin|Hnot].
  - left. rewrite <- Hperm. unfold known. apply list_elem_of_filter. done.
  - right. destruct (Hcs' c Hc) as [?|[Hn Hs]]; [done|]. split_and!; [done..|].
    intros r'. by apply (skip_value_exact 20).
Qed.

Lemma epee_object_order_and_unknown_fields_witness :
  from_bytes (fields_object [field_req "val" epee_u64])
    (HEADER ++ object_bytes [(str_bytes "x", [8; 77]); (str_bytes "val", 5 :: le_split 8 300)] ++ [4])
    = Ok ((300, ()), [4]).
Proof.
  eapply (epee_object_order_and_unknown_fields [field_req "val" epee_u64] (300, ())
    [(str_bytes "val", 5 :: le_split 8 300)]).
  - apply (bool_decide_unpack _). vm_compute. exact I.
  - repeat constructor; vm_compute; discriminate.
  - cbn -[le_split]. eexists _, []. split; [reflexivity|]. split; [|reflexivity].
    refine (law_value_chunk epee_u64 (is_u (8 * Z.of_nat 8)) 300 _). vm_compute. intuition discriminate.
  - vm_compute. discriminate.
  - reflexivity.
  - constructor; [right; split; [vm_compute; intuition discriminate|]|].
    + left. apply (flat_fixed U8 [77]). reflexivity.
    + constructor; [left; vm_compute; constructor|constructor].
Defined.

(** A value with [n] objects nested in each other. *)
Fixpoint nested (n : nat) : bytes :=
  match n with
  | O => marker_byte U8 false ++ [0]
  | S n => marker_byte Object false ++ object_bytes [(str_bytes "a", nested n)]
  end.

(** The depth limit on skipped values: a value with up to
    [MAX_DEPTH_OF_SKIPPED_OBJECTS - skipped_objects] nested objects is skipped exactly; one
    more and the reader stops with the depth error (it does not recurse further). *)
Theorem skip_depth_limit n skipped_objects r :
  0 <= skipped_objects <= MAX_DEPTH_OF_SKIPPED_OBJECTS ->
  skip_epee_value (nested n ++ r) skipped_objects =
    if Z.of_nat n + skipped_objects <=? MAX_DEPTH_OF_SKIPPED_OBJECTS then Ok r
    else Err (Format "Depth of skipped objects exceeded maximum").
Proof.
  unfold skip_epee_value. intros Hs.
  assert (forall d, skip_value d (nested n ++ r) =
    if (n <=? d)%nat then Ok r else Err (Format "Depth of skipped objects exceeded maximum")) as ->.
  { clear Hs skipped_objects. revert r. induction n as [|n IH]; intros r d.
    - change (nested 0) with (marker_byte U8 false ++ [0]). apply skip_flat. by apply flat_fixed.
    - cbn [nested]. unfold marker_byte, object_bytes.
      destruct d as [|d]; cbn [skip_value]; rewrite <- !app_assoc, read_marker_app;
        cbn [mbind result_bind is_seq inner_marker InnerMarker_size]; [done|].
      change (Z.to_nat 1) with 1%nat. cbn [repeat_n]. unfold read_object_with.
      rewrite read_varint_bytes by done. change (len [_] <=? max_usize) with true. cbn [mbind result_bind].
      change (MAX_NUM_FIELDS <? len [_]) with false. cbn iota. change (Z.to_nat (len [_])) with 1%nat.
      unfold chunks_bytes. cbn [map concat]. unfold chunk_bytes. cbn [fst snd]. cbn [read_fields].
      rewrite app_nil_r, <- !app_assoc, read_name by done. cbn [mbind result_bind].
      change (negb (utf8_valid (str_bytes "a"))) with false. cbn [add_field SkipObject mbind result_bind].
      rewrite IH. by destruct (n <=? d)%nat eqn:E; cbn [Nat.leb]; rewrite E. }
  unfold MAX_DEPTH_OF_SKIPPED_OBJECTS in *.
  destruct (Nat.leb_spec n (Z.to_nat (20 - skipped_objects))), (Z.leb_spec (Z.of_nat n + skipped_objects) 20);
    done || lia.
Qed.

Lemma skip_depth_limit_witness :
  skip_epee_value (nested 20 ++ [3]) 0 = Ok [3] /\
  skip_epee_value (nested 21) 0 = Err (Format "Depth of skipped objects exceeded maximum").
Proof.
  pose proof (skip_depth_limit 20 0 [3] ltac:(vm_compute; intuition discriminate)) as H1.
  pose proof (skip_depth_limit 21 0 [] ltac:(vm_compute; intuition discriminate)) as H2.
  rewrite app_nil_r in H2. split; [exact H1|exact H2].
Defined.

(** Decoding a message from arbitrary peer bytes never panics, for every object whose
    field types have safe readers; on success what remains is a suffix of the input. *)
Theorem from_bytes_never_panics fs buf :
  Forall (fun f => safe_reader (f_val f)) fs ->
  match from_bytes (fields_object fs) buf with
  | Ok (_, r) => r `suffix_of` buf
  | Err _ => True
  | Panic => False
  end.
Proof.
  intros Hfs. change (safe buf (from_bytes (fields_object fs) buf)).
  unfold from_bytes, read_head_object. apply safe_of_rest.
  - unfold read_header. apply safe_rest_bind; [apply safe_copy|].
    intros bs r' _. cbv beta iota. destruct (negb _); by cbn.
  - intros r _. apply safe_read_object; [by apply safe_fields_object|].
    intros r'. apply safe_skip_value.
Qed.

Lemma from_bytes_never_panics_witness :
  match from_bytes (fields_object BasicNodeData) [1; 17; 255] with
  | Ok (_, r) => r `suffix_of` [1; 17; 255]
  | Err _ => True
  | Panic => False
  end.
Proof.
  apply (from_bytes_never_panics BasicNodeData).
  repeat constructor; apply safe_epee_uint || apply safe_epee_byte_array.
Defined.

End EpeeObj.
