(* ===== verification/EpeeStruct.v ===== *)
(** * Structs as epee objects ([src/net/epee-encoding/src/macros.rs])

    The objects that [epee_object!] makes of records, and the law a type must satisfy so
    that its values survive on the wire alone, as fields, in vectors and as whole
    messages: [ObjectLaws] for objects gives [EpeeLaws] for values, and a struct has
    [ObjectLaws] when its fields have [FieldLaws]. *)
From S2P Require Import Prelude Bytes EpeeValue EpeeObject.
From Stdlib Require Import ZArith Lia String.
From stdpp Require Import base tactics option list numbers sets.
Import Epee EpeeObj.

#[local] Open Scope Z_scope.

Module EpeeStruct.

(** ** Records *)
(** A field whose default is given with [= default]. *)
Definition field_or {T} `{EqDecision T} (name : string) (V : EpeeValue T) (d : T) : Field :=
  mk_field T (str_bytes name) V (Some d) (fun a b => bool_decide (a = b)).

(** A field with functions of its own, [=> read_fn, write_fn, should_write_fn], and a
    default; it is an object that knows one name. *)
Definition custom_field {T} `{EqDecision T} (name : string) (read_fn : bytes -> Result (T * bytes)) (write_fn : T -> bytes -> Writer -> Result Writer)
    (should_write_fn : T -> bool) (default : T) : EpeeObject T := {|
  Builder := option T;
  builder_default := None;
  add_field o n r :=
    if bool_decide (n = str_bytes name) then
      '(v, r) ← read_fn r;
      match o with
      | Some _ => Err (Value ("Duplicate field in data: " ++ name))
      | None => Ok (true, Some v, r)
      end
    else Ok (false, o, r);
  finish o := Ok (match o with Some v => v | None => default end);
  number_of_fields v := if negb (bool_decide (v = default)) && should_write_fn v then 1 else 0;
  write_fields v w := if negb (bool_decide (v = default)) && should_write_fn v then write_fn v (str_bytes name) w else Ok w;
|}.

(** An object of another type with the same fields. *)
Definition map_object {S T} (O : EpeeObject S) (into : T -> S) (from : S -> T) : EpeeObject T := {|
  Builder := Builder O;
  builder_default := builder_default O;
  add_field := add_field O;
  finish b := from <$> finish O b;
  number_of_fields v := number_of_fields O (into v);
  write_fields v := write_fields O (into v);
|}.

(** A record of type [T] whose fields are [fs]. *)
Definition struct_object {T} (fs : list Field) (to_values : T -> values fs) (of_values : values fs -> T) : EpeeObject T :=
  map_object (fields_object fs) to_values of_values.

(** ** Laws *)
Class ObjectLaws {T} (O : EpeeObject T) (valid : T -> Prop) := {
  ol_names : list bytes;
  ol_chunks : T -> list (bytes * bytes);
  ol_filled : T -> list bytes -> Builder O -> Prop;
  ol_law v : valid v -> object_law O ol_names v (ol_chunks v) (ol_filled v);
  ol_few : len ol_names <= MAX_NUM_FIELDS;
  ol_full v w : valid v -> 0 <= remaining_mut w < len (chunks_bytes (ol_chunks v)) -> exists msg, write_fields O v w = Err (IO msg);
}.

Lemma ol_small {T} (O : EpeeObject T) valid `{!ObjectLaws O valid} v : valid v -> len (ol_chunks v) <= MAX_NUM_FIELDS.
Proof.
  intros Hv. pose proof (ol_law v Hv) as L. pose proof (ol_few (O := O)) as Hf. unfold len in *.
  assert (length (ol_chunks v).*1 <= length ol_names)%nat; [|rewrite length_fmap in *; lia].
  apply submseteq_length, NoDup_submseteq; [apply L|]. intros n Hn. apply list_elem_of_fmap in Hn as (c & -> & Hc).
  pose proof (law_names _ _ _ _ _ L) as Hns. rewrite Forall_forall in Hns. by apply Hns.
Qed.

Lemma len_small_varint n : 0 <= n <= MAX_NUM_FIELDS -> 0 <= n < 2 ^ 62.
Proof. unfold MAX_NUM_FIELDS. zpow. lia. Qed.

#[export] Instance object_value_laws {T} (O : EpeeObject T) valid `{!ObjectLaws O valid} : EpeeLaws (epee_object_value O) valid.
Proof.
  refine {| enc v := object_bytes (ol_chunks v) |}.
  - intros v w Hv Hw. eapply write_object_chunks; [by apply ol_law|by apply ol_small|done].
  - intros v w Hv. pose proof (ol_law v Hv) as L. pose proof (len_nonneg (ol_chunks v)).
    unfold object_bytes. rewrite len_app. intros Hw. cbn [write epee_object_value].
    rewrite (law_number _ _ _ _ _ L), write_varint_spec by (apply len_small_varint; split; [done|by apply ol_small]).
    destruct (_ <? len _) eqn:E; bsimp; cbn [mbind result_bind]; [eauto|].
    apply ol_full; [done|]. cbn [remaining_mut put]. lia.
  - intros v r Hv. cbn [read epee_object_value MARKER]. rewrite decide_True by done.
    eapply read_object_chunks; [by apply ol_law|by apply ol_small].
Defined.

(** Whole messages: [to_bytes] succeeds exactly when the message fits in a buffer, and
    [from_bytes] then reads it back whatever follows. *)
Definition message_bytes {T} (O : EpeeObject T) {valid} `{!ObjectLaws O valid} (v : T) : bytes := HEADER ++ object_bytes (ol_chunks v).

Lemma message_to_bytes {T} (O : EpeeObject T) valid `{!ObjectLaws O valid} v :
  valid v ->
  if len (message_bytes O v) <? 2 ^ 63 then to_bytes O v = Ok (message_bytes O v) else exists msg, to_bytes O v = Err (IO msg).
Proof.
  intros Hv. unfold to_bytes, write_head_object, write_header, message_bytes, new_buf.
  rewrite checked_write_put by (done || (cbn; zpow; lia)). cbn [mbind result_bind]. rewrite len_app. change (len HEADER) with 9.
  set (w := put HEADER _). assert (Hrem : remaining_mut w = 2 ^ 63 - 10) by reflexivity.
  destruct (_ <? _) eqn:E; bsimp.
  - erewrite write_object_chunks; [|by apply ol_law|by apply ol_small|rewrite Hrem; lia]. done.
  - destruct (write_full (V := epee_object_value O) v w Hv) as [msg ->]; [cbn [enc object_value_laws]; rewrite Hrem; zlia|].
    by exists msg.
Qed.

Lemma message_from_bytes {T} (O : EpeeObject T) valid `{!ObjectLaws O valid} v r :
  valid v -> from_bytes O (message_bytes O v ++ r) = Ok (v, r).
Proof.
  intros Hv. unfold from_bytes, read_head_object, message_bytes. rewrite <- app_assoc, read_header_app. cbn [mbind result_bind].
  eapply read_object_chunks; [by apply ol_law|by apply ol_small].
Qed.

(** ** Fields *)
(** A field whose values survive: one that is written is read back, one that is not is
    restored by the default of the field or of its type. *)
Class FieldLaws (f : Field) (valid : f_ty f -> Prop) := {
  fl_enc : f_ty f -> bytes;
  fl_chunk v : valid v -> field_written f v = true -> value_chunk (f_val f) v (fl_enc v);
  fl_full v w : valid v -> field_written f v = true -> 0 <= remaining_mut w < len (fl_enc v) ->
    exists msg, write_epee_value (f_val f) v w = Err (IO msg);
  fl_missing v : valid v -> field_written f v = false -> or_default (f := f) None = Some v;
}.

(** A value that is not written is the default of its type. *)
Class Restored {T} (V : EpeeValue T) (valid : T -> Prop) : Prop :=
  restored v : valid v -> should_write V v = false -> epee_default_value V = Some v.
Class AlwaysWritten {T} (V : EpeeValue T) : Prop := always_written v : should_write V v = true.

Lemma write_value_full {T} (V : EpeeValue T) valid `{!EpeeLaws V valid} v w :
  valid v -> 0 <= remaining_mut w < len (le_split 1 (as_u8 (MARKER V)) ++ enc (V := V) v) -> exists msg, write_epee_value V v w = Err (IO msg).
Proof.
  intros Hv. rewrite len_app, len_le_split. intros Hw. unfold write_epee_value. destruct (decide (remaining_mut w < 1)).
  - unfold checked_write. rewrite (proj2 (Z.ltb_lt _ _)) by lia. eauto.
  - rewrite checked_write_put by (rewrite len_le_split; lia). cbn [mbind result_bind]. apply write_full; [done|].
    cbn [remaining_mut put]. rewrite len_le_split. lia.
Qed.

(** [Option<T>] takes no part in this: what it holds must be written. *)
#[export] Instance field_req_laws {T} name (V : EpeeValue T) valid `{!EpeeLaws V valid, !Restored V valid} : FieldLaws (field_req name V) valid.
Proof.
  refine {| fl_enc (v : f_ty (field_req name V)) := le_split 1 (as_u8 (MARKER V)) ++ enc (V := V) v |}; cbn.
  - intros v Hv _. by apply law_value_chunk.
  - intros v w Hv _. by apply write_value_full.
  - intros v Hv Hw. by apply (restored v).
Defined.

#[export] Instance field_option_laws {T} name (V : EpeeValue T) valid `{!EpeeLaws V valid} :
  FieldLaws (field_req name (epee_option V)) (fun o => match o with Some v => valid v /\ should_write V v = true | None => True end).
Proof.
  refine {| fl_enc (o : f_ty (field_req name (epee_option V))) := le_split 1 (as_u8 (MARKER V)) ++ enc (V := epee_option V) o |}; cbn [f_val f_ty field_req].
  - intros [v|] Hv Hw; [|done]. apply (law_value_chunk (epee_option V) _ (Some v)), Hv.
  - intros [v|] w Hv Hw; [|done]. apply (write_value_full (epee_option V) _ (Some v)), Hv.
  - intros [v|] Hv; [|done]. unfold field_written. cbn. by destruct Hv as [_ ->].
Defined.

#[export] Instance field_or_laws {T} `{EqDecision T} name (V : EpeeValue T) d valid `{!EpeeLaws V valid, !AlwaysWritten V} : FieldLaws (field_or name V d) valid.
Proof.
  refine {| fl_enc (v : f_ty (field_or name V d)) := le_split 1 (as_u8 (MARKER V)) ++ enc (V := V) v |}; cbn.
  - intros v Hv _. by apply law_value_chunk.
  - intros v w Hv _. by apply write_value_full.
  - intros v Hv. unfold field_written. cbn. rewrite always_written, andb_true_r, negb_false_iff. by intros ->%bool_decide_eq_true.
Defined.

#[export] Instance field_def_laws name (V : EpeeValue Z) d valid `{!EpeeLaws V valid, !AlwaysWritten V} : FieldLaws (field_def name V d) valid.
Proof.
  refine {| fl_enc (v : f_ty (field_def name V d)) := le_split 1 (as_u8 (MARKER V)) ++ enc (V := V) v |}; cbn.
  - intros v Hv _. by apply law_value_chunk.
  - intros v w Hv _. by apply write_value_full.
  - intros v Hv. unfold field_written. cbn. rewrite always_written, andb_true_r, negb_false_iff. by intros ->%Z.eqb_eq.
Defined.

#[export] Instance always_written_restored {T} (V : EpeeValue T) valid `{!AlwaysWritten V} : Restored V valid.
Proof. intros v _. by rewrite always_written. Qed.
#[export] Instance epee_uint_written m n : AlwaysWritten (epee_uint m n).
Proof. done. Qed.
#[export] Instance epee_int_written m n : AlwaysWritten (epee_int m n).
Proof. done. Qed.
#[export] Instance epee_bool_written : AlwaysWritten epee_bool.
Proof. done. Qed.
#[export] Instance epee_byte_array_written n : AlwaysWritten (epee_byte_array n).
Proof. done. Qed.
#[export] Instance epee_object_written {T} (O : EpeeObject T) : AlwaysWritten (epee_object_value O).
Proof. done. Qed.

Lemma empty_restored {A} (l : list A) : negb (len l =? 0) = false -> Some [] = Some l.
Proof. rewrite negb_false_iff, Z.eqb_eq. unfold len. by destruct l. Qed.
#[export] Instance epee_bytes_restored valid : Restored epee_bytes valid.
Proof. intros v _. apply empty_restored. Qed.
#[export] Instance epee_vec_restored {T} (V : EpeeValue T) valid : Restored (epee_vec V) valid.
Proof. intros v _. apply empty_restored. Qed.
#[export] Instance epee_blob_restored n valid : Restored (epee_blob n) valid.
Proof. intros v _. apply empty_restored. Qed.

(** ** Structs *)
Class StructLaws (fs : list Field) (valid : values fs -> Prop) := {
  sl_chunks : values fs -> list (bytes * bytes);
  sl_ok vs : valid vs -> fields_chunks fs vs (sl_chunks vs);
  sl_full vs w : valid vs -> Forall name_ok (names fs) -> 0 <= remaining_mut w < len (chunks_bytes (sl_chunks vs)) ->
    exists msg, fields_write fs vs w = Err (IO msg);
}.

#[export] Instance nil_laws : StructLaws [] (fun _ => True).
Proof. refine {| sl_chunks _ := [] |}; cbn; [done|]. intros _ w _ _. unfold len. cbn. lia. Defined.

(** A written field: its name and its value, one after the other. *)
Lemma write_named {T} (V : EpeeValue T) v name bs w :
  should_write V v = true -> len name <= 255 ->
  (forall w, len bs <= remaining_mut w -> write_epee_value V v w = Ok (put bs w)) ->
  (forall w, 0 <= remaining_mut w < len bs -> exists msg, write_epee_value V v w = Err (IO msg)) ->
  (len (chunk_bytes (name, bs)) <= remaining_mut w -> write_field V v name w = Ok (put (chunk_bytes (name, bs)) w)) /\
  (0 <= remaining_mut w < len (chunk_bytes (name, bs)) -> exists msg, write_field V v name w = Err (IO msg)).
Proof.
  intros Hs Hn Hput Hfail. pose proof (len_nonneg name). pose proof (len_nonneg bs). unfold chunk_bytes. cbn [fst snd].
  rewrite !len_app, len_le_split. unfold write_field. rewrite Hs.
  unfold write_field_name. rewrite (proj2 (Z.leb_le _ _)) by done. cbn [mbind result_bind].
  assert (Hfull : forall w n, remaining_mut w < n -> forall f, exists msg, checked_write w f n = Err (IO msg)).
  { intros w' n Hr g. unfold checked_write. rewrite (proj2 (Z.ltb_lt _ _)) by done. eauto. }
  destruct (decide (remaining_mut w < 1)) as [Hr|Hr]; [split; [lia|]; intros _; destruct (Hfull w 1 Hr (put (le_split 1 (len name)))) as [msg ->]; eauto|].
  rewrite checked_write_put by (rewrite len_le_split; lia). cbn [mbind result_bind]. set (w1 := put _ w).
  assert (Hr1 : remaining_mut w1 = remaining_mut w - 1) by (unfold w1; cbn [remaining_mut put]; by rewrite len_le_split).
  destruct (decide (remaining_mut w1 < len name)) as [Hr2|Hr2]; [split; [lia|]; intros _; destruct (Hfull w1 _ Hr2 (put name)) as [msg ->]; eauto|].
  rewrite checked_write_put by (done || lia). cbn [mbind result_bind]. set (w2 := put _ w1).
  assert (Hr3 : remaining_mut w2 = remaining_mut w - 1 - len name) by (unfold w2, w1; cbn [remaining_mut put]; by rewrite len_le_split). split; intros Hl.
  - rewrite Hput by lia. unfold w2, w1. by rewrite !put_put.
  - apply Hfail. lia.
Qed.

Lemma write_field_put f valid `{!FieldLaws f valid} v w :
  valid v -> field_written f v = true -> len (f_name f) <= 255 ->
  (len (chunk_bytes (f_name f, fl_enc v)) <= remaining_mut w -> write_field (f_val f) v (f_name f) w = Ok (put (chunk_bytes (f_name f, fl_enc v)) w)) /\
  (0 <= remaining_mut w < len (chunk_bytes (f_name f, fl_enc v)) -> exists msg, write_field (f_val f) v (f_name f) w = Err (IO msg)).
Proof.
  intros Hv Hw Hn. apply write_named; [unfold field_written in Hw; apply andb_true_iff in Hw; tauto|done|by apply fl_chunk|].
  intros w'. by apply fl_full.
Qed.

#[export] Instance cons_laws f fs V P `{!FieldLaws f V, !StructLaws fs P} : StructLaws (f :: fs) (fun vs => V vs.1 /\ P vs.2).
Proof.
  refine {| sl_chunks (vs : values (f :: fs)) := if field_written f vs.1 then (f_name f, fl_enc vs.1) :: sl_chunks vs.2 else sl_chunks vs.2 |}.
  - intros [v vs] [Hv Hvs]. cbn in *. destruct (field_written f v) eqn:E.
    + eexists _, _. split; [done|]. split; [by apply fl_chunk|by apply sl_ok].
    + split; [by apply fl_missing|by apply sl_ok].
  - intros [v vs] w [Hv Hvs] [[_ Hn] Hns]%Forall_cons. cbn [fst snd] in *. cbn [fields_write]. destruct (field_written f v) eqn:E; [|by apply sl_full].
    unfold chunks_bytes. cbn [map concat]. rewrite len_app. intros Hw. destruct (write_field_put f V v w Hv E Hn) as [Hok Hfull].
    destruct (decide (remaining_mut w < len (chunk_bytes (f_name f, fl_enc v)))) as [Hr|Hr]; [destruct Hfull as [msg ->]; [lia|]; cbn; eauto|].
    rewrite Hok by lia. cbn [mbind result_bind]. apply sl_full; [done..|]. cbn [remaining_mut put]. unfold chunks_bytes. lia.
Defined.

(** The macro's names are literals: this is evaluated. *)
Definition struct_ok (fs : list Field) : bool :=
  bool_decide (NoDup (names fs)) && forallb (fun n => utf8_valid n && (len n <=? 255)) (names fs) && (len fs <=? MAX_NUM_FIELDS).

Lemma struct_ok_spec fs : struct_ok fs = true -> NoDup (names fs) /\ Forall name_ok (names fs) /\ len fs <= MAX_NUM_FIELDS.
Proof.
  unfold struct_ok. rewrite !andb_true_iff, bool_decide_eq_true, Z.leb_le, forallb_forall. intros [[Hnd Hok] Hl].
  split_and!; [done| |done]. apply Forall_forall. intros n Hn. apply list_elem_of_In, Hok, andb_true_iff in Hn as [? ?%Z.leb_le]. done.
Qed.

#[export] Instance fields_object_laws fs valid `{!StructLaws fs valid} (H : struct_ok fs = true) : ObjectLaws (fields_object fs) valid.
Proof.
  refine (Build_ObjectLaws _ (fields_object fs) valid (names fs) sl_chunks (fields_filled fs) _ _ _).
  - intros vs Hv. destruct (struct_ok_spec fs H) as (Hnd & Hok & _). apply fields_object_law; [done..|]. by apply sl_ok.
  - destruct (struct_ok_spec fs H) as (_ & _ & Hl). unfold len in *. by rewrite length_map.
  - intros vs w Hv. destruct (struct_ok_spec fs H) as (_ & Hok & _). by apply sl_full.
Defined.

Lemma map_object_law {S T} (O : EpeeObject S) (into : T -> S) (from : S -> T) ns v cs F :
  from (into v) = v -> object_law O ns (into v) cs F -> object_law (map_object O into from) ns v cs F.
Proof.
  intros Hv L. split; try apply L. intros W b HF HW. cbn. rewrite (law_done _ _ _ _ _ L W b HF HW). cbn. by rewrite Hv.
Qed.

#[export] Instance map_object_laws {S T} (O : EpeeObject S) (into : T -> S) (from : S -> T) valid `{!ObjectLaws O valid}
  (H : forall v, from (into v) = v) : ObjectLaws (map_object O into from) (fun v => valid (into v)).
Proof.
  refine (Build_ObjectLaws _ (map_object O into from) _ (ol_names (O := O)) (fun v => ol_chunks (into v)) (fun v => ol_filled (into v)) _ _ _).
  - intros v Hv. apply map_object_law; [apply H|by apply ol_law].
  - apply ol_few.
  - intros v w Hv. by apply (ol_full (O := O) (into v)).
Defined.

#[export] Instance flatten_object_laws {T1 T2} (O1 : EpeeObject T1) (O2 : EpeeObject T2) valid1 valid2 `{!ObjectLaws O1 valid1, !ObjectLaws O2 valid2}
  (Hd : forall n, n ∈ ol_names (O := O1) -> n ∉ ol_names (O := O2))
  (Hl : len (ol_names (O := O1) ++ ol_names (O := O2)) <= MAX_NUM_FIELDS) :
  ObjectLaws (flatten_object O1 O2) (fun v => valid1 v.1 /\ valid2 v.2).
Proof.
  refine (Build_ObjectLaws _ (flatten_object O1 O2) _ (ol_names (O := O1) ++ ol_names (O := O2)) (fun v => ol_chunks v.1 ++ ol_chunks v.2)
    (fun v W b => exists W1 W2, ol_filled v.1 W1 b.1 /\ ol_filled v.2 W2 b.2 /\ W1 ⊆ ol_names (O := O1) /\ W2 ⊆ ol_names (O := O2) /\
       forall n, n ∈ W <-> n ∈ W1 \/ n ∈ W2) _ _ _).
  - intros [v1 v2] [Hv1 Hv2]. pose proof (flatten_object_law O1 O2 _ _ v1 v2 _ _ _ _ (ol_law v1 Hv1) (ol_law v2 Hv2) Hd) as L. cbn [fst snd].
    split; try apply L.
    + intros W b n bs r HF. destruct b as [b1 b2]. intros Hin HW. destruct (law_step _ _ _ _ _ L W (b1, b2) n bs r HF Hin HW) as ([b1' b2'] & ? & ?). by exists (b1', b2').
    + intros W [b1 b2] HF. by apply (law_done _ _ _ _ _ L W (b1, b2)).
  - done.
  - intros [v1 v2] w [Hv1 Hv2]. unfold chunks_bytes. rewrite map_app, concat_app, len_app. cbn [fst snd] in *. intros Hw. cbn [write_fields flatten_object].
    destruct (decide (remaining_mut w < len (chunks_bytes (ol_chunks v1)))) as [Hr|Hr].
    + destruct (ol_full v1 w Hv1) as [msg ->]; [lia|]. eauto.
    + rewrite (law_write _ _ _ _ _ (ol_law v1 Hv1)) by lia. cbn [mbind result_bind]. apply ol_full; [done|].
      cbn [remaining_mut put]. unfold chunks_bytes in *. lia.
Defined.

(** A smaller set of valid values. *)
Lemma weaken_laws {T} (O : EpeeObject T) (valid valid' : T -> Prop) : ObjectLaws O valid -> (forall v, valid' v -> valid v) -> ObjectLaws O valid'.
Proof.
  intros L H. refine (Build_ObjectLaws _ O valid' (ol_names (O := O)) ol_chunks ol_filled _ _ _).
  - intros v Hv. apply ol_law, H, Hv.
  - apply ol_few.
  - intros v w Hv. by apply ol_full, H.
Defined.

(** A field with functions of its own: [enc_fn] is what its writer writes after the name. *)
Section custom.
Context {T} `{EqDecision T} (name : string) (read_fn : bytes -> Result (T * bytes)) (write_fn : T -> bytes -> Writer -> Result Writer).
Context (should_write_fn : T -> bool) (default : T) (valid : T -> Prop) (enc_fn : T -> bytes).
Let written v := negb (bool_decide (v = default)) && should_write_fn v.
Context (Hname : name_ok (str_bytes name)).
Context (Hread : forall v r, valid v -> written v = true -> read_fn (enc_fn v ++ r) = Ok (v, r)).
Context (Hwrite : forall v w, valid v -> written v = true -> len (chunk_bytes (str_bytes name, enc_fn v)) <= remaining_mut w ->
  write_fn v (str_bytes name) w = Ok (put (chunk_bytes (str_bytes name, enc_fn v)) w)).
Context (Hfull : forall v w, valid v -> written v = true -> 0 <= remaining_mut w < len (chunk_bytes (str_bytes name, enc_fn v)) ->
  exists msg, write_fn v (str_bytes name) w = Err (IO msg)).
Context (Hmissing : forall v, valid v -> written v = false -> v = default).

Lemma custom_field_laws : ObjectLaws (custom_field name read_fn write_fn should_write_fn default) valid.
Proof using Hname Hread Hwrite Hfull Hmissing.
  refine (Build_ObjectLaws _ (custom_field name read_fn write_fn should_write_fn default) valid [str_bytes name]
    (fun v => if written v then [(str_bytes name, enc_fn v)] else [])
    (fun v W o => o = if decide (str_bytes name ∈ W) then Some v else None) _ _ _).
  - intros v Hv. destruct (written v) eqn:E; split; cbn; fold (written v); rewrite ?E; try done; try (by constructor); try (by apply NoDup_singleton); try (by repeat constructor).
    + intros w Hw. rewrite Hwrite by (done || by (unfold chunks_bytes in Hw; cbn in Hw; rewrite app_nil_r in Hw)).
      unfold chunks_bytes. cbn [map concat]. by rewrite app_nil_r.
    + intros W b n bs r -> Hin HW. apply list_elem_of_singleton in Hin as [= -> ->]. rewrite bool_decide_eq_true_2, Hread by done. cbn.
      rewrite decide_False by done. eexists. split; [done|]. rewrite decide_True by set_solver. done.
    + intros b n r Hn. rewrite bool_decide_eq_false_2 by set_solver. done.
    + intros W b -> HW. apply Forall_cons in HW as [HW _]. by rewrite decide_True.
    + intros w _. by rewrite put_nil.
    + intros W b n bs r _ Hin. set_solver.
    + intros b n r Hn. rewrite bool_decide_eq_false_2 by set_solver. done.
    + intros W b -> _. rewrite (Hmissing v Hv E). by case_decide.
  - done.
  - intros v w Hv. cbn. fold (written v). destruct (written v) eqn:E; unfold chunks_bytes; cbn [map concat].
    + rewrite app_nil_r. by apply Hfull.
    + unfold len. cbn. lia.
Defined.
End custom.

(** ** Untrusted input *)
Lemma safe_map_object {S T} (O : EpeeObject S) (into : T -> S) (from : S -> T) : safe_object O -> safe_object (map_object O into from).
Proof. intros [Ha Hf]. split; [done|]. intros b. cbn. specialize (Hf b). by destruct (finish O b). Qed.

Lemma safe_flatten_object {T1 T2} (O1 : EpeeObject T1) (O2 : EpeeObject T2) : safe_object O1 -> safe_object O2 -> safe_object (flatten_object O1 O2).
Proof.
  intros [Ha1 Hf1] [Ha2 Hf2]. split.
  - intros [b1 b2] n r. cbn. specialize (Ha1 b1 n r). destruct (add_field O1 b1 n r) as [[[[] b1'] r1]| |]; cbn in *; [done| |done..].
    specialize (Ha2 b2 n r1). destruct (add_field O2 b2 n r1) as [[[it b2'] r2]| |]; cbn in *; [by etrans|done..].
  - intros [b1 b2]. cbn. specialize (Hf1 b1). specialize (Hf2 b2). destruct (finish O1 b1); [|done..]. cbn. by destruct (finish O2 b2).
Qed.

Lemma safe_custom_field {T} `{EqDecision T} name read_fn write_fn should_write_fn (d : T) :
  (forall r, safe r (read_fn r)) -> safe_object (custom_field name read_fn write_fn should_write_fn d).
Proof.
  intros Hr. split; [|done]. intros o n r. cbn. case_bool_decide; [|done]. specialize (Hr r).
  destruct (read_fn r) as [[v r']| |]; cbn in *; [by destruct o|done..].
Qed.

Lemma safe_object_value {T} (O : EpeeObject T) : safe_object O -> safe_reader (epee_object_value O).
Proof. intros HO r m. cbn. case_decide; [|done]. apply safe_read_object; [done|]. intros r'. apply safe_skip_value. Qed.

Lemma safe_epee_option {T} (V : EpeeValue T) : safe_reader V -> safe_reader (epee_option V).
Proof. intros HV r m. cbn. apply safe_bind; [apply HV|]. intros v r' _. by cbn. Qed.

Lemma safe_epee_blob n : safe_reader (epee_blob n).
Proof. intros r m. cbn. apply safe_bind; [apply safe_epee_bytes|]. intros bs r' _. cbv beta iota. destruct (negb _); by cbn. Qed.

Lemma safe_epee_bool : safe_reader epee_bool.
Proof. intros r m. cbn. case_decide; [|done]. apply safe_bind; [apply (safe_get_le 1)|]. intros b r' _. by cbn. Qed.

Lemma safe_epee_int m n : safe_reader (epee_int m n).
Proof.
  intros r k. cbn. case_decide; [|done]. unfold checked_read, get_i_le, get_le. destruct (_ <? _); cbn; [done|apply suffix_drop].
Qed.

Lemma safe_from_bytes {T} (O : EpeeObject T) r : safe_object O -> safe r (from_bytes O r).
Proof.
  intros HO. unfold from_bytes, read_head_object. apply safe_of_rest.
  - unfold read_header. apply safe_rest_bind; [apply safe_copy|]. intros bs r' _. cbv beta iota. destruct (negb _); by cbn.
  - intros r' _. apply safe_read_object; [done|]. intros r2. apply safe_skip_value.
Qed.

End EpeeStruct.
