(* ===== verification/FixedBytes.v ===== *)
(** * Fixed-size byte strings ([src/types/fixed-bytes/src/lib.rs], [src/net/epee-encoding/src/value.rs])

    [ByteArray<N>] and [ByteArrayVec<N>]: byte strings whose length is [N] or a multiple of
    [N], which is checked when they are made, and how they are read and written. *)
From S2P Require Import Prelude Bytes EpeeValue EpeeObject EpeeStruct.
From Stdlib Require Import ZArith Lia String.
From stdpp Require Import base tactics option list numbers sets.
Import Epee EpeeObj EpeeStruct.

#[local] Open Scope Z_scope.
#[local] Open Scope usize_scope.

Module FixedBytes.

Inductive FixedByteError := InvalidLength.

Section fixed.
Context (N : nat).
#[local] Abbreviation n := (Z.of_nat N).

(** ** [ByteArray<N>] *)
Definition byte_array_try_from (value : bytes) : result FixedByteError bytes :=
  if negb (len value =? n) then Err InvalidLength else Ok value.
(** [Deref], whose [try_into().unwrap()] checks the length *)
Definition byte_array_deref {E} (a : bytes) : result E bytes := if len a =? n then Ok a else Panic.
(** [Default] is derived: the empty byte string. *)
Definition byte_array_default : bytes := [].

(** ** [ByteArrayVec<N>] *)
Definition array_vec_try_from (value : bytes) : result FixedByteError bytes :=
  if negb (len value mod n =? 0) then Err InvalidLength else Ok value.
Definition array_vec_len (v : bytes) : Z := len v / n.
Definition array_vec_is_empty (v : bytes) : bool := array_vec_len v =? 0.
(** [Bytes::split_off] panics past the end; the result is what stays and what is returned. *)
Definition array_vec_split_off {E} (v : bytes) (at_ : Z) : result E (bytes * bytes) :=
  if len v <? at_ *! n then Panic else Ok (take (Z.to_nat (at_ *! n)) v, drop (Z.to_nat (at_ *! n)) v).
Definition array_vec_index {E} (v : bytes) (index : Z) : result E bytes :=
  if (index +! 1) *! n <=? len v then Ok (take N (drop (Z.to_nat (index *! n)) v)) else Panic.
Definition array_vec_to_vec {E} (v : bytes) : result E (list bytes) :=
  try_fold (fun out i => x ← array_vec_index v i; Ok (out ++ [x])) [] (map Z.of_nat (seq 0 (Z.to_nat (array_vec_len v)))).
Definition array_vec_from_vec (value : list bytes) : bytes := concat value.

(** ** As epee values *)
Definition epee_ByteArray : EpeeValue bytes := {|
  MARKER := Marker_new String_;
  read r marker :=
    if decide (marker = Marker_new String_) then
      '(l, r) ← read_varint max_usize r;
      if negb (l =? n) then Err (Format "Byte array has incorrect length")
      else if len r <? n then Err (IO "Not enough bytes to fill object")
      else
        '(bs, r) ← copy_to_bytes n r;
        match byte_array_try_from bs with Ok a => Ok (a, r) | _ => Err (Format "Field has invalid length") end
    else Err marker_mismatch;
  should_write _ := true;
  epee_default_value := None;
  write v w := write_bytes v w;
|}.

Definition epee_ByteArrayVec : EpeeValue bytes := {|
  MARKER := Marker_new String_;
  read r marker :=
    if decide (marker = Marker_new String_) then
      '(l, r) ← read_varint max_usize r;
      if MAX_STRING_LEN_POSSIBLE <? l then Err (Format "Byte array exceeded max length")
      else if len r <? l then Err (IO "Not enough bytes to fill object")
      else
        '(bs, r) ← copy_to_bytes l r;
        match array_vec_try_from bs with Ok a => Ok (a, r) | _ => Err (Format "Field has invalid length") end
    else Err marker_mismatch;
  should_write v := negb (array_vec_is_empty v);
  epee_default_value := Some [];
  write v w := write_bytes v w;
|}.
End fixed.

(** [Hex<N>] and [HexVec], wrappers whose values are written as what they hold; unlike the
    byte string in it, an empty [HexVec] is written and has no default. *)
Definition epee_Hex (N : nat) : EpeeValue bytes := epee_byte_array N.
Definition epee_HexVec : EpeeValue bytes := {|
  MARKER := MARKER epee_bytes;
  read := read epee_bytes;
  should_write _ := true;
  epee_default_value := None;
  write := write epee_bytes;
|}.

(** ** Facts *)
Section facts.
Context (N : nat) (HN : (0 < N)%nat).

Definition array_vec_wf (v : bytes) : Prop := exists k, length v = (k * N)%nat.

Lemma array_vec_wf_mod v : array_vec_wf v <-> len v mod Z.of_nat N = 0.
Proof using HN.
  unfold len, array_vec_wf. rewrite <- Nat2Z.inj_mod. split.
  - intros [k ->]. rewrite Nat.Div0.mod_mul. done.
  - intros H. exists (length v / N)%nat. pose proof (Nat.div_mod_eq (length v) N). lia.
Qed.

Lemma array_vec_len_mul v k : length v = (k * N)%nat -> array_vec_len N v = Z.of_nat k.
Proof using HN. intros H. unfold array_vec_len, len. rewrite H, Nat2Z.inj_mul, Z.div_mul by lia. done. Qed.

Lemma concat_length_mul (l : list bytes) : Forall (fun x => length x = N) l -> length (concat l) = (length l * N)%nat.
Proof using Type. clear HN. induction 1 as [|x l Hx _ IH]; [done|]. cbn [concat length]. rewrite length_app. lia. Qed.

Lemma array_vec_index_lookup {E} (l : list bytes) i x :
  Forall (fun x => length x = N) l -> len (concat l) < 2 ^ 64 -> l !! i = Some x -> array_vec_index (E := E) N (concat l) (Z.of_nat i) = Ok x.
Proof using HN.
  intros Hl Hs Hi. pose proof (lookup_lt_Some _ _ _ Hi) as Hlt. unfold array_vec_index. unfold len in *. rewrite concat_length_mul in * by done.
  assert ((i + 1) * N <= length l * N)%nat by nia. assert (Z.of_nat i + 1 <= Z.of_nat (length l * N)) by nia.
  rewrite (wrap_small 64 (Z.of_nat i + 1)) by (unfold is_u; revert Hs; zpow; lia).
  rewrite !wrap_small by (unfold is_u; revert Hs; zpow; nia). rewrite (proj2 (Z.leb_le _ _)) by nia. f_equal.
  replace (Z.to_nat (Z.of_nat i * Z.of_nat N)) with (i * N)%nat by lia.
  apply list_elem_of_split_length in Hi as (l1 & l2 & -> & ->). rewrite Forall_app, Forall_cons in Hl. destruct Hl as (Hl1 & Hx & _).
  rewrite concat_app. cbn [concat]. rewrite <- (concat_length_mul l1) by done. by rewrite drop_app_length, take_app_length'.
Qed.

Lemma try_fold_app {E A S} (f : S -> A -> result E S) s l1 l2 : try_fold f s (l1 ++ l2) = (s' ← try_fold f s l1; try_fold f s' l2).
Proof using Type. revert s. induction l1 as [|x l1 IH]; intros s; cbn [try_fold app]; [done|]. destruct (f s x); cbn; [apply IH|done..]. Qed.

(** A vector of arrays comes back from its bytes. *)
Lemma array_vec_roundtrip {E} (l : list bytes) :
  Forall (fun x => length x = N) l -> len (concat l) < 2 ^ 64 ->
  array_vec_try_from N (array_vec_from_vec l) = Ok (concat l) /\ array_vec_len N (concat l) = len l /\
  array_vec_to_vec (E := E) N (array_vec_from_vec l) = Ok l.
Proof using HN.
  intros Hl Hs. unfold array_vec_try_from, array_vec_from_vec. pose proof (concat_length_mul l Hl) as Hc.
  assert (Hm : len (concat l) mod Z.of_nat N = 0) by (apply array_vec_wf_mod; by exists (length l)). rewrite Hm. cbn [negb Z.eqb].
  assert (Hlen : array_vec_len N (concat l) = len l) by (by apply array_vec_len_mul). split_and!; [done..|].
  unfold array_vec_to_vec. rewrite Hlen. unfold len. rewrite Nat2Z.id.
  assert (Hgo : forall k, (k <= length l)%nat ->
    try_fold (E := E) (fun out i => x ← array_vec_index N (concat l) i; Ok (out ++ [x])) [] (map Z.of_nat (seq 0 k)) = Ok (take k l)).
  { induction k as [|k IH]; intros Hk; [done|]. rewrite seq_S, map_app, try_fold_app, IH by lia. cbn [mbind result_bind map try_fold Nat.add].
    destruct (lookup_lt_is_Some_2 l k) as [x Hx]; [lia|]. rewrite (array_vec_index_lookup l k x) by done. cbn [mbind result_bind].
    by rewrite (take_S_r l k x). }
  rewrite Hgo, firstn_all by done. done.
Qed.

#[export] Instance epee_ByteArray_laws : EpeeLaws (epee_ByteArray N) (fun t : bytes => length t = N /\ len t <= MAX_STRING_LEN_POSSIBLE).
Proof using Type.
  clear HN. refine {| enc := string_enc |}; unfold epee_ByteArray; cbn [write read MARKER].
  - intros t w [_ Ht]. by apply write_bytes_spec, string_max_62.
  - intros t w [_ Ht] Hw. apply write_bytes_spec; [by apply string_max_62|apply Hw].
  - intros t r [Hl Ht]. pose proof (len_nonneg t). pose proof (len_nonneg r). assert (len t = Z.of_nat N) as Hn by (unfold len; lia).
    rewrite decide_True by done. unfold string_enc. unfold MAX_STRING_LEN_POSSIBLE in Ht. rewrite <- app_assoc, read_varint_bytes by (zpow; lia).
    rewrite (proj2 (Z.leb_le _ _)) by (unfold max_usize; zpow; lia). cbn [mbind result_bind].
    rewrite <- Hn, Z.eqb_refl, len_app. cbn [negb]. rewrite (proj2 (Z.ltb_ge _ _)) by lia.
    rewrite copy_to_bytes_app. cbn [mbind result_bind]. unfold byte_array_try_from. by rewrite Hn, Z.eqb_refl.
Defined.

#[export] Instance epee_ByteArrayVec_laws : EpeeLaws (epee_ByteArrayVec N) (fun t : bytes => array_vec_wf t /\ len t <= MAX_STRING_LEN_POSSIBLE).
Proof using HN.
  refine {| enc := string_enc |}; unfold epee_ByteArrayVec; cbn [write read MARKER].
  - intros t w [_ Ht]. by apply write_bytes_spec, string_max_62.
  - intros t w [_ Ht] Hw. apply write_bytes_spec; [by apply string_max_62|apply Hw].
  - intros t r [Hm%array_vec_wf_mod Ht]. pose proof (len_nonneg t). pose proof (len_nonneg r).
    rewrite decide_True by done. unfold string_enc. unfold MAX_STRING_LEN_POSSIBLE in *. rewrite <- app_assoc, read_varint_bytes by (zpow; lia).
    rewrite (proj2 (Z.leb_le _ _)) by (unfold max_usize; zpow; lia). cbn [mbind result_bind].
    rewrite (proj2 (Z.ltb_ge 2000000000 _)) by lia. rewrite len_app, (proj2 (Z.ltb_ge _ _)) by lia.
    rewrite copy_to_bytes_app. cbn [mbind result_bind]. unfold array_vec_try_from. by rewrite Hm.
Defined.

#[export] Instance epee_ByteArrayVec_restored : Restored (epee_ByteArrayVec N) (fun t : bytes => array_vec_wf t /\ len t <= MAX_STRING_LEN_POSSIBLE).
Proof using HN.
  intros t [[k Hk] _]. cbn. rewrite negb_false_iff. unfold array_vec_is_empty. rewrite (array_vec_len_mul t k Hk). intros H%Z.eqb_eq.
  assert (k = 0%nat) as -> by lia. by destruct t.
Qed.

Lemma safe_ByteArray : safe_reader (epee_ByteArray N).
Proof using Type.
  intros r m. unfold epee_ByteArray. cbn [read]. case_decide; [|done]. apply safe_bind; [apply safe_varint|]. intros l r' _. cbv beta iota.
  destruct (negb _); [done|]. destruct (_ <? _) eqn:E; [done|]. unfold copy_to_bytes. rewrite E. cbn.
  destruct (byte_array_try_from _ _); cbn; [apply suffix_drop|done..].
Qed.

Lemma safe_ByteArrayVec : safe_reader (epee_ByteArrayVec N).
Proof using Type.
  intros r m. unfold epee_ByteArrayVec. cbn [read]. case_decide; [|done]. apply safe_bind; [apply safe_varint|]. intros l r' _. cbv beta iota.
  destruct (_ <? l); [done|]. destruct (len r' <? l) eqn:E; [done|]. unfold copy_to_bytes. rewrite E. cbn.
  destruct (array_vec_try_from _ _); cbn; [apply suffix_drop|done..].
Qed.
End facts.

(** The default of [ByteArray] is not one: it has length 0, so that every use of its bytes
    panics, and what is written of it cannot be read. *)
Theorem byte_array_default_is_invalid :
  byte_array_deref (E := ()) 32 byte_array_default = Panic /\
  (w ← write_epee_value (epee_ByteArray 32) byte_array_default new_buf; read_epee_value (epee_ByteArray 32) (out w)) =
    Err (Format "Byte array has incorrect length").
Proof. split; vm_compute; reflexivity. Qed.

End FixedBytes.
