(* ===== verification/Pruning.v ===== *)
(** * Pruning seeds ([src/pruning/src/lib.rs])

    Which peers keep which blocks: compressing and decompressing seeds, the
    stripe of a block, and the next pruned and un-pruned block for a seed. *)
From S2P Require Import Prelude.
From Stdlib Require Import ZArith Lia.
From stdpp Require Import base tactics option list numbers.

#[local] Open Scope Z_scope.
#[local] Open Scope usize_scope.

Module Pruning.

(** ** Constants and data *)
Definition MAX_BLOCK_HEIGHT_USIZE : Z := 500000000.

Definition CRYPTONOTE_PRUNING_LOG_STRIPES : Z := 3.
Definition CRYPTONOTE_PRUNING_STRIPE_SIZE : Z := 4096.
Definition CRYPTONOTE_PRUNING_TIP_BLOCKS : Z := 5500.
Definition PRUNING_SEED_LOG_STRIPES_SHIFT : Z := 7.
Definition PRUNING_SEED_STRIPE_SHIFT : Z := 0.
Definition PRUNING_SEED_LOG_STRIPES_MASK : Z := 0x7.
Definition PRUNING_SEED_STRIPE_MASK : Z := 127.

Inductive PruningError :=
  | LogStripesOutOfRange
  | StripeOutOfRange
  | BlockHeightTooLarge
  | BlockChainHeightTooLarge
  | CalculatedHeightSmallerThanEnteredBlock
  | SeedDoesNotHaveCorrectLogStripes.

Record DecompressedPruningSeed := mk_seed { log_stripes : Z; stripe : Z }.

Inductive PruningSeed :=
  | NotPruned
  | Pruned (seed : DecompressedPruningSeed).

#[export] Instance DecompressedPruningSeed_eq_dec : EqDecision DecompressedPruningSeed.
Proof. solve_decision. Defined.
#[export] Instance PruningSeed_eq_dec : EqDecision PruningSeed.
Proof. solve_decision. Defined.

(** ** [DecompressedPruningSeed] *)
Definition seed_new (stripe log_stripes : Z) : result PruningError DecompressedPruningSeed :=
  if PRUNING_SEED_LOG_STRIPES_MASK <? log_stripes then Err LogStripesOutOfRange
  else if negb ((0 <? stripe) && (stripe <=? shl 32 1 log_stripes)) then Err StripeOutOfRange
  else Ok (mk_seed log_stripes stripe).

Definition seed_decompress (seed : Z) : result PruningError (option DecompressedPruningSeed) :=
  if seed =? 0 then Ok None
  else
    let log_stripes :=
      Z.land (shr 32 seed PRUNING_SEED_LOG_STRIPES_SHIFT) PRUNING_SEED_LOG_STRIPES_MASK in
    let stripe := 1 + Z.land (shr 32 seed PRUNING_SEED_STRIPE_SHIFT) PRUNING_SEED_STRIPE_MASK in
    if shl 32 1 log_stripes <? stripe then Err StripeOutOfRange
    else Ok (Some (mk_seed log_stripes stripe)).

Definition seed_compress (s : DecompressedPruningSeed) : Z :=
  Z.lor (shl 32 (log_stripes s) PRUNING_SEED_LOG_STRIPES_SHIFT)
        (shl 32 (wrap 32 (stripe s - 1)) PRUNING_SEED_STRIPE_SHIFT).

(** [(1 << log_stripe) as usize]: an [i32] shift, then a sign-extending cast. *)
Definition one_shl_i32_as_usize (n : Z) : Z :=
  let v := shl 32 1 n in if v <? 2 ^ 31 then v else v + (2 ^ 64 - 2 ^ 32).

Definition get_block_pruning_stripe (block_height blockchain_height log_stripe : Z) : option Z :=
  if blockchain_height <=? block_height +! CRYPTONOTE_PRUNING_TIP_BLOCKS then None
  else Some (wrap 32 (Z.land (block_height / CRYPTONOTE_PRUNING_STRIPE_SIZE)
                             (one_shl_i32_as_usize log_stripe -! 1) +! 1)).

Definition seed_has_full_block (s : DecompressedPruningSeed) (height blockchain_height : Z) : bool :=
  match get_block_pruning_stripe height blockchain_height (log_stripes s) with
  | Some block_stripe => stripe s =? block_stripe
  | None => true
  end.

Definition seed_get_next_unpruned_block (s : DecompressedPruningSeed)
    (block_height blockchain_height : Z) : result PruningError Z :=
  if (MAX_BLOCK_HEIGHT_USIZE <? block_height) || (blockchain_height <? block_height)
  then Err BlockHeightTooLarge
  else if MAX_BLOCK_HEIGHT_USIZE <? blockchain_height then Err BlockChainHeightTooLarge
  else if blockchain_height <=? block_height +! CRYPTONOTE_PRUNING_TIP_BLOCKS then Ok block_height
  else
    block_pruning_stripe ← unwrap
      (get_block_pruning_stripe block_height blockchain_height (log_stripes s));
    if stripe s =? block_pruning_stripe then Ok block_height
    else
      let cycles := shr 64 (block_height / CRYPTONOTE_PRUNING_STRIPE_SIZE) (log_stripes s) in
      let cycles_start := cycles +! (if block_pruning_stripe <? stripe s then 0 else 1) in
      let calculated_height :=
        (cycles_start *! shl 64 CRYPTONOTE_PRUNING_STRIPE_SIZE (log_stripes s))
        +! ((stripe s -! 1) *! CRYPTONOTE_PRUNING_STRIPE_SIZE) in
      if blockchain_height <? calculated_height +! CRYPTONOTE_PRUNING_TIP_BLOCKS
      then Ok (saturating_sub blockchain_height CRYPTONOTE_PRUNING_TIP_BLOCKS)
      else if calculated_height <? block_height then Err CalculatedHeightSmallerThanEnteredBlock
      else Ok calculated_height.

Definition seed_get_next_pruned_block (s : DecompressedPruningSeed)
    (block_height blockchain_height : Z) : result PruningError (option Z) :=
  if blockchain_height <=? block_height +! CRYPTONOTE_PRUNING_TIP_BLOCKS then Ok None
  else
    block_pruning_stripe ← unwrap
      (get_block_pruning_stripe block_height blockchain_height (log_stripes s));
    if negb (stripe s =? block_pruning_stripe) then Ok (Some block_height)
    else
      let next_stripe := wrap 32 (1 + Z.land (stripe s) (wrap 32 (shl 32 1 (log_stripes s) - 1))) in
      seed ← (match seed_new next_stripe (log_stripes s) with Ok seed => Ok seed | _ => Panic end);
      calculated_height ← seed_get_next_unpruned_block seed block_height blockchain_height;
      if blockchain_height <? calculated_height +! CRYPTONOTE_PRUNING_TIP_BLOCKS
      then Ok None else Ok (Some calculated_height).

Definition seed_cmp (s1 s2 : DecompressedPruningSeed) : comparison :=
  match log_stripes s1 ?= log_stripes s2 with
  | Eq => stripe s1 ?= stripe s2
  | ord => ord
  end.

(** ** [PruningSeed] *)
Definition new_pruned (stripe log_stripes : Z) : result PruningError PruningSeed :=
  s ← seed_new stripe log_stripes; Ok (Pruned s).

Definition decompress (seed : Z) : result PruningError PruningSeed :=
  o ← seed_decompress seed; Ok (match o with None => NotPruned | Some s => Pruned s end).

Definition get_log_stripes (p : PruningSeed) : option Z :=
  match p with NotPruned => None | Pruned s => Some (log_stripes s) end.

Definition get_stripe (p : PruningSeed) : option Z :=
  match p with NotPruned => None | Pruned s => Some (stripe s) end.

Definition decompress_p2p_rules (seed : Z) : result PruningError PruningSeed :=
  seed ← decompress seed;
  match get_log_stripes seed with
  | Some log_stripes =>
      if negb (log_stripes =? CRYPTONOTE_PRUNING_LOG_STRIPES) then Err LogStripesOutOfRange
      else Ok seed
  | None => Ok seed
  end.

Definition compress (p : PruningSeed) : Z :=
  match p with NotPruned => 0 | Pruned s => seed_compress s end.

Definition has_full_block (p : PruningSeed) (height blockchain_height : Z) : bool :=
  match p with NotPruned => true | Pruned s => seed_has_full_block s height blockchain_height end.

Definition get_next_pruned_block (p : PruningSeed) (block_height blockchain_height : Z)
    : result PruningError (option Z) :=
  match p with
  | NotPruned => Ok None
  | Pruned s => seed_get_next_pruned_block s block_height blockchain_height
  end.

Definition get_next_unpruned_block (p : PruningSeed) (block_height blockchain_height : Z)
    : result PruningError Z :=
  match p with
  | NotPruned => Ok block_height
  | Pruned s => seed_get_next_unpruned_block s block_height blockchain_height
  end.

Definition cmp (p1 p2 : PruningSeed) : comparison :=
  match p1, p2 with
  | NotPruned, NotPruned => Eq
  | NotPruned, Pruned _ => Gt
  | Pruned _, NotPruned => Lt
  | Pruned s1, Pruned s2 => seed_cmp s1 s2
  end.

(** ** Well-formed seeds *)

(** The invariant the private fields keep: [log_stripes] fits its three bits
    and [stripe] is in [1..=2^log_stripes]. *)
Definition seed_wf (s : DecompressedPruningSeed) : Prop :=
  0 <= log_stripes s <= 7 /\ 1 <= stripe s <= 2 ^ log_stripes s.
Definition wf (p : PruningSeed) : Prop :=
  match p with NotPruned => True | Pruned s => seed_wf s end.


(** ** The stripe of a block, as arithmetic *)
Lemma pow_log_bound n : 0 <= n <= 7 -> 1 <= 2 ^ n <= 128.
Proof.
  intros Hn. split; [|change 128 with (2 ^ 7); apply Z.pow_le_mono_r; lia].
  change 1 with (2 ^ 0). apply Z.pow_le_mono_r; lia.
Qed.

Lemma shl_1_log w n : 32 <= w -> 0 <= n <= 7 -> shl w 1 n = 2 ^ n.
Proof.
  intros Hw Hn. pose proof (pow_log_bound n Hn).
  assert (2 ^ 32 <= 2 ^ w) by (apply Z.pow_le_mono_r; lia).
  rewrite shl_small; zlia.
Qed.

Lemma add_tip_small h :
  0 <= h -> h + CRYPTONOTE_PRUNING_TIP_BLOCKS < 2 ^ 64 ->
  h +! CRYPTONOTE_PRUNING_TIP_BLOCKS = h + CRYPTONOTE_PRUNING_TIP_BLOCKS.
Proof. intros. apply wrap_small. unfold is_u, CRYPTONOTE_PRUNING_TIP_BLOCKS in *. lia. Qed.

Lemma get_block_pruning_stripe_spec h H n :
  0 <= h -> h + CRYPTONOTE_PRUNING_TIP_BLOCKS < 2 ^ 64 -> 0 <= n <= 7 ->
  get_block_pruning_stripe h H n =
    if H <=? h + CRYPTONOTE_PRUNING_TIP_BLOCKS then None
    else Some ((h / CRYPTONOTE_PRUNING_STRIPE_SIZE) mod 2 ^ n + 1).
Proof.
  intros Hh Hmax Hn. unfold get_block_pruning_stripe, one_shl_i32_as_usize.
  rewrite add_tip_small, shl_1_log by lia. pose proof (pow_log_bound n Hn).
  destruct (2 ^ n <? 2 ^ 31) eqn:E; bsimp; [|zlia].
  rewrite (wrap_small 64 (2 ^ n - 1)), land_mask by zlia.
  pose proof (Z.mod_pos_bound (h / CRYPTONOTE_PRUNING_STRIPE_SIZE) (2 ^ n) ltac:(lia)).
  rewrite (wrap_small 64), (wrap_small 32) by zlia. done.
Qed.

(** A well-formed seed keeps exactly the tip blocks and the blocks of its stripe. *)
Lemma seed_has_full_block_spec s h H :
  seed_wf s -> 0 <= h -> h + CRYPTONOTE_PRUNING_TIP_BLOCKS < 2 ^ 64 ->
  seed_has_full_block s h H = true <->
    H <= h + CRYPTONOTE_PRUNING_TIP_BLOCKS \/
    (h / CRYPTONOTE_PRUNING_STRIPE_SIZE) mod 2 ^ log_stripes s = stripe s - 1.
Proof.
  intros [Hl Hs] Hh Hmax. unfold seed_has_full_block.
  rewrite get_block_pruning_stripe_spec by done.
  destruct (H <=? _) eqn:E; bsimp; [intuition lia|]. rewrite Z.eqb_eq. lia.
Qed.

(** The least [c >= q] with [c mod L = t], computed the way the code does. *)
Lemma next_residue q L t (c := (q / L + (if q mod L <? t then 0 else 1)) * L + t) :
  0 <= q -> 0 <= t < L -> q mod L <> t ->
  q < c /\ c mod L = t /\ forall q', q <= q' < c -> q' mod L <> t.
Proof.
  intros Hq Ht Hne. subst c.
  pose proof (Z.div_mod q L ltac:(lia)) as Hdm. pose proof (Z.mod_pos_bound q L ltac:(lia)).
  set (d := if _ <? _ then 0 else 1).
  assert (Hd : (d = 0 /\ q mod L < t) \/ (d = 1 /\ t < q mod L)).
  { subst d. destruct (q mod L <? t) eqn:E; bsimp; lia. }
  split_and!; [nia| |].
  - rewrite Z.add_comm, Z.mod_add, Z.mod_small; lia.
  - intros q' Hr Heq. pose proof (Z.div_mod q' L ltac:(lia)) as Hdm'.
    assert (q' / L < q / L + d \/ q' / L >= q / L + d) as [?|?] by lia; nia.
Qed.

(** The height the code computes for the next block of the seed's stripe. *)
Lemma calculated_height_eq s b :
  seed_wf s -> 0 <= b <= MAX_BLOCK_HEIGHT_USIZE ->
  let bps := (b / CRYPTONOTE_PRUNING_STRIPE_SIZE) mod 2 ^ log_stripes s + 1 in
  let cycles_start :=
    shr 64 (b / CRYPTONOTE_PRUNING_STRIPE_SIZE) (log_stripes s) +! (if bps <? stripe s then 0 else 1) in
  let q := b / CRYPTONOTE_PRUNING_STRIPE_SIZE in
  let L := 2 ^ log_stripes s in
  (cycles_start *! shl 64 CRYPTONOTE_PRUNING_STRIPE_SIZE (log_stripes s))
    +! ((stripe s -! 1) *! CRYPTONOTE_PRUNING_STRIPE_SIZE)
  = ((q / L + (if q mod L <? stripe s - 1 then 0 else 1)) * L + (stripe s - 1))
    * CRYPTONOTE_PRUNING_STRIPE_SIZE
  /\ ((q / L + (if q mod L <? stripe s - 1 then 0 else 1)) * L + (stripe s - 1))
    * CRYPTONOTE_PRUNING_STRIPE_SIZE < 2 ^ 40.
Proof.
  intros [Hl Hs] Hb. cbv zeta. pose proof (pow_log_bound _ Hl) as HL.
  unfold MAX_BLOCK_HEIGHT_USIZE, CRYPTONOTE_PRUNING_STRIPE_SIZE in *.
  rewrite shr_small, shl_small by zlia.
  set (L := 2 ^ log_stripes s) in *. set (q := b / 4096).
  assert (0 <= q <= 122071) by (subst q; clear -Hb; dlia).
  pose proof (Z.div_mod q L ltac:(lia)). pose proof (Z.mod_pos_bound q L ltac:(lia)).
  assert (0 <= q / L <= 122071)
    by (split; [apply Z.div_pos; lia|apply Z.div_le_upper_bound; nia]).
  replace (q mod L + 1 <? stripe s) with (q mod L <? stripe s - 1)
    by (destruct (Z.ltb_spec (q mod L) (stripe s - 1)), (Z.ltb_spec (q mod L + 1) (stripe s)); lia).
  set (d := if _ <? _ then 0 else 1). assert (0 <= d <= 1) by (subst d; case_match; lia).
  rewrite (wrap_small 64 (q / L + d)), (wrap_small 64 (stripe s - 1)) by zlia.
  rewrite (wrap_small 64 ((q / L + d) * _)), (wrap_small 64 ((stripe s - 1) * _)) by (unfold is_u; zpow; nia).
  rewrite wrap_small by (unfold is_u; zpow; nia). split; [lia|zpow; nia].
Qed.

Lemma seed_next_unpruned_spec s b H :
  seed_wf s -> 0 <= b <= H -> H <= MAX_BLOCK_HEIGHT_USIZE ->
  exists h, seed_get_next_unpruned_block s b H = Ok h /\ b <= h <= H /\
    seed_has_full_block s h H = true /\
    forall h', b <= h' < h -> seed_has_full_block s h' H = false.
Proof.
  intros Hwf Hb HH. pose proof (calculated_height_eq s b Hwf ltac:(lia)) as [Hcalc Hbound].
  assert (Hsmall : forall h, 0 <= h <= H -> h + CRYPTONOTE_PRUNING_TIP_BLOCKS < 2 ^ 64).
  { unfold MAX_BLOCK_HEIGHT_USIZE, CRYPTONOTE_PRUNING_TIP_BLOCKS in *. zlia. }
  assert (Hiff := fun h Hh => seed_has_full_block_spec s h H Hwf (proj1 Hh) (Hsmall h Hh)).
  unfold seed_get_next_unpruned_block.
  rewrite add_tip_small, get_block_pruning_stripe_spec by (try apply Hwf; auto with lia).
  destruct (_ || _) eqn:E1; bsimp; [lia..|]. destruct (MAX_BLOCK_HEIGHT_USIZE <? H) eqn:E2; bsimp; [lia|].
  destruct (H <=? b + _) eqn:E3; bsimp.
  { exists b. split_and!; [done|lia..| |lia]. apply Hiff; lia. }
  cbn [unwrap mbind result_bind]. destruct (stripe s =? _) eqn:E4; bsimp.
  { exists b. split_and!; [done|lia..| |lia]. apply Hiff; [lia|]. right; lia. }
  rewrite Hcalc. clear Hcalc.
  destruct Hwf as [Hl Hs]. set (L := 2 ^ log_stripes s) in *.
  set (q := b / CRYPTONOTE_PRUNING_STRIPE_SIZE) in *.
  assert (0 <= q) by (apply Z.div_pos; unfold CRYPTONOTE_PRUNING_STRIPE_SIZE; lia).
  destruct (next_residue q L (stripe s - 1)) as (Hlt & Hmod & Hleast); [lia..|].
  set (c := (q / L + _) * L + _) in *.
  rewrite add_tip_small
    by (unfold CRYPTONOTE_PRUNING_STRIPE_SIZE, CRYPTONOTE_PRUNING_TIP_BLOCKS in *; zlia).
  assert (Hmiss : forall h', b <= h' < c * CRYPTONOTE_PRUNING_STRIPE_SIZE -> h' <= H ->
            h' + CRYPTONOTE_PRUNING_TIP_BLOCKS < H -> seed_has_full_block s h' H = false).
  { intros h' Hr Hle Htip. apply not_true_iff_false. rewrite Hiff by lia. intros [?|Heq]; [lia|].
    revert Heq. apply Hleast. unfold CRYPTONOTE_PRUNING_STRIPE_SIZE in *. subst q. clear -Hr. dlia. }
  destruct (H <? _) eqn:E5; bsimp.
  - exists (saturating_sub H CRYPTONOTE_PRUNING_TIP_BLOCKS). unfold saturating_sub.
    unfold CRYPTONOTE_PRUNING_TIP_BLOCKS in *.
    split_and!; [done|lia..| |intros; apply Hmiss; lia]. apply Hiff; lia.
  - assert (b < c * CRYPTONOTE_PRUNING_STRIPE_SIZE)
      by (unfold CRYPTONOTE_PRUNING_STRIPE_SIZE in *; clear -Hlt; subst q; dlia).
    destruct (_ <? b) eqn:E6; bsimp; [lia|].
    exists (c * CRYPTONOTE_PRUNING_STRIPE_SIZE). unfold CRYPTONOTE_PRUNING_TIP_BLOCKS in *.
    split_and!; [done|lia..| |intros; apply Hmiss; lia]. apply Hiff; [lia|]. right.
    unfold CRYPTONOTE_PRUNING_STRIPE_SIZE. rewrite Z.div_mul by lia. done.
Qed.

(** The next stripe, cyclically. *)
Lemma next_stripe_eq s :
  seed_wf s ->
  let n := wrap 32 (1 + Z.land (stripe s) (wrap 32 (shl 32 1 (log_stripes s) - 1))) in
  n = 1 + stripe s mod 2 ^ log_stripes s /\
  seed_new n (log_stripes s) = Ok (mk_seed (log_stripes s) n) /\
  seed_wf (mk_seed (log_stripes s) n).
Proof.
  intros [Hl Hs]. pose proof (pow_log_bound _ Hl). cbv zeta. rewrite shl_1_log by lia.
  rewrite (wrap_small 32 (2 ^ _ - 1)), land_mask by zlia.
  pose proof (Z.mod_pos_bound (stripe s) (2 ^ log_stripes s) ltac:(lia)).
  rewrite wrap_small by zlia. split; [done|]. split; [|split; cbn; lia].
  unfold seed_new, PRUNING_SEED_LOG_STRIPES_MASK. rewrite shl_1_log by lia.
  destruct (7 <? _) eqn:E; bsimp; [lia|].
  destruct (negb _) eqn:E2; bsimp; [lia..|done].
Qed.

(** Stripes of consecutive blocks: [t] and the one after it modulo [L]. *)
Lemma succ_residue q L t :
  2 <= L -> 0 < t <= L -> q mod L = t - 1 ->
  (q + 1) mod L = t mod L /\ t mod L <> t - 1.
Proof.
  intros HL Ht Hq. pose proof (Z.div_mod q L ltac:(lia)) as Hdm.
  destruct (decide (t = L)) as [->|].
  - rewrite Z.mod_same by lia. split; [|lia].
    symmetry. apply (Z.mod_unique _ _ (q / L + 1)); lia.
  - rewrite (Z.mod_small t) by lia. split; [|lia].
    symmetry. apply (Z.mod_unique _ _ (q / L)); lia.
Qed.

Lemma least_le (P : Z -> bool) b h x :
  (forall h', b <= h' < h -> P h' = false) -> b <= x -> P x = true -> h <= x.
Proof.
  intros Hl Hb Hx. destruct (decide (h <= x)) as [|Hn]; [done|].
  rewrite Hl in Hx; [done|lia].
Qed.

Lemma seed_next_pruned_spec s b H :
  seed_wf s -> 1 <= log_stripes s -> 0 <= b -> b + CRYPTONOTE_PRUNING_TIP_BLOCKS < H ->
  H <= MAX_BLOCK_HEIGHT_USIZE ->
  exists h, seed_get_next_pruned_block s b H = Ok (Some h) /\
    b <= h <= H - CRYPTONOTE_PRUNING_TIP_BLOCKS /\
    (forall h', b <= h' < h -> seed_has_full_block s h' H = true) /\
    (h < H - CRYPTONOTE_PRUNING_TIP_BLOCKS -> seed_has_full_block s h H = false).
Proof.
  intros Hwf Hlog Hb Htip HH.
  assert (Hsmall : forall h, 0 <= h <= H -> h + CRYPTONOTE_PRUNING_TIP_BLOCKS < 2 ^ 64).
  { unfold MAX_BLOCK_HEIGHT_USIZE, CRYPTONOTE_PRUNING_TIP_BLOCKS in *. zlia. }
  assert (Hle : 0 <= b <= H) by (unfold CRYPTONOTE_PRUNING_TIP_BLOCKS in *; lia).
  assert (Hiff := fun s Hwf h Hh => seed_has_full_block_spec s h H Hwf (proj1 Hh) (Hsmall h Hh)).
  unfold seed_get_next_pruned_block.
  rewrite add_tip_small, get_block_pruning_stripe_spec by (try apply Hwf; auto).
  destruct (H <=? b + _) eqn:E; bsimp; [lia|]. cbn [unwrap mbind result_bind].
  destruct (negb _) eqn:E2; bsimp.
  { exists b. split_and!; [done|lia..|]. intros _. apply not_true_iff_false.
    rewrite (Hiff s Hwf) by lia. lia. }
  destruct (next_stripe_eq s Hwf) as (Hn & -> & Hwf'). cbn [mbind result_bind].
  set (s' := mk_seed _ _) in *.
  destruct (seed_next_unpruned_spec s' b H Hwf' Hle HH) as (h & -> & Hr & Hfull & Hleast).
  cbn [mbind result_bind].
  rewrite (Hiff s' Hwf') in Hfull by lia. cbn [stripe log_stripes s'] in Hfull. rewrite Hn in Hfull.
  pose proof Hwf as [Hl Hs]. set (L := 2 ^ log_stripes s) in *.
  assert (2 <= L) by (change 2 with (2 ^ 1); apply Z.pow_le_mono_r; lia).
  destruct (succ_residue (b / CRYPTONOTE_PRUNING_STRIPE_SIZE) L (stripe s)) as [Hsucc Hdiff]; [lia..|].
  assert (Hnext : h <= H - CRYPTONOTE_PRUNING_TIP_BLOCKS).
  { eapply least_le; [exact Hleast|lia|]. apply (Hiff s' Hwf'); [|lia].
    unfold CRYPTONOTE_PRUNING_TIP_BLOCKS in *. lia. }
  assert (Hend : h <= (b / CRYPTONOTE_PRUNING_STRIPE_SIZE + 1) * CRYPTONOTE_PRUNING_STRIPE_SIZE).
  { set (x := _ * _). destruct (decide (x <= H)) as [Hx|]; [|lia].
    assert (Hbx : b <= x) by (unfold x, CRYPTONOTE_PRUNING_STRIPE_SIZE; clear; dlia).
    eapply least_le; [exact Hleast|done|]. apply (Hiff s' Hwf'); [lia|]. right.
    unfold x. rewrite Z.div_mul by done. cbn [stripe log_stripes s']. rewrite Hn. fold L. lia. }
  rewrite add_tip_small by (try apply Hsmall; lia).
  destruct (H <? h + _) eqn:E3; bsimp; [lia|].
  exists h. split_and!; [done|lia..| |].
  - intros h' Hh'. apply (Hiff s Hwf); [lia|]. right.
    replace (h' / CRYPTONOTE_PRUNING_STRIPE_SIZE) with (b / CRYPTONOTE_PRUNING_STRIPE_SIZE); [fold L; lia|].
    unfold CRYPTONOTE_PRUNING_STRIPE_SIZE in *. clear -Hh' Hend. dlia.
  - intros Hlt. apply not_true_iff_false. rewrite (Hiff s Hwf) by lia.
    intros [?|Heq]; [lia|]. destruct Hfull as [?|Hfull]; [lia|]. fold L in Heq. lia.
Qed.

(** ** Compression, as arithmetic *)
Lemma seed_compress_spec s :
  seed_wf s -> seed_compress s = log_stripes s * 128 + (stripe s - 1).
Proof.
  intros [Hl Hs]. pose proof (pow_log_bound _ Hl). unfold seed_compress.
  unfold PRUNING_SEED_LOG_STRIPES_SHIFT, PRUNING_SEED_STRIPE_SHIFT.
  rewrite (wrap_small 32 (stripe s - 1)), !shl_small by zlia.
  rewrite <- (Z.shiftl_mul_pow2 _ 7), lor_shiftl_add by (zpow; lia). zpow. lia.
Qed.

Lemma seed_decompress_spec seed :
  is_u 32 seed ->
  seed_decompress seed =
    if seed =? 0 then Ok None
    else if 2 ^ (seed / 128 mod 8) <? 1 + seed mod 128 then Err StripeOutOfRange
    else Ok (Some (mk_seed (seed / 128 mod 8) (1 + seed mod 128))).
Proof.
  intros Hu. unfold seed_decompress, PRUNING_SEED_LOG_STRIPES_SHIFT, PRUNING_SEED_STRIPE_SHIFT,
    PRUNING_SEED_LOG_STRIPES_MASK, PRUNING_SEED_STRIPE_MASK.
  rewrite !shr_small by lia. rewrite (land_mask _ 3), (land_mask _ 7) by lia.
  rewrite Z.div_1_r. change (2 ^ 7) with 128. change (2 ^ 3) with 8.
  rewrite shl_1_log by (zpow; dlia). done.
Qed.

(** ** Properties *)

(** For every valid seed and every height up to the chain height (both within
    [MAX_BLOCK_HEIGHT_USIZE]) [get_next_unpruned_block] succeeds, and its result is
    the least height, not below the one asked for, that a peer with this seed keeps. *)
Theorem get_next_unpruned_block_least p b H :
  wf p -> 0 <= b <= H -> H <= MAX_BLOCK_HEIGHT_USIZE ->
  exists h, get_next_unpruned_block p b H = Ok h /\ b <= h <= H /\
    has_full_block p h H = true /\ forall h', b <= h' < h -> has_full_block p h' H = false.
Proof.
  destruct p as [|s]; cbn; intros Hwf Hb HH.
  - exists b. split_and!; [done|lia..|done|lia].
  - by apply seed_next_unpruned_spec.
Qed.

Lemma get_next_unpruned_block_least_witness :
  get_next_unpruned_block (Pruned (mk_seed 3 1)) 5000 11000 = Ok 5500 /\
  has_full_block (Pruned (mk_seed 3 1)) 5499 11000 = false.
Proof.
  destruct (get_next_unpruned_block_least (Pruned (mk_seed 3 1)) 5000 11000)
    as (h & Hh & Hr & _ & Hl); [vm_compute; intuition discriminate..|].
  assert (Ok (E := PruningError) h = Ok 5500) as Heq by (rewrite <- Hh; vm_compute; reflexivity).
  injection Heq as ->. split; [exact Hh|apply Hl; lia].
Defined.

(** [get_next_pruned_block] for a seed with more than one stripe and a height
    before the tip: every block from the height asked for up to the result is kept,
    and the result is pruned by this seed, unless it is the first tip block. *)
Theorem get_next_pruned_block_spec s b H :
  seed_wf s -> 1 <= log_stripes s -> 0 <= b -> b + CRYPTONOTE_PRUNING_TIP_BLOCKS < H ->
  H <= MAX_BLOCK_HEIGHT_USIZE ->
  exists h, get_next_pruned_block (Pruned s) b H = Ok (Some h) /\
    b <= h <= H - CRYPTONOTE_PRUNING_TIP_BLOCKS /\
    (forall h', b <= h' < h -> has_full_block (Pruned s) h' H = true) /\
    (h < H - CRYPTONOTE_PRUNING_TIP_BLOCKS -> has_full_block (Pruned s) h H = false).
Proof. apply seed_next_pruned_spec. Qed.

Lemma get_next_pruned_block_spec_witness :
  get_next_pruned_block (Pruned (mk_seed 3 1)) 33000 76437863 = Ok (Some 36864) /\
  has_full_block (Pruned (mk_seed 3 1)) 36863 76437863 = true.
Proof.
  destruct (get_next_pruned_block_spec (mk_seed 3 1) 33000 76437863)
    as (h & Hh & Hr & Hl & _); [vm_compute; intuition discriminate..|].
  assert (Ok (E := PruningError) (Some h) = Ok (Some 36864)) as Heq
    by (rewrite <- Hh; vm_compute; reflexivity).
  injection Heq as ->. split; [exact Hh|apply Hl; lia].
Defined.

(** When a seed prunes no block from [b] on, [get_next_pruned_block] still
    returns a height, the first tip block, although a peer with this seed keeps that
    block: the documented [None] for "no pruned block after this one" is not returned
    for heights before the tip. *)
Theorem get_next_pruned_block_no_pruned_left s b H :
  seed_wf s -> 1 <= log_stripes s -> 0 <= b -> b + CRYPTONOTE_PRUNING_TIP_BLOCKS < H ->
  H <= MAX_BLOCK_HEIGHT_USIZE ->
  (forall h, b <= h < H -> has_full_block (Pruned s) h H = true) ->
  get_next_pruned_block (Pruned s) b H = Ok (Some (H - CRYPTONOTE_PRUNING_TIP_BLOCKS)) /\
  has_full_block (Pruned s) (H - CRYPTONOTE_PRUNING_TIP_BLOCKS) H = true.
Proof.
  intros Hwf Hl Hb Htip HH Hkept.
  destruct (seed_next_pruned_spec s b H) as (h & Hh & Hr & _ & Hp); [done..|].
  assert (h = H - CRYPTONOTE_PRUNING_TIP_BLOCKS) as <-.
  { destruct (decide (h < H - CRYPTONOTE_PRUNING_TIP_BLOCKS)) as [Hlt|]; [|lia].
    specialize (Hp Hlt). unfold CRYPTONOTE_PRUNING_TIP_BLOCKS in *.
    cbn in Hkept. rewrite Hkept in Hp by lia. done. }
  split; [exact Hh|]. apply Hkept. unfold CRYPTONOTE_PRUNING_TIP_BLOCKS in *. lia.
Qed.

Lemma get_next_pruned_block_no_pruned_left_witness :
  get_next_pruned_block (Pruned (mk_seed 3 1)) 0 6000 = Ok (Some 500).
Proof.
  apply (get_next_pruned_block_no_pruned_left (mk_seed 3 1) 0 6000);
    [vm_compute; intuition discriminate..|].
  intros h Hh. cbn. apply seed_has_full_block_spec;
    [vm_compute; intuition discriminate|lia|unfold CRYPTONOTE_PRUNING_TIP_BLOCKS; lia|].
  cbn [log_stripes stripe]. unfold CRYPTONOTE_PRUNING_TIP_BLOCKS, CRYPTONOTE_PRUNING_STRIPE_SIZE.
  change (2 ^ 3) with 8. clear -Hh. dlia.
Defined.

(** Every prunable block is kept by exactly one of the [2^log_stripes] seeds:
    a network of one peer per stripe can serve every block. *)
Theorem block_kept_by_exactly_one_stripe n h H :
  0 <= n <= 7 -> 0 <= h -> h + CRYPTONOTE_PRUNING_TIP_BLOCKS < H -> H < 2 ^ 64 ->
  exists st, (exists s, seed_new st n = Ok s /\ seed_has_full_block s h H = true) /\
    forall st' s', 0 <= st' -> seed_new st' n = Ok s' -> seed_has_full_block s' h H = true -> st' = st.
Proof.
  intros Hn Hh Htip HH. pose proof (pow_log_bound n Hn).
  pose proof (Z.mod_pos_bound (h / CRYPTONOTE_PRUNING_STRIPE_SIZE) (2 ^ n) ltac:(lia)).
  assert (Hnew : forall st s, 0 <= st -> seed_new st n = Ok s -> seed_wf s /\ s = mk_seed n st).
  { intros st s Hst. unfold seed_new, PRUNING_SEED_LOG_STRIPES_MASK, seed_wf.
    rewrite shl_1_log by lia. split_if; try done; intros [= <-]; cbn; split_and!; lia || done. }
  set (st := (h / CRYPTONOTE_PRUNING_STRIPE_SIZE) mod 2 ^ n + 1).
  exists st. split.
  - exists (mk_seed n st). split.
    + unfold seed_new, PRUNING_SEED_LOG_STRIPES_MASK. rewrite shl_1_log by lia.
      split_if; try done; lia.
    + apply seed_has_full_block_spec; [split; cbn; lia|lia..|]. cbn. lia.
  - intros st' s' Hst' Hs' Hf. destruct (Hnew _ _ Hst' Hs') as [Hwf ->].
    apply seed_has_full_block_spec in Hf; [|done|lia..]. cbn in Hf. lia.
Qed.

Lemma block_kept_by_exactly_one_stripe_witness :
  exists st, (exists s, seed_new st 3 = Ok s /\ seed_has_full_block s 8192 76437863 = true) /\
    forall st' s', 0 <= st' -> seed_new st' 3 = Ok s' ->
      seed_has_full_block s' 8192 76437863 = true -> st' = st.
Proof.
  apply (block_kept_by_exactly_one_stripe 3 8192 76437863);
    vm_compute; intuition discriminate.
Defined.

(** Round trip of the wire format: a valid seed is restored by decompressing its
    compressed form, except for the one-stripe seed, which compresses to the zero that
    means "not pruned"; and what decompression accepts is a valid seed that compresses to
    the low ten bits of the input. *)
Theorem compress_decompress_roundtrip :
  (forall p, wf p -> p <> Pruned (mk_seed 0 1) -> decompress (compress p) = Ok p) /\
  (forall seed p, is_u 32 seed -> decompress seed = Ok p ->
     wf p /\ (seed <> 0 -> compress p = seed mod 2 ^ 10)).
Proof.
  split.
  - intros [|[n st]] Hwf Hne; [done|]. cbn [compress]. unfold decompress.
    rewrite seed_compress_spec by done. destruct Hwf as [Hn Hst]. cbn in *.
    pose proof (pow_log_bound n Hn). rewrite seed_decompress_spec by zlia.
    destruct (_ =? 0) eqn:E; bsimp.
    { contradict Hne. by replace n with 0 by lia; replace st with 1 by lia. }
    replace ((n * 128 + (st - 1)) / 128 mod 8) with n by dlia.
    replace ((n * 128 + (st - 1)) mod 128) with (st - 1) by dlia.
    destruct (2 ^ n <? _) eqn:E2; bsimp; [lia|]. cbn. do 3 f_equal. lia.
  - intros seed p Hu. unfold decompress. rewrite seed_decompress_spec by done.
    destruct (seed =? 0) eqn:E; bsimp; [intros [= <-]; done|].
    assert (0 <= seed / 128 mod 8 <= 7 /\ 0 <= seed mod 128 < 128) as [Hn Ht] by dlia.
    pose proof (pow_log_bound _ Hn).
    destruct (_ <? _) eqn:E2; bsimp; [done|]. cbn. intros [= <-].
    assert (wf (Pruned (mk_seed (seed / 128 mod 8) (1 + seed mod 128)))) as Hwf by (split; cbn; lia).
    split; [done|]. intros _. cbn [compress]. rewrite seed_compress_spec by done. cbn.
    change (2 ^ 10) with 1024. dlia.
Qed.

Lemma compress_decompress_roundtrip_witness :
  decompress (compress (Pruned (mk_seed 3 2))) = Ok (Pruned (mk_seed 3 2)) /\
  wf (Pruned (mk_seed 3 3)).
Proof.
  split.
  - apply (proj1 compress_decompress_roundtrip); [vm_compute; intuition discriminate|discriminate].
  - apply (proj2 compress_decompress_roundtrip 386 _); [vm_compute; intuition discriminate|reflexivity].
Defined.

End Pruning.
