(* ===== verification/Levin.v ===== *)
(** * Levin ([src/net/levin/src]: [header.rs], [lib.rs], [message.rs], [codec.rs])

    Buckets (a 33-byte header and a body), the codec that cuts a byte stream into
    buckets, the codec that turns buckets into messages (reassembling fragments and
    ignoring dummies), and the construction of fragmented and dummy messages. The
    commands and the message bodies are the two traits of the crate,
    [LevinCommand] and [LevinBody]. *)
From S2P Require Import Prelude Bytes EpeeValue.
From Stdlib Require Import ZArith Lia String.
From stdpp Require Import base tactics option list numbers sets.

#[local] Open Scope Z_scope.
#[local] Open Scope usize_scope.

Module Levin.

(** ** Constants, errors and the protocol ([lib.rs], [header.rs]) *)
Definition HEADER_SIZE : Z := 33.
Definition MONERO_PROTOCOL_VERSION : Z := 1.
Definition MONERO_LEVIN_SIGNATURE : Z := 0x0101010101012101.
Definition MONERO_MAX_PACKET_SIZE_BEFORE_HANDSHAKE : Z := 256 * 1000.
Definition MONERO_MAX_PACKET_SIZE : Z := 100000000.

Inductive BucketError :=
  | InvalidHeaderFlags (msg : string)
  | BucketExceededMaxSize
  | InvalidFragmentedMessage (msg : string)
  | InvalidHeaderSignature
  | BodyDecodingError (e : Epee.Error)
  | UnknownCommand
  | IO.

Abbreviation Result := (result BucketError).

Record Protocol := mk_protocol {
  version : Z;
  signature : Z;
  max_packet_size_before_handshake : Z;
  max_packet_size : Z;
}.

Definition Protocol_default : Protocol := {|
  version := MONERO_PROTOCOL_VERSION;
  signature := MONERO_LEVIN_SIGNATURE;
  max_packet_size_before_handshake := MONERO_MAX_PACKET_SIZE_BEFORE_HANDSHAKE;
  max_packet_size := MONERO_MAX_PACKET_SIZE;
|}.

(** ** Flags: a [u32], with the operations of the [bitflags] macro *)
Definition REQUEST : Z := 0x1.
Definition RESPONSE : Z := 0x2.
Definition START_FRAGMENT : Z := 0x4.
Definition END_FRAGMENT : Z := 0x8.
Definition DUMMY : Z := Z.lor START_FRAGMENT END_FRAGMENT.

Definition contains (flags other : Z) : bool := Z.land flags other =? other.
Definition intersects (flags other : Z) : bool := negb (Z.land flags other =? 0).
Definition toggle (flags other : Z) : Z := Z.lxor flags other.

(** ** Message types *)
Inductive MessageType := Request | Response | Notification.

Definition have_to_return_data (ty : MessageType) : bool :=
  match ty with Request => true | Response | Notification => false end.

Definition from_flags_and_have_to_return (flags : Z) (have_to_return : bool)
    : Result MessageType :=
  if (flags =? REQUEST) && have_to_return then Ok Request
  else if (flags =? REQUEST) && negb have_to_return then Ok Notification
  else if (flags =? RESPONSE) && negb have_to_return then Ok Response
  else Err (InvalidHeaderFlags "Unable to assign a message type to this bucket").

Definition as_flags (ty : MessageType) : Z :=
  match ty with Request | Notification => REQUEST | Response => RESPONSE end.

(** ** The two traits *)
Class LevinCommand (C : Type) := {
  from_u32 : Z -> C;
  to_u32 : C -> Z;
  bucket_size_limit : C -> Z;
  is_handshake : C -> bool;
}.

Record BucketHead (C : Type) := mk_head {
  h_signature : Z;
  h_size : Z;
  h_have_to_return_data : bool;
  h_command : C;
  h_return_code : Z;
  h_flags : Z;
  h_protocol_version : Z;
}.
Arguments mk_head {C}.
Arguments h_signature {C}.
Arguments h_size {C}.
Arguments h_have_to_return_data {C}.
Arguments h_command {C}.
Arguments h_return_code {C}.
Arguments h_flags {C}.
Arguments h_protocol_version {C}.

Record Bucket (C : Type) := mk_bucket { header : BucketHead C; body : bytes }.
Arguments mk_bucket {C}.
Arguments header {C}.
Arguments body {C}.

Record BucketBuilder (C : Type) := mk_builder {
  b_signature : option Z;
  b_ty : option MessageType;
  b_command : option C;
  b_return_code : option Z;
  b_protocol_version : option Z;
  b_body : option bytes;
}.
Arguments mk_builder {C}.
Arguments b_signature {C}.
Arguments b_ty {C}.
Arguments b_command {C}.
Arguments b_return_code {C}.
Arguments b_protocol_version {C}.
Arguments b_body {C}.

Class LevinBody (C T : Type) := {
  decode_message : bytes -> MessageType -> C -> Result T;
  encode : T -> BucketBuilder C -> Result (BucketBuilder C);
}.

Section command.
Context {C : Type} `{!LevinCommand C}.

(** ** [BucketBuilder] *)
Definition builder_new (protocol : Protocol) : BucketBuilder C := {|
  b_signature := Some (signature protocol);
  b_ty := None;
  b_command := None;
  b_return_code := None;
  b_protocol_version := Some (version protocol);
  b_body := None;
|}.

Definition set_signature (sig : Z) (b : BucketBuilder C) : BucketBuilder C :=
  mk_builder (Some sig) (b_ty b) (b_command b) (b_return_code b) (b_protocol_version b) (b_body b).
Definition set_message_type (ty : MessageType) (b : BucketBuilder C) : BucketBuilder C :=
  mk_builder (b_signature b) (Some ty) (b_command b) (b_return_code b) (b_protocol_version b) (b_body b).
Definition set_command (command : C) (b : BucketBuilder C) : BucketBuilder C :=
  mk_builder (b_signature b) (b_ty b) (Some command) (b_return_code b) (b_protocol_version b) (b_body b).
Definition set_return_code (code : Z) (b : BucketBuilder C) : BucketBuilder C :=
  mk_builder (b_signature b) (b_ty b) (b_command b) (Some code) (b_protocol_version b) (b_body b).
Definition set_protocol_version (version : Z) (b : BucketBuilder C) : BucketBuilder C :=
  mk_builder (b_signature b) (b_ty b) (b_command b) (b_return_code b) (Some version) (b_body b).
Definition set_body (body : bytes) (b : BucketBuilder C) : BucketBuilder C :=
  mk_builder (b_signature b) (b_ty b) (b_command b) (b_return_code b) (b_protocol_version b) (Some body).

Definition finish (b : BucketBuilder C) : Result (Bucket C) :=
  body ← unwrap (b_body b);
  ty ← unwrap (b_ty b);
  signature ← unwrap (b_signature b);
  command ← unwrap (b_command b);
  return_code ← unwrap (b_return_code b);
  protocol_version ← unwrap (b_protocol_version b);
  Ok (mk_bucket {|
        h_signature := signature;
        h_size := len body;
        h_have_to_return_data := have_to_return_data ty;
        h_command := command;
        h_return_code := return_code;
        h_flags := as_flags ty;
        h_protocol_version := protocol_version;
      |} body).

(** ** Headers on the wire ([header.rs]) *)
Definition from_bytes (buf : bytes) : Result (BucketHead C * bytes) :=
  '(sig, buf) ← get_le 8 buf;
  '(size, buf) ← get_le 8 buf;
  '(have_to_return, buf) ← get_le 1 buf;
  '(command, buf) ← get_le 4 buf;
  '(return_code, buf) ← get_i_le 4 buf;
  '(flags, buf) ← get_le 4 buf;
  '(protocol_version, buf) ← get_le 4 buf;
  Ok (mk_head sig size (negb (have_to_return =? 0)) (from_u32 command) return_code flags
        protocol_version, buf).

(** [dst] is a [BytesMut], which grows as needed. *)
Definition write_bytes_into (h : BucketHead C) (dst : bytes) : bytes :=
  dst ++ le_split 8 (h_signature h)
    ++ le_split 8 (h_size h)
    ++ le_split 1 (if h_have_to_return_data h then 1 else 0)
    ++ le_split 4 (to_u32 (h_command h))
    ++ le_split 4 (wrap 32 (h_return_code h))
    ++ le_split 4 (h_flags h)
    ++ le_split 4 (h_protocol_version h).

(** ** The bucket codec ([codec.rs]) *)
Inductive LevinBucketState :=
  | WaitingForHeader
  | WaitingForBody (head : BucketHead C).

Record LevinBucketCodec := mk_codec {
  bc_state : LevinBucketState;
  bc_protocol : Protocol;
  handshake_message_seen : bool;
}.

Definition bucket_codec_new (protocol : Protocol) : LevinBucketCodec :=
  mk_codec WaitingForHeader protocol false.
Definition bucket_codec_default : LevinBucketCodec := bucket_codec_new Protocol_default.

Definition bucket_encode (item : Bucket C) (dst : bytes) : Result bytes :=
  let dst := write_bytes_into (header item) dst in
  Ok (dst ++ body item).

End command.
Arguments LevinBucketState : clear implicits.
Arguments LevinBucketCodec : clear implicits.

(** A [loop] whose body works on a state and returns or goes round again. [None] is
    a loop that has not returned within the fuel. *)
Fixpoint loop {S R} (fuel : nat) (iter : S -> option R * S) (s : S) : option R * S :=
  match fuel with
  | O => (None, s)
  | S fuel =>
      match iter s with
      | (Some r, s) => (Some r, s)
      | (None, s) => loop fuel iter s
      end
  end.

Section codec.
Context {C : Type} `{!LevinCommand C}.

(** What one call returns: [Result<Option<Item>, BucketError>], or a panic. *)
Abbreviation Step Item S := (option (Result (option Item)) * S)%type.

Definition with_state (c : LevinBucketCodec C) (s : LevinBucketState C) : LevinBucketCodec C :=
  mk_codec s (bc_protocol c) (handshake_message_seen c).
Definition with_handshake (c : LevinBucketCodec C) (b : bool) : LevinBucketCodec C :=
  mk_codec (bc_state c) (bc_protocol c) b.

(** One round of the loop of [LevinBucketCodec::decode]. *)
Definition bucket_decode_iter (s : LevinBucketCodec C * bytes)
    : Step (Bucket C) (LevinBucketCodec C * bytes) :=
  let '(c, src) := s in
  match bc_state c with
  | WaitingForHeader =>
      if len src <? HEADER_SIZE then (Some (Ok None), (c, src))
      else
        match from_bytes src with
        | Ok (head, src) =>
            if (max_packet_size (bc_protocol c) <? h_size head)
               || (bucket_size_limit (h_command head) <? h_size head)
            then (Some (Err BucketExceededMaxSize), (c, src))
            else if negb (handshake_message_seen c) then
              if max_packet_size_before_handshake (bc_protocol c) <? h_size head
              then (Some (Err BucketExceededMaxSize), (c, src))
              else
                let c := if is_handshake (h_command head) then with_handshake c true else c in
                (None, (with_state c (WaitingForBody head), src))
            else (None, (with_state c (WaitingForBody head), src))
        | Err e => (Some (Err e), (c, src))
        | Panic => (Some Panic, (c, src))
        end
  | WaitingForBody head =>
      let body_len := h_size head in
      if len src <? body_len then (Some (Ok None), (c, src))
      else (Some (Ok (Some (mk_bucket head (take (Z.to_nat body_len) src)))),
            (with_state c WaitingForHeader, drop (Z.to_nat body_len) src))
  end.

(** [<LevinBucketCodec as Decoder>::decode]: two rounds are enough. *)
Definition bucket_decode (c : LevinBucketCodec C) (src : bytes)
    : Step (Bucket C) (LevinBucketCodec C * bytes) :=
  loop 2 bucket_decode_iter (c, src).

(** ** The message codec *)
Inductive MessageState :=
  | WaitingForBucket
  | WaitingForRestOfFragment (bs : bytes).

Record LevinMessageCodec := mk_message_codec {
  bucket_codec : LevinBucketCodec C;
  mc_state : MessageState;
}.

Definition message_codec_default : LevinMessageCodec :=
  mk_message_codec bucket_codec_default WaitingForBucket.

Context {T : Type} `{!LevinBody C T}.

(** [return Ok(Some(T::decode_message(..)?))] *)
Definition return_message (r : Result T) : option (Result (option T)) := Some (m ← r; Ok (Some m)).

(** The end of a fragmented message: [bytes] is all that was collected. *)
Definition finish_fragment (bc : LevinBucketCodec C) (bs : bytes)
    : Step T (LevinBucketCodec C) :=
  if len bs <? HEADER_SIZE then
    (Some (Err (InvalidFragmentedMessage "Fragmented message is not large enough to build a bucket.")), bc)
  else
    match from_bytes (take (Z.to_nat HEADER_SIZE) bs) with
    | Ok (head, _) =>
        if bucket_size_limit (h_command head) <? h_size head
        then (Some (Err BucketExceededMaxSize), bc)
        else if saturating_sub (len bs) HEADER_SIZE <? h_size head then
          (Some (Err (InvalidFragmentedMessage
             "Fragmented message does not have enough bytes to fill bucket body")), bc)
        else
          match from_flags_and_have_to_return (h_flags head) (h_have_to_return_data head) with
          | Ok message_type =>
              let bc := if is_handshake (h_command head) then with_handshake bc true else bc in
              (return_message (decode_message (drop (Z.to_nat HEADER_SIZE) bs) message_type
                                 (h_command head)), bc)
          | Err e => (Some (Err e), bc)
          | Panic => (Some Panic, bc)
          end
    | Err e => (Some (Err e), bc)
    | Panic => (Some Panic, bc)
    end.

(** What one round of [LevinMessageCodec::decode] does with a bucket. *)
Definition on_bucket (mc : LevinMessageCodec) (bucket : Bucket C) : Step T LevinMessageCodec :=
  let flags := h_flags (header bucket) in
  let bc := bucket_codec mc in
  match mc_state mc with
  | WaitingForBucket =>
      if contains flags DUMMY then (None, mc)
      else if contains flags END_FRAGMENT then
        (Some (Err (InvalidHeaderFlags "Flag end fragment received before a start fragment")), mc)
      else if contains flags START_FRAGMENT then
        (None, mk_message_codec bc (WaitingForRestOfFragment (body bucket)))
      else
        match from_flags_and_have_to_return flags (h_have_to_return_data (header bucket)) with
        | Ok message_type =>
            (return_message (decode_message (body bucket) message_type (h_command (header bucket))), mc)
        | Err e => (Some (Err e), mc)
        | Panic => (Some Panic, mc)
        end
  | WaitingForRestOfFragment bs =>
      if contains flags DUMMY then (None, mc)
      else
        let max_size :=
          if handshake_message_seen bc then max_packet_size (bc_protocol bc)
          else max_packet_size_before_handshake (bc_protocol bc) in
        if max_size <? saturating_add 64 (len bs) (len (body bucket)) then
          (Some (Err (InvalidFragmentedMessage "Fragmented message exceeded maximum size")), mc)
        else
          let bs := bs ++ body bucket in
          if contains flags END_FRAGMENT then
            let '(r, bc) := finish_fragment bc bs in
            (r, mk_message_codec bc WaitingForBucket)
          else (None, mk_message_codec bc (WaitingForRestOfFragment bs))
  end.

(** One round of the loop of [LevinMessageCodec::decode]. *)
Definition message_decode_iter (s : LevinMessageCodec * bytes) : Step T (LevinMessageCodec * bytes) :=
  let '(mc, src) := s in
  let '(r, (bc, src)) := bucket_decode (bucket_codec mc) src in
  let mc := mk_message_codec bc (mc_state mc) in
  match r with
  | Some (Ok (Some bucket)) => let '(r, mc) := on_bucket mc bucket in (r, (mc, src))
  | Some (Ok None) => (Some (Ok None), (mc, src))
  | Some (Err e) => (Some (Err e), (mc, src))
  | Some Panic => (Some Panic, (mc, src))
  | None => (None, (mc, src))
  end.

(** [<LevinMessageCodec as Decoder>::decode]: a round that goes on has taken at least
    a header out of [src], but for the first, which may find a header read before. *)
Definition message_decode (mc : LevinMessageCodec) (src : bytes)
    : Step T (LevinMessageCodec * bytes) :=
  loop (2 + length src) message_decode_iter (mc, src).

(** ** Messages to send ([message.rs]) *)
Inductive LevinMessage :=
  | Body (body : T)
  | Bucket_ (bucket : Bucket C)
  | Dummy (size : Z).

(** [vec![0; n]] panics when [n] is over [isize::MAX], which [size - HEADER_SIZE] is
    when it wraps. *)
Definition make_dummy_message (protocol : Protocol) (size : Z) : Result (Bucket C) :=
  _ ← rassert (size -! HEADER_SIZE <? 2 ^ 63);
  Ok (mk_bucket {|
    h_signature := signature protocol;
    h_size := size;
    h_have_to_return_data := false;
    h_command := from_u32 0;
    h_return_code := 0;
    h_flags := DUMMY;
    h_protocol_version := version protocol;
  |} (repeat 0 (Z.to_nat (size -! HEADER_SIZE)))).

Definition message_encode (mc : LevinMessageCodec) (item : LevinMessage) (dst : bytes)
    : Result bytes :=
  match item with
  | Body body =>
      builder ← encode body (builder_new (bc_protocol (bucket_codec mc)));
      bucket ← finish builder;
      bucket_encode bucket dst
  | Bucket_ bucket => bucket_encode bucket dst
  | Dummy size =>
      bucket ← make_dummy_message (bc_protocol (bucket_codec mc)) size;
      bucket_encode bucket dst
  end.

(** [BytesMut::resize(n, 0)] *)
Definition resize0 (n : Z) (bs : bytes) : bytes := resize (Z.to_nat n) 0 bs.

(** The loop over [1..amount_of_fragments]. *)
Fixpoint fragment_rest (n : nat) (fragment_size : Z) (head : BucketHead C) (bs : bytes)
    : list (Bucket C) :=
  match n with
  | O => []
  | S n =>
      let at_ := Z.to_nat (Z.min (fragment_size -! HEADER_SIZE) (len bs)) in
      let chunk := take at_ bs in
      let chunk :=
        if len chunk +! HEADER_SIZE <? fragment_size
        then resize0 (fragment_size -! HEADER_SIZE) chunk else chunk in
      mk_bucket head chunk :: fragment_rest n fragment_size head (drop at_ bs)
  end.

Definition toggle_flags (other : Z) (b : Bucket C) : Bucket C :=
  let h := header b in
  mk_bucket (mk_head (h_signature h) (h_size h) (h_have_to_return_data h) (h_command h)
    (h_return_code h) (toggle (h_flags h) other) (h_protocol_version h)) (body b).

Definition with_size (h : BucketHead C) (size : Z) : BucketHead C :=
  mk_head (h_signature h) size (h_have_to_return_data h) (h_command h)
    (h_return_code h) (h_flags h) (h_protocol_version h).

Definition make_fragmented_messages (protocol : Protocol) (fragment_size : Z) (message : T)
    : Result (list (Bucket C)) :=
  _ ← rassert (2 * HEADER_SIZE <=? fragment_size);
  builder ← encode message (builder_new protocol);
  bucket ← finish builder;
  if negb (intersects (h_flags (header bucket)) (Z.lor REQUEST RESPONSE)) then
    Err (InvalidFragmentedMessage
      "Can't make a fragmented message out of a message which is already fragmented")
  else if len (body bucket) +! HEADER_SIZE <=? fragment_size then
    let bucket :=
      if len (body bucket) +! HEADER_SIZE <? fragment_size then
        mk_bucket (with_size (header bucket) (fragment_size -! HEADER_SIZE))
          (resize0 (fragment_size -! HEADER_SIZE) (body bucket))
      else bucket in
    Ok [bucket]
  else
    let fragment_head := {|
      h_signature := signature protocol;
      h_size := fragment_size -! HEADER_SIZE;
      h_have_to_return_data := false;
      h_command := from_u32 0;
      h_return_code := 0;
      h_flags := 0;
      h_protocol_version := version protocol;
    |} in
    let data_space := fragment_size -! HEADER_SIZE in
    let amount_of_fragments := div_ceil (len (body bucket) +! HEADER_SIZE) data_space in
    let at_ := fragment_size -! (HEADER_SIZE *! 2) in
    (* [Bytes::split_to] panics past the end *)
    _ ← rassert (at_ <=? len (body bucket));
    let first_bucket_body :=
      write_bytes_into (header bucket) [] ++ take (Z.to_nat at_) (body bucket) in
    let buckets :=
      mk_bucket fragment_head first_bucket_body
        :: fragment_rest (Z.to_nat (amount_of_fragments - 1)) fragment_size fragment_head
             (drop (Z.to_nat at_) (body bucket)) in
    let buckets := alter (toggle_flags START_FRAGMENT) 0%nat buckets in
    let buckets := alter (toggle_flags END_FRAGMENT) (pred (length buckets)) buckets in
    Ok buckets.

End codec.
Arguments MessageState : clear implicits.
Arguments LevinMessageCodec : clear implicits.
Arguments LevinMessage : clear implicits.

(** ** Headers: facts *)
Class LevinCommandLaws (C : Type) `{!LevinCommand C} := {
  to_from_u32 : forall x, is_u 32 x -> to_u32 (from_u32 x) = x;
}.

Section head_facts.
Context {C : Type} `{!LevinCommand C}.

(** The fields fit their widths, and the command is the one its number stands for. *)
Record head_wf (h : BucketHead C) : Prop := {
  wf_signature : is_u 64 (h_signature h);
  wf_size : is_u 64 (h_size h);
  wf_command_num : is_u 32 (to_u32 (h_command h));
  wf_command : from_u32 (to_u32 (h_command h)) = h_command h;
  wf_return_code : - 2 ^ 31 <= h_return_code h < 2 ^ 31;
  wf_flags : is_u 32 (h_flags h);
  wf_protocol_version : is_u 32 (h_protocol_version h);
}.

Definition head_bytes (h : BucketHead C) : bytes := write_bytes_into h [].

Lemma write_bytes_into_app h dst : write_bytes_into h dst = dst ++ head_bytes h.
Proof. done. Qed.

Lemma len_head_bytes h : len (head_bytes h) = HEADER_SIZE.
Proof. unfold head_bytes, write_bytes_into, len. by rewrite !length_app, !length_le_split. Qed.

Lemma from_bytes_write h r : head_wf h -> from_bytes (head_bytes h ++ r) = Ok (h, r).
Proof.
  intros []. unfold from_bytes, head_bytes, write_bytes_into. cbn [app].
  rewrite <- !app_assoc.
  rewrite get_le_split by done. cbn [mbind result_bind].
  rewrite get_le_split by done. cbn [mbind result_bind].
  rewrite get_le_split by (destruct (h_have_to_return_data h); done). cbn [mbind result_bind].
  rewrite get_le_split by done. cbn [mbind result_bind].
  rewrite (get_i_le_split 4) by (done || lia). cbn [mbind result_bind].
  rewrite get_le_split by done. cbn [mbind result_bind].
  rewrite get_le_split by done. cbn [mbind result_bind].
  rewrite wf_command0. destruct h as [? ? []]; done.
Qed.

Lemma split_at n (l : bytes) :
  Z.of_nat n <= len l -> exists a b, l = a ++ b /\ length a = n.
Proof.
  intros H. exists (take n l), (drop n l). rewrite take_drop, length_take. unfold len in H.
  split; [done|lia].
Qed.

(** Any 33 bytes are a header. *)
Lemma from_bytes_ok src : HEADER_SIZE <= len src ->
  exists h, (forall t, from_bytes (src ++ t) = Ok (h, drop 33 src ++ t)) /\
    (LevinCommandLaws C -> Forall is_byte src -> head_wf h /\
      (src !! 16%nat ∈ [Some 0; Some 1] -> head_bytes h = take 33 src)).
Proof.
  unfold HEADER_SIZE. intros Hl.
  destruct (split_at 8 src) as (b1 & s1 & -> & H1); [lia|]. rewrite len_app in Hl.
  destruct (split_at 8 s1) as (b2 & s2 & -> & H2); [unfold len in *; lia|]. rewrite len_app in Hl.
  destruct (split_at 1 s2) as (b3 & s3 & -> & H3); [unfold len in *; lia|]. rewrite len_app in Hl.
  destruct (split_at 4 s3) as (b4 & s4 & -> & H4); [unfold len in *; lia|]. rewrite len_app in Hl.
  destruct (split_at 4 s4) as (b5 & s5 & -> & H5); [unfold len in *; lia|]. rewrite len_app in Hl.
  destruct (split_at 4 s5) as (b6 & s6 & -> & H6); [unfold len in *; lia|]. rewrite len_app in Hl.
  destruct (split_at 4 s6) as (b7 & s7 & -> & H7); [unfold len in *; lia|]. clear Hl.
  assert (forall a b : bytes, length a = 33%nat -> drop 33 (a ++ b) = b) as Hdrop.
  { intros a b Ha. by rewrite drop_app_length'. }
  assert (forall a b : bytes, length a = 33%nat -> take 33 (a ++ b) = a) as Htake.
  { intros a b Ha. by rewrite take_app_length'. }
  eexists. split.
  - intros t. unfold from_bytes, get_i_le. rewrite <- !app_assoc.
    do 7 (rewrite get_le_app by done; cbn [mbind result_bind]).
    rewrite !(app_assoc b1), !(app_assoc (b1 ++ b2)), !(app_assoc _ b4), !(app_assoc _ b5),
      !(app_assoc _ b6), !(app_assoc _ b7), Hdrop by (rewrite !length_app; lia). done.
  - intros HC HF. rewrite !Forall_app in HF. destruct HF as (F1 & F2 & F3 & F4 & F5 & F6 & F7 & _).
    pose proof (le_combine_bound b1 F1). pose proof (le_combine_bound b2 F2).
    pose proof (le_combine_bound b4 F4). pose proof (le_combine_bound b5 F5).
    pose proof (le_combine_bound b6 F6). pose proof (le_combine_bound b7 F7).
    rewrite ?H1, ?H2, ?H4, ?H5, ?H6, ?H7 in *.
    assert (wrap 32 (to_signed (8 * Z.of_nat 4) (le_combine b5)) = le_combine b5) as Hs.
    { unfold to_signed, wrap. change (8 * Z.of_nat 4) with 32 in *. destruct (_ <? _) eqn:E; bsimp.
      - by rewrite Z.mod_small.
      - rewrite <- (Z.mod_add _ 1) by done. rewrite Z.mod_small; lia. }
    split.
    + constructor; cbn; rewrite ?to_from_u32; try done.
      unfold to_signed. change (8 * Z.of_nat 4) with 32 in *.
      destruct (_ <? _) eqn:E; bsimp; zpow; lia.
    + intros Hb. unfold head_bytes, write_bytes_into. cbn -[le_split to_signed].
      rewrite Hs, to_from_u32 by done.
      destruct b3 as [|b3 []]; try done. cbn [le_combine].
      rewrite (app_assoc b1), lookup_app_r, length_app, H1, H2 in Hb
        by (rewrite length_app; lia). cbn in Hb.
      rewrite !(app_assoc b1), !(app_assoc (b1 ++ b2)), !(app_assoc _ b4), !(app_assoc _ b5),
        !(app_assoc _ b6), !(app_assoc _ b7), Htake by (rewrite !length_app; cbn; lia).
      rewrite <- !app_assoc.
      rewrite <- (le_split_combine b1), <- (le_split_combine b2), <- (le_split_combine b4),
        <- (le_split_combine b5), <- (le_split_combine b6), <- (le_split_combine b7) at 2 by done.
      rewrite H1, H2, H4, H5, H6, H7. repeat f_equal.
      set_unfold in Hb. destruct Hb as [[= ->]|[[= ->]|[]]]; done.
Qed.

End head_facts.

(** ** Decoders

    What the framed readers rely on from a [Decoder]: a call that returns an item or
    an error does not depend on what follows the bytes it took; a call that asks for
    more can be repeated with more bytes; and items use up input. *)
Class Decoder (S Item : Type) := {
  decode : S -> bytes -> option (Result (option Item)) * (S * bytes);
  (** how many items may come without input *)
  pending : S -> nat;
}.

Class DecoderLaws (S Item : Type) `{!Decoder S Item} := {
  decode_returns : forall s src, exists r s' src', decode s src = (Some r, (s', src'));
  decode_more : forall s src s' src' t,
    decode s src = (Some (Ok None), (s', src')) -> decode s (src ++ t) = decode s' (src' ++ t);
  decode_done : forall s src r s' src' t,
    decode s src = (Some r, (s', src')) -> r <> Ok None ->
    decode s (src ++ t) = (Some r, (s', src' ++ t));
  decode_item : forall s src i s' src',
    decode s src = (Some (Ok (Some i)), (s', src')) ->
    (pending s' + length src' < pending s + length src)%nat;
  decode_none : forall s src s' src',
    decode s src = (Some (Ok None), (s', src')) ->
    (pending s' + length src' <= pending s + length src)%nat;
}.

Section decoder.
Context {S Item : Type} `{!Decoder S Item}.

(** Calls [decode] until it asks for more bytes or fails: the items, the failure and
    what is left. *)
Fixpoint drain_n (n : nat) (s : S) (src : bytes)
    : list Item * option (Result (option Item)) * (S * bytes) :=
  match n with
  | O => ([], None, (s, src))
  | Datatypes.S n =>
      match decode s src with
      | (Some (Ok (Some i)), (s, src)) =>
          let '(its, r, s) := drain_n n s src in (i :: its, r, s)
      | (r, s) => ([], r, s)
      end
  end.

Definition drain (s : S) (src : bytes) : list Item * option (Result (option Item)) * (S * bytes) :=
  drain_n (Datatypes.S (pending s + length src)) s src.

(** The same with the bytes arriving in pieces; a failure ends the stream, and the
    pieces after it are left unread. *)
Fixpoint feed (s : S) (src : bytes) (chunks : list bytes)
    : list Item * option (Result (option Item)) * (S * bytes) :=
  match chunks with
  | [] => ([], Some (Ok None), (s, src))
  | ch :: chunks =>
      match drain s (src ++ ch) with
      | (its, Some (Ok None), (s, src)) =>
          let '(its', r, s) := feed s src chunks in (its ++ its', r, s)
      | (its, r, (s, src)) => (its, r, (s, src ++ concat chunks))
      end
  end.

Context `{!DecoderLaws S Item}.

Lemma drain_n_fuel n1 n2 s src :
  (pending s + length src < n1)%nat -> (pending s + length src < n2)%nat ->
  drain_n n1 s src = drain_n n2 s src.
Proof.
  revert n2 s src. induction n1 as [|n1 IH]; intros [|n2] s src H1 H2; try lia. cbn.
  destruct (decode s src) as [[[[i|]| |]|] [s' src']] eqn:E; try done.
  pose proof (decode_item _ _ _ _ _ E). by rewrite (IH n2) by lia.
Qed.

(** [drain] is the recursion the fuel stands for. *)
Lemma drain_eq s src :
  drain s src =
    match decode s src with
    | (Some (Ok (Some i)), (s, src)) => let '(its, r, s) := drain s src in (i :: its, r, s)
    | (r, s) => ([], r, s)
    end.
Proof.
  unfold drain at 1. cbn [drain_n].
  destruct (decode s src) as [[[[i|]| |]|] [s' src']] eqn:E; try done.
  pose proof (decode_item _ _ _ _ _ E). unfold drain.
  by rewrite (drain_n_fuel _ (Datatypes.S (pending s' + length src'))) by lia.
Qed.

Lemma drain_app s src t :
  drain s (src ++ t) =
    match drain s src with
    | (its, Some (Ok None), (s, src)) => let '(its', r, s) := drain s (src ++ t) in (its ++ its', r, s)
    | (its, r, (s, src)) => (its, r, (s, src ++ t))
    end.
Proof.
  remember (pending s + length src)%nat as n eqn:Hn. revert s src Hn.
  induction (lt_wf n) as [n _ IH]. intros s src ->.
  destruct (decode_returns s src) as (r & s' & src' & E).
  rewrite (drain_eq s src), E.
  destruct r as [[i|]|e|].
  - rewrite drain_eq, (decode_done _ _ _ _ _ _ E) by done.
    rewrite (IH _ (decode_item _ _ _ _ _ E) s' src' eq_refl).
    destruct (drain s' src') as [[its [[[]| |]|]] [s'' src'']]; try done.
    by destruct (drain s'' (src'' ++ t)) as [[its' r'] [s3 src3]].
  - rewrite drain_eq, (decode_more _ _ _ _ _ E), <- drain_eq.
    by destruct (drain s' (src' ++ t)) as [[its r] [s3 src3]].
  - by rewrite drain_eq, (decode_done _ _ _ _ _ _ E).
  - by rewrite drain_eq, (decode_done _ _ _ _ _ _ E).
Qed.

(** How the bytes are cut into pieces does not matter. *)
Lemma feed_concat s src ch chunks :
  feed s src (ch :: chunks) = drain s (src ++ ch ++ concat chunks).
Proof.
  revert s src ch. induction chunks as [|ch' chunks IH]; intros s src ch.
  { cbn [feed concat]. rewrite app_nil_r.
    destruct (drain s (src ++ ch)) as [[its [[[]| |]|]] [s' src']]; by rewrite ?app_nil_r. }
  rewrite app_assoc, drain_app. cbn [feed concat] in *.
  destruct (drain s (src ++ ch)) as [[its [[[]| |]|]] [s' src']]; try done.
  by rewrite IH.
Qed.

Lemma drain_returns s src its o s' : drain s src = (its, o, s') -> o <> None.
Proof.
  remember (pending s + length src)%nat as n eqn:Hn. revert s src its Hn.
  induction (lt_wf n) as [n _ IH]. intros s src its -> H. rewrite drain_eq in H.
  destruct (decode_returns s src) as (r & s1 & src1 & E). rewrite E in H.
  destruct r as [[i|]|e|]; try by injection H as <- <- <-.
  destruct (drain s1 src1) as [[its1 o1] s2] eqn:Ed. injection H as <- <- <-.
  apply (IH _ (decode_item _ _ _ _ _ E) _ _ _ eq_refl Ed).
Qed.

End decoder.

(** ** Loops as decoders *)
Section loop_decoder.
Context {S Item : Type} (iter : S * bytes -> option (Result (option Item)) * (S * bytes)).
Context (pend : S -> nat).

Let size (s : S) (src : bytes) : nat := (pend s + length src)%nat.

(** The same laws for one round of a loop. *)
Class IterLaws : Prop := {
  iter_continue : forall s src s' src', iter (s, src) = (None, (s', src')) ->
    (size s' src' < size s src)%nat /\ forall t, iter (s, src ++ t) = (None, (s', src' ++ t));
  iter_more : forall s src s' src', iter (s, src) = (Some (Ok None), (s', src')) ->
    (size s' src' <= size s src)%nat /\ forall t, iter (s, src ++ t) = iter (s', src' ++ t);
  iter_done : forall s src r s' src', iter (s, src) = (Some r, (s', src')) -> r <> Ok None ->
    forall t, iter (s, src ++ t) = (Some r, (s', src' ++ t));
  iter_item : forall s src i s' src', iter (s, src) = (Some (Ok (Some i)), (s', src')) ->
    (size s' src' < size s src)%nat;
}.

Context {laws : IterLaws}.

Lemma loop_returns n s src :
  (size s src < n)%nat -> exists r s' src', loop n iter (s, src) = (Some r, (s', src')).
Proof.
  revert s src. induction n as [|n IH]; intros s src Hn; [lia|]. cbn.
  destruct (iter (s, src)) as [[r|] [s' src']] eqn:E; [eauto|].
  apply IH. pose proof (iter_continue _ _ _ _ E) as [H _]. lia.
Qed.

Lemma loop_S n s :
  loop (Datatypes.S n) iter s =
    match iter s with (Some r, s) => (Some r, s) | (None, s) => loop n iter s end.
Proof. done. Qed.

Lemma loop_fuel n k s r s' : loop n iter s = (Some r, s') -> loop (n + k) iter s = (Some r, s').
Proof.
  revert s. induction n as [|n IH]; intros s; [done|]. cbn.
  destruct (iter s) as [[]]; auto.
Qed.

Lemma loop_fuel_le n m s r s' : (n <= m)%nat -> loop n iter s = (Some r, s') ->
  loop m iter s = (Some r, s').
Proof. intros H E. replace m with (n + (m - n))%nat by lia. by apply loop_fuel. Qed.

Lemma loop_size n s src r s' src' : loop n iter (s, src) = (Some r, (s', src')) ->
  match r with
  | Ok (Some _) => (size s' src' < size s src)%nat
  | Ok None => (size s' src' <= size s src)%nat
  | _ => True
  end.
Proof.
  revert s src. induction n as [|n IH]; intros s src; [done|]. cbn.
  destruct (iter (s, src)) as [[r1|] [s1 src1]] eqn:E; intros H.
  - injection H as -> -> ->. destruct r as [[i|]| |]; [| |done|done].
    + by apply iter_item in E.
    + apply (iter_more _ _ _ _ E).
  - apply iter_continue in E as [E _]. apply IH in H. destruct r as [[i|]| |]; lia || done.
Qed.

Lemma loop_done n s src r s' src' t : loop n iter (s, src) = (Some r, (s', src')) -> r <> Ok None ->
  loop n iter (s, src ++ t) = (Some r, (s', src' ++ t)).
Proof.
  intros H Hr. revert s src H. induction n as [|n IH]; intros s src; [done|]. cbn.
  destruct (iter (s, src)) as [[r1|] [s1 src1]] eqn:E; intros H.
  - injection H as -> -> ->. by rewrite (iter_done _ _ _ _ _ E).
  - apply iter_continue in E as [_ E]. rewrite E. by apply IH.
Qed.

Lemma loop_more n s src s' src' t : loop n iter (s, src) = (Some (Ok None), (s', src')) ->
  exists m, (m <= n)%nat /\ loop n iter (s, src ++ t) = loop (Datatypes.S m) iter (s', src' ++ t).
Proof.
  revert s src. induction n as [|n IH]; intros s src; [done|]. cbn [loop].
  destruct (iter (s, src)) as [[r1|] [s1 src1]] eqn:E; intros H.
  - injection H as -> -> ->. exists n. split; [lia|].
    apply iter_more in E as [_ E]. by rewrite E.
  - apply iter_continue in E as [_ E]. rewrite E. apply IH in H as (m & Hm & H). exists m.
    split; [lia|done].
Qed.

(** A loop with fuel for the input is a decoder. *)
Lemma loop_decoder (dec : Decoder S Item) :
  (forall s, pending s = pend s) ->
  (forall s src, exists n, decode s src = loop n iter (s, src) /\
     exists r s', loop n iter (s, src) = (Some r, s')) ->
  DecoderLaws S Item.
Proof.
  intros Hp Hd.
  assert (forall n s src r s', loop n iter (s, src) = (Some r, s') -> decode s src = (Some r, s')) as Hdec.
  { intros n s src r s' H. destruct (Hd s src) as (m & -> & r' & s'' & E).
    apply (loop_fuel_le _ (n + m)) in H; [|lia]. apply (loop_fuel_le _ (n + m)) in E as E'; [|lia].
    rewrite H in E'. injection E' as <- <-. done. }
  assert (forall s src r s', decode s src = (Some r, s') ->
            exists n, loop n iter (s, src) = (Some r, s')) as Hdec'.
  { intros s src r s' H. destruct (Hd s src) as (n & E & _). exists n. by rewrite <- E. }
  assert (forall s src r s' src', decode s src = (Some r, (s', src')) ->
    match r with
    | Ok (Some _) => (size s' src' < size s src)%nat
    | Ok None => (size s' src' <= size s src)%nat
    | _ => True
    end) as Hsize.
  { intros s src r s' src' H. apply Hdec' in H as [n H]. by eapply loop_size. }
  constructor.
  - intros s src. destruct (Hd s src) as (n & -> & r & [s' src'] & E). eauto.
  - intros s src s' src' t H. apply Hdec' in H as [n H].
    destruct (loop_more _ _ _ _ _ t H) as (m & Hm & E).
    destruct (loop_returns (n + Datatypes.S (size s (src ++ t))) s (src ++ t)) as (r & s1 & src1 & H1); [lia|].
    apply (loop_fuel_le _ (n + Datatypes.S (size s (src ++ t)))) in H as H2; [|lia].
    destruct (loop_more _ _ _ _ _ t H2) as (m' & _ & E').
    rewrite H1 in E'. symmetry in E'. by rewrite (Hdec _ _ _ _ _ H1), (Hdec _ _ _ _ _ E').
  - intros s src r s' src' t H Hr. apply Hdec' in H as [n H]. eapply Hdec, loop_done; eauto.
  - intros s src i s' src' H. rewrite !Hp. apply (Hsize _ _ _ _ _ H).
  - intros s src s' src' H. rewrite !Hp. apply (Hsize _ _ _ _ _ H).
Qed.

End loop_decoder.

(** What a round may do, in the three cases of [IterLaws]. *)
Inductive round {S Item : Type} (iter : S * bytes -> option (Result (option Item)) * (S * bytes))
    (pend : S -> nat) (s : S) (src : bytes) : Prop :=
  | round_more s' src' :
      iter (s, src) = (Some (Ok None), (s', src')) ->
      (pend s' + length src' <= pend s + length src)%nat ->
      (forall t, iter (s, src ++ t) = iter (s', src' ++ t)) -> round iter pend s src
  | round_continue s' src' :
      (pend s' + length src' < pend s + length src)%nat ->
      (forall t, iter (s, src ++ t) = (None, (s', src' ++ t))) -> round iter pend s src
  | round_done r s' src' :
      r <> Ok None ->
      (forall i, r = Ok (Some i) -> (pend s' + length src' < pend s + length src)%nat) ->
      (forall t, iter (s, src ++ t) = (Some r, (s', src' ++ t))) -> round iter pend s src.

Lemma rounds_laws {S Item} (iter : S * bytes -> option (Result (option Item)) * (S * bytes)) pend :
  (forall s src, round iter pend s src) -> IterLaws iter pend.
Proof.
  assert (forall s src o s' src', (forall t, iter (s, src ++ t) = (o, (s', src' ++ t))) ->
    iter (s, src) = (o, (s', src'))) as H0.
  { intros s src o s' src' H. specialize (H []). by rewrite !app_nil_r in H. }
  intros R. split; intros s src.
  all: destruct (R s src) as [s1 src1 E Hs Ht|s1 src1 Hs Ht|r1 s1 src1 Hr Hs Ht];
    [|pose proof (H0 _ _ _ _ _ Ht) as E..]; rewrite E; intros; simplify_eq; eauto.
Qed.

Section bucket_decoder.
Context {C : Type} `{!LevinCommand C}.

Definition bucket_pending (c : LevinBucketCodec C) : nat :=
  match bc_state c with WaitingForHeader => 0 | WaitingForBody _ => 1 end.

#[global] Instance bucket_decoder : Decoder (LevinBucketCodec C) (Bucket C) := {|
  decode := bucket_decode;
  pending := bucket_pending;
|}.

(** The codec after a header, or the refusal of the header. *)
Definition after_head (c : LevinBucketCodec C) (head : BucketHead C) : option (LevinBucketCodec C) :=
  if (max_packet_size (bc_protocol c) <? h_size head)
     || (bucket_size_limit (h_command head) <? h_size head)
     || (negb (handshake_message_seen c)
         && (max_packet_size_before_handshake (bc_protocol c) <? h_size head))
  then None
  else Some (mk_codec (WaitingForBody head) (bc_protocol c)
               (handshake_message_seen c || is_handshake (h_command head))).

Lemma bucket_iter_head c src head src' :
  bc_state c = WaitingForHeader -> HEADER_SIZE <= len src -> from_bytes src = Ok (head, src') ->
  bucket_decode_iter (c, src) =
    match after_head c head with
    | Some c' => (None, (c', src'))
    | None => (Some (Err BucketExceededMaxSize), (c, src'))
    end.
Proof.
  intros Hc Hl Hf. unfold bucket_decode_iter, after_head. rewrite Hc, Hf.
  destruct (len src <? HEADER_SIZE) eqn:E; [bsimp; lia|].
  destruct (_ || _) eqn:E1; [done|]. cbn [orb].
  destruct (handshake_message_seen c) eqn:E2; cbn.
  - unfold with_state. by rewrite E2.
  - destruct (max_packet_size_before_handshake _ <? _) eqn:E3; [done|]. unfold with_state, with_handshake.
    destruct (is_handshake (h_command head)) eqn:E4.
    { done. }
    by rewrite E2.
Qed.

Lemma bucket_round c src : round bucket_decode_iter bucket_pending c src.
Proof.
  destruct (bc_state c) as [|head] eqn:Hc.
  - destruct (len src <? HEADER_SIZE) eqn:E; bsimp.
    { apply (round_more _ _ _ _ c src); [|lia|done].
      unfold bucket_decode_iter. rewrite Hc. by rewrite (proj2 (Z.ltb_lt _ _) E). }
    destruct (from_bytes_ok src E) as (head & Hf & _).
    assert (forall t, bucket_decode_iter (c, src ++ t) =
      match after_head c head with
      | Some c' => (None, (c', drop 33 src ++ t))
      | None => (Some (Err BucketExceededMaxSize), (c, drop 33 src ++ t))
      end) as Hi.
    { intros t. apply bucket_iter_head; [done| |done]. rewrite len_app. pose proof (len_nonneg t). lia. }
    destruct (after_head c head) as [c'|] eqn:Ha.
    + apply (round_continue _ _ _ _ c' (drop 33 src)); [|done].
      unfold after_head in Ha. destruct (_ || _); [done|]. injection Ha as <-.
      unfold bucket_pending. cbn [bc_state]. rewrite Hc, length_drop.
      unfold HEADER_SIZE, len in E. lia.
    + by apply (round_done _ _ _ _ (Err BucketExceededMaxSize) c (drop 33 src)).
  - destruct (len src <? h_size head) eqn:E.
    { apply (round_more _ _ _ _ c src); [|lia|done].
      unfold bucket_decode_iter. by rewrite Hc, E. }
    bsimp. set (n := Z.to_nat (h_size head)).
    apply (round_done _ _ _ _ (Ok (Some (mk_bucket head (take n src))))
             (with_state c WaitingForHeader) (drop n src)); [done| |].
    + intros i _. unfold bucket_pending. cbn [bc_state with_state]. rewrite Hc, length_drop. lia.
    + intros t. unfold bucket_decode_iter. rewrite Hc, len_app.
      pose proof (len_nonneg t). destruct (_ <? _) eqn:E1; bsimp; [lia|].
      unfold n, len in *. by rewrite take_app_le, drop_app_le by lia.
Qed.

#[global] Instance bucket_iter_laws : IterLaws bucket_decode_iter bucket_pending.
Proof. apply rounds_laws, bucket_round. Qed.

Lemma bucket_decode_returns c src :
  exists r s', loop 2 bucket_decode_iter (c, src) = (Some r, s').
Proof.
  cbn [loop]. destruct (bucket_decode_iter (c, src)) as [[r|] [c' src']] eqn:E; [eauto|].
  destruct (bucket_decode_iter (c', src')) as [[r|] s'] eqn:E'; [eauto|]. exfalso.
  unfold bucket_decode_iter in E, E'.
  destruct (bc_state c) eqn:Hc; [|by destruct (_ <? _)].
  destruct (len src <? HEADER_SIZE); [done|].
  assert (exists h, bc_state c' = WaitingForBody h) as [h Hc'].
  { destruct (from_bytes src) as [[h s]| |]; [|done..]. exists h.
    repeat case_match; simplify_eq; done. }
  rewrite Hc' in E'. by destruct (_ <? _).
Qed.

#[global] Instance bucket_decoder_laws : DecoderLaws (LevinBucketCodec C) (Bucket C).
Proof.
  apply (loop_decoder bucket_decode_iter bucket_pending); [done|].
  intros c src. exists 2%nat. split; [done|apply bucket_decode_returns].
Qed.

End bucket_decoder.

Section message_decoder.
Context {C T : Type} `{!LevinCommand C} `{!LevinBody C T}.

#[global] Instance message_decoder : Decoder (LevinMessageCodec C) T := {|
  decode := message_decode;
  pending mc := bucket_pending (bucket_codec mc);
|}.

Lemma return_message_some (r : Result T) : return_message r <> Some (Ok None).
Proof. by destruct r. Qed.

(** A bucket is used up without touching the position in the stream, and is never
    answered with a request for more. *)
Lemma finish_fragment_frame (bc : LevinBucketCodec C) bs (r : option (Result (option T))) bc' :
  finish_fragment bc bs = (r, bc') ->
  r <> None /\ r <> Some (Ok None) /\ bc_state bc' = bc_state bc /\ bc_protocol bc' = bc_protocol bc.
Proof.
  unfold finish_fragment. intros H.
  repeat case_match; simplify_eq; pose proof return_message_some; repeat split; try done; auto.
Qed.

Lemma on_bucket_frame (mc : LevinMessageCodec C) bucket (r : option (Result (option T))) mc' :
  on_bucket mc bucket = (r, mc') ->
  r <> Some (Ok None) /\ bc_state (bucket_codec mc') = bc_state (bucket_codec mc) /\
  bc_protocol (bucket_codec mc') = bc_protocol (bucket_codec mc).
Proof.
  unfold on_bucket. intros H.
  repeat case_match; simplify_eq; pose proof return_message_some; repeat split; try done; auto.
  all: match goal with E : finish_fragment _ _ = _ |- _ => by apply finish_fragment_frame in E as (? & ? & ? & ?) end.
Qed.

Lemma message_round (mc : LevinMessageCodec C) src :
  round (Item := T) message_decode_iter (fun mc => bucket_pending (bucket_codec mc)) mc src.
Proof.
  destruct (decode_returns (bucket_codec mc) src) as (r & bc & src' & E).
  set (mc1 := mk_message_codec bc (mc_state mc)).
  destruct r as [[b|]|e|].
  - assert (forall t, message_decode_iter (mc, src ++ t)
        = let '(r, mc') := on_bucket mc1 b in (r, (mc', src' ++ t))) as Hi.
    { intros t. unfold message_decode_iter.
      pose proof (decode_done _ _ _ _ _ t E ltac:(done)) as E'. cbn [decode bucket_decoder] in E'.
      by rewrite E'. }
    apply decode_item in E as Hs. destruct (on_bucket mc1 b) as [r mc2] eqn:Hb.
    apply on_bucket_frame in Hb as (Hr & Hst & _). cbn in Hst.
    assert (bucket_pending (bucket_codec mc2) = bucket_pending bc) as Hp
      by (unfold bucket_pending; by rewrite Hst).
    cbn [pending bucket_decoder] in Hs. destruct r as [r|].
    + apply (round_done _ _ _ _ r mc2 src'); [congruence| |done]. intros _ _. by rewrite Hp.
    + apply (round_continue _ _ _ _ mc2 src'); [by rewrite Hp|done].
  - apply (round_more _ _ _ _ mc1 src').
    + unfold message_decode_iter. cbn [decode bucket_decoder] in E. by rewrite E.
    + by apply decode_none in E.
    + intros t. unfold message_decode_iter.
      pose proof (decode_more _ _ _ _ t E) as E'. cbn [decode bucket_decoder] in E'.
      by rewrite E'.
  - apply (round_done _ _ _ _ (Err e) mc1 src'); [done..|]. intros t. unfold message_decode_iter.
    pose proof (decode_done _ _ _ _ _ t E ltac:(done)) as E'. cbn [decode bucket_decoder] in E'.
    by rewrite E'.
  - apply (round_done _ _ _ _ Panic mc1 src'); [done..|]. intros t. unfold message_decode_iter.
    pose proof (decode_done _ _ _ _ _ t E ltac:(done)) as E'. cbn [decode bucket_decoder] in E'.
    by rewrite E'.
Qed.

#[global] Instance message_iter_laws :
  IterLaws (Item := T) message_decode_iter (fun mc : LevinMessageCodec C => bucket_pending (bucket_codec mc)).
Proof. apply rounds_laws, message_round. Qed.

Lemma bucket_pending_le (c : LevinBucketCodec C) : (bucket_pending c <= 1)%nat.
Proof. unfold bucket_pending. destruct (bc_state c); lia. Qed.

#[global] Instance message_decoder_laws : DecoderLaws (LevinMessageCodec C) T.
Proof.
  apply (loop_decoder message_decode_iter (fun mc => bucket_pending (bucket_codec mc))); [done|].
  intros mc src. exists (2 + length src)%nat. split; [done|].
  pose proof (bucket_pending_le (bucket_codec mc)).
  destruct (loop_returns (Item := T) message_decode_iter _ (2 + length src) mc src)
    as (r & s' & src' & E); [lia|]. eauto.
Qed.

End message_decoder.

(** ** Buckets on the wire *)
Section wire.
Context {C : Type} `{!LevinCommand C}.

Definition wire (b : Bucket C) : bytes := head_bytes (header b) ++ body b.

Lemma bucket_encode_wire b dst : bucket_encode b dst = Ok (dst ++ wire b).
Proof. unfold bucket_encode, wire. by rewrite write_bytes_into_app, <- app_assoc. Qed.

Lemma len_wire b : len (wire b) = HEADER_SIZE + len (body b).
Proof. unfold wire. by rewrite len_app, len_head_bytes. Qed.

(** The bucket the codec accepts in state [c], and the codec after it. *)
Record fits (c : LevinBucketCodec C) (b : Bucket C) : Prop := {
  fits_state : bc_state c = WaitingForHeader;
  fits_head : head_wf (header b);
  fits_body : h_size (header b) = len (body b);
  fits_limits : after_head c (header b) <> None;
}.

Definition after_bucket (c : LevinBucketCodec C) (b : Bucket C) : LevinBucketCodec C :=
  mk_codec WaitingForHeader (bc_protocol c)
    (handshake_message_seen c || is_handshake (h_command (header b))).

Lemma bucket_decode_wire c b r :
  fits c b -> bucket_decode c (wire b ++ r) = (Some (Ok (Some b)), (after_bucket c b, r)).
Proof.
  intros [Hc Hh Hb Hl]. unfold bucket_decode, wire. rewrite <- app_assoc. cbn [loop].
  rewrite (bucket_iter_head c _ (header b) (body b ++ r)).
  - destruct (after_head c (header b)) as [c'|] eqn:Ha; [|done].
    unfold after_head in Ha. destruct (_ || _); [done|]. injection Ha as <-.
    unfold bucket_decode_iter. cbn [bc_state]. rewrite Hb, len_app.
    pose proof (len_nonneg r). destruct (_ <? _) eqn:E; bsimp; [lia|].
    unfold len. rewrite Nat2Z.id, take_app_length, drop_app_length. by destruct b.
  - done.
  - rewrite len_app, len_head_bytes. pose proof (len_nonneg (body b ++ r)). lia.
  - by apply from_bytes_write.
Qed.

Lemma encode_all (bs : list (Bucket C)) dst :
  try_fold (fun dst b => bucket_encode b dst) dst bs = Ok (dst ++ concat (wire <$> bs)).
Proof.
  revert dst. induction bs as [|b bs IH]; intros dst; cbn [try_fold fmap list_fmap concat].
  { by rewrite app_nil_r. }
  rewrite bucket_encode_wire. cbn [mbind result_bind]. by rewrite IH, <- app_assoc.
Qed.

(** A sequence of buckets that all fit, one after the other. *)
Fixpoint fit_all (c : LevinBucketCodec C) (bs : list (Bucket C)) : Prop :=
  match bs with
  | [] => True
  | b :: bs => fits c b /\ fit_all (after_bucket c b) bs
  end.

Definition after_all (c : LevinBucketCodec C) (bs : list (Bucket C)) : LevinBucketCodec C :=
  foldl after_bucket c bs.

Lemma after_all_state c bs :
  bc_state c = WaitingForHeader -> bc_state (after_all c bs) = WaitingForHeader.
Proof. revert c. induction bs as [|b bs IH]; intros c Hc; cbn; [done|]. by apply IH. Qed.

Lemma drain_wires c bs r :
  fit_all c bs ->
  drain c (concat (wire <$> bs) ++ r) =
    let '(its, o, s) := drain (after_all c bs) r in (bs ++ its, o, s).
Proof.
  revert c. induction bs as [|b bs IH]; intros c; cbn [fmap list_fmap concat fit_all].
  { intros _. cbn [app after_all foldl]. by destruct (drain c r) as [[its o] s]. }
  intros [Hb Hbs]. rewrite drain_eq, <- app_assoc.
  change (decode c) with (bucket_decode c). rewrite bucket_decode_wire by done.
  rewrite IH by done. unfold after_all. cbn [foldl].
  by destruct (drain _ r) as [[its o] s].
Qed.

Lemma drain_nil (c : LevinBucketCodec C) :
  bc_state c = WaitingForHeader -> drain c [] = ([], Some (Ok None), (c, [])).
Proof.
  intros Hc. rewrite drain_eq. change (decode c) with (bucket_decode c).
  unfold bucket_decode. cbn [loop]. unfold bucket_decode_iter. by rewrite Hc.
Qed.

End wire.

Section message_wire.
Context {C T : Type} `{!LevinCommand C} `{!LevinBody C T}.

Lemma message_decode_eq (mc : LevinMessageCodec C) src :
  message_decode (T := T) mc src =
    match message_decode_iter (mc, src) with
    | (None, (mc', src')) => message_decode mc' src'
    | (r, s) => (r, s)
    end.
Proof.
  unfold message_decode at 1. change (2 + length src)%nat with (Datatypes.S (Datatypes.S (length src))).
  rewrite loop_S. destruct (message_decode_iter (mc, src)) as [[r|] [mc' src']] eqn:E; [done|].
  pose proof (iter_continue message_decode_iter _ _ _ _ _ E) as [Hs _].
  pose proof (bucket_pending_le (bucket_codec mc)).
  destruct (loop_returns (Item := T) message_decode_iter _ (Datatypes.S (length src)) mc' src')
    as (r & s1 & src1 & E1); [lia|].
  pose proof (bucket_pending_le (bucket_codec mc')).
  destruct (loop_returns (Item := T) message_decode_iter _ (2 + length src') mc' src')
    as (r' & s1' & src1' & E1'); [lia|].
  unfold message_decode. rewrite E1, E1'.
  apply (loop_fuel_le _ _ (2 + length src + length src')) in E1; [|lia].
  apply (loop_fuel_le _ _ (2 + length src + length src')) in E1'; [|lia]. congruence.
Qed.

Definition with_bucket (mc : LevinMessageCodec C) (b : Bucket C) : LevinMessageCodec C :=
  mk_message_codec (after_bucket (bucket_codec mc) b) (mc_state mc).

(** What a bucket does to the stream of messages. *)
Lemma drain_bucket (mc : LevinMessageCodec C) b r (o : option (Result (option T))) mc' :
  fits (bucket_codec mc) b ->
  on_bucket (with_bucket mc b) b = (o, mc') ->
  drain (Item := T) mc (wire b ++ r) =
    match o with
    | None => drain mc' r
    | Some (Ok (Some m)) => let '(its, o, s) := drain mc' r in (m :: its, o, s)
    | o => ([], o, (mc', r))
    end.
Proof.
  intros Hb Ho. rewrite drain_eq. change (decode mc) with (message_decode (T := T) mc).
  rewrite message_decode_eq. unfold message_decode_iter at 1.
  rewrite bucket_decode_wire by done. fold (with_bucket mc b). rewrite Ho.
  destruct o as [[[m|]| |]|]; try done.
  rewrite (drain_eq mc' r). done.
Qed.

Lemma message_drain_nil (mc : LevinMessageCodec C) :
  bc_state (bucket_codec mc) = WaitingForHeader ->
  drain (Item := T) mc [] = ([], Some (Ok None), (mc, [])).
Proof.
  intros Hc. rewrite drain_eq. change (decode mc) with (message_decode (T := T) mc).
  unfold message_decode. cbn [loop Nat.add length]. unfold message_decode_iter, bucket_decode.
  cbn [loop]. unfold bucket_decode_iter. rewrite Hc. by destruct mc.
Qed.

End message_wire.

(** ** Fragments *)
Section fragments.
Context {C T : Type} `{!LevinCommand C} `{!LevinBody C T}.

Definition zeros (k : nat) : bytes := repeat 0 k.

Lemma resize0_zeros n (bs : bytes) :
  len bs <= n -> resize0 n bs = bs ++ zeros (Z.to_nat n - length bs).
Proof.
  intros H. unfold resize0, zeros, len in *. rewrite resize_ge by lia. f_equal.
  induction (Z.to_nat n - length bs)%nat; cbn; [done|]. by f_equal.
Qed.

(** The fragments after the first: [n] buckets of equal size that carry [bs] and a
    padding of zeros. *)
Lemma fragment_rest_spec n fs (head : BucketHead C) bs :
  2 * HEADER_SIZE <= fs < 2 ^ 63 -> len bs <= Z.of_nat n * (fs - HEADER_SIZE) ->
  length (fragment_rest n fs head bs) = n /\
  Forall (fun b => header b = head /\ len (body b) = fs - HEADER_SIZE) (fragment_rest n fs head bs) /\
  concat (body <$> fragment_rest n fs head bs) =
    bs ++ zeros (n * Z.to_nat (fs - HEADER_SIZE) - length bs).
Proof.
  unfold HEADER_SIZE. intros Hfs. revert bs. induction n as [|n IH]; intros bs Hl.
  { destruct bs; [cbn; auto|]. unfold len in Hl. cbn in Hl. lia. }
  rewrite Nat2Z.inj_succ, Z.mul_succ_l in Hl.
  cbn [fragment_rest]. rewrite (wrap_small 64 (fs - HEADER_SIZE)) by (unfold HEADER_SIZE; zlia).
  set (at_ := Z.to_nat (Z.min (fs - HEADER_SIZE) (len bs))).
  assert (len (take at_ bs) = Z.min (fs - HEADER_SIZE) (len bs)) as Ht.
  { unfold len. rewrite length_take. unfold at_, len, HEADER_SIZE. lia. }
  assert (len (drop at_ bs) = len bs - Z.min (fs - HEADER_SIZE) (len bs)) as Hd.
  { unfold len. rewrite length_drop. unfold at_, len, HEADER_SIZE. lia. }
  destruct (IH (drop at_ bs)) as (H1 & H2 & H3); [unfold HEADER_SIZE in *; nia|].
  rewrite (wrap_small 64) by (pose proof (len_nonneg bs); unfold HEADER_SIZE in *; zlia).
  assert ((if len (take at_ bs) + HEADER_SIZE <? fs
           then resize0 (fs - HEADER_SIZE) (take at_ bs) else take at_ bs)
          = take at_ bs ++ zeros (Z.to_nat (fs - HEADER_SIZE) - length (take at_ bs))) as ->.
  { destruct (_ <? _) eqn:E; bsimp.
    - apply resize0_zeros. lia.
    - replace (_ - _)%nat with 0%nat; [by rewrite app_nil_r|]. unfold len, HEADER_SIZE in *. lia. }
  split_and!.
  - cbn. by rewrite H1.
  - constructor; [|done]. split; [done|]. cbn [body]. rewrite len_app, Ht. unfold zeros, len in *.
    rewrite repeat_length. unfold HEADER_SIZE in *. lia.
  - cbn [fmap list_fmap body concat]. rewrite H3, <- app_assoc.
    transitivity ((take at_ bs ++ drop at_ bs)
      ++ zeros (S n * Z.to_nat (fs - HEADER_SIZE) - length bs)); [|by rewrite take_drop].
    rewrite <- app_assoc. f_equal.
    unfold len, HEADER_SIZE in *. destruct (decide (fs - 33 <= Z.of_nat (length bs))).
    + replace (Z.to_nat (fs - 33) - length (take at_ bs))%nat with 0%nat by lia. cbn [zeros repeat app].
      f_equal. f_equal. rewrite !length_drop. unfold at_, len. lia.
    + assert (drop at_ bs = []) as -> by (apply nil_length_inv; lia). cbn [app length].
      unfold zeros. rewrite <- repeat_app. f_equal. lia.
Qed.

Lemma alter_last {A} (f : A -> A) (l : list A) x :
  alter f (pred (length (l ++ [x]))) (l ++ [x]) = l ++ [f x].
Proof.
  rewrite length_app. cbn [length]. replace (pred (length l + 1)) with (length l + 0)%nat by lia.
  by rewrite alter_app_r.
Qed.

(** The limits a reader of the fragments of [bucket] puts on them. *)
Definition cap (c : LevinBucketCodec C) : Z :=
  if handshake_message_seen c then max_packet_size (bc_protocol c)
  else max_packet_size_before_handshake (bc_protocol c).

Record frag_limits (c : LevinBucketCodec C) (fs : Z) (bucket : Bucket C) : Prop := {
  fl_fs : 2 * HEADER_SIZE <= fs < 2 ^ 63;
  fl_len : len (body bucket) < 2 ^ 63;
  fl_protocol : is_u 64 (signature (bc_protocol c)) /\ is_u 32 (version (bc_protocol c)) /\
    max_packet_size_before_handshake (bc_protocol c) <= max_packet_size (bc_protocol c) < 2 ^ 64;
  fl_default : from_u32 (to_u32 (from_u32 0 : C)) = (from_u32 0 : C) /\ is_u 32 (to_u32 (from_u32 0 : C)) /\
    is_handshake (from_u32 0 : C) = false /\ fs - HEADER_SIZE <= bucket_size_limit (from_u32 0 : C);
  fl_total : div_ceil (len (body bucket) + HEADER_SIZE) (fs - HEADER_SIZE) * (fs - HEADER_SIZE) <= cap c;
  fl_command : (if len (body bucket) + HEADER_SIZE <=? fs then fs - HEADER_SIZE else len (body bucket))
    <= bucket_size_limit (h_command (header bucket));
}.

Lemma after_head_ok (c : LevinBucketCodec C) h :
  max_packet_size_before_handshake (bc_protocol c) <= max_packet_size (bc_protocol c) ->
  h_size h <= cap c -> h_size h <= bucket_size_limit (h_command h) -> after_head c h <> None.
Proof.
  unfold cap, after_head. intros H1 H2 H3.
  destruct (handshake_message_seen c); cbn [negb andb orb].
  - destruct (_ || _) eqn:E; [|done]. bsimp; try done; lia.
  - destruct (_ || _) eqn:E; [|done]. bsimp; lia.
Qed.

(** Fragments in the middle are collected. *)
Lemma drain_middle mc head (bs : list (Bucket C)) acc r :
  let bc := bucket_codec mc in
  mc_state mc = WaitingForRestOfFragment acc -> bc_state bc = WaitingForHeader ->
  head_wf head -> h_flags head = 0 -> is_handshake (h_command head) = false ->
  max_packet_size_before_handshake (bc_protocol bc) <= max_packet_size (bc_protocol bc) ->
  h_size head <= bucket_size_limit (h_command head) ->
  Forall (fun b => header b = head /\ len (body b) = h_size head) bs ->
  len acc + len (concat (body <$> bs)) <= cap bc -> cap bc < 2 ^ 64 ->
  drain (Item := T) mc (concat (wire <$> bs) ++ r) =
  drain (mk_message_codec bc (WaitingForRestOfFragment (acc ++ concat (body <$> bs)))) r.
Proof.
  intros bc Hm Hc Hwf Hfl Hhs Hp Hlim Hbs. revert mc acc bc Hm Hc Hp.
  induction Hbs as [|b bs [Hb Hlen] Hbs IH]; intros mc acc bc Hm Hc Hp Hcap H64.
  { cbn. rewrite app_nil_r. subst bc. destruct mc. cbn in *. by rewrite Hm. }
  cbn [fmap list_fmap concat] in *. rewrite <- !app_assoc. rewrite len_app in Hcap.
  pose proof (len_nonneg acc). pose proof (len_nonneg (concat (body <$> bs))).
  assert (after_bucket bc b = bc) as Hab.
  { unfold after_bucket. rewrite Hb, Hhs, orb_false_r. subst bc.
    destruct (bucket_codec mc) eqn:E. cbn in *. by rewrite Hc. }
  rewrite (drain_bucket _ _ _ None (mk_message_codec bc (WaitingForRestOfFragment (acc ++ body b)))).
  - rewrite (IH _ (acc ++ body b)); cbn [bucket_codec mc_state]; rewrite ?len_app, <- ?app_assoc; try done; lia.
  - constructor; rewrite ?Hb; try done. fold bc. apply after_head_ok; lia || done.
  - unfold with_bucket, on_bucket. fold bc. rewrite Hab, Hm. cbn [bucket_codec mc_state]. rewrite Hb, Hfl.
    change (contains 0 DUMMY) with false. change (contains 0 END_FRAGMENT) with false. cbn iota.
    fold (cap bc). unfold saturating_add. destruct (_ <? _) eqn:E; bsimp; [lia|done].
Qed.

End fragments.

Lemma from_flags_as_flags ty : from_flags_and_have_to_return (as_flags ty) (have_to_return_data ty) = Ok ty.
Proof. by destruct ty. Qed.

Section fragmentation.
Context {C T : Type} `{!LevinCommand C} `{!LevinBody C T}.
Context (p : Protocol) (fs : Z) (m : T) (builder : BucketBuilder C) (bucket : Bucket C) (ty : MessageType).
Context (Hencode : encode m (builder_new p) = Ok builder).
Context (Hfinish : finish builder = Ok bucket).
Context (Hty : b_ty builder = Some ty).
Context (Hfs : 2 * HEADER_SIZE <= fs < 2 ^ 63) (Hlen : len (body bucket) < 2 ^ 63).

Lemma finish_fields :
  h_flags (header bucket) = as_flags ty /\
  h_have_to_return_data (header bucket) = have_to_return_data ty /\
  h_size (header bucket) = len (body bucket).
Proof using Hfinish Hty Hlen.
  unfold finish in Hfinish. rewrite Hty in Hfinish. cbn in Hfinish.
  destruct (b_body builder); [|done]. destruct (b_signature builder); [|done].
  destruct (b_command builder); [|done]. destruct (b_return_code builder); [|done].
  destruct (b_protocol_version builder); [|done]. cbn in Hfinish. by injection Hfinish as <-.
Qed.

Lemma make_single :
  len (body bucket) + HEADER_SIZE <= fs ->
  make_fragmented_messages p fs m =
    Ok [mk_bucket (with_size (header bucket) (fs - HEADER_SIZE))
          (body bucket ++ zeros (Z.to_nat (fs - HEADER_SIZE) - length (body bucket)))].
Proof using Hencode Hfinish Hty Hfs Hlen.
  intros Hle. destruct finish_fields as (Hfl & _ & Hsz). pose proof (len_nonneg (body bucket)).
  unfold make_fragmented_messages. rewrite (proj2 (Z.leb_le _ _)) by lia.
  cbn [rassert mbind result_bind]. rewrite Hencode. cbn [mbind result_bind]. rewrite Hfinish.
  cbn [mbind result_bind]. rewrite Hfl.
  replace (intersects (as_flags ty) (Z.lor REQUEST RESPONSE)) with true by (by destruct ty).
  cbn [negb]. rewrite !(wrap_small 64) by (unfold HEADER_SIZE in *; zlia).
  rewrite (proj2 (Z.leb_le _ _)) by lia. do 2 f_equal.
  destruct (_ <? _) eqn:E; bsimp.
  - rewrite resize0_zeros by lia. done.
  - assert (len (body bucket) = fs - HEADER_SIZE) as Heq by lia.
    unfold with_size. rewrite <- Heq, <- Hsz. replace (_ - _)%nat with 0%nat.
    + cbn [zeros repeat]. rewrite app_nil_r. by destruct bucket as [[]].
    + rewrite Hsz. unfold len. lia.
Qed.

Definition fragment_head (flags : Z) : BucketHead C :=
  mk_head (signature p) (fs - HEADER_SIZE) false (from_u32 0) 0 flags (version p).

Lemma make_multi :
  fs < len (body bucket) + HEADER_SIZE ->
  exists b1 mid bn k,
    make_fragmented_messages p fs m =
      Ok (mk_bucket (fragment_head START_FRAGMENT) b1 :: mid
            ++ [mk_bucket (fragment_head END_FRAGMENT) bn]) /\
    Forall (fun b => header b = fragment_head 0 /\ len (body b) = fs - HEADER_SIZE) mid /\
    len b1 = fs - HEADER_SIZE /\ len bn = fs - HEADER_SIZE /\
    b1 ++ concat (body <$> mid) ++ bn = head_bytes (header bucket) ++ body bucket ++ zeros k /\
    len (head_bytes (header bucket) ++ body bucket ++ zeros k) =
      div_ceil (len (body bucket) + HEADER_SIZE) (fs - HEADER_SIZE) * (fs - HEADER_SIZE).
Proof using Hencode Hfinish Hty Hfs Hlen.
  intros Hgt. destruct finish_fields as (Hfl & _ & Hsz). pose proof (len_nonneg (body bucket)).
  set (at_ := fs - 2 * HEADER_SIZE).
  set (N := div_ceil (len (body bucket) + HEADER_SIZE) (fs - HEADER_SIZE)).
  assert (len (body bucket) + HEADER_SIZE <= N * (fs - HEADER_SIZE)) as HN
    by (apply div_ceil_le; unfold HEADER_SIZE in *; lia).
  assert (2 <= N) as HN2.
  { destruct (decide (2 <= N)); [done|]. exfalso. assert (N <= 1) as H1 by lia.
    unfold N in H1. rewrite div_ceil_le in H1 by (unfold HEADER_SIZE in *; lia).
    unfold HEADER_SIZE in *. lia. }
  assert (0 <= at_ <= len (body bucket)) as Hat by (unfold at_, HEADER_SIZE in *; lia).
  destruct (fragment_rest_spec (Z.to_nat (N - 1)) fs (fragment_head 0)
    (drop (Z.to_nat at_) (body bucket))) as (L1 & L2 & L3); [done| |].
  { unfold len in *. rewrite length_drop. rewrite Nat2Z.inj_sub, !Z2Nat.id by lia.
    unfold at_, HEADER_SIZE in *. lia. }
  set (rest := fragment_rest _ _ _ _) in *.
  destruct (exists_last (l := rest)) as (mid & bl & Hrest).
  { intros E. rewrite E in L1. cbn in L1. lia. }
  assert (len (head_bytes (header bucket) ++ take (Z.to_nat at_) (body bucket)) = fs - HEADER_SIZE) as Hb1.
  { rewrite len_app, len_head_bytes. unfold len in *. rewrite length_take.
    unfold at_, HEADER_SIZE in *. lia. }
  rewrite Hrest, Forall_app, Forall_singleton in L2. destruct L2 as (L2 & Hbl & Hbl').
  exists (head_bytes (header bucket) ++ take (Z.to_nat at_) (body bucket)), mid, (body bl).
  eexists. split_and!; [|done|done|done| |].
  - unfold make_fragmented_messages. rewrite (proj2 (Z.leb_le _ _)) by lia.
    cbn [rassert mbind result_bind]. rewrite Hencode. cbn [mbind result_bind]. rewrite Hfinish.
    cbn [mbind result_bind]. rewrite Hfl.
    replace (intersects (as_flags ty) (Z.lor REQUEST RESPONSE)) with true by (by destruct ty).
    cbn [negb]. change (HEADER_SIZE *! 2) with (2 * HEADER_SIZE).
    rewrite !(wrap_small 64) by (unfold HEADER_SIZE in *; zlia).
    rewrite (proj2 (Z.leb_gt _ _)) by lia. fold at_ N.
    rewrite (proj2 (Z.leb_le _ _)) by lia. cbn [rassert mbind result_bind].
    fold (fragment_head 0). fold rest. rewrite Hrest. cbn [alter list_alter toggle_flags].
    rewrite app_comm_cons, alter_last. do 2 f_equal. cbn [app]. do 2 f_equal.
    unfold toggle_flags. rewrite Hbl. done.
  - rewrite Hrest, fmap_app, concat_app in L3. cbn [fmap list_fmap concat] in L3.
    rewrite app_nil_r in L3. rewrite <- app_assoc, L3, (app_assoc (take _ _)), take_drop. done.
  - rewrite !len_app, len_head_bytes. unfold zeros, len in *. rewrite repeat_length, length_drop.
    unfold at_, HEADER_SIZE in *. nia.
Qed.

End fragmentation.

Section reassembly.
Context {C T : Type} `{!LevinCommand C} `{!LevinBody C T}.
Context (mc : LevinMessageCodec C) (fs : Z) (m : T) (builder : BucketBuilder C).
Context (bucket : Bucket C) (ty : MessageType).

Let bc := bucket_codec mc.
Let mc_end := mk_message_codec (after_bucket bc bucket) WaitingForBucket.

Context (Hm : mc_state mc = WaitingForBucket) (Hc : bc_state bc = WaitingForHeader).
Context (He : encode m (builder_new (bc_protocol bc)) = Ok builder).
Context (Hf : finish builder = Ok bucket) (Hty : b_ty builder = Some ty).
Context (Hwf : head_wf (header bucket)).
Context (Hdec : forall k, decode_message (body bucket ++ zeros k) ty (h_command (header bucket)) = Ok m).
Context (Hlim : frag_limits bc fs bucket).

Lemma fragment_le_cap : fs - HEADER_SIZE <= cap bc /\ cap bc < 2 ^ 64.
Proof using Hlim.
  destruct Hlim as [Hfs Hlen (Hsig & Hver & Hmax) _ Htot _]. pose proof (len_nonneg (body bucket)) as Hb0.
  split; [|unfold cap; destruct (handshake_message_seen bc); lia].
  assert (1 <= div_ceil (len (body bucket) + HEADER_SIZE) (fs - HEADER_SIZE)) as H1.
  { apply Z.nlt_ge. intros H0. apply Z.lt_le_pred, div_ceil_le in H0; unfold HEADER_SIZE in *; lia. }
  unfold HEADER_SIZE in *. nia.
Qed.

Lemma single_roundtrip :
  len (body bucket) + HEADER_SIZE <= fs ->
  exists b, make_fragmented_messages (bc_protocol bc) fs m = Ok [b] /\ len (wire b) = fs /\
    drain mc (concat (wire <$> [b])) = ([m], Some (Ok None), (mc_end, [])).
Proof using All.
  intros Hle. destruct fragment_le_cap as [Hcap1 Hcap2].
  destruct Hlim as [Hfs Hlen (Hsig & Hver & Hmax) _ _ Hcmd].
  destruct (finish_fields builder bucket ty Hf Hty Hlen) as (Hfl & Hhave & Hsz).
  rewrite (proj2 (Z.leb_le _ _) Hle) in Hcmd.
  rewrite (make_single _ fs m builder bucket ty) by done. eexists. split; [done|].
  set (k := (Z.to_nat (fs - HEADER_SIZE) - length (body bucket))%nat).
  set (b := mk_bucket _ _).
  assert (len (body b) = fs - HEADER_SIZE) as Hbl.
  { cbn [body b]. unfold zeros, len in *. rewrite length_app, repeat_length. lia. }
  split; [rewrite len_wire; lia|].
  cbn [fmap list_fmap concat]. rewrite (drain_bucket mc b [] (Some (Ok (Some m))) mc_end).
  - by rewrite message_drain_nil.
  - constructor; [done| |done|apply (after_head_ok bc); [apply Hmax|done|done]].
    destruct Hwf. constructor; cbn [header b with_size h_size h_signature h_command h_flags
      h_protocol_version h_return_code]; try done. unfold HEADER_SIZE in *. zlia.
  - unfold on_bucket, with_bucket. cbn [bucket_codec mc_state header body b with_size h_flags
      h_have_to_return_data h_command]. rewrite Hm, Hfl, Hhave, from_flags_as_flags.
    unfold return_message. rewrite Hdec. by destruct ty.
Qed.

(** The whole message, put together. *)
Lemma finish_fragment_ok k :
  len (body bucket) <= bucket_size_limit (h_command (header bucket)) -> len (body bucket) < 2 ^ 63 ->
  finish_fragment bc (head_bytes (header bucket) ++ body bucket ++ zeros k) =
    (Some (Ok (Some m)), after_bucket bc bucket).
Proof using All.
  intros Hcmd Hlen. destruct (finish_fields builder bucket ty Hf Hty Hlen) as (Hfl & Hhave & Hsz).
  pose proof (len_nonneg (body bucket)). pose proof (len_nonneg (zeros k)).
  assert (Z.to_nat HEADER_SIZE = length (head_bytes (header bucket))) as Hh.
  { pose proof (len_head_bytes (header bucket)) as E. unfold len in E. lia. }
  unfold finish_fragment. rewrite !len_app, len_head_bytes.
  rewrite (proj2 (Z.ltb_ge _ _)) by lia.
  rewrite Hh, take_app_length, drop_app_length.
  rewrite <- (app_nil_r (head_bytes (header bucket))), from_bytes_write by done.
  rewrite Hsz, (proj2 (Z.ltb_ge _ _)) by lia.
  rewrite (proj2 (Z.ltb_ge _ _)) by (unfold saturating_sub; lia).
  rewrite Hfl, Hhave, from_flags_as_flags.
  unfold return_message. rewrite Hdec. f_equal.
  unfold after_bucket, with_handshake. clear - Hc. destruct bc. cbn in *. rewrite Hc.
  destruct (is_handshake _); [by rewrite orb_true_r|by rewrite orb_false_r].
Qed.

Lemma multi_roundtrip :
  fs < len (body bucket) + HEADER_SIZE ->
  exists bs, make_fragmented_messages (bc_protocol bc) fs m = Ok bs /\
    Forall (fun b => len (wire b) = fs) bs /\
    drain mc (concat (wire <$> bs)) = ([m], Some (Ok None), (mc_end, [])).
Proof using All.
  intros Hgt. destruct fragment_le_cap as [Hcap1 Hcap2].
  destruct Hlim as [Hfs Hlen (Hsig & Hver & Hmax) (Hd1 & Hd2 & Hd3 & Hd4) Htot Hcmd].
  rewrite (proj2 (Z.leb_gt _ _)) in Hcmd by lia.
  destruct (make_multi (bc_protocol bc) fs m builder bucket ty) as
    (b1 & mid & bn & k & -> & Hmid & Hb1 & Hbn & Hcat & Htl); [done..|].
  eexists. split; [done|]. split.
  { constructor; [rewrite len_wire; cbn [body]; lia|].
    rewrite Forall_app, Forall_singleton. split; [|rewrite len_wire; cbn [body]; lia].
    eapply Forall_impl; [exact Hmid|]. intros b [_ Hb]. rewrite len_wire. lia. }
  set (fh := fragment_head (C := C) (bc_protocol bc) fs).
  assert (forall fl, is_u 32 fl -> head_wf (fh fl)) as Hhw.
  { intros fl Hflu. constructor; cbn; try done. unfold HEADER_SIZE in *. zlia. }
  assert (forall fl bs, after_bucket bc (mk_bucket (fh fl) bs) = bc) as Hab.
  { intros fl bs. unfold after_bucket. cbn. rewrite Hd3, orb_false_r.
    clear - Hc. destruct bc. cbn in *. by rewrite Hc. }
  cbn [app fmap list_fmap concat]. rewrite fmap_app, concat_app. cbn [fmap list_fmap concat].
  rewrite <- Hcat, !len_app in Htl. pose proof (len_nonneg bn). pose proof (len_nonneg (concat (body <$> mid))).
  rewrite (drain_bucket mc _ _ None (mk_message_codec bc (WaitingForRestOfFragment b1))).
  2: { constructor; [done|by apply Hhw|done|apply (after_head_ok bc); [apply Hmax|done|done]]. }
  2: { unfold on_bucket, with_bucket. fold bc. rewrite Hab.
       cbn [bucket_codec mc_state header body fh fragment_head h_flags]. by rewrite Hm. }
  rewrite (drain_middle _ (fh 0) mid b1); cbn [bucket_codec mc_state];
    [|try done; try (by apply Hhw); try lia..].
  rewrite (drain_bucket _ _ _ (Some (Ok (Some m))) mc_end).
  - by rewrite message_drain_nil.
  - constructor; [done|by apply Hhw|done|apply (after_head_ok bc); [apply Hmax|done|done]].
  - unfold on_bucket, with_bucket. cbn [bucket_codec mc_state]. rewrite Hab.
    cbn [header body fh fragment_head h_flags]. change (contains END_FRAGMENT DUMMY) with false.
    change (contains END_FRAGMENT END_FRAGMENT) with true. cbn iota. fold (cap bc).
    rewrite <- app_assoc, Hcat, finish_fragment_ok by lia.
    unfold saturating_add. rewrite len_app. destruct (_ <? _) eqn:E; bsimp; [lia|done].
Qed.

End reassembly.

(** ** What a peer can make the codec hold *)
Section invariant.
Context {C T : Type} `{!LevinCommand C} `{!LevinBody C T}.

Definition protocol_ok (p : Protocol) : Prop :=
  0 <= max_packet_size_before_handshake p <= max_packet_size p /\ max_packet_size p < u64_MAX.

(** The body waited for is within the limit in force. *)
Definition bucket_inv (c : LevinBucketCodec C) : Prop :=
  protocol_ok (bc_protocol c) /\
  match bc_state c with WaitingForHeader => True | WaitingForBody head => h_size head <= cap c end.

(** So are the fragments collected. *)
Definition message_inv (mc : LevinMessageCodec C) : Prop :=
  bucket_inv (bucket_codec mc) /\
  match mc_state mc with
  | WaitingForBucket => True
  | WaitingForRestOfFragment bs => len bs <= cap (bucket_codec mc)
  end.

Definition bucket_outcome (o : option (Result (option (Bucket C)))) (c : LevinBucketCodec C)
    (src : bytes) : Prop :=
  match o with
  | Some (Ok (Some b)) => bc_state c = WaitingForHeader /\ len (body b) <= cap c
  | Some (Ok None) => len src < Z.max HEADER_SIZE (cap c)
  | Some Panic => False
  | _ => True
  end.

Lemma cap_mono (c : LevinBucketCodec C) (s : LevinBucketState C) b :
  protocol_ok (bc_protocol c) ->
  cap c <= cap (mk_codec s (bc_protocol c) (handshake_message_seen c || b)).
Proof.
  unfold protocol_ok, cap. cbn. intros H. destruct (handshake_message_seen c), b; cbn; lia.
Qed.

Lemma bucket_iter_inv c src o c' src' :
  bucket_inv c -> bucket_decode_iter (c, src) = (o, (c', src')) ->
  bucket_inv c' /\ bc_protocol c' = bc_protocol c /\ cap c <= cap c' /\ bucket_outcome o c' src'.
Proof.
  intros [Hp Hinv] H. destruct (bc_state c) as [|head] eqn:Hc.
  - destruct (len src <? HEADER_SIZE) eqn:E.
    { unfold bucket_decode_iter in H. rewrite Hc, E in H. simplify_eq. bsimp.
      unfold bucket_inv. rewrite Hc. cbn. split_and!; try done; lia. }
    bsimp. destruct (from_bytes_ok src E) as (head & Hf & _). specialize (Hf []).
    rewrite !app_nil_r in Hf. rewrite (bucket_iter_head c src head _ Hc E Hf) in H.
    destruct (after_head c head) as [c1|] eqn:Ha; simplify_eq.
    + unfold after_head in Ha. destruct (_ || _) eqn:Hb; [done|]. injection Ha as <-.
      pose proof (cap_mono c (WaitingForBody head) (is_handshake (h_command head)) Hp).
      unfold bucket_inv. cbn. split_and!; try done.
      eapply Z.le_trans; [|done]. unfold cap.
      destruct (handshake_message_seen c); bsimp; try done; lia.
    + unfold bucket_inv. rewrite Hc. cbn. split_and!; done || lia.
  - unfold bucket_decode_iter in H. rewrite Hc in H.
    destruct (_ <? _) eqn:E; simplify_eq; bsimp.
    + unfold bucket_inv. rewrite Hc. cbn. split_and!; try done; lia.
    + unfold bucket_inv, bucket_outcome. change (cap (with_state c WaitingForHeader)) with (cap c). cbn.
      split_and!; try done; try lia. unfold len. rewrite length_take.
      unfold protocol_ok, cap in *. destruct (handshake_message_seen c); lia.
Qed.

Lemma bucket_decode_inv c src o c' src' :
  bucket_inv c -> bucket_decode c src = (o, (c', src')) ->
  bucket_inv c' /\ cap c <= cap c' /\ bucket_outcome o c' src'.
Proof.
  unfold bucket_decode. intros Hinv H. cbn [loop] in H.
  destruct (bucket_decode_iter (c, src)) as [[o1|] [c1 src1]] eqn:E1.
  { simplify_eq. by destruct (bucket_iter_inv _ _ _ _ _ Hinv E1) as (? & ? & ? & ?). }
  destruct (bucket_iter_inv _ _ _ _ _ Hinv E1) as (Hinv1 & _ & ? & _).
  destruct (bucket_decode_iter (c1, src1)) as [[o2|] [c2 src2]] eqn:E2;
    destruct (bucket_iter_inv _ _ _ _ _ Hinv1 E2) as (? & _ & ? & ?);
    simplify_eq; split_and!; done || lia.
Qed.

Definition message_outcome (o : option (Result (option T))) (mc : LevinMessageCodec C)
    (src : bytes) : Prop :=
  match o with
  | Some (Ok None) => len src < Z.max HEADER_SIZE (cap (bucket_codec mc))
  | Some Panic => False
  | _ => True
  end.

Context (Hsafe : forall bs ty (c : C), decode_message bs ty c <> (Panic : Result T)).

Lemma return_message_outcome (bs : bytes) ty (c : C) mc src :
  message_outcome (return_message (decode_message bs ty c)) mc src.
Proof using Hsafe. specialize (Hsafe bs ty c). by destruct (decode_message bs ty c). Qed.

Lemma finish_fragment_inv bc bs (o : option (Result (option T))) bc' mc src :
  bucket_inv bc -> bc_state bc = WaitingForHeader -> finish_fragment bc bs = (o, bc') ->
  bucket_inv bc' /\ message_outcome o mc src.
Proof using Hsafe.
  intros [Hp Hs] Hst H.
  assert (o <> Some Panic -> o <> Some (Ok None) -> message_outcome o mc src) as Ho
    by (destruct o as [[[]| |]|]; cbn; intuition congruence).
  assert (bucket_inv bc') as Hinv.
  { apply finish_fragment_frame in H as (_ & _ & E1 & E2). unfold bucket_inv. by rewrite E1, E2, Hst. }
  split; [done|]. unfold finish_fragment in H.
  destruct (len bs <? HEADER_SIZE) eqn:E; [by simplify_eq|]. bsimp.
  destruct (from_bytes_ok (take (Z.to_nat HEADER_SIZE) bs)) as (head & Hf & _).
  { unfold len, HEADER_SIZE in *. rewrite length_take. lia. }
  specialize (Hf []). rewrite !app_nil_r in Hf. rewrite Hf in H.
  destruct (_ <? _); [by simplify_eq|]. destruct (_ <? _); [by simplify_eq|].
  unfold from_flags_and_have_to_return in H.
  repeat case_match; simplify_eq; try done; apply return_message_outcome.
Qed.

Lemma on_bucket_inv mc b (o : option (Result (option T))) mc' src :
  message_inv mc -> bc_state (bucket_codec mc) = WaitingForHeader ->
  len (body b) <= cap (bucket_codec mc) -> on_bucket mc b = (o, mc') ->
  message_inv mc' /\ (o <> Some (Ok None) -> message_outcome o mc' src).
Proof using Hsafe.
  intros [Hb Hm] Hst Hl H. unfold on_bucket in H. destruct (mc_state mc) as [|bs] eqn:Em.
  - unfold from_flags_and_have_to_return in H.
    repeat case_match; simplify_eq; unfold message_inv; cbn; rewrite ?Em; split; try done;
      intros _; try done; apply return_message_outcome.
  - fold (cap (bucket_codec mc)) in H.
    destruct (contains _ DUMMY); [simplify_eq; unfold message_inv; by rewrite Em|].
    destruct (_ <? _) eqn:E; [simplify_eq; unfold message_inv; by rewrite Em|].
    destruct (contains _ END_FRAGMENT).
    + destruct (finish_fragment _ _) as [o1 bc1] eqn:Ef. simplify_eq.
      destruct (finish_fragment_inv _ _ _ _ (mk_message_codec bc1 WaitingForBucket) src Hb Hst Ef).
      unfold message_inv. by cbn.
    + simplify_eq. unfold message_inv. cbn. split; [|done]. split; [done|]. bsimp.
      rewrite len_app. unfold saturating_add in E. pose proof (len_nonneg bs).
      pose proof (len_nonneg (body b)).
      assert (cap (bucket_codec mc) < u64_MAX); [|unfold u64_MAX in *; lia].
      destruct Hb as [[Hp1 Hp2] _]. unfold cap. destruct (handshake_message_seen _); lia.
Qed.

Lemma message_iter_inv mc src (o : option (Result (option T))) mc' src' :
  message_inv mc -> message_decode_iter (mc, src) = (o, (mc', src')) ->
  message_inv mc' /\ message_outcome o mc' src'.
Proof using Hsafe.
  intros [Hb Hm] H. unfold message_decode_iter in H.
  destruct (bucket_decode (bucket_codec mc) src) as [r [bc src1]] eqn:E.
  destruct (bucket_decode_inv _ _ _ _ _ Hb E) as (Hb' & Hcap & Ho).
  assert (message_inv (mk_message_codec bc (mc_state mc))) as Hinv.
  { split; [done|]. cbn. destruct (mc_state mc); [done|lia]. }
  destruct r as [[[b|]|e|]|]; [|simplify_eq; done..].
  destruct Ho as [Hst Hl]. destruct (on_bucket _ b) as [r mc1] eqn:Eb. simplify_eq.
  pose proof (on_bucket_frame _ _ _ _ Eb) as (Hr & _).
  destruct (on_bucket_inv _ _ _ _ src' Hinv Hst Hl Eb) as [? Hout]. auto.
Qed.

Lemma message_decode_inv mc src (o : option (Result (option T))) mc' src' :
  message_inv mc -> message_decode mc src = (o, (mc', src')) ->
  message_inv mc' /\ message_outcome o mc' src'.
Proof using Hsafe.
  unfold message_decode. generalize (2 + length src)%nat as n. intros n. revert mc src.
  induction n as [|n IH]; intros mc src Hinv; cbn [loop]; [by intros [= <- <- <-]|].
  destruct (message_decode_iter (mc, src)) as [[r|] [mc1 src1]] eqn:E;
    destruct (message_iter_inv _ _ _ _ _ Hinv E); [by intros [= <- <- <-]|by apply IH].
Qed.

Lemma drain_inv mc src its (o : option (Result (option T))) mc' src' :
  message_inv mc -> drain mc src = (its, o, (mc', src')) ->
  message_inv mc' /\ message_outcome o mc' src'.
Proof using Hsafe.
  unfold drain. generalize (S (pending mc + length src))%nat as n. intros n. revert mc src its.
  induction n as [|n IH]; intros mc src its Hinv; cbn [drain_n]; [by intros [= <- <- <- <-]|].
  change (decode mc src) with (message_decode (T := T) mc src).
  destruct (message_decode mc src) as [r [mc1 src1]] eqn:E.
  destruct (message_decode_inv _ _ _ _ _ Hinv E) as [Hinv1 Ho].
  destruct r as [[[m|]|e|]|]; try by intros [= <- <- <- <-].
  destruct (drain_n n mc1 src1) as [[its1 r1] [mc2 src2]] eqn:Ed. intros [= <- <- <- <-].
  by eapply IH.
Qed.

End invariant.

(** ** The command and body types of the crate's own tests, for concrete streams *)
Module TestTypes.
#[export] Instance TestCommands : LevinCommand Z := {|
  from_u32 x := x;
  to_u32 x := x;
  bucket_size_limit _ := u64_MAX;
  is_handshake x := x =? 1;
|}.

#[export] Instance TestCommands_laws : LevinCommandLaws Z.
Proof. by split. Qed.

#[export] Instance TestBody : LevinBody Z bytes := {|
  decode_message body _ _ :=
    '(size, body) ← get_le 8 body;
    if len body <? size then Panic else Ok (take (Z.to_nat size) body);
  encode bs b :=
    Ok (set_body (le_split 8 (len bs) ++ bs)
          (set_return_code 0 (set_message_type Notification (set_command 1 b))));
|}.

Definition codec : LevinMessageCodec Z := message_codec_default.
Definition message : bytes := repeat 7 100.
Definition bucket : Bucket Z :=
  mk_bucket (mk_head MONERO_LEVIN_SIGNATURE 108 false 1 0 REQUEST 1) (le_split 8 100 ++ message).

Lemma bucket_wf : head_wf (header bucket).
Proof. constructor; vm_compute; intuition congruence. Qed.

Lemma decode_padded k : decode_message (body bucket ++ zeros k) Notification 1 = Ok message.
Proof.
  cbn [decode_message TestBody body bucket]. rewrite <- app_assoc, get_le_split by done.
  cbn [mbind result_bind]. destruct (_ <? _) eqn:E; bsimp.
  - rewrite len_app in E. pose proof (len_nonneg (zeros k)). change (len message) with 100 in E. lia.
  - change (Z.to_nat 100) with (length message). by rewrite take_app_length.
Qed.
End TestTypes.

Section claims.
Context {C T : Type} `{!LevinCommand C} `{!LevinBody C T}.

(** A header written by [write_bytes_into] is 33 bytes and is read back by
    [from_bytes], whatever follows; conversely any 33 bytes are read as a header
    whose fields fit, and writing it gives the same bytes when the boolean was 0 or 1. *)
Theorem header_roundtrip `{!LevinCommandLaws C} (h : BucketHead C) src dst r :
  head_wf h -> len src = HEADER_SIZE -> Forall is_byte src ->
  len (write_bytes_into h dst) = len dst + HEADER_SIZE /\
  from_bytes (write_bytes_into h [] ++ r) = Ok (h, r) /\
  exists h', from_bytes (src ++ r) = Ok (h', r) /\ head_wf h' /\
    (src !! 16%nat ∈ [Some 0; Some 1] -> write_bytes_into h' dst = dst ++ src).
Proof.
  intros Hh Hl Hb. rewrite write_bytes_into_app, len_app, len_head_bytes.
  split; [done|]. split; [by apply from_bytes_write|].
  destruct (from_bytes_ok src) as (h' & Hf & Hwf); [lia|]. exists h'.
  destruct (Hwf _ Hb) as [Hw Hrt]. assert (length src = 33%nat) as Hn by (unfold len, HEADER_SIZE in Hl; lia).
  rewrite Hf, drop_ge by lia. split_and!; [done..|]. intros H16. apply Hrt in H16.
  by rewrite write_bytes_into_app, H16, take_ge by lia.
Qed.

(** C29. The bucket codec cuts a stream into exactly the buckets that were encoded into
    it, however the transport cuts the stream into pieces, when each bucket is within
    the limits in force when it arrives. *)
Theorem bucket_stream_roundtrip p (bs : list (Bucket C)) ch chunks :
  fit_all (bucket_codec_new p) bs ->
  try_fold (fun dst b => bucket_encode b dst) [] bs = Ok (ch ++ concat chunks) ->
  feed (bucket_codec_new p) [] (ch :: chunks) =
    (bs, Some (Ok None), (after_all (bucket_codec_new p) bs, [])).
Proof.
  intros Hfit Henc. rewrite feed_concat. cbn [app].
  rewrite encode_all in Henc. injection Henc as <-. cbn [app].
  pose proof (drain_wires (bucket_codec_new p) bs [] Hfit) as Hd. rewrite app_nil_r in Hd.
  rewrite Hd, drain_nil; [by rewrite app_nil_r|].
  by apply after_all_state.
Qed.

(** However the bytes of a stream are cut into pieces, the message codec returns
    the same messages, stops at the same error and is left in the same state. *)
Theorem message_chunking_irrelevant (mc : LevinMessageCodec C) src ch chunks ch' chunks' :
  ch ++ concat chunks = ch' ++ concat chunks' ->
  feed (Item := T) mc src (ch :: chunks) = feed mc src (ch' :: chunks').
Proof. intros H. by rewrite !feed_concat, H. Qed.


(** Whatever bytes a peer sends, in whatever pieces, the codec neither panics nor
    loops, and what it holds is bounded: the body it waits for and the fragments it
    collects are within the packet limit in force (the small one until a handshake is
    seen), and when it asks for more it has fewer bytes than a header or than that
    limit. *)
Theorem message_codec_bounded p chunks its (o : option (Result (option T))) mc src :
  protocol_ok p ->
  (forall bs ty (c : C), decode_message bs ty c <> (Panic : Result T)) ->
  feed (mk_message_codec (bucket_codec_new p) WaitingForBucket) [] chunks = (its, o, (mc, src)) ->
  message_inv mc /\
  match o with
  | None | Some Panic => False
  | Some (Ok None) => len src < Z.max HEADER_SIZE (cap (bucket_codec mc))
  | _ => True
  end.
Proof.
  intros Hp Hsafe H.
  assert (message_inv (mk_message_codec (@bucket_codec_new C p) WaitingForBucket)) as Hinv by (by repeat split; apply Hp).
  destruct chunks as [|ch chunks].
  { injection H as <- <- <- <-. split; [done|]. unfold len, HEADER_SIZE. cbn. lia. }
  rewrite feed_concat in H.
  destruct (drain_inv Hsafe _ _ _ _ _ _ Hinv H) as [Hinv' Ho]. split; [done|].
  destruct o as [r|]; [done|]. by apply drain_returns in H.
Qed.

(** The message [make_dummy_message] makes for [size] takes [size] bytes on the wire
    but its header announces a body of [size] bytes, a header's worth more than it
    has: a reader of it takes the 33 bytes that follow on the stream as part of the
    dummy, and throws them away. *)
Theorem dummy_swallows_next_header (mc : LevinMessageCodec C) size r :
  let bc := bucket_codec mc in
  bc_state bc = WaitingForHeader ->
  is_u 64 (signature (bc_protocol bc)) -> is_u 32 (version (bc_protocol bc)) ->
  max_packet_size_before_handshake (bc_protocol bc) <= max_packet_size (bc_protocol bc) ->
  from_u32 (to_u32 (from_u32 0 : C)) = (from_u32 0 : C) -> is_u 32 (to_u32 (from_u32 0 : C)) ->
  is_handshake (from_u32 0 : C) = false -> size <= bucket_size_limit (from_u32 0 : C) ->
  HEADER_SIZE <= size <= cap bc -> size < 2 ^ 63 -> HEADER_SIZE <= len r ->
  exists d, message_encode (T := T) mc (Dummy size) [] = Ok d /\ len d = size /\
    drain (Item := T) mc (d ++ r) = drain mc (drop 33 r).
Proof.
  intros bc Hst Hsig Hver Hmax Hd1 Hd2 Hd3 Hd4 Hsize Hs63 Hr. unfold HEADER_SIZE in *.
  cbn [message_encode]. unfold make_dummy_message. fold bc.
  rewrite (wrap_small 64) by (unfold HEADER_SIZE; zlia). unfold HEADER_SIZE.
  rewrite (proj2 (Z.ltb_lt _ _)) by lia. cbn [rassert mbind result_bind].
  set (h := mk_head _ _ _ _ _ _ _). rewrite bucket_encode_wire. eexists. split; [done|].
  assert (len (repeat 0 (Z.to_nat (size - 33))) = size - 33) as Hz
    by (unfold len; rewrite repeat_length; lia).
  split; [cbn [app]; rewrite len_wire; cbn [body]; unfold HEADER_SIZE; lia|]. cbn [app].
  set (b := mk_bucket h (repeat 0 (Z.to_nat (size - 33)) ++ take 33 r)).
  replace (wire _ ++ r) with (wire b ++ drop 33 r).
  2: { unfold wire, b. cbn [header body]. rewrite <- !app_assoc. by rewrite take_drop. }
  rewrite (drain_bucket mc b (drop 33 r) None mc); [done| |].
  - constructor; [done| | |by apply (after_head_ok bc); [|apply Hsize|]].
    + constructor; cbn; done || zlia.
    + unfold b. cbn [body header]. rewrite len_app, Hz. cbn. unfold len in *. rewrite length_take. lia.
  - assert (with_bucket mc b = mc) as ->.
    { unfold with_bucket, after_bucket. cbn [b header h h_command]. fold bc. rewrite Hd3, orb_false_r.
      destruct mc as [[]]. cbn in *. by rewrite Hst. }
    unfold on_bucket. cbn [b header h h_flags]. change (contains DUMMY DUMMY) with true.
    by destruct (mc_state mc).
Qed.

End claims.



(** ** The theorems at concrete inputs *)
Section witnesses.
Import TestTypes.

Lemma header_roundtrip_witness :
  head_wf (header bucket) /\ len (repeat 1 33) = HEADER_SIZE /\
  exists h' : BucketHead Z, from_bytes (repeat 1 33 ++ [9]) = Ok (h', [9]).
Proof.
  split; [apply bucket_wf|]. split; [done|].
  destruct (header_roundtrip (header bucket) (repeat 1 33) [5] [9]) as (_ & _ & h' & H & _).
  - apply bucket_wf.
  - done.
  - repeat constructor; vm_compute; congruence.
  - by exists h'.
Defined.

Lemma bucket_stream_roundtrip_witness :
  feed (bucket_codec_new Protocol_default) [] [take 10 (wire bucket); drop 10 (wire bucket)] =
    ([bucket], Some (Ok None), (after_all (bucket_codec_new Protocol_default) [bucket], [])).
Proof.
  apply (bucket_stream_roundtrip Protocol_default [bucket] (take 10 (wire bucket))).
  - split; [|done]. constructor; [done|apply bucket_wf|done|vm_compute; congruence].
  - cbn [concat]. rewrite app_nil_r, take_drop, (encode_all [bucket]). cbn [fmap list_fmap concat].
    by rewrite app_nil_r.
Defined.

Lemma message_chunking_irrelevant_witness :
  feed (Item := bytes) codec [] [[1; 2]; [3]] = feed codec [] [[1]; [2; 3]].
Proof. by apply message_chunking_irrelevant. Defined.


(** The documentation of [make_fragmented_messages] says it panics on this size. *)
Lemma two_headers_suffice :
  exists buckets, make_fragmented_messages Protocol_default (2 * HEADER_SIZE) message = Ok buckets /\ length buckets = 5%nat.
Proof. eexists. split; vm_compute; reflexivity. Qed.

(** A body type that takes any bytes. *)
Definition RawBody : LevinBody Z bytes := {|
  decode_message body _ _ := Ok body;
  encode bs b := Ok (set_body bs (set_return_code 0 (set_message_type Notification (set_command 1 b))));
|}.

Lemma message_codec_bounded_witness :
  let '(_, o, (mc, src)) :=
    feed (Decoder0 := @message_decoder Z bytes TestCommands RawBody)
      (mk_message_codec (bucket_codec_new Protocol_default) WaitingForBucket) []
      [take 40 (wire bucket)] in
  message_inv mc /\ o = Some (Ok None) /\ len src < Z.max HEADER_SIZE (cap (bucket_codec mc)).
Proof.
  destruct (feed _ _ _) as [[its o] [mc src]] eqn:E.
  destruct (message_codec_bounded (LevinBody0 := RawBody) Protocol_default _ _ _ _ _
    ltac:(vm_compute; intuition congruence) ltac:(done) E) as [Hinv Ho].
  split; [done|]. vm_compute in E. injection E as <- <- <- <-. by split.
Defined.

Lemma dummy_swallows_next_header_witness :
  exists d, message_encode (T := bytes) codec (Dummy 50) [] = Ok d /\ len d = 50 /\
    drain (Item := bytes) codec (d ++ wire bucket) = drain codec (drop 33 (wire bucket)).
Proof. apply (dummy_swallows_next_header codec 50 (wire bucket)); vm_compute; intuition congruence. Defined.

End witnesses.

End Levin.
