(* ===== verification/NetAddress.v ===== *)
(** * Network addresses ([src/net/wire/src/network_address], [src/p2p/p2p-core/src/network_zones])

    Socket and onion addresses, what the P2P code asks of an address in a network zone (the
    class [NetZoneAddress]), the two zones, the text form of onion addresses, and the
    tagged form in which addresses go over the wire. A Rust string is the list of its UTF-8
    bytes. *)
From S2P Require Import Prelude Bytes EpeeValue.
From Stdlib Require Import ZArith Lia.
From stdpp Require Import base tactics option list numbers sets gmap.
Import Epee.

#[local] Open Scope Z_scope.

Module NetAddress.

(** ** Socket addresses

    [std::net]: an IPv4 address is a 32-bit, an IPv6 address a 128-bit number. *)
Inductive IpAddr := IpV4 (ip : Z) | IpV6 (ip : Z).
Inductive SocketAddr := SocketV4 (ip port : Z) | SocketV6 (ip port flowinfo scope_id : Z).

#[export] Instance IpAddr_eq_dec : EqDecision IpAddr.
Proof. solve_decision. Defined.
#[export] Instance IpAddr_countable : Countable IpAddr.
Proof.
  refine (inj_countable' (fun a => match a with IpV4 x => inl x | IpV6 x => inr x end)
    (fun s => match s with inl x => IpV4 x | inr x => IpV6 x end) _). by intros [].
Defined.
#[export] Instance SocketAddr_eq_dec : EqDecision SocketAddr.
Proof. solve_decision. Defined.
#[export] Instance SocketAddr_countable : Countable SocketAddr.
Proof.
  refine (inj_countable' (fun a => match a with SocketV4 x p => inl (x, p) | SocketV6 x p f s => inr (x, p, f, s) end)
    (fun s => match s with inl (x, p) => SocketV4 x p | inr (x, p, f, s) => SocketV6 x p f s end) _). by intros [].
Defined.

Definition socket_ip (a : SocketAddr) : IpAddr :=
  match a with SocketV4 ip _ => IpV4 ip | SocketV6 ip _ _ _ => IpV6 ip end.
Definition socket_port (a : SocketAddr) : Z := match a with SocketV4 _ p => p | SocketV6 _ p _ _ => p end.

(** [SocketAddr::new] *)
Definition socket_new (ip : IpAddr) (port : Z) : SocketAddr :=
  match ip with IpV4 ip => SocketV4 ip port | IpV6 ip => SocketV6 ip port 0 0 end.

Definition socket_set_port (a : SocketAddr) (port : Z) : SocketAddr :=
  match a with SocketV4 ip _ => SocketV4 ip port | SocketV6 ip _ f s => SocketV6 ip port f s end.
Definition socket_set_ip (a : SocketAddr) (ip : IpAddr) : SocketAddr :=
  match a, ip with
  | SocketV4 _ p, IpV4 ip => SocketV4 ip p
  | SocketV6 _ p f s, IpV6 ip => SocketV6 ip p f s
  | _, _ => socket_new ip (socket_port a)
  end.

(** [IpAddr::to_canonical]: an IPv4 address mapped into IPv6 ([::ffff:a.b.c.d]) is taken
    out of it. *)
Definition to_canonical (ip : IpAddr) : IpAddr :=
  match ip with
  | IpV4 ip => IpV4 ip
  | IpV6 ip => if Z.shiftr ip 32 =? 0xffff then IpV4 (Z.land ip (2 ^ 32 - 1)) else IpV6 ip
  end.

(** ** Onion addresses *)
Record OnionAddr := mk_onion { domain : bytes; onion_port : Z }.

#[export] Instance OnionAddr_eq_dec : EqDecision OnionAddr.
Proof. solve_decision. Defined.
#[export] Instance OnionAddr_countable : Countable OnionAddr.
Proof. refine (inj_countable' (fun a => (domain a, onion_port a)) (fun s => mk_onion s.1 s.2) _). by intros []. Defined.

Inductive OnionAddrParsingError :=
  | InvalidLength (n : Z)
  | NonUtf8Char (c : Z)
  | InvalidTld (tld : bytes)
  | NonBase32Char
  | InvalidVersion (v : Z)
  | InvalidChecksum
  | InvalidPort.

(** [s.split_at_checked(n)]: [n] must be the start of a character or the end. *)
Definition split_at_checked (s : bytes) (n : nat) : option (bytes * bytes) :=
  if (length s <? n)%nat then None
  else match drop n s with
  | c :: _ => if utf8_cont c then None else Some (take n s, drop n s)
  | [] => Some (take n s, [])
  end.

Definition ONION_TLD : bytes := [46; 111; 110; 105; 111; 110].  (* .onion *)

Definition is_base32 (c : Z) : bool := between 97 c 122 || between 50 c 55.

Definition check_addr (addr : bytes) : result OnionAddrParsingError bytes :=
  if negb (len addr =? 62) then Err (InvalidLength (len addr))
  else match split_at_checked addr 56 with
  | None => c ← unwrap (addr !! 56%nat); Err (NonUtf8Char c)
  | Some (domain, tld) =>
      if negb (bool_decide (tld = ONION_TLD)) then Err (InvalidTld tld)
      else if negb (forallb is_base32 domain) then Err NonBase32Char
      else Ok (take 56 addr)
  end.

Definition onion_new (addr : bytes) (port : Z) : result OnionAddrParsingError OnionAddr :=
  d ← check_addr addr; Ok (mk_onion d port).

Definition addr_string {E} (a : OnionAddr) : result E bytes :=
  if utf8_valid (domain a) then Ok (domain a ++ ONION_TLD) else Panic.

(** [port.to_string()] and [s.parse::<u16>()] *)
Fixpoint dec_digits (fuel : nat) (n : Z) (acc : bytes) : bytes :=
  match fuel with
  | O => acc
  | S fuel => let acc := (48 + n mod 10) :: acc in if n <? 10 then acc else dec_digits fuel (n / 10) acc
  end.
Definition u16_to_string (n : Z) : bytes := dec_digits 5 n [].

Fixpoint parse_digits (acc : Z) (s : bytes) : option Z :=
  match s with
  | [] => Some acc
  | c :: s =>
      if between 48 c 57 then
        let acc := acc * 10 + (c - 48) in if acc <? 2 ^ 16 then parse_digits acc s else None
      else None
  end.
Definition parse_u16 (s : bytes) : option Z :=
  match s with
  | [] => None
  | c :: rest => if c =? 43 then (if bool_decide (rest = []) then None else parse_digits 0 rest) else parse_digits 0 s
  end.

Definition onion_to_string {E} (a : OnionAddr) : result E bytes :=
  if utf8_valid (domain a) then Ok (domain a ++ ONION_TLD ++ [58] ++ u16_to_string (onion_port a)) else Panic.

Definition onion_from_str (s : bytes) : result OnionAddrParsingError OnionAddr :=
  '(addr, port) ← ok_or (split_at_checked s 62) (InvalidLength (len s));
  port ← ok_or (match port with c :: rest => if c =? 58 then parse_u16 rest else None | [] => None end) InvalidPort;
  domain ← check_addr addr;
  Ok (mk_onion domain port).

(** ** Addresses of any zone *)
Inductive NetworkAddress := Clear (a : SocketAddr) | Tor (a : OnionAddr).
Inductive NetZone := ZonePublic | ZoneTor | ZoneI2p.
Inductive NetworkAddressIncorrectZone := IncorrectZone.

Definition get_zone (a : NetworkAddress) : NetZone := match a with Clear _ => ZonePublic | Tor _ => ZoneTor end.
Definition network_port (a : NetworkAddress) : Z := match a with Clear a => socket_port a | Tor a => onion_port a end.

Definition socket_try_from (a : NetworkAddress) : result NetworkAddressIncorrectZone SocketAddr :=
  match a with Clear a => Ok a | Tor _ => Err IncorrectZone end.
Definition onion_try_from (a : NetworkAddress) : result NetworkAddressIncorrectZone OnionAddr :=
  match a with Tor a => Ok a | Clear _ => Err IncorrectZone end.

(** ** The trait [NetZoneAddress], with the constants of its zone *)
Class NetZoneAddress (Addr BanID : Type) := {
  set_port : Addr -> Z -> Addr;
  make_canonical : Addr -> Addr;
  ban_id : Addr -> BanID;
  should_add_to_peer_list : Addr -> bool;
  to_network : Addr -> NetworkAddress;
  try_from_network : NetworkAddress -> result NetworkAddressIncorrectZone Addr;
  CHECK_NODE_ID : bool;
  BROADCAST_OWN_ADDR : bool;
}.

(** What the trait's documentation promises: the ban id names the host, so it does not
    depend on the port; the canonical form is one. *)
Class NetZoneAddressLaws {Addr BanID} (A : NetZoneAddress Addr BanID) : Prop := {
  ban_id_set_port a p : ban_id (set_port a p) = ban_id a;
  make_canonical_idem a : make_canonical (make_canonical a) = make_canonical a;
  network_roundtrip a : try_from_network (to_network a) = Ok a;
  try_from_network_total a : try_from_network a <> Panic;
}.

#[export] Instance ClearNet : NetZoneAddress SocketAddr IpAddr := {|
  set_port := socket_set_port;
  make_canonical a := socket_set_ip a (to_canonical (socket_ip a));
  ban_id := socket_ip;
  should_add_to_peer_list _ := true;
  to_network := Clear;
  try_from_network := socket_try_from;
  CHECK_NODE_ID := true;
  BROADCAST_OWN_ADDR := false;
|}.

#[export] Instance TorZone : NetZoneAddress OnionAddr bytes := {|
  set_port a p := mk_onion (domain a) p;
  make_canonical a := a;
  ban_id := domain;
  should_add_to_peer_list _ := true;
  to_network := Tor;
  try_from_network := onion_try_from;
  CHECK_NODE_ID := false;
  BROADCAST_OWN_ADDR := true;
|}.

#[export] Instance ClearNet_laws : NetZoneAddressLaws ClearNet.
Proof.
  split; [by intros []| |done|by intros []]. intros [ip p|ip p f s]; cbn; [done|].
  destruct (_ =? _) eqn:E; cbn; [done|]. by rewrite E.
Qed.
#[export] Instance TorZone_laws : NetZoneAddressLaws TorZone.
Proof. split; [done..| |by intros []]. by intros []. Qed.

(** ** The form on the wire ([epee_builder.rs]) *)
Inductive AddressType := AT_Invalid | AT_Ipv4 | AT_Ipv6 | AT_I2p | AT_Tor.

Record AllFieldsNetworkAddress := mk_all_fields {
  m_ip : option Z;
  m_port : option Z;
  af_addr : option bytes;
  host : option bytes;
  af_port : option Z;
}.
Record TaggedNetworkAddress := mk_tagged { ty : option AddressType; addr : option AllFieldsNetworkAddress }.

(** The octets of an address are in network order. *)
Definition be_octets (n : nat) (ip : Z) : bytes := reverse (le_split n ip).
Definition from_be_octets (bs : bytes) : Z := le_combine (reverse bs).

Definition tagged_from {E} (a : NetworkAddress) : result E TaggedNetworkAddress :=
  match a with
  | Clear (SocketV4 ip port) =>
      Ok (mk_tagged (Some AT_Ipv4) (Some (mk_all_fields (Some (le_combine (be_octets 4 ip))) (Some port) None None None)))
  | Clear (SocketV6 ip port _ _) =>
      Ok (mk_tagged (Some AT_Ipv6) (Some (mk_all_fields None (Some port) (Some (be_octets 16 ip)) None None)))
  | Tor onion =>
      host ← addr_string onion;
      Ok (mk_tagged (Some AT_Tor) (Some (mk_all_fields None None None (Some host) (Some (onion_port onion)))))
  end.

Definition try_into_network_address (f : AllFieldsNetworkAddress) (ty : AddressType) : option NetworkAddress :=
  match ty with
  | AT_Ipv4 => ip ← m_ip f; port ← m_port f; Some (Clear (SocketV4 (from_be_octets (le_split 4 ip)) port))
  | AT_Ipv6 => ip ← af_addr f; port ← m_port f; Some (Clear (SocketV6 (from_be_octets ip) port 0 0))
  | AT_Tor =>
      host ← host f; port ← af_port f;
      match onion_new host port with Ok a => Some (Tor a) | _ => None end
  | AT_Invalid | AT_I2p => None
  end.

Definition network_try_from (t : TaggedNetworkAddress) : option NetworkAddress :=
  f ← addr t; ty ← ty t; try_into_network_address f ty.

(** ** Facts *)

(** What the constructors of the addresses guarantee. *)
Definition onion_wf (a : OnionAddr) : Prop :=
  length (domain a) = 56%nat /\ forallb is_base32 (domain a) = true /\ is_u 16 (onion_port a).
Definition socket_wf (a : SocketAddr) : Prop :=
  match a with
  | SocketV4 ip p => is_u 32 ip /\ is_u 16 p
  | SocketV6 ip p f s => is_u 128 ip /\ is_u 16 p /\ is_u 32 f /\ is_u 32 s
  end.
Definition network_wf (a : NetworkAddress) : Prop := match a with Clear a => socket_wf a | Tor a => onion_wf a end.

(** What the wire form keeps: flow information and scope of IPv6 are dropped. *)
Definition on_wire (a : NetworkAddress) : NetworkAddress :=
  match a with Clear (SocketV6 ip p _ _) => Clear (SocketV6 ip p 0 0) | _ => a end.

Lemma base32_ascii d : forallb is_base32 d = true -> utf8_valid d = true.
Proof.
  induction d as [|c d IH]; cbn; [done|]. rewrite andb_true_iff. intros [Hc Hd].
  unfold is_base32, between in Hc. destruct (c <? 0x80) eqn:E; [auto|]. bsimp; lia.
Qed.

Lemma split_at_app s t n :
  length s = n -> (forall c t', t = c :: t' -> utf8_cont c = false) -> split_at_checked (s ++ t) n = Some (s, t).
Proof.
  intros <- Ht. unfold split_at_checked. rewrite length_app, (proj2 (Nat.ltb_ge _ _)) by lia.
  rewrite drop_app_length, take_app_length. destruct t as [|c t]; [done|]. by rewrite (Ht c t).
Qed.

Lemma check_addr_complete d : length d = 56%nat -> forallb is_base32 d = true -> check_addr (d ++ ONION_TLD) = Ok d.
Proof.
  intros Hl Hb. unfold check_addr. unfold len. rewrite length_app, Hl. cbn [length ONION_TLD].
  change (Z.of_nat (56 + 6) =? 62) with true. cbn [negb].
  rewrite (split_at_app d ONION_TLD 56 Hl) by (intros c t' [= <- _]; done).
  rewrite bool_decide_eq_true_2, Hb by done. cbn [negb]. by rewrite <- Hl, take_app_length.
Qed.

Lemma split_at_checked_Some s n a b : split_at_checked s n = Some (a, b) -> (n <= length s)%nat /\ a = take n s /\ b = drop n s.
Proof.
  unfold split_at_checked. destruct (_ <? _)%nat eqn:E; [done|]. apply Nat.ltb_ge in E.
  destruct (drop n s) as [|c t] eqn:Hd; [by intros [= <- <-]|]. destruct (utf8_cont c); [done|]. by intros [= <- <-].
Qed.

Lemma check_addr_sound s d : check_addr s = Ok d -> length d = 56%nat /\ forallb is_base32 d = true /\ s = d ++ ONION_TLD.
Proof.
  unfold check_addr. destruct (negb _) eqn:E; [done|]. bsimp. unfold len in *.
  destruct (split_at_checked s 56) as [[a b]|] eqn:Hs; [|destruct (s !! 56%nat); done].
  apply split_at_checked_Some in Hs as (_ & -> & ->).
  destruct (bool_decide _) eqn:Ht; [|done]. apply bool_decide_eq_true in Ht. cbn [negb].
  destruct (forallb _ _) eqn:Hb; [|done]. cbn [negb]. intros [= <-].
  rewrite length_take, Nat.min_l by lia. split_and!; [done..|]. by rewrite <- Ht, take_drop.
Qed.

Lemma check_addr_no_panic s : check_addr s <> Panic.
Proof.
  unfold check_addr. destruct (negb _) eqn:E; [done|]. bsimp. unfold len in *.
  destruct (split_at_checked s 56) as [[a b]|]; [by split_if|].
  destruct (s !! 56%nat) eqn:Hl; [done|]. apply lookup_ge_None in Hl. lia.
Qed.

(** Writing the digits of a number in front of [acc] and reading them. *)
Lemma parse_dec_digits fuel n acc :
  0 <= n < 2 ^ 16 -> n < 10 ^ Z.of_nat fuel ->
  parse_digits 0 (dec_digits fuel n acc) = parse_digits n acc /\
  (fuel <> 0%nat -> exists c rest, dec_digits fuel n acc = c :: rest /\ c <> 43).
Proof.
  revert n acc. induction fuel as [|fuel IH]; intros n acc Hn Hf.
  { assert (n = 0) as -> by (revert Hf; cbn; lia). done. }
  rewrite Nat2Z.inj_succ, Z.pow_succ_r in Hf by lia. cbn [dec_digits].
  assert (Hd : 0 <= n mod 10 < 10) by dlia.
  assert (Hstep : forall a, 0 <= a -> a * 10 + n mod 10 = n -> parse_digits a ((48 + n mod 10) :: acc) = parse_digits n acc).
  { intros a Ha Hs. cbn [parse_digits]. unfold between.
    rewrite !(proj2 (Z.leb_le _ _)) by lia. cbn [andb]. replace (a * 10 + (48 + n mod 10 - 48)) with n by lia.
    by rewrite (proj2 (Z.ltb_lt _ _)) by apply Hn. }
  destruct (n <? 10) eqn:E; bsimp.
  - rewrite Hstep by dlia. split; [done|]. intros _. eexists _, _. split; [done|]. lia.
  - destruct (IH (n / 10) ((48 + n mod 10) :: acc)) as [Hp Hne]; [revert Hn; zpow; dlia|dlia|].
    rewrite Hp. rewrite Hstep by dlia. split; [done|]. intros _. apply Hne. intros ->. revert Hf. cbn. lia.
Qed.

Lemma port_string_roundtrip p : is_u 16 p -> parse_u16 (u16_to_string p) = Some p.
Proof.
  intros Hp. unfold is_u in Hp. destruct (parse_dec_digits 5 p [] Hp) as [Hd Hne]; [revert Hp; cbn; lia|].
  unfold parse_u16, u16_to_string. destruct Hne as (c & rest & Heq & Hc); [done|]. rewrite Heq in *.
  rewrite (proj2 (Z.eqb_neq _ _)) by done. by rewrite Hd.
Qed.

Lemma octets_roundtrip n ip : is_u (8 * Z.of_nat n) ip -> from_be_octets (be_octets n ip) = ip.
Proof. intros H. unfold from_be_octets, be_octets. rewrite reverse_involutive, le_combine_split. by apply Z.mod_small. Qed.

Lemma octets_le_roundtrip n ip : le_split n (le_combine (be_octets n ip)) = be_octets n ip.
Proof.
  assert (length (be_octets n ip) = n) as Hl by (unfold be_octets; rewrite length_reverse; apply length_le_split).
  rewrite <- Hl at 1. apply le_split_combine. apply Forall_reverse, le_split_bytes.
Qed.

(** Addresses survive the way over the wire, up to what it drops; reading never panics and
    yields only addresses the type allows. *)
Theorem network_address_roundtrip a :
  network_wf a -> exists t, tagged_from (E := OnionAddrParsingError) a = Ok t /\ network_try_from t = Some (on_wire a).
Proof.
  destruct a as [[ip p|ip p f s]|o]; cbn [network_wf socket_wf]; intros H.
  - destruct H as [Hip _]. eexists. split; [done|].
    cbn [network_try_from addr ty mbind option_bind try_into_network_address m_ip m_port on_wire].
    rewrite octets_le_roundtrip, octets_roundtrip by done. done.
  - destruct H as [Hip _]. eexists. split; [done|].
    cbn [network_try_from addr ty mbind option_bind try_into_network_address af_addr m_port on_wire]. by rewrite octets_roundtrip.
  - destruct H as (Hl & Hb & _). eexists. split.
    { cbn. unfold addr_string. by rewrite base32_ascii. }
    cbn. unfold onion_new. rewrite check_addr_complete by done. cbn. by destruct o.
Qed.

(** The text form of an onion address is read back, and what is read is well formed. *)
Theorem onion_text_roundtrip a s :
  (onion_wf a -> onion_to_string (E := OnionAddrParsingError) a ≫= onion_from_str = Ok a) /\
  onion_from_str s <> Panic /\
  (forall b, onion_from_str s = Ok b -> length (domain b) = 56%nat /\ forallb is_base32 (domain b) = true).
Proof.
  split_and!.
  - intros (Hl & Hb & Hp). unfold onion_to_string. rewrite base32_ascii by done. cbn [mbind result_bind].
    rewrite app_assoc. unfold onion_from_str.
    rewrite (split_at_app (domain a ++ ONION_TLD)) by (try (rewrite length_app, Hl; done); by intros ? ? [= <- _]).
    cbn [ok_or mbind result_bind app]. change (58 =? 58) with true. cbn match.
    rewrite port_string_roundtrip by done. cbn [ok_or mbind result_bind]. rewrite check_addr_complete by done. by destruct a.
  - unfold onion_from_str. destruct (split_at_checked s 62) as [[a' p]|]; [|done]. cbn [ok_or mbind result_bind].
    destruct (match p with [] => _ | _ => _ end); [|done]. cbn [ok_or mbind result_bind].
    destruct (check_addr a') eqn:E; [done..|]. by apply check_addr_no_panic in E.
  - intros b H. unfold onion_from_str in H. inv_ok. destruct v. inv_ok. subst. apply check_addr_sound in Hok1. cbn. tauto.
Qed.

Definition onion_example : OnionAddr := mk_onion (repeat 97 56) 18083.

Lemma network_address_roundtrip_witness :
  network_wf (Tor onion_example) /\
  exists t, tagged_from (E := OnionAddrParsingError) (Tor onion_example) = Ok t /\ network_try_from t = Some (Tor onion_example).
Proof.
  assert (H : network_wf (Tor onion_example)) by (split_and!; [done|done|unfold is_u; cbn; lia]).
  split; [done|]. exact (network_address_roundtrip (Tor onion_example) H).
Defined.

Lemma onion_text_roundtrip_witness :
  onion_to_string (E := OnionAddrParsingError) onion_example ≫= onion_from_str = Ok onion_example.
Proof. apply (onion_text_roundtrip onion_example []). split_and!; [done|done|unfold is_u; cbn; lia]. Defined.

End NetAddress.
