(* ===== verification/WireMessages.v ===== *)
(** * P2P messages ([src/net/wire/src/p2p.rs], [p2p/admin.rs], [p2p/common.rs], [p2p/protocol.rs],
    [network_address/epee_builder.rs], [src/types/types/src/block_complete_entry.rs])

    Every message of the network as a record, how it is encoded (what [epee_object!] makes
    of it), the commands, and the dispatch between messages and Levin buckets. *)
From S2P Require Import Prelude Bytes EpeeValue EpeeObject EpeeStruct FixedBytes Levin NetAddress.
From Stdlib Require Import ZArith Lia String.
From stdpp Require Import base tactics option list numbers sets.
Import Epee EpeeObj EpeeStruct FixedBytes NetAddress.

#[local] Open Scope Z_scope.

Module Wire.

(** ** Blocks with their transactions *)
Record PrunedTxBlobEntry := mk_pruned_blob { blob : bytes; prunable_hash : bytes }.

Definition PrunedTxBlobEntry_object : EpeeObject PrunedTxBlobEntry :=
  struct_object [field_req "blob" epee_bytes; field_req "prunable_hash" (epee_ByteArray 32)]
    (fun v => (blob v, (prunable_hash v, ()))) (fun '(b, (h, _)) => mk_pruned_blob b h).

Inductive TransactionBlobs := PrunedBlobs (txs : list PrunedTxBlobEntry) | NormalBlobs (txs : list bytes) | NoBlobs.

#[export] Instance PrunedTxBlobEntry_eq_dec : EqDecision PrunedTxBlobEntry.
Proof. solve_decision. Defined.
#[export] Instance TransactionBlobs_eq_dec : EqDecision TransactionBlobs.
Proof. solve_decision. Defined.

Definition take_pruned (b : TransactionBlobs) : option (list PrunedTxBlobEntry) :=
  match b with PrunedBlobs txs => Some txs | NormalBlobs _ => None | NoBlobs => Some [] end.
Definition take_normal (b : TransactionBlobs) : option (list bytes) :=
  match b with PrunedBlobs _ => None | NormalBlobs txs => Some txs | NoBlobs => Some [] end.
Definition blobs_len (b : TransactionBlobs) : Z :=
  match b with PrunedBlobs txs => len txs | NormalBlobs txs => len txs | NoBlobs => 0 end.
Definition blobs_is_empty (b : TransactionBlobs) : bool := blobs_len b =? 0.

Definition pruned_blobs_value : EpeeValue (list PrunedTxBlobEntry) := epee_vec (epee_object_value PrunedTxBlobEntry_object).
Definition normal_blobs_value : EpeeValue (list bytes) := epee_vec epee_bytes.

Definition tx_blob_read (b : bytes) : Result (TransactionBlobs * bytes) :=
  '(marker, b) ← read_marker b;
  match inner_marker marker with
  | Object => '(l, b) ← read pruned_blobs_value b marker; Ok (PrunedBlobs l, b)
  | String_ => '(l, b) ← read normal_blobs_value b marker; Ok (NormalBlobs l, b)
  | _ => Err (Value "Invalid marker for tx blobs")
  end.

Definition should_write_tx_blobs (b : TransactionBlobs) : bool := negb (blobs_is_empty b).

Definition tx_blob_write (b : TransactionBlobs) (field_name : bytes) (w : Writer) : Result Writer :=
  if should_write_tx_blobs b then
    match b with
    | NormalBlobs txs => write_field normal_blobs_value txs field_name w
    | PrunedBlobs txs => write_field pruned_blobs_value txs field_name w
    | NoBlobs => Ok w
    end
  else Ok w.

Record BlockCompleteEntry := mk_complete_entry { pruned : bool; block : bytes; block_weight : Z; txs : TransactionBlobs }.

Definition block_entry_fields : list Field :=
  [field_or "pruned" epee_bool false; field_req "block" epee_bytes; field_or "block_weight" epee_u64 0].
Definition BlockCompleteEntry_object : EpeeObject BlockCompleteEntry :=
  map_object
    (flatten_object (fields_object block_entry_fields)
       (custom_field "txs" tx_blob_read tx_blob_write should_write_tx_blobs NoBlobs))
    (fun v => ((pruned v, (block v, (block_weight v, ()))), txs v))
    (fun '((p, (b, (w, _))), t) => mk_complete_entry p b w t).

(** ** Addresses *)
Definition address_type_to_u8 (t : AddressType) : Z :=
  match t with AT_Invalid => 0 | AT_Ipv4 => 1 | AT_Ipv6 => 2 | AT_I2p => 3 | AT_Tor => 4 end.
Definition address_type_from_u8 (u : Z) : option AddressType :=
  match u with 0 => Some AT_Invalid | 1 => Some AT_Ipv4 | 2 => Some AT_Ipv6 | 3 => Some AT_I2p | 4 => Some AT_Tor | _ => None end.

Definition epee_AddressType : EpeeValue AddressType := {|
  MARKER := MARKER epee_u8;
  read r marker :=
    '(u, r) ← read epee_u8 r marker;
    t ← ok_or (address_type_from_u8 u) (Format "u8 was greater than 4");
    Ok (t, r);
  should_write _ := true;
  epee_default_value := None;
  write t w := write epee_u8 (address_type_to_u8 t) w;
|}.

Definition AllFieldsNetworkAddress_object : EpeeObject AllFieldsNetworkAddress :=
  struct_object
    [field_req "m_ip" (epee_option epee_u32); field_req "m_port" (epee_option epee_u16); field_req "addr" (epee_option (epee_byte_array 16));
     field_req "host" (epee_option epee_string); field_req "port" (epee_option epee_u16)]
    (fun v => (m_ip v, (m_port v, (af_addr v, (host v, (af_port v, ()))))))
    (fun '(i, (p, (a, (h, (q, _))))) => mk_all_fields i p a h q).

Definition TaggedNetworkAddress_object : EpeeObject TaggedNetworkAddress :=
  struct_object [field_req "type" (epee_option epee_AddressType); field_req "addr" (epee_option (epee_object_value AllFieldsNetworkAddress_object))]
    (fun v => (ty v, (addr v, ()))) (fun '(t, (a, _)) => mk_tagged t a).

(** [EpeeObjectBuilder<NetworkAddress> for TaggedNetworkAddress] *)
Definition tagged_add_field (b : TaggedNetworkAddress) (name : bytes) (r : bytes) : Result (bool * TaggedNetworkAddress * bytes) :=
  if bool_decide (name = str_bytes "type") then
    '(t, r) ← read_epee_value epee_AddressType r;
    match ty b with
    | Some _ => Err (Format "Duplicate field in data.")
    | None => Ok (true, mk_tagged (Some t) (addr b), r)
    end
  else if bool_decide (name = str_bytes "addr") then
    '(a, r) ← read_epee_value (epee_option (epee_object_value AllFieldsNetworkAddress_object)) r;
    match addr b with
    | Some _ => Err (Format "Duplicate field in data.")
    | None => Ok (true, mk_tagged (ty b) a, r)
    end
  else Ok (false, b, r).

Definition NetworkAddress_object : EpeeObject NetworkAddress := {|
  Builder := TaggedNetworkAddress;
  builder_default := mk_tagged None None;
  add_field := tagged_add_field;
  finish b := ok_or (network_try_from b) (Value "Invalid network address");
  number_of_fields _ := 2;
  write_fields v w := t ← tagged_from v; write_fields TaggedNetworkAddress_object t w;
|}.

(** ** Common parts *)
Record BasicNodeData := mk_node_data {
  my_port : Z; network_id : bytes; peer_id : Z; support_flags : Z; node_rpc_port : Z; node_rpc_credits_per_hash : Z;
}.
Definition BasicNodeData_object : EpeeObject BasicNodeData :=
  struct_object EpeeObj.BasicNodeData
    (fun v => (my_port v, (network_id v, (peer_id v, (support_flags v, (node_rpc_port v, (node_rpc_credits_per_hash v, ())))))))
    (fun '(p, (n, (i, (f, (r, (c, _)))))) => mk_node_data p n i f r c).

Record CoreSyncData := mk_sync_data {
  cumulative_difficulty_low : Z; cumulative_difficulty_top : Z; current_height : Z; pruning_seed_u32 : Z; top_id : bytes; top_version : Z;
}.
Definition CoreSyncData_object : EpeeObject CoreSyncData :=
  struct_object EpeeObj.CoreSyncData
    (fun v => (cumulative_difficulty_low v, (cumulative_difficulty_top v, (current_height v, (pruning_seed_u32 v, (top_id v, (top_version v, ())))))))
    (fun '(l, (t, (h, (s, (i, (v, _)))))) => mk_sync_data l t h s i v).

Definition new_sync_data (cumulative_difficulty_128 current_height pruning_seed : Z) (top_id : bytes) (top_version : Z) : CoreSyncData :=
  mk_sync_data (wrap 64 cumulative_difficulty_128) (wrap 64 (Z.shiftr cumulative_difficulty_128 64)) current_height pruning_seed top_id top_version.
Definition sync_cumulative_difficulty (d : CoreSyncData) : Z :=
  Z.lor (shl 128 (cumulative_difficulty_top d) 64) (cumulative_difficulty_low d).

Record PeerListEntryBase := mk_peer_base {
  pb_adr : NetworkAddress; pb_id : Z; pb_last_seen : Z; pb_pruning_seed : Z; pb_rpc_port : Z; pb_rpc_credits_per_hash : Z;
}.
Definition PeerListEntryBase_object : EpeeObject PeerListEntryBase :=
  struct_object
    [field_req "adr" (epee_object_value NetworkAddress_object); field_req "id" epee_u64; field_or "last_seen" epee_i64 0;
     field_or "pruning_seed" epee_u32 0; field_or "rpc_port" epee_u16 0; field_or "rpc_credits_per_hash" epee_u32 0]
    (fun v => (pb_adr v, (pb_id v, (pb_last_seen v, (pb_pruning_seed v, (pb_rpc_port v, (pb_rpc_credits_per_hash v, ())))))))
    (fun '(a, (i, (l, (s, (r, (c, _)))))) => mk_peer_base a i l s r c).

(** ** Admin messages *)
Record HandshakeRequest := mk_handshake_request { hq_node_data : BasicNodeData; hq_payload_data : CoreSyncData }.
Record HandshakeResponse := mk_handshake_response {
  hr_node_data : BasicNodeData; hr_payload_data : CoreSyncData; hr_local_peerlist_new : list PeerListEntryBase;
}.
Record TimedSyncRequest := mk_timed_sync_request { tq_payload_data : CoreSyncData }.
Record TimedSyncResponse := mk_timed_sync_response { tr_payload_data : CoreSyncData; tr_local_peerlist_new : list PeerListEntryBase }.
Definition PING_OK_RESPONSE_STATUS_TEXT : bytes := [79; 75].
Record PingResponse := mk_ping_response { status : bytes; ping_peer_id : Z }.
Record SupportFlagsResponse := mk_support_flags_response { response_support_flags : Z }.

Definition node_data_value := epee_object_value BasicNodeData_object.
Definition sync_data_value := epee_object_value CoreSyncData_object.
Definition peer_list_value := epee_vec (epee_object_value PeerListEntryBase_object).

Definition HandshakeRequest_object : EpeeObject HandshakeRequest :=
  struct_object [field_req "node_data" node_data_value; field_req "payload_data" sync_data_value]
    (fun v => (hq_node_data v, (hq_payload_data v, ()))) (fun '(n, (p, _)) => mk_handshake_request n p).
Definition HandshakeResponse_object : EpeeObject HandshakeResponse :=
  struct_object [field_req "node_data" node_data_value; field_req "payload_data" sync_data_value; field_req "local_peerlist_new" peer_list_value]
    (fun v => (hr_node_data v, (hr_payload_data v, (hr_local_peerlist_new v, ())))) (fun '(n, (p, (l, _))) => mk_handshake_response n p l).
Definition TimedSyncRequest_object : EpeeObject TimedSyncRequest :=
  struct_object [field_req "payload_data" sync_data_value] (fun v => (tq_payload_data v, ())) (fun '(p, _) => mk_timed_sync_request p).
Definition TimedSyncResponse_object : EpeeObject TimedSyncResponse :=
  struct_object [field_req "payload_data" sync_data_value; field_req "local_peerlist_new" peer_list_value]
    (fun v => (tr_payload_data v, (tr_local_peerlist_new v, ()))) (fun '(p, (l, _)) => mk_timed_sync_response p l).
Definition PingResponse_object : EpeeObject PingResponse :=
  struct_object [field_req "status" epee_bytes; field_req "peer_id" epee_u64] (fun v => (status v, (ping_peer_id v, ()))) (fun '(s, (i, _)) => mk_ping_response s i).
Definition SupportFlagsResponse_object : EpeeObject SupportFlagsResponse :=
  struct_object [field_req "support_flags" epee_u32] (fun v => (response_support_flags v, ())) (fun '(f, _) => mk_support_flags_response f).
Definition EmptyMessage_object : EpeeObject () := struct_object [] (fun _ => ()) (fun _ => ()).

(** ** Protocol messages *)
Record NewBlock := mk_new_block { nb_b : BlockCompleteEntry; nb_current_blockchain_height : Z }.
Record NewTransactions := mk_new_transactions { nt_txs : list bytes; dandelionpp_fluff : bool; padding : bytes }.
Record GetObjectsRequest := mk_get_objects_request { gq_blocks : bytes; gq_pruned : bool }.
Record GetObjectsResponse := mk_get_objects_response { gr_blocks : list BlockCompleteEntry; missed_ids : bytes; gr_current_blockchain_height : Z }.
Record ChainRequest := mk_chain_request { block_ids : bytes; prune : bool }.
Record ChainResponse := mk_wire_chain_response {
  start_height : Z; total_height : Z; cumulative_difficulty_low64 : Z; cumulative_difficulty_top64 : Z;
  m_block_ids : bytes; m_block_weights : list Z; first_block : bytes;
}.
Record NewFluffyBlock := mk_new_fluffy_block { nf_b : BlockCompleteEntry; nf_current_blockchain_height : Z }.
Record FluffyMissingTransactionsRequest := mk_missing_txs_request { block_hash : bytes; fm_current_blockchain_height : Z; missing_tx_indices : list Z }.
Record GetTxPoolCompliment := mk_pool_compliment { hashes : bytes }.

Definition block_entry_value := epee_object_value BlockCompleteEntry_object.

Definition NewBlock_object : EpeeObject NewBlock :=
  struct_object [field_req "b" block_entry_value; field_req "current_blockchain_height" epee_u64]
    (fun v => (nb_b v, (nb_current_blockchain_height v, ()))) (fun '(b, (h, _)) => mk_new_block b h).
Definition NewTransactions_object : EpeeObject NewTransactions :=
  struct_object [field_req "txs" (epee_vec epee_bytes); field_or "dandelionpp_fluff" epee_bool true; field_req "_" epee_bytes]
    (fun v => (nt_txs v, (dandelionpp_fluff v, (padding v, ())))) (fun '(t, (f, (p, _))) => mk_new_transactions t f p).
Definition GetObjectsRequest_object : EpeeObject GetObjectsRequest :=
  struct_object [field_req "blocks" (epee_ByteArrayVec 32); field_or "pruned" epee_bool false]
    (fun v => (gq_blocks v, (gq_pruned v, ()))) (fun '(b, (p, _)) => mk_get_objects_request b p).
Definition GetObjectsResponse_object : EpeeObject GetObjectsResponse :=
  struct_object [field_req "blocks" (epee_vec block_entry_value); field_req "missed_ids" (epee_ByteArrayVec 32); field_req "current_blockchain_height" epee_u64]
    (fun v => (gr_blocks v, (missed_ids v, (gr_current_blockchain_height v, ())))) (fun '(b, (m, (h, _))) => mk_get_objects_response b m h).
Definition ChainRequest_object : EpeeObject ChainRequest :=
  struct_object [field_req "block_ids" (epee_ByteArrayVec 32); field_or "prune" epee_bool false]
    (fun v => (block_ids v, (prune v, ()))) (fun '(b, (p, _)) => mk_chain_request b p).
Definition ChainResponse_object : EpeeObject ChainResponse :=
  struct_object
    [field_req "start_height" epee_u64; field_req "total_height" epee_u64; field_req "cumulative_difficulty" epee_u64;
     field_or "cumulative_difficulty_top64" epee_u64 0; field_req "m_block_ids" (epee_ByteArrayVec 32); field_req "m_block_weights" (epee_blob 8);
     field_req "first_block" epee_bytes]
    (fun v => (start_height v, (total_height v, (cumulative_difficulty_low64 v, (cumulative_difficulty_top64 v,
       (m_block_ids v, (m_block_weights v, (first_block v, ()))))))))
    (fun '(s, (t, (l, (h, (i, (w, (f, _))))))) => mk_wire_chain_response s t l h i w f).
Definition NewFluffyBlock_object : EpeeObject NewFluffyBlock :=
  struct_object [field_req "b" block_entry_value; field_req "current_blockchain_height" epee_u64]
    (fun v => (nf_b v, (nf_current_blockchain_height v, ()))) (fun '(b, (h, _)) => mk_new_fluffy_block b h).
Definition FluffyMissingTransactionsRequest_object : EpeeObject FluffyMissingTransactionsRequest :=
  struct_object [field_req "block_hash" (epee_ByteArray 32); field_req "current_blockchain_height" epee_u64; field_req "missing_tx_indices" (epee_blob 8)]
    (fun v => (block_hash v, (fm_current_blockchain_height v, (missing_tx_indices v, ())))) (fun '(b, (h, (i, _))) => mk_missing_txs_request b h i).
Definition GetTxPoolCompliment_object : EpeeObject GetTxPoolCompliment :=
  struct_object [field_req "hashes" (epee_ByteArrayVec 32)] (fun v => (hashes v, ())) (fun '(h, _) => mk_pool_compliment h).

(** ** Commands *)
Inductive LevinCommand :=
  | C_Handshake | C_TimedSync | C_Ping | C_SupportFlags
  | C_NewBlock | C_NewTransactions | C_GetObjectsRequest | C_GetObjectsResponse | C_ChainRequest | C_ChainResponse
  | C_NewFluffyBlock | C_FluffyMissingTxsRequest | C_GetTxPoolCompliment
  | C_Unknown (id : Z).

Definition command_from_u32 (value : Z) : LevinCommand :=
  match value with
  | 1001 => C_Handshake | 1002 => C_TimedSync | 1003 => C_Ping | 1007 => C_SupportFlags
  | 2001 => C_NewBlock | 2002 => C_NewTransactions | 2003 => C_GetObjectsRequest | 2004 => C_GetObjectsResponse
  | 2006 => C_ChainRequest | 2007 => C_ChainResponse | 2008 => C_NewFluffyBlock | 2009 => C_FluffyMissingTxsRequest | 2010 => C_GetTxPoolCompliment
  | x => C_Unknown x
  end.
Definition command_to_u32 (c : LevinCommand) : Z :=
  match c with
  | C_Handshake => 1001 | C_TimedSync => 1002 | C_Ping => 1003 | C_SupportFlags => 1007
  | C_NewBlock => 2001 | C_NewTransactions => 2002 | C_GetObjectsRequest => 2003 | C_GetObjectsResponse => 2004
  | C_ChainRequest => 2006 | C_ChainResponse => 2007 | C_NewFluffyBlock => 2008 | C_FluffyMissingTxsRequest => 2009 | C_GetTxPoolCompliment => 2010
  | C_Unknown x => x
  end.
Definition command_size_limit (c : LevinCommand) : Z :=
  match c with
  | C_Handshake => 65536 | C_TimedSync => 65536 | C_Ping => 4096 | C_SupportFlags => 4096
  | C_NewBlock => 1024 * 1024 * 128 | C_NewTransactions => 1024 * 1024 * 128 | C_GetObjectsRequest => 1024 * 1024 * 2
  | C_GetObjectsResponse => 1024 * 1024 * 128 | C_ChainRequest => 512 * 1024 | C_ChainResponse => 1024 * 1024 * 4
  | C_NewFluffyBlock => 1024 * 1024 * 4 | C_FluffyMissingTxsRequest => 1024 * 1024 | C_GetTxPoolCompliment => 1024 * 1024 * 4
  | C_Unknown _ => u64_MAX
  end.
Definition command_is_handshake (c : LevinCommand) : bool := match c with C_Handshake => true | _ => false end.

#[export] Instance P2PCommands : Levin.LevinCommand LevinCommand := {|
  Levin.from_u32 := command_from_u32;
  Levin.to_u32 := command_to_u32;
  Levin.bucket_size_limit := command_size_limit;
  Levin.is_handshake := command_is_handshake;
|}.

(** ** Messages *)
Inductive ProtocolMessage :=
  | PM_NewBlock (m : NewBlock)
  | PM_NewFluffyBlock (m : NewFluffyBlock)
  | PM_GetObjectsRequest (m : GetObjectsRequest)
  | PM_GetObjectsResponse (m : GetObjectsResponse)
  | PM_ChainRequest (m : ChainRequest)
  | PM_ChainEntryResponse (m : ChainResponse)
  | PM_NewTransactions (m : NewTransactions)
  | PM_FluffyMissingTransactionsRequest (m : FluffyMissingTransactionsRequest)
  | PM_GetTxPoolCompliment (m : GetTxPoolCompliment).
Inductive AdminRequestMessage := RQ_Handshake (m : HandshakeRequest) | RQ_Ping | RQ_SupportFlags | RQ_TimedSync (m : TimedSyncRequest).
Inductive AdminResponseMessage :=
  RS_Handshake (m : HandshakeResponse) | RS_Ping (m : PingResponse) | RS_SupportFlags (m : SupportFlagsResponse) | RS_TimedSync (m : TimedSyncResponse).
Inductive Message := M_Request (m : AdminRequestMessage) | M_Response (m : AdminResponseMessage) | M_Protocol (m : ProtocolMessage).

Definition protocol_command (m : ProtocolMessage) : LevinCommand :=
  match m with
  | PM_NewBlock _ => C_NewBlock
  | PM_NewFluffyBlock _ => C_NewFluffyBlock
  | PM_GetObjectsRequest _ => C_GetObjectsRequest
  | PM_GetObjectsResponse _ => C_GetObjectsResponse
  | PM_ChainRequest _ => C_ChainRequest
  | PM_ChainEntryResponse _ => C_ChainResponse
  | PM_NewTransactions _ => C_NewTransactions
  | PM_FluffyMissingTransactionsRequest _ => C_FluffyMissingTxsRequest
  | PM_GetTxPoolCompliment _ => C_GetTxPoolCompliment
  end.
Definition request_command (m : AdminRequestMessage) : LevinCommand :=
  match m with RQ_Handshake _ => C_Handshake | RQ_Ping => C_Ping | RQ_SupportFlags => C_SupportFlags | RQ_TimedSync _ => C_TimedSync end.
Definition response_command (m : AdminResponseMessage) : LevinCommand :=
  match m with RS_Handshake _ => C_Handshake | RS_Ping _ => C_Ping | RS_SupportFlags _ => C_SupportFlags | RS_TimedSync _ => C_TimedSync end.
Definition message_command (m : Message) : LevinCommand :=
  match m with M_Request m => request_command m | M_Response m => response_command m | M_Protocol m => protocol_command m end.

#[local] Abbreviation BResult := (result Levin.BucketError).

(** What follows the object in the body is ignored. *)
Definition decode_body {T R} (O : EpeeObject T) (ret : T -> R) (buf : bytes) : BResult R :=
  '(t, _) ← map_err Levin.BodyDecodingError (from_bytes O buf); Ok (ret t).

Definition build_message {T} (O : EpeeObject T) (id : LevinCommand) (val : T) (builder : Levin.BucketBuilder LevinCommand) : BResult (Levin.BucketBuilder LevinCommand) :=
  body ← map_err Levin.BodyDecodingError (to_bytes O val); Ok (Levin.set_body body (Levin.set_command id builder)).

Definition protocol_decode (buf : bytes) (command : LevinCommand) : BResult ProtocolMessage :=
  match command with
  | C_NewBlock => decode_body NewBlock_object PM_NewBlock buf
  | C_NewTransactions => decode_body NewTransactions_object PM_NewTransactions buf
  | C_GetObjectsRequest => decode_body GetObjectsRequest_object PM_GetObjectsRequest buf
  | C_GetObjectsResponse => decode_body GetObjectsResponse_object PM_GetObjectsResponse buf
  | C_ChainRequest => decode_body ChainRequest_object PM_ChainRequest buf
  | C_ChainResponse => decode_body ChainResponse_object PM_ChainEntryResponse buf
  | C_NewFluffyBlock => decode_body NewFluffyBlock_object PM_NewFluffyBlock buf
  | C_FluffyMissingTxsRequest => decode_body FluffyMissingTransactionsRequest_object PM_FluffyMissingTransactionsRequest buf
  | C_GetTxPoolCompliment => decode_body GetTxPoolCompliment_object PM_GetTxPoolCompliment buf
  | C_Handshake | C_TimedSync | C_Ping | C_SupportFlags | C_Unknown _ => Err Levin.UnknownCommand
  end.
Definition protocol_build (m : ProtocolMessage) (builder : Levin.BucketBuilder LevinCommand) : BResult (Levin.BucketBuilder LevinCommand) :=
  match m with
  | PM_NewBlock val => build_message NewBlock_object C_NewBlock val builder
  | PM_NewTransactions val => build_message NewTransactions_object C_NewTransactions val builder
  | PM_GetObjectsRequest val => build_message GetObjectsRequest_object C_GetObjectsRequest val builder
  | PM_GetObjectsResponse val => build_message GetObjectsResponse_object C_GetObjectsResponse val builder
  | PM_ChainRequest val => build_message ChainRequest_object C_ChainRequest val builder
  | PM_ChainEntryResponse val => build_message ChainResponse_object C_ChainResponse val builder
  | PM_NewFluffyBlock val => build_message NewFluffyBlock_object C_NewFluffyBlock val builder
  | PM_FluffyMissingTransactionsRequest val => build_message FluffyMissingTransactionsRequest_object C_FluffyMissingTxsRequest val builder
  | PM_GetTxPoolCompliment val => build_message GetTxPoolCompliment_object C_GetTxPoolCompliment val builder
  end.

Definition request_decode (buf : bytes) (command : LevinCommand) : BResult AdminRequestMessage :=
  match command with
  | C_Handshake => decode_body HandshakeRequest_object RQ_Handshake buf
  | C_TimedSync => decode_body TimedSyncRequest_object RQ_TimedSync buf
  | C_Ping => decode_body EmptyMessage_object (fun _ => RQ_Ping) buf
  | C_SupportFlags => decode_body EmptyMessage_object (fun _ => RQ_SupportFlags) buf
  | _ => Err Levin.UnknownCommand
  end.
Definition request_build (m : AdminRequestMessage) (builder : Levin.BucketBuilder LevinCommand) : BResult (Levin.BucketBuilder LevinCommand) :=
  match m with
  | RQ_Handshake val => build_message HandshakeRequest_object C_Handshake val builder
  | RQ_TimedSync val => build_message TimedSyncRequest_object C_TimedSync val builder
  | RQ_Ping => build_message EmptyMessage_object C_Ping () builder
  | RQ_SupportFlags => build_message EmptyMessage_object C_SupportFlags () builder
  end.

Definition response_decode (buf : bytes) (command : LevinCommand) : BResult AdminResponseMessage :=
  match command with
  | C_Handshake => decode_body HandshakeResponse_object RS_Handshake buf
  | C_TimedSync => decode_body TimedSyncResponse_object RS_TimedSync buf
  | C_Ping => decode_body PingResponse_object RS_Ping buf
  | C_SupportFlags => decode_body SupportFlagsResponse_object RS_SupportFlags buf
  | _ => Err Levin.UnknownCommand
  end.
Definition response_build (m : AdminResponseMessage) (builder : Levin.BucketBuilder LevinCommand) : BResult (Levin.BucketBuilder LevinCommand) :=
  match m with
  | RS_Handshake val => build_message HandshakeResponse_object C_Handshake val builder
  | RS_TimedSync val => build_message TimedSyncResponse_object C_TimedSync val builder
  | RS_Ping val => build_message PingResponse_object C_Ping val builder
  | RS_SupportFlags val => build_message SupportFlagsResponse_object C_SupportFlags val builder
  end.

(** [impl LevinBody for Message] *)
Definition message_decode_body (body : bytes) (ty : Levin.MessageType) (command : LevinCommand) : BResult Message :=
  match ty with
  | Levin.Request => M_Request <$> request_decode body command
  | Levin.Response => M_Response <$> response_decode body command
  | Levin.Notification => M_Protocol <$> protocol_decode body command
  end.
Definition message_encode_body (m : Message) (builder : Levin.BucketBuilder LevinCommand) : BResult (Levin.BucketBuilder LevinCommand) :=
  match m with
  | M_Protocol pro => protocol_build pro (Levin.set_return_code 0 (Levin.set_message_type Levin.Notification builder))
  | M_Request req => request_build req (Levin.set_return_code 0 (Levin.set_message_type Levin.Request builder))
  | M_Response res => response_build res (Levin.set_return_code 1 (Levin.set_message_type Levin.Response builder))
  end.
#[export] Instance P2PMessages : Levin.LevinBody LevinCommand Message := {|
  Levin.decode_message := message_decode_body;
  Levin.encode := message_encode_body;
|}.

(** ** What the types of the fields guarantee *)
#[local] Abbreviation small t := (len t <= MAX_STRING_LEN_POSSIBLE).
#[local] Abbreviation few l := (len l < 2 ^ 62).
Definition hash_ok (h : bytes) : Prop := length h = 32%nat.
Definition ids_ok (v : bytes) : Prop := array_vec_wf 32 v /\ small v.
Definition u64s_ok (vs : list Z) : Prop := Forall (is_u 64) vs /\ 8 * len vs <= MAX_STRING_LEN_POSSIBLE.
Definition small_blobs (l : list bytes) : Prop := Forall (fun b => small b) l /\ few l.

Definition pruned_blob_ok (e : PrunedTxBlobEntry) : Prop := small (blob e) /\ hash_ok (prunable_hash e).
(** An empty list is not written: it comes back as [TransactionBlobs::None]. *)
Definition blobs_ok (b : TransactionBlobs) : Prop :=
  match b with
  | PrunedBlobs l => l <> [] /\ Forall pruned_blob_ok l /\ few l
  | NormalBlobs l => l <> [] /\ small_blobs l
  | NoBlobs => True
  end.
Definition block_entry_ok (e : BlockCompleteEntry) : Prop := small (block e) /\ is_u 64 (block_weight e) /\ blobs_ok (txs e).
Definition address_ok (a : NetworkAddress) : Prop := network_wf a /\ on_wire a = a.
Definition node_data_ok (d : BasicNodeData) : Prop :=
  is_u 32 (my_port d) /\ length (network_id d) = 16%nat /\ is_u 64 (peer_id d) /\ is_u 32 (support_flags d) /\ is_u 16 (node_rpc_port d) /\
  is_u 32 (node_rpc_credits_per_hash d).
Definition sync_data_ok (d : CoreSyncData) : Prop :=
  is_u 64 (cumulative_difficulty_low d) /\ is_u 64 (cumulative_difficulty_top d) /\ is_u 64 (current_height d) /\ is_u 32 (pruning_seed_u32 d) /\
  hash_ok (top_id d) /\ is_u 8 (top_version d).
Definition peer_base_ok (e : PeerListEntryBase) : Prop :=
  address_ok (pb_adr e) /\ is_u 64 (pb_id e) /\ fits_signed 8 (pb_last_seen e) /\ is_u 32 (pb_pruning_seed e) /\ is_u 16 (pb_rpc_port e) /\
  is_u 32 (pb_rpc_credits_per_hash e).
Definition peer_list_ok (l : list PeerListEntryBase) : Prop := Forall peer_base_ok l /\ few l.

(** ** Laws *)
#[local] Instance ids_laws : EpeeLaws (epee_ByteArrayVec 32) ids_ok := epee_ByteArrayVec_laws 32 ltac:(lia).
#[local] Instance ids_restored : Restored (epee_ByteArrayVec 32) ids_ok := epee_ByteArrayVec_restored 32 ltac:(lia).
#[local] Instance byte_array_written n : AlwaysWritten (epee_ByteArray n).
Proof. done. Qed.

(** The laws of a struct follow from those of its fields. *)
Ltac struct_laws :=
  eapply weaken_laws;
  [apply map_object_laws; [apply fields_object_laws; [repeat (apply cons_laws || apply nil_laws); typeclasses eauto|vm_compute; reflexivity]|by intros []]|].

Lemma small_32 (h : bytes) : hash_ok h -> length h = 32%nat /\ small h.
Proof. unfold hash_ok, len, MAX_STRING_LEN_POSSIBLE. lia. Qed.

#[export] Instance PrunedTxBlobEntry_laws : ObjectLaws PrunedTxBlobEntry_object pruned_blob_ok.
Proof. unfold PrunedTxBlobEntry_object. struct_laws. intros v [? ?]. cbn. split_and!; [done|by apply small_32..|done]. Defined.

(** Vectors of byte strings and of objects *)
#[local] Instance normal_blobs_laws : EpeeLaws normal_blobs_value small_blobs := epee_vec_laws epee_bytes _ eq_refl ltac:(discriminate).
#[local] Instance object_vec_laws {T} (O : EpeeObject T) valid `{!ObjectLaws O valid} :
  EpeeLaws (epee_vec (epee_object_value O)) (fun l => Forall valid l /\ few l) := epee_vec_laws (epee_object_value O) valid eq_refl ltac:(discriminate).

Definition with_marker {T} (V : EpeeValue T) {valid} `{!EpeeLaws V valid} (v : T) : bytes := le_split 1 (as_u8 (MARKER V)) ++ enc (V := V) v.
Definition blobs_enc (b : TransactionBlobs) : bytes :=
  match b with
  | PrunedBlobs l => with_marker (epee_vec (epee_object_value PrunedTxBlobEntry_object)) l
  | NormalBlobs l => with_marker normal_blobs_value l
  | NoBlobs => []
  end.

Lemma with_marker_read {T} (V : EpeeValue T) valid `{!EpeeLaws V valid} v r : valid v -> read_epee_value V (with_marker V v ++ r) = Ok (v, r).
Proof. intros Hv. by apply law_value_chunk. Qed.

Lemma write_req_field {T} (V : EpeeValue T) valid `{!EpeeLaws V valid} name v w :
  valid v -> should_write V v = true -> len name <= 255 ->
  (len (chunk_bytes (name, with_marker V v)) <= remaining_mut w -> write_field V v name w = Ok (put (chunk_bytes (name, with_marker V v)) w)) /\
  (0 <= remaining_mut w < len (chunk_bytes (name, with_marker V v)) -> exists msg, write_field V v name w = Err (IO msg)).
Proof.
  intros Hv Hs Hn. apply write_named; [done..| |]; [by apply law_value_chunk|]. intros w'. by apply write_value_full.
Qed.

Lemma blobs_written b : blobs_ok b -> negb (bool_decide (b = NoBlobs)) && should_write_tx_blobs b = negb (bool_decide (b = NoBlobs)).
Proof.
  destruct b as [[|x l]|[|x l]|]; cbn [blobs_ok]; intros H; by destruct H.
Qed.

#[export] Instance txs_field_laws : ObjectLaws (custom_field "txs" tx_blob_read tx_blob_write should_write_tx_blobs NoBlobs) blobs_ok.
Proof.
  apply (custom_field_laws "txs" tx_blob_read tx_blob_write should_write_tx_blobs NoBlobs blobs_ok blobs_enc).
  - split; vm_compute; done.
  - intros [l|l|] r Hv Hw; [..|done]; unfold tx_blob_read, blobs_enc, with_marker; rewrite <- app_assoc, read_marker_app.
    + cbn [mbind result_bind]. change (inner_marker _) with Object. cbn iota. unfold pruned_blobs_value.
      rewrite (read_enc (V := epee_vec (epee_object_value PrunedTxBlobEntry_object))) by apply Hv. done.
    + cbn [mbind result_bind]. change (inner_marker _) with String_. cbn iota. rewrite (read_enc (V := normal_blobs_value)) by apply Hv. done.
  - intros b w Hv Hw. rewrite blobs_written in Hw by done. assert (Hs : should_write_tx_blobs b = true) by (by rewrite <- (blobs_written b Hv) in Hw; apply andb_true_iff in Hw as [_ ?]).
    unfold tx_blob_write. rewrite Hs. destruct b as [l|l|]; [..|done]; (apply write_req_field; [apply Hv|exact Hs|vm_compute; done]).
  - intros b w Hv Hw. rewrite blobs_written in Hw by done. assert (Hs : should_write_tx_blobs b = true) by (by rewrite <- (blobs_written b Hv) in Hw; apply andb_true_iff in Hw as [_ ?]).
    unfold tx_blob_write. rewrite Hs. destruct b as [l|l|]; [..|done]; (apply write_req_field; [apply Hv|exact Hs|vm_compute; done]).
  - intros b Hv. rewrite blobs_written by done. intros H%negb_false_iff. by apply bool_decide_eq_true in H.
Defined.

Lemma block_fields_laws : ObjectLaws (fields_object block_entry_fields) (fun vs => small vs.2.1 /\ is_u 64 vs.2.2.1).
Proof.
  eapply weaken_laws; [apply fields_object_laws; [unfold block_entry_fields; repeat (apply cons_laws || apply nil_laws); typeclasses eauto|vm_compute; reflexivity]|].
  by intros [p [b [w []]]] [? ?].
Defined.

#[export] Instance BlockCompleteEntry_laws : ObjectLaws BlockCompleteEntry_object block_entry_ok.
Proof.
  unfold BlockCompleteEntry_object. eapply weaken_laws; [apply map_object_laws; [|by intros []]|].
  - apply (flatten_object_laws _ _ _ _ (ObjectLaws0 := block_fields_laws) (ObjectLaws1 := txs_field_laws)).
    + apply Forall_forall, (bool_decide_unpack _). vm_compute. exact I.
    + vm_compute. done.
  - by intros v (? & ? & ?).
Defined.

(** Addresses *)
Lemma address_type_roundtrip t : address_type_from_u8 (address_type_to_u8 t) = Some t.
Proof. by destruct t. Qed.

#[local] Instance address_type_laws : EpeeLaws epee_AddressType (fun _ => True).
Proof.
  assert (Hu : forall t, is_u (8 * Z.of_nat 1) (address_type_to_u8 t)) by (intros []; vm_compute; intuition discriminate).
  refine {| enc t := enc (V := epee_u8) (address_type_to_u8 t) |}.
  - intros t w _. by apply (write_enc (V := epee_u8)).
  - intros t w _. by apply (write_full (V := epee_u8)).
  - intros t r _. cbn [read epee_AddressType MARKER]. rewrite (read_enc (V := epee_u8)) by apply Hu. cbn [mbind result_bind].
    by rewrite address_type_roundtrip.
Defined.

Definition opt {A} (P : A -> Prop) (o : option A) : Prop := match o with Some a => P a | None => True end.
Definition all_fields_ok (a : AllFieldsNetworkAddress) : Prop :=
  opt (is_u 32) (m_ip a) /\ opt (is_u 16) (m_port a) /\ opt (fun b : bytes => length b = 16%nat) (af_addr a) /\
  opt (fun h => utf8_valid h = true /\ small h /\ h <> []) (host a) /\ opt (is_u 16) (af_port a).

#[local] Instance all_fields_laws : ObjectLaws AllFieldsNetworkAddress_object all_fields_ok.
Proof.
  unfold AllFieldsNetworkAddress_object. struct_laws. intros [i p a h q] (Hi & Hp & Ha & Hh & Hq). cbn in *. split_and!; [| | | | |done].
  - by destruct i.
  - by destruct p.
  - destruct a as [a|]; [|done]. split; [|done]. unfold len, MAX_STRING_LEN_POSSIBLE. cbn in Ha. lia.
  - destruct h as [[|c h]|]; cbn in *; [by destruct Hh as (_ & _ & ?)| |done]. by destruct Hh as (? & ? & _).
  - by destruct q.
Defined.

#[local] Abbreviation all_fields_value := (epee_object_value AllFieldsNetworkAddress_object).

Lemma base32_utf8 d t : forallb is_base32 d = true -> utf8_valid (d ++ t) = utf8_valid t.
Proof.
  induction d as [|c d IH]; [done|]. cbn [forallb app utf8_valid]. rewrite andb_true_iff. intros [Hc Hd].
  unfold is_base32, between in Hc. destruct (c <? 0x80) eqn:E; [auto|]. bsimp; lia.
Qed.

(** The tagged form of an address has both fields. *)
Lemma tagged_from_ok (a : NetworkAddress) :
  address_ok a -> exists t f, tagged_from (E := Error) a = Ok (mk_tagged (Some t) (Some f)) /\ all_fields_ok f /\
    network_try_from (mk_tagged (Some t) (Some f)) = Some a.
Proof.
  intros [Hwf Hw]. destruct a as [[ip p|ip p f s]|o]; cbn [network_wf socket_wf on_wire] in *.
  - destruct Hwf as [Hip Hp]. eexists _, _. split; [done|]. split.
    + assert (length (be_octets 4 ip) = 4%nat) by (unfold be_octets; rewrite length_reverse; apply length_le_split).
      split_and!; cbn; try done. pose proof (le_combine_bound (be_octets 4 ip)) as Hb. rewrite H in Hb. apply Hb.
      apply Forall_reverse, le_split_bytes.
    + cbn [network_try_from addr ty mbind option_bind try_into_network_address m_ip m_port]. by rewrite octets_le_roundtrip, octets_roundtrip.
  - destruct Hwf as (Hip & Hp & _). injection Hw as <- <-. eexists _, _. split; [done|]. split.
    + split_and!; try done.
    + cbn [network_try_from addr ty mbind option_bind try_into_network_address af_addr m_port]. by rewrite octets_roundtrip.
  - destruct Hwf as (Hl & Hb & Hp). eexists _, _. split; [cbn; unfold addr_string; by rewrite base32_ascii|]. split.
    + split_and!; cbn; try done. split_and!; [|unfold len, MAX_STRING_LEN_POSSIBLE; rewrite length_app; cbn; lia|by destruct (domain o)].
      by rewrite base32_utf8.
    + cbn. unfold onion_new. rewrite check_addr_complete by done. cbn. by destruct o.
Qed.

Definition tagged_ok (t : TaggedNetworkAddress) : Prop := opt all_fields_ok (addr t).
#[local] Instance tagged_laws : ObjectLaws TaggedNetworkAddress_object tagged_ok.
Proof. unfold TaggedNetworkAddress_object. struct_laws. intros [t f] H. cbn in *. split_and!; [by destruct t|by destruct f|done]. Defined.

Definition tag_of (a : NetworkAddress) : TaggedNetworkAddress :=
  match tagged_from (E := Error) a with Ok t => t | _ => mk_tagged None None end.

Lemma tagged_chunks t f : ol_chunks (O := TaggedNetworkAddress_object) (mk_tagged (Some t) (Some f)) =
  [(str_bytes "type", with_marker epee_AddressType t); (str_bytes "addr", with_marker all_fields_value f)].
Proof. reflexivity. Qed.

#[export] Instance NetworkAddress_laws : ObjectLaws NetworkAddress_object address_ok.
Proof.
  refine (Build_ObjectLaws _ NetworkAddress_object address_ok [str_bytes "type"; str_bytes "addr"]
    (fun a => ol_chunks (O := TaggedNetworkAddress_object) (tag_of a))
    (fun a W b => ty b = (if decide (str_bytes "type" ∈ W) then ty (tag_of a) else None) /\
                  addr b = (if decide (str_bytes "addr" ∈ W) then addr (tag_of a) else None)) _ _ _).
  - intros a Ha. destruct (tagged_from_ok a Ha) as (t & f & Htag & Hf & Hback).
    pose proof (ol_law (O := TaggedNetworkAddress_object) (mk_tagged (Some t) (Some f)) Hf) as L. unfold tag_of. rewrite Htag. rewrite tagged_chunks in *.
    split; try (by apply L); try done.
    + intros w Hw. cbn [write_fields NetworkAddress_object]. rewrite Htag. cbn [mbind result_bind]. by apply L.
    + intros W b n bs r [Ht Hd] Hin HW. cbn [add_field NetworkAddress_object ty addr] in *. unfold tagged_add_field.
      apply elem_of_cons in Hin as [[= -> ->] | [= -> ->]%list_elem_of_singleton].
      * rewrite bool_decide_eq_true_2 by done. rewrite with_marker_read by done. cbn [mbind result_bind].
        rewrite Ht, decide_False by done. eexists. split; [done|]. cbn [ty addr]. rewrite decide_True by set_solver. split; [done|].
        rewrite Hd. apply decide_ext. set_solver.
      * rewrite bool_decide_eq_false_2, bool_decide_eq_true_2 by done.
        change (with_marker all_fields_value f) with (with_marker (epee_option all_fields_value) (Some f)). rewrite with_marker_read by done. cbn [mbind result_bind].
        rewrite Hd, decide_False by done. eexists. split; [done|]. cbn [ty addr]. rewrite (decide_True (P := str_bytes "addr" ∈ _)) by set_solver.
        split; [|done]. rewrite Ht. apply decide_ext. set_solver.
    + intros b n r Hn. cbn. unfold tagged_add_field. rewrite !bool_decide_eq_false_2 by set_solver. done.
    + intros W b [Ht Hd] HW. rewrite !Forall_cons in HW. destruct HW as (H1 & H2 & _). cbn [fst] in *. rewrite decide_True in Ht by done. rewrite decide_True in Hd by done.
      cbn [finish NetworkAddress_object]. destruct b as [bt ba]. cbn [ty addr] in *. subst. by rewrite Hback.
  - vm_compute. done.
  - intros a w Ha. destruct (tagged_from_ok a Ha) as (t & f & Htag & Hf & _). unfold tag_of. rewrite Htag. intros Hw.
    cbn [write_fields NetworkAddress_object]. rewrite Htag. cbn [mbind result_bind]. by apply ol_full.
Defined.

End Wire.
