(* ===== verification/WireFacts.v ===== *)
(** * P2P messages arrive

    Every message of [WireMessages], encoded into Levin buckets and cut into any pieces on
    its way, is what the reader gets; and no bytes a peer can send make the reader panic. *)
From S2P Require Import Prelude Bytes EpeeValue EpeeObject EpeeStruct FixedBytes Levin NetAddress WireMessages.
From Stdlib Require Import ZArith Lia String.
From stdpp Require Import base tactics option list numbers sets.
Import Epee EpeeObj EpeeStruct FixedBytes NetAddress Wire.

#[local] Open Scope Z_scope.

Module WireFacts.

(** ** Messages whose fields fit their types *)
Definition fields_fit (block_ok : BlockCompleteEntry -> Prop) (peer_ok : PeerListEntryBase -> Prop) (m : Message) : Prop :=
  match m with
  | M_Request (RQ_Handshake m) => node_data_ok (hq_node_data m) /\ sync_data_ok (hq_payload_data m)
  | M_Request (RQ_TimedSync m) => sync_data_ok (tq_payload_data m)
  | M_Request _ => True
  | M_Response (RS_Handshake m) => node_data_ok (hr_node_data m) /\ sync_data_ok (hr_payload_data m) /\ (Forall peer_ok (hr_local_peerlist_new m) /\ len (hr_local_peerlist_new m) < 2 ^ 62)
  | M_Response (RS_TimedSync m) => sync_data_ok (tr_payload_data m) /\ (Forall peer_ok (tr_local_peerlist_new m) /\ len (tr_local_peerlist_new m) < 2 ^ 62)
  | M_Response (RS_Ping m) => len (status m) <= MAX_STRING_LEN_POSSIBLE /\ is_u 64 (ping_peer_id m)
  | M_Response (RS_SupportFlags m) => is_u 32 (response_support_flags m)
  | M_Protocol (PM_NewBlock m) => block_ok (nb_b m) /\ is_u 64 (nb_current_blockchain_height m)
  | M_Protocol (PM_NewFluffyBlock m) => block_ok (nf_b m) /\ is_u 64 (nf_current_blockchain_height m)
  | M_Protocol (PM_GetObjectsRequest m) => ids_ok (gq_blocks m)
  | M_Protocol (PM_GetObjectsResponse m) =>
      (Forall block_ok (gr_blocks m) /\ len (gr_blocks m) < 2 ^ 62) /\ ids_ok (missed_ids m) /\ is_u 64 (gr_current_blockchain_height m)
  | M_Protocol (PM_ChainRequest m) => ids_ok (block_ids m)
  | M_Protocol (PM_ChainEntryResponse m) =>
      is_u 64 (start_height m) /\ is_u 64 (total_height m) /\ is_u 64 (cumulative_difficulty_low64 m) /\ is_u 64 (cumulative_difficulty_top64 m) /\
      ids_ok (m_block_ids m) /\ u64s_ok (m_block_weights m) /\ len (first_block m) <= MAX_STRING_LEN_POSSIBLE
  | M_Protocol (PM_NewTransactions m) => small_blobs (nt_txs m) /\ len (padding m) <= MAX_STRING_LEN_POSSIBLE
  | M_Protocol (PM_FluffyMissingTransactionsRequest m) =>
      hash_ok (block_hash m) /\ is_u 64 (fm_current_blockchain_height m) /\ u64s_ok (missing_tx_indices m)
  | M_Protocol (PM_GetTxPoolCompliment m) => ids_ok (hashes m)
  end.

(** What every message within the limits of the encoding has: integers of their width, byte
    strings and lists that are not too long, addresses that are addresses. *)
Definition blobs_fit (b : TransactionBlobs) : Prop :=
  match b with
  | PrunedBlobs l => Forall pruned_blob_ok l /\ len l < 2 ^ 62
  | NormalBlobs l => small_blobs l
  | NoBlobs => True
  end.
Definition block_entry_fits (e : BlockCompleteEntry) : Prop := len (block e) <= MAX_STRING_LEN_POSSIBLE /\ is_u 64 (block_weight e) /\ blobs_fit (txs e).
Definition peer_base_fits (e : PeerListEntryBase) : Prop :=
  network_wf (pb_adr e) /\ is_u 64 (pb_id e) /\ fits_signed 8 (pb_last_seen e) /\ is_u 32 (pb_pruning_seed e) /\ is_u 16 (pb_rpc_port e) /\
  is_u 32 (pb_rpc_credits_per_hash e).
Definition message_fits : Message -> Prop := fields_fit block_entry_fits peer_base_fits.

(** The messages that come back as they were sent: besides, lists of transactions are not
    empty and IPv6 addresses have no flow information and scope. *)
Definition message_ok : Message -> Prop := fields_fit block_entry_ok peer_base_ok.

(** What a reader makes of a message: an empty list of transactions is not written, and read
    as none; the flow information and the scope of an IPv6 address are not written. *)
Definition blobs_as_read (b : TransactionBlobs) : TransactionBlobs :=
  match b with PrunedBlobs [] | NormalBlobs [] => NoBlobs | b => b end.
Definition entry_as_read (e : BlockCompleteEntry) : BlockCompleteEntry :=
  mk_complete_entry (pruned e) (block e) (block_weight e) (blobs_as_read (txs e)).
Definition peer_as_read (e : PeerListEntryBase) : PeerListEntryBase :=
  mk_peer_base (on_wire (pb_adr e)) (pb_id e) (pb_last_seen e) (pb_pruning_seed e) (pb_rpc_port e) (pb_rpc_credits_per_hash e).
Definition as_read (m : Message) : Message :=
  match m with
  | M_Response (RS_Handshake m) => M_Response (RS_Handshake (mk_handshake_response (hr_node_data m) (hr_payload_data m) (peer_as_read <$> hr_local_peerlist_new m)))
  | M_Response (RS_TimedSync m) => M_Response (RS_TimedSync (mk_timed_sync_response (tr_payload_data m) (peer_as_read <$> tr_local_peerlist_new m)))
  | M_Protocol (PM_NewBlock m) => M_Protocol (PM_NewBlock (mk_new_block (entry_as_read (nb_b m)) (nb_current_blockchain_height m)))
  | M_Protocol (PM_NewFluffyBlock m) => M_Protocol (PM_NewFluffyBlock (mk_new_fluffy_block (entry_as_read (nf_b m)) (nf_current_blockchain_height m)))
  | M_Protocol (PM_GetObjectsResponse m) =>
      M_Protocol (PM_GetObjectsResponse (mk_get_objects_response (entry_as_read <$> gr_blocks m) (missed_ids m) (gr_current_blockchain_height m)))
  | m => m
  end.

Lemma entry_as_read_ok e : block_entry_fits e -> block_entry_ok (entry_as_read e).
Proof. destruct e as [p b w [[|x l]|[|x l]|]]; intros (H1 & H2 & H3); (split; [done|]; split; [done|]); cbn in *; by try destruct H3. Qed.

Lemma peer_as_read_ok e : peer_base_fits e -> peer_base_ok (peer_as_read e).
Proof.
  destruct e as [a ? ? ? ? ?]. intros (H1 & H2). split; [|done]. cbn [peer_as_read pb_adr] in *.
  destruct a as [[ip p|ip p f s]|o]; (split; [|done]); cbn [on_wire network_wf socket_wf] in *; try done.
  destruct H1 as (? & ? & ? & ?). split_and!; try done; unfold is_u; lia.
Qed.

Lemma as_read_ok m : message_fits m -> message_ok (as_read m).
Proof.
  assert (Hpeers : forall l, Forall peer_base_fits l -> Forall peer_base_ok (peer_as_read <$> l)).
  { intros l Hl. apply Forall_fmap. eapply Forall_impl; [exact Hl|]. apply peer_as_read_ok. }
  assert (Hentries : forall l, Forall block_entry_fits l -> Forall block_entry_ok (entry_as_read <$> l)).
  { intros l Hl. apply Forall_fmap. eapply Forall_impl; [exact Hl|]. apply entry_as_read_ok. }
  assert (Hlen : forall A B (f : A -> B) l, len (f <$> l) = len l) by (intros; unfold len; by rewrite length_fmap).
  destruct m as [[]|[]|[]]; cbn; rewrite ?Hlen; intuition (auto using entry_as_read_ok).
Qed.

(** ** Laws of the messages *)
#[local] Instance node_data_laws : ObjectLaws BasicNodeData_object node_data_ok.
Proof.
  unfold BasicNodeData_object, EpeeObj.BasicNodeData. struct_laws. intros v (? & ? & ? & ? & ? & ?). cbn. split_and!; try done.
  unfold len, MAX_STRING_LEN_POSSIBLE. lia.
Defined.
#[local] Instance sync_data_laws : ObjectLaws CoreSyncData_object sync_data_ok.
Proof.
  unfold CoreSyncData_object, EpeeObj.CoreSyncData. struct_laws. intros v (? & ? & ? & ? & ? & ?). cbn. split_and!; try done; by apply small_32.
Defined.
#[local] Instance peer_base_laws : ObjectLaws PeerListEntryBase_object peer_base_ok.
Proof. unfold PeerListEntryBase_object. struct_laws. by intros v (? & ? & ? & ? & ? & ?). Defined.

#[local] Existing Instances ids_laws ids_restored byte_array_written object_vec_laws normal_blobs_laws.
#[local] Instance blobs_vec_laws : EpeeLaws (epee_vec epee_bytes) small_blobs := normal_blobs_laws.

Ltac message_laws := struct_laws; cbn; intros v; unfold u64s_ok, hash_ok; intuition (try done; try (by apply small_32)).

#[local] Instance handshake_request_laws : ObjectLaws HandshakeRequest_object (fun m => message_ok (M_Request (RQ_Handshake m))).
Proof. unfold HandshakeRequest_object. message_laws. Defined.
#[local] Instance timed_sync_request_laws : ObjectLaws TimedSyncRequest_object (fun m => message_ok (M_Request (RQ_TimedSync m))).
Proof. unfold TimedSyncRequest_object. message_laws. Defined.
#[local] Instance empty_laws : ObjectLaws EmptyMessage_object (fun _ => True).
Proof. unfold EmptyMessage_object. message_laws. Defined.

#[local] Instance handshake_response_laws : ObjectLaws HandshakeResponse_object (fun m => message_ok (M_Response (RS_Handshake m))).
Proof. unfold HandshakeResponse_object. message_laws. Defined.
#[local] Instance timed_sync_response_laws : ObjectLaws TimedSyncResponse_object (fun m => message_ok (M_Response (RS_TimedSync m))).
Proof. unfold TimedSyncResponse_object. message_laws. Defined.
#[local] Instance ping_response_laws : ObjectLaws PingResponse_object (fun m => message_ok (M_Response (RS_Ping m))).
Proof. unfold PingResponse_object. message_laws. Defined.
#[local] Instance support_flags_response_laws : ObjectLaws SupportFlagsResponse_object (fun m => message_ok (M_Response (RS_SupportFlags m))).
Proof. unfold SupportFlagsResponse_object. message_laws. Defined.
#[local] Instance new_block_laws : ObjectLaws NewBlock_object (fun m => message_ok (M_Protocol (PM_NewBlock m))).
Proof. unfold NewBlock_object. message_laws. Defined.
#[local] Instance new_fluffy_block_laws : ObjectLaws NewFluffyBlock_object (fun m => message_ok (M_Protocol (PM_NewFluffyBlock m))).
Proof. unfold NewFluffyBlock_object. message_laws. Defined.
#[local] Instance get_objects_request_laws : ObjectLaws GetObjectsRequest_object (fun m => message_ok (M_Protocol (PM_GetObjectsRequest m))).
Proof. unfold GetObjectsRequest_object. message_laws. Defined.
#[local] Instance get_objects_response_laws : ObjectLaws GetObjectsResponse_object (fun m => message_ok (M_Protocol (PM_GetObjectsResponse m))).
Proof. unfold GetObjectsResponse_object. message_laws. Defined.
#[local] Instance chain_request_laws : ObjectLaws ChainRequest_object (fun m => message_ok (M_Protocol (PM_ChainRequest m))).
Proof. unfold ChainRequest_object. message_laws. Defined.
#[local] Instance chain_response_laws : ObjectLaws ChainResponse_object (fun m => message_ok (M_Protocol (PM_ChainEntryResponse m))).
Proof. unfold ChainResponse_object. message_laws. Defined.
#[local] Instance new_transactions_laws : ObjectLaws NewTransactions_object (fun m => message_ok (M_Protocol (PM_NewTransactions m))).
Proof. unfold NewTransactions_object. message_laws. Defined.
#[local] Instance missing_txs_laws : ObjectLaws FluffyMissingTransactionsRequest_object (fun m => message_ok (M_Protocol (PM_FluffyMissingTransactionsRequest m))).
Proof. unfold FluffyMissingTransactionsRequest_object. message_laws. Defined.
#[local] Instance pool_compliment_laws : ObjectLaws GetTxPoolCompliment_object (fun m => message_ok (M_Protocol (PM_GetTxPoolCompliment m))).
Proof. unfold GetTxPoolCompliment_object. message_laws. Defined.


(** ** Encoding and decoding *)
(** The body of a message on the wire. *)
Definition message_enc (m : Message) : bytes :=
  match m with
  | M_Request (RQ_Handshake m) => message_bytes HandshakeRequest_object m
  | M_Request (RQ_TimedSync m) => message_bytes TimedSyncRequest_object m
  | M_Request RQ_Ping | M_Request RQ_SupportFlags => message_bytes EmptyMessage_object ()
  | M_Response (RS_Handshake m) => message_bytes HandshakeResponse_object m
  | M_Response (RS_TimedSync m) => message_bytes TimedSyncResponse_object m
  | M_Response (RS_Ping m) => message_bytes PingResponse_object m
  | M_Response (RS_SupportFlags m) => message_bytes SupportFlagsResponse_object m
  | M_Protocol (PM_NewBlock m) => message_bytes NewBlock_object m
  | M_Protocol (PM_NewFluffyBlock m) => message_bytes NewFluffyBlock_object m
  | M_Protocol (PM_GetObjectsRequest m) => message_bytes GetObjectsRequest_object m
  | M_Protocol (PM_GetObjectsResponse m) => message_bytes GetObjectsResponse_object m
  | M_Protocol (PM_ChainRequest m) => message_bytes ChainRequest_object m
  | M_Protocol (PM_ChainEntryResponse m) => message_bytes ChainResponse_object m
  | M_Protocol (PM_NewTransactions m) => message_bytes NewTransactions_object m
  | M_Protocol (PM_FluffyMissingTransactionsRequest m) => message_bytes FluffyMissingTransactionsRequest_object m
  | M_Protocol (PM_GetTxPoolCompliment m) => message_bytes GetTxPoolCompliment_object m
  end.

Definition message_type (m : Message) : Levin.MessageType :=
  match m with M_Request _ => Levin.Request | M_Response _ => Levin.Response | M_Protocol _ => Levin.Notification end.
Definition message_return_code (m : Message) : Z := match m with M_Response _ => 1 | _ => 0 end.

Lemma build_ok {T} (O : EpeeObject T) valid `{!ObjectLaws O valid} id v builder :
  valid v -> len (message_bytes O v) < 2 ^ 63 -> build_message O id v builder = Ok (Levin.set_body (message_bytes O v) (Levin.set_command id builder)).
Proof.
  intros Hv Hl. unfold build_message. pose proof (message_to_bytes O valid v Hv) as Hb. rewrite (proj2 (Z.ltb_lt _ _) Hl) in Hb. by rewrite Hb.
Qed.

Lemma decode_body_ok {T R} (O : EpeeObject T) valid `{!ObjectLaws O valid} (ret : T -> R) v r :
  valid v -> decode_body O ret (message_bytes O v ++ r) = Ok (ret v).
Proof. intros Hv. unfold decode_body. by rewrite message_from_bytes. Qed.

Lemma message_encode_ok m b :
  message_ok m -> len (message_enc m) < 2 ^ 63 ->
  message_encode_body m b =
    Ok (Levin.set_body (message_enc m) (Levin.set_command (message_command m)
          (Levin.set_return_code (message_return_code m) (Levin.set_message_type (message_type m) b)))).
Proof.
  intros Hm Hl. destruct m as [[]|[]|[]];
    cbn [message_encode_body request_build response_build protocol_build message_enc message_command request_command response_command protocol_command message_type message_return_code] in *;
    (erewrite build_ok; [done|exact Hm || exact I|exact Hl]).
Qed.

Lemma message_decode_ok m r : message_ok m -> message_decode_body (message_enc m ++ r) (message_type m) (message_command m) = Ok m.
Proof.
  intros Hm. destruct m as [[]|[]|[]];
    cbn [message_decode_body message_type message_command request_command response_command protocol_command request_decode response_decode protocol_decode message_enc];
    (rewrite decode_body_ok; [done|exact Hm || exact I]).
Qed.

Lemma command_roundtrip m : command_from_u32 (command_to_u32 (message_command m)) = message_command m /\ is_u 32 (command_to_u32 (message_command m)).
Proof. by destruct m as [[]|[]|[]]. Qed.

Lemma command_limit m : command_size_limit (message_command m) < 2 ^ 63.
Proof. by destruct m as [[]|[]|[]]. Qed.

(** ** Streams of messages *)
Definition bucket_of (p : Levin.Protocol) (m : Message) : Levin.Bucket LevinCommand :=
  Levin.mk_bucket {|
    Levin.h_signature := Levin.signature p;
    Levin.h_size := len (message_enc m);
    Levin.h_have_to_return_data := Levin.have_to_return_data (message_type m);
    Levin.h_command := message_command m;
    Levin.h_return_code := message_return_code m;
    Levin.h_flags := Levin.as_flags (message_type m);
    Levin.h_protocol_version := Levin.version p;
  |} (message_enc m).

Definition protocol_fits (p : Levin.Protocol) : Prop :=
  is_u 64 (Levin.signature p) /\ is_u 32 (Levin.version p) /\ Levin.max_packet_size_before_handshake p <= Levin.max_packet_size p.

(** A message is within the limit of its command and of the packets, which is smaller
    before the first handshake message. *)
Fixpoint within_limits (p : Levin.Protocol) (handshake_seen : bool) (ms : list Message) : Prop :=
  match ms with
  | [] => True
  | m :: ms =>
      len (message_enc m) <= command_size_limit (message_command m) /\
      len (message_enc m) <= (if handshake_seen then Levin.max_packet_size p else Levin.max_packet_size_before_handshake p) /\
      within_limits p (handshake_seen || command_is_handshake (message_command m)) ms
  end.

Lemma finish_bucket_of p m : message_ok m -> len (message_enc m) < 2 ^ 63 ->
  (builder ← Levin.encode m (Levin.builder_new p); Levin.finish builder) = Ok (bucket_of p m).
Proof. intros Hm Hl. cbn [Levin.encode P2PMessages]. by rewrite message_encode_ok. Qed.

Lemma bucket_of_wf p m : protocol_fits p -> len (message_enc m) < 2 ^ 63 -> Levin.head_wf (Levin.header (bucket_of p m)).
Proof.
  intros (Hs & Hv & _) Hl. pose proof (len_nonneg (message_enc m)). destruct (command_roundtrip m). constructor; cbn; try done.
  - split; [done|]. revert Hl. zpow. lia.
  - by destruct m.
  - by destruct m as [| |].
Qed.

(** The reader gets the message from its bucket. *)
Lemma on_bucket_of (mc : Levin.LevinMessageCodec LevinCommand) p m :
  message_ok m -> Levin.mc_state mc = Levin.WaitingForBucket -> Levin.on_bucket mc (bucket_of p m) = (Some (Ok (Some m)), mc).
Proof.
  intros Hm Hst. unfold Levin.on_bucket, Levin.return_message. rewrite Hst. cbn [bucket_of Levin.header Levin.body Levin.h_flags Levin.h_have_to_return_data Levin.h_command].
  rewrite Levin.from_flags_as_flags. cbn [Levin.decode_message P2PMessages]. rewrite <- (app_nil_r (message_enc m)), message_decode_ok by done. by destruct m.
Qed.

Lemma drain_messages p ms : protocol_fits p -> Forall message_ok ms ->
  forall mc r, Levin.mc_state mc = Levin.WaitingForBucket -> Levin.bc_state (Levin.bucket_codec mc) = Levin.WaitingForHeader ->
  Levin.bc_protocol (Levin.bucket_codec mc) = p -> within_limits p (Levin.handshake_message_seen (Levin.bucket_codec mc)) ms ->
  Levin.drain (Item := Message) mc (concat (Levin.wire <$> (bucket_of p <$> ms)) ++ r) =
    let '(its, o, s) := Levin.drain (Item := Message) (foldl Levin.with_bucket mc (bucket_of p <$> ms)) r in (ms ++ its, o, s).
Proof.
  intros Hp. induction 1 as [|m ms Hm _ IH]; intros mc r Hst Hbc Hpr Hw; cbn [fmap list_fmap concat foldl].
  { cbn [app]. by destruct (Levin.drain _ _) as [[its o] s]. }
  destruct Hw as (Hc & Hl & Hw). pose proof (command_limit m).
  rewrite <- app_assoc. rewrite (Levin.drain_bucket mc (bucket_of p m) _ (Some (Ok (Some m))) (Levin.with_bucket mc (bucket_of p m))).
  - rewrite IH; [|done|done|by cbn|done]. by destruct (Levin.drain _ _) as [[its o] s].
  - split; [done|apply bucket_of_wf; [done|lia]|done|]. apply Levin.after_head_ok; [rewrite Hpr; apply Hp| |done]. unfold Levin.cap. rewrite Hpr. done.
  - by apply on_bucket_of.
Qed.

(** ** Messages and what is read of them have the same bytes *)
Lemma entry_written e w : write block_entry_value (entry_as_read e) w = write block_entry_value e w.
Proof. destruct e as [p b w' [[|x l]|[|x l]|]]; done. Qed.

Lemma vec_written {A} (V : EpeeValue A) (f : A -> A) l w :
  (forall x w, write V (f x) w = write V x w) -> write (epee_vec V) (f <$> l) w = write (epee_vec V) l w.
Proof.
  intros Hf. cbn [write epee_vec]. unfold write_iterator. replace (len (f <$> l)) with (len l) by (unfold len; by rewrite length_fmap).
  destruct (write_varint _ w) as [w'|e|]; cbn [mbind result_bind]; [|done..].
  revert w'. induction l as [|x l IH]; intros w'; [done|]. cbn [fmap list_fmap try_fold]. rewrite Hf. destruct (write V x w'); [apply IH|done..].
Qed.

(** Two values of the fields that are written alike *)
Definition written_alike (fs : list Field) (vs vs' : values fs) : Prop :=
  fields_number fs vs = fields_number fs vs' /\ forall w, fields_write fs vs w = fields_write fs vs' w.

Lemma first_field_written f fs (v v' : f_ty f) (vs : values fs) :
  f_default f = None -> should_write (f_val f) v = should_write (f_val f) v' -> (forall w, write (f_val f) v w = write (f_val f) v' w) ->
  written_alike (f :: fs) (v, vs) (v', vs).
Proof.
  intros Hd Hs Hw. unfold written_alike. cbn [fields_number fields_write]. unfold field_written, write_field, write_epee_value. rewrite Hd, Hs. split; [done|].
  intros w. destruct (should_write _ v'); cbn [andb]; [|done]. destruct (write_field_name _ w) as [w1|e|]; cbn [mbind result_bind]; [|done..].
  destruct (checked_write w1 _ _) as [w2|e|]; cbn [mbind result_bind]; [|done..]. by rewrite Hw.
Qed.

Lemma rest_fields_written f fs (v : f_ty f) (vs vs' : values fs) : written_alike fs vs vs' -> written_alike (f :: fs) (v, vs) (v, vs').
Proof.
  intros [Hn Hw]. unfold written_alike. cbn [fields_number fields_write]. rewrite Hn. split; [done|]. intros w.
  destruct (if field_written f v then _ else _) as [w1|e|]; cbn [mbind result_bind]; [apply Hw|done..].
Qed.

Lemma object_written {A} (Ob : EpeeObject A) v v' :
  number_of_fields Ob v = number_of_fields Ob v' -> (forall w, write_fields Ob v w = write_fields Ob v' w) ->
  forall w, write (epee_object_value Ob) v w = write (epee_object_value Ob) v' w.
Proof. intros Hn Hw w. cbn [write epee_object_value]. rewrite Hn. destruct (write_varint _ w) as [w1|e|]; cbn [mbind result_bind]; [apply Hw|done..]. Qed.

Lemma address_written a w : write (epee_object_value NetworkAddress_object) (on_wire a) w = write (epee_object_value NetworkAddress_object) a w.
Proof. by destruct a as [[]|]. Qed.

Lemma peer_written e w :
  write (epee_object_value PeerListEntryBase_object) (peer_as_read e) w = write (epee_object_value PeerListEntryBase_object) e w.
Proof.
  destruct (first_field_written (field_req "adr" (epee_object_value NetworkAddress_object))
    [field_req "id" epee_u64; field_or "last_seen" epee_i64 0; field_or "pruning_seed" epee_u32 0; field_or "rpc_port" epee_u16 0; field_or "rpc_credits_per_hash" epee_u32 0]
    (on_wire (pb_adr e)) (pb_adr e) (pb_id e, (pb_last_seen e, (pb_pruning_seed e, (pb_rpc_port e, (pb_rpc_credits_per_hash e, ()))))))
    as [Hn Hw]; [done|done|apply address_written|].
  by apply object_written.
Qed.

Lemma same_message {A} (Ob : EpeeObject A) id v v' builder :
  number_of_fields Ob v = number_of_fields Ob v' -> (forall w, write_fields Ob v w = write_fields Ob v' w) ->
  build_message Ob id v builder = build_message Ob id v' builder.
Proof.
  intros Hn Hw. unfold build_message, EpeeObj.to_bytes, EpeeObj.write_head_object. destruct (write_header new_buf) as [w|e|]; [|done..].
  cbn [mbind result_bind]. by rewrite (object_written Ob v v').
Qed.

Lemma list_should_write {A} (V : EpeeValue A) (f : A -> A) l : should_write (epee_vec V) (f <$> l) = should_write (epee_vec V) l.
Proof. cbn [should_write epee_vec]. unfold len. by rewrite length_fmap. Qed.

Lemma as_read_encode m builder : message_encode_body (as_read m) builder = message_encode_body m builder.
Proof.
  destruct m as [[]|[]|[]]; try done; cbn [as_read message_encode_body request_build response_build protocol_build].
  - destruct m as [n p l]. cbn [hr_node_data hr_payload_data hr_local_peerlist_new].
    pose proof (first_field_written (field_req "local_peerlist_new" peer_list_value) [] (peer_as_read <$> l) l () eq_refl (list_should_write _ _ _)
      (fun w => vec_written _ _ l w peer_written)) as H1.
    pose proof (rest_fields_written (field_req "payload_data" sync_data_value) _ p _ _ H1) as H2.
    destruct (rest_fields_written (field_req "node_data" node_data_value) _ n _ _ H2) as [Hn Hw]. apply same_message; [exact Hn|exact Hw].
  - destruct m as [p l]. cbn [tr_payload_data tr_local_peerlist_new].
    pose proof (first_field_written (field_req "local_peerlist_new" peer_list_value) [] (peer_as_read <$> l) l () eq_refl (list_should_write _ _ _)
      (fun w => vec_written _ _ l w peer_written)) as H1.
    destruct (rest_fields_written (field_req "payload_data" sync_data_value) _ p _ _ H1) as [Hn Hw]. apply same_message; [exact Hn|exact Hw].
  - destruct m as [b h]. cbn [nb_b nb_current_blockchain_height].
    destruct (first_field_written (field_req "b" block_entry_value) [field_req "current_blockchain_height" epee_u64] (entry_as_read b) b (h, ()) eq_refl eq_refl (entry_written b)) as [Hn Hw].
    apply same_message; [exact Hn|exact Hw].
  - destruct m as [b h]. cbn [nf_b nf_current_blockchain_height].
    destruct (first_field_written (field_req "b" block_entry_value) [field_req "current_blockchain_height" epee_u64] (entry_as_read b) b (h, ()) eq_refl eq_refl (entry_written b)) as [Hn Hw].
    apply same_message; [exact Hn|exact Hw].
  - destruct m as [bs i h]. cbn [gr_blocks missed_ids gr_current_blockchain_height].
    destruct (first_field_written (field_req "blocks" (epee_vec block_entry_value)) [field_req "missed_ids" (epee_ByteArrayVec 32); field_req "current_blockchain_height" epee_u64]
      (entry_as_read <$> bs) bs (i, (h, ())) eq_refl (list_should_write _ _ _) (fun w => vec_written _ _ bs w entry_written)) as [Hn Hw].
    apply same_message; [exact Hn|exact Hw].
Qed.

(** ** Untrusted bytes *)
Create HintDb wire_safe.
#[local] Hint Resolve safe_epee_uint safe_epee_int safe_epee_bool safe_epee_bytes safe_epee_byte_array safe_epee_string safe_epee_vec safe_epee_option safe_epee_blob
  safe_ByteArray safe_ByteArrayVec safe_object_value : wire_safe.

#[local] Hint Extern 2 (safe_reader _) => apply safe_epee_uint : wire_safe.
#[local] Hint Extern 2 (safe_reader _) => apply safe_epee_int : wire_safe.

Lemma safe_struct {T} fs (to_values : T -> values fs) of_values : Forall (fun f => safe_reader (f_val f)) fs -> safe_object (struct_object fs to_values of_values).
Proof. intros H. by apply safe_map_object, safe_fields_object. Qed.

Ltac safe_struct := apply safe_struct; repeat (apply Forall_cons; split); [..|apply Forall_nil; done]; cbn [f_ty f_val field_req field_or field_def]; unfold node_data_value, sync_data_value, peer_list_value, block_entry_value; auto with wire_safe.

Lemma safe_pruned_blob : safe_object PrunedTxBlobEntry_object.
Proof. safe_struct. Qed.
#[local] Hint Resolve safe_pruned_blob : wire_safe.

Lemma safe_tx_blobs r : safe r (tx_blob_read r).
Proof.
  unfold tx_blob_read. apply safe_bind; [apply safe_marker|]. intros m r' _. cbv beta iota.
  destruct (inner_marker m); try done; (apply safe_bind; [|intros l r2 _; by cbn]).
  - apply safe_epee_vec, safe_epee_bytes.
  - apply safe_epee_vec, safe_object_value, safe_pruned_blob.
Qed.

Lemma safe_block_entry : safe_object BlockCompleteEntry_object.
Proof.
  apply safe_map_object, safe_flatten_object; [|apply safe_custom_field, safe_tx_blobs].
  apply safe_fields_object. repeat (apply Forall_cons; split); [..|by apply Forall_nil]; cbn [f_ty f_val field_req field_or]; auto with wire_safe.
Qed.

Lemma safe_all_fields : safe_object AllFieldsNetworkAddress_object.
Proof. safe_struct. Qed.
#[local] Hint Resolve safe_block_entry safe_all_fields : wire_safe.

Lemma safe_address_type : safe_reader epee_AddressType.
Proof.
  intros r m. cbn. apply safe_bind; [apply safe_epee_uint|]. intros u r' _. cbv beta iota. destruct (address_type_from_u8 u); by cbn.
Qed.

Lemma safe_network_address : safe_object NetworkAddress_object.
Proof.
  split.
  - intros b n r. cbn. unfold tagged_add_field. repeat case_bool_decide; [..|done].
    + pose proof (safe_read_epee_value epee_AddressType r safe_address_type) as Hs. destruct (read_epee_value _ r) as [[t r']| |]; cbn in *; [by destruct (ty b)|done..].
    + pose proof (safe_read_epee_value (epee_option (epee_object_value AllFieldsNetworkAddress_object)) r ltac:(auto with wire_safe)) as Hs.
      destruct (read_epee_value _ r) as [[t r']| |]; cbn in *; [by destruct (addr b)|done..].
  - intros b. cbn. by destruct (network_try_from b).
Qed.

Lemma safe_node_data : safe_object BasicNodeData_object.
Proof. safe_struct. Qed.
Lemma safe_sync_data : safe_object CoreSyncData_object.
Proof. safe_struct. Qed.
#[local] Hint Resolve safe_network_address safe_node_data safe_sync_data : wire_safe.
Lemma safe_peer_base : safe_object PeerListEntryBase_object.
Proof. safe_struct. Qed.
#[local] Hint Resolve safe_peer_base : wire_safe.

Lemma decode_body_safe {T R} (O : EpeeObject T) (ret : T -> R) buf : safe_object O -> decode_body O ret buf <> Panic.
Proof. intros HO. unfold decode_body. pose proof (safe_from_bytes O buf HO) as Hs. by destruct (from_bytes O buf) as [[]| |]. Qed.

Lemma message_decode_safe bs ty c : message_decode_body bs ty c <> Panic.
Proof.
  assert (Hmap : forall A (f : A -> Message) (r : result Levin.BucketError A), r <> Panic -> (f <$> r) <> Panic) by (intros A f []; done).
  destruct ty; cbn [message_decode_body]; apply Hmap; destruct c; cbn [request_decode response_decode protocol_decode]; try done;
    (apply decode_body_safe; safe_struct).
Qed.

(** ** Theorems *)
Definition new_codec (p : Levin.Protocol) : Levin.LevinMessageCodec LevinCommand := Levin.mk_message_codec (Levin.bucket_codec_new p) Levin.WaitingForBucket.

Lemma encode_messages p ms dst :
  Forall message_ok ms -> Forall (fun m => len (message_enc m) < 2 ^ 63) ms ->
  try_fold (fun dst m => Levin.message_encode (new_codec p) (Levin.Body m) dst) dst ms = Ok (dst ++ concat (Levin.wire <$> (bucket_of p <$> ms))).
Proof.
  intros Hm Hl. revert dst. induction Hm as [|m ms Hm _ IH]; intros dst; cbn [try_fold fmap list_fmap concat]; [by rewrite app_nil_r|].
  apply Forall_cons in Hl as [Hl Hls]. cbn [Levin.message_encode]. pose proof (finish_bucket_of p m Hm Hl) as Hf.
  change (Levin.bc_protocol (Levin.bucket_codec (new_codec p))) with p.
  destruct (Levin.encode m _) as [b| |]; [|done..]. cbn [mbind result_bind] in *. rewrite Hf. cbn [mbind result_bind].
  rewrite Levin.bucket_encode_wire. cbn [mbind result_bind]. rewrite IH by done. by rewrite <- app_assoc.
Qed.

Lemma within_limits_size p seen ms : within_limits p seen ms -> Forall (fun m => len (message_enc m) < 2 ^ 63) ms.
Proof.
  revert seen. induction ms as [|m ms IH]; intros seen; cbn [within_limits]; [constructor|].
  intros (Hc & _ & Hw). constructor; [pose proof (command_limit m); lia|by eapply IH].
Qed.

(** Messages that come back as they are. *)
Lemma ok_messages_arrive p ms :
  protocol_fits p -> Forall message_ok ms -> within_limits p false ms ->
  exists bs, try_fold (fun dst m => Levin.message_encode (new_codec p) (Levin.Body m) dst) [] ms = Ok bs /\
    forall ch chunks, ch ++ concat chunks = bs ->
      exists mc, Levin.feed (Item := Message) (new_codec p) [] (ch :: chunks) = (ms, Some (Ok None), (mc, [])) /\
        Levin.mc_state mc = Levin.WaitingForBucket /\ Levin.bc_state (Levin.bucket_codec mc) = Levin.WaitingForHeader.
Proof.
  intros Hp Hm Hw. eexists. split; [by apply encode_messages; [|eapply within_limits_size]|]. intros ch chunks Hch. cbn [app] in Hch.
  set (mc := foldl Levin.with_bucket (new_codec p) (bucket_of p <$> ms)).
  assert (Hmc : Levin.mc_state mc = Levin.WaitingForBucket /\ Levin.bc_state (Levin.bucket_codec mc) = Levin.WaitingForHeader).
  { unfold mc. generalize (bucket_of p <$> ms) as bs. assert (Hg : Levin.mc_state (new_codec p) = Levin.WaitingForBucket /\
      Levin.bc_state (Levin.bucket_codec (new_codec p)) = Levin.WaitingForHeader) by done. revert Hg. generalize (new_codec p) as c.
    intros c Hg bs. revert c Hg. induction bs as [|b bs IH]; intros c Hg; [done|]. cbn [foldl]. apply IH. by destruct Hg. }
  exists mc. split; [|done]. rewrite Levin.feed_concat, Hch. cbn [app]. pose proof (drain_messages p ms Hp Hm (new_codec p) [] eq_refl eq_refl eq_refl Hw) as Hd.
  rewrite app_nil_r in Hd. rewrite Hd. fold mc. rewrite Levin.message_drain_nil by apply Hmc. by rewrite app_nil_r.
Qed.

(** C22. Every sequence of messages whose fields fit their types, within the limits of their
    commands and of the packets, is encoded, and a reader of the bytes, in whatever pieces
    they come, gets these messages in order and waits for the next. It gets them as sent up
    to [as_read]: an empty list of transactions of a block comes back as none, and the flow
    information and the scope of an IPv6 address of a peer list are lost; all else is the
    same, so messages without these come back exactly. *)
Theorem p2p_messages_arrive p ms :
  protocol_fits p -> Forall message_fits ms -> within_limits p false (as_read <$> ms) ->
  exists bs, try_fold (fun dst m => Levin.message_encode (new_codec p) (Levin.Body m) dst) [] ms = Ok bs /\
    forall ch chunks, ch ++ concat chunks = bs ->
      exists mc, Levin.feed (Item := Message) (new_codec p) [] (ch :: chunks) = (as_read <$> ms, Some (Ok None), (mc, [])) /\
        Levin.mc_state mc = Levin.WaitingForBucket /\ Levin.bc_state (Levin.bucket_codec mc) = Levin.WaitingForHeader.
Proof.
  intros Hp Hm Hw. destruct (ok_messages_arrive p (as_read <$> ms) Hp) as (bs & Hbs & H); [|done|].
  { apply Forall_fmap. eapply Forall_impl; [exact Hm|]. apply as_read_ok. }
  exists bs. split; [|exact H]. rewrite <- Hbs. clear. generalize (@nil Z) as dst. induction ms as [|m ms IH]; intros dst; [done|].
  cbn [try_fold fmap list_fmap]. assert (Levin.message_encode (new_codec p) (Levin.Body (as_read m)) dst = Levin.message_encode (new_codec p) (Levin.Body m) dst) as ->.
  { cbn [Levin.message_encode Levin.encode P2PMessages]. by rewrite as_read_encode. }
  destruct (Levin.message_encode _ _ _); cbn [mbind result_bind]; [apply IH|done..].
Qed.

(** The same for a message that is sent in fragments of one size. *)
Theorem p2p_fragments_arrive (mc : Levin.LevinMessageCodec LevinCommand) fs m :
  let p := Levin.bc_protocol (Levin.bucket_codec mc) in
  Levin.mc_state mc = Levin.WaitingForBucket -> Levin.bc_state (Levin.bucket_codec mc) = Levin.WaitingForHeader ->
  protocol_fits p -> message_ok m -> Levin.frag_limits (Levin.bucket_codec mc) fs (bucket_of p m) ->
  exists buckets, Levin.make_fragmented_messages p fs m = Ok buckets /\ Forall (fun b => len (Levin.wire b) = fs) buckets /\
    forall ch chunks, ch ++ concat chunks = concat (Levin.wire <$> buckets) ->
      exists mc', Levin.feed mc [] (ch :: chunks) = ([m], Some (Ok None), (mc', [])) /\ Levin.mc_state mc' = Levin.WaitingForBucket.
Proof.
  intros p Hst Hbc Hp Hm Hlim. assert (Hl : len (message_enc m) < 2 ^ 63) by apply Hlim.
  pose proof (finish_bucket_of p m Hm Hl) as Hf. cbn [Levin.encode P2PMessages] in Hf. rewrite message_encode_ok in Hf by done. cbn [mbind result_bind] in Hf.
  set (builder := Levin.set_body _ _) in Hf.
  assert (He : Levin.encode m (Levin.builder_new p) = Ok builder) by (by apply message_encode_ok).
  assert (Hty : Levin.b_ty builder = Some (message_type m)) by done.
  assert (Hdec : forall k, Levin.decode_message (Levin.body (bucket_of p m) ++ Levin.zeros k) (message_type m) (Levin.h_command (Levin.header (bucket_of p m))) = Ok m).
  { intros k. by apply message_decode_ok. }
  pose proof (bucket_of_wf p m Hp Hl) as Hwf. destruct (decide (len (Levin.body (bucket_of p m)) + Levin.HEADER_SIZE <= fs)) as [Hle|Hgt].
  - edestruct (Levin.single_roundtrip mc fs m builder (bucket_of p m) (message_type m)) as (b & H1 & H2 & H3); [done..|].
    exists [b]. split_and!; [done|by constructor|]. intros ch chunks Hch. eexists. rewrite Levin.feed_concat, Hch. split; [apply H3|done].
  - edestruct (Levin.multi_roundtrip mc fs m builder (bucket_of p m) (message_type m)) as (bs & H1 & H2 & H3); [done..|lia|].
    exists bs. split_and!; [done..|]. intros ch chunks Hch. eexists. rewrite Levin.feed_concat, Hch. split; [apply H3|done].
Qed.

(** C23. Whatever bytes a peer sends, in whatever pieces, reading messages from them never
    panics and always comes to an end, and what the reader holds is within the limits of
    the protocol. *)
Theorem peer_bytes_never_panic p chunks its (o : option (result Levin.BucketError (option Message))) mc src :
  Levin.protocol_ok p ->
  Levin.feed (new_codec p) [] chunks = (its, o, (mc, src)) ->
  Levin.message_inv mc /\
  match o with
  | None | Some Panic => False
  | Some (Ok None) => len src < Z.max Levin.HEADER_SIZE (Levin.cap (Levin.bucket_codec mc))
  | _ => True
  end.
Proof.
  intros Hp H. assert (Hinv : Levin.message_inv (new_codec p)) by (by repeat split; apply Hp). destruct chunks as [|ch chunks].
  { injection H as <- <- <- <-. split; [done|]. unfold len, Levin.HEADER_SIZE. cbn. lia. }
  pose proof (message_decode_safe : forall bs ty (c : LevinCommand), Levin.decode_message bs ty c <> (Panic : result Levin.BucketError Message)) as Hsafe.
  rewrite Levin.feed_concat in H. destruct (Levin.drain_inv Hsafe _ _ _ _ _ _ Hinv H) as [Hinv' Ho]. split; [done|].
  destruct o as [r|]; [done|]. by apply Levin.drain_returns in H.
Qed.

(** ** The theorems at concrete messages *)
Module TestMessages.
Definition sync_data : CoreSyncData := mk_sync_data 5 1 7 384 (repeat 9 32) 16.
Definition node_data : BasicNodeData := mk_node_data 18080 (repeat 3 16) 77 1 0 0.
Definition a_peer : PeerListEntryBase := mk_peer_base (Clear (SocketV4 0x01020304 18080)) 5 0 0 0 0.
Definition hello : Message := M_Request (RQ_Handshake (mk_handshake_request node_data sync_data)).
Definition answer : Message := M_Response (RS_Handshake (mk_handshake_response node_data sync_data [a_peer])).
Definition blocks : Message :=
  M_Protocol (PM_GetObjectsResponse (mk_get_objects_response [mk_complete_entry false [1; 2; 3] 0 (NormalBlobs [[4]; [5; 6]]); mk_complete_entry true [7] 9 (NormalBlobs [])] (repeat 8 64) 11)).
Definition blocks_read : Message :=
  M_Protocol (PM_GetObjectsResponse (mk_get_objects_response [mk_complete_entry false [1; 2; 3] 0 (NormalBlobs [[4]; [5; 6]]); mk_complete_entry true [7] 9 NoBlobs] (repeat 8 64) 11)).

Lemma all_fit : Forall message_fits [hello; answer; blocks].
Proof.
  repeat constructor; cbn; unfold is_u, fits_signed, len, hash_ok, MAX_STRING_LEN_POSSIBLE; cbn [length repeat]; try done; try (split; vm_compute; congruence);
    try (vm_compute; congruence).
  exists 2%nat. reflexivity.
Qed.
Lemma hello_ok : message_ok hello.
Proof.
  repeat constructor; cbn; unfold is_u, len, hash_ok; cbn [length repeat]; try done; split; vm_compute; congruence.
Qed.
Lemma all_within : within_limits Levin.Protocol_default false (as_read <$> [hello; answer; blocks]).
Proof. repeat split; vm_compute; congruence. Qed.
Lemma default_fits : protocol_fits Levin.Protocol_default.
Proof. repeat split; vm_compute; congruence. Qed.
End TestMessages.
Import TestMessages.

Lemma p2p_messages_arrive_witness :
  exists bs, try_fold (fun dst m => Levin.message_encode (new_codec Levin.Protocol_default) (Levin.Body m) dst) [] [hello; answer; blocks] = Ok bs /\
    exists mc, Levin.feed (Item := Message) (new_codec Levin.Protocol_default) [] [take 100 bs; drop 100 bs] = ([hello; answer; blocks_read], Some (Ok None), (mc, [])).
Proof.
  destruct (p2p_messages_arrive Levin.Protocol_default [hello; answer; blocks] default_fits all_fit all_within) as (bs & Hbs & H).
  exists bs. split; [exact Hbs|]. destruct (H (take 100 bs) [drop 100 bs]) as (mc & Hf & _); [cbn [concat]; by rewrite app_nil_r, take_drop|].
  exists mc. exact Hf.
Defined.

Lemma p2p_fragments_arrive_witness :
  exists buckets, Levin.make_fragmented_messages Levin.Protocol_default 100 hello = Ok buckets /\ length buckets = 5%nat.
Proof.
  destruct (p2p_fragments_arrive (new_codec Levin.Protocol_default) 100 hello eq_refl eq_refl default_fits) as (bs & Hbs & _).
  - exact hello_ok.
  - split; vm_compute; intuition congruence.
  - exists bs. split; [exact Hbs|]. vm_compute in Hbs. injection Hbs as <-. reflexivity.
Defined.

Lemma peer_bytes_never_panic_witness :
  let '(_, o, (mc, src)) := Levin.feed (Item := Message) (new_codec Levin.Protocol_default) [] [repeat 1 20; repeat 0 30] in
  Levin.message_inv mc /\ o <> Some Panic.
Proof.
  destruct (Levin.feed _ _ _) as [[its o] [mc src]] eqn:E.
  destruct (peer_bytes_never_panic Levin.Protocol_default [repeat 1 20; repeat 0 30] its o mc src ltac:(vm_compute; intuition congruence) E) as [Hinv Ho].
  split; [exact Hinv|]. by intros ->.
Defined.

End WireFacts.
