(* ===== verification/PeerProtocol.v ===== *)
(** * Requests and responses of peers ([src/p2p/p2p-core/src/protocol.rs], [protocol/try_from.rs])

    The P2P protocol has requests, responses and notifications; inside the node everything
    is a request or a response. The conversions between the two views, and which message
    answers which request. *)
From S2P Require Import Prelude Bytes NetAddress WireMessages.
From Stdlib Require Import ZArith Lia.
From stdpp Require Import base tactics option list numbers.
Import Wire.

#[local] Open Scope Z_scope.

Module PeerProtocol.

Inductive MessageID :=
  | Id_Handshake | Id_TimedSync | Id_Ping | Id_SupportFlags
  | Id_GetObjects | Id_GetChain | Id_FluffyMissingTxs | Id_GetTxPoolCompliment | Id_NewBlock | Id_NewFluffyBlock | Id_NewTransactions.
#[export] Instance MessageID_eq_dec : EqDecision MessageID.
Proof. solve_decision. Defined.

Inductive BroadcastMessage := B_NewFluffyBlock (b : NewFluffyBlock) | B_NewTransactions (t : NewTransactions).

Inductive ProtocolRequest :=
  | PQ_GetObjects (m : GetObjectsRequest)
  | PQ_GetChain (m : ChainRequest)
  | PQ_FluffyMissingTxs (m : FluffyMissingTransactionsRequest)
  | PQ_GetTxPoolCompliment (m : GetTxPoolCompliment)
  | PQ_NewBlock (m : NewBlock)
  | PQ_NewFluffyBlock (m : NewFluffyBlock)
  | PQ_NewTransactions (m : NewTransactions).

Inductive PeerRequest := Q_Admin (m : AdminRequestMessage) | Q_Protocol (m : ProtocolRequest).

Inductive ProtocolResponse :=
  | PR_GetObjects (m : GetObjectsResponse)
  | PR_GetChain (m : ChainResponse)
  | PR_NewFluffyBlock (m : NewFluffyBlock)
  | PR_NewTransactions (m : NewTransactions)
  | PR_FluffyMissingTransactionsRequest (m : FluffyMissingTransactionsRequest)
  | PR_NA.

Inductive PeerResponse := R_Admin (m : AdminResponseMessage) | R_Protocol (m : ProtocolResponse).

(** [PeerRequest::id] *)
Definition request_id (r : PeerRequest) : MessageID :=
  match r with
  | Q_Admin (RQ_Handshake _) => Id_Handshake
  | Q_Admin (RQ_TimedSync _) => Id_TimedSync
  | Q_Admin RQ_Ping => Id_Ping
  | Q_Admin RQ_SupportFlags => Id_SupportFlags
  | Q_Protocol (PQ_GetObjects _) => Id_GetObjects
  | Q_Protocol (PQ_GetChain _) => Id_GetChain
  | Q_Protocol (PQ_FluffyMissingTxs _) => Id_FluffyMissingTxs
  | Q_Protocol (PQ_GetTxPoolCompliment _) => Id_GetTxPoolCompliment
  | Q_Protocol (PQ_NewBlock _) => Id_NewBlock
  | Q_Protocol (PQ_NewFluffyBlock _) => Id_NewFluffyBlock
  | Q_Protocol (PQ_NewTransactions _) => Id_NewTransactions
  end.

Definition needs_response (r : PeerRequest) : bool :=
  match r with
  | Q_Protocol (PQ_NewBlock _ | PQ_NewFluffyBlock _ | PQ_NewTransactions _) => false
  | _ => true
  end.

(** [PeerResponse::id] *)
Definition response_id (r : PeerResponse) : option MessageID :=
  match r with
  | R_Admin (RS_Handshake _) => Some Id_Handshake
  | R_Admin (RS_TimedSync _) => Some Id_TimedSync
  | R_Admin (RS_Ping _) => Some Id_Ping
  | R_Admin (RS_SupportFlags _) => Some Id_SupportFlags
  | R_Protocol (PR_GetObjects _) => Some Id_GetObjects
  | R_Protocol (PR_GetChain _) => Some Id_GetChain
  | R_Protocol (PR_NewFluffyBlock _) => Some Id_NewBlock
  | R_Protocol (PR_NewTransactions _) => Some Id_NewFluffyBlock
  | R_Protocol (PR_FluffyMissingTransactionsRequest _) => Some Id_FluffyMissingTxs
  | R_Protocol PR_NA => None
  end.

(** ** Conversions: [None] is [MessageConversionError] *)
Definition protocol_message_of_request (r : ProtocolRequest) : ProtocolMessage :=
  match r with
  | PQ_GetObjects v => PM_GetObjectsRequest v
  | PQ_GetChain v => PM_ChainRequest v
  | PQ_FluffyMissingTxs v => PM_FluffyMissingTransactionsRequest v
  | PQ_GetTxPoolCompliment v => PM_GetTxPoolCompliment v
  | PQ_NewBlock v => PM_NewBlock v
  | PQ_NewFluffyBlock v => PM_NewFluffyBlock v
  | PQ_NewTransactions v => PM_NewTransactions v
  end.
Definition protocol_request_of_message (m : ProtocolMessage) : option ProtocolRequest :=
  match m with
  | PM_GetObjectsRequest v => Some (PQ_GetObjects v)
  | PM_ChainRequest v => Some (PQ_GetChain v)
  | PM_FluffyMissingTransactionsRequest v => Some (PQ_FluffyMissingTxs v)
  | PM_GetTxPoolCompliment v => Some (PQ_GetTxPoolCompliment v)
  | PM_NewBlock v => Some (PQ_NewBlock v)
  | PM_NewFluffyBlock v => Some (PQ_NewFluffyBlock v)
  | PM_NewTransactions v => Some (PQ_NewTransactions v)
  | PM_GetObjectsResponse _ | PM_ChainEntryResponse _ => None
  end.
Definition message_of_request (r : PeerRequest) : Message :=
  match r with Q_Admin v => M_Request v | Q_Protocol v => M_Protocol (protocol_message_of_request v) end.
Definition request_of_message (m : Message) : option PeerRequest :=
  match m with
  | M_Request req => Some (Q_Admin req)
  | M_Protocol pro => Q_Protocol <$> protocol_request_of_message pro
  | M_Response _ => None
  end.
Definition protocol_message_of_response (r : ProtocolResponse) : option ProtocolMessage :=
  match r with
  | PR_NewTransactions v => Some (PM_NewTransactions v)
  | PR_NewFluffyBlock v => Some (PM_NewFluffyBlock v)
  | PR_GetChain v => Some (PM_ChainEntryResponse v)
  | PR_GetObjects v => Some (PM_GetObjectsResponse v)
  | PR_FluffyMissingTransactionsRequest v => Some (PM_FluffyMissingTransactionsRequest v)
  | PR_NA => None
  end.
Definition protocol_response_of_message (m : ProtocolMessage) : option ProtocolResponse :=
  match m with
  | PM_NewTransactions v => Some (PR_NewTransactions v)
  | PM_NewFluffyBlock v => Some (PR_NewFluffyBlock v)
  | PM_ChainEntryResponse v => Some (PR_GetChain v)
  | PM_GetObjectsResponse v => Some (PR_GetObjects v)
  | PM_ChainRequest _ | PM_FluffyMissingTransactionsRequest _ | PM_GetObjectsRequest _ | PM_GetTxPoolCompliment _ | PM_NewBlock _ => None
  end.
Definition response_of_message (m : Message) : option PeerResponse :=
  match m with
  | M_Response res => Some (R_Admin res)
  | M_Protocol pro => R_Protocol <$> protocol_response_of_message pro
  | M_Request _ => None
  end.
Definition message_of_response (r : PeerResponse) : option Message :=
  match r with R_Admin v => Some (M_Response v) | R_Protocol v => M_Protocol <$> protocol_message_of_response v end.
Definition broadcast_of_request (r : PeerRequest) : option BroadcastMessage :=
  match r with
  | Q_Protocol (PQ_NewTransactions txs) => Some (B_NewTransactions txs)
  | Q_Protocol (PQ_NewFluffyBlock block) => Some (B_NewFluffyBlock block)
  | _ => None
  end.
Definition request_of_broadcast (b : BroadcastMessage) : PeerRequest :=
  match b with
  | B_NewTransactions txs => Q_Protocol (PQ_NewTransactions txs)
  | B_NewFluffyBlock block => Q_Protocol (PQ_NewFluffyBlock block)
  end.

(** [Message::is_request] *)
Definition is_request (m : Message) : bool := match m with M_Request _ => true | _ => false end.
Definition is_response (m : Message) : bool := match m with M_Response _ => true | _ => false end.
Definition is_protocol (m : Message) : bool := match m with M_Protocol _ => true | _ => false end.

(** ** Which message answers which request ([client/connection.rs]) *)
Definition levin_command_response (message_id : MessageID) (command : LevinCommand) : bool :=
  match message_id, command with
  | Id_Handshake, C_Handshake
  | Id_TimedSync, C_TimedSync
  | Id_Ping, C_Ping
  | Id_SupportFlags, C_SupportFlags
  | Id_GetObjects, C_GetObjectsResponse
  | Id_GetChain, C_ChainResponse
  | Id_FluffyMissingTxs, C_NewFluffyBlock
  | Id_GetTxPoolCompliment, C_NewTransactions => true
  | _, _ => false
  end.

(** The table in the documentation of [protocol.rs]: the response each request gets. *)
Definition answers (r : PeerRequest) (a : PeerResponse) : bool :=
  match r, a with
  | Q_Admin (RQ_Handshake _), R_Admin (RS_Handshake _)
  | Q_Admin (RQ_TimedSync _), R_Admin (RS_TimedSync _)
  | Q_Admin RQ_Ping, R_Admin (RS_Ping _)
  | Q_Admin RQ_SupportFlags, R_Admin (RS_SupportFlags _)
  | Q_Protocol (PQ_GetObjects _), R_Protocol (PR_GetObjects _)
  | Q_Protocol (PQ_GetChain _), R_Protocol (PR_GetChain _)
  | Q_Protocol (PQ_FluffyMissingTxs _), R_Protocol (PR_NewFluffyBlock _)
  | Q_Protocol (PQ_GetTxPoolCompliment _), R_Protocol (PR_NewTransactions _)
  | Q_Protocol (PQ_NewBlock _ | PQ_NewFluffyBlock _ | PQ_NewTransactions _), R_Protocol PR_NA => true
  | _, _ => false
  end.

(** ** Lemmas *)

(** A message that may answer a request converts to a response of the right kind. *)
Lemma response_converts r m :
  is_request m = false -> levin_command_response (request_id r) (message_command m) = true ->
  exists a, response_of_message m = Some a /\ answers r a = true.
Proof.
  destruct m as [m|m|m]; [done|..]; intros _ Hc;
    destruct r as [[]|[]], m; cbn in Hc |- *; try done; eauto.
Qed.

Lemma request_roundtrip r : request_of_message (message_of_request r) = Some r.
Proof. by destruct r as [|[]]. Qed.

Lemma request_converts m : is_request m = true -> exists r, request_of_message m = Some r.
Proof. destruct m; [eauto|done..]. Qed.

Lemma broadcast_needs_no_response b : needs_response (request_of_broadcast b) = false.
Proof. by destruct b. Qed.

Lemma no_response_answer r : needs_response r = false -> answers r (R_Protocol PR_NA) = true.
Proof. by destruct r as [|[]]. Qed.

(** The message a peer's request is answered with is not taken for a request by the peer
    that asked: what the handler answers converts to a message the asking side accepts. *)
Lemma answer_accepted r a :
  answers r a = true -> needs_response r = true ->
  exists m, message_of_response a = Some m /\ is_request m = false /\
    levin_command_response (request_id r) (message_command m) = true /\ response_of_message m = Some a.
Proof. destruct r as [[]|[]], a as [[]|[]]; cbn; try done; eauto. Qed.

(** [PeerResponse::id] does not name the request of a response for two of them, although an
    id is documented to be shared by a request and its response. *)
Theorem response_id_is_not_the_requests :
  (forall m b, answers (Q_Protocol (PQ_FluffyMissingTxs m)) (R_Protocol (PR_NewFluffyBlock b)) = true /\
     response_id (R_Protocol (PR_NewFluffyBlock b)) <> Some (request_id (Q_Protocol (PQ_FluffyMissingTxs m)))) /\
  (forall m t, answers (Q_Protocol (PQ_GetTxPoolCompliment m)) (R_Protocol (PR_NewTransactions t)) = true /\
     response_id (R_Protocol (PR_NewTransactions t)) <> Some (request_id (Q_Protocol (PQ_GetTxPoolCompliment m)))).
Proof. done. Qed.

End PeerProtocol.
