(* ===== verification/Connection.v ===== *)
(** * The connection to a peer ([src/p2p/p2p-core/src/client.rs], [client/connection.rs],
    [client/weak.rs], [client/timeout_monitor.rs], [error.rs])

    A connection is a task that owns the socket. The rest of the node has clients: handles
    that put requests into the task's queue, each with a channel for its response. A
    semaphore with one permit allows one request that needs a response at a time. The
    timeout monitor is a task that sends a timed sync now and then.

    The model is a transition function on the whole: the task, the objects it shares with
    its clients, the clients and the monitor. One turn of the task's [select!] is one step.
    What comes from outside (messages, timers, the outcome of sending, what the handler of
    the peer's requests answers, who gets a permit or a free slot first) is an argument of
    the step. A response channel is a number, its answers are a log; the future a caller
    waits on ([InfallibleOneshotReceiver] of [src/helper/src/asynch.rs]) is polled by the
    event [PollResponse] and panics when its channel is gone without an answer. *)
From S2P Require Import Prelude Bytes Levin NetAddress WireMessages PeerProtocol.
From Stdlib Require Import ZArith Lia.
From stdpp Require Import base tactics option list numbers gmap.
Import Wire PeerProtocol.

#[local] Open Scope Z_scope.

Module Connection.

(** [PeerError]; the texts of [ResponseError] and of the wrapped errors are left out. *)
Inductive PeerError :=
  | TimedOut
  | ConnectionClosed
  | ClientChannelClosed
  | ResponseError
  | PeerSentIncorrectResponse
  | PeerSentInvalidMessage
  | ServiceError
  | BucketError (e : Levin.BucketError)
  | HandshakeFailed
  | PeerIO.

#[local] Abbreviation Answer := (result PeerError PeerResponse).

Record ConnectionTaskRequest := mk_task_request { request : PeerRequest; response_channel : nat; permit : bool }.

(** [WaitingForResponse] holds the permit of its request. *)
Inductive State := WaitingForRequest | WaitingForResponse (request_id : MessageID) (tx : nat).

Record Conn := mk_conn {
  running : bool;
  eager : list ProtocolMessage;
  state : State;
  request_timeout : bool;
  peer_sink : list Message;
}.

(** What the task shares with its clients: the queue, whether its receiver was closed, the
    permits of the semaphore, the error slot, the token of the handle, the answers given
    and the requests made so far; the channel of a request is its position among these. *)
Record Shared := mk_shared {
  queue : list ConnectionTaskRequest;
  closed : bool;
  available : nat;
  error : option PeerError;
  token : bool;
  answered : list (nat * Answer);
  issued : list PeerRequest;
}.

Definition set_queue (q : list ConnectionTaskRequest) (s : Shared) : Shared :=
  mk_shared q (closed s) (available s) (error s) (token s) (answered s) (issued s).
Definition set_available (n : nat) (s : Shared) : Shared :=
  mk_shared (queue s) (closed s) n (error s) (token s) (answered s) (issued s).
Definition set_token (s : Shared) : Shared :=
  mk_shared (queue s) (closed s) (available s) (error s) true (answered s) (issued s).
Definition close_receiver (s : Shared) : Shared :=
  mk_shared (queue s) true (available s) (error s) (token s) (answered s) (issued s).
Definition send_answer (tx : nat) (a : Answer) (s : Shared) : Shared :=
  mk_shared (queue s) (closed s) (available s) (error s) (token s) (answered s ++ [(tx, a)]) (issued s).
Definition issue (r : PeerRequest) (s : Shared) : Shared :=
  mk_shared (queue s) (closed s) (available s) (error s) (token s) (answered s) (issued s ++ [r]).

(** [drop] of an [Option<OwnedSemaphorePermit>] *)
Definition drop_permit (p : bool) (s : Shared) : Shared := if p then set_available (S (available s)) s else s.

(** [SharedError]: a cell that is set once. *)
Definition try_get_err (s : Shared) : option PeerError := error s.
Definition try_insert_err (e : PeerError) (s : Shared) : Shared :=
  mk_shared (queue s) (closed s) (available s) (Some (default e (error s))) (token s) (answered s) (issued s).

Definition set_state (st : State) (c : Conn) : Conn := mk_conn (running c) (eager c) st (request_timeout c) (peer_sink c).
Definition set_request_timeout (b : bool) (c : Conn) : Conn := mk_conn (running c) (eager c) (state c) b (peer_sink c).
Definition push_sink (m : Message) (c : Conn) : Conn := mk_conn (running c) (eager c) (state c) (request_timeout c) (peer_sink c ++ [m]).
Definition set_eager (l : list ProtocolMessage) (c : Conn) : Conn := mk_conn (running c) l (state c) (request_timeout c) (peer_sink c).

(** ** The task *)

(** What the outside did while a step ran: how sending to the peer went, and what became of
    the handler of a peer's request. *)
Inductive SendOutcome := Sent | SendTimedOut | SendFailed (e : Levin.BucketError).
Inductive HandlerOutcome := Handled (r : PeerResponse) | HandlerFailed | HandlerTimedOut.

(** Which arms of the [select!] are ready, besides the queue and the token: the request
    timer, the broadcast stream, the end of the queue (no sender is left) and the peer's
    stream. *)
Record Inputs := mk_inputs {
  timer : bool;
  broadcast : option (option BroadcastMessage);
  no_senders : bool;
  incoming : option (option (Levin.BucketError + Message));
  handler : PeerRequest -> HandlerOutcome;
  sending : SendOutcome;
}.

Definition act (A : Type) : Type := Conn * Shared -> result PeerError A * (Conn * Shared).
#[export] Instance act_ret : MRet act := fun A a s => (Ok a, s).
#[export] Instance act_bind : MBind act := fun A B f x s =>
  match x s with (Ok a, s) => f a s | (Err e, s) => (Err e, s) | (Panic, s) => (Panic, s) end.
Definition on_conn (f : Conn -> Conn) : act () := fun s => (Ok (), (f s.1, s.2)).
Definition on_shared (f : Shared -> Shared) : act () := fun s => (Ok (), (s.1, f s.2)).
Definition fails {A} (r : result PeerError A) : act A := fun s => (r, s).

Section connection.
Variable inp : Inputs.

Definition send_message_to_peer (mes : Message) : act () :=
  match sending inp with
  | Sent => on_conn (push_sink mes)
  | SendTimedOut => fails (Err TimedOut)
  | SendFailed e => fails (Err (BucketError e))
  end.

Definition handle_client_broadcast (mes : BroadcastMessage) : act () :=
  match mes with
  | B_NewFluffyBlock block => send_message_to_peer (M_Protocol (PM_NewFluffyBlock block))
  | B_NewTransactions txs => send_message_to_peer (M_Protocol (PM_NewTransactions txs))
  end.

Definition handle_client_request (req : ConnectionTaskRequest) : act () := fun s =>
  if needs_response (request req) then
    match state s.1, permit req with
    | WaitingForRequest, true =>
        (_ ← on_conn (set_state (WaitingForResponse (request_id (request req)) (response_channel req)));
         _ ← send_message_to_peer (message_of_request (request req));
         on_conn (set_request_timeout true)) s
    | _, _ => (Panic, s)
    end
  else
    match send_message_to_peer (message_of_request (request req)) s with
    | (Ok _, (c, sh)) => (Ok (), (c, drop_permit (permit req) (send_answer (response_channel req) (Ok (R_Protocol PR_NA)) sh)))
    | (Err e, (c, sh)) => (Err e, (c, drop_permit (permit req) (send_answer (response_channel req) (Err e) sh)))
    | (Panic, s) => (Panic, s)
    end.

Definition handle_peer_request (req : PeerRequest) : act () :=
  match handler inp req with
  | HandlerTimedOut => fails (Err TimedOut)
  | HandlerFailed => fails (Err ServiceError)
  | Handled res =>
      match message_of_response res with
      | Some mes => send_message_to_peer mes
      | None => mret ()
      end
  end.

Definition try_handle_peer_request (req : option PeerRequest) : act () :=
  match req with Some req => handle_peer_request req | None => fails (Err PeerSentInvalidMessage) end.

Definition handle_potential_response (mes : Message) : act () := fun s =>
  if is_request mes then
    match request_of_message mes with Some req => handle_peer_request req s | None => (Panic, s) end
  else
    match state s.1 with
    | WaitingForRequest => (Panic, s)
    | WaitingForResponse request_id tx =>
        if levin_command_response request_id (message_command mes) then
          let s := (set_state WaitingForRequest s.1, drop_permit true s.2) in
          match response_of_message mes with
          | Some resp => (Ok (), (set_request_timeout false s.1, send_answer tx (Ok resp) s.2))
          | None => (Err PeerSentInvalidMessage, s)
          end
        else try_handle_peer_request (request_of_message mes) s
    end.

(** The arms both states share: the broadcast stream and the queue; [peer] is the last arm. *)
Definition select_rest (peer : option (Levin.BucketError + Message) -> act ()) (s : Conn * Shared)
    : option (result PeerError () * (Conn * Shared)) :=
  match broadcast inp with
  | Some (Some broadcast_req) => Some (handle_client_broadcast broadcast_req s)
  | Some None => Some (Err ClientChannelClosed, s)
  | None =>
      match queue s.2 with
      | client_req :: q => Some (handle_client_request client_req (s.1, set_queue q s.2))
      | [] =>
          if no_senders inp then Some (Err ClientChannelClosed, s)
          else match incoming inp with Some m => Some (peer m s) | None => None end
      end
  end.

Definition state_waiting_for_request (s : Conn * Shared) : option (result PeerError () * (Conn * Shared)) :=
  if token s.2 then Some (Err ConnectionClosed, s)
  else
    select_rest
      (fun peer_message =>
         match peer_message with
         | Some (inr mes) => try_handle_peer_request (request_of_message mes)
         | Some (inl e) => fails (Err (BucketError e))
         | None => fails (Err ClientChannelClosed)
         end) s.

Definition state_waiting_for_response (s : Conn * Shared) : option (result PeerError () * (Conn * Shared)) :=
  if token s.2 then Some (Err ConnectionClosed, s)
  else if negb (request_timeout s.1) then Some (Panic, s)
  else if timer inp then Some (Err ClientChannelClosed, s)
  else
    select_rest
      (fun peer_message =>
         match peer_message with
         | Some (inr mes) => handle_potential_response mes
         | Some (inl e) => fails (Err (BucketError e))
         | None => fails (Err ClientChannelClosed)
         end) s.
End connection.

Definition drain (err : PeerError) (s : Shared) (req : ConnectionTaskRequest) : Shared :=
  drop_permit (permit req) (send_answer (response_channel req) (Err err) s).

Definition shutdown (err : PeerError) (s : Conn * Shared) : Conn * Shared :=
  let sh := try_insert_err err (close_receiver s.2) in
  let sh :=
    match state s.1 with
    | WaitingForResponse _ tx => drop_permit true (send_answer tx (Err err) sh)
    | WaitingForRequest => sh
    end in
  let sh := foldl (drain err) (set_queue [] sh) (queue sh) in
  (mk_conn false (eager s.1) WaitingForRequest (request_timeout s.1) (peer_sink s.1), set_token sh).

(** One turn of [run]: the messages that came during the handshake first, then the loop.
    [Ok None]: no arm is ready. *)
Definition run_poll (inp : Inputs) (s : Conn * Shared) : result PeerError (option (Conn * Shared)) :=
  let turn :=
    match eager s.1 with
    | message :: rest =>
        Some (try_handle_peer_request inp (request_of_message (M_Protocol message)) (set_eager rest s.1, s.2))
    | [] =>
        match state s.1 with
        | WaitingForRequest => state_waiting_for_request inp s
        | WaitingForResponse _ _ => state_waiting_for_response inp s
        end
    end in
  match turn with
  | None => Ok None
  | Some (Ok _, s) => Ok (Some s)
  | Some (Err e, s) => Ok (Some (shutdown e s))
  | Some (Panic, _) => Panic
  end.

(** ** Clients *)

(** The [PollSender] of a client: it holds no slot of the queue, holds one, or has found the
    queue closed. *)
Inductive Sender := SIdle | SReserved | SClosed.
#[export] Instance Sender_eq_dec : EqDecision Sender.
Proof. solve_decision. Defined.

(** A [WeakClient] is also used as a [WeakBroadcastClient]. *)
Inductive Mode := Requests | Broadcasts.
#[export] Instance Mode_eq_dec : EqDecision Mode.
Proof. solve_decision. Defined.

(** [Client] and [WeakClient]. [ready] is for which kind of call the last [poll_ready] said
    that the client is ready. *)
Record Client := mk_client { strong : bool; sender : Sender; has_permit : bool; ready : option Mode }.

Inductive Poll := Pending | Ready (r : result PeerError ()).

Definition set_err (e : PeerError) (s : Shared) : PeerError * Shared := (default e (error s), try_insert_err e s).

(** [granted]: a free slot is given to this client. *)
Definition poll_reserve (granted : bool) (c : Client) (s : Shared) : Poll * Client :=
  let with_sender x := mk_client (strong c) x (has_permit c) (ready c) in
  match sender c with
  | SReserved => (Ready (Ok ()), c)
  | SClosed => (Ready (Err ClientChannelClosed), c)
  | SIdle =>
      if closed s then (Ready (Err ClientChannelClosed), with_sender SClosed)
      else if granted then (Ready (Ok ()), with_sender SReserved)
      else (Pending, c)
  end.

Definition reserve_or_err (mode : Mode) (granted : bool) (c : Client) (s : Shared) : Poll * Client * Shared :=
  match poll_reserve granted c s with
  | (Ready (Ok _), c) => (Ready (Ok ()), mk_client (strong c) (sender c) (has_permit c) (Some mode), s)
  | (Ready _, c) => let '(err, s) := set_err ClientChannelClosed s in (Ready (Err err), c, s)
  | (Pending, c) => (Pending, c, s)
  end.

Definition not_ready (c : Client) : Client := mk_client (strong c) (sender c) (has_permit c) None.

(** [Client::poll_ready] and [WeakClient::poll_ready]; [acquired]: the permit is given to
    this client; [finished]: the task of the connection or of the monitor has ended. *)
Definition poll_ready (acquired granted finished : bool) (c : Client) (s : Shared) : Poll * Client * Shared :=
  let c := not_ready c in
  match try_get_err s with
  | Some err => (Ready (Err err), c, s)
  | None =>
      if strong c && finished then let '(err, s) := set_err ClientChannelClosed s in (Ready (Err err), c, s)
      else if has_permit c then reserve_or_err Requests granted c s
      else if acquired then
        reserve_or_err Requests granted (mk_client (strong c) (sender c) true (ready c)) (set_available (pred (available s)) s)
      else (Pending, c, s)
  end.

(** [WeakBroadcastClient::poll_ready] *)
Definition broadcast_poll_ready (granted : bool) (c : Client) (s : Shared) : Poll * Client * Shared :=
  let s := drop_permit (has_permit c) s in
  let c := mk_client (strong c) (sender c) false None in
  match try_get_err s with
  | Some err => (Ready (Err err), c, s)
  | None => reserve_or_err Broadcasts granted c s
  end.

Section sending.
(** What becomes of a request sent in a slot that was reserved before the receiver closed
    the queue. The documentation of the channel says that outstanding permits can still
    send ([true]: the request stays in the queue), that of the sender that sending fails
    once the channel is closed ([false]). *)
Variable send_after_close : bool.

(** [connection_tx.send_item(req)], and what [call] does when it fails. *)
Definition send_item (req : ConnectionTaskRequest) (c : Client) (s : Shared) : result PeerError (Client * Shared) :=
  let idle := mk_client (strong c) SIdle (has_permit c) (ready c) in
  let refused c :=
    Ok (c, drop_permit (permit req) (send_answer (response_channel req) (Err ClientChannelClosed) (try_insert_err ClientChannelClosed s))) in
  match sender c with
  | SIdle => Panic
  | SReserved => if closed s && negb send_after_close then refused idle else Ok (idle, set_queue (queue s ++ [req]) s)
  | SClosed => refused c
  end.

(** [Client::call] and [WeakClient::call] *)
Definition call (r : PeerRequest) (c : Client) (s : Shared) : result PeerError (Client * Shared) :=
  if has_permit c then
    send_item (mk_task_request r (length (issued s)) true) (mk_client (strong c) (sender c) false None) (issue r s)
  else Panic.

(** [WeakBroadcastClient::call] *)
Definition broadcast_call (b : BroadcastMessage) (c : Client) (s : Shared) : result PeerError (Client * Shared) :=
  let r := request_of_broadcast b in
  send_item (mk_task_request r (length (issued s)) false) (not_ready c) (issue r s).

(** ** The timeout monitor: waiting for a tick, holding the permit while the node's sync data
    is fetched, waiting for the answer, or ended. *)
Inductive Monitor := MIdle | MHolding | MWaiting (tx : nat) | MFinished.

Definition MAX_PEERS_IN_PEER_LIST_MESSAGE : Z := 250.
Definition CLIENT_QUEUE_SIZE : nat := 5.

(** ** The whole *)
Record World := mk_world { conn : Conn; shared : Shared; clients : gmap nat Client; monitor : Monitor }.

Definition holds_slot (c : Client) : bool := bool_decide (sender c = SReserved).
Definition slots_taken (w : World) : nat :=
  length (queue (shared w)) + length (filter (fun x => holds_slot x.2 = true) (map_to_list (clients w))).
Definition slot_free (w : World) : bool := (slots_taken w <? CLIENT_QUEUE_SIZE)%nat.
Definition permit_free (w : World) : bool := (0 <? available (shared w))%nat.
Definition is_finished (w : World) : bool := negb (running (conn w)) || match monitor w with MFinished => true | _ => false end.
Definition senders_gone (w : World) : bool :=
  bool_decide (clients w = ∅) && match monitor w with MIdle | MFinished => true | _ => false end.

Definition with_client (i : nat) (c : Client) (s : Shared) (w : World) : World := mk_world (conn w) s (<[i := c]> (clients w)) (monitor w).
Definition with_monitor (m : Monitor) (s : Shared) (w : World) : World := mk_world (conn w) s (clients w) m.

Definition answer_of (tx : nat) (s : Shared) : option Answer := snd <$> (snd <$> list_find (fun x => x.1 = tx) (answered s)).

(** The sender of a response channel still exists: the task waits for the response, or the
    request is in the queue. The queue with what is in it exists as long as the task runs,
    and after that as long as there are senders. *)
Definition channel_open (tx : nat) (w : World) : bool :=
  match state (conn w) with WaitingForResponse _ tx' => bool_decide (tx' = tx) | WaitingForRequest => false end
  || bool_decide (tx ∈ map response_channel (queue (shared w))) && (running (conn w) || negb (senders_gone w)).

(** [InfallibleOneshotReceiver::poll], the future that [call] returns: the answer, pending
    ([None]), or a panic if the channel was dropped unanswered. *)
Definition poll_response (tx : nat) (w : World) : result PeerError (option Answer) :=
  match answer_of tx (shared w) with
  | Some a => Ok (Some a)
  | None => if channel_open tx w then Ok None else Panic
  end.

Inductive Event :=
  | Run (inp : Inputs)
  | PollReady (i : nat) (mode : Mode) (acquired granted : bool)
  | Call (i : nat) (r : PeerRequest)
  | BroadcastCall (i : nat) (b : BroadcastMessage)
  | PollResponse (tx : nat)
  | Downgrade (i j : nat)
  | DropClient (i : nat)
  | CancelToken
  | MonitorClosed
  | MonitorTick (acquired : bool)
  | MonitorServiceFailed
  | MonitorSend (data : CoreSyncData)
  | MonitorAnswer (accepted : bool).

(** [None]: the event cannot happen. A call follows a [poll_ready] that said ready. *)
Definition exec (ev : Event) (w : World) : option (result PeerError World) :=
  let s := shared w in
  match ev with
  | Run inp =>
      if running (conn w) && Bool.eqb (no_senders inp) (senders_gone w) then
        match run_poll inp (conn w, s) with
        | Ok (Some (c, s)) => Some (Ok (mk_world c s (clients w) (monitor w)))
        | Ok None => None
        | Err e => Some (Err e)
        | Panic => Some Panic
        end
      else None
  | PollReady i mode acquired granted =>
      c ← clients w !! i;
      if implb acquired (permit_free w) && implb granted (slot_free w) && negb (strong c && bool_decide (mode = Broadcasts)) then
        let '(_, c, s) :=
          match mode with
          | Requests => poll_ready acquired granted (is_finished w) c s
          | Broadcasts => broadcast_poll_ready granted c s
          end in
        Some (Ok (with_client i c s w))
      else None
  | Call i r =>
      c ← clients w !! i;
      if bool_decide (ready c = Some Requests) then Some ('(c, s) ← call r c s; Ok (with_client i c s w)) else None
  | BroadcastCall i b =>
      c ← clients w !! i;
      if bool_decide (ready c = Some Broadcasts) then Some ('(c, s) ← broadcast_call b c s; Ok (with_client i c s w)) else None
  | PollResponse tx =>
      if bool_decide (tx < length (issued s))%nat then Some (_ ← poll_response tx w; Ok w) else None
  | Downgrade i j =>
      c ← clients w !! i;
      if strong c && bool_decide (clients w !! j = None) then
        Some (Ok (with_client j (mk_client false (match sender c with SClosed => SClosed | _ => SIdle end) false None) s w))
      else None
  | DropClient i =>
      c ← clients w !! i;
      let s := drop_permit (has_permit c) s in
      Some (Ok (mk_world (conn w) (if strong c then set_token s else s) (delete i (clients w)) (monitor w)))
  | CancelToken => Some (Ok (mk_world (conn w) (set_token s) (clients w) (monitor w)))
  | MonitorClosed =>
      match monitor w with
      | MIdle => if token s then Some (Ok (with_monitor MFinished s w)) else None
      | _ => None
      end
  | MonitorTick acquired =>
      match monitor w with
      | MIdle =>
          if bool_decide (clients w = ∅) then Some (Ok (with_monitor MFinished s w))
          else if negb (implb acquired (permit_free w)) then None
          else if acquired then Some (Ok (with_monitor MHolding (set_available (pred (available s)) s) w))
          else Some (Ok w)
      | _ => None
      end
  | MonitorServiceFailed =>
      match monitor w with MHolding => Some (Ok (with_monitor MFinished (drop_permit true s) w)) | _ => None end
  | MonitorSend data =>
      match monitor w with
      | MHolding =>
          if closed s then Some (Ok (with_monitor MFinished (drop_permit true s) w))
          else if slot_free w then
            let r := Q_Admin (RQ_TimedSync (mk_timed_sync_request data)) in
            let tx := length (issued s) in
            Some (Ok (with_monitor (MWaiting tx) (set_queue (queue s ++ [mk_task_request r tx true]) (issue r s)) w))
          else None
      | _ => None
      end
  | MonitorAnswer accepted =>
      match monitor w with
      | MWaiting tx =>
          match answer_of tx s with
          | Some (Ok (R_Admin (RS_TimedSync timed_sync))) =>
              if MAX_PEERS_IN_PEER_LIST_MESSAGE <? len (tr_local_peerlist_new timed_sync) then Some (Ok (with_monitor MFinished s w))
              else Some (Ok (with_monitor (if accepted then MIdle else MFinished) s w))
          | Some (Ok _) => Some Panic
          | Some (Err _) => Some (Ok (with_monitor MFinished s w))
          | Some Panic => Some Panic
          | None => None
          end
      | _ => None
      end
  end.

(** The end of a handshake: one client, the monitor, and the task with the messages that
    came during the handshake. *)
Definition start (eager_protocol_messages : list ProtocolMessage) : World :=
  mk_world (mk_conn true eager_protocol_messages WaitingForRequest false [])
    (mk_shared [] false 1 None false [] []) {[0%nat := mk_client true SIdle false None]} MIdle.

(** Runs; after a panic there is no step. *)
Inductive reached (eager : list ProtocolMessage) : World -> Prop :=
  | reached_start : reached eager (start eager)
  | reached_step w ev w' : reached eager w -> exec ev w = Some (Ok w') -> reached eager w'.
End sending.

End Connection.
