(* ===== verification/ConnectionFacts.v ===== *)
(** * Connections: theorems

    The invariant of a connection with its clients and its monitor: the permit is in one
    place, every response channel is in one place until it is answered, and what is
    answered fits the request. *)
From S2P Require Import Prelude Bytes Levin NetAddress WireMessages PeerProtocol Connection.
From Stdlib Require Import ZArith Lia.
From stdpp Require Import base tactics option list numbers gmap.
Import Wire PeerProtocol Connection.

#[local] Open Scope Z_scope.

Module ConnectionFacts.

Definition b2n (b : bool) : nat := if b then 1%nat else 0%nat.
Definition state_permits (c : Conn) : nat := match state c with WaitingForRequest => 0%nat | _ => 1%nat end.
Definition state_tx (c : Conn) : list nat := match state c with WaitingForRequest => [] | WaitingForResponse _ tx => [tx] end.
Definition queue_permits (q : list ConnectionTaskRequest) : nat := sum_list_with (fun r => b2n (permit r)) q.

(** Where the response channels are: answered, in the queue, or waited for. *)
Definition places (s : Conn * Shared) : list nat := (answered s.2).*1 ++ map response_channel (queue s.2) ++ state_tx s.1.

Definition answer_ok (issued : list PeerRequest) (x : nat * result PeerError PeerResponse) : Prop :=
  match x.2 with
  | Ok a => exists r, issued !! x.1 = Some r /\ answers r a = true
  | Err _ => True
  | Panic => False
  end.
Definition queued_ok (issued : list PeerRequest) (r : ConnectionTaskRequest) : Prop :=
  issued !! response_channel r = Some (request r) /\ (needs_response (request r) = true -> permit r = true).
Definition waiting_ok (issued : list PeerRequest) (st : State) : Prop :=
  match st with
  | WaitingForRequest => True
  | WaitingForResponse id tx => exists r, issued !! tx = Some r /\ request_id r = id /\ needs_response r = true
  end.

(** The invariant of the task and the shared objects; [others] is the number of permits
    held by clients and monitor. *)
Record task_inv (others : nat) (s : Conn * Shared) : Prop := {
  inv_permits : (available s.2 + state_permits s.1 + queue_permits (queue s.2) + others = 1)%nat;
  inv_places : places s ≡ₚ seq 0 (length (issued s.2));
  inv_queue : Forall (queued_ok (issued s.2)) (queue s.2);
  inv_waiting : waiting_ok (issued s.2) (state s.1);
  inv_answers : Forall (answer_ok (issued s.2)) (answered s.2);
}.

Definition timeout_set (c : Conn) : Prop := state c <> WaitingForRequest -> request_timeout c = true.

(** What a handler of the task keeps, with its outcome. *)
Definition good (others : nat) (x : result PeerError () * (Conn * Shared)) : Prop :=
  task_inv others x.2 /\
  match x.1 with Ok _ => timeout_set x.2.1 | Err _ => True | Panic => False end.

(** What no handler touches. *)
Definition same_frame (s s' : Conn * Shared) : Prop :=
  running s'.1 = running s.1 /\ closed s'.2 = closed s.2 /\ error s'.2 = error s.2 /\ token s'.2 = token s.2 /\ issued s'.2 = issued s.2.

#[local] Ltac permits := unfold state_permits, queue_permits in *; cbn in *; lia.
#[local] Ltac frame := repeat split; cbn; try done.

Lemma queue_permits_app q q' : queue_permits (q ++ q') = (queue_permits q + queue_permits q')%nat.
Proof. apply sum_list_with_app. Qed.

Lemma drop_permit_available p s : available (drop_permit p s) = (b2n p + available s)%nat.
Proof. by destruct p. Qed.
Lemma drop_permit_rest p s :
  queue (drop_permit p s) = queue s /\ answered (drop_permit p s) = answered s /\ issued (drop_permit p s) = issued s /\
  closed (drop_permit p s) = closed s /\ error (drop_permit p s) = error s /\ token (drop_permit p s) = token s.
Proof. by destruct p. Qed.

Section task.
Context (inp : Inputs) (others : nat).

(** A handler applied to a state with the invariant. *)
Definition keeps (s : Conn * Shared) (x : result PeerError () * (Conn * Shared)) : Prop := good others x /\ same_frame s x.2.

Lemma sent_keeps s mes : task_inv others s -> timeout_set s.1 -> keeps s (send_message_to_peer inp mes s).
Proof.
  intros [] Ht. unfold send_message_to_peer. destruct (sending inp); cbn; (split; [split; [done|]|frame]); try done.
Qed.

Lemma failed_keeps s e : task_inv others s -> keeps s (Err e, s).
Proof. intros H. split; [done|frame]. Qed.

Lemma broadcast_keeps s b : task_inv others s -> timeout_set s.1 -> keeps s (handle_client_broadcast inp b s).
Proof. destruct b; apply sent_keeps. Qed.

Lemma peer_request_keeps s r : task_inv others s -> timeout_set s.1 -> keeps s (handle_peer_request inp r s).
Proof.
  intros Hi Ht. unfold handle_peer_request. destruct (handler inp r) as [a| |]; [|by apply failed_keeps..].
  destruct (message_of_response a); [by apply sent_keeps|]. split; [done|frame].
Qed.

Lemma try_peer_request_keeps s r : task_inv others s -> timeout_set s.1 -> keeps s (try_handle_peer_request inp r s).
Proof. intros. destruct r; [by apply peer_request_keeps|by apply failed_keeps]. Qed.

(** The permit is in one place: while the task waits for a response, no request in the
    queue has one. *)
Lemma one_permit s req q :
  task_inv others s -> queue s.2 = req :: q -> permit req = true -> state s.1 = WaitingForRequest.
Proof.
  intros [Hp _ _ _ _] Hq Hr. rewrite Hq in Hp. unfold state_permits in Hp. cbn in Hp. rewrite Hr in Hp.
  destruct (state s.1); [done|cbn in Hp; lia].
Qed.

Lemma places_pop s req q :
  task_inv others s -> queue s.2 = req :: q ->
  (answered s.2).*1 ++ response_channel req :: map response_channel q ++ state_tx s.1 ≡ₚ seq 0 (length (issued s.2)).
Proof. intros [_ H _ _ _] Hq. unfold places in H. by rewrite Hq in H. Qed.

(** A request of the queue that is answered at once. *)
Lemma answered_at_once s req q a :
  task_inv others s -> queue s.2 = req :: q -> answer_ok (issued s.2) (response_channel req, a) ->
  task_inv others (s.1, drop_permit (permit req) (send_answer (response_channel req) a (set_queue q s.2))).
Proof.
  intros Hi Hq Ha. pose proof (places_pop _ _ _ Hi Hq) as Hpl. destruct Hi as [Hp _ Hqu Hw Han]. rewrite Hq in Hp, Hqu.
  apply Forall_cons in Hqu as [_ Hqu].
  destruct (drop_permit_rest (permit req) (send_answer (response_channel req) a (set_queue q s.2))) as (E1 & E2 & E3 & _).
  split; unfold places; cbn [fst snd]; rewrite ?drop_permit_available, ?E1, ?E2, ?E3; cbn in *; try done.
  - unfold queue_permits in *. cbn in Hp. lia.
  - rewrite fmap_app. cbn. rewrite <-Hpl, <-app_assoc. done.
  - apply Forall_app. by split; [|apply Forall_singleton].
Qed.

Lemma client_request_keeps s req q :
  task_inv others s -> timeout_set s.1 -> queue s.2 = req :: q ->
  keeps s (handle_client_request inp req (s.1, set_queue q s.2)).
Proof.
  intros Hi Ht Hq. pose proof (inv_queue _ _ Hi) as Hqu. rewrite Hq in Hqu. apply Forall_cons in Hqu as [[Hreq Hneed] Hqu].
  unfold handle_client_request. destruct (needs_response (request req)) eqn:En.
  - specialize (Hneed eq_refl). pose proof (one_permit _ _ _ Hi Hq Hneed) as Hst. cbn [fst]. rewrite Hst, Hneed.
    pose proof (places_pop _ _ _ Hi Hq) as Hpl.
    assert (task_inv others (set_state (WaitingForResponse (request_id (request req)) (response_channel req)) s.1, set_queue q s.2)) as Hi'.
    { destruct Hi as [Hp _ _ _ Han]. rewrite Hq in Hp. unfold state_permits in Hp. rewrite Hst in Hp. cbn in Hp. rewrite Hneed in Hp.
      split; unfold state_permits; cbn; try done; [unfold queue_permits in *; cbn [b2n] in Hp; lia| |eauto].
      unfold places. cbn. rewrite <-Hpl. unfold state_tx. rewrite Hst, app_nil_r. f_equiv. symmetry. apply Permutation_cons_append. }
    unfold mbind, act_bind, send_message_to_peer, on_conn. cbn [fst snd].
    destruct (sending inp); cbn [fst snd]; (split; [split; [by destruct Hi'; split|]|frame]); done.
  - unfold send_message_to_peer. destruct (sending inp); cbn [fst snd on_conn fails].
    + split; [|frame; by destruct (permit req)]. split; [|done]. cbn [snd fst].
      assert (task_inv others (push_sink (message_of_request (request req)) s.1, s.2)) as Hi' by by destruct Hi.
      apply (answered_at_once _ _ _ (Ok (R_Protocol PR_NA)) Hi' Hq). cbn. eauto using no_response_answer.
    + split; [|frame; by destruct (permit req)]. split; [|done]. by apply (answered_at_once s req q (Err _)).
    + split; [|frame; by destruct (permit req)]. split; [|done]. by apply (answered_at_once s req q (Err _)).
Qed.

Lemma potential_response_keeps s mes :
  task_inv others s -> timeout_set s.1 -> state s.1 <> WaitingForRequest -> keeps s (handle_potential_response inp mes s).
Proof.
  intros Hi Ht Hst. unfold handle_potential_response. destruct (is_request mes) eqn:Er.
  { destruct (request_converts mes Er) as [r ->]. by apply peer_request_keeps. }
  destruct (state s.1) as [|id tx] eqn:E; [done|]. destruct (levin_command_response _ _) eqn:Ec; [|by apply try_peer_request_keeps].
  destruct Hi as [Hp Hpl Hq Hw Han]. unfold state_permits in Hp. unfold places, state_tx in Hpl. rewrite E in Hp, Hpl, Hw.
  destruct Hw as (r & Hr & <- & Hn). destruct (response_converts r mes Er Ec) as (a & -> & Ha).
  split; [|frame]. split; [|by intros []]. split; unfold state_permits; cbn; try done; [unfold queue_permits in *; lia| |].
  - unfold places. cbn. rewrite fmap_app, app_nil_r, <-Hpl. cbn. rewrite <-app_assoc. f_equiv. cbn. apply Permutation_cons_append.
  - apply Forall_app. split; [done|]. apply Forall_singleton. cbn. eauto.
Qed.

Lemma select_keeps peer s x :
  task_inv others s -> timeout_set s.1 -> (forall m, keeps s (peer m s)) -> select_rest inp peer s = Some x -> keeps s x.
Proof.
  intros Hi Ht Hpeer. unfold select_rest. destruct (broadcast inp) as [[b|]|].
  - intros [= <-]. by apply broadcast_keeps.
  - intros [= <-]. by apply failed_keeps.
  - destruct (queue s.2) as [|req q] eqn:Hq.
    + destruct (no_senders inp); [intros [= <-]; by apply failed_keeps|]. destruct (incoming inp); [|done]. by intros [= <-].
    + intros [= <-]. by apply client_request_keeps.
Qed.

Lemma turn_keeps s x :
  task_inv others s -> timeout_set s.1 ->
  match state s.1 with WaitingForRequest => state_waiting_for_request inp s | _ => state_waiting_for_response inp s end = Some x ->
  keeps s x.
Proof.
  intros Hi Ht Hx. destruct (state s.1) as [|id tx] eqn:E.
  - unfold state_waiting_for_request in Hx. destruct (token s.2); [injection Hx as <-; by apply failed_keeps|].
    eapply select_keeps; [done..| |exact Hx]. intros [[e|m]|]; [by apply failed_keeps|by apply try_peer_request_keeps|by apply failed_keeps].
  - unfold state_waiting_for_response in Hx. destruct (token s.2); [injection Hx as <-; by apply failed_keeps|].
    rewrite (Ht ltac:(by rewrite E)) in Hx. cbn [negb] in Hx. destruct (timer inp); [injection Hx as <-; by apply failed_keeps|].
    eapply select_keeps; [done..| |exact Hx].
    intros [[e|m]|]; [by apply failed_keeps|apply potential_response_keeps; [done..|by rewrite E]|by apply failed_keeps].
Qed.
End task.

(** ** Shutting down *)
Lemma drain_spec e q s :
  foldl (drain e) s q =
  mk_shared (queue s) (closed s) (queue_permits q + available s) (error s) (token s)
    (answered s ++ map (fun r => (response_channel r, Err e)) q) (issued s).
Proof.
  revert s. induction q as [|r q IH]; intros s; cbn; [rewrite app_nil_r; by destruct s|].
  rewrite IH. unfold drain. destruct (drop_permit_rest (permit r) (send_answer (response_channel r) (Err e) s)) as (-> & -> & -> & -> & -> & ->).
  rewrite drop_permit_available. cbn. rewrite <-app_assoc. f_equal. unfold queue_permits. cbn. lia.
Qed.

Lemma shutdown_inv others e s :
  task_inv others s ->
  task_inv others (shutdown e s) /\ queue (shutdown e s).2 = [] /\ closed (shutdown e s).2 = true /\ is_Some (error (shutdown e s).2) /\
  token (shutdown e s).2 = true /\ issued (shutdown e s).2 = issued s.2 /\ running (shutdown e s).1 = false /\ state (shutdown e s).1 = WaitingForRequest.
Proof.
  intros [Hp Hpl Hq Hw Han]. unfold shutdown. rewrite drain_spec. unfold state_permits in Hp. unfold places, state_tx in Hpl.
  assert (forall q, Forall (answer_ok (issued s.2)) (map (fun r => (response_channel r, Err e)) q)) as Herr.
  { intros q. apply Forall_map, Forall_true. intros r. exact I. }
  split; [|by destruct (state s.1); cbn; eauto 9].
  destruct (state s.1) as [|id tx]; split; cbn; try done; try permits.
  - unfold places. cbn. rewrite fmap_app, app_nil_r, <-Hpl, app_nil_r. f_equiv. by rewrite <-list_fmap_compose.
  - by apply Forall_app.
  - unfold places. cbn. rewrite !fmap_app, app_nil_r, <-Hpl, <-app_assoc, <-list_fmap_compose. f_equiv. cbn. apply Permutation_cons_append.
  - apply Forall_app. split; [|done]. apply Forall_app. split; [done|by apply Forall_singleton].
Qed.

(** A turn of the task neither panics nor breaks the invariant, and either the task goes
    on or everything is answered. *)
Lemma run_poll_inv inp others s :
  task_inv others s -> timeout_set s.1 -> running s.1 = true -> closed s.2 = false ->
  match run_poll inp s with
  | Ok None => True
  | Ok (Some s') =>
      task_inv others s' /\ issued s'.2 = issued s.2 /\ (token s.2 = true -> token s'.2 = true) /\
      (running s'.1 = true /\ closed s'.2 = false /\ timeout_set s'.1 \/
       running s'.1 = false /\ closed s'.2 = true /\ queue s'.2 = [] /\ state s'.1 = WaitingForRequest /\ is_Some (error s'.2) /\ token s'.2 = true)
  | Err _ | Panic => False
  end.
Proof.
  intros Hi Ht Hr Hc. unfold run_poll.
  set (turn := match eager s.1 with _ :: _ => _ | [] => _ end).
  assert (forall x, turn = Some x -> keeps others s x) as Hk.
  { subst turn. intros x. destruct (eager s.1) as [|m l].
    - intros Hx. apply (turn_keeps inp); [done..|]. by destruct (state s.1).
    - intros [= <-]. assert (task_inv others (set_eager l s.1, s.2)) as Hi' by by destruct Hi.
      exact (try_peer_request_keeps inp others _ _ Hi' Ht). }
  clearbody turn. destruct turn as [[r s']|]; [|done]. destruct (Hk _ eq_refl) as [[Hi' Hx] (Er & Ec & Ee & Etk & Eis)].
  cbn [fst snd] in *. destruct r as [[]|e|]; [|..|done].
  - split; [done|]. split; [done|]. split; [by rewrite Etk|]. left. by rewrite Er, Ec.
  - destruct (shutdown_inv others e s' Hi') as (H1 & H2 & H3 & H4 & H5 & H6 & H7 & H8).
    split; [done|]. split; [by rewrite H6|]. split; [done|]. right. done.
Qed.

(** ** Clients *)
Definition client_ok (c : Client) : Prop :=
  match ready c with
  | Some Requests => has_permit c = true /\ sender c <> SIdle
  | Some Broadcasts => has_permit c = false /\ sender c <> SIdle
  | None => True
  end.

Section clients.
Context (send_after_close : bool) (k : Conn) (others : nat).

(** What an operation of a client keeps: the permit moves between the client and the rest. *)
Definition client_keeps (c : Client) (s : Shared) (c' : Client) (s' : Shared) : Prop :=
  task_inv (b2n (has_permit c') + others) (k, s') /\ client_ok c' /\ closed s' = closed s /\ token s' = token s /\
  (is_Some (error s) -> is_Some (error s')) /\ issued s `prefix_of` issued s' /\
  (closed s = true -> send_after_close = false -> queue s' = queue s) /\ queue s `prefix_of` queue s'.

Lemma insert_err_inv n e s : task_inv n (k, s) -> task_inv n (k, try_insert_err e s).
Proof. by intros []. Qed.

Lemma permit_moves n m s a :
  task_inv n (k, s) -> (a + m = available s + n)%nat -> task_inv m (k, set_available a s).
Proof. intros [Hp ? ? ? ?] ?. split; try done. permits. Qed.

Lemma reserve_keeps mode granted c s c' s' p :
  task_inv (b2n (has_permit c) + others) (k, s) -> ready c = None -> has_permit c = bool_decide (mode = Requests) ->
  reserve_or_err mode granted c s = (p, c', s') -> client_keeps c s c' s'.
Proof.
  intros Hi Hr Hm. unfold reserve_or_err, poll_reserve, client_keeps.
  destruct c as [st sd hp rd]; cbn in *; subst rd hp.
  assert (forall x, client_ok (mk_client st x (bool_decide (mode = Requests)) None)) as Hok by done.
  destruct sd; [destruct (closed s) eqn:Ec; [|destruct granted]|..]; intros [= <- <- <-]; cbn;
    (split; [first [exact Hi|by apply insert_err_inv]|]);
    (split; [first [done|by destruct mode; cbn; eauto]|]); eauto 9.
Qed.

Lemma poll_ready_keeps acquired granted finished c s c' s' p :
  task_inv (b2n (has_permit c) + others) (k, s) -> (acquired = true -> (0 < available s)%nat) ->
  poll_ready acquired granted finished c s = (p, c', s') -> client_keeps c s c' s'.
Proof.
  intros Hi Ha. unfold poll_ready. destruct (try_get_err s) as [err|]; [intros [= <- <- <-]; unfold client_keeps; by split_and!|].
  destruct (strong (not_ready c) && finished).
  { unfold set_err. intros ?; simplify_eq. unfold client_keeps. split; [by apply insert_err_inv|]. cbn. split_and!; eauto. }
  destruct (has_permit (not_ready c)) eqn:Ehp.
  { intros Hx. cbn in Ehp. apply (reserve_keeps Requests granted (not_ready c)) in Hx; done. }
  destruct acquired; [|intros [= <- <- <-]; unfold client_keeps; by split_and!].
  intros Hx. specialize (Ha eq_refl). cbn in Ehp.
  apply (reserve_keeps Requests granted) in Hx; [exact Hx| |done..].
  cbn. eapply permit_moves; [exact Hi|]. rewrite Ehp. cbn. lia.
Qed.

Lemma broadcast_poll_ready_keeps granted c s c' s' p :
  task_inv (b2n (has_permit c) + others) (k, s) ->
  broadcast_poll_ready granted c s = (p, c', s') -> client_keeps c s c' s'.
Proof.
  intros Hi. unfold broadcast_poll_ready.
  assert (task_inv (b2n false + others) (k, drop_permit (has_permit c) s)) as Hi'.
  { destruct (has_permit c); [|done]. eapply permit_moves; [exact Hi|]. cbn. lia. }
  destruct (drop_permit_rest (has_permit c) s) as (E1 & E2 & E3 & E4 & E5 & E6).
  destruct (try_get_err _) as [err|].
  - intros [= <- <- <-]. unfold client_keeps. rewrite E1, E3, E4, E5, E6. by split_and!.
  - intros Hx. apply (reserve_keeps Broadcasts granted) in Hx; [|done..]. unfold client_keeps in *.
    rewrite E1, E3, E4, E5, E6 in Hx. exact Hx.
Qed.

(** A new request: its channel is the next number, and it is in the queue or refused. *)
Lemma issue_places s r : places (k, s) ≡ₚ seq 0 (length (issued s)) -> length (issued s) :: places (k, s) ≡ₚ seq 0 (length (issued (issue r s))).
Proof. intros H. cbn. rewrite length_app, seq_app, H. apply Permutation_cons_append. Qed.

Lemma answer_ok_mono l l' x : l `prefix_of` l' -> answer_ok l x -> answer_ok l' x.
Proof. intros [t ->]. unfold answer_ok. destruct (x.2); [|done..]. intros (r & Hr & ?). exists r. split; [by apply lookup_app_l_Some|done]. Qed.
Lemma queued_ok_mono l l' x : l `prefix_of` l' -> queued_ok l x -> queued_ok l' x.
Proof. intros [t ->] []. split; [by apply lookup_app_l_Some|done]. Qed.
Lemma waiting_ok_mono l l' x : l `prefix_of` l' -> waiting_ok l x -> waiting_ok l' x.
Proof. intros [t ->]. destruct x; [done|]. intros (r & ? & ?). exists r. split; [by apply lookup_app_l_Some|done]. Qed.

(** A request that enters the queue. *)
Lemma enqueue_inv n s r p :
  task_inv (b2n p + n) (k, s) -> (needs_response r = true -> p = true) ->
  task_inv n (k, set_queue (queue s ++ [mk_task_request r (length (issued s)) p]) (issue r s)).
Proof.
  intros [Hp Hpl Hq Hw Ha] Hn. assert (issued s `prefix_of` issued (issue r s)) as Hpre by by eexists.
  split; cbn.
  - cbn in *. rewrite queue_permits_app. permits.
  - rewrite <-(issue_places s r Hpl). unfold places. cbn. rewrite map_app. cbn. solve_Permutation.
  - apply Forall_app. split; [eapply Forall_impl; [exact Hq|]; intros; by eapply queued_ok_mono|].
    apply Forall_singleton. split; [|done]. cbn. by rewrite lookup_app_r, Nat.sub_diag by lia.
  - by eapply waiting_ok_mono.
  - eapply Forall_impl; [exact Ha|]. intros; by eapply answer_ok_mono.
Qed.

(** A request that is refused. *)
Lemma refuse_inv n s r p e :
  task_inv (b2n p + n) (k, s) ->
  task_inv n (k, drop_permit p (send_answer (length (issued s)) (Err e) (try_insert_err e (issue r s)))).
Proof.
  intros [Hp Hpl Hq Hw Ha]. assert (issued s `prefix_of` issued (issue r s)) as Hpre by by eexists.
  destruct (drop_permit_rest p (send_answer (length (issued s)) (Err e) (try_insert_err e (issue r s)))) as (E1 & E2 & E3 & _).
  split; unfold places; cbn [fst snd]; rewrite ?drop_permit_available, ?E1, ?E2, ?E3; cbn in *.
  - permits.
  - rewrite <-(issue_places s r Hpl). unfold places. cbn. rewrite fmap_app. cbn. solve_Permutation.
  - eapply Forall_impl; [exact Hq|]. intros; by eapply queued_ok_mono.
  - by eapply waiting_ok_mono.
  - apply Forall_app. split; [|by apply Forall_singleton]. eapply Forall_impl; [exact Ha|]. intros; by eapply answer_ok_mono.
Qed.

Lemma send_item_keeps r p c s :
  task_inv (b2n p + others) (k, s) -> has_permit c = false -> ready c = None -> sender c <> SIdle -> (needs_response r = true -> p = true) ->
  exists c' s', send_item send_after_close (mk_task_request r (length (issued s)) p) c (issue r s) = Ok (c', s') /\ client_keeps c s c' s'.
Proof.
  intros Hi Hhp Hr Hs Hn. unfold send_item. cbn [permit response_channel].
  assert (forall c', has_permit c' = false -> ready c' = None ->
    client_keeps c s c' (drop_permit p (send_answer (length (issued s)) (Err ClientChannelClosed) (try_insert_err ClientChannelClosed (issue r s))))) as Href.
  { intros c' H1 H2. unfold client_keeps. rewrite H1. split; [by apply refuse_inv|].
    destruct (drop_permit_rest p (send_answer (length (issued s)) (Err ClientChannelClosed) (try_insert_err ClientChannelClosed (issue r s))))
      as (-> & _ & -> & -> & -> & ->). unfold client_ok. rewrite H2. cbn. split_and!; try done. by eexists. }
  destruct (sender c) eqn:Es; [done| |eauto].
  destruct (closed (issue r s) && negb send_after_close) eqn:Ecl; [eexists _, _; split; [done|]; by apply Href|].
  eexists _, _. split; [done|]. unfold client_keeps. cbn [has_permit]. rewrite Hhp. split; [exact (enqueue_inv others s r p Hi Hn)|].
  unfold client_ok. cbn [ready]. rewrite Hr. cbn. split_and!; try done; [by eexists| |by eexists]. intros Hcl Hsa. cbn in Ecl. by rewrite Hcl, Hsa in Ecl.
Qed.
End clients.

(** ** The whole *)
Definition client_permits (m : gmap nat Client) : nat := size (filter (fun x => has_permit x.2 = true) m).
Definition monitor_permits (m : Monitor) : nat := match m with MHolding => 1%nat | _ => 0%nat end.
Definition monitor_ok (issued : list PeerRequest) (m : Monitor) : Prop :=
  match m with MWaiting tx => exists d, issued !! tx = Some (Q_Admin (RQ_TimedSync d)) | _ => True end.

Lemma client_permits_insert m i c : client_permits (<[i := c]> m) = (b2n (has_permit c) + client_permits (delete i m))%nat.
Proof.
  unfold client_permits. rewrite <-insert_delete_eq, map_filter_insert. destruct (decide _) as [E|E]; cbn in E.
  - rewrite E, map_size_insert_None; [done|]. apply map_lookup_filter_None. left. apply lookup_delete_eq.
  - rewrite delete_delete_eq. apply not_true_is_false in E. by rewrite E.
Qed.

Lemma client_permits_lookup m i c : m !! i = Some c -> client_permits m = (b2n (has_permit c) + client_permits (delete i m))%nat.
Proof. intros H. rewrite <-(insert_id m i c H) at 1. apply client_permits_insert. Qed.

Section world.
Context (send_after_close : bool).

Record world_inv (w : World) : Prop := {
  wi_task : task_inv (client_permits (clients w) + monitor_permits (monitor w)) (conn w, shared w);
  wi_running :
    if running (conn w) then closed (shared w) = false /\ timeout_set (conn w)
    else closed (shared w) = true /\ state (conn w) = WaitingForRequest /\ is_Some (error (shared w)) /\ token (shared w) = true;
  wi_late : closed (shared w) = true -> send_after_close = false -> queue (shared w) = [];
  wi_clients : map_Forall (fun _ c => client_ok c) (clients w);
  wi_monitor : monitor_ok (issued (shared w)) (monitor w);
}.

(** A step keeps the invariant, and once the task has ended nothing leaves the queue. *)
Definition steps_to (w w' : World) : Prop :=
  world_inv w' /\ (running (conn w) = false -> running (conn w') = false /\ queue (shared w) `prefix_of` queue (shared w')).

(** What an event leads to: never a panic. *)
Definition step_ok (w : World) (x : option (result PeerError World)) : Prop :=
  match x with Some (Ok w') => steps_to w w' | None => True | Some _ => False end.

Lemma start_inv eager : world_inv (start eager).
Proof.
  split; cbn; try done.
  - split; [done|by intros []].
  - by apply map_Forall_singleton.
Qed.

Lemma monitor_ok_mono l l' m : l `prefix_of` l' -> monitor_ok l m -> monitor_ok l' m.
Proof. intros [t ->]. destruct m; try done. intros [d ?]. exists d. by apply lookup_app_l_Some. Qed.

(** An operation of one client. *)
Lemma with_client_inv w i c c' s' :
  world_inv w -> clients w !! i = Some c ->
  (forall others, task_inv (b2n (has_permit c) + others) (conn w, shared w) ->
     client_keeps send_after_close (conn w) others c (shared w) c' s') ->
  steps_to w (with_client i c' s' w).
Proof.
  intros [Ht Hr Hl Hc Hm] Hi Hk. rewrite (client_permits_lookup _ _ _ Hi), <-Nat.add_assoc in Ht.
  destruct (Hk _ Ht) as (Ht' & Hok & Ecl & Etk & Her & Hpre & Hq & Hqp). split; [|done]. split; cbn.
  - by rewrite client_permits_insert, <-Nat.add_assoc.
  - destruct (running (conn w)); rewrite Ecl; [done|]. rewrite Etk. naive_solver.
  - rewrite Ecl. intros H1 H2. rewrite Hq by done. by apply Hl.
  - by apply map_Forall_insert_2.
  - by eapply monitor_ok_mono.
Qed.

(** A step that changes shared data and monitor only in the way of [client_keeps], with the
    permits of the monitor in place of the client's. *)
Lemma with_monitor_inv w m' s' :
  world_inv w -> task_inv (client_permits (clients w) + monitor_permits m') (conn w, s') ->
  closed s' = closed (shared w) -> token s' = token (shared w) -> error s' = error (shared w) ->
  issued (shared w) `prefix_of` issued s' -> monitor_ok (issued s') m' -> (closed s' = true -> queue s' = queue (shared w)) ->
  steps_to w (with_monitor m' s' w).
Proof.
  intros [Ht Hr Hl Hc Hm] Ht' Ecl Etk Eer Hpre Hm' Hq.
  split; [|intros Hrun; rewrite Hrun in Hr; split; [done|]; cbn; rewrite Hq; [done|by rewrite Ecl; apply Hr]].
  split; cbn; try done.
  - by rewrite Ecl, Etk, Eer.
  - intros H1 H2. rewrite Hq by done. apply Hl; [by rewrite <-Ecl|done].
Qed.

(** [exec] of each event. *)
Lemma run_ok w inp : world_inv w -> step_ok w (exec send_after_close (Run inp) w).
Proof.
  intros [Ht Hr Hl Hc Hm]. unfold exec. destruct (running (conn w)) eqn:Erun; [|done]. destruct (Bool.eqb _ _); [|done]. cbn [andb].
  destruct Hr as [Hcl Hto].
  pose proof (run_poll_inv inp _ _ Ht Hto Erun Hcl) as H. destruct (run_poll inp (conn w, shared w)) as [[[c s]|]|e|]; try done.
  cbn in H. destruct H as (Ht' & Eis & Htk & H). split; [|by rewrite Erun]. split; cbn; try done.
  - destruct H as [(-> & ? & ?)|(-> & ? & ? & ? & ? & ?)]; done.
  - intros Hcl' _. destruct H as [(_ & ? & _)|(_ & _ & ? & _)]; [congruence|done].
  - by rewrite Eis.
Qed.

Lemma poll_ready_ok w i mode acquired granted : world_inv w -> step_ok w (exec send_after_close (PollReady i mode acquired granted) w).
Proof.
  intros Hw. unfold exec. destruct (clients w !! i) as [c|] eqn:Hi; [|done]. cbn [mbind option_bind].
  destruct (implb acquired (permit_free w)) eqn:Ea; [|done]. destruct (_ && _); [|done].
  destruct (match mode with Requests => _ | Broadcasts => _ end) as [[p c'] s'] eqn:Ex. apply (with_client_inv _ _ c); [done..|].
  intros others Ht. destruct mode; [eapply poll_ready_keeps|eapply broadcast_poll_ready_keeps]; [done| |exact Ex|done|exact Ex].
  intros ->. cbn [implb] in Ea. by apply Nat.ltb_lt in Ea.
Qed.

(** A call: the request is in the queue or refused. *)
Lemma sent_ok w i c c0 r p :
  world_inv w -> clients w !! i = Some c -> has_permit c = p -> has_permit c0 = false -> ready c0 = None -> sender c0 <> SIdle ->
  (needs_response r = true -> p = true) ->
  step_ok w (Some ('(c, s) ← send_item send_after_close (mk_task_request r (length (issued (shared w))) p) c0 (issue r (shared w));
                 Ok (with_client i c s w))).
Proof.
  intros Hw Hi Hp Hp0 Hr0 Hs0 Hn.
  assert (forall others, task_inv (b2n p + others) (conn w, shared w) ->
    exists c' s', send_item send_after_close (mk_task_request r (length (issued (shared w))) p) c0 (issue r (shared w)) = Ok (c', s') /\
      client_keeps send_after_close (conn w) others c0 (shared w) c' s') as Hk.
  { intros others Ht. by apply send_item_keeps. }
  pose proof (wi_task _ Hw) as Ht. rewrite (client_permits_lookup _ _ _ Hi), <-Nat.add_assoc, Hp in Ht.
  destruct (Hk _ Ht) as (c' & s' & Hx & _). rewrite Hx. cbn. apply (with_client_inv _ _ c); [done..|]. intros others Ho. rewrite Hp in Ho.
  destruct (Hk others Ho) as (c2 & s2 & Hx2 & Hk2). rewrite Hx in Hx2. injection Hx2 as <- <-. exact Hk2.
Qed.

Lemma call_ok w i r : world_inv w -> step_ok w (exec send_after_close (Call i r) w).
Proof.
  intros Hw. unfold exec. destruct (clients w !! i) as [c|] eqn:Hi; [|done]. cbn [mbind option_bind].
  case_bool_decide as Hr; [|done]. pose proof (wi_clients _ Hw _ _ Hi) as Hok. unfold client_ok in Hok. rewrite Hr in Hok.
  destruct Hok as [Hp Hs]. unfold call. rewrite Hp. by apply (sent_ok w i c (mk_client (strong c) (sender c) false None) r true).
Qed.

Lemma broadcast_call_ok w i b : world_inv w -> step_ok w (exec send_after_close (BroadcastCall i b) w).
Proof.
  intros Hw. unfold exec. destruct (clients w !! i) as [c|] eqn:Hi; [|done]. cbn [mbind option_bind].
  case_bool_decide as Hr; [|done]. pose proof (wi_clients _ Hw _ _ Hi) as Hok. unfold client_ok in Hok. rewrite Hr in Hok.
  destruct Hok as [Hp Hs]. unfold broadcast_call.
  apply (sent_ok w i c (not_ready c) (request_of_broadcast b) false); try done.
  by rewrite broadcast_needs_no_response.
Qed.

Lemma downgrade_ok w i j : world_inv w -> step_ok w (exec send_after_close (Downgrade i j) w).
Proof.
  intros [Ht Hr Hl Hc Hm]. unfold exec. destruct (clients w !! i) as [c|] eqn:Hi; [|done]. cbn [mbind option_bind].
  destruct (strong c); [|done]. case_bool_decide as Hj; [|done]. cbn. split; [|done]. split; cbn; try done.
  - by rewrite client_permits_insert, delete_id by done.
  - by apply map_Forall_insert_2.
Qed.

Lemma drop_client_ok w i : world_inv w -> step_ok w (exec send_after_close (DropClient i) w).
Proof.
  intros [Ht Hr Hl Hc Hm]. unfold exec. destruct (clients w !! i) as [c|] eqn:Hi; [|done]. cbn [mbind option_bind step_ok].
  destruct (drop_permit_rest (has_permit c) (shared w)) as (E1 & E2 & E3 & E4 & E5 & E6).
  rewrite (client_permits_lookup _ _ _ Hi), <-Nat.add_assoc in Ht.
  assert (task_inv (client_permits (delete i (clients w)) + monitor_permits (monitor w)) (conn w, drop_permit (has_permit c) (shared w))) as Ht'.
  { destruct (has_permit c); [|done]. eapply permit_moves; [exact Ht|]. cbn. lia. }
  split; [|cbn; destruct (strong c); cbn; by rewrite E1]. split; cbn.
  - destruct (strong c); [by destruct Ht'; split|done].
  - destruct (running (conn w)); destruct (strong c); cbn; rewrite ?E4, ?E5, ?E6; naive_solver.
  - destruct (strong c); cbn; rewrite E1, E4; done.
  - by apply map_Forall_delete.
  - destruct (strong c); cbn; by rewrite E3.
Qed.

Lemma cancel_ok w : world_inv w -> step_ok w (exec send_after_close CancelToken w).
Proof. intros [Ht Hr Hl Hc Hm]. split; [|done]. split; cbn; try done; [by destruct Ht|]. destruct (running (conn w)); naive_solver. Qed.

Lemma monitor_tick_ok w acquired : world_inv w -> step_ok w (exec send_after_close (MonitorTick acquired) w).
Proof.
  intros Hw. unfold exec. destruct (monitor w) eqn:Em; try done. pose proof (wi_task _ Hw) as Ht. rewrite Em in Ht.
  case_bool_decide; [by apply with_monitor_inv|]. destruct (implb _ _) eqn:Ea; [|done]. cbn [negb].
  destruct acquired; [|done]. apply with_monitor_inv; try done.
  cbn [implb] in Ea. apply Nat.ltb_lt in Ea. eapply permit_moves; [exact Ht|]. cbn. lia.
Qed.

Lemma monitor_send_ok w data : world_inv w -> step_ok w (exec send_after_close (MonitorSend data) w).
Proof.
  intros Hw. unfold exec. destruct (monitor w) eqn:Em; try done. pose proof (wi_task _ Hw) as Ht. rewrite Em in Ht. cbn in Ht.
  destruct (closed (shared w)) eqn:Ecl.
  - apply with_monitor_inv; try done. eapply permit_moves; [exact Ht|]. cbn. lia.
  - destruct (slot_free w); [|done]. cbn [step_ok]. apply with_monitor_inv; try done; cbn.
    + rewrite Nat.add_0_r. apply enqueue_inv; [|done]. by rewrite Nat.add_comm.
    + by eexists.
    + exists (mk_timed_sync_request data). by rewrite lookup_app_r, Nat.sub_diag by lia.
    + by rewrite Ecl.
Qed.

Lemma answer_of_ok w tx a : world_inv w -> answer_of tx (shared w) = Some a -> answer_ok (issued (shared w)) (tx, a).
Proof.
  intros Hw. unfold answer_of. destruct (list_find _ _) as [[n [tx' a']]|] eqn:E; [|done]. intros [= <-].
  apply list_find_Some in E as (E & Etx & _). cbn in *. subst.
  eapply Forall_lookup_1 in E; [|exact (inv_answers _ _ (wi_task _ Hw))]. done.
Qed.

Lemma monitor_answer_ok w accepted : world_inv w -> step_ok w (exec send_after_close (MonitorAnswer accepted) w).
Proof.
  intros Hw. unfold exec. destruct (monitor w) as [| |tx|] eqn:Em; try done.
  pose proof (wi_task _ Hw) as Ht. pose proof (wi_monitor _ Hw) as Hd. rewrite Em in Ht, Hd. cbn in Ht. destruct Hd as [d Hd].
  assert (forall m, m = MIdle \/ m = MFinished -> steps_to w (with_monitor m (shared w) w)) as Hm.
  { intros m Hm. apply with_monitor_inv; try done; by destruct Hm as [-> | ->]. }
  destruct (answer_of tx (shared w)) as [a|] eqn:Ea; [|done]. apply (answer_of_ok _ _ _ Hw) in Ea.
  destruct a as [a|e|]; [|by apply Hm; right|done]. destruct Ea as (r & Hr & Ha). cbn in Hr. rewrite Hd in Hr. injection Hr as <-.
  destruct a as [[]|]; try done. destruct (_ <? _); cbn; apply Hm; [by right|destruct accepted; auto].
Qed.

Lemma other_event_ok w ev :
  world_inv w -> match ev with PollResponse _ => False | _ => True end -> step_ok w (exec send_after_close ev w).
Proof.
  intros Hw He. destruct ev; try done.
  - by apply run_ok.
  - by apply poll_ready_ok.
  - by apply call_ok.
  - by apply broadcast_call_ok.
  - by apply downgrade_ok.
  - by apply drop_client_ok.
  - by apply cancel_ok.
  - pose proof (wi_task _ Hw) as Ht. cbn. destruct (monitor w) eqn:Em; try done. destruct (token _); [|done].
    by apply with_monitor_inv.
  - by apply monitor_tick_ok.
  - pose proof (wi_task _ Hw) as Ht. cbn. destruct (monitor w) eqn:Em; try done.
    apply with_monitor_inv; try done. eapply permit_moves; [exact Ht|]. cbn. lia.
  - by apply monitor_send_ok.
  - by apply monitor_answer_ok.
Qed.

(** A request that is in the queue of an ended connection that has no senders either. *)
Definition lost (tx : nat) (w : World) : Prop :=
  running (conn w) = false /\ senders_gone w = true /\ tx ∈ map response_channel (queue (shared w)).

Lemma answered_answer tx (s : Shared) : tx ∈ (answered s).*1 -> is_Some (answer_of tx s).
Proof using Type.
  intros ([tx' a] & -> & Hin)%list_elem_of_fmap. unfold answer_of. destruct (list_find _ _) as [[i x]|] eqn:E; [by eexists|].
  apply list_find_None in E. rewrite Forall_forall in E. by destruct (E _ Hin).
Qed.

(** Where the channel of a request is. *)
Lemma channel_places w tx :
  world_inv w -> is_Some (issued (shared w) !! tx) <->
  tx ∈ (answered (shared w)).*1 \/ tx ∈ map response_channel (queue (shared w)) \/ (exists id, state (conn w) = WaitingForResponse id tx).
Proof using Type.
  intros [[_ Hpl _ _ _] _ _ _ _]. unfold places in Hpl. cbn in Hpl.
  rewrite lookup_lt_is_Some. transitivity (tx ∈ seq 0 (length (issued (shared w)))); [rewrite elem_of_seq; lia|].
  rewrite <-Hpl, !elem_of_app. unfold state_tx. destruct (state (conn w)); [set_solver|].
  rewrite list_elem_of_singleton. naive_solver.
Qed.

(** Awaiting the response of a request that was made: the future panics exactly when the
    request is lost. *)
Lemma poll_response_cases w tx :
  world_inv w -> is_Some (issued (shared w) !! tx) ->
  match poll_response tx w with
  | Ok None => tx ∉ (answered (shared w)).*1
  | Ok (Some a) => answer_of tx (shared w) = Some a
  | Err _ => False
  | Panic => lost tx w /\ send_after_close = true
  end.
Proof using Type.
  intros Hw Htx. pose proof (proj1 (channel_places w tx Hw) Htx) as Hpl. destruct Hw as [_ Hr Hl _ _]. unfold poll_response.
  destruct (answer_of tx (shared w)) as [a|] eqn:Ea; [done|].
  assert (tx ∉ (answered (shared w)).*1) as Hna by (intros H; apply answered_answer in H as [a Ha]; congruence).
  destruct (channel_open tx w) eqn:Eo; [done|]. unfold channel_open in Eo. apply orb_false_iff in Eo as [E1 E2].
  destruct Hpl as [?|[Hq|[id Hid]]]; [done| |].
  - rewrite bool_decide_eq_true_2 in E2 by done. apply orb_false_iff in E2 as [Erun Es]. rewrite Erun in Hr. apply negb_false_iff in Es.
    split; [done|]. destruct send_after_close; [done|]. rewrite Hl in Hq by (done || apply Hr). by apply elem_of_nil in Hq.
  - rewrite Hid, bool_decide_eq_true_2 in E1 by done. done.
Qed.

(** Every event but awaiting the response of a lost request is handled without a panic. *)
Lemma exec_cases w ev :
  world_inv w ->
  step_ok w (exec send_after_close ev w) \/
  exists tx, ev = PollResponse tx /\ is_Some (issued (shared w) !! tx) /\ exec send_after_close ev w = Some Panic /\ lost tx w /\ send_after_close = true.
Proof.
  intros Hw. destruct ev; try (left; by apply other_event_ok). unfold exec. case_bool_decide as Htx; [|by left].
  apply lookup_lt_is_Some in Htx. pose proof (poll_response_cases w tx Hw Htx) as H. destruct (poll_response tx w) as [[a|]|e|]; [by left|by left|done|].
  right. exists tx. destruct H. done.
Qed.


Lemma world_reached_inv eager w : reached send_after_close eager w -> world_inv w.
Proof.
  induction 1 as [|w ev w' _ IH Hs]; [apply start_inv|]. 
  destruct (exec_cases w ev IH) as [H|(tx & _ & _ & H & _)]; rewrite Hs in H; [apply H|done].
Qed.

(** A request in the queue is not answered. *)
Lemma unanswered_in_queue w tx : world_inv w -> tx ∈ map response_channel (queue (shared w)) -> tx ∉ (answered (shared w)).*1.
Proof using Type.
  intros [[_ Hpl _ _ _] _ _ _ _] Hin Ha. assert (NoDup (places (conn w, shared w))) as Hnd by (rewrite Hpl; apply NoDup_seq).
  apply NoDup_app in Hnd as (_ & Hd & _). apply (Hd tx Ha). cbn. apply elem_of_app. by left.
Qed.

(** While the task waits for a response, the permit is in its state. *)
Lemma waiting_holds_permit w id tx :
  world_inv w -> state (conn w) = WaitingForResponse id tx ->
  available (shared w) = 0%nat /\ Forall (fun r => needs_response (request r) = false) (queue (shared w)).
Proof.
  intros [[Hp _ Hq _ _] _ _ _ _] Hst. unfold state_permits in Hp. cbn in Hp. rewrite Hst in Hp. split; [lia|].
  assert (queue_permits (queue (shared w)) = 0%nat) as H0 by lia. clear Hp. unfold queue_permits in H0. cbn in Hq.
  induction Hq as [|r q [_ Hr] _ IH]; constructor; cbn in H0; [|apply IH; lia].
  destruct (needs_response (request r)); [|done]. rewrite (Hr eq_refl) in H0. done.
Qed.
End world.

(** C18. What can panic in a connection, its clients, its timeout monitor and the futures the
    clients wait on, whatever peers, clients and services do. If the channel to the task
    refuses what is sent in a slot that was reserved before it was closed
    ([send_after_close = false]), nothing panics: a request that needs a response is never
    taken up while another one waits, it always has its permit, the timer is set whenever a
    response is waited for, messages taken for responses convert to responses, the timeout
    monitor gets the response it asked for, and no response channel is dropped unanswered.
    If the channel accepts such a request, as its documentation says, there is exactly one
    panic: a caller that waits for the response of a request that was sent this way after
    the connection had ended, once all senders of the queue are gone. *)
Theorem connection_panics_only_for_lost_requests send_after_close eager w ev :
  reached send_after_close eager w ->
  exec send_after_close ev w = Some Panic <->
  send_after_close = true /\ exists tx, ev = PollResponse tx /\ is_Some (issued (shared w) !! tx) /\ lost tx w.
Proof.
  intros Hw%world_reached_inv. split.
  - intros Hx. destruct (exec_cases _ w ev Hw) as [H|(tx & -> & H1 & _ & H2 & H3)]; [by rewrite Hx in H|]. split; [done|by exists tx].
  - intros (_ & tx & -> & Htx & Hrun & Hs & Hq). unfold exec. rewrite bool_decide_eq_true_2 by (by apply lookup_lt_is_Some).
    unfold poll_response. destruct (answer_of tx (shared w)) as [x|] eqn:Ea.
    + exfalso. apply (unanswered_in_queue _ _ _ Hw Hq). unfold answer_of in Ea. destruct (list_find _ _) as [[n [tx' a']]|] eqn:E; [|done].
      apply list_find_Some in E as (E & Etx & _). cbn in Etx. subst tx'. apply list_elem_of_fmap. exists (tx, a'). split; [done|]. by eapply list_elem_of_lookup_2.
    + unfold channel_open. pose proof (wi_running _ _ Hw) as Hr. rewrite Hrun in Hr. destruct Hr as (_ & -> & _). rewrite Hrun, Hs, andb_false_r. done.
Qed.

(** The channels of the requests in the queue. *)
Definition queued (w : World) : list nat := map response_channel (queue (shared w)).

(** Once the task has ended, nothing takes a request out of the queue. *)
Lemma ended_queue_kept send_after_close ev w w' :
  running (conn w) = false -> exec send_after_close ev w = Some (Ok w') ->
  running (conn w') = false /\ queue (shared w) `prefix_of` queue (shared w').
Proof.
  assert (Hperm : forall b s, queue (drop_permit b s) = queue s) by by intros [].
  assert (Herr : forall e s, queue (try_insert_err e s) = queue s) by (intros e s; unfold try_insert_err; by destruct (error s)).
  assert (Hsa : forall tx a s, queue (send_answer tx a s) = queue s) by done.
  assert (Hres : forall m g c s, queue (reserve_or_err m g c s).2 = queue s).
  { intros m g c s. unfold reserve_or_err, set_err. destruct (poll_reserve g c s) as [[|[]] ?]; cbn; rewrite ?Herr; done. }
  assert (Hsend : forall req c s c' s', send_item send_after_close req c s = Ok (c', s') -> queue s `prefix_of` queue s').
  { intros req c s c' s'. unfold send_item. destruct (sender c); [done| |].
    - destruct (_ && _); intros [= <- <-]; [by rewrite Hperm, Hsa, Herr|by eexists].
    - intros [= <- <-]. by rewrite Hperm, Hsa, Herr. }
  intros Hrun. unfold exec. destruct ev as [inp|i mode ac gr|i r|i b|tx|i j|i| | |ac| |data|acc]; cbn zeta.
  - by rewrite Hrun.
  - destruct (clients w !! i) as [c|]; cbn [mbind option_bind]; [|done]. destruct (_ && _); [|done].
    destruct mode; [destruct (poll_ready _ _ _ _ _) as [[x c'] s'] eqn:E|destruct (broadcast_poll_ready _ _ _) as [[x c'] s'] eqn:E]; intros [= <-]; (split; [done|]); cbn;
      assert (queue s' = queue (shared w)) as ->; try done; replace s' with (x, c', s').2 by done; rewrite <- E.
    + unfold poll_ready, set_err. destruct (try_get_err _); [done|]. destruct (_ && _); [apply Herr|]. destruct (has_permit _); [apply Hres|].
      destruct ac; [rewrite Hres; done|done].
    + unfold broadcast_poll_ready. destruct (try_get_err _); [apply Hperm|]. by rewrite Hres, Hperm.
  - destruct (clients w !! i) as [c|]; cbn [mbind option_bind]; [|done]. destruct (bool_decide _); [|done]. unfold call. destruct (has_permit c); [|done].
    destruct (send_item _ _ _ _) as [[c' s']|e|] eqn:E; [|done..]. intros [= <-]. split; [done|]. by apply Hsend in E.
  - destruct (clients w !! i) as [c|]; cbn [mbind option_bind]; [|done]. destruct (bool_decide _); [|done]. unfold broadcast_call.
    destruct (send_item _ _ _ _) as [[c' s']|e|] eqn:E; [|done..]. intros [= <-]. split; [done|]. by apply Hsend in E.
  - destruct (bool_decide _); [|done]. destruct (poll_response _ _); [|done..]. by intros [= <-].
  - destruct (clients w !! i) as [c|]; cbn [mbind option_bind]; [|done]. destruct (_ && _); [|done]. by intros [= <-].
  - destruct (clients w !! i) as [c|]; cbn [mbind option_bind]; [|done]. intros [= <-]. split; [done|]. cbn. destruct (strong c); cbn; by rewrite Hperm.
  - by intros [= <-].
  - destruct (monitor w); [|done..]. destruct (token _); [|done]. by intros [= <-].
  - destruct (monitor w); [|done..]. destruct (bool_decide _); [by intros [= <-]|]. destruct (negb _); [done|]. destruct ac; by intros [= <-].
  - destruct (monitor w); [done| |done..]. intros [= <-]. split; [done|]. cbn. done.
  - destruct (monitor w); [done| |done..]. destruct (closed _); [by intros [= <-]|]. destruct (slot_free w); [|done]. intros [= <-]. split; [done|]. cbn. by eexists.
  - destruct (monitor w); [done..| |done]. intros Hx. repeat case_match; simplify_eq; done.
Qed.

(** C19. A request made of a peer is answered at most once, with a response of its kind or an
    error; until then its channel is in the queue or is the one the task waits for. When
    the connection has ended, every request is answered but those that were sent after it
    in a slot of the queue that was reserved before, and there are none of these if the
    channel refuses them ([send_after_close = false]). If it accepts them, as its
    documentation says, such a request is never answered: no later step takes it out of the
    queue or answers it (see [request_sent_after_close_is_lost] for one). *)
Theorem requests_answered_once send_after_close eager w :
  reached send_after_close eager w ->
  NoDup (answered (shared w)).*1 /\
  (forall tx a, (tx, Ok a) ∈ answered (shared w) -> exists r, issued (shared w) !! tx = Some r /\ answers r a = true) /\
  (forall tx, is_Some (issued (shared w) !! tx) <->
     tx ∈ (answered (shared w)).*1 \/ tx ∈ queued w \/ (exists id, state (conn w) = WaitingForResponse id tx)) /\
  (forall tx, tx ∈ queued w -> tx ∉ (answered (shared w)).*1) /\
  (running (conn w) = false ->
     (forall tx, is_Some (issued (shared w) !! tx) -> tx ∈ (answered (shared w)).*1 \/ tx ∈ queued w) /\
     (send_after_close = false -> queued w = []) /\
     (forall ev w' tx, exec send_after_close ev w = Some (Ok w') -> tx ∈ queued w ->
        running (conn w') = false /\ tx ∈ queued w' /\ tx ∉ (answered (shared w')).*1)).
Proof.
  intros Hreach. pose proof (world_reached_inv _ _ _ Hreach) as Hw. unfold queued.
  pose proof (fun tx => channel_places _ w tx Hw) as Hin. pose proof (unanswered_in_queue send_after_close) as Hun.
  assert (NoDup (places (conn w, shared w))) as Hnd by (rewrite (inv_places _ _ (wi_task _ _ Hw)); apply NoDup_seq). unfold places in Hnd.
  apply NoDup_app in Hnd as [Hnd _]. split_and!; try done.
  - intros tx a Hin'. pose proof (inv_answers _ _ (wi_task _ _ Hw)) as Ha. rewrite Forall_forall in Ha. exact (Ha _ Hin').
  - intros tx Hq. by apply Hun.
  - intros Hrun. pose proof Hw as [_ Hr Hl _ _]. rewrite Hrun in Hr. destruct Hr as (Hcl & Hst & _). split; [|split].
    + intros tx Htx. apply Hin in Htx as [?|[?|[id Hid]]]; [by left|by right|congruence].
    + intros Hs. rewrite Hl; done.
    + intros ev w' tx Hx Hq. destruct (ended_queue_kept _ ev w w' Hrun Hx) as (Hrun' & rest & Hq').
      assert (tx ∈ map response_channel (queue (shared w'))) as Hq2 by (rewrite Hq', map_app, elem_of_app; by left).
      split; [done|]. split; [done|]. apply Hun; [|done]. eapply world_reached_inv, reached_step; [exact Hreach|exact Hx].
Qed.

(** When the time for a response is over the connection ends, and the request that waited
    and every request behind it are answered with an error. *)
Theorem timed_out_requests_answered send_after_close eager w w' id tx inp :
  reached send_after_close eager w -> state (conn w) = WaitingForResponse id tx -> Connection.eager (conn w) = [] -> timer inp = true ->
  exec send_after_close (Run inp) w = Some (Ok w') ->
  running (conn w') = false /\ queue (shared w') = [] /\
  exists e, (tx, Err e) ∈ answered (shared w') /\
    forall r, r ∈ queue (shared w) -> (response_channel r, Err e) ∈ answered (shared w').
Proof.
  intros Hw%world_reached_inv Hst He Htm Hx. unfold exec in Hx. destruct (_ && _) eqn:Eb; [|done]. apply andb_true_iff in Eb as [Erun _].
  pose proof (wi_running _ _ Hw) as Hr. rewrite Erun in Hr. destruct Hr as [_ Hto]. specialize (Hto ltac:(by rewrite Hst)).
  assert (exists e, run_poll inp (conn w, shared w) = Ok (Some (shutdown e (conn w, shared w)))) as [e Hrun].
  { unfold run_poll. cbn [fst snd]. rewrite He, Hst. unfold state_waiting_for_response. cbn [fst snd]. rewrite Hto, Htm.
    destruct (token (shared w)); eexists; reflexivity. }
  rewrite Hrun in Hx. injection Hx as <-. unfold shutdown. rewrite drain_spec, Hst. cbn.
  split_and!; [done..|]. exists e. split; [apply elem_of_app; left; apply elem_of_app; right; by apply list_elem_of_singleton|].
  intros r Hin. apply elem_of_app. right. apply list_elem_of_fmap. by exists r.
Qed.

(** ** A slot reserved before the connection ends *)
Definition step_after_close (w w' : World) : Prop := exists ev, exec true ev w = Some (Ok w').

Lemma lost_request_stays tx w w' :
  world_inv true w -> running (conn w) = false -> tx ∈ map response_channel (queue (shared w)) -> rtc step_after_close w w' ->
  tx ∉ (answered (shared w')).*1.
Proof.
  intros Hw Hrun Hin Hs. revert Hw Hrun Hin. induction Hs as [w|w w1 w' [ev Hx] _ IH]; intros Hw Hrun Hin.
  - by apply (unanswered_in_queue true).
  - destruct (exec_cases true w ev Hw) as [H|(? & _ & _ & H & _)]; rewrite Hx in H; [|done]. destruct H as [Hw1 H]. destruct (H Hrun) as [Hrun1 [q Hq]].
    apply IH; [done..|]. rewrite Hq, map_app. apply elem_of_app. by left.
Qed.

(** Running a list of events. *)
Fixpoint run_events (send_after_close : bool) (evs : list Event) (w : World) : option World :=
  match evs with
  | [] => Some w
  | ev :: evs => match exec send_after_close ev w with Some (Ok w) => run_events send_after_close evs w | _ => None end
  end.

Lemma run_events_reached sac eager evs w w' : reached sac eager w -> run_events sac evs w = Some w' -> reached sac eager w'.
Proof.
  revert w. induction evs as [|ev evs IH]; cbn; intros w Hw; [by intros [= <-]|].
  destruct (exec sac ev w) as [[w1|e|]|] eqn:Ex; try done. apply IH. by eapply reached_step.
Qed.

Module TestConnection.
Definition quiet : Inputs := mk_inputs false None false None (fun _ => HandlerFailed) Sent.
Definition says (m : Message) : Inputs := mk_inputs false None false (Some (Some (inr m))) (fun _ => HandlerFailed) Sent.
Definition late : Inputs := mk_inputs true None false None (fun _ => HandlerFailed) Sent.
Definition pong : Message := M_Response (RS_Ping (mk_ping_response PING_OK_RESPONSE_STATUS_TEXT 7)).

(** A ping is sent, and answered by the peer or not in time. *)
Definition asked : list Event := [PollReady 0 Requests true true; Call 0 (Q_Admin RQ_Ping); Run quiet].
Definition answered_events : list Event := asked ++ [Run (says pong)].
(** A slot is reserved, the connection is closed, and then the ping is sent. *)
Definition sent_late : list Event := [PollReady 0 Requests true true; CancelToken; Run quiet; Call 0 (Q_Admin RQ_Ping)].

Definition after (sac : bool) (evs : list Event) : World := default (start []) (run_events sac evs (start [])).

Lemma after_reached sac evs : is_Some (run_events sac evs (start [])) -> reached sac [] (after sac evs).
Proof. intros [w Hw]. unfold after. rewrite Hw. eapply run_events_reached; [apply reached_start|exact Hw]. Qed.

Example ping_answered : map fst (answered (shared (after false answered_events))) = [0%nat] /\ peer_sink (conn (after false answered_events)) = [M_Request RQ_Ping].
Proof. split; reflexivity. Qed.
Example ping_refused : answered (shared (after false sent_late)) = [(0%nat, Err ClientChannelClosed)].
Proof. reflexivity. Qed.
End TestConnection.

(** If outstanding slots of a closed queue can still be used, as the documentation of the
    channel says, then a request can be lost: sent between [poll_ready] and [call] when the
    connection ends, it is never answered, whatever happens later. *)
Theorem request_sent_after_close_is_lost :
  exists w tx, reached true [] w /\ is_Some (issued (shared w) !! tx) /\
    forall w', rtc step_after_close w w' -> tx ∉ (answered (shared w')).*1.
Proof.
  exists (TestConnection.after true TestConnection.sent_late), 0%nat.
  assert (reached true [] (TestConnection.after true TestConnection.sent_late)) as Hr by (apply TestConnection.after_reached; eexists; reflexivity).
  split; [done|]. split; [by eexists|]. intros w' Hs.
  eapply lost_request_stays; [exact (world_reached_inv _ _ _ Hr)|reflexivity| |exact Hs]. by left.
Qed.

(** The caller of such a request panics when the client has been dropped. *)
Theorem lost_request_panics :
  let w := TestConnection.after true (TestConnection.sent_late ++ [DropClient 0]) in
  reached true [] w /\ exec true (PollResponse 0) w = Some Panic.
Proof. split; [apply TestConnection.after_reached; eexists; reflexivity|reflexivity]. Qed.

(** At the state that waits for the answer to a ping. *)
Lemma connection_panics_only_for_lost_requests_witness :
  reached false [] (TestConnection.after false TestConnection.asked) /\
  exec false (Run (TestConnection.says TestConnection.pong)) (TestConnection.after false TestConnection.asked) <> Some Panic /\
  exec false (PollResponse 0) (TestConnection.after false TestConnection.asked) <> Some Panic.
Proof.
  assert (reached false [] (TestConnection.after false TestConnection.asked)) as Hr by (apply TestConnection.after_reached; eexists; reflexivity).
  split; [exact Hr|].
  split; intros Hp; apply (connection_panics_only_for_lost_requests false [] _ _ Hr) in Hp as [Hp _]; discriminate Hp.
Defined.

(** After the answer: channel 0 is answered with a response to the ping. *)
Lemma requests_answered_once_witness :
  reached false [] (TestConnection.after false TestConnection.answered_events) /\
  NoDup (answered (shared (TestConnection.after false TestConnection.answered_events))).*1.
Proof.
  assert (reached false [] (TestConnection.after false TestConnection.answered_events)) as Hr by (apply TestConnection.after_reached; eexists; reflexivity).
  split; [exact Hr|]. exact (proj1 (requests_answered_once false [] _ Hr)).
Defined.

(** The peer does not answer the ping in time. *)
Lemma timed_out_requests_answered_witness :
  running (conn (TestConnection.after false (TestConnection.asked ++ [Run TestConnection.late]))) = false /\
  exists e, (0%nat, Err e) ∈ answered (shared (TestConnection.after false (TestConnection.asked ++ [Run TestConnection.late]))).
Proof.
  assert (reached false [] (TestConnection.after false TestConnection.asked)) as Hr by (apply TestConnection.after_reached; eexists; reflexivity).
  destruct (timed_out_requests_answered false [] _ (TestConnection.after false (TestConnection.asked ++ [Run TestConnection.late])) Id_Ping 0
    TestConnection.late Hr eq_refl eq_refl eq_refl eq_refl) as (H & _ & e & He & _).
  split; [exact H|exists e; exact He].
Defined.
End ConnectionFacts.
