(* ===== verification/PeerList.v ===== *)
(** * Peer lists ([src/p2p/address-book/src/peer_list.rs])

    A list of peers with two indexes beside it, by pruning seed and by ban id. The map of
    the peers is an [IndexMap]: it has an order, a removal puts the last entry in the place
    of the removed one. The index by seed is a [BTreeMap], visited in the order of
    [PruningSeed]'s [Ord]. *)
From S2P Require Import Prelude Bytes Pruning NetAddress.
From Stdlib Require Import ZArith Lia.
From stdpp Require Import base tactics option list numbers sets gmap sorting.
Import Pruning NetAddress.

#[local] Open Scope Z_scope.

(** ** Order and encoding of seeds *)
Definition seed_le (p q : PruningSeed) : Prop := cmp p q <> Gt.
#[export] Instance seed_le_dec p q : Decision (seed_le p q).
Proof. unfold seed_le. apply _. Defined.

#[export] Instance PruningSeed_countable : Countable PruningSeed.
Proof.
  refine (inj_countable' (fun p => match p with NotPruned => None | Pruned s => Some (log_stripes s, stripe s) end)
    (fun o => match o with None => NotPruned | Some (l, s) => Pruned (mk_seed l s) end) _). by intros [|[]].
Defined.

Module PeerList.

(** [vec.swap_remove(i)] for an index in range *)
Definition swap_remove {A} (i : nat) (l : list A) : list A :=
  match last l with Some x => take (length l - 1) (<[i := x]> l) | None => l end.

(** ** [IndexMap] *)
Section index_map.
Context {K V : Type} `{EqDecision K}.

Definition im_index (k : K) (m : list (K * V)) : option nat := fst <$> list_find (fun x => x.1 = k) m.
Definition im_get (k : K) (m : list (K * V)) : option V := snd <$> (snd <$> list_find (fun x => x.1 = k) m).
Definition im_insert (k : K) (v : V) (m : list (K * V)) : list (K * V) :=
  match im_index k m with Some i => <[i := (k, v)]> m | None => m ++ [(k, v)] end.
Definition im_swap_remove (k : K) (m : list (K * V)) : option (V * list (K * V)) :=
  i ← im_index k m; v ← im_get k m; Some (v, swap_remove i m).
End index_map.

Section peer_list.
Context {Addr BanID : Type} `{Countable Addr, Countable BanID} {NZ : NetZoneAddress Addr BanID}.

(** [ZoneSpecificPeerListEntryBase] *)
Record Entry := mk_entry {
  adr : Addr;
  id : Z;
  last_seen : Z;
  pruning_seed : PruningSeed;
  rpc_port : Z;
  rpc_credits_per_hash : Z;
}.

#[local] Abbreviation Index K := (gmap K (list Addr)).

Record PeerList := mk_list {
  peers : list (Addr * Entry);
  pruning_seeds : Index PruningSeed;
  ban_ids : Index BanID;
}.

(** [index.entry(k).or_insert_with(Vec::new).push(a)] *)
Definition idx_push {K} `{Countable K} (k : K) (a : Addr) (i : Index K) : Index K :=
  <[k := default [] (i !! k) ++ [a]]> i.

Definition new_step (l : PeerList) (peer : Entry) : PeerList :=
  mk_list (im_insert (adr peer) peer (peers l)) (idx_push (pruning_seed peer) (adr peer) (pruning_seeds l))
    (idx_push (ban_id (adr peer)) (adr peer) (ban_ids l)).
Definition new (list : list Entry) : PeerList := foldl new_step (mk_list [] ∅ ∅) list.

Definition list_len (l : PeerList) : Z := len (peers l).

Definition contains_peer (a : Addr) (l : PeerList) : bool := bool_decide (is_Some (im_get a (peers l))).

Definition add_new_peer (peer : Entry) (l : PeerList) : PeerList :=
  if contains_peer (adr peer) l then mk_list (im_insert (adr peer) peer (peers l)) (pruning_seeds l) (ban_ids l)
  else new_step l peer.

(** [remove_peer_idx], on the entry of the index *)
Definition remove_peer_idx {E} (peer_list : option (list Addr)) (a : Addr) : result E (list Addr) :=
  match peer_list with
  | Some l => match list_find (fun x => x = a) l with Some (i, _) => Ok (swap_remove i l) | None => Panic end
  | None => Panic
  end.

Definition remove_from_idx {E K} `{Countable K} (k : K) (a : Addr) (i : Index K) : result E (Index K) :=
  l ← remove_peer_idx (i !! k) a;
  Ok (if bool_decide (l = []) then delete k i else <[k := l]> i).

Definition remove_peer_pruning_idx {E} (peer : Entry) (l : PeerList) : result E PeerList :=
  i ← remove_from_idx (pruning_seed peer) (adr peer) (pruning_seeds l); Ok (mk_list (peers l) i (ban_ids l)).
Definition remove_peer_ban_idx {E} (peer : Entry) (l : PeerList) : result E PeerList :=
  i ← remove_from_idx (ban_id (adr peer)) (adr peer) (ban_ids l); Ok (mk_list (peers l) (pruning_seeds l) i).
Definition remove_peer_from_all_idxs {E} (peer : Entry) (l : PeerList) : result E PeerList :=
  l ← remove_peer_pruning_idx peer l; remove_peer_ban_idx peer l.

Definition remove_peer {E} (a : Addr) (l : PeerList) : result E (option Entry * PeerList) :=
  match im_swap_remove a (peers l) with
  | None => Ok (None, l)
  | Some (peer_eb, ps) =>
      l ← remove_peer_from_all_idxs peer_eb (mk_list ps (pruning_seeds l) (ban_ids l));
      Ok (Some peer_eb, l)
  end.

(** [for addr in addresses { self.remove_peer(&addr); }] *)
Definition remove_peers {E} (addrs : list Addr) (l : PeerList) : result E PeerList :=
  try_fold (fun l a => snd <$> remove_peer a l) l addrs.

Definition remove_peers_with_ban_id {E} (b : BanID) (l : PeerList) : result E PeerList :=
  match ban_ids l !! b with None => Ok l | Some addresses => remove_peers addresses l end.

(** The first addresses not to be kept, at most [target_removed] of them. *)
Fixpoint pick_to_remove (must_keep : gset Addr) (target_removed : nat) (addrs : list Addr) : list Addr :=
  match target_removed, addrs with
  | O, _ | _, [] => []
  | S n, a :: addrs => if bool_decide (a ∈ must_keep) then pick_to_remove must_keep (S n) addrs else a :: pick_to_remove must_keep n addrs
  end.

Definition reduce_list {E} (must_keep : gset Addr) (new_len : nat) (l : PeerList) : result E PeerList :=
  if (length (peers l) <=? new_len)%nat then Ok l
  else remove_peers (pick_to_remove must_keep (length (peers l) - new_len) (map fst (peers l))) l.

(** The seeds of the index, in the order of the map. *)
Definition seeds_in_order (i : Index PruningSeed) : list PruningSeed := merge_sort seed_le (map fst (map_to_list i)).

(** [pruning_seeds.iter().find(..)] *)
Fixpoint find_seed {E} (needed_height : Z) (seeds : list PruningSeed) : result E (option PruningSeed) :=
  match seeds with
  | [] => Ok None
  | seed :: seeds =>
      h ← expect (get_next_unpruned_block seed needed_height MAX_BLOCK_HEIGHT_USIZE);
      if h =? needed_height then Ok (Some seed) else find_seed needed_height seeds
  end.

(** [r.gen_range(0..n)], which panics on an empty range; [draw] is the [i]th draw. *)
Definition gen_range {E} (draw : nat -> nat -> nat) (i n : nat) : result E nat :=
  if (n =? 0)%nat then Panic else Ok (draw i n).

Definition take_if_free {E} (must_keep : gset Addr) (peer : Addr) (again : result E (option Entry * PeerList)) (l : PeerList)
    : result E (option Entry * PeerList) :=
  if bool_decide (peer ∈ must_keep) then again else remove_peer peer l.

(** The attempts of the loop [for _ in 0..3]. *)
Fixpoint take_attempts {E} (draw : nat -> nat -> nat) (block_needed : option Z) (must_keep : gset Addr) (attempts : list nat) (l : PeerList)
    : result E (option Entry * PeerList) :=
  match attempts with
  | [] => Ok (None, l)
  | i :: attempts =>
      let again := take_attempts draw block_needed must_keep attempts l in
      match block_needed with
      | Some needed_height =>
          found ← find_seed needed_height (seeds_in_order (pruning_seeds l));
          match found with
          | None => Ok (None, l)
          | Some seed =>
              let addresses_with_block := default [] (pruning_seeds l !! seed) in
              n ← gen_range draw i (length addresses_with_block);
              peer ← unwrap (addresses_with_block !! n);
              take_if_free must_keep peer again l
          end
      | None =>
          if (length (peers l) =? 0)%nat then Ok (None, l)
          else
            n ← gen_range draw i (length (peers l));
            key ← unwrap (fst <$> peers l !! n);
            take_if_free must_keep key again l
      end
  end.
Definition take_random_peer {E} (draw : nat -> nat -> nat) (block_needed : option Z) (must_keep : gset Addr) (l : PeerList)
    : result E (option Entry * PeerList) :=
  take_attempts draw block_needed must_keep [0; 1; 2]%nat l.

(** [choose_multiple] and [shuffle] of the [rand] crate *)
Definition get_random_peers (choose_multiple : list Entry -> nat -> list Entry) (shuffle : list Entry -> list Entry) (n : nat) (l : PeerList)
    : list Entry :=
  let ps := shuffle (choose_multiple (map snd (peers l)) n) in
  take (Nat.min n (length ps)) ps.

(** A change of the entry through [get_peer_mut] *)
Definition update_peer (a : Addr) (f : Entry -> Entry) (l : PeerList) : PeerList :=
  match im_get a (peers l) with
  | Some e => mk_list (im_insert a (f e) (peers l)) (pruning_seeds l) (ban_ids l)
  | None => l
  end.
End peer_list.
Arguments Entry : clear implicits.
Arguments PeerList Addr BanID {_ _}.

(** ** Facts on [IndexMap] *)
Lemma swap_remove_perm {A} i (l : list A) x : l !! i = Some x -> l ≡ₚ x :: swap_remove i l.
Proof.
  destruct l as [|y l _] using rev_ind; [by rewrite lookup_nil|]. intros Hi. unfold swap_remove. rewrite last_snoc, length_app. cbn [length].
  replace (length l + 1 - 1)%nat with (length l) by lia.
  destruct (decide (i < length l)%nat) as [Hlt|Hge].
  - rewrite lookup_app_l in Hi by done. rewrite insert_app_l, take_app_length' by (rewrite ?length_insert; done).
    rewrite insert_take_drop by done. rewrite <- (take_drop_middle l i x Hi) at 1. solve_Permutation.
  - assert (i = length l) as -> by (apply lookup_lt_Some in Hi; rewrite length_app in Hi; cbn in Hi; lia).
    rewrite list_lookup_middle in Hi by done. injection Hi as ->.
    rewrite insert_app_r_alt, take_app_length' by lia. solve_Permutation.
Qed.

Section index_map_facts.
Context {K V : Type} `{EqDecision K}.
Implicit Types (m : list (K * V)) (k : K) (v : V).

Lemma im_get_cons k x m : im_get k (x :: m) = if decide (x.1 = k) then Some x.2 else im_get k m.
Proof. unfold im_get. cbn. destruct (decide (x.1 = k)); [done|]. by destruct (list_find _ m) as [[]|]. Qed.

Lemma im_index_cons k x m : im_index k (x :: m) = if decide (x.1 = k) then Some 0%nat else S <$> im_index k m.
Proof. unfold im_index. cbn. destruct (decide (x.1 = k)); [done|]. by destruct (list_find _ m) as [[]|]. Qed.

Lemma im_index_get k m i : im_index k m = Some i -> exists v, im_get k m = Some v /\ m !! i = Some (k, v).
Proof.
  unfold im_index, im_get. destruct (list_find _ m) as [[j [k' v]]|] eqn:E; [|done]. cbn. intros [= ->].
  apply list_find_Some in E as (? & ? & _). cbn in *. subst. eauto.
Qed.

Lemma im_index_None k m : im_index k m = None <-> im_get k m = None.
Proof. unfold im_index, im_get. by destruct (list_find _ m) as [[]|]. Qed.

Lemma im_get_elem m k v : NoDup m.*1 -> im_get k m = Some v <-> (k, v) ∈ m.
Proof.
  induction m as [|[k' v'] m IH]; cbn [fmap list_fmap]; [split; [done|by intros ?%elem_of_nil]|].
  rewrite NoDup_cons, im_get_cons, elem_of_cons. intros [Hk Hn]. cbn in *. rewrite <- IH by done.
  destruct (decide (k' = k)) as [->|Hne].
  - split; [by intros [= ->]; left|]. intros [[= ->]|Hg]; [done|]. apply IH in Hg; [|done].
    destruct Hk. apply list_elem_of_fmap. by exists (k, v).
  - split; [by right|]. intros [[= <- ?]|?]; done.
Qed.

Lemma im_get_None m k : im_get k m = None <-> k ∉ m.*1.
Proof.
  induction m as [|[k' v'] m IH]; cbn [fmap list_fmap]; [split; [intros _ ?%elem_of_nil; done|done]|].
  rewrite im_get_cons, not_elem_of_cons. cbn. destruct (decide (k' = k)); [naive_solver|]. rewrite IH. naive_solver.
Qed.

Lemma im_get_insert k k' v m : im_get k' (im_insert k v m) = if decide (k = k') then Some v else im_get k' m.
Proof.
  unfold im_insert. induction m as [|x m IH]; [cbn -[im_get]; rewrite im_get_cons; done|].
  rewrite im_index_cons. destruct (decide (x.1 = k)) as [Hx|Hx].
  - cbn -[im_get]. rewrite !im_get_cons. cbn. subst. by destruct (decide _).
  - transitivity (im_get k' (x :: match im_index k m with Some i => <[i := (k, v)]> m | None => m ++ [(k, v)] end)).
    { by destruct (im_index k m). }
    rewrite !im_get_cons, IH. destruct (decide (x.1 = k')), (decide (k = k')); naive_solver.
Qed.

Lemma im_insert_keys k v m : (im_insert k v m).*1 = if decide (im_get k m = None) then m.*1 ++ [k] else m.*1.
Proof.
  unfold im_insert. destruct (im_index k m) as [i|] eqn:E.
  - apply im_index_get in E as (v' & Hg & Hi). rewrite decide_False by congruence.
    rewrite list_fmap_insert. cbn. apply list_insert_id. by rewrite list_lookup_fmap, Hi.
  - apply im_index_None in E. by rewrite decide_True, fmap_app.
Qed.

Lemma im_insert_NoDup k v m : NoDup m.*1 -> NoDup (im_insert k v m).*1.
Proof.
  intros Hn. rewrite im_insert_keys. destruct (decide _) as [Hg|]; [|done]. apply im_get_None in Hg.
  apply NoDup_app. split_and!; [done| |apply NoDup_singleton]. set_solver.
Qed.

Lemma im_swap_remove_spec k m :
  NoDup m.*1 ->
  match im_swap_remove k m with
  | None => im_get k m = None
  | Some (v, m') => im_get k m = Some v /\ NoDup m'.*1 /\ length m = S (length m') /\
      forall k', im_get k' m' = if decide (k = k') then None else im_get k' m
  end.
Proof.
  intros Hn. unfold im_swap_remove. destruct (im_index k m) as [i|] eqn:E; cbn; [|by apply im_index_None].
  apply im_index_get in E as (v & Hg & Hi). rewrite Hg. cbn. pose proof (swap_remove_perm _ _ _ Hi) as Hp.
  set (m' := swap_remove i m) in *. pose proof (fmap_Permutation fst _ _ Hp) as Hpk. cbn in Hpk.
  assert (Hn' : NoDup (k :: m'.*1)) by (by rewrite <- Hpk). apply NoDup_cons in Hn' as [Hk Hn'].
  split_and!; [done..|by rewrite Hp|]. intros k'. destruct (decide (k = k')) as [<-|Hne]; [by apply im_get_None|].
  apply option_eq. intros w. rewrite !im_get_elem, Hp, elem_of_cons by done. naive_solver.
Qed.
End index_map_facts.

(** ** The invariant of a peer list: the indexes are those of the peers *)
Section peer_list_facts.
Context {Addr BanID : Type} `{Countable Addr, Countable BanID} {NZ : NetZoneAddress Addr BanID}.
Implicit Types (l : PeerList Addr BanID) (e : Entry Addr) (a b : Addr).

#[local] Abbreviation get a l := (im_get a (peers l)).

(** [i] lists, under each key, exactly the addresses whose entry has that key. *)
Definition idx_ok {K} `{Countable K} (key : Entry Addr -> K) (g : Addr -> option (Entry Addr)) (i : gmap K (list Addr)) : Prop :=
  (forall k v, i !! k = Some v -> v <> [] /\ NoDup v) /\
  (forall k a, a ∈ default [] (i !! k) <-> exists e, g a = Some e /\ key e = k).

Record wf l : Prop := {
  wf_keys : NoDup (peers l).*1;
  wf_adr a e : get a l = Some e -> adr e = a;
  wf_seed a e : get a l = Some e -> Pruning.wf (pruning_seed e);
  wf_seeds : idx_ok pruning_seed (fun a => get a l) (pruning_seeds l);
  wf_bans : idx_ok (fun e => ban_id (adr e)) (fun a => get a l) (ban_ids l);
}.

Lemma idx_push_ok {K} `{Countable K} (key : Entry Addr -> K) g g' i a e :
  idx_ok key g i -> g a = None -> (forall b, g' b = if decide (a = b) then Some e else g b) -> idx_ok key g' (idx_push (key e) a i).
Proof.
  intros [Hn Hm] Ha Hg. unfold idx_push. split.
  - intros k v. destruct (decide (key e = k)) as [<-|Hne]; [rewrite lookup_insert_eq|rewrite lookup_insert_ne by done; apply Hn].
    intros [= <-]. split; [by destruct (default [] _)|].
    assert (NoDup (default [] (i !! key e))) by (destruct (i !! key e) eqn:E; [by apply (Hn _ _ E)|constructor]).
    apply NoDup_app. split_and!; [done| |apply NoDup_singleton]. intros x Hx ->%list_elem_of_singleton.
    apply Hm in Hx as (? & ? & _). congruence.
  - intros k b. rewrite Hg. destruct (decide (key e = k)) as [<-|Hne].
    + rewrite lookup_insert_eq. change (default [] (Some ?x)) with x. rewrite elem_of_app, list_elem_of_singleton, Hm.
      destruct (decide (a = b)); naive_solver.
    + rewrite lookup_insert_ne, Hm by done. destruct (decide (a = b)); naive_solver.
Qed.

Lemma idx_remove_ok {E K} `{Countable K} (key : Entry Addr -> K) g g' i a e :
  idx_ok key g i -> g a = Some e -> (forall b, g' b = if decide (a = b) then None else g b) ->
  exists i', remove_from_idx (E := E) (key e) a i = Ok i' /\ idx_ok key g' i'.
Proof.
  intros [Hn Hm] Ha Hg. unfold remove_from_idx, remove_peer_idx.
  assert (Hin : a ∈ default [] (i !! key e)) by (apply Hm; eauto).
  destruct (i !! key e) as [v|] eqn:Hv; [|by apply elem_of_nil in Hin]. cbn in Hin.
  destruct (list_find (fun x => x = a) v) as [[j a']|] eqn:Hj.
  2: { apply list_find_None in Hj. rewrite Forall_forall in Hj. by apply Hj in Hin. }
  apply list_find_Some in Hj as (Hj & -> & _). apply swap_remove_perm in Hj. set (v' := swap_remove j v) in *.
  destruct (Hn _ _ Hv) as [_ Hnd]. rewrite Hj, NoDup_cons in Hnd. destruct Hnd as [Ha' Hnd].
  cbn [mbind result_bind]. eexists. split; [done|]. set (i' := if bool_decide (v' = []) then delete (key e) i else <[key e := v']> i).
  assert (Hl : i' !! key e = if bool_decide (v' = []) then None else Some v').
  { unfold i'. case_bool_decide; [apply lookup_delete_eq|apply lookup_insert_eq]. }
  assert (Hl' : forall k, key e <> k -> i' !! k = i !! k).
  { intros k Hk. unfold i'. case_bool_decide; [by apply lookup_delete_ne|by apply lookup_insert_ne]. }
  split.
  - intros k w. destruct (decide (key e = k)) as [<-|Hk]; [rewrite Hl|rewrite Hl' by done; apply Hn].
    case_bool_decide; [done|]. by intros [= <-].
  - intros k b. rewrite Hg. destruct (decide (key e = k)) as [<-|Hk].
    + rewrite Hl. transitivity (b ∈ v'). { case_bool_decide as Hv'; [by rewrite Hv'|done]. }
      destruct (decide (a = b)) as [<-|Hab]; [naive_solver|].
      rewrite <- (Hm (key e) b), Hv. change (default [] (Some v)) with v. rewrite Hj, elem_of_cons. naive_solver.
    + rewrite Hl', Hm by done. destruct (decide (a = b)) as [<-|]; naive_solver.
Qed.

(** ** The operations *)
Lemma empty_wf : wf (mk_list [] ∅ ∅).
Proof.
  split; cbn; [constructor|done..| |]; (split; [by intros ? ? ?%lookup_empty_Some|]; intros k a; rewrite lookup_empty; cbn; rewrite elem_of_nil; naive_solver).
Qed.

Definition added l e l' : Prop :=
  wf l' /\ (forall a, get a l' = if decide (adr e = a) then Some e else get a l) /\ length (peers l') = S (length (peers l)).

Lemma new_step_added l e : wf l -> get (adr e) l = None -> Pruning.wf (pruning_seed e) -> added l e (new_step l e).
Proof.
  intros Hwf Hg Hs. assert (Hget : forall a, get a (new_step l e) = if decide (adr e = a) then Some e else get a l).
  { intros a. apply im_get_insert. }
  split_and!; [|done|].
  - split.
    + apply im_insert_NoDup, Hwf.
    + intros a e'. rewrite Hget. destruct (decide _); [congruence|apply Hwf].
    + intros a e'. rewrite Hget. destruct (decide _); [congruence|apply Hwf].
    + by eapply idx_push_ok; [apply Hwf| |].
    + by eapply (idx_push_ok (fun e => ban_id (adr e))); [apply Hwf| |].
  - rewrite <- (length_fmap fst), <- (length_fmap fst (peers l)). cbn [new_step peers].
    rewrite im_insert_keys, decide_True, length_app by done. cbn. lia.
Qed.

Lemma contains_peer_spec a l : contains_peer a l = true <-> is_Some (get a l).
Proof. apply bool_decide_eq_true. Qed.

Lemma add_new_peer_spec l e :
  wf l -> get (adr e) l = None -> Pruning.wf (pruning_seed e) -> added l e (add_new_peer e l).
Proof.
  intros Hwf Hg Hs. unfold add_new_peer, contains_peer. rewrite bool_decide_eq_false_2 by (rewrite Hg; by intros []).
  by apply new_step_added.
Qed.

(** What is stored is read back as it was: a list made of distinct peers. *)
Lemma list_new_spec es :
  NoDup (adr <$> es) -> Forall (fun e => Pruning.wf (pruning_seed e)) es ->
  wf (new es) /\ length (peers (new es)) = length es /\ forall a e, get a (new es) = Some e <-> e ∈ es /\ adr e = a.
Proof.
  unfold new. induction es as [|e es IH] using rev_ind; intros Hn Hs.
  { split_and!; [apply empty_wf|done|]. intros a e. cbn. rewrite elem_of_nil. naive_solver. }
  rewrite fmap_app, NoDup_app in Hn. destruct Hn as (Hn & Hd & _). apply Forall_app in Hs as [Hs He].
  destruct (IH Hn Hs) as (Hwf & Hlen & Hg). rewrite foldl_app. cbn [foldl].
  assert (Hfresh : get (adr e) (foldl new_step (mk_list [] ∅ ∅) es) = None).
  { apply eq_None_not_Some. intros [e' He']. apply Hg in He' as [Hin Heq]. apply (Hd (adr e)).
    - rewrite <- Heq. by apply list_elem_of_fmap_2.
    - cbn. by apply list_elem_of_singleton. }
  apply new_step_added in Hfresh as (Hwf' & Hg' & Hl); [|done|by inversion He].
  split_and!; [done|rewrite Hl, Hlen, length_app; cbn; lia|].
  intros a e'. rewrite Hg', elem_of_app, list_elem_of_singleton.
  destruct (decide (adr e = a)) as [Ha|Ha]; [|rewrite Hg; naive_solver].
  split; [intros [= <-]; auto|]. intros [[Hin| ->] Ha']; [|done]. destruct (Hd a).
  - rewrite <- Ha'. by apply list_elem_of_fmap_2.
  - rewrite <- Ha. cbn. by apply list_elem_of_singleton.
Qed.

Lemma update_peer_spec l a f e :
  wf l -> get a l = Some e -> adr (f e) = adr e -> pruning_seed (f e) = pruning_seed e ->
  wf (update_peer a f l) /\ (forall b, get b (update_peer a f l) = if decide (a = b) then Some (f e) else get b l) /\
  length (peers (update_peer a f l)) = length (peers l).
Proof.
  intros Hwf Hg Ha Hs. unfold update_peer. rewrite Hg.
  assert (Hget : forall b, im_get b (im_insert a (f e) (peers l)) = if decide (a = b) then Some (f e) else get b l)
    by (intros; apply im_get_insert).
  assert (Hidx : forall {K} `{Countable K} (key : Entry Addr -> K) i, key (f e) = key e ->
    idx_ok key (fun a => get a l) i -> idx_ok key (fun b => im_get b (im_insert a (f e) (peers l))) i).
  { intros K ? ? key i Hk [Hn Hm]. split; [done|]. intros k b. rewrite Hm, Hget.
    destruct (decide (a = b)) as [<-|]; naive_solver. }
  split_and!; [|done|].
  - split; cbn [peers pruning_seeds ban_ids].
    + apply im_insert_NoDup, Hwf.
    + intros b e'. rewrite Hget. destruct (decide (a = b)) as [<-|]; [intros [= <-]; rewrite Ha; by apply (wf_adr l Hwf)|apply Hwf].
    + intros b e'. rewrite Hget. destruct (decide (a = b)) as [<-|]; [intros [= <-]; by rewrite Hs; apply (wf_seed l Hwf a)|apply Hwf].
    + apply Hidx; [done|apply Hwf].
    + apply Hidx; [by rewrite Ha|apply Hwf].
  - cbn. rewrite <- (length_fmap fst), <- (length_fmap fst (peers l)), im_insert_keys, decide_False by congruence. done.
Qed.

(** [l'] is [l] without the addresses [as_]. *)
Definition without l (as_ : list Addr) l' : Prop :=
  wf l' /\ forall b, get b l' = if decide (b ∈ as_) then None else get b l.

Lemma remove_peer_spec {E} l a :
  wf l -> exists l', remove_peer (E := E) a l = Ok (get a l, l') /\ without l [a] l' /\
    length (peers l) = ((if get a l then 1 else 0) + length (peers l'))%nat.
Proof.
  intros Hwf. unfold remove_peer. pose proof (im_swap_remove_spec a (peers l) (wf_keys l Hwf)) as Hr.
  destruct (im_swap_remove a (peers l)) as [[e ps]|].
  2: { rewrite Hr. exists l. split_and!; [done| |done]. split; [done|]. intros b.
       destruct (decide (b ∈ [a])) as [->%list_elem_of_singleton|]; done. }
  destruct Hr as (Hg & Hn & Hl & Hg'). rewrite Hg. assert (Ha : adr e = a) by by apply Hwf.
  assert (Hget : forall b, im_get b ps = if decide (b ∈ [a]) then None else get b l).
  { intros b. rewrite Hg'. destruct (decide (a = b)) as [<-|Hne]; [rewrite decide_True by set_solver; done|].
    rewrite decide_False; [done|]. set_solver. }
  unfold remove_peer_from_all_idxs, remove_peer_pruning_idx, remove_peer_ban_idx. cbn [peers pruning_seeds ban_ids].
  rewrite Ha.
  destruct (idx_remove_ok (E := E) pruning_seed _ (fun b => im_get b ps) _ a e (wf_seeds l Hwf) Hg Hg') as (i1 & -> & H1).
  destruct (idx_remove_ok (E := E) (fun e => ban_id (adr e)) _ (fun b => im_get b ps) _ a e (wf_bans l Hwf) Hg Hg') as (i2 & Hi2 & H2).
  rewrite Ha in Hi2. cbn [mbind result_bind peers pruning_seeds ban_ids]. rewrite Hi2. cbn [mbind result_bind].
  eexists. split; [done|]. split; [|cbn [peers]; lia]. split; [|done].
  split; cbn [peers pruning_seeds ban_ids]; [done| | |done|done]; intros b e'; rewrite Hget; destruct (decide _); try done.
  - apply (wf_adr l Hwf).
  - apply (wf_seed l Hwf).
Qed.

Lemma remove_peers_spec {E} as_ l :
  wf l -> exists l', remove_peers (E := E) as_ l = Ok l' /\ without l as_ l' /\
    (NoDup as_ -> Forall (fun a => is_Some (get a l)) as_ -> length (peers l) = (length as_ + length (peers l'))%nat).
Proof.
  unfold remove_peers. revert l. induction as_ as [|a as_ IH]; intros l Hwf.
  { exists l. split_and!; [done| |done]. split; [done|]. intros b. by rewrite decide_False by apply not_elem_of_nil. }
  cbn [try_fold]. destruct (remove_peer_spec (E := E) l a Hwf) as (l1 & -> & (Hwf1 & Hg1) & Hl1). cbn [fmap result_fmap mbind result_bind snd].
  destruct (IH l1 Hwf1) as (l2 & -> & (Hwf2 & Hg2) & Hl2). exists l2. split_and!; [done| |].
  - split; [done|]. intros b. rewrite Hg2, Hg1. destruct (decide (b ∈ as_)), (decide (b ∈ [a])), (decide (b ∈ a :: as_)); set_solver.
  - intros [Ha Hn]%NoDup_cons [Hsa Hs]%List.Forall_cons_iff. rewrite Hl1. destruct Hsa as [e ->].
    rewrite Hl2; [cbn [length]; lia|done|]. rewrite Forall_forall in Hs |- *. intros b Hb. rewrite Hg1.
    rewrite decide_False; [by apply Hs|]. set_solver.
Qed.

Lemma remove_peers_with_ban_id_spec {E} (b : BanID) l :
  wf l -> exists l', remove_peers_with_ban_id (E := E) b l = Ok l' /\ wf l' /\
    forall a, get a l' = if decide (ban_id a = b) then None else get a l.
Proof.
  intros Hwf. unfold remove_peers_with_ban_id. destruct (wf_bans l Hwf) as [_ Hm].
  assert (Hin : forall a, get a l <> None -> ban_id a = b <-> a ∈ default [] (ban_ids l !! b)).
  { intros a Ha. rewrite Hm. destruct (get a l) as [e|] eqn:E1; [|done]. pose proof (wf_adr l Hwf _ _ E1). naive_solver. }
  destruct (ban_ids l !! b) as [as_|] eqn:E1.
  - destruct (remove_peers_spec (E := E) as_ l Hwf) as (l' & -> & [Hwf' Hg] & _). exists l'. split_and!; [done..|].
    intros a. rewrite Hg. destruct (get a l) as [e|] eqn:E2; [|by destruct (decide _), (decide _)].
    specialize (Hin a ltac:(congruence)). cbn in Hin. destruct (decide _), (decide _); naive_solver.
  - exists l. split_and!; [done..|]. intros a. destruct (get a l) as [e|] eqn:E2; [|by destruct (decide _)].
    specialize (Hin a ltac:(congruence)). cbn in Hin. rewrite elem_of_nil in Hin. destruct (decide _); naive_solver.
Qed.

Lemma pick_to_remove_eq mk n as_ : pick_to_remove mk n as_ = take n (filter (fun a => a ∉ mk) as_).
Proof.
  revert n. induction as_ as [|a as_ IH]; intros [|n]; cbn [pick_to_remove]; [done..|].
  rewrite filter_cons. case_bool_decide; [rewrite decide_False by tauto; apply IH|]. rewrite decide_True by done. cbn. by rewrite IH.
Qed.

(** The list gets no longer than [new_len] unless all that is left must be kept; nothing
    that must be kept is removed. *)
Lemma reduce_list_spec {E} mk n l :
  wf l -> exists l', reduce_list (E := E) mk n l = Ok l' /\ wf l' /\
    (forall a, a ∈ mk -> get a l' = get a l) /\ (forall a e, get a l' = Some e -> get a l = Some e) /\
    ((length (peers l') <= n)%nat \/ forall a, is_Some (get a l') -> a ∈ mk).
Proof.
  intros Hwf. unfold reduce_list. destruct (_ <=? n)%nat eqn:E1; [apply Nat.leb_le in E1; exists l; split_and!; auto|].
  apply Nat.leb_gt in E1. rewrite pick_to_remove_eq. set (ks := map fst (peers l)). set (t := (length (peers l) - n)%nat).
  set (out := take t (filter (fun a => a ∉ mk) ks)).
  assert (Hks : NoDup ks) by apply Hwf. assert (Hnd : NoDup out) by (apply (sublist_NoDup _ (filter (fun a => a ∉ mk) ks)); [by apply NoDup_filter|apply sublist_take]).
  assert (Hout : forall a, a ∈ out -> a ∉ mk /\ a ∈ ks).
  { intros a Ha. apply (list_elem_of_filter (fun a => a ∉ mk)). eapply elem_of_sublist; [done|apply sublist_take]. }
  destruct (remove_peers_spec (E := E) out l Hwf) as (l' & -> & [Hwf' Hg] & Hl).
  assert (Hpres : Forall (fun a => is_Some (get a l)) out).
  { apply Forall_forall. intros a [_ Ha]%Hout. apply not_eq_None_Some. intros Hn. apply im_get_None in Hn. done. }
  specialize (Hl Hnd Hpres). exists l'. split_and!; [done..| | |].
  - intros a Ha. rewrite Hg, decide_False; [done|]. intros [? _]%Hout. done.
  - intros a e. rewrite Hg. by destruct (decide _).
  - destruct (decide (t <= length (filter (fun a => a ∉ mk) ks))%nat) as [Ht|Ht].
    + left. unfold out in Hl. rewrite length_take, Nat.min_l in Hl by done. unfold t in Hl. lia.
    + right. intros a. rewrite Hg. destruct (decide (a ∈ out)) as [|Hno]; [by intros []|]. intros [e He].
      destruct (decide (a ∈ mk)) as [|Hmk]; [done|]. destruct Hno. unfold out. rewrite take_ge by lia.
      apply list_elem_of_filter. split; [done|]. destruct (decide (a ∈ ks)) as [|Hk]; [done|]. apply im_get_None in Hk. congruence.
Qed.

(** ** Taking a random peer *)
Lemma holds_block_iff p h :
  Pruning.wf p -> 0 <= h <= MAX_BLOCK_HEIGHT_USIZE ->
  exists h', get_next_unpruned_block p h MAX_BLOCK_HEIGHT_USIZE = Ok h' /\ (h' = h <-> has_full_block p h MAX_BLOCK_HEIGHT_USIZE = true).
Proof.
  intros Hp Hh. destruct p as [|s]; cbn; [by exists h|].
  destruct (seed_next_unpruned_spec s h MAX_BLOCK_HEIGHT_USIZE Hp Hh ltac:(done)) as (h' & -> & Hb & Hf & Hno).
  exists h'. split; [done|]. split; [by intros <-|]. intros Ht. destruct (decide (h' = h)); [done|]. rewrite Hno in Ht; [done|lia].
Qed.

Lemma find_seed_spec {E} h seeds :
  Forall Pruning.wf seeds -> 0 <= h <= MAX_BLOCK_HEIGHT_USIZE ->
  exists o, find_seed (E := E) h seeds = Ok o /\
    match o with
    | None => Forall (fun s => has_full_block s h MAX_BLOCK_HEIGHT_USIZE = false) seeds
    | Some s => exists before after, seeds = before ++ s :: after /\ has_full_block s h MAX_BLOCK_HEIGHT_USIZE = true /\
        Forall (fun s => has_full_block s h MAX_BLOCK_HEIGHT_USIZE = false) before
    end.
Proof.
  intros Hw Hh. induction Hw as [|s seeds Hs _ IH]; [by exists None|]. cbn [find_seed].
  destruct (holds_block_iff s h Hs Hh) as (h' & -> & Hiff). cbn [expect mbind result_bind].
  destruct (h' =? h) eqn:Eh; bsimp.
  - exists (Some s). split; [done|]. exists [], seeds. split_and!; [done|by apply Hiff|done].
  - assert (has_full_block s h MAX_BLOCK_HEIGHT_USIZE = false) by (apply not_true_iff_false; rewrite <- Hiff; done).
    destruct IH as (o & -> & Ho). exists o. split; [done|]. destruct o as [s'|]; [|by constructor].
    destruct Ho as (bf & af & -> & ? & ?). exists (s :: bf), af. split_and!; [done..|by constructor].
Qed.

Lemma seeds_in_order_elem (i : gmap PruningSeed (list Addr)) s : s ∈ seeds_in_order i <-> is_Some (i !! s).
Proof.
  unfold seeds_in_order. rewrite (merge_sort_Permutation seed_le). rewrite list_elem_of_fmap. split.
  - intros ([s' v] & -> & Hv%elem_of_map_to_list). by exists v.
  - intros [v Hv]. exists (s, v). by rewrite elem_of_map_to_list.
Qed.

(** What taking a peer promises: nothing happens, or a peer of the list that need not be
    kept and has the block is taken out; with nothing to keep, a peer is found if there is
    one. *)
Definition taken (block_needed : option Z) (mk : gset Addr) l (r : option (Entry Addr)) l' : Prop :=
  match r with
  | Some e =>
      get (adr e) l = Some e /\ adr e ∉ mk /\ without l [adr e] l' /\
      length (peers l) = S (length (peers l')) /\
      (forall h, block_needed = Some h -> has_full_block (pruning_seed e) h MAX_BLOCK_HEIGHT_USIZE = true)
  | None =>
      l' = l /\
      (mk = ∅ -> forall a e, get a l = Some e -> exists h, block_needed = Some h /\ has_full_block (pruning_seed e) h MAX_BLOCK_HEIGHT_USIZE = false)
  end.

Lemma take_if_free_spec {E} block_needed mk l a e r0 l0 :
  wf l -> get a l = Some e -> (forall h, block_needed = Some h -> has_full_block (pruning_seed e) h MAX_BLOCK_HEIGHT_USIZE = true) ->
  (a ∈ mk -> taken block_needed mk l r0 l0) ->
  exists r l', take_if_free (E := E) mk a (Ok (r0, l0)) l = Ok (r, l') /\ taken block_needed mk l r l'.
Proof.
  intros Hwf Hg Hh Hagain. unfold take_if_free. case_bool_decide as Ha; [by exists r0, l0; auto|].
  destruct (remove_peer_spec (E := E) l a Hwf) as (l' & -> & Hw & Hl). rewrite Hg in *.
  exists (Some e), l'. split; [done|]. pose proof (wf_adr l Hwf _ _ Hg) as <-. split_and!; [done..|lia|done].
Qed.

Lemma take_attempts_spec {E} draw block_needed mk attempts l :
  wf l -> (forall i n, (0 < n)%nat -> (draw i n < n)%nat) -> (forall h, block_needed = Some h -> 0 <= h <= MAX_BLOCK_HEIGHT_USIZE) ->
  exists r l', take_attempts (E := E) draw block_needed mk attempts l = Ok (r, l') /\ (attempts <> [] \/ mk <> ∅ -> taken block_needed mk l r l') /\
    (attempts = [] -> r = None /\ l' = l).
Proof.
  intros Hwf Hdraw Hh. induction attempts as [|i attempts IH].
  { exists None, l. split; [done|]. split; [|done]. intros [|Hne]; [done|]. cbn. split; [done|]. by intros ->. }
  destruct IH as (r0 & l0 & IH & Ht & _). cbn [take_attempts]. rewrite IH.
  assert (Hfin : forall a e, get a l = Some e -> (forall h, block_needed = Some h -> has_full_block (pruning_seed e) h MAX_BLOCK_HEIGHT_USIZE = true) ->
    exists r l', take_if_free (E := E) mk a (Ok (r0, l0)) l = Ok (r, l') /\ (i :: attempts <> [] \/ mk <> ∅ -> taken block_needed mk l r l') /\
    (i :: attempts = [] -> r = None /\ l' = l)).
  { intros a e Hg Hb. destruct (take_if_free_spec (E := E) block_needed mk l a e r0 l0) as (r & l' & -> & Hr); [done..| |].
    - intros Ha. apply Ht. right. set_solver.
    - exists r, l'. split; [done|]. split; [auto|done]. }
  destruct block_needed as [h|].
  - destruct (find_seed_spec (E := E) h (seeds_in_order (pruning_seeds l))) as (o & -> & Ho); [|by apply Hh|].
    { apply Forall_forall. intros s [v Hv]%seeds_in_order_elem. destruct (wf_seeds l Hwf) as [Hn Hm].
      destruct v as [|a v]; [by destruct (Hn _ _ Hv)|]. destruct (proj1 (Hm s a)) as (e & Hg & <-); [rewrite Hv; cbn; set_solver|].
      by apply (wf_seed l Hwf a). }
    cbn [mbind result_bind]. destruct o as [s|].
    + destruct Ho as (bf & af & Heq & Hs & _).
      assert (is_Some (pruning_seeds l !! s)) as [v Hv] by (apply seeds_in_order_elem; rewrite Heq; set_solver).
      destruct (wf_seeds l Hwf) as [Hn Hm]. destruct (Hn _ _ Hv) as [Hne _]. rewrite Hv. change (default [] (Some v)) with v.
      unfold gen_range. assert (Hpos : (0 < length v)%nat) by (destruct v; [done|cbn; lia]).
      rewrite (proj2 (Nat.eqb_neq _ _)) by lia. cbn [mbind result_bind].
      destruct (lookup_lt_is_Some_2 v (draw i (length v)) (Hdraw i _ Hpos)) as [a Ha]. rewrite Ha. cbn [unwrap mbind result_bind].
      destruct (proj1 (Hm s a)) as (e & Hg & <-); [rewrite Hv; by apply list_elem_of_lookup_2 in Ha|].
      apply (Hfin a e Hg). by intros ? [= <-].
    + exists None, l. split; [done|]. split; [|done]. intros _. split; [done|]. intros _ a e Hg. exists h. split; [done|].
      rewrite Forall_forall in Ho. apply Ho, seeds_in_order_elem. destruct (wf_seeds l Hwf) as [_ Hm].
      assert (Hin : a ∈ default [] (pruning_seeds l !! pruning_seed e)) by (apply Hm; eauto).
      destruct (pruning_seeds l !! pruning_seed e); [done|by apply elem_of_nil in Hin].
  - destruct (length (peers l) =? 0)%nat eqn:El.
    + apply Nat.eqb_eq in El. exists None, l. split; [done|]. split; [|done]. intros _. split; [done|]. intros _ a e Hg.
      destruct (peers l); done.
    + apply Nat.eqb_neq in El. unfold gen_range. rewrite (proj2 (Nat.eqb_neq _ _)) by lia. cbn [mbind result_bind].
      destruct (lookup_lt_is_Some_2 (peers l) (draw i (length (peers l)))) as [[a e] Ha]; [apply Hdraw; lia|].
      rewrite Ha. cbn [fmap option_fmap option_map unwrap mbind result_bind fst]. apply (Hfin a e); [|done].
      apply im_get_elem; [apply Hwf|]. by apply list_elem_of_lookup_2 in Ha.
Qed.

Lemma take_random_peer_spec {E} draw block_needed mk l :
  wf l -> (forall i n, (0 < n)%nat -> (draw i n < n)%nat) -> (forall h, block_needed = Some h -> 0 <= h <= MAX_BLOCK_HEIGHT_USIZE) ->
  exists r l', take_random_peer (E := E) draw block_needed mk l = Ok (r, l') /\ taken block_needed mk l r l'.
Proof.
  intros Hwf Hd Hh. destruct (take_attempts_spec (E := E) draw block_needed mk [0; 1; 2]%nat l Hwf Hd Hh) as (r & l' & ? & Ht & _).
  exists r, l'. split; [done|]. apply Ht. by left.
Qed.

Lemma stored_adrs l : wf l -> adr <$> map snd (peers l) = (peers l).*1.
Proof.
  intros Hwf. change (map snd (peers l)) with ((peers l).*2). rewrite <- list_fmap_compose. apply list_fmap_ext. intros i [a e] Hi. cbn.
  apply (wf_adr l Hwf). apply im_get_elem; [apply Hwf|]. by apply list_elem_of_lookup_2 in Hi.
Qed.

(** A list that is saved and loaded is the same. *)
Lemma reload_spec l : wf l -> wf (new (map snd (peers l))) /\ forall a, get a (new (map snd (peers l))) = get a l.
Proof.
  intros Hwf. destruct (list_new_spec (map snd (peers l))) as (Hw & _ & Hg).
  - rewrite stored_adrs by done. apply Hwf.
  - apply Forall_forall. intros e He. apply list_elem_of_fmap in He as ([a e'] & -> & Hin).
    apply (wf_seed l Hwf a). by apply im_get_elem; [apply Hwf|].
  - split; [done|]. intros a. apply option_eq. intros e. rewrite Hg, im_get_elem by apply Hwf. split.
    + intros [([a' e'] & -> & Hin)%list_elem_of_fmap <-]. cbn. pose proof Hin as Hin'. apply im_get_elem in Hin'; [|apply Hwf].
      by rewrite (wf_adr l Hwf _ _ Hin').
    + intros Hin. split; [apply list_elem_of_fmap; by exists (a, e)|]. apply (wf_adr l Hwf). by apply im_get_elem; [apply Hwf|].
Qed.

(** The peers handed out are of the list, each at most once, as many as there are up to
    the number asked for. *)
Lemma get_random_peers_spec choose shuffle n l :
  wf l -> (forall es k, length (choose es k) = Nat.min k (length es) /\ exists rest, es ≡ₚ choose es k ++ rest) -> (forall es, shuffle es ≡ₚ es) ->
  NoDup (adr <$> get_random_peers choose shuffle n l) /\
  length (get_random_peers choose shuffle n l) = Nat.min n (length (peers l)) /\
  forall e, e ∈ get_random_peers choose shuffle n l -> get (adr e) l = Some e.
Proof.
  intros Hwf Hc Hs. destruct (Hc (map snd (peers l)) n) as (Hlen & rest & Hperm).
  assert (Hps : get_random_peers choose shuffle n l ≡ₚ choose (map snd (peers l)) n).
  { unfold get_random_peers. rewrite take_ge by (rewrite Hs, Hlen; lia). apply Hs. }
  split_and!.
  - rewrite Hps. assert (Hnd : NoDup (adr <$> map snd (peers l))) by (rewrite stored_adrs by done; apply Hwf).
    rewrite Hperm, fmap_app, NoDup_app in Hnd. apply Hnd.
  - by rewrite Hps, Hlen, length_map.
  - intros e He. rewrite Hps in He. assert (Hin : e ∈ map snd (peers l)) by (rewrite Hperm; set_solver).
    apply list_elem_of_fmap in Hin as ([a e'] & -> & Hin). apply im_get_elem in Hin; [|apply Hwf]. cbn.
    by rewrite (wf_adr l Hwf a).
Qed.
End peer_list_facts.

(** ** The order of the seeds *)
#[export] Instance seed_le_total : Total seed_le.
Proof.
  intros [|[l1 s1]] [|[l2 s2]]; unfold seed_le; cbn; try (by left); try (by right). unfold seed_cmp. cbn.
  destruct (Z.compare_spec l1 l2), (Z.compare_spec l2 l1); try lia; try (by left); try (by right).
  destruct (Z.compare_spec s1 s2), (Z.compare_spec s2 s1); try lia; (by left) || (by right).
Qed.

(** A seed that prunes nothing comes after all others: when a block is needed, peers that
    keep all blocks are only used if no pruned peer of the list keeps it. *)
Theorem unpruned_peers_come_last {Addr} (i : gmap PruningSeed (list Addr)) :
  is_Some (i !! NotPruned) -> exists before, seeds_in_order i = before ++ [NotPruned] /\ NotPruned ∉ before.
Proof.
  intros Hin. apply seeds_in_order_elem in Hin as (before & after & Heq)%list_elem_of_split. exists before.
  assert (Hnd : NoDup (seeds_in_order i)).
  { unfold seeds_in_order. rewrite (merge_sort_Permutation seed_le). apply NoDup_fst_map_to_list. }
  assert (Hs : Sorted seed_le (seeds_in_order i)) by (apply Sorted_merge_sort; apply _).
  rewrite Heq in Hnd, Hs |- *. apply NoDup_app in Hnd as (_ & Hd & Hn). apply NoDup_cons in Hn as [Hn _].
  assert (after = []) as ->; [|split; [done|]; intros H; by apply (Hd _ H), list_elem_of_singleton].
  destruct after as [|s after]; [done|]. exfalso. clear -Hs Hn.
  assert (seed_le NotPruned s) as Hle.
  { induction before as [|x before IH]; cbn in Hs; [|inversion Hs; auto]. inversion Hs as [|? ? _ Hh]. by inversion Hh. }
  destruct s; [|by apply Hle]. apply Hn. by left.
Qed.

Lemma unpruned_peers_come_last_witness :
  exists before, seeds_in_order (<[NotPruned := [2]]> {[Pruned (mk_seed 3 1) := [1]]}) = before ++ [NotPruned] /\ NotPruned ∉ before.
Proof. apply (unpruned_peers_come_last (<[NotPruned := [2]]> {[Pruned (mk_seed 3 1) := [1]]})). vm_compute. eauto. Defined.

End PeerList.
