(* ===== verification/AddressBook.v ===== *)
(** * The address book ([src/p2p/address-book/src/book.rs], [src/p2p/p2p-core/src/handles.rs])

    The peers a node knows in one network zone: the white list of those it has connected
    to, the gray list of those it has heard of, the connected ones, the anchors among them,
    and the bans. The handles of the connections are shared with other tasks, which may
    ban a peer or close its connection at any time; they are a store of their own. The
    order in which a [HashMap] is visited is an argument. *)
From S2P Require Import Prelude Bytes Pruning NetAddress PeerList.
From Stdlib Require Import ZArith Lia.
From stdpp Require Import base tactics option list numbers sets gmap sorting.
Import Pruning NetAddress.

#[local] Open Scope Z_scope.

Module AddressBook.

(** ** Connection handles *)
Record HandleState := mk_handle { token_cancelled : bool; ban : option Z }.
#[local] Abbreviation Handles := (gmap Z HandleState).

Definition new_handle : HandleState := mk_handle false None.
Definition handle_state (h : Z) (hs : Handles) : HandleState := default new_handle (hs !! h).
Definition is_closed (h : Z) (hs : Handles) : bool := token_cancelled (handle_state h hs).
Definition check_should_ban (h : Z) (hs : Handles) : option Z := ban (handle_state h hs).
Definition send_close_signal (h : Z) (hs : Handles) : Handles := <[h := mk_handle true (check_should_ban h hs)]> hs.
(** The [OnceLock] of [ConnectionHandle::ban_peer]; the second step of that function is
    [send_close_signal]. *)
Definition set_ban (h : Z) (duration : Z) (hs : Handles) : Handles :=
  <[h := mk_handle (is_closed h hs) (match check_should_ban h hs with Some d => Some d | None => Some duration end)]> hs.

(** ** The book *)
Inductive InternalPeerID (A : Type) := KnownAddr (a : A) | Unknown (id : bytes).
Arguments KnownAddr {A} a.
Arguments Unknown {A} id.

#[export] Instance InternalPeerID_eq_dec {A} `{EqDecision A} : EqDecision (InternalPeerID A).
Proof. solve_decision. Defined.
#[export] Instance InternalPeerID_countable {A} `{Countable A} : Countable (InternalPeerID A).
Proof.
  refine (inj_countable' (fun i => match i with KnownAddr a => inl a | Unknown x => inr x end)
    (fun s => match s with inl a => KnownAddr a | inr x => Unknown x end) _). by intros [].
Defined.

Inductive AddressBookError :=
  | PeerAlreadyConnected
  | PeerNotFound
  | PeersDataChanged
  | PeerIsBanned
  | AddressBooksChannelClosed
  | AddressBookTaskExited.

(** What polling the task that saves the lists says. *)
Inductive SavePoll := SavePending | SaveDone | SaveFailed | SavePanicked.

Section address_book.
Context {Addr BanID : Type} `{Countable Addr, Countable BanID} {NZ : NetZoneAddress Addr BanID}.
#[local] Abbreviation Entry := (PeerList.Entry Addr).
#[local] Abbreviation PeerList := (PeerList.PeerList Addr BanID).

Record ConnectionPeerEntry := mk_conn {
  c_addr : option Addr;
  c_id : Z;
  c_handle : Z;
  c_pruning_seed : PruningSeed;
  c_rpc_port : Z;
  c_rpc_credits_per_hash : Z;
}.

Record AddressBookConfig := mk_cfg {
  max_white_list_length : nat;
  max_gray_list_length : nat;
  our_own_address : option Addr;
}.

Record AddressBook := mk_book {
  white_list : PeerList;
  gray_list : PeerList;
  anchor_list : gset Addr;
  connected_peers : gmap (InternalPeerID Addr) ConnectionPeerEntry;
  connected_peers_ban_id : gmap BanID (gset Addr);
  banned_peers : gmap BanID Z;
  banned_peers_queue : list (BanID * Z);
  peer_save_task_handle : option (list Entry * list Entry);
  cfg : AddressBookConfig;
}.

Definition new (cfg : AddressBookConfig) (white_peers gray_peers : list Entry) (anchor_peers : list Addr) : AddressBook :=
  mk_book (PeerList.new white_peers) (PeerList.new gray_peers) (list_to_set anchor_peers) ∅ ∅ ∅ [] None cfg.

(** [stored] is what could be read from disk. *)
Definition init_address_book (cfg : AddressBookConfig) (stored : option (list Entry * list Entry)) : AddressBook :=
  let '(white_list, gray_list) := default ([], []) stored in new cfg white_list gray_list [].

Definition set_lists (white gray : PeerList) (b : AddressBook) : AddressBook :=
  mk_book white gray (anchor_list b) (connected_peers b) (connected_peers_ban_id b) (banned_peers b) (banned_peers_queue b) (peer_save_task_handle b) (cfg b).
Definition set_anchors (anchors : gset Addr) (b : AddressBook) : AddressBook :=
  mk_book (white_list b) (gray_list b) anchors (connected_peers b) (connected_peers_ban_id b) (banned_peers b) (banned_peers_queue b) (peer_save_task_handle b) (cfg b).
Definition set_connected (connected : gmap (InternalPeerID Addr) ConnectionPeerEntry) (by_ban_id : gmap BanID (gset Addr)) (b : AddressBook) : AddressBook :=
  mk_book (white_list b) (gray_list b) (anchor_list b) connected by_ban_id (banned_peers b) (banned_peers_queue b) (peer_save_task_handle b) (cfg b).
Definition set_bans (banned : gmap BanID Z) (queue : list (BanID * Z)) (b : AddressBook) : AddressBook :=
  mk_book (white_list b) (gray_list b) (anchor_list b) (connected_peers b) (connected_peers_ban_id b) banned queue (peer_save_task_handle b) (cfg b).
Definition set_save_task (task : option (list Entry * list Entry)) (b : AddressBook) : AddressBook :=
  mk_book (white_list b) (gray_list b) (anchor_list b) (connected_peers b) (connected_peers_ban_id b) (banned_peers b) (banned_peers_queue b) task (cfg b).

(** [polled] is the state of the running task, [tick] whether the interval has passed. *)
Definition poll_save_to_disk {E} (polled : SavePoll) (tick : bool) (b : AddressBook) : result E AddressBook :=
  let start :=
    Ok (set_save_task (if tick then Some (map snd (PeerList.peers (white_list b)), map snd (PeerList.peers (gray_list b))) else None) b) in
  match peer_save_task_handle b, polled with
  | Some _, SavePending => Ok b
  | Some _, SavePanicked => Panic
  | _, _ => start
  end.

(** The delay queue yields every entry whose time has come. *)
Definition poll_unban_peers (now : Z) (b : AddressBook) : AddressBook :=
  let expired := filter (fun x => x.2 <= now) (banned_peers_queue b) in
  set_bans (foldl (fun m x => delete x.1 m) (banned_peers b) expired) (filter (fun x => ~ x.2 <= now) (banned_peers_queue b)) b.

(** The connections of the host are told to close. *)
Definition close_connected {E} (b : AddressBook) (a : Addr) (s : Handles * gset Addr) (peer_addr : Addr) : result E (Handles * gset Addr) :=
  peer ← unwrap (connected_peers b !! KnownAddr peer_addr);
  Ok (send_close_signal (c_handle peer) s.1, s.2 ∖ {[a]}).

Definition ban_peer {E} (now : Z) (s : Handles * AddressBook) (x : Addr * Z) : result E (Handles * AddressBook) :=
  let '(hs, b) := s in let '(a, time) := x in
  '(hs, anchors) ←
    match connected_peers_ban_id b !! ban_id a with
    | Some connected_peers_with_ban_id => try_fold (close_connected b a) (hs, anchor_list b) (elements connected_peers_with_ban_id)
    | None => Ok (hs, anchor_list b)
    end;
  white ← PeerList.remove_peers_with_ban_id (ban_id a) (white_list b);
  gray ← PeerList.remove_peers_with_ban_id (ban_id a) (gray_list b);
  let unban_at := now + time in
  Ok (hs, set_bans (<[ban_id a := unban_at]> (banned_peers b)) (banned_peers_queue b ++ [(ban_id a, unban_at)])
            (set_lists white gray (set_anchors anchors b))).

(** One connected peer of the first loop of [poll_connected_peers]. *)
Definition look_at_peer (s : Handles * list (InternalPeerID Addr) * list (Addr * Z)) (x : InternalPeerID Addr * ConnectionPeerEntry)
    : Handles * list (InternalPeerID Addr) * list (Addr * Z) :=
  let '(hs, disconnected, addrs_to_ban) := s in let '(internal_addr, peer) := x in
  let '(hs, addrs_to_ban) :=
    match check_should_ban (c_handle peer) hs, internal_addr with
    | Some time, KnownAddr addr => (hs, addrs_to_ban ++ [(addr, time)])
    | Some _, Unknown _ => (send_close_signal (c_handle peer) hs, addrs_to_ban)
    | None, _ => (hs, addrs_to_ban)
    end in
  (hs, if is_closed (c_handle peer) hs then disconnected ++ [internal_addr] else disconnected, addrs_to_ban).

(** One peer of the last loop of [poll_connected_peers]. *)
Definition drop_disconnected {E} (b : AddressBook) (disconnected_addr : InternalPeerID Addr) : result E AddressBook :=
  let connected := delete disconnected_addr (connected_peers b) in
  match disconnected_addr with
  | Unknown _ => Ok (set_connected connected (connected_peers_ban_id b) b)
  | KnownAddr addr =>
      with_ban_id ← unwrap (connected_peers_ban_id b !! ban_id addr);
      let left : gset Addr := with_ban_id ∖ {[addr]} in
      let by_ban_id := if bool_decide (left = ∅) then delete (ban_id addr) (connected_peers_ban_id b)
                       else <[ban_id addr := left]> (connected_peers_ban_id b) in
      Ok (set_anchors (anchor_list b ∖ {[addr]}) (set_connected connected by_ban_id b))
  end.

Definition poll_connected_peers {E} (now : Z) (order : list (InternalPeerID Addr * ConnectionPeerEntry)) (s : Handles * AddressBook)
    : result E (Handles * AddressBook) :=
  let '(hs, b) := s in
  let '(hs, disconnected, addrs_to_ban) := foldl look_at_peer (hs, [], []) order in
  '(hs, b) ← try_fold (ban_peer now) (hs, b) addrs_to_ban;
  b ← try_fold drop_disconnected b disconnected;
  Ok (hs, b).

(** [Service::poll_ready] *)
Definition poll_ready {E} (now : Z) (polled : SavePoll) (tick : bool) (order : list (InternalPeerID Addr * ConnectionPeerEntry)) (s : Handles * AddressBook)
    : result E (Handles * AddressBook) :=
  b ← poll_save_to_disk polled tick (poll_unban_peers now s.2);
  poll_connected_peers now order (s.1, b).

Definition with_last_seen_0 (e : Entry) : Entry :=
  PeerList.mk_entry (PeerList.adr e) (PeerList.id e) 0 (PeerList.pruning_seed e) (PeerList.rpc_port e) (PeerList.rpc_credits_per_hash e).

Definition add_peer_to_gray_list (b : AddressBook) (peer : Entry) : AddressBook :=
  if PeerList.contains_peer (PeerList.adr peer) (white_list b) then b
  else if PeerList.contains_peer (PeerList.adr peer) (gray_list b) then b
  else set_lists (white_list b) (PeerList.add_new_peer (with_last_seen_0 peer) (gray_list b)) b.

Definition is_peer_banned (a : Addr) (b : AddressBook) : bool := bool_decide (is_Some (banned_peers b !! ban_id a)).
Definition peer_unban_instant (a : Addr) (b : AddressBook) : option Z := banned_peers b !! ban_id a.

Definition canonical (e : Entry) : Entry :=
  PeerList.mk_entry (make_canonical (PeerList.adr e)) (PeerList.id e) (PeerList.last_seen e) (PeerList.pruning_seed e) (PeerList.rpc_port e) (PeerList.rpc_credits_per_hash e).
Definition retain_peer (b : AddressBook) (e : Entry) : bool :=
  if should_add_to_peer_list (PeerList.adr e) then negb (is_peer_banned (PeerList.adr e) b) else false.

Definition handle_incoming_peer_list {E} (peer_list : list Entry) (b : AddressBook) : result E AddressBook :=
  let peer_list := filter (fun e => retain_peer b e = true) (map canonical peer_list) in
  let b := foldl add_peer_to_gray_list b peer_list in
  gray ← PeerList.reduce_list ∅ (max_gray_list_length (cfg b)) (gray_list b);
  Ok (set_lists (white_list b) gray b).

(** Random choices: draws of [gen_range], [choose_multiple] and [shuffle]. *)
Record Rng := mk_rng {
  draw : nat -> nat -> nat;
  choose_multiple : list Entry -> nat -> list Entry;
  shuffle : list Entry -> list Entry;
}.

Definition take_random_white_peer {E} (draw : nat -> nat -> nat) (block_needed : option Z) (b : AddressBook) : result E (option Entry * AddressBook) :=
  '(e, l) ← PeerList.take_random_peer draw block_needed (anchor_list b) (white_list b); Ok (e, set_lists l (gray_list b) b).
Definition take_random_gray_peer {E} (draw : nat -> nat -> nat) (block_needed : option Z) (b : AddressBook) : result E (option Entry * AddressBook) :=
  '(e, l) ← PeerList.take_random_peer draw block_needed ∅ (gray_list b); Ok (e, set_lists (white_list b) l b).
Definition get_white_peers (rng : Rng) (n : nat) (b : AddressBook) : list Entry :=
  PeerList.get_random_peers (choose_multiple rng) (shuffle rng) n (white_list b).

Definition update_entry (peer : ConnectionPeerEntry) (peb : Entry) : Entry :=
  PeerList.mk_entry (PeerList.adr peb) (PeerList.id peb) 0 (PeerList.pruning_seed peb) (c_rpc_port peer) (c_rpc_credits_per_hash peer).

Definition update_white_list_peer_entry (peer : ConnectionPeerEntry) (b : AddressBook) : result AddressBookError AddressBook :=
  match c_addr peer with
  | None => Ok b
  | Some addr =>
      match PeerList.im_get addr (PeerList.peers (white_list b)) with
      | Some peb =>
          if negb (bool_decide (PeerList.pruning_seed peb = c_pruning_seed peer)) then Err PeersDataChanged
          else Ok (set_lists (PeerList.update_peer addr (update_entry peer) (white_list b)) (gray_list b) b)
      | None =>
          let peb := PeerList.mk_entry addr (c_id peer) 0 (c_pruning_seed peer) (c_rpc_port peer) (c_rpc_credits_per_hash peer) in
          Ok (set_lists (PeerList.add_new_peer peb (white_list b)) (gray_list b) b)
      end
  end.

(** The reachable address of a new peer goes to the white list and to the anchors. *)
Definition note_reachable (peer : ConnectionPeerEntry) (b : AddressBook) : result AddressBookError AddressBook :=
  match c_addr peer with
  | None => Ok b
  | Some addr =>
      b ← update_white_list_peer_entry peer b;
      let b := set_anchors (anchor_list b ∪ {[addr]}) b in
      white ← PeerList.reduce_list (anchor_list b) (max_white_list_length (cfg b)) (white_list b);
      Ok (set_lists white (gray_list b) b)
  end.

Definition note_ban_id (internal_peer_id : InternalPeerID Addr) (b : AddressBook) : AddressBook :=
  match internal_peer_id with
  | KnownAddr addr =>
      set_connected (connected_peers b) (<[ban_id addr := default ∅ (connected_peers_ban_id b !! ban_id addr) ∪ {[addr]}]> (connected_peers_ban_id b)) b
  | Unknown _ => b
  end.

Definition known_banned (internal_peer_id : InternalPeerID Addr) (b : AddressBook) : bool :=
  match internal_peer_id with KnownAddr addr => is_peer_banned addr b | Unknown _ => false end.

(** What was done before an error stays done. *)
Definition handle_new_connection (internal_peer_id : InternalPeerID Addr) (peer : ConnectionPeerEntry) (b : AddressBook)
    : result AddressBookError () * AddressBook :=
  if bool_decide (is_Some (connected_peers b !! internal_peer_id)) then (Err PeerAlreadyConnected, b)
  else if known_banned internal_peer_id b then (Err PeerIsBanned, b)
  else
    let b := note_ban_id internal_peer_id b in
    match note_reachable peer b with
    | Ok b => (Ok (), set_connected (<[internal_peer_id := peer]> (connected_peers b)) (connected_peers_ban_id b) b)
    | Err e => (Err e, b)
    | Panic => (Panic, b)
    end.

Inductive AddressBookRequest :=
  | NewConnection (internal_peer_id : InternalPeerID Addr) (peer : ConnectionPeerEntry)
  | IncomingPeerList (from : InternalPeerID Addr) (peer_list : list Entry)
  | TakeRandomWhitePeer (height : option Z)
  | TakeRandomGrayPeer (height : option Z)
  | TakeRandomPeer (height : option Z)
  | GetWhitePeers (n : nat)
  | OwnAddress
  | GetBan (a : Addr)
  | Peerlist
  | PeerlistSize
  | ConnectionCount
  | Req_SetBan (address : Addr) (ban : option Z)
  | GetBans
  | ConnectionInfo.

Inductive AddressBookResponse :=
  | Res_Ok
  | Res_Peer (e : Entry)
  | Res_Peers (es : list Entry)
  | Res_GetBan (unban_instant : option Z)
  | Res_OwnAddress (a : option Addr).

Definition peer_response (r : result AddressBookError (option Entry * AddressBook)) (b : AddressBook) : result AddressBookError AddressBookResponse * AddressBook :=
  match r with
  | Ok (Some e, b) => (Ok (Res_Peer e), b)
  | Ok (None, b) => (Err PeerNotFound, b)
  | Err e => (Err e, b)
  | Panic => (Panic, b)
  end.

(** [Service::call] *)
Definition call (rng : Rng) (req : AddressBookRequest) (b : AddressBook) : result AddressBookError AddressBookResponse * AddressBook :=
  match req with
  | NewConnection internal_peer_id peer => let '(r, b) := handle_new_connection internal_peer_id peer b in ((fun _ => Res_Ok) <$> r, b)
  | IncomingPeerList _ peer_list =>
      match handle_incoming_peer_list peer_list b with
      | Ok b => (Ok Res_Ok, b)
      | Err e => (Err e, b)
      | Panic => (Panic, b)
      end
  | TakeRandomWhitePeer height => peer_response (take_random_white_peer (draw rng) height b) b
  | TakeRandomGrayPeer height => peer_response (take_random_gray_peer (draw rng) height b) b
  | TakeRandomPeer height =>
      peer_response
        ('(e, b) ← take_random_white_peer (draw rng) height b;
         match e with Some e => Ok (Some e, b) | None => take_random_gray_peer (fun i => draw rng (3 + i)%nat) height b end) b
  | GetWhitePeers n => (Ok (Res_Peers (get_white_peers rng n b)), b)
  | GetBan a => (Ok (Res_GetBan (peer_unban_instant a b)), b)
  | OwnAddress => (Ok (Res_OwnAddress (our_own_address (cfg b))), b)
  | Peerlist | PeerlistSize | ConnectionCount | Req_SetBan _ _ | GetBans | ConnectionInfo => (Panic, b) (* [todo!()] *)
  end.

(** ** The book and the holders of handles, step by step *)
Inductive Event :=
  | PollReady (now : Z) (polled : SavePoll) (tick : bool) (order : list (InternalPeerID Addr * ConnectionPeerEntry))
  | Call (rng : Rng) (req : AddressBookRequest)
  | SetBan (h duration : Z)
  | CloseHandle (h : Z).

Definition step (s : Handles * AddressBook) (ev : Event) : result AddressBookError (option AddressBookResponse) * (Handles * AddressBook) :=
  match ev with
  | PollReady now polled tick order =>
      match poll_ready now polled tick order s with
      | Ok s => (Ok None, s)
      | Err e => (Err e, s)
      | Panic => (Panic, s)
      end
  | Call rng req => let '(r, b) := call rng req s.2 in (Some <$> r, (s.1, b))
  | SetBan h duration => (Ok None, (set_ban h duration s.1, s.2))
  | CloseHandle h => (Ok None, (send_close_signal h s.1, s.2))
  end.
End address_book.

End AddressBook.
