(* ===== verification/AddressBookFacts.v ===== *)
(** * What the address book keeps ([AddressBook], [PeerList])

    The invariant of the book over every sequence of polls, requests and actions of the
    holders of handles: the lists and their indexes agree, hosts that are banned are in no
    list and their connections are told to close, and what can panic. *)
From S2P Require Import Prelude Bytes Pruning NetAddress PeerList AddressBook.
From Stdlib Require Import ZArith Lia.
From stdpp Require Import base tactics option list numbers sets gmap sorting relations.
Import Pruning NetAddress AddressBook.

#[local] Open Scope Z_scope.

Module AddressBookFacts.

(** The outcome of a call that gives no error, and only panics when [strict] is off. *)
Definition outcome {E A} (strict : bool) (r : result E A) (P : A -> Prop) : Prop :=
  match r with Ok a => P a | Err _ => False | Panic => strict = false end.

Lemma outcome_bind {E A B} strict (r : result E A) (f : A -> result E B) P Q :
  outcome strict r P -> (forall a, P a -> outcome strict (f a) Q) -> outcome strict (r ≫= f) Q.
Proof. destruct r; cbn; auto. Qed.
Lemma outcome_mono {E A} strict (r : result E A) (P Q : A -> Prop) :
  outcome strict r P -> (forall a, P a -> Q a) -> outcome strict r Q.
Proof. destruct r; cbn; auto. Qed.
Lemma outcome_ok {E A} strict (r : result E A) (P : A -> Prop) : (exists a, r = Ok a /\ P a) -> outcome strict r P.
Proof. by intros (a & -> & H). Qed.

(** A loop keeps what each turn keeps; [I done a] speaks of the items done. *)
Lemma outcome_fold {E A S} strict (f : S -> A -> result E S) (I : list A -> S -> Prop) l s :
  I [] s -> (forall done x s, done ++ [x] `prefix_of` l -> I done s -> outcome strict (f s x) (I (done ++ [x]))) ->
  outcome strict (try_fold f s l) (I l).
Proof.
  intros H0 Hf. enough (forall rest done s, done ++ rest = l -> I done s -> outcome strict (try_fold f s rest) (I l)) as H by by apply (H l []).
  intros rest. induction rest as [|x rest IH]; intros done s' Hl HI.
  { rewrite app_nil_r in Hl. by subst. }
  cbn [try_fold]. eapply outcome_bind.
  - apply Hf; [|done]. exists rest. by rewrite <- Hl, <- app_assoc.
  - intros s'' HI''. apply (IH (done ++ [x])); [by rewrite <- app_assoc|done].
Qed.

Section facts.
Context {Addr BanID : Type} `{Countable Addr, Countable BanID} {NZ : NetZoneAddress Addr BanID}.
#[local] Abbreviation Entry := (PeerList.Entry Addr).
#[local] Abbreviation Book := (AddressBook (Addr := Addr) (BanID := BanID)).
#[local] Abbreviation Handles := (gmap Z HandleState).
#[local] Abbreviation get a l := (PeerList.im_get a (PeerList.peers l)).
Implicit Types (b : Book) (hs : Handles) (a : Addr) (e : Entry) (k : BanID) (i : InternalPeerID Addr).

(** ** The invariant *)
Record book_inv (strict : bool) hs b : Prop := {
  inv_white : PeerList.wf (white_list b);
  inv_gray : PeerList.wf (gray_list b);
  inv_white_ban a : is_Some (get a (white_list b)) -> banned_peers b !! ban_id a = None;
  inv_gray_ban a : is_Some (get a (gray_list b)) -> banned_peers b !! ban_id a = None;
  inv_connected a : is_Some (connected_peers b !! KnownAddr a) -> exists s, connected_peers_ban_id b !! ban_id a = Some s /\ a ∈ s;
  inv_by_ban_id k s a : connected_peers_ban_id b !! k = Some s -> a ∈ s -> ban_id a = k /\ (strict = true -> is_Some (connected_peers b !! KnownAddr a));
  inv_closed a p : connected_peers b !! KnownAddr a = Some p -> is_Some (banned_peers b !! ban_id a) -> is_closed (c_handle p) hs = true;
  inv_queue k t : banned_peers b !! k = Some t -> (k, t) ∈ banned_peers_queue b;
}.

(** Closing handles is all the book does to them. *)
Definition closes hs hs' : Prop :=
  forall h, (is_closed h hs = true -> is_closed h hs' = true) /\ check_should_ban h hs' = check_should_ban h hs.

Lemma closes_refl hs : closes hs hs.
Proof. done. Qed.
Lemma closes_trans hs1 hs2 hs3 : closes hs1 hs2 -> closes hs2 hs3 -> closes hs1 hs3.
Proof. intros H1 H2 h. destruct (H1 h), (H2 h). split; [auto|congruence]. Qed.
Lemma send_close_signal_closes h hs : closes hs (send_close_signal h hs) /\ is_closed h (send_close_signal h hs) = true.
Proof.
  split; [|unfold is_closed, handle_state, send_close_signal; by rewrite lookup_insert_eq].
  intros h'. unfold is_closed, check_should_ban, handle_state, send_close_signal.
  destruct (decide (h = h')) as [<-|]; [rewrite lookup_insert_eq|rewrite lookup_insert_ne by done]; done.
Qed.

Lemma closes_inv strict hs hs' b : closes hs hs' -> book_inv strict hs b -> book_inv strict hs' b.
Proof. intros Hc []. split; auto. intros a p ? ?. apply Hc. eauto. Qed.

Lemma set_ban_inv strict h d hs b : book_inv strict hs b -> book_inv strict (set_ban h d hs) b.
Proof.
  intros []. split; auto. intros a p Hp Hb. specialize (inv_closed0 a p Hp Hb). revert inv_closed0.
  unfold is_closed, handle_state, set_ban, is_closed, handle_state.
  destruct (decide (h = c_handle p)) as [<-|]; [rewrite lookup_insert_eq|rewrite lookup_insert_ne by done]; done.
Qed.

(** ** Bans that have expired *)
Lemma delete_all_lookup {A} (l : list (BanID * Z)) (m : gmap BanID A) k :
  foldl (fun m x => delete x.1 m) m l !! k = if decide (k ∈ l.*1) then None else m !! k.
Proof.
  revert m. induction l as [|[k' t] l IH]; intros m; cbn [foldl fmap list_fmap fst]; [done|].
  rewrite IH. destruct (decide (k ∈ l.*1)) as [Hin|Hin]; [rewrite decide_True by set_solver; done|].
  destruct (decide (k = k')) as [->|Hne]; [rewrite decide_True by set_solver; apply lookup_delete_eq|].
  rewrite decide_False by set_solver. by apply lookup_delete_ne.
Qed.

Lemma poll_unban_lookup now b k :
  banned_peers (poll_unban_peers now b) !! k = None /\ (exists t, (k, t) ∈ banned_peers_queue b /\ t <= now) \/
  banned_peers (poll_unban_peers now b) !! k = banned_peers b !! k /\ forall t, (k, t) ∈ banned_peers_queue b -> now < t.
Proof.
  cbn. rewrite delete_all_lookup. destruct (decide _) as [Hin|Hin].
  - left. split; [done|]. apply list_elem_of_fmap in Hin as ([k' t] & -> & Hin). apply list_elem_of_filter in Hin as [Ht Hin]. eauto.
  - right. split; [done|]. intros t Ht. destruct (decide (t <= now)) as [Hle|]; [|lia]. destruct Hin.
    apply list_elem_of_fmap. exists (k, t). split; [done|]. by apply list_elem_of_filter.
Qed.

Lemma poll_unban_inv strict now hs b : book_inv strict hs b -> book_inv strict hs (poll_unban_peers now b).
Proof.
  intros [].
  assert (Hsub : forall k t, banned_peers (poll_unban_peers now b) !! k = Some t -> banned_peers b !! k = Some t).
  { intros k t Ht. destruct (poll_unban_lookup now b k) as [[Hn _]|[He _]]; congruence. }
  assert (Hnone : forall k, banned_peers b !! k = None -> banned_peers (poll_unban_peers now b) !! k = None).
  { intros k Hk. apply eq_None_not_Some. intros [t Ht%Hsub]. congruence. }
  split; eauto.
  - intros a p Hp [t Ht%Hsub]. eauto.
  - intros k t Ht. destruct (poll_unban_lookup now b k) as [[Hn _]|[He Hlt]]; [congruence|].
    apply list_elem_of_filter. cbn. pose proof (inv_queue0 _ _ (Hsub _ _ Ht)) as Hq. specialize (Hlt _ Hq). split; [lia|done].
Qed.

(** ** Banning a host *)
Lemma close_connected_fold {E} strict b a l hs anchors :
  (strict = true -> Forall (fun x => is_Some (connected_peers b !! KnownAddr x)) l) ->
  outcome strict (try_fold (close_connected (E := E) b a) (hs, anchors) l) (fun s =>
    closes hs s.1 /\ (forall x p, x ∈ l -> connected_peers b !! KnownAddr x = Some p -> is_closed (c_handle p) s.1 = true)).
Proof.
  intros Hs. apply (outcome_fold strict _ (fun done s => closes hs s.1 /\
    (forall x p, x ∈ done -> connected_peers b !! KnownAddr x = Some p -> is_closed (c_handle p) s.1 = true))).
  { split; [apply closes_refl|]. intros x p Hx. by apply elem_of_nil in Hx. }
  intros done x [hs' an] Hpre [Hc Hcl]. unfold close_connected. destruct (connected_peers b !! KnownAddr x) as [p|] eqn:Hp; cbn.
  - destruct (send_close_signal_closes (c_handle p) hs') as [Hc' Hcl']. split; [by eapply closes_trans|].
    intros x' p' [Hx| ->%list_elem_of_singleton]%elem_of_app Hp'; [apply Hc'; eauto|]. congruence.
  - destruct strict; [|done]. specialize (Hs eq_refl). rewrite Forall_forall in Hs. destruct (Hs x); [|congruence].
    destruct Hpre as [rest ->]. set_solver.
Qed.

(** What a ban does. *)
Definition ban_done now hs b (bans : list (Addr * Z)) hs' b' : Prop :=
  closes hs hs' /\ connected_peers b' = connected_peers b /\ connected_peers_ban_id b' = connected_peers_ban_id b /\ cfg b' = cfg b /\
  (forall k, banned_peers b' !! k =
     match last (filter (fun x => ban_id x.1 = k) bans) with Some x => Some (now + x.2) | None => banned_peers b !! k end).

Lemma ban_peer_spec {E} strict now hs b a time :
  book_inv strict hs b ->
  outcome strict (ban_peer (E := E) now (hs, b) (a, time)) (fun s => book_inv strict s.1 s.2 /\ ban_done now hs b [(a, time)] s.1 s.2).
Proof.
  intros Hinv. unfold ban_peer.
  eapply (outcome_bind _ _ _ (fun s => closes hs s.1 /\ forall x p, ban_id x = ban_id a -> connected_peers b !! KnownAddr x = Some p -> is_closed (c_handle p) s.1 = true)).
  - destruct (connected_peers_ban_id b !! ban_id a) as [s|] eqn:Hs.
    + eapply outcome_mono; [apply close_connected_fold|].
      * intros ->. apply Forall_forall. intros x Hx%elem_of_elements. by apply (inv_by_ban_id _ _ _ Hinv _ _ _ Hs).
      * intros s' [Hc Hcl]. split; [done|]. intros x p Hx Hp. apply (Hcl x p); [|done]. apply elem_of_elements.
        destruct (inv_connected _ _ _ Hinv x) as (s'' & Hs'' & ?); [by eexists|]. congruence.
    + split; [apply closes_refl|]. intros x p Hx Hp. destruct (inv_connected _ _ _ Hinv x) as (s'' & Hs'' & ?); [by eexists|]. congruence.
  - intros [hs' an] [Hc Hcl]. cbn in Hc, Hcl.
    destruct (PeerList.remove_peers_with_ban_id_spec (E := E) (ban_id a) (white_list b) (inv_white _ _ _ Hinv)) as (w & -> & Hw & Hgw).
    destruct (PeerList.remove_peers_with_ban_id_spec (E := E) (ban_id a) (gray_list b) (inv_gray _ _ _ Hinv)) as (g & -> & Hg & Hgg).
    cbn [mbind result_bind outcome fst snd].
    assert (Hb : forall k, <[ban_id a := now + time]> (banned_peers b) !! k = if decide (ban_id a = k) then Some (now + time) else banned_peers b !! k).
    { intros k. destruct (decide _) as [<-|]; [apply lookup_insert_eq|by apply lookup_insert_ne]. }
    split; [split; cbn; try done|].
    + intros x. rewrite Hgw, Hb. destruct (decide (ban_id x = ban_id a)); [by intros []|]. rewrite decide_False by done. apply Hinv.
    + intros x. rewrite Hgg, Hb. destruct (decide (ban_id x = ban_id a)); [by intros []|]. rewrite decide_False by done. apply Hinv.
    + apply Hinv.
    + apply Hinv.
    + intros x p Hp. rewrite Hb. destruct (decide (ban_id a = ban_id x)); [intros _; by apply (Hcl x)|].
      intros Hx. apply Hc. by apply (inv_closed _ _ _ Hinv x p).
    + intros k t. rewrite Hb, elem_of_app, list_elem_of_singleton. destruct (decide (ban_id a = k)) as [<-|]; [intros [= <-]; by right|].
      left. by apply Hinv.
    + split_and!; [done..|]. intros k. cbn [banned_peers set_bans]. rewrite Hb, filter_cons, filter_nil. cbn [fst].
      destruct (decide (ban_id a = k)); done.
Qed.

Lemma ban_peers_spec {E} strict now hs b l :
  book_inv strict hs b ->
  outcome strict (try_fold (ban_peer (E := E) now) (hs, b) l) (fun s => book_inv strict s.1 s.2 /\ ban_done now hs b l s.1 s.2).
Proof.
  intros Hinv. apply (outcome_fold strict _ (fun done s => book_inv strict s.1 s.2 /\ ban_done now hs b done s.1 s.2)).
  { split; [done|]. split_and!; done. }
  intros done [a t] [hs' b'] _ [Hi (Hc & H1 & H2 & H3 & H4)]. eapply outcome_mono; [by apply ban_peer_spec|].
  intros [hs2 b2] [Hi2 (Hc2 & H12 & H22 & H32 & H42)]. split; [done|]. cbn [fst snd] in *.
  split_and!; [by eapply closes_trans|congruence..|]. intros k. rewrite H42, H4, filter_app, !filter_cons, !filter_nil. cbn [fst].
  destruct (decide (ban_id a = k)); [by rewrite last_snoc|]. cbn. by rewrite app_nil_r.
Qed.

(** ** Looking at the connected peers *)
Lemma foldl_snoc_ind {A S} (f : S -> A -> S) (I : list A -> S -> Prop) l s :
  I [] s -> (forall done x s, done ++ [x] `prefix_of` l -> I done s -> I (done ++ [x]) (f s x)) -> I l (foldl f s l).
Proof.
  intros Hnil Hf. induction l as [|x l IH] using rev_ind; [done|]. rewrite foldl_app. cbn. apply Hf; [done|]. apply IH.
  intros done y s' Hp. apply Hf. by apply prefix_app_r.
Qed.

Definition looked hs (order : list (InternalPeerID Addr * ConnectionPeerEntry (Addr := Addr))) (x : Handles * list (InternalPeerID Addr) * list (Addr * Z)) : Prop :=
  let '(hs', disconnected, addrs_to_ban) := x in
  closes hs hs' /\ disconnected `sublist_of` order.*1 /\
  (forall i, i ∈ disconnected -> exists p, (i, p) ∈ order /\ is_closed (c_handle p) hs' = true) /\
  (forall i p, (i, p) ∈ order -> is_closed (c_handle p) hs = true -> i ∈ disconnected) /\
  (forall i p, (i, p) ∈ order -> is_Some (check_should_ban (c_handle p) hs) -> i ∈ disconnected \/ exists a, i = KnownAddr a) /\
  (forall a t, (a, t) ∈ addrs_to_ban <-> exists p, (KnownAddr a, p) ∈ order /\ check_should_ban (c_handle p) hs = Some t).

Lemma look_at_peers_spec hs order : looked hs order (foldl look_at_peer (hs, [], []) order).
Proof.
  apply foldl_snoc_ind.
  { cbn. split_and!; [apply closes_refl|constructor|intros i Hin; by apply elem_of_nil in Hin|intros i p Hin; by apply elem_of_nil in Hin..|].
    intros a t. rewrite elem_of_nil. split; [done|]. intros (p & Hin & _). by apply elem_of_nil in Hin. }
  intros done [i p] [[hs' disc] tb] _ (Hc & Hd & Hdc & Hcl & Hub & Htb).
  set (hs2 := match check_should_ban (c_handle p) hs', i with Some _, Unknown _ => send_close_signal (c_handle p) hs' | _, _ => hs' end).
  set (tb2 := match check_should_ban (c_handle p) hs', i with Some t, KnownAddr a => tb ++ [(a, t)] | _, _ => tb end).
  assert (Heq : look_at_peer (hs', disc, tb) (i, p) = (hs2, if is_closed (c_handle p) hs2 then disc ++ [i] else disc, tb2)).
  { unfold look_at_peer, hs2, tb2. destruct (check_should_ban (c_handle p) hs'), i; done. }
  rewrite Heq. clear Heq.
  assert (Hc2 : closes hs' hs2).
  { unfold hs2. destruct (check_should_ban _ _), i; try apply closes_refl. apply send_close_signal_closes. }
  assert (Hsub : forall x, x ∈ disc -> x ∈ if is_closed (c_handle p) hs2 then disc ++ [i] else disc) by (intros; destruct (is_closed _ _); set_solver).
  assert (Hi : is_closed (c_handle p) hs2 = true -> i ∈ if is_closed (c_handle p) hs2 then disc ++ [i] else disc) by (intros ->; set_solver).
  unfold looked. split_and!.
  - by eapply closes_trans.
  - rewrite fmap_app. destruct (is_closed _ _); [by apply sublist_app|by apply sublist_inserts_r].
  - intros i' Hi'. assert (i' ∈ disc \/ (i' = i /\ is_closed (c_handle p) hs2 = true)) as [Hin|[-> Hcp]] by (destruct (is_closed _ _); set_solver).
    + destruct (Hdc i' Hin) as (p' & ? & ?). exists p'. split; [set_solver|by apply Hc2].
    + exists p. split; [set_solver|done].
  - intros i' p' [Hin|Hin]%elem_of_app Hcp; [eauto|]. apply list_elem_of_singleton in Hin as [= -> ->]. apply Hi, Hc2, Hc, Hcp.
  - intros i' p' [Hin|Hin]%elem_of_app Hcp.
    { destruct (Hub i' p' Hin Hcp); [left; auto|by right]. }
    apply list_elem_of_singleton in Hin as [= -> ->]. destruct i as [a|u]; [right; eauto|]. left. apply Hi.
    unfold hs2. destruct (Hc (c_handle p)) as [_ Hceq]. rewrite Hceq. destruct Hcp as [t ->]. apply send_close_signal_closes.
  - intros a t. destruct (Hc (c_handle p)) as [_ Hceq]. transitivity ((a, t) ∈ tb \/ (i = KnownAddr a /\ check_should_ban (c_handle p) hs = Some t)).
    + unfold tb2. rewrite Hceq. destruct (check_should_ban (c_handle p) hs) as [t'|]; [|naive_solver]. destruct i; [|naive_solver].
      rewrite elem_of_app, list_elem_of_singleton. naive_solver.
    + rewrite Htb. setoid_rewrite elem_of_app. setoid_rewrite list_elem_of_singleton. naive_solver.
Qed.

(** ** Peers that have disconnected *)
Lemma drop_disconnected_spec {E} strict hs b i :
  book_inv strict hs b -> is_Some (connected_peers b !! i) ->
  exists b', drop_disconnected (E := E) b i = Ok b' /\ book_inv strict hs b' /\ connected_peers b' = delete i (connected_peers b) /\
    banned_peers b' = banned_peers b /\ white_list b' = white_list b /\ gray_list b' = gray_list b.
Proof.
  intros Hinv Hp. unfold drop_disconnected. destruct i as [a|u].
  - destruct (inv_connected _ _ _ Hinv a Hp) as (s & Hs & Ha). rewrite Hs. cbn [unwrap mbind result_bind].
    eexists. split; [done|]. split_and!; [|done..].
    set (m := if bool_decide (s ∖ {[a]} = ∅) then delete (ban_id a) (connected_peers_ban_id b) else <[ban_id a := s ∖ {[a]}]> (connected_peers_ban_id b)).
    assert (Hm : forall k s', m !! k = Some s' <-> (k <> ban_id a /\ connected_peers_ban_id b !! k = Some s') \/ (k = ban_id a /\ s' = s ∖ {[a]} /\ s' <> ∅)).
    { intros k s'. unfold m. case_bool_decide.
      - rewrite lookup_delete_Some. naive_solver.
      - rewrite lookup_insert_Some. naive_solver. }
    destruct Hinv. split; cbn; auto.
    + intros x Hx. destruct (decide (x = a)) as [->|Hne]; [rewrite lookup_delete_eq in Hx; by destruct Hx|].
      rewrite lookup_delete_ne in Hx by congruence. destruct (inv_connected0 x Hx) as (s' & Hs' & Hin).
      destruct (decide (ban_id x = ban_id a)) as [Heq|Hneq].
      * rewrite Heq, Hs in Hs'. injection Hs' as <-.
        assert (Hin' : x ∈ s ∖ {[a]}) by (apply elem_of_difference; split; [done|by rewrite elem_of_singleton]).
        exists (s ∖ {[a]}). split; [|done]. apply Hm. right. split_and!; [done..|]. intros He. rewrite He in Hin'. by apply elem_of_empty in Hin'.
      * exists s'. split; [|done]. apply Hm. by left.
    + intros k s' x [[Hk Hs']|(-> & -> & _)]%Hm Hx.
      * destruct (inv_by_ban_id0 k s' x Hs' Hx) as [<- Hc]. split; [done|]. intros Hst. rewrite lookup_delete_ne by congruence. auto.
      * apply elem_of_difference in Hx as [Hx Hxa]. rewrite elem_of_singleton in Hxa.
        destruct (inv_by_ban_id0 _ s x Hs Hx) as [Hx' Hc]. split; [done|]. intros Hst. rewrite lookup_delete_ne by congruence. auto.
    + intros x p Hx. apply lookup_delete_Some in Hx as [_ Hx]. by apply inv_closed0.
  - eexists. split; [done|]. split_and!; [|done..]. destruct Hinv. split; cbn; auto.
    + intros x Hx. rewrite lookup_delete_ne in Hx by done. auto.
    + intros k s x Hs Hx. rewrite lookup_delete_ne by done. eauto.
    + intros x p Hx. apply lookup_delete_Some in Hx as [_ Hx]. by apply inv_closed0.
Qed.

Lemma drop_all_spec {E} strict hs b l :
  book_inv strict hs b -> NoDup l -> Forall (fun i => is_Some (connected_peers b !! i)) l ->
  exists b', try_fold (drop_disconnected (E := E)) b l = Ok b' /\ book_inv strict hs b' /\
    (forall i, connected_peers b' !! i = if decide (i ∈ l) then None else connected_peers b !! i) /\
    banned_peers b' = banned_peers b /\ white_list b' = white_list b /\ gray_list b' = gray_list b.
Proof.
  revert b. induction l as [|x l IH]; intros b Hinv Hn Hc.
  { exists b. split_and!; done. }
  apply NoDup_cons in Hn as [Hx Hn]. apply List.Forall_cons_iff in Hc as [Hcx Hc]. cbn [try_fold].
  destruct (drop_disconnected_spec (E := E) strict hs b x Hinv Hcx) as (b1 & -> & Hi1 & Hc1 & Hb1 & Hw1 & Hg1). cbn [mbind result_bind].
  destruct (IH b1 Hi1 Hn) as (b2 & -> & Hi2 & Hc2 & Hb2 & Hw2 & Hg2).
  { rewrite Hc1. rewrite Forall_forall in Hc |- *. intros i Hi. rewrite lookup_delete_ne by set_solver. auto. }
  exists b2. split_and!; try done; try congruence. intros i. rewrite Hc2, Hc1.
  destruct (decide (i ∈ l)) as [Hl|Hl]; [rewrite decide_True by set_solver; done|].
  destruct (decide (i = x)) as [->|Hne]; [rewrite decide_True by set_solver; apply lookup_delete_eq|].
  rewrite decide_False by set_solver. by apply lookup_delete_ne.
Qed.

(** ** The poll

    Connections that are closed are forgotten; hosts whose ban was asked for are banned. *)
Definition polled_ok now hs b hs' b' : Prop :=
  closes hs hs' /\
  (forall i p, connected_peers b' !! i = Some p -> connected_peers b !! i = Some p /\ is_closed (c_handle p) hs = false) /\
  (forall i p, connected_peers b !! i = Some p -> is_closed (c_handle p) hs' = false -> connected_peers b' !! i = Some p) /\
  (forall a p d, connected_peers b !! KnownAddr a = Some p -> check_should_ban (c_handle p) hs = Some d ->
     exists a' p' d', ban_id a' = ban_id a /\ connected_peers b !! KnownAddr a' = Some p' /\ check_should_ban (c_handle p') hs = Some d' /\
       banned_peers b' !! ban_id a = Some (now + d')) /\
  (forall k, (forall a p, connected_peers b !! KnownAddr a = Some p -> ban_id a = k -> check_should_ban (c_handle p) hs = None) ->
     banned_peers b' !! k = banned_peers (poll_unban_peers now b) !! k).

Lemma poll_connected_spec {E} strict now order hs b :
  book_inv strict hs b -> order ≡ₚ map_to_list (connected_peers b) ->
  outcome strict (poll_connected_peers (E := E) now order (hs, b)) (fun s => book_inv strict s.1 s.2 /\
    closes hs s.1 /\
    (forall i p, connected_peers s.2 !! i = Some p -> connected_peers b !! i = Some p /\ is_closed (c_handle p) hs = false) /\
    (forall i p, connected_peers b !! i = Some p -> is_closed (c_handle p) s.1 = false -> connected_peers s.2 !! i = Some p) /\
    exists bans, (forall a t, (a, t) ∈ bans <-> exists p, connected_peers b !! KnownAddr a = Some p /\ check_should_ban (c_handle p) hs = Some t) /\
      forall k, banned_peers s.2 !! k = match last (filter (fun x => ban_id x.1 = k) bans) with Some x => Some (now + x.2) | None => banned_peers b !! k end).
Proof.
  intros Hinv Hord. unfold poll_connected_peers. pose proof (look_at_peers_spec hs order) as Hl.
  destruct (foldl look_at_peer (hs, [], []) order) as [[hs1 disc] tb]. destruct Hl as (Hc & Hd & Hdc & Hcl & Hub & Htb).
  assert (Hin : forall i p, (i, p) ∈ order <-> connected_peers b !! i = Some p) by (intros; by rewrite Hord, elem_of_map_to_list).
  assert (Hnd : NoDup disc) by (eapply sublist_NoDup; [|done]; rewrite Hord; apply NoDup_fst_map_to_list).
  eapply outcome_bind; [apply ban_peers_spec; by eapply closes_inv|]. intros [hs2 b2] [Hi2 (Hc2 & H1 & H2 & H3 & H4)]. cbn [fst snd] in *.
  destruct (drop_all_spec (E := E) strict hs2 b2 disc Hi2 Hnd) as (b3 & -> & Hi3 & Hc3 & Hb3 & _).
  { rewrite H1. apply Forall_forall. intros i Hi. destruct (Hdc i Hi) as (p & Hp%Hin & _). by eexists. }
  cbn [mbind result_bind outcome fst snd]. split_and!; [done|by eapply closes_trans|..].
  - intros i p. rewrite Hc3, H1. destruct (decide (i ∈ disc)) as [|Hno]; [done|]. intros Hp. split; [done|].
    apply not_true_iff_false. intros Hclosed. apply Hno, (Hcl i p); [by apply Hin|done].
  - intros i p Hp Hop. rewrite Hc3, H1. destruct (decide (i ∈ disc)) as [Hi|]; [|done].
    destruct (Hdc i Hi) as (p' & Hp'%Hin & Hcp). assert (p' = p) as -> by congruence. apply Hc2 in Hcp. congruence.
  - exists tb. split; [intros a t; rewrite Htb; by setoid_rewrite Hin|]. intros k. by rewrite Hb3, H4.
Qed.

Lemma poll_save_spec {E} strict polled tick hs b :
  book_inv strict hs b -> polled <> SavePanicked ->
  exists b', poll_save_to_disk (E := E) polled tick b = Ok b' /\ book_inv strict hs b' /\ connected_peers b' = connected_peers b /\ banned_peers b' = banned_peers b.
Proof.
  intros Hinv Hp. unfold poll_save_to_disk.
  assert (Hset : forall t, book_inv strict hs (set_save_task t b)) by (intros t; by destruct Hinv).
  destruct (peer_save_task_handle b), polled; try done; eexists; (split; [done|]); split_and!; done || apply Hset.
Qed.

Lemma poll_ready_spec {E} strict now polled tick order hs b :
  book_inv strict hs b -> order ≡ₚ map_to_list (connected_peers b) -> polled <> SavePanicked ->
  outcome strict (poll_ready (E := E) now polled tick order (hs, b)) (fun s => book_inv strict s.1 s.2 /\ polled_ok now hs b s.1 s.2).
Proof.
  intros Hinv Hord Hp. unfold poll_ready. cbn [fst snd].
  destruct (poll_save_spec (E := E) strict polled tick hs (poll_unban_peers now b)) as (b1 & -> & Hi1 & Hc1 & Hb1); [by apply poll_unban_inv|done|].
  cbn [mbind result_bind]. assert (Hcb : connected_peers b1 = connected_peers b) by (rewrite Hc1; done).
  eapply outcome_mono; [apply poll_connected_spec; [done|by rewrite Hcb]|].
  intros [hs' b'] (Hi & Hc & Hsub & Hkeep & bans & Htb & Hban). cbn [fst snd] in *. rewrite Hcb in *. split; [done|].
  split_and!; [done..| |].
  - intros a p d Hpa Hd. destruct (last (filter (fun x => ban_id x.1 = ban_id a) bans)) as [[a' d']|] eqn:Hl.
    + pose proof (last_Some_elem_of _ _ Hl) as Hin. apply list_elem_of_filter in Hin as [Ha' Hin]. cbn in Ha'.
      apply Htb in Hin as (p' & Hp' & Hd'). exists a', p', d'. split_and!; [done..|]. by rewrite Hban, Hl.
    + apply last_None in Hl. assert (Hin : (a, d) ∈ filter (fun x => ban_id x.1 = ban_id a) bans).
      { apply list_elem_of_filter. split; [done|]. apply Htb. eauto. }
      rewrite Hl in Hin. by apply elem_of_nil in Hin.
  - intros k Hno. rewrite Hban. destruct (last _) as [[a' d']|] eqn:Hl; [|by rewrite Hb1].
    pose proof (last_Some_elem_of _ _ Hl) as Hin. apply list_elem_of_filter in Hin as [Ha' Hin]. cbn in Ha'.
    apply Htb in Hin as (p' & Hp' & Hd'). rewrite (Hno _ _ Hp' Ha') in Hd'. done.
Qed.

(** ** Requests *)
Lemma set_lists_inv strict hs b w g :
  book_inv strict hs b -> PeerList.wf w -> PeerList.wf g ->
  (forall a, is_Some (get a w) -> banned_peers b !! ban_id a = None) -> (forall a, is_Some (get a g) -> banned_peers b !! ban_id a = None) ->
  book_inv strict hs (set_lists w g b).
Proof. intros [] ? ? ? ?. by split. Qed.

Lemma add_peer_to_gray_list_spec strict hs b e :
  book_inv strict hs b -> Pruning.wf (PeerList.pruning_seed e) -> banned_peers b !! ban_id (PeerList.adr e) = None ->
  exists g, add_peer_to_gray_list b e = set_lists (white_list b) g b /\ book_inv strict hs (set_lists (white_list b) g b).
Proof.
  intros Hinv Hs Hb. unfold add_peer_to_gray_list.
  assert (Hsame : b = set_lists (white_list b) (gray_list b) b) by by destruct b.
  destruct (PeerList.contains_peer _ (white_list b)); [exists (gray_list b); by rewrite <- Hsame|].
  destruct (PeerList.contains_peer _ (gray_list b)) eqn:Hg; [exists (gray_list b); by rewrite <- Hsame|].
  assert (Hnew : get (PeerList.adr (with_last_seen_0 e)) (gray_list b) = None).
  { apply eq_None_not_Some. intros Hin. apply not_true_iff_false in Hg. by apply Hg, PeerList.contains_peer_spec. }
  eexists. split; [done|].
  destruct (PeerList.add_new_peer_spec (gray_list b) (with_last_seen_0 e) (inv_gray _ _ _ Hinv) Hnew Hs) as (Hwf & Hget & _).
  apply set_lists_inv; [done|apply Hinv|done|apply Hinv|]. intros a. rewrite Hget. destruct (decide _) as [<-|]; [done|apply Hinv].
Qed.

Lemma handle_incoming_spec {E} strict hs b l :
  book_inv strict hs b -> Forall (fun e => Pruning.wf (PeerList.pruning_seed e)) l ->
  exists g, handle_incoming_peer_list (E := E) l b = Ok (set_lists (white_list b) g b) /\ book_inv strict hs (set_lists (white_list b) g b) /\
    (length (PeerList.peers g) <= max_gray_list_length (cfg b))%nat.
Proof.
  intros Hinv Hl. unfold handle_incoming_peer_list. set (l' := filter _ (map canonical l)).
  assert (Hl' : Forall (fun e => Pruning.wf (PeerList.pruning_seed e) /\ banned_peers b !! ban_id (PeerList.adr e) = None) l').
  { apply Forall_forall. intros e He. apply list_elem_of_filter in He as [Hr He]. apply list_elem_of_fmap in He as (e' & -> & He').
    rewrite Forall_forall in Hl. split; [by apply (Hl e')|]. revert Hr. unfold retain_peer, is_peer_banned.
    destruct (should_add_to_peer_list _); [|done]. intros Hr. bsimp. apply bool_decide_eq_false in Hr. by apply eq_None_not_Some. }
  assert (Hfold : exists g, foldl add_peer_to_gray_list b l' = set_lists (white_list b) g b /\ book_inv strict hs (set_lists (white_list b) g b)).
  { apply (foldl_snoc_ind add_peer_to_gray_list (fun _ b' => exists g, b' = set_lists (white_list b) g b /\ book_inv strict hs (set_lists (white_list b) g b))).
    { exists (gray_list b). by destruct b. }
    intros done e b' [rest Hpre] (g & -> & Hi). rewrite Forall_forall in Hl'. destruct (Hl' e) as [Hs Hb]; [rewrite Hpre; set_solver|].
    destruct (add_peer_to_gray_list_spec strict hs (set_lists (white_list b) g b) e Hi Hs Hb) as (g' & -> & Hi'). by exists g'. }
  destruct Hfold as (g & -> & Hi). cbn [cfg set_lists gray_list].
  destruct (PeerList.reduce_list_spec (E := E) ∅ (max_gray_list_length (cfg b)) g (inv_gray _ _ _ Hi)) as (g' & -> & Hwf & _ & Hsub & Hlen).
  exists g'. split; [done|]. split.
  - apply (set_lists_inv strict hs b); [done|apply Hinv|done|apply Hinv|]. intros a [e He]. apply (inv_gray_ban _ _ _ Hi). exists e. by apply Hsub.
  - destruct Hlen as [|Hall]; [done|]. destruct (PeerList.peers g') as [|[a e] ps] eqn:Hps; [cbn; lia|].
    exfalso. apply (not_elem_of_empty (C := gset Addr) a), Hall. exists e. rewrite PeerList.im_get_cons. cbn. by rewrite decide_True.
Qed.

(** The address of a reachable peer is of the host that connected. *)
Definition reachable_host i (p : ConnectionPeerEntry (Addr := Addr)) : Prop :=
  forall a, c_addr p = Some a -> exists a', i = KnownAddr a' /\ ban_id a' = ban_id a.

(** The white list has the peer's address with another pruning seed. *)
Definition seed_changed b (p : ConnectionPeerEntry (Addr := Addr)) : Prop :=
  exists a e, c_addr p = Some a /\ get a (white_list b) = Some e /\ PeerList.pruning_seed e <> c_pruning_seed p.

Lemma note_reachable_spec b (p : ConnectionPeerEntry) :
  PeerList.wf (white_list b) -> Pruning.wf (c_pruning_seed p) ->
  match note_reachable p b with
  | Ok b' => exists w an, b' = set_lists w (gray_list b) (set_anchors an b) /\ PeerList.wf w /\
      (forall a, is_Some (get a w) -> is_Some (get a (white_list b)) \/ c_addr p = Some a) /\
      (forall a, c_addr p = Some a -> a ∈ an /\ is_Some (get a w) /\ ((length (PeerList.peers w) <= max_white_list_length (cfg b))%nat \/ forall x, is_Some (get x w) -> x ∈ an))
  | Err e => e = PeersDataChanged /\ seed_changed b p
  | Panic => False
  end.
Proof.
  intros Hw Hs. unfold note_reachable. destruct (c_addr p) as [a|] eqn:Ha.
  2: { exists (white_list b), (anchor_list b). split_and!; [by destruct b|done|by left|done]. }
  assert (Hfin : forall w0, PeerList.wf w0 -> (forall x, is_Some (get x w0) <-> is_Some (get x (white_list b)) \/ a = x) ->
    exists w, PeerList.reduce_list (E := AddressBookError) (anchor_list b ∪ {[a]}) (max_white_list_length (cfg b)) w0 = Ok w /\ PeerList.wf w /\
      (forall x, is_Some (get x w) -> is_Some (get x (white_list b)) \/ Some a = Some x) /\
      (forall x, Some a = Some x -> x ∈ anchor_list b ∪ {[a]} /\ is_Some (get x w) /\
         ((length (PeerList.peers w) <= max_white_list_length (cfg b))%nat \/ forall y, is_Some (get y w) -> y ∈ anchor_list b ∪ {[a]}))).
  { intros w0 Hw0 Hget. destruct (PeerList.reduce_list_spec (E := AddressBookError) (anchor_list b ∪ {[a]}) (max_white_list_length (cfg b)) w0 Hw0)
      as (w & -> & Hwf & Hkeep & Hsub & Hlen).
    exists w. split_and!; [done..| |].
    - intros x [e He]. destruct (proj1 (Hget x)) as [|<-]; [eexists; by apply Hsub|by left|by right].
    - intros x [= <-]. split; [set_solver|]. split; [|done]. rewrite Hkeep by set_solver. apply Hget. by right. }
  unfold update_white_list_peer_entry. rewrite Ha. destruct (get a (white_list b)) as [peb|] eqn:Hg.
  - case_bool_decide as Hseed; cbn [negb mbind result_bind]; [|split; [done|]; by exists a, peb].
    destruct (PeerList.update_peer_spec (white_list b) a (update_entry p) peb Hw Hg) as (Hwf & Hget & _); [done..|].
    cbn [white_list set_lists set_anchors anchor_list cfg]. destruct (Hfin _ Hwf) as (w & -> & Hww & H1 & H2).
    { intros x. rewrite Hget. destruct (decide (a = x)) as [<-|]; [split; eauto|]. naive_solver. }
    cbn [mbind result_bind]. exists w, (anchor_list b ∪ {[a]}). split_and!; done.
  - cbn [mbind result_bind]. set (peb := PeerList.mk_entry a _ _ _ _ _).
    destruct (PeerList.add_new_peer_spec (white_list b) peb Hw Hg Hs) as (Hwf & Hget & _).
    cbn [white_list set_lists set_anchors anchor_list cfg]. destruct (Hfin _ Hwf) as (w & -> & Hww & H1 & H2).
    { intros x. rewrite Hget. cbn [PeerList.adr peb]. destruct (decide (a = x)) as [<-|]; [split; eauto|]. naive_solver. }
    cbn [mbind result_bind]. exists w, (anchor_list b ∪ {[a]}). split_and!; done.
Qed.

(** Not the refusal of a peer whose data has changed. *)
Definition no_change {A} (r : result AddressBookError A) : bool := match r with Err PeersDataChanged => false | _ => true end.

(** The outcomes of a new connection. *)
Definition connection_ok hs b i (p : ConnectionPeerEntry) (r : result AddressBookError ()) b' : Prop :=
  match r with
  | Ok _ =>
      connected_peers b' = <[i := p]> (connected_peers b) /\ connected_peers b !! i = None /\ known_banned i b = false /\
      banned_peers b' = banned_peers b /\ gray_list b' = gray_list b /\
      (forall a, c_addr p = Some a -> a ∈ anchor_list b' /\ is_Some (get a (white_list b')) /\
         ((length (PeerList.peers (white_list b')) <= max_white_list_length (cfg b))%nat \/ forall x, is_Some (get x (white_list b')) -> x ∈ anchor_list b'))
  | Err PeerAlreadyConnected => b' = b /\ is_Some (connected_peers b !! i)
  | Err PeerIsBanned => b' = b /\ known_banned i b = true
  | Err PeersDataChanged => b' = note_ban_id i b /\ seed_changed b p
  | _ => False
  end.

Lemma note_ban_id_inv strict hs b i : book_inv strict hs b -> book_inv false hs (note_ban_id i b).
Proof.
  intros []. destruct i as [a|u]; cbn; [|by split; auto; naive_solver].
  split; cbn; auto.
  - intros x Hx. destruct (inv_connected0 x Hx) as (s & Hs & Hin). destruct (decide (ban_id a = ban_id x)) as [Heq|].
    + rewrite Heq, Hs, lookup_insert_eq. eexists. split; [done|]. cbn. set_solver.
    + rewrite lookup_insert_ne by done. eauto.
  - intros k s x. rewrite lookup_insert_Some. intros [[<- <-]|[_ Hs]] Hx; (split; [|done]).
    + apply elem_of_union in Hx as [Hx| ->%elem_of_singleton]; [|done].
      destruct (connected_peers_ban_id b !! ban_id a) as [s'|] eqn:Hs'; [by apply (inv_by_ban_id0 _ s' x)|by apply elem_of_empty in Hx].
    + by apply (inv_by_ban_id0 k s x).
Qed.

Lemma handle_new_connection_spec strict hs b i p :
  book_inv strict hs b -> Pruning.wf (c_pruning_seed p) -> reachable_host i p ->
  exists r b', handle_new_connection i p b = (r, b') /\ connection_ok hs b i p r b' /\
    book_inv (strict && no_change r) hs b'.
Proof.
  intros Hinv Hs Hr. unfold handle_new_connection.
  case_bool_decide as Hc.
  { eexists _, _. split; [done|]. split; [done|]. by rewrite andb_true_r. }
  destruct (known_banned i b) eqn:Hk.
  { eexists _, _. split; [done|]. split; [done|]. by rewrite andb_true_r. }
  pose proof (note_ban_id_inv strict hs b i Hinv) as Hi1. pose proof (note_reachable_spec (note_ban_id i b) p (inv_white _ _ _ Hi1) Hs) as Hn.
  destruct (note_reachable p (note_ban_id i b)) as [b2|e|]; [|destruct Hn as [-> Hn]|done].
  2: { eexists _, _. split; [done|]. split; [split; [done|]; by destruct i|]. by rewrite andb_false_r. }
  destruct Hn as (w & an & -> & Hw & Hsub & Han). eexists _, _. split; [done|].
  assert (Hconn : connected_peers (note_ban_id i b) = connected_peers b) by by destruct i.
  assert (Hban : banned_peers (note_ban_id i b) = banned_peers b) by by destruct i.
  assert (Hgray : gray_list (note_ban_id i b) = gray_list b) by by destruct i.
  assert (Hcfg : cfg (note_ban_id i b) = cfg b) by by destruct i.
  assert (Hwhite : white_list (note_ban_id i b) = white_list b) by by destruct i.
  assert (Hnone : connected_peers b !! i = None) by by apply eq_None_not_Some.
  split.
  { cbn. rewrite Hconn, Hban, Hgray. split_and!; [done..|]. rewrite Hcfg in Han. done. }
  rewrite andb_true_r.
  destruct Hi1 as [_ Hg1 _ Hgb1 Hc1 Hb1 Hcl1 Hq1]. split; cbn; [done|done| |exact Hgb1| | | |exact Hq1].
  - rewrite Hban. intros a [Hg|Ha]%Hsub; [rewrite Hwhite in Hg; by apply (inv_white_ban _ _ _ Hinv)|].
    destruct (Hr a Ha) as (a' & -> & <-). cbn in Hk. apply bool_decide_eq_false in Hk. by apply eq_None_not_Some.
  - intros a. rewrite lookup_insert_is_Some. intros [->|[_ Ha]]; [|by apply Hc1].
    cbn. eexists. split; [apply lookup_insert_eq|]. set_solver.
  - intros k s a Hks Ha. split; [by apply (Hb1 k s a)|]. intros Hst. rewrite lookup_insert_is_Some.
    destruct (decide (i = KnownAddr a)) as [->|Hne]; [by left|]. right. split; [done|]. rewrite Hconn.
    destruct i as [a0|u]; cbn in Hks; [|by apply (inv_by_ban_id _ _ _ Hinv k s a)].
    apply lookup_insert_Some in Hks as [[<- <-]|[_ Hks]]; [|by apply (inv_by_ban_id _ _ _ Hinv k s a)].
    apply elem_of_union in Ha as [Ha|Ha%elem_of_singleton]; [|by subst].
    destruct (connected_peers_ban_id b !! ban_id a0) as [s'|] eqn:Hs'; [by apply (inv_by_ban_id _ _ _ Hinv (ban_id a0) s' a)|by apply elem_of_empty in Ha].
  - intros a q. rewrite lookup_insert_Some. intros [[-> <-]|[_ Hq]]; [|by apply Hcl1].
    rewrite Hban. cbn in Hk. apply bool_decide_eq_false in Hk. done.
Qed.

(** ** Every step *)
Definition rng_ok (rng : Rng (Addr := Addr)) : Prop :=
  (forall j n, (0 < n)%nat -> (draw rng j n < n)%nat) /\
  (forall es j, length (choose_multiple rng es j) = Nat.min j (length es) /\ exists rest, es ≡ₚ choose_multiple rng es j ++ rest) /\
  (forall es, shuffle rng es ≡ₚ es).

(** Peers are of the host that connected, pruning seeds are valid, heights are below the
    limit; the requests that are not written yet are not made. *)
Definition request_ok (req : AddressBookRequest (Addr := Addr)) : Prop :=
  match req with
  | NewConnection i p => Pruning.wf (c_pruning_seed p) /\ reachable_host i p
  | IncomingPeerList _ l => Forall (fun e => Pruning.wf (PeerList.pruning_seed e)) l
  | TakeRandomWhitePeer o | TakeRandomGrayPeer o | TakeRandomPeer o => forall h, o = Some h -> 0 <= h <= MAX_BLOCK_HEIGHT_USIZE
  | Peerlist | PeerlistSize | ConnectionCount | Req_SetBan _ _ | GetBans | ConnectionInfo => False
  | _ => True
  end.

Definition event_ok b (ev : Event (Addr := Addr)) : Prop :=
  match ev with
  | PollReady _ polled _ order => order ≡ₚ map_to_list (connected_peers b) /\ polled <> SavePanicked
  | Call rng req => rng_ok rng /\ request_ok req
  | _ => True
  end.

(** Hosts of the peers in a response *)
Definition handed_out (r : AddressBookResponse (Addr := Addr)) : list Addr :=
  match r with Res_Peer e => [PeerList.adr e] | Res_Peers es => PeerList.adr <$> es | _ => [] end.

Lemma without_inv strict hs b w g a w' g' :
  book_inv strict hs b -> w = white_list b -> g = gray_list b ->
  (w' = w \/ PeerList.without w [a] w') -> (g' = g \/ PeerList.without g [a] g') -> book_inv strict hs (set_lists w' g' b).
Proof.
  intros Hinv -> -> Hw Hg. apply set_lists_inv; [done|..].
  - destruct Hw as [->|[Hwf _]]; [apply Hinv|done].
  - destruct Hg as [->|[Hwf _]]; [apply Hinv|done].
  - intros x. destruct Hw as [->|[_ Hget]]; [apply Hinv|]. rewrite Hget. destruct (decide _); [by intros []|apply Hinv].
  - intros x. destruct Hg as [->|[_ Hget]]; [apply Hinv|]. rewrite Hget. destruct (decide _); [by intros []|apply Hinv].
Qed.

Lemma take_white_spec strict hs b d o :
  book_inv strict hs b -> (forall j n, (0 < n)%nat -> (d j n < n)%nat) -> (forall h, o = Some h -> 0 <= h <= MAX_BLOCK_HEIGHT_USIZE) ->
  exists r b', take_random_white_peer (E := AddressBookError) d o b = Ok (r, b') /\ book_inv strict hs b' /\
    banned_peers b' = banned_peers b /\ (r = None -> b' = b) /\
    forall e, r = Some e -> get (PeerList.adr e) (white_list b) = Some e.
Proof.
  intros Hinv Hd Ho. unfold take_random_white_peer.
  destruct (PeerList.take_random_peer_spec (E := AddressBookError) d o (anchor_list b) (white_list b) (inv_white _ _ _ Hinv) Hd Ho) as (r & w & -> & Ht).
  cbn [mbind result_bind]. eexists _, _. split; [done|]. destruct r as [e|]; cbn in Ht.
  - destruct Ht as (Hg & _ & Hw & _). split_and!; [|done..|by intros ? [= <-]]. eapply (without_inv strict hs b _ _ (PeerList.adr e)); eauto.
  - destruct Ht as [-> _]. split_and!; [by eapply (set_lists_inv strict hs b); apply Hinv|done|by destruct b|done].
Qed.

Lemma take_gray_spec strict hs b d o :
  book_inv strict hs b -> (forall j n, (0 < n)%nat -> (d j n < n)%nat) -> (forall h, o = Some h -> 0 <= h <= MAX_BLOCK_HEIGHT_USIZE) ->
  exists r b', take_random_gray_peer (E := AddressBookError) d o b = Ok (r, b') /\ book_inv strict hs b' /\
    banned_peers b' = banned_peers b /\ (r = None -> b' = b) /\
    forall e, r = Some e -> get (PeerList.adr e) (gray_list b) = Some e.
Proof.
  intros Hinv Hd Ho. unfold take_random_gray_peer.
  destruct (PeerList.take_random_peer_spec (E := AddressBookError) d o ∅ (gray_list b) (inv_gray _ _ _ Hinv) Hd Ho) as (r & w & -> & Ht).
  cbn [mbind result_bind]. eexists _, _. split; [done|]. destruct r as [e|]; cbn in Ht.
  - destruct Ht as (Hg & _ & Hw & _). split_and!; [|done..|by intros ? [= <-]]. eapply (without_inv strict hs b _ _ (PeerList.adr e)); eauto.
  - destruct Ht as [-> _]. split_and!; [by eapply (set_lists_inv strict hs b); apply Hinv|done|by destruct b|done].
Qed.

Lemma call_spec strict hs b rng req :
  book_inv strict hs b -> rng_ok rng -> request_ok req ->
  exists r b', call rng req b = (r, b') /\ r <> Panic /\ book_inv (strict && no_change r) hs b' /\ banned_peers b' = banned_peers b /\
    forall res a, r = Ok res -> a ∈ handed_out res -> banned_peers b !! ban_id a = None.
Proof.
  intros Hinv (Hd & Hc & Hsh) Hreq. destruct req as [i p|i l|o|o|o|n| |a| | | | | |]; cbn in Hreq; try done.
  - destruct Hreq as [Hs Hr]. destruct (handle_new_connection_spec strict hs b i p Hinv Hs Hr) as (r & b' & Heq & Hok & Hi). cbn. rewrite Heq.
    eexists _, _. split; [done|]. assert (Hb : banned_peers b' = banned_peers b).
    { destruct r as [|[]|]; cbn in Hok; try done; try tauto; try (by destruct Hok as [-> _]). destruct Hok as [-> _]. by destruct i. }
    split_and!; [|by destruct r as [|[]|]|done|].
    + by destruct r as [|[]|].
    + intros res a Hres. destruct r; [|done..]. injection Hres as <-. by intros ?%elem_of_nil.
  - destruct (handle_incoming_spec (E := AddressBookError) strict hs b l Hinv Hreq) as (g & Heq & Hi & _). cbn. rewrite Heq.
    eexists _, _. split; [done|]. rewrite andb_true_r. split_and!; [done..|]. intros res a [= <-]. by intros ?%elem_of_nil.
  - destruct (take_white_spec strict hs b (draw rng) o Hinv Hd Hreq) as (r & b' & Heq & Hi & Hb & _ & He). cbn [call]. rewrite Heq.
    destruct r as [e|]; cbn; (eexists _, _; split; [done|]); rewrite andb_true_r; split_and!; try done.
    intros res a [= <-]. cbn. intros ->%list_elem_of_singleton. apply (inv_white_ban _ _ _ Hinv). exists e. by apply He.
  - destruct (take_gray_spec strict hs b (draw rng) o Hinv Hd Hreq) as (r & b' & Heq & Hi & Hb & _ & He). cbn [call]. rewrite Heq.
    destruct r as [e|]; cbn; (eexists _, _; split; [done|]); rewrite andb_true_r; split_and!; try done.
    intros res a [= <-]. cbn. intros ->%list_elem_of_singleton. apply (inv_gray_ban _ _ _ Hinv). exists e. by apply He.
  - destruct (take_white_spec strict hs b (draw rng) o Hinv Hd Hreq) as (r & b' & Heq & Hi & Hb & Hn & He). cbn [call]. rewrite Heq.
    cbn [mbind result_bind]. destruct r as [e|].
    + eexists _, _. split; [done|]. rewrite andb_true_r. split_and!; try done.
      intros res a [= <-]. cbn. intros ->%list_elem_of_singleton. apply (inv_white_ban _ _ _ Hinv). exists e. by apply He.
    + rewrite (Hn eq_refl) in *. destruct (take_gray_spec strict hs b (fun j => draw rng (3 + j)%nat) o Hinv) as (r & b2 & -> & Hi2 & Hb2 & _ & He2); [auto..|].
      destruct r as [e|]; cbn; (eexists _, _; split; [done|]); rewrite andb_true_r; split_and!; try done.
      intros res a [= <-]. cbn. intros ->%list_elem_of_singleton. apply (inv_gray_ban _ _ _ Hinv). exists e. by apply He2.
  - eexists _, _. split; [done|]. rewrite andb_true_r. split_and!; [done..|]. intros res a [= <-]. cbn. intros Ha.
    apply list_elem_of_fmap in Ha as (e & -> & He). apply (inv_white_ban _ _ _ Hinv). exists e.
    by apply (PeerList.get_random_peers_spec (choose_multiple rng) (shuffle rng) n (white_list b) (inv_white _ _ _ Hinv) Hc Hsh).
  - eexists _, _. split; [done|]. rewrite andb_true_r. split_and!; [done..|]. intros res a [= <-]. by intros ?%elem_of_nil.
  - eexists _, _. split; [done|]. rewrite andb_true_r. split_and!; [done..|]. intros res x [= <-]. by intros ?%elem_of_nil.
Qed.

Lemma step_spec strict hs b ev :
  book_inv strict hs b -> event_ok b ev ->
  exists r s', step (hs, b) ev = (r, s') /\ (strict = true -> r <> Panic) /\ (r <> Panic -> book_inv (strict && no_change r) s'.1 s'.2) /\
    (forall res a, r = Ok (Some res) -> a ∈ handed_out res -> banned_peers b !! ban_id a = None).
Proof.
  intros Hinv Hev. destruct ev as [now polled tick order|rng req|h d|h]; cbn in Hev.
  - destruct Hev as [Hord Hp]. pose proof (poll_ready_spec (E := AddressBookError) strict now polled tick order hs b Hinv Hord Hp) as Hout.
    cbn [step]. destruct (poll_ready _ _ _ _ _) as [s'| |]; cbn in Hout; [|done|].
    + destruct Hout as [Hi _]. eexists _, _. split; [done|]. rewrite andb_true_r. split_and!; done.
    + subst strict. eexists _, _. split; [done|]. split_and!; done.
  - destruct Hev as [Hrng Hreq]. destruct (call_spec strict hs b rng req Hinv Hrng Hreq) as (r & b' & Heq & Hnp & Hi & _ & Hho).
    cbn [step snd fst]. rewrite Heq. eexists _, _. split; [done|]. split_and!.
    + intros _. by destruct r.
    + intros _. replace (no_change (Some <$> r)) with (no_change r) by by destruct r. done.
    + intros res a Hr. destruct r; [|done..]. injection Hr as ->. by apply Hho.
  - eexists _, _. split; [done|]. rewrite andb_true_r. split_and!; [done|intros _; by apply set_ban_inv|done].
  - eexists _, _. split; [done|]. rewrite andb_true_r. split_and!; [done|intros _; eapply closes_inv; [apply send_close_signal_closes|done]|done].
Qed.

Lemma new_inv cfg white gray anchors :
  NoDup (PeerList.adr <$> white) -> NoDup (PeerList.adr <$> gray) ->
  Forall (fun e => Pruning.wf (PeerList.pruning_seed e)) (white ++ gray) -> book_inv true ∅ (new cfg white gray anchors).
Proof.
  intros Hw Hg [Hsw Hsg]%Forall_app. split; cbn; try done.
  - by apply PeerList.list_new_spec.
  - by apply PeerList.list_new_spec.
  - intros a. by intros [? Ha%lookup_empty_Some].
Qed.

(** ** Reachable states

    [strict] is lost when a connection is refused because the data of the peer changed. *)
Inductive reachable : bool -> Handles -> Book -> Prop :=
  | reach_start cfg stored :
      (forall w g, stored = Some (w, g) -> NoDup (PeerList.adr <$> w) /\ NoDup (PeerList.adr <$> g) /\
         Forall (fun e => Pruning.wf (PeerList.pruning_seed e)) (w ++ g)) ->
      reachable true ∅ (init_address_book cfg stored)
  | reach_step strict hs b ev r s' :
      reachable strict hs b -> event_ok b ev -> step (hs, b) ev = (r, s') -> r <> Panic -> reachable (strict && no_change r) s'.1 s'.2.

Lemma book_reached_inv strict hs b : reachable strict hs b -> book_inv strict hs b.
Proof.
  induction 1 as [cfg stored Hst|strict hs b ev r s' _ IH Hev Hst Hnp].
  - unfold init_address_book. destruct stored as [[w g]|]; cbn.
    + destruct (Hst w g eq_refl) as (? & ? & ?). by apply new_inv.
    + apply new_inv; constructor.
  - destruct (step_spec strict hs b ev IH Hev) as (r' & s'' & Heq & _ & Hi & _). rewrite Hst in Heq. injection Heq as <- <-. by apply Hi.
Qed.

(** C39. The indexes of both lists are those of the peers, in every reachable state. *)
Theorem address_book_well_formed strict hs b :
  reachable strict hs b -> PeerList.wf (white_list b) /\ PeerList.wf (gray_list b).
Proof. intros [Hw Hg]%book_reached_inv. done. Qed.

(** What comes with an event, whatever is asked for: the connected peers in some order, a
    random number generator that keeps to its ranges, peers of the host that connected,
    valid pruning seeds and unsigned heights. *)
Definition event_given b (ev : Event (Addr := Addr)) : Prop :=
  match ev with
  | PollReady _ _ _ order => order ≡ₚ map_to_list (connected_peers b)
  | Call rng req => rng_ok rng /\
      match req with
      | NewConnection i p => Pruning.wf (c_pruning_seed p) /\ reachable_host i p
      | IncomingPeerList _ l => Forall (fun e => Pruning.wf (PeerList.pruning_seed e)) l
      | TakeRandomWhitePeer (Some h) | TakeRandomGrayPeer (Some h) | TakeRandomPeer (Some h) => 0 <= h
      | _ => True
      end
  | _ => True
  end.

(** The requests that are not written yet. *)
Definition unfinished (req : AddressBookRequest (Addr := Addr)) : bool :=
  match req with
  | Peerlist | PeerlistSize | ConnectionCount | Req_SetBan _ _ | GetBans | ConnectionInfo => true
  | _ => false
  end.

(** The events that can make the book panic: the task that saves the lists panicked, the
    request is not written yet, or a peer is wanted for a height above the maximum. *)
Definition may_panic (ev : Event (Addr := Addr)) : bool :=
  match ev with
  | PollReady _ SavePanicked _ _ => true
  | Call _ (TakeRandomWhitePeer (Some h) | TakeRandomGrayPeer (Some h) | TakeRandomPeer (Some h)) => MAX_BLOCK_HEIGHT_USIZE <? h
  | Call _ req => unfinished req
  | _ => false
  end.

Lemma event_given_ok b ev : event_given b ev -> may_panic ev = false -> event_ok b ev.
Proof.
  destruct ev as [now polled tick order|rng req|h d|h]; cbn; [by destruct polled| |done..].
  intros [Hr Hq] Hm. split; [done|]. destruct req; cbn in *; try done.
  all: intros h' ->; bsimp; lia.
Qed.

(** C38. What can make the book panic, in a state reached without a panic, without a wanted
    height above the maximum and without a connection refused because the peer's pruning
    seed had changed: only a save task that panicked, one of the six requests that are
    [todo!()] ([Peerlist], [PeerlistSize], [ConnectionCount], [SetBan], [GetBans],
    [ConnectionInfo]), which always panic, and a request for a peer that has a block above
    the maximum height. No other request, no poll and no change of a handle panics. *)
Theorem address_book_panics_only_when hs b ev :
  reachable true hs b -> event_given b ev ->
  (may_panic ev = false -> (step (hs, b) ev).1 <> Panic) /\
  (forall rng req, ev = Call rng req -> unfinished req = true -> (step (hs, b) ev).1 = Panic).
Proof.
  intros Hinv%book_reached_inv Hev. split.
  - intros Hm. destruct (step_spec true hs b ev Hinv (event_given_ok b ev Hev Hm)) as (r & s' & -> & Hnp & _). by apply Hnp.
  - intros rng req -> Hu. by destruct req.
Qed.

(** C16. A host that is banned is in neither list, its connections have been told to close, and
    no request hands out one of its addresses; a poll puts every ban that was asked for
    into effect and forgets exactly the connections that are closed. A poll ends the ban of
    a host exactly when some entry of the host in the queue of bans is due. Every ban of a
    host has its own entry there, so of several bans of one host the first that is due ends
    them all, a later one included (see [shorter_ban_ends_both]). *)
Theorem banned_hosts_kept_out strict hs b :
  reachable strict hs b ->
  (forall a, is_Some (banned_peers b !! ban_id a) ->
     get a (white_list b) = None /\ get a (gray_list b) = None /\
     forall p, connected_peers b !! KnownAddr a = Some p -> is_closed (c_handle p) hs = true) /\
  (forall ev res s' a, event_ok b ev -> step (hs, b) ev = (Ok (Some res), s') -> a ∈ handed_out res -> banned_peers b !! ban_id a = None) /\
  (forall now polled tick order s', event_ok b (PollReady now polled tick order) ->
     step (hs, b) (PollReady now polled tick order) = (Ok None, s') -> polled_ok now hs b s'.1 s'.2) /\
  (forall now k, banned_peers (poll_unban_peers now b) !! k = None /\ (exists t, (k, t) ∈ banned_peers_queue b /\ t <= now) \/
     banned_peers (poll_unban_peers now b) !! k = banned_peers b !! k /\ forall t, (k, t) ∈ banned_peers_queue b -> now < t).
Proof.
  intros Hinv%book_reached_inv. split_and!.
  - intros a Hb. split_and!.
    + apply eq_None_not_Some. intros Hg%(inv_white_ban _ _ _ Hinv). rewrite Hg in Hb. by destruct Hb.
    + apply eq_None_not_Some. intros Hg%(inv_gray_ban _ _ _ Hinv). rewrite Hg in Hb. by destruct Hb.
    + intros p Hp. by apply (inv_closed _ _ _ Hinv a p).
  - intros ev res s' a Hev Hst Ha. destruct (step_spec strict hs b ev Hinv Hev) as (r & s'' & Heq & _ & _ & Hho).
    rewrite Hst in Heq. injection Heq as <- <-. by apply (Hho res a).
  - intros now polled tick order s' [Hord Hp] Hst.
    pose proof (poll_ready_spec (E := AddressBookError) strict now polled tick order hs b Hinv Hord Hp) as Hout. cbn [step] in Hst.
    destruct (poll_ready _ _ _ _ _); [|done..]. injection Hst as <-. apply Hout.
  - intros now k. apply poll_unban_lookup.
Qed.

(** The lists that are saved to disk, loaded by a new book, are those of this one. *)
Theorem saved_lists_reload strict hs b b' tick w g :
  reachable strict hs b -> peer_save_task_handle b = None -> poll_save_to_disk (E := AddressBookError) SaveDone tick b = Ok b' ->
  peer_save_task_handle b' = Some (w, g) ->
  let b2 := init_address_book (cfg b) (Some (w, g)) in
  book_inv true ∅ b2 /\ forall a, get a (white_list b2) = get a (white_list b) /\ get a (gray_list b2) = get a (gray_list b).
Proof.
  intros Hinv%book_reached_inv Hnone Hpoll Hsave. unfold poll_save_to_disk in Hpoll. rewrite Hnone in Hpoll. injection Hpoll as <-.
  cbn in Hsave. destruct tick; [|done]. injection Hsave as <- <-.
  destruct (PeerList.reload_spec (white_list b) (inv_white _ _ _ Hinv)) as [Hw Hgw].
  destruct (PeerList.reload_spec (gray_list b) (inv_gray _ _ _ Hinv)) as [Hg Hgg].
  cbn zeta. split; [|done]. split; cbn; try done. intros a. by intros [? Ha%lookup_empty_Some].
Qed.

(** A connection is refused, with nothing changed, if the peer is connected already or
    banned; otherwise its reachable address is in the white list and an anchor, and the
    list is cut to its length unless all that is left are anchors. *)
Theorem new_connection_spec strict hs b i p :
  reachable strict hs b -> Pruning.wf (c_pruning_seed p) -> reachable_host i p ->
  exists r b', handle_new_connection i p b = (r, b') /\ connection_ok hs b i p r b'.
Proof.
  intros Hinv%book_reached_inv Hs Hr. destruct (handle_new_connection_spec strict hs b i p Hinv Hs Hr) as (r & b' & ? & ? & _). eauto.
Qed.

(** Peers others tell us of never make the gray list longer than its limit. *)
Theorem incoming_peer_list_bounded strict hs b l :
  reachable strict hs b -> Forall (fun e => Pruning.wf (PeerList.pruning_seed e)) l ->
  exists g, handle_incoming_peer_list (E := AddressBookError) l b = Ok (set_lists (white_list b) g b) /\
    (length (PeerList.peers g) <= max_gray_list_length (cfg b))%nat.
Proof.
  intros Hinv%book_reached_inv Hl. destruct (handle_incoming_spec (E := AddressBookError) strict hs b l Hinv Hl) as (g & ? & _ & ?). eauto.
Qed.
End facts.

(** ** Runs *)
Module TestBook.
Definition host : Z := 0x01020304.
Definition home : SocketAddr := SocketV4 host 18080.
Definition outside1 : SocketAddr := SocketV4 host 5001.
Definition outside2 : SocketAddr := SocketV4 host 5002.

Definition rng : Rng (Addr := SocketAddr) := mk_rng (fun _ _ => 0%nat) (fun es n => take n es) (fun es => es).
Definition conn (reachable : option SocketAddr) (h : Z) (seed : PruningSeed) : ConnectionPeerEntry := mk_conn reachable 7 h seed 0 0.
Definition settings : AddressBookConfig (Addr := SocketAddr) := mk_cfg 10 20 None.
Definition home_entry : PeerList.Entry SocketAddr := PeerList.mk_entry home 7 0 NotPruned 0 0.

Definition state := (gmap Z HandleState * AddressBook (Addr := SocketAddr) (BanID := IpAddr))%type.
Definition run (s : state) (evs : list Event) : state := foldl (fun s ev => (step s ev).2) s evs.
(** A poll that visits the peers in the order of the map *)
Definition poll (now : Z) (s : state) : result AddressBookError (option AddressBookResponse) * state :=
  step s (PollReady now SaveDone false (map_to_list (connected_peers s.2))).

Definition start : state := (∅, init_address_book settings None).
Definition start_with_home : state := (∅, init_address_book settings (Some ([home_entry], []))).

Lemma rng_is_ok : rng_ok rng.
Proof.
  split_and!; [intros; cbn; lia| |done]. intros es j. cbn. split; [apply length_take|].
  exists (drop j es). by rewrite take_drop.
Qed.

Definition connected : state := run start [Call rng (NewConnection (KnownAddr home) (conn (Some home) 1 NotPruned))].

Definition went_well {E A} (r : result E A) : bool := match r with Ok _ => true | _ => false end.
Lemma reach_ok (s : state) ev s' :
  reachable true s.1 s.2 -> event_ok s.2 ev -> went_well (step s ev).1 = true -> (step s ev).2 = s' -> reachable true s'.1 s'.2.
Proof.
  intros Hr Hev Hok <-. destruct s as [hs b]. destruct (step (hs, b) ev) as [r s'] eqn:E. cbn [fst snd] in *. destruct r; [|done..].
  by apply (reach_step true hs b ev _ _ Hr Hev E).
Qed.

Lemma connected_reachable : reachable true connected.1 connected.2.
Proof.
  set (ev := Call rng (NewConnection (KnownAddr home) (conn (Some home) 1 NotPruned))).
  apply (reach_ok start ev); [by apply reach_start| |vm_compute; reflexivity|reflexivity].
  split; [apply rng_is_ok|]. split; [done|]. intros a [= <-]. by exists home.
Qed.
End TestBook.
Import TestBook.

Lemma address_book_well_formed_witness : PeerList.wf (white_list connected.2) /\ PeerList.wf (gray_list connected.2).
Proof. exact (address_book_well_formed true _ _ connected_reachable). Defined.

Lemma address_book_panics_only_when_witness :
  (step (connected.1, connected.2) (SetBan 1 60)).1 <> Panic /\ (step (connected.1, connected.2) (Call rng GetBans)).1 = Panic.
Proof.
  split.
  - by apply (address_book_panics_only_when _ _ (SetBan 1 60) connected_reachable I).
  - apply (proj2 (address_book_panics_only_when connected.1 connected.2 (Call rng GetBans) connected_reachable (conj rng_is_ok I)) rng GetBans); done.
Defined.

Definition ban_asked : state := run connected [SetBan 1 60; CloseHandle 1].
Lemma ban_asked_reachable : reachable true ban_asked.1 ban_asked.2.
Proof.
  apply (reach_ok (step connected (SetBan 1 60)).2 (CloseHandle 1)); [|done|reflexivity|reflexivity].
  apply (reach_ok connected (SetBan 1 60)); [apply connected_reachable|done|reflexivity|reflexivity].
Qed.

(** After the poll the host is banned and its connection forgotten. *)
Lemma banned_hosts_kept_out_witness :
  polled_ok 100 ban_asked.1 ban_asked.2 (poll 100 ban_asked).2.1 (poll 100 ban_asked).2.2 /\
  banned_peers (poll 100 ban_asked).2.2 !! IpV4 host = Some 160 /\ connected_peers (poll 100 ban_asked).2.2 = ∅.
Proof.
  split_and!; [|vm_compute; done..].
  destruct (banned_hosts_kept_out true _ _ ban_asked_reachable) as (_ & _ & H & _).
  apply (H 100 SaveDone false (map_to_list (connected_peers ban_asked.2))); [done|]. vm_compute. done.
Defined.

Lemma saved_lists_reload_witness :
  let b2 := init_address_book settings (Some ([home_entry], [])) in
  book_inv true ∅ b2 /\ forall a, PeerList.im_get a (PeerList.peers (white_list b2)) = PeerList.im_get a (PeerList.peers (white_list connected.2)) /\
    PeerList.im_get a (PeerList.peers (gray_list b2)) = PeerList.im_get a (PeerList.peers (gray_list connected.2)).
Proof.
  assert (Hw : map snd (PeerList.peers (white_list connected.2)) = [home_entry]) by (vm_compute; reflexivity).
  assert (Hg : map snd (PeerList.peers (gray_list connected.2)) = []) by (vm_compute; reflexivity).
  assert (Hn : peer_save_task_handle connected.2 = None) by (vm_compute; reflexivity).
  apply (saved_lists_reload true connected.1 connected.2 (set_save_task (Some ([home_entry], [])) connected.2) true [home_entry] [] connected_reachable);
    [exact Hn| |reflexivity]. unfold poll_save_to_disk. rewrite Hn, Hw, Hg. reflexivity.
Defined.

Lemma new_connection_spec_witness :
  exists r b', handle_new_connection (KnownAddr outside1) (conn (Some home) 2 NotPruned) connected.2 = (r, b') /\
    connection_ok connected.1 connected.2 (KnownAddr outside1) (conn (Some home) 2 NotPruned) r b'.
Proof.
  apply (new_connection_spec true connected.1 connected.2); [apply connected_reachable|done|]. intros a [= <-]. by exists outside1.
Defined.

Lemma incoming_peer_list_bounded_witness :
  exists g, handle_incoming_peer_list (E := AddressBookError) [home_entry] connected.2 = Ok (set_lists (white_list connected.2) g connected.2) /\
    (length (PeerList.peers g) <= 20)%nat.
Proof. apply (incoming_peer_list_bounded true connected.1 connected.2 [home_entry] connected_reachable). by repeat constructor. Defined.

(** A peer whose stored pruning seed differs is refused, but its address stays among the
    connected ones of its host; banning another peer of the host then panics. *)
Definition refused : state :=
  run start_with_home [Call rng (NewConnection (KnownAddr home) (conn (Some home) 1 (Pruned (mk_seed 3 1))));
                       Call rng (NewConnection (KnownAddr outside1) (conn None 2 NotPruned)); SetBan 2 60; CloseHandle 2].
Theorem ban_after_refused_connection_panics :
  (step start_with_home (Call rng (NewConnection (KnownAddr home) (conn (Some home) 1 (Pruned (mk_seed 3 1)))))).1 = Err PeersDataChanged /\
  (poll 100 refused).1 = Panic.
Proof. split; vm_compute; done. Qed.

(** The reachable address of an inbound peer stays an anchor after the peer has
    disconnected: it can no longer be taken from the white list, though it is there. *)
Definition gone : state :=
  (poll 100 (run start [Call rng (NewConnection (KnownAddr outside1) (conn (Some home) 1 NotPruned)); CloseHandle 1])).2.
Theorem inbound_anchor_outlives_connection :
  connected_peers gone.2 = ∅ /\ anchor_list gone.2 = {[home]} /\ PeerList.im_get home (PeerList.peers (white_list gone.2)) = Some home_entry /\
  (step gone (Call rng (TakeRandomWhitePeer None))).1 = Err PeerNotFound.
Proof. split_and!; [vm_compute; done|apply (bool_decide_unpack _); vm_compute; exact I|vm_compute; reflexivity..]. Qed.

(** Of two bans of one host the shorter one ends both. *)
Definition banned_twice : state :=
  let s := run start [Call rng (NewConnection (KnownAddr outside1) (conn None 1 NotPruned)); Call rng (NewConnection (KnownAddr outside2) (conn None 2 NotPruned));
                      SetBan 1 10; CloseHandle 1; SetBan 2 10000; CloseHandle 2] in
  (step s (PollReady 0 SaveDone false [(KnownAddr outside1, conn None 1 NotPruned); (KnownAddr outside2, conn None 2 NotPruned)])).2.
Theorem shorter_ban_ends_both :
  banned_peers banned_twice.2 !! IpV4 host = Some 10000 /\ banned_peers (poll 10 banned_twice).2.2 !! IpV4 host = None.
Proof. split; vm_compute; done. Qed.

(** A peer of the gray list that connects is then in both lists. *)
Definition in_both : state :=
  run start [Call rng (IncomingPeerList (KnownAddr outside2) [home_entry]); Call rng (NewConnection (KnownAddr outside1) (conn (Some home) 1 NotPruned))].
Theorem connected_peer_stays_gray :
  PeerList.contains_peer home (white_list in_both.2) = true /\ PeerList.contains_peer home (gray_list in_both.2) = true.
Proof. split; vm_compute; done. Qed.

End AddressBookFacts.
