(* ===== verification/Handshake.v ===== *)
(** * Handshakes and admin requests ([src/p2p/p2p-core/src/client/handshaker.rs],
    [client/request_handler.rs], [client/connector.rs], [services.rs])

    How a connection begins: both nodes say what network they are on, who they are and how
    far they have got, the node that was connected to pings the other one back, and the
    address book is told. Then how the admin requests of a connected peer are answered.

    A handshake talks to the peer over a stream and a sink and to the services of the node.
    The messages the peer sends, which sends fail, what the core-sync service and the ping
    say are its environment. The address book is an interface, [BookService], that
    [AddressBook] implements. *)
From S2P Require Import Prelude Bytes Pruning Levin NetAddress WireMessages PeerProtocol PeerList AddressBook.
From Stdlib Require Import ZArith Lia.
From stdpp Require Import base tactics option list numbers gmap.
Import Pruning NetAddress Wire PeerProtocol AddressBook.

#[local] Open Scope Z_scope.

Module Handshake.

Definition MAX_PEERS_IN_PEER_LIST_MESSAGE : nat := 250.
Definition MAX_EAGER_PROTOCOL_MESSAGES : nat := 1.

#[export] Instance LevinCommand_eq_dec : EqDecision LevinCommand.
Proof. solve_decision. Defined.

(** ** Peer lists on the wire ([services.rs]) *)
Inductive PeerListConversionError := PL_Address | PL_PruningSeed (e : PruningError).

Inductive HandshakeError :=
  | TimedOut
  | PeerHasSameNodeID
  | IncorrectNetwork
  | PeerSentIncorrectPeerList (e : PeerListConversionError)
  | PeerSentInvalidMessage
  | InvalidPruningSeed (e : PruningError)
  | LevinBucketError (e : Levin.BucketError)
  | InternalSvcErr
  | IO.

Inductive ConnectionDirection := Inbound | Outbound.

Section entries.
Context {Addr BanID : Type} {NZ : NetZoneAddress Addr BanID}.
#[local] Abbreviation Entry := (PeerList.Entry Addr).

Definition entry_to_base (e : Entry) : PeerListEntryBase :=
  mk_peer_base (to_network (PeerList.adr e)) (PeerList.id e) (PeerList.last_seen e) (compress (PeerList.pruning_seed e))
    (PeerList.rpc_port e) (PeerList.rpc_credits_per_hash e).

Definition entry_of_base (v : PeerListEntryBase) : result PeerListConversionError Entry :=
  adr ← map_err (fun _ => PL_Address) (try_from_network (pb_adr v));
  seed ← map_err PL_PruningSeed (decompress_p2p_rules (pb_pruning_seed v));
  Ok (PeerList.mk_entry adr (pb_id v) (pb_last_seen v) seed (pb_rpc_port v) (pb_rpc_credits_per_hash v)).
End entries.

(** ** The address book as a service: a request is answered or fails. *)
Class BookService (Addr S : Type) := book_call : AddressBookRequest (Addr := Addr) -> S -> result () (AddressBookResponse (Addr := Addr)) * S.

(** What the documentation of [AddressBookResponse] promises: which response answers which
    request, and that no more peers come than were asked for. *)
Definition response_fits {Addr} (req : AddressBookRequest (Addr := Addr)) (r : AddressBookResponse (Addr := Addr)) : Prop :=
  match req, r with
  | NewConnection _ _, Res_Ok => True
  | IncomingPeerList _ _, Res_Ok => True
  | GetWhitePeers n, Res_Peers es => (length es <= n)%nat
  | OwnAddress, Res_OwnAddress _ => True
  | (TakeRandomWhitePeer _ | TakeRandomGrayPeer _ | TakeRandomPeer _), Res_Peer _ => True
  | GetBan _, Res_GetBan _ => True
  | _, _ => False
  end.

Section handshake.
Context {Addr BanID S : Type} {NZ : NetZoneAddress Addr BanID} {Bk : BookService Addr S}.
#[local] Abbreviation Entry := (PeerList.Entry Addr).

(** The environment: [send_error n] is how the send number [n] fails, [core_sync n] what the
    core-sync service says at its call number [n]; [silent]: after its last message the peer
    says nothing until the time is over, instead of closing the stream; [pinged] is what a
    connection to an address for a ping does (it fails, or a send that may fail and what is
    received), [None] if it takes longer than allowed; [maker_ok]: the maker of protocol
    handlers works; [fresh_handle] names the handle of the new connection. *)
Record Env := mk_env {
  send_error : nat -> option Levin.BucketError;
  core_sync : nat -> option CoreSyncData;
  silent : bool;
  pinged : Addr -> option (option (option Levin.BucketError * list (Levin.BucketError + Message)));
  maker_ok : bool;
  fresh_handle : Z;
}.
Variable env : Env.

Record Hs := mk_hs { stream : list (Levin.BucketError + Message); sink : list Message; sends : nat; syncs : nat; book : S }.

Definition act (A : Type) : Type := Hs -> result HandshakeError A * Hs.
#[export] Instance act_ret : MRet act := fun A a h => (Ok a, h).
#[export] Instance act_bind : MBind act := fun A B f x h =>
  match x h with (Ok a, h) => f a h | (Err e, h) => (Err e, h) | (Panic, h) => (Panic, h) end.
Definition fails {A} (r : result HandshakeError A) : act A := fun h => (r, h).

(** [peer_sink.send(mes.into()).await?] *)
Definition send (mes : Message) : act () := fun h =>
  match send_error env (sends h) with
  | Some e => (Err (LevinBucketError e), mk_hs (stream h) (sink h) (Datatypes.S (sends h)) (syncs h) (book h))
  | None => (Ok (), mk_hs (stream h) (sink h ++ [mes]) (Datatypes.S (sends h)) (syncs h) (book h))
  end.

(** [core_sync_svc.ready().await?.call(CoreSyncDataRequest).await?] *)
Definition get_core_sync : act CoreSyncData := fun h =>
  let h' := mk_hs (stream h) (sink h) (sends h) (Datatypes.S (syncs h)) (book h) in
  match core_sync env (syncs h) with Some d => (Ok d, h') | None => (Err InternalSvcErr, h') end.

(** [address_book.ready().await?.call(req).await?] *)
Definition ask_book (req : AddressBookRequest) : act AddressBookResponse := fun h =>
  let '(r, s) := book_call req (book h) in
  (map_err (fun _ => InternalSvcErr) r, mk_hs (stream h) (sink h) (sends h) (syncs h) s).

Definition set_stream (l : list (Levin.BucketError + Message)) (h : Hs) : Hs := mk_hs l (sink h) (sends h) (syncs h) (book h).

Definition send_support_flags (support_flags : Z) : act () := send (M_Response (RS_SupportFlags (mk_support_flags_response support_flags))).
Definition send_ping_response (peer_id : Z) : act () := send (M_Response (RS_Ping (mk_ping_response PING_OK_RESPONSE_STATUS_TEXT peer_id))).

Definition send_hs_request (our : BasicNodeData) : act () :=
  our_core_sync_data ← get_core_sync;
  send (M_Request (RQ_Handshake (mk_handshake_request our our_core_sync_data))).

Definition send_hs_response (our : BasicNodeData) : act () :=
  our_core_sync_data ← get_core_sync;
  res ← ask_book (GetWhitePeers MAX_PEERS_IN_PEER_LIST_MESSAGE);
  match res with
  | Res_Peers our_peer_list =>
      send (M_Response (RS_Handshake (mk_handshake_response our our_core_sync_data (map entry_to_base our_peer_list))))
  | _ => fails Panic
  end.

(** [wait_for_message]; the loop is over what is left of the peer's stream. *)
Fixpoint wait_loop (levin_command : LevinCommand) (request : bool) (our : BasicNodeData) (allow_support_flag_req allow_ping : bool)
    (eager : list ProtocolMessage) (l : list (Levin.BucketError + Message)) : act (Message * list ProtocolMessage) := fun h =>
  match l with
  | [] => (Err (if silent env then TimedOut else LevinBucketError Levin.IO), set_stream [] h)
  | inl e :: l => (Err (LevinBucketError e), set_stream l h)
  | inr message :: l =>
      let h := set_stream l h in
      match message with
      | M_Protocol protocol_message =>
          let eager := eager ++ [protocol_message] in
          if (MAX_EAGER_PROTOCOL_MESSAGES <? length eager)%nat then (Err PeerSentInvalidMessage, h)
          else wait_loop levin_command request our allow_support_flag_req allow_ping eager l h
      | M_Request req_message =>
          if bool_decide (request_command req_message = levin_command) && request
          then (Ok (M_Request req_message, eager), h)
          else
            match req_message with
            | RQ_SupportFlags =>
                if allow_support_flag_req then
                  (_ ← send_support_flags (support_flags our); wait_loop levin_command request our false allow_ping eager l) h
                else (Err PeerSentInvalidMessage, h)
            | RQ_Ping =>
                if allow_ping then
                  (_ ← send_ping_response (peer_id our); wait_loop levin_command request our allow_support_flag_req false eager l) h
                else (Err PeerSentInvalidMessage, h)
            | RQ_Handshake _ | RQ_TimedSync _ => (Err PeerSentInvalidMessage, h)
            end
      | M_Response res_message =>
          if request then (Err PeerSentInvalidMessage, h)
          else if bool_decide (response_command res_message = levin_command)
          then (Ok (M_Response res_message, eager), h)
          else (Err PeerSentInvalidMessage, h)
      end
  end.
Definition wait_for_message (levin_command : LevinCommand) (request : bool) (our : BasicNodeData) : act (Message * list ProtocolMessage) :=
  fun h => wait_loop levin_command request our true true [] (stream h) h.

(** [ping] over the connection [c]: [None] if connecting failed. *)
Definition ping (c : option (option Levin.BucketError * list (Levin.BucketError + Message))) : result HandshakeError Z :=
  match c with
  | None => Err IO
  | Some (Some e, _) => Err (LevinBucketError e)
  | Some (None, inl e :: _) => Err (LevinBucketError e)
  | Some (None, inr (M_Response (RS_Ping ping)) :: _) =>
      if bool_decide (status ping = PING_OK_RESPONSE_STATUS_TEXT) then Ok (ping_peer_id ping) else Err PeerSentInvalidMessage
  | Some (None, inr _ :: _) => Err PeerSentInvalidMessage
  | Some (None, []) => Err (LevinBucketError Levin.IO)
  end.

(** What the new [Client] knows of its peer ([PeerInformation]), and the messages to handle
    first. *)
Record Connected := mk_connected {
  id : InternalPeerID Addr;
  handle : Z;
  direction : ConnectionDirection;
  pruning_seed : PruningSeed;
  basic_node_data : BasicNodeData;
  core_sync_data : CoreSyncData;
  eager_protocol_messages : list ProtocolMessage;
}.

(** The first part: the peer's data. *)
Definition exchange (addr : InternalPeerID Addr) (dir : ConnectionDirection) (our : BasicNodeData)
    : act (CoreSyncData * BasicNodeData * list ProtocolMessage) :=
  match dir with
  | Inbound =>
      '(message, eager) ← wait_for_message C_Handshake true our;
      match message with
      | M_Request (RQ_Handshake handshake_req) => mret (hq_payload_data handshake_req, hq_node_data handshake_req, eager)
      | _ => fails Panic
      end
  | Outbound =>
      _ ← send_hs_request our;
      '(message, eager) ← wait_for_message C_Handshake false our;
      match message with
      | M_Response (RS_Handshake handshake_res) =>
          if (MAX_PEERS_IN_PEER_LIST_MESSAGE <? length (hr_local_peerlist_new handshake_res))%nat then fails (Err PeerSentInvalidMessage)
          else
            peers ← fails (map_err PeerSentIncorrectPeerList (collect entry_of_base (hr_local_peerlist_new handshake_res)));
            _ ← ask_book (IncomingPeerList addr peers);
            mret (hr_payload_data handshake_res, hr_node_data handshake_res, eager)
      | _ => fails Panic
      end
  end.

(** [public_address]: the reachable address of the peer. *)
Definition check_out_addr (addr : InternalPeerID Addr) (dir : ConnectionDirection) (our peer_node_data : BasicNodeData) : act (option Addr) :=
  match dir with
  | Inbound =>
      _ ← send_hs_response our;
      mret
        (if my_port peer_node_data =? 0 then None
         else
           match addr with
           | Unknown _ => None
           | KnownAddr a =>
               let outbound_address := set_port a (wrap 16 (my_port peer_node_data)) in
               match pinged env outbound_address with
               | Some c =>
                   match ping c with
                   | Ok ping_peer_id => if ping_peer_id =? peer_id peer_node_data then Some outbound_address else None
                   | _ => None
                   end
               | None => None
               end
           end)
  | Outbound => match addr with KnownAddr a => mret (Some a) | Unknown _ => fails Panic end
  end.

Definition handshake (addr : InternalPeerID Addr) (dir : ConnectionDirection) (our : BasicNodeData) : act Connected :=
  '(peer_core_sync, peer_node_data, eager) ← exchange addr dir our;
  if negb (bool_decide (network_id peer_node_data = network_id our)) then fails (Err IncorrectNetwork)
  else if CHECK_NODE_ID && (peer_id peer_node_data =? peer_id our) then fails (Err PeerHasSameNodeID)
  else
    seed ← fails (map_err InvalidPruningSeed (decompress_p2p_rules (pruning_seed_u32 peer_core_sync)));
    public_address ← check_out_addr addr dir our peer_node_data;
    _ ← ask_book (NewConnection addr
          (mk_conn public_address (peer_id peer_node_data) (fresh_handle env) seed (node_rpc_port peer_node_data)
             (node_rpc_credits_per_hash peer_node_data)));
    if maker_ok env then mret (mk_connected addr (fresh_handle env) dir seed peer_node_data peer_core_sync eager)
    else fails (Err InternalSvcErr).

(** [Connector::call]; [connected]: the transport could connect. *)
Definition connector_call (connected : bool) (addr : Addr) (our : BasicNodeData) : act Connected :=
  if connected then handshake (KnownAddr addr) Outbound our else fails (Err IO).

(** ** Requests of a connected peer ([request_handler.rs]) *)

(** What is kept of the peer: its sync data, shared with everybody who has a client, and
    the calls of the callback. *)
Record Known := mk_known { peer_sync_data : CoreSyncData; sync_calls : list CoreSyncData }.

(** [protocol] is the handler of protocol requests, [at_index n] the random place among [n]
    peers for our own address. *)
Context (our : BasicNodeData) (has_callback : bool) (protocol : ProtocolRequest -> option ProtocolResponse) (at_index : nat -> nat).

Definition own_entry (a : Addr) : Entry :=
  PeerList.mk_entry a (peer_id our) 0 NotPruned (node_rpc_port our) (node_rpc_credits_per_hash our).

Definition insert_at {A} (i : nat) (x : A) (l : list A) : list A := take i l ++ x :: drop i l.

Definition handle_timed_sync_request (req : TimedSyncRequest) (k : Known) : Known * act TimedSyncResponse :=
  let data := tq_payload_data req in
  (mk_known data (if has_callback then sync_calls k ++ [data] else sync_calls k),
   core_sync_data ← get_core_sync;
   own_addr ←
     (if BROADCAST_OWN_ADDR then
        r ← ask_book OwnAddress;
        match r with Res_OwnAddress own_addr => mret own_addr | _ => fails Panic end
      else mret None);
   let peer_list_req_size := (MAX_PEERS_IN_PEER_LIST_MESSAGE - match own_addr with Some _ => 1 | None => 0 end)%nat in
   r ← ask_book (GetWhitePeers peer_list_req_size);
   match r with
   | Res_Peers peers =>
       let peers := match own_addr with Some a => insert_at (at_index (length peers)) (own_entry a) peers | None => peers end in
       mret (mk_timed_sync_response core_sync_data (map entry_to_base peers))
   | _ => fails Panic
   end).

(** An error here is the error of the service; [ReceivedHandshakeDuringConnection] is one. *)
Definition handle_peer_request (req : PeerRequest) (k : Known) : Known * act PeerResponse :=
  match req with
  | Q_Admin (RQ_Handshake _) => (k, fails (Err InternalSvcErr))
  | Q_Admin RQ_SupportFlags => (k, mret (R_Admin (RS_SupportFlags (mk_support_flags_response (support_flags our)))))
  | Q_Admin RQ_Ping => (k, mret (R_Admin (RS_Ping (mk_ping_response PING_OK_RESPONSE_STATUS_TEXT (peer_id our)))))
  | Q_Admin (RQ_TimedSync timed_sync_req) =>
      let '(k, x) := handle_timed_sync_request timed_sync_req k in (k, res ← x; mret (R_Admin (RS_TimedSync res)))
  | Q_Protocol protocol_req =>
      (k, match protocol protocol_req with Some r => mret (R_Protocol r) | None => fails (Err InternalSvcErr) end)
  end.
End handshake.
Arguments Hs : clear implicits.
Arguments Env : clear implicits.
Arguments Connected : clear implicits.

(** [AddressBook] as the service *)
Definition book_service {Addr BanID} `{Countable Addr, Countable BanID, NetZoneAddress Addr BanID} (rng : Rng (Addr := Addr))
    : BookService Addr (AddressBook (Addr := Addr) (BanID := BanID)) :=
  fun req b => let '(r, b) := call rng req b in (map_err (fun _ => ()) r, b).

End Handshake.
