(* ===== verification/HandshakeFacts.v ===== *)
(** * Handshakes: theorems *)
From S2P Require Import Prelude Bytes Pruning Levin NetAddress WireMessages PeerProtocol PeerList AddressBook AddressBookFacts Handshake.
From Stdlib Require Import ZArith Lia.
From stdpp Require Import base tactics option list numbers gmap.
Import Pruning NetAddress Wire PeerProtocol AddressBook Handshake.

#[local] Open Scope Z_scope.

Module HandshakeFacts.

(** ** Pruning seeds of peers *)
Lemma p2p_seed_wf seed p : decompress_p2p_rules seed = Ok p -> Pruning.wf p /\ forall s, p = Pruned s -> log_stripes s = 3.
Proof.
  unfold decompress_p2p_rules, decompress, seed_decompress, PRUNING_SEED_LOG_STRIPES_MASK, PRUNING_SEED_STRIPE_MASK.
  destruct (seed =? 0); [intros [= <-]; done|].
  change 0x7 with (Z.ones 3). change 127 with (Z.ones 7).
  rewrite (Z.land_ones (shr 32 seed PRUNING_SEED_LOG_STRIPES_SHIFT) 3), (Z.land_ones (shr 32 seed PRUNING_SEED_STRIPE_SHIFT) 7) by lia.
  set (n := shr 32 seed PRUNING_SEED_LOG_STRIPES_SHIFT mod 2 ^ 3). set (t := shr 32 seed PRUNING_SEED_STRIPE_SHIFT mod 2 ^ 7).
  assert (0 <= n <= 7) as Hn by (subst n; pose proof (Z.mod_pos_bound (shr 32 seed PRUNING_SEED_LOG_STRIPES_SHIFT) (2 ^ 3)); lia).
  assert (0 <= t) as Ht by (subst t; apply Z.mod_pos_bound; lia).
  rewrite shl_1_log by lia. destruct (_ <? _) eqn:E; [done|]. cbn. destruct (n =? CRYPTONOTE_PRUNING_LOG_STRIPES) eqn:En; [|done]. cbn.
  bsimp. intros [= <-]. split; [split; cbn; lia|]. intros s [= <-]. done.
Qed.

Lemma p2p_seed_roundtrip p : Pruning.wf p -> (forall s, p = Pruned s -> log_stripes s = 3) -> decompress_p2p_rules (compress p) = Ok p.
Proof.
  intros Hwf H3. unfold decompress_p2p_rules. rewrite (proj1 compress_decompress_roundtrip) by (try done; intros ->; by specialize (H3 _ eq_refl)).
  cbn. destruct p as [|s]; [done|]. cbn. by rewrite (H3 s eq_refl).
Qed.

(** ** The address book behind its interface *)
Section facts.
Context {Addr BanID S : Type} {NZ : NetZoneAddress Addr BanID} {Bk : BookService Addr S}.

(** What the handshake relies on, of a book in a good state: it never panics and answers
    with the response of the request. *)
Class BookLaws := {
  book_ok : S -> Prop;
  book_call_ok req s : book_ok s -> AddressBookFacts.request_ok req ->
    exists r s', book_call req s = (r, s') /\ book_ok s' /\ match r with Ok res => response_fits req res | Err _ => True | Panic => False end;
}.
Context `{BL : BookLaws} {NL : NetZoneAddressLaws NZ}.

(** [x] never panics from a state with a good book; [Q] holds of what it returns and the
    state it ends in. *)
Definition safe {A} (x : act (S := S) A) (Q : A -> Hs S -> Prop) : Prop :=
  forall h, book_ok (book h) ->
    match x h with
    | (Ok a, h') => book_ok (book h') /\ Q a h'
    | (Err _, h') => book_ok (book h')
    | (Panic, _) => False
    end.

Lemma safe_then {A B} (x : act A) (f : A -> act B) P Q :
  safe x P -> (forall a, safe (fun h => f a h) (fun b h' => Q b h')) -> safe (x ≫= f) Q.
Proof.
  intros Hx Hf h Hb. specialize (Hx h Hb). unfold mbind, act_bind. destruct (x h) as [[a|e|] h']; [|done..].
  apply Hf. apply Hx.
Qed.

Lemma safe_bind_dep {A B} (x : act A) (f : A -> act B) P Q :
  safe x (fun a _ => P a) -> (forall a, P a -> safe (f a) Q) -> safe (x ≫= f) Q.
Proof.
  intros Hx Hf h Hb. specialize (Hx h Hb). unfold mbind, act_bind. destruct (x h) as [[a|e|] h']; [|done..].
  apply Hf; apply Hx.
Qed.

Lemma safe_mono {A} (x : act A) (P Q : A -> Hs S -> Prop) : safe x P -> (forall a h, P a h -> Q a h) -> safe x Q.
Proof. intros Hx H h Hb. specialize (Hx h Hb). destruct (x h) as [[a|e|] h']; [|done..]. destruct Hx. auto. Qed.

Lemma safe_ret {A} (a : A) (Q : A -> Hs S -> Prop) : (forall h, Q a h) -> safe (mret a) Q.
Proof. intros H h Hb. by split. Qed.
Lemma safe_err {A} e (Q : A -> Hs S -> Prop) : safe (fails (Err e)) Q.
Proof. intros h Hb. exact Hb. Qed.

Section env.
Context (env : Env Addr).

Lemma send_safe mes (Q : () -> Prop) : Q () -> safe (send env mes) (fun a _ => Q a).
Proof. intros HQ h Hb. unfold send. destruct (send_error env _); cbn; [done|by split]. Qed.

Lemma core_sync_safe : safe (get_core_sync env) (fun _ _ => True).
Proof. intros h Hb. unfold get_core_sync. by destruct (core_sync env _). Qed.

Lemma ask_book_safe req : AddressBookFacts.request_ok req ->
  safe (ask_book req) (fun r h' => response_fits req r /\ exists s0, book_ok s0 /\ book_call req s0 = (Ok r, book h')).
Proof.
  intros Hr h Hb. destruct (book_call_ok req (book h) Hb Hr) as (r & s' & Hx & Hok & Hf). unfold ask_book. rewrite Hx.
  destruct r as [r|e|]; cbn; [|done..]. split; [done|]. split; [done|]. by exists (book h).
Qed.

(** What is waited for: the message with the command, as a request or a response, after at
    most one protocol message. *)
Definition awaited (request : bool) (x : Message * list ProtocolMessage) : Prop :=
  (length x.2 <= MAX_EAGER_PROTOCOL_MESSAGES)%nat /\
  match x.1 with
  | M_Request (RQ_Handshake _) => request = true
  | M_Response (RS_Handshake _) => request = false
  | _ => False
  end.

Lemma wait_loop_safe request our sf pg eager l :
  (length eager <= MAX_EAGER_PROTOCOL_MESSAGES)%nat ->
  safe (wait_loop env C_Handshake request our sf pg eager l) (fun x _ => awaited request x).
Proof.
  revert sf pg eager. induction l as [|[e|m] l IH]; intros sf pg eager He h Hb; cbn [wait_loop]; [done..|].
  destruct m as [r|r|m].
  - case_bool_decide as Ec; [destruct r; try done; destruct request; [by split|done]|].
    destruct r; cbn [andb]; [done|..|done].
    + destruct pg; [|done]. apply (safe_bind_dep _ _ (fun _ => True)); [by apply send_safe|intros; by apply IH|done].
    + destruct sf; [|done]. apply (safe_bind_dep _ _ (fun _ => True)); [by apply send_safe|intros; by apply IH|done].
  - destruct request; [done|]. case_bool_decide as Ec; [|done]. destruct r; try done.
  - destruct (_ <? _)%nat eqn:El; [done|]. apply Nat.ltb_ge in El. by apply IH.
Qed.

Lemma entry_of_base_wf v (e : PeerList.Entry Addr) : entry_of_base v = Ok e -> Pruning.wf (PeerList.pruning_seed e).
Proof.
  unfold entry_of_base. destruct (try_from_network (NetZoneAddress := NZ) (pb_adr v)) as [a| |]; cbn; [|done..].
  destruct (decompress_p2p_rules _) as [s| |] eqn:Es; cbn; [|done..]. intros [= <-]. by apply p2p_seed_wf in Es as [? _].
Qed.

Lemma collect_entries_wf l peers :
  collect entry_of_base l = Ok peers -> Forall (fun e : PeerList.Entry Addr => Pruning.wf (PeerList.pruning_seed e)) peers.
Proof.
  revert peers. induction l as [|v l IH]; cbn; [by intros ? [= <-]|]. intros peers.
  destruct (entry_of_base v) as [e| |] eqn:Ee; cbn; [|done..].
  destruct (collect entry_of_base l) as [es| |]; cbn; [|done..]. intros [= <-].
  constructor; [by eapply entry_of_base_wf|by apply IH].
Qed.

Lemma seed_total seed : decompress_p2p_rules seed <> Panic.
Proof.
  unfold decompress_p2p_rules, decompress, seed_decompress. destruct (seed =? 0); [done|]. destruct (_ <? _); [done|]. cbn.
  by destruct (negb _).
Qed.

Lemma entry_of_base_total (v : PeerListEntryBase) : entry_of_base (Addr := Addr) v <> Panic.
Proof.
  unfold entry_of_base. pose proof (try_from_network_total (pb_adr v)). destruct (try_from_network (NetZoneAddress := NZ) (pb_adr v)); [|done..]. cbn.
  pose proof (seed_total (pb_pruning_seed v)). by destruct (decompress_p2p_rules _).
Qed.

Lemma collect_entries_total l : collect (entry_of_base (Addr := Addr)) l <> Panic.
Proof.
  induction l as [|v l IH]; [done|]. cbn. pose proof (entry_of_base_total v). destruct (entry_of_base v); [|done..]. cbn.
  by destruct (collect _ l).
Qed.

Lemma lift_safe {A E} (f : E -> HandshakeError) (r : result E A) (Q : A -> Prop) :
  r <> Panic -> (forall a, r = Ok a -> Q a) -> safe (fails (map_err f r)) (fun a _ => Q a).
Proof. intros Hp HQ h Hb. destruct r; cbn; [split; [done|by apply HQ]|done..]. Qed.

(** ** The parts of a handshake *)
Lemma exchange_safe addr dir our :
  safe (exchange env addr dir our) (fun x _ => (length x.2 <= MAX_EAGER_PROTOCOL_MESSAGES)%nat).
Proof.
  assert (forall r, safe (wait_for_message env C_Handshake r our) (fun x _ => awaited r x)) as Hw.
  { intros r h Hb. unfold wait_for_message. apply wait_loop_safe; [cbn; lia|done]. }
  destruct dir; cbn [exchange].
  - eapply safe_bind_dep; [apply Hw|]. intros [m eager] [He Hm]. cbn in *. destruct m as [[]|[]|]; done.
  - apply (safe_bind_dep _ _ (fun _ => True)).
    { apply (safe_bind_dep _ _ (fun _ => True)); [apply core_sync_safe|]. intros d _. by apply send_safe. }
    intros _ _. eapply safe_bind_dep; [apply Hw|]. intros [m eager] [He Hm]. cbn [fst snd] in *. destruct m as [[]|[]|]; try done.
    case_match; [apply safe_err|].
    eapply safe_bind_dep; [apply (lift_safe _ _ (fun l => Forall (fun e => Pruning.wf (PeerList.pruning_seed e)) l)); [apply collect_entries_total|intros; by eapply collect_entries_wf]|].
    intros peers Hp. eapply safe_then; [by apply ask_book_safe|]. intros a. by apply safe_ret.
Qed.

(** What [public_address] is. *)
Definition public_ok (addr : InternalPeerID Addr) (dir : ConnectionDirection) (peer : BasicNodeData) (o : option Addr) : Prop :=
  match dir with
  | Outbound => exists a, addr = KnownAddr a /\ o = Some a
  | Inbound => forall a', o = Some a' -> exists a c, addr = KnownAddr a /\ a' = set_port a (wrap 16 (my_port peer)) /\ my_port peer <> 0 /\
                 pinged env a' = Some c /\ ping c = Ok (peer_id peer)
  end.

Lemma check_out_addr_safe addr dir our peer :
  (dir = Outbound -> exists a, addr = KnownAddr a) ->
  safe (check_out_addr env addr dir our peer) (fun o _ => public_ok addr dir peer o).
Proof.
  intros Hd. destruct dir; cbn [check_out_addr].
  - apply (safe_bind_dep _ _ (fun _ => True)).
    { apply (safe_bind_dep _ _ (fun _ => True)); [apply core_sync_safe|]. intros d _.
      apply (safe_bind_dep _ _ (response_fits (GetWhitePeers MAX_PEERS_IN_PEER_LIST_MESSAGE))).
      - eapply safe_mono; [by apply ask_book_safe|]. by intros a h [? _].
      - intros r Hr. destruct r; try done. by apply send_safe. }
    intros _ _. apply safe_ret. intros _ a'. destruct (my_port peer =? 0) eqn:Ep; [done|]. bsimp. destruct addr as [a|]; [|done].
    destruct (pinged env _) as [c|] eqn:Ec; [|done]. destruct (ping c) as [i| |] eqn:Eping; [|done..].
    destruct (i =? peer_id peer) eqn:Ei; [|done]. bsimp. subst i. intros [= <-]. by exists a, c.
  - destruct (Hd eq_refl) as [a ->]. apply safe_ret. intros _. by exists a.
Qed.

Lemma public_reachable addr dir peer o p :
  public_ok addr dir peer o -> c_addr p = o -> AddressBookFacts.reachable_host addr p.
Proof.
  intros Hp <- a Ha. destruct dir; cbn in Hp.
  - destruct (Hp a Ha) as (a0 & c & -> & -> & _). exists a0. by rewrite ban_id_set_port.
  - destruct Hp as (a0 & -> & Hp). rewrite Hp in Ha. injection Ha as <-. by exists a0.
Qed.

(** The entry of the connection in the address book. *)
Definition entry_for (o : option Addr) (d : Connected Addr) : ConnectionPeerEntry (Addr := Addr) :=
  mk_conn o (peer_id (basic_node_data d)) (handle d) (pruning_seed d) (node_rpc_port (basic_node_data d))
    (node_rpc_credits_per_hash (basic_node_data d)).

(** What a finished handshake says of the peer. *)
Definition agreed (addr : InternalPeerID Addr) (dir : ConnectionDirection) (our : BasicNodeData) (d : Connected Addr) : Prop :=
  id d = addr /\ direction d = dir /\ network_id (basic_node_data d) = network_id our /\
  (CHECK_NODE_ID = true -> peer_id (basic_node_data d) <> peer_id our) /\
  decompress_p2p_rules (pruning_seed_u32 (core_sync_data d)) = Ok (pruning_seed d) /\
  (length (eager_protocol_messages d) <= MAX_EAGER_PROTOCOL_MESSAGES)%nat.

Lemma handshake_safe addr dir our :
  (dir = Outbound -> exists a, addr = KnownAddr a) ->
  safe (handshake env addr dir our)
    (fun d h' => agreed addr dir our d /\ exists o s0 r, public_ok addr dir (basic_node_data d) o /\ book_ok s0 /\
       AddressBookFacts.reachable_host addr (entry_for o d) /\ Pruning.wf (pruning_seed d) /\
       book_call (NewConnection addr (entry_for o d)) s0 = (Ok r, book h')).
Proof.
  intros Hd. unfold handshake. eapply safe_bind_dep; [apply exchange_safe|]. intros [[sync peer] eager] He. cbn in He.
  case_bool_decide as Hn; cbn [negb]; [|apply safe_err]. destruct (CHECK_NODE_ID && _) eqn:Eid; [apply safe_err|].
  apply (safe_bind_dep _ _ (fun seed => decompress_p2p_rules (pruning_seed_u32 sync) = Ok seed)).
  { apply lift_safe; [apply seed_total|done]. }
  intros seed Hseed. pose proof (p2p_seed_wf _ _ Hseed) as [Hwf _]. eapply safe_bind_dep; [by apply check_out_addr_safe|]. intros o Ho.
  set (p := mk_conn o _ _ _ _ _). assert (AddressBookFacts.reachable_host addr p) as Hr by by eapply public_reachable.
  intros h Hb. pose proof (ask_book_safe (NewConnection addr p) (conj Hwf Hr) h Hb) as Hk.
  unfold mbind, act_bind. destruct (ask_book _ h) as [[r|e|] h']; [|done..]. destruct Hk as (Hb' & _ & s0 & Hs0 & Hx).
  destruct (maker_ok env); [|done]. split; [done|]. split; [|exists o, s0, r; done].
  split_and!; try done. cbn. intros Hc. rewrite Hc in Eid. cbn in Eid. by bsimp.
Qed.

(** ** Admin requests *)
Lemma length_insert_at {A} i (x : A) l : length (insert_at i x l) = Datatypes.S (length l).
Proof. unfold insert_at. rewrite length_app. cbn. rewrite length_take, length_drop. lia. Qed.

Definition peers_sent (r : PeerResponse) : nat :=
  match r with R_Admin (RS_TimedSync res) => length (tr_local_peerlist_new res) | _ => 0%nat end.

Lemma timed_sync_safe our cb at_index req k :
  safe (handle_timed_sync_request env our cb at_index req k).2
    (fun res _ => (length (tr_local_peerlist_new res) <= MAX_PEERS_IN_PEER_LIST_MESSAGE)%nat).
Proof.
  cbn [handle_timed_sync_request snd]. apply (safe_bind_dep _ _ (fun _ => True)); [apply core_sync_safe|]. intros d _.
  apply (safe_bind_dep _ _ (fun _ => True)).
  { destruct BROADCAST_OWN_ADDR; [|by apply safe_ret].
    apply (safe_bind_dep _ _ (response_fits OwnAddress)); [eapply safe_mono; [by apply ask_book_safe|by intros ? ? []]|].
    intros r Hr. destruct r; try done. }
  intros own _. set (n := (MAX_PEERS_IN_PEER_LIST_MESSAGE - _)%nat).
  apply (safe_bind_dep _ _ (response_fits (GetWhitePeers n))); [eapply safe_mono; [by apply ask_book_safe|by intros ? ? []]|].
  intros r Hr. destruct r as [| |es| |]; try done. apply safe_ret. intros _. cbn in Hr |- *. rewrite length_map.
  subst n. unfold MAX_PEERS_IN_PEER_LIST_MESSAGE in *. destruct own; [rewrite length_insert_at|]; lia.
Qed.

Lemma peer_request_safe our cb protocol at_index req k :
  safe (handle_peer_request env our cb protocol at_index req k).2
    (fun r _ => (peers_sent r <= MAX_PEERS_IN_PEER_LIST_MESSAGE)%nat /\
       match req with Q_Admin _ => answers req r = true | Q_Protocol q => exists p, protocol q = Some p /\ r = R_Protocol p end).
Proof.
  destruct req as [[]|q]; cbn [handle_peer_request snd].
  - apply safe_err.
  - apply safe_ret. intros _. split; [cbn; lia|done].
  - apply safe_ret. intros _. split; [cbn; lia|done].
  - eapply safe_bind_dep; [apply (timed_sync_safe our cb at_index m k)|]. intros res Hres. by apply safe_ret.
  - destruct (protocol q) as [p|] eqn:Ep; [|apply safe_err]. apply safe_ret. intros _. split; [cbn; lia|eauto].
Qed.
End env.
End facts.
Arguments BookLaws : clear implicits.

(** ** The address book implements the interface. *)
Section book.
Context {Addr BanID : Type} `{Countable Addr, Countable BanID} {NZ : NetZoneAddress Addr BanID} {NL : NetZoneAddressLaws NZ}.
Context (rng : Rng (Addr := Addr)).

Lemma peer_response_peer r (b b' : AddressBook (Addr := Addr) (BanID := BanID)) res : peer_response r b = (Ok res, b') -> exists e, res = Res_Peer e.
Proof. destruct r as [[[e|] ?]| |]; cbn; [|done..]. intros [= <- _]. by exists e. Qed.

Lemma call_response_fits strict hs (b : AddressBook) req res b' :
  AddressBookFacts.book_inv strict hs b -> AddressBookFacts.rng_ok rng -> call rng req b = (Ok res, b') -> response_fits req res.
Proof.
  intros Hb (_ & Hc & Hs). destruct req as [i p|i l|o|o|o|n| |a| | | | | |]; cbn [call]; try done.
  - destruct (handle_new_connection i p b) as [[[]| |] ?]; cbn; by intros [= <- <-].
  - destruct (handle_incoming_peer_list l b); by intros [= <- <-].
  - by intros [e ->]%peer_response_peer.
  - by intros [e ->]%peer_response_peer.
  - by intros [e ->]%peer_response_peer.
  - intros [= <- <-]. destruct (PeerList.get_random_peers_spec (choose_multiple rng) (shuffle rng) n (white_list b) (AddressBookFacts.inv_white _ _ _ Hb) Hc Hs)
      as (_ & Hl & _). cbn. unfold get_white_peers. rewrite Hl. lia.
  - by intros [= <- <-].
  - by intros [= <- <-].
Qed.

Definition good_book (b : AddressBook (Addr := Addr) (BanID := BanID)) : Prop := exists strict hs, AddressBookFacts.book_inv strict hs b.

Lemma good_book_call req b :
  AddressBookFacts.rng_ok rng -> good_book b -> AddressBookFacts.request_ok req ->
  exists r b', book_service rng req b = (r, b') /\ good_book b' /\ match r with Ok res => response_fits req res | Err _ => True | Panic => False end.
Proof.
  intros Hrng (strict & hs & Hb) Hreq. destruct (AddressBookFacts.call_spec strict hs b rng req Hb Hrng Hreq) as (r & b' & Hx & Hp & Hb' & _).
  unfold book_service. rewrite Hx. eexists _, _. split; [done|]. split; [by eexists _, _|].
  destruct r as [res|e|]; cbn; [|done..]. exact (call_response_fits strict hs b req res b' Hb Hrng Hx).
Qed.

Definition book_service_laws (Hrng : AddressBookFacts.rng_ok rng)
    : BookLaws Addr BanID (AddressBook (Addr := Addr) (BanID := BanID)) NZ (book_service rng) :=
  {| book_ok := good_book; book_call_ok := fun req b => good_book_call req b Hrng |}.

Section with_rng.
Context (Hrng : AddressBookFacts.rng_ok rng).
#[local] Abbreviation Book := (AddressBook (Addr := Addr) (BanID := BanID)).
#[local] Instance the_book : BookService Addr Book := book_service rng.

(** C20. A handshake never panics. If it succeeds, the peer is on our network, has an id other
    than ours in the zones where ids are compared ([CHECK_NODE_ID]), has a valid pruning
    seed and sent at most one message too early; it is not banned; and its connection is
    entered in the address book. For a connection we made the entry has the address we
    connected to as the reachable one. For one that came in it has either none or the host
    that connected with the port the peer gave, and then a ping to that address was
    answered with the peer's own id. *)
Theorem handshake_registers_peer strict hs (h : Hs Book) env addr dir our :
  AddressBookFacts.reachable strict hs (book h) -> (dir = Outbound -> exists a, addr = KnownAddr a) ->
  match handshake env addr dir our h with
  | (Ok d, h') =>
      agreed addr dir our d /\
      exists o, public_ok env addr dir (basic_node_data d) o /\ connected_peers (book h') !! addr = Some (entry_for o d) /\
        known_banned addr (book h') = false
  | (Err _, _) => True
  | (Panic, _) => False
  end.
Proof.
  intros Hb%AddressBookFacts.book_reached_inv Hd. pose proof (book_service_laws Hrng) as BL.
  pose proof (handshake_safe (BL := book_service_laws Hrng) env addr dir our Hd h (ex_intro _ strict (ex_intro _ hs Hb))) as Hs.
  destruct (handshake env addr dir our h) as [[d|e|] h']; [|done..]. destruct Hs as (_ & Hag & o & s0 & r & Ho & (st & hs0 & Hs0) & Hr & Hwf & Hx).
  split; [done|]. exists o. split; [done|]. unfold book_call, the_book, book_service in Hx. cbn [call] in Hx.
  destruct (AddressBookFacts.handle_new_connection_spec st hs0 s0 addr (entry_for o d) Hs0 Hwf Hr) as (r' & b' & Heq & Hok & _).
  rewrite Heq in Hx. destruct r' as [[]|e|]; [|done..]. injection Hx as _ <-. destruct Hok as (Hc & _ & Hk & Hban & _).
  rewrite Hc, lookup_insert_eq. split; [done|]. unfold known_banned, is_peer_banned in *. by rewrite Hban.
Qed.

(** The admin requests of a connected peer are answered with the response of their kind,
    never with more peers than a message may have, and without a panic; pings and requests
    for support flags never fail. *)
Theorem admin_requests_answered strict hs (h : Hs Book) env our cb protocol at_index m k :
  AddressBookFacts.reachable strict hs (book h) ->
  match (handle_peer_request env our cb protocol at_index (Q_Admin m) k).2 h with
  | (Ok r, _) => answers (Q_Admin m) r = true /\ (peers_sent r <= MAX_PEERS_IN_PEER_LIST_MESSAGE)%nat
  | (Err _, _) => m <> RQ_Ping /\ m <> RQ_SupportFlags
  | (Panic, _) => False
  end.
Proof.
  intros Hb%AddressBookFacts.book_reached_inv.
  pose proof (peer_request_safe (BL := book_service_laws Hrng) env our cb protocol at_index (Q_Admin m) k h (ex_intro _ strict (ex_intro _ hs Hb))) as Hs.
  destruct ((handle_peer_request env our cb protocol at_index (Q_Admin m) k).2 h) as [[r|e|] h'] eqn:Ex; [naive_solver| |done].
  split; intros ->; done.
Qed.
End with_rng.
End book.

(** ** Two nodes *)
Section two_nodes.
Context {Addr BanID : Type} `{Countable Addr, Countable BanID} {NZ : NetZoneAddress Addr BanID} {NL : NetZoneAddressLaws NZ}.
#[local] Abbreviation Book := (AddressBook (Addr := Addr) (BanID := BanID)).

(** An environment in which nothing fails. *)
Definition works (env : Env Addr) (sync : CoreSyncData) : Prop :=
  (forall n, send_error env n = None) /\ (forall n, core_sync env n = Some sync) /\ maker_ok env = true.

Definition p2p_seed (p : PruningSeed) : Prop := Pruning.wf p /\ forall s, p = Pruned s -> log_stripes s = 3.

(** The book takes a peer with this pruning seed in: it is neither connected nor banned, and
    no address of its host is in the white list with another seed. *)
Definition takes_in (i : InternalPeerID Addr) (seed : PruningSeed) (b : Book) : Prop :=
  connected_peers b !! i = None /\ known_banned i b = false /\
  forall a e, PeerList.im_get a (PeerList.peers (white_list b)) = Some e -> (exists a', i = KnownAddr a' /\ ban_id a' = ban_id a) -> PeerList.pruning_seed e = seed.

Lemma takes_in_connection rng strict hs i p (b : Book) :
  AddressBookFacts.book_inv strict hs b -> Pruning.wf (c_pruning_seed p) -> AddressBookFacts.reachable_host i p -> takes_in i (c_pruning_seed p) b ->
  exists b', book_service rng (NewConnection i p) b = (Ok Res_Ok, b') /\ connected_peers b' !! i = Some p.
Proof.
  intros Hb Hw Hr (Hc & Hk & Hs). destruct (AddressBookFacts.handle_new_connection_spec strict hs b i p Hb Hw Hr) as (r & b' & Hx & Hok & _).
  unfold book_service. cbn [call]. rewrite Hx. destruct r as [[]|[]|]; cbn in Hok; try done.
  - exists b'. split; [done|]. destruct Hok as [-> _]. apply lookup_insert_eq.
  - destruct Hok as [_ [? Hi]]. congruence.
  - destruct Hok as [_ (a & e & Ha & He & Hne)]. destruct Hne. apply (Hs a e He). destruct (Hr a Ha) as (a' & -> & Ea). by exists a'.
  - destruct Hok as [_ Hi]. congruence.
Qed.

Lemma takes_in_lists i seed (b : Book) g : takes_in i seed b -> takes_in i seed (set_lists (white_list b) g b).
Proof. done. Qed.

Lemma entry_roundtrip (e : PeerList.Entry Addr) : p2p_seed (PeerList.pruning_seed e) -> entry_of_base (entry_to_base e) = Ok e.
Proof.
  intros [Hw H3]. unfold entry_of_base, entry_to_base. cbn. rewrite network_roundtrip. cbn.
  rewrite p2p_seed_roundtrip by done. by destruct e.
Qed.

Lemma entries_roundtrip es : Forall (fun e : PeerList.Entry Addr => p2p_seed (PeerList.pruning_seed e)) es -> collect entry_of_base (map entry_to_base es) = Ok es.
Proof. induction 1 as [|e es He _ IH]; cbn; [done|]. rewrite entry_roundtrip by done. cbn. by rewrite IH. Qed.

Lemma ok_bind {S A B} (x : act (S := S) A) (f : A -> act B) h a h1 : x h = (Ok a, h1) -> (x ≫= f) h = f a h1.
Proof. intros Hx. unfold mbind, act_bind. by rewrite Hx. Qed.

Lemma send_works {S} env sync mes (h : Hs S) :
  works env sync -> send env mes h = (Ok (), mk_hs (stream h) (sink h ++ [mes]) (Datatypes.S (sends h)) (syncs h) (book h)).
Proof. intros (Hs & _ & _). unfold send. by rewrite Hs. Qed.

Lemma core_sync_works {S} env sync (h : Hs S) :
  works env sync -> get_core_sync env h = (Ok sync, mk_hs (stream h) (sink h) (sends h) (Datatypes.S (syncs h)) (book h)).
Proof. intros (_ & Hc & _). unfold get_core_sync. by rewrite Hc. Qed.

Lemma ask_book_works {S} {Bk : BookService Addr S} req (h : Hs S) r s' :
  book_call req (book h) = (Ok r, s') -> ask_book req h = (Ok r, mk_hs (stream h) (sink h) (sends h) (syncs h) s').
Proof. intros Hx. unfold ask_book. by rewrite Hx. Qed.

(** The rest of a handshake, after the data was exchanged. *)
Lemma handshake_completes {S} {Bk : BookService Addr S} env sync0 addr dir our (h : Hs S) sync peer eager h1 seed o h2 r s'
    (d := mk_connected addr (fresh_handle env) dir seed peer sync eager) :
  works env sync0 -> exchange env addr dir our h = (Ok (sync, peer, eager), h1) -> network_id peer = network_id our ->
  CHECK_NODE_ID && (peer_id peer =? peer_id our) = false -> decompress_p2p_rules (pruning_seed_u32 sync) = Ok seed ->
  check_out_addr env addr dir our peer h1 = (Ok o, h2) -> book_call (NewConnection addr (entry_for o d)) (book h2) = (Ok r, s') ->
  exists h', handshake env addr dir our h = (Ok d, h') /\ sink h' = sink h2 /\ book h' = s'.
Proof.
  intros (_ & _ & Hm) Hx Hn Hc Hs Ho Hr. unfold handshake. rewrite (ok_bind _ _ _ _ _ Hx), bool_decide_true, Hc by done. cbn [negb].
  rewrite Hs. cbn [map_err]. unfold fails at 1. erewrite ok_bind by done. rewrite (ok_bind _ _ _ _ _ Ho).
  erewrite ok_bind by (apply ask_book_works; exact Hr). rewrite Hm. eexists. split; [done|done].
Qed.

Lemma inbound_exchange {S} {Bk : BookService Addr S} env addr our (h : Hs S) node sync :
  stream h = [inr (M_Request (RQ_Handshake (mk_handshake_request node sync)))] ->
  exchange env addr Inbound our h = (Ok (sync, node, []), set_stream [] h).
Proof. intros Hs. unfold exchange. erewrite ok_bind; [|unfold wait_for_message; rewrite Hs; done]. done. Qed.

Lemma inbound_reply {S} {Bk : BookService Addr S} env sync addr our peer (h : Hs S) es s' :
  works env sync -> Bk (GetWhitePeers MAX_PEERS_IN_PEER_LIST_MESSAGE) (book h) = (Ok (Res_Peers es), s') ->
  exists o h', check_out_addr env addr Inbound our peer h = (Ok o, h') /\
    sink h' = sink h ++ [M_Response (RS_Handshake (mk_handshake_response our sync (map entry_to_base es)))] /\ book h' = s'.
Proof.
  intros Hw Hb. unfold check_out_addr. erewrite ok_bind.
  2:{ unfold send_hs_response. erewrite ok_bind by by apply core_sync_works. erewrite ok_bind by by apply ask_book_works. by apply (send_works _ sync). }
  eexists _, _. split; [done|done].
Qed.

Lemma outbound_exchange {S} {Bk : BookService Addr S} env sync0 addr our (h : Hs S) node sync es r s' :
  works env sync0 -> stream h = [inr (M_Response (RS_Handshake (mk_handshake_response node sync (map entry_to_base es))))] ->
  (length es <= MAX_PEERS_IN_PEER_LIST_MESSAGE)%nat -> Forall (fun e => p2p_seed (PeerList.pruning_seed e)) es ->
  book_call (IncomingPeerList addr es) (book h) = (Ok r, s') ->
  exists h', exchange env addr Outbound our h = (Ok (sync, node, []), h') /\
    sink h' = sink h ++ [M_Request (RQ_Handshake (mk_handshake_request our sync0))] /\ book h' = s'.
Proof.
  intros Hw Hs Hl Hes Hr. unfold exchange. erewrite ok_bind.
  2:{ unfold send_hs_request. erewrite ok_bind by by apply core_sync_works. by apply (send_works _ sync0). }
  erewrite ok_bind; [|unfold wait_for_message; cbn [stream]; rewrite Hs; done]. cbn [hr_local_peerlist_new].
  rewrite length_map. replace (_ <? _)%nat with false by (symmetry; by apply Nat.ltb_ge). rewrite entries_roundtrip by done.
  erewrite ok_bind by done. erewrite ok_bind by (apply ask_book_works; exact Hr).
  eexists. split; [done|done].
Qed.

Section books.
Context (rngA rngB : Rng (Addr := Addr)) (HrngA : AddressBookFacts.rng_ok rngA) (HrngB : AddressBookFacts.rng_ok rngB).
#[local] Abbreviation BkA := (book_service (BanID := BanID) rngA).
#[local] Abbreviation BkB := (book_service (BanID := BanID) rngB).

(** The node that is connected to. *)
Lemma inbound_shakes strict hs env sync addr our (h : Hs Book) node peer_sync seed (es := get_white_peers rngB MAX_PEERS_IN_PEER_LIST_MESSAGE (book h)) :
  AddressBookFacts.reachable strict hs (book h) -> works env sync -> network_id node = network_id our ->
  CHECK_NODE_ID && (peer_id node =? peer_id our) = false -> decompress_p2p_rules (pruning_seed_u32 peer_sync) = Ok seed ->
  takes_in addr seed (book h) -> stream h = [inr (M_Request (RQ_Handshake (mk_handshake_request node peer_sync)))] ->
  exists d h', handshake (Bk := BkB) env addr Inbound our h = (Ok d, h') /\
    sink h' = sink h ++ [M_Response (RS_Handshake (mk_handshake_response our sync (map entry_to_base es)))] /\
    basic_node_data d = node /\ core_sync_data d = peer_sync /\ pruning_seed d = seed /\ is_Some (connected_peers (book h') !! addr).
Proof using HrngB NL.
  intros Hb%AddressBookFacts.book_reached_inv Hw Hnet Hid Hseed Ht Hst. pose proof (p2p_seed_wf _ _ Hseed) as [Hwf _].
  pose proof (inbound_exchange (Bk := BkB) env addr our h node peer_sync Hst) as Hx.
  destruct (inbound_reply (Bk := BkB) env sync addr our node (set_stream [] h) es (book h) Hw eq_refl) as (o & h2 & Ho & Hk & Eb).
  pose proof (check_out_addr_safe (BL := book_service_laws rngB HrngB) env addr Inbound our node ltac:(done) (set_stream [] h) (ex_intro _ strict (ex_intro _ hs Hb))) as Hsafe.
  unfold the_book in Hsafe. rewrite Ho in Hsafe. destruct Hsafe as [_ Hpub]. set (d := mk_connected addr (fresh_handle env) Inbound seed node peer_sync []).
  destruct (takes_in_connection rngB strict hs addr (entry_for o d) (book h) Hb Hwf) as (s' & Hs' & Hc); [by eapply public_reachable|done|].
  rewrite <- Eb in Hs'.
  destruct (handshake_completes (Bk := BkB) env sync _ _ _ _ _ _ _ _ seed _ _ _ _ Hw Hx Hnet Hid Hseed Ho Hs') as (h' & Hh & Hk' & Eb').
  exists d, h'. split; [exact Hh|]. rewrite Hk', Hk, Eb', Hc. split_and!; try done; by eexists.
Qed.

(** The node that connects. *)
Lemma outbound_shakes strict hs env sync addr our (h : Hs Book) node peer_sync seed es :
  AddressBookFacts.reachable strict hs (book h) -> works env sync -> network_id node = network_id our ->
  CHECK_NODE_ID && (peer_id node =? peer_id our) = false -> decompress_p2p_rules (pruning_seed_u32 peer_sync) = Ok seed ->
  (length es <= MAX_PEERS_IN_PEER_LIST_MESSAGE)%nat -> Forall (fun e => p2p_seed (PeerList.pruning_seed e)) es ->
  takes_in (KnownAddr addr) seed (book h) ->
  stream h = [inr (M_Response (RS_Handshake (mk_handshake_response node peer_sync (map entry_to_base es))))] ->
  exists d h', handshake (Bk := BkA) env (KnownAddr addr) Outbound our h = (Ok d, h') /\
    sink h' = sink h ++ [M_Request (RQ_Handshake (mk_handshake_request our sync))] /\
    basic_node_data d = node /\ core_sync_data d = peer_sync /\ pruning_seed d = seed /\ is_Some (connected_peers (book h') !! KnownAddr addr).
Proof using HrngA NL.
  intros Hb%AddressBookFacts.book_reached_inv Hw Hnet Hid Hseed Hlen Hes Ht Hst. pose proof (p2p_seed_wf _ _ Hseed) as [Hwf _].
  destruct (AddressBookFacts.handle_incoming_spec (E := AddressBookError) strict hs (book h) es Hb) as (g & Hg & Hb1 & _).
  { eapply Forall_impl; [exact Hes|]. by intros e [? _]. }
  assert (BkA (IncomingPeerList (KnownAddr addr) es) (book h) = (Ok Res_Ok, set_lists (white_list (book h)) g (book h))) as Hin
    by (unfold book_service; cbn [call]; by rewrite Hg).
  destruct (outbound_exchange (Bk := BkA) env sync (KnownAddr addr) our h node peer_sync es _ _ Hw Hst Hlen Hes Hin) as (h1 & Hx & Hk & Eb).
  set (d := mk_connected (KnownAddr addr) (fresh_handle env) Outbound seed node peer_sync []).
  destruct (takes_in_connection rngA strict hs (KnownAddr addr) (entry_for (Some addr) d) (set_lists (white_list (book h)) g (book h)) Hb1 Hwf) as (s' & Hs' & Hc);
    [intros a [= <-]; by exists addr|done|]. rewrite <- Eb in Hs'.
  destruct (handshake_completes (Bk := BkA) env sync _ Outbound _ _ _ _ _ _ seed (Some addr) h1 _ _ Hw Hx Hnet Hid Hseed eq_refl Hs') as (h' & Hh & Hk' & Eb').
  exists d, h'. split; [exact Hh|]. rewrite Hk', Hk, Eb', Hc. split_and!; try done; by eexists.
Qed.

(** C21. Two nodes with their address books connect. If they are on one network, their ids
    differ where ids are compared, their services answer and sending works, neither book
    has the other node connected, banned or under another pruning seed, and the white list
    of the node that is connected to gives pruning seeds of the network, then both
    handshakes succeed: the one connected to reads the request, takes the peer in and
    answers with peers of its book; the other reads the answer, takes these peers and the
    node in. Each sends just the message the other one reads, learns the other's data and
    has the connection in its book. *)
Theorem nodes_shake_hands strictA strictB hsA hsB envA envB syncA syncB ourA ourB addrA addrB (hA hB : Hs Book) seedA seedB :
  AddressBookFacts.reachable strictA hsA (book hA) -> AddressBookFacts.reachable strictB hsB (book hB) ->
  works envA syncA -> works envB syncB ->
  network_id ourA = network_id ourB -> (CHECK_NODE_ID = true -> peer_id ourA <> peer_id ourB) ->
  decompress_p2p_rules (pruning_seed_u32 syncA) = Ok seedA -> decompress_p2p_rules (pruning_seed_u32 syncB) = Ok seedB ->
  takes_in addrA seedA (book hB) -> takes_in (KnownAddr addrB) seedB (book hA) ->
  let es := get_white_peers rngB MAX_PEERS_IN_PEER_LIST_MESSAGE (book hB) in
  let hello := M_Request (RQ_Handshake (mk_handshake_request ourA syncA)) in
  let reply := M_Response (RS_Handshake (mk_handshake_response ourB syncB (map entry_to_base es))) in
  Forall (fun e => p2p_seed (PeerList.pruning_seed e)) es -> stream hB = [inr hello] -> stream hA = [inr reply] ->
  exists dA dB hA' hB',
    handshake (Bk := BkB) envB addrA Inbound ourB hB = (Ok dB, hB') /\ sink hB' = sink hB ++ [reply] /\
    basic_node_data dB = ourA /\ core_sync_data dB = syncA /\ pruning_seed dB = seedA /\ is_Some (connected_peers (book hB') !! addrA) /\
    handshake (Bk := BkA) envA (KnownAddr addrB) Outbound ourA hA = (Ok dA, hA') /\ sink hA' = sink hA ++ [hello] /\
    basic_node_data dA = ourB /\ core_sync_data dA = syncB /\ pruning_seed dA = seedB /\ is_Some (connected_peers (book hA') !! KnownAddr addrB).
Proof using HrngA HrngB NL.
  intros HbA HbB HwA HwB Hnet Hid HseedA HseedB HtB HtA es hello reply Hes HstB HstA.
  assert (CHECK_NODE_ID && (peer_id ourA =? peer_id ourB) = false) as HidB by (destruct CHECK_NODE_ID; [apply Z.eqb_neq; auto|done]).
  assert (CHECK_NODE_ID && (peer_id ourB =? peer_id ourA) = false) as HidA by (rewrite Z.eqb_sym; done).
  assert (length es <= MAX_PEERS_IN_PEER_LIST_MESSAGE)%nat as Hlen.
  { pose proof (AddressBookFacts.book_reached_inv _ _ _ HbB) as Hi.
    exact (call_response_fits rngB strictB hsB (book hB) (GetWhitePeers MAX_PEERS_IN_PEER_LIST_MESSAGE) (Res_Peers es) (book hB) Hi HrngB eq_refl). }
  destruct (inbound_shakes _ _ _ _ _ _ _ _ _ _ HbB HwB Hnet HidB HseedA HtB HstB) as (dB & hB' & B1 & B2 & B3 & B4 & B5 & B6).
  destruct (outbound_shakes _ _ _ _ _ _ _ _ _ _ es HbA HwA (eq_sym Hnet) HidA HseedB Hlen Hes HtA HstA) as (dA & hA' & A1 & A2 & A3 & A4 & A5 & A6).
  exists dA, dB, hA', hB'. done.
Qed.
End books.
End two_nodes.

(** ** Runs *)
Module TestHandshake.
Import AddressBookFacts.
Definition us : BasicNodeData := mk_node_data 0 (repeat 0 16) 1 1 0 0.
Definition them : BasicNodeData := mk_node_data 18080 (repeat 0 16) 2 1 0 0.
Definition sync : CoreSyncData := mk_sync_data 1 0 1 0 (repeat 0 32) 1.
Definition pong : Message := M_Response (RS_Ping (mk_ping_response PING_OK_RESPONSE_STATUS_TEXT 2)).
Definition env : Env SocketAddr := mk_env (fun _ => None) (fun _ => Some sync) false (fun _ => Some (Some (None, [inr pong]))) true 7.
Definition hello : Message := M_Request (RQ_Handshake (mk_handshake_request them sync)).
Definition reply : Message := M_Response (RS_Handshake (mk_handshake_response them sync [])).
Definition begun (ms : list Message) : Hs (AddressBook (Addr := SocketAddr) (BanID := IpAddr)) := mk_hs (map inr ms) [] 0 0 TestBook.start.2.

#[local] Instance test_book : BookService SocketAddr (AddressBook (Addr := SocketAddr) (BanID := IpAddr)) := book_service TestBook.rng.

(** A peer connects from another port and is pinged at the port it listens on. *)
Definition inbound := handshake env (KnownAddr TestBook.outside1) Inbound us (begun [hello]).
Example inbound_sends : map message_command (sink inbound.2) = [C_Handshake].
Proof. reflexivity. Qed.

Lemma start_reachable : reachable true TestBook.start.1 TestBook.start.2.
Proof. by apply reach_start. Qed.

Lemma handshake_registers_peer_witness :
  exists d h', inbound = (Ok d, h') /\ agreed (KnownAddr TestBook.outside1) Inbound us d /\ known_banned (KnownAddr TestBook.outside1) (book h') = false.
Proof.
  pose proof (handshake_registers_peer TestBook.rng TestBook.rng_is_ok true TestBook.start.1 (begun [hello]) env (KnownAddr TestBook.outside1) Inbound us
    start_reachable ltac:(intros; discriminate)) as H.
  change (handshake env (KnownAddr TestBook.outside1) Inbound us (begun [hello])) with inbound in H.
  assert (TestBook.went_well inbound.1 = true) as Hok by (vm_compute; reflexivity).
  revert H Hok. generalize inbound. intros [[d|e|] h'] H Hok; [|discriminate Hok..].
  exists d, h'. destruct H as (H1 & o & _ & _ & H2). split; [reflexivity|]. split; [exact H1|exact H2].
Defined.

Definition no_protocol (r : ProtocolRequest) : option ProtocolResponse := None.

Lemma admin_requests_answered_witness :
  exists r h', (handle_peer_request env us false no_protocol (fun n => n) (Q_Admin RQ_Ping) (mk_known sync [])).2 (begun []) = (Ok r, h') /\
    answers (Q_Admin RQ_Ping) r = true.
Proof.
  pose proof (admin_requests_answered TestBook.rng TestBook.rng_is_ok true TestBook.start.1 (begun []) env us false no_protocol (fun n => n) RQ_Ping (mk_known sync [])
    start_reachable) as H. eexists _, _. split; [reflexivity|]. exact (proj1 H).
Defined.

(** Two nodes with empty books *)
Definition begun_with (m : Message) : Hs (AddressBook (Addr := SocketAddr) (BanID := IpAddr)) := mk_hs [inr m] [] 0 0 TestBook.start.2.
Definition answer : Message := M_Response (RS_Handshake (mk_handshake_response us sync [])).

Lemma start_takes_in i seed : takes_in i seed TestBook.start.2.
Proof. split; [apply lookup_empty|]. split; [by destruct i|]. intros a e Hx. discriminate Hx. Qed.

Lemma nodes_shake_hands_witness :
  exists dA dB hA' hB',
    handshake env (KnownAddr TestBook.outside1) Inbound us (begun_with hello) = (Ok dB, hB') /\
    handshake env (KnownAddr TestBook.home) Outbound them (begun_with answer) = (Ok dA, hA') /\
    basic_node_data dA = us /\ is_Some (connected_peers (book hA') !! KnownAddr TestBook.home).
Proof.
  destruct (nodes_shake_hands TestBook.rng TestBook.rng TestBook.rng_is_ok TestBook.rng_is_ok true true TestBook.start.1 TestBook.start.1 env env sync sync them us
    (KnownAddr TestBook.outside1) TestBook.home (begun_with answer) (begun_with hello) NotPruned NotPruned)
    as (dA & dB & hA' & hB' & H1 & _ & _ & _ & _ & _ & H2 & _ & H3 & _ & _ & H4).
  - apply start_reachable.
  - apply start_reachable.
  - repeat split.
  - repeat split.
  - reflexivity.
  - intros _ Hx. discriminate Hx.
  - reflexivity.
  - reflexivity.
  - apply start_takes_in.
  - apply start_takes_in.
  - constructor.
  - reflexivity.
  - reflexivity.
  - exists dA, dB, hA', hB'. split; [exact H1|]. split; [exact H2|]. split; [exact H3|exact H4].
Defined.
End TestHandshake.
End HandshakeFacts.
