(* ===== verification/AsyncBuffer.v ===== *)
(** * The weighted buffer ([src/p2p/async-buffer/src/lib.rs])

    One producer and one consumer share a queue, the remaining capacity in an atomic and a
    waker. The model is a step relation on the whole system: every access to a shared
    object is a step of its own, so every interleaving of [poll], [try_send] and
    [poll_next] is a run. The queue is [futures]' unbounded channel and the waker its
    [AtomicWaker]: [register] stores the task, [wake] takes it out and notifies it. The
    waker of the channel's receiving side is not modelled: a consumer with an empty queue
    has no step. *)
From S2P Require Import Prelude.
From Stdlib Require Import ZArith Lia Relations.
From stdpp Require Import base tactics option list numbers relations.

#[local] Open Scope Z_scope.
#[local] Open Scope usize_scope.

Module AsyncBuffer.

Inductive BufferError := NotEnoughCapacity | Disconnected.

Section async_buffer.
Context {T : Type}.

(** Where the producer stands: in [BufferSinkReady::poll] (the first load, the
    registration, the second load), waiting for its waker, or in [try_send] (the load, the
    subtraction, the send), or done with a call. *)
Inductive Producer :=
  | PIdle
  | PReady (item : T) (size_needed : Z)
  | PRegister (item : T) (size_needed : Z)
  | PRecheck (item : T) (size_needed : Z)
  | PPending (item : T) (size_needed : Z)
  | PLoad (item : T) (size_needed : Z)
  | PSub (item : T) (size_needed : Z)
  | PQueue (item : T) (size_needed prev_size : Z)
  | PDone (r : result BufferError ()).

(** Where the consumer stands in [poll_next]. *)
Inductive Consumer :=
  | CIdle
  | CPopped (item : T) (size : Z)
  | CAdded (item : T).

(** The shared objects, the two sides, and what was sent and received so far. [sink_waker]
    says whether a task is registered, [notified] whether the producer's task was woken
    since its last poll. *)
Record Buffer := mk_buffer {
  queue : list (T * Z);
  capacity : Z;
  max_item_weight : Z;
  sink_waker : bool;
  notified : bool;
  stream_dropped : bool;
  producer : Producer;
  consumer : Consumer;
  sent : list T;
  received : list T;
}.

Definition new_buffer (max_item_weight : Z) : Buffer :=
  mk_buffer [] max_item_weight max_item_weight false false false PIdle CIdle [] [].

Definition set_producer (p : Producer) (b : Buffer) : Buffer :=
  mk_buffer (queue b) (capacity b) (max_item_weight b) (sink_waker b) (notified b) (stream_dropped b) p (consumer b)
    (sent b) (received b).

(** The next step of the producer's current poll or [try_send]. *)
Definition producer_step (b : Buffer) : option Buffer :=
  match producer b with
  | PReady item n => Some (set_producer (if n <=? capacity b then PLoad item n else PRegister item n) b)
  | PRegister item n =>
      Some (mk_buffer (queue b) (capacity b) (max_item_weight b) true (notified b) (stream_dropped b) (PRecheck item n)
              (consumer b) (sent b) (received b))
  | PRecheck item n => Some (set_producer (if n <=? capacity b then PLoad item n else PPending item n) b)
  | PLoad item n =>
      let n := Z.min (max_item_weight b) n in
      Some (set_producer (if capacity b <? n then PDone (Err NotEnoughCapacity) else PSub item n) b)
  | PSub item n =>
      Some (mk_buffer (queue b) (capacity b -! n) (max_item_weight b) (sink_waker b) (notified b) (stream_dropped b)
              (PQueue item n (capacity b)) (consumer b) (sent b) (received b))
  | PQueue item n prev_size =>
      Some (if n <=? prev_size then
              if stream_dropped b then set_producer (PDone (Err Disconnected)) b
              else mk_buffer (queue b ++ [(item, n)]) (capacity b) (max_item_weight b) (sink_waker b) (notified b) false
                     (PDone (Ok ())) (consumer b) (sent b ++ [item]) (received b)
            else set_producer (PDone Panic) b)
  | PIdle | PPending _ _ | PDone _ => None
  end.

(** The next step of the consumer: [poll_next] takes an item, gives its weight back and
    wakes the producer. *)
Definition consumer_step (b : Buffer) : option Buffer :=
  match consumer b with
  | CIdle =>
      match queue b with
      | (item, size) :: queue =>
          Some (mk_buffer queue (capacity b) (max_item_weight b) (sink_waker b) (notified b) (stream_dropped b)
                  (producer b) (CPopped item size) (sent b) (received b))
      | [] => None
      end
  | CPopped item size =>
      Some (mk_buffer (queue b) (capacity b +! size) (max_item_weight b) (sink_waker b) (notified b) (stream_dropped b)
              (producer b) (CAdded item) (sent b) (received b))
  | CAdded item =>
      Some (mk_buffer (queue b) (capacity b) (max_item_weight b) false (notified b || sink_waker b) (stream_dropped b)
              (producer b) CIdle (sent b) (received b ++ [item]))
  end.

(** A call to [send]: [ready] caps the size, then the future is polled. *)
Definition send (item : T) (size_needed : Z) (b : Buffer) : Buffer :=
  mk_buffer (queue b) (capacity b) (max_item_weight b) (sink_waker b) false (stream_dropped b)
    (PReady item (Z.min (max_item_weight b) size_needed)) (consumer b) (sent b) (received b).

(** A call to [try_send]. *)
Definition try_send (item : T) (size_needed : Z) (b : Buffer) : Buffer := set_producer (PLoad item size_needed) b.

(** A waiting future is polled again. *)
Definition poll (item : T) (size_needed : Z) (b : Buffer) : Buffer :=
  mk_buffer (queue b) (capacity b) (max_item_weight b) (sink_waker b) false (stream_dropped b) (PReady item size_needed)
    (consumer b) (sent b) (received b).

(** [BufferStream] has no destructor of its own: only the channel learns of the drop. *)
Definition drop_stream (b : Buffer) : Buffer :=
  mk_buffer [] (capacity b) (max_item_weight b) (sink_waker b) (notified b) true (producer b) (consumer b) (sent b)
    (received b).

Definition no_call (b : Buffer) : bool := match producer b with PIdle | PDone _ => true | _ => false end.

(** ** Runs

    The appender is borrowed mutably by [send] and [try_send], so a call starts when no
    other one runs; a waiting future may be polled at any time, woken or not, and may be
    dropped. *)
Inductive step (b : Buffer) : Buffer -> Prop :=
  | step_send item n : no_call b = true -> is_u 64 n -> step b (send item n b)
  | step_try_send item n : no_call b = true -> is_u 64 n -> step b (try_send item n b)
  | step_poll item n : producer b = PPending item n -> step b (poll item n b)
  | step_cancel item n : producer b = PPending item n -> step b (set_producer PIdle b)
  | step_producer b' : producer_step b = Some b' -> step b b'
  | step_consumer b' : consumer_step b = Some b' -> step b b'
  | step_drop : consumer b = CIdle -> step b (drop_stream b).

(** A step of a run in which every call gives the item's own weight [own item]. The other
    steps start no call. *)
Inductive weighed_step (own : T -> Z) (b : Buffer) : Buffer -> Prop :=
  | weighed_send item : no_call b = true -> is_u 64 (own item) -> weighed_step own b (send item (own item) b)
  | weighed_try_send item : no_call b = true -> is_u 64 (own item) -> weighed_step own b (try_send item (own item) b)
  | weighed_rest b' : step b b' -> no_call b && negb (no_call b') = false -> weighed_step own b b'.

Definition run_consumer (n : nat) (b : Buffer) : Buffer := Nat.iter n (fun b => default b (consumer_step b)) b.
Definition run_producer (n : nat) (b : Buffer) : Buffer := Nat.iter n (fun b => default b (producer_step b)) b.
End async_buffer.
Arguments Buffer : clear implicits.
Arguments Producer : clear implicits.
Arguments Consumer : clear implicits.

(** ** The invariant *)
Section invariant.
Context {T : Type}.
Implicit Types b : Buffer T.

(** The weight the buffer counts for the items that are on their way, at most
    [max_item_weight] for each of them: in the queue, just taken by the
    consumer, or about to be queued by the producer. *)
Definition queued_weight b : Z := sumZ (map snd (queue b)).
Definition popped_weight b : Z := match consumer b with CPopped _ n => n | _ => 0 end.
Definition claimed_weight b : Z := match producer b with PQueue _ n _ => n | _ => 0 end.

(** The weight of the queued items themselves. *)
Definition own_weight (own : T -> Z) b : Z := sumZ (map (own ∘ fst) (queue b)).

(** The buffer holds an item that is heavier than the whole buffer, and besides it only
    items that weigh nothing. *)
Definition oversized (own : T -> Z) b : Prop :=
  exists before item n after, queue b = before ++ (item, n) :: after /\ max_item_weight b < own item /\
    Forall (fun x => own (fst x) = 0) (before ++ after).

(** The sizes of a run of [weighed_step]s are the items' own weights, capped. *)
Definition capped (own : T -> Z) (max : Z) (x : T * Z) : Prop := 0 <= own (fst x) /\ snd x = Z.min max (own (fst x)).
Definition weighed (own : T -> Z) b : Prop :=
  Forall (capped own (max_item_weight b)) (queue b) /\
  match producer b with
  | PReady item n | PRegister item n | PRecheck item n | PPending item n | PSub item n | PQueue item n _ =>
      capped own (max_item_weight b) (item, n)
  | PLoad item n => capped own (max_item_weight b) (item, Z.min (max_item_weight b) n)
  | PIdle | PDone _ => True
  end.

(** The items the consumer holds or will find. *)
Definition on_the_way b : list T :=
  match consumer b with CIdle => [] | CPopped x _ | CAdded x => [x] end ++ map fst (queue b).

Definition producer_ok b : Prop :=
  match producer b with
  | PReady _ n | PRegister _ n => 0 <= n <= max_item_weight b
  | PRecheck _ n => 0 <= n <= max_item_weight b /\ (sink_waker b = true \/ notified b = true)
  | PPending _ n => 0 <= n <= max_item_weight b /\
      (notified b = true \/ (sink_waker b = true /\ (capacity b < n \/ exists x, consumer b = CAdded x)))
  | PLoad _ n => 0 <= n
  | PSub _ n => 0 <= n <= max_item_weight b /\ n <= capacity b
  | PQueue _ n prev => 0 <= n <= max_item_weight b /\ n <= prev
  | PDone r => r <> Panic
  | PIdle => True
  end.

(** Weights are never lost while the stream lives; nothing exceeds the capacity. *)
Definition weights_ok b : Prop :=
  0 <= max_item_weight b /\ is_u 64 (max_item_weight b) /\ 0 <= capacity b /\ 0 <= popped_weight b /\
  Forall (fun x => 0 <= snd x) (queue b) /\
  (if stream_dropped b then capacity b + queued_weight b + popped_weight b + claimed_weight b <= max_item_weight b
   else capacity b + queued_weight b + popped_weight b + claimed_weight b = max_item_weight b).

Definition fifo_ok b : Prop :=
  if stream_dropped b then received b `prefix_of` sent b /\ queue b = [] /\ consumer b = CIdle
  else sent b = received b ++ on_the_way b.

Definition buffer_inv b : Prop := producer_ok b /\ weights_ok b /\ fifo_ok b.
End invariant.

Section facts.
Context {T : Type}.
Implicit Types b : Buffer T.

Lemma new_buffer_inv max : is_u 64 max -> buffer_inv (T := T) (new_buffer max).
Proof.
  intros Hm. split_and!; [done| |done].
  unfold weights_ok. cbn. unfold queued_weight, sumZ, popped_weight, claimed_weight. cbn. split_and!; try apply Hm; try done; try constructor; zlia.
Qed.

Lemma sumZ_snoc l x : sumZ (l ++ [x]) = sumZ l + x.
Proof. unfold sumZ. induction l as [|y l IH]; cbn in *; lia. Qed.

Lemma queued_weight_nonneg b : Forall (fun x => 0 <= snd x) (queue b) -> 0 <= queued_weight b.
Proof. intros H. apply sumZ_nonneg. by apply Forall_map. Qed.

Lemma capacity_le_max b :
  buffer_inv b -> 0 <= claimed_weight b /\ capacity b + queued_weight b + popped_weight b + claimed_weight b <= max_item_weight b.
Proof.
  intros (Hp & (? & ? & ? & ? & HF & Hw) & _).
  split; [unfold claimed_weight, producer_ok in *; destruct (producer b); lia|destruct (stream_dropped b); lia].
Qed.

#[local] Ltac open_buffer :=
  unfold buffer_inv, producer_ok, weights_ok, fifo_ok, on_the_way, queued_weight, popped_weight, claimed_weight in *;
  cbn [producer consumer queue capacity max_item_weight sink_waker notified stream_dropped sent received set_producer] in *.

Lemma producer_step_inv b b' : producer_step b = Some b' -> buffer_inv b -> buffer_inv b'.
Proof.
  unfold producer_step. intros Hs Hinv.
  pose proof (capacity_le_max b Hinv) as Hcap.
  pose proof (queued_weight_nonneg b) as Hq.
  destruct b as [q c m w nf d p co se re]. open_buffer. destruct Hinv as (Hp & (Hm & Hu & Hc & Hpop & HF & Hw) & Hf).
  specialize (Hq HF).
  destruct p as [|item n|item n|item n|item n|item n|item n|item n prev|r]; try done;
    [..|destruct (n <=? prev) eqn:E; bsimp; [destruct d|]]; injection Hs as <-; open_buffer.
  - destruct (n <=? c); split_and!; done || lia.
  - split_and!; try done; try lia. all: by left.
  - destruct (n <=? c) eqn:E; bsimp; split_and!; try done; try lia. destruct Hp as [_ [->| ->]]; [right|left]; split; auto.
  - destruct (c <? Z.min m n) eqn:E; bsimp; split_and!; try done; try lia.
  - rewrite wrap_small by zlia. split_and!; try done; try lia. destruct d; lia.
  - split_and!; try done; try lia; apply Hf.
  - rewrite !map_app. cbn [map fst snd]. rewrite sumZ_snoc. split_and!; try done; try lia.
    + apply Forall_app. split; [done|]. constructor; [cbn; lia|constructor].
    + subst se. rewrite <- !(assoc_L _). done.
  - lia.
Qed.

Lemma consumer_step_inv b b' : consumer_step b = Some b' -> buffer_inv b -> buffer_inv b'.
Proof.
  unfold consumer_step. intros Hs Hinv.
  pose proof (capacity_le_max b Hinv) as Hcap.
  pose proof (queued_weight_nonneg b) as Hq.
  destruct b as [q c m w nf d p co se re]. open_buffer. destruct Hinv as (Hp & (Hm & Hu & Hc & Hpop & HF & Hw) & Hf).
  specialize (Hq HF).
  destruct co as [|item n|item]; [destruct q as [|[item n] q]; [done|]|..]; injection Hs as <-; open_buffer.
  - destruct d; [destruct Hf as (_ & ? & _); done|]. apply List.Forall_cons_iff in HF as [Hn HF]. unfold sumZ in *. cbn in *.
    split_and!; try done; try lia.
    destruct p; try done. destruct Hp as [Hn2 [Hp|(Hp & [Hlt|(x & [=])])]]; eauto 6.
  - destruct d; [destruct Hf as (_ & _ & ?); done|].
    assert (0 <= match p with PQueue _ n _ => n | _ => 0 end) by (destruct p; lia).
    rewrite wrap_small by zlia. split_and!; try done; try lia.
    destruct p; try done; [|lia]. destruct Hp as [Hn2 [Hp|(Hp & _)]]; eauto 7.
  - destruct d; [destruct Hf as (_ & _ & ?); done|].
    split_and!; try done; [|subst se; by rewrite <- (assoc_L _)].
    destruct p; try done.
    + destruct Hp as [? [-> | ->]]; rewrite ?orb_true_r; auto.
    + destruct Hp as [? [-> |[-> _]]]; rewrite ?orb_true_r; auto.
Qed.

Lemma step_inv b b' : step b b' -> buffer_inv b -> buffer_inv b'.
Proof.
  destruct 1 as [item n Hno Hn|item n Hno Hn|item n Hp|item n Hp|b' Hs|b' Hs|Hc]; intros Hinv.
  - destruct b as [q c m w nf d p co se re]. unfold no_call in Hno. open_buffer. unfold send. open_buffer.
    destruct Hinv as (_ & Hw & Hf). split_and!; try apply Hw; try done; try (destruct p; done || apply Hw); zlia.
  - destruct b as [q c m w nf d p co se re]. unfold no_call in Hno. unfold try_send. open_buffer.
    destruct Hinv as (_ & Hw & Hf). split_and!; try apply Hw; try done; try (destruct p; done || apply Hw); zlia.
  - destruct b as [q c m w nf d p co se re]. unfold poll. open_buffer. subst p.
    destruct Hinv as ((Hn & _) & Hw & Hf). split_and!; try apply Hw; done || lia.
  - destruct b as [q c m w nf d p co se re]. open_buffer. subst p.
    destruct Hinv as ((Hn & _) & Hw & Hf). split_and!; try apply Hw; done || lia.
  - by eapply producer_step_inv.
  - by eapply consumer_step_inv.
  - pose proof (queued_weight_nonneg b) as Hq.
    destruct b as [q c m w nf d p co se re]. unfold drop_stream. open_buffer. subst co.
    destruct Hinv as (Hp & (Hm & Hu & Hc & Hpop & HF & Hw) & Hf). specialize (Hq HF).
    split_and!; try done; [change (sumZ (map snd [])) with 0; destruct d; lia|].
    destruct d; [apply Hf|]. rewrite Hf. by eexists.
Qed.

Lemma steps_inv b b' : rtc step b b' -> buffer_inv b -> buffer_inv b'.
Proof. induction 1; eauto using step_inv. Qed.

(** Running the consumer alone empties the queue. *)
Lemma run_consumer_S k b : run_consumer (S k) b = run_consumer k (default b (consumer_step b)).
Proof. unfold run_consumer. by rewrite Nat.iter_succ_r. Qed.

Definition consumer_steps b : nat :=
  3 * length (queue b) + match consumer b with CIdle => 0 | CPopped _ _ => 2 | CAdded _ => 1 end.

Lemma run_consumer_empties b :
  let b' := run_consumer (consumer_steps b) b in
  queue b' = [] /\ consumer b' = CIdle /\ producer b' = producer b /\ rtc step b b' /\
  max_item_weight b' = max_item_weight b /\ stream_dropped b' = stream_dropped b.
Proof.
  remember (consumer_steps b) as k eqn:Ek. revert b Ek. induction k as [|k IH]; intros b Ek; cbn zeta.
  { unfold consumer_steps in Ek. destruct b as [q c m w nf d p co se re]; cbn in *.
    destruct q; cbn in *; [|lia]. destruct co; [|lia..]. split_and!; done || reflexivity. }
  rewrite run_consumer_S.
  assert (exists b1, consumer_step b = Some b1 /\ consumer_steps b1 = k /\ producer b1 = producer b /\
    max_item_weight b1 = max_item_weight b /\ stream_dropped b1 = stream_dropped b) as (b1 & Hs & Hk & Hp & Hm & Hd).
  { unfold consumer_steps, consumer_step in *. destruct b as [q c m w nf d p co se re]; cbn in *.
    destruct co as [|x n|x]; [destruct q as [|[x n] q]; cbn in *; [lia|]|..]; eexists;
      (split_and!; [done|cbn; lia|done..]). }
  rewrite Hs. change (default b (Some b1)) with b1. destruct (IH b1 (eq_sym Hk)) as (? & ? & ? & ? & ? & ?).
  split_and!; try congruence. eapply rtc_l; [|done]. by apply step_consumer.
Qed.

Lemma run_producer_steps k b : rtc step b (run_producer k b).
Proof.
  unfold run_producer. induction k as [|k IH]; [reflexivity|]. cbn. etrans; [exact IH|].
  destruct (producer_step _) as [b'|] eqn:E; [|reflexivity]. apply rtc_once. by apply step_producer.
Qed.

Lemma steps_max_item_weight b b' : rtc step b b' -> max_item_weight b' = max_item_weight b.
Proof.
  induction 1 as [|b b1 b' Hs _ IH]; [done|]. rewrite IH. clear -Hs.
  destruct Hs as [| | | |b' Hs|b' Hs|]; try done; unfold producer_step, consumer_step in Hs;
    repeat case_match; simplify_eq/=; done.
Qed.

(** With enough capacity, four steps send the item. *)
Lemma producer_sends item n b :
  stream_dropped b = false -> n <= max_item_weight b -> n <= capacity b ->
  producer (run_producer 4 (poll item n b)) = PDone (Ok ()) /\ sent (run_producer 4 (poll item n b)) = sent b ++ [item].
Proof.
  intros Hd Hm Hc. destruct b as [q c m w nf d p co se re]. open_buffer. subst d. unfold run_producer, poll. cbn.
  destruct (n <=? c) eqn:E1; bsimp; [|lia]. cbn. rewrite Z.min_r by lia.
  destruct (c <? n) eqn:E2; bsimp; [lia|]. cbn. destruct (n <=? c) eqn:E3; bsimp; [done|lia].
Qed.

Lemma weighed_step_step own b b' : weighed_step own b b' -> step b b'.
Proof. by destruct 1; [apply step_send|apply step_try_send|]. Qed.

Lemma weighed_step_ok own b b' : weighed_step own b b' -> weighed own b -> weighed own b'.
Proof.
  unfold weighed, capped. intros Hs [Hq Hp]. destruct Hs as [item Hno Hn|item Hno Hn|b' Hs Hno].
  - split; [done|]. cbn. zlia.
  - split; [done|]. cbn. zlia.
  - destruct Hs as [item n H0 Hn|item n H0 Hn|item n Hpe|item n Hpe|b' Hs|b' Hs|Hc]; try (rewrite H0 in Hno; done).
    + split; [done|]. cbn. by rewrite Hpe in Hp.
    + done.
    + clear Hno. unfold producer_step in Hs. destruct b as [q c m w nf d p co se re]. open_buffer. destruct p; try done; injection Hs as <-; try done.
      * destruct (_ <=? c); (split; [done|]); open_buffer; cbn [fst snd] in *; lia.
      * destruct (_ <=? c); (split; [done|]); open_buffer; cbn [fst snd] in *; lia.
      * by destruct (c <? _).
      * destruct (_ <=? _); [|done]. destruct d; [done|]. split; [|done]. apply Forall_app. by split; [|constructor].
    + clear Hno. unfold consumer_step in Hs. destruct b as [q c m w nf d p co se re]. open_buffer.
      destruct co as [|x n|x]; [destruct q as [|[x n] q]; [done|]; apply List.Forall_cons_iff in Hq as [_ Hq]|..]; injection Hs as <-; done.
    + split; [apply Forall_nil; done|done].
Qed.

Lemma weighed_steps own b b' : rtc (weighed_step own) b b' -> weighed own b -> rtc step b b' /\ weighed own b'.
Proof. induction 1 as [|b b1 b' Hs _ IH]; intros Hw; [by split|]. destruct IH as [? ?]; [by eapply weighed_step_ok|]. split; [|done]. eapply rtc_l; [by eapply weighed_step_step|done]. Qed.

(** Capped weights within the maximum: the weights themselves are within it, or one is
    above it and the others are nothing. *)
Lemma capped_sum own max (q : list (T * Z)) :
  0 < max -> Forall (capped own max) q -> sumZ (map snd q) <= max ->
  sumZ (map (own ∘ fst) q) = sumZ (map snd q) \/
  exists before item n after, q = before ++ (item, n) :: after /\ max < own item /\ Forall (fun x => own (fst x) = 0) (before ++ after).
Proof.
  intros Hmax. assert (Hnil : forall q, Forall (capped own max) q -> 0 <= sumZ (map snd q) /\ (sumZ (map snd q) <= 0 -> Forall (fun x => own (fst x) = 0) q)).
  { induction 1 as [|[x n] l [H1 H2] _ [IH1 IH2]]; [done|]. cbn [map snd fst sumZ foldr] in *. fold (sumZ (map snd l)) in *.
    split; [lia|]. intros Hs. constructor; [cbn; lia|apply IH2; lia]. }
  induction 1 as [|[x n] l [H1 H2] Hl IH]; [by left|]. cbn [map snd fst sumZ foldr compose] in *.
  fold (sumZ (map snd l)) in *. fold (sumZ (map (own ∘ fst) l)) in *. intros Hs. destruct (Hnil l Hl) as [Hl0 Hz].
  destruct (decide (own x <= max)) as [Hx|Hx].
  - destruct IH as [IH|(bf & y & k & af & -> & Hy & Hr)]; [lia|left; lia|]. right. exists ((x, n) :: bf), y, k, af. split; [done|]. split; [done|].
    apply Forall_cons. split; [|done]. cbn. rewrite map_app in Hs. cbn [map snd] in Hs. apply Forall_app in Hl as [Hl1 Hl2].
    apply List.Forall_cons_iff in Hl2 as [[_ Hk] Hl2]. cbn in Hk. destruct (Hnil _ Hl1), (Hnil _ Hl2).
    assert (Happ : forall l1 l2, sumZ (l1 ++ l2) = sumZ l1 + sumZ l2) by (unfold sumZ; induction l1; intros; cbn in *; [done|rewrite IHl1; lia]).
    rewrite Happ in Hs. cbn [sumZ foldr] in Hs. fold (sumZ (map snd af)) in Hs. lia.
  - right. exists [], x, n, l. split; [done|]. split; [lia|]. apply Hz. lia.
Qed.

(** C35. The buffer is a bounded first-in first-out channel: in every run the items received
    and the items on their way are, in order, the items sent; the capacity and the weight
    counted for the queue add up to at most the weight the buffer was made for, the
    capacity never wraps around and the [assert!] in [try_send] never fails. What is counted
    for an item is its weight, at most the whole capacity; so, for a buffer made for some
    weight, the queued items together weigh at most this, or the queue has one item heavier
    than the whole buffer and besides it only items of no weight. *)
Theorem buffer_is_fifo_and_bounded own max b :
  is_u 64 max -> rtc (weighed_step own) (new_buffer max) b ->
  0 <= capacity b /\ 0 <= queued_weight b /\ capacity b + queued_weight b <= max /\ producer b <> PDone Panic /\
  (0 < max -> own_weight own b <= max \/ oversized own b) /\
  received b `prefix_of` sent b /\ (stream_dropped b = false -> sent b = received b ++ on_the_way b).
Proof.
  intros Hm Hr. apply weighed_steps in Hr as [Hr Hq]; [|by split]. pose proof (steps_inv _ _ Hr (new_buffer_inv max Hm)) as Hinv.
  pose proof (capacity_le_max _ Hinv) as Hcap. destruct Hinv as (Hp & Hw & Hf).
  apply steps_max_item_weight in Hr. cbn in Hr.
  destruct Hw as (? & ? & ? & ? & HF & _). apply queued_weight_nonneg in HF.
  split_and!; try lia.
  - intros E. unfold producer_ok in Hp. by rewrite E in Hp.
  - intros Hpos. destruct Hq as [Hq _]. rewrite Hr in Hq. unfold queued_weight, own_weight, oversized in *.
    destruct (capped_sum own max (queue b) Hpos Hq ltac:(lia)) as [->|H']; [left; lia|right; by rewrite Hr].
  - unfold fifo_ok in Hf. destruct (stream_dropped b); [apply Hf|]. rewrite Hf. by eexists.
  - intros Hd. unfold fifo_ok in Hf. by rewrite Hd in Hf.
Qed.

(** C36. No wake-up is lost: when the producer waits and the stream lives, letting the consumer
    drain the queue wakes the producer's task, and the poll that follows finds the capacity
    and sends the item, whatever its weight. *)
Theorem waiting_producer_is_woken max b item n :
  is_u 64 max -> rtc step (new_buffer max) b -> producer b = PPending item n -> stream_dropped b = false ->
  let b' := run_consumer (consumer_steps b) b in
  notified b' = true /\ received b' = sent b' /\
  producer (run_producer 4 (poll item n b')) = PDone (Ok ()) /\
  sent (run_producer 4 (poll item n b')) = sent b' ++ [item].
Proof.
  intros Hm Hr Hpend Hd b'. destruct (run_consumer_empties b) as (Hq & Hc & Hp & Hr' & Hmax & Hd').
  fold b' in Hq, Hc, Hp, Hr', Hmax, Hd'.
  assert (buffer_inv b') as (Hpok & Hw & Hf).
  { eapply steps_inv; [exact Hr'|]. eapply steps_inv; [exact Hr|]. by apply new_buffer_inv. }
  rewrite Hpend in Hp. rewrite Hd in Hd'. unfold producer_ok, fifo_ok, on_the_way in *. rewrite Hp in Hpok.
  rewrite Hc, Hq, Hd' in *. destruct Hpok as (Hn & Hwake). cbn in Hf. rewrite app_nil_r in Hf.
  destruct Hw as (_ & _ & _ & _ & _ & Hsum). unfold queued_weight, popped_weight, claimed_weight in Hsum.
  rewrite Hc, Hq, Hp, Hd' in Hsum. change (sumZ _) with 0 in Hsum.
  split_and!; [|done|apply producer_sends; lia || done..].
  destruct Hwake as [?|(_ & [?|(x & [=])])]; [done|lia].
Qed.

(** A send that waits for [n] with the stream gone and the capacity short of it. *)
Definition hung (item : T) (n : Z) b : Prop :=
  (producer b = PPending item n \/ producer b = PReady item n \/ producer b = PRegister item n \/ producer b = PRecheck item n) /\
  stream_dropped b = true /\ consumer b = CIdle /\ queue b = [] /\ capacity b < n.

Lemma hung_step item n b b' : step b b' -> producer b' <> PIdle -> hung item n b -> hung item n b'.
Proof.
  intros Hs Hni (Hp & Hd & Hc & Hq & Hn). destruct b as [q c m w nf d p co se re]. open_buffer. subst q co d.
  destruct Hs as [x k Hno Hk|x k Hno Hk|x k Hx|x k Hx|b' Hs|b' Hs|Hc]; unfold hung;
    unfold no_call, producer_step, consumer_step in *; cbn in *.
  - by destruct Hp as [-> |[-> |[-> | ->]]].
  - by destruct Hp as [-> |[-> |[-> | ->]]].
  - destruct Hp as [-> |[-> |[-> | ->]]]; simplify_eq. auto 10.
  - done.
  - destruct Hp as [-> |[-> |[-> | ->]]]; simplify_eq/=; try (destruct (n <=? c) eqn:E; bsimp; [lia|]); auto 10.
  - done.
  - auto 10.
Qed.

(** A producer that waits for capacity when the stream is dropped waits for ever: however
    often its future is polled again it never completes, in particular not with
    [Disconnected], unless it is dropped too. *)
Theorem send_hangs_after_drop b b' item n :
  producer b = PPending item n -> consumer b = CIdle -> capacity b < n ->
  rtc (fun b1 b2 => step b1 b2 /\ producer b2 <> PIdle) (drop_stream b) b' ->
  no_call b' = false /\ capacity b' < n /\ consumer_step b' = None.
Proof.
  intros Hp Hc Hn Hr. assert (hung item n b') as (Hb' & _ & Hc' & Hq' & Hn').
  { assert (hung item n (drop_stream b)) as Hh by (unfold hung, drop_stream; cbn; auto 10).
    induction Hr as [|b1 b2 b3 [Hs Hni] _ IH]; eauto using hung_step. }
  split_and!; [|done|unfold consumer_step; by rewrite Hc', Hq'].
  unfold no_call. by destruct Hb' as [-> |[-> |[-> | ->]]].
Qed.
End facts.

(** ** Concrete runs: a buffer of weight ten, a first item of weight six, then one of eight. *)
Module TestBuffer.
Definition waiting : Buffer nat := run_producer 3 (send 2%nat 8 (run_producer 4 (send 1%nat 6 (new_buffer 10)))).

Lemma waiting_reached : rtc step (new_buffer 10) waiting.
Proof.
  eapply rtc_l; [by apply (step_send _ 1%nat 6)|]. etrans; [apply (run_producer_steps 4)|].
  eapply rtc_l; [by apply (step_send _ 2%nat 8)|]. apply run_producer_steps.
Qed.

(** An item heavier than the buffer in an empty buffer; the items weigh what they are. *)
Definition heavy : Buffer nat := run_producer 4 (send 12%nat 12 (new_buffer 10)).
Lemma heavy_reached : rtc (weighed_step Z.of_nat) (new_buffer 10) heavy.
Proof.
  eapply rtc_l; [by apply (weighed_send _ _ 12%nat)|]. do 4 (eapply rtc_l; [apply weighed_rest; [by apply step_producer|done]|]). reflexivity.
Qed.
End TestBuffer.
Import TestBuffer.

Lemma buffer_is_fifo_and_bounded_witness :
  queue heavy = [(12%nat, 10)] /\ (own_weight Z.of_nat heavy <= 10 \/ oversized Z.of_nat heavy) /\ sent heavy = received heavy ++ on_the_way heavy.
Proof.
  destruct (buffer_is_fifo_and_bounded Z.of_nat 10 heavy ltac:(done) heavy_reached) as (_ & _ & _ & _ & Hw & _ & Hs).
  split; [done|]. split; [apply Hw; done|by apply Hs].
Defined.

Lemma waiting_producer_is_woken_witness :
  producer waiting = PPending 2%nat 8 /\ sent (run_producer 4 (poll 2%nat 8 (run_consumer 3 waiting))) = [1%nat; 2%nat].
Proof.
  split; [done|]. exact (proj2 (proj2 (proj2 (waiting_producer_is_woken 10 waiting 2%nat 8 ltac:(done) waiting_reached eq_refl eq_refl)))).
Defined.

Lemma send_hangs_after_drop_witness :
  let b' := run_producer 3 (poll 2%nat 8 (drop_stream waiting)) in
  producer b' = PPending 2%nat 8 /\ no_call b' = false.
Proof.
  split; [done|]. apply (send_hangs_after_drop waiting _ 2%nat 8); [done..|].
  eapply rtc_l; [split; [by apply step_poll|done]|]. do 3 (eapply rtc_l; [split; [by apply step_producer|done]|]). reflexivity.
Defined.

End AsyncBuffer.
