(* ===== verification/HardForks.v ===== *)
(** * Hard forks ([src/types/types/src/hard_fork.rs],
    [src/consensus/rules/src/hard_forks.rs])

    The hard-fork identifiers, the activation tables of the networks, the window of
    votes and the rule that activates a fork. *)
From S2P Require Import Prelude Bytes.
From Stdlib Require Import ZArith Lia.
From stdpp Require Import base tactics option list numbers sets.

#[local] Open Scope Z_scope.
#[local] Open Scope usize_scope.

Module HardForks.

(** ** [HardFork] *)
Inductive HardForkError := HardForkUnknown | VersionIncorrect | VoteTooLow.

Inductive HardFork :=
  | V1 | V2 | V3 | V4 | V5 | V6 | V7 | V8 | V9 | V10 | V11 | V12 | V13 | V14 | V15 | V16.

#[export] Instance HardFork_eq_dec : EqDecision HardFork.
Proof. solve_decision. Defined.

Definition VARIANTS : list HardFork :=
  [V1; V2; V3; V4; V5; V6; V7; V8; V9; V10; V11; V12; V13; V14; V15; V16].
Definition LATEST : HardFork := V16.

Definition as_u8 (hf : HardFork) : Z :=
  match hf with
  | V1 => 1 | V2 => 2 | V3 => 3 | V4 => 4 | V5 => 5 | V6 => 6 | V7 => 7 | V8 => 8
  | V9 => 9 | V10 => 10 | V11 => 11 | V12 => 12 | V13 => 13 | V14 => 14 | V15 => 15 | V16 => 16
  end.

(** [FromRepr] of [strum]: the variant with the discriminant. *)
Definition from_repr (u : Z) : option HardFork :=
  if u <? 1 then None else VARIANTS !! Z.to_nat (u - 1).

(** The derived [Ord]: the order of the discriminants. *)
Definition hf_lt (a b : HardFork) : bool := as_u8 a <? as_u8 b.
Definition hf_le (a b : HardFork) : bool := as_u8 a <=? as_u8 b.

Definition from_version (version : Z) : result HardForkError HardFork :=
  match from_repr version with Some this => Ok this | None => Err HardForkUnknown end.

Definition from_vote (vote : Z) : HardFork :=
  if vote =? 0 then V1
  else match from_version vote with Ok hf => hf | _ => LATEST end.

(** A block header's [hardfork_version] and [hardfork_signal]. *)
Definition from_block_header (hardfork_version hardfork_signal : Z)
    : result HardForkError (HardFork * HardFork) :=
  version ← from_version hardfork_version;
  Ok (version, from_vote hardfork_signal).

Definition next_fork (hf : HardFork) : option HardFork :=
  match from_version (as_u8 hf + 1) with Ok hf => Some hf | _ => None end.

(** Seconds *)
Definition BLOCK_TIME_V1 : Z := 60.
Definition BLOCK_TIME_V2 : Z := 120.
Definition block_time (hf : HardFork) : Z :=
  match hf with V1 => BLOCK_TIME_V1 | _ => BLOCK_TIME_V2 end.

Definition is_latest (hf : HardFork) : bool := bool_decide (hf = LATEST).

(** ** Versions and votes of blocks *)
Definition NUMB_OF_HARD_FORKS : nat := 16.

Definition check_block_version_vote (hf version vote : HardFork) : result HardForkError () :=
  if negb (bool_decide (hf = version)) then Err VersionIncorrect
  else if hf_lt vote hf then Err VoteTooLow
  else Ok ().

(** ** Activation tables *)
Record HFInfo := HFInfo_new { hf_height : Z; hf_threshold : Z }.

(** An array of [NUMB_OF_HARD_FORKS] elements. *)
Abbreviation HFsInfo := (list HFInfo).

(** The index of a fork in the arrays, [*hf as usize - 1], which is always below 16. *)
Definition hf_idx (hf : HardFork) : nat := Z.to_nat (as_u8 hf - 1).

Definition info_for_hf (info : HFsInfo) (hf : HardFork) : HFInfo :=
  nth (hf_idx hf) info (HFInfo_new 0 0).

Definition main_net : HFsInfo :=
  [ HFInfo_new 0 0; HFInfo_new 1009827 0; HFInfo_new 1141317 0; HFInfo_new 1220516 0;
    HFInfo_new 1288616 0; HFInfo_new 1400000 0; HFInfo_new 1546000 0; HFInfo_new 1685555 0;
    HFInfo_new 1686275 0; HFInfo_new 1788000 0; HFInfo_new 1788720 0; HFInfo_new 1978433 0;
    HFInfo_new 2210000 0; HFInfo_new 2210720 0; HFInfo_new 2688888 0; HFInfo_new 2689608 0 ].

Definition test_net : HFsInfo :=
  [ HFInfo_new 0 0; HFInfo_new 624634 0; HFInfo_new 800500 0; HFInfo_new 801219 0;
    HFInfo_new 802660 0; HFInfo_new 971400 0; HFInfo_new 1057027 0; HFInfo_new 1057058 0;
    HFInfo_new 1057778 0; HFInfo_new 1154318 0; HFInfo_new 1155038 0; HFInfo_new 1308737 0;
    HFInfo_new 1543939 0; HFInfo_new 1544659 0; HFInfo_new 1982800 0; HFInfo_new 1983520 0 ].

Definition stage_net : HFsInfo :=
  [ HFInfo_new 0 0; HFInfo_new 32000 0; HFInfo_new 33000 0; HFInfo_new 34000 0;
    HFInfo_new 35000 0; HFInfo_new 36000 0; HFInfo_new 37000 0; HFInfo_new 176456 0;
    HFInfo_new 177176 0; HFInfo_new 269000 0; HFInfo_new 269720 0; HFInfo_new 454721 0;
    HFInfo_new 675405 0; HFInfo_new 676125 0; HFInfo_new 1151000 0; HFInfo_new 1151720 0 ].

(** ** The vote window *)
Record HFVotes := mk_votes {
  votes : list Z;           (** [[usize; NUMB_OF_HARD_FORKS]] *)
  vote_list : list HardFork;
  window_size : Z;
}.

Definition HFVotes_new (window_size : Z) : HFVotes :=
  mk_votes (repeat 0 NUMB_OF_HARD_FORKS) [] window_size.

(** [votes[hf as usize - 1] += 1] and [-= 1] *)
Definition vote_incr (hf : HardFork) (vs : list Z) : list Z := alter (fun n => n +! 1) (hf_idx hf) vs.
Definition vote_decr (hf : HardFork) (vs : list Z) : list Z := alter (fun n => n -! 1) (hf_idx hf) vs.

Definition add_vote_for_hf (v : HFVotes) (hf : HardFork) : HFVotes :=
  let vl := vote_list v ++ [hf] in
  let vs := vote_incr hf (votes v) in
  if window_size v <? len vl then
    match vl with
    | [] => mk_votes vs vl (window_size v)
    | hf :: vl => mk_votes (vote_decr hf vs) vl (window_size v)
    end
  else mk_votes vs vl (window_size v).

Definition reverse_blocks (v : HFVotes) (numb_blocks : Z) (old_block_votes : HFVotes)
    : result () HFVotes :=
  _ ← rassert (len (vote_list old_block_votes) <=? numb_blocks);
  let start := len (vote_list v) -! numb_blocks in
  (* the range of [drain] *)
  _ ← rassert (start <=? len (vote_list v));
  let drained := drop (Z.to_nat start) (vote_list v) in
  let vl := take (Z.to_nat start) (vote_list v) in
  let vs := foldl (fun vs hf => vote_decr hf vs) (votes v) drained in
  let '(vl, vs) :=
    foldl (fun '(vl, vs) old_vote => (old_vote :: vl, vote_incr old_vote vs)) (vl, vs)
      (rev (vote_list old_block_votes)) in
  Ok (mk_votes vs vl (window_size v)).

Definition votes_for_hf (v : HFVotes) (hf : HardFork) : Z :=
  foldl (fun a n => a +! n) 0 (drop (hf_idx hf) (votes v)).

Definition total_votes (v : HFVotes) : Z := len (vote_list v).

Definition votes_needed (threshold window : Z) : Z := div_ceil (threshold *! window) 100.

(** The condition of the loop of [current_fork] on the next fork. *)
Definition activates (v : HFVotes) (current_height window : Z) (hfs_info : HFsInfo)
    (next_hf : HardFork) : bool :=
  let hf_info := info_for_hf hfs_info next_hf in
  (hf_height hf_info <=? current_height)
  && (votes_needed (hf_threshold hf_info) window <=? votes_for_hf v next_hf).

(** The loop has a round per fork: 16 rounds are enough. *)
Fixpoint current_fork_n (n : nat) (v : HFVotes) (current_hf : HardFork)
    (current_height window : Z) (hfs_info : HFsInfo) : HardFork :=
  match n with
  | O => current_hf
  | S n =>
      match next_fork current_hf with
      | Some next_hf =>
          if activates v current_height window hfs_info next_hf
          then current_fork_n n v next_hf current_height window hfs_info
          else current_hf
      | None => current_hf
      end
  end.

Definition current_fork (v : HFVotes) (current_hf : HardFork) (current_height window : Z)
    (hfs_info : HFsInfo) : HardFork :=
  current_fork_n NUMB_OF_HARD_FORKS v current_hf current_height window hfs_info.

(** ** Facts on forks *)
Lemma from_repr_as_u8 hf : from_repr (as_u8 hf) = Some hf.
Proof. by destruct hf. Qed.

Lemma as_u8_range hf : 1 <= as_u8 hf <= 16.
Proof. destruct hf; cbn; lia. Qed.

Lemma as_u8_inj a b : as_u8 a = as_u8 b -> a = b.
Proof.
  intros H. pose proof (from_repr_as_u8 a) as Ha. rewrite H, from_repr_as_u8 in Ha. congruence.
Qed.

Lemma from_repr_inv u hf : from_repr u = Some hf -> as_u8 hf = u.
Proof.
  unfold from_repr. destruct (u <? 1) eqn:E; [done|]. bsimp. intros H.
  pose proof (lookup_lt_Some _ _ _ H) as Hl. cbn in Hl.
  assert (u = 1 \/ u = 2 \/ u = 3 \/ u = 4 \/ u = 5 \/ u = 6 \/ u = 7 \/ u = 8 \/ u = 9 \/ u = 10
    \/ u = 11 \/ u = 12 \/ u = 13 \/ u = 14 \/ u = 15 \/ u = 16) as Hu by lia.
  repeat (destruct Hu as [->|Hu]; [by injection H as <-|]). subst u. by injection H as <-.
Qed.

Lemma from_repr_some u : 1 <= u <= 16 -> from_repr u <> None.
Proof.
  intros H. unfold from_repr. rewrite (proj2 (Z.ltb_ge _ _)) by lia.
  apply not_eq_None_Some, lookup_lt_is_Some. cbn. lia.
Qed.

Lemma next_fork_succ a b : next_fork a = Some b <-> as_u8 b = as_u8 a + 1.
Proof.
  unfold next_fork, from_version. split.
  - destruct (from_repr _) as [hf|] eqn:E; [|done]. intros [= <-]. by apply from_repr_inv.
  - intros H. by rewrite <- H, from_repr_as_u8.
Qed.

Lemma next_exists a b : as_u8 a < as_u8 b -> exists f, as_u8 f = as_u8 a + 1.
Proof.
  intros H. destruct (next_fork a) as [f|] eqn:E; [exists f; by apply next_fork_succ|]. exfalso.
  unfold next_fork, from_version in E. pose proof (as_u8_range b).
  destruct a; cbn in *; done || lia.
Qed.

Lemma next_fork_None a : next_fork a = None <-> a = V16.
Proof. destruct a; cbn; split; done. Qed.

(** ** The votes array counts the window *)
Definition count (hf : HardFork) (l : list HardFork) : Z := len (filter (fun x => x = hf) l).

Definition counted (vs : list Z) (l : list HardFork) : Prop :=
  length vs = NUMB_OF_HARD_FORKS /\ forall hf, vs !! hf_idx hf = Some (count hf l).

(** What the source maintains of [HFVotes]. *)
Definition votes_inv (v : HFVotes) : Prop :=
  counted (votes v) (vote_list v) /\ len (vote_list v) <= window_size v < 2 ^ 63.

#[export] Instance count_perm hf : Proper ((≡ₚ) ==> (=)) (count hf).
Proof. intros l1 l2 H. unfold count, len. by rewrite H. Qed.

#[export] Instance counted_perm vs : Proper ((≡ₚ) ==> iff) (counted vs).
Proof. intros l1 l2 H. unfold counted. by setoid_rewrite H. Qed.

Lemma hf_idx_inj a b : hf_idx a = hf_idx b -> a = b.
Proof.
  unfold hf_idx. intros H. apply as_u8_inj. pose proof (as_u8_range a). pose proof (as_u8_range b). lia.
Qed.

Lemma count_cons hf x l : count hf (x :: l) = (if decide (x = hf) then 1 else 0) + count hf l.
Proof. unfold count, len. rewrite filter_cons. destruct (decide (x = hf)); cbn [length]; lia. Qed.

Lemma count_bound hf l : 0 <= count hf l <= len l.
Proof. unfold count, len. pose proof (length_filter (fun x => x = hf) l). lia. Qed.

Lemma counted_incr vs l hf : counted vs l -> len l < 2 ^ 63 -> counted (vote_incr hf vs) (hf :: l).
Proof.
  intros [Hl Hc] Hb. unfold vote_incr. split; [by rewrite length_alter|]. intros x. rewrite count_cons.
  destruct (decide (hf = x)) as [->|Hne].
  - rewrite list_lookup_alter, decide_True, Hc by done. cbn. f_equal. pose proof (count_bound x l).
    rewrite wrap_small; [lia|zlia].
  - rewrite list_lookup_alter_ne, Hc; [done|]. intros E. by apply hf_idx_inj in E.
Qed.

Lemma counted_decr vs l hf : counted vs (hf :: l) -> len l < 2 ^ 63 -> counted (vote_decr hf vs) l.
Proof.
  intros [Hl Hc] Hb. unfold vote_decr. split; [by rewrite length_alter|]. intros x.
  specialize (Hc x). rewrite count_cons in Hc.
  destruct (decide (hf = x)) as [->|Hne].
  - rewrite list_lookup_alter, decide_True, Hc by done. cbn. f_equal. pose proof (count_bound x l).
    rewrite wrap_small; [lia|zlia].
  - rewrite list_lookup_alter_ne; [done|]. intros E. by apply hf_idx_inj in E.
Qed.

Lemma counted_decr_all vs l drained :
  counted vs (drained ++ l) -> len (drained ++ l) < 2 ^ 63 ->
  counted (foldl (fun vs hf => vote_decr hf vs) vs drained) l.
Proof.
  revert vs. induction drained as [|hf drained IH]; intros vs Hc Hb; [done|]. cbn [foldl app] in *.
  change (hf :: drained ++ l) with ([hf] ++ (drained ++ l)) in Hb. rewrite len_app in Hb.
  change (len [hf]) with 1 in Hb. apply IH; [|lia]. apply counted_decr; [done|lia].
Qed.

Lemma counted_incr_all vs l old :
  counted vs l -> len l + len old < 2 ^ 63 ->
  exists vs', foldl (fun '(vl, vs) old_vote => (old_vote :: vl, vote_incr old_vote vs)) (l, vs) (rev old)
    = (old ++ l, vs') /\ counted vs' (old ++ l).
Proof.
  revert vs l. induction old as [|hf old IH] using rev_ind; intros vs l Hc Hb; [by exists vs|].
  rewrite rev_app_distr. cbn [rev app foldl]. rewrite len_app in Hb. change (len [hf]) with 1 in Hb.
  pose proof (len_nonneg old). destruct (IH (vote_incr hf vs) (hf :: l)) as (vs' & E & Hc').
  - apply counted_incr; [done|lia].
  - unfold len in *. cbn [length]. lia.
  - exists vs'. by rewrite E, <- app_assoc.
Qed.

Lemma HFVotes_new_inv w : 0 <= w < 2 ^ 63 -> votes_inv (HFVotes_new w).
Proof.
  intros Hw. split; [|done]. split; [done|]. intros hf. by destruct hf.
Qed.

(** Adding a vote slides the window. *)
Lemma add_vote_spec v hf :
  votes_inv v ->
  votes_inv (add_vote_for_hf v hf) /\ window_size (add_vote_for_hf v hf) = window_size v /\
  vote_list (add_vote_for_hf v hf) =
    if len (vote_list v) <? window_size v then vote_list v ++ [hf] else tail (vote_list v ++ [hf]).
Proof.
  intros [Hc Hw]. unfold add_vote_for_hf.
  assert (counted (vote_incr hf (votes v)) (vote_list v ++ [hf])) as Hc'.
  { rewrite Permutation_app_comm. apply counted_incr; [done|lia]. }
  assert (len (vote_list v ++ [hf]) = len (vote_list v) + 1) as Hl by (by rewrite len_app).
  rewrite Hl. destruct (window_size v <? len (vote_list v) + 1) eqn:E; bsimp.
  - rewrite (proj2 (Z.ltb_ge _ _)) by lia.
    destruct (vote_list v ++ [hf]) as [|x vl] eqn:Ev; [by destruct (vote_list v)|].
    assert (len vl = len (vote_list v)) as Hvl by (unfold len in *; cbn [length] in Hl; lia).
    split_and!; [|done..]. split; cbn; [|lia]. apply counted_decr; [done|lia].
  - rewrite (proj2 (Z.ltb_lt _ _)) by lia. split_and!; [|done..]. split; cbn; [done|lia].
Qed.

Lemma reverse_blocks_spec v n old :
  votes_inv v -> 0 <= len (vote_list old) <= n -> n <= len (vote_list v) ->
  exists v', reverse_blocks v n old = Ok v' /\ votes_inv v' /\ window_size v' = window_size v /\
    vote_list v' = vote_list old ++ take (Z.to_nat (len (vote_list v) - n)) (vote_list v).
Proof.
  intros [Hc Hw] Ho Hn. unfold reverse_blocks. rewrite (proj2 (Z.leb_le (len (vote_list old)) n)) by lia. cbn [rassert mbind result_bind].
  rewrite wrap_small by zlia. rewrite (proj2 (Z.leb_le _ _)) by lia. cbn [rassert mbind result_bind].
  set (k := Z.to_nat (len (vote_list v) - n)).
  assert (len (take k (vote_list v)) = len (vote_list v) - n) as Ht.
  { unfold len in *. rewrite length_take. unfold k, len. lia. }
  destruct (counted_incr_all (foldl (fun vs hf => vote_decr hf vs) (votes v) (drop k (vote_list v)))
    (take k (vote_list v)) (vote_list old)) as (vs' & E & Hc').
  - apply counted_decr_all.
    + rewrite Permutation_app_comm. by rewrite take_drop.
    + rewrite len_app, Z.add_comm, <- len_app, take_drop. lia.
  - lia.
  - rewrite E. eexists. split_and!; [done| |done|done]. split; cbn; [done|]. rewrite len_app. lia.
Qed.

(** ** Votes are cumulative *)
Fixpoint Zsum (l : list Z) : Z := match l with [] => 0 | x :: l => x + Zsum l end.

Lemma Zsum_nonneg l : Forall (fun x => 0 <= x) l -> 0 <= Zsum l.
Proof. induction 1; cbn; lia. Qed.

Lemma foldl_wrap_sum l a :
  0 <= a -> Forall (fun x => 0 <= x) l -> a + Zsum l < 2 ^ 64 -> foldl (fun a n => a +! n) a l = a + Zsum l.
Proof.
  intros Ha Hl. revert a Ha. induction Hl as [|x l Hx Hl IH]; intros a Ha Hb; cbn in *; [lia|].
  pose proof (Zsum_nonneg l Hl). rewrite wrap_small by zlia. rewrite IH by lia. lia.
Qed.

Lemma sum_counts (vs : list HardFork) l :
  NoDup vs -> Zsum (map (fun x => count x l) vs) = len (filter (fun x => x ∈ vs) l).
Proof.
  intros Hnd. induction l as [|y l IH].
  { change (len (filter _ [])) with 0. clear Hnd. induction vs as [|x vs IHv]; cbn in *; [done|].
    by rewrite IHv. }
  rewrite filter_cons.
  assert (Zsum (map (fun x => count x (y :: l)) vs)
    = (if decide (y ∈ vs) then 1 else 0) + Zsum (map (fun x => count x l) vs)) as ->.
  { clear IH. induction Hnd as [|x vs Hx Hnd IHv]; [by rewrite decide_False by set_solver|].
    cbn [map Zsum]. rewrite IHv, count_cons.
    destruct (decide (y = x)) as [->|Hne].
    - rewrite (decide_False (P := x ∈ vs)), decide_True by set_solver. lia.
    - destruct (decide (y ∈ vs)); [rewrite decide_True by set_solver|rewrite decide_False by set_solver]; lia. }
  rewrite IH. unfold len. destruct (decide (y ∈ vs)); cbn [length]; lia.
Qed.

Lemma votes_eq_counts vs l : counted vs l -> vs = map (fun x => count x l) VARIANTS.
Proof.
  intros [Hl Hc]. do 16 (destruct vs as [|? vs]; [done|]). destruct vs; [|done].
  cbn [map VARIANTS].
  do 16 (apply f_equal2; [apply (inj Some); rewrite <- Hc; reflexivity|]). reflexivity.
Qed.

Lemma votes_for_hf_count v hf :
  votes_inv v -> votes_for_hf v hf = len (filter (fun x => as_u8 hf <= as_u8 x) (vote_list v)).
Proof.
  intros [Hc Hw]. unfold votes_for_hf. rewrite (votes_eq_counts _ _ Hc), skipn_map.
  change (skipn (hf_idx hf) VARIANTS) with (drop (hf_idx hf) VARIANTS).
  assert (NoDup (drop (hf_idx hf) VARIANTS)) as Hnd.
  { apply (bool_decide_unpack _). by destruct hf. }
  rewrite foldl_wrap_sum, sum_counts; [|done|lia|..].
  - rewrite Z.add_0_l. do 2 f_equal. apply list_filter_iff. intros x.
    rewrite <- (bool_decide_spec (x ∈ drop (hf_idx hf) VARIANTS)),
      <- (bool_decide_spec (as_u8 hf <= as_u8 x)).
    by destruct hf, x.
  - apply Forall_map, Forall_forall. intros x _. apply count_bound.
  - rewrite sum_counts by done. unfold len in *.
    pose proof (length_filter (fun x => x ∈ drop (hf_idx hf) VARIANTS) (vote_list v)). zlia.
Qed.

(** ** Activation *)
Section activation.
Context (v : HFVotes) (h w : Z) (info : HFsInfo).

Lemma current_fork_n_spec n cur :
  16 - as_u8 cur <= Z.of_nat n ->
  let r := current_fork_n n v cur h w info in
  as_u8 cur <= as_u8 r /\
  (forall f, as_u8 cur < as_u8 f <= as_u8 r -> activates v h w info f = true) /\
  (forall f, as_u8 f = as_u8 r + 1 -> activates v h w info f = false).
Proof.
  revert cur. induction n as [|n IH]; intros cur Hn; cbn [current_fork_n].
  { split_and!; [done|lia|]. intros f Hf. pose proof (as_u8_range f). lia. }
  destruct (next_fork cur) as [nf|] eqn:E.
  - apply next_fork_succ in E. destruct (activates v h w info nf) eqn:Ea.
    + destruct (IH nf) as (H1 & H2 & H3); [lia|]. split_and!; [lia| |done].
      intros f Hf. destruct (decide (f = nf)) as [->|Hne]; [done|]. apply H2.
      assert (as_u8 f <> as_u8 nf) by (intros Hx; apply Hne, as_u8_inj, Hx). lia.
    + split_and!; [lia|lia|]. intros f Hf. rewrite <- E in Hf. apply as_u8_inj in Hf. by subst f.
  - apply next_fork_None in E as ->. cbn. split_and!; [lia|lia|].
    intros f Hf. pose proof (as_u8_range f). lia.
Qed.
End activation.

Lemma votes_for_hf_nonneg v hf : 0 <= votes_for_hf v hf.
Proof.
  unfold votes_for_hf. generalize (drop (hf_idx hf) (votes v)). intros l.
  assert (forall a, 0 <= a -> 0 <= foldl (fun a n => a +! n) a l) as H; [|by apply H].
  induction l as [|x l IH]; intros a Ha; cbn; [done|]. apply IH, wrap_is_u. lia.
Qed.

(** All networks: no votes are needed, and the heights increase. *)
Definition by_height (info : HFsInfo) : Prop :=
  (forall f, hf_threshold (info_for_hf info f) = 0) /\
  (forall f g, as_u8 f <= as_u8 g -> hf_height (info_for_hf info f) <= hf_height (info_for_hf info g)).

Lemma networks_by_height info : info ∈ [main_net; test_net; stage_net] -> by_height info.
Proof.
  intros H. split.
  - intros f. set_unfold in H. destruct H as [->|[->|[->|[]]]]; by destruct f.
  - intros f g. set_unfold in H. destruct H as [->|[->|[->|[]]]]; destruct f, g; vm_compute; intuition congruence.
Qed.

Lemma activates_by_height v h w info f :
  by_height info -> activates v h w info f = (hf_height (info_for_hf info f) <=? h).
Proof.
  intros [Ht _]. unfold activates, votes_needed. rewrite Ht. cbn [Z.mul].
  change (div_ceil (wrap 64 0) 100) with 0. rewrite (proj2 (Z.leb_le 0 _)) by apply votes_for_hf_nonneg.
  by rewrite andb_true_r.
Qed.

(** ** The window after a sequence of votes *)
Lemma votes_after w hfs :
  0 <= w < 2 ^ 63 ->
  let v := foldl add_vote_for_hf (HFVotes_new w) hfs in
  votes_inv v /\ window_size v = w /\ vote_list v = drop (length hfs - Z.to_nat w) hfs.
Proof.
  intros Hw v. subst v.
  induction hfs as [|x hfs IH] using rev_ind; [by split; [apply HFVotes_new_inv|]|].
  rewrite foldl_app. cbn [foldl]. destruct IH as (Hinv & Hws & Hl).
  destruct (add_vote_spec _ x Hinv) as (Hinv' & Hws' & Hl'). split_and!; [done|congruence|].
  rewrite Hl', Hl, Hws, length_app. clear. cbn [length]. unfold len. rewrite length_drop.
  destruct (_ <? _) eqn:E; bsimp.
  - replace (length hfs - Z.to_nat w)%nat with 0%nat by lia.
    by replace (length hfs + 1 - Z.to_nat w)%nat with 0%nat by lia.
  - destruct (decide (w <= 0)) as [Hw0|Hw0].
    + rewrite !drop_ge; [done|rewrite length_app; cbn; lia|lia].
    + replace (length hfs + 1 - Z.to_nat w)%nat with (S (length hfs - Z.to_nat w)) by lia.
      rewrite <- drop_app_le by lia. rewrite <- (Nat.add_1_r (length hfs - _)), <- drop_drop. done.
Qed.

(** The votes in the window and its size determine the state. *)
Lemma votes_inv_ext v1 v2 :
  votes_inv v1 -> votes_inv v2 -> window_size v1 = window_size v2 -> vote_list v1 = vote_list v2 -> v1 = v2.
Proof.
  intros [H1 _] [H2 _] Hw Hl. apply votes_eq_counts in H1, H2. destruct v1, v2. cbn in *. congruence.
Qed.

Lemma networks_fork v cur h w info f :
  info ∈ [main_net; test_net; stage_net] -> hf_height (info_for_hf info cur) <= h ->
  as_u8 f <= as_u8 (current_fork v cur h w info) <-> hf_height (info_for_hf info f) <= h.
Proof.
  intros Hi Hc. apply networks_by_height in Hi as Hb. pose proof (as_u8_range cur).
  destruct (current_fork_n_spec v h w info NUMB_OF_HARD_FORKS cur) as (H1 & H2 & H3);
    [unfold NUMB_OF_HARD_FORKS; lia|].
  fold (current_fork v cur h w info) in H1, H2, H3.
  assert (forall f, activates v h w info f = true <-> hf_height (info_for_hf info f) <= h) as Ha.
  { intros g. rewrite activates_by_height by done. apply Z.leb_le. }
  destruct Hb as [_ Hm]. split; intros Hf.
  - destruct (decide (as_u8 f <= as_u8 cur)) as [Hle|Hgt]; [specialize (Hm f cur Hle); lia|].
    apply Ha, H2. lia.
  - apply Z.nlt_ge. intros Hlt. destruct (next_exists _ _ Hlt) as [g Hg].
    specialize (H3 g Hg). specialize (Hm g f ltac:(lia)).
    rewrite (proj2 (Ha g)) in H3; [done|lia].
Qed.

(** ** Claims *)

(** The window of votes: [HFVotes::new] followed by any votes gives the last
    [window_size] of them, the array counts them without overflow, and
    [votes_for_hf] is the number of votes in the window for the fork or a later one. *)
Theorem votes_window w (hfs : list HardFork) hf :
  0 <= w < 2 ^ 63 ->
  let v := foldl add_vote_for_hf (HFVotes_new w) hfs in
  vote_list v = drop (length hfs - Z.to_nat w) hfs /\
  total_votes v = Z.min w (len hfs) /\
  votes_for_hf v hf = len (filter (fun x => as_u8 hf <= as_u8 x) (drop (length hfs - Z.to_nat w) hfs)).
Proof.
  intros Hw v. destruct (votes_after w hfs Hw) as (Hinv & Hws & Hl). fold v in Hinv, Hws, Hl.
  split_and!; [done| |].
  - unfold total_votes. rewrite Hl. unfold len. rewrite length_drop. lia.
  - by rewrite votes_for_hf_count, Hl by done.
Qed.

Lemma votes_window_witness :
  votes_for_hf (foldl add_vote_for_hf (HFVotes_new 2) [V3; V1; V2]) V2 = 1.
Proof. destruct (votes_window 2 [V3; V1; V2] V2) as (_ & _ & ->); [lia|done]. Defined.

(** [reverse_blocks] undoes blocks: popping the newest votes and putting back as many
    votes from below the window gives the state the window had before these blocks,
    array included, when the window was full. *)
Theorem reverse_blocks_restores w (hfs new : list HardFork) old :
  0 <= w < 2 ^ 63 -> len new <= w -> w <= len hfs ->
  let before := foldl add_vote_for_hf (HFVotes_new w) hfs in
  let after := foldl add_vote_for_hf (HFVotes_new w) (hfs ++ new) in
  vote_list old = take (length new) (vote_list before) ->
  reverse_blocks after (len new) old = Ok before.
Proof.
  intros Hw Hn Hh before after Hold.
  destruct (votes_after w hfs Hw) as (Hinv1 & Hws1 & Hl1). fold before in Hinv1, Hws1, Hl1.
  destruct (votes_after w (hfs ++ new) Hw) as (Hinv2 & Hws2 & Hl2). fold after in Hinv2, Hws2, Hl2.
  unfold len in *. rewrite length_app in Hl2.
  assert (length (vote_list after) = Z.to_nat w) as Hla
    by (rewrite Hl2, length_drop, length_app; lia).
  assert (length (vote_list before) = Z.to_nat w) as Hlb by (rewrite Hl1, length_drop; lia).
  destruct (reverse_blocks_spec after (Z.of_nat (length new)) old) as (v' & -> & Hinv' & Hws' & Hl').
  - done.
  - unfold len. rewrite Hold, length_take. lia.
  - unfold len. lia.
  - f_equal. apply votes_inv_ext; [done|done|congruence|]. rewrite Hl', Hold. unfold len.
    rewrite Hla, Hl2. rewrite <- (take_drop (length new) (vote_list before)) at 2. f_equal.
    rewrite Hl1, drop_drop.
    replace (length hfs + length new - Z.to_nat w)%nat with (length hfs - Z.to_nat w + length new)%nat by lia.
    rewrite drop_app_le, take_app_le by (rewrite ?length_drop; lia).
    apply take_ge. rewrite length_drop. lia.
Qed.

Lemma reverse_blocks_restores_witness :
  let before := foldl add_vote_for_hf (HFVotes_new 2) [V3; V1] in
  reverse_blocks (foldl add_vote_for_hf (HFVotes_new 2) [V3; V1; V2]) 1
    (foldl add_vote_for_hf (HFVotes_new 1) [V3]) = Ok before.
Proof.
  apply (reverse_blocks_restores 2 [V3; V1] [V2] (foldl add_vote_for_hf (HFVotes_new 1) [V3]));
    vm_compute; intuition congruence.
Defined.

(** [current_fork] returns the last fork reachable from the current one through forks
    that all activate (height reached, enough votes), and stops before the first that
    does not; the result is unique. *)
Theorem current_fork_spec v cur h w info r :
  current_fork v cur h w info = r <->
  as_u8 cur <= as_u8 r /\
  (forall f, as_u8 cur < as_u8 f <= as_u8 r -> activates v h w info f = true) /\
  (forall f, as_u8 f = as_u8 r + 1 -> activates v h w info f = false).
Proof.
  pose proof (as_u8_range cur).
  destruct (current_fork_n_spec v h w info NUMB_OF_HARD_FORKS cur) as (H1 & H2 & H3);
    [unfold NUMB_OF_HARD_FORKS; lia|].
  fold (current_fork v cur h w info) in H1, H2, H3.
  split; [by intros <-|]. intros (R1 & R2 & R3). set (c := current_fork v cur h w info) in *.
  apply as_u8_inj. destruct (Z.lt_trichotomy (as_u8 c) (as_u8 r)) as [Hlt|[Heq|Hgt]]; [|done|].
  - destruct (next_exists c r Hlt) as [f Hf]. pose proof (H3 f Hf) as E. by rewrite R2 in E by lia.
  - destruct (next_exists r c Hgt) as [f Hf]. pose proof (R3 f Hf) as E. by rewrite H2 in E by lia.
Qed.

(** On every network the fork depends on the height only: whatever the votes, the
    active fork at a height is the last one whose activation height has been reached. *)
Theorem fork_by_height v cur h w info f :
  info ∈ [main_net; test_net; stage_net] -> hf_height (info_for_hf info cur) <= h ->
  as_u8 f <= as_u8 (current_fork v cur h w info) <-> hf_height (info_for_hf info f) <= h.
Proof. apply networks_fork. Qed.

Lemma fork_by_height_witness : current_fork (HFVotes_new 10) V1 1788000 10 main_net = V10.
Proof.
  apply as_u8_inj, Z.le_antisymm.
  - apply Z.nlt_ge. intros H. assert (as_u8 V11 <= as_u8 (current_fork (HFVotes_new 10) V1 1788000 10 main_net))
      as H' by (cbn [as_u8] in *; lia).
    apply fork_by_height in H'; [|set_solver|done]. by apply H'.
  - apply fork_by_height; [set_solver|done|done].
Defined.

(** A block is accepted for its version and vote exactly when its version is the
    current fork and its vote is not for an earlier one; a vote of 0 counts as a vote
    for the first fork, an unknown one as a vote for the latest. *)
Theorem check_block_version_vote_iff hf version vote :
  match from_block_header version vote with
  | Ok (ver, v) =>
      1 <= version <= 16 /\ as_u8 ver = version /\
      as_u8 v = (if vote =? 0 then 1 else if (1 <=? vote) && (vote <=? 16) then vote else 16) /\
      (check_block_version_vote hf ver v = Ok () <-> version = as_u8 hf /\ as_u8 hf <= as_u8 v)
  | Err e => e = HardForkUnknown /\ ~ 1 <= version <= 16
  | Panic => False
  end.
Proof.
  unfold from_block_header, from_version. destruct (from_repr version) as [ver|] eqn:E; cbn.
  - apply from_repr_inv in E. pose proof (as_u8_range ver). split; [lia|]. split; [done|]. split.
    + unfold from_vote, from_version. destruct (vote =? 0) eqn:E0; [done|]. bsimp.
      destruct (from_repr vote) as [g|] eqn:Eg.
      * apply from_repr_inv in Eg. pose proof (as_u8_range g).
        rewrite (proj2 (Z.leb_le _ _)), (proj2 (Z.leb_le _ _)) by lia. done.
      * destruct ((1 <=? vote) && (vote <=? 16)) eqn:E1; [|done]. bsimp.
        by destruct (from_repr_some vote).
    + unfold check_block_version_vote, hf_lt. destruct (bool_decide (hf = ver)) eqn:Eb; cbn.
      * apply bool_decide_eq_true in Eb as ->. destruct (_ <? _) eqn:El; bsimp; intuition (congruence || lia).
      * apply bool_decide_eq_false in Eb. split; [done|]. intros [Hv _]. destruct Eb. apply as_u8_inj. congruence.
  - split; [done|]. intros Hv. by destruct (from_repr_some version).
Qed.

End HardForks.
