(* ===== verification/Median.v ===== *)
(** * Medians ([src/helper/src/num.rs], [src/helper/src/num/rolling_median.rs])

    The median of a sorted slice without overflow, and the rolling median over a
    window that keeps a sorted copy. Elements are [usize] or [u64] values. The slice
    operations of the standard library are modelled as it implements them:
    [binary_search] is the branchless search of [core], sorting is a sort. *)
From S2P Require Import Prelude Bytes.
From Stdlib Require Import ZArith Lia.
From stdpp Require Import base tactics option list numbers sorting.

#[local] Open Scope Z_scope.
#[local] Open Scope usize_scope.

Module Median.

(** ** [get_mid] and [median] *)
Definition get_mid (a b : Z) : Z :=
  let two := 2 in
  (a / two +! b / two) +! ((a -! two *! (a / two)) +! (b -! two *! (b / two))) / two.

(** An index out of range panics; so does an empty slice, whose [mid - 1] wraps. *)
Definition index {A} (l : list A) (i : Z) : result () A :=
  if i <? len l then unwrap (l !! Z.to_nat i) else Panic.

Definition median (array : list Z) : result () Z :=
  let len_ := len array in
  let mid := len_ / 2 in
  if len_ =? 1 then index array 0
  else if len_ mod 2 =? 0 then
    a ← index array (mid -! 1);
    b ← index array mid;
    Ok (get_mid a b)
  else index array mid.

(** ** Slices *)
Definition sort_unstable (l : list Z) : list Z := merge_sort Z.le l.

(** The loop of [binary_search_by]: the position the search narrows down to. *)
Fixpoint search_loop (fuel : nat) (l : list Z) (x : Z) (base size : nat) : nat :=
  match fuel with
  | O => base
  | S fuel =>
      if (size <=? 1)%nat then base
      else
        let half := (size / 2)%nat in
        let mid := (base + half)%nat in
        search_loop fuel l x (if x <? nth mid l 0 then base else mid) (size - half)
  end.

(** [Ok(idx)] is [inl idx], [Err(idx)] is [inr idx]. *)
Definition binary_search (l : list Z) (x : Z) : nat + nat :=
  if (length l =? 0)%nat then inr 0%nat
  else
    let base := search_loop (length l) l x 0 (length l) in
    let y := nth base l 0 in
    if y =? x then inl base else inr (if y <? x then S base else base).

(** [Vec::insert]; the positions the search gives are never past the end. *)
Definition vec_insert (i : nat) (x : Z) (l : list Z) : list Z := take i l ++ x :: drop i l.

(** ** [RollingMedian] *)
Record RollingMedian := mk_rm {
  window : list Z;
  sorted_window : list Z;
  target_window : Z;
}.

Definition rm_new (target_window : Z) : RollingMedian := mk_rm [] [] target_window.

Definition from_vec (vec : list Z) (target_window : Z) : result () RollingMedian :=
  _ ← rassert (len vec <=? target_window);
  Ok (mk_rm vec (sort_unstable vec) target_window).

(** [match binary_search(&item) { Ok(idx) => remove(idx), Err(_) => panic!() }] *)
Definition remove_sorted (l : list Z) (item : Z) : result () (list Z) :=
  match binary_search l item with inl idx => Ok (delete idx l) | inr _ => Panic end.

(** [match binary_search(&item) { Ok(idx) | Err(idx) => insert(idx, item) }] *)
Definition insert_sorted (l : list Z) (item : Z) : list Z :=
  match binary_search l item with inl idx | inr idx => vec_insert idx item l end.

Definition pop_front (r : RollingMedian) : result () RollingMedian :=
  match window r with
  | [] => Ok r
  | item :: w =>
      sw ← remove_sorted (sorted_window r) item;
      Ok (mk_rm w sw (target_window r))
  end.

Definition pop_back (r : RollingMedian) : result () RollingMedian :=
  match last (window r) with
  | None => Ok r
  | Some item =>
      sw ← remove_sorted (sorted_window r) item;
      Ok (mk_rm (removelast (window r)) sw (target_window r))
  end.

Definition push (r : RollingMedian) (item : Z) : result () RollingMedian :=
  r ← (if target_window r <=? len (window r) then pop_front r else Ok r);
  Ok (mk_rm (window r ++ [item]) (insert_sorted (sorted_window r) item) (target_window r)).

Definition append_front (r : RollingMedian) (items : list Z) : result () RollingMedian :=
  try_fold (fun r item =>
    let r := mk_rm (item :: window r) (insert_sorted (sorted_window r) item) (target_window r) in
    if target_window r <? len (window r) then pop_back r else Ok r) r (rev items).

Definition window_len (r : RollingMedian) : Z := len (window r).
Definition rm_median (r : RollingMedian) : result () Z := median (sorted_window r).

(** ** Facts: sorted lists *)
#[local] Instance Zle_total : Total Z.le.
Proof. intros x y. lia. Qed.

Abbreviation sorted := (StronglySorted Z.le).

Lemma sort_sorted l : sorted (sort_unstable l).
Proof. apply StronglySorted_merge_sort; apply _. Qed.

Lemma sort_perm l : sort_unstable l ≡ₚ l.
Proof. apply merge_sort_Permutation. Qed.

(** There is one sorted list with given elements. *)
Lemma sorted_unique l1 l2 : sorted l1 -> l1 ≡ₚ l2 -> l1 = sort_unstable l2.
Proof.
  intros H1 Hp. apply (StronglySorted_unique Z.le); [done|apply sort_sorted|]. by rewrite sort_perm.
Qed.

#[export] Instance sort_unstable_perm : Proper ((≡ₚ) ==> (=)) sort_unstable.
Proof. intros l1 l2 H. symmetry. apply sorted_unique; [apply sort_sorted|]. by rewrite sort_perm. Qed.

Lemma sorted_lookup l i j a b :
  sorted l -> (i <= j)%nat -> l !! i = Some a -> l !! j = Some b -> a <= b.
Proof.
  intros Hs. revert i j. induction Hs as [|x l Hs IH Hx]; intros i j Hij Ha Hb; [done|].
  destruct i as [|i], j as [|j]; cbn in *; simplify_eq; try lia.
  - rewrite Forall_lookup in Hx. eauto.
  - apply (IH i j); [lia|done|done].
Qed.

Lemma nth_lookup_Some (l : list Z) i : (i < length l)%nat -> l !! i = Some (nth i l 0).
Proof. revert i. induction l as [|x l IH]; intros [|i] H; cbn in *; try lia; [done|]. apply IH. lia. Qed.

Lemma search_loop_spec fuel l x base size :
  sorted l -> (size <= fuel)%nat -> (1 <= size)%nat -> (base + size <= length l)%nat ->
  (base = 0%nat \/ nth base l 0 <= x) ->
  (forall j y, (base + size <= j)%nat -> l !! j = Some y -> x < y) ->
  let b := search_loop fuel l x base size in
  (b < length l)%nat /\ (b = 0%nat \/ nth b l 0 <= x) /\
  (forall j y, (b < j)%nat -> l !! j = Some y -> x < y).
Proof.
  intros Hs. revert base size.
  induction fuel as [|fuel IH]; intros base size Hf H1 Hlen Hb Hhi; [lia|]. cbn [search_loop].
  destruct (Nat.leb_spec size 1) as [Hle|Hgt].
  { split_and!; [lia|done|]. intros j y Hj. apply Hhi. lia. }
  pose proof (Nat.div_lt size 2 ltac:(lia) ltac:(lia)).
  assert (1 <= size / 2)%nat by (apply Nat.div_le_lower_bound; lia).
  destruct (x <? nth (base + size / 2) l 0) eqn:E; bsimp.
  - apply IH; try lia. intros j y Hj Hy.
    assert (nth (base + size / 2) l 0 <= y); [|lia].
    eapply (sorted_lookup l (base + size / 2) j); [done| |by apply nth_lookup_Some; lia|done].
    assert (size - size / 2 >= size / 2)%nat; [|lia].
    pose proof (Nat.Div0.mul_div_le size 2). lia.
  - apply IH; try lia. intros j y Hj. apply Hhi. lia.
Qed.

(** What the search promises on a sorted slice. *)
Lemma binary_search_spec l x :
  sorted l ->
  match binary_search l x with
  | inl i => l !! i = Some x
  | inr i => (i <= length l)%nat /\ (forall j y, (j < i)%nat -> l !! j = Some y -> y < x) /\
             (forall j y, (i <= j)%nat -> l !! j = Some y -> x < y)
  end.
Proof.
  intros Hs. unfold binary_search. destruct (Nat.eqb_spec (length l) 0) as [E|E].
  { destruct l; [|done]. cbn. split_and!; [lia|lia|]. intros [|j] y; done. }
  destruct (search_loop_spec (length l) l x 0 (length l)) as (H1 & H2 & H3); [done|lia|lia|lia|auto| |].
  { intros j y Hj Hy. apply lookup_lt_Some in Hy. lia. }
  set (b := search_loop _ _ _ _ _) in *. pose proof (nth_lookup_Some l b H1) as Hb.
  destruct (nth b l 0 =? x) eqn:Ex; bsimp; [by rewrite <- Ex|].
  destruct (nth b l 0 <? x) eqn:Elt; bsimp.
  - split_and!; [lia| |].
    + intros j y Hj Hy. pose proof (sorted_lookup l j b y _ Hs ltac:(lia) Hy Hb). lia.
    + intros j y Hj. apply H3. lia.
  - destruct H2 as [H0|?]; [|lia]. rewrite H0 in *. split_and!; [lia|lia|].
    intros j y Hj Hy. pose proof (sorted_lookup l 0 j _ y Hs ltac:(lia) Hb Hy). lia.
Qed.

Lemma insert_sorted_eq l x : insert_sorted (sort_unstable l) x = sort_unstable (x :: l).
Proof.
  set (s := sort_unstable l). assert (sorted s) as Hs by apply sort_sorted.
  pose proof (binary_search_spec s x Hs) as Hb. unfold insert_sorted.
  assert (exists i, (match binary_search s x with inl i | inr i => vec_insert i x s end) = vec_insert i x s /\
    (forall j y, (j < i)%nat -> s !! j = Some y -> y <= x) /\
    (forall j y, (i <= j)%nat -> s !! j = Some y -> x <= y)) as (i & -> & Hlo & Hhi).
  { destruct (binary_search s x) as [i|i]; exists i; (split; [done|]).
    - split; intros j y Hj Hy; [apply (sorted_lookup s j i)|apply (sorted_lookup s i j)]; done || lia.
    - destruct Hb as (_ & H1 & H2). split; intros j y Hj Hy; [apply H1 in Hy|apply H2 in Hy]; lia. }
  apply sorted_unique.
  - unfold vec_insert. rewrite <- (take_drop i s) in Hs. apply StronglySorted_app in Hs as (Hlr & Hl & Hr).
    apply StronglySorted_app_2; [|done|].
    + intros a b Ha Hb'. apply elem_of_take in Ha as (j & Ha & Hj). specialize (Hlo _ _ Hj Ha).
      apply elem_of_cons in Hb' as [->|Hb']; [done|].
      apply list_elem_of_lookup in Hb' as (k & Hk). rewrite lookup_drop in Hk.
      specialize (Hhi (i + k)%nat b ltac:(lia) Hk). lia.
    + constructor; [done|]. apply Forall_forall. intros b Hb'.
      apply list_elem_of_lookup in Hb' as (k & Hk). rewrite lookup_drop in Hk. apply (Hhi (i + k)%nat); [lia|done].
  - unfold vec_insert. rewrite <- Permutation_middle, take_drop. constructor. apply sort_perm.
Qed.

Lemma remove_sorted_eq l x : remove_sorted (sort_unstable (x :: l)) x = Ok (sort_unstable l).
Proof.
  set (s := sort_unstable (x :: l)). assert (sorted s) as Hs by apply sort_sorted.
  pose proof (binary_search_spec s x Hs) as Hb. unfold remove_sorted.
  destruct (binary_search s x) as [i|i].
  - f_equal. apply sorted_unique.
    + rewrite delete_take_drop. rewrite <- (take_drop i s) in Hs.
      apply StronglySorted_app in Hs as (Hlr & Hl & Hr).
      rewrite (drop_S s x i Hb) in Hlr, Hr. apply StronglySorted_cons in Hr as [_ Hr].
      apply StronglySorted_app_2; [|done|done]. intros a b Ha Hb'. apply Hlr; [done|by right].
    + apply (Permutation_cons_inv (a := x)). rewrite <- (delete_Permutation s i x Hb). apply sort_perm.
  - destruct Hb as (_ & H1 & H2). assert (x ∈ s) as Hx by (unfold s; rewrite sort_perm; by left).
    apply list_elem_of_lookup in Hx as (k & Hk). destruct (decide (k < i)%nat).
    + specialize (H1 _ _ l0 Hk). lia.
    + specialize (H2 k x ltac:(lia) Hk). lia.
Qed.

(** ** The rolling median as a queue *)

(** The state that holds the window [w]. *)
Definition rm_of (w : list Z) (t : Z) : RollingMedian := mk_rm w (sort_unstable w) t.

Lemma pop_front_of w t : pop_front (rm_of w t) = Ok (rm_of (tail w) t).
Proof.
  unfold pop_front, rm_of. cbn. destruct w as [|x w]; [done|]. cbn [window].
  by rewrite remove_sorted_eq.
Qed.

Lemma pop_back_of w t : pop_back (rm_of w t) = Ok (rm_of (removelast w) t).
Proof.
  unfold pop_back, rm_of. cbn [window sorted_window target_window].
  induction w as [|x w' _] using rev_ind; [done|]. rewrite last_snoc, removelast_last.
  replace (sort_unstable (w' ++ [x])) with (sort_unstable (x :: w')) by (by rewrite <- Permutation_cons_append).
  by rewrite remove_sorted_eq.
Qed.

Lemma push_of w t x :
  push (rm_of w t) x = Ok (rm_of ((if t <=? len w then tail w else w) ++ [x]) t).
Proof.
  unfold push. cbn [window target_window rm_of].
  assert (forall w', insert_sorted (sort_unstable w') x = sort_unstable (w' ++ [x])) as Hi.
  { intros w'. rewrite insert_sorted_eq. by rewrite Permutation_cons_append. }
  destruct (t <=? len w).
  - fold (rm_of w t). rewrite pop_front_of. cbn [mbind result_bind window sorted_window target_window rm_of].
    by rewrite Hi.
  - cbn [mbind result_bind window sorted_window target_window rm_of]. by rewrite Hi.
Qed.

Lemma append_front_of w t items :
  len w <= t -> append_front (rm_of w t) items = Ok (rm_of (take (Z.to_nat t) (items ++ w)) t).
Proof.
  intros Ht. unfold append_front. revert w Ht.
  induction items as [|x items IH] using rev_ind; intros w Ht; cbn [rev try_fold app].
  { rewrite take_ge; [done|]. unfold len in Ht. lia. }
  rewrite rev_app_distr. cbn [rev app try_fold].
  cbn [window sorted_window target_window rm_of]. rewrite insert_sorted_eq. fold (rm_of (x :: w) t).
  destruct (t <? len (x :: w)) eqn:E; bsimp.
  - rewrite pop_back_of. cbn [mbind result_bind].
    assert (removelast (x :: w) = take (length w) (x :: w)) as ->
      by (rewrite removelast_firstn_len; reflexivity).
    unfold len in *. cbn [length] in E.
    rewrite IH by (unfold len; rewrite length_take; cbn [length]; lia).
    do 2 f_equal. assert (Z.to_nat t = length w) as -> by lia.
    rewrite <- app_assoc. cbn [app]. rewrite !take_app. f_equal.
    rewrite take_take. f_equal. lia.
  - cbn [mbind result_bind]. rewrite IH by done. by rewrite <- app_assoc.
Qed.

Fixpoint pop_back_n (n : nat) (r : RollingMedian) : result () RollingMedian :=
  match n with O => Ok r | S n => r ← pop_back r; pop_back_n n r end.

Lemma pop_back_n_of n w t : pop_back_n n (rm_of w t) = Ok (rm_of (take (length w - n) w) t).
Proof.
  revert w. induction n as [|n IH]; intros w; cbn [pop_back_n].
  { by rewrite take_ge by lia. }
  rewrite pop_back_of. cbn [mbind result_bind]. rewrite IH. do 2 f_equal.
  rewrite removelast_firstn_len, length_firstn. rewrite take_take. f_equal. lia.
Qed.

(** ** Operations in sequence *)
Inductive rm_op := Push (x : Z) | PopFront | PopBack | AppendFront (xs : list Z).

Definition run_op (r : RollingMedian) (o : rm_op) : result () RollingMedian :=
  match o with
  | Push x => push r x
  | PopFront => pop_front r
  | PopBack => pop_back r
  | AppendFront xs => append_front r xs
  end.

(** The same on a plain queue of at most [t] items: pushing drops the oldest item, items
    appended to the front push out the youngest. *)
Definition queue_op (t : Z) (w : list Z) (o : rm_op) : list Z :=
  match o with
  | Push x => drop (length w + 1 - Z.to_nat t) (w ++ [x])
  | PopFront => tail w
  | PopBack => removelast w
  | AppendFront xs => take (Z.to_nat t) (xs ++ w)
  end.

Lemma get_mid_avg a b : is_u 64 a -> is_u 64 b -> get_mid a b = (a + b) / 2.
Proof.
  intros Ha Hb. unfold get_mid, wrap, is_u in *. zpow.
  pose proof (Z.div_mod a 2). pose proof (Z.div_mod b 2).
  pose proof (Z.mod_pos_bound a 2). pose proof (Z.mod_pos_bound b 2).
  rewrite !(Z.mod_small (2 * _)) by lia. rewrite !(Z.mod_small (_ - _)) by lia.
  rewrite !(Z.mod_small (_ - _ + _)) by lia. rewrite !(Z.mod_small (_ / 2 + _ / 2)) by lia.
  rewrite Z.mod_small; dlia.
Qed.

(** ** Claims *)

(** The rolling median is a window and nothing else: from [RollingMedian::new], no
    sequence of operations panics, the window is the queue that drops what exceeds the
    target length, and the sorted copy is always the window sorted. *)
Theorem rolling_median_refines t ops :
  1 <= t ->
  try_fold run_op (rm_new t) ops = Ok (rm_of (foldl (queue_op t) [] ops) t).
Proof.
  intros Ht.
  assert (forall w, len w <= t -> try_fold run_op (rm_of w t) ops = Ok (rm_of (foldl (queue_op t) w ops) t)) as H.
  { induction ops as [|o ops IH]; intros w Hw; [done|]. cbn [try_fold foldl].
    assert (run_op (rm_of w t) o = Ok (rm_of (queue_op t w o) t) /\ len (queue_op t w o) <= t) as [-> Hq].
    { unfold len in *. destruct o as [x| | |xs]; cbn [run_op queue_op].
      - rewrite push_of. split; [|rewrite length_drop, length_app; cbn; lia]. do 2 f_equal. unfold len.
        destruct (t <=? _) eqn:E; bsimp.
        + destruct w as [|y w]; cbn [length] in *; [lia|].
          replace (S (length w) + 1 - Z.to_nat t)%nat with 1%nat by lia. done.
        + by replace (length w + 1 - Z.to_nat t)%nat with 0%nat by lia.
      - rewrite pop_front_of. split; [done|]. destruct w; cbn in *; lia.
      - rewrite pop_back_of. split; [done|]. rewrite removelast_firstn_len, length_firstn. lia.
      - rewrite append_front_of by done. split; [done|]. rewrite length_take. lia. }
    cbn [mbind result_bind]. by apply IH. }
  apply (H []). unfold len. cbn. lia.
Qed.

Lemma rolling_median_refines_witness :
  try_fold run_op (rm_new 2) [Push 5; Push 1; Push 4; PopBack; AppendFront [9; 3]] = Ok (rm_of [9; 3] 2).
Proof. apply (rolling_median_refines 2 [Push 5; Push 1; Push 4; PopBack; AppendFront [9; 3]]). lia. Defined.

(** The median of a window of 64-bit values: the middle value of the sorted window,
    or the exact average, rounded down, of the two middle values; no overflow, and no
    panic unless the window is empty. *)
Theorem rm_median_spec w t :
  Forall (is_u 64) w -> len w < 2 ^ 63 ->
  let s := sort_unstable w in
  let mid := Z.to_nat (len w / 2) in
  rm_median (rm_of w t) =
    if decide (w = []) then Panic
    else if len w mod 2 =? 0 then Ok ((nth (mid - 1) s 0 + nth mid s 0) / 2) else Ok (nth mid s 0).
Proof.
  intros Hw Hl s mid. unfold rm_median, median. cbn [sorted_window rm_of]. fold s.
  assert (len s = len w) as Hls by (unfold s, len; by rewrite sort_perm).
  assert (forall i, 0 <= i < len w -> index s i = Ok (nth (Z.to_nat i) s 0)) as Hi.
  { intros i Hi. unfold index. rewrite (proj2 (Z.ltb_lt _ _)) by lia.
    rewrite nth_lookup_Some by (unfold len in *; lia). done. }
  assert (forall i, 0 <= i < len w -> is_u 64 (nth (Z.to_nat i) s 0)) as Hu.
  { intros i Hi'. assert (Forall (is_u 64) s) as Hs by (unfold s; by rewrite sort_perm).
    rewrite Forall_lookup in Hs. apply (Hs (Z.to_nat i)), nth_lookup_Some. unfold len in *. lia. }
  rewrite Hls. destruct (decide (w = [])) as [->|Hne]; [done|].
  assert (1 <= len w) as Hlen by (destruct w; [done|unfold len; cbn; lia]).
  destruct (len w =? 1) eqn:E1; bsimp.
  { unfold mid. rewrite E1. apply (Hi 0). rewrite E1. lia. }
  assert (1 <= len w / 2 < len w) as Hm by dlia.
  destruct (_ =? 0) eqn:E2; bsimp; [|by apply Hi; lia].
  rewrite (wrap_small 64) by zlia. rewrite !Hi by lia. cbn [mbind result_bind].
  rewrite get_mid_avg by (apply Hu; lia). unfold mid. by rewrite Z2Nat.inj_sub by lia.
Qed.

Lemma rm_median_spec_witness : rm_median (rm_of [9; 2; 4; 18446744073709551615] 4) = Ok 6.
Proof.
  rewrite rm_median_spec; [reflexivity| |reflexivity].
  repeat constructor; vm_compute; congruence.
Defined.

End Median.
