(* ===== verification/ChainDb.v ===== *)
(** * The block headers the context caches read ([src/types/types/src/types.rs],
    [src/consensus/context/src/lib.rs])

    The caches of the consensus context ask a database service for extended headers.
    [Database] is that service's interface, [Serves] is what its clients rely on: it
    answers with the blocks of the chain. *)
From S2P Require Import Prelude Bytes HardForks.
From Stdlib Require Import ZArith Lia String.
From stdpp Require Import base tactics option list numbers.
Import HardForks.

#[local] Open Scope Z_scope.

Module ChainDb.

Record ExtendedBlockHeader := mk_ext {
  version : HardFork;
  vote : Z;
  timestamp : Z;
  cumulative_difficulty : Z;
  block_weight : Z;
  long_term_weight : Z;
}.

Inductive Chain := Main | Alt (id : Z).

#[export] Instance Chain_eq_dec : EqDecision Chain.
Proof. solve_decision. Defined.

Inductive ContextCacheError := ConErr (msg : string) | DBErr (msg : string).

Abbreviation CResult := (result ContextCacheError).

(** [BlockchainReadRequest::BlockExtendedHeader] and
    [BlockchainReadRequest::BlockExtendedHeaderInRange] *)
Class Database (D : Type) := {
  block_extended_header : D -> Z -> CResult ExtendedBlockHeader;
  block_extended_header_in_range : D -> Z -> Z -> Chain -> CResult (list ExtendedBlockHeader);
}.

(** The other requests of the context: [BlockHash], [GeneratedCoins], [ChainHeight] and
    [FindBlock]. *)
Class ContextDatabase (D : Type) := {
  block_hash : D -> Z -> Chain -> CResult bytes;
  generated_coins : D -> Z -> CResult Z;
  chain_height : D -> CResult (Z * bytes);
  find_block : D -> bytes -> CResult (option (Chain * Z));
}.

(** The elements with indices in [a..b]. *)
Definition slice {A} (a b : Z) (l : list A) : list A :=
  take (Z.to_nat b - Z.to_nat a) (drop (Z.to_nat a) l).

Class Serves {D} `{!Database D} (db : D) (chain : Chain) (blocks : list ExtendedBlockHeader) : Prop := {
  serves_range : forall a b, 0 <= a -> b <= len blocks ->
    block_extended_header_in_range db a b chain = Ok (slice a b blocks);
  serves_block : forall h, chain = Main -> 0 <= h < len blocks ->
    exists hdr, blocks !! Z.to_nat h = Some hdr /\ block_extended_header db h = Ok hdr;
}.

(** A database that holds one main chain, to run the caches on. *)
#[export] Instance list_db : Database (list ExtendedBlockHeader) := {|
  block_extended_header db h :=
    if (h <? 0) || (len db <=? h) then Err (DBErr "key does not exist")
    else ok_or (db !! Z.to_nat h) (DBErr "key does not exist");
  block_extended_header_in_range db a b chain :=
    match chain with
    | Main => if len db <? b then Err (DBErr "key does not exist") else Ok (slice a b db)
    | Alt _ => Err (DBErr "no such chain")
    end;
|}.

#[export] Instance list_db_serves (db : list ExtendedBlockHeader) : Serves db Main db.
Proof.
  split.
  - intros a b Ha Hb. cbn. by rewrite (proj2 (Z.ltb_ge _ _)).
  - intros h _ Hh. destruct (lookup_lt_is_Some_2 db (Z.to_nat h)) as [hdr E]; [unfold len in Hh; lia|].
    exists hdr. split; [done|]. cbn. rewrite (proj2 (Z.ltb_ge _ _)), (proj2 (Z.leb_gt _ _)) by lia. cbn.
    by rewrite E.
Defined.

(** ** Slices *)
Lemma slice_all {A} (l : list A) b : len l <= b -> slice 0 b l = l.
Proof. intros H. unfold slice, len in *. cbn. rewrite drop_0, take_ge by lia. done. Qed.

Lemma slice_from {A} (l : list A) a : slice a (len l) l = drop (Z.to_nat a) l.
Proof. unfold slice, len. rewrite take_ge; [done|]. rewrite length_drop. lia. Qed.

Lemma slice_prefix {A} (l : list A) a b n :
  0 <= a -> b <= n -> slice a b (take (Z.to_nat n) l) = slice a b l.
Proof.
  intros Ha Hb. unfold slice. rewrite skipn_firstn_comm, take_take. f_equal. lia.
Qed.

Lemma slice_app {A} (l : list A) a b c :
  0 <= a -> a <= b -> b <= c -> slice a b l ++ slice b c l = slice a c l.
Proof.
  intros Ha Hab Hbc. unfold slice.
  replace (drop (Z.to_nat b) l) with (drop (Z.to_nat b - Z.to_nat a) (drop (Z.to_nat a) l))
    by (rewrite drop_drop; f_equal; lia).
  replace (Z.to_nat c - Z.to_nat a)%nat
    with ((Z.to_nat b - Z.to_nat a) + (Z.to_nat c - Z.to_nat b))%nat by lia.
  by rewrite take_take_drop.
Qed.

Lemma len_slice {A} (l : list A) a b : 0 <= a -> a <= b -> b <= len l -> len (slice a b l) = b - a.
Proof. intros. unfold slice, len in *. rewrite length_take, length_drop. lia. Qed.

Lemma slice_empty {A} (l : list A) a b : b <= a -> slice a b l = [].
Proof. intros H. unfold slice. by replace (Z.to_nat b - Z.to_nat a)%nat with 0%nat by lia. Qed.

(** A database that serves a chain serves its prefixes. *)
Lemma serves_take {D} `{!Database D} (db : D) chain blocks k :
  Serves db chain blocks -> Serves db chain (take k blocks).
Proof.
  intros [H1 H2]. split.
  - intros a b Ha Hb. assert (b <= len blocks) by (unfold len in *; rewrite length_take in Hb; lia).
    rewrite H1 by lia. f_equal. destruct (decide (k <= length blocks)%nat) as [Hk|Hk]; [|by rewrite take_ge by lia].
    rewrite <- (Nat2Z.id k), slice_prefix; [done|lia|]. unfold len in Hb. rewrite length_take in Hb. lia.
  - intros h Hc Hh. destruct (H2 h Hc) as (hdr & Hb & He); [unfold len in *; rewrite length_take in Hh; lia|].
    exists hdr. split; [|done]. rewrite lookup_take_lt; [done|]. unfold len in Hh. rewrite length_take in Hh. lia.
Qed.

(** ** Caches that follow the chain

    The main chain grows by a block or loses its newest blocks. A cache has an operation
    for each, and follows the chain when its state is always the function [state_of] of the
    chain's headers: a cache that has lived through any history is the cache one would
    build afresh. *)
Inductive event := NewBlock (hdr : ExtendedBlockHeader) | PopBlocks (n : Z).

Definition chain_after (blocks : list ExtendedBlockHeader) (e : event) : list ExtendedBlockHeader :=
  match e with
  | NewBlock hdr => blocks ++ [hdr]
  | PopBlocks n => take (Z.to_nat (len blocks - n)) blocks
  end.

(** The genesis block stays, heights stay within [usize]. *)
Definition event_ok (blocks : list ExtendedBlockHeader) (e : event) : Prop :=
  match e with
  | NewBlock _ => len blocks + 1 < 2 ^ 62
  | PopBlocks n => 0 <= n < len blocks
  end.

Fixpoint events_ok (blocks : list ExtendedBlockHeader) (es : list event) : Prop :=
  match es with
  | [] => True
  | e :: es => event_ok blocks e /\ events_ok (chain_after blocks e) es
  end.

Class ChainCache (S D : Type) := {
  cache_new_block : S -> Z -> ExtendedBlockHeader -> CResult S;
  cache_pop_blocks : S -> Z -> D -> CResult S;
}.

Class FollowsChain {S D} `{!Database D, !ChainCache S D} (state_of : list ExtendedBlockHeader -> S) : Prop := {
  follows_new : forall blocks hdr, 1 <= len blocks -> len blocks + 1 < 2 ^ 62 ->
    cache_new_block (D := D) (state_of blocks) (len blocks) hdr = Ok (state_of (blocks ++ [hdr]));
  follows_pop : forall blocks n (db : D), len blocks < 2 ^ 62 -> 0 <= n < len blocks ->
    Serves db Main (take (Z.to_nat (len blocks - n)) blocks) ->
    cache_pop_blocks (state_of blocks) n db = Ok (state_of (take (Z.to_nat (len blocks - n)) blocks));
}.

Section follows.
Context {S D : Type} `{!Database D, !ChainCache S D} (dbs : list ExtendedBlockHeader -> D).
Context `{!forall blocks, Serves (dbs blocks) Main blocks}.

(** The cache lives through the events; the database has the chain as it is after each. *)
Fixpoint run_events (s : S) (blocks : list ExtendedBlockHeader) (es : list event) : CResult S :=
  match es with
  | [] => Ok s
  | e :: es =>
      s ← (match e with
           | NewBlock hdr => cache_new_block (D := D) s (len blocks) hdr
           | PopBlocks n => cache_pop_blocks s n (dbs (chain_after blocks e))
           end);
      run_events s (chain_after blocks e) es
  end.

Lemma follows_events (state_of : list ExtendedBlockHeader -> S) `{!FollowsChain (D := D) state_of} blocks es :
  1 <= len blocks < 2 ^ 62 -> events_ok blocks es ->
  run_events (state_of blocks) blocks es = Ok (state_of (foldl chain_after blocks es)).
Proof.
  revert blocks. induction es as [|e es IH]; intros blocks Hl Hok; [done|]. destruct Hok as [He Hes].
  cbn [run_events foldl]. destruct e as [hdr|n]; cbn [chain_after event_ok] in *.
  - rewrite follows_new by lia. cbn [mbind result_bind]. apply IH; [|done]. rewrite len_app.
    change (len [_]) with 1. lia.
  - rewrite follows_pop; [|lia|done|apply _]. cbn [mbind result_bind]. apply IH; [|done].
    unfold len in *. rewrite length_take. lia.
Qed.
End follows.

End ChainDb.
