(* ===== verification/Difficulty.v ===== *)
(** * The difficulty cache ([src/consensus/context/src/difficulty.rs])

    The window of timestamps and cumulative difficulties, its maintenance when blocks
    are added and popped, and the difficulty of the next block. *)
From S2P Require Import Prelude Bytes HardForks Median ChainDb.
From Stdlib Require Import ZArith Lia.
From stdpp Require Import base tactics option list numbers sorting.
Import HardForks Median ChainDb.

#[local] Open Scope Z_scope.
#[local] Open Scope usize_scope.

Module Difficulty.

(** ** Configuration *)
Definition DIFFICULTY_WINDOW : Z := 720.
Definition DIFFICULTY_CUT : Z := 60.
Definition DIFFICULTY_LAG : Z := 15.

Record DifficultyCacheConfig := mk_config {
  window : Z;
  cut : Z;
  lag : Z;
  fixed_difficulty : option Z;
}.

Definition total_block_count (c : DifficultyCacheConfig) : Z := window c +! lag c.
Definition accounted_window_len (c : DifficultyCacheConfig) : Z := window c -! 2 *! cut c.
Definition main_net : DifficultyCacheConfig :=
  mk_config DIFFICULTY_WINDOW DIFFICULTY_CUT DIFFICULTY_LAG None.

Record DifficultyCache := mk_cache {
  timestamps : list Z;
  cumulative_difficulties : list Z;
  last_accounted_height : Z;
  config : DifficultyCacheConfig;
}.

(** ** Building the cache *)
Section db.
Context {D : Type} `{!Database D}.

Definition get_blocks_in_pow_info (database : D) (a b : Z) (chain : Chain) : CResult (list Z * list Z) :=
  ext_header ← block_extended_header_in_range database a b chain;
  Ok (map timestamp ext_header, map cumulative_difficulty ext_header).

Definition init_from_chain_height (chain_height : Z) (config : DifficultyCacheConfig) (database : D)
    (chain : Chain) : CResult DifficultyCache :=
  let block_start := saturating_sub chain_height (total_block_count config) in
  (* skip the genesis block *)
  let block_start := if block_start =? 0 then 1 else block_start in
  '(ts, cds) ← get_blocks_in_pow_info database block_start chain_height chain;
  Ok (mk_cache ts cds (chain_height -! 1) config).

Definition pop_blocks_main_chain (c : DifficultyCache) (numb_blocks : Z) (database : D)
    : CResult DifficultyCache :=
  match checked_sub (len (timestamps c)) numb_blocks with
  | None =>
      init_from_chain_height (last_accounted_height c -! numb_blocks +! 1) (config c) database Main
  | Some retained_blocks =>
      let current_chain_height := last_accounted_height c +! 1 in
      let new_start_height :=
        saturating_sub (saturating_sub current_chain_height (total_block_count (config c))) numb_blocks in
      (* skip the genesis block *)
      let new_start_height := if new_start_height =? 0 then 1 else new_start_height in
      '(ts, cds) ← get_blocks_in_pow_info database new_start_height
                     (current_chain_height -! len (timestamps c)) Main;
      let ts := ts ++ take (Z.to_nat retained_blocks) (timestamps c) in
      let cds := cds ++ take (Z.to_nat retained_blocks) (cumulative_difficulties c) in
      _ ← rassert (len ts =? len cds);
      Ok (mk_cache ts cds (last_accounted_height c -! numb_blocks) (config c))
  end.
End db.

(** [push_back], and [pop_front] when there are more than [total_block_count] *)
Definition push_bounded (total : Z) (ts cds : list Z) (t cd : Z) : list Z * list Z :=
  let ts := ts ++ [t] in
  let cds := cds ++ [cd] in
  if total <? len ts then (tail ts, tail cds) else (ts, cds).

Definition new_block (c : DifficultyCache) (height timestamp cumulative_difficulty : Z)
    : result () DifficultyCache :=
  _ ← rassert (last_accounted_height c +! 1 =? height);
  let '(ts, cds) := push_bounded (total_block_count (config c)) (timestamps c)
                      (cumulative_difficulties c) timestamp cumulative_difficulty in
  Ok (mk_cache ts cds (last_accounted_height c +! 1) (config c)).

(** ** The next difficulty *)
Definition get_window_start_and_end (window_len accounted_window window : Z) : Z * Z :=
  let window_len := if window <? window_len then window else window_len in
  if window_len <=? accounted_window then (0, window_len)
  else
    let start := div_ceil (window_len -! accounted_window) 2 in
    (start, start +! accounted_window).

(** [slice.select_nth_unstable(i).1]: the [i]-th smallest element. The call reorders the
    slice, which does not change what a second call returns. *)
Definition select_nth_unstable (l : list Z) (i : Z) : result () Z := index (sort_unstable l) i.

Definition next_difficulty (config : DifficultyCacheConfig) (ts cds : list Z) (hf : HardFork)
    : result () Z :=
  match fixed_difficulty config with
  | Some d => Ok d
  | None =>
      if len ts <=? 1 then Ok 1
      else
        (* remove the lag *)
        let ts := if window config <? len ts then take (Z.to_nat (window config)) ts else ts in
        let '(window_start, window_end) :=
          get_window_start_and_end (len ts) (accounted_window_len config) (window config) in
        t_end ← select_nth_unstable ts (window_end -! 1);
        t_start ← select_nth_unstable ts window_start;
        let time_span := t_end -! t_start in
        w_end ← index cds (window_end -! 1);
        w_start ← index cds window_start;
        let windowed_work := wrap 128 (w_end - w_start) in
        let time_span := if time_span =? 0 then 1 else time_span in
        Ok (div_ceil (wrap 128 (windowed_work * block_time hf)) time_span)
  end.

Definition cache_next_difficulty (c : DifficultyCache) (hf : HardFork) : result () Z :=
  next_difficulty (config c) (timestamps c) (cumulative_difficulties c) hf.

(** The loop of [next_difficulties]: [d] is the last difficulty found. *)
Fixpoint next_difficulties_loop (config : DifficultyCacheConfig) (ts cds : list Z) (d : Z)
    (blocks : list (Z * HardFork)) : result () (list Z) :=
  match blocks with
  | [] => Ok []
  | (new_timestamp, hf) :: blocks =>
      let last_cum_diff := default 1 (last cds) in
      let '(ts, cds) := push_bounded (total_block_count config) ts cds new_timestamp
                          (wrap 128 (last_cum_diff + d)) in
      d ← next_difficulty config ts cds hf;
      ds ← next_difficulties_loop config ts cds d blocks;
      Ok (d :: ds)
  end.

Definition next_difficulties (c : DifficultyCache) (blocks : list (Z * HardFork)) (current_hf : HardFork)
    : result () (list Z) :=
  d ← cache_next_difficulty c current_hf;
  ds ← next_difficulties_loop (config c) (timestamps c) (cumulative_difficulties c) d blocks;
  Ok (d :: ds).

(** ** Queries *)
Definition median_timestamp (c : DifficultyCache) (numb_blocks : Z) : result () (option Z) :=
  if last_accounted_height c +! 1 =? numb_blocks then
    m ← median (sort_unstable (0 :: timestamps c)); Ok (Some m)
  else
    match checked_sub (len (timestamps c)) numb_blocks with
    | None => Ok None
    | Some n => m ← median (sort_unstable (drop (Z.to_nat n) (timestamps c))); Ok (Some m)
    end.

Definition cache_cumulative_difficulty (c : DifficultyCache) : Z :=
  default 1 (last (cumulative_difficulties c)).

Definition top_block_timestamp (c : DifficultyCache) : option Z := last (timestamps c).

(** ** The cache as a window of the chain *)

(** The first height of the window: the last [total_block_count] blocks, and never the
    genesis block. *)
Definition window_start (cfg : DifficultyCacheConfig) (height : Z) : Z :=
  Z.max 1 (height - (window cfg + lag cfg)).

Definition cache_of (cfg : DifficultyCacheConfig) (blocks : list ExtendedBlockHeader) : DifficultyCache :=
  let w := drop (Z.to_nat (window_start cfg (len blocks))) blocks in
  mk_cache (map timestamp w) (map ChainDb.cumulative_difficulty w) (len blocks - 1) cfg.

Definition config_ok (cfg : DifficultyCacheConfig) : Prop :=
  1 <= window cfg /\ 0 <= lag cfg /\ window cfg + lag cfg < 2 ^ 63.

Lemma total_ok cfg : config_ok cfg -> total_block_count cfg = window cfg + lag cfg.
Proof. intros (H1 & H2 & H3). apply wrap_small. zlia. Qed.

Lemma init_start cfg h :
  config_ok cfg -> 1 <= h ->
  (if saturating_sub h (total_block_count cfg) =? 0 then 1 else saturating_sub h (total_block_count cfg))
    = window_start cfg h.
Proof.
  intros Hc Hh. rewrite total_ok by done. unfold saturating_sub, window_start.
  destruct (_ =? 0) eqn:E; bsimp; lia.
Qed.

Lemma window_start_range cfg h : config_ok cfg -> 1 <= h -> 1 <= window_start cfg h <= h.
Proof. intros (H1 & H2 & H3) Hh. unfold window_start. lia. Qed.

Section maintenance.
Context {D : Type} `{!Database D} (db : D).

Lemma init_cache_of cfg h chain blocks :
  config_ok cfg -> 1 <= h <= len blocks -> h < 2 ^ 63 -> Serves db chain blocks ->
  init_from_chain_height h cfg db chain = Ok (cache_of cfg (take (Z.to_nat h) blocks)).
Proof.
  intros Hc Hh Hh63 Hs. unfold init_from_chain_height, get_blocks_in_pow_info.
  rewrite init_start by (done || lia). pose proof (window_start_range cfg h Hc ltac:(lia)).
  rewrite serves_range by lia. cbn [mbind result_bind].
  assert (len (take (Z.to_nat h) blocks) = h) as Hl by (unfold len in *; rewrite length_take; lia).
  unfold cache_of. rewrite Hl, wrap_small by zlia.
  rewrite <- slice_from, Hl, slice_prefix by lia. done.
Qed.

Lemma new_block_cache_of cfg blocks hdr :
  config_ok cfg -> 1 <= len blocks < 2 ^ 63 ->
  new_block (cache_of cfg blocks) (len blocks) (timestamp hdr) (ChainDb.cumulative_difficulty hdr)
    = Ok (cache_of cfg (blocks ++ [hdr])).
Proof.
  intros Hc Hl. set (after := cache_of cfg (blocks ++ [hdr])). unfold new_block.
  cbn [last_accounted_height timestamps cumulative_difficulties config cache_of].
  rewrite wrap_small by zlia. replace (len blocks - 1 + 1) with (len blocks) by lia.
  rewrite Z.eqb_refl. cbn [rassert mbind result_bind]. rewrite total_ok by done.
  unfold push_bounded. rewrite len_app. change (len [_]) with 1.
  assert (len (blocks ++ [hdr]) = len blocks + 1) as Hl' by (by rewrite len_app).
  unfold after, cache_of. rewrite Hl'. replace (len blocks + 1 - 1) with (len blocks) by lia.
  pose proof (window_start_range cfg (len blocks) Hc ltac:(lia)) as Hw.
  set (s := window_start cfg (len blocks)) in *.
  assert (len (map timestamp (drop (Z.to_nat s) blocks)) = len blocks - s) as Hm
    by (unfold len in *; rewrite length_map, length_drop; lia).
  destruct Hc as (Hc1 & Hc2 & Hc3).
  rewrite Hm. destruct (_ <? _) eqn:E; bsimp.
  - assert (window_start cfg (len blocks + 1) = s + 1) as -> by (unfold s, window_start in *; lia).
    rewrite Z2Nat.inj_add, <- drop_drop by lia. change (Z.to_nat 1) with 1%nat.
    rewrite drop_app_le by (unfold len in *; lia).
    assert (drop (Z.to_nat s) blocks <> []) as Hne.
    { intros E'. rewrite E' in Hm. unfold len in Hm. cbn in Hm. unfold s, window_start, len in *. lia. }
    destruct (drop (Z.to_nat s) blocks) as [|x w]; [done|]. cbn [map app tail drop].
    by rewrite drop_0, !map_app.
  - assert (window_start cfg (len blocks + 1) = s) as -> by (unfold s, window_start in *; lia).
    rewrite drop_app_le by (unfold len in *; lia). by rewrite !map_app.
Qed.

Lemma pop_blocks_cache_of cfg blocks n :
  config_ok cfg -> len blocks < 2 ^ 63 -> 0 <= n < len blocks ->
  Serves db Main (take (Z.to_nat (len blocks - n)) blocks) ->
  pop_blocks_main_chain (cache_of cfg blocks) n db
    = Ok (cache_of cfg (take (Z.to_nat (len blocks - n)) blocks)).
Proof.
  intros Hc Hl Hn Hs. unfold pop_blocks_main_chain.
  pose proof (window_start_range cfg (len blocks) Hc ltac:(lia)) as Hw.
  set (s := window_start cfg (len blocks)) in *.
  assert (len (take (Z.to_nat (len blocks - n)) blocks) = len blocks - n) as Hlt
    by (unfold len in *; rewrite length_take; lia).
  assert (len (timestamps (cache_of cfg blocks)) = len blocks - s) as Hm
    by (cbn [timestamps cache_of]; unfold len in *; rewrite length_map, length_drop; lia).
  rewrite Hm. unfold checked_sub. cbn [last_accounted_height config cache_of].
  destruct (n <=? len blocks - s) eqn:E; bsimp.
  - rewrite !wrap_small by zlia. replace (len blocks - 1 + 1) with (len blocks) by lia.
    replace (len blocks - (len blocks - s)) with s by lia.
    replace (if _ =? 0 then 1 else _) with (window_start cfg (len blocks - n)).
    2: { rewrite total_ok by done. unfold saturating_sub, window_start.
         destruct (_ =? 0) eqn:E'; bsimp; lia. }
    pose proof (window_start_range cfg (len blocks - n) Hc ltac:(lia)) as Hw'.
    set (s' := window_start cfg (len blocks - n)) in *.
    assert (s' <= s) by (unfold s, s', window_start; lia).
    unfold get_blocks_in_pow_info. rewrite serves_range by lia. cbn [mbind result_bind].
    rewrite slice_prefix by lia.
    replace (Z.to_nat (len blocks - s - n)) with (Z.to_nat (len blocks - n) - Z.to_nat s)%nat by lia.
    set (after := cache_of _ (take _ _)). cbn [timestamps cumulative_difficulties cache_of]. fold s.
    rewrite !firstn_map, <- !map_app. fold (slice s (len blocks - n) blocks).
    rewrite slice_app by lia.
    rewrite (proj2 (Z.eqb_eq _ _)) by (unfold len; by rewrite !length_map). cbn [rassert mbind result_bind].
    unfold after, cache_of. rewrite Hlt. fold s'.
    assert (drop (Z.to_nat s') (take (Z.to_nat (len blocks - n)) blocks) = slice s' (len blocks - n) blocks) as ->
      by (rewrite <- slice_from, Hlt; apply slice_prefix; lia).
    do 2 f_equal. lia.
  - rewrite (wrap_small 64 (len blocks - 1 - n)), wrap_small by zlia.
    replace (len blocks - 1 - n + 1) with (len blocks - n) by lia.
    rewrite (init_cache_of cfg _ Main (take (Z.to_nat (len blocks - n)) blocks)); [|done|lia|lia|done].
    do 2 f_equal. rewrite take_take. f_equal. lia.
Qed.

End maintenance.

(** Panics of [new_block] carry over. *)
#[export] Instance difficulty_chain_cache {D} `{!Database D} : ChainCache DifficultyCache D := {|
  cache_new_block c height hdr :=
    match new_block c height (timestamp hdr) (ChainDb.cumulative_difficulty hdr) with
    | Ok c => Ok c
    | _ => Panic
    end;
  cache_pop_blocks := pop_blocks_main_chain;
|}.

Lemma difficulty_follows {D} `{!Database D} cfg : config_ok cfg -> FollowsChain (D := D) (cache_of cfg).
Proof.
  intros Hc. split.
  - intros blocks hdr H1 H2. cbn [cache_new_block difficulty_chain_cache].
    by rewrite new_block_cache_of by (done || lia).
  - intros blocks n db Hl Hn Hs. apply pop_blocks_cache_of; done || lia.
Qed.

(** ** The next difficulty: facts *)
Lemma index_nth l i : 0 <= i < len l -> index l i = Ok (nth (Z.to_nat i) l 0).
Proof.
  intros Hi. unfold index. rewrite (proj2 (Z.ltb_lt _ _)) by lia.
  rewrite nth_lookup_Some by (unfold len in *; lia). done.
Qed.

(** The window after the outliers are cut, as the book defines it. *)
Definition cut_window (cfg : DifficultyCacheConfig) (n : Z) : Z * Z :=
  let acc := window cfg - 2 * cut cfg in
  if n <=? acc then (0, n) else let s := (n - acc + 1) / 2 in (s, s + acc).

Lemma get_window_ok cfg n :
  0 <= cut cfg -> 2 <= window cfg - 2 * cut cfg -> window cfg < 2 ^ 63 -> 2 <= n <= window cfg ->
  get_window_start_and_end n (accounted_window_len cfg) (window cfg) = cut_window cfg n /\
  0 <= (cut_window cfg n).1 /\ (cut_window cfg n).1 + 2 <= (cut_window cfg n).2 <= n.
Proof.
  intros Hc Ha Hw Hn. unfold get_window_start_and_end, cut_window, accounted_window_len.
  rewrite (wrap_small 64 (2 * cut cfg)), (wrap_small 64 (window cfg - _)) by zlia.
  rewrite (proj2 (Z.ltb_ge _ _)) by lia.
  destruct (n <=? window cfg - 2 * cut cfg) eqn:E; bsimp; cbn [fst snd]; [split; [done|lia]|].
  rewrite (wrap_small 64 (n - _)) by zlia. rewrite div_ceil_spec by lia.
  replace (n - (window cfg - 2 * cut cfg) + 2 - 1) with (n - (window cfg - 2 * cut cfg) + 1) by lia.
  rewrite wrap_small; [split; [done|dlia]|]. unfold is_u. zpow. dlia.
Qed.

Lemma sort_nth_le l i j : (i <= j < length l)%nat -> nth i (sort_unstable l) 0 <= nth j (sort_unstable l) 0.
Proof.
  intros H. assert (length (sort_unstable l) = length l) as Hl by (by rewrite sort_perm).
  apply (sorted_lookup (sort_unstable l) i j); [apply sort_sorted|lia|apply nth_lookup_Some; lia..].
Qed.

Lemma nth_Forall (P : Z -> Prop) l i : Forall P l -> (i < length l)%nat -> P (nth i l 0).
Proof. intros H Hi. rewrite Forall_lookup in H. apply (H i), nth_lookup_Some, Hi. Qed.

(** Strictly increasing lists. *)
Lemma increasing_nth l i j : StronglySorted Z.lt l -> (i < j < length l)%nat -> nth i l 0 < nth j l 0.
Proof.
  intros Hs. revert i j. induction Hs as [|x l Hs IH Hx]; intros i j H; cbn [length] in H; [lia|].
  destruct i as [|i], j as [|j]; cbn [nth]; try lia.
  - apply (nth_Forall _ _ _ Hx). lia.
  - apply IH. lia.
Qed.

(** ** Claims *)

(** C31. The difficulty cache follows the chain: after any sequence of new and popped blocks
    it is the cache of the present chain, as built afresh by [init_from_chain_height], and
    no operation fails. *)
Theorem difficulty_cache_follows_chain {D} `{!Database D} (dbs : list ExtendedBlockHeader -> D)
    (serves : forall blocks, Serves (dbs blocks) Main blocks) cfg blocks es :
  config_ok cfg -> 1 <= len blocks < 2 ^ 62 -> events_ok blocks es ->
  let blocks' := foldl chain_after blocks es in
  1 <= len blocks' < 2 ^ 62 ->
  (c ← init_from_chain_height (len blocks) cfg (dbs blocks) Main; run_events dbs c blocks es)
    = init_from_chain_height (len blocks') cfg (dbs blocks') Main.
Proof.
  intros Hc Hl He blocks' Hl'. pose proof (difficulty_follows (D := D) cfg Hc) as Hf.
  rewrite (init_cache_of (dbs blocks) cfg (len blocks) Main blocks Hc); [|lia|lia|done].
  rewrite (init_cache_of (dbs blocks') cfg (len blocks') Main blocks' Hc); [|lia|lia|done].
  cbn [mbind result_bind]. unfold len. rewrite !Nat2Z.id, !firstn_all.
  by apply (follows_events dbs (cache_of cfg)).
Qed.

(** C32. The next difficulty is the work done in the window, cut of its outlying
    timestamps, times the target block time, divided by the time the window took (at
    least one second), rounded up; it is never 0, and nothing overflows or panics while
    the work fits. *)
Theorem next_difficulty_spec cfg ts cds hf :
  fixed_difficulty cfg = None ->
  0 <= cut cfg -> 2 <= window cfg - 2 * cut cfg -> window cfg < 2 ^ 63 ->
  len cds = len ts -> 2 <= len ts < 2 ^ 63 -> Forall (is_u 64) ts ->
  StronglySorted Z.lt cds -> Forall (is_u 120) cds ->
  let n := Z.min (window cfg) (len ts) in
  let sorted_ts := sort_unstable (take (Z.to_nat n) ts) in
  let '(s, e) := cut_window cfg n in
  let at_ l i := nth (Z.to_nat i) l 0 in
  let span := Z.max 1 (at_ sorted_ts (e - 1) - at_ sorted_ts s) in
  let work := at_ cds (e - 1) - at_ cds s in
  next_difficulty cfg ts cds hf = Ok ((work * block_time hf + span - 1) / span) /\
  1 <= (work * block_time hf + span - 1) / span.
Proof.
  intros Hf Hcut Hacc Hw Hlc Hl Ht Hinc Hu n sorted_ts.
  destruct (get_window_ok cfg n) as (Hg & H0 & Hse); [done..|unfold n; lia|].
  destruct (cut_window cfg n) as [s e]. cbn [fst snd] in H0, Hse. intros at_ span work.
  assert (take (Z.to_nat n) ts = if window cfg <? len ts then take (Z.to_nat (window cfg)) ts else ts) as Htk.
  { unfold n. destruct (_ <? _) eqn:E; bsimp; [by rewrite Z.min_l by lia|].
    rewrite Z.min_r by lia. rewrite take_ge; [done|unfold len; lia]. }
  assert (len (take (Z.to_nat n) ts) = n) as Hln by (unfold len in *; rewrite length_take; lia).
  assert (len sorted_ts = n) as Hls by (unfold sorted_ts, len; rewrite sort_perm; done).
  assert (Forall (is_u 64) sorted_ts) as Hts by (unfold sorted_ts; rewrite sort_perm; by apply Forall_take).
  assert (forall i, s <= i < e -> is_u 64 (at_ sorted_ts i)) as Hat1.
  { intros i Hi. apply (nth_Forall (is_u 64)); [done|]. unfold len in *. lia. }
  assert (forall i, s <= i < e -> is_u 120 (at_ cds i)) as Hat2.
  { intros i Hi. apply (nth_Forall (is_u 120)); [done|]. unfold len in *. lia. }
  assert (at_ sorted_ts s <= at_ sorted_ts (e - 1)) as Hspan.
  { apply sort_nth_le. unfold len in *. rewrite length_take. lia. }
  assert (0 < work) as Hwork.
  { unfold work. assert (at_ cds s < at_ cds (e - 1)); [|lia].
    apply increasing_nth; [done|]. unfold len in *. lia. }
  pose proof (Hat1 s ltac:(lia)) as U1. pose proof (Hat1 (e - 1) ltac:(lia)) as U2.
  pose proof (Hat2 s ltac:(lia)) as U3. pose proof (Hat2 (e - 1) ltac:(lia)) as U4.
  assert (0 < block_time hf <= 120) as Hbt by (destruct hf; done).
  unfold next_difficulty. rewrite Hf, (proj2 (Z.leb_gt _ _)), <- Htk, Hln, Hg by lia.
  unfold select_nth_unstable. fold sorted_ts.
  rewrite (wrap_small 64 (e - 1)) by zlia. rewrite !index_nth by lia. cbn [mbind result_bind].
  fold (at_ sorted_ts (e - 1)) (at_ sorted_ts s) (at_ cds (e - 1)) (at_ cds s).
  rewrite (wrap_small 64) by (unfold is_u in *; lia).
  fold work. rewrite (wrap_small 128 work) by (unfold is_u, work in *; zpow; lia).
  rewrite (wrap_small 128 (work * _)) by (unfold is_u, work in *; zpow; nia).
  assert ((if at_ sorted_ts (e - 1) - at_ sorted_ts s =? 0 then 1 else at_ sorted_ts (e - 1) - at_ sorted_ts s)
    = span) as -> by (unfold span; destruct (_ =? 0) eqn:E; bsimp; lia).
  assert (1 <= span) by (unfold span; lia). rewrite div_ceil_spec by lia.
  split; [done|]. apply Z.div_le_lower_bound; nia.
Qed.

(** The difficulties of blocks that are really added, one after the other. *)
Fixpoint add_and_ask (c : DifficultyCache) (d : Z) (blocks : list (Z * HardFork)) : result () (list Z) :=
  match blocks with
  | [] => Ok []
  | (t, hf) :: blocks =>
      c ← new_block c (last_accounted_height c +! 1) t (wrap 128 (cache_cumulative_difficulty c + d));
      d ← cache_next_difficulty c hf;
      ds ← add_and_ask c d blocks;
      Ok (d :: ds)
  end.

(** [next_difficulties] gives the difficulties one would get by adding the blocks to
    the cache one after the other, each with the difficulty found for it. *)
Theorem next_difficulties_sequential c blocks hf :
  next_difficulties c blocks hf =
    (d ← cache_next_difficulty c hf; ds ← add_and_ask c d blocks; Ok (d :: ds)).
Proof.
  unfold next_difficulties. destruct (cache_next_difficulty c hf) as [d| |]; cbn [mbind result_bind]; [|done..].
  f_equal. revert c d. induction blocks as [|[t hf'] blocks IH]; intros c d; [done|].
  cbn [next_difficulties_loop add_and_ask]. unfold new_block. rewrite Z.eqb_refl. cbn [rassert mbind result_bind].
  unfold cache_cumulative_difficulty.
  destruct (push_bounded _ _ _ _ _) as [ts cds]. cbn [mbind result_bind]. unfold cache_next_difficulty.
  cbn [config timestamps cumulative_difficulties].
  destruct (next_difficulty (config c) ts cds hf') as [d'| |]; cbn [mbind result_bind]; [|done..].
  by rewrite <- (IH (mk_cache ts cds (last_accounted_height c +! 1) (config c)) d').
Qed.

(** The median timestamp over the last [n] blocks of the chain, the genesis block
    included when the chain has exactly [n] blocks, and [None] when it has fewer. *)
Theorem median_timestamp_spec cfg blocks genesis rest n :
  config_ok cfg -> blocks = genesis :: rest -> timestamp genesis = 0 -> len blocks < 2 ^ 63 ->
  1 <= n <= window cfg + lag cfg ->
  median_timestamp (cache_of cfg blocks) n =
    if len blocks <? n then Ok None
    else m ← median (sort_unstable (map timestamp (drop (Z.to_nat (len blocks - n)) blocks))); Ok (Some m).
Proof.
  intros Hc Hb Hg Hl Hn. unfold median_timestamp. cbn [last_accounted_height timestamps cache_of].
  assert (1 <= len blocks) as Hl1 by (subst blocks; unfold len; cbn; lia).
  rewrite wrap_small by zlia. replace (len blocks - 1 + 1) with (len blocks) by lia.
  set (s := window_start cfg (len blocks)).
  assert (len (map timestamp (drop (Z.to_nat s) blocks)) = len blocks - s) as Hm.
  { unfold len in *. rewrite length_map, length_drop. unfold s, window_start. destruct Hc. lia. }
  rewrite Hm. destruct (len blocks =? n) eqn:E; bsimp.
  - rewrite E, Z.ltb_irrefl, Z.sub_diag. change (Z.to_nat 0) with 0%nat. rewrite drop_0.
    assert (s = 1) as -> by (unfold s, window_start; lia). subst blocks. cbn [drop Z.to_nat Pos.to_nat map].
    by rewrite Hg.
  - unfold checked_sub. destruct (len blocks <? n) eqn:E1; bsimp.
    + rewrite (proj2 (Z.leb_gt _ _)); [done|]. unfold s, window_start. lia.
    + rewrite (proj2 (Z.leb_le _ _)) by (unfold s, window_start; lia).
      rewrite skipn_map, drop_drop. destruct Hc as (Hc1 & Hc2 & Hc3).
      replace (Z.to_nat s + Z.to_nat (len blocks - s - n))%nat with (Z.to_nat (len blocks - n)); [done|].
      unfold s, window_start. lia.
Qed.

(** ** The theorems at concrete inputs *)
Section witnesses.
Let blk (t d : Z) : ExtendedBlockHeader := mk_ext V1 1 t d 100 100.
Let cfg : DifficultyCacheConfig := mk_config 4 1 1 None.

Lemma difficulty_cache_follows_chain_witness :
  let blocks := [blk 0 1; blk 10 2] in
  let es := [NewBlock (blk 20 3); NewBlock (blk 30 4); PopBlocks 2; NewBlock (blk 25 9)] in
  (c ← init_from_chain_height 2 cfg blocks Main; run_events id c blocks es)
    = init_from_chain_height 3 cfg [blk 0 1; blk 10 2; blk 25 9] Main.
Proof.
  apply (difficulty_cache_follows_chain id (fun b => list_db_serves b) cfg [blk 0 1; blk 10 2]
    [NewBlock (blk 20 3); NewBlock (blk 30 4); PopBlocks 2; NewBlock (blk 25 9)]);
    vm_compute; intuition congruence.
Defined.

Lemma next_difficulty_spec_witness : next_difficulty cfg [10; 40; 20; 70] [100; 200; 300; 400] V2 = Ok 600.
Proof.
  destruct (next_difficulty_spec cfg [10; 40; 20; 70] [100; 200; 300; 400] V2) as [H _].
  1-6: done.
  - repeat constructor; done.
  - repeat constructor; done.
  - repeat constructor; done.
  - exact H.
Defined.

Lemma median_timestamp_spec_witness :
  median_timestamp (cache_of cfg [blk 0 1; blk 10 2; blk 30 3]) 3 = Ok (Some 10).
Proof.
  rewrite (median_timestamp_spec cfg _ (blk 0 1) [blk 10 2; blk 30 3] 3);
    vm_compute; intuition congruence.
Defined.
End witnesses.

End Difficulty.
