(* ===== verification/RulesBase.v ===== *)
(** * Amounts and block limits ([src/consensus/rules/src]: [decomposed_amount.rs] and the
    size, proof-of-work and seed-height rules of [blocks.rs])

    The rules on single numbers that the transaction rules, the block rules and the
    weight cache share. *)
From S2P Require Import Prelude Bytes HardForks Median.
From Stdlib Require Import ZArith Lia.
From stdpp Require Import base tactics option list numbers sorting.
Import HardForks Median.

#[local] Open Scope Z_scope.
#[local] Open Scope usize_scope.

Module RulesBase.

(** ** Decomposed amounts *)
Definition DECOMPOSED_AMOUNTS : list Z :=
  [ 1; 2; 3; 4; 5; 6; 7; 8; 9;
    10; 20; 30; 40; 50; 60; 70; 80; 90;
    100; 200; 300; 400; 500; 600; 700; 800; 900;
    1000; 2000; 3000; 4000; 5000; 6000; 7000; 8000; 9000;
    10000; 20000; 30000; 40000; 50000; 60000; 70000; 80000; 90000;
    100000; 200000; 300000; 400000; 500000; 600000; 700000; 800000; 900000;
    1000000; 2000000; 3000000; 4000000; 5000000; 6000000; 7000000; 8000000; 9000000;
    10000000; 20000000; 30000000; 40000000; 50000000; 60000000; 70000000; 80000000; 90000000;
    100000000; 200000000; 300000000; 400000000; 500000000; 600000000; 700000000; 800000000; 900000000;
    1000000000; 2000000000; 3000000000; 4000000000; 5000000000; 6000000000; 7000000000; 8000000000; 9000000000;
    10000000000; 20000000000; 30000000000; 40000000000; 50000000000; 60000000000; 70000000000; 80000000000; 90000000000;
    100000000000; 200000000000; 300000000000; 400000000000; 500000000000; 600000000000; 700000000000; 800000000000; 900000000000;
    1000000000000; 2000000000000; 3000000000000; 4000000000000; 5000000000000; 6000000000000; 7000000000000; 8000000000000; 9000000000000;
    10000000000000; 20000000000000; 30000000000000; 40000000000000; 50000000000000; 60000000000000; 70000000000000; 80000000000000; 90000000000000;
    100000000000000; 200000000000000; 300000000000000; 400000000000000; 500000000000000; 600000000000000; 700000000000000; 800000000000000; 900000000000000;
    1000000000000000; 2000000000000000; 3000000000000000; 4000000000000000; 5000000000000000; 6000000000000000; 7000000000000000; 8000000000000000; 9000000000000000;
    10000000000000000; 20000000000000000; 30000000000000000; 40000000000000000; 50000000000000000; 60000000000000000; 70000000000000000; 80000000000000000; 90000000000000000;
    100000000000000000; 200000000000000000; 300000000000000000; 400000000000000000; 500000000000000000; 600000000000000000; 700000000000000000; 800000000000000000; 900000000000000000;
    1000000000000000000; 2000000000000000000; 3000000000000000000; 4000000000000000000; 5000000000000000000; 6000000000000000000; 7000000000000000000; 8000000000000000000; 9000000000000000000;
    10000000000000000000 ].

Definition is_decomposed_amount (amount : Z) : bool :=
  match binary_search DECOMPOSED_AMOUNTS amount with inl _ => true | inr _ => false end.

(** ** Penalty-free zones and sizes *)
Definition PENALTY_FREE_ZONE_1 : Z := 20000.
Definition PENALTY_FREE_ZONE_2 : Z := 60000.
Definition PENALTY_FREE_ZONE_5 : Z := 300000.

Definition penalty_free_zone (hf : HardFork) : Z :=
  if bool_decide (hf = V1) then PENALTY_FREE_ZONE_1
  else if hf_le V2 hf && hf_lt hf V5 then PENALTY_FREE_ZONE_2
  else PENALTY_FREE_ZONE_5.

Definition BLOCK_SIZE_SANITY_LEEWAY : Z := 100.

Inductive MinerTxError :=
  | VersionInvalid
  | IncorrectNumbOfInputs
  | InputsHeightIncorrect
  | InputNotOfTypeGen
  | InvalidLockTime
  | OutputNotDecomposed
  | MinerOutputsOverflow
  | OutputAmountIncorrect
  | RCTTypeNotNULL
  | InvalidOutputType.

Inductive BlockError :=
  | POWInvalid
  | TooLarge
  | TooManyTxs
  | PreviousIDIncorrect
  | TimeStampInvalid
  | DuplicateTransaction
  | BlockHardForkError (e : HardForkError)
  | BlockMinerTxError (e : MinerTxError).

Definition block_size_sanity_check (block_blob_len effective_median : Z) : result BlockError () :=
  if effective_median *! 2 +! BLOCK_SIZE_SANITY_LEEWAY <? block_blob_len then Err TooLarge else Ok ().

Definition check_block_weight (block_weight median_for_block_reward : Z) : result BlockError () :=
  if median_for_block_reward *! 2 <? block_weight then Err TooLarge else Ok ().

Definition check_amount_txs (number_none_miner_txs : Z) : result BlockError () :=
  if 0x10000000 <? number_none_miner_txs +! 1 then Err TooManyTxs else Ok ().

(** ** Proof of work *)

(** [U256::from_le_slice] and [checked_mul] *)
Definition check_block_pow (hash : bytes) (difficulty : Z) : result BlockError () :=
  let int_hash := le_combine hash in
  match checked_mul 256 int_hash difficulty with None => Err POWInvalid | Some _ => Ok () end.

Definition RX_SEEDHASH_EPOCH_BLOCKS : Z := 2048.
Definition RX_SEEDHASH_EPOCH_LAG : Z := 64.

Definition is_randomx_seed_height (height : Z) : bool := height mod RX_SEEDHASH_EPOCH_BLOCKS =? 0.

(** [!x] of a [usize] *)
Definition usize_not (x : Z) : Z := Z.lxor x u64_MAX.

Definition randomx_seed_height (height : Z) : Z :=
  if height <=? RX_SEEDHASH_EPOCH_BLOCKS +! RX_SEEDHASH_EPOCH_LAG then 0
  else Z.land (height -! RX_SEEDHASH_EPOCH_LAG -! 1) (usize_not (RX_SEEDHASH_EPOCH_BLOCKS -! 1)).

(** ** Facts *)
Definition is_decomposed (a : Z) : Prop := exists d k, 1 <= d <= 9 /\ 0 <= k /\ a = d * 10 ^ k.

Lemma amounts_sorted : sorted DECOMPOSED_AMOUNTS.
Proof. apply (bool_decide_unpack _). by vm_compute. Qed.

Lemma is_decomposed_amount_elem a : is_decomposed_amount a = true <-> a ∈ DECOMPOSED_AMOUNTS.
Proof.
  unfold is_decomposed_amount. pose proof (binary_search_spec DECOMPOSED_AMOUNTS a amounts_sorted) as H.
  destruct (binary_search DECOMPOSED_AMOUNTS a) as [i|i].
  - split; [intros _|done]. apply list_elem_of_lookup. by exists i.
  - destruct H as (_ & H1 & H2). split; [done|]. intros Ha. apply list_elem_of_lookup in Ha as (k & Hk).
    destruct (decide (k < i)%nat) as [Hlt|Hge]; [specialize (H1 _ _ Hlt Hk)|specialize (H2 k _ ltac:(lia) Hk)]; lia.
Qed.

(** The table, written as digits times powers of ten. *)
Definition decomposed_table : list Z :=
  concat (map (fun k => map (fun d => Z.of_nat d * 10 ^ Z.of_nat k) (seq 1 9)) (seq 0 19)) ++ [10 ^ 19].

Lemma table_eq : DECOMPOSED_AMOUNTS = decomposed_table.
Proof. by vm_compute. Qed.

Lemma table_spec a : is_u 64 a -> a ∈ decomposed_table <-> is_decomposed a.
Proof.
  intros Ha. unfold decomposed_table. rewrite elem_of_app, list_elem_of_singleton. split.
  - intros [H| ->]; [|by exists 1, 19].
    apply list_elem_of_In, in_concat in H as (l & Hl & Hal).
    apply in_map_iff in Hl as (k & <- & Hk). apply in_map_iff in Hal as (d & <- & Hd).
    apply in_seq in Hk, Hd. exists (Z.of_nat d), (Z.of_nat k). lia.
  - intros (d & k & Hd & Hk & ->).
    assert (k <= 19) as Hk19.
    { apply Z.nlt_ge. intros Hlt. unfold is_u in Ha.
      assert (10 ^ 20 <= 10 ^ k) by (apply Z.pow_le_mono_r; lia).
      assert (2 ^ 64 < 10 ^ 20) by done. nia. }
    destruct (decide (k = 19)) as [->|Hne].
    + right. assert (d = 1) as ->; [|done]. unfold is_u in Ha.
      assert (2 ^ 64 < 2 * 10 ^ 19) by done. nia.
    + left. apply list_elem_of_In, in_concat.
      exists (map (fun d => Z.of_nat d * 10 ^ Z.of_nat (Z.to_nat k)) (seq 1 9)). split.
      * apply in_map_iff. exists (Z.to_nat k). split; [done|]. apply in_seq. lia.
      * apply in_map_iff. exists (Z.to_nat d). rewrite !Z2Nat.id by lia. split; [done|].
        apply in_seq. lia.
Qed.

(** Clearing the low eleven bits. *)
Lemma land_epoch x : is_u 64 x -> Z.land x (usize_not (RX_SEEDHASH_EPOCH_BLOCKS -! 1)) = 2048 * (x / 2048).
Proof.
  intros Hx. change (usize_not (RX_SEEDHASH_EPOCH_BLOCKS -! 1)) with (Z.ldiff (Z.ones 64) (Z.ones 11)).
  replace (Z.land x (Z.ldiff (Z.ones 64) (Z.ones 11))) with (Z.ldiff (Z.land x (Z.ones 64)) (Z.ones 11)).
  2: { apply Z.bits_inj'. intros i _. by rewrite Z.ldiff_spec, !Z.land_spec, Z.ldiff_spec, andb_assoc. }
  rewrite Z.land_ones, Z.mod_small, Z.ldiff_ones_r by (done || zlia).
  rewrite Z.shiftl_mul_pow2, Z.shiftr_div_pow2 by lia. zpow. lia.
Qed.

Lemma randomx_seed_height_eq h :
  is_u 64 h -> randomx_seed_height h = if h <=? 2112 then 0 else 2048 * ((h - 65) / 2048).
Proof.
  intros Hh. unfold randomx_seed_height. change (RX_SEEDHASH_EPOCH_BLOCKS +! RX_SEEDHASH_EPOCH_LAG) with 2112.
  destruct (h <=? 2112) eqn:E; bsimp; [done|]. unfold RX_SEEDHASH_EPOCH_LAG.
  rewrite (wrap_small 64 (h - 64)) by zlia. rewrite wrap_small by zlia. rewrite land_epoch by zlia.
  by replace (h - 64 - 1) with (h - 65) by lia.
Qed.

(** ** Claims *)

(** An amount is decomposed exactly when it is one digit followed by zeros. *)
Theorem is_decomposed_amount_iff a :
  is_u 64 a -> is_decomposed_amount a = true <-> exists d k, 1 <= d <= 9 /\ 0 <= k /\ a = d * 10 ^ k.
Proof. intros Ha. rewrite is_decomposed_amount_elem, table_eq. by apply table_spec. Qed.

Lemma is_decomposed_amount_iff_witness : is_decomposed_amount 7000000000000 = true.
Proof. apply is_decomposed_amount_iff; [done|]. exists 7, 12. lia. Defined.

(** The proof-of-work check: a hash is accepted for a difficulty exactly when the hash,
    as a little-endian number, times the difficulty is below 2^256; in particular a
    smaller hash and a smaller difficulty are accepted too. *)
Theorem check_block_pow_iff hash difficulty :
  check_block_pow hash difficulty = Ok () <-> le_combine hash * difficulty < 2 ^ 256.
Proof.
  unfold check_block_pow, checked_mul. destruct (_ <? _) eqn:E; bsimp; split; done || lia.
Qed.

(** The RandomX seed height of a block is a seed height, from the first epoch on at
    least 64 blocks (the lag) and at most an epoch and the lag below the block, so it is
    the only candidate. *)
Theorem randomx_seed_height_spec h :
  is_u 64 h ->
  let s := randomx_seed_height h in
  is_randomx_seed_height s = true /\
  (h <= RX_SEEDHASH_EPOCH_BLOCKS + RX_SEEDHASH_EPOCH_LAG -> s = 0) /\
  (RX_SEEDHASH_EPOCH_BLOCKS + RX_SEEDHASH_EPOCH_LAG < h ->
   forall t, s = t <-> is_randomx_seed_height t = true /\
     h - RX_SEEDHASH_EPOCH_BLOCKS - RX_SEEDHASH_EPOCH_LAG <= t < h - RX_SEEDHASH_EPOCH_LAG).
Proof.
  intros Hh s. subst s. rewrite randomx_seed_height_eq by done.
  unfold RX_SEEDHASH_EPOCH_BLOCKS, RX_SEEDHASH_EPOCH_LAG, is_randomx_seed_height, RX_SEEDHASH_EPOCH_BLOCKS.
  destruct (h <=? 2112) eqn:E; bsimp; [split_and!; [done|done|lia]|]. split_and!; [|lia|].
  - rewrite Z.mul_comm, Z.mod_mul by lia. done.
  - intros _ t. rewrite Z.eqb_eq. split; [intros <-; rewrite Z.mul_comm, Z.mod_mul by lia; dlia|]. intros [H1 H2]. dlia.
Qed.

Lemma randomx_seed_height_spec_witness : randomx_seed_height 4161 = 4096.
Proof.
  destruct (randomx_seed_height_spec 4161) as (_ & _ & H); [done|].
  apply H; [done|]. split; [done|]. vm_compute. intuition congruence.
Defined.

End RulesBase.
