(* ===== verification/TxData.v ===== *)
(** * Transactions as the rules see them

    The transaction types of the [monero_oxide] crate, with the constructors and the
    fields the rules match on, and the functions of that crate the rules call (points,
    proofs, signatures, serialisation), which are the interface [MoneroOxide]: its
    types and functions are arguments of every definition that uses them, and what the
    rules rely on is stated in [MoneroOxideLaws]. [TxVersion] is
    [src/types/types/src/transaction_verification_data.rs]. *)
From S2P Require Import Prelude Bytes.
From Stdlib Require Import ZArith Lia.
From stdpp Require Import base tactics option list numbers.

#[local] Open Scope Z_scope.

Module TxData.

(** ** Points, proofs and signatures *)
Class MoneroOxide := {
  CompressedPoint : Type;
  EdwardsPoint : Type;
  (** [CompressedPoint::to_bytes], [decompress] *)
  to_bytes : CompressedPoint -> bytes;
  decompress : CompressedPoint -> option EdwardsPoint;
  is_torsion_free : EdwardsPoint -> bool;
  (** The identity, [+], [==] and [Scalar::from(n) * H] of Edwards points. *)
  point_identity : EdwardsPoint;
  point_add : EdwardsPoint -> EdwardsPoint -> EdwardsPoint;
  point_eqb : EdwardsPoint -> EdwardsPoint -> bool;
  mul_H : Z -> EdwardsPoint;
  (** [RingSignature::verify(msg_hash, ring, key_image)] *)
  RingSignature : Type;
  ring_signature_verify : RingSignature -> bytes -> list CompressedPoint -> CompressedPoint -> bool;
  (** [BorromeanRange::verify(commitment)] *)
  BorromeanRange : Type;
  borromean_verify : BorromeanRange -> CompressedPoint -> bool;
  (** [Bulletproof::batch_verify(rng, verifier, commitments)]: queues the proof. *)
  Rng : Type;
  InternalBatchVerifier : Type;
  Bulletproof : Type;
  batch_verify : Bulletproof -> Rng -> InternalBatchVerifier -> list CompressedPoint ->
    bool * InternalBatchVerifier;
  (** MLSAG: ring matrices and [Mlsag::verify(msg, ring, key_images)] *)
  Mlsag : Type;
  MlsagError : Type;
  RingMatrix : Type;
  ring_matrix_individual : list (CompressedPoint * CompressedPoint) -> CompressedPoint ->
    result MlsagError RingMatrix;
  AggregateRingMatrixBuilder : Type;
  aggregate_new : list CompressedPoint -> Z -> result MlsagError AggregateRingMatrixBuilder;
  push_ring : AggregateRingMatrixBuilder -> list (CompressedPoint * CompressedPoint) ->
    result MlsagError AggregateRingMatrixBuilder;
  aggregate_build : AggregateRingMatrixBuilder -> result MlsagError RingMatrix;
  mlsag_verify : Mlsag -> bytes -> RingMatrix -> list CompressedPoint -> result MlsagError ();
  (** [Clsag::verify(ring, key_image, pseudo_out, msg)] *)
  Clsag : Type;
  ClsagError : Type;
  clsag_verify : Clsag -> list (CompressedPoint * CompressedPoint) -> CompressedPoint ->
    CompressedPoint -> bytes -> result ClsagError ();
}.

(** ** Transactions *)
Inductive Timelock := TL_None | TL_Block (height : Z) | TL_Time (time : Z).

Inductive RctType :=
  | AggregateMlsagBorromean
  | MlsagBorromean
  | MlsagBulletproofs
  | MlsagBulletproofsCompactAmount
  | ClsagBulletproof
  | ClsagBulletproofPlus.

#[export] Instance RctType_eq_dec : EqDecision RctType.
Proof. solve_decision. Defined.

Section types.
Context `{MoneroOxide}.

Inductive Input :=
  | Gen (height : Z)
  | ToKey (amount : option Z) (key_offsets : list Z) (key_image : CompressedPoint).

Record Output := mk_output {
  out_amount : option Z;
  out_key : CompressedPoint;
  out_view_tag : option Z;
}.

Record TransactionPrefix := mk_prefix {
  additional_timelock : Timelock;
  inputs : list Input;
  outputs : list Output;
}.

Record RctBase := mk_base {
  fee : Z;
  base_pseudo_outs : list CompressedPoint;
  commitments : list CompressedPoint;
}.

Inductive RctPrunable :=
  | P_AggregateMlsagBorromean (mlsag : Mlsag) (borromean : list BorromeanRange)
  | P_MlsagBorromean (mlsags : list Mlsag) (borromean : list BorromeanRange)
  | P_MlsagBulletproofs (pseudo_outs : list CompressedPoint) (mlsags : list Mlsag) (bulletproof : Bulletproof)
  | P_MlsagBulletproofsCompactAmount (pseudo_outs : list CompressedPoint) (mlsags : list Mlsag)
      (bulletproof : Bulletproof)
  | P_Clsag (pseudo_outs : list CompressedPoint) (clsags : list Clsag) (bulletproof : Bulletproof).

Record RctProofs := mk_proofs { base : RctBase; prunable : RctPrunable }.

Inductive Transaction :=
  | Tx_V1 (prefix : TransactionPrefix) (signatures : list RingSignature)
  | Tx_V2 (prefix : TransactionPrefix) (proofs : option RctProofs).

(** [Transaction::prefix] *)
Definition prefix (tx : Transaction) : TransactionPrefix :=
  match tx with Tx_V1 p _ | Tx_V2 p _ => p end.
End types.

(** The functions of the crate on whole transactions. *)
Class TransactionOps (O : MoneroOxide) := {
  rct_type : RctProofs -> RctType;
  version : Transaction -> Z;
  signature_hash : Transaction -> option bytes;
}.

(** What the rules rely on: a compressed point is its 32 bytes; the version of the two
    constructors; the aggregate and the Borromean types are those of the proofs so named; a signature hash is
    missing only for a version 2 transaction without proofs (a miner transaction); the
    verification functions report failures as errors and do not panic. *)
Class MoneroOxideLaws (O : MoneroOxide) (T : TransactionOps O) : Prop := {
  to_bytes_inj : Inj eq eq to_bytes;
  to_bytes_32 : forall p, length (to_bytes p) = 32%nat;
  version_V1 : forall p s, version (Tx_V1 p s) = 1;
  version_V2 : forall p s, version (Tx_V2 p s) = 2;
  rct_type_aggregate : forall p,
    rct_type p = AggregateMlsagBorromean <->
    exists m b, prunable p = P_AggregateMlsagBorromean m b;
  rct_type_borromean : forall p,
    rct_type p = MlsagBorromean <-> exists m b, prunable p = P_MlsagBorromean m b;
  signature_hash_V1 : forall p s, signature_hash (Tx_V1 p s) <> None;
  signature_hash_V2 : forall p pr, signature_hash (Tx_V2 p (Some pr)) <> None;
  mlsag_verify_np : forall m msg r kis, mlsag_verify m msg r kis <> Panic;
  ring_matrix_np : forall ring p, ring_matrix_individual ring p <> Panic;
  aggregate_new_np : forall cs f, aggregate_new cs f <> Panic;
  push_ring_np : forall m r, push_ring m r <> Panic;
  aggregate_build_np : forall m, aggregate_build m <> Panic;
  clsag_verify_np : forall c ring ki p msg, clsag_verify c ring ki p msg <> Panic;
}.

(** ** Transaction versions *)
Inductive TxVersion := RingSignatures | RingCT.

#[export] Instance TxVersion_eq_dec : EqDecision TxVersion.
Proof. solve_decision. Defined.

Definition from_raw (version : Z) : option TxVersion :=
  if version =? 1 then Some RingSignatures
  else if version =? 2 then Some RingCT
  else None.

(** The derived [Ord]. *)
Definition ver_lt (a b : TxVersion) : bool :=
  match a, b with RingSignatures, RingCT => true | _, _ => false end.

(** The version of a transaction, by its constructor. *)
Definition tx_version `{MoneroOxide} (tx : Transaction) : TxVersion :=
  match tx with Tx_V1 _ _ => RingSignatures | Tx_V2 _ _ => RingCT end.

Lemma from_raw_version `{MoneroOxideLaws} tx : from_raw (version tx) = Some (tx_version tx).
Proof. destruct tx; [rewrite version_V1|rewrite version_V2]; done. Qed.

(** ** An instance

    The interface can be implemented: a model without cryptography in which a point is
    an integer, a commitment is the amount it hides, and every proof verifies. *)
Module Transparent.

#[export] Instance oxide : MoneroOxide := {|
  CompressedPoint := Z;
  EdwardsPoint := Z;
  to_bytes z := z :: repeat 0 31;
  decompress z := Some z;
  is_torsion_free _ := true;
  point_identity := 0;
  point_add := Z.add;
  point_eqb := Z.eqb;
  mul_H n := n;
  RingSignature := ();
  ring_signature_verify _ _ _ _ := true;
  BorromeanRange := ();
  borromean_verify _ c := 0 <=? c;
  Rng := ();
  InternalBatchVerifier := nat;
  Bulletproof := bool;
  batch_verify _ _ v cs := (forallb (fun c => 0 <=? c) cs, S v);
  Mlsag := ();
  MlsagError := ();
  RingMatrix := ();
  ring_matrix_individual _ _ := Ok ();
  AggregateRingMatrixBuilder := ();
  aggregate_new _ _ := Ok ();
  push_ring _ _ := Ok ();
  aggregate_build _ := Ok ();
  mlsag_verify _ _ _ _ := Ok ();
  Clsag := ();
  ClsagError := ();
  clsag_verify _ _ _ _ _ := Ok ();
|}.

#[export] Instance ops : TransactionOps oxide := {|
  rct_type p :=
    match prunable p with
    | P_AggregateMlsagBorromean _ _ => AggregateMlsagBorromean
    | P_MlsagBorromean _ _ => MlsagBorromean
    | P_MlsagBulletproofs _ _ _ => MlsagBulletproofs
    | P_MlsagBulletproofsCompactAmount _ _ _ => MlsagBulletproofsCompactAmount
    | P_Clsag _ _ plus => if (plus : bool) then ClsagBulletproofPlus else ClsagBulletproof
    end;
  version tx := match tx with Tx_V1 _ _ => 1 | Tx_V2 _ _ => 2 end;
  signature_hash tx := match tx with Tx_V2 _ None => None | _ => Some (repeat 0 32) end;
|}.

#[export] Instance laws : MoneroOxideLaws oxide ops.
Proof.
  split; try done.
  - intros a b H. by injection H.
  - intros p. cbn. destruct (prunable p) as [| | | |? ? []]; split; intros H; try done; eauto; naive_solver.
  - intros p. cbn. destruct (prunable p) as [| | | |? ? []]; split; intros H; try done; eauto; naive_solver.
Qed.
End Transparent.

End TxData.
