(* ===== verification/TxRules.v ===== *)
(** * Semantic transaction rules ([src/consensus/rules/src/transactions.rs],
    [transactions/ring_ct.rs])

    The rules that need no chain data but the hard fork: outputs, inputs, sizes,
    ring-CT types, range proofs and balance, and their composition
    [check_transaction_semantic]. The contextual rules are in the file [TxContext]. *)
From S2P Require Import Prelude Bytes HardForks Median RulesBase TxData.
From Stdlib Require Import ZArith Lia.
From stdpp Require Import base tactics option list numbers sorting sets.
Import HardForks RulesBase TxData.

#[local] Open Scope Z_scope.
#[local] Open Scope usize_scope.

Module TxRules.

Definition MAX_BULLETPROOFS_OUTPUTS : Z := 16.
Definition MAX_TX_BLOB_SIZE : Z := 1000000.

(** [slice.windows(2)] *)
Fixpoint windows2 {A} (l : list A) : list (A * A) :=
  match l with
  | a :: (b :: _) as l' => (a, b) :: windows2 l'
  | _ => []
  end.

(** The order of byte arrays: lexicographic. *)
Fixpoint bytes_leb (a b : bytes) : bool :=
  match a, b with
  | [], _ => true
  | _ :: _, [] => false
  | x :: a, y :: b => (x <? y) || ((x =? y) && bytes_leb a b)
  end.

Section rules.
Context {O : MoneroOxide} {T : TransactionOps O}.

(** ** Errors *)
Inductive RingCTError :=
  | TypeNotAllowed
  | SimpleAmountDoNotBalance
  | BorromeanRangeInvalid
  | BulletproofsRangeInvalid
  | RingInvalid
  | MLSAGError (e : MlsagError)
  | CLSAGError (e : ClsagError).

Inductive TransactionError :=
  | TransactionVersionInvalid
  | TooBig
  | OutputNotValidPoint
  | OutputTypeInvalid
  | ZeroOutputForV1
  | NonZeroOutputForV2
  | AmountNotDecomposed
  | OutputsOverflow
  | OutputsTooHigh
  | InvalidNumberOfOutputs
  | InputDoesNotHaveExpectedNumbDecoys
  | MoreThanOneMixableInputWithUnmixable
  | KeyImageIsNotInPrimeSubGroup
  | KeyImageSpent
  | IncorrectInputType
  | DuplicateRingMember
  | InputsAreNotOrdered
  | OneOrMoreRingMembersLocked
  | InputsOverflow
  | NoInputs
  | RingMemberNotFoundOrInvalid
  | RingSignatureIncorrect
  | TxRingCTError (e : RingCTError).

Abbreviation Result := (result TransactionError).

(** ** Outputs *)
Definition check_output_keys (outputs : list Output) : Result () :=
  try_for_each (fun out =>
    match decompress (out_key out) with
    | None => Err OutputNotValidPoint
    | Some _ => Ok ()
    end) outputs.

Definition check_output_types (outputs : list Output) (hf : HardFork) : Result () :=
  if bool_decide (hf = V15) then
    try_for_each (fun '(out0, out1) =>
      if negb (Bool.eqb (bool_decide (is_Some (out_view_tag out0))) (bool_decide (is_Some (out_view_tag out1))))
      then Err OutputTypeInvalid else Ok ()) (windows2 outputs)
  else
    try_for_each (fun out =>
      if (hf_le hf V14 && bool_decide (is_Some (out_view_tag out)))
         || (hf_le V16 hf && negb (bool_decide (is_Some (out_view_tag out))))
      then Err OutputTypeInvalid else Ok ()) outputs.

Definition check_output_amount_v1 (amount : Z) (hf : HardFork) : Result () :=
  if amount =? 0 then Err ZeroOutputForV1
  else if hf_le V2 hf && negb (is_decomposed_amount amount) then Err AmountNotDecomposed
  else Ok ().

Definition check_output_amount_v2 (amount : Z) : Result () :=
  if amount =? 0 then Ok () else Err NonZeroOutputForV2.

Definition sum_outputs (outputs : list Output) (hf : HardFork) (tx_version : TxVersion) : Result Z :=
  try_fold (fun sum out =>
    let raw_amount := default 0 (out_amount out) in
    _ ← match tx_version with
        | RingSignatures => check_output_amount_v1 raw_amount hf
        | RingCT => check_output_amount_v2 raw_amount
        end;
    ok_or (checked_add 64 sum raw_amount) OutputsOverflow) 0 outputs.

Definition check_number_of_outputs (outputs : Z) (hf : HardFork) (tx_version : TxVersion)
    (bp_or_bpp : bool) : Result () :=
  if bool_decide (tx_version = RingSignatures) then Ok ()
  else if hf_le V12 hf && (outputs <? 2) then Err InvalidNumberOfOutputs
  else if bp_or_bpp && (MAX_BULLETPROOFS_OUTPUTS <? outputs) then Err InvalidNumberOfOutputs
  else Ok ().

Definition check_outputs_semantics (outputs : list Output) (hf : HardFork) (tx_version : TxVersion)
    (bp_or_bpp : bool) : Result Z :=
  _ ← check_output_types outputs hf;
  _ ← check_output_keys outputs;
  _ ← check_number_of_outputs (len outputs) hf tx_version bp_or_bpp;
  sum_outputs outputs hf tx_version.

(** ** Inputs *)
Definition check_input_type (input : Input) : Result () :=
  match input with
  | ToKey _ _ _ => Ok ()
  | Gen _ => Err IncorrectInputType
  end.

Definition check_input_has_decoys (input : Input) : Result () :=
  match input with
  | ToKey _ [] _ => Err InputDoesNotHaveExpectedNumbDecoys
  | ToKey _ _ _ => Ok ()
  | Gen _ => Err IncorrectInputType
  end.

Definition check_ring_members_unique (input : Input) (hf : HardFork) : Result () :=
  if hf_le V6 hf then
    match input with
    | ToKey _ key_offsets _ =>
        try_for_each (fun offset => if offset =? 0 then Err DuplicateRingMember else Ok ())
          (drop 1 key_offsets)
    | Gen _ => Err IncorrectInputType
    end
  else Ok ().

Definition get_ki (inp : Input) : Result bytes :=
  match inp with
  | ToKey _ _ key_image => Ok (to_bytes key_image)
  | Gen _ => Err IncorrectInputType
  end.

Definition check_inputs_sorted (inputs : list Input) (hf : HardFork) : Result () :=
  if hf_le V7 hf then
    try_for_each (fun '(inp0, inp1) =>
      k0 ← get_ki inp0;
      k1 ← get_ki inp1;
      if bytes_leb k0 k1 then Err InputsAreNotOrdered else Ok ()) (windows2 inputs)
  else Ok ().

Definition sum_inputs_check_overflow (inputs : list Input) : Result Z :=
  try_fold (fun sum inp =>
    match inp with
    | ToKey amount _ _ => ok_or (checked_add 64 sum (default 0 amount)) InputsOverflow
    | Gen _ => Err IncorrectInputType
    end) 0 inputs.

Definition check_inputs_semantics (inputs : list Input) (hf : HardFork) : Result Z :=
  _ ← (match inputs with [] => Err NoInputs | _ => Ok () end : Result ());
  _ ← try_for_each (fun input =>
        _ ← check_input_type input;
        _ ← check_input_has_decoys input;
        check_ring_members_unique input hf) inputs;
  _ ← check_inputs_sorted inputs hf;
  sum_inputs_check_overflow inputs.

(** ** Ring CT *)

(** Two transaction hashes, as bytes. *)
Definition GRANDFATHERED_TRANSACTIONS : list bytes :=
  [ [0xc5;0x15;0x19;0x44;0xf0;0x58;0x30;0x97;0xba;0x0c;0x88;0xcd;0x0f;0x43;0xe7;0xfa;
     0xbb;0x38;0x81;0x27;0x8a;0xa2;0xf7;0x3b;0x3b;0x0a;0x00;0x7c;0x5d;0x34;0xe9;0x10];
    [0x6f;0x2f;0x11;0x7c;0xde;0x6f;0xbc;0xf8;0xd4;0xa6;0xef;0x89;0x74;0xfc;0xac;0x74;
     0x47;0x26;0x57;0x4a;0xc3;0x8c;0xf2;0x5d;0x33;0x22;0xc9;0x96;0xb2;0x1e;0xdd;0x4c] ].

Definition check_rct_type (ty : RctType) (hf : HardFork) (tx_hash : bytes) : result RingCTError () :=
  match ty with
  | AggregateMlsagBorromean | MlsagBorromean =>
      if hf_le V4 hf && hf_lt hf V9 then Ok () else Err TypeNotAllowed
  | MlsagBulletproofs => if hf_le V8 hf && hf_lt hf V11 then Ok () else Err TypeNotAllowed
  | MlsagBulletproofsCompactAmount =>
      if hf_le V10 hf && hf_lt hf V14 then Ok ()
      else if bool_decide (tx_hash ∈ GRANDFATHERED_TRANSACTIONS) then Ok ()
      else Err TypeNotAllowed
  | ClsagBulletproof => if hf_le V13 hf && hf_lt hf V16 then Ok () else Err TypeNotAllowed
  | ClsagBulletproofPlus => if hf_le V15 hf then Ok () else Err TypeNotAllowed
  end.

(** [points.map(decompress).sum::<Option<EdwardsPoint>>()] *)
Definition sum_points (points : list CompressedPoint) : option EdwardsPoint :=
  foldl (fun acc p => acc ≫= fun a => b ← decompress p; Some (point_add a b)) (Some point_identity) points.

Definition simple_type_balances (rct_sig : RctProofs) : result RingCTError () :=
  pseudo_outs ←
    (if bool_decide (rct_type rct_sig = MlsagBorromean) then Ok (base_pseudo_outs (base rct_sig))
     else match prunable rct_sig with
          | P_Clsag pseudo_outs _ _
          | P_MlsagBulletproofsCompactAmount pseudo_outs _ _
          | P_MlsagBulletproofs pseudo_outs _ _ => Ok pseudo_outs
          | P_MlsagBorromean _ _ => Ok (base_pseudo_outs (base rct_sig))
          | P_AggregateMlsagBorromean _ _ => Panic
          end);
  sum_inputs ← ok_or (sum_points pseudo_outs) SimpleAmountDoNotBalance;
  sum_commitments ← ok_or (sum_points (commitments (base rct_sig))) SimpleAmountDoNotBalance;
  let sum_outputs := point_add sum_commitments (mul_H (fee (base rct_sig))) in
  if point_eqb sum_inputs sum_outputs then Ok () else Err SimpleAmountDoNotBalance.

(** The check and the batch verifier it leaves ([queue_statement] runs the statement on
    the verifier). *)
Definition check_output_range_proofs (proofs : RctProofs) (rng : Rng) (verifier : InternalBatchVerifier)
    : result RingCTError () * InternalBatchVerifier :=
  let cs := commitments (base proofs) in
  match prunable proofs with
  | P_MlsagBorromean _ borromean
  | P_AggregateMlsagBorromean _ borromean =>
      (try_for_each (fun '(borro, commitment) =>
         if borromean_verify borro commitment then Ok () else Err BorromeanRangeInvalid)
         (zip borromean cs), verifier)
  | P_MlsagBulletproofs _ _ bulletproof
  | P_MlsagBulletproofsCompactAmount _ _ bulletproof
  | P_Clsag _ _ bulletproof =>
      let '(ok, verifier) := batch_verify bulletproof rng verifier cs in
      (if ok then Ok () else Err BulletproofsRangeInvalid, verifier)
  end.

Definition ring_ct_semantic_checks (proofs : RctProofs) (tx_hash : bytes) (rng : Rng)
    (verifier : InternalBatchVerifier) (hf : HardFork) : result RingCTError () * InternalBatchVerifier :=
  let ty := rct_type proofs in
  match check_rct_type ty hf tx_hash with
  | Ok _ =>
      let '(r, verifier) := check_output_range_proofs proofs rng verifier in
      (_ ← r;
       if negb (bool_decide (ty = AggregateMlsagBorromean)) then simple_type_balances proofs else Ok (),
       verifier)
  | e => (e, verifier)
  end.

(** ** The whole check *)
Definition transaction_weight_limit (hf : HardFork) : Z := (penalty_free_zone hf / 2 -! 600).

Definition bp_or_bpp (tx : Transaction) : bool :=
  match tx with
  | Tx_V2 _ (Some proofs) =>
      match rct_type proofs with
      | AggregateMlsagBorromean | MlsagBorromean => false
      | MlsagBulletproofs | MlsagBulletproofsCompactAmount | ClsagBulletproof | ClsagBulletproofPlus => true
      end
  | Tx_V2 _ None | Tx_V1 _ _ => false
  end.

(** The fee, and the batch verifier the check leaves. *)
Definition check_transaction_semantic (tx : Transaction) (tx_blob_size tx_weight : Z) (tx_hash : bytes)
    (hf : HardFork) (rng : Rng) (verifier : InternalBatchVerifier) : Result Z * InternalBatchVerifier :=
  match
    (_ ← ensure (negb ((MAX_TX_BLOB_SIZE <? tx_blob_size)
                       || (hf_le V8 hf && (transaction_weight_limit hf <? tx_weight)))) TooBig;
     tx_version ← ok_or (from_raw (version tx)) TransactionVersionInvalid;
     outputs_sum ← check_outputs_semantics (outputs (prefix tx)) hf tx_version (bp_or_bpp tx);
     inputs_sum ← check_inputs_semantics (inputs (prefix tx)) hf;
     Ok (outputs_sum, inputs_sum))
  with
  | Ok (outputs_sum, inputs_sum) =>
      match tx with
      | Tx_V1 _ _ =>
          (if inputs_sum <=? outputs_sum then Err OutputsTooHigh else Ok (inputs_sum -! outputs_sum), verifier)
      | Tx_V2 _ None => (Err TransactionVersionInvalid, verifier)
      | Tx_V2 _ (Some proofs) =>
          let '(r, verifier) := ring_ct_semantic_checks proofs tx_hash rng verifier hf in
          (_ ← map_err TxRingCTError r; Ok (fee (base proofs)), verifier)
      end
  | Err e => (Err e, verifier)
  | Panic => (Panic, verifier)
  end.

End rules.

(** ** Order of byte arrays *)
Lemma bytes_leb_refl a : bytes_leb a a = true.
Proof. induction a; cbn; [done|]. by rewrite Z.eqb_refl, IHa, orb_true_r. Qed.

Lemma bytes_leb_total a b : bytes_leb a b = false -> bytes_leb b a = true.
Proof.
  revert b. induction a as [|x a IH]; intros [|y b]; cbn; try done.
  intros H. bsimp; apply orb_true_iff; [left; lia|].
  destruct (decide (x = y)) as [->|]; [right|left; lia]. rewrite Z.eqb_refl. by apply IH.
Qed.

Lemma bytes_leb_trans a b c : bytes_leb a b = true -> bytes_leb b c = true -> bytes_leb a c = true.
Proof.
  revert b c. induction a as [|x a IH]; intros [|y b] [|z c]; cbn; try done.
  intros H1 H2. bsimp; apply orb_true_iff; [left; lia..|].
  right. apply andb_true_iff. split; [lia|]. eauto.
Qed.

(** [bytes_gt a b]: [a] is above [b]. *)
Definition bytes_gt (a b : bytes) : Prop := bytes_leb a b = false.

#[export] Instance bytes_gt_trans : Transitive bytes_gt.
Proof.
  intros a b c H1 H2. unfold bytes_gt in *. apply not_true_is_false. intros H.
  apply bytes_leb_total in H2. rewrite (bytes_leb_trans a c b H H2) in H1. done.
Qed.

Lemma bytes_gt_irrefl a : ~ bytes_gt a a.
Proof. unfold bytes_gt. rewrite bytes_leb_refl. done. Qed.

(** A property of the neighbours is a property of all pairs when it is transitive. *)
Lemma windows2_StronglySorted {A} (R : relation A) `{!Transitive R} l :
  Forall (fun '(a, b) => R a b) (windows2 l) <-> StronglySorted R l.
Proof.
  split.
  - intros H. apply Sorted_StronglySorted; [done|]. induction l as [|a [|b l] IH]; [by constructor..|].
    cbn [windows2] in H. apply List.Forall_cons_iff in H as [Hab H]. constructor; [by apply IH|by constructor].
  - induction 1 as [|a l Hs IH Ha]; [by constructor|]. destruct l as [|b l]; [by constructor|].
    cbn [windows2]. constructor; [by inversion Ha|done].
Qed.

Lemma windows2_map {A B} (f : A -> B) l : windows2 (map f l) = map (prod_map f f) (windows2 l).
Proof. induction l as [|a [|b l] IH]; [done..|]. cbn [map windows2] in *. by rewrite IH. Qed.

Lemma windows2_elem {A} (l : list A) a b : (a, b) ∈ windows2 l -> a ∈ l /\ b ∈ l.
Proof.
  induction l as [|x [|y l] IH]; [set_solver..|].
  cbn [windows2]. rewrite elem_of_cons. intros [H|H]; [injection H as -> ->; set_solver|set_solver].
Qed.

(** ** The rules, stated on their own *)
Section spec.
Context {O : MoneroOxide} {T : TransactionOps O} {L : MoneroOxideLaws O T}.

(** Amounts of a well-typed transaction are [u64]s. *)
Definition output_amount (out : Output) : Z := default 0 (out_amount out).
Definition input_amount (inp : Input) : Z :=
  match inp with ToKey amount _ _ => default 0 amount | Gen _ => 0 end.

Definition tx_typed (tx : Transaction) : Prop :=
  Forall (fun out => is_u 64 (output_amount out)) (outputs (prefix tx)) /\
  Forall (fun inp => is_u 64 (input_amount inp)) (inputs (prefix tx)).

Definition has_view_tag (out : Output) : Prop := is_Some (out_view_tag out).

(** Up to V14 no output has a view tag, from V16 all have one, in V15 all or none. *)
Definition output_types_rule (outs : list Output) (hf : HardFork) : Prop :=
  (hf_le hf V14 = true -> Forall (fun out => ~ has_view_tag out) outs) /\
  (hf = V15 -> Forall has_view_tag outs \/ Forall (fun out => ~ has_view_tag out) outs) /\
  (hf = V16 -> Forall has_view_tag outs).

(** Version 1 amounts are not 0 and from V2 decomposed; version 2 amounts are 0. *)
Definition amount_rule (hf : HardFork) (ver : TxVersion) (a : Z) : Prop :=
  match ver with
  | RingSignatures => a <> 0 /\ (hf_le V2 hf = true -> is_decomposed a)
  | RingCT => a = 0
  end.

Definition number_of_outputs_rule (hf : HardFork) (ver : TxVersion) (bp : bool) (n : Z) : Prop :=
  ver = RingCT -> (hf_le V12 hf = true -> 2 <= n) /\ (bp = true -> n <= MAX_BULLETPROOFS_OUTPUTS).

(** Inputs spend outputs, name at least one ring member and from V6 on no relative
    offset after the first is 0. *)
Definition input_rule (hf : HardFork) (inp : Input) : Prop :=
  exists amount key_offsets key_image,
    inp = ToKey amount key_offsets key_image /\ key_offsets <> [] /\
    (hf_le V6 hf = true -> Forall (fun o => o <> 0) (drop 1 key_offsets)).

Definition key_image_bytes (inp : Input) : bytes :=
  match inp with ToKey _ _ key_image => to_bytes key_image | Gen _ => [] end.

Lemma check_output_types_Ok outs hf : check_output_types outs hf = Ok () <-> output_types_rule outs hf.
Proof using L.
  unfold check_output_types, output_types_rule. destruct (decide (hf = V15)) as [->|Hne].
  - rewrite bool_decide_eq_true_2 by done. rewrite try_for_each_Ok.
    set (R a b := has_view_tag a <-> has_view_tag b).
    assert (Transitive R) as HR by (unfold R; intros ???; tauto).
    transitivity (Forall (fun '(a, b) => R a b) (windows2 outs)).
    { apply Forall_iff. intros [a b]. unfold R, has_view_tag.
      destruct (out_view_tag a), (out_view_tag b); cbn; split; try done; intros H; exfalso;
        destruct H as [H1 H2]; first [by destruct (H1 (ex_intro _ _ eq_refl))|by destruct (H2 (ex_intro _ _ eq_refl))]. }
    rewrite windows2_StronglySorted by done. split.
    + intros Hs. split_and!; [done| |done]. intros _. destruct Hs as [|a l Hs Ha]; [by left|].
      assert (Decision (has_view_tag a)) as [Hv|Hv] by apply _; [left|right]; constructor; try done;
        apply (Forall_impl _ _ _ Ha); unfold R; tauto.
    + intros (_ & H & _). destruct (H eq_refl) as [Hf|Hf]; clear H; induction Hf as [|a l Ha Hl IH]; constructor; try done;
        apply (Forall_impl _ _ _ Hl); unfold R; tauto.
  - rewrite bool_decide_eq_false_2 by done. rewrite try_for_each_Ok.
    destruct (hf_le hf V14) eqn:E14.
    + assert (hf_le V16 hf = false) as -> by (destruct hf; done). split.
      * intros H. split_and!; [intros _|done|by destruct hf].
        apply (Forall_impl _ _ _ H). intros a. cbn. rewrite orb_false_r. unfold has_view_tag. by case_bool_decide.
      * intros [H _]. specialize (H eq_refl). apply (Forall_impl _ _ _ H). intros a Ha. cbn.
        rewrite orb_false_r. unfold has_view_tag in Ha. by case_bool_decide.
    + assert (hf = V16) as -> by (destruct hf; done). change (hf_le V16 V16) with true. split.
      * intros H. split_and!; [done|done|]. intros _.
        apply (Forall_impl _ _ _ H). intros a. cbn. unfold has_view_tag. by case_bool_decide.
      * intros (_ & _ & H). specialize (H eq_refl). apply (Forall_impl _ _ _ H). intros a Ha. cbn.
        unfold has_view_tag in Ha. by case_bool_decide.
Qed.

Lemma check_output_keys_Ok (outs : list Output) :
  check_output_keys outs = Ok () <-> Forall (fun out => is_Some (decompress (out_key out))) outs.
Proof using L.
  unfold check_output_keys. rewrite try_for_each_Ok. apply Forall_iff. intros out.
  destruct (decompress _); [split; [by eexists|done]|split; [done|by intros [? ?]]].
Qed.

Lemma check_number_of_outputs_Ok n hf ver bp :
  check_number_of_outputs n hf ver bp = Ok () <-> number_of_outputs_rule hf ver bp n.
Proof using L.
  unfold check_number_of_outputs, number_of_outputs_rule. destruct ver; cbn; [by split|].
  destruct (hf_le V12 hf), bp; cbn; split_if; split; intros H; try done; try (split_and!; intros; done || lia);
    destruct (H eq_refl) as [H1 H2]; try specialize (H1 eq_refl); try specialize (H2 eq_refl); lia.
Qed.

Lemma check_output_amount_v1_Ok a hf :
  is_u 64 a -> check_output_amount_v1 a hf = Ok () <-> amount_rule hf RingSignatures a.
Proof using L.
  intros Ha. unfold check_output_amount_v1, amount_rule.
  rewrite <- (table_spec a Ha), <- table_eq, <- is_decomposed_amount_elem.
  generalize (is_decomposed_amount a). intros b. destruct (hf_le V2 hf), b, (a =? 0) eqn:E; cbn; bsimp; naive_solver.
Qed.

Lemma check_output_amount_v2_Ok a hf : check_output_amount_v2 a = Ok () <-> amount_rule hf RingCT a.
Proof using L. unfold check_output_amount_v2, amount_rule. split_if; done. Qed.

Lemma sum_outputs_Ok outs hf ver s :
  Forall (fun out => is_u 64 (output_amount out)) outs ->
  sum_outputs outs hf ver = Ok s <->
  Forall (fun out => amount_rule hf ver (output_amount out)) outs /\
  s = sumZ (map output_amount outs) /\ s < 2 ^ 64.
Proof using L.
  intros Hu. unfold sum_outputs. fold output_amount.
  rewrite (try_fold_checked_sum 64 output_amount (fun out => match ver with
        | RingSignatures => check_output_amount_v1 (output_amount out) hf
        | RingCT => check_output_amount_v2 (output_amount out)
        end)); [|apply (Forall_impl _ _ _ Hu); unfold is_u; lia|done].
  rewrite Z.add_0_l. apply and_iff_compat_r.
  rewrite !Forall_forall. rewrite Forall_forall in Hu.
  split; intros H out Hin; specialize (H out Hin); destruct ver;
    first [apply check_output_amount_v1_Ok; [by apply Hu|exact H]|apply (check_output_amount_v2_Ok _ hf); exact H].
Qed.

Lemma check_input_rule inp hf :
  (_ ← check_input_type inp; _ ← check_input_has_decoys inp; check_ring_members_unique inp hf) = Ok () <->
  input_rule hf inp.
Proof using L.
  unfold check_ring_members_unique, input_rule. destruct inp as [h|a os ki]; cbn.
  { split; [done|]. by intros (? & ? & ? & ? & _). }
  destruct os as [|o os]; cbn [check_input_has_decoys mbind result_bind].
  { split; [done|]. intros (? & ? & ? & H & ? & _). by injection H as <- <- <-. }
  destruct (hf_le V6 hf).
  - rewrite try_for_each_Ok. split.
    + intros H. exists a, (o :: os), ki. split_and!; [done|done|]. intros _.
      apply (Forall_impl _ _ _ H). intros x. cbn. split_if; done.
    + intros (? & ? & ? & H & _ & Hz). injection H as <- <- <-. specialize (Hz eq_refl).
      apply (Forall_impl _ _ _ Hz). intros x. cbn. split_if; done.
  - split; [|done]. intros _. by exists a, (o :: os), ki.
Qed.

Lemma check_inputs_sorted_Ok ins hf :
  Forall (input_rule hf) ins ->
  check_inputs_sorted ins hf = Ok () <->
  (hf_le V7 hf = true -> StronglySorted bytes_gt (map key_image_bytes ins)).
Proof using L.
  intros Hi. unfold check_inputs_sorted. destruct (hf_le V7 hf); [|by split].
  rewrite try_for_each_Ok, <- (windows2_StronglySorted bytes_gt), windows2_map, Forall_map, !Forall_forall.
  rewrite Forall_forall in Hi.
  split; [intros H _|intros H; specialize (H eq_refl)]; intros [a b] Hab; specialize (H _ Hab);
    apply windows2_elem in Hab as [Ha Hb];
    destruct (Hi _ Ha) as (? & ? & ? & -> & _), (Hi _ Hb) as (? & ? & ? & -> & _); revert H;
    cbn; unfold bytes_gt; by destruct (bytes_leb _ _).
Qed.

Lemma sum_inputs_Ok ins hf s :
  Forall (fun inp => is_u 64 (input_amount inp)) ins -> Forall (input_rule hf) ins ->
  sum_inputs_check_overflow ins = Ok s <-> s = sumZ (map input_amount ins) /\ s < 2 ^ 64.
Proof using L.
  intros Hu Hi. unfold sum_inputs_check_overflow.
  rewrite (try_fold_ext _ (fun s x => check_input_type x ≫= fun _ => ok_or (checked_add 64 s (input_amount x)) InputsOverflow))
    by (intros ? []; done).
  rewrite try_fold_checked_sum; [|apply (Forall_impl _ _ _ Hu); unfold is_u; lia|done].
  rewrite Z.add_0_l. split; [tauto|]. split; [|done].
  apply (Forall_impl _ _ _ Hi). by intros inp (? & ? & ? & -> & _).
Qed.

(** The rules on all inputs together: from V7 on the key images strictly decrease. *)
Definition inputs_rule (ins : list Input) (hf : HardFork) (sum : Z) : Prop :=
  ins <> [] /\ Forall (input_rule hf) ins /\
  (hf_le V7 hf = true -> StronglySorted bytes_gt (map key_image_bytes ins)) /\
  sum = sumZ (map input_amount ins) /\ sum < 2 ^ 64.

Lemma check_inputs_semantics_Ok ins hf s :
  Forall (fun inp => is_u 64 (input_amount inp)) ins ->
  check_inputs_semantics ins hf = Ok s <-> inputs_rule ins hf s.
Proof using L.
  intros Hu. unfold check_inputs_semantics, inputs_rule. destruct ins as [|i ins0]; [by split; [|intros []]|].
  remember (i :: ins0) as ins. change (Ok () ≫= ?f) with (f ()). cbv beta. split.
  - intros H. apply bind_Ok in H as ([] & Hr & H). apply bind_Ok in H as ([] & Hs & Hsum).
    apply try_for_each_Ok in Hr.
    assert (Forall (input_rule hf) ins) as Hi by (apply (Forall_impl _ _ _ Hr); intros x; apply check_input_rule).
    rewrite check_inputs_sorted_Ok in Hs by done. rewrite sum_inputs_Ok in Hsum by done. by subst ins.
  - intros (_ & Hi & Hs & Hsum). apply bind_Ok. exists (). split.
    { apply try_for_each_Ok, (Forall_impl _ _ _ Hi). intros x. apply check_input_rule. }
    apply bind_Ok. exists (). rewrite check_inputs_sorted_Ok by done. by rewrite sum_inputs_Ok by done.
Qed.

(** The rules on all outputs together. *)
Definition outputs_rule (outs : list Output) (hf : HardFork) (ver : TxVersion) (bp : bool) (sum : Z) : Prop :=
  output_types_rule outs hf /\
  Forall (fun out => is_Some (decompress (out_key out))) outs /\
  number_of_outputs_rule hf ver bp (len outs) /\
  Forall (fun out => amount_rule hf ver (output_amount out)) outs /\
  sum = sumZ (map output_amount outs) /\ sum < 2 ^ 64.

Lemma check_outputs_semantics_Ok outs hf ver bp s :
  Forall (fun out => is_u 64 (output_amount out)) outs ->
  check_outputs_semantics outs hf ver bp = Ok s <-> outputs_rule outs hf ver bp s.
Proof using L.
  intros Hu. unfold check_outputs_semantics, outputs_rule. rewrite bind_Ok.
  rewrite <- check_output_types_Ok, <- check_output_keys_Ok, <- check_number_of_outputs_Ok, <- sum_outputs_Ok by done.
  split.
  - intros ([] & H1 & H). inv_ok. destruct v, v0. done.
  - intros (H1 & H2 & H3 & H4). exists (). by rewrite H2, H3.
Qed.

(** ** Ring CT *)
Definition hf_between (a hf b : HardFork) : Prop := as_u8 a <= as_u8 hf <= as_u8 b.

(** The forks in which each type of ring CT is allowed. *)
Definition rct_type_rule (ty : RctType) (hf : HardFork) (tx_hash : bytes) : Prop :=
  match ty with
  | AggregateMlsagBorromean | MlsagBorromean => hf_between V4 hf V8
  | MlsagBulletproofs => hf_between V8 hf V10
  | MlsagBulletproofsCompactAmount => hf_between V10 hf V13 \/ tx_hash ∈ GRANDFATHERED_TRANSACTIONS
  | ClsagBulletproof => hf_between V13 hf V15
  | ClsagBulletproofPlus => hf_between V15 hf V16
  end.

Lemma check_rct_type_Ok ty hf tx_hash :
  check_rct_type ty hf tx_hash = Ok () <-> rct_type_rule ty hf tx_hash.
Proof using L.
  unfold check_rct_type, rct_type_rule, hf_between, hf_le, hf_lt.
  pose proof (as_u8_range hf).
  destruct ty; try case_bool_decide; split_if; cbn in *; split; intros; try done; try lia; try (left; lia); intuition lia.
Qed.

Definition range_proofs_rule (proofs : RctProofs) (rng : Rng) (verifier : InternalBatchVerifier) : Prop :=
  match prunable proofs with
  | P_MlsagBorromean _ borromean | P_AggregateMlsagBorromean _ borromean =>
      Forall (fun '(b, c) => borromean_verify b c = true) (zip borromean (commitments (base proofs)))
  | P_MlsagBulletproofs _ _ bp | P_MlsagBulletproofsCompactAmount _ _ bp | P_Clsag _ _ bp =>
      (batch_verify bp rng verifier (commitments (base proofs))).1 = true
  end.

Definition pseudo_outs (proofs : RctProofs) : list CompressedPoint :=
  match prunable proofs with
  | P_Clsag ps _ _ | P_MlsagBulletproofsCompactAmount ps _ _ | P_MlsagBulletproofs ps _ _ => ps
  | P_MlsagBorromean _ _ => base_pseudo_outs (base proofs)
  | P_AggregateMlsagBorromean _ _ => []
  end.

(** The pseudo outputs sum to the commitments of the outputs plus the fee. *)
Definition balance_rule (proofs : RctProofs) : Prop :=
  exists ins outs, sum_points (pseudo_outs proofs) = Some ins /\
    sum_points (commitments (base proofs)) = Some outs /\
    point_eqb ins (point_add outs (mul_H (fee (base proofs)))) = true.

Lemma simple_type_balances_Ok proofs :
  rct_type proofs <> AggregateMlsagBorromean ->
  simple_type_balances proofs = Ok () <-> balance_rule proofs.
Proof using L.
  intros Ha. unfold simple_type_balances, balance_rule.
  assert ((if bool_decide (rct_type proofs = MlsagBorromean) then Ok (base_pseudo_outs (base proofs))
     else match prunable proofs with
          | P_Clsag pseudo_outs _ _
          | P_MlsagBulletproofsCompactAmount pseudo_outs _ _
          | P_MlsagBulletproofs pseudo_outs _ _ => Ok pseudo_outs
          | P_MlsagBorromean _ _ => Ok (base_pseudo_outs (base proofs))
          | P_AggregateMlsagBorromean _ _ => Panic
          end) = Ok (E := RingCTError) (pseudo_outs proofs)) as ->.
  { unfold pseudo_outs. case_bool_decide as Hb.
    - apply rct_type_borromean in Hb as (m & b & ->). done.
    - destruct (prunable proofs) eqn:E; try done. destruct Ha. apply rct_type_aggregate. eauto. }
  cbn [mbind result_bind].
  destruct (sum_points (pseudo_outs proofs)) as [i|]; cbn; [|split; [done|naive_solver]].
  destruct (sum_points (commitments (base proofs))) as [o|]; cbn; [|split; [done|naive_solver]].
  destruct (point_eqb _ _) eqn:Eq; split; [by exists i, o|done|done|].
  intros (i' & o' & [= <-] & [= <-] & Hi). congruence.
Qed.

Definition rct_rule (proofs : RctProofs) (tx_hash : bytes) (rng : Rng) (verifier : InternalBatchVerifier)
    (hf : HardFork) : Prop :=
  rct_type_rule (rct_type proofs) hf tx_hash /\ range_proofs_rule proofs rng verifier /\
  (rct_type proofs <> AggregateMlsagBorromean -> balance_rule proofs).

Lemma check_output_range_proofs_Ok proofs rng verifier :
  (check_output_range_proofs proofs rng verifier).1 = Ok () <-> range_proofs_rule proofs rng verifier.
Proof using L.
  unfold check_output_range_proofs, range_proofs_rule.
  destruct (prunable proofs); try (destruct (batch_verify _ _ _ _) as [[] ?]; done); cbn [fst];
    rewrite try_for_each_Ok; apply Forall_iff; intros [b c]; by destruct (borromean_verify b c).
Qed.

Lemma ring_ct_semantic_checks_Ok proofs tx_hash rng verifier hf :
  (ring_ct_semantic_checks proofs tx_hash rng verifier hf).1 = Ok () <->
  rct_rule proofs tx_hash rng verifier hf.
Proof using L.
  unfold ring_ct_semantic_checks, rct_rule.
  rewrite <- check_rct_type_Ok, <- check_output_range_proofs_Ok.
  destruct (check_rct_type _ _ _) as [[]| |]; cbn; [|split; [done|naive_solver]..].
  destruct (check_output_range_proofs _ _ _) as [[[]| |] v]; cbn; [|split; [done|naive_solver]..].
  case_bool_decide as Ha; cbn; [split; naive_solver|].
  rewrite simple_type_balances_Ok by done. naive_solver.
Qed.


(** ** The whole check *)

(** The rules of a transaction that pays the fee [f]. *)
Definition semantic_rules (tx : Transaction) (tx_blob_size tx_weight : Z) (tx_hash : bytes)
    (hf : HardFork) (rng : Rng) (verifier : InternalBatchVerifier) (f : Z) : Prop :=
  tx_blob_size <= 1000000 /\
  (hf_le V8 hf = true -> tx_weight <= 149400) /\
  exists outs_sum ins_sum,
    outputs_rule (outputs (prefix tx)) hf (tx_version tx) (bp_or_bpp tx) outs_sum /\
    inputs_rule (inputs (prefix tx)) hf ins_sum /\
    match tx with
    | Tx_V1 _ _ => outs_sum < ins_sum /\ f = ins_sum - outs_sum
    | Tx_V2 _ None => False
    | Tx_V2 _ (Some proofs) => rct_rule proofs tx_hash rng verifier hf /\ f = fee (base proofs)
    end.

Lemma weight_limit_from_V8 hf : hf_le V8 hf = true -> transaction_weight_limit hf = 149400.
Proof using Type. by destruct hf. Qed.

Lemma size_check_Ok hf blob weight :
  negb ((MAX_TX_BLOB_SIZE <? blob) || (hf_le V8 hf && (transaction_weight_limit hf <? weight))) = true <->
  blob <= 1000000 /\ (hf_le V8 hf = true -> weight <= 149400).
Proof using Type.
  unfold MAX_TX_BLOB_SIZE. destruct (hf_le V8 hf) eqn:E8; [rewrite weight_limit_from_V8 by done|]; cbn [andb];
    destruct (_ <? blob) eqn:E1; cbn; bsimp; [..|intuition (done || lia)]; [intuition (done || lia)| |intuition (done || lia)].
  destruct (_ <? weight) eqn:E2; cbn; bsimp; intuition (done || lia).
Qed.

Lemma check_transaction_semantic_Ok tx blob weight tx_hash hf rng verifier f :
  tx_typed tx ->
  (check_transaction_semantic tx blob weight tx_hash hf rng verifier).1 = Ok f <->
  semantic_rules tx blob weight tx_hash hf rng verifier f.
Proof using L.
  intros [Ho Hi]. unfold check_transaction_semantic, semantic_rules.
  rewrite from_raw_version. cbn [ok_or].
  rewrite <- Logic.and_assoc, <- size_check_Ok.
  destruct (negb _); cbn [ensure mbind result_bind]; [|split; [done|by intros [? _]]].
  setoid_rewrite <- check_outputs_semantics_Ok; [|done]. setoid_rewrite <- check_inputs_semantics_Ok; [|done].
  destruct (check_outputs_semantics _ _ _ _) as [so| |] eqn:Eso; cbn [mbind result_bind]; [|split; [done|naive_solver]..].
  destruct (check_inputs_semantics _ _) as [si| |] eqn:Esi; cbn [mbind result_bind]; [|split; [done|naive_solver]..].
  destruct tx as [p s|p [proofs|]]; cbn [fst].
  - apply check_outputs_semantics_Ok in Eso as (_ & _ & _ & _ & Hso & Hso'); [|done].
    apply check_inputs_semantics_Ok in Esi as (_ & _ & _ & Hsi & Hsi'); [|done].
    assert (0 <= so) by (subst so; apply sumZ_nonneg, Forall_map, (Forall_impl _ _ _ Ho); unfold is_u; cbn; lia).
    destruct (si <=? so) eqn:E; bsimp.
    + split; [done|]. intros (_ & ? & ? & [= <-] & [= <-] & ? & _). lia.
    + rewrite wrap_small by zlia. split; [intros [= <-]; eauto 8|].
      by intros (_ & ? & ? & [= <-] & [= <-] & _ & ->).
  - pose proof (ring_ct_semantic_checks_Ok proofs tx_hash rng verifier hf) as Hr.
    destruct (ring_ct_semantic_checks _ _ _ _ _) as [[[]| |] v]; cbn in *; [|split; [done|naive_solver]..].
    split; [intros [= <-]; split; [done|]; exists so, si; tauto|]. by intros (_ & ? & ? & _ & _ & _ & ->).
  - split; [done|]. naive_solver.
Qed.

Lemma np_check_output_types outs hf : check_output_types outs hf <> Panic.
Proof using Type.
  unfold check_output_types. case_bool_decide; apply np_try_for_each; [intros [a b] _|intros a _]; split_if; done.
Qed.

Lemma np_outputs outs hf ver bp : check_outputs_semantics outs hf ver bp <> Panic.
Proof using Type.
  unfold check_outputs_semantics, check_output_keys, check_number_of_outputs, sum_outputs.
  apply np_bind; [apply np_check_output_types|intros _ _].
  apply np_bind; [apply np_try_for_each; intros x _; by destruct (decompress _)|intros _ _].
  apply np_bind; [split_if; done|intros _ _].
  apply np_try_fold. intros s x _. apply np_bind; [|intros _ _; apply np_ok_or].
  unfold check_output_amount_v1, check_output_amount_v2. destruct ver; split_if; done.
Qed.

Lemma np_inputs ins hf : check_inputs_semantics ins hf <> Panic.
Proof using Type.
  unfold check_inputs_semantics, check_inputs_sorted, sum_inputs_check_overflow.
  apply np_bind; [by destruct ins|intros _ _].
  apply np_bind; [apply np_try_for_each; intros [h|a os k] _; [done|]|intros _ _].
  { apply np_bind; [done|intros _ _]. apply np_bind; [by destruct os|intros _ _].
    unfold check_ring_members_unique. destruct (hf_le V6 hf); [|done].
    apply np_try_for_each. intros o _. by split_if. }
  apply np_bind; [|intros _ _; apply np_try_fold; intros s [h|a os k] _; [done|apply np_ok_or]].
  destruct (hf_le V7 hf); [|done]. apply np_try_for_each.
  intros [[]  []] _; cbn; try done. by split_if.
Qed.

Lemma np_ring_ct proofs tx_hash rng verifier hf :
  (ring_ct_semantic_checks proofs tx_hash rng verifier hf).1 <> Panic.
Proof using L.
  unfold ring_ct_semantic_checks.
  assert (check_rct_type (rct_type proofs) hf tx_hash <> Panic) as Ht
    by (unfold check_rct_type; destruct (rct_type proofs); try case_bool_decide; split_if; done).
  destruct (check_rct_type _ _ _) as [[]| |]; [|done..].
  assert ((check_output_range_proofs proofs rng verifier).1 <> Panic) as Hr.
  { unfold check_output_range_proofs. destruct (prunable proofs);
      try (destruct (batch_verify _ _ _ _) as [[] ?]; done); apply np_try_for_each; intros [b c] _; by destruct (borromean_verify b c). }
  destruct (check_output_range_proofs _ _ _) as [r v]. cbn [fst] in *. apply np_bind; [done|intros _ _].
  case_bool_decide as Ha; [done|]. cbn [negb]. unfold simple_type_balances. apply np_bind.
  { case_bool_decide; [done|]. destruct (prunable proofs) eqn:E; try done. destruct Ha. apply rct_type_aggregate. eauto. }
  intros ps _. repeat (apply np_bind; [apply np_ok_or|intros ? _]). by destruct (point_eqb _ _).
Qed.

Lemma np_semantic tx blob weight tx_hash hf rng verifier :
  (check_transaction_semantic tx blob weight tx_hash hf rng verifier).1 <> Panic.
Proof using L.
  unfold check_transaction_semantic.
  match goal with |- context [match ?r with Ok _ => _ | Err _ => _ | Panic => _ end] =>
    assert (r <> Panic) as Hr end.
  { apply np_bind; [apply np_ensure|intros _ _]. apply np_bind; [apply np_ok_or|intros ver _].
    apply np_bind; [apply np_outputs|intros so _]. apply np_bind; [apply np_inputs|done]. }
  destruct (_ ≫= _) as [[so si]| |]; [|done..].
  destruct tx as [p s|p [proofs|]]; [by destruct (si <=? so)| |done].
  pose proof (np_ring_ct proofs tx_hash rng verifier hf) as Hp.
  destruct (ring_ct_semantic_checks _ _ _ _ _) as [[]  v]; cbn; done.
Qed.


(** ** Claims *)

(** C8. The semantic check of a transaction accepts exactly the transactions that satisfy the
    consensus rules and returns their fee: size limits; the type, key, number and amounts
    of the outputs; at least one input, each with ring members; from V7 on strictly
    decreasing key images; sums of amounts below 2^64; for version 1 the fee is the
    positive difference of the sums; for version 2 the type of ring CT is allowed in the
    fork, the range proofs verify and the commitments balance with the fee. It never
    panics. *)
Theorem check_transaction_semantic_iff tx blob weight tx_hash hf rng verifier f :
  tx_typed tx ->
  let r := (check_transaction_semantic tx blob weight tx_hash hf rng verifier).1 in
  (r = Ok f <-> semantic_rules tx blob weight tx_hash hf rng verifier f) /\ r <> Panic.
Proof using L. intros Ht. split; [by apply check_transaction_semantic_Ok|apply np_semantic]. Qed.

(** From V7 on a transaction that passes the semantic check does not spend the same key
    image twice: all its inputs are spends and their key images are distinct. *)
Theorem semantic_key_images_distinct tx blob weight tx_hash hf rng verifier f :
  tx_typed tx -> hf_le V7 hf = true ->
  (check_transaction_semantic tx blob weight tx_hash hf rng verifier).1 = Ok f ->
  exists kis, Forall2 (fun inp ki => exists amount os, inp = ToKey amount os ki) (inputs (prefix tx)) kis /\
    NoDup kis.
Proof using L.
  intros Ht H7 Hok. apply check_transaction_semantic_Ok in Hok as (_ & _ & so & si & _ & Hi & _); [|done].
  destruct Hi as (_ & Hr & Hs & _). specialize (Hs H7). clear -Hr Hs L.
  induction Hr as [|inp ins (a & os & ki & -> & _) _ IH]; [exists []; split; constructor|].
  cbn [map] in Hs. inversion Hs as [|? ? Hs' Ha]; subst. destruct (IH Hs') as (kis & Hf & Hn).
  exists (ki :: kis). split; [constructor; [by eexists _, _|done]|]. constructor; [|done].
  intros Hin. apply list_elem_of_lookup in Hin as (k & Hk).
  destruct (Forall2_lookup_r _ _ _ _ _ Hf Hk) as (inp & Hinp & a' & os' & ->).
  rewrite Forall_map, Forall_forall in Ha.
  apply (bytes_gt_irrefl (to_bytes ki)). apply (Ha (ToKey a' os' ki)). by eapply list_elem_of_lookup_2.
Qed.

End spec.

(** ** Witnesses: a ring-CT transaction of V16 with two inputs and two outputs *)
Import Transparent.

Module TestTx.
Definition tx : Transaction (H := oxide) :=
  Tx_V2 (H := oxide)
    (mk_prefix (H := oxide) TL_None [ToKey (H := oxide) None [5; 1] 9; ToKey (H := oxide) None [7; 2] 4]
       [mk_output (H := oxide) None 5 (Some 1); mk_output (H := oxide) None 6 (Some 2)])
    (Some (mk_proofs (H := oxide) (mk_base (H := oxide) 3 [] [4; 6])
       (P_Clsag (H := oxide) [10; 3] [(); ()] true))).
End TestTx.

Lemma check_transaction_semantic_iff_witness :
  semantic_rules TestTx.tx 1000 1000 (repeat 0 32) V16 () 0%nat 3.
Proof.
  apply (check_transaction_semantic_iff (O := Transparent.oxide)).
  - split; repeat constructor; done.
  - by vm_compute.
Defined.

Lemma semantic_key_images_distinct_witness :
  exists kis, Forall2 (fun inp ki => exists amount os, inp = ToKey amount os ki) (inputs (prefix TestTx.tx)) kis /\
    NoDup kis.
Proof.
  apply (semantic_key_images_distinct (O := Transparent.oxide) TestTx.tx 1000 1000 (repeat 0 32) V16 () 0%nat 3).
  - split; repeat constructor; done.
  - done.
  - by vm_compute.
Defined.

End TxRules.
