(* ===== verification/TxContext.v ===== *)
(** * Contextual transaction rules ([src/consensus/rules/src/transactions.rs],
    [transactions/contextual_data.rs], [transactions/ring_ct.rs],
    [transactions/ring_signatures.rs]; [src/consensus/src/transactions/contextual_data.rs])

    What is looked up on the chain for a transaction (absolute ring-member offsets, ring
    members, decoy statistics) and the rules that use it: time locks, the 10-block lock,
    decoys, key images, versions and signatures. *)
From S2P Require Import Prelude Bytes HardForks Median RulesBase TxData TxRules.
From Stdlib Require Import ZArith Lia.
From stdpp Require Import base tactics option list numbers sorting sets gmap.
Import HardForks RulesBase TxData TxRules.

#[local] Open Scope Z_scope.
#[local] Open Scope usize_scope.

Module TxContext.

Section rules.
Context {O : MoneroOxide} {T : TransactionOps O}.

Abbreviation Result := (result TransactionError).

(** ** Time locks *)
Definition check_block_time_lock (unlock_height current_chain_height : Z) : bool :=
  unlock_height <=? current_chain_height.

Definition check_timestamp_time_lock (unlock_timestamp current_time_lock_timestamp : Z) (hf : HardFork) : bool :=
  unlock_timestamp <=? current_time_lock_timestamp +! block_time hf.

Definition output_unlocked (time_lock : Timelock) (current_chain_height current_time_lock_timestamp : Z)
    (hf : HardFork) : bool :=
  match time_lock with
  | TL_None => true
  | TL_Block unlock_height => check_block_time_lock unlock_height current_chain_height
  | TL_Time unlock_time => check_timestamp_time_lock unlock_time current_time_lock_timestamp hf
  end.

Definition check_all_time_locks (time_locks : list Timelock)
    (current_chain_height current_time_lock_timestamp : Z) (hf : HardFork) : Result () :=
  try_for_each (fun time_lock =>
    if output_unlocked time_lock current_chain_height current_time_lock_timestamp hf then Ok ()
    else Err OneOrMoreRingMembersLocked) time_locks.

Definition check_10_block_lock (youngest_used_out_height current_chain_height : Z) (hf : HardFork) : Result () :=
  if hf_le V12 hf then
    if current_chain_height <? youngest_used_out_height +! 10 then Err OneOrMoreRingMembersLocked else Ok ()
  else Ok ().

(** ** Ring members *)
Fixpoint absolute_from (prev : Z) (relative_offsets : list Z) : list Z :=
  match relative_offsets with
  | [] => []
  | o :: os => let cur := prev +! o in cur :: absolute_from cur os
  end.

Definition get_absolute_offsets (relative_offsets : list Z) : Result (list Z) :=
  match relative_offsets with
  | [] => Err InputDoesNotHaveExpectedNumbDecoys
  | o :: os => Ok (o :: absolute_from o os)
  end.

(** The map from amounts to sets of indices ([IndexMap<u64, IndexSet<u64>>]). *)
Definition insert_ring_member_ids (inputs : list Input) (output_ids : gmap Z (gset Z))
    : Result (gmap Z (gset Z)) :=
  match inputs with
  | [] => Err NoInputs
  | _ =>
      try_fold (fun ids input =>
        match input with
        | ToKey amount key_offsets _ =>
            offsets ← get_absolute_offsets key_offsets;
            let amt := default 0 amount in
            Ok (<[amt := default ∅ (ids !! amt) ∪ list_to_set offsets]> ids)
        | Gen _ => Err IncorrectInputType
        end) output_ids inputs
  end.

Inductive Rings :=
  | Rings_Legacy (rings : list (list CompressedPoint))
  | Rings_RingCT (rings : list (list (CompressedPoint * CompressedPoint))).

(** ** Decoys *)
Record DecoyInfo := mk_decoy_info {
  mixable : Z;
  not_mixable : Z;
  min_decoys : Z;
  max_decoys : Z;
}.

Definition minimum_decoys (hf : HardFork) : Result Z :=
  match hf with
  | V1 => Panic
  | V2 | V3 | V4 | V5 => Ok 2
  | V6 => Ok 4
  | V7 => Ok 6
  | V8 | V9 | V10 | V11 | V12 | V13 | V14 => Ok 10
  | V15 | V16 => Ok 15
  end.

Definition DecoyInfo_new (inputs : list Input) (outputs_with_amount : Z -> Z) (hf : HardFork) : Result DecoyInfo :=
  minimum ← minimum_decoys hf;
  try_fold (fun d inp =>
    match inp with
    | ToKey amount key_offsets _ =>
        let '(m, nm) :=
          match amount with
          | Some amount =>
              let outs_with_amt := outputs_with_amount amount in
              if outs_with_amt <=? minimum then (mixable d, not_mixable d +! 1)
              else (mixable d +! 1, not_mixable d)
          | None => (mixable d +! 1, not_mixable d)
          end in
        numb_decoys ← ok_or (checked_sub (len key_offsets) 1) InputDoesNotHaveExpectedNumbDecoys;
        Ok (mk_decoy_info m nm (Z.min (min_decoys d) numb_decoys) (Z.max (max_decoys d) numb_decoys))
    | Gen _ => Err IncorrectInputType
    end) (mk_decoy_info 0 0 u64_MAX 0) inputs.

(** The body of [check_decoy_info] below its first test. *)
Definition check_decoy_info_at (decoy_info : DecoyInfo) (hf : HardFork) : Result () :=
  current_minimum_decoys ← minimum_decoys hf;
  _ ← (if min_decoys decoy_info <? current_minimum_decoys then
         if not_mixable decoy_info =? 0 then Err InputDoesNotHaveExpectedNumbDecoys
         else if 1 <? mixable decoy_info then Err MoreThanOneMixableInputWithUnmixable
         else Ok ()
       else if hf_le V8 hf && negb (min_decoys decoy_info =? current_minimum_decoys) then
         Err InputDoesNotHaveExpectedNumbDecoys
       else Ok () : Result ());
  if hf_le V12 hf && negb (min_decoys decoy_info =? max_decoys decoy_info) then
    Err InputDoesNotHaveExpectedNumbDecoys
  else Ok ().

Definition check_decoy_info (decoy_info : DecoyInfo) (hf : HardFork) : Result () :=
  if bool_decide (hf = V15) then
    match check_decoy_info_at decoy_info V14 with
    | Err _ => check_decoy_info_at decoy_info V16
    | r => r
    end
  else check_decoy_info_at decoy_info hf.

(** ** Data about the ring members of a transaction *)
Record TxRingMembersInfo := mk_ring_info {
  rings : Rings;
  decoy_info : option DecoyInfo;
  youngest_used_out_height : Z;
  time_locked_outs : list Timelock;
}.

Record OutputOnChain := mk_output_on_chain {
  height : Z;
  time_lock : Timelock;
  key : CompressedPoint;
  commitment : CompressedPoint;
  txid : option bytes;
}.

Definition get_ring_members_for_inputs (get_outputs : Z -> Z -> option OutputOnChain) (inputs : list Input)
    : Result (list (list OutputOnChain)) :=
  collect (fun inp =>
    match inp with
    | ToKey amount key_offsets _ =>
        offsets ← get_absolute_offsets key_offsets;
        collect (fun offset => ok_or (get_outputs (default 0 amount) offset) RingMemberNotFoundOrInvalid) offsets
    | Gen _ => Err IncorrectInputType
    end) inputs.

Definition new_rings (outputs : list (list OutputOnChain)) (tx_version : TxVersion) : Rings :=
  match tx_version with
  | RingSignatures => Rings_Legacy (map (map key) outputs)
  | RingCT => Rings_RingCT (map (map (fun out => (key out, commitment out))) outputs)
  end.

Definition is_locked (out : OutputOnChain) : option Timelock :=
  match time_lock out with TL_None => None | tl => Some tl end.

Definition new_ring_member_info (used_outs : list (list OutputOnChain)) (decoy_info : option DecoyInfo)
    (tx_version : TxVersion) : Result TxRingMembersInfo :=
  heights ← collect (fun inp_outs => unwrap (height <$> last inp_outs)) used_outs;
  youngest ← unwrap (iter_max heights);
  Ok (mk_ring_info (new_rings used_outs tx_version) decoy_info youngest
        (concat (map (omap is_locked) used_outs))).

(** One transaction of [batch_get_ring_member_info], given the outputs looked up. *)
Definition ring_member_info_for_tx (get_output : Z -> Z -> option OutputOnChain)
    (number_outs_with_amount : Z -> Z) (hf : HardFork) (tx_inputs : list Input) (tx_ver : TxVersion)
    : Result TxRingMembersInfo :=
  ring_members_for_tx ← get_ring_members_for_inputs get_output tx_inputs;
  decoy_info ← (if bool_decide (hf = V1) then Ok None
                else d ← DecoyInfo_new tx_inputs number_outs_with_amount hf; Ok (Some d));
  new_ring_member_info ring_members_for_tx decoy_info tx_ver.

(** ** Inputs *)
Definition check_key_images (input : Input) : Result () :=
  match input with
  | ToKey _ _ key_image =>
      match decompress key_image with
      | Some p => if is_torsion_free p then Ok () else Err KeyImageIsNotInPrimeSubGroup
      | None => Err KeyImageIsNotInPrimeSubGroup
      end
  | Gen _ => Err IncorrectInputType
  end.

Definition check_inputs_contextual (inputs : list Input) (info : TxRingMembersInfo)
    (current_chain_height : Z) (hf : HardFork) : Result () :=
  _ ← check_10_block_lock (youngest_used_out_height info) current_chain_height hf;
  _ ← match decoy_info info with
      | Some decoys_info => check_decoy_info decoys_info hf
      | None => rassert (bool_decide (hf = V1))
      end;
  try_for_each check_key_images inputs.

(** ** Versions *)
Definition max_tx_version (hf : HardFork) : TxVersion := if hf_le hf V3 then RingSignatures else RingCT.
Definition min_tx_version (hf : HardFork) : TxVersion := if hf_le V6 hf then RingCT else RingSignatures.

Definition check_tx_version (decoy_info : option DecoyInfo) (version : TxVersion) (hf : HardFork) : Result () :=
  match decoy_info with
  | Some decoy_info =>
      if ver_lt (max_tx_version hf) version then Err TransactionVersionInvalid
      else if ver_lt version (min_tx_version hf) && (not_mixable decoy_info =? 0) then
        Err TransactionVersionInvalid
      else Ok ()
  | None =>
      if negb (bool_decide (version = RingSignatures)) then Err TransactionVersionInvalid else Ok ()
  end.

(** ** Signatures *)

(** [ring_signatures::check_input_signatures] *)
Definition check_ring_signatures (inputs : list Input) (signatures : list RingSignature) (rings : Rings)
    (tx_sig_hash : bytes) : Result () :=
  match rings with
  | Rings_Legacy rings =>
      if negb (len signatures =? len inputs) || negb (len rings =? len inputs) then Err RingSignatureIncorrect
      else
        try_for_each (fun '((input, ring), sig) =>
          match input with
          | ToKey _ _ key_image =>
              if negb (ring_signature_verify sig tx_sig_hash ring key_image) then Err RingSignatureIncorrect
              else Ok ()
          | Gen _ => Panic
          end) (zip (zip inputs rings) signatures)
  | Rings_RingCT _ => Panic
  end.

(** [let Input::ToKey { key_image, .. } = inp else { panic!() }] *)
Definition input_key_image (inp : Input) : result RingCTError CompressedPoint :=
  match inp with ToKey _ _ key_image => Ok key_image | Gen _ => Panic end.

(** [ring_ct::check_input_signatures] *)
Definition check_input_signatures (msg : bytes) (inputs : list Input) (proofs : RctProofs) (rings : Rings)
    : result RingCTError () :=
  match rings with
  | Rings_RingCT rings =>
      match rings with
      | [] => Err RingInvalid
      | _ =>
          let pseudo_outs :=
            match prunable proofs with
            | P_MlsagBulletproofs pseudo_outs _ _
            | P_MlsagBulletproofsCompactAmount pseudo_outs _ _
            | P_Clsag pseudo_outs _ _ => pseudo_outs
            | P_MlsagBorromean _ _ => base_pseudo_outs (base proofs)
            | P_AggregateMlsagBorromean _ _ => []
            end in
          match prunable proofs with
          | P_AggregateMlsagBorromean mlsag _ =>
              key_images ← collect input_key_image inputs;
              matrix ← map_err MLSAGError (aggregate_new (commitments (base proofs)) (fee (base proofs)));
              matrix ← map_err MLSAGError (try_fold push_ring matrix rings);
              built ← map_err MLSAGError (aggregate_build matrix);
              map_err MLSAGError (mlsag_verify mlsag msg built key_images)
          | P_MlsagBorromean mlsags _
          | P_MlsagBulletproofsCompactAmount _ mlsags _
          | P_MlsagBulletproofs _ mlsags _ =>
              try_for_each (fun '(((mlsag, pseudo_out), input), ring) =>
                key_image ← input_key_image input;
                matrix ← map_err MLSAGError (ring_matrix_individual ring pseudo_out);
                map_err MLSAGError (mlsag_verify mlsag msg matrix [key_image]))
                (zip (zip (zip mlsags pseudo_outs) inputs) rings)
          | P_Clsag _ clsags _ =>
              try_for_each (fun '(((clsag, pseudo_out), input), ring) =>
                key_image ← input_key_image input;
                map_err CLSAGError (clsag_verify clsag ring key_image pseudo_out msg))
                (zip (zip (zip clsags pseudo_outs) inputs) rings)
          end
      end
  | Rings_Legacy _ => Panic
  end.

(** ** The whole check *)
Definition check_transaction_contextual (tx : Transaction) (info : TxRingMembersInfo)
    (current_chain_height current_time_lock_timestamp : Z) (hf : HardFork) : Result () :=
  tx_version ← ok_or (from_raw (version tx)) TransactionVersionInvalid;
  _ ← check_inputs_contextual (inputs (prefix tx)) info current_chain_height hf;
  _ ← check_tx_version (decoy_info info) tx_version hf;
  _ ← check_all_time_locks (time_locked_outs info) current_chain_height current_time_lock_timestamp hf;
  match tx with
  | Tx_V1 prefix signatures =>
      hash ← ok_or (signature_hash tx) TransactionVersionInvalid;
      check_ring_signatures (inputs prefix) signatures (rings info) hash
  | Tx_V2 prefix proofs =>
      hash ← ok_or (signature_hash tx) TransactionVersionInvalid;
      proofs ← ok_or proofs TransactionVersionInvalid;
      map_err TxRingCTError (check_input_signatures hash (inputs prefix) proofs (rings info))
  end.

End rules.

(** ** Facts *)
Section facts.
Context {O : MoneroOxide} {T : TransactionOps O} {L : MoneroOxideLaws O T}.

Lemma absolute_from_sums prev os :
  0 <= prev -> Forall (is_u 64) os -> prev + sumZ os < 2 ^ 64 ->
  length (absolute_from prev os) = length os /\
  forall i x, absolute_from prev os !! i = Some x -> x = prev + sumZ (take (S i) os).
Proof using Type.
  intros Hp Hos. revert prev Hp. induction Hos as [|o os Ho Hos IH]; intros prev Hp Hs; [done|].
  cbn [sumZ foldr absolute_from length] in *. fold (sumZ os) in *.
  assert (0 <= sumZ os) by (apply sumZ_nonneg, (Forall_impl _ _ _ Hos); unfold is_u; lia).
  rewrite wrap_small by zlia. destruct (IH (prev + o)) as [Hl Hi]; [unfold is_u in Ho; lia|lia|].
  split; [by rewrite Hl|]. intros i x. rewrite firstn_cons. change (sumZ (o :: ?l)) with (o + sumZ l).
  destruct i as [|i]; cbn [lookup list_lookup]; intros Hx; [injection Hx as <-; rewrite take_0; change (sumZ []) with 0; lia|].
  apply Hi in Hx. lia.
Qed.

Lemma absolute_from_sorted prev os :
  0 <= prev -> Forall (is_u 64) os -> Forall (fun o => o <> 0) os -> prev + sumZ os < 2 ^ 64 ->
  StronglySorted Z.lt (prev :: absolute_from prev os).
Proof using Type.
  intros Hp Hos. revert prev Hp. induction Hos as [|o os Ho Hos IH]; intros prev Hp Hz Hs; [repeat constructor|].
  cbn [sumZ foldr absolute_from] in *. fold (sumZ os) in *. apply List.Forall_cons_iff in Hz as [Hz Hz'].
  assert (0 <= sumZ os) by (apply sumZ_nonneg, (Forall_impl _ _ _ Hos); unfold is_u; lia).
  rewrite wrap_small by zlia. assert (StronglySorted Z.lt (prev + o :: absolute_from (prev + o) os)) as H'
    by (apply IH; [unfold is_u in Ho; lia|done|lia]).
  constructor; [done|]. inversion H' as [|? ? _ Hf]; subst. constructor; [unfold is_u in Ho; lia|].
  apply (Forall_impl _ _ _ Hf). unfold is_u in Ho. lia.
Qed.

Lemma get_absolute_offsets_Ok os :
  os <> [] -> exists abs, get_absolute_offsets os = Ok abs /\ abs <> [].
Proof using Type. destruct os as [|o os]; [done|]. intros _. by exists (o :: absolute_from o os). Qed.

(** Every ring of a successful lookup is nonempty, and there is one per input. *)
Lemma get_ring_members_shape get ins ms :
  get_ring_members_for_inputs get ins = Ok ms ->
  length ms = length ins /\ Forall (fun m => m <> []) ms.
Proof using Type.
  unfold get_ring_members_for_inputs. rewrite collect_Ok. intros H. split; [symmetry; by eapply Forall2_length|].
  induction H as [|inp m ins ms Hm _ IH]; constructor; [|done].
  destruct inp as [|a os k]; [done|]. apply bind_Ok in Hm as (abs & Ha & Hm). apply collect_Ok in Hm.
  destruct os as [|o os]; [done|]. injection Ha as <-. by inversion Hm.
Qed.

Lemma np_ring_members get ins : get_ring_members_for_inputs get ins <> Panic.
Proof using Type.
  apply np_collect. intros [|a os k] _; [done|]. apply np_bind; [by destruct os|intros abs _].
  apply np_collect. intros x _. apply np_ok_or.
Qed.

Lemma np_minimum_decoys hf : hf <> V1 -> minimum_decoys hf <> Panic.
Proof using Type. by destruct hf. Qed.

Lemma np_DecoyInfo_new ins f hf : hf <> V1 -> DecoyInfo_new ins f hf <> Panic.
Proof using Type.
  intros Hhf. apply np_bind; [by apply np_minimum_decoys|intros m _]. apply np_try_fold.
  intros d [|a os k] _; [done|]. destruct (match a with Some _ => _ | None => _ end) as [x y].
  apply np_bind; [apply np_ok_or|done].
Qed.

Lemma np_new_ring_member_info outs d ver :
  outs <> [] -> Forall (fun m => m <> []) outs -> new_ring_member_info outs d ver <> Panic.
Proof using Type.
  intros Ho Hm. unfold new_ring_member_info. apply np_bind.
  { apply np_collect. intros m Hin. rewrite Forall_forall in Hm. specialize (Hm _ Hin).
    destruct m as [|x m] using rev_ind; [done|]. by rewrite last_snoc. }
  intros hs Hhs. apply collect_Ok, Forall2_length in Hhs. destruct outs, hs; done.
Qed.

Lemma np_ring_member_info get nb hf ins ver :
  ins <> [] -> ring_member_info_for_tx get nb hf ins ver <> Panic.
Proof using Type.
  intros Hi. apply np_bind; [apply np_ring_members|]. intros ms Hms.
  apply get_ring_members_shape in Hms as [Hl Hn]. apply np_bind.
  { case_bool_decide; [done|]. apply np_bind; [by apply np_DecoyInfo_new|done]. }
  intros d _. apply np_new_ring_member_info; [|done]. by destruct ms, ins.
Qed.

Lemma ring_member_info_shape get nb hf ins ver info :
  ring_member_info_for_tx get nb hf ins ver = Ok info ->
  (decoy_info info = None <-> hf = V1) /\
  match rings info with
  | Rings_Legacy rs => ver = RingSignatures /\ length rs = length ins
  | Rings_RingCT rs => ver = RingCT /\ length rs = length ins
  end.
Proof using Type.
  unfold ring_member_info_for_tx. intros H. apply bind_Ok in H as (ms & Hms & H).
  apply get_ring_members_shape in Hms as [Hl _]. apply bind_Ok in H as (d & Hd & H).
  unfold new_ring_member_info in H. apply bind_Ok in H as (hs & _ & H). apply bind_Ok in H as (y & _ & [= <-]).
  cbn. split.
  - case_bool_decide; [by injection Hd as <-|]. apply bind_Ok in Hd as (d' & _ & [= <-]). by split.
  - destruct ver; cbn; rewrite length_map; done.
Qed.

(** ** Decoys *)

(** What the statistics say of the inputs, as the loop goes. *)
Definition decoys_within (d : DecoyInfo) (inp : Input) : Prop :=
  exists a os k, inp = ToKey a os k /\ os <> [] /\ min_decoys d <= len os - 1 <= max_decoys d.

Lemma decoys_within_mono d d' inp :
  min_decoys d' <= min_decoys d -> max_decoys d <= max_decoys d' -> decoys_within d inp -> decoys_within d' inp.
Proof using Type. intros H1 H2 (a & os & k & -> & Hos & Hb). exists a, os, k. split_and!; done || lia. Qed.

Lemma decoy_fold_within m f ins d0 d :
  try_fold (fun d inp =>
    match inp with
    | ToKey amount key_offsets _ =>
        let '(x, y) :=
          match amount with
          | Some amount => if f amount <=? m then (mixable d, not_mixable d +! 1) else (mixable d +! 1, not_mixable d)
          | None => (mixable d +! 1, not_mixable d)
          end in
        numb_decoys ← ok_or (checked_sub (len key_offsets) 1) InputDoesNotHaveExpectedNumbDecoys;
        Ok (mk_decoy_info x y (Z.min (min_decoys d) numb_decoys) (Z.max (max_decoys d) numb_decoys))
    | Gen _ => Err IncorrectInputType
    end) d0 ins = Ok d ->
  min_decoys d <= min_decoys d0 /\ max_decoys d0 <= max_decoys d /\ Forall (decoys_within d) ins.
Proof using Type.
  revert d0. induction ins as [|inp ins IH]; intros d0; cbn [try_fold].
  { intros [= <-]. split_and!; [done|done|constructor]. }
  intros H. apply bind_Ok in H as (d1 & H1 & H). destruct inp as [|a os k]; [done|].
  destruct (match a with Some _ => _ | None => _ end) as [x y]. apply bind_Ok in H1 as (n & Hn & [= <-]).
  apply ok_or_Ok in Hn. unfold checked_sub in Hn. destruct (_ <=? _) eqn:E; [|done]. injection Hn as <-. bsimp.
  apply IH in H as (Hmin & Hmax & Hf). cbn [min_decoys max_decoys] in *. split_and!; [lia|lia|].
  constructor; [|done]. exists a, os, k. split_and!; [done|by intros ->|lia|lia].
Qed.

(** *** The rule of a fork on the sizes of the rings *)
Definition required_decoys (hf : HardFork) : Z :=
  match hf with
  | V1 => 0
  | V2 | V3 | V4 | V5 => 2
  | V6 => 4
  | V7 => 6
  | V8 | V9 | V10 | V11 | V12 | V13 | V14 => 10
  | V15 | V16 => 15
  end.

Definition decoys (inp : Input) : Z := match inp with ToKey _ os _ => len os - 1 | Gen _ => 0 end.

(** There are too few outputs of the input's amount for [m] decoys. *)
Definition unmixable (nb : Z -> Z) (m : Z) (inp : Input) : bool :=
  match inp with ToKey (Some a) _ _ => nb a <=? m | _ => false end.

(** At fork [f]: if all inputs have the required number of decoys, then from V8 on one has
    no more; an input with fewer needs an input that cannot be mixed, and then at most one
    input that can be mixed; from V12 on all inputs have as many. *)
Definition decoy_rule_at (f : HardFork) (m : Z) (nb : Z -> Z) (ins : list Input) : Prop :=
  ((forall inp, inp ∈ ins -> required_decoys f <= decoys inp) -> hf_le V8 f = true ->
     exists inp, inp ∈ ins /\ decoys inp = required_decoys f) /\
  (forall inp, inp ∈ ins -> decoys inp < required_decoys f ->
     (exists u, u ∈ ins /\ unmixable nb m u = true) /\ len (filter (fun i => unmixable nb m i = false) ins) <= 1) /\
  (hf_le V12 f = true -> forall inp inp', inp ∈ ins -> inp' ∈ ins -> decoys inp = decoys inp').

(** V1 has no rule; V15 allows the rings of V14 and those of V16. *)
Definition decoy_rule (hf : HardFork) (nb : Z -> Z) (ins : list Input) : Prop :=
  match hf with
  | V1 => True
  | V15 => decoy_rule_at V14 15 nb ins \/ decoy_rule_at V16 15 nb ins
  | _ => decoy_rule_at hf (required_decoys hf) nb ins
  end.

(** What the statistics are. *)
Record decoys_counted (m : Z) (nb : Z -> Z) (ins : list Input) (d : DecoyInfo) : Prop := {
  dc_not_mixable : not_mixable d = len (filter (fun i => unmixable nb m i = true) ins);
  dc_mixable : mixable d = len (filter (fun i => unmixable nb m i = false) ins);
  dc_within : forall inp, inp ∈ ins -> min_decoys d <= decoys inp <= max_decoys d;
  dc_min : min_decoys d = u64_MAX \/ exists inp, inp ∈ ins /\ decoys inp = min_decoys d;
}.

Lemma decoy_fold_counts m f ins d0 d :
  0 <= mixable d0 -> mixable d0 + len ins < 2 ^ 64 -> 0 <= not_mixable d0 -> not_mixable d0 + len ins < 2 ^ 64 ->
  try_fold (fun d inp =>
    match inp with
    | ToKey amount key_offsets _ =>
        let '(x, y) :=
          match amount with
          | Some amount => if f amount <=? m then (mixable d, not_mixable d +! 1) else (mixable d +! 1, not_mixable d)
          | None => (mixable d +! 1, not_mixable d)
          end in
        numb_decoys ← ok_or (checked_sub (len key_offsets) 1) InputDoesNotHaveExpectedNumbDecoys;
        Ok (mk_decoy_info x y (Z.min (min_decoys d) numb_decoys) (Z.max (max_decoys d) numb_decoys))
    | Gen _ => Err IncorrectInputType
    end) d0 ins = Ok d ->
  not_mixable d = not_mixable d0 + len (filter (fun i => unmixable f m i = true) ins) /\
  mixable d = mixable d0 + len (filter (fun i => unmixable f m i = false) ins) /\
  (min_decoys d = min_decoys d0 \/ exists inp, inp ∈ ins /\ decoys inp = min_decoys d).
Proof using Type.
  revert d0. induction ins as [|inp ins IH]; intros d0 M0 M1 N0 N1; cbn [try_fold].
  { intros [= <-]. change (len (filter _ [])) with 0. split_and!; [lia|lia|by left]. }
  rewrite len_cons in M1, N1. pose proof (len_nonneg ins). intros H'. apply bind_Ok in H' as (d1 & H1 & H').
  destruct inp as [|a os k]; [done|]. rewrite !filter_cons.
  assert (exists x y, (match a with Some amount => if f amount <=? m then (mixable d0, not_mixable d0 +! 1) else (mixable d0 +! 1, not_mixable d0) | None => (mixable d0 +! 1, not_mixable d0) end) = (x, y) /\
    if unmixable f m (ToKey a os k) then x = mixable d0 /\ y = not_mixable d0 + 1 else x = mixable d0 + 1 /\ y = not_mixable d0) as (x & y & Hxy & Hu).
  { unfold unmixable. destruct a as [a|]; [destruct (f a <=? m)|]; eexists _, _; (split; [done|]); (split; [|done]) || (split; [done|]);
      rewrite wrap_small; (done || zlia). }
  rewrite Hxy in H1. apply bind_Ok in H1 as (n & Hn & [= <-]).
  apply ok_or_Ok in Hn. unfold checked_sub in Hn. destruct (_ <=? _) eqn:E; [|done]. injection Hn as <-. bsimp.
  destruct (unmixable f m (ToKey a os k)) eqn:Eu; destruct Hu as [-> ->];
    pose proof (fun A1 A2 A3 A4 => IH _ A1 A2 A3 A4 H') as I; cbn [mixable not_mixable min_decoys] in I; (destruct I as (I1 & I2 & I3); [lia..|]).
  all: repeat case_decide; try done; rewrite ?len_cons.
  all: (split_and!; [lia|lia|]); destruct I3 as [I3|(i & Hi & Hd)]; [|right; exists i; split; [by right|done]].
  all: destruct (Z.min_spec (min_decoys d0) (len os - 1)) as [[_ Hm]|[_ Hm]]; rewrite Hm in I3; [by left|right].
  all: exists (ToKey a os k); split; [by left|]; cbn [decoys]; lia.
Qed.

Lemma minimum_decoys_required hf : hf <> V1 -> minimum_decoys hf = Ok (required_decoys hf).
Proof using Type. by destruct hf. Qed.

Lemma DecoyInfo_new_counts ins nb hf d :
  hf <> V1 -> len ins < 2 ^ 64 -> DecoyInfo_new ins nb hf = Ok d -> decoys_counted (required_decoys hf) nb ins d.
Proof using Type.
  intros Hhf Hl. unfold DecoyInfo_new. rewrite minimum_decoys_required by done. cbn [mbind result_bind]. intros H.
  pose proof H as Hw. apply decoy_fold_within in Hw as (_ & _ & Hw).
  apply decoy_fold_counts in H as (H1 & H2 & H3); cbn [mixable not_mixable min_decoys] in *; [|lia..]. split; [lia|lia| |done].
  intros inp Hin. rewrite Forall_forall in Hw. destruct (Hw inp Hin) as (a & os & k & -> & _ & Hb). exact Hb.
Qed.

Lemma check_decoy_info_at_rule f m nb ins d :
  f <> V1 -> decoys_counted m nb ins d -> check_decoy_info_at d f = Ok () -> decoy_rule_at f m nb ins.
Proof using Type.
  intros Hf [D1 D2 D3 D4]. unfold check_decoy_info_at. rewrite minimum_decoys_required by done. cbn [mbind result_bind].
  assert (0 <= required_decoys f <= 15) as Hr by (by destruct f). set (n := required_decoys f) in *. intros H.
  apply bind_Ok in H as ([] & H & H12). split_and!.
  - intros Hall H8. rewrite H8 in H. destruct D4 as [D4|(i & Hi & Hd)].
    + rewrite D4 in H. destruct (u64_MAX <? n) eqn:E1; bsimp; [unfold u64_MAX in *; lia|]. cbn in H.
      destruct (u64_MAX =? n) eqn:E2; bsimp; [unfold u64_MAX in *; lia|done].
    + exists i. split; [done|]. specialize (Hall i Hi). destruct (min_decoys d <? n) eqn:E1; bsimp; [lia|].
      destruct (min_decoys d =? n) eqn:E2; bsimp; [lia|done].
  - intros inp Hi Hd. destruct (D3 inp Hi) as [Hmin _]. destruct (min_decoys d <? n) eqn:E1; bsimp; [|lia].
    destruct (not_mixable d =? 0) eqn:E2; bsimp; [done|]. destruct (1 <? mixable d) eqn:E3; bsimp; [done|]. split; [|lia].
    rewrite D1 in E2. destruct (filter _ ins) as [|u l] eqn:Ef; [done|]. exists u.
    assert (u ∈ filter (fun i => unmixable nb m i = true) ins) as Hu by (rewrite Ef; by left). apply list_elem_of_filter in Hu. tauto.
  - intros Hge inp inp' Hi Hi'. rewrite Hge in H12. destruct (min_decoys d =? max_decoys d) eqn:E; bsimp; [|done].
    pose proof (D3 inp Hi). pose proof (D3 inp' Hi'). lia.
Qed.

Lemma check_decoy_info_rule hf nb ins d :
  hf <> V1 -> len ins < 2 ^ 64 -> DecoyInfo_new ins nb hf = Ok d -> check_decoy_info d hf = Ok () -> decoy_rule hf nb ins.
Proof using Type.
  intros Hhf Hl Hd. apply DecoyInfo_new_counts in Hd; [|done..]. unfold check_decoy_info, decoy_rule. case_bool_decide as H15.
  - subst hf. destruct (check_decoy_info_at d V14) as [[]|e|] eqn:E14; [|intros H|done].
    + intros _. left. by apply (check_decoy_info_at_rule V14 15 nb ins d).
    + right. by apply (check_decoy_info_at_rule V16 15 nb ins d).
  - intros H. apply check_decoy_info_at_rule with (m := required_decoys hf) (nb := nb) (ins := ins) in H; [|done..]. by destruct hf.
Qed.

(** The number of decoys each fork from V12 on asks for. *)
Definition decoys_of_fork (hf : HardFork) (n : Z) : Prop :=
  (hf_le hf V15 = true /\ n = 10) \/ (hf_le V15 hf = true /\ n = 15).

Lemma check_decoy_info_at_exact d hf n :
  hf_le V12 hf = true -> minimum_decoys hf = Ok n -> not_mixable d = 0 ->
  check_decoy_info_at d hf = Ok () <-> min_decoys d = n /\ max_decoys d = n.
Proof using Type.
  intros Hhf Hn Hm. unfold check_decoy_info_at. rewrite Hn, Hm, Hhf. cbn [mbind result_bind].
  assert (hf_le V8 hf = true) as -> by (by destruct hf).
  destruct (_ <? _) eqn:E1; cbn; bsimp; [split; [done|lia]|].
  destruct (min_decoys d =? n) eqn:E2; cbn; bsimp; [|split; [done|lia]].
  destruct (min_decoys d =? max_decoys d) eqn:E3; cbn; bsimp; split; done || lia.
Qed.

Lemma check_decoy_info_exact d hf :
  hf_le V12 hf = true -> not_mixable d = 0 -> check_decoy_info d hf = Ok () ->
  exists n, decoys_of_fork hf n /\ min_decoys d = n /\ max_decoys d = n.
Proof using Type.
  intros Hhf Hm. unfold check_decoy_info, decoys_of_fork. case_bool_decide as H15; [subst hf|].
  - destruct (check_decoy_info_at d V14) as [[]| |] eqn:E; [|intros H|done].
    + intros _. apply (check_decoy_info_at_exact d V14 10) in E; [|done..]. exists 10. tauto.
    + apply (check_decoy_info_at_exact d V16 15) in H; [|done..]. exists 15. tauto.
  - intros H. destruct hf; try done;
      first [apply (check_decoy_info_at_exact d _ 10) in H; [|done..]; exists 10; tauto
            |apply (check_decoy_info_at_exact d _ 15) in H; [|done..]; exists 15; tauto].
Qed.

(** ** Contextual acceptance *)

(** The number of signatures and pseudo outputs of ring-CT proofs, as the serialisation of
    a transaction with [n] inputs fixes it. *)
Definition proofs_shape (proofs : RctProofs) (n : nat) : Prop :=
  match prunable proofs with
  | P_AggregateMlsagBorromean _ _ => True
  | P_MlsagBorromean mlsags _ => length mlsags = n /\ length (base_pseudo_outs (base proofs)) = n
  | P_MlsagBulletproofs ps mlsags _ | P_MlsagBulletproofsCompactAmount ps mlsags _ =>
      length mlsags = n /\ length ps = n
  | P_Clsag ps clsags _ => length clsags = n /\ length ps = n
  end.

(** Input number [i] with key image [ki] and ring [ring] is signed. The aggregate signature
    is one for all inputs, over the matrix built of the commitments, the fee and all rings
    in order. *)
Definition input_signed (proofs : RctProofs) (msg : bytes) (ins : list Input) (rings : list (list (CompressedPoint * CompressedPoint)))
    (i : nat) (ki : CompressedPoint) (ring : list (CompressedPoint * CompressedPoint)) : Prop :=
  match prunable proofs with
  | P_AggregateMlsagBorromean mlsag _ =>
      exists m0 m1 matrix kis, aggregate_new (commitments (base proofs)) (fee (base proofs)) = Ok m0 /\
        try_fold push_ring m0 rings = Ok m1 /\ aggregate_build m1 = Ok matrix /\
        Forall2 (fun inp k => exists a os, inp = ToKey a os k) ins kis /\ mlsag_verify mlsag msg matrix kis = Ok ()
  | P_MlsagBorromean mlsags _ =>
      exists m p mat, mlsags !! i = Some m /\ base_pseudo_outs (base proofs) !! i = Some p /\
        ring_matrix_individual ring p = Ok mat /\ mlsag_verify m msg mat [ki] = Ok ()
  | P_MlsagBulletproofs ps mlsags _ | P_MlsagBulletproofsCompactAmount ps mlsags _ =>
      exists m p mat, mlsags !! i = Some m /\ ps !! i = Some p /\
        ring_matrix_individual ring p = Ok mat /\ mlsag_verify m msg mat [ki] = Ok ()
  | P_Clsag ps clsags _ =>
      exists c p, clsags !! i = Some c /\ ps !! i = Some p /\ clsag_verify c ring ki p msg = Ok ()
  end.

Lemma zip4_lookup {A B C D} (P : A * B * C * D -> Prop) (la : list A) (lb : list B) (lc : list C) (ld : list D) n i c d :
  length la = n -> length lb = n -> length lc = n ->
  Forall P (zip (zip (zip la lb) lc) ld) -> lc !! i = Some c -> ld !! i = Some d ->
  exists a b, la !! i = Some a /\ lb !! i = Some b /\ P (a, b, c, d).
Proof using Type.
  intros Ha Hb Hc HP Hic Hid. pose proof (lookup_lt_Some _ _ _ Hic).
  destruct (lookup_lt_is_Some_2 la i) as [a Hia]; [lia|]. destruct (lookup_lt_is_Some_2 lb i) as [b Hib]; [lia|].
  exists a, b. split_and!; [done|done|]. apply (Forall_lookup_1 _ _ i _ HP).
  apply lookup_zip_with_Some. exists (a, b, c), d. split_and!; [done| |done].
  apply lookup_zip_with_Some. exists (a, b), c. split_and!; [done| |done].
  apply lookup_zip_with_Some. by exists a, b.
Qed.

Lemma check_input_signatures_sound msg ins proofs rs i a os ki ring :
  proofs_shape proofs (length ins) ->
  check_input_signatures msg ins proofs (Rings_RingCT rs) = Ok () ->
  ins !! i = Some (ToKey a os ki) -> rs !! i = Some ring -> input_signed proofs msg ins rs i ki ring.
Proof using L.
  unfold proofs_shape, check_input_signatures, input_signed. intros Hsh Hc Hi Hr.
  destruct rs as [|r0 rs0]; [done|]. remember (r0 :: rs0) as rs eqn:Hrs. clear Hrs r0 rs0.
  destruct (prunable proofs) eqn:Hp.
  2-4: apply try_for_each_Ok in Hc; destruct Hsh as [H1 H2];
    destruct (zip4_lookup _ _ _ _ _ _ _ _ _ H1 H2 eq_refl Hc Hi Hr) as (m & p & Hm & Hps & Hv);
    cbn [input_key_image mbind result_bind] in Hv; apply bind_Ok in Hv as (mat & Hmat & Hv);
    apply map_err_Ok in Hmat, Hv; by exists m, p, mat.
  - apply bind_Ok in Hc as (kis & Hk & Hc). apply bind_Ok in Hc as (m1 & H1 & Hc). apply bind_Ok in Hc as (m2 & H2 & Hc).
    apply bind_Ok in Hc as (built & H3 & Hc). apply map_err_Ok in H1, H2, H3, Hc. exists m1, m2, built, kis. split_and!; [done..| |done].
    apply collect_Ok in Hk. eapply Forall2_impl; [exact Hk|]. intros [|a' os' k'] k [= <-]. by exists a', os'.
  - apply try_for_each_Ok in Hc. destruct Hsh as [H1 H2].
    destruct (zip4_lookup _ _ _ _ _ _ _ _ _ H1 H2 eq_refl Hc Hi Hr) as (c & p & Hm & Hps & Hv).
    cbn [input_key_image mbind result_bind] in Hv. apply map_err_Ok in Hv. by exists c, p.
Qed.

Lemma check_ring_signatures_sound msg ins sigs rs i a os ki ring :
  check_ring_signatures ins sigs (Rings_Legacy rs) msg = Ok () ->
  ins !! i = Some (ToKey a os ki) -> rs !! i = Some ring ->
  exists sig, sigs !! i = Some sig /\ ring_signature_verify sig msg ring ki = true.
Proof using Type.
  unfold check_ring_signatures. intros Hc Hi Hr. destruct (_ || _) eqn:E; [done|]. bsimp.
  apply try_for_each_Ok in Hc. pose proof (lookup_lt_Some _ _ _ Hi).
  destruct (lookup_lt_is_Some_2 sigs i) as [sig Hs]; [unfold len in *; lia|].
  exists sig. split; [done|].
  assert (zip (zip ins rs) sigs !! i = Some (ToKey a os ki, ring, sig)) as Hz.
  { apply lookup_zip_with_Some. exists (ToKey a os ki, ring), sig. split_and!; [done| |done].
    apply lookup_zip_with_Some. by eexists _, _. }
  pose proof (Forall_lookup_1 _ _ _ _ Hc Hz) as Hv. cbn in Hv.
  by destruct (ring_signature_verify sig msg ring ki).
Qed.

(** A ring member's lock has passed. *)
Definition unlocked (chain_height time : Z) (hf : HardFork) (tl : Timelock) : Prop :=
  match tl with
  | TL_None => True
  | TL_Block h => h <= chain_height
  | TL_Time t => t <= time + block_time hf
  end.

Lemma output_unlocked_true tl h t hf :
  is_u 63 t -> output_unlocked tl h t hf = true <-> unlocked h t hf tl.
Proof using Type.
  intros Ht. unfold output_unlocked, check_block_time_lock, check_timestamp_time_lock.
  destruct tl; cbn [unlocked]; [done|by rewrite Z.leb_le|].
  rewrite Z.leb_le, wrap_small; [done|]. assert (0 < block_time hf <= 120) by (by destruct hf). zlia.
Qed.

(** What the ring data of a transaction says of the ring members looked up. *)
Lemma ring_member_info_members get nb hf ins ver info :
  ring_member_info_for_tx get nb hf ins ver = Ok info ->
  exists ms, get_ring_members_for_inputs get ins = Ok ms /\ length ms = length ins /\
    rings info = new_rings ms ver /\
    (forall m out, m ∈ ms -> last m = Some out -> height out <= youngest_used_out_height info) /\
    (forall m out, m ∈ ms -> out ∈ m -> time_lock out = TL_None \/ time_lock out ∈ time_locked_outs info) /\
    (forall d, decoy_info info = Some d -> DecoyInfo_new ins nb hf = Ok d).
Proof using Type.
  unfold ring_member_info_for_tx. intros H. apply bind_Ok in H as (ms & Hms & H).
  pose proof (get_ring_members_shape _ _ _ Hms) as [Hl _]. apply bind_Ok in H as (d & Hd & H).
  unfold new_ring_member_info in H. apply bind_Ok in H as (hs & Hhs & H). apply bind_Ok in H as (y & Hy & [= <-]).
  exists ms. split_and!; [done|done|done| | |]; cbn.
  3:{ intros d' ->. case_bool_decide; [done|]. by apply bind_Ok in Hd as (d & Hd & [= <-]). }
  - intros m out Hm Hlast. apply collect_Ok in Hhs. apply list_elem_of_lookup in Hm as (i & Hm).
    destruct (Forall2_lookup_l _ _ _ _ _ Hhs Hm) as (x & Hx & Hu). rewrite Hlast in Hu. injection Hu as <-.
    destruct (iter_max hs) eqn:Em; [injection Hy as <-|done]. apply (iter_max_ge _ _ _ Em).
    by eapply list_elem_of_lookup_2.
  - intros m out Hm Ho. destruct (time_lock out) as [|h|t] eqn:Et; [by left|right..];
      apply list_elem_of_In, in_concat; exists (omap is_locked m);
      (split; [by apply in_map, list_elem_of_In|]); apply list_elem_of_In, list_elem_of_omap;
      exists out; (split; [done|]); unfold is_locked; by rewrite Et.
Qed.

Lemma check_tx_version_Ok d ver hf :
  (d = None <-> hf = V1) -> check_tx_version d ver hf = Ok () ->
  (hf_le hf V3 = true -> ver = RingSignatures) /\
  (hf_le V6 hf = true -> ver = RingSignatures -> exists di, d = Some di /\ not_mixable di <> 0).
Proof using Type.
  intros Hd. unfold check_tx_version, max_tx_version, min_tx_version. destruct d as [d|].
  - destruct ver, (hf_le hf V3), (hf_le V6 hf); cbn; split_if; intros H; try done;
      (split; [done|]); intros; try done; by exists d.
  - assert (hf = V1) as -> by (by apply Hd). destruct ver; cbn; done.
Qed.

(** [m] are the outputs of the chain that the offsets name: their running sums, added with
    wrap-around, among the outputs of the amount. *)
Definition members_of (get : Z -> Z -> option OutputOnChain) (amount : option Z) (os : list Z) (m : list OutputOnChain) : Prop :=
  length m = length os /\
  forall j out, m !! j = Some out -> get (default 0 amount) (wrap 64 (sumZ (take (S j) os))) = Some out.

(** What the contextual check of [tx] at fork [hf] promises about its ring members [ms],
    looked up in a chain that has the outputs [get] and [nb a] outputs of amount [a]: all
    time locks have passed; from V12 on the last member of each ring is at least ten blocks
    deep; the rings have the sizes and the transaction has a version of the fork; every
    input has a torsion-free key image and a signature over its own ring. *)
Definition contextual_promise (tx : Transaction) (get : Z -> Z -> option OutputOnChain) (nb : Z -> Z)
    (ms : list (list OutputOnChain)) (chain_height time : Z) (hf : HardFork) : Prop :=
  Forall2 (fun inp m => exists a os ki, inp = ToKey a os ki /\ members_of get a os m) (inputs (prefix tx)) ms /\
  (forall m out, m ∈ ms -> out ∈ m -> unlocked chain_height time hf (time_lock out)) /\
  (hf_le V12 hf = true -> forall m out, m ∈ ms -> last m = Some out -> height out + 10 <= chain_height) /\
  decoy_rule hf nb (inputs (prefix tx)) /\
  (hf_le hf V3 = true -> tx_version tx = RingSignatures) /\
  (hf_le V6 hf = true -> tx_version tx = RingSignatures ->
   exists inp, inp ∈ inputs (prefix tx) /\ unmixable nb (required_decoys hf) inp = true) /\
  exists msg, signature_hash tx = Some msg /\
  forall i inp, inputs (prefix tx) !! i = Some inp ->
    exists a os ki p m, inp = ToKey a os ki /\ decompress ki = Some p /\ is_torsion_free p = true /\
      ms !! i = Some m /\
      match tx with
      | Tx_V1 _ sigs => exists sig, sigs !! i = Some sig /\ ring_signature_verify sig msg (map key m) ki = true
      | Tx_V2 _ None => False
      | Tx_V2 _ (Some proofs) => input_signed proofs msg (inputs (prefix tx)) (map (map (fun out => (key out, commitment out))) ms) i ki (map (fun out => (key out, commitment out)) m)
      end.

Lemma check_key_images_Ok inp :
  check_key_images inp = Ok () ->
  exists a os ki p, inp = ToKey a os ki /\ decompress ki = Some p /\ is_torsion_free p = true.
Proof using Type.
  destruct inp as [|a os ki]; [done|]. cbn. destruct (decompress ki) as [p|] eqn:E; [|done].
  destruct (is_torsion_free p) eqn:Ep; [|done]. intros _. by exists a, os, ki, p.
Qed.

Lemma contextual_signatures tx info ms :
  (forall p proofs, tx = Tx_V2 p (Some proofs) -> proofs_shape proofs (length (inputs p))) ->
  length ms = length (inputs (prefix tx)) -> rings info = new_rings ms (tx_version tx) ->
  Forall (fun inp => check_key_images inp = Ok ()) (inputs (prefix tx)) ->
  match tx with
  | Tx_V1 prefix signatures =>
      hash ← ok_or (signature_hash tx) TransactionVersionInvalid;
      check_ring_signatures (inputs prefix) signatures (rings info) hash
  | Tx_V2 prefix proofs =>
      hash ← ok_or (signature_hash tx) TransactionVersionInvalid;
      proofs ← ok_or proofs TransactionVersionInvalid;
      map_err TxRingCTError (check_input_signatures hash (inputs prefix) proofs (rings info))
  end = Ok () ->
  exists msg, signature_hash tx = Some msg /\
  forall i inp, inputs (prefix tx) !! i = Some inp ->
    exists a os ki p m, inp = ToKey a os ki /\ decompress ki = Some p /\ is_torsion_free p = true /\
      ms !! i = Some m /\
      match tx with
      | Tx_V1 _ sigs => exists sig, sigs !! i = Some sig /\ ring_signature_verify sig msg (map key m) ki = true
      | Tx_V2 _ None => False
      | Tx_V2 _ (Some proofs) => input_signed proofs msg (inputs (prefix tx)) (map (map (fun out => (key out, commitment out))) ms) i ki (map (fun out => (key out, commitment out)) m)
      end.
Proof using L.
  intros Hsh Hl Hr Hki Hc.
  assert (forall i inp, inputs (prefix tx) !! i = Some inp -> exists a os ki p m, inp = ToKey a os ki /\
    decompress ki = Some p /\ is_torsion_free p = true /\ ms !! i = Some m) as Hin.
  { intros i inp Hi. destruct (check_key_images_Ok inp) as (a & os & ki & p & -> & Hp & Htf);
      [by apply (Forall_lookup_1 _ _ _ _ Hki Hi)|].
    destruct (lookup_lt_is_Some_2 ms i) as [m Hm]; [rewrite Hl; by eapply lookup_lt_Some|]. by exists a, os, ki, p, m. }
  rewrite Hr in Hc. destruct tx as [pre sigs|pre [proofs|]]; cbn [tx_version new_rings prefix] in *.
  - apply bind_Ok in Hc as (msg & Hmsg & Hc). apply ok_or_Ok in Hmsg. exists msg. split; [done|].
    intros i inp Hi. destruct (Hin i inp Hi) as (a & os & ki & p & m & -> & Hp & Htf & Hm).
    exists a, os, ki, p, m. split_and!; try done.
    apply (check_ring_signatures_sound _ _ _ _ _ _ _ _ _ Hc Hi). rewrite list_lookup_fmap, Hm. done.
  - apply bind_Ok in Hc as (msg & Hmsg & Hc). apply ok_or_Ok in Hmsg. exists msg. split; [done|].
    cbn [ok_or] in Hc. change (Ok proofs ≫= ?f) with (f proofs) in Hc. cbv beta in Hc. apply map_err_Ok in Hc.
    intros i inp Hi. destruct (Hin i inp Hi) as (a & os & ki & p & m & -> & Hp & Htf & Hm).
    exists a, os, ki, p, m. split_and!; try done.
    apply (check_input_signatures_sound _ _ _ _ _ _ _ _ _ (Hsh _ _ eq_refl) Hc Hi). rewrite list_lookup_fmap, Hm. done.
  - apply bind_Ok in Hc as (msg & Hmsg & Hc). done.
Qed.

Lemma np_check_decoy_info d hf : hf <> V1 -> check_decoy_info d hf <> Panic.
Proof using Type.
  assert (forall hf, hf <> V1 -> check_decoy_info_at d hf <> Panic) as Hat.
  { intros h Hh. apply np_bind; [by apply np_minimum_decoys|intros m _]. apply np_bind; [split_if; done|intros _ _].
    by split_if. }
  intros Hhf. unfold check_decoy_info. case_bool_decide; [|by apply Hat].
  pose proof (Hat V14 ltac:(done)). pose proof (Hat V16 ltac:(done)). by destruct (check_decoy_info_at d V14).
Qed.

Definition is_to_key (inp : Input) : Prop := exists a os ki, inp = ToKey a os ki.

Lemma np_check_input_signatures msg ins proofs rs :
  Forall is_to_key ins -> check_input_signatures msg ins proofs (Rings_RingCT rs) <> Panic.
Proof using L.
  intros Hk. assert (forall inp, inp ∈ ins -> input_key_image inp <> Panic) as Hki.
  { intros inp Hin. rewrite Forall_forall in Hk. by destruct (Hk _ Hin) as (? & ? & ? & ->). }
  unfold check_input_signatures. destruct rs as [|r0 rs0]; [done|]. remember (r0 :: rs0) as rs. clear Heqrs.
  destruct (prunable proofs).
  1: { apply np_bind; [by apply np_collect|intros kis _]. apply np_bind; [apply np_map_err, aggregate_new_np|intros m _].
    apply np_bind; [apply np_map_err, np_try_fold; intros; apply push_ring_np|intros m' _].
    apply np_bind; [apply np_map_err, aggregate_build_np|intros b _]. apply np_map_err, mlsag_verify_np. }
  all: apply np_try_for_each; intros [[[m p] inp] ring] Hz; apply list_elem_of_lookup in Hz as (i & Hz);
    apply lookup_zip_with_Some in Hz as ([[m' p'] inp'] & ring' & [= <- <- <- <-] & Hz & _);
    apply lookup_zip_with_Some in Hz as ([? ?] & inp'' & [= _ _ <-] & _ & Hi);
    apply np_bind; [apply Hki; by eapply list_elem_of_lookup_2|intros ki _].
  1-3: apply np_bind; [apply np_map_err, ring_matrix_np|intros mat _]; apply np_map_err, mlsag_verify_np.
  apply np_map_err, clsag_verify_np.
Qed.

Lemma np_check_ring_signatures msg ins sigs rs :
  Forall is_to_key ins -> check_ring_signatures ins sigs (Rings_Legacy rs) msg <> Panic.
Proof using Type.
  intros Hk. unfold check_ring_signatures. destruct (_ || _); [done|].
  apply np_try_for_each. intros [[inp ring] sig] Hz. apply list_elem_of_lookup in Hz as (i & Hz).
  apply lookup_zip_with_Some in Hz as ([inp' ring'] & sig' & [= <- <- <-] & Hz & _).
  apply lookup_zip_with_Some in Hz as (inp'' & ? & [= <- _] & Hi & _).
  rewrite Forall_forall in Hk. apply list_elem_of_lookup_2 in Hi. destruct (Hk _ Hi) as (? & ? & ki & ->).
  by destruct (ring_signature_verify sig msg ring ki).
Qed.

Lemma np_contextual tx get nb hf info chain_height time :
  Forall is_to_key (inputs (prefix tx)) ->
  ring_member_info_for_tx get nb hf (inputs (prefix tx)) (tx_version tx) = Ok info ->
  check_transaction_contextual tx info chain_height time hf <> Panic.
Proof using L.
  intros Hk Hinfo. apply ring_member_info_shape in Hinfo as [Hd Hr].
  unfold check_transaction_contextual. apply np_bind; [apply np_ok_or|intros ver _]. apply np_bind.
  { apply np_bind; [unfold check_10_block_lock; by split_if|intros _ _]. apply np_bind.
    - destruct (decoy_info info) as [d|]; [apply np_check_decoy_info; intros H; by apply Hd in H|].
      destruct Hd as [Hd _]. specialize (Hd eq_refl). by subst hf.
    - intros _ _. apply np_try_for_each. intros [|a os ki] _; [done|]. cbn.
      destruct (decompress ki) as [p|]; [|done]. by destruct (is_torsion_free p). }
  intros _ _. apply np_bind.
  { unfold check_tx_version. destruct (decoy_info info); split_if; done. }
  intros _ _. apply np_bind; [apply np_try_for_each; intros tl _; by split_if|intros _ _].
  destruct tx as [pre sigs|pre pr]; cbn [prefix tx_version] in *.
  - apply np_bind; [apply np_ok_or|intros msg _]. destruct (rings info) as [rs|rs]; [by apply np_check_ring_signatures|].
    by destruct Hr.
  - apply np_bind; [apply np_ok_or|intros msg _]. apply np_bind; [apply np_ok_or|intros proofs _].
    apply np_map_err. destruct (rings info) as [rs|rs]; [by destruct Hr|by apply np_check_input_signatures].
Qed.

(** ** Claims *)

(** From V6 on the ring members of an accepted input are distinct as long as the offsets
    do not overflow: the absolute offsets are the running sums of the relative ones and
    strictly increase. *)
Theorem ring_members_distinct amount os ki hf :
  hf_le V6 hf = true -> os <> [] -> Forall (is_u 64) os -> sumZ os < 2 ^ 64 ->
  check_ring_members_unique (ToKey amount os ki) hf = Ok () ->
  exists abs, get_absolute_offsets os = Ok abs /\ length abs = length os /\
    (forall i x, abs !! i = Some x -> x = sumZ (take (S i) os)) /\ StronglySorted Z.lt abs.
Proof using Type.
  intros Hhf Hne Hos Hs Hu. destruct os as [|o os]; [done|]. clear Hne.
  unfold check_ring_members_unique in Hu. rewrite Hhf in Hu. apply try_for_each_Ok in Hu. cbn [drop] in Hu.
  apply List.Forall_cons_iff in Hos as [Ho Hos]. change (sumZ (o :: os)) with (o + sumZ os) in Hs.
  exists (o :: absolute_from o os). destruct (absolute_from_sums o os) as [Hl Hi]; [unfold is_u in Ho; lia|done|done|].
  split_and!; [done|by cbn; rewrite Hl| |].
  - intros i x. rewrite firstn_cons. change (sumZ (o :: ?l)) with (o + sumZ l).
    destruct i as [|i]; cbn [lookup list_lookup]; intros Hx; [injection Hx as <-; rewrite take_0; change (sumZ []) with 0; lia|].
    by apply Hi.
  - apply absolute_from_sorted; [unfold is_u in Ho; lia|done| |done].
    apply (Forall_impl _ _ _ Hu). intros x. cbn. split_if; done.
Qed.

(** Without that hypothesis they need not be: the additions wrap, and nonzero relative
    offsets can lead back to the same output. *)
Lemma ring_members_wrap ki :
  check_ring_members_unique (ToKey None [5; 2 ^ 64 - 1; 1] ki) V16 = Ok () /\
  get_absolute_offsets [5; 2 ^ 64 - 1; 1] = Ok [5; 4; 5].
Proof using Type. done. Qed.

(** From V12 on every ring of a transaction without unmixable inputs has exactly the size
    the fork prescribes: 11 members up to V14, 16 from V16, and in V15 all 11 or all 16. *)
Theorem ring_size_enforced ins nb hf d :
  hf_le V12 hf = true -> DecoyInfo_new ins nb hf = Ok d -> not_mixable d = 0 ->
  check_decoy_info d hf = Ok () ->
  exists n, decoys_of_fork hf n /\
    Forall (fun inp => exists a os k, inp = ToKey a os k /\ len os = n + 1) ins.
Proof using Type.
  intros Hhf Hnew Hm Hc. destruct (check_decoy_info_exact d hf Hhf Hm Hc) as (n & Hn & Hmin & Hmax).
  exists n. split; [done|]. unfold DecoyInfo_new in Hnew. apply bind_Ok in Hnew as (m & _ & Hnew).
  apply decoy_fold_within in Hnew as (_ & _ & Hf). apply (Forall_impl _ _ _ Hf).
  intros inp (a & os & k & -> & _ & Hb). exists a, os, k. split; [done|lia].
Qed.

Lemma absolute_from_wrap prev os i x :
  absolute_from prev os !! i = Some x -> x = wrap 64 (prev + sumZ (take (S i) os)).
Proof using Type.
  revert prev i. induction os as [|o os IH]; intros prev i; [done|]. cbn [absolute_from]. rewrite firstn_cons. change (sumZ (o :: ?l)) with (o + sumZ l).
  destruct i as [|i]; cbn [lookup list_lookup]; [intros [= <-]; rewrite take_0; change (sumZ []) with 0; f_equal; lia|].
  intros ->%IH. unfold wrap. rewrite Zplus_mod_idemp_l. f_equal. lia.
Qed.

(** The ring members found are those the offsets name. *)
Lemma ring_members_of get ins ms :
  Forall (fun inp => match inp with ToKey _ os _ => Forall (is_u 64) os | Gen _ => True end) ins ->
  get_ring_members_for_inputs get ins = Ok ms ->
  Forall2 (fun inp m => exists a os ki, inp = ToKey a os ki /\ members_of get a os m) ins ms.
Proof using Type.
  unfold get_ring_members_for_inputs. rewrite collect_Ok. intros Hu H. induction H as [|inp m ins ms Hm _ IH]; [constructor|].
  apply List.Forall_cons_iff in Hu as [Hos Hu]. constructor; [|by apply IH]. destruct inp as [|a os ki]; [done|]. exists a, os, ki. split; [done|].
  destruct os as [|o os]; [done|]. cbn [get_absolute_offsets mbind result_bind] in Hm. apply collect_Ok in Hm.
  apply List.Forall_cons_iff in Hos as [Ho _]. split.
  - apply Forall2_length in Hm. rewrite <- Hm. cbn [length]. f_equal. clear. revert o. induction os as [|x os IH]; intros o; [done|]. cbn [absolute_from length]. by rewrite IH.
  - intros j out Hj. destruct (Forall2_lookup_r _ _ _ _ _ Hm Hj) as (off & Hoff & Hg). apply ok_or_Ok in Hg. rewrite <- Hg. f_equal.
    rewrite firstn_cons. change (sumZ (o :: ?l)) with (o + sumZ l). destruct j as [|j]; cbn [lookup list_lookup] in Hoff.
    + injection Hoff as <-. rewrite take_0. change (sumZ []) with 0. rewrite Z.add_0_r. by apply wrap_small.
    + by apply absolute_from_wrap in Hoff.
Qed.

(** The sizes the machine types and the serialisation give a transaction. *)
Record tx_sized (tx : Transaction) : Prop := {
  sz_inputs : len (inputs (prefix tx)) < 2 ^ 64;
  sz_offsets : Forall (fun inp => match inp with ToKey _ os _ => Forall (is_u 64) os | Gen _ => True end) (inputs (prefix tx));
  sz_proofs : forall p proofs, tx = Tx_V2 p (Some proofs) -> proofs_shape proofs (length (inputs p));
}.

Lemma contextual_check_promise tx get nb hf info chain_height time :
  tx_sized tx -> is_u 63 time -> is_u 63 (youngest_used_out_height info) ->
  ring_member_info_for_tx get nb hf (inputs (prefix tx)) (tx_version tx) = Ok info ->
  check_transaction_contextual tx info chain_height time hf = Ok () ->
  exists ms, contextual_promise tx get nb ms chain_height time hf.
Proof using L.
  intros [Hlen Hoff Hsh] Ht Hy Hinfo Hc. pose proof (ring_member_info_shape _ _ _ _ _ _ Hinfo) as [Hd _].
  destruct (ring_member_info_members _ _ _ _ _ _ Hinfo) as (ms & Hms & Hl & Hr & Hh & Hlk & Hdi).
  exists ms. unfold check_transaction_contextual in Hc. rewrite from_raw_version in Hc.
  cbn [ok_or] in Hc. change (Ok ?v ≫= ?f) with (f v) in Hc. cbv beta in Hc.
  apply bind_Ok in Hc as ([] & Hin & Hc). apply bind_Ok in Hc as ([] & Hv & Hc). apply bind_Ok in Hc as ([] & Htl & Hc).
  apply bind_Ok in Hin as ([] & H10 & Hin). apply bind_Ok in Hin as ([] & Hdec & Hki).
  apply try_for_each_Ok in Htl, Hki. apply check_tx_version_Ok in Hv as [Hv1 Hv2]; [|done].
  split_and!; [by apply ring_members_of| | | |done| |].
  - intros m out Hm Ho. destruct (Hlk m out Hm Ho) as [-> | Hin]; [done|].
    apply output_unlocked_true; [done|]. rewrite Forall_forall in Htl. specialize (Htl _ Hin). cbn in Htl.
    by destruct (output_unlocked _ _ _ _).
  - intros H12 m out Hm Hlast. specialize (Hh m out Hm Hlast). unfold check_10_block_lock in H10.
    rewrite H12, wrap_small in H10 by zlia. destruct (_ <? _) eqn:E; bsimp; [done|lia].
  - destruct (decide (hf = V1)) as [->|Hne]; [done|]. destruct (decoy_info info) as [d|] eqn:Ed; [|by destruct Hne; apply Hd].
    by apply (check_decoy_info_rule hf nb _ d Hne Hlen (Hdi d eq_refl)).
  - intros H6 Hver. destruct (Hv2 H6 Hver) as (d & Ed & Hnm). assert (hf <> V1) as Hne by (by destruct hf).
    destruct (DecoyInfo_new_counts _ _ _ _ Hne Hlen (Hdi d Ed)) as [Hn _ _ _]. rewrite Hn in Hnm.
    destruct (filter _ (inputs (prefix tx))) as [|u l] eqn:Ef; [done|]. exists u.
    assert (u ∈ filter (fun i => unmixable nb (required_decoys hf) i = true) (inputs (prefix tx))) as Hu by (rewrite Ef; by left).
    apply list_elem_of_filter in Hu. tauto.
  - apply (contextual_signatures tx info ms); done.
Qed.


(** C27. Verifying a transaction never panics: once it passed the semantic check, neither the
    lookup of its ring members nor the contextual check that follows panics, whatever the
    chain holds, at any height, time and fork, the fork of the semantic check included. *)
Theorem verification_never_panics tx blob weight tx_hash hf0 rng verifier f get nb hf chain_height time :
  tx_typed tx ->
  (check_transaction_semantic tx blob weight tx_hash hf0 rng verifier).1 = Ok f ->
  let r := ring_member_info_for_tx get nb hf (inputs (prefix tx)) (tx_version tx) in
  r <> Panic /\
  forall info, r = Ok info -> check_transaction_contextual tx info chain_height time hf <> Panic.
Proof using L.
  intros Ht Hok. apply check_transaction_semantic_Ok in Hok as (_ & _ & so & si & _ & Hi & _); [|done].
  destruct Hi as (Hne & Hr & _). split; [by apply np_ring_member_info|].
  intros info. apply np_contextual, (Forall_impl _ _ _ Hr).
  intros inp (a & os & ki & -> & _). by exists a, os, ki.
Qed.

End facts.

(** ** Witnesses: the test transaction, on a chain in which every output is at height 100 *)
Import Transparent.

Module TestCtx.
Definition get (amount index : Z) : option (OutputOnChain (O := oxide)) :=
  Some (mk_output_on_chain (O := oxide) 100 (TL_Block 160) index 0 None).
(** The test transaction with rings of 16 members. *)
Definition os : list Z := 5 :: repeat 1 15.
Definition tx : Transaction (H := oxide) :=
  Tx_V2 (H := oxide)
    (mk_prefix (H := oxide) TL_None [ToKey (H := oxide) None os 9; ToKey (H := oxide) None os 4]
       [mk_output (H := oxide) None 5 (Some 1); mk_output (H := oxide) None 6 (Some 2)])
    (Some (mk_proofs (H := oxide) (mk_base (H := oxide) 3 [] [4; 6])
       (P_Clsag (H := oxide) [10; 3] [(); ()] true))).
Definition info : TxRingMembersInfo (O := oxide) :=
  match ring_member_info_for_tx get (fun _ => 1000) V16 (inputs (prefix tx)) (tx_version tx) with
  | Ok i => i
  | _ => mk_ring_info (Rings_Legacy []) None 0 []
  end.
End TestCtx.

Lemma ring_members_distinct_witness :
  exists abs, get_absolute_offsets (O := oxide) [5; 1; 7] = Ok abs /\ length abs = 3%nat /\
    (forall i x, abs !! i = Some x -> x = sumZ (take (S i) [5; 1; 7])) /\ StronglySorted Z.lt abs.
Proof.
  apply (ring_members_distinct (O := oxide) None [5; 1; 7] 3 V16); [done|done|repeat constructor; done|done|done].
Defined.

Lemma ring_size_enforced_witness :
  exists n, decoys_of_fork V16 n /\
    Forall (fun inp => exists a os k, inp = ToKey (H := oxide) a os k /\ len os = n + 1) (inputs (prefix TestCtx.tx)).
Proof.
  apply (ring_size_enforced (O := oxide) (inputs (prefix TestCtx.tx)) (fun _ => 1000) V16 (mk_decoy_info 2 0 15 15)); done.
Defined.


Lemma verification_never_panics_witness :
  check_transaction_contextual TestCtx.tx TestCtx.info 10 5000 V16 <> Panic.
Proof.
  apply (verification_never_panics (O := oxide) TestCtx.tx 1000 1000 (repeat 0 32) V16 () 0%nat 3
    TestCtx.get (fun _ => 1000) V16 10 5000).
  - split; repeat constructor; done.
  - by vm_compute.
  - by vm_compute.
Defined.

End TxContext.
