(* ===== verification/BlockRules.v ===== *)
(** * Block rules ([src/consensus/rules/src/blocks.rs], [miner_tx.rs])

    The block reward, the rules of the miner transaction and the check of a block against
    the chain context. The clock ([current_unix_timestamp]) is an argument, [now]. *)
From S2P Require Import Prelude Bytes Pruning HardForks Median RulesBase TxData TxRules.
From Stdlib Require Import ZArith Lia.
From stdpp Require Import base tactics option list numbers sorting sets gmap.
Import HardForks RulesBase TxData TxRules.

#[local] Open Scope Z_scope.
#[local] Open Scope usize_scope.

Module BlockRules.

(** ** The block reward *)
Definition MONEY_SUPPLY : Z := u64_MAX.
Definition MINIMUM_REWARD_PER_MIN : Z := 3 * 10 ^ 11.
Definition MINER_TX_TIME_LOCKED_BLOCKS : Z := 60.

Definition calculate_base_reward (already_generated_coins : Z) (hf : HardFork) : Z :=
  let target_mins := block_time hf / 60 in
  let emission_speed_factor := 20 -! (target_mins -! 1) in
  Z.max (shr 64 (MONEY_SUPPLY -! already_generated_coins) emission_speed_factor)
    (MINIMUM_REWARD_PER_MIN *! target_mins).

(** Division by a zero median and a result above [u64] panic. *)
Definition calculate_block_reward {E} (block_weight median_bw already_generated_coins : Z) (hf : HardFork)
    : result E Z :=
  let base_reward := calculate_base_reward already_generated_coins hf in
  if block_weight <=? median_bw then Ok base_reward
  else
    let multiplicand := ((2 *! median_bw) -! block_weight) *! block_weight in
    let effective_median_bw := median_bw in
    if effective_median_bw =? 0 then Panic
    else
      let reward := wrap 128 (base_reward * multiplicand) / effective_median_bw / effective_median_bw in
      if reward <=? u64_MAX then Ok reward else Panic.

Section rules.
Context {O : MoneroOxide} {T : TransactionOps O}.

(** ** The miner transaction *)
Definition check_miner_tx_version (tx_version : TxVersion) (hf : HardFork) : result MinerTxError () :=
  if hf_le V12 hf && negb (bool_decide (tx_version = RingCT)) then Err VersionInvalid else Ok ().

Definition check_inputs (inputs : list Input) (chain_height : Z) : result MinerTxError () :=
  match inputs with
  | [Gen height] => if height =? chain_height then Ok () else Err InputsHeightIncorrect
  | [ToKey _ _ _] => Err InputNotOfTypeGen
  | _ => Err IncorrectNumbOfInputs
  end.

Definition check_time_lock (time_lock : Timelock) (chain_height : Z) : result MinerTxError () :=
  match time_lock with
  | TL_Block till_height =>
      if Pruning.MAX_BLOCK_HEIGHT_USIZE <? till_height then Err InvalidLockTime
      else if till_height =? chain_height +! MINER_TX_TIME_LOCKED_BLOCKS then Ok ()
      else Err InvalidLockTime
  | TL_None | TL_Time _ => Err InvalidLockTime
  end.

(** [sum_outputs] of [miner_tx.rs] *)
Definition miner_sum_outputs (outputs : list Output) (hf : HardFork) (tx_version : TxVersion)
    : result MinerTxError Z :=
  try_fold (fun sum out =>
    let amt := default 0 (out_amount out) in
    _ ← (if bool_decide (tx_version = RingSignatures) && (amt =? 0) then Err OutputAmountIncorrect
         else if bool_decide (hf = V3) && negb (is_decomposed_amount amt) then Err OutputNotDecomposed
         else Ok ());
    ok_or (checked_add 64 sum amt) MinerOutputsOverflow) 0 outputs.

Definition check_total_output_amt (total_output reward fees : Z) (hf : HardFork) : result MinerTxError Z :=
  if bool_decide (hf = V1) || hf_le V12 hf then
    if negb (total_output =? reward +! fees) then Err OutputAmountIncorrect else Ok reward
  else
    if (reward <? total_output -! fees) || (reward +! fees <? total_output) then Err OutputAmountIncorrect
    else Ok (total_output -! fees).

Definition check_miner_tx (tx : Transaction) (total_fees chain_height block_weight median_bw
    already_generated_coins : Z) (hf : HardFork) : result MinerTxError Z :=
  tx_version ← ok_or (from_raw (version tx)) VersionInvalid;
  _ ← check_miner_tx_version tx_version hf;
  _ ← match tx with
      | Tx_V1 _ _ => Ok ()
      | Tx_V2 _ proofs =>
          if hf_le V12 hf && bool_decide (is_Some proofs) then Err RCTTypeNotNULL else Ok ()
      end;
  _ ← check_time_lock (additional_timelock (prefix tx)) chain_height;
  _ ← check_inputs (inputs (prefix tx)) chain_height;
  _ ← map_err (fun _ => InvalidOutputType) (check_output_types (outputs (prefix tx)) hf);
  reward ← calculate_block_reward block_weight median_bw already_generated_coins hf;
  total_outs ← miner_sum_outputs (outputs (prefix tx)) hf tx_version;
  check_total_output_amt total_outs reward total_fees hf.

(** ** Blocks *)

(** The fields of [monero_oxide::block] the rules read. *)
Record BlockHeader := mk_header {
  hardfork_version : Z;
  hardfork_signal : Z;
  timestamp : Z;
  previous : bytes;
}.

Record Block := mk_block {
  header : BlockHeader;
  miner_transaction : Transaction;
  transactions : list bytes;
}.

Definition BLOCK_FUTURE_TIME_LIMIT : Z := 60 * 60 * 2.

Definition check_prev_id (block : Block) (top_hash : bytes) : result BlockError () :=
  if bool_decide (previous (header block) = top_hash) then Ok () else Err PreviousIDIncorrect.

Definition check_timestamp (block : Block) (median_timestamp now : Z) : result BlockError () :=
  if (timestamp (header block) <? median_timestamp)
     || (now +! BLOCK_FUTURE_TIME_LIMIT <? timestamp (header block))
  then Err TimeStampInvalid else Ok ().

(** A [HashSet] of the hashes has as many elements as the list. *)
Definition check_txs_unique (txs : list bytes) : result BlockError () :=
  if (Z.of_nat (size (list_to_set txs : gset bytes)) =? len txs) then Ok () else Err DuplicateTransaction.

Record ContextToVerifyBlock := mk_context {
  median_weight_for_block_reward : Z;
  effective_median_weight : Z;
  top_hash : bytes;
  median_block_timestamp : option Z;
  chain_height : Z;
  current_hf : HardFork;
  next_difficulty : Z;
  already_generated_coins : Z;
}.

Definition check_block (block : Block) (total_fees block_weight block_blob_len : Z)
    (ctx : ContextToVerifyBlock) (now : Z) : result BlockError (HardFork * Z) :=
  '(version, vote) ← map_err (fun _ => BlockHardForkError HardForkUnknown)
      (from_block_header (hardfork_version (header block)) (hardfork_signal (header block)));
  _ ← map_err BlockHardForkError (check_block_version_vote (current_hf ctx) version vote);
  _ ← match median_block_timestamp ctx with
      | Some median_timestamp => check_timestamp block median_timestamp now
      | None => Ok ()
      end;
  _ ← check_prev_id block (top_hash ctx);
  _ ← check_block_weight block_weight (median_weight_for_block_reward ctx);
  _ ← block_size_sanity_check block_blob_len (effective_median_weight ctx);
  _ ← check_amount_txs (len (transactions block));
  _ ← check_txs_unique (transactions block);
  generated_coins ← map_err BlockMinerTxError
    (check_miner_tx (miner_transaction block) total_fees (chain_height ctx) block_weight
       (median_weight_for_block_reward ctx) (already_generated_coins ctx) (current_hf ctx));
  Ok (vote, generated_coins).

End rules.
(** ** The reward *)

(** Minutes between blocks. *)
Definition minutes (hf : HardFork) : Z := match hf with V1 => 1 | _ => 2 end.

(** The reward of a block that is not above the median: the share of the remaining supply,
    but at least the tail emission. *)
Definition base_reward (coins : Z) (hf : HardFork) : Z :=
  Z.max ((2 ^ 64 - 1 - coins) / 2 ^ (21 - minutes hf)) (300000000000 * minutes hf).

Lemma calculate_base_reward_eq coins hf :
  is_u 64 coins -> calculate_base_reward coins hf = base_reward coins hf.
Proof.
  intros Hc. unfold calculate_base_reward, base_reward, MONEY_SUPPLY.
  rewrite (wrap_small 64 (u64_MAX - coins)) by zlia.
  by destruct hf; cbn [block_time minutes]; rewrite shr_small by done.
Qed.

Lemma base_reward_bound coins hf : is_u 64 coins -> 300000000000 <= base_reward coins hf < 2 ^ 46.
Proof.
  intros Hc. unfold base_reward.
  assert ((2 ^ 64 - 1 - coins) / 2 ^ (21 - minutes hf) < 2 ^ 46).
  { apply Z.div_lt_upper_bound; [by destruct hf|]. assert (2 ^ 64 <= 2 ^ (21 - minutes hf) * 2 ^ 46) by (by destruct hf).
    unfold is_u in Hc. lia. }
  assert (300000000000 * minutes hf < 2 ^ 46) by (by destruct hf).
  assert (1 <= minutes hf) by (by destruct hf). lia.
Qed.

(** The reward with the penalty of a block of weight [w] above the median [m]. *)
Definition penalised_reward (base w m : Z) : Z :=
  if w <=? m then base else base * ((2 * m - w) * w) / (m * m).

Lemma penalty_le w m : 0 <= (w - m) * (w - m).
Proof. apply Z.square_nonneg. Qed.

Lemma penalised_reward_bound base w m :
  0 <= base -> 0 < m -> w <= 2 * m -> 0 <= penalised_reward base w m <= base.
Proof.
  intros Hb Hm Hw. unfold penalised_reward. destruct (w <=? m) eqn:E; bsimp; [lia|].
  pose proof (penalty_le w m). assert (0 <= (2 * m - w) * w <= m * m) by nia.
  split; [apply Z.div_pos; nia|]. apply Z.div_le_upper_bound; nia.
Qed.

Lemma calculate_block_reward_eq {E} w m coins hf :
  is_u 64 coins -> 0 < m < 2 ^ 32 -> 0 <= w <= 2 * m ->
  calculate_block_reward (E := E) w m coins hf = Ok (penalised_reward (base_reward coins hf) w m).
Proof.
  intros Hc Hm Hw. pose proof (base_reward_bound coins hf Hc) as Hb.
  unfold calculate_block_reward. rewrite calculate_base_reward_eq by done.
  pose proof (penalised_reward_bound (base_reward coins hf) w m) as Hp. unfold penalised_reward in *.
  set (b := base_reward coins hf) in *. clearbody b. destruct (w <=? m) eqn:E1; [done|]. bsimp.
  pose proof (penalty_le w m). assert (0 <= (2 * m - w) * w <= m * m) by nia.
  assert (m * m < 2 ^ 64) by (change (2 ^ 64) with (2 ^ 32 * 2 ^ 32); nia).
  rewrite (wrap_small 64 (2 * m)) by zlia. rewrite (wrap_small 64 (2 * m - w)) by zlia.
  rewrite (wrap_small 64) by (unfold is_u; lia).
  assert (b * ((2 * m - w) * w) < 2 ^ 46 * 2 ^ 64) by nia.
  rewrite (wrap_small 128).
  2: { unfold is_u. split; [nia|]. change (2 ^ 128) with (2 ^ 46 * 2 ^ 64 * 2 ^ 18). zpow. lia. }
  destruct (m =? 0) eqn:E2; bsimp; [lia|]. rewrite Z.div_div by lia.
  rewrite (proj2 (Z.leb_le _ u64_MAX)); [done|]. zlia.
Qed.

(** ** The claims on the reward *)

(** The block reward never panics for a block within twice the median weight: it is the
    base reward (the share of the remaining supply, at least the tail emission) for a
    block up to the median, and loses the share ((w - m) / m)^2 above it; it is at most
    the base reward and never grows with the weight of the block. *)
Theorem block_reward_spec w m coins hf :
  is_u 64 coins -> 0 < m < 2 ^ 32 -> 0 <= w <= 2 * m ->
  let base := Z.max ((2 ^ 64 - 1 - coins) / 2 ^ (21 - minutes hf)) (300000000000 * minutes hf) in
  exists r, calculate_block_reward (E := MinerTxError) w m coins hf = Ok r /\
    (w <= m -> r = base) /\
    (m < w -> r = base * (m * m - (w - m) * (w - m)) / (m * m)) /\
    0 <= r <= base /\
    forall w' r', w <= w' <= 2 * m -> calculate_block_reward (E := MinerTxError) w' m coins hf = Ok r' -> r' <= r.
Proof.
  intros Hc Hm Hw base. pose proof (base_reward_bound coins hf Hc) as Hb. fold base in Hb.
  change (base_reward coins hf) with base in Hb.
  exists (penalised_reward base w m). rewrite calculate_block_reward_eq by done. split_and!; [done|..].
  - intros Hle. unfold penalised_reward. by rewrite (proj2 (Z.leb_le _ _) Hle).
  - intros Hlt. unfold penalised_reward. rewrite (proj2 (Z.leb_gt _ _) Hlt). f_equal. ring.
  - apply penalised_reward_bound; lia.
  - apply penalised_reward_bound; lia.
  - intros w' r' Hw'. rewrite calculate_block_reward_eq by (done || lia). change (base_reward coins hf) with base.
    intros [= <-]. unfold penalised_reward at 2. destruct (w <=? m) eqn:E; bsimp; [apply penalised_reward_bound; lia|].
    unfold penalised_reward. rewrite (proj2 (Z.leb_gt w' m)) by lia.
    apply Z.div_le_mono; [nia|]. apply Z.mul_le_mono_nonneg_l; [lia|]. nia.
Qed.

Lemma block_reward_spec_witness :
  exists r, calculate_block_reward (E := MinerTxError) 450000 300000 0 V16 = Ok r /\ 0 <= r.
Proof.
  destruct (block_reward_spec 450000 300000 0 V16) as (r & Hr & _ & _ & Hb & _); [done|done|done|].
  exists r. split; [done|apply Hb].
Defined.

(** ** Sets of hashes *)
Lemma size_list_to_set_le (l : list bytes) : (size (list_to_set l : gset bytes) <= length l)%nat.
Proof.
  induction l as [|t l IH]; [done|]. cbn [list_to_set length]. rewrite size_union_alt, size_singleton.
  assert (size ((list_to_set l : gset bytes) ∖ {[t]}) <= size (list_to_set l : gset bytes))%nat
    by (apply subseteq_size; set_solver). lia.
Qed.

Lemma size_list_to_set_NoDup (l : list bytes) : size (list_to_set l : gset bytes) = length l <-> NoDup l.
Proof.
  split; [|apply size_list_to_set]. induction l as [|t l IH]; [constructor|]. cbn [list_to_set length].
  pose proof (size_list_to_set_le l). destruct (decide (t ∈ (list_to_set l : gset bytes))) as [Hin|Hni].
  - replace ({[t]} ∪ list_to_set l : gset bytes) with (list_to_set l : gset bytes) by set_solver. lia.
  - rewrite size_union, size_singleton by set_solver. intros Hs. constructor; [set_solver|apply IH; lia].
Qed.

(** ** Blocks *)
Section spec.
Context {O : MoneroOxide} {T : TransactionOps O} {L : MoneroOxideLaws O T}.

Definition miner_amount_rule (hf : HardFork) (ver : TxVersion) (a : Z) : Prop :=
  (ver = RingSignatures -> a <> 0) /\ (hf = V3 -> is_decomposed a).

Lemma miner_sum_outputs_Ok outs hf ver s :
  Forall (fun out => is_u 64 (output_amount out)) outs ->
  miner_sum_outputs outs hf ver = Ok s <->
  Forall (fun out => miner_amount_rule hf ver (output_amount out)) outs /\
  s = sumZ (map output_amount outs) /\ s < 2 ^ 64.
Proof using L.
  intros Hu. set (g := fun out : Output =>
    if bool_decide (ver = RingSignatures) && (output_amount out =? 0) then Err OutputAmountIncorrect
    else if bool_decide (hf = V3) && negb (is_decomposed_amount (output_amount out)) then Err OutputNotDecomposed
    else Ok ()).
  change (miner_sum_outputs outs hf ver) with
    (try_fold (fun s x => g x ≫= fun _ => ok_or (checked_add 64 s (output_amount x)) MinerOutputsOverflow) 0 outs).
  rewrite try_fold_checked_sum; [|apply (Forall_impl _ _ _ Hu); unfold is_u; lia|done].
  rewrite Z.add_0_l. apply and_iff_compat_r. rewrite !Forall_forall. rewrite Forall_forall in Hu.
  enough (forall out, out ∈ outs -> g out = Ok () <-> miner_amount_rule hf ver (output_amount out)) as Hg
    by (split; intros H x Hx; apply Hg, H; done).
  intros out Hin. unfold miner_amount_rule, g.
  rewrite <- (table_spec _ (Hu _ Hin)), <- table_eq, <- is_decomposed_amount_elem.
  generalize (is_decomposed_amount (output_amount out)). intros b.
  repeat case_bool_decide; destruct b, (output_amount out =? 0) eqn:E; cbn; bsimp; naive_solver.
Qed.

(** The money rule: the coins created are paid out together with the fees, in full in V1
    and from V12 on, at most in full in between. *)
Definition money_rule (total reward fees coins : Z) (hf : HardFork) : Prop :=
  total = coins + fees /\ 0 <= coins <= reward /\ (hf = V1 \/ hf_le V12 hf = true -> coins = reward).

Lemma check_total_output_amt_Ok total reward fees hf coins :
  is_u 64 total -> 0 <= reward -> 0 <= fees -> reward + fees < 2 ^ 64 ->
  check_total_output_amt total reward fees hf = Ok coins <-> money_rule total reward fees coins hf.
Proof using Type.
  intros Ht Hr Hf Hs. unfold check_total_output_amt, money_rule. rewrite (wrap_small 64 (reward + fees)) by zlia.
  destruct (bool_decide (hf = V1) || hf_le V12 hf) eqn:E.
  - assert (hf = V1 \/ hf_le V12 hf = true) by (apply orb_true_iff in E as [E|E]; [left; by apply bool_decide_eq_true_1 in E|by right]).
    clear E. destruct (total =? _) eqn:Et; cbn; bsimp; split; [intros [= <-]; split_and!; lia| |done|].
    + intros (H1 & H2 & H3). f_equal. symmetry. by apply H3.
    + intros (H1 & H2 & H3). specialize (H3 ltac:(done)). lia.
  - assert (~ (hf = V1 \/ hf_le V12 hf = true)) as Hn.
    { apply orb_false_iff in E as [E1 E2]. apply bool_decide_eq_false_1 in E1. rewrite E2. intuition done. }
    clear E. destruct (decide (fees <= total)).
    + rewrite (wrap_small 64) by zlia. destruct (_ || _) eqn:E2; bsimp.
      * split; [done|]. lia.
      * split; [done|]. lia.
      * split; [intros [= <-]; split_and!; [lia..|tauto]|]. intros (H1 & H2 & _). f_equal. lia.
    + assert (wrap 64 (total - fees) = total - fees + 2 ^ 64) as ->.
      { unfold wrap. symmetry. apply (Z.mod_unique _ _ (-1)); zlia. }
      assert ((reward <? total - fees + 2 ^ 64) = true) as -> by zlia. cbn. split; [done|]. lia.
Qed.

(** The rules of a miner transaction that creates [coins]. *)
Definition miner_tx_rules (tx : Transaction) (fees height w m generated : Z) (hf : HardFork) (coins : Z) : Prop :=
  (hf_le V12 hf = true -> exists p, tx = Tx_V2 p None) /\
  additional_timelock (prefix tx) = TL_Block (height + 60) /\ height + 60 <= 500000000 /\
  inputs (prefix tx) = [Gen height] /\
  output_types_rule (outputs (prefix tx)) hf /\
  Forall (fun out => miner_amount_rule hf (tx_version tx) (output_amount out)) (outputs (prefix tx)) /\
  let total := sumZ (map output_amount (outputs (prefix tx))) in
  total < 2 ^ 64 /\ money_rule total (penalised_reward (base_reward generated hf) w m) fees coins hf.

Lemma miner_version_rule tx hf :
  (check_miner_tx_version (tx_version tx) hf = Ok () /\
   match tx with
   | Tx_V1 _ _ => Ok ()
   | Tx_V2 _ proofs => if hf_le V12 hf && bool_decide (is_Some proofs) then Err RCTTypeNotNULL else Ok ()
   end = Ok ()) <-> (hf_le V12 hf = true -> exists p, tx = Tx_V2 p None).
Proof using Type.
  unfold check_miner_tx_version. destruct (hf_le V12 hf); cbn; [|destruct tx; naive_solver].
  destruct tx as [p s|p [proofs|]]; cbn; naive_solver.
Qed.

Lemma check_inputs_Ok ins h : check_inputs ins h = Ok () <-> ins = [Gen h].
Proof using Type.
  destruct ins as [|[g|a os k] [|i ins]]; cbn; try (split; [done|congruence]).
  destruct (g =? h) eqn:E; bsimp; split; intros; congruence || done.
Qed.

Lemma check_time_lock_Ok tl h :
  is_u 62 h -> check_time_lock tl h = Ok () <-> tl = TL_Block (h + 60) /\ h + 60 <= 500000000.
Proof using Type.
  intros Hh. destruct tl as [|till|t]; cbn; [by split; [|intros []]| |by split; [|intros []]].
  unfold Pruning.MAX_BLOCK_HEIGHT_USIZE, MINER_TX_TIME_LOCKED_BLOCKS. rewrite wrap_small by zlia.
  split_if; split; try done; try (intros _; split; [f_equal|]; lia); intros [[= ->] ?]; lia.
Qed.

Lemma check_miner_tx_Ok tx fees h w m generated hf coins :
  Forall (fun out => is_u 64 (output_amount out)) (outputs (prefix tx)) ->
  is_u 62 h -> is_u 64 generated -> 0 < m < 2 ^ 32 -> 0 <= w <= 2 * m -> 0 <= fees < 2 ^ 64 - 2 ^ 46 ->
  check_miner_tx tx fees h w m generated hf = Ok coins <-> miner_tx_rules tx fees h w m generated hf coins.
Proof using L.
  intros Hu Hh Hg Hm Hw Hf. unfold check_miner_tx, miner_tx_rules.
  rewrite from_raw_version, calculate_block_reward_eq by done. cbn [ok_or].
  rewrite <- miner_version_rule, <- check_inputs_Ok, <- check_output_types_Ok, Logic.and_assoc.
  pose proof (check_time_lock_Ok (additional_timelock (prefix tx)) h Hh) as Htl.
  pose proof (fun s => miner_sum_outputs_Ok _ hf (tx_version tx) s Hu) as Hsum.
  pose proof (base_reward_bound generated hf Hg) as Hb.
  pose proof (penalised_reward_bound (base_reward generated hf) w m ltac:(lia) ltac:(lia) ltac:(lia)) as Hp.
  set (r := penalised_reward _ _ _) in *. set (total := sumZ _) in *.
  assert (0 <= total) by (apply sumZ_nonneg, Forall_map, (Forall_impl _ _ _ Hu); unfold is_u; cbn; lia).
  split.
  - intros H1. apply bind_Ok in H1 as (ver & [= <-] & H1). apply bind_Ok in H1 as ([] & Hv & H1).
    apply bind_Ok in H1 as ([] & Hpr & H1). apply bind_Ok in H1 as ([] & Ht & H1). apply bind_Ok in H1 as ([] & Hi & H1).
    apply bind_Ok in H1 as ([] & Ho & H1). apply map_err_Ok in Ho. apply bind_Ok in H1 as (r' & [= <-] & H1).
    apply bind_Ok in H1 as (s & Hs & H1). apply Hsum in Hs as (Ha & -> & Hlt). fold total in Hlt, H1.
    apply Htl in Ht as [Ht1 Ht2]. rewrite check_total_output_amt_Ok in H1 by zlia. tauto.
  - intros (Hv & Hpr & Ht1 & Ht2 & Hi & Ho & Ha & Hlt & Hmr). rewrite (proj2 Htl) by done.
    assert (miner_sum_outputs (outputs (prefix tx)) hf (tx_version tx) = Ok total) as Hs by (by apply Hsum).
    change (Ok ?x ≫= ?f) with (f x). cbv beta. rewrite Hv, Hi, Ho, Hs, Hpr.
    cbn [map_err mbind result_bind]. apply check_total_output_amt_Ok; done || zlia.
Qed.

Lemma np_check_miner_tx tx fees h w m generated hf :
  is_u 64 generated -> 0 < m < 2 ^ 32 -> 0 <= w <= 2 * m ->
  check_miner_tx tx fees h w m generated hf <> Panic.
Proof using Type.
  intros Hg Hm Hw. unfold check_miner_tx.
  apply np_bind; [apply np_ok_or|intros ver _]. apply np_bind; [unfold check_miner_tx_version; by split_if|intros _ _].
  apply np_bind; [destruct tx; [done|by split_if]|intros _ _].
  apply np_bind; [unfold check_time_lock; destruct (additional_timelock _); [done|by split_if|done]|intros _ _].
  apply np_bind; [destruct (inputs (prefix tx)) as [|[|] []]; cbn; try done; by split_if|intros _ _].
  apply np_bind; [apply np_map_err, np_check_output_types|intros _ _].
  rewrite calculate_block_reward_eq by done. apply np_bind; [done|intros r _].
  apply np_bind; [apply np_try_fold; intros s x _; apply np_bind; [by split_if|intros _ _; apply np_ok_or]|intros total _].
  unfold check_total_output_amt. by split_if.
Qed.

Lemma check_txs_unique_Ok txs : check_txs_unique txs = Ok () <-> NoDup txs.
Proof using Type.
  unfold check_txs_unique, len. rewrite <- size_list_to_set_NoDup.
  destruct (_ =? _) eqn:E; bsimp; split; done || lia.
Qed.

(** The rules of a block that creates [coins] and votes for [vote]. *)
Definition block_rules (block : Block) (fees w blob_len : Z) (ctx : ContextToVerifyBlock) (now : Z)
    (vote : HardFork) (coins : Z) : Prop :=
  hardfork_version (header block) = as_u8 (current_hf ctx) /\
  vote = from_vote (hardfork_signal (header block)) /\ as_u8 (current_hf ctx) <= as_u8 vote /\
  (forall t, median_block_timestamp ctx = Some t -> t <= timestamp (header block) <= now + 7200) /\
  previous (header block) = top_hash ctx /\
  w <= 2 * median_weight_for_block_reward ctx /\
  blob_len <= 2 * effective_median_weight ctx + 100 /\
  len (transactions block) < 2 ^ 28 /\ NoDup (transactions block) /\
  miner_tx_rules (miner_transaction block) fees (chain_height ctx) w
    (median_weight_for_block_reward ctx) (already_generated_coins ctx) (current_hf ctx) coins.

(** Block and context are within the bounds of a chain: output amounts, timestamps and
    coins are [u64]s, the weight median is below 2^32, and fees leave room for a reward. *)
Definition block_bounds (block : Block) (fees w blob_len : Z) (ctx : ContextToVerifyBlock) (now : Z) : Prop :=
  Forall (fun out => is_u 64 (output_amount out)) (outputs (prefix (miner_transaction block))) /\
  is_u 62 (chain_height ctx) /\ is_u 64 (already_generated_coins ctx) /\
  0 < median_weight_for_block_reward ctx < 2 ^ 32 /\ is_u 62 (effective_median_weight ctx) /\
  0 <= w /\ 0 <= fees < 2 ^ 64 - 2 ^ 46 /\ is_u 63 now /\ is_u 62 (len (transactions block)).

Lemma version_vote_Ok ver sig hf :
  forall v vote, from_block_header ver sig = Ok (v, vote) ->
  check_block_version_vote hf v vote = Ok () <-> ver = as_u8 hf /\ as_u8 hf <= as_u8 vote.
Proof using Type.
  intros v vote H. unfold from_block_header in H. apply bind_Ok in H as (v' & Hv & [= -> <-]).
  unfold from_version in Hv. destruct (from_repr ver) eqn:Er; [|done]. injection Hv as ->. apply from_repr_inv in Er.
  unfold check_block_version_vote, hf_lt. case_bool_decide as Eb; cbn.
  - subst v. split_if; split; done || lia.
  - split; [done|]. intros [H _]. destruct Eb. apply as_u8_inj. lia.
Qed.

Lemma from_block_header_known hf sig : from_block_header (as_u8 hf) sig = Ok (hf, from_vote sig).
Proof using Type. unfold from_block_header, from_version. by rewrite from_repr_as_u8. Qed.

Lemma check_block_Ok block fees w blob_len ctx now vote coins :
  block_bounds block fees w blob_len ctx now ->
  check_block block fees w blob_len ctx now = Ok (vote, coins) <->
  block_rules block fees w blob_len ctx now vote coins.
Proof using L.
  intros (Ho & Hh & Hg & Hm & He & Hw & Hf & Hn & Ht). unfold check_block, block_rules.
  assert (check_block_weight w (median_weight_for_block_reward ctx) = Ok () <-> w <= 2 * median_weight_for_block_reward ctx) as Hcw.
  { unfold check_block_weight. rewrite wrap_small by zlia. split_if; split; done || lia. }
  assert (block_size_sanity_check blob_len (effective_median_weight ctx) = Ok () <-> blob_len <= 2 * effective_median_weight ctx + 100) as Hcs.
  { unfold block_size_sanity_check, BLOCK_SIZE_SANITY_LEEWAY. rewrite (wrap_small 64 (_ * 2)) by zlia. rewrite wrap_small by zlia.
    split_if; split; done || lia. }
  assert (check_amount_txs (len (transactions block)) = Ok () <-> len (transactions block) < 2 ^ 28) as Hca.
  { unfold check_amount_txs. rewrite wrap_small by zlia. zpow. split_if; split; done || lia. }
  assert (match median_block_timestamp ctx with
          | Some median_timestamp => check_timestamp block median_timestamp now
          | None => Ok () end = Ok () <->
    (forall t, median_block_timestamp ctx = Some t -> t <= timestamp (header block) <= now + 7200)) as Hct.
  { destruct (median_block_timestamp ctx) as [t|]; [|split; [done|done]]. unfold check_timestamp, BLOCK_FUTURE_TIME_LIMIT.
    rewrite wrap_small by zlia. destruct (_ || _) eqn:E; bsimp; (split; [try done|]); [intros Hx; specialize (Hx t eq_refl); lia..| |done].
    intros _ t' [= <-]. lia. }
  assert (check_prev_id block (top_hash ctx) = Ok () <-> previous (header block) = top_hash ctx) as Hcp.
  { unfold check_prev_id. case_bool_decide; split; done. }
  split.
  - intros H. apply bind_Ok in H as ([ver v] & Hv & H). apply map_err_Ok in Hv.
    apply bind_Ok in H as ([] & Hvv & H). apply map_err_Ok in Hvv. apply (version_vote_Ok _ _ _ _ _ Hv) in Hvv as [Hv1 Hv2].
    apply bind_Ok in H as ([] & H1 & H). apply bind_Ok in H as ([] & H2%Hcp & H).
    apply bind_Ok in H as ([] & H3%Hcw & H). apply bind_Ok in H as ([] & H4%Hcs & H). apply bind_Ok in H as ([] & H5%Hca & H).
    apply bind_Ok in H as ([] & H6%check_txs_unique_Ok & H). apply bind_Ok in H as (c & Hc & [= <- <-]). apply map_err_Ok in Hc.
    pose proof (proj1 Hct H1) as H1'. rewrite check_miner_tx_Ok in Hc by (done || lia). rewrite Hv1, from_block_header_known in Hv. injection Hv as <- <-.
    split_and!; try done; lia.
  - intros (Hv & -> & Hvv & H1 & H2%Hcp & H3 & H4%Hcs & H5%Hca & H6%check_txs_unique_Ok & Hmt).
    assert (check_block_version_vote (current_hf ctx) (current_hf ctx) (from_vote (hardfork_signal (header block))) = Ok ()) as Hvo
      by (apply (version_vote_Ok _ _ _ _ _ (from_block_header_known _ _)); done).
    rewrite Hv, from_block_header_known. cbn [map_err]. change (Ok ?x ≫= ?f) with (f x). cbv beta iota.
    rewrite Hvo, (proj2 Hct H1), H2, (proj2 Hcw H3), H4, H5, H6. cbn [map_err mbind result_bind].
    rewrite <- check_miner_tx_Ok in Hmt by (done || lia). by rewrite Hmt.
Qed.

Lemma np_check_block block fees w blob_len ctx now :
  block_bounds block fees w blob_len ctx now -> check_block block fees w blob_len ctx now <> Panic.
Proof using Type.
  intros (Ho & Hh & Hg & Hm & He & Hw & Hf & Hn & Ht). unfold check_block.
  apply np_bind; [apply np_map_err; unfold from_block_header, from_version; by destruct (from_repr _)|intros [v vote] _].
  apply np_bind; [apply np_map_err; unfold check_block_version_vote; by split_if|intros _ _].
  apply np_bind; [destruct (median_block_timestamp ctx); [unfold check_timestamp; by split_if|done]|intros _ _].
  apply np_bind; [unfold check_prev_id; by split_if|intros _ _].
  apply np_bind; [unfold check_block_weight; by split_if|intros [] Hcw].
  assert (w <= 2 * median_weight_for_block_reward ctx) as Hle.
  { unfold check_block_weight in Hcw. rewrite wrap_small in Hcw by zlia. destruct (_ <? _) eqn:E; bsimp; [done|lia]. }
  apply np_bind; [unfold block_size_sanity_check; by split_if|intros _ _].
  apply np_bind; [unfold check_amount_txs; by split_if|intros _ _].
  apply np_bind; [unfold check_txs_unique; by split_if|intros _ _].
  apply np_bind; [apply np_map_err, np_check_miner_tx; done || lia|done].
Qed.

(** ** The claims on blocks *)

(** C10. The block check accepts exactly the blocks that satisfy the consensus rules and returns
    their vote and the coins they create: version and vote of the current fork, a
    timestamp between the median and two hours from now, the hash of the top block, weight
    and size limits, distinct transactions, and a miner transaction with one input for the
    height, the 60-block lock, the output rules and the money rule. It never panics. *)
Theorem check_block_iff block fees w blob_len ctx now vote coins :
  block_bounds block fees w blob_len ctx now ->
  (check_block block fees w blob_len ctx now = Ok (vote, coins) <->
   block_rules block fees w blob_len ctx now vote coins) /\
  check_block block fees w blob_len ctx now <> Panic.
Proof using L. intros H. split; [by apply check_block_Ok|by apply np_check_block]. Qed.

(** C11. No inflation: an accepted block pays out exactly the coins it is recorded to create and
    the fees of its transactions, and it creates at most the base reward. *)
Theorem no_inflation block fees w blob_len ctx now vote coins :
  block_bounds block fees w blob_len ctx now ->
  check_block block fees w blob_len ctx now = Ok (vote, coins) ->
  sumZ (map output_amount (outputs (prefix (miner_transaction block)))) = coins + fees /\
  0 <= coins <= Z.max ((2 ^ 64 - 1 - already_generated_coins ctx) / 2 ^ (21 - minutes (current_hf ctx)))
                      (300000000000 * minutes (current_hf ctx)).
Proof using L.
  intros Hb Hc. pose proof Hb as (_ & _ & Hg & Hm & _ & Hw & _).
  apply check_block_Ok in Hc as (_ & _ & _ & _ & _ & Hle & _ & _ & _ & Hmt); [|done].
  destruct Hmt as (_ & _ & _ & _ & _ & _ & _ & Hsum & Hcoins & _). split; [done|].
  pose proof (base_reward_bound _ (current_hf ctx) Hg).
  pose proof (penalised_reward_bound (base_reward (already_generated_coins ctx) (current_hf ctx)) w
    (median_weight_for_block_reward ctx) ltac:(lia) ltac:(lia) ltac:(lia)). unfold base_reward in *. lia.
Qed.

End spec.

(** ** Witnesses: a block of V16 at height 3000000 with one transaction *)
Import Transparent.

Module TestBlock.
Definition ctx : ContextToVerifyBlock :=
  mk_context 300000 300000 [7] (Some 1000) 3000000 V16 1 18000000000000000000.
Definition block : Block (O := oxide) :=
  mk_block (O := oxide) (mk_header 16 16 1200 [7])
    (Tx_V2 (H := oxide) (mk_prefix (H := oxide) (TL_Block 3000060) [Gen (H := oxide) 3000000]
       [mk_output (H := oxide) (Some 852096699206) 5 (Some 1)]) None) [[1]].
Definition coins_of (r : result BlockError (HardFork * Z)) : Z := match r with Ok (_, c) => c | _ => 0 end.
End TestBlock.

Lemma test_block_bounds : block_bounds TestBlock.block 1000 5000 5000 TestBlock.ctx 1100.
Proof. split_and!; try done. repeat constructor; done. Defined.

Lemma check_block_iff_witness :
  block_rules TestBlock.block 1000 5000 5000 TestBlock.ctx 1100 V16
    (TestBlock.coins_of (check_block TestBlock.block 1000 5000 5000 TestBlock.ctx 1100)).
Proof.
  apply (check_block_iff (O := oxide)); [apply test_block_bounds|]. by vm_compute.
Defined.

Lemma no_inflation_witness :
  sumZ (map output_amount (outputs (prefix (miner_transaction TestBlock.block)))) =
  TestBlock.coins_of (check_block TestBlock.block 1000 5000 5000 TestBlock.ctx 1100) + 1000.
Proof.
  apply (no_inflation (O := oxide) TestBlock.block 1000 5000 5000 TestBlock.ctx 1100 V16 _ test_block_bounds).
  by vm_compute.
Defined.

End BlockRules.
