(* ===== verification/Weights.v ===== *)
(** * The block weight cache ([src/consensus/context/src/weight.rs])

    The two rolling medians of block weights, their maintenance when blocks are added
    and popped, the effective median and the long-term weight of a block. *)
From S2P Require Import Prelude Bytes HardForks Median ChainDb RulesBase.
From Stdlib Require Import ZArith Lia.
From stdpp Require Import base tactics option list numbers.
Import HardForks Median ChainDb RulesBase.

#[local] Open Scope Z_scope.
#[local] Open Scope usize_scope.

Module Weights.

Definition SHORT_TERM_WINDOW : Z := 100.
Definition LONG_TERM_WINDOW : Z := 100000.

Record BlockWeightsCacheConfig := mk_weights_config {
  short_term_window : Z;
  long_term_window : Z;
}.

Definition weights_main_net : BlockWeightsCacheConfig :=
  mk_weights_config SHORT_TERM_WINDOW LONG_TERM_WINDOW.

Record BlockWeightsCache := mk_weights {
  short_term_block_weights : RollingMedian;
  long_term_weights : RollingMedian;
  tip_height : Z;
  wconfig : BlockWeightsCacheConfig;
}.

(** The rolling median can only panic. *)
Definition lift {E A} (r : result () A) : result E A := match r with Ok a => Ok a | _ => Panic end.

(** [for _ in 0..n { short.pop_back(); long.pop_back(); }] *)
Fixpoint pop_both (n : nat) (short long : RollingMedian) : result () (RollingMedian * RollingMedian) :=
  match n with
  | O => Ok (short, long)
  | S n => short ← pop_back short; long ← pop_back long; pop_both n short long
  end.

Section db.
Context {D : Type} `{!Database D}.

Definition get_blocks_weight_in_range (a b : Z) (database : D) (chain : Chain) : CResult (list Z) :=
  ext_headers ← block_extended_header_in_range database a b chain;
  Ok (map block_weight ext_headers).

Definition get_long_term_weight_in_range (a b : Z) (database : D) (chain : Chain) : CResult (list Z) :=
  ext_headers ← block_extended_header_in_range database a b chain;
  Ok (map long_term_weight ext_headers).

Definition weights_init_from_chain_height (chain_height : Z) (config : BlockWeightsCacheConfig)
    (database : D) (chain : Chain) : CResult BlockWeightsCache :=
  long ← get_long_term_weight_in_range
           (saturating_sub chain_height (long_term_window config)) chain_height database chain;
  short ← get_blocks_weight_in_range
           (saturating_sub chain_height (short_term_window config)) chain_height database chain;
  short ← lift (from_vec short (short_term_window config));
  long ← lift (from_vec long (long_term_window config));
  Ok (mk_weights short long (chain_height -! 1) config).

Definition weights_pop_blocks_main_chain (c : BlockWeightsCache) (numb_blocks : Z) (database : D)
    : CResult BlockWeightsCache :=
  if window_len (long_term_weights c) <=? numb_blocks then
    weights_init_from_chain_height (tip_height c -! numb_blocks +! 1) (wconfig c) database Main
  else
    let chain_height := tip_height c +! 1 in
    let new_long_term_start_height :=
      saturating_sub chain_height (long_term_window (wconfig c) +! numb_blocks) in
    old_long_term_weights ← get_long_term_weight_in_range new_long_term_start_height
      (chain_height -! window_len (long_term_weights c)) database Main;
    let new_short_term_start_height :=
      saturating_sub chain_height (short_term_window (wconfig c) +! numb_blocks) in
    old_short_term_weights ← get_blocks_weight_in_range new_short_term_start_height
      (Z.min (chain_height -! window_len (short_term_block_weights c)) (chain_height -! numb_blocks))
      database Main;
    '(short, long) ← lift (pop_both (Z.to_nat numb_blocks) (short_term_block_weights c) (long_term_weights c));
    long ← lift (append_front long old_long_term_weights);
    short ← lift (append_front short old_short_term_weights);
    Ok (mk_weights short long (tip_height c -! numb_blocks) (wconfig c)).
End db.

Definition weights_new_block (c : BlockWeightsCache) (block_height block_weight long_term_weight : Z)
    : result () BlockWeightsCache :=
  _ ← rassert (tip_height c +! 1 =? block_height);
  long ← push (long_term_weights c) long_term_weight;
  short ← push (short_term_block_weights c) block_weight;
  Ok (mk_weights short long (tip_height c +! 1) (wconfig c)).

(** ** Medians and weights *)
Definition median_long_term_weight (c : BlockWeightsCache) : result () Z := rm_median (long_term_weights c).
Definition median_short_term_weight (c : BlockWeightsCache) : result () Z :=
  rm_median (short_term_block_weights c).

Definition calculate_effective_median_block_weight (hf : HardFork)
    (median_short_term_weight median_long_term_weight : Z) : Z :=
  if hf_lt hf V10 then Z.max median_short_term_weight (penalty_free_zone hf)
  else
    let long_term_median := Z.max median_long_term_weight PENALTY_FREE_ZONE_5 in
    let short_term_median := median_short_term_weight in
    let effective_median :=
      if hf_le V10 hf && hf_lt hf V15 then
        Z.min (Z.max PENALTY_FREE_ZONE_5 short_term_median) (50 *! long_term_median)
      else Z.min (Z.max long_term_median short_term_median) (50 *! long_term_median) in
    Z.max effective_median (penalty_free_zone hf).

Definition effective_median_block_weight (c : BlockWeightsCache) (hf : HardFork) : result () Z :=
  s ← median_short_term_weight c;
  l ← median_long_term_weight c;
  Ok (calculate_effective_median_block_weight hf s l).

Definition median_for_block_reward (c : BlockWeightsCache) (hf : HardFork) : result () Z :=
  m ← (if hf_lt hf V12 then median_short_term_weight c else effective_median_block_weight c hf);
  Ok (Z.max m (penalty_free_zone hf)).

Definition calculate_block_long_term_weight (hf : HardFork) (block_weight long_term_median : Z) : Z :=
  if hf_lt hf V10 then block_weight
  else
    let long_term_median := Z.max (penalty_free_zone hf) long_term_median in
    let '(short_term_constraint, adjusted_block_weight) :=
      if hf_le V10 hf && hf_lt hf V15 then
        let stc := long_term_median +! (long_term_median *! 2) / 5 in
        (stc, block_weight)
      else
        let stc := long_term_median +! (long_term_median *! 7) / 10 in
        (stc, Z.max block_weight ((long_term_median *! 10) / 17)) in
    Z.min short_term_constraint adjusted_block_weight.

(** ** The cache as windows of the chain *)
Definition lastn {A} (n : Z) (l : list A) : list A := drop (Z.to_nat (len l - n)) l.

Definition weights_of (cfg : BlockWeightsCacheConfig) (blocks : list ExtendedBlockHeader) : BlockWeightsCache :=
  mk_weights (rm_of (map block_weight (lastn (short_term_window cfg) blocks)) (short_term_window cfg))
    (rm_of (map long_term_weight (lastn (long_term_window cfg) blocks)) (long_term_window cfg))
    (len blocks - 1) cfg.

Definition weights_config_ok (cfg : BlockWeightsCacheConfig) : Prop :=
  1 <= short_term_window cfg <= long_term_window cfg /\ long_term_window cfg < 2 ^ 62.

Section window_facts.
Context {A : Type}.

Lemma lastn_slice n (l : list A) : lastn n l = slice (Z.max 0 (len l - n)) (len l) l.
Proof. rewrite slice_from. unfold lastn. f_equal. lia. Qed.

Lemma len_lastn n (l : list A) : 0 <= n -> len (lastn n l) = Z.min n (len l).
Proof. intros Hn. unfold lastn, len in *. rewrite length_drop. lia. Qed.

Lemma lastn_snoc n (l : list A) x : 1 <= n ->
  lastn n (l ++ [x]) = (if n <=? len (lastn n l) then tail (lastn n l) else lastn n l) ++ [x].
Proof.
  intros Hn. rewrite len_lastn by lia. unfold lastn. rewrite len_app. change (len [x]) with 1.
  destruct (n <=? _) eqn:E; bsimp.
  - replace (Z.to_nat (len l + 1 - n)) with (Z.to_nat (len l - n) + 1)%nat by lia.
    rewrite <- drop_drop, drop_app_le by (unfold len in *; lia).
    assert (length (drop (Z.to_nat (len l - n)) l) <> 0%nat) as Hne
      by (rewrite length_drop; unfold len in *; lia).
    destruct (drop (Z.to_nat (len l - n)) l) as [|y w]; [done|]. cbn. by rewrite drop_0.
  - replace (Z.to_nat (len l + 1 - n)) with 0%nat by lia.
    by replace (Z.to_nat (len l - n)) with 0%nat by lia.
Qed.

Lemma lastn_take n (l : list A) k : 0 <= k <= len l -> 0 <= n ->
  lastn n (take (Z.to_nat k) l) = slice (Z.max 0 (k - n)) k l.
Proof.
  intros Hk Hn. rewrite lastn_slice.
  assert (len (take (Z.to_nat k) l) = k) as -> by (unfold len in *; rewrite length_take; lia).
  apply slice_prefix; lia.
Qed.

(** Dropping the [n] newest of the last [w] leaves a slice. *)
Lemma lastn_drop_newest w (l : list A) n : 0 <= w -> 0 <= n <= len l ->
  take (length (lastn w l) - Z.to_nat n) (lastn w l)
    = slice (Z.max 0 (len l - w)) (len l - n) l.
Proof.
  intros Hw Hn. unfold lastn, slice. rewrite length_drop.
  replace (Z.to_nat (Z.max 0 (len l - w))) with (Z.to_nat (len l - w)) by lia.
  f_equal. unfold len in *. lia.
Qed.
End window_facts.

Lemma pop_both_of n s ts l tl :
  pop_both n (rm_of s ts) (rm_of l tl) =
    Ok (rm_of (take (length s - n) s) ts, rm_of (take (length l - n) l) tl).
Proof.
  revert s l. induction n as [|n IH]; intros s l; cbn [pop_both].
  { by rewrite !take_ge by lia. }
  rewrite !pop_back_of. cbn [mbind result_bind]. rewrite IH.
  rewrite !removelast_firstn_len, !length_firstn, !take_take.
  do 3 f_equal; f_equal; lia.
Qed.

Section maintenance.
Context {D : Type} `{!Database D} (db : D) (cfg : BlockWeightsCacheConfig).
Context (Hcfg : weights_config_ok cfg).

Lemma weights_init_of h chain blocks :
  1 <= h <= len blocks -> h < 2 ^ 62 -> Serves db chain blocks ->
  weights_init_from_chain_height h cfg db chain = Ok (weights_of cfg (take (Z.to_nat h) blocks)).
Proof using Hcfg.
  destruct Hcfg as [Hs Hl]. intros Hh Hh62 Hsv.
  unfold weights_init_from_chain_height, get_long_term_weight_in_range, get_blocks_weight_in_range.
  unfold saturating_sub. rewrite !serves_range by lia. cbn [mbind result_bind].
  unfold from_vec. rewrite !len_map, !len_slice by lia. rewrite !(proj2 (Z.leb_le _ _)) by lia. cbn [rassert lift mbind result_bind].
  unfold weights_of. rewrite !lastn_take by lia. rewrite wrap_small by zlia.
  assert (len (take (Z.to_nat h) blocks) = h) as -> by (unfold len in *; rewrite length_take; lia). done.
Qed.

Lemma weights_new_block_of blocks hdr :
  1 <= len blocks < 2 ^ 63 ->
  weights_new_block (weights_of cfg blocks) (len blocks) (block_weight hdr) (long_term_weight hdr)
    = Ok (weights_of cfg (blocks ++ [hdr])).
Proof using Hcfg.
  destruct Hcfg as [Hs Hl]. intros Hb. set (after := weights_of cfg (blocks ++ [hdr])).
  unfold weights_new_block. cbn [tip_height long_term_weights short_term_block_weights wconfig weights_of].
  rewrite wrap_small by zlia. replace (len blocks - 1 + 1) with (len blocks) by lia. rewrite Z.eqb_refl.
  cbn [rassert mbind result_bind]. rewrite !push_of. cbn [mbind result_bind].
  assert (forall n (f : ExtendedBlockHeader -> Z), 1 <= n ->
    (if n <=? len (map f (lastn n blocks)) then tail (map f (lastn n blocks)) else map f (lastn n blocks)) ++ [f hdr]
      = map f (lastn n (blocks ++ [hdr]))) as Hp.
  { intros n f Hn. rewrite lastn_snoc by done. rewrite len_map, map_app.
    destruct (n <=? _); [|done]. by destruct (lastn n blocks). }
  rewrite !Hp by lia. unfold after, weights_of. rewrite len_app. change (len [hdr]) with 1.
  do 2 f_equal. lia.
Qed.

(** A window after [n] blocks are popped and the older ones are put back. *)
Lemma append_front_window (f : ExtendedBlockHeader -> Z) w blocks n b :
  1 <= w -> 0 <= n < len blocks -> b = Z.min (Z.max 0 (len blocks - w)) (len blocks - n) ->
  append_front (rm_of (take (length (map f (lastn w blocks)) - Z.to_nat n) (map f (lastn w blocks))) w)
      (map f (slice (Z.max 0 (len blocks - (w + n))) b blocks))
    = Ok (rm_of (map f (lastn w (take (Z.to_nat (len blocks - n)) blocks))) w).
Proof.
  intros Hw Hn ->. rewrite length_map, firstn_map, lastn_drop_newest by lia.
  set (s := Z.max 0 (len blocks - w)). set (e := len blocks - n).
  assert (len (map f (slice s e blocks)) <= w) as Hle.
  { rewrite len_map. destruct (decide (s <= e)); [rewrite len_slice by (unfold s, e in *; lia); unfold s, e; lia|].
    rewrite slice_empty by lia. unfold len. cbn. lia. }
  rewrite append_front_of by done. do 2 f_equal. rewrite <- map_app.
  assert (slice (Z.max 0 (len blocks - (w + n))) (Z.min s e) blocks ++ slice s e blocks
    = slice (Z.max 0 (e - w)) e blocks) as ->.
  { replace (Z.max 0 (len blocks - (w + n))) with (Z.max 0 (e - w)) by (unfold e; lia).
    destruct (decide (s <= e)).
    - rewrite Z.min_l by done. apply slice_app; unfold s, e in *; lia.
    - rewrite Z.min_r, (slice_empty _ s e) by lia. apply app_nil_r. }
  rewrite lastn_take by (unfold e; lia). fold e. apply take_ge. rewrite length_map.
  assert (len (slice (Z.max 0 (e - w)) e blocks) <= w) as H
    by (rewrite len_slice by (unfold e; lia); lia). unfold len in H. lia.
Qed.

Lemma weights_pop_blocks_of blocks n :
  len blocks < 2 ^ 62 -> 0 <= n < len blocks ->
  Serves db Main (take (Z.to_nat (len blocks - n)) blocks) ->
  weights_pop_blocks_main_chain (weights_of cfg blocks) n db
    = Ok (weights_of cfg (take (Z.to_nat (len blocks - n)) blocks)).
Proof using Hcfg.
  destruct Hcfg as [Hs Hl]. intros Hb Hn Hsv.
  assert (len (take (Z.to_nat (len blocks - n)) blocks) = len blocks - n) as Hlt
    by (unfold len in *; rewrite length_take; lia).
  set (after := weights_of cfg (take _ _)). unfold weights_pop_blocks_main_chain.
  cbn [tip_height long_term_weights short_term_block_weights wconfig weights_of].
  assert (forall (f : ExtendedBlockHeader -> Z) w, 0 <= w ->
    window_len (rm_of (map f (lastn w blocks)) w) = Z.min w (len blocks)) as Hwl.
  { intros f w Hw. unfold window_len. cbn [window rm_of]. rewrite len_map. by apply len_lastn. }
  rewrite !Hwl by lia. destruct (_ <=? n) eqn:E; bsimp.
  - rewrite (wrap_small 64 (len blocks - 1 - n)), wrap_small by zlia.
    replace (len blocks - 1 - n + 1) with (len blocks - n) by lia.
    rewrite (weights_init_of _ Main (take (Z.to_nat (len blocks - n)) blocks)); [|lia|lia|done].
    unfold after. do 2 f_equal. rewrite take_take. f_equal. lia.
  - rewrite (wrap_small 64 (len blocks - 1 + 1)) by zlia.
    replace (len blocks - 1 + 1) with (len blocks) by lia.
    rewrite !(wrap_small 64) by zlia.
    unfold get_long_term_weight_in_range, get_blocks_weight_in_range, saturating_sub.
    rewrite !serves_range by lia. cbn [mbind result_bind]. rewrite !slice_prefix by lia.
    rewrite pop_both_of. cbn [lift mbind result_bind].
    rewrite append_front_window by lia. cbn [lift mbind result_bind].
    rewrite append_front_window by lia. cbn [lift mbind result_bind].
    unfold after, weights_of. rewrite Hlt. do 2 f_equal. lia.
Qed.

End maintenance.

#[export] Instance weights_chain_cache {D} `{!Database D} : ChainCache BlockWeightsCache D := {|
  cache_new_block c height hdr :=
    lift (weights_new_block c height (block_weight hdr) (long_term_weight hdr));
  cache_pop_blocks := weights_pop_blocks_main_chain;
|}.

Lemma weights_follows {D} `{!Database D} cfg : weights_config_ok cfg -> FollowsChain (D := D) (weights_of cfg).
Proof.
  intros Hc. split.
  - intros blocks hdr H1 H2. cbn [cache_new_block weights_chain_cache].
    by rewrite weights_new_block_of by (done || lia).
  - intros blocks n db Hl Hn Hs. by apply weights_pop_blocks_of.
Qed.

(** ** Claims *)

(** C30. The weight cache follows the chain: after any sequence of new and popped blocks it
    is the cache of the present chain, as built afresh by [init_from_chain_height], and no
    operation fails. *)
Theorem weight_cache_follows_chain {D} `{!Database D} (dbs : list ExtendedBlockHeader -> D)
    (serves : forall blocks, Serves (dbs blocks) Main blocks) cfg blocks es :
  weights_config_ok cfg -> 1 <= len blocks < 2 ^ 62 -> events_ok blocks es ->
  let blocks' := foldl chain_after blocks es in
  1 <= len blocks' < 2 ^ 62 ->
  (c ← weights_init_from_chain_height (len blocks) cfg (dbs blocks) Main; run_events dbs c blocks es)
    = weights_init_from_chain_height (len blocks') cfg (dbs blocks') Main.
Proof.
  intros Hc Hl He blocks' Hl'. pose proof (weights_follows (D := D) cfg Hc) as Hf.
  rewrite (weights_init_of (dbs blocks) cfg Hc (len blocks) Main blocks); [|lia|lia|done].
  rewrite (weights_init_of (dbs blocks') cfg Hc (len blocks') Main blocks'); [|lia|lia|done].
  cbn [mbind result_bind]. unfold len. rewrite !Nat2Z.id, !firstn_all.
  by apply (follows_events dbs (weights_of cfg)).
Qed.

Lemma weight_cache_follows_chain_witness :
  let blk w := mk_ext V1 1 0 1 w w in
  let cfg := mk_weights_config 2 3 in
  (c ← weights_init_from_chain_height 2 cfg [blk 5; blk 9] Main;
   run_events id c [blk 5; blk 9] [NewBlock (blk 4); NewBlock (blk 2); PopBlocks 3])
    = weights_init_from_chain_height 1 cfg [blk 5] Main.
Proof.
  apply (weight_cache_follows_chain id (fun b => list_db_serves b) (mk_weights_config 2 3)
    [mk_ext V1 1 0 1 5 5; mk_ext V1 1 0 1 9 9]
    [NewBlock (mk_ext V1 1 0 1 4 4); NewBlock (mk_ext V1 1 0 1 2 2); PopBlocks 3]);
    vm_compute; intuition congruence.
Defined.

(** From fork 10 on the effective median is at least the penalty-free zone and at most
    fifty times the long-term median (itself at least that zone), so short-term growth is
    bounded; before, it is the short-term median, at least the zone. Nothing overflows. *)
Theorem effective_median_bounds hf s l :
  0 <= s < 2 ^ 58 -> 0 <= l < 2 ^ 58 ->
  let e := calculate_effective_median_block_weight hf s l in
  penalty_free_zone hf <= e /\
  (as_u8 hf < 10 -> e = Z.max s (penalty_free_zone hf)) /\
  (10 <= as_u8 hf -> e <= 50 * Z.max l PENALTY_FREE_ZONE_5 /\ e <= Z.max s (Z.max l PENALTY_FREE_ZONE_5)) /\
  (15 <= as_u8 hf -> Z.max l PENALTY_FREE_ZONE_5 <= e).
Proof.
  intros Hs Hl e. subst e. unfold calculate_effective_median_block_weight, hf_lt, hf_le.
  rewrite !(wrap_small 64) by (unfold PENALTY_FREE_ZONE_5; zlia).
  assert (10 <= as_u8 hf -> penalty_free_zone hf = PENALTY_FREE_ZONE_5) as Hz
    by (destruct hf; vm_compute; intuition congruence).
  change (as_u8 V10) with 10. change (as_u8 V15) with 15.
  unfold PENALTY_FREE_ZONE_5 in *.
  destruct (as_u8 hf <? 10) eqn:E1; bsimp; [lia|]. rewrite Hz by lia.
  destruct (_ && _) eqn:E2; bsimp; lia.
Qed.

Lemma effective_median_bounds_witness :
  calculate_effective_median_block_weight V16 20000000 0 <= 50 * PENALTY_FREE_ZONE_5.
Proof. destruct (effective_median_bounds V16 20000000 0) as (_ & _ & H & _); [lia|lia|]. apply H. done. Defined.

(** The long-term weight of a block: before fork 10 its weight; then at most 1.4 times
    the long-term median, and from fork 15 on the weight clamped between 10/17 and 1.7
    times the median, with the median at least the penalty-free zone. *)
Theorem long_term_weight_clamped hf w m :
  0 <= w < 2 ^ 60 -> 0 <= m < 2 ^ 60 ->
  let z := Z.max (penalty_free_zone hf) m in
  calculate_block_long_term_weight hf w m =
    if as_u8 hf <? 10 then w
    else if as_u8 hf <? 15 then Z.min w (z + z * 2 / 5)
    else Z.max (z * 10 / 17) (Z.min w (z + z * 7 / 10)).
Proof.
  intros Hw Hm z. unfold calculate_block_long_term_weight. fold z.
  assert (20000 <= z < 2 ^ 60) as Hz.
  { unfold z. assert (20000 <= penalty_free_zone hf <= 300000) by (destruct hf; vm_compute; intuition congruence). lia. }
  unfold hf_lt, hf_le. change (as_u8 V10) with 10. change (as_u8 V15) with 15.
  destruct (as_u8 hf <? 10) eqn:E1; [done|]. bsimp. rewrite (proj2 (Z.leb_le 10 _)) by lia. cbn [andb].
  destruct (as_u8 hf <? 15) eqn:E2; bsimp.
  - rewrite (wrap_small 64 (z * 2)) by zlia.
    rewrite wrap_small; [lia|]. unfold is_u. zpow. dlia.
  - rewrite (wrap_small 64 (z * 7)), (wrap_small 64 (z * 10)) by zlia.
    rewrite wrap_small; [dlia|]. unfold is_u. zpow. dlia.
Qed.

Lemma long_term_weight_clamped_witness : calculate_block_long_term_weight V16 100 0 = 176470.
Proof. rewrite long_term_weight_clamped by lia. reflexivity. Defined.

End Weights.
