(* ===== verification/HardForkState.v ===== *)
(** * The hard-fork state ([src/consensus/context/src/hardforks.rs])

    The active fork and the window of votes, built from the database and updated as
    blocks are added and popped. *)
From S2P Require Import Prelude Bytes HardForks ChainDb.
From Stdlib Require Import ZArith Lia.
From stdpp Require Import base tactics option list numbers sets.
Import HardForks ChainDb.

#[local] Open Scope Z_scope.
#[local] Open Scope usize_scope.

Module HardForkState.

Definition DEFAULT_WINDOW_SIZE : Z := 10080.

Record HardForkConfig := mk_hf_config { hf_info : HFsInfo; hf_window : Z }.

Definition config_main_net : HardForkConfig := mk_hf_config main_net DEFAULT_WINDOW_SIZE.
Definition config_stage_net : HardForkConfig := mk_hf_config stage_net DEFAULT_WINDOW_SIZE.
Definition config_test_net : HardForkConfig := mk_hf_config test_net DEFAULT_WINDOW_SIZE.

Record HardForkState := mk_hf_state {
  current_hardfork : HardFork;
  hf_config : HardForkConfig;
  hf_votes : HFVotes;
  last_height : Z;
}.

Definition check_set_new_hf (s : HardForkState) : HardForkState :=
  mk_hf_state
    (current_fork (hf_votes s) (current_hardfork s) (last_height s +! 1) (hf_window (hf_config s))
       (hf_info (hf_config s)))
    (hf_config s) (hf_votes s) (last_height s).

Section db.
Context {D : Type} `{!Database D}.

Definition get_votes_in_range (database : D) (a b : Z) (window_size : Z) : CResult HFVotes :=
  vote_list ← block_extended_header_in_range database a b Main;
  Ok (foldl (fun votes hdr => add_vote_for_hf votes (from_vote (vote hdr))) (HFVotes_new window_size) vote_list).

Definition hf_init_from_chain_height (chain_height : Z) (config : HardForkConfig) (database : D)
    : CResult HardForkState :=
  let block_start := saturating_sub chain_height (hf_window config) in
  votes ← get_votes_in_range database block_start chain_height (hf_window config);
  ext_header ← block_extended_header database (chain_height -! 1);
  Ok (check_set_new_hf (mk_hf_state (version ext_header) config votes (chain_height -! 1))).

Definition hf_pop_blocks_main_chain (s : HardForkState) (numb_blocks : Z) (database : D)
    : CResult HardForkState :=
  match checked_sub (total_votes (hf_votes s)) (hf_window (hf_config s)) with
  | None => hf_init_from_chain_height (last_height s +! 1 -! numb_blocks) (hf_config s) database
  | Some retained_blocks =>
      let current_chain_height := last_height s +! 1 in
      oldest_votes ← get_votes_in_range database
        (saturating_sub (saturating_sub current_chain_height (hf_window (hf_config s))) numb_blocks)
        (saturating_sub (saturating_sub current_chain_height numb_blocks) retained_blocks)
        numb_blocks;
      match reverse_blocks (hf_votes s) numb_blocks oldest_votes with
      | Ok votes => Ok (mk_hf_state (current_hardfork s) (hf_config s) votes (last_height s -! numb_blocks))
      | _ => Panic
      end
  end.
End db.

Definition hf_new_block (s : HardForkState) (vote : HardFork) (height : Z) : result () HardForkState :=
  _ ← rassert (last_height s +! 1 =? height);
  let s := mk_hf_state (current_hardfork s) (hf_config s) (hf_votes s) (last_height s +! 1) in
  let s := mk_hf_state (current_hardfork s) (hf_config s) (add_vote_for_hf (hf_votes s) vote) (last_height s) in
  Ok (check_set_new_hf s).

(** ** The state as a function of the chain *)
Definition block_votes (blocks : list ExtendedBlockHeader) : list HardFork :=
  map (fun hdr => from_vote (vote hdr)) blocks.

Definition window_votes (w : Z) (blocks : list ExtendedBlockHeader) : HFVotes :=
  foldl add_vote_for_hf (HFVotes_new w) (block_votes blocks).

(** The fork of the networks at a height. *)
Definition fork_at (cfg : HardForkConfig) (height : Z) : HardFork :=
  current_fork (HFVotes_new 0) V1 height (hf_window cfg) (hf_info cfg).

Definition hf_state_of (cfg : HardForkConfig) (blocks : list ExtendedBlockHeader) : HardForkState :=
  mk_hf_state (fork_at cfg (len blocks)) cfg (window_votes (hf_window cfg) blocks) (len blocks - 1).

Definition hf_config_ok (cfg : HardForkConfig) : Prop :=
  hf_info cfg ∈ [main_net; test_net; stage_net] /\ 1 <= hf_window cfg < 2 ^ 62.

(** The blocks of a chain the node has accepted: each has the version of its height. *)
Definition versions_ok (cfg : HardForkConfig) (blocks : list ExtendedBlockHeader) : Prop :=
  forall i hdr, blocks !! i = Some hdr -> version hdr = fork_at cfg (Z.of_nat i).

(** Only the window matters to the votes. *)
Lemma window_votes_slice w blocks a :
  0 <= w < 2 ^ 62 -> 0 <= a <= len blocks -> len blocks - a >= w \/ a = 0 ->
  window_votes w (drop (Z.to_nat a) blocks) = window_votes w blocks.
Proof.
  intros Hw Ha Hc. destruct (votes_after w (block_votes (drop (Z.to_nat a) blocks))) as (I1 & W1 & L1); [lia|].
  destruct (votes_after w (block_votes blocks)) as (I2 & W2 & L2); [lia|].
  unfold window_votes. apply votes_inv_ext; [done|done|congruence|]. rewrite L1, L2.
  unfold block_votes. rewrite !skipn_map, !length_map, length_drop, drop_drop.
  unfold len in *. do 2 f_equal. lia.
Qed.

Section networks.
Context (cfg : HardForkConfig) (Hcfg : hf_config_ok cfg).

Lemma fork_at_spec h f : 0 <= h ->
  as_u8 f <= as_u8 (fork_at cfg h) <-> hf_height (info_for_hf (hf_info cfg) f) <= h.
Proof using Hcfg.
  intros Hh. destruct Hcfg as [Hi _]. apply networks_fork; [done|].
  set_unfold in Hi. destruct Hi as [->|[->|[->|[]]]]; done.
Qed.

(** From any fork that is active already, the loop reaches the fork of the height. *)
Lemma current_fork_at v cur h : 0 <= h -> hf_height (info_for_hf (hf_info cfg) cur) <= h ->
  current_fork v cur h (hf_window cfg) (hf_info cfg) = fork_at cfg h.
Proof using Hcfg.
  intros Hh Hc. destruct Hcfg as [Hi _]. apply as_u8_inj, Z.le_antisymm.
  - apply fork_at_spec; [done|]. apply (networks_fork v cur h (hf_window cfg)); [done|done|lia].
  - apply networks_fork; [done|done|]. apply fork_at_spec; [done|lia].
Qed.

(** The fork after a block that brings the chain to height [h], from a fork [f] that may be
    ahead of the chain: it is kept until the chain has caught up with it. *)
Definition fork_after (f : HardFork) (h : Z) : HardFork :=
  if hf_height (info_for_hf (hf_info cfg) f) <=? h then fork_at cfg h else f.

Lemma current_fork_after v f h : 0 <= h -> current_fork v f h (hf_window cfg) (hf_info cfg) = fork_after f h.
Proof using Hcfg.
  intros Hh. unfold fork_after. destruct (_ <=? h) eqn:E; bsimp; [by apply current_fork_at|].
  destruct Hcfg as [Hi _]. apply networks_by_height in Hi as Hb. pose proof (as_u8_range f).
  destruct (current_fork_n_spec v h (hf_window cfg) (hf_info cfg) NUMB_OF_HARD_FORKS f) as (H1 & H2 & _); [unfold NUMB_OF_HARD_FORKS; lia|].
  fold (current_fork v f h (hf_window cfg) (hf_info cfg)) in H1, H2. set (r := current_fork _ _ _ _ _) in *.
  apply as_u8_inj. destruct (decide (as_u8 r = as_u8 f)) as [|Hne]; [done|]. exfalso.
  specialize (H2 r ltac:(lia)). rewrite activates_by_height in H2 by done. bsimp. destruct Hb as [_ Hm]. specialize (Hm f r H1). lia.
Qed.

Lemma fork_at_mono h h' : 0 <= h <= h' -> as_u8 (fork_at cfg h) <= as_u8 (fork_at cfg h').
Proof using Hcfg.
  intros Hh. apply fork_at_spec; [lia|]. assert (hf_height (info_for_hf (hf_info cfg) (fork_at cfg h)) <= h); [|lia]. apply fork_at_spec; lia.
Qed.

(** A fork between those of the heights [lo] and [hi]. *)
Definition fork_between (lo hi : Z) (f : HardFork) : Prop := as_u8 (fork_at cfg lo) <= as_u8 f <= as_u8 (fork_at cfg hi).

Lemma fork_after_between lo hi f : 0 <= lo <= hi -> fork_between lo hi f -> fork_between (lo + 1) (Z.max hi (lo + 1)) (fork_after f (lo + 1)).
Proof using Hcfg.
  intros Hl [H1 H2]. unfold fork_after, fork_between. pose proof (fork_at_mono (lo + 1) (Z.max hi (lo + 1)) ltac:(lia)).
  destruct (_ <=? _) eqn:E; bsimp; [lia|]. pose proof (fork_at_mono hi (Z.max hi (lo + 1)) ltac:(lia)). split; [|lia].
  apply Z.lt_le_incl, Z.nle_gt. intros Hle. apply fork_at_spec in Hle; lia.
Qed.

Lemma fork_between_eq lo hi f : fork_between lo hi f -> fork_at cfg hi = fork_at cfg lo -> f = fork_at cfg lo.
Proof using Type. intros [H1 H2] He. rewrite He in H2. apply as_u8_inj. lia. Qed.

Lemma fork_at_active h h' : 0 <= h <= h' -> hf_height (info_for_hf (hf_info cfg) (fork_at cfg h)) <= h'.
Proof using Hcfg.
  intros Hh. assert (hf_height (info_for_hf (hf_info cfg) (fork_at cfg h)) <= h); [|lia].
  apply fork_at_spec; lia.
Qed.

Lemma fork_after_fork_at h : 0 <= h -> fork_after (fork_at cfg h) (h + 1) = fork_at cfg (h + 1).
Proof using Hcfg. intros Hh. unfold fork_after. rewrite (proj2 (Z.leb_le _ _)); [reflexivity|]. apply fork_at_active. lia. Qed.

Context {D : Type} `{!Database D} (db : D).

Lemma get_votes_ok a b w blocks : Serves db Main blocks -> 0 <= a -> b <= len blocks ->
  get_votes_in_range db a b w = Ok (window_votes w (slice a b blocks)).
Proof.
  intros Hs Ha Hb. unfold get_votes_in_range. rewrite serves_range by done. cbn [mbind result_bind]. f_equal.
  unfold window_votes, block_votes. generalize (HFVotes_new w). generalize (slice a b blocks).
  intros l. induction l as [|x l IH]; intros v; cbn; [done|]. apply IH.
Qed.

Lemma hf_init_of h blocks :
  1 <= h <= len blocks -> h < 2 ^ 62 -> Serves db Main blocks -> versions_ok cfg blocks ->
  hf_init_from_chain_height h cfg db = Ok (hf_state_of cfg (take (Z.to_nat h) blocks)).
Proof using Hcfg.
  intros Hh Hh62 Hs Hv. pose proof Hcfg as [_ Hw]. unfold hf_init_from_chain_height, saturating_sub.
  rewrite (get_votes_ok _ _ _ blocks) by (done || lia). cbn [mbind result_bind]. rewrite wrap_small by zlia.
  destruct (serves_block (chain := Main) (blocks := blocks) (db := db) (h - 1)) as (hdr & Hb & ->); [done|lia|].
  cbn [mbind result_bind]. unfold check_set_new_hf, hf_state_of.
  cbn [current_hardfork hf_config hf_votes last_height].
  assert (len (take (Z.to_nat h) blocks) = h) as Hl by (unfold len in *; rewrite length_take; lia).
  rewrite Hl, wrap_small by zlia. replace (h - 1 + 1) with h by lia.
  assert (version hdr = fork_at cfg (h - 1)) as Hver.
  { apply Hv in Hb. assert (Z.of_nat (Z.to_nat (h - 1)) = h - 1) as E by lia. rewrite E in Hb. exact Hb. }
  rewrite current_fork_at; [|lia|rewrite Hver; apply fork_at_active; lia].
  rewrite <- (window_votes_slice _ (take (Z.to_nat h) blocks) (Z.max 0 (h - hf_window cfg))) by lia.
  rewrite <- slice_from, Hl. by rewrite slice_prefix by lia.
Qed.

Lemma hf_new_block_of blocks hdr :
  1 <= len blocks < 2 ^ 62 ->
  hf_new_block (hf_state_of cfg blocks) (from_vote (vote hdr)) (len blocks)
    = Ok (hf_state_of cfg (blocks ++ [hdr])).
Proof using Hcfg.
  intros Hl. pose proof Hcfg as [_ Hw]. unfold hf_new_block, check_set_new_hf, hf_state_of.
  cbn [current_hardfork hf_config hf_votes last_height].
  rewrite (wrap_small 64 (len blocks - 1 + 1)) by zlia.
  replace (len blocks - 1 + 1) with (len blocks) by lia. rewrite Z.eqb_refl. cbn [rassert mbind result_bind].
  rewrite len_app. change (len [hdr]) with 1. rewrite wrap_small by zlia.
  rewrite current_fork_at by (lia || (apply fork_at_active; lia)).
  unfold window_votes, block_votes. rewrite map_app, foldl_app. cbn [map foldl].
  by replace (len blocks + 1 - 1) with (len blocks) by lia.
Qed.

End networks.

Lemma versions_ok_take cfg k blocks : versions_ok cfg blocks -> versions_ok cfg (take k blocks).
Proof. intros H i hdr Hi. apply lookup_take_Some in Hi as [Hi _]. by apply H. Qed.

Lemma window_votes_state w blocks : 0 <= w < 2 ^ 62 ->
  votes_inv (window_votes w blocks) /\ window_size (window_votes w blocks) = w /\
  vote_list (window_votes w blocks) = block_votes (drop (Z.to_nat (len blocks - w)) blocks).
Proof.
  intros Hw. destruct (votes_after w (block_votes blocks)) as (H1 & H2 & H3); [lia|].
  split_and!; [done|done|]. unfold window_votes. rewrite H3. unfold block_votes, len.
  rewrite skipn_map, length_map. do 2 f_equal. lia.
Qed.

Lemma total_window_votes w blocks : 0 <= w < 2 ^ 62 -> total_votes (window_votes w blocks) = Z.min w (len blocks).
Proof.
  intros Hw. destruct (window_votes_state w blocks Hw) as (_ & _ & H). unfold total_votes, block_votes in *.
  rewrite H, len_map. unfold len. rewrite length_drop. lia.
Qed.

(** ** Claims *)

(** The hard-fork state follows the chain as it grows: built from the database at any
    height of an accepted chain, or built lower and updated block by block, it holds the
    votes of the window and the fork of the height; popping blocks while the window is
    not yet full gives the state of the shorter chain. *)
Theorem hardfork_state_follows_chain {D} `{!Database D} (db : D) cfg blocks hdr n :
  hf_config_ok cfg -> 1 <= len blocks < 2 ^ 62 -> Serves db Main blocks -> versions_ok cfg blocks ->
  hf_init_from_chain_height (len blocks) cfg db = Ok (hf_state_of cfg blocks) /\
  hf_new_block (hf_state_of cfg blocks) (from_vote (vote hdr)) (len blocks)
    = Ok (hf_state_of cfg (blocks ++ [hdr])) /\
  (len blocks < hf_window cfg -> 0 <= n < len blocks ->
   hf_pop_blocks_main_chain (hf_state_of cfg blocks) n db
     = Ok (hf_state_of cfg (take (Z.to_nat (len blocks - n)) blocks))).
Proof.
  intros Hc Hl Hs Hv. pose proof Hc as [_ Hw]. split_and!.
  - rewrite (hf_init_of cfg Hc db _ blocks) by (done || lia). unfold len. by rewrite Nat2Z.id, firstn_all.
  - by apply hf_new_block_of.
  - intros Hlw Hn. unfold hf_pop_blocks_main_chain, checked_sub.
    cbn [hf_votes hf_config last_height hf_state_of]. rewrite total_window_votes by lia.
    rewrite (proj2 (Z.leb_gt _ _)) by lia. rewrite (wrap_small 64 (len blocks - 1 + 1)) by zlia.
    replace (len blocks - 1 + 1) with (len blocks) by lia. rewrite wrap_small by zlia.
    by rewrite (hf_init_of cfg Hc db _ blocks) by (done || lia).
Qed.

Lemma hardfork_state_follows_chain_witness :
  let blk hf := mk_ext hf 1 0 1 1 1 in
  let cfg := mk_hf_config main_net 5 in
  hf_pop_blocks_main_chain (hf_state_of cfg [blk V1; blk V1; blk V1]) 2 [blk V1; blk V1; blk V1]
    = Ok (hf_state_of cfg [blk V1]).
Proof.
  intros blk cfg.
  assert (versions_ok cfg [blk V1; blk V1; blk V1]) as Hv.
  { intros i hdr Hi. do 3 (destruct i as [|i]; [by injection Hi as <-|]). done. }
  destruct (hardfork_state_follows_chain [blk V1; blk V1; blk V1] cfg [blk V1; blk V1; blk V1] (blk V1) 2)
    as (_ & _ & H).
  - split; [set_solver|vm_compute; intuition congruence].
  - vm_compute. intuition congruence.
  - apply _.
  - done.
  - apply H; vm_compute; intuition congruence.
Defined.

(** Popping [n] blocks from a full window: the fork is left as it is, although the
    chain may now be below its activation height; the votes put back at the front are
    those of the [n] blocks just below the new top, not those below the window; and the
    call panics when [n] is more than the window. *)
Theorem hardfork_pop_full_window {D} `{!Database D} (db : D) cfg blocks n :
  hf_config_ok cfg -> hf_window cfg <= len blocks < 2 ^ 62 -> 0 <= n < len blocks ->
  Serves db Main (take (Z.to_nat (len blocks - n)) blocks) ->
  let h := len blocks in
  let w := hf_window cfg in
  let popped := hf_pop_blocks_main_chain (hf_state_of cfg blocks) n db in
  if n <=? w then
    exists s, popped = Ok s /\ current_hardfork s = fork_at cfg h /\ last_height s = h - n - 1 /\
      vote_list (hf_votes s) =
        block_votes (slice (Z.max (h - w - n) (Z.max 0 (h - 2 * n))) (h - n) blocks)
        ++ block_votes (slice (h - w) (h - n) blocks)
  else popped = Panic.
Proof.
  intros Hc Hl Hn Hs h w popped. pose proof Hc as [_ Hw]. fold w in Hw. subst popped.
  assert (len (take (Z.to_nat (h - n)) blocks) = h - n) as Hlt
    by (unfold h, len in *; rewrite length_take; lia).
  unfold hf_pop_blocks_main_chain, checked_sub. cbn [hf_votes hf_config last_height hf_state_of current_hardfork].
  fold h w. rewrite total_window_votes by (unfold w in *; lia). rewrite Z.min_l, Z.leb_refl, Z.sub_diag by (unfold h in *; lia).
  rewrite (wrap_small 64 (h - 1 + 1)) by (unfold h in *; zlia). replace (h - 1 + 1) with h by lia.
  unfold saturating_sub. rewrite !Z.sub_0_r, !(Z.max_r 0 (h - n)) by (unfold h in *; lia).
  rewrite !(get_votes_ok _ _ _ _ (take (Z.to_nat (h - n)) blocks)) by (done || lia).
  rewrite !slice_prefix by lia. cbn [mbind result_bind].
  set (r := slice _ (h - n) blocks).
  assert (len r = h - n - Z.max 0 (Z.max 0 (h - w) - n)) as Hr
    by (unfold r; rewrite len_slice; unfold h in *; lia).
  destruct (window_votes_state w blocks) as (I1 & W1 & L1); [lia|].
  destruct (window_votes_state n r) as (I2 & W2 & L2); [unfold h in *; lia|].
  assert (len (vote_list (window_votes w blocks)) = w) as Hlv.
  { rewrite L1. unfold block_votes. rewrite len_map. unfold h, len in *. rewrite length_drop. lia. }
  assert (len (vote_list (window_votes n r)) <= n) as Hlo by (destruct I2 as [_ I2]; lia).
  pose proof (len_nonneg (vote_list (window_votes n r))).
  destruct (n <=? w) eqn:E; bsimp.
  - destruct (reverse_blocks_spec (window_votes w blocks) n (window_votes n r)) as (v & -> & Hv1 & Hv2 & Hv3);
      [done|lia|lia|].
    eexists. split; [done|]. cbn [current_hardfork last_height hf_votes]. split_and!; [done| |].
    + rewrite wrap_small by (unfold h in *; zlia). lia.
    + rewrite Hv3, Hlv, L1, L2. unfold block_votes. rewrite firstn_map. fold h. f_equal; f_equal.
      * rewrite Hr. unfold r, slice. rewrite skipn_firstn_comm, drop_drop.
        f_equal; [|f_equal]; unfold h in *; lia.
      * unfold slice. f_equal. unfold h in *. lia.
  - unfold reverse_blocks.
    rewrite (proj2 (Z.leb_le (len (vote_list (window_votes n r))) n)) by lia.
    cbn [rassert mbind result_bind]. rewrite Hlv.
    assert (w -! n = 2 ^ 64 + w - n) as ->.
    { unfold wrap. symmetry. apply (Z.mod_unique _ _ (-1)); [|lia]. left. unfold h in *. zpow. lia. }
    rewrite (proj2 (Z.leb_gt _ _)); [done|]. unfold h in *. zpow. lia.
Qed.

(** A window of two votes: the votes of heights 1 and 2 are expected after the pop, the
    vote of height 2 is there twice. *)
Lemma hardfork_pop_full_window_witness :
  let blk v := mk_ext V1 v 0 1 1 1 in
  let cfg := mk_hf_config main_net 2 in
  let blocks := [blk 1; blk 2; blk 3; blk 4] in
  exists s, hf_pop_blocks_main_chain (hf_state_of cfg blocks) 1 (take 3 blocks) = Ok s /\
    vote_list (hf_votes s) = [V3; V3] /\
    vote_list (hf_votes (hf_state_of cfg (take 3 blocks))) = [V2; V3].
Proof.
  intros blk cfg blocks.
  destruct (hardfork_pop_full_window (take 3 blocks) cfg blocks 1) as (s & H1 & _ & _ & H2).
  - split; [set_solver|vm_compute; intuition congruence].
  - vm_compute. intuition congruence.
  - vm_compute. intuition congruence.
  - apply list_db_serves.
  - exists s. split; [exact H1|]. rewrite H2. done.
Defined.

End HardForkState.
