(* ===== verification/RxVms.v ===== *)
(** * The RandomX VM cache ([src/consensus/context/src/rx_vms.rs])

    The seeds of the last two RandomX epochs, newest first, and the VMs built from them.
    Building a VM from a seed ([RandomXVm::new], of the [randomx_rs] crate) is an
    argument, [new_vm]. *)
From S2P Require Import Prelude Bytes HardForks RulesBase ChainDb.
From Stdlib Require Import ZArith Lia.
From stdpp Require Import base tactics option list numbers sets gmap.
Import HardForks RulesBase ChainDb.

#[local] Open Scope Z_scope.
#[local] Open Scope usize_scope.

Module RxVms.

Definition RX_SEEDS_CACHED : Z := 2.

(** The loop of [get_last_rx_seed_heights]. *)
Fixpoint seed_heights_loop (amount : nat) (last_height : Z) : list Z :=
  match amount with
  | O => []
  | S amount =>
      if last_height =? 0 then []
      else
        let seed_height := Z.land (last_height -! 1) (usize_not (RX_SEEDHASH_EPOCH_BLOCKS -! 1)) in
        seed_height :: seed_heights_loop amount seed_height
  end.

Definition get_last_rx_seed_heights (last_height amount : Z) : list Z :=
  if is_randomx_seed_height last_height then
    last_height :: seed_heights_loop (Z.to_nat (amount -! 1)) last_height
  else seed_heights_loop (Z.to_nat amount) last_height.

Section cache.
Context {Vm : Type} (new_vm : bytes -> option Vm).

Record RandomXVmCache := mk_rx {
  seeds : list (Z * bytes);
  vms : gmap Z Vm;
  cached_vm : option (bytes * Vm);
}.

(** [seeds.par_iter().map(..).collect()]: [RandomXVm::new(seed).expect(..)] for each seed *)
Definition build_vms {E} (seeds : list (Z * bytes)) : result E (gmap Z Vm) :=
  try_fold (fun m '(height, seed) => vm ← unwrap (new_vm seed); Ok (<[height := vm]> m)) ∅ seeds.

Section db.
Context {D : Type} `{!ContextDatabase D}.

Definition get_block_hashes (heights : list Z) (database : D) : CResult (list bytes) :=
  collect (fun height => block_hash database height Main) heights.

Definition rx_init_from_chain_height (chain_height : Z) (hf : HardFork) (database : D)
    : CResult RandomXVmCache :=
  let seed_heights := get_last_rx_seed_heights (chain_height -! 1) RX_SEEDS_CACHED in
  seed_hashes ← get_block_hashes seed_heights database;
  let seeds := zip seed_heights seed_hashes in
  vms ← (if hf_le V12 hf then build_vms seeds else Ok ∅);
  Ok (mk_rx seeds vms None).

Definition get_alt_vm (c : RandomXVmCache) (height : Z) (chain : Chain) (database : D) : CResult Vm :=
  let seed_height := randomx_seed_height height in
  seed_hash ← block_hash database seed_height chain;
  match list_find (fun '(_, vm_seed_hash) => vm_seed_hash = seed_hash) (seeds c) with
  | Some (_, (vm_main_chain_height, _)) =>
      match vms c !! vm_main_chain_height with
      | Some vm => Ok vm
      | None => unwrap (new_vm seed_hash)
      end
  | None => unwrap (new_vm seed_hash)
  end.

Definition rx_pop_blocks_main_chain (c : RandomXVmCache) (new_height : Z) (database : D)
    : CResult RandomXVmCache :=
  let s := filter (fun '(height, _) => height < new_height) (seeds c) in
  let m := filter (fun '(height, _) => height < new_height) (vms c) in
  if len s <? RX_SEEDS_CACHED then
    let heights := get_last_rx_seed_heights new_height RX_SEEDS_CACHED in
    (* [split_at] panics past the end *)
    _ ← rassert (len s <=? len heights);
    let seed_heights := drop (length s) heights in
    seed_hashes ← get_block_hashes seed_heights database;
    Ok (mk_rx (s ++ zip seed_heights seed_hashes) m (cached_vm c))
  else Ok (mk_rx s m (cached_vm c)).
End db.

Definition add_vm (c : RandomXVmCache) (vm : bytes * Vm) : RandomXVmCache :=
  mk_rx (seeds c) (vms c) (Some vm).

(** The VMs, and the cache with the VMs that were missing. *)
Definition get_vms {E} (c : RandomXVmCache) : result E (gmap Z Vm * RandomXVmCache) :=
  c ← match checked_sub (len (seeds c)) (Z.of_nat (size (vms c))) with
      | Some 0 => Ok c
      | Some 1 =>
          '(seed_height, next_seed_hash) ← unwrap (head (seeds c));
          let cached := cached_vm c in
          let c := mk_rx (seeds c) (vms c) None in
          new ← match cached with
                | Some (cached_hash, vm) =>
                    if bool_decide (cached_hash = next_seed_hash) then Ok vm
                    else unwrap (new_vm next_seed_hash)
                | None => unwrap (new_vm next_seed_hash)
                end;
          Ok (mk_rx (seeds c) (<[seed_height := new]> (vms c)) (cached_vm c))
      | _ => m ← build_vms (seeds c); Ok (mk_rx (seeds c) m (cached_vm c))
      end;
  Ok (vms c, c).

Definition rx_new_block (c : RandomXVmCache) (height : Z) (hash : bytes) : RandomXVmCache :=
  if is_randomx_seed_height height then
    let s := (height, hash) :: seeds c in
    if RX_SEEDS_CACHED <? len s then
      let s := take (pred (length s)) s in
      mk_rx s (filter (fun '(h, _) => Exists (fun '(cached_height, _) => h = cached_height) s) (vms c)) (cached_vm c)
    else mk_rx s (vms c) (cached_vm c)
  else c.

End cache.
Arguments RandomXVmCache : clear implicits.
Arguments mk_rx {Vm}.
Arguments seeds {Vm}.
Arguments vms {Vm}.
Arguments cached_vm {Vm}.

(** ** Seed heights *)

(** The heights of the last two epoch starts up to [top], newest first. *)
Definition seed_heights_at (top : Z) : list Z :=
  let t := 2048 * (top / 2048) in t :: (if t =? 0 then [] else [t - 2048]).

Lemma is_seed_iff h : is_randomx_seed_height h = true <-> 2048 * (h / 2048) = h.
Proof. unfold is_randomx_seed_height, RX_SEEDHASH_EPOCH_BLOCKS. rewrite Z.eqb_eq. split; intros; dlia. Qed.

Lemma get_last_rx_seed_heights_eq top :
  is_u 64 top -> get_last_rx_seed_heights top 2 = seed_heights_at top.
Proof.
  intros Ht. unfold get_last_rx_seed_heights, seed_heights_at.
  change (Z.to_nat (2 -! 1)) with 1%nat. change (Z.to_nat 2) with 2%nat. cbn [seed_heights_loop].
  destruct (is_randomx_seed_height top) eqn:E.
  - apply is_seed_iff in E. rewrite E. f_equal. destruct (top =? 0) eqn:E0; bsimp; [done|].
    rewrite wrap_small by zlia. rewrite land_epoch by zlia. f_equal. dlia.
  - assert (2048 * (top / 2048) <> top) by (rewrite <- is_seed_iff, E; done).
    destruct (top =? 0) eqn:E0; bsimp; [subst top; done|]. rewrite (wrap_small 64 (top - 1)) by zlia. rewrite land_epoch by zlia.
    replace ((top - 1) / 2048) with (top / 2048) by dlia. f_equal.
    destruct (2048 * (top / 2048) =? 0) eqn:E1; bsimp; [done|].
    rewrite wrap_small by (unfold is_u in *; dlia). rewrite land_epoch by (unfold is_u in *; zpow; dlia). f_equal. dlia.
Qed.

Lemma seed_heights_NoDup top : NoDup (seed_heights_at top).
Proof.
  unfold seed_heights_at. destruct (_ =? 0); repeat constructor; [set_solver|rewrite list_elem_of_singleton; lia|set_solver].
Qed.

Lemma seed_heights_len top : 0 <= top -> len (seed_heights_at top) = if top <? 2048 then 1 else 2.
Proof. intros Ht. unfold seed_heights_at. destruct (_ =? 0) eqn:E, (top <? 2048) eqn:E2; bsimp; try done; dlia. Qed.

(** The seed of the next block is one of them. *)
Lemma next_seed_cached top : 0 <= top < 2 ^ 63 -> randomx_seed_height (top + 1) ∈ seed_heights_at top.
Proof.
  intros Ht. rewrite randomx_seed_height_eq by zlia. unfold seed_heights_at. rewrite elem_of_cons.
  destruct (top + 1 <=? 2112) eqn:E; bsimp.
  - destruct (2048 * (top / 2048) =? 0) eqn:E0; bsimp; [left; lia|right; apply list_elem_of_singleton; dlia].
  - destruct (2048 * (top / 2048) =? 0) eqn:E0; bsimp; [dlia|]. rewrite list_elem_of_singleton. dlia.
Qed.

(** One block more. *)
Lemma seed_heights_succ top : 0 <= top ->
  seed_heights_at (top + 1) =
    if is_randomx_seed_height (top + 1) then take 2 (top + 1 :: seed_heights_at top) else seed_heights_at top.
Proof.
  intros Ht. destruct (is_randomx_seed_height (top + 1)) eqn:E.
  - apply is_seed_iff in E. unfold seed_heights_at. rewrite E. cbn [take].
    destruct (top + 1 =? 0) eqn:E0; bsimp; [lia|]. do 2 f_equal. dlia.
  - assert (2048 * ((top + 1) / 2048) <> top + 1) by (rewrite <- is_seed_iff, E; done).
    unfold seed_heights_at. by replace ((top + 1) / 2048) with (top / 2048) by dlia.
Qed.

(** ** The cache as a function of the chain *)
Section follows.
Context {Vm : Type} (new_vm : bytes -> option Vm) (mk : bytes -> Vm).
Context (new_vm_mk : forall s, new_vm s = Some (mk s)).

(** [hash h] is the hash of the block at height [h]. *)
Definition seeds_at (hash : Z -> bytes) (top : Z) : list (Z * bytes) :=
  map (fun h => (h, hash h)) (seed_heights_at top).

(** The VMs of some heights. *)
Definition vm_map (hash : Z -> bytes) (hs : list Z) : gmap Z Vm :=
  list_to_map (map (fun h => (h, mk (hash h))) hs).

(** The VMs are built lazily: none, all, or all but the newest. *)
Record rx_ok (hash : Z -> bytes) (top : Z) (c : RandomXVmCache Vm) : Prop := {
  rx_seeds : seeds c = seeds_at hash top;
  rx_vms : vms c = vm_map hash [] \/ vms c = vm_map hash (seed_heights_at top) \/
           vms c = vm_map hash (tail (seed_heights_at top));
  rx_cached : forall s v, cached_vm c = Some (s, v) -> v = mk s;
}.

Lemma vm_map_cons hash h hs : vm_map hash (h :: hs) = <[h := mk (hash h)]> (vm_map hash hs).
Proof using Type. done. Qed.

Lemma vm_map_lookup hash hs h : h ∈ hs -> vm_map hash hs !! h = Some (mk (hash h)).
Proof using Type.
  induction hs as [|x hs IH]; [by rewrite elem_of_nil|]. rewrite elem_of_cons, vm_map_cons. intros Hin.
  destruct (decide (x = h)) as [->|Hne]; [by rewrite lookup_insert_eq|].
  rewrite lookup_insert_ne by done. apply IH. by destruct Hin as [->|].
Qed.

Lemma vm_map_none hash hs h : h ∉ hs -> vm_map hash hs !! h = None.
Proof using Type.
  induction hs as [|x hs IH]; [done|]. rewrite not_elem_of_cons, vm_map_cons. intros [Hne Hin].
  rewrite lookup_insert_ne by done. by apply IH.
Qed.

Lemma vm_map_size hash hs : NoDup hs -> size (vm_map hash hs) = length hs.
Proof using Type.
  induction 1 as [|x hs Hx _ IH]; [apply map_size_empty|]. rewrite vm_map_cons, map_size_insert_None; [by rewrite IH|].
  by apply vm_map_none.
Qed.

Lemma vm_map_filter hash hs (P : Z -> Prop) `{!forall h, Decision (P h)} :
  filter (fun '(h, _) => P h) (vm_map hash hs) = vm_map hash (filter P hs).
Proof using Type.
  induction hs as [|x hs IH]; [done|]. rewrite vm_map_cons, filter_cons. case_decide as HP.
  - rewrite map_filter_insert_True by done. by rewrite IH.
  - rewrite map_filter_insert_not by done. done.
Qed.

Lemma build_vms_fold {E} hash hs (m : gmap Z Vm) :
  try_fold (E := E) (fun m '(height, seed) => vm ← unwrap (new_vm seed); Ok (<[height := vm]> m)) m
    (map (fun h => (h, hash h)) hs)
  = Ok (foldl (fun m h => <[h := mk (hash h)]> m) m hs).
Proof using new_vm_mk.
  revert m. induction hs as [|h hs IH]; intros m; [done|]. cbn [map try_fold]. rewrite new_vm_mk. cbn [unwrap mbind result_bind].
  apply IH.
Qed.

Lemma build_vms_at {E} hash top : build_vms (E := E) new_vm (seeds_at hash top) = Ok (vm_map hash (seed_heights_at top)).
Proof using new_vm_mk.
  unfold build_vms, seeds_at. rewrite build_vms_fold. f_equal. unfold seed_heights_at.
  destruct (_ =? 0) eqn:E0; cbn [foldl]; [done|]. bsimp. rewrite !vm_map_cons. apply insert_insert_ne. lia.
Qed.

Lemma get_vms_ok {E} hash top c :
  0 <= top -> rx_ok hash top c ->
  exists c', get_vms (E := E) new_vm c = Ok (vm_map hash (seed_heights_at top), c') /\ rx_ok hash top c'.
Proof using new_vm_mk.
  intros Ht [Hs Hv Hc]. unfold get_vms.
  assert (len (seeds c) = len (seed_heights_at top)) as Hl by (rewrite Hs; apply len_map).
  pose proof (seed_heights_NoDup top) as Hnd.
  destruct Hv as [Hv|[Hv|Hv]].
  2: { rewrite Hv, Hl, vm_map_size by done. unfold checked_sub, len. rewrite Z.leb_refl, Z.sub_diag. cbn [mbind result_bind].
    exists c. rewrite Hv. split; [done|]. split; auto. }
  1: destruct (decide (2048 * (top / 2048) = 0)) as [E0|E0].
  2: { rewrite Hv. change (size (vm_map hash [])) with 0%nat. rewrite Hl.
    assert (len (seed_heights_at top) = 2) as -> by (unfold seed_heights_at; by rewrite (proj2 (Z.eqb_neq _ _) E0)).
    change (checked_sub 2 (Z.of_nat 0)) with (Some 2). cbv iota. rewrite Hs, build_vms_at. cbn [mbind result_bind].
    eexists. split; [done|]. split; cbn; auto. }
  all: assert (checked_sub (len (seeds c)) (Z.of_nat (size (vms c))) = Some 1) as ->.
  1: { rewrite Hv, Hl. unfold seed_heights_at. rewrite E0. done. }
  2: { rewrite Hv, Hl, vm_map_size by (by inversion Hnd). unfold seed_heights_at. by destruct (_ =? 0). }
  all: rewrite Hs; unfold seeds_at, seed_heights_at; cbn [map head unwrap mbind result_bind];
    set (t := 2048 * (top / 2048)) in *;
    assert (match cached_vm c with
      | Some (cached_hash, vm) => if bool_decide (cached_hash = hash t) then Ok vm else unwrap (new_vm (hash t))
      | None => unwrap (new_vm (hash t)) end = Ok (E := E) (mk (hash t))) as ->
      by (rewrite new_vm_mk; destruct (cached_vm c) as [[s v]|] eqn:Ec; [|done]; case_bool_decide as Eb; [|done];
          subst s; by rewrite (Hc _ _ eq_refl));
    cbn [mbind result_bind vms seeds cached_vm]; rewrite Hv.
  - rewrite E0. cbn [Z.eqb]. eexists. split; [done|]. split; cbn [seeds vms cached_vm]; [| |done].
    + unfold seeds_at, seed_heights_at. fold t. by rewrite E0.
    + right. left. unfold seed_heights_at. fold t. by rewrite E0.
  - eexists. split; [done|]. split; cbn [seeds vms cached_vm]; [done|by right; left|done].
Qed.

Lemma rx_new_block_ok hash top c :
  0 <= top -> rx_ok hash top c -> rx_ok hash (top + 1) (rx_new_block c (top + 1) (hash (top + 1))).
Proof using Type.
  intros Ht [Hs Hv Hc]. unfold rx_new_block. pose proof (seed_heights_succ top Ht) as Hsucc.
  destruct (is_randomx_seed_height (top + 1)) eqn:E; [|split; unfold seeds_at; by rewrite ?Hsucc].
  apply is_seed_iff in E. rewrite Hs. unfold seeds_at in *.
  set (t := 2048 * (top / 2048)) in *. assert (t = top + 1 - 2048) as Et by (unfold t; dlia).
  assert (seed_heights_at top = t :: (if t =? 0 then [] else [t - 2048])) as Hh by done.
  rewrite Hh in *. destruct (t =? 0) eqn:E0; bsimp.
  - cbn [map]. change (RX_SEEDS_CACHED <? len [_; _]) with false. cbv iota. cbn [take] in Hsucc.
    split; cbn [seeds vms cached_vm]; [unfold seeds_at; by rewrite Hsucc| |done].
    rewrite Hsucc. cbn [tail] in *. naive_solver.
  - cbn [map]. change (RX_SEEDS_CACHED <? len [_; _; _]) with true. cbv iota. cbn [length pred take] in *.
    split; cbn [seeds vms cached_vm]; [unfold seeds_at; by rewrite Hsucc| |done].
    set (P := fun h : Z => Exists (fun '(ch, _) => h = ch) [(top + 1, hash (top + 1)); (t, hash t)]).
    assert (forall hs, filter (fun '(h, _) => P h) (vm_map hash hs) = vm_map hash (filter P hs)) as Hf
      by (intros hs; apply vm_map_filter).
    assert (P t) as HP1 by (right; left; done).
    assert (~ P (t - 2048)) as HP2 by (intros [?|[?|?%Exists_nil]%Exists_cons]%Exists_cons; lia).
    rewrite Hsucc. cbn [tail] in *.
    destruct Hv as [Hv|[Hv|Hv]]; rewrite Hv; unfold P in Hf; rewrite Hf; fold P.
    + by left.
    + rewrite filter_cons_True, filter_cons_False by done. right. right. done.
    + rewrite filter_cons_False by done. by left.
Qed.

Context {D : Type} `{!ContextDatabase D}.

(** The database answers with the hashes of the chain up to [top]. *)
Definition serves_hashes (db : D) (hash : Z -> bytes) (top : Z) : Prop :=
  forall h, 0 <= h <= top -> block_hash db h Main = Ok (hash h).

Lemma get_block_hashes_ok db hash top hs :
  serves_hashes db hash top -> Forall (fun h => 0 <= h <= top) hs -> get_block_hashes hs db = Ok (map hash hs).
Proof using Type.
  intros Hs Hh. apply collect_Ok. induction Hh as [|h hs Hh _ IH]; constructor; [by apply Hs|done].
Qed.

Lemma zip_map_r {A B} (f : A -> B) (l : list A) : zip l (map f l) = map (fun x => (x, f x)) l.
Proof using Type. induction l; cbn; [done|]. f_equal. done. Qed.

Lemma seed_heights_range top : 0 <= top -> Forall (fun h => 0 <= h <= top) (seed_heights_at top).
Proof using Type.
  intros Ht. unfold seed_heights_at. destruct (_ =? 0) eqn:E; bsimp; repeat constructor; dlia.
Qed.

Lemma rx_init_ok db hash top hf :
  0 <= top < 2 ^ 63 -> serves_hashes db hash top ->
  exists c, rx_init_from_chain_height new_vm (top + 1) hf db = Ok c /\ rx_ok hash top c.
Proof using new_vm_mk.
  intros Ht Hs. unfold rx_init_from_chain_height. rewrite wrap_small by zlia. replace (top + 1 - 1) with top by lia.
  rewrite get_last_rx_seed_heights_eq by zlia.
  rewrite (get_block_hashes_ok db hash top) by (done || (apply seed_heights_range; lia)). cbn [mbind result_bind].
  rewrite zip_map_r. fold (seeds_at hash top). destruct (hf_le V12 hf).
  - rewrite build_vms_at. cbn [mbind result_bind]. eexists. split; [done|]. split; cbn; auto. done.
  - cbn [mbind result_bind]. eexists. split; [done|]. split; cbn; auto. done.
Qed.

Lemma rx_pop_ok db hash top n (c : RandomXVmCache Vm) :
  0 <= n <= top -> top < 2 ^ 63 -> serves_hashes db hash n -> seeds c = seeds_at hash top ->
  exists c', rx_pop_blocks_main_chain c n db = Ok c' /\
    vms c' = filter (fun '(h, _) => h < n) (vms c) /\
    seeds c' = if bool_decide (0 < n /\ n = 2048 * (top / 2048))
               then [(n - 2048, hash (n - 2048)); (n - 2048, hash (n - 2048))]
               else seeds_at hash n.
Proof using Type.
  intros Hn Ht Hs Hc. unfold rx_pop_blocks_main_chain. rewrite Hc.
  assert (forall l, filter (fun '((h, _) : Z * bytes) => h < n) (map (fun h => (h, hash h)) l) = map (fun h => (h, hash h)) (filter (fun h => h < n) l)) as Hf.
  { intros l. induction l as [|x l IH]; [done|]. cbn [map]. rewrite !filter_cons. repeat case_decide; cbn [map] in *; first [by rewrite IH|done]. }
  rewrite (Hf (seed_heights_at top) : filter _ (seeds_at hash top) = _). set (keep := filter (fun h => h < n) (seed_heights_at top)).
  unfold RX_SEEDS_CACHED. rewrite get_last_rx_seed_heights_eq by zlia.
  pose proof (seed_heights_range n ltac:(lia)) as Hr.
  assert (len (map (fun h => (h, hash h)) keep) = len keep) as Hlk by apply len_map.
  assert (length (map (fun h => (h, hash h)) keep) = length keep) as Hlk' by apply length_map.
  assert (keep = if bool_decide (n = 2048 * (top / 2048)) then tail (seed_heights_at n)
                 else if n / 2048 =? top / 2048 then seed_heights_at n
                 else if (n / 2048 =? top / 2048 - 1) && negb (2048 * (n / 2048) =? n) then [2048 * (n / 2048)] else []) as Hk.
  { subst keep. unfold seed_heights_at. case_bool_decide as E1.
    - rewrite <- E1. replace (2048 * (n / 2048)) with n by dlia. rewrite filter_cons_False by lia.
      destruct (n =? 0) eqn:E0; bsimp; [done|]. by rewrite filter_cons_True by lia.
    - destruct (n / 2048 =? top / 2048) eqn:E2; bsimp.
      + rewrite E2. rewrite filter_cons_True by dlia. destruct (_ =? 0) eqn:E0; [done|].
        by rewrite filter_cons_True by dlia.
      + rewrite filter_cons_False by dlia. destruct (2048 * (top / 2048) =? 0) eqn:E0; bsimp; [dlia|].
        destruct (n / 2048 =? top / 2048 - 1) eqn:E3; cbn [andb]; bsimp.
        * destruct (2048 * (n / 2048) =? n) eqn:E4; cbn [negb]; bsimp.
          -- by rewrite filter_cons_False by dlia.
          -- rewrite filter_cons_True by dlia. cbn. f_equal. dlia.
        * by rewrite filter_cons_False by dlia. }
  clearbody keep.
  assert (exists c', (if len keep <? 2 then
        _ ← rassert (len keep <=? len (seed_heights_at n));
        seed_hashes ← get_block_hashes (drop (length keep) (seed_heights_at n)) db;
        Ok (mk_rx (map (fun h => (h, hash h)) keep ++ zip (drop (length keep) (seed_heights_at n)) seed_hashes)
              (filter (fun '(h, _) => h < n) (vms c)) (cached_vm c))
      else Ok (mk_rx (map (fun h => (h, hash h)) keep) (filter (fun '(h, _) => h < n) (vms c)) (cached_vm c))) = Ok c' /\
      vms c' = filter (fun '(h, _) => h < n) (vms c) /\
      seeds c' = map (fun h => (h, hash h)) (keep ++ if len keep <? 2 then drop (length keep) (seed_heights_at n) else [])) as (c' & Hok & Hv & Hse).
  { destruct (len keep <? 2) eqn:E2; bsimp; [|eexists; split; [done|]; cbn; by rewrite app_nil_r].
    rewrite (proj2 (Z.leb_le _ _)).
    2: { rewrite seed_heights_len by lia. destruct (n <? 2048); lia. }
    cbn [rassert mbind result_bind]. rewrite (get_block_hashes_ok db hash n) by (done || by apply Forall_drop).
    cbn [mbind result_bind]. eexists. split; [done|]. cbn. by rewrite zip_map_r, map_app. }
  exists c'. rewrite Hlk, Hlk'. split_and!; [done|done|]. rewrite Hse, Hk. clear -Hn.
  case_bool_decide as E1; [|rewrite bool_decide_eq_false_2 by tauto].
  - unfold seeds_at, seed_heights_at. rewrite E1. replace (2048 * (2048 * (top / 2048) / 2048)) with (2048 * (top / 2048)) by dlia.
    rewrite <- E1. destruct (n =? 0) eqn:E0; bsimp; cbn.
    + by rewrite bool_decide_eq_false_2 by lia.
    + rewrite bool_decide_eq_true_2 by lia. done.
  - unfold seeds_at. destruct (_ =? _); [|destruct (_ && _)]; unfold seed_heights_at; destruct (_ =? 0); done.
Qed.

(** ** Steps of a growing chain *)

(** A block is added, a VM made elsewhere is handed in, the VMs are asked for. *)
Inductive rx_step (hash : Z -> bytes) : Z * RandomXVmCache Vm -> Z * RandomXVmCache Vm -> Prop :=
  | rx_step_block top c : rx_step hash (top, c) (top + 1, rx_new_block c (top + 1) (hash (top + 1)))
  | rx_step_add top c s : rx_step hash (top, c) (top, add_vm c (s, mk s))
  | rx_step_get top c m c' : get_vms (E := ()) new_vm c = Ok (m, c') -> rx_step hash (top, c) (top, c').

Lemma rx_steps_ok hash a b :
  rtc (rx_step hash) a b -> 0 <= a.1 -> rx_ok hash a.1 a.2 -> 0 <= b.1 /\ rx_ok hash b.1 b.2.
Proof using new_vm_mk.
  induction 1 as [|a b d Hab _ IH]; [done|]. intros Ha Hok. apply IH; destruct Hab; cbn in *; try lia.
  - by apply rx_new_block_ok.
  - destruct Hok as [H1 H2 H3]. split; cbn; auto. congruence.
  - destruct (get_vms_ok (E := ()) hash top c Ha Hok) as (c2 & Hg & Hok2). congruence.
Qed.

(** ** Claims *)

(** While the chain grows the VM the next block needs is always there: after the cache is
    built at some height and any sequence of new blocks, handed-in VMs and requests,
    [get_vms] succeeds and its map holds, under the seed height of the next block, the VM
    of the hash of the block at that height. *)
Theorem rx_vm_for_next_block db hash hf top0 c0 top c :
  0 <= top0 < 2 ^ 63 -> serves_hashes db hash top0 ->
  rx_init_from_chain_height new_vm (top0 + 1) hf db = Ok c0 ->
  rtc (rx_step hash) (top0, c0) (top, c) -> top < 2 ^ 63 ->
  exists m c', get_vms (E := ()) new_vm c = Ok (m, c') /\
    m !! randomx_seed_height (top + 1) = Some (mk (hash (randomx_seed_height (top + 1)))).
Proof using new_vm_mk.
  intros Ht0 Hs Hi Hst Ht. destruct (rx_init_ok db hash top0 hf Ht0 Hs) as (c1 & Hi1 & Hok). rewrite Hi in Hi1. injection Hi1 as <-.
  apply rx_steps_ok in Hst as [Ht' Hok']; [|cbn; lia|done]. cbn in *.
  destruct (get_vms_ok (E := ()) hash top c Ht' Hok') as (c' & Hg & _).
  exists (vm_map hash (seed_heights_at top)), c'. split; [done|]. apply vm_map_lookup, next_seed_cached. lia.
Qed.

(** After blocks are popped it need not be. A cache with the VMs of both seeds that is
    popped back across its newest seed, to a block that is less than the lag above the
    older one, fetches the seed below but [get_vms] then builds the VM of the front seed
    again: the seed of the next block has no VM. *)
Theorem rx_pop_loses_vm db hash top n c :
  4096 <= top < 2 ^ 63 -> serves_hashes db hash n ->
  seeds c = seeds_at hash top -> vms c = vm_map hash (seed_heights_at top) -> rx_ok hash top c ->
  2048 * (top / 2048) - 2048 < n < 2048 * (top / 2048) - 2048 + 64 ->
  exists c' m c'', rx_pop_blocks_main_chain c n db = Ok c' /\ get_vms (E := ()) new_vm c' = Ok (m, c'') /\
    seeds c' = seeds_at hash n /\ m !! randomx_seed_height (n + 1) = None.
Proof using new_vm_mk.
  intros Ht Hs Hsd Hv [_ _ Hcached] Hn. set (t := 2048 * (top / 2048)) in *.
  assert (n / 2048 = top / 2048 - 1) as En by (unfold t in *; dlia).
  assert (t <> 0 /\ t - 2048 <> 0) as [Ht0 Ht1] by (unfold t; dlia).
  assert (0 <= n <= top) as Hnt by (unfold t in *; dlia).
  destruct (rx_pop_ok db hash top n c) as (c' & Hp & Hv' & Hs'); [done|lia|done|done|].
  fold t in Hs'. rewrite bool_decide_eq_false_2 in Hs' by lia.
  assert (seed_heights_at n = [t - 2048; t - 4096]) as Hh.
  { unfold seed_heights_at. rewrite En. rewrite (proj2 (Z.eqb_neq _ 0)) by (unfold t in *; lia). unfold t. f_equal; [lia|f_equal; lia]. }
  assert (seed_heights_at top = [t; t - 2048]) as Ht2.
  { unfold seed_heights_at. fold t. by rewrite (proj2 (Z.eqb_neq _ 0)) by lia. }
  rewrite Hv, Ht2, vm_map_filter, filter_cons_False, filter_cons_True in Hv' by lia.
  assert (vms c' = vm_map hash [t - 2048]) as Hv2 by done.
  unfold seeds_at in Hs'. rewrite Hh in Hs'. cbn [map] in Hs'.
  assert (exists v c'', get_vms (E := ()) new_vm c' = Ok (<[t - 2048 := v]> (vm_map hash [t - 2048]), c'')) as (v & c'' & Hg).
  { unfold get_vms. rewrite Hs', Hv2. change (checked_sub (len [_; _]) (Z.of_nat (size (vm_map hash [t - 2048])))) with (checked_sub 2 (Z.of_nat (size (vm_map hash [t - 2048])))).
    rewrite vm_map_size by (repeat constructor; set_solver). change (checked_sub 2 (Z.of_nat (length [t - 2048]))) with (Some 1).
    cbv iota. cbn [head unwrap mbind result_bind].
    rewrite new_vm_mk. destruct (cached_vm c') as [[s w]|]; [case_bool_decide|]; cbn; eauto. }
  exists c', (<[t - 2048 := v]> (vm_map hash [t - 2048])), c''. split_and!; [done|done| |].
  - unfold seeds_at. by rewrite Hh, Hs'.
  - rewrite randomx_seed_height_eq by zlia.
    destruct (n + 1 <=? 2112) eqn:E; bsimp.
    + rewrite lookup_insert_ne by lia. apply vm_map_none. rewrite list_elem_of_singleton. lia.
    + replace (2048 * ((n + 1 - 65) / 2048)) with (t - 4096) by (unfold t in *; dlia).
      rewrite lookup_insert_ne by lia. apply vm_map_none. rewrite list_elem_of_singleton. lia.
Qed.

(** What popping does to the seeds: they are those of the new top, unless the new top is
    itself the newest cached seed, in which case that seed is dropped and the one below it
    is there twice. *)
Theorem rx_pop_seeds db hash top n (c : RandomXVmCache Vm) :
  0 <= n <= top -> top < 2 ^ 63 -> serves_hashes db hash n -> seeds c = seeds_at hash top ->
  exists c', rx_pop_blocks_main_chain c n db = Ok c' /\
    seeds c' = if bool_decide (0 < n /\ n = 2048 * (top / 2048))
               then [(n - 2048, hash (n - 2048)); (n - 2048, hash (n - 2048))]
               else seeds_at hash n.
Proof using Type.
  intros Hn Ht Hs Hc. destruct (rx_pop_ok db hash top n c Hn Ht Hs Hc) as (c' & H1 & _ & H2). by exists c'.
Qed.

End follows.

(** ** Witnesses: the hash of a block is its height, a VM is its seed *)
Module TestRx.
Definition hash (h : Z) : bytes := [h].
#[local] Instance db : ContextDatabase () := {|
  block_hash _ h _ := Ok (hash h);
  generated_coins _ _ := Ok 0;
  chain_height _ := Ok (1, hash 0);
  find_block _ _ := Ok None;
|}.
Definition full (top : Z) : RandomXVmCache bytes := mk_rx (seeds_at hash top) (vm_map id hash (seed_heights_at top)) None.
End TestRx.

Lemma rx_vm_for_next_block_witness :
  exists m c', get_vms (E := ()) Some (rx_new_block (mk_rx [(0, [0])] {[0 := [0]]} None) 2048 [2048]) = Ok (m, c') /\
    m !! 0 = Some [0].
Proof.
  apply (rx_vm_for_next_block Some id (fun _ => eq_refl) (ContextDatabase0 := TestRx.db) () TestRx.hash V16 2047
    (mk_rx [(0, [0])] {[0 := [0]]} None) 2048).
  - done.
  - done.
  - by vm_compute.
  - apply rtc_once. apply (rx_step_block Some id TestRx.hash 2047).
  - done.
Defined.

Lemma rx_pop_loses_vm_witness :
  exists c' m c'', rx_pop_blocks_main_chain (D := ()) (ContextDatabase0 := TestRx.db) (TestRx.full 5000) 2050 () = Ok c' /\
    get_vms (E := ()) Some c' = Ok (m, c'') /\ seeds c' = [(2048, [2048]); (0, [0])] /\ m !! 0 = None.
Proof.
  apply (rx_pop_loses_vm Some id (fun _ => eq_refl) (ContextDatabase0 := TestRx.db) () TestRx.hash 5000 2050 (TestRx.full 5000)).
  - done.
  - done.
  - done.
  - done.
  - split; [done|right; left; done|done].
  - done.
Defined.

Lemma rx_pop_seeds_witness :
  exists c', rx_pop_blocks_main_chain (D := ()) (ContextDatabase0 := TestRx.db) (TestRx.full 5000) 4096 () = Ok c' /\
    seeds c' = [(2048, [2048]); (2048, [2048])].
Proof. apply (rx_pop_seeds (ContextDatabase0 := TestRx.db) () TestRx.hash 5000 4096 (TestRx.full 5000)); done. Defined.

End RxVms.
