(* ===== verification/Context.v ===== *)
(** * The blockchain context ([src/consensus/context/src]: [task.rs], [alt_chains.rs] and
    [BlockchainContext] of [lib.rs])

    The context task owns the difficulty, weight, hard-fork and RandomX caches and the
    caches of alternative chains, handles one request at a time, and publishes the
    context that the block and transaction rules are checked against. The database is
    asked anew by every request, so it is an argument of [handle_req]. *)
From S2P Require Import Prelude Bytes HardForks Median ChainDb Difficulty RulesBase TxData BlockRules Weights HardForkState RxVms.
From Stdlib Require Import ZArith Lia String.
From stdpp Require Import base tactics option list numbers sorting sets gmap.
Import HardForks Median ChainDb Difficulty RulesBase Weights HardForkState RxVms.

#[local] Open Scope Z_scope.
#[local] Open Scope usize_scope.

Module Context.

Definition BLOCKCHAIN_TIMESTAMP_CHECK_WINDOW : Z := 60.

Record ContextConfig := mk_context_config {
  hard_fork_cfg : HardForkConfig;
  difficulty_cfg : DifficultyCacheConfig;
  weights_config : BlockWeightsCacheConfig;
}.

Definition context_main_net : ContextConfig := mk_context_config config_main_net Difficulty.main_net weights_main_net.
Definition context_stage_net : ContextConfig := mk_context_config config_stage_net Difficulty.main_net weights_main_net.
Definition context_test_net : ContextConfig := mk_context_config config_test_net Difficulty.main_net weights_main_net.

(** ** The published context *)
Record BlockchainContext := mk_blockchain_context {
  ctx_cumulative_difficulty : Z;
  context_to_verify_block : BlockRules.ContextToVerifyBlock;
  ctx_median_long_term_weight : Z;
  ctx_top_block_timestamp : option Z;
}.

Definition current_adjusted_timestamp_for_time_lock (c : BlockchainContext) (now : Z) : result () Z :=
  let v := context_to_verify_block c in
  if hf_lt (BlockRules.current_hf v) V13 then Ok now
  else
    match BlockRules.median_block_timestamp v with
    | None => Ok now
    | Some median =>
        let block_time := block_time (BlockRules.current_hf v) in
        let adjusted_median := median +! ((BLOCKCHAIN_TIMESTAMP_CHECK_WINDOW +! 1) *! block_time) / 2 in
        top ← unwrap (ctx_top_block_timestamp c);
        let adjusted_top_block := top +! block_time in
        Ok (Z.min adjusted_median adjusted_top_block)
    end.

Definition next_block_long_term_weight (c : BlockchainContext) (block_weight : Z) : Z :=
  calculate_block_long_term_weight (BlockRules.current_hf (context_to_verify_block c)) block_weight
    (ctx_median_long_term_weight c).

Definition blockchain_context (weight_cache : BlockWeightsCache) (difficulty_cache : DifficultyCache)
    (current_hf : HardFork) (top_hash : bytes) (chain_height already_generated_coins : Z)
    : result () BlockchainContext :=
  median_weight_for_block_reward ← median_for_block_reward weight_cache current_hf;
  effective_median_weight ← effective_median_block_weight weight_cache current_hf;
  median_block_timestamp ← median_timestamp difficulty_cache BLOCKCHAIN_TIMESTAMP_CHECK_WINDOW;
  next_difficulty ← cache_next_difficulty difficulty_cache current_hf;
  median_long_term ← median_long_term_weight weight_cache;
  Ok (mk_blockchain_context (cache_cumulative_difficulty difficulty_cache)
        (BlockRules.mk_context median_weight_for_block_reward effective_median_weight top_hash
           median_block_timestamp chain_height current_hf next_difficulty already_generated_coins)
        median_long_term (top_block_timestamp difficulty_cache)).

(** ** Alternative chains *)
Section alt.
Context {Vm : Type}.

Record AltChainContextCache := mk_alt_cache {
  alt_weight_cache : option BlockWeightsCache;
  alt_difficulty_cache : option DifficultyCache;
  cached_rx_vm : option (Z * Vm);
  alt_chain_height : Z;
  alt_top_hash : bytes;
  chain_id : option Z;
  parent_chain : Chain;
}.

Definition add_new_block (c : AltChainContextCache) (height : Z) (block_hash : bytes)
    (block_weight long_term_block_weight timestamp cumulative_difficulty : Z) : result () AltChainContextCache :=
  d ← match alt_difficulty_cache c with
      | Some d => d ← new_block d height timestamp cumulative_difficulty; Ok (Some d)
      | None => Ok None
      end;
  w ← match alt_weight_cache c with
      | Some w => w ← weights_new_block w height block_weight long_term_block_weight; Ok (Some w)
      | None => Ok None
      end;
  Ok (mk_alt_cache w d (cached_rx_vm c) (alt_chain_height c +! 1) block_hash (chain_id c) (parent_chain c)).

Abbreviation AltChainMap := (gmap bytes AltChainContextCache).

Definition add_alt_cache (m : AltChainMap) (alt_cache : AltChainContextCache) : AltChainMap :=
  <[alt_top_hash alt_cache := alt_cache]> m.

Section db.
Context {D : Type} `{!Database D, !ContextDatabase D}.

Definition previous_id_incorrect : ContextCacheError := ConErr "The blocks previous ID is incorrect.".

(** Takes the cache out of the map. *)
Definition get_alt_chain_context (m : AltChainMap) (prev_id : bytes) (database : D)
    : CResult AltChainContextCache * AltChainMap :=
  match m !! prev_id with
  | Some cache => (Ok cache, delete prev_id m)
  | None =>
      (res ← find_block database prev_id;
       '(parent_chain, top_height) ← ok_or res previous_id_incorrect;
       Ok (mk_alt_cache None None None (top_height +! 1) prev_id None parent_chain), m)
  end.

Definition get_alt_chain_difficulty_cache (prev_id : bytes) (main_chain_difficulty_cache : DifficultyCache)
    (database : D) : CResult DifficultyCache :=
  res ← find_block database prev_id;
  '(chain, top_height) ← ok_or res previous_id_incorrect;
  match chain with
  | Main =>
      let difficulty_cache := main_chain_difficulty_cache in
      pop_blocks_main_chain difficulty_cache (last_accounted_height difficulty_cache -! top_height) database
  | Alt _ => init_from_chain_height (top_height +! 1) (config main_chain_difficulty_cache) database chain
  end.

Definition get_alt_chain_weight_cache (prev_id : bytes) (main_chain_weight_cache : BlockWeightsCache)
    (database : D) : CResult BlockWeightsCache :=
  res ← find_block database prev_id;
  '(chain, top_height) ← ok_or res previous_id_incorrect;
  match chain with
  | Main =>
      let weight_cache := main_chain_weight_cache in
      weights_pop_blocks_main_chain weight_cache (tip_height weight_cache -! top_height) database
  | Alt _ => weights_init_from_chain_height (top_height +! 1) (wconfig main_chain_weight_cache) database chain
  end.
End db.
End alt.
Arguments AltChainContextCache : clear implicits.

(** ** The task *)
Section task.
Context {Vm : Type} (new_vm : bytes -> option Vm).

Record ContextTask := mk_task {
  context_cache : BlockchainContext;
  difficulty_cache : DifficultyCache;
  weight_cache : BlockWeightsCache;
  rx_vm_cache : RandomXVmCache Vm;
  hardfork_state : HardForkState;
  alt_chain_cache_map : gmap bytes (AltChainContextCache Vm);
  task_chain_height : Z;
  top_block_hash : bytes;
  task_generated_coins : Z;
}.

Record NewBlockData := mk_new_block_data {
  new_block_hash : bytes;
  new_height : Z;
  new_timestamp : Z;
  new_weight : Z;
  new_long_term_weight : Z;
  new_generated_coins : Z;
  new_vote : HardFork;
  new_cumulative_difficulty : Z;
}.

Inductive BlockChainContextRequest :=
  | CurrentRxVms
  | BatchGetDifficulties (blocks : list (Z * HardFork))
  | NewRXVM (vm : bytes * Vm)
  | Update (new : NewBlockData)
  | PopBlocks (numb_blocks : Z)
  | ClearAltCache
  | AltChainContextCacheReq (prev_id : bytes)
  | AltChainDifficultyCacheReq (prev_id : bytes)
  | AltChainWeightCacheReq (prev_id : bytes)
  | AltChainRxVMReq (height : Z) (chain : Chain)
  | AddAltChainContextCache (cache : AltChainContextCache Vm)
  (** [HardForkInfo], [FeeEstimate], [AltChains] and [CalculatePow], which are [todo!()] *)
  | TodoReq.

Inductive BlockChainContextResponse :=
  | RxVms (vms : gmap Z Vm)
  | BatchDifficulties (ds : list Z)
  | ResponseOk
  | AltChainContextCacheRes (c : AltChainContextCache Vm)
  | AltChainDifficultyCacheRes (c : DifficultyCache)
  | AltChainWeightCacheRes (c : BlockWeightsCache)
  | AltChainRxVMRes (vm : Vm).

Section db.
Context {D : Type} `{!Database D, !ContextDatabase D}.

Definition init_context (cfg : ContextConfig) (database : D) : CResult ContextTask :=
  '(ch, top) ← chain_height database;
  coins ← generated_coins database (ch -! 1);
  hf ← hf_init_from_chain_height ch (hard_fork_cfg cfg) database;
  d ← init_from_chain_height ch (difficulty_cfg cfg) database Main;
  w ← weights_init_from_chain_height ch (weights_config cfg) database Main;
  ctx ← lift (blockchain_context w d (current_hardfork hf) top ch coins);
  rx ← rx_init_from_chain_height new_vm ch (current_hardfork hf) database;
  Ok (mk_task ctx d w rx hf ∅ ch top coins).

Definition update_blockchain_context (t : ContextTask) : CResult ContextTask :=
  context ← lift (blockchain_context (weight_cache t) (difficulty_cache t) (current_hardfork (hardfork_state t))
                    (top_block_hash t) (task_chain_height t) (task_generated_coins t));
  Ok (mk_task context (difficulty_cache t) (weight_cache t) (rx_vm_cache t) (hardfork_state t)
        (alt_chain_cache_map t) (task_chain_height t) (top_block_hash t) (task_generated_coins t)).

Definition handle_update (t : ContextTask) (new : NewBlockData) : CResult ContextTask :=
  d ← lift (new_block (difficulty_cache t) (new_height new) (new_timestamp new) (new_cumulative_difficulty new));
  w ← lift (weights_new_block (weight_cache t) (new_height new) (new_weight new) (new_long_term_weight new));
  hf ← lift (hf_new_block (hardfork_state t) (new_vote new) (new_height new));
  let rx := rx_new_block (rx_vm_cache t) (new_height new) (new_block_hash new) in
  update_blockchain_context
    (mk_task (context_cache t) d w rx hf (alt_chain_cache_map t) (new_height new +! 1) (new_block_hash new)
       (saturating_add 64 (task_generated_coins t) (new_generated_coins new))).

(** Runs the steps of [PopBlocks] that can fail; when one fails the caches popped before
    it stay popped. *)
Definition or_fail {A} (r : CResult A) (t : ContextTask) (k : A -> CResult BlockChainContextResponse * ContextTask)
    : CResult BlockChainContextResponse * ContextTask :=
  match r with Ok a => k a | Err e => (Err e, t) | Panic => (Panic, t) end.

Definition handle_pop_blocks (t : ContextTask) (numb_blocks : Z) (database : D)
    : CResult BlockChainContextResponse * ContextTask :=
  or_fail (rassert (numb_blocks <? task_chain_height t)) t (fun _ =>
  or_fail (pop_blocks_main_chain (difficulty_cache t) numb_blocks database) t (fun d =>
  let t := mk_task (context_cache t) d (weight_cache t) (rx_vm_cache t) (hardfork_state t)
             (alt_chain_cache_map t) (task_chain_height t) (top_block_hash t) (task_generated_coins t) in
  or_fail (weights_pop_blocks_main_chain (weight_cache t) numb_blocks database) t (fun w =>
  let t := mk_task (context_cache t) (difficulty_cache t) w (rx_vm_cache t) (hardfork_state t)
             (alt_chain_cache_map t) (task_chain_height t) (top_block_hash t) (task_generated_coins t) in
  or_fail (rx_pop_blocks_main_chain (rx_vm_cache t) (task_chain_height t -! numb_blocks -! 1) database) t (fun rx =>
  let t := mk_task (context_cache t) (difficulty_cache t) (weight_cache t) rx (hardfork_state t)
             (alt_chain_cache_map t) (task_chain_height t) (top_block_hash t) (task_generated_coins t) in
  or_fail (hf_pop_blocks_main_chain (hardfork_state t) numb_blocks database) t (fun hf =>
  let t := mk_task (context_cache t) (difficulty_cache t) (weight_cache t) (rx_vm_cache t) hf
             ∅ (task_chain_height t -! numb_blocks) (top_block_hash t) (task_generated_coins t) in
  or_fail (generated_coins database (task_chain_height t -! 1)) t (fun coins =>
  or_fail (block_hash database (task_chain_height t -! 1) Main) t (fun top =>
  let t := mk_task (context_cache t) (difficulty_cache t) (weight_cache t) (rx_vm_cache t) (hardfork_state t)
             (alt_chain_cache_map t) (task_chain_height t) top coins in
  or_fail (update_blockchain_context t) t (fun t => (Ok ResponseOk, t))))))))).

Definition handle_req (t : ContextTask) (req : BlockChainContextRequest) (database : D)
    : CResult BlockChainContextResponse * ContextTask :=
  match req with
  | CurrentRxVms =>
      or_fail (get_vms new_vm (rx_vm_cache t)) t (fun '(m, rx) =>
      (Ok (RxVms m), mk_task (context_cache t) (difficulty_cache t) (weight_cache t) rx (hardfork_state t)
         (alt_chain_cache_map t) (task_chain_height t) (top_block_hash t) (task_generated_coins t)))
  | BatchGetDifficulties blocks =>
      or_fail (lift (next_difficulties (difficulty_cache t) blocks (current_hardfork (hardfork_state t)))) t
        (fun next_diffs => (Ok (BatchDifficulties next_diffs), t))
  | NewRXVM vm =>
      (Ok ResponseOk, mk_task (context_cache t) (difficulty_cache t) (weight_cache t)
         (add_vm (rx_vm_cache t) vm) (hardfork_state t) (alt_chain_cache_map t) (task_chain_height t)
         (top_block_hash t) (task_generated_coins t))
  | Update new => or_fail (handle_update t new) t (fun t => (Ok ResponseOk, t))
  | PopBlocks numb_blocks => handle_pop_blocks t numb_blocks database
  | ClearAltCache =>
      (Ok ResponseOk, mk_task (context_cache t) (difficulty_cache t) (weight_cache t) (rx_vm_cache t)
         (hardfork_state t) ∅ (task_chain_height t) (top_block_hash t) (task_generated_coins t))
  | AltChainContextCacheReq prev_id =>
      let '(r, m) := get_alt_chain_context (alt_chain_cache_map t) prev_id database in
      let t := mk_task (context_cache t) (difficulty_cache t) (weight_cache t) (rx_vm_cache t)
         (hardfork_state t) m (task_chain_height t) (top_block_hash t) (task_generated_coins t) in
      or_fail r t (fun c => (Ok (AltChainContextCacheRes c), t))
  | AltChainDifficultyCacheReq prev_id =>
      or_fail (get_alt_chain_difficulty_cache prev_id (difficulty_cache t) database) t
        (fun c => (Ok (AltChainDifficultyCacheRes c), t))
  | AltChainWeightCacheReq prev_id =>
      or_fail (get_alt_chain_weight_cache prev_id (weight_cache t) database) t
        (fun c => (Ok (AltChainWeightCacheRes c), t))
  | AltChainRxVMReq height chain =>
      or_fail (get_alt_vm new_vm (rx_vm_cache t) height chain database) t
        (fun vm => (Ok (AltChainRxVMRes vm), t))
  | AddAltChainContextCache cache =>
      (Ok ResponseOk, mk_task (context_cache t) (difficulty_cache t) (weight_cache t) (rx_vm_cache t)
         (hardfork_state t) (add_alt_cache (alt_chain_cache_map t) cache) (task_chain_height t)
         (top_block_hash t) (task_generated_coins t))
  | TodoReq => (Panic, t)
  end.

End db.
End task.
Arguments ContextTask : clear implicits.
Arguments BlockChainContextRequest : clear implicits.
Arguments BlockChainContextResponse : clear implicits.

(** ** The context can always be computed *)
Lemma median_total l : l <> [] -> len l < 2 ^ 63 -> exists m, median l = Ok m.
Proof.
  intros Hne Hl. assert (1 <= len l) as H1 by (destruct l; [done|unfold len; cbn; lia]).
  assert (forall i, 0 <= i < len l -> exists v, index l i = Ok v) as Hi.
  { intros i Hi. eexists. by apply index_nth. }
  unfold median. destruct (len l =? 1) eqn:E1; bsimp; [apply Hi; lia|].
  destruct (len l mod 2 =? 0) eqn:E2; bsimp; [|apply Hi; dlia].
  rewrite wrap_small by (unfold is_u; zpow; dlia).
  destruct (Hi (len l / 2 - 1)) as [a ->]; [dlia|]. destruct (Hi (len l / 2)) as [b ->]; [dlia|]. by eexists.
Qed.

Lemma sort_ne l : l <> [] -> sort_unstable l <> [] /\ len (sort_unstable l) = len l.
Proof.
  intros Hne. assert (length (sort_unstable l) = length l) as Hl by (by rewrite sort_perm). split; [|unfold len; lia].
  intros E. rewrite E in Hl. by destruct l.
Qed.

Definition difficulty_config_ok (cfg : DifficultyCacheConfig) : Prop :=
  config_ok cfg /\ 0 <= cut cfg /\ 2 <= window cfg - 2 * cut cfg.

Lemma next_difficulty_total cfg ts cds hf :
  difficulty_config_ok cfg -> len cds = len ts -> len ts < 2 ^ 63 -> exists d, next_difficulty cfg ts cds hf = Ok d.
Proof.
  intros ((Hw & Hlag & Htot) & Hcut & Hacc) Hl Hlt. unfold next_difficulty.
  destruct (fixed_difficulty cfg); [by eexists|]. destruct (len ts <=? 1) eqn:E1; bsimp; [by eexists|].
  set (ts' := if window cfg <? len ts then take (Z.to_nat (window cfg)) ts else ts).
  assert (len ts' = Z.min (window cfg) (len ts)) as Hl'.
  { unfold ts'. destruct (_ <? _) eqn:E; bsimp; [unfold len in *; rewrite length_take; lia|lia]. }
  destruct (get_window_ok cfg (len ts')) as (Hg & H0 & Hse); [lia..|]. rewrite Hg.
  destruct (cut_window cfg (len ts')) as [s e]. cbn [fst snd] in *. rewrite (wrap_small 64 (e - 1)) by zlia.
  assert (ts' <> []) as Hne by (intros E; rewrite E in Hl'; change (len []) with 0 in Hl'; lia).
  destruct (sort_ne ts' Hne) as [_ Hsl]. unfold select_nth_unstable.
  rewrite !index_nth by lia. cbn [mbind result_bind]. by eexists.
Qed.

Lemma cache_lens cfg blocks :
  len (cumulative_difficulties (cache_of cfg blocks)) = len (timestamps (cache_of cfg blocks)) /\
  len (timestamps (cache_of cfg blocks)) <= len blocks.
Proof. cbn. rewrite !len_map. split; [done|]. unfold len. rewrite length_drop. lia. Qed.

Lemma median_timestamp_total cfg blocks n :
  len blocks < 2 ^ 62 -> 1 <= n -> 1 <= len blocks -> exists m, median_timestamp (cache_of cfg blocks) n = Ok m.
Proof.
  intros Hl Hn Hl1. unfold median_timestamp. set (c := cache_of cfg blocks).
  assert (len (timestamps c) <= len blocks) as Hlt by apply cache_lens. destruct (_ =? n).
  - destruct (sort_ne (0 :: timestamps c)) as [Hne Hlen]; [done|].
    destruct (median_total _ Hne) as [m ->]; [|by eexists]. rewrite Hlen. change (len (0 :: ?l)) with (len ([0] ++ l)).
    rewrite len_app. change (len [0]) with 1. zlia.
  - unfold checked_sub. destruct (n <=? _) eqn:E; bsimp; [|by eexists].
    assert (len (drop (Z.to_nat (len (timestamps c) - n)) (timestamps c)) = n) as Hd
      by (unfold len in *; rewrite length_drop; lia).
    destruct (sort_ne (drop (Z.to_nat (len (timestamps c) - n)) (timestamps c))) as [Hne Hlen].
    { intros E'. rewrite E' in Hd. change (len []) with 0 in Hd. lia. }
    destruct (median_total _ Hne) as [m ->]; [lia|by eexists].
Qed.

Lemma rm_of_total (f : ExtendedBlockHeader -> Z) w blocks :
  1 <= w -> 1 <= len blocks < 2 ^ 62 -> exists m, rm_median (rm_of (map f (lastn w blocks)) w) = Ok m.
Proof.
  intros Hw Hl. unfold rm_median, rm_of. cbn [sorted_window].
  assert (len (map f (lastn w blocks)) = Z.min w (len blocks)) as Hlen by (rewrite len_map, len_lastn by lia; done).
  destruct (sort_ne (map f (lastn w blocks))) as [Hne Hls].
  { intros E. rewrite E in Hlen. change (len []) with 0 in Hlen. lia. }
  apply median_total; [done|lia].
Qed.

Lemma blockchain_context_total wcfg dcfg blocks hf top h coins :
  weights_config_ok wcfg -> difficulty_config_ok dcfg -> 1 <= len blocks < 2 ^ 62 ->
  exists ctx, blockchain_context (weights_of wcfg blocks) (cache_of dcfg blocks) hf top h coins = Ok ctx.
Proof.
  intros [Hw1 Hw2] Hd Hl. unfold blockchain_context, median_for_block_reward, effective_median_block_weight,
    median_short_term_weight, median_long_term_weight.
  destruct (rm_of_total block_weight (short_term_window wcfg) blocks) as [s Hs]; [lia|lia|].
  destruct (rm_of_total long_term_weight (long_term_window wcfg) blocks) as [l Hlw]; [lia|lia|].
  cbn [short_term_block_weights long_term_weights weights_of]. rewrite Hs, Hlw. cbn [mbind result_bind].
  destruct (median_timestamp_total dcfg blocks BLOCKCHAIN_TIMESTAMP_CHECK_WINDOW) as [m Hm]; [lia|done|lia|].
  destruct (cache_lens dcfg blocks) as [Hc1 Hc2].
  destruct (next_difficulty_total dcfg (timestamps (cache_of dcfg blocks)) (cumulative_difficulties (cache_of dcfg blocks)) hf)
    as [d Hd']; [done|done|zlia|].
  assert (cache_next_difficulty (cache_of dcfg blocks) hf = Ok d) as Hd2 by exact Hd'.
  rewrite Hm, Hd2. destruct (hf_lt hf V12); cbn [mbind result_bind]; by eexists.
Qed.

(** ** The task as a function of the chain *)
Record ChainBlock := mk_chain_block { cb_header : ExtendedBlockHeader; cb_hash : bytes; cb_coins : Z }.

Definition headers (blocks : list ChainBlock) : list ExtendedBlockHeader := map cb_header blocks.

(** The coins generated up to the top of a chain. *)
Definition coins_after (blocks : list ChainBlock) : Z :=
  foldl (fun a b => saturating_add 64 a (cb_coins b)) 0 blocks.

Definition top_hash_of (blocks : list ChainBlock) : bytes := default [] (cb_hash <$> last blocks).

(** The database answers with the data of the chain. *)
Class ServesContext {D} `{!Database D, !ContextDatabase D} (db : D) (blocks : list ChainBlock) : Prop := {
  sc_headers :: Serves db Main (headers blocks);
  sc_hash : forall h b, 0 <= h -> blocks !! Z.to_nat h = Some b -> block_hash db h Main = Ok (cb_hash b);
  sc_coins : forall h, 0 <= h < len blocks -> generated_coins db h = Ok (coins_after (take (Z.to_nat (h + 1)) blocks));
  sc_height : chain_height db = Ok (len blocks, top_hash_of blocks);
}.

Definition new_data (blocks : list ChainBlock) (b : ChainBlock) : NewBlockData :=
  mk_new_block_data (cb_hash b) (len blocks) (timestamp (cb_header b)) (block_weight (cb_header b))
    (long_term_weight (cb_header b)) (cb_coins b) (from_vote (vote (cb_header b)))
    (ChainDb.cumulative_difficulty (cb_header b)).

Definition context_config_ok (cfg : ContextConfig) : Prop :=
  hf_config_ok (hard_fork_cfg cfg) /\ difficulty_config_ok (difficulty_cfg cfg) /\ weights_config_ok (weights_config cfg).

Section follows.
Context {Vm : Type} (new_vm : bytes -> option Vm) (mk : bytes -> Vm).
Context (new_vm_mk : forall s, new_vm s = Some (mk s)).
Context {D : Type} `{!Database D, !ContextDatabase D}.
Context (cfg : ContextConfig) (Hcfg : context_config_ok cfg).

Definition chain_ok (blocks : list ChainBlock) : Prop :=
  1 <= len blocks < 2 ^ 62 /\ versions_ok (hard_fork_cfg cfg) (headers blocks).

Lemma len_headers blocks : len (headers blocks) = len blocks.
Proof using Type. apply len_map. Qed.

Lemma headers_take k blocks : headers (take k blocks) = take k (headers blocks).
Proof using Type. unfold headers. by rewrite firstn_map. Qed.

(** What the task knows of the chain, with [f] for the active fork. The votes are left open
    (after a pop they are not those of the window), as are the RandomX cache and the
    alternative chains. *)
Record task_ok_at (f : HardFork) (blocks : list ChainBlock) (t : ContextTask Vm) : Prop := {
  ok_difficulty : difficulty_cache t = cache_of (difficulty_cfg cfg) (headers blocks);
  ok_weights : weight_cache t = weights_of (weights_config cfg) (headers blocks);
  ok_fork : current_hardfork (hardfork_state t) = f;
  ok_hf_config : hf_config (hardfork_state t) = hard_fork_cfg cfg;
  ok_hf_height : last_height (hardfork_state t) = len blocks - 1;
  ok_votes : votes_inv (hf_votes (hardfork_state t)) /\ window_size (hf_votes (hardfork_state t)) = hf_window (hard_fork_cfg cfg);
  ok_height : task_chain_height t = len blocks;
  ok_top : top_block_hash t = top_hash_of blocks;
  ok_coins : task_generated_coins t = coins_after blocks;
  ok_context : blockchain_context (weight_cache t) (difficulty_cache t) (current_hardfork (hardfork_state t))
                 (top_block_hash t) (task_chain_height t) (task_generated_coins t) = Ok (context_cache t);
}.

(** The fork is that of the chain's height. *)
Definition task_ok (blocks : list ChainBlock) (t : ContextTask Vm) : Prop :=
  task_ok_at (fork_at (hard_fork_cfg cfg) (len blocks)) blocks t.

(** The context published for a chain when [f] is the active fork. *)
Definition context_with (f : HardFork) (blocks : list ChainBlock) : result () BlockchainContext :=
  blockchain_context (weights_of (weights_config cfg) (headers blocks)) (cache_of (difficulty_cfg cfg) (headers blocks))
    f (top_hash_of blocks) (len blocks) (coins_after blocks).

(** The context published for a chain. *)
Definition context_of (blocks : list ChainBlock) : result () BlockchainContext :=
  context_with (fork_at (hard_fork_cfg cfg) (len blocks)) blocks.

Lemma task_context_with f blocks t : task_ok_at f blocks t -> context_with f blocks = Ok (context_cache t).
Proof using Type. intros [H1 H2 H3 _ _ _ H4 H5 H6 H7]. unfold context_with. rewrite <- H1, <- H2, <- H3, <- H5, <- H6. by rewrite H4 in H7. Qed.

Lemma task_ok_context blocks t : task_ok blocks t -> context_of blocks = Ok (context_cache t).
Proof using Type. unfold task_ok, context_of. intros H. exact (task_context_with _ _ _ H). Qed.

Lemma context_with_total f blocks : 1 <= len blocks < 2 ^ 62 -> exists ctx, context_with f blocks = Ok ctx.
Proof using Hcfg.
  intros Hl. destruct Hcfg as (_ & Hd & Hw). apply blockchain_context_total; [done|done|by rewrite len_headers].
Qed.

Lemma update_context_ok f blocks t ctx :
  context_with f blocks = Ok ctx ->
  difficulty_cache t = cache_of (difficulty_cfg cfg) (headers blocks) ->
  weight_cache t = weights_of (weights_config cfg) (headers blocks) ->
  current_hardfork (hardfork_state t) = f ->
  hf_config (hardfork_state t) = hard_fork_cfg cfg -> last_height (hardfork_state t) = len blocks - 1 ->
  votes_inv (hf_votes (hardfork_state t)) /\ window_size (hf_votes (hardfork_state t)) = hf_window (hard_fork_cfg cfg) ->
  task_chain_height t = len blocks -> top_block_hash t = top_hash_of blocks -> task_generated_coins t = coins_after blocks ->
  exists t', update_blockchain_context t = Ok t' /\ task_ok_at f blocks t'.
Proof using Type.
  intros Hctx H1 H2 H3 H4 H5 H6 H7 H8 H9. unfold update_blockchain_context.
  rewrite H1, H2, H3, H7, H8, H9. unfold context_with in Hctx. rewrite Hctx. cbn [lift mbind result_bind].
  eexists. split; [done|]. split; cbn; try done. by rewrite H3.
Qed.

Lemma context_update_at f blocks b t db :
  1 <= len blocks -> len blocks + 1 < 2 ^ 62 -> task_ok_at f blocks t ->
  exists t', handle_req (D := D) new_vm t (Update (new_data blocks b)) db = (Ok ResponseOk, t') /\
    task_ok_at (fork_after (hard_fork_cfg cfg) f (len blocks + 1)) (blocks ++ [b]) t'.
Proof using Hcfg.
  intros Hl Hl' Ht. pose proof Ht as [H1 H2 H3 H4 H5 H6 H7 H8 H9 _]. pose proof Hcfg as (Hh & [Hd _] & Hw).
  remember (fork_after (hard_fork_cfg cfg) f (len blocks + 1)) as f' eqn:Hf'.
  cbn [handle_req]. unfold handle_update, new_data. cbn [new_height new_timestamp new_weight new_long_term_weight new_vote
    new_cumulative_difficulty new_block_hash new_generated_coins].
  assert (1 <= len (headers blocks) < 2 ^ 63) as Hlh by (rewrite len_headers; zlia).
  rewrite H1, H2, <- (len_headers blocks). rewrite new_block_cache_of by done. cbn [lift mbind result_bind].
  rewrite weights_new_block_of by done. cbn [lift mbind result_bind].
  assert (headers (blocks ++ [b]) = headers blocks ++ [cb_header b]) as Ha by (unfold headers; by rewrite map_app).
  assert (len (blocks ++ [b]) = len blocks + 1) as Hla by (rewrite len_app; done).
  assert (exists s, hf_new_block (hardfork_state t) (from_vote (vote (cb_header b))) (len (headers blocks)) = Ok s /\
    current_hardfork s = f' /\ hf_config s = hard_fork_cfg cfg /\
    last_height s = len blocks /\ votes_inv (hf_votes s) /\ window_size (hf_votes s) = hf_window (hard_fork_cfg cfg)) as (s & -> & S1 & S2 & S3 & S4).
  { rewrite len_headers. unfold hf_new_block. rewrite H5. rewrite wrap_small by zlia. replace (len blocks - 1 + 1) with (len blocks) by lia.
    rewrite Z.eqb_refl. cbn [rassert mbind result_bind]. eexists. split; [done|].
    unfold check_set_new_hf. cbn [current_hardfork hf_config hf_votes last_height]. rewrite wrap_small by zlia.
    rewrite H3, H4. destruct H6 as [Hi Hws]. destruct (add_vote_spec _ (from_vote (vote (cb_header b))) Hi) as (Hi' & Hws' & _).
    split; [rewrite Hf'; apply current_fork_after; [exact Hh|lia]|].
    split; [reflexivity|]. split; [reflexivity|]. split; [exact Hi'|congruence]. }
  cbn [lift mbind result_bind].
  destruct (context_with_total f' (blocks ++ [b])) as [ctx Hctx]; [lia|].
  match goal with |- context [update_blockchain_context ?t'] =>
    destruct (update_context_ok _ (blocks ++ [b]) t' ctx Hctx) as (t2 & -> & Hok2) end; cbn [difficulty_cache weight_cache
    hardfork_state task_chain_height top_block_hash task_generated_coins].
  - by rewrite Ha.
  - by rewrite Ha.
  - exact S1.
  - exact S2.
  - rewrite S3, Hla. lia.
  - exact S4.
  - rewrite len_headers, wrap_small by zlia. lia.
  - unfold top_hash_of. by rewrite last_snoc.
  - rewrite H9. unfold coins_after. by rewrite foldl_app.
  - exists t2. split; [reflexivity|exact Hok2].
Qed.

Lemma context_update blocks b t db :
  chain_ok blocks -> len blocks + 1 < 2 ^ 62 -> task_ok blocks t ->
  exists t', handle_req (D := D) new_vm t (Update (new_data blocks b)) db = (Ok ResponseOk, t') /\ task_ok (blocks ++ [b]) t'.
Proof using Hcfg.
  intros [Hl _] Hl' Ht. destruct (context_update_at _ blocks b t db ltac:(lia) Hl' Ht) as (t' & Hr & Hok). exists t'. split; [exact Hr|].
  pose proof Hcfg as (Hh & _). rewrite (fork_after_fork_at _ Hh) in Hok by lia. unfold task_ok. rewrite len_app. exact Hok.
Qed.

(** The pops after which the fork is that of the height for certain: not below an activation
    height, not more than the window of votes. *)
Definition pop_ok (blocks : list ChainBlock) (n : Z) : Prop :=
  0 <= n < len blocks /\ n <= hf_window (hard_fork_cfg cfg) /\
  fork_at (hard_fork_cfg cfg) (len blocks - n) = fork_at (hard_fork_cfg cfg) (len blocks).

(** The pops the hard-fork state survives: at most the window of votes, unless it is not
    full, when the state is built again from the database. *)
Definition can_pop (s : HardForkState) (n : Z) : bool :=
  (n <=? hf_window (hard_fork_cfg cfg)) || (total_votes (hf_votes s) <? hf_window (hard_fork_cfg cfg)).

Lemma versions_take k blocks : versions_ok (hard_fork_cfg cfg) (headers blocks) ->
  versions_ok (hard_fork_cfg cfg) (headers (take k blocks)).
Proof using Type. intros H. rewrite headers_take. by apply versions_ok_take. Qed.

Lemma len_take {A} (l : list A) k : 0 <= k <= len l -> len (take (Z.to_nat k) l) = k.
Proof using Type. intros H. unfold len in *. rewrite length_take. lia. Qed.

(** The hard-fork state keeps its fork, or is built again with that of the height. *)
Lemma hf_pop_keeps blocks n s db :
  chain_ok blocks -> 0 <= n < len blocks -> ServesContext db (take (Z.to_nat (len blocks - n)) blocks) ->
  hf_config s = hard_fork_cfg cfg -> last_height s = len blocks - 1 ->
  votes_inv (hf_votes s) -> window_size (hf_votes s) = hf_window (hard_fork_cfg cfg) ->
  if can_pop s n then
    exists s', hf_pop_blocks_main_chain (D := D) s n db = Ok s' /\
      (current_hardfork s' = current_hardfork s \/ current_hardfork s' = fork_at (hard_fork_cfg cfg) (len blocks - n)) /\
      hf_config s' = hard_fork_cfg cfg /\ last_height s' = len blocks - n - 1 /\
      votes_inv (hf_votes s') /\ window_size (hf_votes s') = hf_window (hard_fork_cfg cfg)
  else hf_pop_blocks_main_chain (D := D) s n db = Panic.
Proof using Hcfg.
  intros [Hl Hv] Hn Hs H2 H3 H4 H5. pose proof Hcfg as (Hh & _). pose proof Hh as [_ Hw].
  unfold can_pop, hf_pop_blocks_main_chain. rewrite H2, H3. rewrite (wrap_small 64 (len blocks - 1 + 1)) by zlia.
  replace (len blocks - 1 + 1) with (len blocks) by lia. set (w := hf_window (hard_fork_cfg cfg)) in *.
  set (short := take (Z.to_nat (len blocks - n)) blocks) in *.
  assert (len short = len blocks - n) as Hls by (apply len_take; lia).
  assert (len (headers short) = len blocks - n) as Hlh by (by rewrite len_headers).
  unfold checked_sub. destruct (w <=? total_votes (hf_votes s)) eqn:E; bsimp.
  - assert (total_votes (hf_votes s) = w) as Htv by (destruct H4 as [_ H4]; rewrite H5 in H4; unfold total_votes in *; lia).
    rewrite Htv. rewrite Z.sub_diag. unfold saturating_sub. rewrite !Z.sub_0_r, Z.ltb_irrefl, orb_false_r.
    rewrite !(get_votes_ok db _ _ _ (headers short)) by (apply _ || lia). cbn [mbind result_bind].
    set (r := slice _ _ (headers short)).
    destruct (window_votes_state n r) as (I2 & W2 & L2); [lia|].
    assert (0 <= len (vote_list (window_votes n r)) <= n) as Hlo by (destruct I2 as [_ I2]; pose proof (len_nonneg (vote_list (window_votes n r))); lia).
    unfold total_votes in Htv. destruct (n <=? w) eqn:En; bsimp.
    + destruct (reverse_blocks_spec (hf_votes s) n (window_votes n r)) as (v & -> & Hv1 & Hv2 & Hv3); [exact H4|exact Hlo|lia|].
      eexists. split; [reflexivity|]. cbn [current_hardfork hf_config last_height hf_votes].
      split; [by left|]. split; [reflexivity|]. split; [rewrite wrap_small by zlia; lia|]. split; [exact Hv1|congruence].
    + unfold reverse_blocks. rewrite (proj2 (Z.leb_le (len (vote_list (window_votes n r))) n)) by lia.
      cbn [rassert mbind result_bind]. rewrite Htv.
      assert (w -! n = 2 ^ 64 + w - n) as ->.
      { unfold wrap. symmetry. apply (Z.mod_unique _ _ (-1)); [|lia]. left. zpow. lia. }
      rewrite (proj2 (Z.leb_gt _ _)); [done|]. zpow. lia.
  - rewrite (proj2 (Z.ltb_lt _ _)), orb_true_r by lia. rewrite wrap_small by zlia.
    rewrite (hf_init_of (hard_fork_cfg cfg) Hh db (len blocks - n) (headers short)); [|lia|lia|apply _|by apply versions_take].
    eexists. split; [reflexivity|]. unfold hf_state_of. cbn [current_hardfork hf_config last_height hf_votes].
    rewrite len_take by lia. split; [by right|]. split; [reflexivity|]. split; [lia|].
    destruct (window_votes_state w (take (Z.to_nat (len blocks - n)) (headers short))) as (I1 & W1 & _); [lia|]. split; [exact I1|exact W1].
Qed.

(** Popping the RandomX cache never fails. *)
Lemma rx_pop_total blocks (c : RandomXVmCache Vm) n (db : D) :
  ServesContext db blocks -> 0 <= n < len blocks -> n < 2 ^ 63 -> exists c', rx_pop_blocks_main_chain c n db = Ok c'.
Proof using Type.
  intros Hs Hn Hn63. unfold rx_pop_blocks_main_chain. destruct (_ <? RX_SEEDS_CACHED) eqn:E; [|by eexists]. bsimp.
  unfold RX_SEEDS_CACHED in *. rewrite get_last_rx_seed_heights_eq by zlia.
  rewrite (proj2 (Z.leb_le _ _)) by (rewrite seed_heights_len by lia; destruct (n <? 2048); lia). cbn [rassert mbind result_bind].
  pose proof (seed_heights_range n ltac:(lia)) as Hr.
  assert (serves_hashes db (fun h => default [] (cb_hash <$> blocks !! Z.to_nat h)) n) as Hsh.
  { intros h Hh. destruct (lookup_lt_is_Some_2 blocks (Z.to_nat h)) as [b Hb]; [unfold len in *; lia|].
    rewrite (sc_hash (blocks := blocks) h b) by (done || lia). by rewrite Hb. }
  erewrite get_block_hashes_ok; [|exact Hsh|by apply Forall_drop]. cbn [mbind result_bind]. by eexists.
Qed.

Lemma context_pop_at f blocks n t db :
  chain_ok blocks -> 0 <= n < len blocks -> ServesContext db (take (Z.to_nat (len blocks - n)) blocks) -> task_ok_at f blocks t ->
  if can_pop (hardfork_state t) n then
    exists t' f', handle_req (D := D) new_vm t (PopBlocks n) db = (Ok ResponseOk, t') /\
      (f' = f \/ f' = fork_at (hard_fork_cfg cfg) (len blocks - n)) /\
      task_ok_at f' (take (Z.to_nat (len blocks - n)) blocks) t'
  else exists t', handle_req (D := D) new_vm t (PopBlocks n) db = (Panic, t').
Proof using Hcfg.
  intros Hch Hn Hs Ht. pose proof Ht as [H1 H2 H3 H4 H5 [H6 H6'] H7 H8 H9 _]. pose proof Hcfg as (Hh & [Hd Hd'] & Hw).
  pose proof Hch as [Hl Hv].
  pose proof (hf_pop_keeps blocks n (hardfork_state t) db Hch Hn Hs H4 H5 H6 H6') as Hpop. rewrite H3 in Hpop.
  set (short := take (Z.to_nat (len blocks - n)) blocks) in *.
  assert (len short = len blocks - n) as Hls by (apply len_take; lia).
  assert (headers short = take (Z.to_nat (len (headers blocks) - n)) (headers blocks)) as Hhs
    by (unfold short; rewrite headers_take, len_headers; done).
  assert (Serves db Main (take (Z.to_nat (len (headers blocks) - n)) (headers blocks))) as Hsv
    by (rewrite <- Hhs; apply _).
  cbn [handle_req]. unfold handle_pop_blocks. rewrite H7, (proj2 (Z.ltb_lt _ _)) by lia. cbn [rassert or_fail].
  rewrite H1. rewrite pop_blocks_cache_of; [|done|rewrite len_headers; zlia|rewrite len_headers; lia|done]. cbn [or_fail].
  cbn [weight_cache rx_vm_cache hardfork_state task_chain_height context_cache difficulty_cache alt_chain_cache_map top_block_hash task_generated_coins].
  rewrite H2. rewrite (weights_pop_blocks_of db _ Hw); [|rewrite len_headers; lia|rewrite len_headers; lia|done]. cbn [or_fail].
  cbn [weight_cache rx_vm_cache hardfork_state task_chain_height context_cache difficulty_cache alt_chain_cache_map top_block_hash task_generated_coins].
  rewrite ?H7. rewrite ?(wrap_small 64 (len blocks - n)) by zlia. rewrite ?(wrap_small 64 (len blocks - n - 1)) by zlia.
  destruct (rx_pop_total short (rx_vm_cache t) (len blocks - n - 1) db Hs) as [rx ->]; [lia|zlia|]. cbn [or_fail].
  cbn [weight_cache rx_vm_cache hardfork_state task_chain_height context_cache difficulty_cache alt_chain_cache_map top_block_hash task_generated_coins].
  destruct (can_pop (hardfork_state t) n); [|rewrite Hpop; cbn [or_fail]; by eexists].
  destruct Hpop as (s & Hpop & S1 & S2 & S3 & S4 & S5). rewrite Hpop. cbn [or_fail].
  cbn [weight_cache rx_vm_cache hardfork_state task_chain_height context_cache difficulty_cache alt_chain_cache_map top_block_hash task_generated_coins].
  rewrite ?H7. rewrite ?(wrap_small 64 (len blocks - n)) by zlia. rewrite ?(wrap_small 64 (len blocks - n - 1)) by zlia.
  rewrite (sc_coins (blocks := short) (len blocks - n - 1)) by lia. cbn [or_fail].
  destruct (lookup_lt_is_Some_2 short (Z.to_nat (len blocks - n - 1))) as [b Hb]; [unfold len in *; lia|].
  rewrite (sc_hash (blocks := short) _ b) by (done || lia). cbn [or_fail].
  destruct (context_with_total (current_hardfork s) short) as [ctx Hctx]; [lia|].
  match goal with |- context [update_blockchain_context ?t'] =>
    destruct (update_context_ok _ short t' ctx Hctx) as (t2 & -> & Hok2) end; cbn [difficulty_cache weight_cache
    hardfork_state task_chain_height top_block_hash task_generated_coins].
  - by rewrite Hhs.
  - by rewrite Hhs.
  - reflexivity.
  - exact S2.
  - rewrite S3, Hls. reflexivity.
  - split; [exact S4|exact S5].
  - by rewrite Hls.
  - unfold top_hash_of. rewrite last_lookup. replace (pred (length short)) with (Z.to_nat (len blocks - n - 1)) by (unfold len in *; lia).
    by rewrite Hb.
  - rewrite take_ge; [done|]. unfold len in *. lia.
  - exists t2, (current_hardfork s). split; [reflexivity|]. split; [exact S1|exact Hok2].
Qed.

Lemma context_pop blocks n t db :
  chain_ok blocks -> pop_ok blocks n -> ServesContext db (take (Z.to_nat (len blocks - n)) blocks) -> task_ok blocks t ->
  exists t', handle_req (D := D) new_vm t (PopBlocks n) db = (Ok ResponseOk, t') /\
    task_ok (take (Z.to_nat (len blocks - n)) blocks) t'.
Proof using Hcfg.
  intros Hch (Hn & Hnw & Hf) Hs Ht. pose proof (context_pop_at _ blocks n t db Hch Hn Hs Ht) as H.
  unfold can_pop in H. rewrite (proj2 (Z.leb_le _ _)) in H by done. cbn [orb] in H. destruct H as (t' & f' & Hr & Hf' & Hok).
  exists t'. split; [exact Hr|]. unfold task_ok. rewrite len_take by lia. rewrite <- Hf in Hf'. destruct Hf' as [-> | ->]; exact Hok.
Qed.

Lemma context_init blocks (db : D) :
  chain_ok blocks -> ServesContext db blocks ->
  exists t, init_context new_vm cfg db = Ok t /\ task_ok blocks t.
Proof using Hcfg new_vm_mk.
  intros [Hl Hv] Hs. pose proof Hcfg as (Hh & [Hd Hd'] & Hw). unfold init_context.
  rewrite (sc_height (blocks := blocks)). cbn [mbind result_bind]. rewrite wrap_small by zlia.
  rewrite (sc_coins (blocks := blocks)) by lia. cbn [mbind result_bind].
  rewrite (hf_init_of (hard_fork_cfg cfg) Hh db (len blocks) (headers blocks)); [|rewrite len_headers; lia|lia|apply _|done].
  assert (forall A (l : list A), take (Z.to_nat (len l)) l = l) as Htake by (intros; unfold len; by rewrite Nat2Z.id, firstn_all).
  assert (take (Z.to_nat (len blocks)) (headers blocks) = headers blocks) as Hth by (rewrite <- (len_headers blocks); apply Htake).
  rewrite Hth. cbn [mbind result_bind].
  rewrite (init_cache_of db (difficulty_cfg cfg) (len blocks) Main (headers blocks)); [|done|rewrite len_headers; lia|zlia|apply _].
  rewrite Hth. cbn [mbind result_bind].
  rewrite (weights_init_of db _ Hw (len blocks) Main (headers blocks)); [|rewrite len_headers; lia|lia|apply _].
  rewrite Hth. cbn [mbind result_bind].
  replace (Z.to_nat (len blocks - 1 + 1)) with (Z.to_nat (len blocks)) by lia. rewrite Htake.
  change (current_hardfork (hf_state_of (hard_fork_cfg cfg) (headers blocks))) with (fork_at (hard_fork_cfg cfg) (len (headers blocks))).
  rewrite len_headers. destruct (context_with_total (fork_at (hard_fork_cfg cfg) (len blocks)) blocks Hl) as [ctx Hctx]. unfold context_with in Hctx. rewrite Hctx. cbn [lift mbind result_bind].
  assert (serves_hashes db (fun h => default [] (cb_hash <$> blocks !! Z.to_nat h)) (len blocks - 1)) as Hsh.
  { intros h Hh'. destruct (lookup_lt_is_Some_2 blocks (Z.to_nat h)) as [b Hb]; [unfold len in *; lia|].
    rewrite (sc_hash (blocks := blocks) h b) by (done || lia). by rewrite Hb. }
  destruct (rx_init_ok new_vm mk new_vm_mk db _ (len blocks - 1) (fork_at (hard_fork_cfg cfg) (len blocks)) ltac:(zlia) Hsh) as (rx & Hrx & _).
  replace (len blocks - 1 + 1) with (len blocks) in Hrx by lia. rewrite Hrx. cbn [mbind result_bind].
  eexists. split; [reflexivity|]. destruct (window_votes_state (hf_window (hard_fork_cfg cfg)) (headers blocks)) as (I1 & W1 & _).
  { destruct Hh as [_ Hw']. lia. }
  split; cbn [difficulty_cache weight_cache hardfork_state task_chain_height top_block_hash task_generated_coins context_cache
    current_hardfork hf_config last_height hf_votes hf_state_of].
  - reflexivity.
  - reflexivity.
  - rewrite len_headers. reflexivity.
  - reflexivity.
  - rewrite len_headers. reflexivity.
  - split; [exact I1|exact W1].
  - reflexivity.
  - reflexivity.
  - reflexivity.
  - rewrite len_headers. exact Hctx.
Qed.

(** ** Histories of requests *)

(** The chain, the greatest height it has had, and the task. A block with the version of its
    height is reported, any number of blocks is popped (the database then has the shorter
    chain) without the task ending in a panic, or any other request is handled. *)
Inductive context_step : list ChainBlock * Z * ContextTask Vm -> list ChainBlock * Z * ContextTask Vm -> Prop :=
  | step_new blocks peak t b db r t' :
      len blocks + 1 < 2 ^ 62 -> version (cb_header b) = fork_at (hard_fork_cfg cfg) (len blocks) ->
      handle_req (D := D) new_vm t (Update (new_data blocks b)) db = (r, t') ->
      context_step (blocks, peak, t) (blocks ++ [b], Z.max peak (len blocks + 1), t')
  | step_pop blocks peak t n db r t' :
      0 <= n -> ServesContext db (take (Z.to_nat (len blocks - n)) blocks) ->
      handle_req (D := D) new_vm t (PopBlocks n) db = (r, t') -> r <> Panic ->
      context_step (blocks, peak, t) (take (Z.to_nat (len blocks - n)) blocks, peak, t')
  | step_other blocks peak t req db r t' :
      (forall new, req <> Update new) -> (forall n, req <> PopBlocks n) ->
      handle_req (D := D) new_vm t req db = (r, t') ->
      context_step (blocks, peak, t) (blocks, peak, t').

Lemma chain_ok_snoc blocks b :
  chain_ok blocks -> len blocks + 1 < 2 ^ 62 -> version (cb_header b) = fork_at (hard_fork_cfg cfg) (len blocks) ->
  chain_ok (blocks ++ [b]).
Proof using Type.
  intros [Hl Hv] Hl' Hb. split; [rewrite len_app; change (len [b]) with 1; lia|].
  intros i hdr Hi. unfold headers in Hi. rewrite map_app in Hi. apply lookup_app_Some in Hi as [Hi|[Hge Hi]]; [by apply Hv|].
  rewrite length_map in Hge, Hi. cbn [map] in Hi. apply list_lookup_singleton_Some in Hi as [Hi <-].
  rewrite Hb. unfold len. by replace i with (length blocks) by lia.
Qed.

Lemma chain_ok_take blocks n : chain_ok blocks -> 0 <= n < len blocks -> chain_ok (take (Z.to_nat (len blocks - n)) blocks).
Proof using Type. intros [Hl Hv] Hn. split; [rewrite len_take by lia; lia|by apply versions_take]. Qed.

(** The other requests leave what the task knows of the chain alone. *)
Lemma other_keeps_at f blocks t req db r t' :
  (forall new, req <> Update new) -> (forall n, req <> PopBlocks n) ->
  handle_req (D := D) new_vm t req db = (r, t') -> task_ok_at f blocks t -> task_ok_at f blocks t'.
Proof using Type.
  intros Hu Hp H [H1 H2 H3 H4 H5 H6 H7 H8 H9 H10].
  destruct req; try (by exfalso; eapply Hu); try (by exfalso; eapply Hp); cbn [handle_req] in H.
  all: try (destruct (get_alt_chain_context _ _ _) as [ra m]).
  all: unfold or_fail in H; repeat case_match; simplify_eq/=; split; (assumption || reflexivity).
Qed.

Lemma other_keeps blocks t req db r t' :
  (forall new, req <> Update new) -> (forall n, req <> PopBlocks n) ->
  handle_req (D := D) new_vm t req db = (r, t') -> task_ok blocks t -> task_ok blocks t'.
Proof using Type. unfold task_ok. intros Hu Hp H Ht. exact (other_keeps_at _ blocks t req db r t' Hu Hp H Ht). Qed.

(** The task knows the chain; its fork is that of the height or of one the chain has had. *)
Definition follows (st : list ChainBlock * Z * ContextTask Vm) : Prop :=
  let '(blocks, peak, t) := st in
  chain_ok blocks /\ len blocks <= peak /\
  exists f, fork_between (hard_fork_cfg cfg) (len blocks) peak f /\ task_ok_at f blocks t.

(** More blocks than there are: the task's assertion. *)
Lemma context_pop_too_many f blocks n t db :
  task_ok_at f blocks t -> len blocks <= n -> handle_req (D := D) new_vm t (PopBlocks n) db = (Panic, t).
Proof using Type.
  intros Ht Hn. cbn [handle_req]. unfold handle_pop_blocks. rewrite (ok_height _ _ _ Ht), (proj2 (Z.ltb_ge _ _)) by lia. done.
Qed.

Lemma context_step_follows a b : context_step a b -> follows a -> follows b.
Proof using Hcfg.
  pose proof Hcfg as (Hh & _).
  intros [blocks peak t nb db r t' Hl Hb Hr|blocks peak t n db r t' Hn Hs Hr Hnp|blocks peak t req db r t' Hu Hp Hr] (Hch & Hpk & f & Hf & Hok).
  - destruct (context_update_at f blocks nb t db) as (t2 & Hr2 & Hok2); [apply Hch|done|done|]. rewrite Hr in Hr2. injection Hr2 as _ ->.
    pose proof (len_nonneg blocks). unfold follows. rewrite len_app. change (len [nb]) with 1.
    split; [by apply chain_ok_snoc|]. split; [lia|]. eexists. split; [|exact Hok2]. apply fork_after_between; [exact Hh|lia|exact Hf].
  - destruct (decide (len blocks <= n)) as [Hge|Hlt]; [rewrite (context_pop_too_many f blocks) in Hr by done; congruence|].
    pose proof (context_pop_at f blocks n t db Hch ltac:(lia) Hs Hok) as H.
    destruct (can_pop (hardfork_state t) n); [|destruct H as [t2 H]; rewrite Hr in H; congruence].
    destruct H as (t2 & f' & Hr2 & Hf' & Hok2). rewrite Hr in Hr2. injection Hr2 as _ ->. unfold follows.
    split; [apply chain_ok_take; [done|lia]|]. rewrite len_take by lia. split; [lia|]. exists f'. split; [|exact Hok2].
    pose proof (fork_at_mono _ Hh (len blocks - n) (len blocks) ltac:(lia)). pose proof (fork_at_mono _ Hh (len blocks - n) peak ltac:(lia)).
    unfold fork_between in *. destruct Hf' as [-> | ->]; lia.
  - split; [done|]. split; [done|]. exists f. split; [done|]. by eapply other_keeps_at.
Qed.

Lemma context_steps_follow a b : rtc context_step a b -> follows a -> follows b.
Proof using Hcfg. induction 1 as [|a b d Hab _ IH]; [done|]. intros Ha. by apply IH, (context_step_follows a). Qed.

Lemma init_follows blocks (db : D) :
  chain_ok blocks -> ServesContext db blocks ->
  exists t, init_context new_vm cfg db = Ok t /\ follows (blocks, len blocks, t).
Proof using Hcfg new_vm_mk.
  intros Hch Hs. destruct (context_init blocks db Hch Hs) as (t & Hi & Hok). exists t. split; [done|]. split; [done|]. split; [done|].
  eexists. split; [|exact Hok]. unfold fork_between. lia.
Qed.

(** ** Claims *)

(** C1. The published context follows the chain. A context task starts on a chain and handles
    any sequence of requests: new blocks with the version of their height, pops of any
    number of blocks that do not end the task, and every other request, failing ones
    included. Then it publishes the context of a task started afresh on the resulting
    chain in everything but the hard fork, which may be ahead: it lies between the fork of
    the chain's height and that of the greatest height the chain has had, because a pop
    from a full window of votes leaves the fork as it is. So the context is exactly the
    fresh one whenever these two forks are the same. The task takes the next block; it
    takes the next pop if it is of fewer blocks than there are and of at most the window
    of votes (or the window is not full), and panics on every other pop. *)
Theorem context_follows_chain blocks0 (db0 : D) t0 blocks peak t (db : D) :
  chain_ok blocks0 -> ServesContext db0 blocks0 -> init_context new_vm cfg db0 = Ok t0 ->
  rtc context_step (blocks0, len blocks0, t0) (blocks, peak, t) -> ServesContext db blocks ->
  (exists fresh f, init_context new_vm cfg db = Ok fresh /\
     fork_between (hard_fork_cfg cfg) (len blocks) peak f /\
     blockchain_context (weight_cache fresh) (difficulty_cache fresh) f
       (top_block_hash fresh) (task_chain_height fresh) (task_generated_coins fresh) = Ok (context_cache t) /\
     (fork_at (hard_fork_cfg cfg) peak = fork_at (hard_fork_cfg cfg) (len blocks) -> context_cache t = context_cache fresh)) /\
  (forall b db', len blocks + 1 < 2 ^ 62 ->
     exists t', handle_req (D := D) new_vm t (Update (new_data blocks b)) db' = (Ok ResponseOk, t')) /\
  (forall n db', 0 <= n -> ServesContext db' (take (Z.to_nat (len blocks - n)) blocks) ->
     exists t', handle_req (D := D) new_vm t (PopBlocks n) db' =
       (if (n <? len blocks) && can_pop (hardfork_state t) n then Ok ResponseOk else Panic, t')).
Proof using Hcfg new_vm_mk.
  intros Hch Hs0 Hi Hst Hs. destruct (init_follows blocks0 db0 Hch Hs0) as (t1 & Hi1 & Hok). rewrite Hi in Hi1. injection Hi1 as <-.
  apply context_steps_follow in Hst as (Hch' & Hpk & f & Hf & Hok'); [|done]. split_and!.
  - destruct (context_init blocks db Hch' Hs) as (fresh & Hfr & Hokf). exists fresh, f. split; [done|]. split; [done|].
    pose proof (task_context_with _ _ _ Hok') as Hc. pose proof (task_context_with _ _ _ Hokf) as Hcf. split.
    + destruct Hokf as [-> -> _ _ _ _ -> -> -> _]. exact Hc.
    + intros He. apply fork_between_eq in Hf as ->; [congruence|done].
  - intros b db' Hl. destruct (context_update_at f blocks b t db' ltac:(apply Hch') Hl Hok') as (t' & H & _). by exists t'.
  - intros n db' Hn Hs'. destruct (n <? len blocks) eqn:E; bsimp; cbn [andb].
    + pose proof (context_pop_at f blocks n t db' Hch' ltac:(lia) Hs' Hok') as H.
      destruct (can_pop _ n); [destruct H as (t' & _ & H & _)|destruct H as (t' & H)]; by exists t'.
    + exists t. by apply (context_pop_too_many f blocks).
Qed.

(** The fast path for alternative chains is the slow one: when the parent of an alternative
    block is found, at height [h] of the main or of an alternative chain, the difficulty
    and weight caches derived from the main-chain caches are those built afresh from the
    database for that chain up to [h]. *)
Theorem alt_chain_caches_fresh blocks t (db : D) prev_id chain h :
  chain_ok blocks -> task_ok blocks t -> ServesContext db blocks ->
  find_block db prev_id = Ok (Some (chain, h)) -> (chain = Main -> 0 <= h < len blocks) ->
  get_alt_chain_difficulty_cache prev_id (difficulty_cache t) db
    = init_from_chain_height (h +! 1) (difficulty_cfg cfg) db chain /\
  get_alt_chain_weight_cache prev_id (weight_cache t) db
    = weights_init_from_chain_height (h +! 1) (weights_config cfg) db chain.
Proof using Hcfg.
  intros [Hl Hv] Ht Hs Hf Hh. pose proof Ht as [H1 H2 _ _ _ _ _ _ _ _]. pose proof Hcfg as (_ & [Hd _] & Hw).
  unfold get_alt_chain_difficulty_cache, get_alt_chain_weight_cache. rewrite Hf, H1, H2. cbn [mbind result_bind ok_or].
  destruct chain as [|id]; [|split; reflexivity]. specialize (Hh eq_refl).
  assert (len (headers blocks) = len blocks) as Hlh by apply len_headers.
  assert (Serves db Main (take (Z.to_nat (len (headers blocks) - (len blocks - 1 - h))) (headers blocks))) as Hst
    by (apply serves_take, Hs).
  assert (Z.to_nat (len (headers blocks) - (len blocks - 1 - h)) = Z.to_nat (h + 1)) as Hk by (rewrite Hlh; f_equal; lia).
  cbn [last_accounted_height tip_height cache_of weights_of]. rewrite Hlh. rewrite (wrap_small 64 (len blocks - 1 - h)) by zlia.
  rewrite wrap_small by zlia. split.
  - rewrite pop_blocks_cache_of; [|done|rewrite Hlh; zlia|rewrite Hlh; lia|exact Hst]. rewrite Hk.
    rewrite (init_cache_of db _ (h + 1) Main (headers blocks)); [reflexivity|done|lia|zlia|apply Hs].
  - rewrite (weights_pop_blocks_of db _ Hw); [|lia|lia|exact Hst]. rewrite Hk.
    rewrite (weights_init_of db _ Hw (h + 1) Main (headers blocks)); [reflexivity|lia|lia|apply Hs].
Qed.

End follows.

(** ** A database that holds one main chain *)
#[export] Instance chain_db : Database (list ChainBlock) := {|
  block_extended_header db h := block_extended_header (headers db) h;
  block_extended_header_in_range db a b chain := block_extended_header_in_range (headers db) a b chain;
|}.

#[export] Instance chain_context_db : ContextDatabase (list ChainBlock) := {|
  block_hash db h _ := ok_or (cb_hash <$> db !! Z.to_nat h) (DBErr "key does not exist");
  generated_coins db h := Ok (coins_after (take (Z.to_nat (h + 1)) db));
  chain_height db := Ok (len db, top_hash_of db);
  find_block db hash := Ok ((fun p => (Main, Z.of_nat p.1)) <$> list_find (fun b => cb_hash b = hash) db);
|}.

#[export] Instance chain_db_serves (db : list ChainBlock) : ServesContext db db.
Proof.
  split.
  - destruct (list_db_serves (headers db)) as [H1 H2]. split; [exact H1|exact H2].
  - intros h b _ Hb. cbn. by rewrite Hb.
  - done.
  - done.
Defined.

(** ** Witnesses *)
Module TestContext.
Definition cfg : ContextConfig :=
  mk_context_config (mk_hf_config HardForks.main_net 5) (mk_config 4 1 1 None) (mk_weights_config 2 3).
Definition blk (t d w : Z) (h : Z) : ChainBlock := mk_chain_block (mk_ext V1 1 t d w w) [h] 1000.
Definition blocks : list ChainBlock := [blk 0 1 80 0; blk 10 5 90 1].
Definition b2 : ChainBlock := blk 30 9 70 2.
Definition task (r : CResult (ContextTask bytes)) : ContextTask bytes :=
  match r with
  | Ok t => t
  | _ => mk_task (mk_blockchain_context 0 (BlockRules.mk_context 0 0 [] None 0 V1 0 0) 0 None)
           (mk_cache [] [] 0 (difficulty_cfg cfg)) (mk_weights (rm_of [] 2) (rm_of [] 3) 0 (weights_config cfg))
           (mk_rx [] ∅ None) (mk_hf_state V1 (hard_fork_cfg cfg) (HFVotes_new 5) 0) ∅ 0 [] 0
  end.
Definition t0 : ContextTask bytes := task (init_context Some cfg blocks).
Definition t1 : ContextTask bytes := (handle_req Some t0 (Update (new_data blocks b2)) blocks).2.
Definition t2 : ContextTask bytes := (handle_req Some t1 (PopBlocks 2) (take 1 blocks)).2.
End TestContext.

Lemma test_config_ok : context_config_ok TestContext.cfg.
Proof.
  repeat split; try (vm_compute; congruence). apply list_elem_of_here.
Defined.

Lemma test_chain_ok : chain_ok TestContext.cfg TestContext.blocks.
Proof.
  split; [vm_compute; intuition congruence|]. intros i hdr Hi.
  do 2 (destruct i as [|i]; [by injection Hi as <-|]). done.
Defined.

Lemma context_follows_chain_witness :
  exists fresh, init_context Some TestContext.cfg (take 1 TestContext.blocks) = Ok fresh /\
    context_cache TestContext.t2 = context_cache fresh.
Proof.
  destruct (context_follows_chain Some id (fun _ => eq_refl) (D := list ChainBlock) TestContext.cfg test_config_ok
    TestContext.blocks TestContext.blocks TestContext.t0 (take 1 TestContext.blocks) 3 TestContext.t2 (take 1 TestContext.blocks))
    as ((fresh & f & Hi & _ & _ & He) & _).
  - apply test_chain_ok.
  - apply chain_db_serves.
  - by vm_compute.
  - eapply rtc_l; [|apply rtc_once].
    + eapply (step_new Some TestContext.cfg TestContext.blocks 2 TestContext.t0 TestContext.b2 TestContext.blocks);
        [done|by vm_compute|apply surjective_pairing].
    + eapply (step_pop Some TestContext.cfg (TestContext.blocks ++ [TestContext.b2]) 3 TestContext.t1 2 (take 1 TestContext.blocks));
        [done|apply chain_db_serves|apply surjective_pairing|by vm_compute].
  - apply chain_db_serves.
  - exists fresh. split; [exact Hi|]. apply He. by vm_compute.
Defined.

Lemma alt_chain_caches_fresh_witness :
  get_alt_chain_difficulty_cache [0] (difficulty_cache TestContext.t0) TestContext.blocks
    = init_from_chain_height 1 (difficulty_cfg TestContext.cfg) TestContext.blocks Main.
Proof.
  apply (alt_chain_caches_fresh (D := list ChainBlock) TestContext.cfg test_config_ok TestContext.blocks TestContext.t0
    TestContext.blocks [0] Main 0).
  - apply test_chain_ok.
  - split; try (by vm_compute). split; [|by vm_compute].
    split; [|vm_compute; intuition congruence]. split; [done|]. intros hf. by destruct hf; vm_compute.
  - apply chain_db_serves.
  - by vm_compute.
  - intros _. vm_compute. intuition congruence.
Defined.

End Context.
