(* ===== verification/Helpers.v ===== *)
(** * Helper functions ([src/helper/src]: [map.rs], [tx.rs], [crypto.rs])

    Conversions between storage and in-memory formats, the fee of a transaction and the
    zero commitment with its lookup table. *)
From S2P Require Import Prelude Bytes HardForks Pruning RulesBase TxData TxRules.
From Stdlib Require Import ZArith Lia.
From stdpp Require Import base tactics option list numbers.
Import HardForks RulesBase TxData TxRules.

#[local] Open Scope Z_scope.
#[local] Open Scope usize_scope.

Module Helpers.

(** ** [map.rs] *)
Definition split_u128_into_low_high_bits (value : Z) : Z * Z := (wrap 64 value, wrap 64 (Z.shiftr value 64)).

Definition combine_low_high_bits_to_u128 (low_bits high_bits : Z) : Z :=
  let res := wrap 128 (Z.shiftl high_bits 64) in Z.lor res low_bits.

Definition MAX_BLOCK_HEIGHT : Z := 500000000.

Definition u64_to_timelock (u : Z) : Timelock :=
  if u =? 0 then TL_None else if u <? MAX_BLOCK_HEIGHT then TL_Block u else TL_Time u.

Definition timelock_to_u64 (timelock : Timelock) : Z :=
  match timelock with TL_None => 0 | TL_Block u => u | TL_Time u => u end.

(** A time lock as a transaction holds it: heights are those below the maximum height,
    and no lock is 0. *)
Definition timelock_ok (timelock : Timelock) : Prop :=
  match timelock with
  | TL_None => True
  | TL_Block h => 0 < h < MAX_BLOCK_HEIGHT
  | TL_Time t => MAX_BLOCK_HEIGHT <= t
  end.

Lemma split_combine v :
  is_u 128 v ->
  let '(low, high) := split_u128_into_low_high_bits v in combine_low_high_bits_to_u128 low high = v.
Proof.
  intros Hv. unfold split_u128_into_low_high_bits, combine_low_high_bits_to_u128, wrap.
  rewrite Z.shiftr_div_pow2 by lia. change (2 ^ 128) with (2 ^ 64 * 2 ^ 64) in *.
  assert (is_u 64 (v / 2 ^ 64)) as Hh.
  { unfold is_u in *. change (2 ^ 128) with (2 ^ 64 * 2 ^ 64) in Hv. split; [apply Z.div_pos; lia|].
    apply Z.div_lt_upper_bound; lia. }
  rewrite (Z.mod_small (v / 2 ^ 64)) by exact Hh.
  rewrite Z.mod_small.
  - rewrite lor_shiftl_add; [|lia|apply Z.mod_pos_bound; lia]. pose proof (Z.div_mod v (2 ^ 64)). lia.
  - rewrite Z.shiftl_mul_pow2 by lia. unfold is_u in Hh. nia.
Qed.

Lemma split_low_high_u64 v :
  is_u 64 (split_u128_into_low_high_bits v).1 /\ is_u 64 (split_u128_into_low_high_bits v).2.
Proof. split; apply wrap_is_u; lia. Qed.

Lemma timelock_roundtrip tl : timelock_ok tl -> u64_to_timelock (timelock_to_u64 tl) = tl.
Proof.
  destruct tl; cbn; unfold u64_to_timelock, MAX_BLOCK_HEIGHT; intros H; split_if; bsimp; done || lia.
Qed.

(** ** [tx.rs] *)
Section fee.
Context `{MoneroOxide}.

(** The loop over the inputs: [None] when an input generates coins. *)
Fixpoint sum_fee_inputs {E} (fee : Z) (inputs : list Input) : result E (option Z) :=
  match inputs with
  | [] => Ok (Some fee)
  | Gen _ :: _ => Ok None
  | ToKey amount _ _ :: inputs =>
      fee ← unwrap (checked_add 64 fee (default 0 amount));
      sum_fee_inputs fee inputs
  end.

Definition tx_fee {E} (tx : Transaction) : result E Z :=
  match tx with
  | Tx_V1 prefix _ =>
      fee ← sum_fee_inputs 0 (inputs prefix);
      match fee with
      | None => Ok 0
      | Some fee => try_fold (fun fee output => unwrap (checked_sub fee (default 0 (out_amount output)))) fee (outputs prefix)
      end
  | Tx_V2 _ proofs =>
      proofs ← unwrap proofs;
      Ok (fee (base proofs))
  end.
End fee.

Section fee_spec.
Context {O : MoneroOxide} {T : TransactionOps O} {L : MoneroOxideLaws O T}.

Lemma sum_fee_inputs_Ok {E} (f : Z) hf ins :
  Forall (input_rule hf) ins -> Forall (fun inp => is_u 64 (input_amount inp)) ins ->
  f + sumZ (map input_amount ins) < 2 ^ 64 ->
  sum_fee_inputs (E := E) f ins = Ok (Some (f + sumZ (map input_amount ins))).
Proof using Type.
  intros Hr. revert f. induction Hr as [|inp ins (a & os & ki & -> & _) _ IH]; intros f Hu Hs; cbn [map sumZ foldr] in *.
  { cbn. by rewrite Z.add_0_r. }
  apply List.Forall_cons_iff in Hu as [Ha Hu]. fold (sumZ (map input_amount ins)) in *. cbn [input_amount] in *.
  assert (0 <= sumZ (map input_amount ins)).
  { apply sumZ_nonneg, Forall_map. revert Hu. apply List.Forall_impl. unfold is_u. cbn. lia. }
  cbn [sum_fee_inputs]. unfold checked_add. rewrite (proj2 (Z.ltb_lt _ _)) by lia. cbn [unwrap mbind result_bind].
  rewrite IH by (done || lia). do 2 f_equal. lia.
Qed.

Lemma sub_outputs_Ok {E} (f : Z) outs :
  Forall (fun out => is_u 64 (output_amount out)) outs -> sumZ (map output_amount outs) <= f ->
  try_fold (E := E) (fun fee output => unwrap (checked_sub fee (default 0 (out_amount output)))) f outs
  = Ok (f - sumZ (map output_amount outs)).
Proof using Type.
  revert f. induction outs as [|o outs IH]; intros f Hu Hs; cbn [map sumZ foldr try_fold] in *; [by rewrite Z.sub_0_r|].
  apply List.Forall_cons_iff in Hu as [Ha Hu]. fold (sumZ (map output_amount outs)) in *. change (default 0 (out_amount o)) with (output_amount o).
  assert (0 <= sumZ (map output_amount outs)).
  { apply sumZ_nonneg, Forall_map. revert Hu. apply List.Forall_impl. unfold is_u. cbn. lia. }
  assert (checked_sub f (output_amount o) = Some (f - output_amount o)) as ->
    by (unfold checked_sub; by rewrite (proj2 (Z.leb_le _ _)) by lia).
  cbn [unwrap mbind result_bind].
  rewrite IH by (done || lia). f_equal. lia.
Qed.

(** The fee that [tx_fee] computes for a transaction is the fee that the semantic check
    returned when it accepted the transaction; on accepted transactions [tx_fee] does not
    panic. *)
Theorem tx_fee_is_checked_fee {E} tx blob weight tx_hash hf rng verifier f :
  tx_typed tx -> (check_transaction_semantic tx blob weight tx_hash hf rng verifier).1 = Ok f ->
  tx_fee (E := E) tx = Ok f.
Proof using L.
  intros Ht Hok. apply check_transaction_semantic_Ok in Hok as (_ & _ & so & si & Ho & Hi & Hf); [|done].
  destruct Ht as [Hto Hti], Ho as (_ & _ & _ & _ & -> & Hso), Hi as (_ & Hr & _ & -> & Hsi).
  destruct tx as [p s|p [proofs|]]; [|by destruct Hf as [_ ->]|done]. destruct Hf as [Hlt ->]. cbn [prefix] in *.
  unfold tx_fee. rewrite (sum_fee_inputs_Ok 0 hf) by (done || lia). rewrite Z.add_0_l. cbn [mbind result_bind].
  apply sub_outputs_Ok; [done|lia].
Qed.
End fee_spec.

(** ** [crypto.rs] *)

(** The curve functions the zero commitment uses: the base point [G], compression, and
    [H_PRECOMP.vartime_multiscalar_mul([a, 1])]. *)
Class Dalek (O : MoneroOxide) := {
  ED25519_BASEPOINT_POINT : EdwardsPoint;
  ED25519_BASEPOINT_COMPRESSED : CompressedPoint;
  compress : EdwardsPoint -> CompressedPoint;
  h_precomp_mul : Z -> Z -> EdwardsPoint;
}.

(** The two forms of the base point agree, [0 * H] is neutral, and the precomputed
    multiplication computes [a * H + G]. *)
Class DalekLaws (O : MoneroOxide) (C : Dalek O) : Prop := {
  basepoint_compressed : ED25519_BASEPOINT_COMPRESSED = compress ED25519_BASEPOINT_POINT;
  mul_H_0 : point_add ED25519_BASEPOINT_POINT (mul_H 0) = ED25519_BASEPOINT_POINT;
  h_precomp_spec : forall a, h_precomp_mul a 1 = point_add ED25519_BASEPOINT_POINT (mul_H a);
}.

Definition ZERO_COMMITMENT_DECOMPOSED_AMOUNT : list Z :=
  [ 1; 2; 3; 4; 5; 6; 7; 8; 9;
    10; 20; 30; 40; 50; 60; 70; 80; 90;
    100; 200; 300; 400; 500; 600; 700; 800; 900;
    1000; 2000; 3000; 4000; 5000; 6000; 7000; 8000; 9000;
    10000; 20000; 30000; 40000; 50000; 60000; 70000; 80000; 90000;
    100000; 200000; 300000; 400000; 500000; 600000; 700000; 800000; 900000;
    1000000; 2000000; 3000000; 4000000; 5000000; 6000000; 7000000; 8000000; 9000000;
    10000000; 20000000; 30000000; 40000000; 50000000; 60000000; 70000000; 80000000; 90000000;
    100000000; 200000000; 300000000; 400000000; 500000000; 600000000; 700000000; 800000000; 900000000;
    1000000000; 2000000000; 3000000000; 4000000000; 5000000000; 6000000000; 7000000000; 8000000000; 9000000000;
    10000000000; 20000000000; 30000000000; 40000000000; 50000000000; 60000000000; 70000000000; 80000000000; 90000000000;
    100000000000; 200000000000; 300000000000; 400000000000; 500000000000; 600000000000; 700000000000; 800000000000; 900000000000;
    1000000000000; 2000000000000; 3000000000000; 4000000000000; 5000000000000; 6000000000000; 7000000000000; 8000000000000; 9000000000000;
    10000000000000; 20000000000000; 30000000000000; 40000000000000; 50000000000000; 60000000000000; 70000000000000; 80000000000000; 90000000000000;
    100000000000000; 200000000000000; 300000000000000; 400000000000000; 500000000000000; 600000000000000; 700000000000000; 800000000000000; 900000000000000;
    1000000000000000; 2000000000000000; 3000000000000000; 4000000000000000; 5000000000000000; 6000000000000000; 7000000000000000; 8000000000000000; 9000000000000000;
    10000000000000000; 20000000000000000; 30000000000000000; 40000000000000000; 50000000000000000; 60000000000000000; 70000000000000000; 80000000000000000; 90000000000000000;
    100000000000000000; 200000000000000000; 300000000000000000; 400000000000000000; 500000000000000000; 600000000000000000; 700000000000000000; 800000000000000000; 900000000000000000;
    1000000000000000000; 2000000000000000000; 3000000000000000000; 4000000000000000000; 5000000000000000000; 6000000000000000000; 7000000000000000000; 8000000000000000000; 9000000000000000000;
    10000000000000000000 ].

(** [u64::checked_ilog10]; 20 digits are enough for a [u64]. *)
Fixpoint ilog10_loop (fuel : nat) (a : Z) : Z :=
  match fuel with
  | O => 0
  | S fuel => if a <? 10 then 0 else 1 + ilog10_loop fuel (a / 10)
  end.

Definition checked_ilog10 (a : Z) : option Z := if a =? 0 then None else Some (ilog10_loop 20 a).

Section commitment.
Context {O : MoneroOxide} {C : Dalek O}.

Definition ZERO_COMMITMENT_LOOKUP_TABLE : list CompressedPoint :=
  map (fun amount => compress (point_add ED25519_BASEPOINT_POINT (mul_H amount))) ZERO_COMMITMENT_DECOMPOSED_AMOUNT.

Definition compute_zero_commitment {E} (amount : Z) : result E CompressedPoint :=
  match checked_ilog10 amount with
  | None => Ok ED25519_BASEPOINT_COMPRESSED
  | Some log =>
      let div := wrap 64 (10 ^ log) in
      let most_significant_digit := amount / div in
      if negb (most_significant_digit *! div =? amount) then Ok (compress (h_precomp_mul amount 1))
      else
        let row_start := log *! 9 in
        let index := most_significant_digit -! 1 +! row_start in
        unwrap (ZERO_COMMITMENT_LOOKUP_TABLE !! Z.to_nat index)
  end.
End commitment.

Lemma ilog10_spec fuel a :
  0 < a < 10 ^ Z.of_nat fuel -> 0 <= ilog10_loop fuel a < Z.of_nat fuel /\
  10 ^ ilog10_loop fuel a <= a < 10 ^ (ilog10_loop fuel a + 1).
Proof.
  revert a. induction fuel as [|fuel IH]; intros a Ha; cbn [ilog10_loop]; [cbn in Ha; lia|].
  destruct (a <? 10) eqn:E; bsimp; [rewrite Z.pow_0_r; split; [lia|split; [lia|done]]|].
  assert (10 ^ Z.of_nat (S fuel) = 10 * 10 ^ Z.of_nat fuel) as Hp by (rewrite Nat2Z.inj_succ, Z.pow_succ_r; lia).
  destruct (IH (a / 10)) as [Hk Hb]; [dlia|]. set (k := ilog10_loop fuel (a / 10)) in *.
  split; [lia|]. replace (1 + k) with (Z.succ k) by lia. rewrite !Z.pow_succ_r by lia.
  replace (Z.succ k + 1) with (Z.succ (k + 1)) by lia. rewrite Z.pow_succ_r by lia. dlia.
Qed.

(** Row [k] of the table holds the digits 1 to 9 times [10 ^ k]. *)
Lemma amount_index d k :
  1 <= d <= 9 -> 0 <= k -> is_u 64 (d * 10 ^ k) ->
  ZERO_COMMITMENT_DECOMPOSED_AMOUNT !! Z.to_nat (d - 1 + k * 9) = Some (d * 10 ^ k).
Proof.
  intros Hd Hk Hu.
  assert (k < 20) as Hk20.
  { destruct (Z.lt_ge_cases k 20); [done|]. pose proof (Z.pow_le_mono_r 10 20 k). unfold is_u in Hu.
    change (10 ^ 20) with 100000000000000000000 in *. change (2 ^ 64) with 18446744073709551616 in *. nia. }
  assert (forallb (fun k => forallb (fun d =>
    (2 ^ 64 <=? Z.of_nat d * 10 ^ Z.of_nat k) ||
    bool_decide (ZERO_COMMITMENT_DECOMPOSED_AMOUNT !! (d - 1 + k * 9)%nat = Some (Z.of_nat d * 10 ^ Z.of_nat k)))
    (seq 1 9)) (seq 0 20) = true) as H by (by vm_compute).
  rewrite forallb_forall in H. specialize (H (Z.to_nat k)). rewrite in_seq in H. specialize (H ltac:(lia)).
  rewrite forallb_forall in H. specialize (H (Z.to_nat d)). rewrite in_seq in H. specialize (H ltac:(lia)).
  rewrite !Z2Nat.id in H by lia. apply orb_true_iff in H as [H|H]; [bsimp; unfold is_u in Hu; lia|].
  apply bool_decide_eq_true in H. rewrite <- H. f_equal. lia.
Qed.

Section commitment_spec.
Context {O : MoneroOxide} {C : Dalek O} {L : DalekLaws O C}.

Lemma compute_zero_commitment_eq {E} amount :
  is_u 64 amount ->
  compute_zero_commitment (E := E) amount = Ok (compress (point_add ED25519_BASEPOINT_POINT (mul_H amount))).
Proof using L.
  intros Hu. unfold compute_zero_commitment, checked_ilog10.
  destruct (amount =? 0) eqn:E0; bsimp; [subst; by rewrite mul_H_0, basepoint_compressed|].
  assert (0 < amount < 10 ^ Z.of_nat 20) as Ha.
  { unfold is_u in Hu. change (10 ^ Z.of_nat 20) with 100000000000000000000. change (2 ^ 64) with 18446744073709551616 in Hu. lia. }
  destruct (ilog10_spec 20 amount Ha) as [Hk Hb]. set (k := ilog10_loop 20 amount) in *.
  assert (0 < 10 ^ k) as Hp by (apply Z.pow_pos_nonneg; lia).
  rewrite (wrap_small 64 (10 ^ k)) by (unfold is_u in *; lia).
  rewrite Z.add_1_r, Z.pow_succ_r in Hb by lia.
  set (d := amount / 10 ^ k).
  assert (1 <= d <= 9) as Hd.
  { unfold d. split; [apply Z.div_le_lower_bound; lia|apply Z.lt_succ_r, Z.div_lt_upper_bound; lia]. }
  assert (d * 10 ^ k <= amount) as Hle by (rewrite Z.mul_comm; by apply Z.mul_div_le).
  rewrite (wrap_small 64 (d * 10 ^ k)) by (unfold is_u in *; nia).
  destruct (_ =? amount) eqn:E1; cbn [negb]; [|by rewrite h_precomp_spec]. apply Z.eqb_eq in E1.
  rewrite (wrap_small 64 (d - 1)) by zlia. rewrite (wrap_small 64 (k * 9)) by zlia. rewrite wrap_small by zlia.
  unfold ZERO_COMMITMENT_LOOKUP_TABLE. rewrite list_lookup_fmap.
  rewrite (amount_index d k); [|done|lia|by rewrite E1]. rewrite E1. done.
Qed.
(** The lookup table is an optimisation only: for every amount the zero commitment is
    [G + amount * H], and the table is never indexed out of bounds. *)
Theorem compute_zero_commitment_spec {E} amount :
  is_u 64 amount ->
  compute_zero_commitment (E := E) amount = Ok (compress (point_add ED25519_BASEPOINT_POINT (mul_H amount))).
Proof using L. apply compute_zero_commitment_eq. Qed.
End commitment_spec.

(** ** Witnesses *)
Import Transparent.

Module TestHelpers.
#[export] Instance dalek : Dalek oxide := {|
  ED25519_BASEPOINT_POINT := (0 : EdwardsPoint);
  ED25519_BASEPOINT_COMPRESSED := (0 : CompressedPoint);
  compress p := p;
  h_precomp_mul a b := a;
|}.

#[export] Instance dalek_laws : DalekLaws oxide dalek.
Proof. by split. Qed.

Definition tx : Transaction (H := oxide) :=
  Tx_V1 (H := oxide)
    (mk_prefix (H := oxide) TL_None [ToKey (H := oxide) (Some 50) [5; 1] 9; ToKey (H := oxide) (Some 7) [7; 2] 4]
       [mk_output (H := oxide) (Some 40) 5 None; mk_output (H := oxide) (Some 6) 6 None]) [].
End TestHelpers.
Import TestHelpers.

Lemma tx_fee_is_checked_fee_witness : tx_fee (E := ()) TestHelpers.tx = Ok 11.
Proof.
  apply (tx_fee_is_checked_fee (O := oxide) TestHelpers.tx 1000 1000 (repeat 0 32) V1 () 0%nat 11).
  - split; repeat constructor; done.
  - by vm_compute.
Defined.

Lemma compute_zero_commitment_spec_witness :
  compute_zero_commitment (O := oxide) (E := ()) 7000
  = Ok (compress (point_add ED25519_BASEPOINT_POINT (mul_H 7000))).
Proof. by apply compute_zero_commitment_spec. Defined.

End Helpers.
