(* ===== verification/DbTables.v ===== *)
(** * The tables of the blockchain database ([src/storage/blockchain/src]: [types.rs],
    [tables.rs]; [src/storage/database/src]: [database.rs], [backend/heed/database.rs],
    [error.rs])

    A table is a finite map and the operations of [DatabaseRo] and [DatabaseRw] are those
    of its [heed] implementation; failures of the disk ([Io], [ResizeNeeded]) are not
    modelled, so the only error of a table operation is [KeyNotFound]. The tables
    [PrunedTxBlobs], [PrunableTxBlobs] and [PrunableHashes], which no operation reads or
    writes, are left out. *)
From S2P Require Import Prelude Bytes ChainDb TxData.
From Stdlib Require Import ZArith Lia String.
From stdpp Require Import base tactics option list numbers sets gmap.
Import ChainDb.

#[local] Open Scope Z_scope.
#[local] Open Scope usize_scope.

Module DbTables.

Inductive RuntimeError := KeyExists | KeyNotFound | ResizeNeeded | TableNotFound | Io (msg : string).

#[export] Instance RuntimeError_eq_dec : EqDecision RuntimeError.
Proof. solve_decision. Defined.

Abbreviation DbResult := (result RuntimeError).

(** A loop that collects results and threads a state. *)
Fixpoint collect_st {E A B S} (f : A -> S -> result E (B * S)) (l : list A) (s : S) : result E (list B * S) :=
  match l with
  | [] => Ok ([], s)
  | x :: l => '(b, s) ← f x s; '(bs, s) ← collect_st f l s; Ok (b :: bs, s)
  end.

(** ** Operations on one table *)
Section table.
Context {K V : Type} `{Countable K}.

Definition db_get (table : gmap K V) (key : K) : DbResult V := ok_or (table !! key) KeyNotFound.

Definition db_contains (table : gmap K V) (key : K) : DbResult bool :=
  match db_get table key with
  | Ok _ => Ok true
  | Err KeyNotFound => Ok false
  | Err e => Err e
  | Panic => Panic
  end.

Definition db_len (table : gmap K V) : Z := Z.of_nat (size table).

Definition db_put (key : K) (value : V) (table : gmap K V) : gmap K V := <[key := value]> table.

(** Deleting a key that is not there succeeds. *)
Definition db_delete (key : K) (table : gmap K V) : gmap K V := delete key table.

Definition db_take (key : K) (table : gmap K V) : DbResult (V * gmap K V) :=
  value ← db_get table key;
  Ok (value, db_delete key table).

Definition db_update (key : K) (f : V -> DbResult (option V)) (table : gmap K V) : DbResult (gmap K V) :=
  value ← db_get table key;
  value ← f value;
  Ok (match value with Some value => db_put key value table | None => db_delete key table end).
End table.

(** Tables with numbers as keys are ordered by them. *)
Definition db_last {V} (table : gmap Z V) : DbResult (Z * V) :=
  key ← ok_or (iter_max (map_to_list table).*1) KeyNotFound;
  value ← db_get table key;
  Ok (key, value).

Definition db_pop_last {V} (table : gmap Z V) : DbResult ((Z * V) * gmap Z V) :=
  '(key, value) ← db_last table;
  Ok ((key, value), db_delete key table).

(** ** The data of the tables *)
Record PreRctOutputId := mk_output_id { amount : Z; amount_index : Z }.

#[export] Instance PreRctOutputId_eq_dec : EqDecision PreRctOutputId.
Proof. solve_decision. Defined.
#[export] Instance PreRctOutputId_countable : Countable PreRctOutputId.
Proof. by apply (inj_countable' (fun i => (amount i, amount_index i)) (fun p => mk_output_id p.1 p.2)); intros []. Defined.

Record BlockInfo := mk_block_info {
  bi_timestamp : Z;
  cumulative_generated_coins : Z;
  bi_weight : Z;
  cumulative_difficulty_low : Z;
  cumulative_difficulty_high : Z;
  bi_block_hash : bytes;
  cumulative_rct_outs : Z;
  bi_long_term_weight : Z;
  mining_tx_index : Z;
}.

(** [OutputFlags] is a [u32] with one flag. *)
Definition NON_ZERO_UNLOCK_TIME : Z := 1.
Definition flags_contain (flags flag : Z) : bool := Z.land flags flag =? flag.

(** [RawChain] and [RawChainId]: 0 is the main chain. *)
Definition raw_chain (c : Chain) : Z := match c with Main => 0 | Alt id => id end.
Definition chain_of_raw (raw : Z) : Chain := if raw =? 0 then Main else Alt raw.
Definition chain_id_of_raw {E} (raw : Z) : result E Z := if raw =? 0 then Panic else Ok raw.

Record AltChainInfo := mk_alt_chain_info {
  parent_chain : Z;
  common_ancestor_height : Z;
  info_chain_height : Z;
}.

Record AltBlockHeight := mk_alt_height { alt_chain_id : Z; alt_height : Z }.

#[export] Instance AltBlockHeight_eq_dec : EqDecision AltBlockHeight.
Proof. solve_decision. Defined.
#[export] Instance AltBlockHeight_countable : Countable AltBlockHeight.
Proof. by apply (inj_countable' (fun i => (alt_chain_id i, alt_height i)) (fun p => mk_alt_height p.1 p.2)); intros []. Defined.

Record CompactAltBlockInfo := mk_compact {
  c_block_hash : bytes;
  c_pow_hash : bytes;
  c_height : Z;
  c_weight : Z;
  c_long_term_weight : Z;
  c_cumulative_difficulty_low : Z;
  c_cumulative_difficulty_high : Z;
}.

Record AltTransactionInfo := mk_alt_tx_info { at_tx_weight : Z; at_fee : Z; at_tx_hash : bytes }.

Section tables.
Context {O : TxData.MoneroOxide}.

(** Keys and commitments are stored as the bytes a [CompressedPoint] wraps. *)
Record DbOutput := mk_db_output {
  o_key : TxData.CompressedPoint;
  o_height : Z;
  o_output_flags : Z;
  o_tx_idx : Z;
}.

Record RctOutput := mk_rct_output {
  r_key : TxData.CompressedPoint;
  r_height : Z;
  r_output_flags : Z;
  r_tx_idx : Z;
  r_commitment : TxData.CompressedPoint;
}.

(** ** All tables *)
Record Tables := mk_tables {
  block_header_blobs : gmap Z bytes;
  block_txs_hashes : gmap Z (list bytes);
  block_heights : gmap bytes Z;
  block_infos : gmap Z BlockInfo;
  key_images : gmap bytes ();
  num_outputs : gmap Z Z;
  outputs_table : gmap PreRctOutputId DbOutput;
  rct_outputs : gmap Z RctOutput;
  tx_blobs : gmap Z bytes;
  tx_ids : gmap bytes Z;
  tx_heights : gmap Z Z;
  tx_outputs : gmap Z (list Z);
  tx_unlock_time : gmap Z Z;
  alt_chain_infos : gmap Z AltChainInfo;
  alt_block_heights : gmap bytes AltBlockHeight;
  alt_blocks_info : gmap AltBlockHeight CompactAltBlockInfo;
  alt_block_blobs : gmap AltBlockHeight bytes;
  alt_transaction_blobs : gmap bytes bytes;
  alt_transaction_infos : gmap bytes AltTransactionInfo;
}.

Definition empty_tables : Tables :=
  mk_tables ∅ ∅ ∅ ∅ ∅ ∅ ∅ ∅ ∅ ∅ ∅ ∅ ∅ ∅ ∅ ∅ ∅ ∅ ∅.

Definition set_block_header_blobs (f : gmap Z bytes -> gmap Z bytes) (t : Tables) : Tables :=
  mk_tables (f (block_header_blobs t)) (block_txs_hashes t) (block_heights t) (block_infos t) (key_images t)
    (num_outputs t) (outputs_table t) (rct_outputs t) (tx_blobs t) (tx_ids t) (tx_heights t) (tx_outputs t)
    (tx_unlock_time t) (alt_chain_infos t) (alt_block_heights t) (alt_blocks_info t) (alt_block_blobs t)
    (alt_transaction_blobs t) (alt_transaction_infos t).
Definition set_block_txs_hashes (f : gmap Z (list bytes) -> gmap Z (list bytes)) (t : Tables) : Tables :=
  mk_tables (block_header_blobs t) (f (block_txs_hashes t)) (block_heights t) (block_infos t) (key_images t)
    (num_outputs t) (outputs_table t) (rct_outputs t) (tx_blobs t) (tx_ids t) (tx_heights t) (tx_outputs t)
    (tx_unlock_time t) (alt_chain_infos t) (alt_block_heights t) (alt_blocks_info t) (alt_block_blobs t)
    (alt_transaction_blobs t) (alt_transaction_infos t).
Definition set_block_heights (f : gmap bytes Z -> gmap bytes Z) (t : Tables) : Tables :=
  mk_tables (block_header_blobs t) (block_txs_hashes t) (f (block_heights t)) (block_infos t) (key_images t)
    (num_outputs t) (outputs_table t) (rct_outputs t) (tx_blobs t) (tx_ids t) (tx_heights t) (tx_outputs t)
    (tx_unlock_time t) (alt_chain_infos t) (alt_block_heights t) (alt_blocks_info t) (alt_block_blobs t)
    (alt_transaction_blobs t) (alt_transaction_infos t).
Definition set_block_infos (f : gmap Z BlockInfo -> gmap Z BlockInfo) (t : Tables) : Tables :=
  mk_tables (block_header_blobs t) (block_txs_hashes t) (block_heights t) (f (block_infos t)) (key_images t)
    (num_outputs t) (outputs_table t) (rct_outputs t) (tx_blobs t) (tx_ids t) (tx_heights t) (tx_outputs t)
    (tx_unlock_time t) (alt_chain_infos t) (alt_block_heights t) (alt_blocks_info t) (alt_block_blobs t)
    (alt_transaction_blobs t) (alt_transaction_infos t).
Definition set_key_images (f : gmap bytes () -> gmap bytes ()) (t : Tables) : Tables :=
  mk_tables (block_header_blobs t) (block_txs_hashes t) (block_heights t) (block_infos t) (f (key_images t))
    (num_outputs t) (outputs_table t) (rct_outputs t) (tx_blobs t) (tx_ids t) (tx_heights t) (tx_outputs t)
    (tx_unlock_time t) (alt_chain_infos t) (alt_block_heights t) (alt_blocks_info t) (alt_block_blobs t)
    (alt_transaction_blobs t) (alt_transaction_infos t).
Definition set_num_outputs (f : gmap Z Z -> gmap Z Z) (t : Tables) : Tables :=
  mk_tables (block_header_blobs t) (block_txs_hashes t) (block_heights t) (block_infos t) (key_images t) (f
    (num_outputs t)) (outputs_table t) (rct_outputs t) (tx_blobs t) (tx_ids t) (tx_heights t) (tx_outputs t)
    (tx_unlock_time t) (alt_chain_infos t) (alt_block_heights t) (alt_blocks_info t) (alt_block_blobs t)
    (alt_transaction_blobs t) (alt_transaction_infos t).
Definition set_outputs_table (f : gmap PreRctOutputId DbOutput -> gmap PreRctOutputId DbOutput) (t : Tables) : Tables :=
  mk_tables (block_header_blobs t) (block_txs_hashes t) (block_heights t) (block_infos t) (key_images t)
    (num_outputs t) (f (outputs_table t)) (rct_outputs t) (tx_blobs t) (tx_ids t) (tx_heights t) (tx_outputs
    t) (tx_unlock_time t) (alt_chain_infos t) (alt_block_heights t) (alt_blocks_info t) (alt_block_blobs t)
    (alt_transaction_blobs t) (alt_transaction_infos t).
Definition set_rct_outputs (f : gmap Z RctOutput -> gmap Z RctOutput) (t : Tables) : Tables :=
  mk_tables (block_header_blobs t) (block_txs_hashes t) (block_heights t) (block_infos t) (key_images t)
    (num_outputs t) (outputs_table t) (f (rct_outputs t)) (tx_blobs t) (tx_ids t) (tx_heights t) (tx_outputs
    t) (tx_unlock_time t) (alt_chain_infos t) (alt_block_heights t) (alt_blocks_info t) (alt_block_blobs t)
    (alt_transaction_blobs t) (alt_transaction_infos t).
Definition set_tx_blobs (f : gmap Z bytes -> gmap Z bytes) (t : Tables) : Tables :=
  mk_tables (block_header_blobs t) (block_txs_hashes t) (block_heights t) (block_infos t) (key_images t)
    (num_outputs t) (outputs_table t) (rct_outputs t) (f (tx_blobs t)) (tx_ids t) (tx_heights t) (tx_outputs
    t) (tx_unlock_time t) (alt_chain_infos t) (alt_block_heights t) (alt_blocks_info t) (alt_block_blobs t)
    (alt_transaction_blobs t) (alt_transaction_infos t).
Definition set_tx_ids (f : gmap bytes Z -> gmap bytes Z) (t : Tables) : Tables :=
  mk_tables (block_header_blobs t) (block_txs_hashes t) (block_heights t) (block_infos t) (key_images t)
    (num_outputs t) (outputs_table t) (rct_outputs t) (tx_blobs t) (f (tx_ids t)) (tx_heights t) (tx_outputs
    t) (tx_unlock_time t) (alt_chain_infos t) (alt_block_heights t) (alt_blocks_info t) (alt_block_blobs t)
    (alt_transaction_blobs t) (alt_transaction_infos t).
Definition set_tx_heights (f : gmap Z Z -> gmap Z Z) (t : Tables) : Tables :=
  mk_tables (block_header_blobs t) (block_txs_hashes t) (block_heights t) (block_infos t) (key_images t)
    (num_outputs t) (outputs_table t) (rct_outputs t) (tx_blobs t) (tx_ids t) (f (tx_heights t)) (tx_outputs
    t) (tx_unlock_time t) (alt_chain_infos t) (alt_block_heights t) (alt_blocks_info t) (alt_block_blobs t)
    (alt_transaction_blobs t) (alt_transaction_infos t).
Definition set_tx_outputs (f : gmap Z (list Z) -> gmap Z (list Z)) (t : Tables) : Tables :=
  mk_tables (block_header_blobs t) (block_txs_hashes t) (block_heights t) (block_infos t) (key_images t)
    (num_outputs t) (outputs_table t) (rct_outputs t) (tx_blobs t) (tx_ids t) (tx_heights t) (f (tx_outputs
    t)) (tx_unlock_time t) (alt_chain_infos t) (alt_block_heights t) (alt_blocks_info t) (alt_block_blobs t)
    (alt_transaction_blobs t) (alt_transaction_infos t).
Definition set_tx_unlock_time (f : gmap Z Z -> gmap Z Z) (t : Tables) : Tables :=
  mk_tables (block_header_blobs t) (block_txs_hashes t) (block_heights t) (block_infos t) (key_images t)
    (num_outputs t) (outputs_table t) (rct_outputs t) (tx_blobs t) (tx_ids t) (tx_heights t) (tx_outputs t) (f
    (tx_unlock_time t)) (alt_chain_infos t) (alt_block_heights t) (alt_blocks_info t) (alt_block_blobs t)
    (alt_transaction_blobs t) (alt_transaction_infos t).
Definition set_alt_chain_infos (f : gmap Z AltChainInfo -> gmap Z AltChainInfo) (t : Tables) : Tables :=
  mk_tables (block_header_blobs t) (block_txs_hashes t) (block_heights t) (block_infos t) (key_images t)
    (num_outputs t) (outputs_table t) (rct_outputs t) (tx_blobs t) (tx_ids t) (tx_heights t) (tx_outputs t)
    (tx_unlock_time t) (f (alt_chain_infos t)) (alt_block_heights t) (alt_blocks_info t) (alt_block_blobs t)
    (alt_transaction_blobs t) (alt_transaction_infos t).
Definition set_alt_block_heights (f : gmap bytes AltBlockHeight -> gmap bytes AltBlockHeight) (t : Tables) : Tables :=
  mk_tables (block_header_blobs t) (block_txs_hashes t) (block_heights t) (block_infos t) (key_images t)
    (num_outputs t) (outputs_table t) (rct_outputs t) (tx_blobs t) (tx_ids t) (tx_heights t) (tx_outputs t)
    (tx_unlock_time t) (alt_chain_infos t) (f (alt_block_heights t)) (alt_blocks_info t) (alt_block_blobs t)
    (alt_transaction_blobs t) (alt_transaction_infos t).
Definition set_alt_blocks_info (f : gmap AltBlockHeight CompactAltBlockInfo -> gmap AltBlockHeight CompactAltBlockInfo) (t : Tables) : Tables :=
  mk_tables (block_header_blobs t) (block_txs_hashes t) (block_heights t) (block_infos t) (key_images t)
    (num_outputs t) (outputs_table t) (rct_outputs t) (tx_blobs t) (tx_ids t) (tx_heights t) (tx_outputs t)
    (tx_unlock_time t) (alt_chain_infos t) (alt_block_heights t) (f (alt_blocks_info t)) (alt_block_blobs t)
    (alt_transaction_blobs t) (alt_transaction_infos t).
Definition set_alt_block_blobs (f : gmap AltBlockHeight bytes -> gmap AltBlockHeight bytes) (t : Tables) : Tables :=
  mk_tables (block_header_blobs t) (block_txs_hashes t) (block_heights t) (block_infos t) (key_images t)
    (num_outputs t) (outputs_table t) (rct_outputs t) (tx_blobs t) (tx_ids t) (tx_heights t) (tx_outputs t)
    (tx_unlock_time t) (alt_chain_infos t) (alt_block_heights t) (alt_blocks_info t) (f (alt_block_blobs t))
    (alt_transaction_blobs t) (alt_transaction_infos t).
Definition set_alt_transaction_blobs (f : gmap bytes bytes -> gmap bytes bytes) (t : Tables) : Tables :=
  mk_tables (block_header_blobs t) (block_txs_hashes t) (block_heights t) (block_infos t) (key_images t)
    (num_outputs t) (outputs_table t) (rct_outputs t) (tx_blobs t) (tx_ids t) (tx_heights t) (tx_outputs t)
    (tx_unlock_time t) (alt_chain_infos t) (alt_block_heights t) (alt_blocks_info t) (alt_block_blobs t) (f
    (alt_transaction_blobs t)) (alt_transaction_infos t).
Definition set_alt_transaction_infos (f : gmap bytes AltTransactionInfo -> gmap bytes AltTransactionInfo) (t : Tables) : Tables :=
  mk_tables (block_header_blobs t) (block_txs_hashes t) (block_heights t) (block_infos t) (key_images t)
    (num_outputs t) (outputs_table t) (rct_outputs t) (tx_blobs t) (tx_ids t) (tx_heights t) (tx_outputs t)
    (tx_unlock_time t) (alt_chain_infos t) (alt_block_heights t) (alt_blocks_info t) (alt_block_blobs t)
    (alt_transaction_blobs t) (f (alt_transaction_infos t)).

End tables.

End DbTables.
