(* ===== verification/TxOps.v ===== *)
(** * Storing transactions ([src/storage/blockchain/src/ops]: [key_image.rs], [output.rs],
    [tx.rs])

    Key images, outputs and transactions are added to and removed from the tables by
    functions that take the tables and return the new ones; an error leaves nothing,
    because the caller aborts the write transaction. The transaction format is that of
    [monero_oxide], the interface [MoneroCodec]. *)
From S2P Require Import Prelude Bytes HardForks ChainDb TxData BlockRules TxContext Helpers DbTables.
From Stdlib Require Import ZArith Lia String.
From stdpp Require Import base tactics option list numbers sets gmap.
Import TxData TxContext Helpers DbTables.

#[local] Open Scope Z_scope.
#[local] Open Scope usize_scope.

Module TxOps.

(** The functions of [monero_oxide] on blobs: a [read] that fails is [None]. *)
Class MoneroCodec (O : MoneroOxide) := {
  tx_serialize : Transaction -> bytes;
  tx_read : bytes -> option Transaction;
  tx_hash : Transaction -> bytes;
  tx_weight : Transaction -> Z;
  header_serialize : BlockRules.BlockHeader -> bytes;
  header_read : bytes -> option BlockRules.BlockHeader;
  block_serialize : BlockRules.Block -> bytes;
  block_read : bytes -> option BlockRules.Block;
  (** [Block::new(header, miner_transaction, transactions)] *)
  block_new : BlockRules.BlockHeader -> Transaction -> list bytes -> option BlockRules.Block;
  (** [VarInt::write] *)
  varint_write : Z -> bytes;
}.

(** [T::read(..)?] *)
Definition read_io {A} (r : option A) : DbResult A := ok_or r (Io "read"%string).

Section ops.
Context {O : MoneroOxide} {T : TransactionOps O} {C : Dalek O} {Cd : MoneroCodec O}.

(** ** Key images *)
Definition add_key_image (key_image : bytes) (t : Tables) : Tables := set_key_images (db_put key_image ()) t.
Definition remove_key_image (key_image : bytes) (t : Tables) : Tables := set_key_images (db_delete key_image) t.
Definition key_image_exists (key_image : bytes) (t : Tables) : DbResult bool := db_contains (key_images t) key_image.

(** ** Outputs *)
Definition add_output (amount : Z) (output : DbOutput) (t : Tables) : DbResult (PreRctOutputId * Tables) :=
  num ← match db_get (num_outputs t) amount with
        | Ok num_outputs => Ok num_outputs
        | Err KeyNotFound => Ok 0
        | Err e => Err e
        | Panic => Panic
        end;
  let t := set_num_outputs (db_put amount (num +! 1)) t in
  let pre_rct_output_id := mk_output_id amount num in
  Ok (pre_rct_output_id, set_outputs_table (db_put pre_rct_output_id output) t).

Definition remove_output (id : PreRctOutputId) (t : Tables) : DbResult Tables :=
  nums ← db_update (amount id) (fun num => Ok (if num =? 1 then None else Some (num -! 1))) (num_outputs t);
  Ok (set_outputs_table (db_delete id) (set_num_outputs (fun _ => nums) t)).

Definition get_output (id : PreRctOutputId) (t : Tables) : DbResult DbOutput := db_get (outputs_table t) id.

Definition get_rct_num_outputs (t : Tables) : Z := db_len (rct_outputs t).

Definition add_rct_output (rct_output : RctOutput) (t : Tables) : DbResult (Z * Tables) :=
  let amount_index := get_rct_num_outputs t in
  Ok (amount_index, set_rct_outputs (db_put amount_index rct_output) t).

Definition remove_rct_output (amount_index : Z) (t : Tables) : Tables := set_rct_outputs (db_delete amount_index) t.

Definition get_rct_output (amount_index : Z) (t : Tables) : DbResult RctOutput := db_get (rct_outputs t) amount_index.

(** ** Transactions *)
Definition get_num_tx (t : Tables) : Z := db_len (tx_ids t).

(** The loop over the inputs: adds the key images, tells a miner transaction. *)
Definition add_input (st : bool * Tables) (input : Input) : bool * Tables :=
  match input with
  | ToKey _ _ key_image => (st.1, add_key_image (to_bytes key_image) st.2)
  | Gen _ => (true, st.2)
  end.

Definition output_flags_of (timelock : Timelock) : Z :=
  match timelock with TL_None => 0 | TL_Block _ | TL_Time _ => NON_ZERO_UNLOCK_TIME end.

Definition add_tx (tx : Transaction) (tx_blob : bytes) (tx_hash : bytes) (block_height : Z) (t : Tables)
    : DbResult (Z * Tables) :=
  let tx_id := get_num_tx t in
  let t := set_tx_ids (db_put tx_hash tx_id) t in
  let t := set_tx_heights (db_put tx_id block_height) t in
  let t := set_tx_blobs (db_put tx_id tx_blob) t in
  let t := match additional_timelock (prefix tx) with
           | TL_None => t
           | TL_Block height => set_tx_unlock_time (db_put tx_id height) t
           | TL_Time time => set_tx_unlock_time (db_put tx_id time) t
           end in
  _ ← rassert (block_height <? 2 ^ 32);
  let height := block_height in
  let '(miner_tx, t) := foldl add_input (false, t) (inputs (prefix tx)) in
  let output_flags := output_flags_of (additional_timelock (prefix tx)) in
  '(amount_indices, t) ←
    match tx with
    | Tx_V1 prefix _ =>
        collect_st (fun output t =>
          '(id, t) ← add_output (default 0 (out_amount output))
            (mk_db_output (out_key output) height output_flags tx_id) t;
          Ok (amount_index id, t)) (outputs prefix) t
    | Tx_V2 prefix proofs =>
        collect_st (fun '((i, output) : nat * Output) t =>
          commitment ←
            (if miner_tx : bool then compute_zero_commitment (default 0 (out_amount output))
             else
               proofs ← unwrap proofs;
               unwrap (commitments (base proofs) !! i));
          add_rct_output (mk_rct_output (out_key output) height output_flags tx_id commitment) t)
          (imap pair (outputs prefix)) t
    end;
  Ok (tx_id, set_tx_outputs (db_put tx_id amount_indices) t).

Definition remove_input (st : bool * Tables) (input : Input) : bool * Tables :=
  match input with
  | ToKey _ _ key_image => (st.1, remove_key_image (to_bytes key_image) st.2)
  | Gen _ => (true, st.2)
  end.

(** The body of the loop over the outputs. *)
Definition remove_tx_output (tx : Transaction) (miner_tx : bool) (t : Tables) (output : Output) : DbResult Tables :=
  match out_amount output with
  | Some amount =>
      if miner_tx && (version tx =? 2) then
        let amount_index := get_rct_num_outputs t -! 1 in
        Ok (remove_rct_output amount_index t)
      else
        num ← db_get (num_outputs t) amount;
        let amount_index := num -! 1 in
        remove_output (mk_output_id amount amount_index) t
  | None =>
      let amount_index := get_rct_num_outputs t -! 1 in
      Ok (remove_rct_output amount_index t)
  end.

Definition remove_tx (tx_hash : bytes) (t : Tables) : DbResult ((Z * Transaction) * Tables) :=
  '(tx_id, ids) ← db_take tx_hash (tx_ids t);
  let t := set_tx_ids (fun _ => ids) t in
  '(tx_blob, blobs) ← db_take tx_id (tx_blobs t);
  let t := set_tx_blobs (fun _ => blobs) t in
  let t := set_tx_heights (db_delete tx_id) t in
  let t := set_tx_outputs (db_delete tx_id) t in
  let t := set_tx_unlock_time (db_delete tx_id) t in
  tx ← read_io (tx_read tx_blob);
  let '(miner_tx, t) := foldl remove_input (false, t) (inputs (prefix tx)) in
  t ← try_fold (remove_tx_output tx miner_tx) t (outputs (prefix tx));
  Ok ((tx_id, tx), t).

Definition get_tx_from_id (tx_id : Z) (t : Tables) : DbResult Transaction :=
  tx_blob ← db_get (tx_blobs t) tx_id;
  read_io (tx_read tx_blob).

Definition get_tx (tx_hash : bytes) (t : Tables) : DbResult Transaction :=
  id ← db_get (tx_ids t) tx_hash;
  get_tx_from_id id t.

Definition tx_exists (tx_hash : bytes) (t : Tables) : DbResult bool := db_contains (tx_ids t) tx_hash.

(** ** Outputs on the chain *)
(** The hash of the transaction with index [tx_idx] in the block at [height]. *)
Definition txid_of (height tx_idx : Z) (t : Tables) : DbResult bytes :=
  info ← db_get (block_infos t) height;
  let miner_tx_id := mining_tx_index info in
  if miner_tx_id =? tx_idx then
    tx ← get_tx_from_id miner_tx_id t;
    Ok (tx_hash tx)
  else
    let idx := tx_idx -! miner_tx_id -! 1 in
    hashes ← db_get (block_txs_hashes t) height;
    unwrap (hashes !! Z.to_nat idx).

Definition time_lock_of (flags tx_idx : Z) (t : Tables) : DbResult Timelock :=
  if flags_contain flags NON_ZERO_UNLOCK_TIME then
    u ← db_get (tx_unlock_time t) tx_idx;
    Ok (u64_to_timelock u)
  else Ok TL_None.

Definition output_to_output_on_chain (output : DbOutput) (amount : Z) (get_txid : bool) (t : Tables)
    : DbResult OutputOnChain :=
  commitment ← compute_zero_commitment amount;
  time_lock ← time_lock_of (o_output_flags output) (o_tx_idx output) t;
  txid ← (if get_txid : bool then txid ← txid_of (o_height output) (o_tx_idx output) t; Ok (Some txid) else Ok None);
  Ok (mk_output_on_chain (o_height output) time_lock (o_key output) commitment txid).

Definition rct_output_to_output_on_chain (rct_output : RctOutput) (get_txid : bool) (t : Tables)
    : DbResult OutputOnChain :=
  time_lock ← time_lock_of (r_output_flags rct_output) (r_tx_idx rct_output) t;
  txid ← (if get_txid : bool then txid ← txid_of (r_height rct_output) (r_tx_idx rct_output) t; Ok (Some txid) else Ok None);
  Ok (mk_output_on_chain (r_height rct_output) time_lock (r_key rct_output) (r_commitment rct_output) txid).

Definition id_to_output_on_chain (id : PreRctOutputId) (get_txid : bool) (t : Tables) : DbResult OutputOnChain :=
  if amount id =? 0 then
    rct_output ← get_rct_output (amount_index id) t;
    rct_output_to_output_on_chain rct_output get_txid t
  else
    output ← get_output id t;
    output_to_output_on_chain output (amount id) get_txid t.

End ops.

End TxOps.
