(* ===== verification/TxStore.v ===== *)
(** * Adding and removing stored transactions

    What [TxOps.add_tx] and [TxOps.remove_tx] do to the tables. [above t es t1] says that
    the tables [t1] are [t] with the transactions [es] added, in whatever order: it is
    preserved by removing any one of them ([pop_block] does not remove transactions in
    the reverse order of [add_block]), and when none is left the tables are equal.
    [holds l t] says that [t] holds exactly the transactions [l], with the ids of their
    positions and the outputs numbered in order. *)
From S2P Require Import Prelude Bytes HardForks ChainDb TxData BlockRules TxContext Helpers DbTables TxOps.
From Stdlib Require Import ZArith Lia String.
From stdpp Require Import base tactics option list numbers sets gmap.
Import TxData TxContext Helpers DbTables TxOps.

#[local] Open Scope Z_scope.
#[local] Open Scope usize_scope.

Module TxStore.

(** ** Deleting several keys *)
Section deletes.
Context {K V : Type} `{Countable K}.

Definition deletes (ks : list K) (m : gmap K V) : gmap K V := foldr delete m ks.

Lemma deletes_delete k ks m : deletes ks (delete k m) = delete k (deletes ks m).
Proof. induction ks as [|k' ks IH]; cbn; [done|]. unfold deletes in IH. by rewrite IH, delete_delete. Qed.

Lemma deletes_app ks ks' m : deletes (ks ++ ks') m = deletes ks (deletes ks' m).
Proof. apply foldr_app. Qed.

#[export] Instance deletes_perm : Proper ((≡ₚ) ==> (=) ==> (=)) deletes.
Proof.
  intros ks ks' Hp m m' <-. induction Hp as [|k ks ks' _ IH|k k' ks|ks1 ks2 ks3 _ IH1 _ IH2]; cbn; [done| |by rewrite delete_delete|].
  - unfold deletes in IH. by rewrite IH.
  - by rewrite IH1.
Qed.

Lemma deletes_swap ks ks' m : deletes ks (deletes ks' m) = deletes ks' (deletes ks m).
Proof. rewrite <- !deletes_app. by rewrite (Permutation_app_comm ks ks'). Qed.

Lemma deletes_cons_insert k v ks m : m !! k = None -> deletes (k :: ks) (<[k := v]> m) = deletes ks m.
Proof. intros Hk. cbn. fold (deletes ks (<[k := v]> m)). rewrite <- deletes_delete, delete_insert_id; done. Qed.

Lemma deletes_cons_absent k ks m : m !! k = None -> deletes (k :: ks) m = deletes ks m.
Proof. intros Hk. cbn. fold (deletes ks m). rewrite <- deletes_delete, delete_id; done. Qed.
End deletes.
#[global] Arguments deletes : simpl never.

(** ** Tables as parts *)
Section parts.
Context {O : MoneroOxide} {T : TransactionOps O} {C : Dalek O} {Cd : MoneroCodec O}.

(** The tables of outputs; removing an output touches no other table. *)
Definition outs_state : Type := gmap Z Z * gmap PreRctOutputId DbOutput * gmap Z RctOutput.

Definition outs_part (t : Tables) : outs_state := (num_outputs t, outputs_table t, rct_outputs t).

Definition set_outs (s : outs_state) (t : Tables) : Tables :=
  set_rct_outputs (fun _ => s.2) (set_outputs_table (fun _ => s.1.2) (set_num_outputs (fun _ => s.1.1) t)).

(** Removing an output of amount [a], or a ring-CT output. *)
Definition undo_out (s : outs_state) (k : option Z) : DbResult outs_state :=
  match k with
  | Some a =>
      num ← db_get s.1.1 a;
      nums ← db_update a (fun num => Ok (if num =? 1 then None else Some (num -! 1))) s.1.1;
      Ok (nums, db_delete (mk_output_id a (num -! 1)) s.1.2, s.2)
  | None => Ok (s.1.1, s.1.2, db_delete (db_len s.2 -! 1) s.2)
  end.

Definition undo_outs (ks : list (option Z)) (s : outs_state) : DbResult outs_state := try_fold undo_out s ks.

Lemma undo_pair_comm k1 k2 s : (undo_out s k1 ≫= fun s => undo_out s k2) = (undo_out s k2 ≫= fun s => undo_out s k1).
Proof using Type.
  destruct s as [[num outs] rct]. destruct (decide (k1 = k2)) as [->|Hk]; [done|].
  unfold undo_out, db_update, db_get, db_delete, db_put. destruct k1 as [a|], k2 as [b|]; cbn [fst snd]; [| | |done].
  2: by cbn; destruct (num !! a) as [n|]; cbn.
  2: by cbn; destruct (num !! b) as [n|]; cbn.
  assert (a <> b) as Hab by congruence.
  destruct (num !! a) as [n|] eqn:Ea, (num !! b) as [m|] eqn:Eb; cbn; try done.
  - destruct (n =? 1) eqn:En, (m =? 1) eqn:Em; cbn;
      rewrite ?lookup_delete_ne, ?lookup_insert_ne by done; rewrite ?Ea, ?Eb; cbn; rewrite ?En, ?Em; cbn;
      rewrite (delete_delete outs); do 3 f_equal;
      first [by rewrite delete_delete|by rewrite delete_insert_ne|by rewrite insert_insert_ne].
  - destruct (n =? 1); cbn; rewrite ?lookup_delete_ne, ?lookup_insert_ne by done; by rewrite Eb.
  - destruct (m =? 1); cbn; rewrite ?lookup_delete_ne, ?lookup_insert_ne by done; by rewrite Ea.
Qed.

#[export] Instance undo_outs_perm : Proper ((≡ₚ) ==> (=) ==> (=)) undo_outs.
Proof using Type.
  intros ks ks' Hp s s' <-. revert s. induction Hp as [|k ks ks' _ IH|k k' ks|ks1 ks2 ks3 _ IH1 _ IH2]; intros s; cbn; [done| | |].
  - destruct (undo_out s k); cbn; [apply IH|done..].
  - pose proof (undo_pair_comm k k' s) as Hc. destruct (undo_out s k) as [s1| |] eqn:E1, (undo_out s k') as [s2| |] eqn:E2; cbn in *;
      rewrite ?Hc; try done; rewrite <- ?Hc; done.
  - by rewrite IH1.
Qed.

Lemma undo_outs_app ks ks' s : undo_outs (ks ++ ks') s = (undo_outs ks s ≫= undo_outs ks').
Proof using Type.
  revert s. induction ks as [|k ks IH]; intros s; cbn; [done|]. destruct (undo_out s k); cbn; [apply IH|done..].
Qed.

(** The tables that storing transactions does not touch. *)
Definition rest_part (t : Tables) :=
  (block_header_blobs t, block_txs_hashes t, block_heights t, block_infos t,
   (alt_chain_infos t, alt_block_heights t, alt_blocks_info t, alt_block_blobs t, alt_transaction_blobs t,
    alt_transaction_infos t)).

(** ** Removing a transaction *)
Definition kis_of (tx : Transaction) : list bytes :=
  omap (fun inp => match inp with ToKey _ _ key_image => Some (to_bytes key_image) | Gen _ => None end) (inputs (prefix tx)).

Definition is_gen (inp : Input) : bool := match inp with Gen _ => true | ToKey _ _ _ => false end.

Definition is_miner (tx : Transaction) : bool := existsb is_gen (inputs (prefix tx)).

Definition out_kind (tx : Transaction) (output : Output) : option Z :=
  match out_amount output with
  | Some amount => if is_miner tx && (version tx =? 2) then None else Some amount
  | None => None
  end.

Definition kinds (tx : Transaction) : list (option Z) := map (out_kind tx) (outputs (prefix tx)).

Lemma remove_inputs ins m t :
  foldl remove_input (m, t) ins =
  (m || existsb is_gen ins,
   set_key_images (deletes (omap (fun inp => match inp with ToKey _ _ key_image => Some (to_bytes key_image) | Gen _ => None end) ins)) t).
Proof using Type.
  revert m t. induction ins as [|[h|a os ki] ins IH]; intros m t; cbn [foldl existsb omap list_omap].
  - rewrite orb_false_r. by destruct t.
  - cbn [remove_input fst snd is_gen]. rewrite IH. by rewrite orb_true_r.
  - cbn [remove_input fst snd is_gen]. rewrite IH. cbn [orb]. f_equal.
    unfold remove_key_image, set_key_images, db_delete. cbn. f_equal. rewrite deletes_delete. done.
Qed.

Lemma remove_outputs tx outs t :
  try_fold (remove_tx_output tx (is_miner tx)) t outs =
  (s ← undo_outs (map (out_kind tx) outs) (outs_part t); Ok (set_outs s t)).
Proof using Type.
  assert (forall t o, remove_tx_output tx (is_miner tx) t o =
    (s ← undo_out (outs_part t) (out_kind tx o); Ok (set_outs s t))) as Hstep.
  { clear. intros t o. unfold remove_tx_output, out_kind, undo_out, remove_output, get_rct_num_outputs, remove_rct_output.
    destruct (out_amount o) as [a|]; [destruct (_ && _)|]; cbn; [by destruct t| |by destruct t].
    destruct (db_get (num_outputs t) a) as [n| |]; cbn; [|done..]. by destruct (db_update _ _ _); cbn. }
  revert t. induction outs as [|o outs IH]; intros t; cbn [try_fold map]; [by destruct t|].
  unfold undo_outs. cbn [try_fold]. rewrite Hstep. destruct (undo_out (outs_part t) (out_kind tx o)) as [s1| |]; cbn; [|done..].
  rewrite IH. unfold undo_outs. destruct s1 as [[n os] r]. cbn.
  by destruct (try_fold undo_out _ _) as [[[? ?] ?]| |].
Qed.

Record entry := mk_entry { e_hash : bytes; e_id : Z; e_tx : Transaction; e_blob : bytes }.

Record above (t : Tables) (es : list entry) (t1 : Tables) : Prop := {
  above_hashes_nodup : NoDup (map e_hash es);
  above_ids_nodup : NoDup (map e_id es);
  above_entries : Forall (fun e => tx_ids t1 !! e_hash e = Some (e_id e) /\ tx_blobs t1 !! e_id e = Some (e_blob e) /\
    tx_read (e_blob e) = Some (e_tx e)) es;
  above_ids : deletes (map e_hash es) (tx_ids t1) = tx_ids t;
  above_blobs : deletes (map e_id es) (tx_blobs t1) = tx_blobs t;
  above_heights : deletes (map e_id es) (tx_heights t1) = tx_heights t;
  above_outputs : deletes (map e_id es) (tx_outputs t1) = tx_outputs t;
  above_unlock : deletes (map e_id es) (tx_unlock_time t1) = tx_unlock_time t;
  above_key_images : deletes (es ≫= fun e => kis_of (e_tx e)) (key_images t1) = key_images t;
  above_outs : undo_outs (es ≫= fun e => kinds (e_tx e)) (outs_part t1) = Ok (outs_part t);
}.

#[export] Instance above_perm t : Proper ((≡ₚ) ==> (=) ==> iff) (above t).
Proof using Type.
  assert (forall es es' t1, es ≡ₚ es' -> above t es t1 -> above t es' t1) as H.
  { intros es es' t1 Hp [H1 H2 H3 H4 H5 H6 H7 H8 H9 H10].
    split; try (by rewrite <- Hp); rewrite Hp in *; done. }
  intros es es' Hp t1 t2 <-. split; apply H; done.
Qed.

Lemma above_nil t t1 : above t [] t1 -> rest_part t1 = rest_part t -> t1 = t.
Proof using Type.
  intros [_ _ _ H4 H5 H6 H7 H8 H9 H10] Hr. cbn in *. injection H10 as H10 H11 H12. unfold rest_part in Hr.
  destruct t, t1; cbn in *. by simplify_eq.
Qed.

Lemma remove_tx_above t e es t1 :
  above t (e :: es) t1 ->
  exists t2, remove_tx (e_hash e) t1 = Ok ((e_id e, e_tx e), t2) /\ above t es t2 /\ rest_part t2 = rest_part t1.
Proof using Type.
  intros [H1 H2 H3 H4 H5 H6 H7 H8 H9 H10]. apply List.Forall_cons_iff in H3 as [(Hid & Hblob & Hread) H3].
  cbn [map] in *. apply NoDup_cons in H1 as [Hh H1], H2 as [Hi H2].
  rewrite bind_cons, undo_outs_app in H10. apply bind_Ok in H10 as (s & Hs & H10).
  unfold remove_tx, db_take, db_get, db_delete. rewrite Hid. cbn [ok_or mbind result_bind].
  cbn [set_tx_ids tx_blobs]. rewrite Hblob. cbn [ok_or mbind result_bind]. rewrite Hread. cbn [read_io ok_or mbind result_bind].
  rewrite remove_inputs. cbn [orb].
  change (existsb is_gen (inputs (prefix (e_tx e)))) with (is_miner (e_tx e)). rewrite remove_outputs.
  change (outs_part (set_key_images _ _)) with (outs_part t1). unfold kinds in Hs. rewrite Hs. cbn [mbind result_bind].
  eexists. split; [done|]. split; [|done]. destruct s as [[num outs] rct].
  split; cbn; [done|done| |rewrite deletes_delete; done..|rewrite <- H9, bind_cons, deletes_app; apply deletes_swap|done].
  apply Forall_forall. intros e' He'. rewrite Forall_forall in H3. destruct (H3 e' He') as (Ha & Hb & Hc).
  split_and!; [rewrite lookup_delete_ne|rewrite lookup_delete_ne|]; try done; intros E; [apply Hh|apply Hi]; rewrite E; by apply list_elem_of_fmap_2.
Qed.

(** ** Adding outputs *)

(** A new output: one with a clear amount, or a ring-CT output. *)
Definition new_out : Type := Z * DbOutput + RctOutput.

Definition kind_of (x : new_out) : option Z := match x with inl (a, _) => Some a | inr _ => None end.

Definition do_out (s : outs_state) (x : new_out) : Z * outs_state :=
  let '(nums, outs, rct) := s in
  match x with
  | inl (a, o) =>
      let n := default 0 (nums !! a) in
      (n, (<[a := n +! 1]> nums, <[mk_output_id a n := o]> outs, rct))
  | inr r => (db_len rct, (nums, outs, <[db_len rct := r]> rct))
  end.

Fixpoint do_outs (s : outs_state) (xs : list new_out) : list Z * outs_state :=
  match xs with
  | [] => ([], s)
  | x :: xs => let '(i, s) := do_out s x in let '(idxs, s) := do_outs s xs in (i :: idxs, s)
  end.

(** Outputs are numbered from 0 without gaps above them; at most [N] are stored. *)
Record outs_ok (N : Z) (s : outs_state) : Prop := {
  outs_num : forall a n, s.1.1 !! a = Some n -> 1 <= n <= N;
  outs_dom : forall id, is_Some (s.1.2 !! id) -> exists n, s.1.1 !! amount id = Some n /\ amount_index id < n;
  outs_rct_dom : forall j, is_Some (s.2 !! j) -> j < db_len s.2;
  outs_rct_len : db_len s.2 <= N;
}.

Lemma undo_do N s x :
  outs_ok N s -> N + 1 < 2 ^ 64 -> undo_out (do_out s x).2 (kind_of x) = Ok s /\ outs_ok (N + 1) (do_out s x).2.
Proof using Type.
  intros [H1 H2 H3 H4] HN. destruct s as [[nums outs] rct], x as [[a o]|r]; cbn in *.
  - set (n := default 0 (nums !! a)).
    assert (0 <= n <= Z.max 0 N) as Hn.
    { unfold n. destruct (nums !! a) as [m|] eqn:E; cbn; [|lia]. specialize (H1 _ _ E). lia. }
    assert (0 <= N) as HN0 by (unfold db_len in H4; lia).
    rewrite (wrap_small 64 (n + 1)) by zlia.
    assert (outs !! mk_output_id a n = None) as Hfresh.
    { destruct (outs !! mk_output_id a n) eqn:E; [|done]. destruct (H2 (mk_output_id a n)) as (m & Hm & Hlt); [rewrite E; by eexists|].
      cbn in *. unfold n in Hlt. rewrite Hm in Hlt. cbn in Hlt. lia. }
    split.
    + unfold db_update, db_get. rewrite lookup_insert_eq. cbn [ok_or mbind result_bind].
      rewrite wrap_small by zlia. replace (n + 1 - 1) with n by lia. unfold db_delete, db_put.
      rewrite (delete_insert_id outs) by exact Hfresh. do 3 f_equal. destruct (n + 1 =? 1) eqn:E1; bsimp.
      * rewrite delete_insert_eq, delete_id; [done|]. unfold n in E1. destruct (nums !! a) as [m|] eqn:E; [|done].
        specialize (H1 _ _ E). cbn in E1. lia.
      * rewrite insert_insert_eq. unfold n in *. destruct (nums !! a) as [m|] eqn:E; cbn in *; [by rewrite insert_id|lia].
    + split; cbn; [| |done|lia].
      * intros b m. rewrite lookup_insert_Some. intros [[<- <-]|[_ Hb]]; [lia|]. specialize (H1 _ _ Hb). lia.
      * intros [b j] Hj. destruct (decide (mk_output_id a n = mk_output_id b j)) as [E|E].
        { injection E as <- <-. exists (n + 1). cbn. rewrite lookup_insert_eq. split; [done|lia]. }
        rewrite lookup_insert_ne in Hj by done. destruct (H2 _ Hj) as (m & Hm & Hlt). cbn in *.
        destruct (decide (a = b)) as [->|Hab]; [|exists m; by rewrite lookup_insert_ne].
        exists (n + 1). rewrite lookup_insert_eq. split; [done|]. unfold n. rewrite Hm. cbn. lia.
  - assert (rct !! db_len rct = None) as Hfresh.
    { destruct (rct !! db_len rct) eqn:E; [|done]. specialize (H3 (db_len rct)). rewrite E in H3. specialize (H3 (mk_is_Some _ _ eq_refl)). lia. }
    assert (db_len (<[db_len rct := r]> rct) = db_len rct + 1) as Hlen.
    { unfold db_len. rewrite map_size_insert_None by done. lia. }
    rewrite Hlen. split.
    + rewrite wrap_small by (unfold db_len in *; zlia). replace (db_len rct + 1 - 1) with (db_len rct) by lia.
      unfold db_delete. by rewrite delete_insert_id.
    + split; cbn; [intros b m Hb; specialize (H1 _ _ Hb); lia|done| |lia].
      intros j. rewrite Hlen. destruct (decide (j = db_len rct)) as [->|Hj]; [lia|].
      rewrite lookup_insert_ne by done. intros Hj'. specialize (H3 _ Hj'). lia.
Qed.

Lemma undo_do_outs N s xs :
  outs_ok N s -> N + len xs < 2 ^ 64 ->
  undo_outs (map kind_of xs) (do_outs s xs).2 = Ok s /\ outs_ok (N + len xs) (do_outs s xs).2.
Proof using Type.
  revert N s. induction xs as [|x xs IH]; intros N s Hs HN; cbn [do_outs map].
  { split; [done|]. change (len []) with 0. by rewrite Z.add_0_r. }
  change (len (x :: xs)) with (len ([x] ++ xs)) in *. rewrite len_app in *. change (len [x]) with 1 in *.
  assert (0 <= len xs) by (unfold len; lia).
  destruct (undo_do N s x Hs) as [Hu Ho]; [lia|]. destruct (do_out s x) as [i s1]. cbn [snd] in *.
  destruct (IH (N + 1) s1 Ho) as [Hu1 Ho1]; [lia|]. destruct (do_outs s1 xs) as [idxs s2]. cbn [snd] in *.
  split; [|by replace (N + (1 + len xs)) with (N + 1 + len xs) by lia].
  rewrite (Permutation_cons_append (map kind_of xs) (kind_of x)), undo_outs_app, Hu1. cbn. by rewrite Hu.
Qed.

(** ** Adding a transaction *)
Definition zero_commitment (a : Z) : CompressedPoint := compress (point_add ED25519_BASEPOINT_POINT (mul_H a)).

(** The commitment stored with output [i]. *)
Definition commitment_of (tx : Transaction) (proofs : option RctProofs) (i : nat) (o : Output) : CompressedPoint :=
  if is_miner tx then zero_commitment (default 0 (out_amount o))
  else match proofs with Some p => default (out_key o) (commitments (base p) !! i) | None => out_key o end.

(** The outputs of a transaction as they are stored. *)
Definition tx_outs (tx : Transaction) (h id : Z) : list new_out :=
  let flags := output_flags_of (additional_timelock (prefix tx)) in
  match tx with
  | Tx_V1 prefix _ =>
      map (fun o => inl (default 0 (out_amount o), mk_db_output (out_key o) h flags id)) (outputs prefix)
  | Tx_V2 prefix proofs =>
      map (fun '((i, o) : nat * Output) => inr (mk_rct_output (out_key o) h flags id (commitment_of tx proofs i o)))
        (imap pair (outputs prefix))
  end.

(** The shape of the transactions of a chain: the amounts of version 1 outputs are given;
    those of version 2 outputs are given by miner transactions only, and other
    transactions have a commitment for each output. *)
Definition tx_shape (tx : Transaction) : Prop :=
  match tx with
  | Tx_V1 prefix _ => Forall (fun o => is_Some (out_amount o)) (outputs prefix)
  | Tx_V2 prefix proofs =>
      if is_miner tx then Forall (fun o => is_u 64 (default 0 (out_amount o))) (outputs prefix)
      else Forall (fun o => out_amount o = None) (outputs prefix) /\
        exists p, proofs = Some p /\ len (outputs prefix) <= len (commitments (base p))
  end.

Definition inserts (ks : list bytes) (m : gmap bytes ()) : gmap bytes () := foldl (fun m k => <[k := ()]> m) m ks.

Definition unlock_of (tx : Transaction) : option Z :=
  match additional_timelock (prefix tx) with TL_None => None | TL_Block u => Some u | TL_Time u => Some u end.

(** The tables after a transaction is added. *)
Definition added (tx : Transaction) (blob hash : bytes) (h : Z) (t : Tables) : Tables :=
  let id := db_len (tx_ids t) in
  let '(idxs, s) := do_outs (outs_part t) (tx_outs tx h id) in
  mk_tables (block_header_blobs t) (block_txs_hashes t) (block_heights t) (block_infos t)
    (inserts (kis_of tx) (key_images t)) s.1.1 s.1.2 s.2 (<[id := blob]> (tx_blobs t)) (<[hash := id]> (tx_ids t))
    (<[id := h]> (tx_heights t)) (<[id := idxs]> (tx_outputs t))
    (match unlock_of tx with Some u => <[id := u]> (tx_unlock_time t) | None => tx_unlock_time t end)
    (alt_chain_infos t) (alt_block_heights t) (alt_blocks_info t) (alt_block_blobs t) (alt_transaction_blobs t)
    (alt_transaction_infos t).

Lemma add_inputs ins m t :
  foldl add_input (m, t) ins =
  (m || existsb is_gen ins,
   set_key_images (inserts (omap (fun inp => match inp with ToKey _ _ key_image => Some (to_bytes key_image) | Gen _ => None end) ins)) t).
Proof using Type.
  revert m t. induction ins as [|[h|a os ki] ins IH]; intros m t; cbn [foldl existsb omap list_omap].
  - rewrite orb_false_r. by destruct t.
  - cbn [add_input fst snd is_gen]. rewrite IH. by rewrite orb_true_r.
  - cbn [add_input fst snd is_gen]. by rewrite IH.
Qed.

(** A loop that adds outputs. *)
Lemma collect_do_outs {A} (f : A -> Tables -> DbResult (Z * Tables)) (g : A -> new_out) l t :
  (forall x t, x ∈ l -> f x t = Ok ((do_out (outs_part t) (g x)).1, set_outs (do_out (outs_part t) (g x)).2 t)) ->
  collect_st f l t =
  Ok ((do_outs (outs_part t) (map g l)).1, set_outs (do_outs (outs_part t) (map g l)).2 t).
Proof using Type.
  revert t. induction l as [|x l IH]; intros t Hf; cbn [collect_st map do_outs]; [by destruct t|].
  rewrite Hf by left. cbn [mbind result_bind]. destruct (do_out (outs_part t) (g x)) as [i s1]. cbn [fst snd].
  rewrite IH by (intros; apply Hf; by right). cbn [mbind result_bind].
  destruct s1 as [[n o] r]. change (outs_part (set_outs (n, o, r) t)) with (n, o, r).
  by destruct (do_outs (n, o, r) (map g l)) as [idxs [[? ?] ?]].
Qed.

Lemma add_output_do a o t :
  add_output a o t =
  Ok (mk_output_id a (do_out (outs_part t) (inl (a, o))).1, set_outs (do_out (outs_part t) (inl (a, o))).2 t).
Proof using Type. unfold add_output, db_get. cbn. by destruct (num_outputs t !! a). Qed.

Context {L : DalekLaws O C}.

Lemma add_tx_spec tx blob hash h t :
  tx_shape tx -> h < 2 ^ 32 -> add_tx tx blob hash h t = Ok (db_len (tx_ids t), added tx blob hash h t).
Proof using L.
  intros Hs Hh. unfold add_tx, get_num_tx. set (id := db_len (tx_ids t)).
  rewrite (proj2 (Z.ltb_lt _ _)) by done. cbn [rassert mbind result_bind].
  set (t0 := match additional_timelock (prefix tx) with TL_None => _ | TL_Block _ => _ | TL_Time _ => _ end).
  rewrite add_inputs. cbn [orb]. change (existsb is_gen (inputs (prefix tx))) with (is_miner tx).
  set (t1 := set_key_images _ t0).
  assert (outs_part t1 = outs_part t) as Hp.
  { unfold t1, t0. by destruct (additional_timelock (prefix tx)). }
  set (flags := output_flags_of (additional_timelock (prefix tx))).
  match goal with |- (?r ≫= _) = _ =>
    assert (r = Ok ((do_outs (outs_part t1) (tx_outs tx h id)).1, set_outs (do_outs (outs_part t1) (tx_outs tx h id)).2 t1)) as -> end.
  { destruct tx as [p sg|p proofs]; unfold tx_outs; fold flags.
    - apply collect_do_outs. intros o t' _. by rewrite add_output_do.
    - apply collect_do_outs. intros [i o] t' Hin. cbn in Hs.
      apply elem_of_lookup_imap in Hin as (i' & o' & E & Ho). injection E as <- <-.
      assert ((if is_miner (Tx_V2 p proofs) then compute_zero_commitment (default 0 (out_amount o))
        else proofs ← unwrap proofs; unwrap (commitments (base proofs) !! i)) = Ok (E := RuntimeError) (commitment_of (Tx_V2 p proofs) proofs i o)) as ->.
      { unfold commitment_of. destruct (is_miner (Tx_V2 p proofs)).
        - apply compute_zero_commitment_eq. rewrite Forall_lookup in Hs. eauto.
        - destruct Hs as (_ & pr & -> & Hlen). cbn. apply lookup_lt_Some in Ho.
          destruct (lookup_lt_is_Some_2 (commitments (base pr)) i) as [c ->]; [unfold len in Hlen; lia|done]. }
      done. }
  rewrite Hp. cbn [mbind result_bind]. do 2 f_equal. unfold added. fold id.
  destruct (do_outs (outs_part t) (tx_outs tx h id)) as [idxs [[n o] r]].
  unfold t1, t0, unlock_of. by destruct (additional_timelock (prefix tx)).
Qed.

Lemma deletes_inserts ks m :
  NoDup ks -> Forall (fun k => m !! k = None) ks -> deletes ks (inserts ks m) = m.
Proof using Type.
  revert m. induction ks as [|k ks IH]; intros m Hn Hf; [done|].
  apply NoDup_cons in Hn as [Hk Hn]. apply List.Forall_cons_iff in Hf as [Hk' Hf].
  change (deletes (k :: ks) (inserts (k :: ks) m)) with (delete k (deletes ks (inserts ks (<[k := ()]> m)))). rewrite IH; [by rewrite delete_insert_id|done|].
  apply Forall_forall. intros k' Hin. rewrite Forall_forall in Hf. rewrite lookup_insert_ne by (intros ->; done). auto.
Qed.

(** The ids of the stored transactions are below their number; at most [N] outputs are
    stored. *)
Record txs_ok (N : Z) (t : Tables) : Prop := {
  txs_blobs : forall i, is_Some (tx_blobs t !! i) -> i < db_len (tx_ids t);
  txs_heights : forall i, is_Some (tx_heights t !! i) -> i < db_len (tx_ids t);
  txs_outputs : forall i, is_Some (tx_outputs t !! i) -> i < db_len (tx_ids t);
  txs_unlock : forall i, is_Some (tx_unlock_time t !! i) -> i < db_len (tx_ids t);
  txs_outs : outs_ok N (outs_part t);
}.

Lemma txs_ok_empty : txs_ok 0 empty_tables.
Proof using Type. split; [intros i [x Hx]; done..|]. split; cbn; [done|intros id [x Hx]; done|intros j [x Hx]; done|done]. Qed.

(** A new transaction: its hash and key images are not stored. *)
Record new_tx (N : Z) (tx : Transaction) (blob hash : bytes) (t : Tables) : Prop := {
  new_shape : tx_shape tx;
  new_read : tx_read blob = Some tx;
  new_hash : tx_ids t !! hash = None;
  new_kis : Forall (fun k => key_images t !! k = None) (kis_of tx);
  new_kis_nodup : NoDup (kis_of tx);
  new_room : N + len (outputs (prefix tx)) < 2 ^ 64;
}.

Context {ML : MoneroOxideLaws O T}.

Lemma kinds_tx_outs tx h id : tx_shape tx -> kinds tx = map kind_of (tx_outs tx h id).
Proof using ML.
  intros Hs. unfold kinds, out_kind. destruct tx as [p sg|p proofs]; cbn [prefix tx_outs].
  - rewrite version_V1, map_map. cbn [kind_of]. apply map_ext_in. intros o Ho. apply list_elem_of_In in Ho.
    cbn in Hs. rewrite Forall_forall in Hs. destruct (Hs o Ho) as [a ->]. cbn. by rewrite andb_false_r.
  - rewrite version_V2, map_map. change (2 =? 2) with true. rewrite andb_true_r. cbn [tx_shape] in Hs.
    transitivity (map (fun _ : Output => @None Z) (outputs p)).
    + apply map_ext_in. intros o Ho. apply list_elem_of_In in Ho. destruct (is_miner (Tx_V2 p proofs)).
      * by destruct (out_amount o).
      * destruct Hs as [Hs _]. rewrite Forall_forall in Hs. by rewrite (Hs o Ho).
    + apply list_eq. intros i. rewrite !list_lookup_fmap, list_lookup_imap. by destruct (outputs p !! i).
Qed.

Lemma tx_outs_len tx h id : len (tx_outs tx h id) = len (outputs (prefix tx)).
Proof using Type.
  destruct tx; cbn; unfold len; rewrite length_map; [done|]. by rewrite length_imap.
Qed.

Lemma dom_below_insert {V} (m : gmap Z V) n v :
  (forall i, is_Some (m !! i) -> i < n) -> forall i, is_Some (<[n := v]> m !! i) -> i < n + 1.
Proof using Type.
  intros H i. destruct (decide (i = n)) as [->|Hi]; [lia|]. rewrite lookup_insert_ne by done. intros Hi'. apply H in Hi'. lia.
Qed.

Lemma added_txs_ok N tx blob hash h t :
  txs_ok N t -> new_tx N tx blob hash t -> txs_ok (N + len (outputs (prefix tx))) (added tx blob hash h t).
Proof using ML.
  intros [H1 H2 H3 H4 H5] [Hs _ Hh _ _ Hr]. unfold added. set (id := db_len (tx_ids t)) in *.
  pose proof (undo_do_outs N (outs_part t) (tx_outs tx h id) H5) as [_ Ho]; [by rewrite tx_outs_len|].
  destruct (do_outs (outs_part t) (tx_outs tx h id)) as [idxs [[n o] r]]. rewrite tx_outs_len in Ho.
  assert (db_len (<[hash := id]> (tx_ids t)) = id + 1) as Hlen by (unfold db_len; rewrite map_size_insert_None by done; unfold id, db_len; lia).
  split; cbn; rewrite ?Hlen; try (by apply dom_below_insert); [|done].
  destruct (unlock_of tx); [by apply dom_below_insert|]. intros i Hi. apply H4 in Hi. lia.
Qed.

Lemma absent {V} (m : gmap Z V) n : (forall i, is_Some (m !! i) -> i < n) -> m !! n = None.
Proof using Type. intros H. destruct (m !! n) eqn:E; [|done]. specialize (H n). rewrite E in H. specialize (H (mk_is_Some _ _ eq_refl)). lia. Qed.

Lemma added_above N t es t1 tx blob hash h :
  above t es t1 -> txs_ok N t1 -> new_tx N tx blob hash t1 ->
  above t (mk_entry hash (db_len (tx_ids t1)) tx blob :: es) (added tx blob hash h t1).
Proof using ML.
  intros [A1 A2 A3 A4 A5 A6 A7 A8 A9 A10] [H1 H2 H3 H4 H5] [Hs Hrd Hh Hk Hkn Hr]. unfold added.
  set (id := db_len (tx_ids t1)) in *.
  pose proof (undo_do_outs N (outs_part t1) (tx_outs tx h id) H5) as [Hu _]; [by rewrite tx_outs_len|].
  destruct (do_outs (outs_part t1) (tx_outs tx h id)) as [idxs [[n o] r]].
  rewrite Forall_forall in A3. split.
  10: { rewrite bind_cons. cbn [e_tx]. rewrite (kinds_tx_outs tx h id Hs), undo_outs_app.
    change (outs_part (mk_tables _ _ _ _ _ _ _ _ _ _ _ _ _ _ _ _ _ _ _)) with (n, o, r). cbn [snd] in Hu. by rewrite Hu. }
  all: cbn.
  - apply NoDup_cons. split; [|done]. intros Hin. apply list_elem_of_fmap in Hin as (e & -> & He).
    destruct (A3 e He) as (Hid & _). congruence.
  - apply NoDup_cons. split; [|done]. intros Hin. apply list_elem_of_fmap in Hin as (e & Hid & He).
    destruct (A3 e He) as (_ & Hb & _). specialize (H1 (e_id e) (mk_is_Some _ _ Hb)). lia.
  - constructor; [cbn; by rewrite !lookup_insert_eq|]. apply Forall_forall. intros e He. destruct (A3 e He) as (Hid & Hb & Hrd').
    rewrite !lookup_insert_ne; [done| |]; intros E; [|rewrite E in Hh; congruence].
    specialize (H1 (e_id e) (mk_is_Some _ _ Hb)). lia.
  - by rewrite deletes_cons_insert.
  - rewrite deletes_cons_insert by (by apply absent). done.
  - rewrite deletes_cons_insert by (by apply absent). done.
  - rewrite deletes_cons_insert by (by apply absent). done.
  - destruct (unlock_of tx); [rewrite deletes_cons_insert|rewrite deletes_cons_absent]; try done; by apply absent.
  - rewrite deletes_app, deletes_swap, deletes_inserts; done.
Qed.

Lemma added_rest tx blob hash h t : rest_part (added tx blob hash h t) = rest_part t.
Proof using Type. unfold added. by destruct (do_outs _ _) as [? [[? ?] ?]]. Qed.

Lemma above_refl t : above t [] t.
Proof using Type. split; try done; constructor. Qed.

(** ** What the tables hold *)

(** The outputs with a clear amount [a], and the ring-CT outputs, in order. *)
Definition pre_list (xs : list new_out) (a : Z) : list DbOutput :=
  omap (fun x => match x with inl (b, o) => if bool_decide (a = b) then Some o else None | inr _ => None end) xs.
Definition rct_list (xs : list new_out) : list RctOutput :=
  omap (fun x => match x with inl _ => None | inr r => Some r end) xs.

Record outs_hold (xs : list new_out) (s : outs_state) : Prop := {
  oh_num : forall a, s.1.1 !! a = if bool_decide (pre_list xs a = []) then None else Some (len (pre_list xs a));
  oh_pre : forall a j, s.1.2 !! mk_output_id a j = lookZ (pre_list xs a) j;
  oh_rct : forall j, s.2 !! j = lookZ (rct_list xs) j;
  oh_rct_len : db_len s.2 = len (rct_list xs);
}.

(** The number an output gets after the outputs [xs]. *)
Definition index_after (xs : list new_out) (x : new_out) : Z :=
  match x with inl (a, _) => len (pre_list xs a) | inr _ => len (rct_list xs) end.

Fixpoint number_from (xs ys : list new_out) : list Z :=
  match ys with
  | [] => []
  | y :: ys => index_after xs y :: number_from (xs ++ [y]) ys
  end.

Lemma pre_list_len xs a : len (pre_list xs a) <= len xs.
Proof using Type.
  unfold pre_list, len. induction xs as [|[[b o]|r] xs IH]; cbn; [lia|case_bool_decide; cbn; lia|lia].
Qed.

Lemma rct_list_len xs : len (rct_list xs) <= len xs.
Proof using Type. unfold rct_list, len. induction xs as [|[[b o]|r] xs IH]; cbn; lia. Qed.

Lemma outs_hold_ok xs s : outs_hold xs s -> outs_ok (len xs) s.
Proof using Type.
  intros [H1 H2 H3 H4]. split.
  - intros a n. rewrite H1. case_bool_decide as E; [done|]. intros [= <-]. pose proof (pre_list_len xs a).
    destruct (pre_list xs a); [done|]. unfold len in *. cbn in *. lia.
  - intros [a j]. rewrite H2. intros [o Ho]. cbn. rewrite H1. apply lookZ_lt in Ho. exists (len (pre_list xs a)).
    rewrite bool_decide_eq_false_2; [split; [done|lia]|]. intros E. rewrite E in Ho. change (len []) with 0 in Ho. lia.
  - intros j. rewrite H3, H4. intros [r Hr]. apply lookZ_lt in Hr. lia.
  - rewrite H4. apply rct_list_len.
Qed.

Lemma do_out_hold xs s x :
  outs_hold xs s -> len xs + 1 < 2 ^ 64 ->
  (do_out s x).1 = index_after xs x /\ outs_hold (xs ++ [x]) (do_out s x).2.
Proof using Type.
  intros [H1 H2 H3 H4] Hl. destruct s as [[nums outs] rct], x as [[a o]|r]; cbn in *.
  - assert (default 0 (nums !! a) = len (pre_list xs a)) as Hn.
    { rewrite H1. case_bool_decide as E; [by rewrite E|done]. }
    rewrite Hn. split; [done|]. pose proof (pre_list_len xs a).
    assert (forall b, pre_list (xs ++ [(inl (a, o) : new_out)]) b = pre_list xs b ++ (if bool_decide (b = a) then [o] else [])) as Hp.
    { intros b. unfold pre_list. rewrite omap_app. cbn. by case_bool_decide. }
    rewrite wrap_small by (unfold len in *; zlia).
    split; cbn.
    + intros b. rewrite Hp. destruct (decide (b = a)) as [->|Hb].
      * rewrite lookup_insert_eq, (bool_decide_eq_true_2 (a = a)), bool_decide_eq_false_2, len_app by (done || by destruct (pre_list xs a)). done.
      * rewrite lookup_insert_ne by done. rewrite (bool_decide_eq_false_2 (b = a)) by done. rewrite app_nil_r. apply H1.
    + intros b j. rewrite Hp. destruct (decide (b = a)) as [->|Hb].
      * rewrite bool_decide_eq_true_2 by done. rewrite lookZ_snoc. destruct (decide (j = len (pre_list xs a))) as [->|Hj].
        { by rewrite lookup_insert_eq, bool_decide_eq_true_2. }
        rewrite lookup_insert_ne by congruence. by rewrite bool_decide_eq_false_2.
      * rewrite lookup_insert_ne by congruence. rewrite (bool_decide_eq_false_2 (b = a)) by done. by rewrite app_nil_r.
    + intros j. unfold rct_list. rewrite omap_app, app_nil_r. apply H3.
    + unfold rct_list. by rewrite omap_app, app_nil_r.
  - split; [by rewrite H4|]. pose proof (rct_list_len xs).
    assert (forall b, pre_list (xs ++ [(inr r : new_out)]) b = pre_list xs b) as Hp by (intros b; unfold pre_list; by rewrite omap_app, app_nil_r).
    assert (rct_list (xs ++ [(inr r : new_out)]) = rct_list xs ++ [r]) as Hr by (unfold rct_list; by rewrite omap_app).
    split; cbn; [intros b; by rewrite Hp|intros b j; by rewrite Hp| |].
    + intros j. rewrite Hr, lookZ_snoc, H4. destruct (decide (j = len (rct_list xs))) as [->|Hj].
      * by rewrite lookup_insert_eq, bool_decide_eq_true_2.
      * by rewrite lookup_insert_ne, bool_decide_eq_false_2 by done.
    + assert (rct !! len (rct_list xs) = None) as Hnone.
      { rewrite H3. unfold lookZ. destruct (_ <? 0); [done|]. apply lookup_ge_None. unfold len. lia. }
      rewrite H4, Hr, len_app. unfold db_len in *. rewrite map_size_insert_None by done. change (len [r]) with 1. lia.
Qed.

Lemma do_outs_hold xs s ys :
  outs_hold xs s -> len xs + len ys < 2 ^ 64 ->
  (do_outs s ys).1 = number_from xs ys /\ outs_hold (xs ++ ys) (do_outs s ys).2.
Proof using Type.
  revert xs s. induction ys as [|y ys IH]; intros xs s Hs Hl; cbn [do_outs number_from]; [by rewrite app_nil_r|].
  change (len (y :: ys)) with (len ([y] ++ ys)) in *. rewrite len_app in *. change (len [y]) with 1 in *.
  assert (0 <= len ys) by (unfold len; lia).
  destruct (do_out_hold xs s y Hs) as [Hi Ho]; [lia|]. destruct (do_out s y) as [i s1]. cbn [fst snd] in *.
  destruct (IH (xs ++ [y]) s1 Ho) as [Hi1 Ho1]; [rewrite len_app; change (len [y]) with 1; lia|].
  destruct (do_outs s1 ys) as [idxs s2]. cbn [fst snd] in *. rewrite <- app_assoc in Ho1. by subst.
Qed.

Record StoredTx := mk_stored { s_tx : Transaction; s_blob : bytes; s_hash : bytes; s_height : Z }.

Definition stored_outs (i : nat) (x : StoredTx) : list new_out := tx_outs (s_tx x) (s_height x) (Z.of_nat i).

(** All outputs of the transactions [l], in order. *)
Definition all_outs (l : list StoredTx) : list new_out := concat (imap stored_outs l).

Definition all_kis (l : list StoredTx) : list bytes := l ≫= fun x => kis_of (s_tx x).

(** The tables hold the transactions [l]: the id of a transaction is its position. *)
Record holds (l : list StoredTx) (t : Tables) : Prop := {
  h_blobs : forall i, tx_blobs t !! i = s_blob <$> lookZ l i;
  h_heights : forall i, tx_heights t !! i = s_height <$> lookZ l i;
  h_unlock : forall i, tx_unlock_time t !! i = lookZ l i ≫= fun x => unlock_of (s_tx x);
  h_outputs : forall i, tx_outputs t !! i =
    (fun x => number_from (all_outs (take (Z.to_nat i) l)) (stored_outs (Z.to_nat i) x)) <$> lookZ l i;
  h_ids : forall h i, tx_ids t !! h = Some i <-> exists x, lookZ l i = Some x /\ s_hash x = h;
  h_ids_len : db_len (tx_ids t) = len l;
  h_kis : forall k, is_Some (key_images t !! k) <-> k ∈ all_kis l;
  h_outs : outs_hold (all_outs l) (outs_part t);
}.

Lemma holds_nil : holds [] empty_tables.
Proof using Type.
  assert (forall A i, lookZ (A := A) [] i = None) as Hl by (intros A i; unfold lookZ; by destruct (i <? 0)).
  split; [intros i; by rewrite Hl..| |done| |].
  - intros h i. split; [done|]. intros (x & Hx & _). by rewrite Hl in Hx.
  - intros k. cbn. split; [intros [? ?]; done|intros Hk; by apply not_elem_of_nil in Hk].
  - split; cbn; [done|intros; by rewrite Hl..|done].
Qed.

Lemma all_outs_snoc l x : all_outs (l ++ [x]) = all_outs l ++ stored_outs (length l) x.
Proof using Type. unfold all_outs. rewrite imap_app, concat_app. cbn. by rewrite Nat.add_0_r, app_nil_r. Qed.

Lemma insert_len_lookZ {B} (f : StoredTx -> B) (m : gmap Z B) l x :
  (forall i, m !! i = f <$> lookZ l i) -> forall i, <[len l := f x]> m !! i = f <$> lookZ (l ++ [x]) i.
Proof using Type.
  intros H i. rewrite lookZ_snoc. case_bool_decide as E; [subst; by rewrite lookup_insert_eq|].
  by rewrite lookup_insert_ne, H by done.
Qed.

Lemma inserts_dom ks m k : is_Some (inserts ks m !! k) <-> k ∈ ks \/ is_Some (m !! k).
Proof using Type.
  revert m. induction ks as [|k' ks IH]; intros m; cbn; [split; [by right|intros [H|?]; [by apply not_elem_of_nil in H|done]]|].
  fold (inserts ks (<[k' := ()]> m)). rewrite IH, elem_of_cons. destruct (decide (k = k')) as [->|Hk].
  - rewrite lookup_insert_eq. split; [by left; left|]. intros _. right. by eexists.
  - rewrite lookup_insert_ne by done. tauto.
Qed.

Lemma holds_txs_ok l t : holds l t -> txs_ok (len (all_outs l)) t.
Proof using Type.
  intros [H1 H2 H3 H4 _ H6 _ H8]. split; [| | | |by apply outs_hold_ok].
  - intros i. rewrite H1, H6. intros Hi. apply fmap_is_Some in Hi as [x Hx]. apply lookZ_lt in Hx. lia.
  - intros i. rewrite H2, H6. intros Hi. apply fmap_is_Some in Hi as [x Hx]. apply lookZ_lt in Hx. lia.
  - intros i. rewrite H4, H6. intros Hi. apply fmap_is_Some in Hi as [x Hx]. apply lookZ_lt in Hx. lia.
  - intros i. rewrite H3, H6. intros [u Hu]. apply bind_Some in Hu as (x & Hx & _). apply lookZ_lt in Hx. lia.
Qed.

Lemma added_holds l tx blob hash h t :
  holds l t -> new_tx (len (all_outs l)) tx blob hash t -> holds (l ++ [mk_stored tx blob hash h]) (added tx blob hash h t).
Proof using Type.
  intros [H1 H2 H3 H4 H5 H6 H7 H8] [Hs _ Hh Hk _ Hr]. unfold added. rewrite H6.
  set (x := mk_stored tx blob hash h).
  assert (tx_outs tx h (len l) = stored_outs (length l) x) as Ht by done. rewrite Ht.
  destruct (do_outs_hold (all_outs l) (outs_part t) (stored_outs (length l) x) H8) as [Hn Ho].
  { rewrite <- Ht, tx_outs_len. done. }
  destruct (do_outs (outs_part t) (stored_outs (length l) x)) as [idxs [[n o] r]]. cbn [fst snd] in Hn, Ho.
  split; cbn.
  - by apply (insert_len_lookZ s_blob _ l x).
  - by apply (insert_len_lookZ s_height _ l x).
  - intros i. rewrite lookZ_snoc. case_bool_decide as E; cbn; destruct (unlock_of tx) as [u|] eqn:Eu.
    + subst. by rewrite lookup_insert_eq.
    + subst. rewrite H3. unfold lookZ, len. destruct (_ <? 0); [done|]. by rewrite lookup_ge_None_2 by lia.
    + by rewrite lookup_insert_ne, H3 by done.
    + apply H3.
  - intros i. rewrite lookZ_snoc. case_bool_decide as E.
    + subst. rewrite lookup_insert_eq. cbn. unfold len. by rewrite Nat2Z.id, take_app_length.
    + rewrite lookup_insert_ne, H4 by done. destruct (lookZ l i) as [y|] eqn:Ey; [|done]. cbn. apply lookZ_lt in Ey.
      rewrite take_app_le by (unfold len in Ey; lia). done.
  - intros h' i. rewrite lookup_insert_Some, lookZ_snoc. split.
    + intros [[<- <-]|[Hne Hi]]; [rewrite bool_decide_eq_true_2 by done; by exists x|].
      apply H5 in Hi as (y & Hy & <-). exists y. apply lookZ_lt in Hy as Hy'. by rewrite bool_decide_eq_false_2 by lia.
    + intros (y & Hy & <-). case_bool_decide as E; [injection Hy as <-; by left|]. right.
      assert (tx_ids t !! s_hash y = Some i) as Hi by (apply H5; eauto). split; [|done]. intros E'. congruence.
  - unfold db_len in *. rewrite map_size_insert_None, len_app by done. change (len [x]) with 1. lia.
  - intros k. rewrite inserts_dom, H7. unfold all_kis. rewrite bind_app, elem_of_app. cbn. rewrite app_nil_r. tauto.
  - by rewrite all_outs_snoc.
Qed.

End parts.

End TxStore.
