(* ===== verification/AltBlocks.v ===== *)
(** * Storing alternative blocks ([src/storage/blockchain/src/ops/alt_block]: [block.rs],
    [chain.rs], [tx.rs]; the data of [src/types/types/src/types.rs])

    Blocks outside the main chain are kept under the id of their chain. The two loops that
    follow the parents of a chain visit a chain again only if they run forever, so the
    number of chains is enough fuel; running out of it is the outcome [Panic]. *)
From S2P Require Import Prelude Bytes HardForks ChainDb TxData BlockRules Helpers DbTables TxOps.
From Stdlib Require Import ZArith Lia String.
From stdpp Require Import base tactics option list numbers sets gmap.
Import HardForks ChainDb TxData Helpers DbTables TxOps.

#[local] Open Scope Z_scope.
#[local] Open Scope usize_scope.

Module AltBlocks.

Section ops.
Context {O : MoneroOxide} {T : TransactionOps O} {C : Dalek O} {Cd : MoneroCodec O}.

Record VerifiedTransactionInformation := mk_verified_tx {
  v_tx : Transaction;
  v_tx_blob : bytes;
  v_tx_weight : Z;
  v_fee : Z;
  v_tx_hash : bytes;
}.

Record VerifiedBlockInformation := mk_verified_block {
  block : BlockRules.Block;
  block_blob : bytes;
  txs : list VerifiedTransactionInformation;
  vb_block_hash : bytes;
  pow_hash : bytes;
  vb_height : Z;
  generated_coins : Z;
  weight : Z;
  vb_long_term_weight : Z;
  vb_cumulative_difficulty : Z;
}.

Record AltBlockInformation := mk_alt_block {
  ab_block : BlockRules.Block;
  ab_block_blob : bytes;
  ab_txs : list VerifiedTransactionInformation;
  ab_block_hash : bytes;
  ab_pow_hash : bytes;
  ab_height : Z;
  ab_weight : Z;
  ab_long_term_weight : Z;
  ab_cumulative_difficulty : Z;
  ab_chain_id : Z;
}.

(** ** Alternative transactions *)
Definition add_alt_transaction_blob (tx : VerifiedTransactionInformation) (t : Tables) : Tables :=
  let t := set_alt_transaction_infos
             (db_put (v_tx_hash tx) (mk_alt_tx_info (v_tx_weight tx) (v_fee tx) (v_tx_hash tx))) t in
  if bool_decide (is_Some (tx_ids t !! v_tx_hash tx)) || bool_decide (is_Some (alt_transaction_blobs t !! v_tx_hash tx))
  then t
  else set_alt_transaction_blobs (db_put (v_tx_hash tx) (v_tx_blob tx)) t.

Definition get_alt_transaction (tx_hash : bytes) (t : Tables) : DbResult VerifiedTransactionInformation :=
  tx_info ← db_get (alt_transaction_infos t) tx_hash;
  tx_blob ← match db_get (alt_transaction_blobs t) tx_hash with
            | Ok blob => Ok blob
            | Err KeyNotFound =>
                tx_id ← db_get (tx_ids t) tx_hash;
                db_get (tx_blobs t) tx_id
            | Err e => Err e
            | Panic => Panic
            end;
  tx ← unwrap (tx_read tx_blob);
  Ok (mk_verified_tx tx tx_blob (at_tx_weight tx_info) (at_fee tx_info) (at_tx_hash tx_info)).

(** ** Alternative chains *)

(** The closure given to [update]. *)
Definition updated_chain_info (h : Z) (parent_chain : Chain) (info : AltChainInfo) : DbResult AltChainInfo :=
  if info_chain_height info <? h +! 1 then
    Ok (mk_alt_chain_info (DbTables.parent_chain info) (common_ancestor_height info) (h +! 1))
  else
    ancestor ← unwrap (checked_sub h 1);
    Ok (mk_alt_chain_info (raw_chain parent_chain) ancestor (info_chain_height info)).

Definition update_alt_chain_info (h : AltBlockHeight) (prev_hash : bytes) (t : Tables) : DbResult Tables :=
  parent_chain ← match db_get (alt_block_heights t) prev_hash with
                 | Ok alt_parent_height => id ← chain_id_of_raw (alt_chain_id alt_parent_height); Ok (Alt id)
                 | Err KeyNotFound => Ok Main
                 | Err e => Err e
                 | Panic => Panic
                 end;
  match db_update (alt_chain_id h) (fun info => info ← updated_chain_info (alt_height h) parent_chain info; Ok (Some info))
          (alt_chain_infos t) with
  | Ok infos => Ok (set_alt_chain_infos (fun _ => infos) t)
  | Err KeyNotFound =>
      ancestor ← unwrap (checked_sub (alt_height h) 1);
      Ok (set_alt_chain_infos (db_put (alt_chain_id h)
            (mk_alt_chain_info (raw_chain parent_chain) ancestor (alt_height h +! 1))) t)
  | Err e => Err e
  | Panic => Panic
  end.

Definition range : Type := Z * Z.

Fixpoint history_ranges_loop (fuel : nat) (start i current_chain_id : Z) (infos : gmap Z AltChainInfo)
    (ranges : list (Chain * range)) : DbResult (list (Chain * range)) :=
  if start <? i then
    match fuel with
    | 0%nat => Panic
    | S fuel =>
        chain_info ← db_get infos current_chain_id;
        let start_height := Z.max start (common_ancestor_height chain_info +! 1) in
        let end_height := Z.min i (info_chain_height chain_info) in
        id ← chain_id_of_raw current_chain_id;
        let ranges := ranges ++ [(Alt id, (start_height, end_height))] in
        let i := common_ancestor_height chain_info +! 1 in
        match chain_of_raw (DbTables.parent_chain chain_info) with
        | Main => Ok (ranges ++ [(Main, (start, i))])
        | Alt alt_chain_id =>
            if alt_chain_id =? current_chain_id then
              Err (Io "Loop detected in ChainIDs, invalid alt chain.")
            else history_ranges_loop fuel start i alt_chain_id infos ranges
        end
    end
  else Ok ranges.

Definition get_alt_chain_history_ranges (r : range) (alt_chain : Z) (t : Tables) : DbResult (list (Chain * range)) :=
  history_ranges_loop (S (size (alt_chain_infos t))) r.1 r.2 alt_chain (alt_chain_infos t) [].

(** ** Alternative blocks *)
Definition flush_alt_blocks (t : Tables) : Tables :=
  let t := set_alt_chain_infos (fun _ => ∅) t in
  let t := set_alt_block_heights (fun _ => ∅) t in
  let t := set_alt_blocks_info (fun _ => ∅) t in
  let t := set_alt_block_blobs (fun _ => ∅) t in
  let t := set_alt_transaction_blobs (fun _ => ∅) t in
  set_alt_transaction_infos (fun _ => ∅) t.

Definition add_alt_block (alt_block : AltBlockInformation) (t : Tables) : DbResult Tables :=
  let alt_block_height := mk_alt_height (ab_chain_id alt_block) (ab_height alt_block) in
  let t := set_alt_block_heights (db_put (ab_block_hash alt_block) alt_block_height) t in
  t ← update_alt_chain_info alt_block_height (BlockRules.previous (BlockRules.header (ab_block alt_block))) t;
  let '(cumulative_difficulty_low, cumulative_difficulty_high) :=
    split_u128_into_low_high_bits (ab_cumulative_difficulty alt_block) in
  let alt_block_info :=
    mk_compact (ab_block_hash alt_block) (ab_pow_hash alt_block) (ab_height alt_block) (ab_weight alt_block)
      (ab_long_term_weight alt_block) cumulative_difficulty_low cumulative_difficulty_high in
  let t := set_alt_blocks_info (db_put alt_block_height alt_block_info) t in
  let t := set_alt_block_blobs (db_put alt_block_height (ab_block_blob alt_block)) t in
  _ ← rassert (len (ab_txs alt_block) =? len (BlockRules.transactions (ab_block alt_block)));
  Ok (foldl (fun t tx => add_alt_transaction_blob tx t) t (ab_txs alt_block)).

Definition get_alt_block (h : AltBlockHeight) (t : Tables) : DbResult AltBlockInformation :=
  block_info ← db_get (alt_blocks_info t) h;
  block_blob ← db_get (alt_block_blobs t) h;
  block ← read_io (block_read block_blob);
  txs ← collect (fun tx_hash => get_alt_transaction tx_hash t) (BlockRules.transactions block);
  chain_id ← chain_id_of_raw (alt_chain_id h);
  Ok (mk_alt_block block block_blob txs (c_block_hash block_info) (c_pow_hash block_info) (c_height block_info)
        (c_weight block_info) (c_long_term_weight block_info)
        (combine_low_high_bits_to_u128 (c_cumulative_difficulty_low block_info) (c_cumulative_difficulty_high block_info))
        chain_id).

Definition get_block_info (block_height : Z) (t : Tables) : DbResult BlockInfo := db_get (block_infos t) block_height.

Fixpoint original_chain_loop (fuel : nat) (block_height chain : Z) (infos : gmap Z AltChainInfo) : DbResult Chain :=
  match fuel with
  | 0%nat => Panic
  | S fuel =>
      chain_info ← db_get infos chain;
      if common_ancestor_height chain_info <? block_height then id ← chain_id_of_raw chain; Ok (Alt id)
      else
        match chain_of_raw (DbTables.parent_chain chain_info) with
        | Main => Ok Main
        | Alt alt_chain_id => original_chain_loop fuel block_height alt_chain_id infos
        end
  end.

Definition get_alt_block_hash (block_height : Z) (alt_chain : Z) (t : Tables) : DbResult bytes :=
  original_chain ← original_chain_loop (S (size (alt_chain_infos t))) block_height alt_chain (alt_chain_infos t);
  match original_chain with
  | Main => info ← get_block_info block_height t; Ok (bi_block_hash info)
  | Alt chain_id => info ← db_get (alt_blocks_info t) (mk_alt_height chain_id block_height); Ok (c_block_hash info)
  end.

Definition get_alt_block_extended_header_from_height (h : AltBlockHeight) (t : Tables) : DbResult ExtendedBlockHeader :=
  block_info ← db_get (alt_blocks_info t) h;
  block_blob ← db_get (alt_block_blobs t) h;
  block_header ← read_io (header_read block_blob);
  version ← expect (from_version (BlockRules.hardfork_version block_header));
  Ok (mk_ext version (BlockRules.hardfork_version block_header) (BlockRules.timestamp block_header)
        (combine_low_high_bits_to_u128 (c_cumulative_difficulty_low block_info) (c_cumulative_difficulty_high block_info))
        (c_weight block_info) (c_long_term_weight block_info)).

End ops.

End AltBlocks.
