(* ===== verification/BlockOps.v ===== *)
(** * Storing blocks ([src/storage/blockchain/src/ops]: [block.rs], [blockchain.rs])

    Adding a block at the top of the main chain, popping the top block (into an
    alternative chain or for good) and reading blocks back. The checks of [add_block] that
    only debug builds make are left out. *)
From S2P Require Import Prelude Bytes HardForks ChainDb TxData BlockRules Helpers DbTables TxOps AltBlocks.
From Stdlib Require Import ZArith Lia String.
From stdpp Require Import base tactics option list numbers sets gmap.
Import HardForks ChainDb TxData Helpers DbTables TxOps AltBlocks.

#[local] Open Scope Z_scope.
#[local] Open Scope usize_scope.

Module BlockOps.

Section ops.
Context {O : MoneroOxide} {T : TransactionOps O} {C : Dalek O} {Cd : MoneroCodec O}.

(** ** [blockchain.rs] *)
Definition chain_height (t : Tables) : Z := db_len (block_heights t).

Definition top_block_height (t : Tables) : DbResult Z :=
  let height := db_len (block_heights t) in
  if height =? 0 then Err KeyNotFound else Ok (height -! 1).

Definition cumulative_generated_coins (block_height : Z) (t : Tables) : DbResult Z :=
  match db_get (block_infos t) block_height with
  | Ok block_info => Ok (DbTables.cumulative_generated_coins block_info)
  | Err KeyNotFound => if block_height =? 0 then Ok 0 else Err KeyNotFound
  | Err e => Err e
  | Panic => Panic
  end.

Definition block_exists (block_hash : bytes) (t : Tables) : DbResult bool := db_contains (block_heights t) block_hash.

(** The closure of [find_split_point]: whether a block is known. *)
Definition block_known (include_alt_blocks : bool) (t : Tables) (block_id : bytes) : bool :=
  bool_decide (is_Some (block_heights t !! block_id))
  || (include_alt_blocks && bool_decide (is_Some (alt_block_heights t !! block_id))).

Definition find_split_point (block_ids : list bytes) (chronological_order include_alt_blocks : bool) (t : Tables)
    : Z :=
  Z.of_nat (partition_point (fun block_id => eqb (block_known include_alt_blocks t block_id) chronological_order) block_ids).

(** ** Adding and popping blocks *)
Definition add_block (b : VerifiedBlockInformation) (t : Tables) : DbResult Tables :=
  _ ← rassert (vb_height b <? 2 ^ 32);
  let chain_height := chain_height t in
  _ ← rassert (vb_height b =? chain_height);
  '(mining_tx_index, t) ←
    (let tx := BlockRules.miner_transaction (block b) in
     add_tx tx (tx_serialize tx) (tx_hash tx) chain_height t);
  t ← try_fold (fun t tx =>
        '(_, t) ← add_tx (v_tx tx) (v_tx_blob tx) (v_tx_hash tx) chain_height t;
        Ok t) t (txs b);
  let cumulative_rct_outs := get_rct_num_outputs t in
  coins ← cumulative_generated_coins (saturating_sub (vb_height b) 1) t;
  let coins := saturating_add 64 coins (generated_coins b) in
  let '(low, high) := split_u128_into_low_high_bits (vb_cumulative_difficulty b) in
  let t := set_block_infos (db_put (vb_height b)
             (mk_block_info (BlockRules.timestamp (BlockRules.header (block b))) coins (weight b) low high
                (vb_block_hash b) cumulative_rct_outs (vb_long_term_weight b) mining_tx_index)) t in
  let t := set_block_header_blobs (db_put (vb_height b) (header_serialize (BlockRules.header (block b)))) t in
  let t := set_block_txs_hashes (db_put (vb_height b) (BlockRules.transactions (block b))) t in
  Ok (set_block_heights (db_put (vb_block_hash b) (vb_height b)) t).

(** The information kept with a popped transaction. *)
Definition popped_tx (tx : Transaction) : DbResult VerifiedTransactionInformation :=
  fee ← tx_fee tx;
  Ok (mk_verified_tx tx (tx_serialize tx) (tx_weight tx) fee (tx_hash tx)).

Definition pop_block (move_to_alt_chain : option Z) (t : Tables) : DbResult ((Z * bytes * BlockRules.Block) * Tables) :=
  '((block_height, block_info), infos) ← db_pop_last (block_infos t);
  let t := set_block_infos (fun _ => infos) t in
  let t := set_block_heights (db_delete (bi_block_hash block_info)) t in
  '(block_header, blobs) ← db_take block_height (block_header_blobs t);
  let t := set_block_header_blobs (fun _ => blobs) t in
  '(block_txs_hashes, hashes) ← db_take block_height (block_txs_hashes t);
  let t := set_block_txs_hashes (fun _ => hashes) t in
  miner_transaction ← db_get (tx_blobs t) (mining_tx_index block_info);
  header ← read_io (header_read block_header);
  miner_tx ← read_io (tx_read miner_transaction);
  block ← unwrap (block_new header miner_tx block_txs_hashes);
  '(_, t) ← remove_tx (tx_hash (BlockRules.miner_transaction block)) t;
  t ← match move_to_alt_chain with
      | Some chain_id =>
          '(txs, t) ← collect_st (fun tx_hash t =>
             '((_, tx), t) ← remove_tx tx_hash t;
             tx ← popped_tx tx;
             Ok (tx, t)) (BlockRules.transactions block) t;
          add_alt_block
            (mk_alt_block block (block_serialize block) txs (bi_block_hash block_info) (repeat 0 32) block_height
               (bi_weight block_info) (bi_long_term_weight block_info)
               (combine_low_high_bits_to_u128 (cumulative_difficulty_low block_info) (cumulative_difficulty_high block_info))
               chain_id) t
      | None =>
          try_fold (fun t tx_hash => '(_, t) ← remove_tx tx_hash t; Ok t) t (BlockRules.transactions block)
      end;
  Ok ((block_height, bi_block_hash block_info, block), t).

(** ** Reading blocks *)
Definition get_block_blob_with_tx_indexes (block_height : Z) (t : Tables) : DbResult (bytes * Z * Z) :=
  info ← db_get (block_infos t) block_height;
  let miner_tx_idx := mining_tx_index info in
  block_txs ← db_get (block_txs_hashes t) block_height;
  let numb_txs := len block_txs in
  header ← db_get (block_header_blobs t) block_height;
  miner_tx_blob ← db_get (tx_blobs t) miner_tx_idx;
  Ok (header ++ miner_tx_blob ++ varint_write (len block_txs) ++ concat block_txs, miner_tx_idx, numb_txs).

(** [BlockCompleteEntry] with [TransactionBlobs::Normal]; [pruned] is [false] and
    [block_weight] 0. *)
Record BlockCompleteEntry := mk_complete_entry { bce_block : bytes; bce_txs : list bytes }.

Definition get_block_complete_entry_from_height (block_height : Z) (t : Tables) : DbResult BlockCompleteEntry :=
  '(block_blob, miner_tx_idx, numb_non_miner_txs) ← get_block_blob_with_tx_indexes block_height t;
  let first_tx_idx := miner_tx_idx +! 1 in
  tx_blobs ← collect (fun idx => db_get (tx_blobs t) idx)
               (seqZ first_tx_idx (numb_non_miner_txs +! first_tx_idx - first_tx_idx));
  Ok (mk_complete_entry block_blob tx_blobs).

Definition get_block_complete_entry (block_hash : bytes) (t : Tables) : DbResult BlockCompleteEntry :=
  block_height ← db_get (block_heights t) block_hash;
  get_block_complete_entry_from_height block_height t.

Definition get_block_extended_header_from_height (block_height : Z) (t : Tables) : DbResult ExtendedBlockHeader :=
  block_info ← db_get (block_infos t) block_height;
  block_header_blob ← db_get (block_header_blobs t) block_height;
  block_header ← read_io (header_read block_header_blob);
  let cumulative_difficulty :=
    combine_low_high_bits_to_u128 (cumulative_difficulty_low block_info) (cumulative_difficulty_high block_info) in
  version ← expect (from_version (BlockRules.hardfork_version block_header));
  Ok (mk_ext version (BlockRules.hardfork_signal block_header) (BlockRules.timestamp block_header)
        cumulative_difficulty (bi_weight block_info) (bi_long_term_weight block_info)).

Definition get_block_extended_header (block_hash : bytes) (t : Tables) : DbResult ExtendedBlockHeader :=
  block_height ← db_get (block_heights t) block_hash;
  get_block_extended_header_from_height block_height t.

Definition get_block_extended_header_top (t : Tables) : DbResult (ExtendedBlockHeader * Z) :=
  let height := saturating_sub (chain_height t) 1 in
  header ← get_block_extended_header_from_height height t;
  Ok (header, height).

Definition get_block (t : Tables) (block_height : Z) : DbResult BlockRules.Block :=
  header_blob ← db_get (block_header_blobs t) block_height;
  header ← read_io (header_read header_blob);
  transactions ← db_get (block_txs_hashes t) block_height;
  info ← db_get (block_infos t) block_height;
  miner_transaction ← get_tx_from_id (mining_tx_index info) t;
  unwrap (block_new header miner_transaction transactions).

Definition get_block_by_hash (t : Tables) (block_hash : bytes) : DbResult BlockRules.Block :=
  block_height ← db_get (block_heights t) block_hash;
  get_block t block_height.

Definition get_block_height (block_hash : bytes) (t : Tables) : DbResult Z := db_get (block_heights t) block_hash.

End ops.

End BlockOps.
