(* ===== verification/ChainStore.v ===== *)
(** * The main chain in the database

    [stores chain t] says that the tables [t] hold the blocks [chain]: every table is the
    function of the chain that its documentation gives. [BlockOps.add_block] appends a
    block and [BlockOps.pop_block] takes the top block off again, exactly. *)
From S2P Require Import Prelude Bytes HardForks ChainDb TxData BlockRules TxContext Helpers DbTables TxOps TxStore AltBlocks BlockOps.
From Stdlib Require Import ZArith Lia String.
From stdpp Require Import base tactics option list numbers sets gmap.
Import HardForks ChainDb TxData TxContext Helpers DbTables TxOps TxStore AltBlocks BlockOps.

#[local] Open Scope Z_scope.
#[local] Open Scope usize_scope.

Module ChainStore.

Section store.
Context {O : MoneroOxide} {T : TransactionOps O} {C : Dalek O} {Cd : MoneroCodec O}.

(** ** Chains *)

(** The transactions of a block, the miner transaction first. *)
Definition block_txs (b : VerifiedBlockInformation) : list StoredTx :=
  let miner := BlockRules.miner_transaction (block b) in
  mk_stored miner (tx_serialize miner) (tx_hash miner) (vb_height b)
  :: map (fun x => mk_stored (v_tx x) (v_tx_blob x) (v_tx_hash x) (vb_height b)) (txs b).

(** What a verified block promises: the blobs parse back to what they were made from, and
    the information about a transaction is the one computed from it. *)
Record block_sound (b : VerifiedBlockInformation) : Prop := {
  bs_hashes : BlockRules.transactions (block b) = map v_tx_hash (txs b);
  bs_new : block_new (BlockRules.header (block b)) (BlockRules.miner_transaction (block b))
             (BlockRules.transactions (block b)) = Some (block b);
  bs_header : header_read (header_serialize (BlockRules.header (block b))) = Some (BlockRules.header (block b));
  bs_miner : tx_shape (BlockRules.miner_transaction (block b)) /\
    tx_read (tx_serialize (BlockRules.miner_transaction (block b))) = Some (BlockRules.miner_transaction (block b));
  bs_txs : Forall (fun x => tx_shape (v_tx x) /\ tx_read (v_tx_blob x) = Some (v_tx x) /\ popped_tx (v_tx x) = Ok x) (txs b);
  bs_format : block_serialize (block b) =
    header_serialize (BlockRules.header (block b)) ++ tx_serialize (BlockRules.miner_transaction (block b))
    ++ varint_write (len (BlockRules.transactions (block b))) ++ concat (BlockRules.transactions (block b));
  bs_read : block_read (block_serialize (block b)) = Some (block b) /\
    header_read (block_serialize (block b)) = Some (BlockRules.header (block b));
  bs_version : exists hf, from_version (BlockRules.hardfork_version (BlockRules.header (block b))) = Ok hf;
  bs_difficulty : is_u 128 (vb_cumulative_difficulty b);
  bs_timelocks : Forall (fun x => timelock_ok (additional_timelock (prefix (s_tx x)))) (block_txs b);
}.

Definition chain_txs (chain : list VerifiedBlockInformation) : list StoredTx := chain ≫= block_txs.

(** Heights count from 0, hashes and key images are unique, and the numbers of blocks and
    outputs fit their types. *)
Record valid_chain (chain : list VerifiedBlockInformation) : Prop := {
  vc_heights : forall i b, chain !! i = Some b -> vb_height b = Z.of_nat i;
  vc_len : len chain < 2 ^ 32;
  vc_hashes : NoDup (map vb_block_hash chain);
  vc_tx_hashes : NoDup (map s_hash (chain_txs chain));
  vc_kis : NoDup (all_kis (chain_txs chain));
  vc_room : len (all_outs (chain_txs chain)) < 2 ^ 64;
  vc_sound : Forall block_sound chain;
}.

Lemma chain_txs_snoc chain b : chain_txs (chain ++ [b]) = chain_txs chain ++ block_txs b.
Proof using Type. unfold chain_txs. rewrite bind_app. cbn. by rewrite app_nil_r. Qed.

Lemma all_outs_app l l' : exists xs, all_outs (l ++ l') = all_outs l ++ xs.
Proof using Type. unfold all_outs. rewrite imap_app, concat_app. by eexists. Qed.

Lemma all_outs_app_len l l' : len (all_outs l) <= len (all_outs (l ++ l')).
Proof using Type. destruct (all_outs_app l l') as [xs ->]. rewrite len_app. unfold len. lia. Qed.

Lemma all_kis_app l l' : all_kis (l ++ l') = all_kis l ++ all_kis l'.
Proof using Type. apply bind_app. Qed.

Lemma valid_chain_init chain b : valid_chain (chain ++ [b]) -> valid_chain chain.
Proof using Type.
  intros [H1 H2 H3 H4 H5 H6 H7]. rewrite len_app in H2. rewrite chain_txs_snoc in *. rewrite map_app in *.
  rewrite all_kis_app in H5. change (len [b]) with 1 in H2. split.
  - intros i b' Hb. apply H1. by apply lookup_app_l_Some.
  - lia.
  - by apply NoDup_app in H3 as (? & _).
  - by apply NoDup_app in H4 as (? & _).
  - by apply NoDup_app in H5 as (? & _).
  - pose proof (all_outs_app_len (chain_txs chain) (block_txs b)). lia.
  - by apply Forall_app in H7 as [? _].
Qed.

Lemma valid_chain_prefix chain bs : valid_chain (chain ++ bs) -> valid_chain chain.
Proof using Type.
  induction bs as [|b bs IH] using rev_ind; intros Hv; [by rewrite app_nil_r in Hv|]. rewrite app_assoc in Hv. apply IH. by eapply valid_chain_init.
Qed.

(** ** What the tables hold *)
Definition coins_after (chain : list VerifiedBlockInformation) : Z :=
  foldl (fun a b => saturating_add 64 a (generated_coins b)) 0 chain.

Definition info_of (prev : list VerifiedBlockInformation) (b : VerifiedBlockInformation) : BlockInfo :=
  let '(low, high) := split_u128_into_low_high_bits (vb_cumulative_difficulty b) in
  mk_block_info (BlockRules.timestamp (BlockRules.header (block b))) (coins_after (prev ++ [b])) (weight b) low high
    (vb_block_hash b) (len (rct_list (all_outs (chain_txs (prev ++ [b]))))) (vb_long_term_weight b) (len (chain_txs prev)).

Record stores (chain : list VerifiedBlockInformation) (t : Tables) : Prop := {
  st_txs : holds (chain_txs chain) t;
  st_heights : forall h i, block_heights t !! h = Some i <-> exists b, lookZ chain i = Some b /\ vb_block_hash b = h;
  st_len : db_len (block_heights t) = len chain;
  st_infos : forall i, block_infos t !! i = info_of (take (Z.to_nat i) chain) <$> lookZ chain i;
  st_headers : forall i, block_header_blobs t !! i =
    (fun b => header_serialize (BlockRules.header (block b))) <$> lookZ chain i;
  st_tx_hashes : forall i, block_txs_hashes t !! i = (fun b => BlockRules.transactions (block b)) <$> lookZ chain i;
}.

Definition main_part (t : Tables) :=
  (block_header_blobs t, block_txs_hashes t, block_heights t, block_infos t,
   (key_images t, num_outputs t, outputs_table t, rct_outputs t,
    (tx_blobs t, tx_ids t, tx_heights t, tx_outputs t, tx_unlock_time t))).

Definition alt_part (t : Tables) :=
  (alt_chain_infos t, alt_block_heights t, alt_blocks_info t, alt_block_blobs t, alt_transaction_blobs t,
   alt_transaction_infos t).

Lemma parts_eq t t' : main_part t = main_part t' -> alt_part t = alt_part t' -> t = t'.
Proof using Type. destruct t, t'. unfold main_part, alt_part. cbn. intros. by simplify_eq. Qed.

(** Keys that determine their values have one map. *)
Lemma map_eq_iff {K V} `{Countable K} (m m' : gmap K V) :
  (forall k v, m !! k = Some v <-> m' !! k = Some v) -> m = m'.
Proof using Type. intros H'. apply map_eq. intros k. apply option_eq. intros v. apply H'. Qed.

Lemma is_Some_unit (o : option ()) : is_Some o <-> o = Some ().
Proof using Type. split; [by intros [[] ->]|intros ->; by eexists]. Qed.

Lemma stores_unique chain t t' : stores chain t -> stores chain t' -> main_part t = main_part t'.
Proof using Type.
  intros [Ht A1 _ A3 A4 A5] [Ht' B1 _ B3 B4 B5].
  destruct Ht as [H1 H2 H3 H4 H5 _ H7 [O1 O2 O3 _]], Ht' as [I1 I2 I3 I4 I5 _ I7 [P1 P2 P3 _]]. unfold main_part, outs_part in *. cbn in *.
  repeat match goal with |- (_, _) = (_, _) => f_equal end;
    try (apply map_eq; intros i; first [by rewrite A3, B3|by rewrite A4, B4|by rewrite A5, B5|by rewrite H1, I1|by rewrite H2, I2|by rewrite H3, I3|by rewrite H4, I4|by rewrite O1, P1|by rewrite O3, P3]).
  - apply map_eq_iff. intros h i. by rewrite A1, B1.
  - apply map_eq_iff. intros k []. rewrite <- !is_Some_unit. by rewrite H7, I7.
  - apply map_eq. intros [a j]. by rewrite O2, P2.
  - apply map_eq_iff. intros h i. by rewrite H5, I5.
Qed.

(** ** Adding and removing the transactions of a block *)
Definition entry_of (n : Z) (i : nat) (x : StoredTx) : entry := mk_entry (s_hash x) (n + Z.of_nat i) (s_tx x) (s_blob x).

Definition entries (n : Z) (xs : list StoredTx) : list entry := imap (entry_of n) xs.

Lemma entries_cons n x xs : entries n (x :: xs) = mk_entry (s_hash x) n (s_tx x) (s_blob x) :: entries (n + 1) xs.
Proof using Type.
  unfold entries. rewrite imap_cons. unfold entry_of at 1. rewrite Z.add_0_r. f_equal. apply imap_ext.
  intros i y _. unfold entry_of, compose. f_equal. lia.
Qed.

Definition tx_sound (x : StoredTx) : Prop := tx_shape (s_tx x) /\ tx_read (s_blob x) = Some (s_tx x) /\ s_height x < 2 ^ 32.

Context {L : DalekLaws O C} {ML : MoneroOxideLaws O T}.

Lemma new_tx_of l x t :
  holds l t -> tx_sound x -> NoDup (map s_hash (l ++ [x])) -> NoDup (all_kis (l ++ [x])) ->
  len (all_outs (l ++ [x])) < 2 ^ 64 -> new_tx (len (all_outs l)) (s_tx x) (s_blob x) (s_hash x) t.
Proof using Type.
  intros Hh (Hs & Hr & _) Hn Hk Hl. pose proof Hh as [_ _ _ _ H5 _ H7 _].
  rewrite map_app in Hn. apply NoDup_app in Hn as (_ & Hn & _).
  rewrite all_kis_app in Hk. apply NoDup_app in Hk as (_ & Hk & Hk').
  assert (all_kis [x] = kis_of (s_tx x)) as Ek by (unfold all_kis; cbn; by rewrite app_nil_r). rewrite Ek in *.
  split; [done|done| | |done|].
  - destruct (tx_ids t !! s_hash x) as [i|] eqn:E; [|done]. apply H5 in E as (y & Hy & Hyx). exfalso.
    apply (Hn (s_hash x)); [|by left]. rewrite <- Hyx. apply list_elem_of_fmap_2.
    unfold lookZ in Hy. destruct (i <? 0); [done|]. by eapply list_elem_of_lookup_2.
  - apply Forall_forall. intros k Hin. destruct (key_images t !! k) eqn:E; [|done]. exfalso. apply (Hk k); [|done].
    apply H7. rewrite E. by eexists.
  - rewrite all_outs_snoc, len_app in Hl. unfold stored_outs in Hl. by rewrite tx_outs_len in Hl.
Qed.

Definition add_stored (t : Tables) (x : StoredTx) : DbResult Tables :=
  '(_, t) ← add_tx (s_tx x) (s_blob x) (s_hash x) (s_height x) t; Ok t.

Lemma add_txs_spec xs l t t0 es :
  holds l t -> above t0 es t -> Forall tx_sound xs -> NoDup (map s_hash (l ++ xs)) -> NoDup (all_kis (l ++ xs)) ->
  len (all_outs (l ++ xs)) < 2 ^ 64 ->
  exists t', try_fold add_stored t xs = Ok t' /\ holds (l ++ xs) t' /\ above t0 (es ++ entries (len l) xs) t' /\
    rest_part t' = rest_part t.
Proof using L ML.
  revert l t es. induction xs as [|x xs IH]; intros l t es Hh Ha Hs Hn Hk Hl; cbn [try_fold].
  { exists t. unfold entries. cbn [imap]. by rewrite !app_nil_r. }
  apply List.Forall_cons_iff in Hs as [Hx Hs].
  rewrite (cons_middle x l xs), app_assoc in Hn, Hk, Hl.
  assert (new_tx (len (all_outs l)) (s_tx x) (s_blob x) (s_hash x) t) as Hnew.
  { apply new_tx_of; [done..| | |].
    - rewrite map_app in Hn. by apply NoDup_app in Hn as (? & _).
    - rewrite all_kis_app in Hk. by apply NoDup_app in Hk as (? & _).
    - pose proof (all_outs_app_len (l ++ [x]) xs). lia. }
  destruct Hx as (Hx1 & Hx2 & Hx3). set (t1 := added (s_tx x) (s_blob x) (s_hash x) (s_height x) t).
  assert (add_stored t x = Ok t1) as -> by (unfold add_stored; by rewrite add_tx_spec by done). cbn [mbind result_bind].
  assert (holds (l ++ [x]) t1) as Hh1 by (destruct x; by apply added_holds).
  pose proof (added_above (len (all_outs l)) t0 es t (s_tx x) (s_blob x) (s_hash x) (s_height x) Ha (holds_txs_ok l t Hh) Hnew) as Ha1.
  fold t1 in Ha1. rewrite (h_ids_len _ _ Hh) in Ha1. rewrite Permutation_cons_append in Ha1.
  destruct (IH (l ++ [x]) t1 _ Hh1 Ha1 Hs Hn Hk Hl) as (t' & Hf & Hh' & Ha' & Hr').
  exists t'. split_and!; [done|by rewrite (cons_middle x l xs), app_assoc| |].
  - rewrite entries_cons. rewrite <- app_assoc in Ha'. cbn [app] in Ha'. rewrite len_app in Ha'. done.
  - rewrite Hr'. apply added_rest.
Qed.

Lemma remove_txs_spec t0 es t :
  above t0 es t ->
  exists t', try_fold (fun t h => '(_, t) ← remove_tx h t; Ok t) t (map e_hash es) = Ok t' /\ above t0 [] t' /\
    rest_part t' = rest_part t.
Proof using Type.
  revert t. induction es as [|e es IH]; intros t Ha; cbn [try_fold map]; [by exists t|].
  destruct (remove_tx_above t0 e es t Ha) as (t1 & -> & Ha1 & Hr). cbn [mbind result_bind].
  destruct (IH t1 Ha1) as (t' & Hf & Ha' & Hr'). exists t'. split_and!; [done|done|congruence].
Qed.

(** The same loop, collecting the information about the transactions. *)
Lemma pop_txs_spec t0 es vs t :
  above t0 es t -> Forall2 (fun e v => popped_tx (e_tx e) = Ok v) es vs ->
  exists t', collect_st (fun h t => '((_, tx), t) ← remove_tx h t; tx ← popped_tx tx; Ok (tx, t)) (map e_hash es) t = Ok (vs, t') /\
    above t0 [] t' /\ rest_part t' = rest_part t.
Proof using Type.
  intros Ha Hv. revert t Ha. induction Hv as [|e v es vs Hev Hv IH]; intros t Ha; cbn [collect_st map]; [by exists t|].
  destruct (remove_tx_above t0 e es t Ha) as (t1 & -> & Ha1 & Hr). cbn [mbind result_bind]. rewrite Hev. cbn [mbind result_bind].
  destruct (IH t1 Ha1) as (t' & -> & Ha' & Hr'). exists t'. split_and!; [done|done|congruence].
Qed.

(** ** Adding a block *)
Definition with_block (chain : list VerifiedBlockInformation) (b : VerifiedBlockInformation) (t : Tables) : Tables :=
  set_block_heights (db_put (vb_block_hash b) (len chain))
    (set_block_txs_hashes (db_put (len chain) (BlockRules.transactions (block b)))
       (set_block_header_blobs (db_put (len chain) (header_serialize (BlockRules.header (block b))))
          (set_block_infos (db_put (len chain) (info_of chain b)) t))).

Lemma coins_below chain t :
  stores chain t -> cumulative_generated_coins (saturating_sub (len chain) 1) t = Ok (coins_after chain).
Proof using Type.
  intros Hst. unfold cumulative_generated_coins, db_get. rewrite (st_infos _ _ Hst). unfold saturating_sub.
  destruct chain as [|b0 chain0] using rev_ind; [done|]. clear IHchain0. rewrite len_app. change (len [b0]) with 1.
  rewrite Z.max_r by (unfold len; lia). replace (len chain0 + 1 - 1) with (len chain0) by lia.
  rewrite lookZ_snoc, bool_decide_eq_true_2 by done. cbn [fmap option_fmap option_map ok_or]. f_equal.
  unfold info_of. destruct (split_u128_into_low_high_bits _). cbn.
  unfold len. by rewrite Nat2Z.id, take_app_length.
Qed.

Lemma valid_chain_top chain b : valid_chain (chain ++ [b]) -> vb_height b = len chain /\ len chain < 2 ^ 32 - 1.
Proof using Type.
  intros [H1 H2 _ _ _ _ _]. rewrite len_app in H2. change (len [b]) with 1 in H2. split; [|lia].
  apply (H1 (length chain)). by rewrite lookup_app_r, Nat.sub_diag by done.
Qed.

Lemma block_txs_sound chain b : valid_chain (chain ++ [b]) -> Forall tx_sound (block_txs b).
Proof using Type.
  intros Hv. destruct (valid_chain_top chain b Hv) as [Hh Hl]. destruct Hv as [_ _ _ _ _ _ Hs].
  apply Forall_app in Hs as [_ Hs]. apply List.Forall_inv in Hs. destruct Hs as [_ _ _ [M1 M2] Htx _ _ _ _ _].
  constructor; [split_and!; cbn; [done|done|lia]|]. apply Forall_map. revert Htx. apply List.Forall_impl.
  intros x (H1 & H2 & _). split_and!; cbn; [done|done|lia].
Qed.

Lemma add_block_spec chain b t :
  valid_chain (chain ++ [b]) -> stores chain t ->
  exists t1, holds (chain_txs (chain ++ [b])) t1 /\ above t (entries (len (chain_txs chain)) (block_txs b)) t1 /\
    rest_part t1 = rest_part t /\ add_block b t = Ok (with_block chain b t1).
Proof using L ML.
  intros Hv Hst. destruct (valid_chain_top chain b Hv) as [Hh Hl]. pose proof (block_txs_sound chain b Hv) as Hs.
  destruct Hv as [_ _ _ V4 V5 V6 _]. rewrite chain_txs_snoc in *.
  destruct (add_txs_spec (block_txs b) (chain_txs chain) t t [] (st_txs _ _ Hst) (above_refl t) Hs V4 V5 V6)
    as (t1 & Hf & Hh1 & Ha1 & Hr1).
  exists t1. split_and!; [done|done|done|].
  assert (cumulative_generated_coins (saturating_sub (vb_height b) 1) t1 = Ok (coins_after chain)) as Hc.
  { rewrite Hh, <- (coins_below chain t Hst). unfold cumulative_generated_coins.
    assert (block_infos t1 = block_infos t) as -> by (unfold rest_part in Hr1; congruence). done. }
  unfold add_block, chain_height. rewrite (st_len _ _ Hst), Hh.
  rewrite (proj2 (Z.ltb_lt _ _)) by lia. rewrite Z.eqb_refl. cbn [rassert mbind result_bind].
  unfold block_txs in Hf. cbn [try_fold] in Hf. unfold add_stored in Hf. cbn [s_tx s_blob s_hash s_height] in Hf. rewrite Hh in Hf.
  inversion Hs as [|? ? (M1 & M2 & M3) _]; subst. cbn [s_tx s_blob s_hash s_height] in M1, M2, M3.
  rewrite add_tx_spec in * by (done || lia). cbn [mbind result_bind] in *.
  rewrite try_fold_map in Hf. cbn [s_tx s_blob s_hash s_height] in Hf. rewrite Hf. cbn [mbind result_bind].
  rewrite <- Hh, Hc. cbn [mbind result_bind]. unfold with_block, info_of. rewrite Hh, (h_ids_len _ _ (st_txs _ _ Hst)).
  assert (get_rct_num_outputs t1 = len (rct_list (all_outs (chain_txs (chain ++ [b]))))) as ->.
  { rewrite chain_txs_snoc. apply (h_outs _ _ Hh1). }
  assert (coins_after (chain ++ [b]) = saturating_add 64 (coins_after chain) (generated_coins b)) as -> by (unfold coins_after; by rewrite foldl_app).
  done.
Qed.

Lemma put_len_lookZ {B} (f : list VerifiedBlockInformation -> VerifiedBlockInformation -> B) (m : gmap Z B) chain b :
  (forall i, m !! i = f (take (Z.to_nat i) chain) <$> lookZ chain i) ->
  forall i, db_put (len chain) (f chain b) m !! i = f (take (Z.to_nat i) (chain ++ [b])) <$> lookZ (chain ++ [b]) i.
Proof using Type.
  intros H i. unfold db_put. rewrite lookZ_snoc. case_bool_decide as E.
  - subst. rewrite lookup_insert_eq. cbn. unfold len. by rewrite Nat2Z.id, take_app_length.
  - rewrite lookup_insert_ne, H by done. destruct (lookZ chain i) as [y|] eqn:Ey; [|done]. cbn. apply lookZ_lt in Ey.
    rewrite take_app_le by (unfold len in Ey; lia). done.
Qed.

Lemma with_block_stores chain b t t1 :
  valid_chain (chain ++ [b]) -> stores chain t -> holds (chain_txs (chain ++ [b])) t1 -> rest_part t1 = rest_part t ->
  stores (chain ++ [b]) (with_block chain b t1).
Proof using Type.
  intros [_ _ Hn _ _ _ _] [_ S1 S2 S3 S4 S5] Hh Hr. unfold rest_part in Hr. injection Hr as R1 R2 R3 R4 _ _ _ _ _ _.
  rewrite map_app in Hn. apply NoDup_app in Hn as (_ & Hn & _).
  assert (block_heights t !! vb_block_hash b = None) as Hfresh.
  { destruct (block_heights t !! vb_block_hash b) as [i|] eqn:E; [|done]. apply S1 in E as (y & Hy & Hyx). exfalso.
    apply (Hn (vb_block_hash b)); [|by left]. rewrite <- Hyx. apply list_elem_of_fmap_2.
    unfold lookZ in Hy. destruct (i <? 0); [done|]. by eapply list_elem_of_lookup_2. }
  split; cbn [with_block set_block_heights set_block_txs_hashes set_block_header_blobs set_block_infos block_heights block_infos
    block_header_blobs block_txs_hashes]; rewrite ?R1, ?R2, ?R3, ?R4.
  - destruct Hh. by split.
  - intros h i. unfold db_put. rewrite lookup_insert_Some, lookZ_snoc. split.
    + intros [[<- <-]|[Hne Hi]]; [rewrite bool_decide_eq_true_2 by done; by exists b|].
      apply S1 in Hi as (y & Hy & <-). exists y. apply lookZ_lt in Hy as Hy'. by rewrite bool_decide_eq_false_2 by lia.
    + intros (y & Hy & <-). case_bool_decide as E; [injection Hy as <-; by left|]. right.
      assert (block_heights t !! vb_block_hash y = Some i) as Hi by (apply S1; eauto). split; [|done]. intros E'. congruence.
  - unfold db_len, db_put in *. rewrite map_size_insert_None, len_app by done. change (len [b]) with 1. lia.
  - by apply (put_len_lookZ info_of).
  - by apply (put_len_lookZ (fun _ b => header_serialize (BlockRules.header (block b)))).
  - by apply (put_len_lookZ (fun _ b => BlockRules.transactions (block b))).
Qed.

(** ** Popping a block *)
Lemma pop_last_insert {V} (m : gmap Z V) n v :
  (forall i, is_Some (m !! i) -> i < n) -> db_pop_last (<[n := v]> m) = Ok ((n, v), m).
Proof using Type.
  intros H. unfold db_pop_last, db_last.
  assert (iter_max (map_to_list (<[n := v]> m)).*1 = Some n) as ->.
  { apply iter_max_eq.
    - apply list_elem_of_fmap. exists (n, v). split; [done|]. apply elem_of_map_to_list. by rewrite lookup_insert_eq.
    - intros k Hk. apply list_elem_of_fmap in Hk as ([k' v'] & -> & Hk). apply elem_of_map_to_list in Hk. cbn.
      apply lookup_insert_Some in Hk as [[<- _]|[_ Hk]]; [done|]. specialize (H k' (mk_is_Some _ _ Hk)). lia. }
  cbn [ok_or mbind result_bind]. unfold db_get, db_delete. rewrite lookup_insert_eq. cbn. by rewrite delete_insert_id by (by apply absent).
Qed.

Lemma take_insert {V} (m : gmap Z V) n v :
  m !! n = None -> db_take n (<[n := v]> m) = Ok (v, m).
Proof using Type. intros H. unfold db_take, db_get, db_delete. rewrite lookup_insert_eq. cbn. by rewrite delete_insert_id. Qed.

(** The alternative block a popped block becomes: its proof of work is not kept. *)
Definition popped_alt (chain_id : Z) (b : VerifiedBlockInformation) : AltBlockInformation :=
  mk_alt_block (block b) (block_serialize (block b)) (txs b) (vb_block_hash b) (repeat 0 32) (vb_height b) (weight b)
    (vb_long_term_weight b) (vb_cumulative_difficulty b) chain_id.

Definition move_to_alt (mv : option Z) (b : VerifiedBlockInformation) (t : Tables) : DbResult Tables :=
  match mv with Some chain_id => add_alt_block (popped_alt chain_id b) t | None => Ok t end.

Lemma infos_below {V} (m : gmap Z V) (chain : list VerifiedBlockInformation) (f : list VerifiedBlockInformation -> VerifiedBlockInformation -> V) :
  (forall i, m !! i = f (take (Z.to_nat i) chain) <$> lookZ chain i) -> forall i, is_Some (m !! i) -> i < len chain.
Proof using Type. intros H i. rewrite H. intros Hi. apply fmap_is_Some in Hi as [x Hx]. apply lookZ_lt in Hx. lia. Qed.

Lemma block_entries n b : block_sound b -> Forall2 (fun e v => popped_tx (e_tx e) = Ok v)
  (entries n (map (fun x => mk_stored (v_tx x) (v_tx_blob x) (v_tx_hash x) (vb_height b)) (txs b))) (txs b) /\
  map e_hash (entries n (map (fun x => mk_stored (v_tx x) (v_tx_blob x) (v_tx_hash x) (vb_height b)) (txs b))) = BlockRules.transactions (block b).
Proof using Type.
  intros [-> _ _ _ Htx _ _ _ _ _]. revert n. induction Htx as [|x xs (_ & _ & Hp) _ IH]; intros n; [by split; [constructor|]|].
  cbn [map]. rewrite entries_cons. cbn [e_hash s_hash s_tx s_blob map]. destruct (IH (n + 1)) as [H1 H2]. split; [by constructor|by f_equal].
Qed.

Lemma pop_block_spec chain b t t1 mv :
  valid_chain (chain ++ [b]) -> stores chain t ->
  above t (entries (len (chain_txs chain)) (block_txs b)) t1 -> rest_part t1 = rest_part t ->
  pop_block mv (with_block chain b t1) =
  (t' ← move_to_alt mv b t; Ok ((len chain, vb_block_hash b, block b), t')).
Proof using Type.
  intros Hv Hst Ha Hr. destruct (valid_chain_top chain b Hv) as [Hh Hl].
  assert (block_sound b) as Hs by (destruct Hv as [_ _ _ _ _ _ Hs]; apply Forall_app in Hs as [_ Hs]; by apply List.Forall_inv in Hs).
  assert (block_heights t !! vb_block_hash b = None) as Hfresh.
  { destruct (block_heights t !! vb_block_hash b) as [i|] eqn:E; [|done]. apply (st_heights _ _ Hst) in E as (y & Hy & Hyx). exfalso.
    destruct Hv as [_ _ Hn _ _ _ _]. rewrite map_app in Hn. apply NoDup_app in Hn as (_ & Hn & _).
    apply (Hn (vb_block_hash b)); [|by left]. rewrite <- Hyx. apply list_elem_of_fmap_2.
    unfold lookZ in Hy. destruct (i <? 0); [done|]. by eapply list_elem_of_lookup_2. }
  destruct Hst as [_ _ _ S3 S4 S5].
  pose proof (infos_below _ chain _ S3) as B3. pose proof (infos_below _ chain (fun _ b => header_serialize (BlockRules.header (block b))) S4) as B4.
  pose proof (infos_below _ chain (fun _ b => BlockRules.transactions (block b)) S5) as B5.
  pose proof Hr as Hr0. unfold rest_part in Hr0. injection Hr0 as R1 R2 R3 R4 _ _ _ _ _ _.
  unfold block_txs in Ha. rewrite entries_cons in Ha. cbn [s_hash s_tx s_blob] in Ha. set (n := len (chain_txs chain)) in *.
  set (tb := with_block chain b t1).
  assert (block_infos tb = <[len chain := info_of chain b]> (block_infos t)) as E1 by (rewrite <- R4; done).
  assert (block_header_blobs tb = <[len chain := header_serialize (BlockRules.header (block b))]> (block_header_blobs t)) as E2 by (rewrite <- R1; done).
  assert (block_txs_hashes tb = <[len chain := BlockRules.transactions (block b)]> (block_txs_hashes t)) as E3 by (rewrite <- R2; done).
  assert (block_heights tb = <[vb_block_hash b := len chain]> (block_heights t)) as E4 by (rewrite <- R3; done).
  assert (mining_tx_index (info_of chain b) = n /\ bi_block_hash (info_of chain b) = vb_block_hash b /\
    bi_weight (info_of chain b) = weight b /\ bi_long_term_weight (info_of chain b) = vb_long_term_weight b /\
    combine_low_high_bits_to_u128 (cumulative_difficulty_low (info_of chain b)) (cumulative_difficulty_high (info_of chain b)) = vb_cumulative_difficulty b)
    as (I1 & I2 & I3 & I4 & I5).
  { unfold info_of. pose proof (split_combine (vb_cumulative_difficulty b) (bs_difficulty _ Hs)) as Hc.
    destruct (split_u128_into_low_high_bits _). by split_and!. }
  unfold pop_block. rewrite E1, pop_last_insert by done. cbn [mbind result_bind]. rewrite I1, I2, I3, I4, I5.
  change (block_header_blobs (set_block_heights _ _)) with (block_header_blobs tb). rewrite E2, take_insert by (by apply absent). cbn [mbind result_bind].
  change (block_txs_hashes (set_block_header_blobs _ _)) with (block_txs_hashes tb). rewrite E3, take_insert by (by apply absent). cbn [mbind result_bind].
  change (tx_blobs (set_block_txs_hashes _ _)) with (tx_blobs t1). set (t4 := set_block_txs_hashes _ _).
  pose proof (above_entries _ _ _ Ha) as He. apply List.Forall_cons_iff in He as [(_ & Hblob & Hread) _]. cbn [e_id e_blob e_tx] in Hblob, Hread.
  unfold db_get. rewrite Hblob. cbn [ok_or mbind result_bind]. unfold read_io. rewrite (bs_header _ Hs), Hread. cbn [ok_or mbind result_bind].
  rewrite (bs_new _ Hs). cbn [unwrap mbind result_bind].
  assert (above t (mk_entry (tx_hash (BlockRules.miner_transaction (block b))) n (BlockRules.miner_transaction (block b))
    (tx_serialize (BlockRules.miner_transaction (block b))) :: entries (n + 1)
    (map (fun x => mk_stored (v_tx x) (v_tx_blob x) (v_tx_hash x) (vb_height b)) (txs b))) t4) as Ha4 by (by destruct Ha; split).
  assert (rest_part t4 = rest_part t) as Hr4.
  { rewrite <- Hr. unfold rest_part, t4. cbn [set_block_txs_hashes set_block_header_blobs set_block_heights set_block_infos block_header_blobs block_txs_hashes block_heights block_infos].
    rewrite E4. unfold db_delete. rewrite delete_insert_id by done. by rewrite <- R1, <- R2, <- R3, <- R4. }
  destruct (remove_tx_above _ _ _ _ Ha4) as (t5 & Hrm & Ha5 & Hr5). cbn [e_hash] in Hrm. rewrite Hrm. cbn [mbind result_bind].
  destruct (block_entries (n + 1) b Hs) as [He Hbh]. unfold move_to_alt. destruct mv as [chain_id|].
  - destruct (pop_txs_spec t _ (txs b) t5 Ha5 He) as (t6 & Hf & Ha6 & Hr6). rewrite Hbh in Hf. rewrite Hf. cbn [mbind result_bind].
    apply above_nil in Ha6 as ->; [|congruence]. unfold popped_alt. by rewrite Hh.
  - destruct (remove_txs_spec t _ t5 Ha5) as (t6 & Hf & Ha6 & Hr6). rewrite Hbh in Hf. rewrite Hf. cbn [mbind result_bind].
    apply above_nil in Ha6 as ->; [done|congruence].
Qed.

(** ** The database follows the chain *)
Definition no_blocks (t : Tables) : Tables :=
  mk_tables ∅ ∅ ∅ ∅ ∅ ∅ ∅ ∅ ∅ ∅ ∅ ∅ ∅ (alt_chain_infos t) (alt_block_heights t) (alt_blocks_info t) (alt_block_blobs t)
    (alt_transaction_blobs t) (alt_transaction_infos t).

Lemma stores_nil t : stores [] (no_blocks t).
Proof using Type.
  assert (forall A i, lookZ (A := A) [] i = None) as Hl by (intros A i; unfold lookZ; by destruct (i <? 0)).
  split; [destruct holds_nil; by split| |done|intros i; rewrite Hl; apply lookup_empty..].
  intros h i. split; [done|]. intros (x & Hx & _). by rewrite Hl in Hx.
Qed.

Lemma alt_rest t t' : rest_part t = rest_part t' -> alt_part t = alt_part t'.
Proof using Type. unfold rest_part, alt_part. intros H. congruence. Qed.

Lemma add_block_stores chain b t :
  valid_chain (chain ++ [b]) -> stores chain t ->
  exists t', add_block b t = Ok t' /\ stores (chain ++ [b]) t' /\ alt_part t' = alt_part t /\
    forall mv, pop_block mv t' = (t'' ← move_to_alt mv b t; Ok ((len chain, vb_block_hash b, block b), t'')).
Proof using L ML.
  intros Hv Hst. destruct (add_block_spec chain b t Hv Hst) as (t1 & Hh & Ha & Hr & Hadd).
  exists (with_block chain b t1). split_and!; [done|by eapply with_block_stores|by apply alt_rest in Hr|].
  intros mv. by apply pop_block_spec.
Qed.

Lemma stores_exists chain t : valid_chain chain -> exists t', stores chain t' /\ alt_part t' = alt_part t.
Proof using L ML.
  induction chain as [|b chain IH] using rev_ind; intros Hv; [by exists (no_blocks t); split; [apply stores_nil|]|].
  destruct (IH (valid_chain_init chain b Hv)) as (t0 & Hs0 & Ha0).
  destruct (add_block_stores chain b t0 Hv Hs0) as (t' & _ & Hs' & Ha' & _). exists t'. split; [done|congruence].
Qed.

Lemma pop_block_stores chain b t :
  valid_chain (chain ++ [b]) -> stores (chain ++ [b]) t ->
  exists t0, stores chain t0 /\ alt_part t0 = alt_part t /\
    forall mv, pop_block mv t = (t' ← move_to_alt mv b t0; Ok ((len chain, vb_block_hash b, block b), t')).
Proof using L ML.
  intros Hv Hst. destruct (stores_exists chain t (valid_chain_init chain b Hv)) as (t0 & Hs0 & Ha0).
  destruct (add_block_stores chain b t0 Hv Hs0) as (t1 & _ & Hs1 & Ha1 & Hpop).
  assert (t = t1) as -> by (apply parts_eq; [by eapply stores_unique|congruence]). by exists t0.
Qed.

Lemma add_blocks_stores chain bs t :
  valid_chain (chain ++ bs) -> stores chain t ->
  exists t', try_fold (fun t b => add_block b t) t bs = Ok t' /\ stores (chain ++ bs) t' /\ alt_part t' = alt_part t.
Proof using L ML.
  revert chain t. induction bs as [|b bs IH]; intros chain t Hv Hst; cbn [try_fold]; [exists t; by rewrite app_nil_r|].
  rewrite (cons_middle b chain bs), app_assoc in *.
  destruct (add_block_stores chain b t (valid_chain_prefix _ _ Hv) Hst) as (t1 & -> & Hs1 & Ha1 & _).
  cbn [mbind result_bind]. destruct (IH _ t1 Hv Hs1) as (t' & -> & Hs' & Ha'). exists t'. split_and!; [done|done|congruence].
Qed.

(** C2. Adding a block and popping it again restores the database exactly: on tables that hold
    a chain, [add_block] of a valid next block succeeds, the tables then hold the longer
    chain and the alternative blocks as before, and [pop_block] returns the height, the
    hash and the block and gives back the tables as they were, all nineteen of them. *)
Theorem add_pop_block_roundtrip chain b t :
  valid_chain (chain ++ [b]) -> stores chain t ->
  exists t', add_block b t = Ok t' /\ stores (chain ++ [b]) t' /\ alt_part t' = alt_part t /\
    pop_block None t' = Ok ((len chain, vb_block_hash b, block b), t).
Proof using L ML.
  intros Hv Hst. destruct (add_block_stores chain b t Hv Hst) as (t' & H1 & H2 & H3 & H4). exists t'.
  split_and!; [done..|]. by rewrite H4.
Qed.

(** C33. The tables are a function of the chain: whatever sequence of blocks was added and
    popped, two databases that hold the same main chain have equal main-chain tables; and
    the top block of the chain a database holds can be popped, which leaves a database
    that holds the rest. *)
Theorem stored_chain_determines_tables chain b t :
  valid_chain (chain ++ [b]) -> stores (chain ++ [b]) t ->
  (forall t', stores (chain ++ [b]) t' -> main_part t' = main_part t) /\
  exists t0, pop_block None t = Ok ((len chain, vb_block_hash b, block b), t0) /\ stores chain t0 /\ alt_part t0 = alt_part t.
Proof using L ML.
  intros Hv Hst. split; [intros t' Ht'; by eapply stores_unique|].
  destruct (pop_block_stores chain b t Hv Hst) as (t0 & H1 & H2 & H3). exists t0. by rewrite H3.
Qed.

End store.

(** ** A chain of three blocks

    A codec for the transactions without cryptography of [Transparent], and a chain whose
    second block spends two key images and whose third block has a version 2 miner
    transaction. *)
Import Transparent.

Module TestStore.
Import TestHelpers.

Definition miner (h : Z) : Transaction (H := oxide) :=
  let p := mk_prefix (H := oxide) (TL_Block (h + 60)) [Gen (H := oxide) h] [mk_output (H := oxide) (Some (600 + h)) (20 + h) None] in
  if h =? 2 then Tx_V2 (H := oxide) p None else Tx_V1 (H := oxide) p [].

(** Spends the outputs of amount 40 and 6 of the second block; its blob is empty, so that
    it has no weight and needs no fee. *)
Definition spend_tx : Transaction (H := oxide) :=
  Tx_V1 (H := oxide)
    (mk_prefix (H := oxide) TL_None [ToKey (H := oxide) (Some 40) [0] 12; ToKey (H := oxide) (Some 6) [0] 11]
       [mk_output (H := oxide) (Some 40) 5 None]) [(); ()].

Definition test_tx_serialize (tx : Transaction (H := oxide)) : bytes :=
  match inputs (prefix tx) with [Gen h] => [0; h] | ToKey (Some 40) _ _ :: _ => [] | _ => [1] end.

Definition test_header_serialize (h : BlockRules.BlockHeader) : bytes :=
  BlockRules.hardfork_version h :: BlockRules.hardfork_signal h :: BlockRules.timestamp h :: BlockRules.previous h.

Definition test_header_read (b : bytes) : option BlockRules.BlockHeader :=
  match b with
  | version :: signal :: time :: rest => Some (BlockRules.mk_header version signal time (take 32 rest))
  | _ => None
  end.

Fixpoint chunks (n : nat) (b : bytes) : list bytes :=
  match n with 0%nat => [] | S n => take 32 b :: chunks n (drop 32 b) end.

#[export] Instance codec : MoneroCodec oxide := {|
  tx_serialize := test_tx_serialize;
  tx_read b := match b with [0; h] => Some (miner h) | [1] => Some TestHelpers.tx | [] => Some spend_tx | _ => None end;
  tx_hash tx := match inputs (prefix tx) with [Gen h] => repeat (100 + h) 32 | ToKey (Some 40) _ _ :: _ => repeat 78 32 | _ => repeat 77 32 end;
  tx_weight tx := match inputs (prefix tx) with ToKey (Some 40) _ _ :: _ => 0 | _ => 100 end;
  header_serialize := test_header_serialize;
  header_read := test_header_read;
  block_serialize b :=
    test_header_serialize (BlockRules.header b) ++ test_tx_serialize (BlockRules.miner_transaction b)
    ++ [len (BlockRules.transactions b)] ++ concat (BlockRules.transactions b);
  block_read b :=
    header ← test_header_read b;
    match drop 35 b with
    | 0 :: h :: n :: rest => Some (BlockRules.mk_block (O := oxide) header (miner h) (chunks (Z.to_nat n) rest))
    | _ => None
    end;
  block_new header m txs := Some (BlockRules.mk_block (O := oxide) header m txs);
  varint_write n := [n];
|}.

Definition verified_tx : VerifiedTransactionInformation (O := oxide) :=
  mk_verified_tx (O := oxide) TestHelpers.tx [1] 100 11 (repeat 77 32).

Definition test_block (h : Z) (txs : list VerifiedTransactionInformation) : VerifiedBlockInformation (O := oxide) :=
  let block := BlockRules.mk_block (O := oxide)
    (BlockRules.mk_header 1 (5 + h) (1000 + h) (repeat (Z.max 0 (49 + h)) 32)) (miner h) (map v_tx_hash txs) in
  mk_verified_block (O := oxide) block (block_serialize block) txs (repeat (50 + h) 32) (repeat 0 32) h 600 (100 * (1 + len txs)) 90
    (2 ^ 64 + h).

Definition genesis : VerifiedBlockInformation (O := oxide) := test_block 0 [].
Definition second : VerifiedBlockInformation (O := oxide) := test_block 1 [verified_tx].
Definition third : VerifiedBlockInformation (O := oxide) := test_block 2 [].
Definition chain : list (VerifiedBlockInformation (O := oxide)) := [genesis; second; third].

(** The tables after the first [n] blocks were written. *)
Definition db (n : nat) : Tables :=
  match try_fold (fun t b => add_block b t) (no_blocks empty_tables) (take n chain) with Ok t => t | _ => empty_tables end.

Lemma sound : Forall block_sound chain.
Proof.
  repeat constructor; try done; try lia; repeat (apply List.Forall_cons; [|try apply List.Forall_nil]); try done;
    repeat split; try done; try (by eexists); repeat constructor; try done; try lia.
Qed.

Lemma valid : valid_chain chain.
Proof.
  split.
  - intros [|[|[|i]]] b Hb; cbn in Hb; [by simplify_eq..|done].
  - done.
  - by apply (bool_decide_unpack _); vm_compute.
  - by apply (bool_decide_unpack _); vm_compute.
  - by apply (bool_decide_unpack _); vm_compute.
  - done.
  - apply sound.
Qed.

Lemma valid_take n : valid_chain (take n chain).
Proof.
  assert (valid_chain [genesis; second]) as H2 by (apply (valid_chain_init _ third), valid).
  assert (valid_chain [genesis]) as H1 by (by apply (valid_chain_init _ second)).
  destruct n as [|[|[|n]]]; [by apply (valid_chain_init _ genesis)|done|done|]. rewrite take_ge by (cbn; lia). apply valid.
Qed.

Lemma db_stores n : stores (take n chain) (db n).
Proof.
  destruct (add_blocks_stores [] (take n chain) (no_blocks empty_tables) (valid_take n) (stores_nil _)) as (t & E & Hst & _).
  unfold db. by rewrite E.
Qed.
End TestStore.
Import TestHelpers TestStore.

Lemma add_pop_block_roundtrip_witness :
  exists t', add_block TestStore.third (TestStore.db 2) = Ok t' /\
    pop_block None t' = Ok ((2, repeat 52 32, block TestStore.third), TestStore.db 2).
Proof.
  destruct (add_pop_block_roundtrip [TestStore.genesis; TestStore.second] TestStore.third (TestStore.db 2)) as (t' & H1 & _ & _ & H2).
  - apply TestStore.valid.
  - apply (TestStore.db_stores 2).
  - exists t'. split; [exact H1|exact H2].
Defined.

Lemma stored_chain_determines_tables_witness :
  exists t0, pop_block None (TestStore.db 3) = Ok ((2, repeat 52 32, block TestStore.third), t0).
Proof.
  destruct (stored_chain_determines_tables [TestStore.genesis; TestStore.second] TestStore.third (TestStore.db 3)) as (_ & t0 & H & _).
  - apply TestStore.valid.
  - apply (TestStore.db_stores 3).
  - exists t0. exact H.
Defined.

End ChainStore.
