(* ===== verification/BlockchainService.v ===== *)
(** * The blockchain database service ([src/storage/blockchain/src/service]: [read.rs],
    [write.rs], [free.rs])

    A read request is a function of the tables; a write request runs in one write
    transaction, which is aborted when the request fails. Requests served by a pool of
    threads are served in order here. The requests whose handlers are [todo!()] in the
    source are the constructor [TodoRequest]. *)
From S2P Require Import Prelude Bytes HardForks ChainDb TxData BlockRules TxContext Helpers DbTables TxOps AltBlocks BlockOps.
From Stdlib Require Import ZArith Lia String.
From stdpp Require Import base tactics option list numbers sets gmap.
Import HardForks ChainDb TxData TxContext Helpers DbTables TxOps AltBlocks BlockOps.

#[local] Open Scope Z_scope.
#[local] Open Scope usize_scope.

Module BlockchainService.

(** ** The compact history ([free.rs]) *)
Definition compact_history_index_to_height_offset (INITIAL_BLOCKS i : Z) : Z :=
  if i <=? INITIAL_BLOCKS then i
  else INITIAL_BLOCKS +! shl 64 2 (i -! INITIAL_BLOCKS) -! 2.

(** [n.is_power_of_two()] *)
Definition is_power_of_two (n : Z) : bool := (0 <? n) && (Z.land n (n - 1) =? 0).

Definition compact_history_genesis_not_included (INITIAL_BLOCKS top_block_height : Z) : bool :=
  (INITIAL_BLOCKS <? top_block_height) && negb (is_power_of_two (top_block_height -! INITIAL_BLOCKS +! 2)).

Definition INITIAL_BLOCKS : Z := 11.

(** [(0..).map(..).map_while(|i| top_block_height.checked_sub(i))]; the offsets double, so
    80 of them are enough for heights below 2^63. *)
Fixpoint compact_heights (fuel : nat) (i top_block_height : Z) : list Z :=
  match fuel with
  | O => []
  | S fuel =>
      match checked_sub top_block_height (compact_history_index_to_height_offset INITIAL_BLOCKS i) with
      | Some h => h :: compact_heights fuel (i + 1) top_block_height
      | None => []
      end
  end.

Section service.
Context {O : MoneroOxide} {T : TransactionOps O} {C : Dalek O} {Cd : MoneroCodec O}.

(** ** Requests and responses *)
Inductive BlockchainReadRequest :=
  | R_BlockCompleteEntries (block_hashes : list bytes)
  | R_BlockCompleteEntriesByHeight (heights : list Z)
  | R_BlockExtendedHeader (height : Z)
  | R_BlockHash (height : Z) (chain : Chain)
  | R_BlockHashInRange (blocks : range) (chain : Chain)
  | R_FindBlock (block_hash : bytes)
  | R_FilterUnknownHashes (hashes : gset bytes)
  | R_BlockExtendedHeaderInRange (blocks : range) (chain : Chain)
  | R_ChainHeight
  | R_GeneratedCoins (height : Z)
  | R_Outputs (outputs : list (Z * list Z)) (get_txid : bool)
  | R_NumberOutputsWithAmount (amounts : list Z)
  | R_KeyImagesSpent (key_images : gset bytes)
  | R_KeyImagesSpentVec (key_images : list bytes)
  | R_CompactChainHistory
  | R_NextChainEntry (block_hashes : list bytes) (amount : Z)
  | R_FindFirstUnknown (block_ids : list bytes)
  | R_TxsInBlock (block_hash : bytes) (tx_indexes : list Z)
  | R_AltBlocksInChain (chain_id : Z)
  | R_Block (height : Z)
  | R_BlockByHash (hash : bytes)
  | R_TotalRctOutputs
  | R_TxOutputIndexes (tx_hash : bytes)
  | TodoRequest.

Record OutputCache := mk_output_cache {
  cached_outputs : list (Z * list (Z * OutputOnChain));
  number_of_outputs : gmap Z Z;
  wanted_outputs : list (Z * list Z);
}.

Record ChainEntry := mk_chain_entry {
  start_height : option Z;
  entry_chain_height : Z;
  entry_block_ids : list bytes;
  entry_block_weights : list Z;
  entry_cumulative_difficulty : Z;
  first_block_blob : option bytes;
}.

Record TxsInBlock := mk_txs_in_block { tib_block : bytes; tib_txs : list bytes }.

Inductive BlockchainResponse :=
  | BlockCompleteEntries (blocks : list BlockCompleteEntry) (missing_hashes : list bytes) (blockchain_height : Z)
  | BlockCompleteEntriesByHeight (blocks : list BlockCompleteEntry)
  | BlockExtendedHeader (header : ExtendedBlockHeader)
  | BlockHash (hash : bytes)
  | BlockHashInRange (hashes : list bytes)
  | FindBlock (found : option (Chain * Z))
  | FilterUnknownHashes (hashes : gset bytes)
  | BlockExtendedHeaderInRange (headers : list ExtendedBlockHeader)
  | ChainHeight (height : Z) (top_hash : bytes)
  | GeneratedCoins (coins : Z)
  | Outputs (cache : OutputCache)
  | NumberOutputsWithAmount (numbers : gmap Z Z)
  | KeyImagesSpent (spent : bool)
  | KeyImagesSpentVec (spent : list bool)
  | CompactChainHistory (block_ids : list bytes) (cumulative_difficulty : Z)
  | NextChainEntry (entry : ChainEntry)
  | FindFirstUnknown (found : option (Z * Z))
  | TxsInBlockResponse (txs : option TxsInBlock)
  | AltBlocksInChain (blocks : list AltBlockInformation)
  | BlockResponse (block : BlockRules.Block)
  | TotalRctOutputs (number : Z)
  | TxOutputIndexes (indexes : list Z)
  | ResponseOk
  | PopBlocksResponse (chain_id : Z).

(** The elements of a [Range]. *)
Definition range_list (r : range) : list Z := seqZ r.1 (r.2 - r.1).

(** ** Read requests *)

(** The hashes that were not found, and the entries of the others. *)
Fixpoint partition_entries (t : Tables) (block_hashes : list bytes) : DbResult (list bytes * list BlockCompleteEntry) :=
  match block_hashes with
  | [] => Ok ([], [])
  | block_hash :: block_hashes =>
      r ← match get_block_complete_entry block_hash t with
          | Err KeyNotFound => Ok (inl block_hash)
          | Ok entry => Ok (inr entry)
          | Err e => Err e
          | Panic => Panic
          end;
      '(missing_hashes, blocks) ← partition_entries t block_hashes;
      Ok (match r with
          | inl hash => (hash :: missing_hashes, blocks)
          | inr entry => (missing_hashes, entry :: blocks)
          end)
  end.

Definition block_complete_entries (t : Tables) (block_hashes : list bytes) : DbResult BlockchainResponse :=
  '(missing_hashes, blocks) ← partition_entries t block_hashes;
  Ok (BlockCompleteEntries blocks missing_hashes (chain_height t)).

Definition block_complete_entries_by_height (t : Tables) (block_heights : list Z) : DbResult BlockchainResponse :=
  blocks ← collect (fun height => get_block_complete_entry_from_height height t) block_heights;
  Ok (BlockCompleteEntriesByHeight blocks).

Definition block_extended_header (t : Tables) (block_height : Z) : DbResult BlockchainResponse :=
  header ← get_block_extended_header_from_height block_height t;
  Ok (BlockExtendedHeader header).

(** The hash of the block at a height of a chain. *)
Definition hash_at (t : Tables) (block_height : Z) (chain : Chain) : DbResult bytes :=
  match chain with
  | Main => info ← get_block_info block_height t; Ok (bi_block_hash info)
  | Alt chain => get_alt_block_hash block_height chain t
  end.

Definition block_hash (t : Tables) (block_height : Z) (chain : Chain) : DbResult BlockchainResponse :=
  hash ← hash_at t block_height chain; Ok (BlockHash hash).

Definition block_hash_in_range (t : Tables) (r : range) (chain : Chain) : DbResult BlockchainResponse :=
  hashes ← collect (fun block_height => hash_at t block_height chain) (range_list r);
  Ok (BlockHashInRange hashes).

Definition find_block (t : Tables) (block_hash : bytes) : DbResult BlockchainResponse :=
  match db_get (block_heights t) block_hash with
  | Ok height => Ok (FindBlock (Some (Main, height)))
  | Err KeyNotFound =>
      match db_get (alt_block_heights t) block_hash with
      | Ok height => id ← chain_id_of_raw (alt_chain_id height); Ok (FindBlock (Some (Alt id, alt_height height)))
      | Err KeyNotFound => Ok (FindBlock None)
      | Err e => Err e
      | Panic => Panic
      end
  | Err e => Err e
  | Panic => Panic
  end.

Definition filter_unknown_hashes (t : Tables) (hashes : gset bytes) : DbResult BlockchainResponse :=
  Ok (FilterUnknownHashes (filter (fun block_hash => block_exists block_hash t = Ok true) hashes)).

(** The header at a height of the main chain or of one alternative chain. *)
Definition header_at (t : Tables) (chain : Chain) (height : Z) : DbResult ExtendedBlockHeader :=
  match chain with
  | Main => get_block_extended_header_from_height height t
  | Alt chain_id => get_alt_block_extended_header_from_height (mk_alt_height chain_id height) t
  end.

Definition block_extended_header_in_range (t : Tables) (r : range) (chain : Chain) : DbResult BlockchainResponse :=
  vec ← match chain with
        | Main => collect (fun block_height => get_block_extended_header_from_height block_height t) (range_list r)
        | Alt chain_id =>
            ranges ← get_alt_chain_history_ranges r chain_id t;
            collect (fun '((chain, height) : Chain * Z) => header_at t chain height)
              (rev ranges ≫= fun '(chain, r) => map (pair chain) (range_list r))
        end;
  Ok (BlockExtendedHeaderInRange vec).

Definition chain_height_request (t : Tables) : DbResult BlockchainResponse :=
  let chain_height := chain_height t in
  info ← get_block_info (saturating_sub chain_height 1) t;
  Ok (ChainHeight chain_height (bi_block_hash info)).

Definition generated_coins_request (t : Tables) (height : Z) : DbResult BlockchainResponse :=
  coins ← cumulative_generated_coins height t; Ok (GeneratedCoins coins).

(** The number of outputs with an amount; 0 when there is none. *)
Definition number_with_amount (t : Tables) (amount : Z) : DbResult Z :=
  if amount =? 0 then Ok (db_len (rct_outputs t))
  else match db_get (num_outputs t) amount with
       | Ok count => Ok count
       | Err KeyNotFound => Ok 0
       | Err e => Err e
       | Panic => Panic
       end.

Definition numbers_with_amounts (t : Tables) (amounts : list Z) : DbResult (gmap Z Z) :=
  numbers ← collect (fun amount => n ← number_with_amount t amount; Ok (amount, n)) amounts;
  Ok (foldl (fun m '(amount, n) => <[amount := n]> m) ∅ numbers).

(** The outputs of one amount that were found, and the indices of the others. *)
Fixpoint partition_outputs (t : Tables) (get_txid : bool) (amount : Z) (indices : list Z)
    : DbResult (list (Z * OutputOnChain) * list Z) :=
  match indices with
  | [] => Ok ([], [])
  | amount_index :: indices =>
      r ← match id_to_output_on_chain (mk_output_id amount amount_index) get_txid t with
          | Ok output => Ok (Some output)
          | Err KeyNotFound => Ok None
          | Err e => Err e
          | Panic => Panic
          end;
      '(found, wanted) ← partition_outputs t get_txid amount indices;
      Ok (match r with
          | Some output => ((amount_index, output) :: found, wanted)
          | None => (found, amount_index :: wanted)
          end)
  end.

Definition outputs_request (t : Tables) (outputs : list (Z * list Z)) (get_txid : bool) : DbResult BlockchainResponse :=
  amount_of_outs ← numbers_with_amounts t outputs.*1;
  parts ← collect (fun '((amount, indices) : Z * list Z) =>
            '(found, wanted) ← partition_outputs t get_txid amount indices;
            Ok ((amount, found), (amount, wanted))) outputs;
  Ok (Outputs (mk_output_cache parts.*1 amount_of_outs parts.*2)).

Definition number_outputs_with_amount (t : Tables) (amounts : list Z) : DbResult BlockchainResponse :=
  numbers ← numbers_with_amounts t amounts; Ok (NumberOutputsWithAmount numbers).

Definition key_images_spent (t : Tables) (key_images : gset bytes) : DbResult BlockchainResponse :=
  match list_find (fun r => r <> Ok false) (map (fun key_image => key_image_exists key_image t) (elements key_images)) with
  | None => Ok (KeyImagesSpent false)
  | Some (_, Ok b) => Ok (KeyImagesSpent b)
  | Some (_, Err e) => Err e
  | Some (_, Panic) => Panic
  end.

Definition key_images_spent_vec (t : Tables) (key_images : list bytes) : DbResult BlockchainResponse :=
  spent ← collect (fun key_image => key_image_exists key_image t) key_images;
  Ok (KeyImagesSpentVec spent).

Definition compact_chain_history (t : Tables) : DbResult BlockchainResponse :=
  top ← top_block_height t;
  top_block_info ← get_block_info top t;
  let cumulative_difficulty :=
    combine_low_high_bits_to_u128 (cumulative_difficulty_low top_block_info) (cumulative_difficulty_high top_block_info) in
  block_ids ← collect (fun height => info ← get_block_info height t; Ok (bi_block_hash info)) (compact_heights 80 0 top);
  block_ids ← (if compact_history_genesis_not_included INITIAL_BLOCKS top then
                 info ← get_block_info 0 t; Ok (block_ids ++ [bi_block_hash info])
               else Ok block_ids);
  Ok (CompactChainHistory block_ids cumulative_difficulty).

Definition next_chain_entry (t : Tables) (block_ids : list bytes) (next_entry_size : Z) : DbResult BlockchainResponse :=
  let idx := find_split_point block_ids false false t in
  if idx =? len block_ids then Ok (NextChainEntry (mk_chain_entry None 0 [] [] 0 None))
  else
    first_known_block_hash ← unwrap (block_ids !! Z.to_nat idx);
    first_known_height ← db_get (block_heights t) first_known_block_hash;
    let chain_height := chain_height t in
    let last_height_in_chain_entry := Z.min (first_known_height +! next_entry_size) chain_height in
    entries ← collect (fun height => info ← db_get (block_infos t) height; Ok (bi_block_hash info, bi_weight info))
                (range_list (first_known_height, last_height_in_chain_entry));
    top_block_info ← db_get (block_infos t) (chain_height -! 1);
    first_block_blob ←
      (if 2 <=? len entries then
         '(blob, _, _) ← get_block_blob_with_tx_indexes (first_known_height +! 1) t; Ok (Some blob)
       else Ok None);
    Ok (NextChainEntry (mk_chain_entry (Some first_known_height) chain_height entries.*1 entries.*2
          (combine_low_high_bits_to_u128 (cumulative_difficulty_low top_block_info) (cumulative_difficulty_high top_block_info))
          first_block_blob)).

Definition find_first_unknown (t : Tables) (block_ids : list bytes) : DbResult BlockchainResponse :=
  let idx := find_split_point block_ids true true t in
  if idx =? len block_ids then Ok (FindFirstUnknown None)
  else if idx =? 0 then Ok (FindFirstUnknown (Some (0, 0)))
  else
    last_known ← unwrap (block_ids !! Z.to_nat (idx - 1));
    last_known_height ← get_block_height last_known t;
    Ok (FindFirstUnknown (Some (idx, last_known_height +! 1))).

Definition txs_in_block (t : Tables) (block_hash : bytes) (missing_txs : list Z) : DbResult BlockchainResponse :=
  block_height ← db_get (block_heights t) block_hash;
  '(block, miner_tx_index, numb_txs) ← get_block_blob_with_tx_indexes block_height t;
  let first_tx_index := miner_tx_index +! 1 in
  if numb_txs <? len missing_txs then Ok (TxsInBlockResponse None)
  else
    txs ← collect (fun index_offset => db_get (tx_blobs t) (first_tx_index +! index_offset)) missing_txs;
    Ok (TxsInBlockResponse (Some (mk_txs_in_block block txs))).

Definition alt_blocks_in_chain (t : Tables) (chain_id : Z) : DbResult BlockchainResponse :=
  history ← get_alt_chain_history_ranges (0, u64_MAX) chain_id t;
  blocks ← collect (fun '((chain, height) : Chain * Z) =>
             match chain with
             | Alt chain_id => get_alt_block (mk_alt_height chain_id height) t
             | Main => Panic
             end)
             (drop 1 (rev history) ≫= fun '(chain, r) => map (pair chain) (range_list r));
  Ok (AltBlocksInChain blocks).

Definition tx_output_indexes (t : Tables) (tx_hash : bytes) : DbResult BlockchainResponse :=
  tx_id ← db_get (tx_ids t) tx_hash;
  o_indexes ← db_get (tx_outputs t) tx_id;
  Ok (TxOutputIndexes o_indexes).

Definition map_request (t : Tables) (request : BlockchainReadRequest) : DbResult BlockchainResponse :=
  match request with
  | R_BlockCompleteEntries block_hashes => block_complete_entries t block_hashes
  | R_BlockCompleteEntriesByHeight heights => block_complete_entries_by_height t heights
  | R_BlockExtendedHeader height => block_extended_header t height
  | R_BlockHash height chain => block_hash t height chain
  | R_BlockHashInRange blocks chain => block_hash_in_range t blocks chain
  | R_FindBlock hash => find_block t hash
  | R_FilterUnknownHashes hashes => filter_unknown_hashes t hashes
  | R_BlockExtendedHeaderInRange r chain => block_extended_header_in_range t r chain
  | R_ChainHeight => chain_height_request t
  | R_GeneratedCoins height => generated_coins_request t height
  | R_Outputs outputs get_txid => outputs_request t outputs get_txid
  | R_NumberOutputsWithAmount amounts => number_outputs_with_amount t amounts
  | R_KeyImagesSpent key_images => key_images_spent t key_images
  | R_KeyImagesSpentVec key_images => key_images_spent_vec t key_images
  | R_CompactChainHistory => compact_chain_history t
  | R_NextChainEntry block_hashes amount => next_chain_entry t block_hashes amount
  | R_FindFirstUnknown block_ids => find_first_unknown t block_ids
  | R_TxsInBlock hash tx_indexes => txs_in_block t hash tx_indexes
  | R_AltBlocksInChain chain_id => alt_blocks_in_chain t chain_id
  | R_Block height => block ← get_block t height; Ok (BlockResponse block)
  | R_BlockByHash hash => block ← get_block_by_hash t hash; Ok (BlockResponse block)
  | R_TotalRctOutputs => Ok (TotalRctOutputs (db_len (rct_outputs t)))
  | R_TxOutputIndexes tx_hash => tx_output_indexes t tx_hash
  | TodoRequest => Panic
  end.

(** ** Write requests *)
Inductive BlockchainWriteRequest :=
  | WriteBlock (block : VerifiedBlockInformation)
  | BatchWriteBlocks (blocks : list VerifiedBlockInformation)
  | WriteAltBlock (alt_block : AltBlockInformation)
  | PopBlocks (numb_blocks : Z)
  | FlushAltBlocks.

(** A write transaction: committed on success, aborted (by the handler or by dropping it)
    otherwise. *)
Definition transaction {A} (t : Tables) (r : DbResult (A * Tables)) : DbResult A * Tables :=
  match r with
  | Ok (a, t') => (Ok a, t')
  | Err e => (Err e, t)
  | Panic => (Panic, t)
  end.

(** Pops [n] blocks into the alternative chain [chain_id]. *)
Fixpoint pop_loop (n : nat) (chain_id : Z) (t : Tables) : DbResult Tables :=
  match n with
  | 0%nat => Ok t
  | S n => '(_, t) ← pop_block (Some chain_id) t; pop_loop n chain_id t
  end.

(** [old_main_chain_id] is the random [ChainId] of the popped blocks. *)
Definition handle_blockchain_request (old_main_chain_id : Z) (t : Tables) (req : BlockchainWriteRequest)
    : DbResult BlockchainResponse * Tables :=
  transaction t
    match req with
    | WriteBlock block => t ← add_block block t; Ok (ResponseOk, t)
    | BatchWriteBlocks blocks => t ← try_fold (fun t block => add_block block t) t blocks; Ok (ResponseOk, t)
    | WriteAltBlock alt_block => t ← add_alt_block alt_block t; Ok (ResponseOk, t)
    | PopBlocks numb_blocks =>
        t ← pop_loop (Z.to_nat numb_blocks) old_main_chain_id (flush_alt_blocks t);
        Ok (PopBlocksResponse old_main_chain_id, t)
    | FlushAltBlocks => Ok (ResponseOk, flush_alt_blocks t)
    end.

End service.

End BlockchainService.
