(* ===== verification/ChainReads.v ===== *)
(** * Reading the main chain

    What the read requests answer on tables that hold a chain ([ChainStore.stores]), and
    that the database service is the database the consensus context relies on
    ([Context.ServesContext]). *)
From S2P Require Import Prelude Bytes HardForks ChainDb TxData BlockRules TxContext Context Helpers DbTables TxOps TxStore AltBlocks BlockOps ChainStore BlockchainService.
From Stdlib Require Import ZArith Lia String.
From stdpp Require Import base tactics option list numbers sets gmap.
Import HardForks ChainDb TxData TxContext Helpers DbTables TxOps TxStore AltBlocks BlockOps ChainStore BlockchainService.

#[local] Open Scope Z_scope.
#[local] Open Scope usize_scope.

Module ChainReads.

Section reads.
Context {O : MoneroOxide} {T : TransactionOps O} {C : Dalek O} {Cd : MoneroCodec O}.

(** ** Headers, hashes and coins *)
Definition version_of (b : VerifiedBlockInformation) : HardFork :=
  match from_version (BlockRules.hardfork_version (BlockRules.header (block b))) with Ok hf => hf | _ => V1 end.

(** The extended header of a block. *)
Definition ext_of (b : VerifiedBlockInformation) : ExtendedBlockHeader :=
  mk_ext (version_of b) (BlockRules.hardfork_signal (BlockRules.header (block b)))
    (BlockRules.timestamp (BlockRules.header (block b))) (vb_cumulative_difficulty b) (weight b) (vb_long_term_weight b).

Section chain.
Context (chain : list VerifiedBlockInformation) (t : Tables).
Context (Hv : valid_chain chain) (Hst : stores chain t).

Lemma sound_at h b : lookZ chain h = Some b -> block_sound b.
Proof using Hv.
  intros Hb. destruct Hv as [_ _ _ _ _ _ Hs]. rewrite Forall_lookup in Hs. unfold lookZ in Hb. destruct (h <? 0); [done|]. eauto.
Qed.

Lemma info_fields prev b :
  block_sound b ->
  mining_tx_index (info_of prev b) = len (chain_txs prev) /\ bi_block_hash (info_of prev b) = vb_block_hash b /\
  bi_weight (info_of prev b) = weight b /\ bi_long_term_weight (info_of prev b) = vb_long_term_weight b /\
  combine_low_high_bits_to_u128 (cumulative_difficulty_low (info_of prev b)) (cumulative_difficulty_high (info_of prev b))
    = vb_cumulative_difficulty b /\
  DbTables.cumulative_generated_coins (info_of prev b) = coins_after (prev ++ [b]).
Proof using Type.
  intros Hs. unfold info_of. pose proof (split_combine (vb_cumulative_difficulty b) (bs_difficulty _ Hs)) as Hc.
  destruct (split_u128_into_low_high_bits _). by split_and!.
Qed.

Lemma info_at h b :
  lookZ chain h = Some b -> get_block_info h t = Ok (info_of (take (Z.to_nat h) chain) b).
Proof using Hst. intros Hb. unfold get_block_info, db_get. rewrite (st_infos _ _ Hst), Hb. done. Qed.

Lemma header_at_height h b : lookZ chain h = Some b -> get_block_extended_header_from_height h t = Ok (ext_of b).
Proof using Hst Hv.
  intros Hb. pose proof (sound_at h b Hb) as Hs. unfold get_block_extended_header_from_height.
  change (db_get (block_infos t) h) with (get_block_info h t). rewrite (info_at h b Hb). cbn [mbind result_bind].
  unfold db_get. rewrite (st_headers _ _ Hst), Hb. cbn [fmap option_fmap option_map ok_or mbind result_bind].
  unfold read_io. rewrite (bs_header _ Hs). cbn [ok_or mbind result_bind].
  destruct (info_fields (take (Z.to_nat h) chain) b Hs) as (_ & _ & -> & -> & -> & _).
  unfold ext_of, version_of. destruct (bs_version _ Hs) as [hf ->]. done.
Qed.

Lemma lookZ_map {A B} (f : A -> B) (l : list A) i : lookZ (map f l) i = f <$> lookZ l i.
Proof using Type. unfold lookZ. destruct (i <? 0); [done|]. apply list_lookup_fmap. Qed.

(** Reading a range of heights reads a slice of the chain. *)
Lemma collect_range {B} (f : Z -> DbResult B) (g : VerifiedBlockInformation -> B) a b :
  (forall h x, lookZ chain h = Some x -> f h = Ok (g x)) -> 0 <= a -> b <= len chain ->
  collect f (range_list (a, b)) = Ok (slice a b (map g chain)).
Proof using Type.
  intros Hf Ha Hb. unfold range_list, slice. cbn [fst snd]. remember (Z.to_nat (b - a)) as n eqn:Hn.
  replace (Z.to_nat b - Z.to_nat a)%nat with n by lia.
  replace (seqZ a (b - a)) with (seqZ a (Z.of_nat n)).
  2: { destruct (Z.le_gt_cases 0 (b - a)); [f_equal; lia|]. rewrite !(seqZ_nil a) by lia. done. }
  assert (a + Z.of_nat n <= len chain \/ n = 0%nat) as Hle by lia. clear Hn Hb. revert a Ha Hle.
  induction n as [|n IH]; intros a Ha Hle; [done|].
  rewrite seqZ_cons by lia. cbn [collect]. destruct (lookZ_is_Some chain a) as [x Hx]; [lia|].
  rewrite (Hf a x Hx). cbn [mbind result_bind]. replace (Z.pred (Z.of_nat (S n))) with (Z.of_nat n) by lia.
  rewrite IH by lia. cbn [mbind result_bind]. f_equal.
  assert (chain !! Z.to_nat a = Some x) as Hx' by (unfold lookZ in Hx; destruct (a <? 0) eqn:E; bsimp; [lia|done]).
  replace (Z.to_nat (Z.succ a)) with (S (Z.to_nat a)) by lia.
  rewrite (drop_S (map g chain) (g x) (Z.to_nat a)); [done|]. rewrite list_lookup_fmap, Hx'. done.
Qed.

Lemma coins_at h : 0 <= h < len chain -> cumulative_generated_coins h t = Ok (coins_after (take (Z.to_nat (h + 1)) chain)).
Proof using Hst Hv.
  intros Hh. destruct (lookZ_is_Some chain h Hh) as [b Hb]. unfold cumulative_generated_coins.
  change (db_get (block_infos t) h) with (get_block_info h t). rewrite (info_at h b Hb).
  destruct (info_fields (take (Z.to_nat h) chain) b (sound_at h b Hb)) as (_ & _ & _ & _ & _ & ->).
  replace (Z.to_nat (h + 1)) with (S (Z.to_nat h)) by lia.
  erewrite take_S_r; [done|]. unfold lookZ in Hb. destruct (h <? 0) eqn:E; bsimp; [lia|done].
Qed.

End chain.

(** ** The consensus context's database *)

(** A request of the context: any other response than the expected one panics. *)
Definition ask {A} (t : Tables) (req : BlockchainReadRequest) (expected : BlockchainResponse -> option A) : CResult A :=
  r ← map_err (fun _ => DBErr "database error"%string) (map_request t req);
  unwrap (expected r).

#[export] Instance tables_db : Database Tables := {|
  ChainDb.block_extended_header t h := ask t (R_BlockExtendedHeader h)
    (fun r => match r with BlockExtendedHeader header => Some header | _ => None end);
  ChainDb.block_extended_header_in_range t a b chain := ask t (R_BlockExtendedHeaderInRange (a, b) chain)
    (fun r => match r with BlockExtendedHeaderInRange headers => Some headers | _ => None end);
|}.

#[export] Instance tables_context_db : ContextDatabase Tables := {|
  ChainDb.block_hash t h chain := ask t (R_BlockHash h chain)
    (fun r => match r with BlockHash hash => Some hash | _ => None end);
  ChainDb.generated_coins t h := ask t (R_GeneratedCoins h)
    (fun r => match r with GeneratedCoins coins => Some coins | _ => None end);
  ChainDb.chain_height t := ask t R_ChainHeight
    (fun r => match r with ChainHeight height top_hash => Some (height, top_hash) | _ => None end);
  ChainDb.find_block t hash := ask t (R_FindBlock hash)
    (fun r => match r with FindBlock found => Some found | _ => None end);
|}.

Definition chain_block (b : VerifiedBlockInformation) : Context.ChainBlock :=
  Context.mk_chain_block (ext_of b) (vb_block_hash b) (generated_coins b).

Lemma headers_chain chain : Context.headers (map chain_block chain) = map ext_of chain.
Proof using Type. unfold Context.headers. by rewrite map_map. Qed.

Lemma coins_chain chain : Context.coins_after (map chain_block chain) = coins_after chain.
Proof using Type.
  unfold Context.coins_after, coins_after. generalize 0. induction chain as [|b chain IH]; intros a; cbn; [done|]. apply IH.
Qed.

Lemma serves_context chain t :
  valid_chain chain -> chain <> [] -> stores chain t -> Context.ServesContext t (map chain_block chain).
Proof using Type.
  intros Hv Hne Hst.
  assert (1 <= len chain) as Hl1 by (destruct chain; [done|unfold len; cbn; lia]).
  split.
  - rewrite headers_chain. split.
    + intros a b Ha Hb. cbn. unfold ask. cbn. rewrite len_map in Hb.
      rewrite (collect_range chain _ ext_of) by (done || intros; by eapply header_at_height). done.
    + intros h _ Hh. rewrite len_map in Hh. destruct (lookZ_is_Some chain h Hh) as [b Hb]. exists (ext_of b).
      rewrite list_lookup_fmap. assert (chain !! Z.to_nat h = Some b) as -> by (unfold lookZ in Hb; destruct (h <? 0); done).
      split; [done|]. cbn. unfold ask. cbn. unfold block_extended_header. by rewrite (header_at_height chain t Hv Hst h b Hb).
  - intros h b Hh Hb. rewrite list_lookup_fmap in Hb. destruct (chain !! Z.to_nat h) as [b'|] eqn:E; [|done].
    injection Hb as <-. assert (lookZ chain h = Some b') as Hb by (unfold lookZ; destruct (h <? 0) eqn:E'; bsimp; [lia|done]).
    cbn. unfold ask. cbn. unfold block_hash, hash_at. rewrite (info_at chain t Hst h b' Hb). cbn [mbind result_bind].
    by destruct (info_fields (take (Z.to_nat h) chain) b' (sound_at chain Hv h b' Hb)) as (_ & -> & _).
  - intros h Hh. rewrite len_map in Hh. cbn. unfold ask. cbn. unfold generated_coins_request.
    rewrite (coins_at chain t Hv Hst h Hh). cbn. rewrite <- fmap_take. f_equal. symmetry. apply coins_chain.
  - cbn. unfold ask. cbn. unfold chain_height_request, chain_height. rewrite (st_len _ _ Hst), len_map.
    unfold saturating_sub. rewrite Z.max_r by lia. destruct (lookZ_is_Some chain (len chain - 1)) as [b Hb]; [lia|].
    rewrite (info_at chain t Hst _ b Hb). cbn [mbind result_bind].
    destruct (info_fields (take (Z.to_nat (len chain - 1)) chain) b (sound_at chain Hv _ b Hb)) as (_ & -> & _).
    cbn [map_err mbind result_bind unwrap]. do 2 f_equal. unfold Context.top_hash_of. rewrite fmap_last.
    assert (last chain = Some b) as ->; [|done]. rewrite last_lookup. unfold lookZ in Hb. destruct (_ <? 0); [done|].
    rewrite <- Hb. f_equal. unfold len. lia.
Qed.

(** ** Whole blocks *)
Lemma chain_txs_app l l' : chain_txs (l ++ l') = chain_txs l ++ chain_txs l'.
Proof using Type. apply bind_app. Qed.

(** The transactions of the block at height [h] start at the number of transactions below. *)
Lemma chain_txs_at chain h b (k : nat) x :
  lookZ chain h = Some b -> block_txs b !! k = Some x ->
  lookZ (chain_txs chain) (len (chain_txs (take (Z.to_nat h) chain)) + Z.of_nat k) = Some x.
Proof using Type.
  intros Hb Hx. assert (chain !! Z.to_nat h = Some b) as Hb' by (unfold lookZ in Hb; destruct (h <? 0); done).
  apply take_drop_middle in Hb'. rewrite <- Hb' at 1. rewrite chain_txs_app. set (p := chain_txs (take (Z.to_nat h) chain)).
  unfold lookZ. destruct (_ <? 0) eqn:E; bsimp; [unfold len in E; lia|].
  replace (Z.to_nat (len p + Z.of_nat k)) with (length p + k)%nat by (unfold len; lia).
  rewrite lookup_app_r by lia. replace (length p + k - length p)%nat with k by lia.
  unfold chain_txs. rewrite bind_cons. apply lookup_app_l_Some. done.
Qed.

Lemma tx_blob_at chain t h b (k : nat) x :
  stores chain t -> lookZ chain h = Some b -> block_txs b !! k = Some x ->
  tx_blobs t !! (len (chain_txs (take (Z.to_nat h) chain)) + Z.of_nat k) = Some (s_blob x).
Proof using Type. intros Hst Hb Hx. rewrite (h_blobs _ _ (st_txs _ _ Hst)), (chain_txs_at chain h b k x Hb Hx). done. Qed.

Lemma miner_blob_at chain t h b :
  stores chain t -> lookZ chain h = Some b ->
  tx_blobs t !! len (chain_txs (take (Z.to_nat h) chain)) = Some (tx_serialize (BlockRules.miner_transaction (block b))).
Proof using Type.
  intros Hst Hb. pose proof (tx_blob_at chain t h b 0 _ Hst Hb eq_refl) as H. by rewrite Z.add_0_r in H.
Qed.

Lemma block_at chain t h b : valid_chain chain -> stores chain t -> lookZ chain h = Some b -> get_block t h = Ok (block b).
Proof using Type.
  intros Hv Hst Hb. pose proof (sound_at chain Hv h b Hb) as Hs. unfold get_block, db_get.
  rewrite (st_headers _ _ Hst), Hb. cbn [fmap option_fmap option_map ok_or mbind result_bind].
  unfold read_io. rewrite (bs_header _ Hs). cbn [ok_or mbind result_bind].
  rewrite (st_tx_hashes _ _ Hst), Hb. cbn [fmap option_fmap option_map ok_or mbind result_bind].
  rewrite (st_infos _ _ Hst), Hb. cbn [fmap option_fmap option_map ok_or mbind result_bind].
  destruct (info_fields (take (Z.to_nat h) chain) b Hs) as (-> & _).
  unfold get_tx_from_id, db_get. rewrite (miner_blob_at chain t h b Hst Hb). cbn [ok_or mbind result_bind].
  unfold read_io. destruct (bs_miner _ Hs) as [_ ->]. cbn [ok_or mbind result_bind]. by rewrite (bs_new _ Hs).
Qed.

Lemma block_blob_at chain t h b :
  valid_chain chain -> stores chain t -> lookZ chain h = Some b ->
  get_block_blob_with_tx_indexes h t = Ok (block_serialize (block b), len (chain_txs (take (Z.to_nat h) chain)), len (txs b)).
Proof using Type.
  intros Hv Hst Hb. pose proof (sound_at chain Hv h b Hb) as Hs. unfold get_block_blob_with_tx_indexes, db_get.
  rewrite (st_infos _ _ Hst), Hb. cbn [fmap option_fmap option_map ok_or mbind result_bind].
  rewrite (st_tx_hashes _ _ Hst), Hb. cbn [fmap option_fmap option_map ok_or mbind result_bind].
  rewrite (st_headers _ _ Hst), Hb. cbn [fmap option_fmap option_map ok_or mbind result_bind].
  destruct (info_fields (take (Z.to_nat h) chain) b Hs) as (-> & _).
  rewrite (miner_blob_at chain t h b Hst Hb). cbn [ok_or mbind result_bind]. rewrite (bs_format _ Hs).
  rewrite (bs_hashes _ Hs), len_map. done.
Qed.

(** Fewer transactions than outputs fit in the tables, or the ids would not fit. *)
Definition ids_fit (chain : list VerifiedBlockInformation) : Prop := len (chain_txs chain) < 2 ^ 64.

Lemma block_txs_fit chain h b :
  ids_fit chain -> lookZ chain h = Some b -> len (chain_txs (take (Z.to_nat h) chain)) + 1 + len (txs b) < 2 ^ 64.
Proof using Type.
  intros Hf Hb. assert (chain !! Z.to_nat h = Some b) as Hb' by (unfold lookZ in Hb; destruct (h <? 0); done).
  apply take_drop_middle in Hb'. unfold ids_fit in Hf. rewrite <- Hb' in Hf at 1. rewrite chain_txs_app, len_app in Hf.
  unfold chain_txs in Hf at 2. rewrite bind_cons, len_app in Hf. unfold block_txs at 1 in Hf. unfold len in *. cbn [length] in Hf.
  rewrite length_map in Hf. lia.
Qed.

Lemma complete_entry_at chain t h b :
  valid_chain chain -> ids_fit chain -> stores chain t -> lookZ chain h = Some b ->
  get_block_complete_entry_from_height h t = Ok (mk_complete_entry (block_serialize (block b)) (map v_tx_blob (txs b))).
Proof using Type.
  intros Hv Hf Hst Hb. unfold get_block_complete_entry_from_height. rewrite (block_blob_at chain t h b Hv Hst Hb).
  cbn [mbind result_bind]. pose proof (block_txs_fit chain h b Hf Hb) as Hl. set (n := len (chain_txs (take (Z.to_nat h) chain))) in *.
  assert (0 <= n) by (unfold n, len; lia). assert (0 <= len (txs b)) by (unfold len; lia).
  rewrite (wrap_small 64 (n + 1)) by zlia. rewrite wrap_small by zlia.
  replace (len (txs b) + (n + 1) - (n + 1)) with (len (txs b)) by lia.
  assert (collect (fun idx => db_get (tx_blobs t) idx) (seqZ (n + 1) (len (txs b))) = Ok (map v_tx_blob (txs b))) as ->; [|done].
  assert (forall (k : nat) x, txs b !! k = Some x -> tx_blobs t !! (n + 1 + Z.of_nat k) = Some (v_tx_blob x)) as Hk.
  { intros k x Hx. replace (n + 1 + Z.of_nat k) with (n + Z.of_nat (S k)) by lia.
    unfold n. rewrite (tx_blob_at chain t h b (S k) (mk_stored (v_tx x) (v_tx_blob x) (v_tx_hash x) (vb_height b)) Hst Hb); [done|].
    change (map (fun x => mk_stored (v_tx x) (v_tx_blob x) (v_tx_hash x) (vb_height b)) (txs b) !! k = Some (mk_stored (v_tx x) (v_tx_blob x) (v_tx_hash x) (vb_height b))).
    rewrite list_lookup_fmap, Hx. done. }
  clear -Hk. generalize dependent (n + 1). clear n. induction (txs b) as [|x xs IH]; intros m Hk; [done|].
  change (len (x :: xs)) with (len ([x] ++ xs)). rewrite len_app. change (len [x]) with 1.
  rewrite seqZ_cons by (unfold len; lia). cbn [collect map].
  pose proof (Hk 0%nat x eq_refl) as H0. rewrite Z.add_0_r in H0.
  assert (db_get (tx_blobs t) m = Ok (v_tx_blob x)) as -> by (unfold db_get; by rewrite H0). cbn [mbind result_bind].
  replace (Z.pred (1 + len xs)) with (len xs) by lia. rewrite (IH (Z.succ m)); [done|].
  intros k y Hy. rewrite <- (Hk (S k) y Hy). f_equal. lia.
Qed.

(** Every block of the stored chain is read back as it was added: by height and by hash the
    block itself; its serialised form with the blobs of its transactions; its extended
    header; and the height of the chain is the number of blocks. *)
Theorem stored_blocks_read_back chain t h b :
  valid_chain chain -> ids_fit chain -> stores chain t -> lookZ chain h = Some b ->
  chain_height t = len chain /\
  get_block t h = Ok (block b) /\ get_block_by_hash t (vb_block_hash b) = Ok (block b) /\
  get_block_complete_entry (vb_block_hash b) t
    = Ok (mk_complete_entry (block_serialize (block b)) (map v_tx_blob (txs b))) /\
  get_block_extended_header (vb_block_hash b) t = Ok (ext_of b).
Proof using Type.
  intros Hv Hf Hst Hb.
  assert (block_heights t !! vb_block_hash b = Some h) as Hh by (apply (st_heights _ _ Hst); eauto).
  unfold chain_height, get_block_by_hash, get_block_complete_entry, get_block_extended_header.
  replace (db_get (block_heights t) (vb_block_hash b)) with (Ok (E := RuntimeError) h) by (unfold db_get; by rewrite Hh).
  cbn [mbind result_bind]. split_and!; [apply (st_len _ _ Hst)|by apply (block_at chain)|by apply (block_at chain)|by apply (complete_entry_at chain)|
    by apply (header_at_height chain)].
Qed.

Lemma key_images_spent_spec chain t ks :
  stores chain t ->
  key_images_spent t ks = Ok (KeyImagesSpent (bool_decide (exists k, k ∈ ks /\ k ∈ all_kis (chain_txs chain)))).
Proof using Type.
  intros Hst. unfold key_images_spent.
  assert (forall k, key_image_exists k t = Ok (bool_decide (k ∈ all_kis (chain_txs chain)))) as Hk.
  { intros k. unfold key_image_exists, db_contains, db_get. pose proof (h_kis _ _ (st_txs _ _ Hst) k) as H.
    destruct (key_images t !! k) as [u|] eqn:E; cbn; f_equal; symmetry;
      [apply bool_decide_eq_true_2, H; by eexists|apply bool_decide_eq_false_2; rewrite <- H; by intros [? ?]]. }
  rewrite (map_ext _ _ Hk).
  destruct (list_find _ _) as [[i r]|] eqn:E.
  - apply list_find_Some in E as (Hi & Hr & _). rewrite list_lookup_fmap in Hi.
    destruct (elements ks !! i) as [k|] eqn:Ek; [|done]. injection Hi as <-. apply list_elem_of_lookup_2 in Ek. apply elem_of_elements in Ek.
    case_bool_decide as Hs; [|done]. do 2 f_equal. symmetry. apply bool_decide_eq_true_2. by exists k.
  - apply list_find_None in E. do 2 f_equal. symmetry. apply bool_decide_eq_false_2. intros (k & Hin & Hs).
    rewrite Forall_forall in E. apply (E (Ok (bool_decide (k ∈ all_kis (chain_txs chain))))).
    + apply list_elem_of_fmap. exists k. split; [done|by apply elem_of_elements].
    + by rewrite bool_decide_eq_true_2.
Qed.

(** The key-image requests find exactly the spent key images: those of the inputs of the
    stored transactions. *)
Theorem key_images_spent_iff chain t ks :
  stores chain t ->
  key_images_spent t ks = Ok (KeyImagesSpent (bool_decide (exists k, k ∈ ks /\ k ∈ all_kis (chain_txs chain)))).
Proof using Type. apply key_images_spent_spec. Qed.

(** ** Outputs *)
Lemma number_from_rct xs ys zs (k : nat) r j :
  ys !! k = Some (inr r : new_out) -> number_from xs ys !! k = Some j -> lookZ (rct_list (xs ++ ys ++ zs)) j = Some r.
Proof using Type.
  revert xs k. induction ys as [|y ys IH]; intros xs k Hy Hj; [done|]. destruct k as [|k]; cbn in Hy, Hj.
  - injection Hy as ->. injection Hj as <-. cbn. unfold rct_list. rewrite omap_app. cbn. unfold len. rewrite lookZ_nat.
    rewrite lookup_app_r, Nat.sub_diag by done. done.
  - specialize (IH (xs ++ [y]) k Hy Hj). by rewrite <- app_assoc in IH.
Qed.

Lemma number_from_pre xs ys zs (k : nat) a d j :
  ys !! k = Some (inl (a, d) : new_out) -> number_from xs ys !! k = Some j -> lookZ (pre_list (xs ++ ys ++ zs) a) j = Some d.
Proof using Type.
  revert xs k. induction ys as [|y ys IH]; intros xs k Hy Hj; [done|]. destruct k as [|k]; cbn in Hy, Hj.
  - injection Hy as ->. injection Hj as <-. cbn. unfold pre_list. rewrite omap_app. cbn. rewrite bool_decide_eq_true_2 by done.
    unfold len. rewrite lookZ_nat, lookup_app_r, Nat.sub_diag by done. done.
  - specialize (IH (xs ++ [y]) k Hy Hj). by rewrite <- app_assoc in IH.
Qed.

Lemma all_outs_split l (i : nat) x :
  l !! i = Some x -> exists zs, all_outs l = all_outs (take i l) ++ stored_outs i x ++ zs.
Proof using Type.
  intros Hx. pose proof (lookup_lt_Some _ _ _ Hx) as Hi. apply take_drop_middle in Hx.
  assert (all_outs l = all_outs (take i l ++ x :: drop (S i) l)) as -> by (by rewrite Hx).
  unfold all_outs. rewrite imap_app, imap_cons, concat_app. cbn [concat].
  rewrite length_take_le, Nat.add_0_r by lia. by eexists.
Qed.

(** The block of a stored transaction. *)
Lemma chain_tx_block chain i x :
  valid_chain chain -> lookZ (chain_txs chain) i = Some x ->
  exists b (k : nat), lookZ chain (s_height x) = Some b /\ block_txs b !! k = Some x /\
    i = len (chain_txs (take (Z.to_nat (s_height x)) chain)) + Z.of_nat k.
Proof using Type.
  induction chain as [|b0 chain IH] using rev_ind; intros Hv Hx; [unfold lookZ in Hx; by destruct (i <? 0)|].
  rewrite chain_txs_snoc in Hx. unfold lookZ in Hx. destruct (i <? 0) eqn:Ei; bsimp; [done|].
  apply lookup_app_Some in Hx as [Hx|[Hge Hx]].
  - destruct IH as (b & k & Hb & Hk & Hi).
    { by eapply valid_chain_init. }
    { unfold lookZ. by rewrite (proj2 (Z.ltb_ge _ _)). }
    pose proof (lookZ_lt _ _ _ Hb) as Hlt. exists b, k. split_and!; [by rewrite lookZ_app_l by lia|done|].
    rewrite take_app_le by (unfold len in Hlt; lia). done.
  - destruct (valid_chain_top chain b0 Hv) as [Hh _].
    assert (s_height x = len chain) as ->.
    { rewrite <- Hh. unfold block_txs in Hx. destruct (Z.to_nat i - length (chain_txs chain))%nat; [by injection Hx as <-|].
      cbn in Hx. apply list_lookup_fmap_Some_1 in Hx as (y & -> & _). done. }
    exists b0, (Z.to_nat i - length (chain_txs chain))%nat. rewrite lookZ_snoc, bool_decide_eq_true_2 by done.
    split_and!; [done|done|]. assert (Z.to_nat (len chain) = length chain) as -> by (unfold len; lia).
    rewrite take_app_length. unfold len. lia.
Qed.

Lemma txid_at chain t i x :
  valid_chain chain -> ids_fit chain -> stores chain t -> lookZ (chain_txs chain) i = Some x ->
  txid_of (s_height x) i t = Ok (s_hash x).
Proof using Type.
  intros Hv Hf Hst Hx. destruct (chain_tx_block chain i x Hv Hx) as (b & k & Hb & Hk & ->).
  pose proof (sound_at chain Hv _ b Hb) as Hs. unfold txid_of.
  change (db_get (block_infos t) (s_height x)) with (get_block_info (s_height x) t). rewrite (info_at chain t Hst _ b Hb). cbn [mbind result_bind].
  destruct (info_fields (take (Z.to_nat (s_height x)) chain) b Hs) as (-> & _).
  pose proof (block_txs_fit chain _ b Hf Hb) as Hl. set (n := len (chain_txs (take (Z.to_nat (s_height x)) chain))) in *.
  assert (0 <= n) by (unfold n, len; lia).
  destruct k as [|k].
  - rewrite Z.add_0_r, Z.eqb_refl. unfold get_tx_from_id, db_get. unfold n. rewrite (miner_blob_at chain t _ b Hst Hb).
    cbn [ok_or mbind result_bind]. unfold read_io. destruct (bs_miner _ Hs) as [_ ->]. cbn [ok_or mbind result_bind].
    unfold block_txs in Hk. by injection Hk as <-.
  - change (map (fun x => mk_stored (v_tx x) (v_tx_blob x) (v_tx_hash x) (vb_height b)) (txs b) !! k = Some x) in Hk.
    apply list_lookup_fmap_Some_1 in Hk as (y & -> & Hy). pose proof (lookup_lt_Some _ _ _ Hy) as Hlt. cbn [s_height s_hash] in *.
    rewrite (proj2 (Z.eqb_neq _ _)) by lia. unfold db_get. rewrite (st_tx_hashes _ _ Hst), Hb.
    cbn [fmap option_fmap option_map ok_or mbind result_bind]. rewrite (bs_hashes _ Hs).
    rewrite (wrap_small 64 (n + Z.of_nat (S k) - n)) by (unfold len in *; zlia).
    rewrite wrap_small by (unfold len in *; zlia). replace (Z.to_nat (n + Z.of_nat (S k) - n - 1)) with k by lia.
    rewrite list_lookup_fmap, Hy. done.
Qed.

Lemma time_lock_at chain t i x :
  valid_chain chain -> stores chain t -> lookZ (chain_txs chain) i = Some x ->
  time_lock_of (output_flags_of (additional_timelock (prefix (s_tx x)))) i t = Ok (additional_timelock (prefix (s_tx x))).
Proof using Type.
  intros Hv Hst Hx. destruct (chain_tx_block chain i x Hv Hx) as (b & k & Hb & Hk & _).
  assert (timelock_ok (additional_timelock (prefix (s_tx x)))) as Ht.
  { pose proof (bs_timelocks _ (sound_at chain Hv _ b Hb)) as H. rewrite Forall_lookup in H. eauto. }
  unfold time_lock_of, db_get. rewrite (h_unlock _ _ (st_txs _ _ Hst)), Hx. cbn [mbind option_bind]. unfold unlock_of.
  apply timelock_roundtrip in Ht. destruct (additional_timelock (prefix (s_tx x))); [done| |]; cbn in *; by rewrite Ht.
Qed.

(** Outputs are found again under the numbers that [TxOutputIndexes] reports: for every
    output of a stored transaction, the request for its amount (0 for ring CT) and number
    returns its height, time lock, key and commitment and the hash of its transaction;
    the commitment of an output with a clear amount is the zero commitment of the amount. *)
Theorem stored_outputs_found {L : DalekLaws O C} chain t i x (k : nat) o j :
  valid_chain chain -> ids_fit chain -> stores chain t ->
  lookZ (chain_txs chain) i = Some x -> stored_outs (Z.to_nat i) x !! k = Some o ->
  number_from (all_outs (take (Z.to_nat i) (chain_txs chain))) (stored_outs (Z.to_nat i) x) !! k = Some j ->
  tx_output_indexes t (s_hash x)
    = Ok (TxOutputIndexes (number_from (all_outs (take (Z.to_nat i) (chain_txs chain))) (stored_outs (Z.to_nat i) x))) /\
  match o with
  | inr r => id_to_output_on_chain (mk_output_id 0 j) true t
      = Ok (mk_output_on_chain (s_height x) (additional_timelock (prefix (s_tx x))) (r_key r) (r_commitment r) (Some (s_hash x)))
  | inl (a, d) => a <> 0 -> is_u 64 a -> id_to_output_on_chain (mk_output_id a j) true t
      = Ok (mk_output_on_chain (s_height x) (additional_timelock (prefix (s_tx x))) (o_key d) (zero_commitment a) (Some (s_hash x)))
  end.
Proof using Type.
  intros Hv Hf Hst Hx Ho Hj. pose proof (st_txs _ _ Hst) as Hh. split.
  - unfold tx_output_indexes, db_get. assert (tx_ids t !! s_hash x = Some i) as -> by (apply (h_ids _ _ Hh); eauto).
    cbn [ok_or mbind result_bind]. rewrite (h_outputs _ _ Hh), Hx. done.
  - pose proof (lookZ_lt _ _ _ Hx) as Hi.
    assert (chain_txs chain !! Z.to_nat i = Some x) as Hx' by (unfold lookZ in Hx; destruct (i <? 0); done).
    destruct (all_outs_split _ _ _ Hx') as [zs Hzs].
    assert (match o with inl (_, d) => o_height d = s_height x /\ o_tx_idx d = i /\ o_output_flags d = output_flags_of (additional_timelock (prefix (s_tx x)))
      | inr r => r_height r = s_height x /\ r_tx_idx r = i /\ r_output_flags r = output_flags_of (additional_timelock (prefix (s_tx x))) end) as Hdata.
    { unfold stored_outs, tx_outs in Ho. rewrite Z2Nat.id in Ho by lia. destruct (s_tx x) as [p sg|p pr].
      - apply list_lookup_fmap_Some_1 in Ho as (y & -> & _). done.
      - apply list_lookup_fmap_Some_1 in Ho as ([n y] & -> & _). done. }
    destruct (h_outs _ _ Hh) as [_ Hpre Hrct _]. destruct o as [[a d]|r].
    + destruct Hdata as (D1 & D2 & D3). intros Ha Hu. unfold id_to_output_on_chain, get_output, db_get. cbn [amount amount_index].
      rewrite (proj2 (Z.eqb_neq _ _)) by done. cbn in Hpre. rewrite Hpre, Hzs, (number_from_pre _ _ zs k a d j Ho Hj).
      cbn [ok_or mbind result_bind]. unfold output_to_output_on_chain. rewrite D1, D2, D3, (compute_zero_commitment_eq a Hu). cbn [mbind result_bind].
      rewrite (time_lock_at chain t i x Hv Hst Hx). cbn [mbind result_bind]. rewrite (txid_at chain t i x Hv Hf Hst Hx). done.
    + destruct Hdata as (D1 & D2 & D3). unfold id_to_output_on_chain, get_rct_output, db_get. cbn [amount amount_index]. rewrite Z.eqb_refl.
      cbn in Hrct. rewrite Hrct, Hzs, (number_from_rct _ _ zs k r j Ho Hj). cbn [ok_or mbind result_bind].
      unfold rct_output_to_output_on_chain. rewrite D1, D2, D3. rewrite (time_lock_at chain t i x Hv Hst Hx). cbn [mbind result_bind].
      rewrite (txid_at chain t i x Hv Hf Hst Hx). done.
Qed.

(** C7. The database service is the database the context relies on: when the tables hold a
    chain, the requests of the context (headers of a height or a range, hashes, generated
    coins, height and top hash) are answered with the data of that chain, so everything
    proved about the context of a served chain holds of a node on this storage. *)
Theorem storage_serves_context chain t :
  valid_chain chain -> chain <> [] -> stores chain t -> Context.ServesContext t (map chain_block chain).
Proof using Type. apply serves_context. Qed.

End reads.

(** ** On the chain of three blocks *)
Import Transparent TestHelpers TestStore.

Lemma stored_blocks_read_back_witness :
  get_block (TestStore.db 3) 1 = Ok (block TestStore.second) /\
  get_block_complete_entry (repeat 51 32) (TestStore.db 3) = Ok (mk_complete_entry (block_serialize (block TestStore.second)) [[1]]).
Proof.
  destruct (stored_blocks_read_back TestStore.chain (TestStore.db 3) 1 TestStore.second) as (_ & H1 & _ & H2 & _).
  - apply TestStore.valid.
  - done.
  - apply (TestStore.db_stores 3).
  - done.
  - split; [exact H1|exact H2].
Defined.

Lemma key_images_spent_iff_witness :
  key_images_spent (TestStore.db 3) {[9 :: repeat 0 31]} = Ok (KeyImagesSpent true) /\
  key_images_spent (TestStore.db 3) {[8 :: repeat 0 31]} = Ok (KeyImagesSpent false).
Proof.
  split; rewrite (key_images_spent_iff TestStore.chain (TestStore.db 3) _ (TestStore.db_stores 3)); by vm_compute.
Defined.

Lemma stored_outputs_found_witness :
  id_to_output_on_chain (mk_output_id 6 0) true (TestStore.db 3)
  = Ok (mk_output_on_chain (O := oxide) 1 TL_None 6 (zero_commitment 6) (Some (repeat 77 32))).
Proof.
  destruct (stored_outputs_found TestStore.chain (TestStore.db 3) 2
    (mk_stored TestHelpers.tx [1] (repeat 77 32) 1) 1 (inl (6, mk_db_output (O := oxide) 6 1 0 2)) 0) as [_ H].
  - apply TestStore.valid.
  - done.
  - apply (TestStore.db_stores 3).
  - done.
  - done.
  - done.
  - assert (is_u 64 6) as Hu by (unfold is_u; lia). exact (H ltac:(lia) Hu).
Defined.

Lemma storage_serves_context_witness : Context.ServesContext (TestStore.db 3) (map chain_block TestStore.chain).
Proof.
  apply storage_serves_context.
  - apply TestStore.valid.
  - done.
  - apply (TestStore.db_stores 3).
Defined.

End ChainReads.
