(* ===== verification/FastSync.v ===== *)
(** * Fast sync ([src/consensus/fast-sync/src/fast_sync.rs])

    The node embeds one hash per 512 blocks. [validate_entries] takes the block ids that
    peers claim to follow the chain and splits them into a part that agrees with the
    embedded hashes and a rest that cannot be checked yet, keeping with every id the peer
    that told us about it. The Blake3 hasher is a parameter: its state is the bytes given
    to it since the last reset. *)
From S2P Require Import Prelude Bytes ChainDb TxData BlockRules TxContext Helpers DbTables TxOps AltBlocks BlockOps ChainStore BlockchainService ChainReads.
From Stdlib Require Import ZArith Lia String.
From stdpp Require Import base tactics option list numbers sets gmap.
Import ChainDb TxData TxContext Helpers DbTables TxOps AltBlocks BlockOps ChainStore BlockchainService ChainReads.

#[local] Open Scope Z_scope.
#[local] Open Scope usize_scope.

Module FastSync.

(** [ChainEntry] of [block_downloader/chain_tracker.rs]: block ids, the peer who told us
    about them and its handle. *)
Record ChainEntry := mk_entry { ids : list bytes; peer : Z; handle : Z }.

#[export] Instance ChainEntry_eq_dec : EqDecision ChainEntry.
Proof. solve_decision. Defined.

(** [tower::BoxError] *)
Inductive BoxError := HashesDoNotMatch | DatabaseError (e : RuntimeError).

Definition FAST_SYNC_BATCH_LEN : Z := 512.

Section fast_sync.
Context {O : MoneroOxide} {T : TransactionOps O} {C : Dalek O} {Cd : MoneroCodec O}.
(** [FAST_SYNC_HASHES], set once at the start; [blake3]. *)
Context (fast_sync_hashes : list bytes) (blake3 : bytes -> bytes).

Definition fast_sync_stop_height : Z := len fast_sync_hashes *! FAST_SYNC_BATCH_LEN.

Definition get_hash_index_for_height (height : Z) : Z := height / FAST_SYNC_BATCH_LEN.

(** Moves the last [diff] ids, from the back of the entries (given in reverse), to the
    front of [unknown]; an entry that is moved in part is split. *)
Fixpoint take_unknown (entries : list ChainEntry) (diff : Z) (unknown : list ChainEntry) : list ChainEntry * list ChainEntry :=
  match entries with
  | [] => ([], unknown)
  | back :: rest =>
      if diff =? 0 then (entries, unknown)
      else if diff <=? len (ids back) then
        let at_ := Z.to_nat (len (ids back) - diff) in
        (mk_entry (take at_ (ids back)) (peer back) (handle back) :: rest,
         mk_entry (drop at_ (ids back)) (peer back) (handle back) :: unknown)
      else take_unknown rest (diff - len (ids back)) (back :: unknown)
  end.

(** One turn of the checking loop on [(hasher, i, last_i)]. *)
Definition check_hash (hashes_start_height : Z) (st : bytes * Z * Z) (hash : bytes) : result BoxError (bytes * Z * Z) :=
  let '(hasher, i, _) := st in
  let hasher := hasher ++ hash in
  if (i + 1) mod FAST_SYNC_BATCH_LEN =? 0 then
    expected ← unwrap (lookZ fast_sync_hashes (get_hash_index_for_height (hashes_start_height + i)));
    if bool_decide (blake3 hasher = expected) then Ok ([], i + 1, i + 1) else Err HashesDoNotMatch
  else Ok (hasher, i + 1, i + 1).

Definition validate_entries (t : Tables) (entries : list ChainEntry) (start_height : Z)
    : result BoxError (list ChainEntry * list ChainEntry) :=
  if fast_sync_stop_height <=? start_height then Ok (entries, [])
  else
    let hashes_start_height := (start_height / FAST_SYNC_BATCH_LEN) *! FAST_SYNC_BATCH_LEN in
    let amount_of_hashes := usize_sum (map (fun e => len (ids e)) entries) in
    let last_height := amount_of_hashes +! start_height in
    let hashes_stop_height := Z.min ((last_height / FAST_SYNC_BATCH_LEN) *! FAST_SYNC_BATCH_LEN) fast_sync_stop_height in
    let hashes_stop_diff_last_height := last_height -! hashes_stop_height in
    response ← map_err DatabaseError (map_request t (R_BlockHashInRange (hashes_start_height, start_height) Main));
    match response with
    | BlockHashInRange starting_hashes =>
        if amount_of_hashes +! len starting_hashes <? FAST_SYNC_BATCH_LEN then Ok ([], entries)
        else
          let '(rev_entries, unknown) := take_unknown (rev entries) hashes_stop_diff_last_height [] in
          let entries := rev rev_entries in
          '((_, last_i) : bytes * Z * Z) ← try_fold (check_hash hashes_start_height) ([], 0, 1)
            (starting_hashes ++ (entries ≫= ids));
          _ ← rassert (last_i mod FAST_SYNC_BATCH_LEN =? 0);
          Ok (entries, unknown)
    | _ => Panic
    end.
End fast_sync.

(** ** Ids with the peer that told us about them *)
Definition tagged (entries : list ChainEntry) : list (bytes * Z * Z) :=
  entries ≫= fun e => map (fun id => (id, peer e, handle e)) (ids e).

Definition all_ids (entries : list ChainEntry) : list bytes := entries ≫= ids.

Lemma all_ids_tagged es : all_ids es = map (fun x => x.1.1) (tagged es).
Proof.
  induction es as [|e es IH]; [done|]. unfold all_ids, tagged in *. cbn. rewrite map_app, <- IH, map_map. cbn. by rewrite map_id.
Qed.

Lemma tagged_app l1 l2 : tagged (l1 ++ l2) = tagged l1 ++ tagged l2.
Proof. apply bind_app. Qed.

Lemma all_ids_app l1 l2 : all_ids (l1 ++ l2) = all_ids l1 ++ all_ids l2.
Proof. apply bind_app. Qed.

Lemma len_all_ids es : len (all_ids es) = sumZ (map (fun e => len (ids e)) es).
Proof.
  induction es as [|e es IH]; [done|]. change (all_ids (e :: es)) with (ids e ++ all_ids es). rewrite len_app, IH. done.
Qed.

Lemma usize_sum_ids es : len (all_ids es) < 2 ^ 64 -> usize_sum (map (fun e => len (ids e)) es) = len (all_ids es).
Proof.
  rewrite len_all_ids. apply usize_sum_fits. apply Forall_map, Forall_true. intros e. apply len_nonneg.
Qed.

(** The entries before the split and after it are the entries, with [diff] ids after it. *)
Lemma take_unknown_spec es diff u v u' :
  0 <= diff <= len (all_ids es) -> take_unknown es diff u = (v, u') ->
  tagged (rev v) ++ tagged u' = tagged (rev es) ++ tagged u /\ len (all_ids u') = diff + len (all_ids u).
Proof.
  revert diff u. induction es as [|back rest IH]; intros diff u Hd; cbn [take_unknown].
  { intros [= <- <-]. cbn in Hd. split; [done|]. unfold len in *; cbn in *; lia. }
  change (all_ids (back :: rest)) with (ids back ++ all_ids rest) in Hd. rewrite len_app in Hd.
  destruct (diff =? 0) eqn:E0; bsimp; [intros [= <- <-]; split; [done|lia]|].
  destruct (diff <=? len (ids back)) eqn:E1; bsimp.
  - intros [= <- <-]. cbn [rev]. rewrite !tagged_app, <- !(assoc_L _). split.
    + f_equal. unfold tagged. cbn. rewrite !app_nil_r, (assoc_L _), <- map_app, take_drop. done.
    + match goal with |- len (all_ids (?a :: ?b)) = _ => change (all_ids (a :: b)) with (ids a ++ all_ids b) end.
      rewrite len_app. cbn [ids]. unfold len in *. rewrite length_drop. lia.
  - intros Ht. apply IH in Ht as [Ht Hl]; [|lia]. cbn [rev]. rewrite tagged_app, <- (assoc_L _).
    change (tagged (back :: u)) with (tagged ([back] ++ u)) in Ht. rewrite tagged_app in Ht. split; [done|].
    change (all_ids (back :: u)) with (ids back ++ all_ids u) in Hl. rewrite len_app in Hl. lia.
Qed.

Lemma len_all_ids_rev es : len (all_ids (rev es)) = len (all_ids es).
Proof.
  induction es as [|e es IH]; [done|]. cbn [rev]. rewrite all_ids_app, len_app, IH.
  change (all_ids (e :: es)) with (ids e ++ all_ids es). rewrite len_app. unfold all_ids at 2. cbn. rewrite app_nil_r. lia.
Qed.

(** When fewer ids are taken than the last entry has, only that entry is split. *)
Lemma take_unknown_last es e diff :
  0 <= diff < len (ids e) ->
  take_unknown (rev (es ++ [e])) diff [] =
    if diff =? 0 then (rev (es ++ [e]), [])
    else let at_ := Z.to_nat (len (ids e) - diff) in
         (rev (es ++ [mk_entry (take at_ (ids e)) (peer e) (handle e)]), [mk_entry (drop at_ (ids e)) (peer e) (handle e)]).
Proof.
  intros Hd. rewrite !rev_app_distr. cbn [rev app take_unknown]. destruct (diff =? 0) eqn:E; [done|].
  destruct (diff <=? len (ids e)) eqn:E1; bsimp; [|lia]. by rewrite rev_app_distr.
Qed.

(** ** The checking loop *)
Section check.
Context (fast_sync_hashes : list bytes) (blake3 : bytes -> bytes).

Definition BATCH : nat := 512.

(** The [k]th batch of ids hashes to the embedded hash [k0 + k]. *)
Definition batch_matches (k0 : nat) (all : list bytes) (k : nat) : Prop :=
  fast_sync_hashes !! (k0 + k)%nat = Some (blake3 (mjoin (take BATCH (drop (BATCH * k) all)))).

#[export] Instance batch_matches_dec k0 all k : Decision (batch_matches k0 all k).
Proof. unfold batch_matches. apply _. Defined.

(** The hasher's input: the ids since the last full batch. *)
Definition since_batch (pre : list bytes) : list bytes := drop (BATCH * (length pre / BATCH)) pre.

Lemma batch_step (pre : list bytes) (x : bytes) :
  let n := length pre in
  if ((Z.of_nat n + 1) mod FAST_SYNC_BATCH_LEN =? 0)
  then since_batch (pre ++ [x]) = [] /\ since_batch pre ++ [x] = take BATCH (drop (BATCH * (n / BATCH)) (pre ++ [x])) /\
       ((S n) / BATCH = S (n / BATCH))%nat /\ (BATCH * S (n / BATCH) = S n)%nat
  else since_batch (pre ++ [x]) = since_batch pre ++ [x] /\ ((S n) / BATCH = n / BATCH)%nat.
Proof.
  cbn zeta. set (n := length pre). pose proof (Nat.div_mod_eq n BATCH) as Hn.
  assert (n mod BATCH < BATCH)%nat as Hm by (apply Nat.mod_upper_bound; unfold BATCH; lia).
  assert ((Z.of_nat n + 1) mod FAST_SYNC_BATCH_LEN = Z.of_nat ((n + 1) mod BATCH)) as ->
    by (rewrite Nat2Z.inj_mod; unfold BATCH, FAST_SYNC_BATCH_LEN; f_equal; lia).
  unfold since_batch. rewrite length_app. cbn [length]. fold n.
  destruct (Z.of_nat _ =? 0) eqn:E; bsimp.
  - assert ((n + 1) / BATCH = S (n / BATCH) /\ BATCH * S (n / BATCH) = S n)%nat as [Hd Hs].
    { assert ((n + 1) mod BATCH = 0)%nat as E' by lia. pose proof (Nat.div_mod_eq (n + 1) BATCH). unfold BATCH in *. lia. }
    rewrite Hd, Hs, Nat.add_1_r in *. split_and!; [|..]; try done.
    + apply drop_ge. rewrite length_app. cbn. lia.
    + rewrite drop_app_le by lia. rewrite take_ge; [done|]. rewrite length_app, length_drop. cbn [length]. fold n. lia.
  - assert ((n + 1) / BATCH = n / BATCH)%nat as Hd.
    { symmetry. apply (Nat.div_unique _ _ _ (n mod BATCH + 1)); [|lia].
      destruct (decide (n mod BATCH + 1 = BATCH)%nat) as [He|]; [|lia]. exfalso.
      apply E. replace (n + 1)%nat with ((S (n / BATCH)) * BATCH)%nat by lia. rewrite Nat.Div0.mod_mul; lia. }
    rewrite Nat.add_1_r in *. rewrite Hd. split; [|done]. apply drop_app_le. lia.
Qed.

(** From a state that has read [pre], the loop reads on to the end exactly when every batch
    completed on the way matches; otherwise it stops with an error; it never panics while
    the embedded hashes last. *)
Lemma fast_sync_loop_spec_aux k0 l pre last :
  (k0 + length (pre ++ l) / BATCH <= length fast_sync_hashes)%nat ->
  let new k := (length pre / BATCH <= k < length (pre ++ l) / BATCH)%nat in
  match try_fold (check_hash fast_sync_hashes blake3 (Z.of_nat (BATCH * k0))) (mjoin (since_batch pre), Z.of_nat (length pre), last) l with
  | Ok (_, i, last') =>
      i = Z.of_nat (length (pre ++ l)) /\ last' = match l with [] => last | _ => i end /\ forall k, new k -> batch_matches k0 (pre ++ l) k
  | Err e => e = HashesDoNotMatch /\ exists k, new k /\ ~ batch_matches k0 (pre ++ l) k
  | Panic => False
  end.
Proof.
  revert pre last. induction l as [|x l IH]; intros pre last Hf; cbn zeta; cbn [try_fold].
  { rewrite app_nil_r. split_and!; [done|done|]. intros k Hk. lia. }
  specialize (IH (pre ++ [x])). rewrite <- (assoc_L _) in IH. cbn [app] in IH. cbn zeta in IH.
  pose proof (batch_step pre x) as Hb. cbn zeta in Hb. unfold check_hash at 2.
  assert (length (pre ++ [x]) = S (length pre)) as Hlen by (rewrite length_app; cbn; lia).
  assert (Z.of_nat (length pre) + 1 = Z.of_nat (length (pre ++ [x]))) as Hi by lia.
  assert (mjoin (since_batch pre) ++ x = mjoin (since_batch pre ++ [x])) as -> by (rewrite join_app; cbn; by rewrite app_nil_r).
  assert (length (pre ++ [x]) <= length (pre ++ x :: l))%nat as Hle by (rewrite !length_app; cbn; lia).
  apply (Nat.Div0.div_le_mono _ _ BATCH) in Hle.
  specialize (IH (Z.of_nat (length pre) + 1) Hf). rewrite <- Hi, Hlen in IH. rewrite Hlen in Hle.
  destruct (_ =? 0) eqn:E.
  - destruct Hb as (Hs & Ht & Hd & Hm). rewrite Hd in Hle, IH. rewrite Hs in IH.
    assert (get_hash_index_for_height (Z.of_nat (BATCH * k0) + Z.of_nat (length pre)) = Z.of_nat (k0 + length pre / BATCH)) as ->.
    { unfold get_hash_index_for_height. change FAST_SYNC_BATCH_LEN with (Z.of_nat BATCH).
      rewrite <- Nat2Z.inj_add, <- Nat2Z.inj_div, (Nat.add_comm (BATCH * k0)), (Nat.mul_comm BATCH), Nat.div_add by (unfold BATCH; lia). f_equal. lia. }
    rewrite lookZ_nat. destruct (lookup_lt_is_Some_2 fast_sync_hashes (k0 + length pre / BATCH)) as [h Hh]; [lia|].
    rewrite Hh. cbn [unwrap mbind result_bind]. rewrite Ht.
    assert (take BATCH (drop (BATCH * (length pre / BATCH)) (pre ++ [x])) = take BATCH (drop (BATCH * (length pre / BATCH)) (pre ++ x :: l))) as Hpre.
    { change (x :: l) with ([x] ++ l). rewrite (assoc_L (++)), (drop_app_le (pre ++ [x])) by (rewrite Hlen; lia).
      rewrite (take_app_le _ l); [done|]. rewrite length_drop, Hlen. lia. }
    rewrite Hpre. destruct (bool_decide _) eqn:Eb.
    + apply bool_decide_eq_true in Eb. change (mjoin []) with (@nil Z) in IH. cbn [mbind result_bind].
      destruct (try_fold _ _ l) as [[[hs i] la]|e|]; [|..|done].
      * destruct IH as (-> & -> & Hk). split_and!; [done|destruct l; [by rewrite Hlen, Nat2Z.inj_succ|done]|].
        intros k Hk'. destruct (decide (k = length pre / BATCH)%nat) as [-> |]; [unfold batch_matches; by rewrite Hh, Eb|]. apply Hk. lia.
      * destruct IH as (-> & k & Hk & Hn). split; [done|]. exists k. split; [lia|done].
    + apply bool_decide_eq_false in Eb. split; [done|]. exists (length pre / BATCH)%nat. split; [lia|].
      unfold batch_matches. rewrite Hh. congruence.
  - destruct Hb as (Hs & Hd). cbn [mbind result_bind]. rewrite <- Hs. rewrite Hd in IH. destruct (try_fold _ _ l) as [[[hs i] la]|e|]; [|done|done].
    destruct IH as (-> & -> & Hk). split_and!; [done|destruct l; [by rewrite Hlen, Nat2Z.inj_succ|done]|done].
Qed.

(** The whole loop, from its initial state. *)
Lemma fast_sync_loop_spec k0 l :
  (k0 + length l / BATCH <= length fast_sync_hashes)%nat -> l <> [] ->
  match try_fold (check_hash fast_sync_hashes blake3 (Z.of_nat (BATCH * k0))) ([], 0, 1) l with
  | Ok (_, _, last) => last = len l /\ forall k, (k < length l / BATCH)%nat -> batch_matches k0 l k
  | Err e => e = HashesDoNotMatch /\ exists k, (k < length l / BATCH)%nat /\ ~ batch_matches k0 l k
  | Panic => False
  end.
Proof.
  intros Hf Hl. pose proof (fast_sync_loop_spec_aux k0 l [] 1 Hf) as H. cbn zeta in H.
  change (mjoin (since_batch [])) with (@nil Z) in H. cbn [app length] in H. change (Z.of_nat 0) with 0 in H.
  change (0 / BATCH)%nat with 0%nat in H.
  destruct (try_fold _ _ l) as [[[hs i] la]|e|]; [|..|done].
  - destruct H as (-> & -> & Hk). split; [by destruct l|]. intros k Hk'. apply Hk. lia.
  - destruct H as (-> & k & Hk & Hn). split; [done|]. exists k. split; [lia|done].
Qed.

(** Two lists that agree batch by batch agree. *)
Lemma batches_eq (l1 l2 : list bytes) n :
  length l1 = (BATCH * n)%nat ->
  (forall k, (k < n)%nat -> take BATCH (drop (BATCH * k) l1) = take BATCH (drop (BATCH * k) l2)) ->
  l1 = take (BATCH * n) l2.
Proof.
  intros Hl Hb. apply list_eq. intros i. destruct (decide (i < BATCH * n)%nat) as [Hi|Hi].
  2: { rewrite (lookup_ge_None_2 l1), lookup_take_ge by lia. done. }
  pose proof (Nat.div_mod_eq i BATCH) as Hd.
  assert (i mod BATCH < BATCH)%nat as Hm by (apply Nat.mod_upper_bound; unfold BATCH; lia).
  assert (i / BATCH < n)%nat as Hk by (apply Nat.Div0.div_lt_upper_bound; done).
  specialize (Hb _ Hk). apply (f_equal (lookup (i mod BATCH)%nat)) in Hb.
  rewrite !lookup_take_lt, !lookup_drop, <- Hd in Hb by done. by rewrite Hb, lookup_take_lt.
Qed.

Lemma mjoin_inj (n : nat) (l1 l2 : list bytes) :
  (0 < n)%nat -> Forall (fun x => length x = n) l1 -> Forall (fun x => length x = n) l2 -> mjoin l1 = mjoin l2 -> l1 = l2.
Proof.
  intros Hn H1. revert l2. induction H1 as [|x l1 Hx _ IH]; intros l2 H2 He; destruct H2 as [|y l2 Hy H2]; [done|..].
  - apply (f_equal length) in He. cbn in He. rewrite length_app in He. lia.
  - apply (f_equal length) in He. cbn in He. rewrite length_app in He. lia.
  - cbn in He. apply app_inj_1 in He as [-> He]; [|congruence]. f_equal. by apply IH.
Qed.

Lemma batch_matches_app k0 l l' k : (BATCH * S k <= length l)%nat -> batch_matches k0 (l ++ l') k <-> batch_matches k0 l k.
Proof.
  intros Hk. unfold batch_matches. rewrite drop_app_le by lia. rewrite take_app_le; [done|]. rewrite length_drop. lia.
Qed.

(** The hasher tells the batches at hand apart: no batch of [l] differs
    from the batch of [honest] at its place and has its hash. *)
Definition no_collision (honest l : list bytes) (k0 : nat) : Prop :=
  forall k, (k < length l / BATCH)%nat ->
    let got := mjoin (take BATCH (drop (BATCH * k) l)) in
    let expected := mjoin (take BATCH (drop (BATCH * (k0 + k)) honest)) in
    blake3 got = blake3 expected -> got = expected.

(** Ids that match the hashes made from a chain are that chain. *)
Lemma matching_batches_eq (honest l : list bytes) k0 (n := (length l / BATCH)%nat) :
  Forall (fun x => length x = 32%nat) honest -> Forall (fun x => length x = 32%nat) l -> length l = (BATCH * n)%nat ->
  (forall k h, fast_sync_hashes !! k = Some h -> h = blake3 (mjoin (take BATCH (drop (BATCH * k) honest)))) ->
  (forall k, (k < n)%nat -> batch_matches k0 l k) -> no_collision honest l k0 ->
  l = take (BATCH * n) (drop (BATCH * k0) honest).
Proof.
  intros Hh Hl Hn Hf Hb Hc. apply batches_eq; [done|]. intros k Hk. rewrite drop_drop, <- Nat.mul_add_distr_l.
  apply (mjoin_inj 32); [lia|by apply Forall_take, Forall_drop..|]. apply Hc; [done|]. exact (Hf _ _ (Hb k Hk)).
Qed.
End check.

(** ** What the check promises, whatever the database answers *)
Section validated.
Context {O : MoneroOxide} {T : TransactionOps O} {C : Dalek O} {Cd : MoneroCodec O}.
Context (fast_sync_hashes : list bytes) (blake3 : bytes -> bytes) (t : Tables).

(** What a result of [validate_entries] says. *)
Definition validated (known : list bytes) (entries : list ChainEntry) (start : Z) (r : result BoxError (list ChainEntry * list ChainEntry)) : Prop :=
  let stop := len fast_sync_hashes * FAST_SYNC_BATCH_LEN in
  let k0 := Z.to_nat (start / FAST_SYNC_BATCH_LEN) in
  match r with
  | Ok (valid, unknown) =>
      tagged valid ++ tagged unknown = tagged entries /\
      (if stop <=? start then valid = entries else
       let checked := known ++ all_ids valid in
       let reached := start + len (all_ids valid) in
       (valid = [] \/ (reached mod FAST_SYNC_BATCH_LEN = 0 /\ forall k, (k < length checked / BATCH)%nat -> batch_matches fast_sync_hashes blake3 k0 checked k)) /\
       reached <= stop /\ (reached < stop -> reached / FAST_SYNC_BATCH_LEN = (reached + len (all_ids unknown)) / FAST_SYNC_BATCH_LEN))
  | Err e =>
      e = HashesDoNotMatch /\ start < stop /\
      exists k, (k0 + k < length fast_sync_hashes)%nat /\ (BATCH * S k <= length (known ++ all_ids entries))%nat /\
        ~ batch_matches fast_sync_hashes blake3 k0 (known ++ all_ids entries) k
  | Panic => False
  end.

Lemma validate_entries_validated known entries start (low := start / FAST_SYNC_BATCH_LEN * FAST_SYNC_BATCH_LEN) :
  0 <= start -> map_request t (R_BlockHashInRange (low, start) Main) = Ok (BlockHashInRange known) -> len known = start - low ->
  start + len (all_ids entries) < 2 ^ 64 -> len fast_sync_hashes * FAST_SYNC_BATCH_LEN < 2 ^ 64 ->
  validated known entries start (validate_entries fast_sync_hashes blake3 t entries start).
Proof using Type.
  intros Hs Hread Hkn Hl Hf. unfold low in *. unfold validated, validate_entries, fast_sync_stop_height. set (stop := len fast_sync_hashes * _) in *.
  pose proof (len_nonneg fast_sync_hashes) as Hf0. pose proof (len_nonneg (all_ids entries)) as He0.
  assert (0 <= stop) as Hstop0 by (unfold stop, FAST_SYNC_BATCH_LEN; lia). rewrite (wrap_small 64 stop) by (unfold is_u; lia).
  destruct (stop <=? start) eqn:Estop; bsimp.
  { split; [by rewrite app_nil_r|done]. }
  set (B := FAST_SYNC_BATCH_LEN) in *. assert (B = 512) as HB by done.
  rewrite usize_sum_ids by lia. set (n := len (all_ids entries)) in *.
  assert (0 <= start / B * B <= start) as Hlow by (rewrite HB; clear -Hs; dlia).
  rewrite (wrap_small 64 (start / B * B)), (wrap_small 64 (n + start)) by zlia.
  assert (0 <= (n + start) / B * B <= n + start) as Hhigh by (rewrite HB; clear -Hs He0; dlia).
  rewrite (wrap_small 64 ((n + start) / B * B)) by zlia.
  set (stop' := Z.min _ _). rewrite (wrap_small 64 (n + start - stop')) by zlia.
  rewrite Hread. cbn [map_err mbind result_bind].
  rewrite (wrap_small 64 (n + _)) by zlia.
  destruct (n + _ <? B) eqn:Eshort; bsimp.
  { split; [done|]. split; [by left|]. change (len (all_ids [])) with 0. fold n. split; [lia|]. intros _.
    rewrite HB in *. clear -Eshort Hkn He0. dlia. }
  assert (start / B * B + B <= stop' /\ stop' mod B = 0 /\ stop' <= n + start /\ stop' <= stop) as (Hs1 & Hs2 & Hs3 & Hs4).
  { assert (stop mod B = 0) as Hm by apply Z_mod_mult. unfold stop'. rewrite HB in *. clear -Eshort Hkn Hlow Estop Hm. dlia. }
  assert (start <= stop') as Hs5 by (rewrite HB in *; clear -Hs1; dlia).
  destruct (take_unknown (rev entries) (n + start - stop') []) as [v u] eqn:Et.
  apply take_unknown_spec in Et as [Htag Hlu]; [|rewrite len_all_ids_rev; fold n; lia].
  rewrite rev_involutive, app_nil_r in Htag. change (len (all_ids [])) with 0 in Hlu.
  assert (all_ids entries = all_ids (rev v) ++ all_ids u) as Hall by (rewrite !all_ids_tagged, <- Htag, map_app; done).
  assert (len (all_ids (rev v)) = stop' - start) as Hlv by (unfold n in *; rewrite Hall, len_app in *; lia).
  fold (all_ids (rev v)). set (valid := all_ids (rev v)) in *. set (checked := known ++ valid).
  assert (len checked = stop' - start / B * B) as Hlc by (unfold checked; rewrite len_app; lia).
  set (k0 := Z.to_nat (start / B)) in *.
  assert (start / B * B = Z.of_nat (BATCH * k0)) as Hk0.
  { unfold k0. rewrite Nat2Z.inj_mul, Z2Nat.id by (rewrite HB in *; clear -Hs; dlia). change (Z.of_nat BATCH) with B. lia. }
  assert (k0 + length checked / BATCH <= length fast_sync_hashes)%nat as Hfit.
  { apply Nat2Z.inj_le. rewrite Nat2Z.inj_add, Nat2Z.inj_div. fold (len checked). fold (len fast_sync_hashes). rewrite Hlc.
    change (Z.of_nat BATCH) with B. unfold k0. unfold stop in Hs4. rewrite HB in *. clear -Hs Hs4 Hs2. dlia. }
  assert (checked <> []) as Hne by (intros E; rewrite E in Hlc; change (len []) with 0 in Hlc; lia).
  pose proof (fast_sync_loop_spec fast_sync_hashes blake3 k0 checked Hfit Hne) as Hloop. rewrite <- Hk0 in Hloop.
  assert (forall k, (k < length checked / BATCH)%nat -> (BATCH * S k <= length checked)%nat) as Hbatch.
  { intros k Hk. pose proof (Nat.Div0.mul_div_le (length checked) BATCH). nia. }
  destruct (try_fold _ _ checked) as [[[hs i] la]|e|]; cbn [mbind result_bind]; [|..|done].
  - destruct Hloop as [-> Hm]. rewrite Hlc.
    assert ((stop' - start / B * B) mod B = 0) as -> by (rewrite HB in *; clear -Hs2; dlia). cbn [rassert Z.eqb mbind result_bind].
    fold valid. split; [done|]. rewrite Hlv, Hlu. replace (start + (stop' - start)) with stop' by lia. split_and!; [right; done|done|].
    intros Hlt. rewrite Z.add_0_r. replace (stop' + (n + start - stop')) with (n + start) by lia.
    unfold stop' in *. rewrite HB in *. clear -Hlt. dlia.
  - destruct Hloop as (-> & k & Hk & Hn). split_and!; [done|lia|]. exists k. split; [lia|]. apply Hbatch in Hk.
    rewrite Hall, (assoc_L (++)). fold checked. split; [rewrite length_app; lia|]. by rewrite batch_matches_app.
Qed.

(** The database may fail to answer, but no input makes the check panic. *)
Lemma np_validate_entries entries start :
  0 <= start -> start + len (all_ids entries) < 2 ^ 64 -> len fast_sync_hashes * FAST_SYNC_BATCH_LEN < 2 ^ 64 ->
  validate_entries fast_sync_hashes blake3 t entries start <> Panic.
Proof using Type.
  intros Hs Hl Hf. set (low := start / FAST_SYNC_BATCH_LEN * FAST_SYNC_BATCH_LEN).
  assert (0 <= low <= start) as Hlow by (unfold low, FAST_SYNC_BATCH_LEN; clear -Hs; dlia).
  destruct (map_request t (R_BlockHashInRange (low, start) Main)) as [resp|e|] eqn:Er.
  - cbn [map_request] in Er. unfold block_hash_in_range in Er. apply bind_Ok in Er as (hs & Hhs & [= <-]).
    pose proof (Forall2_length _ _ _ (proj1 (collect_Ok _ _ _) Hhs)) as Hlen. unfold range_list in Hlen. rewrite length_seqZ in Hlen. cbn [fst snd] in Hlen.
    pose proof (validate_entries_validated hs entries start Hs) as Hv. cbn zeta in Hv. fold low in Hv.
    unfold map_request, block_hash_in_range in Hv. rewrite Hhs in Hv. specialize (Hv eq_refl ltac:(unfold len; lia) Hl Hf).
    intros E. by rewrite E in Hv.
  - unfold validate_entries. destruct (_ <=? _); [done|]. fold low. pose proof (len_nonneg (all_ids entries)). rewrite (wrap_small 64 low) by zlia.
    rewrite Er. done.
  - exfalso. revert Er. cbn [map_request]. unfold block_hash_in_range.
    apply np_bind; [|done]. apply np_collect. intros h _. unfold hash_at, get_block_info, db_get. by destruct (_ !! _).
Qed.
End validated.

(** Past the last embedded hash nothing is checked. *)
Lemma past_stop {O : MoneroOxide} {C : Dalek O} {Cd : MoneroCodec O}
    fast_sync_hashes blake3 t entries start (stop := len fast_sync_hashes * FAST_SYNC_BATCH_LEN) :
  stop < 2 ^ 64 -> stop <= start -> validate_entries fast_sync_hashes blake3 t entries start = Ok (entries, []).
Proof.
  intros Hf Hs. pose proof (len_nonneg fast_sync_hashes). unfold validate_entries, fast_sync_stop_height. fold stop.
  rewrite (wrap_small 64 stop) by (unfold is_u, stop, FAST_SYNC_BATCH_LEN in *; lia). destruct (stop <=? start) eqn:E; bsimp; [done|lia].
Qed.

(** ** [validate_entries] on a stored chain *)
Section validate.
Context {O : MoneroOxide} {T : TransactionOps O} {C : Dalek O} {Cd : MoneroCodec O}.
Context (fast_sync_hashes : list bytes) (blake3 : bytes -> bytes).
Context (chain : list VerifiedBlockInformation) (t : Tables) (Hst : stores chain t).

(** The hashes of our blocks from the start of the batch that [start] is in. *)
Definition known_hashes (start : Z) : list bytes :=
  slice (start / FAST_SYNC_BATCH_LEN * FAST_SYNC_BATCH_LEN) start (map vb_block_hash chain).

Lemma starting_hashes_spec a b :
  0 <= a -> b <= len chain -> map_request t (R_BlockHashInRange (a, b) Main) = Ok (BlockHashInRange (slice a b (map vb_block_hash chain))).
Proof using Hst.
  intros Ha Hb. cbn [map_request]. unfold block_hash_in_range.
  rewrite (collect_range chain _ vb_block_hash); [done| |done..].
  intros h x Hx. unfold hash_at. rewrite (info_at chain t Hst h x Hx). done.
Qed.

(** The heights from which a check can start: at or below the top of our chain, or ahead of
    it at the start of a batch, as the chain tracker's are once a batch has been accepted. *)
Definition start_known (start : Z) : Prop := start <= len chain \/ start mod FAST_SYNC_BATCH_LEN = 0.

#[export] Instance start_known_dec start : Decision (start_known start).
Proof. unfold start_known. apply _. Defined.

Lemma known_hashes_read start (low := start / FAST_SYNC_BATCH_LEN * FAST_SYNC_BATCH_LEN) :
  0 <= start -> start_known start ->
  map_request t (R_BlockHashInRange (low, start) Main) = Ok (BlockHashInRange (known_hashes start)) /\ len (known_hashes start) = start - low.
Proof using Hst.
  intros Hs Hk. assert (0 <= low <= start) as Hlow by (unfold low, FAST_SYNC_BATCH_LEN; clear -Hs; dlia).
  unfold known_hashes. fold low. destruct (decide (start <= len chain)) as [Hle|Hle].
  - split; [apply starting_hashes_spec; lia|]. apply len_slice; rewrite ?len_map; lia.
  - assert (low = start) as -> by (destruct Hk as [|Hm]; [lia|]; unfold low, FAST_SYNC_BATCH_LEN in *; clear -Hm; dlia).
    rewrite slice_empty by lia. split; [|rewrite Z.sub_diag; done].
    cbn [map_request]. unfold block_hash_in_range, range_list. cbn [fst snd]. rewrite Z.sub_diag. done.
Qed.

(** From any other height the database has no block to start with. *)
Lemma unknown_start_error entries start :
  0 <= start -> start + len (all_ids entries) < 2 ^ 64 -> len fast_sync_hashes * FAST_SYNC_BATCH_LEN < 2 ^ 64 ->
  ~ start_known start -> start < len fast_sync_hashes * FAST_SYNC_BATCH_LEN ->
  exists e, validate_entries fast_sync_hashes blake3 t entries start = Err (DatabaseError e).
Proof using Hst.
  intros Hs Hl Hf Hk Hlt. pose proof (np_validate_entries fast_sync_hashes blake3 t entries start Hs Hl Hf) as Hnp. revert Hnp.
  assert (len chain < start /\ start mod FAST_SYNC_BATCH_LEN <> 0) as [Hc Hm] by (unfold start_known in Hk; lia).
  set (low := start / FAST_SYNC_BATCH_LEN * FAST_SYNC_BATCH_LEN).
  assert (0 <= low < start) as Hlow by (unfold low, FAST_SYNC_BATCH_LEN in *; clear -Hs Hm; dlia).
  pose proof (len_nonneg fast_sync_hashes). pose proof (len_nonneg (all_ids entries)).
  unfold validate_entries, fast_sync_stop_height. rewrite (wrap_small 64 (len fast_sync_hashes * _)) by (unfold is_u; unfold FAST_SYNC_BATCH_LEN in *; lia).
  destruct (_ <=? start) eqn:E; bsimp; [lia|]. fold low. rewrite (wrap_small 64 low) by zlia.
  destruct (map_request t (R_BlockHashInRange (low, start) Main)) as [resp|e|] eqn:Er; [|by eexists|done].
  exfalso. revert Er. cbn [map_request]. unfold block_hash_in_range. intros (hs & Hhs & _)%bind_Ok.
  apply collect_Ok in Hhs. assert (start - 1 ∈ range_list (low, start)) as Hin by (unfold range_list; cbn [fst snd]; apply elem_of_seqZ; lia).
  apply list_elem_of_lookup in Hin as [i Hi]. destruct (Forall2_lookup_l _ _ _ _ _ Hhs Hi) as (y & _ & Hy).
  unfold hash_at, get_block_info, db_get in Hy. rewrite (st_infos _ _ Hst) in Hy.
  destruct (lookZ chain (start - 1)) eqn:El; [|done]. apply lookZ_lt in El. lia.
Qed.

Lemma stored_validated entries start :
  0 <= start -> start_known start -> start + len (all_ids entries) < 2 ^ 64 -> len fast_sync_hashes * FAST_SYNC_BATCH_LEN < 2 ^ 64 ->
  validated fast_sync_hashes blake3 (known_hashes start) entries start (validate_entries fast_sync_hashes blake3 t entries start).
Proof using Hst. intros Hs Hk Hl Hf. apply known_hashes_read in Hk as [Hr Hn]; [|done]. by apply validate_entries_validated. Qed.

(** The embedded hashes were made from the chain [honest]. *)
Definition embedded (honest : list bytes) : Prop :=
  forall k h, fast_sync_hashes !! k = Some h -> h = blake3 (mjoin (take BATCH (drop (BATCH * k) honest))).

Lemma len_multiple (l : list bytes) : len l mod FAST_SYNC_BATCH_LEN = 0 -> length l = (BATCH * (length l / BATCH))%nat.
Proof using Type.
  intros H. unfold len in H. change FAST_SYNC_BATCH_LEN with (Z.of_nat BATCH) in H.
  rewrite <- Nat2Z.inj_mod in H. pose proof (Nat.div_mod_eq (length l) BATCH). lia.
Qed.

Lemma checked_prefix_eq honest start valid (checked := known_hashes start ++ all_ids valid) (k0 := Z.to_nat (start / FAST_SYNC_BATCH_LEN)) :
  Forall (fun x => length x = 32%nat) honest -> Forall (fun x => length x = 32%nat) checked -> embedded honest ->
  0 <= start -> start_known start -> (start + len (all_ids valid)) mod FAST_SYNC_BATCH_LEN = 0 ->
  (forall k, (k < length checked / BATCH)%nat -> batch_matches fast_sync_hashes blake3 k0 checked k) ->
  no_collision blake3 honest checked k0 -> all_ids valid = slice start (start + len (all_ids valid)) honest.
Proof using Hst.
  intros Hh Hl He Hs Hst' Hm Hk Hc. destruct (known_hashes_read start Hs Hst') as [_ Hkn].
  set (low := start / FAST_SYNC_BATCH_LEN * FAST_SYNC_BATCH_LEN) in *.
  assert (0 <= low <= start) as Hlow by (unfold low, FAST_SYNC_BATCH_LEN; clear -Hs; dlia).
  assert (length checked = (BATCH * (length checked / BATCH))%nat) as Hlen.
  { apply len_multiple. unfold checked. rewrite len_app, Hkn. unfold low, FAST_SYNC_BATCH_LEN in *. clear -Hm. dlia. }
  pose proof (matching_batches_eq fast_sync_hashes blake3 honest checked k0 Hh Hl Hlen He Hk Hc) as Heq. rewrite <- Hlen in Heq.
  apply (f_equal (drop (length (known_hashes start)))) in Heq. unfold checked in Heq at 1.
  rewrite drop_app_length in Heq. rewrite Heq at 1.
  unfold slice. rewrite skipn_firstn_comm, drop_drop. unfold checked, k0. rewrite length_app. unfold len in *. f_equal; [lia|]. f_equal.
  change FAST_SYNC_BATCH_LEN with (Z.of_nat BATCH) in *. lia.
Qed.

(** C24. [validate_entries] at any start height, the ones ahead of the stored chain that the
    chain tracker passes included, with embedded hashes made from the chain [honest] and ids
    of 32 bytes. When it answers, every id keeps its place and its peer; past the last
    embedded hash all entries are valid; before it the valid ids end at a batch's end, every
    batch they complete has the embedded hash, and so they are the ids of [honest] at these
    heights unless one of these very batches collides under Blake3 with the batch of
    [honest] at its place; and what is left over before the last embedded hash is less than
    a batch. It refuses only ids that, after our own, do not continue [honest]. It fails
    with a database error exactly when the start is ahead of our chain, inside a batch and
    before the last embedded hash. It never panics. *)
Theorem fast_sync_follows_embedded_chain honest entries start :
  0 <= start -> start + len (all_ids entries) < 2 ^ 64 -> len fast_sync_hashes * FAST_SYNC_BATCH_LEN < 2 ^ 64 ->
  Forall (fun x => length x = 32%nat) (honest ++ known_hashes start ++ all_ids entries) -> embedded honest ->
  let stop := len fast_sync_hashes * FAST_SYNC_BATCH_LEN in
  let k0 := Z.to_nat (start / FAST_SYNC_BATCH_LEN) in
  let unanswered := len chain < start /\ start mod FAST_SYNC_BATCH_LEN <> 0 /\ start < stop in
  match validate_entries fast_sync_hashes blake3 t entries start with
  | Ok (valid, unknown) =>
      ~ unanswered /\ tagged valid ++ tagged unknown = tagged entries /\
      (stop <= start -> valid = entries) /\
      (start < stop ->
        let reached := start + len (all_ids valid) in
        let checked := known_hashes start ++ all_ids valid in
        (valid = [] \/ reached mod FAST_SYNC_BATCH_LEN = 0 /\
           forall k, (k < length checked / BATCH)%nat -> batch_matches fast_sync_hashes blake3 k0 checked k) /\
        (no_collision blake3 honest checked k0 -> all_ids valid = slice start reached honest) /\
        reached <= stop /\ (reached < stop -> len (all_ids unknown) < FAST_SYNC_BATCH_LEN))
  | Err HashesDoNotMatch =>
      ~ unanswered /\ ~ known_hashes start ++ all_ids entries `prefix_of` drop (BATCH * k0) honest
  | Err (DatabaseError _) => unanswered
  | Panic => False
  end.
Proof using Hst.
  intros Hs Hl Hf H32 He stop k0 unanswered.
  destruct (decide (start_known start \/ stop <= start)) as [Hst'|Hst'].
  2: { destruct (unknown_start_error entries start Hs Hl Hf) as [e ->]; unfold unanswered, start_known in *; [tauto|lia|lia]. }
  assert (~ unanswered) as Hun by (unfold unanswered, start_known in *; lia).
  destruct (decide (stop <= start)) as [Hpast|Hpast].
  { rewrite past_stop by (done || (fold stop; lia)). split_and!; [done|by rewrite app_nil_r|done|lia]. }
  assert (start_known start) as Hsk by tauto.
  pose proof (stored_validated entries start Hs Hsk Hl Hf) as Hv. unfold validated in Hv. fold stop k0 in Hv.
  apply Forall_app in H32 as [Hh32 H32]. apply Forall_app in H32 as [Hk32 He32].
  destruct (validate_entries _ _ _ _ _) as [[valid unknown]|e|]; [|..|done].
  - destruct Hv as [Htag Hv]. destruct (stop <=? start) eqn:E; bsimp; [lia|].
    destruct Hv as (Hm & Hr' & Hu). split_and!; [done|done|lia|]. intros _. cbn zeta in *. split_and!; [done| |done|].
    + intros Hc. destruct Hm as [-> |[Hm Hk]].
      { change (all_ids []) with (@nil bytes). change (len []) with 0. rewrite slice_empty by lia. done. }
      apply checked_prefix_eq; try done. apply Forall_app. split; [done|].
      rewrite (all_ids_tagged entries), <- Htag, map_app, <- !all_ids_tagged in He32. by apply Forall_app in He32 as [? _].
    + intros Hr. specialize (Hu Hr). pose proof (len_nonneg (all_ids unknown)). unfold FAST_SYNC_BATCH_LEN in *. clear -Hu. dlia.
  - destruct Hv as (-> & _ & k & Hk1 & Hk2 & Hn). split; [done|]. intros [rest Hp]. apply Hn.
    apply (proj1 (batch_matches_app _ _ _ _ rest _ Hk2)). rewrite <- Hp.
    unfold batch_matches. destruct (lookup_lt_is_Some_2 _ _ Hk1) as [h Hh]. rewrite Hh. f_equal. rewrite (He _ _ Hh).
    by rewrite drop_drop, <- Nat.mul_add_distr_l.
Qed.
End validate.

(** ** On the chain of three blocks

    Two embedded hashes of the chain of three blocks and 1021 more, and two peers' entries
    that end within the second batch. *)
Module TestFastSync.
Import Transparent TestHelpers TestStore.
Definition blake3 (b : bytes) : bytes := b.
Definition id_of (i : nat) : bytes := Z.of_nat i :: repeat 7 31.
Definition honest : list bytes := map vb_block_hash TestStore.chain ++ map id_of (seq 0 1021).
Definition hashes : list bytes := map (fun k => blake3 (mjoin (take BATCH (drop (BATCH * k) honest)))) (seq 0 2).
Definition entries : list ChainEntry := [mk_entry (slice 3 300 honest) 70 1; mk_entry (slice 300 600 honest) 80 2].

Lemma hashes_embedded : embedded hashes blake3 honest.
Proof.
  intros k h. unfold hashes. rewrite list_lookup_fmap. intros (i & Hi & ->)%fmap_Some.
  apply lookup_seq in Hi as [-> _]. done.
Qed.
End TestFastSync.

Section witness.
Import Transparent TestHelpers TestStore TestFastSync.

(** Our chain has three blocks. The first check starts at its top; the second one at height
    512, far ahead of it, with the ids the first one left over and those that follow. *)
Definition rest : list ChainEntry := [mk_entry (slice 512 600 honest) 80 2; mk_entry (slice 600 1024 honest) 70 1].

Lemma no_collision_id honest l k0 : no_collision blake3 honest l k0.
Proof. intros k _. done. Qed.

Lemma fast_sync_follows_embedded_chain_witness :
  (exists valid unknown,
    validate_entries hashes blake3 (TestStore.db 3) entries 3 = Ok (valid, unknown) /\
    all_ids valid = slice 3 512 honest /\ tagged valid ++ tagged unknown = tagged entries /\
    map (fun e => (len (ids e), peer e)) unknown = [(88, 80)]) /\
  (exists valid unknown,
    validate_entries hashes blake3 (TestStore.db 3) rest 512 = Ok (valid, unknown) /\
    all_ids valid = slice 512 1024 honest /\ len (all_ids unknown) = 0).
Proof.
  split.
  - pose proof (fast_sync_follows_embedded_chain hashes blake3 TestStore.chain (TestStore.db 3) (TestStore.db_stores 3) honest entries 3) as H.
    assert (exists valid unknown, validate_entries hashes blake3 (TestStore.db 3) entries 3 = Ok (valid, unknown) /\
      map (fun e => (len (ids e), peer e)) unknown = [(88, 80)] /\ len (all_ids valid) = 509) as (valid & unknown & Hv & Hu & Hlen).
    { eexists _, _. split; [vm_compute; reflexivity|]. split; vm_compute; reflexivity. }
    cbn zeta in H. rewrite Hv in H. destruct H as (_ & Ht & _ & Hs).
    + lia.
    + by vm_compute.
    + by vm_compute.
    + apply (bool_decide_unpack _). by vm_compute.
    + apply hashes_embedded.
    + exists valid, unknown. split_and!; [done| |done|done].
      destruct Hs as (_ & Hs & _); [by vm_compute|]. rewrite Hlen in Hs. exact (Hs (no_collision_id _ _ _)).
  - pose proof (fast_sync_follows_embedded_chain hashes blake3 TestStore.chain (TestStore.db 3) (TestStore.db_stores 3) honest rest 512) as H.
    assert (exists valid unknown, validate_entries hashes blake3 (TestStore.db 3) rest 512 = Ok (valid, unknown) /\
      len (all_ids unknown) = 0 /\ len (all_ids valid) = 512) as (valid & unknown & Hv & Hu & Hlen).
    { eexists _, _. split; [vm_compute; reflexivity|]. split; vm_compute; reflexivity. }
    cbn zeta in H. rewrite Hv in H. destruct H as (_ & Ht & _ & Hs).
    + lia.
    + by vm_compute.
    + by vm_compute.
    + apply (bool_decide_unpack _). by vm_compute.
    + apply hashes_embedded.
    + exists valid, unknown. split_and!; [done| |done].
      destruct Hs as (_ & Hs & _); [by vm_compute|]. rewrite Hlen in Hs. exact (Hs (no_collision_id _ _ _)).
Defined.
End witness.

End FastSync.
