(* ===== verification/SyncRequests.v ===== *)
(** * The requests of chain synchronisation

    [CompactChainHistory], [NextChainEntry] and [FindFirstUnknown] of the blockchain
    service ([BlockchainService]) on tables that hold a chain. *)
From S2P Require Import Prelude Bytes HardForks ChainDb TxData BlockRules TxContext Helpers DbTables TxOps TxStore AltBlocks BlockOps ChainStore BlockchainService ChainReads.
From Stdlib Require Import ZArith Lia String.
From stdpp Require Import base tactics option list numbers sorting sets gmap.
Import HardForks ChainDb TxData TxContext Helpers DbTables TxOps TxStore AltBlocks BlockOps ChainStore BlockchainService ChainReads.

#[local] Open Scope Z_scope.
#[local] Open Scope usize_scope.

Module SyncRequests.

(** ** Powers of two *)
Lemma is_power_of_two_iff n : is_power_of_two n = true <-> exists k, 0 <= k /\ n = 2 ^ k.
Proof.
  unfold is_power_of_two. rewrite andb_true_iff, Z.ltb_lt, Z.eqb_eq. split.
  - intros [Hn Hl]. exists (Z.log2 n). split; [apply Z.log2_nonneg|]. destruct (Z.log2_spec n Hn) as [H1 H2].
    set (k := Z.log2 n) in *. destruct (Z.eq_dec n (2 ^ k)) as [|Hne]; [done|]. exfalso.
    assert (0 <= k) by apply Z.log2_nonneg.
    assert (Z.log2 (n - 1) = k) as Hk by (apply Z.log2_unique; lia).
    assert (Z.testbit (Z.land n (n - 1)) k = true) as Hb.
    { rewrite Z.land_spec. apply andb_true_iff. split; [by apply Z.bit_log2|]. rewrite <- Hk. apply Z.bit_log2.
      pose proof (Z.pow_pos_nonneg 2 k ltac:(lia) ltac:(lia)). lia. }
    by rewrite Hl, Z.bits_0 in Hb.
  - intros (k & Hk & ->). split; [by apply Z.pow_pos_nonneg|]. rewrite land_mask by done. apply Z.mod_same.
    pose proof (Z.pow_pos_nonneg 2 k ltac:(lia) Hk). lia.
Qed.

(** ** The heights of the compact history *)
Abbreviation offset := (compact_history_index_to_height_offset INITIAL_BLOCKS).

Lemma offset_low i : 0 <= i <= 11 -> offset i = i.
Proof. intros H. unfold compact_history_index_to_height_offset, INITIAL_BLOCKS. by rewrite (proj2 (Z.leb_le _ _)) by lia. Qed.

Lemma offset_high i : 11 < i <= 73 -> offset i = 9 + 2 ^ (i - 10).
Proof.
  intros H. unfold compact_history_index_to_height_offset, INITIAL_BLOCKS. rewrite (proj2 (Z.leb_gt _ _)) by lia.
  rewrite (wrap_small 64 (i - 11)) by zlia.
  assert (2 * 2 ^ (i - 11) = 2 ^ (i - 10)) as Hp by (rewrite <- Z.pow_succ_r by lia; f_equal; lia).
  assert (2 ^ (i - 10) <= 2 ^ 63) as Hle by (apply Z.pow_le_mono_r; lia).
  assert (0 < 2 ^ (i - 11)) as Hpos by (apply Z.pow_pos_nonneg; lia).
  rewrite shl_small by (unfold is_u; change (2 ^ 64) with (2 * 2 ^ 63); lia). rewrite Hp.
  rewrite (wrap_small 64 (11 + _)) by (unfold is_u; change (2 ^ 64) with (2 * 2 ^ 63); change (2 ^ 63) with 9223372036854775808 in *; lia).
  rewrite wrap_small by (unfold is_u; change (2 ^ 64) with (2 * 2 ^ 63); change (2 ^ 63) with 9223372036854775808 in *; lia). lia.
Qed.

Lemma offset_mono i j : 0 <= i -> i < j -> j <= 73 -> offset i < offset j.
Proof.
  intros H1 H2 H3. destruct (Z.le_gt_cases i 11), (Z.le_gt_cases j 11); [|..|lia|].
  - rewrite !offset_low by lia. done.
  - rewrite offset_low, offset_high by lia. pose proof (Z.pow_le_mono_r 2 2 (j - 10)). change (2 ^ 2) with 4 in *. lia.
  - rewrite !offset_high by lia. pose proof (Z.pow_lt_mono_r 2 (i - 10) (j - 10)). lia.
Qed.

(** The list stops at the first offset above the top. *)
Lemma compact_heights_eq fuel i top :
  exists n : nat, compact_heights fuel i top = map (fun j => top - offset j) (seqZ i (Z.of_nat n)) /\
    (forall j, i <= j < i + Z.of_nat n -> offset j <= top) /\ ((n < fuel)%nat -> top < offset (i + Z.of_nat n)).
Proof.
  revert i. induction fuel as [|fuel IH]; intros i; cbn [compact_heights].
  { exists 0%nat. split_and!; [done|lia|lia]. }
  unfold checked_sub. destruct (_ <=? top) eqn:E; bsimp.
  - destruct (IH (i + 1)) as (n & -> & H1 & H2). exists (S n). split_and!.
    + rewrite (seqZ_cons i) by lia. cbn [map]. do 3 f_equal; lia.
    + intros j Hj. destruct (Z.eq_dec j i) as [->|]; [done|]. apply H1. lia.
    + intros Hn. replace (i + Z.of_nat (S n)) with (i + 1 + Z.of_nat n) by lia. apply H2. lia.
  - exists 0%nat. split_and!; [done|lia|]. intros _. by rewrite Z.add_0_r.
Qed.

Definition history_heights (top : Z) : list Z :=
  compact_heights 80 0 top ++ (if compact_history_genesis_not_included INITIAL_BLOCKS top then [0] else []).

Lemma sorted_offsets (top : Z) (n : nat) i :
  0 <= i -> i + Z.of_nat n <= 74 -> StronglySorted Z.gt (map (fun j => top - offset j) (seqZ i (Z.of_nat n))).
Proof.
  revert i. induction n as [|n IH]; intros i Hi Hn; [constructor|]. rewrite seqZ_cons by lia. cbn [map].
  replace (Z.pred (Z.of_nat (S n))) with (Z.of_nat n) by lia. constructor; [apply IH; lia|].
  apply Forall_map, Forall_forall. intros j Hj. apply elem_of_seqZ in Hj. pose proof (offset_mono i j). lia.
Qed.

Lemma genesis_included_iff top n :
  0 <= top < 2 ^ 63 -> (forall j, 0 <= j < Z.of_nat n -> offset j <= top) -> top < offset (Z.of_nat n) -> (n <= 73)%nat ->
  (n >= 1)%nat -> compact_history_genesis_not_included INITIAL_BLOCKS top = false <-> offset (Z.of_nat n - 1) = top.
Proof.
  intros Ht H1 H2 Hn Hn1. unfold compact_history_genesis_not_included, INITIAL_BLOCKS.
  destruct (11 <? top) eqn:E; bsimp; cbn [andb].
  - rewrite (wrap_small 64 (top - 11)) by zlia. rewrite wrap_small by zlia. rewrite negb_false_iff, is_power_of_two_iff.
    assert (11 < Z.of_nat n - 1 \/ Z.of_nat n - 1 = 11) as Hn'.
    { destruct (Z.le_gt_cases (Z.of_nat n) 11); [|lia]. rewrite offset_low in H2 by lia. lia. }
    replace (top - 11 + 2) with (top - 9) by lia. split.
    + intros (k & Hk & Ek).
      assert (2 <= k) as Hk2.
      { destruct (Z.le_gt_cases 2 k); [done|]. pose proof (Z.pow_le_mono_r 2 k 1). change (2 ^ 1) with 2 in *. lia. }
      assert (k < 63) as Hk63.
      { destruct (Z.lt_ge_cases k 63); [done|]. pose proof (Z.pow_le_mono_r 2 63 k). lia. }
      assert (offset (k + 10) = top) as Ho by (rewrite offset_high by lia; replace (k + 10 - 10) with k by lia; lia).
      rewrite <- Ho. f_equal.
      destruct (Z.lt_trichotomy (Z.of_nat n - 1) (k + 10)) as [Hlt|[|Hgt]]; [|done|].
      * destruct (Z.eq_dec (Z.of_nat n) (k + 10)) as [En|]; [rewrite En in H2; lia|].
        pose proof (offset_mono (Z.of_nat n) (k + 10) ltac:(lia) ltac:(lia) ltac:(lia)). lia.
      * pose proof (offset_mono (k + 10) (Z.of_nat n - 1) ltac:(lia) ltac:(lia) ltac:(lia)). specialize (H1 (Z.of_nat n - 1) ltac:(lia)). lia.
    + intros Ho. destruct Hn' as [Hn'|Hn']; [|rewrite Hn', offset_low in Ho by lia; lia].
      rewrite offset_high in Ho by lia. exists (Z.of_nat n - 1 - 10). split; [lia|lia].
  - split; [|done]. intros _. assert (Z.of_nat n = top + 1) as ->; [|replace (top + 1 - 1) with top by lia; apply offset_low; lia].
    destruct (Z.lt_trichotomy (Z.of_nat n) (top + 1)) as [Hlt|[|Hgt]]; [|done|].
    + rewrite offset_low in H2 by lia. lia.
    + specialize (H1 (top + 1) ltac:(lia)). destruct (Z.le_gt_cases (top + 1) 11).
      * rewrite offset_low in H1 by lia. lia.
      * assert (top + 1 = 12) as E12 by lia. rewrite E12, offset_high in H1 by lia. cbn in H1. lia.
Qed.

Lemma history_heights_spec top :
  0 <= top < 2 ^ 63 ->
  head (history_heights top) = Some top /\ last (history_heights top) = Some 0 /\ StronglySorted Z.gt (history_heights top).
Proof.
  intros Ht. unfold history_heights. destruct (compact_heights_eq 80 0 top) as (n & -> & H1 & H2). rewrite Z.add_0_l in *.
  assert (n <= 73)%nat as Hn.
  { destruct (Nat.le_gt_cases n 73); [done|]. specialize (H1 73 ltac:(lia)). rewrite offset_high in H1 by lia.
    change (2 ^ (73 - 10)) with (2 ^ 63) in H1. lia. }
  specialize (H2 ltac:(lia)).
  assert (n >= 1)%nat as Hn1 by (destruct n; [|lia]; rewrite offset_low in H2 by lia; lia).
  pose proof (genesis_included_iff top n Ht H1 H2 Hn Hn1) as Hg.
  pose proof (sorted_offsets top n 0 ltac:(lia) ltac:(lia)) as Hs.
  destruct n as [|n]; [lia|]. replace (Z.of_nat (S n) - 1) with (Z.of_nat n) in Hg by lia.
  assert (last (map (fun j => top - offset j) (seqZ 0 (Z.of_nat (S n)))) = Some (top - offset (Z.of_nat n))) as Hlast.
  { replace (Z.of_nat (S n)) with (Z.of_nat n + 1) by lia. rewrite seqZ_app by lia. rewrite map_app.
    rewrite (seqZ_cons _ 1), (seqZ_nil _ (Z.pred 1)) by lia. cbn [map]. by rewrite last_snoc. }
  assert (head (map (fun j => top - offset j) (seqZ 0 (Z.of_nat (S n)))) = Some top) as Hhd.
  { rewrite seqZ_cons by lia. cbn [map head]. rewrite offset_low by lia. f_equal. lia. }
  destruct (compact_history_genesis_not_included INITIAL_BLOCKS top) eqn:Eg.
  - assert (offset (Z.of_nat n) < top) as Hlt.
    { specialize (H1 (Z.of_nat n) ltac:(lia)). destruct (Z.eq_dec (offset (Z.of_nat n)) top) as [E|]; [|lia].
      apply Hg in E. done. }
    split_and!; [|by rewrite last_snoc|].
    + rewrite seqZ_cons in * by lia. cbn [map app head] in *. done.
    + apply StronglySorted_app. split_and!; [|done|repeat constructor].
      intros x y Hx Hy. apply list_elem_of_singleton in Hy as ->. apply list_elem_of_fmap in Hx as (j & -> & Hj). apply elem_of_seqZ in Hj.
      destruct (Z.eq_dec j (Z.of_nat n)) as [->|]; [lia|]. pose proof (offset_mono j (Z.of_nat n)). lia.
  - rewrite app_nil_r. split_and!; [done| |done]. rewrite Hlast. f_equal. rewrite (proj1 Hg eq_refl). lia.
Qed.

Lemma history_heights_short top : 0 <= top < 2 ^ 32 -> (length (history_heights top) <= 43)%nat.
Proof.
  intros Ht. unfold history_heights. destruct (compact_heights_eq 80 0 top) as (n & -> & H1 & _).
  assert (n <= 42)%nat.
  { destruct (Nat.le_gt_cases n 42); [done|]. specialize (H1 42 ltac:(lia)). rewrite offset_high in H1 by lia.
    change (2 ^ (42 - 10)) with (2 ^ 32) in H1. lia. }
  rewrite length_app, length_map, length_seqZ. destruct (compact_history_genesis_not_included _ _); cbn; lia.
Qed.

Lemma sorted_between (l : list Z) a b :
  StronglySorted Z.gt l -> head l = Some a -> last l = Some b -> Forall (fun h => b <= h <= a) l.
Proof.
  intros Hs. revert a. induction Hs as [|x l Hs IH Hx]; intros a Ha Hb; [done|]. injection Ha as ->.
  destruct l as [|y l]; [injection Hb as ->; repeat constructor; lia|]. rewrite last_cons_cons in Hb.
  pose proof (IH y eq_refl Hb) as Hl. apply List.Forall_cons_iff in Hx as [Hy _].
  constructor; [apply List.Forall_inv in Hl; lia|]. revert Hl. apply List.Forall_impl. lia.
Qed.

(** ** The requests on a stored chain *)
Section sync.
Context {O : MoneroOxide} {T : TransactionOps O} {C : Dalek O} {Cd : MoneroCodec O}.

(** The hash of the block at a height. *)
Definition hash_of (chain : list VerifiedBlockInformation) (h : Z) (id : bytes) : Prop :=
  exists b, lookZ chain h = Some b /\ vb_block_hash b = id.

Lemma chain_nonempty chain : valid_chain chain -> chain <> [] -> 1 <= len chain < 2 ^ 32.
Proof using Type. intros [_ Hl _ _ _ _ _] Hne. split; [|done]. destruct chain; [done|unfold len; cbn; lia]. Qed.

Lemma last_lookZ {A} (l : list A) x : lookZ l (len l - 1) = Some x -> last l = Some x.
Proof using Type.
  intros H. rewrite last_lookup. unfold lookZ in H. destruct (_ <? 0); [done|]. rewrite <- H. f_equal. unfold len. lia.
Qed.

Section chain.
Context (chain : list VerifiedBlockInformation) (t : Tables).
Context (Hv : valid_chain chain) (Hst : stores chain t).

Lemma hash_info h b : lookZ chain h = Some b ->
  (info ← get_block_info h t; Ok (bi_block_hash info)) = Ok (vb_block_hash b).
Proof using Hst Hv.
  intros Hb. rewrite (info_at chain t Hst h b Hb). cbn [mbind result_bind].
  by destruct (info_fields (take (Z.to_nat h) chain) b (sound_at chain Hv h b Hb)) as (_ & -> & _).
Qed.

Lemma entry_at h b : lookZ chain h = Some b ->
  (info ← db_get (block_infos t) h; Ok (bi_block_hash info, bi_weight info)) = Ok (vb_block_hash b, weight b).
Proof using Hst Hv.
  intros Hb. change (db_get (block_infos t) h) with (get_block_info h t). rewrite (info_at chain t Hst h b Hb).
  cbn [mbind result_bind]. by destruct (info_fields (take (Z.to_nat h) chain) b (sound_at chain Hv h b Hb)) as (_ & -> & -> & _).
Qed.

Lemma collect_hashes hs :
  Forall (fun h => 0 <= h < len chain) hs ->
  exists ids, collect (fun h => info ← get_block_info h t; Ok (bi_block_hash info)) hs = Ok ids /\ Forall2 (hash_of chain) hs ids.
Proof using Hst Hv.
  induction 1 as [|h hs Hh _ (ids & IH & Hf)]; [by exists []|]. cbn [collect].
  destruct (lookZ_is_Some chain h Hh) as [b Hb]. rewrite (hash_info h b Hb). cbn [mbind result_bind]. rewrite IH.
  exists (vb_block_hash b :: ids). split; [done|]. constructor; [by exists b|done].
Qed.

Lemma in_main_iff h : is_Some (block_heights t !! h) <-> h ∈ map vb_block_hash chain.
Proof using Hst.
  split.
  - intros [i Hi]. apply (st_heights _ _ Hst) in Hi as (b & Hb & <-). apply list_elem_of_fmap_2. unfold lookZ in Hb.
    destruct (i <? 0); [done|]. by eapply list_elem_of_lookup_2.
  - intros Hin. apply list_elem_of_fmap in Hin as (b & -> & Hb). apply list_elem_of_lookup_1 in Hb as [k Hk].
    exists (Z.of_nat k). apply (st_heights _ _ Hst). exists b. split; [by rewrite lookZ_nat|done].
Qed.

Lemma main_known h : block_known false t h = bool_decide (h ∈ map vb_block_hash chain).
Proof using Hst. unfold block_known. cbn [andb]. rewrite orb_false_r. apply bool_decide_ext, in_main_iff. Qed.

Lemma all_known h :
  block_known true t h = bool_decide (h ∈ map vb_block_hash chain \/ is_Some (alt_block_heights t !! h)).
Proof using Hst.
  unfold block_known. cbn [andb]. rewrite <- bool_decide_or. apply bool_decide_ext. by rewrite in_main_iff.
Qed.

(** The split of a list of ids, the newest first, whose unknown ids come first. *)
Lemma split_newest_first unknown known :
  Forall (fun h => h ∉ map vb_block_hash chain) unknown -> Forall (fun h => h ∈ map vb_block_hash chain) known ->
  find_split_point (unknown ++ known) false false t = len unknown.
Proof using Hst.
  intros Hu Hk. unfold find_split_point, len. rewrite partition_point_spec; [done|..].
  - revert Hu. apply List.Forall_impl. intros h Hh. rewrite main_known, bool_decide_eq_false_2 by done. done.
  - revert Hk. apply List.Forall_impl. intros h Hh. rewrite main_known, bool_decide_eq_true_2 by done. done.
Qed.

(** The split of a chronological list of ids; alternative blocks are known. *)
Definition known_hash (h : bytes) : Prop := h ∈ map vb_block_hash chain \/ is_Some (alt_block_heights t !! h).

Lemma split_chronological known unknown :
  Forall known_hash known -> Forall (fun h => ~ known_hash h) unknown ->
  find_split_point (known ++ unknown) true true t = len known.
Proof using Hst.
  intros Hk Hu. unfold find_split_point, len. rewrite partition_point_spec; [done|..].
  - revert Hk. apply List.Forall_impl. intros h Hh. rewrite all_known, bool_decide_eq_true_2 by done. done.
  - revert Hu. apply List.Forall_impl. intros h Hh. rewrite all_known, bool_decide_eq_false_2 by done. done.
Qed.

Lemma height_at h b : lookZ chain h = Some b -> db_get (block_heights t) (vb_block_hash b) = Ok h.
Proof using Hst. intros Hb. unfold db_get. by rewrite (proj2 (st_heights _ _ Hst (vb_block_hash b) h)) by (by exists b). Qed.

End chain.

(** The compact history of a stored chain is at most 43 hashes of its blocks at strictly
    decreasing heights, from the top block to the genesis block, both always included,
    with the cumulative difficulty of the top block. *)
Theorem compact_history_spec chain t :
  valid_chain chain -> chain <> [] -> stores chain t ->
  exists hs ids b, compact_chain_history t = Ok (CompactChainHistory ids (vb_cumulative_difficulty b)) /\
    last chain = Some b /\ Forall2 (hash_of chain) hs ids /\ (length hs <= 43)%nat /\
    head hs = Some (len chain - 1) /\ last hs = Some 0 /\ StronglySorted Z.gt hs.
Proof using Type.
  intros Hv Hne Hst. pose proof (chain_nonempty chain Hv Hne) as Hl.
  destruct (lookZ_is_Some chain (len chain - 1)) as [b Hb]; [lia|].
  destruct (history_heights_spec (len chain - 1)) as (Hhd & Hlast & Hs); [lia|].
  assert (Forall (fun h => 0 <= h < len chain) (history_heights (len chain - 1))) as Hr.
  { pose proof (sorted_between _ _ _ Hs Hhd Hlast) as Hb'. revert Hb'. apply List.Forall_impl. lia. }
  assert (exists ids, (block_ids ← collect (fun h => info ← get_block_info h t; Ok (bi_block_hash info)) (compact_heights 80 0 (len chain - 1));
    if compact_history_genesis_not_included INITIAL_BLOCKS (len chain - 1) then
      info ← get_block_info 0 t; Ok (block_ids ++ [bi_block_hash info]) else Ok block_ids) = Ok ids /\
    Forall2 (hash_of chain) (history_heights (len chain - 1)) ids) as (ids & Ec & Hf).
  { unfold history_heights in *. apply Forall_app in Hr as [Hr1 Hr2]. destruct (collect_hashes chain t Hv Hst _ Hr1) as (ids1 & -> & F1).
    cbn [mbind result_bind]. destruct (compact_history_genesis_not_included _ _); [|exists ids1; by rewrite app_nil_r].
    destruct (lookZ_is_Some chain 0) as [g Hg]; [lia|]. exists (ids1 ++ [vb_block_hash g]). split.
    - rewrite (info_at chain t Hst 0 g Hg). cbn [mbind result_bind].
      by destruct (info_fields (take (Z.to_nat 0) chain) g (sound_at chain Hv 0 g Hg)) as (_ & -> & _).
    - apply Forall2_app; [done|]. repeat constructor. by exists g. }
  exists (history_heights (len chain - 1)), ids, b. split_and!; [|by apply last_lookZ|done|apply history_heights_short; lia|done..].
  unfold compact_chain_history, top_block_height. rewrite (st_len _ _ Hst), (proj2 (Z.eqb_neq _ _)) by lia.
  rewrite wrap_small by zlia. cbn [mbind result_bind]. rewrite (info_at chain t Hst _ b Hb). cbn [mbind result_bind].
  destruct (info_fields (take (Z.to_nat (len chain - 1)) chain) b (sound_at chain Hv _ b Hb)) as (_ & _ & _ & _ & -> & _).
  destruct (collect _ _) as [ids1|e|] in Ec |- *; [|done|done]. cbn [mbind result_bind] in Ec |- *. by rewrite Ec.
Qed.

(** The next chain entry after the newest known id: for a list of ids, newest first, whose
    ids from [known] on are of blocks of the chain and the others are not, the answer
    starts at the height of [known], holds the hashes and the weights of at most
    [next_entry_size] blocks from there on, and, when there is a block after the known one,
    the blob of the first of them. *)
Theorem next_chain_entry_spec chain t unknown h b known size :
  valid_chain chain -> stores chain t -> lookZ chain h = Some b -> 0 <= size -> h + size < 2 ^ 64 ->
  Forall (fun i => i ∉ map vb_block_hash chain) unknown -> Forall (fun i => i ∈ map vb_block_hash chain) known ->
  exists top, last chain = Some top /\
    let upto := Z.min (h + size) (len chain) in
    next_chain_entry t (unknown ++ vb_block_hash b :: known) size =
    Ok (NextChainEntry (mk_chain_entry (Some h) (len chain) (slice h upto (map vb_block_hash chain)) (slice h upto (map weight chain))
          (vb_cumulative_difficulty top)
          (if 2 <=? upto - h then (fun x => block_serialize (block x)) <$> lookZ chain (h + 1) else None))).
Proof using Type.
  intros Hv Hst Hb Hs0 Hs Hu Hk. pose proof (lookZ_lt _ _ _ Hb) as Hh. pose proof (vc_len _ Hv) as Hl.
  destruct (lookZ_is_Some chain (len chain - 1)) as [top Htop]; [lia|]. exists top. split; [by apply last_lookZ|]. cbv zeta.
  assert (vb_block_hash b ∈ map vb_block_hash chain) as Hin.
  { apply list_elem_of_fmap_2. unfold lookZ in Hb. destruct (h <? 0); [done|]. by eapply list_elem_of_lookup_2. }
  unfold next_chain_entry. rewrite (split_newest_first chain t Hst) by (done || by constructor).
  rewrite (proj2 (Z.eqb_neq _ _)) by (rewrite len_app; unfold len; cbn; lia).
  replace (Z.to_nat (len unknown)) with (length unknown) by (unfold len; lia). rewrite lookup_app_r, Nat.sub_diag by done. cbn [lookup list_lookup unwrap mbind result_bind].
  rewrite (height_at chain t Hst h b Hb). cbn [mbind result_bind]. unfold chain_height. rewrite (st_len _ _ Hst).
  rewrite (wrap_small 64 (h + size)) by zlia. rewrite (wrap_small 64 (len chain - 1)) by zlia. rewrite (wrap_small 64 (h + 1)) by zlia.
  set (upto := Z.min (h + size) (len chain)).
  rewrite (collect_range chain _ (fun x => (vb_block_hash x, weight x))); [|exact (entry_at chain t Hv Hst)|lia|lia].
  cbn [mbind result_bind]. change (db_get (block_infos t) (len chain - 1)) with (get_block_info (len chain - 1) t).
  rewrite (info_at chain t Hst _ top Htop). cbn [mbind result_bind].
  destruct (info_fields (take (Z.to_nat (len chain - 1)) chain) top (sound_at chain Hv _ top Htop)) as (_ & _ & _ & _ & -> & _).
  assert (len (slice h upto (map (fun x => (vb_block_hash x, weight x)) chain)) = upto - h) as -> by (rewrite len_slice by (rewrite ?len_map; lia); done).
  assert (forall A (f : VerifiedBlockInformation -> A), slice h upto (map f chain) = map f (slice h upto chain)) as Hm
    by (intros; unfold slice; by rewrite <- fmap_drop, <- fmap_take).
  rewrite !Hm. rewrite <- !list_fmap_compose.
  destruct (2 <=? upto - h) eqn:E2; bsimp; [|done]. destruct (lookZ_is_Some chain (h + 1)) as [n Hn]; [lia|].
  rewrite (block_blob_at chain t (h + 1) n Hv Hst Hn), Hn. done.
Qed.

(** The first unknown block of a chronological list of ids, its first part [known] (main
    or alternative) and the rest not. With no unknown id, or no known one, the answer says
    so. Otherwise it is the position of the first unknown id and its height, one above the
    last known block, when that block is in the main chain; when it is only an alternative
    block the request fails with [KeyNotFound]. *)
Theorem find_first_unknown_spec chain t known unknown :
  stores chain t -> len chain < 2 ^ 32 -> Forall (known_hash chain t) known -> Forall (fun h => ~ known_hash chain t h) unknown ->
  find_first_unknown t (known ++ unknown) =
  match unknown, last known with
  | [], _ => Ok (FindFirstUnknown None)
  | _, None => Ok (FindFirstUnknown (Some (0, 0)))
  | _, Some k => match block_heights t !! k with
                 | Some h => Ok (FindFirstUnknown (Some (len known, h + 1)))
                 | None => Err KeyNotFound
                 end
  end.
Proof using Type.
  intros Hst Hl Hk Hu. unfold find_first_unknown. rewrite (split_chronological chain t Hst) by done. rewrite len_app.
  destruct unknown as [|u unknown]; [by rewrite Z.add_0_r, Z.eqb_refl|].
  rewrite (proj2 (Z.eqb_neq _ _)) by (unfold len; cbn; lia).
  destruct known as [|k known _] using rev_ind; [done|]. rewrite last_snoc, len_app. change (len [k]) with 1.
  rewrite (proj2 (Z.eqb_neq _ 0)) by (unfold len; lia).
  replace (Z.to_nat (len known + 1 - 1)) with (length known) by (unfold len; lia).
  rewrite <- app_assoc, lookup_app_r, Nat.sub_diag by done. cbn [app lookup list_lookup unwrap mbind result_bind].
  unfold get_block_height, db_get. destruct (block_heights t !! k) as [h|] eqn:E; [|done]. cbn [ok_or mbind result_bind].
  apply (st_heights _ _ Hst) in E as (b & Hb & _). apply lookZ_lt in Hb. by rewrite wrap_small by zlia.
Qed.

End sync.

(** ** On the chain of three blocks *)
Import Transparent TestHelpers TestStore.

Lemma compact_history_spec_witness :
  exists hs ids b, compact_chain_history (TestStore.db 3) = Ok (CompactChainHistory ids (vb_cumulative_difficulty b)) /\
    last TestStore.chain = Some b /\ Forall2 (hash_of TestStore.chain) hs ids.
Proof.
  destruct (compact_history_spec TestStore.chain (TestStore.db 3)) as (hs & ids & b & H1 & H2 & H3 & _).
  - apply TestStore.valid.
  - done.
  - apply (TestStore.db_stores 3).
  - exists hs, ids, b. split_and!; [exact H1|exact H2|exact H3].
Defined.

Lemma next_chain_entry_spec_witness :
  exists top, last TestStore.chain = Some top /\
    next_chain_entry (TestStore.db 3) [repeat 99 32; repeat 51 32; repeat 50 32] 10
    = Ok (NextChainEntry (mk_chain_entry (Some 1) 3 [repeat 51 32; repeat 52 32] [200; 100] (vb_cumulative_difficulty top)
            (Some (block_serialize (block TestStore.third))))).
Proof.
  destruct (next_chain_entry_spec TestStore.chain (TestStore.db 3) [repeat 99 32] 1 TestStore.second [repeat 50 32] 10) as (top & H1 & H2).
  - apply TestStore.valid.
  - apply (TestStore.db_stores 3).
  - done.
  - lia.
  - lia.
  - by apply (bool_decide_unpack _); vm_compute.
  - by apply (bool_decide_unpack _); vm_compute.
  - exists top. split; [exact H1|exact H2].
Defined.

Lemma find_first_unknown_spec_witness :
  find_first_unknown (TestStore.db 3) [repeat 51 32; repeat 52 32; repeat 99 32] = Ok (FindFirstUnknown (Some (2, 3))).
Proof.
  assert (alt_block_heights (TestStore.db 3) = ∅) as Ha by (by vm_compute).
  change [repeat 51 32; repeat 52 32; repeat 99 32] with ([repeat 51 32; repeat 52 32] ++ [repeat 99 32]).
  rewrite (find_first_unknown_spec TestStore.chain (TestStore.db 3) [repeat 51 32; repeat 52 32] [repeat 99 32]).
  - by vm_compute.
  - apply (TestStore.db_stores 3).
  - done.
  - repeat constructor; by apply (bool_decide_unpack _); vm_compute.
  - repeat constructor. intros [Hm|Hm]; [revert Hm; by apply (bool_decide_unpack _); vm_compute|].
    rewrite Ha, lookup_empty in Hm. by destruct Hm.
Defined.

End SyncRequests.
