(* ===== verification/AltStore.v ===== *)
(** * Popped blocks as an alternative chain

    A reorganisation pops blocks of the main chain with the request [PopBlocks], which
    keeps them as an alternative chain so that they can be added back. [alt_holds id bs t]
    says that the tables hold the popped blocks [bs] under the chain [id] and no other
    alternative block. *)
From S2P Require Import Prelude Bytes HardForks ChainDb TxData BlockRules TxContext Helpers DbTables TxOps TxStore AltBlocks BlockOps ChainStore BlockchainService ChainReads.
From Stdlib Require Import ZArith Lia String.
From stdpp Require Import base tactics option list numbers sets gmap.
Import HardForks ChainDb TxData TxContext Helpers DbTables TxOps TxStore AltBlocks BlockOps ChainStore BlockchainService ChainReads.

#[local] Open Scope Z_scope.
#[local] Open Scope usize_scope.

Module AltStore.

Section alt.
Context {O : MoneroOxide} {T : TransactionOps O} {C : Dalek O} {Cd : MoneroCodec O}.

(** Each block names the hash of the block below it. *)
Definition linked (chain : list VerifiedBlockInformation) : Prop :=
  forall i b b', chain !! i = Some b -> chain !! S i = Some b' ->
    BlockRules.previous (BlockRules.header (block b')) = vb_block_hash b.

Definition compact_of (b : VerifiedBlockInformation) : CompactAltBlockInfo :=
  let '(low, high) := split_u128_into_low_high_bits (vb_cumulative_difficulty b) in
  mk_compact (vb_block_hash b) (repeat 0 32) (vb_height b) (weight b) (vb_long_term_weight b) low high.

#[local] Arguments compact_of : simpl never.

(** The blocks [bs] start at height [h0]. *)
Record alt_holds (id h0 : Z) (bs : list VerifiedBlockInformation) (t : Tables) : Prop := {
  ah_infos : alt_chain_infos t = match bs with [] => ∅ | _ => {[id := mk_alt_chain_info 0 (h0 - 1) (h0 + len bs)]} end;
  ah_heights : forall h, is_Some (alt_block_heights t !! h) -> h ∈ map vb_block_hash bs;
  ah_blocks : forall b, b ∈ bs -> alt_blocks_info t !! mk_alt_height id (vb_height b) = Some (compact_of b) /\
    alt_block_blobs t !! mk_alt_height id (vb_height b) = Some (block_serialize (block b));
  ah_txs : forall x, x ∈ (bs ≫= txs) ->
    alt_transaction_infos t !! v_tx_hash x = Some (mk_alt_tx_info (v_tx_weight x) (v_fee x) (v_tx_hash x)) /\
    alt_transaction_blobs t !! v_tx_hash x = Some (v_tx_blob x);
  ah_tx_blobs : forall h, is_Some (alt_transaction_blobs t !! h) -> h ∈ map v_tx_hash (bs ≫= txs);
}.

(** ** Adding the transactions of a popped block *)
Definition with_alt_txs (infos : gmap bytes AltTransactionInfo) (blobs : gmap bytes bytes) (t : Tables) : Tables :=
  set_alt_transaction_infos (fun _ => infos) (set_alt_transaction_blobs (fun _ => blobs) t).

Lemma add_alt_tx x t :
  tx_ids t !! v_tx_hash x = None -> alt_transaction_blobs t !! v_tx_hash x = None ->
  add_alt_transaction_blob x t =
  with_alt_txs (<[v_tx_hash x := mk_alt_tx_info (v_tx_weight x) (v_fee x) (v_tx_hash x)]> (alt_transaction_infos t))
    (<[v_tx_hash x := v_tx_blob x]> (alt_transaction_blobs t)) t.
Proof using Type.
  intros H1 H2. unfold add_alt_transaction_blob.
  rewrite bool_decide_eq_false_2 by (cbn; rewrite H1; by intros [? ?]).
  rewrite bool_decide_eq_false_2 by (cbn; rewrite H2; by intros [? ?]). done.
Qed.

Lemma add_alt_txs xs t :
  NoDup (map v_tx_hash xs) ->
  (forall x, x ∈ xs -> tx_ids t !! v_tx_hash x = None /\ alt_transaction_blobs t !! v_tx_hash x = None) ->
  exists infos blobs, foldl (fun t tx => add_alt_transaction_blob tx t) t xs = with_alt_txs infos blobs t /\
    (forall x, x ∈ xs -> infos !! v_tx_hash x = Some (mk_alt_tx_info (v_tx_weight x) (v_fee x) (v_tx_hash x)) /\
      blobs !! v_tx_hash x = Some (v_tx_blob x)) /\
    (forall h, h ∉ map v_tx_hash xs -> infos !! h = alt_transaction_infos t !! h /\ blobs !! h = alt_transaction_blobs t !! h).
Proof using Type.
  revert t. induction xs as [|x xs IH]; intros t Hn Hf; cbn [foldl map].
  { exists (alt_transaction_infos t), (alt_transaction_blobs t). split_and!; [by destruct t| |done].
    intros x Hx. by apply not_elem_of_nil in Hx. }
  cbn [map] in Hn. apply NoDup_cons in Hn as [Hx Hn].
  destruct (Hf x ltac:(by left)) as [F1 F2]. rewrite add_alt_tx by done.
  set (t1 := with_alt_txs _ _ t).
  destruct (IH t1 Hn) as (infos & blobs & Hfold & Hin & Hout).
  { intros y Hy. destruct (Hf y ltac:(by right)) as [G1 G2]. split; [done|]. cbn. rewrite lookup_insert_ne; [done|].
    intros E. apply Hx. rewrite E. by apply list_elem_of_fmap_2. }
  exists infos, blobs. split_and!; [rewrite Hfold; by destruct t| |].
  - intros y Hy. apply elem_of_cons in Hy as [->|Hy]; [|by apply Hin].
    destruct (Hout (v_tx_hash x) Hx) as [-> ->]. cbn. by rewrite !lookup_insert_eq.
  - intros h Hh. rewrite not_elem_of_cons in Hh. destruct Hh as [Hne Hh]. destruct (Hout h Hh) as [-> ->]. cbn.
    by rewrite !lookup_insert_ne by done.
Qed.

(** ** Moving one more block *)
Lemma add_popped_block id h0 b bs t :
  id <> 0 -> 1 <= h0 -> h0 + len bs < 2 ^ 63 -> vb_height b = h0 ->
  len (txs b) = len (BlockRules.transactions (block b)) ->
  NoDup (map vb_block_hash (b :: bs)) -> NoDup (map v_tx_hash ((b :: bs) ≫= txs)) ->
  BlockRules.previous (BlockRules.header (block b)) ∉ map vb_block_hash (b :: bs) ->
  (forall x, x ∈ txs b -> tx_ids t !! v_tx_hash x = None) ->
  (forall b', b' ∈ bs -> vb_height b' <> h0) ->
  alt_holds id (h0 + 1) bs t ->
  exists t', add_alt_block (popped_alt id b) t = Ok t' /\ alt_holds id h0 (b :: bs) t' /\ main_part t' = main_part t.
Proof using Type.
  intros Hid Hh0 Hbnd Hh Hlen Hn Hnt Hprev Hids Hne [A1 A2 A3 A4 A5].
  unfold add_alt_block, popped_alt. cbn [ab_chain_id ab_height ab_block_hash ab_block ab_cumulative_difficulty ab_pow_hash ab_weight
    ab_long_term_weight ab_block_blob ab_txs]. rewrite Hh.
  set (t1 := set_alt_block_heights _ t).
  assert (alt_block_heights t1 !! BlockRules.previous (BlockRules.header (block b)) = None) as Hpar.
  { cbn [map] in Hprev. rewrite not_elem_of_cons in Hprev. destruct Hprev as [P1 P2]. cbn. unfold db_put. rewrite lookup_insert_ne by done.
    destruct (alt_block_heights t !! _) eqn:E; [|done]. exfalso. apply P2, A2. rewrite E. by eexists. }
  assert (update_alt_chain_info (mk_alt_height id h0) (BlockRules.previous (BlockRules.header (block b))) t1 =
    Ok (set_alt_chain_infos (fun _ => {[id := mk_alt_chain_info 0 (h0 - 1) (h0 + len (b :: bs))]}) t1)) as ->.
  { unfold update_alt_chain_info, db_get. rewrite Hpar. cbn [ok_or alt_chain_id alt_height].
    change (Ok ?x ≫= ?f) with (f x). cbv beta. unfold db_update, db_get. change (alt_chain_infos t1) with (alt_chain_infos t). rewrite A1.
    change (len (b :: bs)) with (len ([b] ++ bs)). rewrite len_app. change (len [b]) with 1.
    assert (checked_sub h0 1 = Some (h0 - 1)) as Hc by (unfold checked_sub; by rewrite (proj2 (Z.leb_le _ _)) by lia).
    assert (0 <= len bs) by (unfold len; lia).
    destruct bs as [|b1 bs].
    - rewrite lookup_empty. cbn [ok_or mbind result_bind]. rewrite Hc. cbn [unwrap mbind result_bind raw_chain].
      unfold db_put. rewrite wrap_small by zlia. change (len []) with 0. rewrite Z.add_0_r. unfold set_alt_chain_infos. cbn. by rewrite A1.
    - rewrite lookup_singleton_eq. cbn [ok_or mbind result_bind]. unfold updated_chain_info. cbn [info_chain_height].
      change (len (b1 :: bs)) with (len ([b1] ++ bs)) in *. rewrite len_app in *. change (len [b1]) with 1 in *.
      assert (0 <= len bs) by (unfold len; lia). rewrite (wrap_small 64 (h0 + 1)) by zlia.
      rewrite (proj2 (Z.ltb_ge _ _)) by lia. rewrite Hc. cbn [unwrap mbind result_bind raw_chain]. unfold db_put.
      replace (h0 + (1 + (1 + len bs))) with (h0 + 1 + (1 + len bs)) by lia. by rewrite insert_singleton_eq. }
  cbn [mbind result_bind]. destruct (split_u128_into_low_high_bits (vb_cumulative_difficulty b)) as [low high] eqn:Es.
  rewrite Hlen, Z.eqb_refl. cbn [rassert mbind result_bind].
  set (t2 := set_alt_block_blobs _ _).
  rewrite bind_cons, map_app in Hnt. apply NoDup_app in Hnt as (Hn1 & Hn2 & Hn3).
  destruct (add_alt_txs (txs b) t2 Hn1) as (infos & blobs & -> & Hin & Hout).
  { intros x Hx. split; [by apply Hids|]. change (alt_transaction_blobs t2) with (alt_transaction_blobs t).
    destruct (alt_transaction_blobs t !! v_tx_hash x) eqn:E; [|done]. exfalso. apply (Hn2 (v_tx_hash x)); [by apply list_elem_of_fmap_2|].
    apply A5. rewrite E. by eexists. }
  eexists. split; [done|]. split; [|done]. split.
  - done.
  - intros h. cbn. unfold db_put. intros Hs. destruct (decide (h = vb_block_hash b)) as [->|Hhb]; [by left|].
    rewrite lookup_insert_ne in Hs by done. right. by apply A2.
  - intros b' Hb'. cbn. unfold db_put. apply elem_of_cons in Hb' as [->|Hb'].
    + rewrite Hh, !lookup_insert_eq. split; [|done]. unfold compact_of. by rewrite Es, Hh.
    + specialize (Hne b' Hb'). rewrite !lookup_insert_ne by congruence. by apply A3.
  - intros x Hx. rewrite bind_cons in Hx. apply elem_of_app in Hx as [Hx|Hx]; [by apply Hin|].
    destruct (Hout (v_tx_hash x)) as [E1 E2]; [|cbn; rewrite E1, E2; by apply A4].
    intros Hin'. apply (Hn2 (v_tx_hash x) Hin'). by apply list_elem_of_fmap_2.
  - intros h Hs. rewrite bind_cons, map_app, elem_of_app. destruct (decide (h ∈ map v_tx_hash (txs b))) as [|Hnin]; [by left|].
    right. apply A5. destruct (Hout h Hnin) as [_ E]. cbn in Hs. by rewrite E in Hs.
Qed.

(** ** Popping several blocks *)
Lemma tx_hashes_sublist l : map v_tx_hash (l ≫= txs) `sublist_of` map s_hash (chain_txs l).
Proof using Type.
  induction l as [|b l IH]; [done|]. unfold chain_txs. rewrite !bind_cons, !map_app. apply sublist_app; [|done].
  unfold block_txs. cbn [map]. rewrite map_map. by apply sublist_cons.
Qed.

Lemma tx_hashes_disjoint l1 l2 :
  NoDup (map s_hash (chain_txs (l1 ++ l2))) ->
  NoDup (map v_tx_hash (l2 ≫= txs)) /\ forall h, h ∈ map v_tx_hash (l2 ≫= txs) -> h ∉ map s_hash (chain_txs l1).
Proof using Type.
  rewrite chain_txs_app, map_app. intros H. apply NoDup_app in H as (_ & Hd & Hn). split.
  - by eapply sublist_NoDup; [|apply tx_hashes_sublist].
  - intros h Hh Hh1. apply (Hd h Hh1). by eapply elem_of_sublist; [|apply tx_hashes_sublist].
Qed.

Lemma ids_absent l t h : holds l t -> h ∉ map s_hash l -> tx_ids t !! h = None.
Proof using Type.
  intros Hh Hn. destruct (tx_ids t !! h) as [i|] eqn:E; [|done]. apply (h_ids _ _ Hh) in E as (x & Hx & <-). exfalso. apply Hn.
  apply list_elem_of_fmap_2. unfold lookZ in Hx. destruct (i <? 0); [done|]. by eapply list_elem_of_lookup_2.
Qed.

Context {L : DalekLaws O C} {ML : MoneroOxideLaws O T}.

Lemma main_stores chain t t' : main_part t' = main_part t -> stores chain t -> stores chain t'.
Proof using Type.
  intros Hm [[H1 H2 H3 H4 H5 H6 H7 H8] S1 S2 S3 S4 S5]. unfold main_part in Hm. injection Hm as E1 E2 E3 E4 E5 E6 E7 E8 E9 E10 E11 E12 E13.
  split; [split|..]; rewrite ?E1, ?E2, ?E3, ?E4, ?E5, ?E9, ?E10, ?E11, ?E12, ?E13; try done.
  unfold outs_part. rewrite E6, E7, E8. done.
Qed.

Lemma pop_one_to_alt id chain rest b done t :
  id <> 0 -> chain <> [] -> valid_chain ((chain ++ rest) ++ b :: done) -> linked ((chain ++ rest) ++ b :: done) ->
  stores ((chain ++ rest) ++ [b]) t -> alt_holds id (len (chain ++ rest) + 1) done t ->
  exists t', pop_block (Some id) t = Ok ((len (chain ++ rest), vb_block_hash b, block b), t') /\
    stores (chain ++ rest) t' /\ alt_holds id (len (chain ++ rest)) (b :: done) t'.
Proof using L ML.
  intros Hid Hne Hv Hlk Hst Ha. set (l := chain ++ rest) in *.
  assert (1 <= len l) as Hl1 by (unfold l; rewrite len_app; destruct chain; [done|unfold len; cbn; lia]).
  assert (valid_chain (l ++ [b])) as Hvb by (rewrite cons_middle, app_assoc in Hv; by eapply valid_chain_prefix).
  destruct (pop_block_stores l b t Hvb Hst) as (t0 & Hs0 & Ha0 & Hpop).
  assert (alt_holds id (len l + 1) done t0) as Ha'.
  { unfold alt_part in Ha0. injection Ha0 as E1 E2 E3 E4 E5 E6. destruct Ha as [A1 A2 A3 A4 A5]. split; rewrite ?E1, ?E2, ?E3, ?E4, ?E5, ?E6; done. }
  pose proof Hv as [V1 V2 V3 V4 _ _ V7]. destruct (valid_chain_top l b Hvb) as [Hh _].
  destruct (tx_hashes_disjoint l (b :: done) V4) as [Hn Hd].
  assert (block_sound b) as Hsb by (rewrite Forall_app, List.Forall_cons_iff in V7; tauto).
  destruct (add_popped_block id (len l) b done t0) as (t' & Hadd & Ha2 & Hm); [done|done| |done| | |done| | | |done|].
  - rewrite len_app in V2. change (len (b :: done)) with (len ([b] ++ done)) in V2. rewrite len_app in V2. change (len [b]) with 1 in V2. zlia.
  - by rewrite (bs_hashes _ Hsb), len_map.
  - rewrite map_app in V3. by apply NoDup_app in V3 as (_ & _ & ?).
  - destruct (lookup_lt_is_Some_2 l (length l - 1)) as [p Hp]; [unfold len in Hl1; lia|].
    rewrite (Hlk (length l - 1)%nat p b).
    + rewrite map_app in V3. apply NoDup_app in V3 as (_ & V3 & _). apply V3. apply list_elem_of_fmap_2. by eapply list_elem_of_lookup_2.
    + by apply lookup_app_l_Some.
    + replace (S (length l - 1)) with (length l) by (unfold len in Hl1; lia). rewrite lookup_app_r, Nat.sub_diag by done. done.
  - intros x Hx. apply (ids_absent _ _ _ (st_txs _ _ Hs0)). apply Hd. apply list_elem_of_fmap_2. rewrite bind_cons. apply elem_of_app. by left.
  - intros b' Hb'. apply list_elem_of_lookup_1 in Hb' as [k Hk]. rewrite (V1 (length l + S k)%nat b'); [unfold len; lia|].
    rewrite lookup_app_r by lia. replace (length l + S k - length l)%nat with (S k) by lia. done.
  - exists t'. rewrite Hpop. unfold move_to_alt. rewrite Hadd. split_and!; [done|by eapply main_stores|done].
Qed.

Lemma pop_loop_alt id chain rest done t :
  id <> 0 -> chain <> [] -> valid_chain (chain ++ rest ++ done) -> linked (chain ++ rest ++ done) ->
  stores (chain ++ rest) t -> alt_holds id (len (chain ++ rest)) done t ->
  exists t', pop_loop (length rest) id t = Ok t' /\ stores chain t' /\ alt_holds id (len chain) (rest ++ done) t'.
Proof using L ML.
  intros Hid Hne. revert done t. induction rest as [|b rest IH] using rev_ind; intros done t Hv Hlk Hst Ha.
  { exists t. rewrite app_nil_r in *. done. }
  rewrite length_app, Nat.add_comm. cbn [length Nat.add pop_loop]. rewrite <- !app_assoc in *. cbn [app] in *.
  rewrite !app_assoc in *. rewrite len_app in Ha. change (len [b]) with 1 in Ha.
  destruct (pop_one_to_alt id chain rest b done t Hid Hne Hv Hlk Hst Ha) as (t1 & -> & Hst1 & Ha1). cbn [mbind result_bind].
  rewrite <- app_assoc in Hv, Hlk. destruct (IH (b :: done) t1 Hv Hlk Hst1 Ha1) as (t' & Hp & Hst' & Ha').
  by exists t'.
Qed.

(** ** Reading the popped blocks back *)
Lemma alt_holds_flush t id h : alt_holds id h [] (flush_alt_blocks t).
Proof using Type.
  split; cbn; try done; [intros x [y Hy]; done|intros b Hb; by apply not_elem_of_nil in Hb|intros x Hx; by apply not_elem_of_nil in Hx|
    intros x [y Hy]; done].
Qed.

Lemma popped_tx_fields x : popped_tx (v_tx x) = Ok x -> tx_read (v_tx_blob x) = Some (v_tx x) ->
  forall t, alt_transaction_infos t !! v_tx_hash x = Some (mk_alt_tx_info (v_tx_weight x) (v_fee x) (v_tx_hash x)) ->
  alt_transaction_blobs t !! v_tx_hash x = Some (v_tx_blob x) -> get_alt_transaction (v_tx_hash x) t = Ok x.
Proof using Type.
  intros _ Hr t H1 H2. unfold get_alt_transaction, db_get. rewrite H1, H2. cbn [ok_or mbind result_bind]. rewrite Hr. by destruct x.
Qed.

Lemma alt_block_at id h0 bs t b :
  id <> 0 -> alt_holds id h0 bs t -> b ∈ bs -> block_sound b ->
  get_alt_block (mk_alt_height id (vb_height b)) t = Ok (popped_alt id b).
Proof using Type.
  intros Hid [_ _ A3 A4 _] Hb Hs. destruct (A3 b Hb) as [B1 B2]. unfold get_alt_block, db_get. rewrite B1, B2. cbn [ok_or mbind result_bind].
  unfold read_io. destruct (bs_read _ Hs) as [-> _]. cbn [ok_or mbind result_bind]. rewrite (bs_hashes _ Hs).
  assert (collect (fun h => get_alt_transaction h t) (map v_tx_hash (txs b)) = Ok (txs b)) as ->.
  { assert (forall x, x ∈ txs b -> get_alt_transaction (v_tx_hash x) t = Ok x) as Hx.
    { intros x Hx. pose proof (bs_txs _ Hs) as Htx. rewrite Forall_forall in Htx. destruct (Htx x Hx) as (_ & Hr & Hp).
      destruct (A4 x) as [I1 I2]; [apply list_elem_of_bind; eauto|]. by apply popped_tx_fields. }
    clear -Hx. induction (txs b) as [|x xs IH]; cbn [map collect]; [done|]. rewrite Hx by left. cbn [mbind result_bind].
    rewrite IH; [done|]. intros y Hy. apply Hx. by right. }
  cbn [mbind result_bind]. unfold chain_id_of_raw. cbn [alt_chain_id]. rewrite (proj2 (Z.eqb_neq _ _)) by done. cbn [mbind result_bind].
  unfold popped_alt, compact_of. pose proof (split_combine (vb_cumulative_difficulty b) (bs_difficulty _ Hs)) as Hc.
  destruct (split_u128_into_low_high_bits _) as [low high]. cbn. by rewrite Hc.
Qed.

Lemma alt_history id h0 bs t :
  id <> 0 -> bs <> [] -> 1 <= h0 -> h0 + len bs < 2 ^ 63 -> alt_holds id h0 bs t ->
  get_alt_chain_history_ranges (0, u64_MAX) id t = Ok [(Alt id, (h0, h0 + len bs)); (Main, (0, h0))].
Proof using Type.
  intros Hid Hne Hh Hb [A1 _ _ _ _]. unfold get_alt_chain_history_ranges. rewrite A1. destruct bs as [|b bs]; [done|].
  assert (0 <= len (b :: bs)) by (unfold len; lia).
  rewrite map_size_singleton. cbn [history_ranges_loop fst snd]. change (0 <? u64_MAX) with true. cbv iota.
  unfold db_get. rewrite lookup_singleton_eq. cbn [ok_or mbind result_bind common_ancestor_height info_chain_height DbTables.parent_chain].
  unfold chain_id_of_raw. rewrite (proj2 (Z.eqb_neq _ _)) by done. cbn [mbind result_bind]. change (chain_of_raw 0) with Main. cbv iota.
  rewrite wrap_small by zlia. replace (h0 - 1 + 1) with h0 by lia. rewrite Z.max_r by lia. rewrite Z.min_r by zlia. done.
Qed.

Lemma collect_alt_blocks id (f : Z -> DbResult AltBlockInformation) bs h0 :
  (forall (k : nat) b, bs !! k = Some b -> f (h0 + Z.of_nat k) = Ok (popped_alt id b)) ->
  collect f (seqZ h0 (len bs)) = Ok (map (popped_alt id) bs).
Proof using Type.
  revert h0. induction bs as [|b bs IH]; intros h0 Hf; [done|].
  change (len (b :: bs)) with (len ([b] ++ bs)). rewrite len_app. change (len [b]) with 1.
  rewrite seqZ_cons by (unfold len; lia). cbn [collect map]. pose proof (Hf 0%nat b eq_refl) as H0. rewrite Z.add_0_r in H0. rewrite H0.
  cbn [mbind result_bind]. replace (Z.pred (1 + len bs)) with (len bs) by lia. rewrite IH; [done|].
  intros k y Hy. rewrite <- (Hf (S k) y Hy). f_equal. lia.
Qed.

(** The tables after a chain was popped to its first blocks. *)
Lemma pop_request id chain popped t :
  id <> 0 -> chain <> [] -> valid_chain (chain ++ popped) -> linked (chain ++ popped) -> stores (chain ++ popped) t ->
  exists t', handle_blockchain_request id t (PopBlocks (len popped)) = (Ok (PopBlocksResponse id), t') /\
    stores chain t' /\ alt_holds id (len chain) popped t'.
Proof using L ML.
  intros Hid Hne Hv Hlk Hst.
  destruct (pop_loop_alt id chain popped [] (flush_alt_blocks t)) as (t' & Hp & Hs' & Ha'); [done|done|by rewrite app_nil_r|by rewrite app_nil_r| |apply alt_holds_flush|].
  { by apply (main_stores _ t). }
  rewrite app_nil_r in Ha'. exists t'. unfold handle_blockchain_request. unfold len. by rewrite Nat2Z.id, Hp.
Qed.

Lemma alt_chain_read id chain popped t' :
  id <> 0 -> chain <> [] -> popped <> [] -> valid_chain (chain ++ popped) -> alt_holds id (len chain) popped t' ->
  alt_blocks_in_chain t' id = Ok (AltBlocksInChain (map (popped_alt id) popped)).
Proof using L ML.
  intros Hid Hne Hpne Hv Ha'. assert (1 <= len chain) as Hl1 by (destruct chain; [done|unfold len; cbn; lia]).
  pose proof Hv as [V1 V2 _ _ _ _ V7]. rewrite len_app in V2. apply Forall_app in V7 as [_ V7].
  unfold alt_blocks_in_chain. rewrite (alt_history id (len chain) popped t') by (done || zlia). cbn [mbind result_bind rev app drop].
  unfold range_list. rewrite bind_singleton. cbn [fst snd]. replace (len chain + len popped - len chain) with (len popped) by lia.
  assert (collect (fun '((c, height) : Chain * Z) => match c with Alt chain_id => get_alt_block (mk_alt_height chain_id height) t' | Main => Panic end)
    (map (pair (Alt id)) (seqZ (len chain) (len popped))) = Ok (map (popped_alt id) popped)) as ->; [|done].
  rewrite collect_map. apply collect_alt_blocks. intros k b Hk.
  assert (vb_height b = len chain + Z.of_nat k) as <-.
  { rewrite (V1 (length chain + k)%nat b); [unfold len; lia|]. rewrite lookup_app_r by lia. by replace (length chain + k - length chain)%nat with k by lia. }
  eapply alt_block_at; [done|done|by eapply list_elem_of_lookup_2|]. rewrite Forall_lookup in V7. eauto.
Qed.

Lemma alt_holds_part id h bs t t' : alt_part t' = alt_part t -> alt_holds id h bs t -> alt_holds id h bs t'.
Proof using Type.
  unfold alt_part. intros Ha0 [A1 A2 A3 A4 A5]. injection Ha0 as E1 E2 E3 E4 E5 E6. split; rewrite ?E1, ?E2, ?E3, ?E4, ?E5, ?E6; done.
Qed.

(** C26. Popped blocks are not lost: when the tables hold a chain, the request to pop its top
    blocks succeeds, the tables then hold the rest of the chain, and the popped blocks can
    be read back in order, with all their transactions, as the alternative chain whose id
    the response names. *)
Theorem popped_blocks_recoverable id chain popped t :
  id <> 0 -> chain <> [] -> popped <> [] -> valid_chain (chain ++ popped) -> linked (chain ++ popped) -> stores (chain ++ popped) t ->
  exists t', handle_blockchain_request id t (PopBlocks (len popped)) = (Ok (PopBlocksResponse id), t') /\
    stores chain t' /\ alt_blocks_in_chain t' id = Ok (AltBlocksInChain (map (popped_alt id) popped)).
Proof using L ML.
  intros Hid Hne Hpne Hv Hlk Hst. destruct (pop_request id chain popped t Hid Hne Hv Hlk Hst) as (t' & Hp & Hs' & Ha').
  exists t'. split_and!; [done|done|by apply (alt_chain_read id chain)].
Qed.

(** The extended header of a stored alternative block carries the version of the block in
    the place of its vote; the header read for the same block of the main chain carries
    the vote. *)
Theorem alt_header_vote_is_version id h0 bs t b :
  alt_holds id h0 bs t -> b ∈ bs -> block_sound b ->
  get_alt_block_extended_header_from_height (mk_alt_height id (vb_height b)) t =
  Ok (mk_ext (version_of b) (BlockRules.hardfork_version (BlockRules.header (block b))) (ChainDb.timestamp (ext_of b))
        (ChainDb.cumulative_difficulty (ext_of b)) (block_weight (ext_of b)) (long_term_weight (ext_of b))) /\
  vote (ext_of b) = BlockRules.hardfork_signal (BlockRules.header (block b)).
Proof using Type.
  intros [_ _ A3 _ _] Hb Hs. split; [|done]. destruct (A3 b Hb) as [B1 B2].
  unfold get_alt_block_extended_header_from_height, db_get. rewrite B1, B2. cbn [ok_or mbind result_bind].
  unfold read_io. destruct (bs_read _ Hs) as [_ ->]. cbn [ok_or mbind result_bind]. unfold version_of.
  destruct (bs_version _ Hs) as [hf ->]. cbn [expect mbind result_bind].
  unfold compact_of. pose proof (split_combine (vb_cumulative_difficulty b) (bs_difficulty _ Hs)) as Hc.
  destruct (split_u128_into_low_high_bits _) as [low high]. cbn. by rewrite Hc.
Qed.

End alt.

(** ** On the chain of three blocks *)
Import Transparent TestHelpers TestStore.

Lemma popped_blocks_recoverable_witness :
  exists t', handle_blockchain_request 8 (TestStore.db 3) (PopBlocks 2) = (Ok (PopBlocksResponse 8), t') /\
    alt_blocks_in_chain t' 8 = Ok (AltBlocksInChain [popped_alt 8 TestStore.second; popped_alt 8 TestStore.third]).
Proof.
  destruct (popped_blocks_recoverable 8 [TestStore.genesis] [TestStore.second; TestStore.third] (TestStore.db 3)) as (t' & H1 & _ & H2).
  - done.
  - done.
  - done.
  - apply TestStore.valid.
  - intros [|[|i]] b b' Hb Hb'; cbn in Hb, Hb'; by simplify_eq.
  - apply (TestStore.db_stores 3).
  - exists t'. split; [exact H1|exact H2].
Defined.

Lemma alt_header_vote_is_version_witness :
  exists t, add_alt_block (popped_alt 8 TestStore.third) (flush_alt_blocks (TestStore.db 2)) = Ok t /\
    get_alt_block_extended_header_from_height (mk_alt_height 8 2) t = Ok (mk_ext V1 1 1002 (2 ^ 64 + 2) 100 90) /\
    vote (ext_of TestStore.third) = 7.
Proof.
  destruct (add_popped_block 8 2 TestStore.third [] (flush_alt_blocks (TestStore.db 2))) as (t & H1 & Ha & _).
  - done.
  - lia.
  - done.
  - done.
  - done.
  - apply NoDup_singleton.
  - constructor.
  - by apply (bool_decide_unpack _); vm_compute.
  - intros x Hx. by apply not_elem_of_nil in Hx.
  - intros b' Hb. by apply not_elem_of_nil in Hb.
  - apply alt_holds_flush.
  - exists t. split; [exact H1|]. apply (alt_header_vote_is_version 8 2 [TestStore.third] t TestStore.third).
    + exact Ha.
    + by left.
    + pose proof TestStore.sound as H. apply List.Forall_inv_tail, List.Forall_inv_tail, List.Forall_inv in H. exact H.
Defined.

End AltStore.
