(* ===== verification/OutputIndex.v ===== *)
(** * The outputs of a chain, numbered by amount

    The ring members of an input are outputs of the chain, named by amount and number.
    [out_at] is that numbering as a function of the chain; the output tables
    ([DbTables], [TxOps]) compute it, and a longer chain does not change it. *)
From S2P Require Import Prelude Bytes HardForks ChainDb TxData BlockRules TxContext Helpers DbTables TxOps TxStore AltBlocks BlockOps ChainStore BlockchainService ChainReads.
From Stdlib Require Import ZArith Lia String.
From stdpp Require Import base tactics option list numbers sets gmap.
Import HardForks ChainDb TxData TxContext Helpers DbTables TxOps TxStore AltBlocks BlockOps ChainStore BlockchainService ChainReads.

#[local] Open Scope Z_scope.
#[local] Open Scope usize_scope.

Module OutputIndex.

Section index.
Context {O : MoneroOxide} {T : TransactionOps O} {C : Dalek O} {Cd : MoneroCodec O}.

(** The amount under which an output is numbered. Ring-CT outputs have amount 0, so a
    version 1 output of amount 0 cannot be referred to. *)
Definition key_of (a : Z) : option Z := if a =? 0 then None else Some a.

Definition on_chain (x : StoredTx) (k c : CompressedPoint) : OutputOnChain :=
  mk_output_on_chain (s_height x) (additional_timelock (prefix (s_tx x))) k c None.

Definition outs_of (x : StoredTx) : list (option Z * OutputOnChain) :=
  match s_tx x with
  | Tx_V1 p _ =>
      map (fun o => (key_of (default 0 (out_amount o)), on_chain x (out_key o) (zero_commitment (default 0 (out_amount o))))) (outputs p)
  | Tx_V2 p proofs =>
      map (fun '((i, o) : nat * Output) => (Some 0, on_chain x (out_key o) (commitment_of (s_tx x) proofs i o))) (imap pair (outputs p))
  end.

Definition keyed (a : Z) (ys : list (option Z * OutputOnChain)) : list OutputOnChain :=
  omap (fun '(k, o) => if bool_decide (k = Some a) then Some o else None) ys.

Definition chain_outs (l : list StoredTx) : list (option Z * OutputOnChain) := l ≫= outs_of.

(** The output number [i] of amount [a], and how many there are. *)
Definition out_at (l : list StoredTx) (a i : Z) : option OutputOnChain := lookZ (keyed a (chain_outs l)) i.
Definition out_count (l : list StoredTx) (a : Z) : Z := len (keyed a (chain_outs l)).

Lemma keyed_app a ys zs : keyed a (ys ++ zs) = keyed a ys ++ keyed a zs.
Proof using Type. apply omap_app. Qed.

Lemma chain_outs_app l l' : chain_outs (l ++ l') = chain_outs l ++ chain_outs l'.
Proof using Type. apply bind_app. Qed.

(** A longer chain has the same outputs under the same numbers. *)
Lemma out_at_mono l l' a i o : out_at l a i = Some o -> out_at (l ++ l') a i = Some o.
Proof using Type.
  unfold out_at. intros H. rewrite chain_outs_app, keyed_app. pose proof (lookZ_lt _ _ _ H). by rewrite lookZ_app_l by lia.
Qed.

(** ** The tables compute the numbering *)

(** A stored output and the output on the chain it stands for. *)
Definition stands_for (l : list StoredTx) (y : new_out) (ko : option Z * OutputOnChain) : Prop :=
  match y with
  | inl (a, d) =>
      ko.1 = key_of a /\ exists x, lookZ l (o_tx_idx d) = Some x /\ o_height d = s_height x /\
        o_output_flags d = output_flags_of (additional_timelock (prefix (s_tx x))) /\ ko.2 = on_chain x (o_key d) (zero_commitment a)
  | inr r =>
      ko.1 = Some 0 /\ exists x, lookZ l (r_tx_idx r) = Some x /\ r_height r = s_height x /\
        r_output_flags r = output_flags_of (additional_timelock (prefix (s_tx x))) /\ ko.2 = on_chain x (r_key r) (r_commitment r)
  end.

Lemma stands_for_mono l l' y ko : stands_for l y ko -> stands_for (l ++ l') y ko.
Proof using Type.
  destruct y as [[a d]|r]; intros (Hk & x & Hx & H); (split; [done|]); exists x; pose proof (lookZ_lt _ _ _ Hx); by rewrite lookZ_app_l by lia.
Qed.

Lemma all_outs_stand_for l : Forall2 (stands_for l) (all_outs l) (chain_outs l).
Proof using Type.
  induction l as [|x l IH] using rev_ind; [constructor|]. rewrite all_outs_snoc, chain_outs_app. apply Forall2_app.
  - apply (Forall2_impl _ _ _ _ IH). intros y ko. apply stands_for_mono.
  - assert (lookZ (l ++ [x]) (Z.of_nat (length l)) = Some x) as Hx by (rewrite lookZ_snoc; by rewrite bool_decide_eq_true_2).
    unfold chain_outs. cbn. rewrite app_nil_r. unfold stored_outs, tx_outs, outs_of. destruct (s_tx x) as [p sg|p proofs] eqn:Et.
    + apply Forall2_fmap_2, Forall_Forall2_diag, Forall_forall. intros o _. split; [done|]. exists x. cbn. unfold on_chain. by rewrite Et.
    + apply Forall2_fmap_2, Forall_Forall2_diag, Forall_forall. intros [i o] _. split; [done|]. exists x. cbn. unfold on_chain. by rewrite Et.
Qed.

Lemma pre_list_keyed l xs ys a :
  a <> 0 -> Forall2 (stands_for l) xs ys ->
  Forall2 (fun d o => stands_for l (inl (a, d)) (Some a, o)) (pre_list xs a) (keyed a ys).
Proof using Type.
  intros Ha. unfold pre_list, keyed. induction 1 as [|y [k o] xs ys Hy _ IH]; [constructor|]. cbn [omap list_omap].
  destruct y as [[b d]|r].
  - pose proof Hy as [Hk _]. cbn in Hk. subst k. unfold key_of in *. destruct (Z.eqb_spec b 0) as [->|Hb].
    + rewrite !bool_decide_eq_false_2 by congruence. done.
    + case_bool_decide as Hab.
      * subst b. rewrite bool_decide_eq_true_2 by done. constructor; [|done]. destruct Hy as [_ Hy]. split; [|done]. cbn.
        unfold key_of. by rewrite (proj2 (Z.eqb_neq _ _)).
      * by rewrite bool_decide_eq_false_2 by congruence.
  - destruct Hy as [Hk _]. cbn in Hk. subst k. by rewrite bool_decide_eq_false_2 by congruence.
Qed.

Lemma rct_list_keyed l xs ys :
  Forall2 (stands_for l) xs ys -> Forall2 (fun r o => stands_for l (inr r) (Some 0, o)) (rct_list xs) (keyed 0 ys).
Proof using Type.
  unfold rct_list, keyed. induction 1 as [|y [k o] xs ys Hy _ IH]; [constructor|]. cbn [omap list_omap]. destruct y as [[b d]|r].
  - destruct Hy as [Hk _]. cbn in Hk. subst k. unfold key_of. destruct (Z.eqb_spec b 0); by rewrite bool_decide_eq_false_2 by congruence.
  - pose proof Hy as [Hk _]. cbn in Hk. subst k. rewrite bool_decide_eq_true_2 by done. by constructor.
Qed.

Lemma Forall2_lookZ {A B} (P : A -> B -> Prop) l l' i :
  Forall2 P l l' -> match lookZ l i, lookZ l' i with Some a, Some b => P a b | None, None => True | _, _ => False end.
Proof using Type.
  intros H. unfold lookZ. destruct (i <? 0); [done|]. destruct (l !! Z.to_nat i) as [a|] eqn:Ea.
  - destruct (Forall2_lookup_l _ _ _ _ _ H Ea) as (b & -> & Hp). done.
  - destruct (l' !! Z.to_nat i) as [b|] eqn:Eb; [|done]. destruct (Forall2_lookup_r _ _ _ _ _ H Eb) as (a & Ha & _). congruence.
Qed.

(** The request for an output. *)
Lemma output_request {L : DalekLaws O C} chain t a i :
  valid_chain chain -> stores chain t -> is_u 64 a ->
  id_to_output_on_chain (mk_output_id a i) false t =
  match out_at (chain_txs chain) a i with Some o => Ok o | None => Err KeyNotFound end.
Proof using Type.
  intros Hv Hst Hu. pose proof (st_txs _ _ Hst) as Hh. destruct (h_outs _ _ Hh) as [_ Hpre Hrct _]. cbn in Hpre, Hrct.
  pose proof (all_outs_stand_for (chain_txs chain)) as Hall. unfold id_to_output_on_chain, get_rct_output, get_output, db_get, out_at.
  cbn [amount amount_index]. destruct (Z.eqb_spec a 0) as [->|Ha].
  - pose proof (Forall2_lookZ _ _ _ i (rct_list_keyed _ _ _ Hall)) as H. rewrite Hrct.
    destruct (lookZ (rct_list _) i) as [r|], (lookZ (keyed 0 _) i) as [o|]; try done. cbn [ok_or mbind result_bind].
    destruct H as (_ & x & Hx & H1 & H2 & H3). cbn in H3. subst o. unfold rct_output_to_output_on_chain. rewrite H1, H2.
    rewrite (time_lock_at chain t _ x Hv Hst Hx). done.
  - pose proof (Forall2_lookZ _ _ _ i (pre_list_keyed _ _ _ a Ha Hall)) as H. rewrite Hpre.
    destruct (lookZ (pre_list _ a) i) as [d|], (lookZ (keyed a _) i) as [o|]; try done. cbn [ok_or mbind result_bind].
    destruct H as (_ & x & Hx & H1 & H2 & H3). cbn in H3. subst o. unfold output_to_output_on_chain. rewrite H1, H2.
    rewrite (compute_zero_commitment_eq a Hu). cbn [mbind result_bind]. rewrite (time_lock_at chain t _ x Hv Hst Hx). done.
Qed.

(** The request for the number of outputs. *)
Lemma number_request chain t a : stores chain t -> number_with_amount t a = Ok (out_count (chain_txs chain) a).
Proof using Type.
  intros Hst. destruct (h_outs _ _ (st_txs _ _ Hst)) as [Hnum _ _ Hlen]. cbn in Hnum, Hlen.
  pose proof (all_outs_stand_for (chain_txs chain)) as Hall. unfold number_with_amount, out_count. destruct (Z.eqb_spec a 0) as [->|Ha].
  - rewrite Hlen. f_equal. unfold len. by rewrite (Forall2_length _ _ _ (rct_list_keyed _ _ _ Hall)).
  - pose proof (Forall2_length _ _ _ (pre_list_keyed _ _ _ a Ha Hall)) as Hl. unfold db_get. rewrite Hnum. unfold len. rewrite <- Hl.
    case_bool_decide as E; [by rewrite E|done].
Qed.

End index.
End OutputIndex.
