(* ===== verification/TxVerification.v ===== *)
(** * Transaction verification ([src/consensus/src/transactions.rs],
    [transactions/contextual_data.rs], [transactions/free.rs], [batch_verifier.rs];
    [TransactionVerificationData] and [OutputCache] of [src/types/types/src])

    A transaction is prepared, then verified against the database and the rules of
    [TxRules] and [TxContext]; what was verified is remembered in its
    [CachedVerificationState]. Loops that rayon runs in parallel are run in order, with
    one batch verifier. *)
From S2P Require Import Prelude Bytes HardForks ChainDb TxData RulesBase TxRules TxContext BlockRules Helpers DbTables TxOps AltBlocks BlockOps BlockchainService.
From Stdlib Require Import ZArith Lia String.
From stdpp Require Import base tactics option list numbers sets gmap.
Import HardForks ChainDb TxData RulesBase TxRules TxContext Helpers DbTables TxOps AltBlocks BlockOps BlockchainService.

#[local] Open Scope Z_scope.
#[local] Open Scope usize_scope.

Module TxVerification.

(** What is used of [monero_oxide] besides [MoneroOxide]: the batch verifier of the range
    proofs and the clawback of a transaction's weight. *)
Class MoneroBatch (O : MoneroOxide) := {
  (** [BatchVerifier::new()], [verify()] *)
  batch_new : InternalBatchVerifier;
  batch_valid : InternalBatchVerifier -> bool;
  (** [Bulletproof::calculate_clawback(plus, outputs).0] *)
  calculate_clawback : bool -> Z -> Z;
}.

Inductive CachedVerificationState :=
  | NotVerified
  | OnlySemantic (hf : HardFork)
  | ValidAtHashAndHF (block_hash : bytes) (hf : HardFork)
  | ValidAtHashAndHFWithTimeBasedLock (block_hash : bytes) (hf : HardFork) (time_lock : Timelock).

Definition verified_at_block_hash (s : CachedVerificationState) : option bytes :=
  match s with
  | NotVerified | OnlySemantic _ => None
  | ValidAtHashAndHF block_hash _ | ValidAtHashAndHFWithTimeBasedLock block_hash _ _ => Some block_hash
  end.

Inductive VerificationNeeded := V1DecoyCheck | SemanticAndContextual | Contextual | NoneNeeded.

#[export] Instance VerificationNeeded_eq_dec : EqDecision VerificationNeeded.
Proof. solve_decision. Defined.

(** [map.get(&k)] of an [IndexMap] *)
Definition assoc {A} (k : Z) (l : list (Z * A)) : option A := snd <$> head (filter (fun p => p.1 = k) l).

(** [set.swap_remove(&k)] on the set under key [a]: the map, and whether it was there. *)
Definition assoc_remove (a k : Z) (l : list (Z * list Z)) : bool * list (Z * list Z) :=
  match assoc a l with
  | Some set =>
      if bool_decide (k ∈ set)
      then (true, map (fun p => if p.1 =? a then (p.1, filter (fun x => x <> k) p.2) else p) l)
      else (false, l)
  | None => (false, l)
  end.

(** [map.entry(a).or_default().insert(k, v)] *)
Definition assoc_insert {A} (a k : Z) (v : A) (l : list (Z * list (Z * A))) : list (Z * list (Z * A)) :=
  match assoc a l with
  | Some _ => map (fun p => if p.1 =? a then (p.1, filter (fun q => q.1 <> k) p.2 ++ [(k, v)]) else p) l
  | None => l ++ [(a, [(k, v)])]
  end.

Section verify.
Context {O : MoneroOxide} {T : TransactionOps O} {C : Dalek O} {Cd : MoneroCodec O} {B : MoneroBatch O}.

Inductive ConsensusError := BlockErr (e : BlockError) | TransactionErr (e : TransactionError).

Inductive ExtendedConsensusError :=
  | ConsErr (e : ConsensusError)
  | DatabaseErr (e : RuntimeError)
  | ContextErr (e : ContextCacheError)
  | TxsIncludedWithBlockIncorrect
  | OneOrMoreBatchVerificationStatementsInvalid
  | NoBlocksToVerify.

#[local] Abbreviation EResult := (result ExtendedConsensusError).

Record TransactionVerificationData := mk_tvd {
  tvd_tx : Transaction;
  tvd_version : TxVersion;
  tvd_tx_blob : bytes;
  tvd_tx_weight : Z;
  tvd_fee : Z;
  tvd_tx_hash : bytes;
  cached_verification_state : CachedVerificationState;
}.

Definition with_state (s : CachedVerificationState) (x : TransactionVerificationData) : TransactionVerificationData :=
  mk_tvd (tvd_tx x) (tvd_version x) (tvd_tx_blob x) (tvd_tx_weight x) (tvd_fee x) (tvd_tx_hash x) s.

(** [TransactionVerificationData::try_from(tx)] *)
Definition tvd_try_from (value : VerifiedTransactionInformation) : option TransactionVerificationData :=
  version ← from_raw (version (v_tx value));
  Some (mk_tvd (v_tx value) version (v_tx_blob value) (v_tx_weight value) (v_fee value) (v_tx_hash value) NotVerified).

(** ** Preparing a transaction *)

(** The weight of a transaction with this blob. *)
Definition tx_weight_of (tx : Transaction) (tx_blob : bytes) : Z :=
  match tx with
  | Tx_V1 _ _ | Tx_V2 _ None => len tx_blob
  | Tx_V2 prefix (Some proofs) =>
      match rct_type proofs with
      | AggregateMlsagBorromean | MlsagBorromean => len tx_blob
      | MlsagBulletproofs | MlsagBulletproofsCompactAmount | ClsagBulletproof =>
          len tx_blob +! calculate_clawback false (len (outputs prefix))
      | ClsagBulletproofPlus => len tx_blob +! calculate_clawback true (len (outputs prefix))
      end
  end.

Definition checked_tx_fee (tx : Transaction) : result TransactionError Z :=
  match tx with
  | Tx_V1 prefix _ =>
      fee ← try_fold (fun fee input =>
              match input with
              | ToKey amount _ _ => ok_or (checked_add 64 fee (default 0 amount)) InputsOverflow
              | Gen _ => Ok fee
              end) 0 (inputs prefix);
      try_fold (fun fee output => ok_or (checked_sub fee (default 0 (out_amount output))) OutputsTooHigh) fee (outputs prefix)
  | Tx_V2 _ proofs => proofs ← ok_or proofs TransactionVersionInvalid; Ok (fee (base proofs))
  end.

Definition new_tx_verification_data (tx : Transaction) : result ConsensusError TransactionVerificationData :=
  let tx_hash := tx_hash tx in
  let tx_blob := tx_serialize tx in
  let tx_weight := tx_weight_of tx tx_blob in
  fee ← map_err TransactionErr (checked_tx_fee tx);
  version ← map_err TransactionErr (ok_or (from_raw (version tx)) TransactionVersionInvalid);
  Ok (mk_tvd tx version tx_blob tx_weight fee tx_hash NotVerified).

(** [PrepTransactions::prepare] *)
Definition prepare (prepped_txs : list TransactionVerificationData) (txs : list Transaction)
    : result ConsensusError (list TransactionVerificationData) :=
  new ← collect new_tx_verification_data txs;
  Ok (prepped_txs ++ new).

(** ** Outputs *)

(** A request to the database: any other response than the expected one panics. *)
Definition query {A} (t : Tables) (req : BlockchainReadRequest) (expected : BlockchainResponse -> option A) : EResult A :=
  r ← map_err DatabaseErr (map_request t req);
  unwrap (expected r).

Definition query_outputs (t : Tables) (ids : gmap Z (gset Z)) : EResult OutputCache :=
  query t (R_Outputs (map (fun p => (p.1, elements p.2)) (map_to_list ids)) false)
    (fun r => match r with Outputs outputs => Some outputs | _ => None end).

Definition get_output_of (cache : OutputCache) (amount index : Z) : option OutputOnChain :=
  map ← assoc amount (cached_outputs cache);
  assoc index map.

Definition number_outs_with_amount (cache : OutputCache) (amount : Z) : Z := default 0 (number_of_outputs cache !! amount).

(** [get_output_commitment(tx, i)] *)
Definition get_output_commitment {E} (tx : Transaction) (i : nat) : result E CompressedPoint :=
  match tx with
  | Tx_V1 prefix _ | Tx_V2 prefix None =>
      out ← unwrap (outputs prefix !! i);
      compute_zero_commitment (default 0 (out_amount out))
  | Tx_V2 _ (Some proofs) => unwrap (commitments (base proofs) !! i)
  end.

(** [OutputCache::add_tx::<MINER_TX>] *)
Definition cache_add_output {E} (MINER_TX : bool) (height : Z) (tx : Transaction) (cache : OutputCache) (io : nat * Output)
    : result E OutputCache :=
  let '(i, out) := io in
  let amount := if MINER_TX && (version tx =? 2) then 0 else default 0 (out_amount out) in
  match number_of_outputs cache !! amount with
  | None => Ok cache
  | Some amount_index_of_out =>
      let numbers := <[amount := amount_index_of_out +! 1]> (number_of_outputs cache) in
      let '(removed, wanted) := assoc_remove amount amount_index_of_out (wanted_outputs cache) in
      if removed then
        commitment ← get_output_commitment tx i;
        Ok (mk_output_cache
              (assoc_insert amount amount_index_of_out
                 (mk_output_on_chain height (additional_timelock (prefix tx)) (out_key out) commitment None)
                 (cached_outputs cache)) numbers wanted)
      else Ok (mk_output_cache (cached_outputs cache) numbers wanted)
  end.

Definition cache_add_tx {E} (MINER_TX : bool) (height : Z) (tx : Transaction) (cache : OutputCache) : result E OutputCache :=
  try_fold (cache_add_output MINER_TX height tx) cache (imap pair (outputs (prefix tx))).

Definition add_block_to_cache {E} (b : VerifiedBlockInformation) (cache : OutputCache) : result E OutputCache :=
  cache ← cache_add_tx true (vb_height b) (BlockRules.miner_transaction (block b)) cache;
  try_fold (fun cache tx => cache_add_tx false (vb_height b) (v_tx tx) cache) cache (txs b).

Definition ring_member_ids (txs : list TransactionVerificationData) : EResult (gmap Z (gset Z)) :=
  map_err (fun e => ConsErr (TransactionErr e))
    (try_fold (fun ids tx => insert_ring_member_ids (inputs (prefix (tvd_tx tx))) ids) ∅ txs).

Definition get_output_cache (txs : list TransactionVerificationData) (database : Tables) : EResult OutputCache :=
  outputs ← ring_member_ids txs;
  query_outputs database outputs.

Definition batch_get_ring_member_info (txs : list TransactionVerificationData) (hf : HardFork) (database : Tables)
    (cache : option OutputCache) : EResult (list TxRingMembersInfo) :=
  outputs ← ring_member_ids txs;
  outputs ← match cache with Some cache => Ok cache | None => query_outputs database outputs end;
  collect (fun tx => map_err (fun e => ConsErr (TransactionErr e))
    (ring_member_info_for_tx (get_output_of outputs) (number_outs_with_amount outputs) hf
       (inputs (prefix (tvd_tx tx))) (tvd_version tx))) txs.

Definition input_amounts (tx : TransactionVerificationData) : list Z :=
  map (fun input => match input with ToKey amount _ _ => default 0 amount | Gen _ => 0 end) (inputs (prefix (tvd_tx tx))).

(** The decoy information of each transaction, computed lazily by the caller's loop. *)
Definition batch_get_decoy_info (txs : list TransactionVerificationData) (hf : HardFork) (database : Tables)
    (cache : option OutputCache) : EResult (list (result ConsensusError DecoyInfo)) :=
  _ ← rassert (negb (bool_decide (hf = V1)));
  let unique_input_amounts : gset Z := list_to_set (txs ≫= input_amounts) in
  outputs_with_amount ←
    match cache with
    | Some cache =>
        Ok (list_to_map (map (fun amount => (amount, number_outs_with_amount cache amount)) (elements unique_input_amounts)))
    | None =>
        query database (R_NumberOutputsWithAmount (elements unique_input_amounts))
          (fun r => match r with NumberOutputsWithAmount numbers => Some numbers | _ => None end)
    end;
  Ok (map (fun tx => map_err TransactionErr
             (DecoyInfo_new (inputs (prefix (tvd_tx tx))) (fun amt => default 0 ((outputs_with_amount : gmap Z Z) !! amt)) hf)) txs).

(** ** Key images and cached states *)

(** The set of the key images of the transactions, or an error at a duplicate. *)
Definition collect_kis (spent_kis : gset bytes) (txs : list TransactionVerificationData) : result ConsensusError (gset bytes) :=
  try_fold (fun spent_kis tx =>
    try_fold (fun spent_kis input =>
      match input with
      | ToKey _ _ key_image =>
          if bool_decide (to_bytes key_image ∈ spent_kis) then Err (TransactionErr KeyImageSpent)
          else Ok ({[to_bytes key_image]} ∪ spent_kis)
      | Gen _ => Ok spent_kis
      end) spent_kis (inputs (prefix (tvd_tx tx)))) spent_kis txs.

Definition check_kis_unique (txs : list TransactionVerificationData) (database : Tables) : EResult () :=
  spent_kis ← map_err ConsErr (collect_kis ∅ txs);
  kis_spent ← query database (R_KeyImagesSpent spent_kis)
                (fun r => match r with KeyImagesSpent spent => Some spent | _ => None end);
  if (kis_spent : bool) then Err (ConsErr (TransactionErr KeyImageSpent)) else Ok ().

Definition hashes_referenced_in_main_chain (txs : list TransactionVerificationData) (database : Tables)
    : EResult (gset bytes) :=
  let verified_at_block_hashes : gset bytes :=
    list_to_set (omap (fun tx => verified_at_block_hash (cached_verification_state tx)) txs) in
  if bool_decide (verified_at_block_hashes = ∅) then Ok verified_at_block_hashes
  else query database (R_FilterUnknownHashes verified_at_block_hashes)
         (fun r => match r with FilterUnknownHashes known_hashes => Some known_hashes | _ => None end).

(** The body of the loop of [verification_needed]. *)
Definition needed_for (hashes_in_main_chain : gset bytes) (current_hf : HardFork)
    (current_chain_height time_for_time_lock : Z) (tx : TransactionVerificationData) : result ConsensusError VerificationNeeded :=
  let rest :=
    if bool_decide (tvd_version tx = RingSignatures) then Ok V1DecoyCheck else Ok NoneNeeded in
  match cached_verification_state tx with
  | NotVerified => Ok SemanticAndContextual
  | OnlySemantic hf => if bool_decide (current_hf = hf) then Ok Contextual else Ok SemanticAndContextual
  | ValidAtHashAndHF block_hash hf =>
      if negb (bool_decide (current_hf = hf)) then Ok SemanticAndContextual
      else if negb (bool_decide (block_hash ∈ hashes_in_main_chain)) then Ok Contextual
      else rest
  | ValidAtHashAndHFWithTimeBasedLock block_hash hf time_lock =>
      if negb (bool_decide (current_hf = hf)) then Ok SemanticAndContextual
      else if negb (bool_decide (block_hash ∈ hashes_in_main_chain)) then Ok Contextual
      else if negb (output_unlocked time_lock current_chain_height time_for_time_lock hf) then
        Err (TransactionErr OneOrMoreRingMembersLocked)
      else rest
  end.

Definition verification_needed (txs : list TransactionVerificationData) (hashes_in_main_chain : gset bytes)
    (current_hf : HardFork) (current_chain_height time_for_time_lock : Z)
    : result ConsensusError (list VerificationNeeded * bool) :=
  needed ← collect (needed_for hashes_in_main_chain current_hf current_chain_height time_for_time_lock) txs;
  Ok (needed, existsb (fun n => bool_decide (n = V1DecoyCheck)) needed).

(** ** Verification *)
Definition verify_transactions_decoy_info (txs : list TransactionVerificationData) (hf : HardFork) (database : Tables)
    (output_cache : option OutputCache) : EResult () :=
  if bool_decide (hf = V1) then Ok ()
  else
    infos ← batch_get_decoy_info txs hf database output_cache;
    try_for_each (fun decoy_info : result ConsensusError DecoyInfo =>
      map_err ConsErr (di ← decoy_info; map_err TransactionErr (check_decoy_info di hf))) infos.

Definition tx_filter (needed : VerificationNeeded) : bool :=
  match needed with Contextual | SemanticAndContextual => true | V1DecoyCheck | NoneNeeded => false end.

(** The transactions that need a contextual check. *)
Definition filtered (txs : list TransactionVerificationData) (needed : list VerificationNeeded)
    : list (TransactionVerificationData * VerificationNeeded) := filter (fun p => tx_filter p.2 = true) (zip txs needed).

(** [check_transaction_semantic] of one transaction, with the check of its fee. *)
Definition semantic (rng : TransactionVerificationData -> Rng) (hf : HardFork) (verifier : InternalBatchVerifier)
    (tx : TransactionVerificationData) : result ConsensusError InternalBatchVerifier :=
  let '(r, verifier) :=
    check_transaction_semantic (tvd_tx tx) (len (tvd_tx_blob tx)) (tvd_tx_weight tx) (tvd_tx_hash tx) hf (rng tx) verifier in
  fee ← map_err TransactionErr r;
  _ ← rassert (fee =? tvd_fee tx);
  Ok verifier.

(** [SemanticVerification::queue] *)
Definition queue (rng : TransactionVerificationData -> Rng) (hf : HardFork) (verifier : InternalBatchVerifier)
    (txs : list TransactionVerificationData)
    : result ConsensusError (list TransactionVerificationData * InternalBatchVerifier) :=
  verifier ← try_fold (semantic rng hf) verifier txs;
  Ok (map (with_state (OnlySemantic hf)) txs, verifier).

(** The cached state of a transaction that was verified with these ring members. *)
Definition new_state (top_hash : bytes) (hf : HardFork) (ring : TxRingMembersInfo) : CachedVerificationState :=
  match time_locked_outs ring with
  | [] => ValidAtHashAndHF top_hash hf
  | locks =>
      match omap (fun lock => match lock with TL_Time time => Some time | TL_None | TL_Block _ => None end) locks with
      | [] => ValidAtHashAndHF top_hash hf
      | time :: times => ValidAtHashAndHFWithTimeBasedLock top_hash hf (TL_Time (foldl Z.min time times))
      end
  end.

(** The states of the transactions that were checked, in order. *)
Fixpoint set_states (top_hash : bytes) (hf : HardFork) (txs : list TransactionVerificationData)
    (needed : list VerificationNeeded) (rings : list TxRingMembersInfo) : list TransactionVerificationData :=
  match txs, needed with
  | tx :: txs', n :: needed =>
      if tx_filter n then
        match rings with
        | ring :: rings => with_state (new_state top_hash hf ring) tx :: set_states top_hash hf txs' needed rings
        | [] => txs
        end
      else tx :: set_states top_hash hf txs' needed rings
  | _, _ => txs
  end.

Definition verify_transactions (rng : TransactionVerificationData -> Rng) (txs : list TransactionVerificationData)
    (needed : list VerificationNeeded) (current_chain_height : Z) (top_hash : bytes) (current_time_lock_timestamp : Z)
    (hf : HardFork) (database : Tables) (output_cache : option OutputCache) : EResult (list TransactionVerificationData) :=
  txs_ring_member_info ← batch_get_ring_member_info (filtered txs needed).*1 hf database output_cache;
  verifier ← map_err ConsErr
    (try_fold (fun verifier '((tx, n), ring) =>
       verifier ← (if bool_decide (n = SemanticAndContextual) then semantic rng hf verifier tx else Ok verifier);
       _ ← map_err TransactionErr
             (check_transaction_contextual (tvd_tx tx) ring current_chain_height current_time_lock_timestamp hf);
       Ok verifier) batch_new (zip (filtered txs needed) txs_ring_member_info));
  if negb (batch_valid verifier) then Err OneOrMoreBatchVerificationStatementsInvalid
  else Ok (set_states top_hash hf txs needed txs_ring_member_info).

Record BatchPrepareCache := mk_prepare_cache { output_cache : OutputCache; key_images_spent_checked : bool }.

(** [FullVerification::verify] *)
Definition verify (rng : TransactionVerificationData -> Rng) (prepped_txs : list TransactionVerificationData)
    (current_chain_height : Z) (top_hash : bytes) (time_for_time_lock : Z) (hf : HardFork) (database : Tables)
    (batch_prep_cache : option BatchPrepareCache) : EResult (list TransactionVerificationData) :=
  _ ← (if match batch_prep_cache with None => true | Some c => negb (key_images_spent_checked c) end
       then check_kis_unique prepped_txs database else Ok () : EResult ());
  hashes_in_main_chain ← hashes_referenced_in_main_chain prepped_txs database;
  '((needed, any_v1_decoy_check_needed) : list VerificationNeeded * bool) ←
    map_err ConsErr (verification_needed prepped_txs hashes_in_main_chain hf current_chain_height time_for_time_lock);
  _ ← (if any_v1_decoy_check_needed then
         verify_transactions_decoy_info
           (filter (fun p : TransactionVerificationData * VerificationNeeded => p.2 = V1DecoyCheck) (zip prepped_txs needed)).*1
           hf database (output_cache <$> batch_prep_cache)
       else Ok () : EResult ());
  verify_transactions rng prepped_txs needed current_chain_height top_hash time_for_time_lock hf database
    (output_cache <$> batch_prep_cache).

End verify.
End TxVerification.
