(* ===== verification/TxVerifyFacts.v ===== *)
(** * What transaction verification shows

    [TxVerification.verify] on tables that hold a chain: which rules a verified
    transaction satisfies, when its cached state is still good, and that the output cache
    of a batch of blocks answers as the database would. *)
From S2P Require Import Prelude Bytes HardForks ChainDb TxData RulesBase TxRules TxContext BlockRules Helpers DbTables TxOps TxStore AltBlocks BlockOps ChainStore BlockchainService ChainReads OutputIndex TxVerification.
From Stdlib Require Import ZArith Lia String.
From stdpp Require Import base tactics option list numbers sets gmap.
Import HardForks ChainDb TxData RulesBase TxRules TxContext Helpers DbTables TxOps TxStore AltBlocks BlockOps ChainStore BlockchainService ChainReads OutputIndex TxVerification.

#[local] Open Scope Z_scope.
#[local] Open Scope usize_scope.

Module TxVerifyFacts.

Section facts.
Context {O : MoneroOxide} {T : TransactionOps O} {C : Dalek O} {Cd : MoneroCodec O} {B : MoneroBatch O}.

(** ** The database as the source of ring members *)
Definition db_output (t : Tables) (a i : Z) : option OutputOnChain :=
  match id_to_output_on_chain (mk_output_id a i) false t with Ok o => Some o | _ => None end.

Definition db_number (t : Tables) (a : Z) : Z := match number_with_amount t a with Ok n => n | _ => 0 end.

Lemma assoc_cons {A} k k' (v : A) l : assoc k ((k', v) :: l) = if k' =? k then Some v else assoc k l.
Proof using Type. unfold assoc. rewrite filter_cons. cbn [fst]. destruct (Z.eqb_spec k' k); [by rewrite decide_True|by rewrite decide_False]. Qed.

Lemma assoc_None {A} k (l : list (Z * A)) : k ∉ l.*1 -> assoc k l = None.
Proof using Type.
  induction l as [|[k' v] l IH]; intros Hk; [done|]. rewrite assoc_cons. cbn in Hk. rewrite not_elem_of_cons in Hk.
  destruct Hk as [Hne Hk]. destruct (Z.eqb_spec k' k) as [->|]; [done|auto].
Qed.

Lemma partition_outputs_spec t g a js found wanted :
  partition_outputs t g a js = Ok (found, wanted) ->
  (forall i, i ∈ js -> assoc i found = match id_to_output_on_chain (mk_output_id a i) g t with Ok o => Some o | _ => None end) /\
  (forall i, i ∉ js -> assoc i found = None).
Proof using Type.
  revert found wanted. induction js as [|j js IH]; intros found wanted H; cbn [partition_outputs] in H.
  { injection H as <- <-. split; [intros i Hi; by apply not_elem_of_nil in Hi|done]. }
  destruct (id_to_output_on_chain (mk_output_id a j) g t) as [o|e|] eqn:E; [|destruct e; try done|done]; cbn [mbind result_bind] in H;
    destruct (partition_outputs t g a js) as [[f w]|?|]; try done; cbn [mbind result_bind] in H; injection H as <- <-;
    destruct (IH _ _ eq_refl) as [H1 H2]; (split; [intros i Hi|intros i Hi; rewrite not_elem_of_cons in Hi; destruct Hi as [Hne Hi]]).
  - rewrite assoc_cons. destruct (Z.eqb_spec j i) as [->|Hne]; [by rewrite E|]. apply H1. apply elem_of_cons in Hi as [->|]; done.
  - rewrite assoc_cons. destruct (Z.eqb_spec j i) as [->|_]; [done|auto].
  - destruct (decide (i ∈ js)) as [Hin|Hn]; [by apply H1|]. apply elem_of_cons in Hi as [->|]; [|done]. rewrite E. by apply H2.
  - auto.
Qed.

Lemma collect_Ok_inv {E A B'} (f : A -> result E B') l bs : collect f l = Ok bs -> Forall2 (fun a b => f a = Ok b) l bs.
Proof using Type.
  revert bs. induction l as [|a l IH]; intros bs H; cbn [collect] in H; [by injection H as <-|].
  destruct (f a) as [b|?|] eqn:Ef; try done; cbn [mbind result_bind] in H. destruct (collect f l) as [bs'|?|]; try done.
  cbn [mbind result_bind] in H. injection H as <-. constructor; auto.
Qed.

Lemma numbers_with_amounts_spec t as_ m :
  numbers_with_amounts t as_ = Ok m ->
  forall a, m !! a = if decide (a ∈ as_) then Some (db_number t a) else None.
Proof using Type.
  unfold numbers_with_amounts. intros H. destruct (collect _ as_) as [ns|?|] eqn:E; try done. cbn [mbind result_bind] in H.
  injection H as <-. apply collect_Ok_inv in E.
  assert (forall (m0 : gmap Z Z) a, foldl (fun m '(a, n) => <[a := n]> m) m0 ns !! a = if decide (a ∈ as_) then Some (db_number t a) else m0 !! a) as Hf.
  { induction E as [|x [x' n] as' ns' Hx _ IH]; intros m0 a; cbn [foldl]; [by rewrite decide_False by (apply not_elem_of_nil)|].
    rewrite IH. unfold db_number at 2. destruct (number_with_amount t x) as [k|?|] eqn:Ek; try done. cbn [mbind result_bind] in Hx.
    injection Hx as <- <-. destruct (decide (a ∈ as')) as [Hin|Hn].
    - rewrite decide_True by (by right). done.
    - destruct (decide (a = x)) as [->|Hne].
      + rewrite lookup_insert_eq, decide_True by (by left). unfold db_number. by rewrite Ek.
      + rewrite lookup_insert_ne by done. rewrite decide_False by (rewrite not_elem_of_cons; done). done. }
  intros a. by rewrite Hf.
Qed.
(** The cache the database sends answers for the ids asked as the database would. *)
Lemma query_outputs_spec t ids cache :
  query_outputs t ids = Ok cache ->
  (forall a s i, ids !! a = Some s -> i ∈ s -> get_output_of cache a i = db_output t a i) /\
  (forall a, is_Some (ids !! a) -> number_outs_with_amount cache a = db_number t a).
Proof using Type.
  unfold query_outputs, query. cbn [map_request]. unfold outputs_request. set (outs := map _ (map_to_list ids)).
  assert (forall a s, ids !! a = Some s <-> (a, elements s) ∈ outs) as Hin.
  { intros a s. unfold outs. rewrite list_elem_of_fmap. split.
    - intros H. exists (a, s). split; [done|]. by apply elem_of_map_to_list.
    - intros ([a' s'] & Heq & H). cbn in Heq. injection Heq as -> He. apply elem_of_map_to_list in H. rewrite H. f_equal.
      apply set_eq. intros x. by rewrite <- (elem_of_elements s), <- (elem_of_elements s'), He. }
  assert (NoDup outs.*1) as Hnd.
  { unfold outs. rewrite <- list_fmap_compose. apply NoDup_fst_map_to_list. }
  clearbody outs. destruct (numbers_with_amounts t outs.*1) as [m|?|] eqn:En; try done. cbn [mbind result_bind].
  destruct (collect _ outs) as [parts|?|] eqn:Ec; try done. cbn [mbind result_bind map_err unwrap]. intros [= <-].
  pose proof (numbers_with_amounts_spec _ _ _ En) as Hm. apply collect_Ok_inv in Ec. split.
  - intros a s i Ha Hi. apply Hin in Ha. unfold get_output_of. cbn [cached_outputs]. apply elem_of_elements in Hi.
    clear -Ec Hnd Ha Hi. induction Ec as [|[a' js] [p1 p2] outs' parts' Hx _ IH]; [by apply not_elem_of_nil in Ha|].
    destruct (partition_outputs t false a' js) as [[f w]|?|] eqn:Ep; try done. cbn [mbind result_bind] in Hx. injection Hx as <- <-.
    cbn [fmap list_fmap fst]. rewrite assoc_cons. cbn in Hnd. apply NoDup_cons in Hnd as [Hn Hnd].
    apply elem_of_cons in Ha as [Heq|Ha].
    + injection Heq as <- <-. rewrite Z.eqb_refl. cbn [mbind option_bind]. by apply (proj1 (partition_outputs_spec _ _ _ _ _ _ Ep)).
    + rewrite (proj2 (Z.eqb_neq _ _)); [by apply IH|]. intros ->. apply Hn. apply list_elem_of_fmap. by exists (a, elements s).
  - intros a [s Ha]. unfold number_outs_with_amount. cbn [number_of_outputs]. rewrite Hm, decide_True; [done|].
    apply list_elem_of_fmap. exists (a, elements s). split; [done|by apply Hin].
Qed.

(** ** The ids that are asked for *)
Definition asks (ids : gmap Z (gset Z)) (inp : Input) : Prop :=
  match inp with
  | ToKey amount os _ => exists s l, ids !! default 0 amount = Some s /\ get_absolute_offsets os = Ok l /\ Forall (fun i => i ∈ s) l
  | Gen _ => False
  end.

Definition ids_le (ids ids' : gmap Z (gset Z)) : Prop := forall a s, ids !! a = Some s -> exists s', ids' !! a = Some s' /\ s ⊆ s'.

Lemma asks_mono ids ids' inp : ids_le ids ids' -> asks ids inp -> asks ids' inp.
Proof using Type.
  intros Hle. destruct inp as [|amount os ki]; [done|]. intros (s & l & Hs & Hl & Hf). destruct (Hle _ _ Hs) as (s' & Hs' & Hsub).
  exists s', l. split_and!; [done|done|]. revert Hf. apply List.Forall_impl. set_solver.
Qed.

Lemma ids_le_trans a b c : ids_le a b -> ids_le b c -> ids_le a c.
Proof using Type. intros H1 H2 k s Hs. destruct (H1 k s Hs) as (s' & Hs' & ?). destruct (H2 k s' Hs') as (s'' & ? & ?). exists s''. split; [done|set_solver]. Qed.

Lemma insert_ring_member_ids_spec ins ids ids' :
  insert_ring_member_ids ins ids = Ok ids' -> ids_le ids ids' /\ Forall (asks ids') ins.
Proof using Type.
  unfold insert_ring_member_ids. destruct ins as [|i0 ins]; [done|]. generalize (i0 :: ins). clear i0 ins. intros ins. revert ids.
  induction ins as [|inp ins IH]; intros ids H; cbn [try_fold] in H.
  { injection H as <-. split; [intros a s Hs; by exists s|constructor]. }
  destruct inp as [|amount os ki]; [done|]. destruct (get_absolute_offsets os) as [l|?|] eqn:El; try done. cbn [mbind result_bind] in H.
  destruct (IH _ H) as [Hle Hf].
  assert (ids_le ids (<[default 0 amount := default ∅ (ids !! default 0 amount) ∪ list_to_set l]> ids)) as Hle0.
  { intros a s Hs. destruct (decide (a = default 0 amount)) as [->|Hne].
    - rewrite lookup_insert_eq, Hs. eexists. split; [done|]. cbn. set_solver.
    - rewrite lookup_insert_ne by done. by exists s. }
  split; [by eapply ids_le_trans|]. constructor; [|done]. apply (asks_mono _ _ _ Hle). cbn. eexists _, l.
  rewrite lookup_insert_eq. split_and!; [done|done|]. apply Forall_forall. set_solver.
Qed.

Lemma ring_member_ids_spec txs ids :
  ring_member_ids txs = Ok ids -> Forall (fun x => Forall (asks ids) (inputs (prefix (tvd_tx x)))) txs.
Proof using Type.
  unfold ring_member_ids. intros H.
  assert (forall ids0, try_fold (fun ids x => insert_ring_member_ids (inputs (prefix (tvd_tx x))) ids) ids0 txs = Ok ids ->
    ids_le ids0 ids /\ Forall (fun x => Forall (asks ids) (inputs (prefix (tvd_tx x)))) txs) as Hg.
  { clear H. induction txs as [|x txs IH]; intros ids0 H; cbn [try_fold] in H.
    { injection H as <-. split; [intros a s Hs; by exists s|constructor]. }
    destruct (insert_ring_member_ids _ ids0) as [ids1|?|] eqn:E; try done. cbn [mbind result_bind] in H.
    destruct (insert_ring_member_ids_spec _ _ _ E) as [L1 F1]. destruct (IH _ H) as [L2 F2]. split; [by eapply ids_le_trans|].
    constructor; [|done]. revert F1. apply List.Forall_impl. intros inp. by apply asks_mono. }
  destruct (try_fold _ ∅ txs) as [ids'|?|] eqn:E; try done. injection H as ->. by apply (Hg ∅).
Qed.

(** Ring-member information depends on the outputs asked for only. *)
Definition same_reads (get get' : Z -> Z -> option OutputOnChain) (nb nb' : Z -> Z) (inp : Input) : Prop :=
  match inp with
  | ToKey amount os _ =>
      (forall l i, get_absolute_offsets os = Ok l -> i ∈ l -> get (default 0 amount) i = get' (default 0 amount) i) /\
      nb (default 0 amount) = nb' (default 0 amount)
  | Gen _ => True
  end.

Lemma same_reads_decoys get get' nb nb' hf ins :
  Forall (same_reads get get' nb nb') ins -> DecoyInfo_new ins nb hf = DecoyInfo_new ins nb' hf.
Proof using Type.
  intros Ha. unfold DecoyInfo_new. destruct (minimum_decoys hf) as [n|?|]; try done. cbn [mbind result_bind]. apply try_fold_ext_Forall.
  revert Ha. apply List.Forall_impl. intros [h|amount os ki]; [done|]. intros [_ Hn] d. destruct amount as [a|]; [|done]. cbn in Hn. by rewrite Hn.
Qed.

Lemma same_reads_info get get' nb nb' hf ins ver :
  Forall (same_reads get get' nb nb') ins ->
  ring_member_info_for_tx get nb hf ins ver = ring_member_info_for_tx get' nb' hf ins ver.
Proof using Type.
  intros Ha. unfold ring_member_info_for_tx. rewrite (same_reads_decoys get get' nb nb') by done.
  assert (get_ring_members_for_inputs get ins = get_ring_members_for_inputs get' ins) as ->; [|done].
  unfold get_ring_members_for_inputs. apply collect_ext. revert Ha. apply List.Forall_impl. intros [h|amount os ki]; [done|]. intros [Hg _].
  destruct (get_absolute_offsets os) as [l|?|] eqn:El; try done. cbn [mbind result_bind]. apply collect_ext. apply Forall_forall.
  intros i Hi. by rewrite (Hg l i eq_refl Hi).
Qed.

Lemma ring_member_info_ext get get' nb nb' hf ins ver ids :
  Forall (asks ids) ins ->
  (forall a s i, ids !! a = Some s -> i ∈ s -> get a i = get' a i) -> (forall a, is_Some (ids !! a) -> nb a = nb' a) ->
  ring_member_info_for_tx get nb hf ins ver = ring_member_info_for_tx get' nb' hf ins ver.
Proof using Type.
  intros Ha Hg Hn. apply same_reads_info. revert Ha. apply List.Forall_impl. intros [h|amount os ki]; [done|].
  intros (s & l & Hs & Hl & Hf). split; [|by apply Hn; eexists]. intros l' i Hl' Hi. rewrite Hl in Hl'. injection Hl' as <-.
  rewrite Forall_forall in Hf. by apply (Hg _ s i Hs), Hf.
Qed.

(** An output cache, where there is one, answers for these transactions as the database. *)
Definition cache_agrees (t : Tables) (txs : list TransactionVerificationData) (cache : option OutputCache) : Prop :=
  forall c, cache = Some c ->
    Forall (fun x => Forall (same_reads (get_output_of c) (db_output t) (number_outs_with_amount c) (db_number t)) (inputs (prefix (tvd_tx x)))) txs.

Lemma cache_agrees_sub t txs txs' cache : (forall x, x ∈ txs' -> x ∈ txs) -> cache_agrees t txs cache -> cache_agrees t txs' cache.
Proof using Type. intros Hs H c Hc. specialize (H c Hc). rewrite Forall_forall in H. apply Forall_forall. auto. Qed.

Definition contextual_ok (t : Tables) (h time : Z) (hf : HardFork) (x : TransactionVerificationData) (info : TxRingMembersInfo) : Prop :=
  ring_member_info_for_tx (db_output t) (db_number t) hf (inputs (prefix (tvd_tx x))) (tvd_version x) = Ok info /\
  check_transaction_contextual (tvd_tx x) info h time hf = Ok ().

Lemma batch_ring_info_spec txs hf t cache infos :
  cache_agrees t txs cache -> batch_get_ring_member_info txs hf t cache = Ok infos ->
  Forall2 (fun x info => ring_member_info_for_tx (db_output t) (db_number t) hf (inputs (prefix (tvd_tx x))) (tvd_version x) = Ok info) txs infos.
Proof using Type.
  unfold batch_get_ring_member_info. intros Hc H. destruct (ring_member_ids txs) as [ids|?|] eqn:Ei; try done. cbn [mbind result_bind] in H.
  apply ring_member_ids_spec in Ei.
  destruct (match cache with Some c => Ok c | None => query_outputs t ids end) as [c|?|] eqn:Eq; try done. cbn [mbind result_bind] in H.
  assert (Forall (fun x => Forall (same_reads (get_output_of c) (db_output t) (number_outs_with_amount c) (db_number t)) (inputs (prefix (tvd_tx x)))) txs) as Hs.
  { destruct cache as [c0|]; [injection Eq as ->; by apply Hc|]. apply query_outputs_spec in Eq as [Hg Hn]. revert Ei. apply List.Forall_impl.
    intros x. apply List.Forall_impl. intros [h|amount os ki]; [done|]. intros (s & l & Hs & Hl & Hf). split; [|by apply Hn; eexists].
    intros l' i Hl' Hi. rewrite Hl in Hl'. injection Hl' as <-. rewrite Forall_forall in Hf. by apply (Hg _ s i Hs), Hf. }
  clear Hc Ei Eq. apply collect_Ok_inv in H.
  induction H as [|x info txs' infos' Hx _ IH]; [constructor|]. apply List.Forall_cons_iff in Hs as [Hi Hs]. constructor; [|by apply IH].
  rewrite (same_reads_info _ (db_output t) _ (db_number t)) in Hx by done.
  by destruct (ring_member_info_for_tx _ _ _ _ _); [injection Hx as ->| |].
Qed.

(** ** Key images *)
Definition kis (x : TransactionVerificationData) : list bytes := kis_of (tvd_tx x).

Lemma collect_inputs_kis (s : gset bytes) ins s' :
  try_fold (fun (spent_kis : gset bytes) input =>
    match input with
    | ToKey _ _ key_image =>
        if bool_decide (to_bytes key_image ∈ spent_kis) then Err (TransactionErr KeyImageSpent)
        else Ok ({[to_bytes key_image]} ∪ spent_kis)
    | Gen _ => Ok spent_kis
    end) s ins = Ok s' ->
  let ks := omap (fun inp => match inp with ToKey _ _ key_image => Some (to_bytes key_image) | Gen _ => None end) ins in
  NoDup ks /\ (forall k, k ∈ ks -> k ∉ s) /\ s' = s ∪ list_to_set ks.
Proof using Type.
  revert s. induction ins as [|[h|a os ki] ins IH]; intros s H; cbn [try_fold] in H.
  - injection H as <-. split_and!; [constructor|intros k Hk; by apply not_elem_of_nil in Hk|set_solver].
  - by apply IH.
  - case_bool_decide as Hk; [done|]. cbn [mbind result_bind] in H. destruct (IH _ H) as (H1 & H2 & ->). cbn [omap list_omap].
    change (omap _ (_ :: ins)) with (to_bytes ki :: omap (fun inp : Input => match inp with ToKey _ _ key_image => Some (to_bytes key_image) | Gen _ => None end) ins).
    split_and!.
    + constructor; [|done]. intros Hin. specialize (H2 _ Hin). set_solver.
    + intros k Hin. apply elem_of_cons in Hin as [->|Hin]; [done|]. specialize (H2 _ Hin). set_solver.
    + set_solver.
Qed.

Lemma collect_kis_spec txs s s' :
  collect_kis s txs = Ok s' -> NoDup (txs ≫= kis) /\ (forall k, k ∈ txs ≫= kis -> k ∉ s) /\ s' = s ∪ list_to_set (txs ≫= kis).
Proof using Type.
  revert s. induction txs as [|x txs IH]; intros s H; unfold collect_kis in H; cbn [try_fold] in H.
  { injection H as <-. split_and!; [constructor|intros k Hk; by apply not_elem_of_nil in Hk|set_solver]. }
  destruct (try_fold _ s (inputs _)) as [s1|?|] eqn:E; try done. cbn [mbind result_bind] in H. apply collect_inputs_kis in E as (N1 & D1 & ->).
  change (omap _ (inputs (prefix (tvd_tx x)))) with (kis x) in *. destruct (IH _ H) as (N2 & D2 & ->). rewrite bind_cons. split_and!.
  - apply NoDup_app. split_and!; [done| |done]. intros k Hk Hin. specialize (D2 _ Hin). set_solver.
  - intros k Hk. apply elem_of_app in Hk as [Hk|Hk]; [by apply D1|]. specialize (D2 _ Hk). set_solver.
  - rewrite list_to_set_app_L. set_solver.
Qed.

Lemma check_kis_unique_spec chain t txs :
  stores chain t -> check_kis_unique txs t = Ok () ->
  NoDup (txs ≫= kis) /\ forall k, k ∈ txs ≫= kis -> k ∉ all_kis (chain_txs chain).
Proof using Type.
  intros Hst. unfold check_kis_unique. destruct (collect_kis ∅ txs) as [s|?|] eqn:E; try done. cbn [map_err mbind result_bind].
  apply collect_kis_spec in E as (Hn & _ & ->). split; [done|]. unfold query in *. cbn [map_request] in *.
  rewrite (key_images_spent_spec chain t _ Hst) in *. cbn [map_err mbind result_bind unwrap] in *. case_bool_decide as Hs; [done|].
  intros k Hk Hin. apply Hs. exists k. split; [set_solver|done].
Qed.

(** ** Cached states *)
Definition chain_hashes (chain : list VerifiedBlockInformation) : gset bytes := list_to_set (map vb_block_hash chain).

Lemma block_exists_spec chain t h : stores chain t -> block_exists h t = Ok (bool_decide (h ∈ chain_hashes chain)).
Proof using Type.
  intros Hst. unfold block_exists, db_contains, db_get. unfold chain_hashes. destruct (block_heights t !! h) as [i|] eqn:E; cbn [ok_or].
  - f_equal. symmetry. apply bool_decide_eq_true_2. apply (st_heights _ _ Hst) in E as (b & Hb & <-). apply elem_of_list_to_set, list_elem_of_fmap_2.
    unfold lookZ in Hb. destruct (i <? 0); [done|]. by eapply list_elem_of_lookup_2.
  - f_equal. symmetry. apply bool_decide_eq_false_2. intros Hin. apply elem_of_list_to_set, list_elem_of_fmap in Hin as (b & -> & Hb).
    apply list_elem_of_lookup_1 in Hb as [k Hk]. assert (block_heights t !! vb_block_hash b = Some (Z.of_nat k)); [|congruence].
    apply (st_heights _ _ Hst). exists b. by rewrite lookZ_nat.
Qed.

Lemma needed_for_ext known known' hf h time x :
  (forall b, verified_at_block_hash (cached_verification_state x) = Some b -> b ∈ known <-> b ∈ known') ->
  needed_for known hf h time x = needed_for known' hf h time x.
Proof using Type.
  intros H. unfold needed_for. destruct (cached_verification_state x) as [|hf0|b hf0|b hf0 tl]; cbn in H; try done;
    by rewrite (bool_decide_ext _ _ (H b eq_refl)).
Qed.

Lemma hashes_referenced_spec chain t txs known hf h time :
  stores chain t -> hashes_referenced_in_main_chain txs t = Ok known ->
  Forall (fun x => needed_for known hf h time x = needed_for (chain_hashes chain) hf h time x) txs.
Proof using Type.
  intros Hst H. apply Forall_forall. intros x Hx. apply needed_for_ext. intros b Hb.
  assert (b ∈ (list_to_set (omap (fun x => verified_at_block_hash (cached_verification_state x)) txs) : gset bytes)) as Hr.
  { apply elem_of_list_to_set, list_elem_of_omap. by exists x. }
  unfold hashes_referenced_in_main_chain in H. case_bool_decide as He; [rewrite He in Hr; set_solver|]. unfold query in H. cbn in H.
  injection H as <-. rewrite elem_of_filter, (block_exists_spec chain t b Hst). split; [|intros Hin; split; [|done]; by rewrite bool_decide_eq_true_2].
  intros [Hin _]. case_bool_decide; done.
Qed.
(** ** The decoy check of version 1 transactions *)
Definition decoys_ok (t : Tables) (hf : HardFork) (x : TransactionVerificationData) : Prop :=
  hf = V1 \/ exists d, DecoyInfo_new (inputs (prefix (tvd_tx x))) (db_number t) hf = Ok d /\ check_decoy_info d hf = Ok ().

Lemma DecoyInfo_ext ins f g hf :
  Forall (fun inp => match inp with ToKey (Some a) _ _ => f a = g a | _ => True end) ins -> DecoyInfo_new ins f hf = DecoyInfo_new ins g hf.
Proof using Type.
  intros H. unfold DecoyInfo_new. destruct (minimum_decoys hf) as [m|?|]; try done. cbn [mbind result_bind]. apply try_fold_ext_Forall.
  revert H. apply List.Forall_impl. intros [h|[a|] os ki] Hx d; [done| |done]. by rewrite Hx.
Qed.

Lemma list_to_map_lookup_amounts (f : Z -> Z) (l : list Z) a : a ∈ l -> NoDup l -> (list_to_map (map (fun x => (x, f x)) l) : gmap Z Z) !! a = Some (f a).
Proof using Type.
  intros Hin Hn. apply elem_of_list_to_map_1; [by rewrite map_map, map_id|]. apply list_elem_of_fmap. by exists a.
Qed.

Lemma decoy_check_spec txs hf t cache :
  cache_agrees t txs cache -> verify_transactions_decoy_info txs hf t cache = Ok () -> Forall (decoys_ok t hf) txs.
Proof using Type.
  intros Hc. unfold verify_transactions_decoy_info. case_bool_decide as Hv1; [intros _; apply Forall_forall; intros x _; by left|].
  unfold batch_get_decoy_info. rewrite bool_decide_eq_false_2 by done. cbn [negb rassert mbind result_bind].
  set (amts := list_to_set _ : gset Z).
  match goal with |- (?o ≫= _) ≫= _ = _ -> _ => destruct o as [m|?|] eqn:En; try done end. cbn [mbind result_bind].
  intros H. apply try_for_each_Ok in H. rewrite Forall_map in H. apply Forall_forall. intros x Hx. rewrite Forall_forall in H. specialize (H x Hx).
  cbn in H. rewrite (DecoyInfo_ext _ _ (db_number t)) in H.
  - destruct (DecoyInfo_new _ _ _) as [d|?|] eqn:Ed; try done. cbn in H. destruct (check_decoy_info d hf) as [[]|?|] eqn:Ek; try done.
    right. by exists d.
  - apply Forall_forall. intros [h|[a|] os ki] Hin; [done| |done].
    assert (a ∈ elements amts) as Hamt.
    { apply elem_of_elements. apply elem_of_list_to_set, list_elem_of_bind. exists x. split; [|done]. apply list_elem_of_fmap. by exists (ToKey (Some a) os ki). }
    destruct cache as [c|].
    + injection En as <-. rewrite list_to_map_lookup_amounts by (done || apply NoDup_elements). cbn [default]. specialize (Hc c eq_refl). rewrite Forall_forall in Hc.
      pose proof (Hc x Hx) as Hc'. rewrite Forall_forall in Hc'. by destruct (Hc' _ Hin) as [_ Hn].
    + unfold query in En. cbn [map_request] in En. unfold number_outputs_with_amount in En.
      destruct (numbers_with_amounts t (elements amts)) as [m'|?|] eqn:En'; try done. cbn in En. injection En as <-.
      by rewrite (numbers_with_amounts_spec _ _ _ En'), decide_True.
Qed.

(** ** The verified transactions *)
Definition semantic_ok (rng : TransactionVerificationData -> Rng) (hf : HardFork) (x : TransactionVerificationData) : Prop :=
  exists v v', semantic rng hf v x = Ok v'.

(** The batch verifier once the proofs of a transaction that are checked in batches are in
    it. *)
Definition queue_proofs (rng : TransactionVerificationData -> Rng) (v : InternalBatchVerifier) (x : TransactionVerificationData) : InternalBatchVerifier :=
  match tvd_tx x with
  | Tx_V2 _ (Some proofs) =>
      match prunable proofs with
      | P_MlsagBulletproofs _ _ bp | P_MlsagBulletproofsCompactAmount _ _ bp | P_Clsag _ _ bp =>
          (batch_verify bp (rng x) v (commitments (base proofs))).2
      | P_MlsagBorromean _ _ | P_AggregateMlsagBorromean _ _ => v
      end
  | _ => v
  end.

Lemma semantic_queues rng hf v x v' : semantic rng hf v x = Ok v' -> v' = queue_proofs rng v x.
Proof using Type.
  unfold semantic, queue_proofs. destruct (check_transaction_semantic _ _ _ _ _ _ _) as [r v2] eqn:E. intros H.
  apply bind_Ok in H as (f & Hr & H). apply bind_Ok in H as ([] & _ & [= <-]). apply map_err_Ok in Hr as ->.
  unfold check_transaction_semantic in E. destruct (_ ≫= _) as [[so si]|?|]; try done.
  destruct (tvd_tx x) as [p sg|p [proofs|]]; [by destruct (si <=? so); [|injection E as _ <-]| |done].
  unfold ring_ct_semantic_checks in E. destruct (check_rct_type _ _ _) as [[]|?|]; try done. unfold check_output_range_proofs in E.
  destruct (prunable proofs); try (destruct (batch_verify _ _ _ _) as [ok v3]); by injection E as _ <-.
Qed.

(** What a transaction with this need has passed, and its new state. *)
Definition passed (rng : TransactionVerificationData -> Rng) (t : Tables) (h : Z) (top : bytes) (time : Z) (hf : HardFork)
    (n : VerificationNeeded) (x x' : TransactionVerificationData) : Prop :=
  match n with
  | SemanticAndContextual =>
      semantic_ok rng hf x /\ exists info, contextual_ok t h time hf x info /\ x' = with_state (new_state top hf info) x
  | Contextual => exists info, contextual_ok t h time hf x info /\ x' = with_state (new_state top hf info) x
  | V1DecoyCheck | NoneNeeded => x' = x
  end.

Lemma check_loop_spec rng t h time hf v v' ps infos :
  Forall2 (fun (p : TransactionVerificationData * VerificationNeeded) info =>
    ring_member_info_for_tx (db_output t) (db_number t) hf (inputs (prefix (tvd_tx p.1))) (tvd_version p.1) = Ok info) ps infos ->
  try_fold (fun verifier '((tx, n), ring) =>
     verifier ← (if bool_decide (n = SemanticAndContextual) then semantic rng hf verifier tx else Ok verifier);
     _ ← map_err TransactionErr (check_transaction_contextual (tvd_tx tx) ring h time hf);
     Ok verifier) v (zip ps infos) = Ok v' ->
  Forall2 (fun (p : TransactionVerificationData * VerificationNeeded) info =>
    (p.2 = SemanticAndContextual -> semantic_ok rng hf p.1) /\ contextual_ok t h time hf p.1 info) ps infos /\
  v' = foldl (queue_proofs rng) v (filter (fun p => p.2 = SemanticAndContextual) ps).*1.
Proof using Type.
  intros H. revert v. induction H as [|[x n] info ps infos Hi _ IH]; intros v Hl; [injection Hl as <-; by split; [constructor|]|]. cbn [zip zip_with try_fold] in Hl.
  destruct (if bool_decide (n = SemanticAndContextual) then _ else _) as [v1|?|] eqn:Es; try done. cbn [mbind result_bind] in Hl.
  destruct (check_transaction_contextual (tvd_tx x) info h time hf) as [[]|?|] eqn:Ec; try done. cbn [map_err mbind result_bind] in Hl.
  destruct (IH _ Hl) as [Hf ->]. split.
  - constructor; [|done]. split; [|done]. cbn. intros ->. rewrite bool_decide_eq_true_2 in Es by done. by exists v, v1.
  - rewrite filter_cons. cbn [snd]. case_bool_decide as Hn; [rewrite decide_True by done; by rewrite (semantic_queues _ _ _ _ _ Es)|].
    rewrite decide_False by done. by injection Es as ->.
Qed.

Lemma set_states_spec rng t h top time hf txs needed infos :
  length needed = length txs ->
  Forall2 (fun (p : TransactionVerificationData * VerificationNeeded) info =>
    (p.2 = SemanticAndContextual -> semantic_ok rng hf p.1) /\ contextual_ok t h time hf p.1 info) (filtered txs needed) infos ->
  Forall2 (fun p x' => passed rng t h top time hf p.2 p.1 x') (zip txs needed) (set_states top hf txs needed infos).
Proof using Type.
  revert needed infos. induction txs as [|x txs IH]; intros [|n needed] infos Hl; [intros _; constructor|done|done|].
  unfold filtered. cbn [zip zip_with]. rewrite filter_cons. cbn [snd set_states]. intros H.
  destruct (tx_filter n) eqn:En.
  - rewrite decide_True in H by done. inversion H as [|? info ? infos' [Hs Hc] Hr]; subst. cbn in Hs, Hc. constructor; [|apply IH; [cbn in Hl; lia|done]].
    cbn. destruct n; try done; cbn.
    + split; [by apply Hs|by exists info].
    + by exists info.
  - rewrite decide_False in H by done. constructor; [by destruct n|]. apply IH; [cbn in Hl; lia|done].
Qed.

Lemma filtered_semantic txs needed :
  filter (fun p : TransactionVerificationData * VerificationNeeded => p.2 = SemanticAndContextual) (filtered txs needed)
  = filter (fun p => p.2 = SemanticAndContextual) (zip txs needed).
Proof using Type.
  unfold filtered. generalize (zip txs needed). intros l. induction l as [|[x n] l IH]; [done|]. rewrite (filter_cons (fun p => tx_filter p.2 = true)). cbn [snd].
  destruct n; cbn [tx_filter]; rewrite ?(decide_True (P := true = true)), ?(decide_False (P := false = true)) by done;
    rewrite !filter_cons; cbn [snd]; rewrite IH; done.
Qed.

Lemma verify_transactions_spec rng txs needed h top time hf t cache txs' :
  length needed = length txs -> cache_agrees t txs cache -> verify_transactions rng txs needed h top time hf t cache = Ok txs' ->
  Forall2 (fun p x' => passed rng t h top time hf p.2 p.1 x') (zip txs needed) txs' /\
  batch_valid (foldl (queue_proofs rng) batch_new (filter (fun p => p.2 = SemanticAndContextual) (zip txs needed)).*1) = true.
Proof using Type.
  intros Hl Hc. unfold verify_transactions. destruct (batch_get_ring_member_info _ hf t cache) as [infos|?|] eqn:Eb; try done. cbn [mbind result_bind].
  apply batch_ring_info_spec in Eb.
  2:{ eapply cache_agrees_sub; [|exact Hc]. intros x Hx. apply list_elem_of_fmap in Hx as ([x' n] & -> & Hx). apply list_elem_of_filter in Hx as [_ Hx].
    by apply elem_of_zip_l in Hx. }
  rewrite Forall2_fmap_l in Eb.
  destruct (try_fold _ batch_new _) as [v|?|] eqn:Ef; try done. cbn [map_err mbind result_bind]. destruct (batch_valid v) eqn:Ev; [|done]. intros [= <-].
  eapply check_loop_spec in Ef as [Hf ->]; [|done]. rewrite filtered_semantic in Ev. split; [|done]. by apply set_states_spec.
Qed.

(** The key images were not checked before. *)
Definition kis_open (cache : option BatchPrepareCache) : Prop := match cache with Some c => key_images_spent_checked c = false | None => True end.

Lemma full_verification_gen rng chain t txs h top time hf cache txs' :
  stores chain t -> cache_agrees t txs (output_cache <$> cache) -> verify rng txs h top time hf t cache = Ok txs' ->
  (kis_open cache -> NoDup (txs ≫= kis) /\ (forall k, k ∈ txs ≫= kis -> k ∉ all_kis (chain_txs chain))) /\
  exists needed, Forall2 (fun x n => needed_for (chain_hashes chain) hf h time x = Ok n) txs needed /\
  Forall2 (fun p x' => passed rng t h top time hf p.2 p.1 x' /\ (p.2 = V1DecoyCheck -> decoys_ok t hf p.1)) (zip txs needed) txs' /\
  batch_valid (foldl (queue_proofs rng) batch_new (filter (fun p => p.2 = SemanticAndContextual) (zip txs needed)).*1) = true.
Proof using Type.
  intros Hst Hc. unfold verify.
  match goal with |- (?k ≫= _) = _ -> _ => destruct k as [[]|?|] eqn:Ek; try done end. cbn [mbind result_bind].
  destruct (hashes_referenced_in_main_chain txs t) as [known|?|] eqn:Eh; try done. cbn [mbind result_bind].
  unfold verification_needed. destruct (collect (needed_for known hf h time) txs) as [needed|?|] eqn:En; try done. cbn [map_err mbind result_bind].
  pose proof (hashes_referenced_spec chain t txs known hf h time Hst Eh) as Hext. apply collect_Ok_inv in En.
  pose proof (Forall2_length _ _ _ En) as Hl. intros H. split.
  { intros Ho. apply (check_kis_unique_spec chain t); [done|]. unfold kis_open in Ho. destruct cache as [c|]; [by rewrite Ho in Ek|done]. }
  destruct (if existsb _ needed then _ else _) as [[]|?|] eqn:Ed in H; try done. cbn [mbind result_bind] in H.
  apply verify_transactions_spec in H as [Hp Hv]; [|done..]. exists needed. split_and!; [| |done].
  - clear -En Hext. induction En as [|x n txs needed Hx _ IH]; [constructor|]. apply List.Forall_cons_iff in Hext as [He Hext]. constructor; [congruence|by apply IH].
  - assert (forall p, p ∈ zip txs needed -> p.2 = V1DecoyCheck -> decoys_ok t hf p.1) as Hd.
    { intros [x n] Hin Hn. cbn in Hn. subst n. rewrite (proj2 (existsb_exists _ _)) in Ed.
      - apply decoy_check_spec in Ed.
        + rewrite Forall_forall in Ed. apply Ed. apply list_elem_of_fmap. exists (x, V1DecoyCheck). split; [done|]. by apply list_elem_of_filter.
        + eapply cache_agrees_sub; [|exact Hc]. intros y Hy. apply list_elem_of_fmap in Hy as ([y' n] & -> & Hy).
          apply list_elem_of_filter in Hy as [_ Hy]. by apply elem_of_zip_l in Hy.
      - exists V1DecoyCheck. split; [|by apply bool_decide_eq_true_2]. apply list_elem_of_In. by eapply elem_of_zip_r. }
    clear -Hp Hd. induction Hp as [|p x' l txs' Hx _ IH]; [constructor|]. constructor; [split; [done|apply Hd; by left]|].
    apply IH. intros q Hq. apply Hd. by right.
Qed.

Lemma full_verification_spec rng chain t txs h top time hf txs' :
  stores chain t -> verify rng txs h top time hf t None = Ok txs' ->
  NoDup (txs ≫= kis) /\ (forall k, k ∈ txs ≫= kis -> k ∉ all_kis (chain_txs chain)) /\
  Forall2 (fun x x' => exists n, needed_for (chain_hashes chain) hf h time x = Ok n /\ passed rng t h top time hf n x x' /\
    (n = V1DecoyCheck -> decoys_ok t hf x)) txs txs'.
Proof using Type.
  intros Hst H. destruct (full_verification_gen rng chain t txs h top time hf None txs' Hst ltac:(by intros c) H) as (Hk & needed & Hn & Hp & _).
  destruct (Hk I) as [K1 K2]. split_and!; [done|done|]. clear -Hn Hp. revert txs' Hp.
  induction Hn as [|x n txs needed Hx _ IH]; intros txs' Hp; inversion Hp as [|? x' ? ? [H1 H2] Hr]; subst; [constructor|].
  constructor; [by exists n|by apply IH].
Qed.

(** ** Cached states and longer chains *)
Lemma db_output_mono {L : DalekLaws O C} chain new t t' a i o :
  valid_chain (chain ++ new) -> stores chain t -> stores (chain ++ new) t' -> is_u 64 a ->
  db_output t a i = Some o -> db_output t' a i = Some o.
Proof using Type.
  intros Hv Hst Hst' Hu. unfold db_output. rewrite (output_request chain t a i (valid_chain_prefix _ _ Hv) Hst Hu).
  rewrite (output_request _ t' a i Hv Hst' Hu). destruct (out_at (chain_txs chain) a i) as [o'|] eqn:E; [|done]. intros [= ->].
  rewrite chain_txs_app. by rewrite (out_at_mono _ _ _ _ _ E).
Qed.

Lemma collect_mono {E A B'} (f g : A -> result E B') l bs :
  Forall (fun x => forall b, f x = Ok b -> g x = Ok b) l -> collect f l = Ok bs -> collect g l = Ok bs.
Proof using Type.
  intros H. revert bs. induction H as [|x l Hx _ IH]; intros bs; cbn [collect]; [done|]. destruct (f x) as [b|?|] eqn:Ef; try done. cbn [mbind result_bind].
  destruct (collect f l) as [bs'|?|]; try done. cbn [mbind result_bind]. intros [= <-]. rewrite (Hx b eq_refl), (IH _ eq_refl). done.
Qed.

Lemma ring_members_mono get get' ins ms :
  (forall a i o, is_u 64 a -> get a i = Some o -> get' a i = Some o) -> Forall (fun inp => is_u 64 (input_amount inp)) ins ->
  get_ring_members_for_inputs get ins = Ok ms -> get_ring_members_for_inputs get' ins = Ok ms.
Proof using Type.
  intros Hg Hu. apply collect_mono. revert Hu. apply List.Forall_impl. intros [h|amount os ki] Hu b; [done|].
  destruct (get_absolute_offsets os) as [l|?|]; try done. cbn [mbind result_bind]. apply collect_mono. apply Forall_forall. intros i _ o.
  destruct (get (default 0 amount) i) as [o'|] eqn:Eg; [|done]. cbn. intros [= ->]. by rewrite (Hg (default 0 amount) _ _ Hu Eg).
Qed.

(** Whether there is decoy information does not depend on the numbers of outputs. *)
Lemma DecoyInfo_total ins f g hf d : DecoyInfo_new ins f hf = Ok d -> exists d', DecoyInfo_new ins g hf = Ok d'.
Proof using Type.
  unfold DecoyInfo_new. destruct (minimum_decoys hf) as [m|?|]; try done. cbn [mbind result_bind]. generalize (mk_decoy_info 0 0 u64_MAX 0) at 1 as d1.
  generalize (mk_decoy_info 0 0 u64_MAX 0) as d2. induction ins as [|[h|amount os ki] ins IH]; intros d2 d1; cbn [try_fold]; [by eexists|done|].
  assert (forall h (k : Z * Z), exists p, (let '(m', nm) := k in
    numb_decoys ← ok_or (checked_sub (len os) 1) InputDoesNotHaveExpectedNumbDecoys;
    Ok (mk_decoy_info m' nm (Z.min (min_decoys h) numb_decoys) (Z.max (max_decoys h) numb_decoys))) = p /\
    ((exists r, p = Ok r) <-> is_Some (checked_sub (len os) 1)) /\ p <> Panic) as Hstep.
  { intros h [m' nm]. eexists. split; [done|]. destruct (checked_sub (len os) 1); cbn; split; try done.
    - split; [by eexists|eauto].
    - split; [by intros [? ?]|by intros [? ?]]. }
  intros H. set (k1 := match amount with Some a => _ | None => _ end) in H. set (k2 := match amount with Some a => _ | None => _ end).
  destruct (Hstep d1 k1) as (p1 & E1 & I1 & _). rewrite E1 in H. destruct p1 as [r1|?|]; try done. cbn [mbind result_bind] in H.
  destruct (Hstep d2 k2) as (p2 & E2 & I2 & _). rewrite E2. destruct (proj2 I2 (proj1 I1 (ex_intro _ r1 eq_refl))) as [r2 ->]. cbn [mbind result_bind].
  by eapply IH.
Qed.

(** The ring data of the same transaction on a longer chain: the same rings and locks. *)
Lemma ring_info_mono {L : DalekLaws O C} chain new t t' hf ins ver info :
  valid_chain (chain ++ new) -> stores chain t -> stores (chain ++ new) t' -> Forall (fun inp => is_u 64 (input_amount inp)) ins ->
  ring_member_info_for_tx (db_output t) (db_number t) hf ins ver = Ok info ->
  exists d, ring_member_info_for_tx (db_output t') (db_number t') hf ins ver =
    Ok (mk_ring_info (rings info) d (youngest_used_out_height info) (time_locked_outs info)).
Proof using Type.
  intros Hv Hst Hst' Hu. unfold ring_member_info_for_tx.
  destruct (get_ring_members_for_inputs (db_output t) ins) as [ms|?|] eqn:Em; try done. cbn [mbind result_bind].
  rewrite (ring_members_mono _ (db_output t') _ _ (fun a i o Ha => db_output_mono chain new t t' a i o Hv Hst Hst' Ha) Hu Em). cbn [mbind result_bind].
  assert (forall d d', new_ring_member_info ms d ver = Ok info -> new_ring_member_info ms d' ver =
    Ok (mk_ring_info (rings info) d' (youngest_used_out_height info) (time_locked_outs info))) as Hnew.
  { intros d d'. unfold new_ring_member_info. destruct (collect _ ms) as [hs|?|]; try done. cbn [mbind result_bind].
    destruct (unwrap (iter_max hs)) as [y|?|]; try done. cbn [mbind result_bind]. by intros [= <-]. }
  case_bool_decide as Hf; [cbn [mbind result_bind]; intros H; exists None; by eapply Hnew|].
  destruct (DecoyInfo_new ins (db_number t) hf) as [d|?|] eqn:Ed; try done. cbn [mbind result_bind]. intros H.
  destruct (DecoyInfo_total _ _ (db_number t') _ _ Ed) as [d' ->]. cbn [mbind result_bind]. exists (Some d'). by eapply Hnew.
Qed.

(** A lock of a ring member that time does not undo. *)
Definition still_unlocked (time : Z) (hf : HardFork) (lock : Timelock) : Prop :=
  match lock with TL_Time _ => output_unlocked lock 0 time hf = true | TL_None | TL_Block _ => True end.

Lemma time_locks_mono locks h h' time time' hf :
  h <= h' -> Forall (still_unlocked time' hf) locks ->
  check_all_time_locks locks h time hf = Ok () -> check_all_time_locks locks h' time' hf = Ok ().
Proof using Type.
  intros Hh Hs H. apply try_for_each_Ok. apply try_for_each_Ok in H. apply Forall_forall. intros l Hl.
  rewrite Forall_forall in Hs, H. specialize (Hs l Hl). specialize (H l Hl). cbn in H. destruct l as [|b|w]; cbn in *; [done| |].
  - unfold check_block_time_lock in *. destruct (Z.leb_spec b h); [|done]. by rewrite (proj2 (Z.leb_le b h')) by lia.
  - by rewrite Hs.
Qed.

(** What a cached verification is worth. A transaction that passed the contextual rules
    on a stored chain passes them again on any valid extension of that chain, at any
    greater height, with the same ring members, once three things are checked again: its
    time-based locks, the decoy rules and the version rule that depends on the number of
    decoys. Signatures, key images, block-based locks and the ten-block rule carry over. *)
Theorem cached_verification_carries_over {L : DalekLaws O C} chain new t t' h h' time time' hf x info :
  valid_chain (chain ++ new) -> stores chain t -> stores (chain ++ new) t' ->
  Forall (fun inp => is_u 64 (input_amount inp)) (inputs (prefix (tvd_tx x))) ->
  contextual_ok t h time hf x info -> h <= h' -> Forall (still_unlocked time' hf) (time_locked_outs info) ->
  exists info', ring_member_info_for_tx (db_output t') (db_number t') hf (inputs (prefix (tvd_tx x))) (tvd_version x) = Ok info' /\
    rings info' = rings info /\
    (forall v, from_raw (version (tvd_tx x)) = Some v -> check_tx_version (decoy_info info') v hf = Ok () ->
     decoys_ok t' hf x -> contextual_ok t' h' time' hf x info').
Proof using Type.
  intros Hv Hst Hst' Hu [Hi Hc] Hh Hl. destruct (ring_info_mono chain new t t' hf _ _ info Hv Hst Hst' Hu Hi) as [d Hd].
  eexists. split; [exact Hd|]. split; [done|]. intros v Ev Hver Hdec. split; [done|].
  unfold check_transaction_contextual in *. rewrite Ev in *. cbn [ok_or mbind result_bind] in *.
  apply bind_Ok in Hc as ([] & H1 & Hc). apply bind_Ok in Hc as ([] & _ & Hc). apply bind_Ok in Hc as ([] & H3 & Hc).
  unfold check_inputs_contextual in *. apply bind_Ok in H1 as ([] & H10 & H1). apply bind_Ok in H1 as ([] & _ & Hk). cbn [youngest_used_out_height decoy_info time_locked_outs rings] in *.
  assert (check_10_block_lock (youngest_used_out_height info) h' hf = Ok ()) as ->.
  { unfold check_10_block_lock in *. destruct (hf_le V12 hf); [|done]. destruct (Z.ltb_spec h (youngest_used_out_height info +! 10)); [done|].
    by rewrite (proj2 (Z.ltb_ge h' _)) by lia. }
  cbn [mbind result_bind]. assert ((match d with Some i => check_decoy_info i hf | None => rassert (bool_decide (hf = V1)) end : result TransactionError ()) = Ok ()) as ->.
  { revert Hd Hdec. unfold ring_member_info_for_tx. destruct (get_ring_members_for_inputs _ _) as [ms|?|]; try done. cbn [mbind result_bind].
    case_bool_decide as Hf.
    - cbn [mbind result_bind]. intros Hn _. apply bind_Ok in Hn as (? & _ & Hn). apply bind_Ok in Hn as (? & _ & Hn). injection Hn as _ <- _ _. done.
    - intros Hn [|(d' & Ed & Hck)]; [done|]. rewrite Ed in Hn. cbn [mbind result_bind] in Hn.
      apply bind_Ok in Hn as (? & _ & Hn). apply bind_Ok in Hn as (? & _ & Hn). injection Hn as _ <- _ _. done. }
  cbn [mbind result_bind]. rewrite Hk. cbn [mbind result_bind]. rewrite Hver. cbn [mbind result_bind].
  rewrite (time_locks_mono _ h h' time time' hf Hh Hl H3). cbn [mbind result_bind]. done.
Qed.

(** Of several time-based locks the cached state keeps the earliest time, so the check of
    the cached state can pass although a later lock no longer does: a transaction with
    locks at [a < b], verified when both had passed, is accepted without verification at a
    time between them, where the full check refuses it. *)
Theorem cached_lock_is_the_earliest top known hf h time a b x info :
  top ∈ known -> a <= time +! block_time hf < b -> time_locked_outs info = [TL_Time a; TL_Time b] ->
  tvd_version x = RingCT -> cached_verification_state x = new_state top hf info ->
  needed_for known hf h time x = Ok NoneNeeded /\
  check_all_time_locks (time_locked_outs info) h time hf = Err OneOrMoreRingMembersLocked.
Proof using Type.
  intros Hk Hab Hl Hver Hs. unfold new_state in Hs. rewrite Hl in *. cbn [omap list_omap foldl] in Hs. rewrite Z.min_l in Hs by lia. split.
  - unfold needed_for. rewrite Hs. rewrite (bool_decide_eq_true_2 (hf = hf)) by done. cbn [negb]. rewrite bool_decide_eq_true_2 by done. cbn [negb output_unlocked].
    unfold check_timestamp_time_lock. rewrite (proj2 (Z.leb_le a _)) by lia. cbn [negb]. by rewrite Hver.
  - unfold check_all_time_locks. cbn [try_for_each output_unlocked]. unfold check_timestamp_time_lock. rewrite (proj2 (Z.leb_le a _)) by lia.
    cbn. by rewrite (proj2 (Z.leb_gt b _)) by lia.
Qed.
End facts.

(** ** A transaction on the chain of three blocks *)
Import Transparent TestHelpers TestStore.

Module TestVerify.
#[export] Instance batch : MoneroBatch oxide := {|
  batch_new := 0%nat;
  batch_valid _ := true;
  calculate_clawback _ _ := 0;
|}.

Definition spend : Transaction (H := oxide) := TestStore.spend_tx.

Definition data : TransactionVerificationData (O := oxide) := mk_tvd (O := oxide) spend RingSignatures [] 0 6 (repeat 78 32) NotVerified.
Definition rng (x : TransactionVerificationData (O := oxide)) : Rng (MoneroOxide := oxide) := ().
Definition after : TransactionVerificationData (O := oxide) := with_state (ValidAtHashAndHF (repeat 51 32) V1) data.

(** Two time-locked outputs. *)
Definition locked : TxRingMembersInfo (O := oxide) := mk_ring_info (O := oxide) (Rings_RingCT (O := oxide) []) None 0 [TL_Time 1000; TL_Time 2000].
Definition cached : TransactionVerificationData (O := oxide) :=
  mk_tvd (O := oxide) spend RingCT [1] 1 6 (repeat 78 32) (new_state (O := oxide) [5] V13 locked).
End TestVerify.
Import TestVerify.

Lemma cached_verification_carries_over_witness :
  exists info', ring_member_info_for_tx (db_output (TestStore.db 3)) (db_number (TestStore.db 3)) V1 (inputs (prefix TestVerify.spend)) RingSignatures = Ok info' /\
    contextual_ok (TestStore.db 3) 3 0 V1 TestVerify.data info'.
Proof.
  destruct (ring_member_info_for_tx (db_output (TestStore.db 2)) (db_number (TestStore.db 2)) V1 (inputs (prefix TestVerify.spend)) RingSignatures) as [info|?|] eqn:Ei;
    [|vm_compute in Ei; discriminate|vm_compute in Ei; discriminate].
  destruct (cached_verification_carries_over [TestStore.genesis; TestStore.second] [TestStore.third] (TestStore.db 2) (TestStore.db 3) 2 3 100 0 V1 TestVerify.data info)
    as (info' & H1 & _ & H2).
  - apply TestStore.valid.
  - apply (TestStore.db_stores 2).
  - apply (TestStore.db_stores 3).
  - by repeat constructor.
  - split; [exact Ei|]. vm_compute in Ei. injection Ei as <-. vm_compute. reflexivity.
  - done.
  - vm_compute in Ei. injection Ei as <-. constructor.
  - exists info'. split; [exact H1|]. apply (H2 RingSignatures).
    + reflexivity.
    + vm_compute in H1. injection H1 as <-. vm_compute. reflexivity.
    + by left.
Defined.

Lemma cached_lock_is_the_earliest_witness :
  needed_for {[ [5] ]} V13 10 1500 TestVerify.cached = Ok NoneNeeded /\
  check_all_time_locks (O := oxide) (time_locked_outs TestVerify.locked) 10 1500 V13 = Err OneOrMoreRingMembersLocked.
Proof.
  apply (cached_lock_is_the_earliest (O := oxide) [5] {[ [5] ]} V13 10 1500 1000 2000 TestVerify.cached TestVerify.locked).
  - by apply elem_of_singleton.
  - vm_compute. intuition congruence.
  - reflexivity.
  - reflexivity.
  - reflexivity.
Defined.
End TxVerifyFacts.
