(* ===== verification/OutputCacheFacts.v ===== *)
(** * The output cache of a batch of blocks ([src/types/types/src/output_cache.rs])

    The cache is filled from the database before a batch of blocks is verified and is
    given each block as it is verified. Its answers are those the database would give
    once the block was added. *)
From S2P Require Import Prelude Bytes HardForks ChainDb TxData RulesBase TxRules TxContext BlockRules Helpers DbTables TxOps TxStore AltBlocks BlockOps ChainStore BlockchainService ChainReads OutputIndex TxVerification TxVerifyFacts.
From Stdlib Require Import ZArith Lia String.
From stdpp Require Import base tactics option list numbers sets gmap.
Import HardForks ChainDb TxData RulesBase TxRules TxContext Helpers DbTables TxOps TxStore AltBlocks BlockOps ChainStore BlockchainService ChainReads OutputIndex TxVerification TxVerifyFacts.

#[local] Open Scope Z_scope.
#[local] Open Scope usize_scope.

Module OutputCacheFacts.

(** ** Association lists *)
Lemma assoc_map {A} (f : A -> A) a k (l : list (Z * A)) :
  assoc k (map (fun p => if p.1 =? a then (p.1, f p.2) else p) l) = (if k =? a then f <$> assoc k l else assoc k l).
Proof.
  induction l as [|[k' v] l IH]; cbn [map]; [by destruct (k =? a)|]. cbn [fst snd].
  destruct (Z.eqb_spec k' a) as [->|Hne]; rewrite !assoc_cons, IH.
  - destruct (Z.eqb_spec a k) as [->|]; [by rewrite Z.eqb_refl|]. destruct (Z.eqb_spec k a); [congruence|done].
  - destruct (Z.eqb_spec k' k) as [->|]; [|done]. destruct (Z.eqb_spec k a); [congruence|done].
Qed.

Lemma assoc_app_one {A} k k' (v : A) l : assoc k (l ++ [(k', v)]) = match assoc k l with Some x => Some x | None => if k' =? k then Some v else None end.
Proof. induction l as [|[j w] l IH]; cbn [app]; rewrite !assoc_cons; [done|]. by destruct (j =? k). Qed.

Lemma assoc_filter_ne {A} i k (l : list (Z * A)) : i <> k -> assoc i (filter (fun q => q.1 <> k) l) = assoc i l.
Proof.
  intros Hi. induction l as [|[j w] l IH]; [done|]. rewrite filter_cons. cbn [fst]. destruct (decide (j <> k)) as [Hj|Hj].
  - rewrite !assoc_cons, IH. done.
  - rewrite assoc_cons, (proj2 (Z.eqb_neq j i)) by lia. done.
Qed.

Lemma assoc_filter_eq {A} k (l : list (Z * A)) : assoc k (filter (fun q => q.1 <> k) l) = None.
Proof.
  induction l as [|[j w] l IH]; [done|]. rewrite filter_cons. cbn [fst]. destruct (decide (j <> k)) as [Hj|Hj]; [|done].
  by rewrite assoc_cons, (proj2 (Z.eqb_neq j k)).
Qed.

(** The value under [a], then under [i]. *)
Definition assoc2 {A} (a i : Z) (l : list (Z * list (Z * A))) : option A := m ← assoc a l; assoc i m.

Lemma assoc2_insert {A} a k (v : A) b i l :
  assoc2 b i (assoc_insert a k v l) = (if (b =? a) && (i =? k) then Some v else assoc2 b i l).
Proof.
  unfold assoc2, assoc_insert. destruct (assoc a l) as [m|] eqn:Ea.
  - rewrite (assoc_map (fun m => filter (fun q => q.1 <> k) m ++ [(k, v)])). destruct (Z.eqb_spec b a) as [->|]; cbn [andb]; [|done]. rewrite Ea. cbn [fmap option_fmap option_map mbind option_bind].
    rewrite assoc_app_one. destruct (Z.eqb_spec i k) as [->|Hi]; [by rewrite assoc_filter_eq, Z.eqb_refl|].
    rewrite assoc_filter_ne by done. rewrite (proj2 (Z.eqb_neq k i)) by lia. by destruct (assoc i m).
  - rewrite assoc_app_one. destruct (Z.eqb_spec b a) as [->|Hb]; cbn [andb].
    + rewrite Ea, Z.eqb_refl. cbn [mbind option_bind]. rewrite assoc_cons. destruct (Z.eqb_spec i k) as [->|]; [by rewrite Z.eqb_refl|].
      by rewrite (proj2 (Z.eqb_neq k i)) by lia.
    + rewrite (proj2 (Z.eqb_neq a b)) by lia. by destruct (assoc b l).
Qed.

(** ** The cache against the numbering *)
Section cache.
Context {O : MoneroOxide} {T : TransactionOps O} {C : Dalek O} {Cd : MoneroCodec O} {B : MoneroBatch O}.

(** The cache built for the ids [ids] answers as the outputs [ys] do, and still wants the
    outputs that were asked for and are not there yet. *)
Record tracks (ids : gmap Z (gset Z)) (ys : list (option Z * OutputOnChain)) (cache : OutputCache) : Prop := {
  tr_numbers : forall a, number_of_outputs cache !! a = (fun _ => len (keyed a ys)) <$> ids !! a;
  tr_found : forall a s i, ids !! a = Some s -> i ∈ s -> get_output_of cache a i = lookZ (keyed a ys) i;
  tr_wanted : forall a s i, ids !! a = Some s -> i ∈ s -> lookZ (keyed a ys) i = None -> exists w, assoc a (wanted_outputs cache) = Some w /\ i ∈ w;
}.

Lemma keyed_one a b o : keyed a [(Some b, o)] = if a =? b then [o] else [].
Proof using Type.
  cbn. case_bool_decide as H; [injection H as ->; by rewrite Z.eqb_refl|]. destruct (Z.eqb_spec a b) as [->|]; [done|done].
Qed.

(** One output. *)
Lemma add_output_tracks {E} ids ys cache M height tx i out o :
  tracks ids ys cache ->
  let a := if M && (version tx =? 2) then 0 else default 0 (out_amount out) in
  len (keyed a ys) + 1 < 2 ^ 64 -> get_output_commitment (E := E) tx i = Ok (commitment o) ->
  o = mk_output_on_chain height (additional_timelock (prefix tx)) (out_key out) (commitment o) None ->
  exists cache', cache_add_output (E := E) M height tx cache (i, out) = Ok cache' /\ tracks ids (ys ++ [(Some a, o)]) cache'.
Proof using Type.
  intros [H1 H2 H3] a Hr Hc Ho. unfold cache_add_output. fold a. rewrite H1. destruct (ids !! a) as [s|] eqn:Ea; cbn [fmap option_fmap option_map].
  2:{ eexists. split; [done|]. split.
      - intros b. rewrite keyed_app, keyed_one, H1. destruct (Z.eqb_spec b a) as [->|]; [by rewrite Ea|by rewrite app_nil_r].
      - intros b s' j Hb Hj. rewrite keyed_app, keyed_one, (proj2 (Z.eqb_neq b a)), app_nil_r by congruence. by apply (H2 b s').
      - intros b s' j Hb Hj. rewrite keyed_app, keyed_one, (proj2 (Z.eqb_neq b a)), app_nil_r by congruence. by apply (H3 b s'). }
  set (n := len (keyed a ys)) in *. assert (n +! 1 = n + 1) as Hn by (unfold n, len in *; rewrite wrap_small; zlia).
  assert (forall b, <[a:=n +! 1]> (number_of_outputs cache) !! b = (fun _ => len (keyed b (ys ++ [(Some a, o)]))) <$> ids !! b) as Hnum.
  { intros b. rewrite keyed_app, keyed_one. destruct (Z.eqb_spec b a) as [->|Hb].
    - rewrite lookup_insert_eq, Ea, len_app, Hn. done.
    - rewrite lookup_insert_ne, app_nil_r, H1 by done. done. }
  assert (forall b j, lookZ (keyed b (ys ++ [(Some a, o)])) j = if (b =? a) && (j =? n) then Some o else lookZ (keyed b ys) j) as Hlook.
  { intros b j. rewrite keyed_app, keyed_one. destruct (Z.eqb_spec b a) as [->|]; [|by rewrite app_nil_r]. cbn [andb]. rewrite lookZ_snoc. fold n.
    destruct (Z.eqb_spec j n) as [->|]; [by rewrite bool_decide_eq_true_2|]. by rewrite bool_decide_eq_false_2. }
  assert (lookZ (keyed a ys) n = None) as Hnone.
  { destruct (lookZ (keyed a ys) n) eqn:El; [|done]. apply lookZ_lt in El. unfold n in El. lia. }
  assert (n ∉ s -> tracks ids (ys ++ [(Some a, o)]) (mk_output_cache (cached_outputs cache) (<[a:=n +! 1]> (number_of_outputs cache)) (wanted_outputs cache))) as Hsame.
  { intros Hns. split; [exact Hnum| |].
    - intros b s' j Hb Hj. rewrite Hlook. destruct (Z.eqb_spec b a) as [->|]; [|by apply (H2 b s')].
      destruct (Z.eqb_spec j n) as [->|]; [|by apply (H2 a s')]. exfalso. congruence.
    - intros b s' j Hb Hj. rewrite Hlook. destruct ((b =? a) && (j =? n)) eqn:Ebj; [done|]. by apply (H3 b s'). }
  unfold assoc_remove. destruct (assoc a (wanted_outputs cache)) as [w|] eqn:Ew; [case_bool_decide as Hw|].
  - rewrite Hc. cbn [mbind result_bind]. eexists. split; [done|]. rewrite <- Ho. split; [exact Hnum| |].
    + intros b s' j Hb Hj. rewrite Hlook. change (get_output_of _ b j) with (assoc2 b j (assoc_insert a n o (cached_outputs cache))).
      rewrite assoc2_insert. destruct ((b =? a) && (j =? n)); [done|]. by apply (H2 b s').
    + intros b s' j Hb Hj. rewrite Hlook. destruct ((b =? a) && (j =? n)) eqn:Ebj; [done|]. intros Hl. cbn [wanted_outputs].
      destruct (H3 b s' j Hb Hj Hl) as (w' & Hw' & Hj'). rewrite (assoc_map (filter (fun x => x <> n))). destruct (Z.eqb_spec b a) as [->|]; [|by exists w'].
      rewrite Hw'. eexists. split; [done|]. apply list_elem_of_filter. split; [|done]. cbn in Ebj. by apply Z.eqb_neq in Ebj.
  - eexists. split; [done|]. apply Hsame. intros Hs. destruct (H3 a s n Ea Hs Hnone) as (w' & Hw' & Hin). congruence.
  - eexists. split; [done|]. apply Hsame. intros Hs. destruct (H3 a s n Ea Hs Hnone) as (w' & Hw' & Hin). congruence.
Qed.

(** What a block's transactions look like to the cache: the miner transaction is the one
    without inputs to sign, and version 1 outputs have amounts. *)
Definition cache_shape (miner : bool) (tx : Transaction) : Prop :=
  is_miner tx = miner /\
  match tx with
  | Tx_V1 p _ => Forall (fun o => 0 < default 0 (out_amount o) < 2 ^ 64) (outputs p)
  | Tx_V2 _ proofs => miner = true -> proofs = None
  end.

Lemma add_outputs_tracks {E} ids cache M x js ys zs :
  tracks ids ys cache ->
  Forall2 (fun (jo : nat * Output) (z : option Z * OutputOnChain) =>
    z.1 = Some (if M && (version (s_tx x) =? 2) then 0 else default 0 (out_amount jo.2)) /\
    get_output_commitment (E := E) (s_tx x) jo.1 = Ok (commitment z.2) /\ z.2 = on_chain x (out_key jo.2) (commitment z.2)) js zs ->
  len (ys ++ zs) < 2 ^ 64 ->
  exists cache', try_fold (cache_add_output (E := E) M (s_height x) (s_tx x)) cache js = Ok cache' /\ tracks ids (ys ++ zs) cache'.
Proof using Type.
  intros Ht H. revert ys cache Ht. induction H as [|[j out] [k o] js zs (Hk & Hc & Ho) _ IH]; intros ys cache Ht Hl; [rewrite app_nil_r; by eexists|].
  cbn in Hk, Hc, Ho. subst k. cbn [try_fold].
  destruct (add_output_tracks (E := E) ids ys cache M (s_height x) (s_tx x) j out o Ht) as (c1 & -> & Ht1); [|done|done|].
  { assert (len (keyed (if M && (version (s_tx x) =? 2) then 0 else default 0 (out_amount out)) ys) <= len ys) as Hle.
    { generalize (if M && (version (s_tx x) =? 2) then 0 else default 0 (out_amount out)) as a. intros a. clear. unfold len, keyed.
      induction ys as [|[k o] ys IH]; [done|]. cbn [omap list_omap]. destruct (bool_decide (k = Some a)); cbn [length]; lia. }
    rewrite len_app in Hl. unfold len in *. cbn [length] in Hl. lia. }
  cbn [mbind result_bind]. rewrite cons_middle, app_assoc in Hl |- *. by apply IH.
Qed.

(** The outputs of a transaction, as the cache and as the database number them. *)
Lemma outs_of_match {E} {L : DalekLaws O C} {ML : MoneroOxideLaws O T} M x :
  tx_shape (s_tx x) -> cache_shape M (s_tx x) ->
  Forall2 (fun (jo : nat * Output) (z : option Z * OutputOnChain) =>
    z.1 = Some (if M && (version (s_tx x) =? 2) then 0 else default 0 (out_amount jo.2)) /\
    get_output_commitment (E := E) (s_tx x) jo.1 = Ok (commitment z.2) /\ z.2 = on_chain x (out_key jo.2) (commitment z.2))
    (imap pair (outputs (prefix (s_tx x)))) (outs_of x).
Proof using Type.
  intros Hs [Hm Hc]. unfold outs_of. destruct (s_tx x) as [p sg|p proofs] eqn:Et; cbn [prefix].
  - apply Forall2_same_length_lookup_2; [by rewrite length_imap, length_map|]. intros i [j o] [k z] Hi Hz.
    rewrite list_lookup_imap in Hi. rewrite list_lookup_fmap in Hz. destruct (outputs p !! i) as [o'|] eqn:Eo; [|done]. cbn in Hi, Hz.
    injection Hi as <- <-. injection Hz as <- <-. rewrite Forall_forall in Hc. specialize (Hc o' (list_elem_of_lookup_2 _ _ _ Eo)). cbn [fst snd].
    rewrite version_V1. change (1 =? 2) with false. rewrite andb_false_r. split_and!; [unfold key_of; by rewrite (proj2 (Z.eqb_neq _ _)) by lia| |done].
    unfold get_output_commitment. rewrite Eo. cbn [unwrap mbind result_bind]. rewrite compute_zero_commitment_eq by zlia. done.
  - apply Forall2_same_length_lookup_2; [by rewrite length_map|]. intros i [j o] [k z] Hi Hz.
    rewrite list_lookup_fmap, Hi in Hz. cbn in Hz. injection Hz as <- <-. cbn [fst snd].
    rewrite list_lookup_imap in Hi. destruct (outputs p !! i) as [o'|] eqn:Eo; [|done]. cbn in Hi. injection Hi as <- <-.
    rewrite version_V2. change (2 =? 2) with true. rewrite andb_true_r. cbn [tx_shape] in Hs. rewrite Hm in Hs. unfold commitment_of. rewrite Hm.
    pose proof (list_elem_of_lookup_2 _ _ _ Eo) as Hin. destruct M.
    + rewrite (Hc eq_refl). split_and!; [done| |done]. unfold get_output_commitment. rewrite Eo. cbn [unwrap mbind result_bind].
      rewrite Forall_forall in Hs. rewrite compute_zero_commitment_eq by (by apply Hs). done.
    + destruct Hs as (Ha & pr & -> & Hl). rewrite Forall_forall in Ha. rewrite (Ha _ Hin). split_and!; [done| |done]. unfold get_output_commitment.
      apply lookup_lt_Some in Eo. destruct (commitments (base pr) !! i) as [c|] eqn:Ec; [done|]. apply lookup_ge_None_1 in Ec. unfold len in Hl. lia.
Qed.

Lemma add_tx_tracks {E} {L : DalekLaws O C} {ML : MoneroOxideLaws O T} ids cache M x l :
  tracks ids (chain_outs l) cache -> tx_shape (s_tx x) -> cache_shape M (s_tx x) -> len (chain_outs (l ++ [x])) < 2 ^ 64 ->
  exists cache', cache_add_tx (E := E) M (s_height x) (s_tx x) cache = Ok cache' /\ tracks ids (chain_outs (l ++ [x])) cache'.
Proof using Type.
  intros Ht Hs Hc Hl. rewrite chain_outs_app in *. assert (chain_outs [x] = outs_of x) as Hx by (unfold chain_outs; cbn; by rewrite app_nil_r).
  rewrite Hx in *. apply add_outputs_tracks; [done|by apply outs_of_match|done].
Qed.

Lemma add_txs_tracks {E} {L : DalekLaws O C} {ML : MoneroOxideLaws O T} ids height (xs : list VerifiedTransactionInformation) cache l :
  tracks ids (chain_outs l) cache -> Forall (fun x => tx_shape (v_tx x) /\ cache_shape false (v_tx x)) xs ->
  len (chain_outs (l ++ map (fun x => mk_stored (v_tx x) (v_tx_blob x) (v_tx_hash x) height) xs)) < 2 ^ 64 ->
  exists cache', try_fold (fun cache tx => cache_add_tx (E := E) false height (v_tx tx) cache) cache xs = Ok cache' /\
    tracks ids (chain_outs (l ++ map (fun x => mk_stored (v_tx x) (v_tx_blob x) (v_tx_hash x) height) xs)) cache'.
Proof using Type.
  revert cache l. induction xs as [|x xs IH]; intros cache l Ht Hs Hl; cbn [map try_fold] in *; [rewrite app_nil_r; by eexists|].
  apply List.Forall_cons_iff in Hs as [[Hs1 Hs2] Hs]. set (sx := mk_stored (v_tx x) (v_tx_blob x) (v_tx_hash x) height) in *.
  rewrite cons_middle, app_assoc in Hl |- *.
  destruct (add_tx_tracks (E := E) ids cache false sx l Ht Hs1 Hs2) as (c1 & Hc1 & Ht1).
  { rewrite chain_outs_app, len_app in Hl. unfold len in *. lia. }
  unfold sx in Hc1. cbn [s_tx s_height] in Hc1. rewrite Hc1. cbn [mbind result_bind]. by apply IH.
Qed.

(** The outputs of a valid chain are few. *)
Lemma chain_outs_len l : len (chain_outs l) = len (all_outs l).
Proof using Type. unfold len. by rewrite (Forall2_length _ _ _ (all_outs_stand_for l)). Qed.

Lemma add_block_tracks {E} {L : DalekLaws O C} {ML : MoneroOxideLaws O T} ids chain b cache :
  valid_chain (chain ++ [b]) -> cache_shape true (BlockRules.miner_transaction (block b)) -> Forall (fun x => cache_shape false (v_tx x)) (txs b) ->
  tracks ids (chain_outs (chain_txs chain)) cache ->
  exists cache', add_block_to_cache (E := E) b cache = Ok cache' /\ tracks ids (chain_outs (chain_txs (chain ++ [b]))) cache'.
Proof using Type.
  intros Hv Hm Hx Ht. pose proof (vc_room _ Hv) as Hr. rewrite <- chain_outs_len in Hr. rewrite chain_txs_snoc in *. unfold block_txs in *.
  pose proof (vc_sound _ Hv) as Hso. apply Forall_app in Hso as [_ Hso]. apply List.Forall_inv in Hso. set (miner := mk_stored _ _ _ _) in *.
  rewrite cons_middle, app_assoc in Hr |- *. unfold add_block_to_cache.
  destruct (add_tx_tracks (E := E) ids cache true miner (chain_txs chain) Ht) as (c1 & Hc1 & Ht1); [apply (bs_miner _ Hso)|done| |].
  { rewrite chain_outs_app, len_app in Hr. unfold len in *. lia. }
  cbn in Hc1. rewrite Hc1. cbn [mbind result_bind]. apply add_txs_tracks; [done| |done].
  pose proof (bs_txs _ Hso) as Hs. apply Forall_forall. intros x Hin. rewrite Forall_forall in Hs, Hx. split; [by apply Hs|by apply Hx].
Qed.

(** ** The cache the database sends *)
Lemma partition_wanted t a js found wanted i :
  partition_outputs t false a js = Ok (found, wanted) -> i ∈ js -> db_output t a i = None -> i ∈ wanted.
Proof using Type.
  unfold db_output. revert found wanted. induction js as [|j js IH]; intros found wanted H Hi Hn; [by apply not_elem_of_nil in Hi|]. cbn [partition_outputs] in H.
  destruct (id_to_output_on_chain (mk_output_id a j) false t) as [o|e|] eqn:Ej; [|destruct e; try done|done]; cbn [mbind result_bind] in H;
    destruct (partition_outputs t false a js) as [[f w]|?|]; try done; cbn [mbind result_bind] in H; injection H as <- <-;
    apply elem_of_cons in Hi as [->|Hi].
  - by rewrite Ej in Hn.
  - by eapply IH.
  - by left.
  - right. by eapply IH.
Qed.

Lemma query_outputs_wanted t ids cache a s i :
  query_outputs t ids = Ok cache -> ids !! a = Some s -> i ∈ s -> db_output t a i = None ->
  exists w, assoc a (wanted_outputs cache) = Some w /\ i ∈ w.
Proof using Type.
  unfold query_outputs, query. cbn [map_request]. unfold outputs_request. intros H Ha Hi Hn.
  assert ((a, elements s) ∈ map (fun p => (p.1, elements p.2)) (map_to_list ids)) as Hin.
  { apply list_elem_of_fmap. exists (a, s). split; [done|]. by apply elem_of_map_to_list. }
  assert (NoDup (map (fun p => (p.1, elements p.2)) (map_to_list ids)).*1) as Hnd.
  { rewrite <- list_fmap_compose. apply NoDup_fst_map_to_list. }
  set (outs := map _ (map_to_list ids)) in *. clearbody outs. destruct (numbers_with_amounts t outs.*1) as [m|?|]; try done. cbn [mbind result_bind] in H.
  destruct (collect _ outs) as [parts|?|] eqn:Ec; try done. cbn [mbind result_bind map_err unwrap] in H. injection H as <-. cbn [wanted_outputs].
  apply collect_Ok_inv in Ec. induction Ec as [|[a' js] [p1 p2] outs' parts' Hx _ IH]; [by apply not_elem_of_nil in Hin|].
  destruct (partition_outputs t false a' js) as [[f w]|?|] eqn:Ep; try done. cbn [mbind result_bind] in Hx. injection Hx as <- <-.
  cbn [fmap list_fmap snd]. rewrite assoc_cons. cbn in Hnd. apply NoDup_cons in Hnd as [Hnn Hnd]. apply elem_of_cons in Hin as [Heq|Hin].
  - injection Heq as <- <-. rewrite Z.eqb_refl. exists w. split; [done|]. eapply partition_wanted; [done| |done]. by apply elem_of_elements.
  - rewrite (proj2 (Z.eqb_neq _ _)); [by apply IH|]. intros ->. apply Hnn. apply list_elem_of_fmap. by exists (a, elements s).
Qed.

Lemma query_outputs_numbers t ids cache a : query_outputs t ids = Ok cache -> number_of_outputs cache !! a = (fun _ => db_number t a) <$> ids !! a.
Proof using Type.
  unfold query_outputs, query. cbn [map_request]. unfold outputs_request.
  destruct (numbers_with_amounts t _) as [m|?|] eqn:En; try done. cbn [mbind result_bind].
  destruct (collect _ _) as [parts|?|]; try done. cbn [mbind result_bind map_err unwrap]. intros [= <-]. cbn [number_of_outputs].
  rewrite (numbers_with_amounts_spec _ _ _ En). rewrite <- list_fmap_compose. change (fst ∘ _) with (fst : Z * gset Z -> Z).
  destruct (ids !! a) as [s|] eqn:Ea.
  - rewrite decide_True; [done|]. apply list_elem_of_fmap. exists (a, s). split; [done|]. by apply elem_of_map_to_list.
  - rewrite decide_False; [done|]. intros ([a' s] & -> & Hin)%list_elem_of_fmap. apply elem_of_map_to_list in Hin. cbn in Ea. congruence.
Qed.

Lemma db_output_out_at {L : DalekLaws O C} chain t a i : valid_chain chain -> stores chain t -> is_u 64 a -> db_output t a i = out_at (chain_txs chain) a i.
Proof using Type. intros Hv Hst Hu. unfold db_output. rewrite (output_request chain t a i Hv Hst Hu). by destruct (out_at _ a i). Qed.

Lemma db_number_count chain t a : stores chain t -> db_number t a = out_count (chain_txs chain) a.
Proof using Type. intros Hst. unfold db_number. by rewrite (number_request chain t a Hst). Qed.

Lemma query_outputs_tracks {L : DalekLaws O C} chain t ids cache :
  valid_chain chain -> stores chain t -> (forall a s, ids !! a = Some s -> is_u 64 a) ->
  query_outputs t ids = Ok cache -> tracks ids (chain_outs (chain_txs chain)) cache.
Proof using Type.
  intros Hv Hst Hu Hq. pose proof (query_outputs_spec _ _ _ Hq) as [H1 H2]. split.
  - intros a. rewrite (query_outputs_numbers _ _ _ a Hq). destruct (ids !! a); [|done]. cbn. by rewrite (db_number_count chain t a Hst).
  - intros a s i Ha Hi. rewrite (H1 a s i Ha Hi). apply (db_output_out_at chain t a i Hv Hst). by eapply Hu.
  - intros a s i Ha Hi Hn. apply (query_outputs_wanted t ids cache a s i Hq Ha Hi). rewrite (db_output_out_at chain t a i Hv Hst); [done|]. by eapply Hu.
Qed.

Lemma add_blocks_track {E} {L : DalekLaws O C} {ML : MoneroOxideLaws O T} ids chain new cache :
  valid_chain (chain ++ new) ->
  Forall (fun b => cache_shape true (BlockRules.miner_transaction (block b)) /\ Forall (fun x => cache_shape false (v_tx x)) (txs b)) new ->
  tracks ids (chain_outs (chain_txs chain)) cache ->
  exists cache', try_fold (fun cache b => add_block_to_cache (E := E) b cache) cache new = Ok cache' /\ tracks ids (chain_outs (chain_txs (chain ++ new))) cache'.
Proof using Type.
  revert chain cache. induction new as [|b new IH]; intros chain cache Hv Hs Ht; cbn [try_fold]; [rewrite app_nil_r; by eexists|].
  rewrite cons_middle, app_assoc in Hv |- *. apply List.Forall_cons_iff in Hs as [[Hm Hx] Hs].
  destruct (add_block_tracks (E := E) ids chain b cache (valid_chain_prefix _ _ Hv) Hm Hx Ht) as (c1 & -> & Ht1). cbn [mbind result_bind]. by apply IH.
Qed.

(** C25. The output cache of a batch of blocks. Filled from a stored chain for a set of output
    ids and then given the verified blocks of the batch one after the other, the cache
    takes them all without a panic and answers, for every id it was built for and for the
    number of outputs of every amount, what the database would answer once those blocks
    were stored: ring members of a later block may be outputs of an earlier block of the
    same batch. *)
Theorem output_cache_follows_chain {E} {L : DalekLaws O C} {ML : MoneroOxideLaws O T} chain new t t' ids cache :
  valid_chain (chain ++ new) -> stores chain t -> stores (chain ++ new) t' -> (forall a s, ids !! a = Some s -> is_u 64 a) ->
  Forall (fun b => cache_shape true (BlockRules.miner_transaction (block b)) /\ Forall (fun x => cache_shape false (v_tx x)) (txs b)) new ->
  query_outputs t ids = Ok cache ->
  exists cache', try_fold (fun cache b => add_block_to_cache (E := E) b cache) cache new = Ok cache' /\
    forall a s, ids !! a = Some s ->
      (forall i, i ∈ s -> get_output_of cache' a i = db_output t' a i) /\ number_outs_with_amount cache' a = db_number t' a.
Proof using Type.
  intros Hv Hst Hst' Hu Hs Hq. pose proof (query_outputs_tracks chain t ids cache (valid_chain_prefix _ _ Hv) Hst Hu Hq) as Ht.
  destruct (add_blocks_track (E := E) ids chain new cache Hv Hs Ht) as (cache' & -> & [H1 H2 _]). exists cache'. split; [done|].
  intros a s Ha. pose proof (Hu a s Ha) as Hua. split.
  - intros i Hi. rewrite (H2 a s i Ha Hi). symmetry. by apply (db_output_out_at (chain ++ new)).
  - unfold number_outs_with_amount. rewrite H1, Ha. cbn. by rewrite (db_number_count (chain ++ new) t' a Hst').
Qed.

End cache.

(** ** On the chain of three blocks

    The third block has the first ring-CT output, which the cache was asked for before. *)
Import Transparent TestHelpers TestStore TestVerify.

Lemma output_cache_follows_chain_witness :
  exists cache cache', query_outputs (TestStore.db 2) {[0 := {[0]}]} = Ok cache /\
    add_block_to_cache (E := ()) TestStore.third cache = Ok cache' /\
    get_output_of cache 0 0 = None /\ get_output_of cache' 0 0 = db_output (TestStore.db 3) 0 0.
Proof.
  destruct (query_outputs (TestStore.db 2) {[0 := {[0]}]}) as [cache|?|] eqn:Eq; [|vm_compute in Eq; discriminate|vm_compute in Eq; discriminate].
  destruct (output_cache_follows_chain (E := ()) [TestStore.genesis; TestStore.second] [TestStore.third] (TestStore.db 2) (TestStore.db 3) {[0 := {[0]}]} cache)
    as (cache' & H1 & H2).
  - apply TestStore.valid.
  - apply (TestStore.db_stores 2).
  - apply (TestStore.db_stores 3).
  - intros a s Ha. apply lookup_singleton_Some in Ha as [<- _]. unfold is_u. lia.
  - repeat constructor; done.
  - exact Eq.
  - exists cache, cache'. split; [reflexivity|]. split; [cbn [try_fold] in H1; by destruct (add_block_to_cache (E := ()) TestStore.third cache) as [c|?|]; [injection H1 as <-| |]|].
    split; [vm_compute in Eq; injection Eq as <-; vm_compute; reflexivity|]. apply (H2 0 {[0]}); [apply lookup_singleton_eq|by apply elem_of_singleton].
Defined.
End OutputCacheFacts.
