(* ===== verification/FullVerifyFacts.v ===== *)
(** * Full verification of a batch of transactions: theorems

    [TxVerification.verify] against the rules of [TxRules] and [TxContext]: which of them
    a transaction of an accepted batch satisfies on the stored chain, given what its cached
    state says was checked before, and that the proofs which are checked in batches were
    checked. *)
From S2P Require Import Prelude Bytes HardForks ChainDb TxData RulesBase TxRules TxContext BlockRules Helpers DbTables TxOps TxStore AltBlocks BlockOps ChainStore BlockchainService ChainReads OutputIndex TxVerification TxVerifyFacts OutputCacheFacts.
From Stdlib Require Import ZArith Lia.
From stdpp Require Import base tactics option list numbers sets gmap.
Import HardForks ChainDb TxData RulesBase TxRules TxContext Helpers DbTables TxOps TxStore AltBlocks BlockOps ChainStore BlockchainService ChainReads OutputIndex TxVerification TxVerifyFacts OutputCacheFacts.

#[local] Open Scope Z_scope.
#[local] Open Scope usize_scope.

Module FullVerifyFacts.

Section facts.
Context {O : MoneroOxide} {T : TransactionOps O} {C : Dalek O} {Cd : MoneroCodec O} {B : MoneroBatch O}.
Context {L : DalekLaws O C} {ML : MoneroOxideLaws O T}.

(** ** What a cached state says *)

(** The semantic rules of fork [hf] were checked. *)
Definition semantic_known (hf : HardFork) (x : TransactionVerificationData) : bool :=
  match cached_verification_state x with
  | NotVerified => false
  | OnlySemantic f | ValidAtHashAndHF _ f | ValidAtHashAndHFWithTimeBasedLock _ f _ => bool_decide (f = hf)
  end.

(** All rules were checked, at this fork and on a block of the chain. *)
Definition context_known (chain : gset bytes) (hf : HardFork) (x : TransactionVerificationData) : bool :=
  match cached_verification_state x with
  | NotVerified | OnlySemantic _ => false
  | ValidAtHashAndHF b f | ValidAtHashAndHFWithTimeBasedLock b f _ => bool_decide (f = hf) && bool_decide (b ∈ chain)
  end.

Definition cached_lock (x : TransactionVerificationData) : Timelock :=
  match cached_verification_state x with ValidAtHashAndHFWithTimeBasedLock _ _ tl => tl | _ => TL_None end.

Lemma needed_for_spec known hf h time x n :
  is_u 63 time -> needed_for known hf h time x = Ok n ->
  (n = SemanticAndContextual <-> semantic_known hf x = false) /\ (tx_filter n = false <-> context_known known hf x = true) /\
  (context_known known hf x = true -> unlocked h time hf (cached_lock x) /\ (tvd_version x = RingSignatures -> n = V1DecoyCheck)).
Proof using Type.
  intros Ht. unfold needed_for, semantic_known, context_known, cached_lock. destruct (cached_verification_state x) as [|f|b f|b f tl].
  - intros [= <-]. done.
  - rewrite (bool_decide_ext (hf = f) (f = hf)) by done. case_bool_decide; intros [= <-]; done.
  - rewrite (bool_decide_ext (hf = f) (f = hf)) by done. case_bool_decide; cbn [negb andb]; [|by intros [= <-]].
    case_bool_decide; cbn [negb]; [|by intros [= <-]]. case_bool_decide; intros [= <-]; done.
  - rewrite (bool_decide_ext (hf = f) (f = hf)) by done. case_bool_decide as Hf; cbn [negb andb]; [|by intros [= <-]].
    case_bool_decide; cbn [negb]; [|by intros [= <-]]. destruct (output_unlocked tl h time f) eqn:Eu; cbn [negb]; [|done].
    rewrite Hf in Eu. apply output_unlocked_true in Eu; [|done]. case_bool_decide; intros [= <-]; done.
Qed.

(** ** Outputs of the chain *)
Lemma out_at_height chain a i o : valid_chain chain -> out_at (chain_txs chain) a i = Some o -> is_u 63 (height o).
Proof using Type.
  intros Hv Ho. unfold out_at, lookZ in Ho. destruct (i <? 0); [done|]. apply list_elem_of_lookup_2, list_elem_of_omap in Ho as ([k o'] & Hin & Hk).
  case_bool_decide; [|done]. injection Hk as ->. apply list_elem_of_bind in Hin as (x & Hx & Hin).
  assert (height o = s_height x) as ->.
  { unfold outs_of in Hx. destruct (s_tx x); apply list_elem_of_fmap in Hx as (y & Hy & _); [injection Hy as _ ->; done|].
    destruct y as [j y]. injection Hy as _ ->. done. }
  apply list_elem_of_bind in Hin as (b & Hb & Hin). apply list_elem_of_lookup in Hin as [j Hj]. pose proof (vc_heights _ Hv j b Hj) as Hh.
  pose proof (vc_len _ Hv) as Hl. apply lookup_lt_Some in Hj. assert (s_height x = vb_height b) as ->.
  { unfold block_txs in Hb. apply elem_of_cons in Hb as [->|Hb]; [done|]. by apply list_elem_of_fmap in Hb as (y & -> & _). }
  rewrite Hh. unfold is_u, len in *. revert Hl. zpow. lia.
Qed.

Lemma iter_max_in l m : iter_max l = Some m -> m ∈ l.
Proof using Type.
  destruct l as [|x l]; [done|]. cbn [iter_max]. intros [= <-]. revert x. induction l as [|y l IH]; intros x; cbn [foldl]; [by left|].
  specialize (IH (Z.max x y)). apply elem_of_cons in IH as [IH|IH]; [|by right; right].
  rewrite IH. destruct (Z.max_spec x y) as [[_ ->]|[_ ->]]; [right; left|left].
Qed.

Lemma youngest_bounded get nb hf ins ver info :
  (forall a i o, get a i = Some o -> is_u 63 (height o)) -> ring_member_info_for_tx get nb hf ins ver = Ok info ->
  is_u 63 (youngest_used_out_height info).
Proof using Type.
  intros Hg H. unfold ring_member_info_for_tx in H. apply bind_Ok in H as (ms & Hms & H). apply bind_Ok in H as (d & _ & H).
  unfold new_ring_member_info in H. apply bind_Ok in H as (hs & Hhs & H). apply bind_Ok in H as (y & Hy & [= <-]). cbn [youngest_used_out_height].
  assert (Forall (is_u 63) hs) as Hf.
  { apply collect_Ok in Hhs. apply Forall_forall. intros x Hx. apply list_elem_of_lookup in Hx as [j Hx].
    destruct (Forall2_lookup_r _ _ _ _ _ Hhs Hx) as (m & Hm & Hu). destruct (last m) as [o|] eqn:El; [|done]. injection Hu as <-.
    unfold get_ring_members_for_inputs in Hms. apply collect_Ok in Hms. destruct (Forall2_lookup_r _ _ _ _ _ Hms Hm) as (inp & _ & Hi).
    destruct inp as [|am os ki]; [done|]. apply bind_Ok in Hi as (abs & _ & Hi). apply collect_Ok in Hi.
    rewrite last_lookup in El. destruct (Forall2_lookup_r _ _ _ _ _ Hi El) as (off & _ & Ho). apply ok_or_Ok in Ho. by eapply Hg. }
  destruct (iter_max hs) as [z|] eqn:Em; [|done]. injection Hy as <-. apply iter_max_in in Em. rewrite Forall_forall in Hf. by apply Hf.
Qed.

(** ** The transactions of an accepted batch *)

(** A transaction as it was read: machine types, and the version its first byte says. *)
Record read_tx (x : TransactionVerificationData) : Prop := {
  rt_typed : tx_typed (tvd_tx x);
  rt_sized : tx_sized (tvd_tx x);
  rt_version : tvd_version x = tx_version (tvd_tx x);
}.

(** The rules hold on the chain for the transaction, as far as its cached state does not say
    that they were checked before; what can become wrong with new blocks is checked always. *)
Record verified_now (rng : TransactionVerificationData -> Rng) (chain : list VerifiedBlockInformation) (h : Z) (top : bytes) (time : Z)
    (hf : HardFork) (x x' : TransactionVerificationData) : Prop := {
  vn_semantic : semantic_known hf x = false ->
    exists v, semantic_rules (tvd_tx x) (len (tvd_tx_blob x)) (tvd_tx_weight x) (tvd_tx_hash x) hf (rng x) v (tvd_fee x);
  vn_contextual : context_known (chain_hashes chain) hf x = false ->
    (exists ms, contextual_promise (tvd_tx x) (out_at (chain_txs chain)) (out_count (chain_txs chain)) ms h time hf) /\
    exists st, x' = with_state st x /\ verified_at_block_hash st = Some top /\ semantic_known hf x' = true;
  vn_cached : context_known (chain_hashes chain) hf x = true ->
    x' = x /\ unlocked h time hf (cached_lock x) /\
    (tvd_version x = RingSignatures -> decoy_rule hf (out_count (chain_txs chain)) (inputs (prefix (tvd_tx x))));
}.

Section chain.
Context (chain : list VerifiedBlockInformation) (t : Tables) (Hv : valid_chain chain) (Hst : stores chain t).

Lemma chain_reads x : tx_typed (tvd_tx x) ->
  Forall (same_reads (db_output t) (out_at (chain_txs chain)) (db_number t) (out_count (chain_txs chain))) (inputs (prefix (tvd_tx x))).
Proof using L Hv Hst.
  intros [_ Hi]. revert Hi. apply List.Forall_impl. intros [h|amount os ki]; [done|]. cbn [input_amount]. intros Ha. split.
  - intros l i _ _. by apply (db_output_out_at chain).
  - by apply (db_number_count chain).
Qed.

Lemma contextual_ok_promise h time hf x info :
  read_tx x -> is_u 63 time -> contextual_ok t h time hf x info ->
  exists ms, contextual_promise (tvd_tx x) (out_at (chain_txs chain)) (out_count (chain_txs chain)) ms h time hf.
Proof using L ML Hv Hst.
  intros [Hty Hsz Hver] Ht [Hi Hc]. rewrite (same_reads_info _ _ _ _ _ _ _ (chain_reads x Hty)), Hver in Hi.
  apply (contextual_check_promise _ _ _ _ info); [done|done| |done|done].
  eapply youngest_bounded; [|exact Hi]. intros a i o. by apply out_at_height.
Qed.

Lemma decoys_ok_rule hf x : read_tx x -> decoys_ok t hf x -> decoy_rule hf (out_count (chain_txs chain)) (inputs (prefix (tvd_tx x))).
Proof using L Hv Hst.
  intros [Hty Hsz _] [->|(d & Hd & Hc)]; [done|]. rewrite (same_reads_decoys _ _ _ _ _ _ (chain_reads x Hty)) in Hd.
  destruct (decide (hf = V1)) as [->|Hne]; [done|]. by apply (check_decoy_info_rule hf _ _ d Hne (sz_inputs _ Hsz) Hd).
Qed.

Lemma semantic_ok_rules rng hf x : tx_typed (tvd_tx x) -> semantic_ok rng hf x ->
  exists v, semantic_rules (tvd_tx x) (len (tvd_tx_blob x)) (tvd_tx_weight x) (tvd_tx_hash x) hf (rng x) v (tvd_fee x).
Proof using ML.
  intros Ht (v & v' & H). exists v. unfold semantic in H. destruct (check_transaction_semantic _ _ _ _ _ _ _) as [r v2] eqn:Er.
  apply bind_Ok in H as (f & Hr & H). apply map_err_Ok in Hr. apply bind_Ok in H as ([] & Hf & _). subst r.
  destruct (f =? tvd_fee x) eqn:E; bsimp; [|done]. apply check_transaction_semantic_Ok; [done|]. rewrite Er. cbn [fst]. congruence.
Qed.

Lemma new_state_known top hf info x : semantic_known hf (with_state (new_state top hf info) x) = true /\ verified_at_block_hash (new_state top hf info) = Some top.
Proof using Type.
  unfold semantic_known, new_state. cbn [with_state cached_verification_state].
  destruct (time_locked_outs info) as [|l ls]; [|destruct (omap _ (l :: ls))]; cbn; (split; [by apply bool_decide_eq_true_2|done]).
Qed.

Lemma passed_verified rng h top time hf n x x' :
  read_tx x -> is_u 63 time -> needed_for (chain_hashes chain) hf h time x = Ok n ->
  passed rng t h top time hf n x x' -> (n = V1DecoyCheck -> decoys_ok t hf x) -> verified_now rng chain h top time hf x x'.
Proof using L ML Hv Hst.
  intros Hx Ht Hn Hp Hd. destruct (needed_for_spec _ _ _ _ _ _ Ht Hn) as (N1 & N2 & N3). split.
  - intros ->%N1. destruct Hp as [Hs _]. apply semantic_ok_rules; [apply Hx|done].
  - intros Hk. assert (tx_filter n = true) as Hf by (destruct (tx_filter n); [done|]; rewrite (proj1 N2) in Hk by done; done).
    assert (exists info, contextual_ok t h time hf x info /\ x' = with_state (new_state top hf info) x) as (info & Hc & ->)
      by (destruct n; try done; apply Hp). split; [by eapply contextual_ok_promise|].
    destruct (new_state_known top hf info x) as [K1 K2]. eexists. split_and!; [done|done|done].
  - intros Hk. destruct (N3 Hk) as [Hl Hdec]. apply N2 in Hk. split_and!; [by destruct n|done|].
    intros Hr. apply decoys_ok_rule; [done|]. by apply Hd, Hdec.
Qed.

Lemma full_verification_rules rng txs h top time hf cache txs' :
  is_u 63 time -> Forall read_tx txs -> cache_agrees t txs (output_cache <$> cache) ->
  verify rng txs h top time hf t cache = Ok txs' ->
  (kis_open cache -> NoDup (txs ≫= kis) /\ (forall k, k ∈ txs ≫= kis -> k ∉ all_kis (chain_txs chain))) /\
  Forall2 (verified_now rng chain h top time hf) txs txs' /\
  batch_valid (foldl (queue_proofs rng) batch_new (filter (fun x => semantic_known hf x = false) txs)) = true.
Proof using L ML Hv Hst.
  intros Ht Hr Hc H. destruct (full_verification_gen rng chain t txs h top time hf cache txs' Hst Hc H) as (Hk & needed & Hn & Hp & Hb).
  split; [done|]. split.
  - clear Hb Hc H Hk. revert txs' Hp. induction Hn as [|x n txs needed Hx _ IH]; intros txs' Hp; inversion Hp as [|? x' ? ? [H1 H2] Hrest]; subst; [constructor|].
    apply List.Forall_cons_iff in Hr as [Hr0 Hr]. constructor; [by eapply passed_verified|by apply IH].
  - rewrite <- Hb. do 2 f_equal. clear Hb Hp Hc H Hk Hr. induction Hn as [|x n txs needed Hx _ IH]; [done|]. cbn [zip zip_with]. rewrite !filter_cons. cbn [snd].
    destruct (needed_for_spec _ _ _ _ _ _ Ht Hx) as (N1 & _ & _). destruct (decide (semantic_known hf x = false)) as [Hs|Hs].
    + rewrite decide_True by (by apply N1). cbn [fmap list_fmap fst]. by f_equal.
    + rewrite decide_False by (by rewrite N1). done.
Qed.

(** C5. A batch of transactions that passes full verification against a stored chain, with or
    without the output cache of a batch of blocks (which then must answer as the database
    does). Unless the caller has checked the key images before, none is spent twice in the
    batch or already in the chain. Every transaction satisfies the semantic rules of the
    fork unless its cached state says that they were checked at this fork, and the
    contextual rules with the ring members of the chain unless the state says that they
    were checked at this fork on a block of the chain; then the lock of the state has
    passed and a version 1 transaction follows the decoy rule again. The range proofs of
    all transactions that were checked semantically, queued in order, were accepted by the
    batch verifier. Transactions change in their cached states only. *)
Theorem full_verification_sound rng txs h top time hf cache txs' :
  is_u 63 time -> Forall read_tx txs -> cache_agrees t txs (output_cache <$> cache) ->
  verify rng txs h top time hf t cache = Ok txs' ->
  (kis_open cache -> NoDup (txs ≫= kis) /\ (forall k, k ∈ txs ≫= kis -> k ∉ all_kis (chain_txs chain))) /\
  Forall2 (verified_now rng chain h top time hf) txs txs' /\
  batch_valid (foldl (queue_proofs rng) batch_new (filter (fun x => semantic_known hf x = false) txs)) = true.
Proof using L ML Hv Hst. apply full_verification_rules. Qed.
End chain.
End facts.

(** ** On the chain of two blocks *)
Import Transparent TestHelpers TestStore TestVerify.

Lemma full_verification_sound_witness :
  verify TestVerify.rng [TestVerify.data] 2 (repeat 51 32) 100 V1 (TestStore.db 2) None = Ok [TestVerify.after] /\
  (forall k, k ∈ [TestVerify.data] ≫= kis -> k ∉ all_kis (chain_txs [TestStore.genesis; TestStore.second])) /\
  exists ms, contextual_promise TestVerify.spend (out_at (chain_txs [TestStore.genesis; TestStore.second])) (out_count (chain_txs [TestStore.genesis; TestStore.second])) ms 2 100 V1.
Proof.
  assert (verify TestVerify.rng [TestVerify.data] 2 (repeat 51 32) 100 V1 (TestStore.db 2) None = Ok [TestVerify.after]) as H by (vm_compute; reflexivity).
  split; [exact H|].
  destruct (full_verification_sound [TestStore.genesis; TestStore.second] (TestStore.db 2) (valid_chain_prefix [TestStore.genesis; TestStore.second] [TestStore.third] TestStore.valid) (TestStore.db_stores 2)
    TestVerify.rng [TestVerify.data] 2 (repeat 51 32) 100 V1 None [TestVerify.after]) as (Hk & Hf & _).
  - unfold is_u. lia.
  - repeat constructor; cbn; done || lia.
  - by intros c.
  - exact H.
  - split; [apply (Hk I)|]. inversion Hf as [|? ? ? ? Hx _]; subst. destruct Hx as [_ Hc _]. apply (Hc eq_refl).
Defined.
End FullVerifyFacts.
