(* ===== verification/BlockVerification.v ===== *)
(** * Block verification ([src/consensus/src/block.rs], [block/free.rs],
    [block/alt_block.rs], [block/batch_prepare.rs]; [calculate_pow_hash] of
    [src/consensus/rules/src/blocks.rs])

    Verifying a block for the main chain against the context and the database, checking an
    alternative block, and preparing a batch of blocks. The functions talk to the context
    task ([Context]), which may change by a request, so they run in a monad that threads
    the task through, errors and panics included. The clock, the random chain id and the
    random numbers of the batch verifier are arguments. Blocks that rayon prepares in
    parallel are prepared in order. *)
From S2P Require Import Prelude Bytes HardForks Median ChainDb Difficulty RulesBase TxData TxRules TxContext BlockRules Weights RxVms Context Helpers DbTables TxOps AltBlocks BlockOps BlockchainService ChainReads TxVerification.
From Stdlib Require Import ZArith Lia String.
From stdpp Require Import base tactics option list numbers sets gmap.
Import HardForks ChainDb RulesBase TxData TxRules TxContext Helpers DbTables TxOps AltBlocks BlockOps BlockchainService ChainReads TxVerification.

#[local] Open Scope Z_scope.
#[local] Open Scope usize_scope.

Module BlockVerification.

(** What is used of [monero_oxide], [cuprate_cryptonight] and [randomx_rs] on blocks. *)
Class BlockPow (O : MoneroOxide) (Vm : Type) := {
  (** [Block::hash], [Block::serialize_pow_hash] *)
  hash_of_block : BlockRules.Block -> bytes;
  serialize_pow_hash : BlockRules.Block -> bytes;
  cryptonight_hash_v0 : bytes -> bytes;
  cryptonight_hash_v1 : bytes -> option bytes;
  cryptonight_hash_v2 : bytes -> bytes;
  cryptonight_hash_r : bytes -> Z -> bytes;
  (** [RandomX::calculate_hash] *)
  calculate_hash : Vm -> bytes -> option bytes;
}.

(** ** A monad over the context task *)
Section svc.
Context {O : MoneroOxide} {Vm : Type}.

Definition svc (A : Type) : Type := Context.ContextTask Vm -> result ExtendedConsensusError A * Context.ContextTask Vm.

#[export] Instance svc_ret : MRet svc := fun A a c => (Ok a, c).

#[export] Instance svc_bind : MBind svc := fun A B f m c =>
  match m c with
  | (Ok a, c) => f a c
  | (Err e, c) => (Err e, c)
  | (Panic, c) => (Panic, c)
  end.

(** A step that does not use the task. *)
Definition pure {A} (r : result ExtendedConsensusError A) : svc A := fun c => (r, c).

Definition cons_err {A} (r : result ConsensusError A) : svc A := pure (map_err ConsErr r).
Definition block_err {A} (r : result BlockError A) : svc A := pure (map_err (fun e => ConsErr (BlockErr e)) r).

(** [context_svc.blockchain_context()] *)
Definition get_context : svc Context.BlockchainContext := fun c => (Ok (Context.context_cache c), c).
End svc.

Section verify.
Context {O : MoneroOxide} {T : TransactionOps O} {C : Dalek O} {Cd : MoneroCodec O} {B : MoneroBatch O}.
Context {Vm : Type} {P : BlockPow O Vm} (new_vm : bytes -> option Vm).

#[local] Abbreviation EResult := (result ExtendedConsensusError).
#[local] Abbreviation Block := BlockRules.Block.

(** [context_svc.ready().await?.call(req).await?] *)
Definition call {A} (database : Tables) (req : Context.BlockChainContextRequest Vm)
    (expected : Context.BlockChainContextResponse Vm -> option A) : svc (Vm := Vm) A := fun c =>
  match Context.handle_req new_vm c req database with
  | (Ok r, c) => (unwrap (expected r), c)
  | (Err e, c) => (Err (ContextErr e), c)
  | (Panic, c) => (Panic, c)
  end.

Definition current_rx_vms (database : Tables) : svc (Vm := Vm) (gmap Z Vm) :=
  call database Context.CurrentRxVms (fun r => match r with Context.RxVms vms => Some vms | _ => None end).

(** ** Proof of work *)
Definition BLOCK_202612_POW_HASH : bytes :=
  [0x84; 0xf6; 0x47; 0x66; 0x47; 0x5d; 0x51; 0x83; 0x7a; 0xc9; 0xef; 0xbe; 0xf1; 0x92; 0x64; 0x86;
   0xe5; 0x85; 0x63; 0xc9; 0x5a; 0x19; 0xfe; 0xf4; 0xae; 0xc3; 0x25; 0x4f; 0x03; 0x00; 0x00; 0x00].

Definition calculate_pow_hash (randomx_vm : option Vm) (buf : bytes) (height : Z) (hf : HardFork) : result BlockError bytes :=
  if height =? 202612 then Ok BLOCK_202612_POW_HASH
  else if hf_lt hf V7 then Ok (cryptonight_hash_v0 buf)
  else if bool_decide (hf = V7) then ok_or (cryptonight_hash_v1 buf) POWInvalid
  else if hf_lt hf V10 then Ok (cryptonight_hash_v2 buf)
  else if hf_lt hf V12 then Ok (cryptonight_hash_r buf height)
  else
    vm ← unwrap randomx_vm;
    ok_or (calculate_hash vm buf) POWInvalid.

(** ** Preparing blocks *)
Record PreparedBlockExPow := mk_ex_pow {
  ex_block : Block;
  ex_block_blob : bytes;
  ex_hf_vote : HardFork;
  ex_hf_version : HardFork;
  ex_block_hash : bytes;
  ex_height : Z;
  ex_miner_tx_weight : Z;
}.

Record PreparedBlock := mk_prepared {
  pb_block : Block;
  pb_block_blob : bytes;
  pb_hf_vote : HardFork;
  pb_hf_version : HardFork;
  pb_block_hash : bytes;
  pb_pow_hash : bytes;
  pb_miner_tx_weight : Z;
}.

Definition header_forks (block : Block) : result ConsensusError (HardFork * HardFork) :=
  map_err (fun _ => BlockErr (BlockHardForkError HardForkUnknown))
    (from_block_header (BlockRules.hardfork_version (BlockRules.header block)) (BlockRules.hardfork_signal (BlockRules.header block))).

Definition not_gen : ConsensusError := BlockErr (BlockMinerTxError InputNotOfTypeGen).

Definition miner_inputs (block : Block) : list Input := inputs (prefix (BlockRules.miner_transaction block)).

(** [PreparedBlockExPow::new] *)
Definition new_ex_pow (block : Block) : result ConsensusError PreparedBlockExPow :=
  '((hf_version, hf_vote) : HardFork * HardFork) ← header_forks block;
  match head (miner_inputs block) with
  | Some (Gen height) =>
      Ok (mk_ex_pow block (block_serialize block) hf_vote hf_version (hash_of_block block) height
            (tx_weight (BlockRules.miner_transaction block)))
  | _ => Err not_gen
  end.

(** [PreparedBlock::new] *)
Definition new_prepared (block : Block) (randomx_vm : option Vm) : result ConsensusError PreparedBlock :=
  '((hf_version, hf_vote) : HardFork * HardFork) ← header_forks block;
  match miner_inputs block with
  | [Gen height] =>
      pow_hash ← map_err BlockErr (calculate_pow_hash randomx_vm (serialize_pow_hash block) height hf_version);
      Ok (mk_prepared block (block_serialize block) hf_vote hf_version (hash_of_block block) pow_hash
            (tx_weight (BlockRules.miner_transaction block)))
  | _ => Err not_gen
  end.

Definition new_prepped (block : PreparedBlockExPow) (randomx_vm : option Vm) : result ConsensusError PreparedBlock :=
  pow_hash ← map_err BlockErr
    (calculate_pow_hash randomx_vm (serialize_pow_hash (ex_block block)) (ex_height block) (ex_hf_version block));
  Ok (mk_prepared (ex_block block) (ex_block_blob block) (ex_hf_vote block) (ex_hf_version block) (ex_block_hash block)
        pow_hash (tx_weight (BlockRules.miner_transaction (ex_block block)))).

Definition new_alt_block (block : AltBlockInformation) : result ConsensusError PreparedBlock :=
  hf_vote ← map_err (fun _ => BlockErr (BlockHardForkError HardForkUnknown))
    (from_version (BlockRules.hardfork_version (BlockRules.header (ab_block block))));
  Ok (mk_prepared (ab_block block) (ab_block_blob block) hf_vote
        (from_vote (BlockRules.hardfork_signal (BlockRules.header (ab_block block)))) (ab_block_hash block) (ab_pow_hash block)
        (tx_weight (BlockRules.miner_transaction (ab_block block)))).

(** ** The transactions of a block *)

(** [txs.swap(i, j)] *)
Definition swap {A} (i j : nat) (l : list A) : list A :=
  match l !! i, l !! j with
  | Some a, Some b => <[j := a]> (<[i := b]> l)
  | _, _ => l
  end.

Fixpoint order_loop (i : nat) (hashes : list bytes) (txs : list TransactionVerificationData)
    : EResult (list TransactionVerificationData) :=
  match hashes with
  | [] => Ok txs
  | h :: hashes =>
      tx ← unwrap (txs !! i);
      if negb (bool_decide (h = tvd_tx_hash tx)) then
        match list_find (fun tx => tvd_tx_hash tx = h) (drop i txs) with
        | None => Err TxsIncludedWithBlockIncorrect
        | Some (at_index, _) => order_loop (S i) hashes (swap i (i + at_index)%nat txs)
        end
      else order_loop (S i) hashes txs
  end.

Definition order_transactions (block : Block) (txs : list TransactionVerificationData)
    : EResult (list TransactionVerificationData) :=
  if negb (len (BlockRules.transactions block) =? len txs) then Err TxsIncludedWithBlockIncorrect
  else order_loop 0 (BlockRules.transactions block) txs.

Definition pull_ordered_transactions (block : Block) (txs : gmap bytes TransactionVerificationData)
    : EResult (list TransactionVerificationData) :=
  if negb (len (BlockRules.transactions block) =? Z.of_nat (size txs)) then Err TxsIncludedWithBlockIncorrect
  else
    '((ordered_txs, _) : list TransactionVerificationData * gmap bytes TransactionVerificationData) ←
      try_fold (fun '((ordered_txs, txs) : list TransactionVerificationData * gmap bytes TransactionVerificationData) tx_hash =>
        tx ← ok_or (txs !! tx_hash) TxsIncludedWithBlockIncorrect;
        Ok (ordered_txs ++ [tx], delete tx_hash txs)) ([], txs) (BlockRules.transactions block);
    Ok ordered_txs.

Definition verified_tx (tx : TransactionVerificationData) : VerifiedTransactionInformation :=
  mk_verified_tx (tvd_tx tx) (tvd_tx_blob tx) (tvd_tx_weight tx) (tvd_fee tx) (tvd_tx_hash tx).

(** ** Verifying a block *)
Definition verify_prepped_main_chain_block (rng : TransactionVerificationData -> Rng) (now : Z) (prepped_block : PreparedBlock)
    (txs : list TransactionVerificationData) (database : Tables) (batch_prep_cache : option BatchPrepareCache)
    : svc (Vm := Vm) (VerifiedBlockInformation * option BatchPrepareCache) :=
  context ← get_context;
  let ctx := Context.context_to_verify_block context in
  let block := pb_block prepped_block in
  _ ← block_err (check_block_pow (pb_pow_hash prepped_block) (BlockRules.next_difficulty ctx));
  txs ← pure
    (if negb (len (BlockRules.transactions block) =? len txs) then Err TxsIncludedWithBlockIncorrect
     else if bool_decide (BlockRules.transactions block = []) then Ok txs
     else if negb (forallb (fun p => bool_decide (p.1 = tvd_tx_hash p.2)) (zip (BlockRules.transactions block) txs))
     then Err TxsIncludedWithBlockIncorrect
     else
       prepped ← map_err ConsErr (prepare txs []);
       time ← match Context.current_adjusted_timestamp_for_time_lock context now with Ok time => Ok time | _ => Panic end;
       verify rng prepped (BlockRules.chain_height ctx) (BlockRules.top_hash ctx) time (BlockRules.current_hf ctx)
         database batch_prep_cache);
  let block_weight := pb_miner_tx_weight prepped_block +! usize_sum (map tvd_tx_weight txs) in
  let total_fees := usize_sum (map tvd_fee txs) in
  '((_, generated_coins) : HardFork * Z) ←
    block_err (BlockRules.check_block block total_fees block_weight (len (pb_block_blob prepped_block)) ctx now);
  let verified := mk_verified_block block (pb_block_blob prepped_block) (map verified_tx txs) (pb_block_hash prepped_block)
    (pb_pow_hash prepped_block) (BlockRules.chain_height ctx) generated_coins block_weight
    (Context.next_block_long_term_weight context block_weight)
    (wrap 128 (Context.ctx_cumulative_difficulty context + BlockRules.next_difficulty ctx)) in
  cache ← pure match batch_prep_cache with
    | Some cache =>
        output_cache ← add_block_to_cache verified (output_cache cache);
        Ok (Some (mk_prepare_cache output_cache (key_images_spent_checked cache)))
    | None => Ok None
    end;
  mret (verified, cache).

Definition verify_main_chain_block (rng : TransactionVerificationData -> Rng) (now : Z) (block : Block)
    (txs : gmap bytes TransactionVerificationData) (database : Tables) : svc (Vm := Vm) VerifiedBlockInformation :=
  context ← get_context;
  let ctx := Context.context_to_verify_block context in
  rx_vms ← (if BlockRules.hardfork_version (BlockRules.header block) <? 12 then mret ∅ else current_rx_vms database);
  let height := BlockRules.chain_height ctx in
  prepped_block ← cons_err (new_prepared block (rx_vms !! randomx_seed_height height));
  _ ← block_err (check_block_pow (pb_pow_hash prepped_block) (BlockRules.next_difficulty ctx));
  ordered_txs ← pure (pull_ordered_transactions (pb_block prepped_block) txs);
  '((verified, _) : VerifiedBlockInformation * option BatchPrepareCache) ←
    verify_prepped_main_chain_block rng now prepped_block ordered_txs database None;
  mret verified.

(** ** Alternative blocks *)
#[local] Abbreviation AltCache := (Context.AltChainContextCache Vm).

Definition with_vm (vm : option (Z * Vm)) (c : AltCache) : AltCache :=
  Context.mk_alt_cache (Context.alt_weight_cache c) (Context.alt_difficulty_cache c) vm (Context.alt_chain_height c)
    (Context.alt_top_hash c) (Context.chain_id c) (Context.parent_chain c).

Definition with_difficulty (d : Difficulty.DifficultyCache) (c : AltCache) : AltCache :=
  Context.mk_alt_cache (Context.alt_weight_cache c) (Some d) (Context.cached_rx_vm c) (Context.alt_chain_height c)
    (Context.alt_top_hash c) (Context.chain_id c) (Context.parent_chain c).

Definition with_weights (w : Weights.BlockWeightsCache) (c : AltCache) : AltCache :=
  Context.mk_alt_cache (Some w) (Context.alt_difficulty_cache c) (Context.cached_rx_vm c) (Context.alt_chain_height c)
    (Context.alt_top_hash c) (Context.chain_id c) (Context.parent_chain c).

Definition with_chain_id (id : Z) (c : AltCache) : AltCache :=
  Context.mk_alt_cache (Context.alt_weight_cache c) (Context.alt_difficulty_cache c) (Context.cached_rx_vm c)
    (Context.alt_chain_height c) (Context.alt_top_hash c) (Some id) (Context.parent_chain c).

Definition alt_rx_vm (database : Tables) (block_height hf : Z) (parent_chain : Chain) (alt_chain_context : AltCache)
    : svc (Vm := Vm) (option Vm * AltCache) :=
  if hf <? 12 then mret (None, alt_chain_context)
  else
    let seed_height := randomx_seed_height block_height in
    '((cached_seed_height, vm) : Z * Vm) ←
      (let new :=
         vm ← call database (Context.AltChainRxVMReq block_height parent_chain)
                (fun r => match r with Context.AltChainRxVMRes vm => Some vm | _ => None end);
         mret (seed_height, vm) in
       match Context.cached_rx_vm alt_chain_context with
       | Some (cached_seed_height, vm) =>
           if seed_height =? cached_seed_height then mret (cached_seed_height, vm) else new
       | None => new
       end);
    mret (Some vm, with_vm (Some (cached_seed_height, vm)) alt_chain_context).

Definition alt_difficulty_cache (database : Tables) (prev_id : bytes) (alt_chain_context : AltCache)
    : svc (Vm := Vm) (Difficulty.DifficultyCache * AltCache) :=
  match Context.alt_difficulty_cache alt_chain_context with
  | Some cache => mret (cache, alt_chain_context)
  | None =>
      cache ← call database (Context.AltChainDifficultyCacheReq prev_id)
                (fun r => match r with Context.AltChainDifficultyCacheRes cache => Some cache | _ => None end);
      mret (cache, with_difficulty cache alt_chain_context)
  end.

Definition alt_weight_cache (database : Tables) (prev_id : bytes) (alt_chain_context : AltCache)
    : svc (Vm := Vm) (Weights.BlockWeightsCache * AltCache) :=
  match Context.alt_weight_cache alt_chain_context with
  | Some cache => mret (cache, alt_chain_context)
  | None =>
      cache ← call database (Context.AltChainWeightCacheReq prev_id)
                (fun r => match r with Context.AltChainWeightCacheRes cache => Some cache | _ => None end);
      mret (cache, with_weights cache alt_chain_context)
  end.

(** The methods of the caches only panic. *)
Definition cache_res {A} (r : result () A) : svc (Vm := Vm) A := pure (match r with Ok a => Ok a | Err _ | Panic => Panic end).

Definition sanity_check_alt_block (now random_id : Z) (block : Block) (txs : gmap bytes TransactionVerificationData)
    (database : Tables) : svc (Vm := Vm) AltBlockInformation :=
  alt_context_cache ← call database (Context.AltChainContextCacheReq (BlockRules.previous (BlockRules.header block)))
    (fun r => match r with Context.AltChainContextCacheRes cache => Some cache | _ => None end);
  _ ← cons_err match miner_inputs block with
      | [Gen height] =>
          if negb (height =? Context.alt_chain_height alt_context_cache)
          then Err (BlockErr (BlockMinerTxError InputsHeightIncorrect)) else Ok ()
      | _ => Err not_gen
      end;
  '((rx_vm, alt_context_cache) : option Vm * AltCache) ←
    alt_rx_vm database (Context.alt_chain_height alt_context_cache) (BlockRules.hardfork_version (BlockRules.header block))
      (Context.parent_chain alt_context_cache) alt_context_cache;
  prepped_block ← cons_err (new_prepared block rx_vm);
  let prev_id := BlockRules.previous (BlockRules.header (pb_block prepped_block)) in
  '((difficulty_cache, alt_context_cache) : Difficulty.DifficultyCache * AltCache) ←
    alt_difficulty_cache database prev_id alt_context_cache;
  median_timestamp ← cache_res (Difficulty.median_timestamp difficulty_cache Context.BLOCKCHAIN_TIMESTAMP_CHECK_WINDOW);
  _ ← block_err match median_timestamp with
      | Some median_timestamp => BlockRules.check_timestamp (pb_block prepped_block) median_timestamp now
      | None => Ok ()
      end;
  next_difficulty ← cache_res (Difficulty.cache_next_difficulty difficulty_cache (pb_hf_version prepped_block));
  _ ← block_err (check_block_pow (pb_pow_hash prepped_block) next_difficulty);
  let cumulative_difficulty := wrap 128 (Difficulty.cache_cumulative_difficulty difficulty_cache + next_difficulty) in
  ordered_txs ← pure (pull_ordered_transactions (pb_block prepped_block) txs);
  let block_weight := pb_miner_tx_weight prepped_block +! usize_sum (map tvd_tx_weight ordered_txs) in
  '((weight_cache, alt_context_cache) : Weights.BlockWeightsCache * AltCache) ←
    alt_weight_cache database prev_id alt_context_cache;
  median ← cache_res (Weights.median_for_block_reward weight_cache (pb_hf_version prepped_block));
  _ ← block_err (check_block_weight block_weight median);
  median_long_term_weight ← cache_res (Weights.median_long_term_weight weight_cache);
  let long_term_weight :=
    Weights.calculate_block_long_term_weight (pb_hf_version prepped_block) block_weight median_long_term_weight in
  let chain_id := default random_id (Context.chain_id alt_context_cache) in
  let alt_context_cache := with_chain_id chain_id alt_context_cache in
  let block_info := mk_alt_block (pb_block prepped_block) (pb_block_blob prepped_block) (map verified_tx ordered_txs)
    (pb_block_hash prepped_block) (pb_pow_hash prepped_block) (Context.alt_chain_height alt_context_cache) block_weight
    long_term_weight cumulative_difficulty chain_id in
  alt_context_cache ← cache_res (Context.add_new_block alt_context_cache (ab_height block_info) (ab_block_hash block_info)
    (ab_weight block_info) (ab_long_term_weight block_info) (BlockRules.timestamp (BlockRules.header (ab_block block_info)))
    cumulative_difficulty);
  _ ← call database (Context.AddAltChainContextCache alt_context_cache) Some;
  mret block_info.

(** ** Batches of blocks *)

(** The checks on two blocks that follow each other. *)
Definition check_follows (top_hf_in_batch : HardFork) (block_0 block_1 : PreparedBlockExPow) : result ConsensusError () :=
  if hf_lt top_hf_in_batch (ex_hf_version block_0) then Err (BlockErr (BlockHardForkError VersionIncorrect))
  else if negb (bool_decide (ex_block_hash block_0 = BlockRules.previous (BlockRules.header (ex_block block_1))))
          || negb (ex_height block_0 =? ex_height block_1 -! 1)
  then Err (BlockErr PreviousIDIncorrect)
  else Ok ().

(** The loop over [blocks.windows(2)]: the last RandomX seed and the timestamps and forks of
    all blocks but the last. *)
Fixpoint windows_loop (top_hf_in_batch : HardFork) (new_rx_vm : option (Z * bytes)) (timestamps_hfs : list (Z * HardFork))
    (blocks : list PreparedBlockExPow) : result ConsensusError (option (Z * bytes) * list (Z * HardFork)) :=
  match blocks with
  | block_0 :: ((block_1 :: _) as rest) =>
      _ ← check_follows top_hf_in_batch block_0 block_1;
      let new_rx_vm :=
        if is_randomx_seed_height (ex_height block_0) && hf_le V12 top_hf_in_batch
        then Some (ex_height block_0, ex_block_hash block_0) else new_rx_vm in
      windows_loop top_hf_in_batch new_rx_vm
        (timestamps_hfs ++ [(BlockRules.timestamp (BlockRules.header (ex_block block_0)), ex_hf_version block_0)]) rest
  | _ => Ok (new_rx_vm, timestamps_hfs)
  end.

(** One block of the parallel loop; the batch verifier is shared. *)
Definition prepare_block (rng : TransactionVerificationData -> Rng) (rx_vms : gmap Z Vm) (verifier : InternalBatchVerifier)
    (block : PreparedBlockExPow) (difficulty : Z) (txs : list Transaction)
    : EResult ((PreparedBlock * list TransactionVerificationData) * InternalBatchVerifier) :=
  let height := ex_height block in
  block ← map_err ConsErr (new_prepped block (rx_vms !! randomx_seed_height height));
  _ ← map_err (fun e => ConsErr (BlockErr e)) (check_block_pow (pb_pow_hash block) difficulty);
  txs ← map_err ConsErr (prepare [] txs);
  '((txs, verifier) : list TransactionVerificationData * InternalBatchVerifier) ←
    map_err ConsErr (queue rng (pb_hf_version block) verifier txs);
  txs ← order_transactions (pb_block block) txs;
  Ok ((block, txs), verifier).

Definition batch_prepare_main_chain_blocks (rng : TransactionVerificationData -> Rng)
    (blocks : list (Block * list Transaction)) (database : Tables)
    : svc (Vm := Vm) (list (PreparedBlock * list TransactionVerificationData) * BatchPrepareCache) :=
  let txs := blocks.*2 in
  blocks ← cons_err (collect new_ex_pow blocks.*1);
  last_block ← pure (ok_or (last blocks) NoBlocksToVerify);
  let top_hf_in_batch := ex_hf_version last_block in
  '((new_rx_vm, timestamps_hfs) : option (Z * bytes) * list (Z * HardFork)) ←
    cons_err (windows_loop top_hf_in_batch None [] blocks);
  difficulties ← call database (Context.BatchGetDifficulties timestamps_hfs)
    (fun r => match r with Context.BatchDifficulties difficulties => Some difficulties | _ => None end);
  context ← get_context;
  let ctx := Context.context_to_verify_block context in
  first_block ← pure (unwrap (head blocks));
  _ ← cons_err
    (if negb (BlockRules.chain_height ctx =? ex_height first_block) then Err (BlockErr (BlockMinerTxError InputsHeightIncorrect))
     else if negb (bool_decide (BlockRules.top_hash ctx = BlockRules.previous (BlockRules.header (ex_block first_block))))
     then Err (BlockErr PreviousIDIncorrect) else Ok ());
  rx_vms ← (if hf_lt top_hf_in_batch V12 then mret ∅ else current_rx_vms database);
  rx_vms ← match new_rx_vm with
    | Some (new_vm_height, new_vm_seed) =>
        vm ← pure (unwrap (new_vm new_vm_seed));
        _ ← call database (Context.NewRXVM (new_vm_seed, vm)) Some;
        mret (<[new_vm_height := vm]> rx_vms)
    | None => mret rx_vms
    end;
  blocks ← pure
    ('((res, verifier) : list (PreparedBlock * list TransactionVerificationData) * InternalBatchVerifier) ←
       try_fold (fun '((res, verifier) : list (PreparedBlock * list TransactionVerificationData) * InternalBatchVerifier) p =>
         let '((block, difficulty), txs) := p in
         '((b, verifier) : (PreparedBlock * list TransactionVerificationData) * InternalBatchVerifier) ←
           prepare_block rng rx_vms verifier block difficulty txs;
         Ok (res ++ [b], verifier)) ([], batch_new) (zip (zip blocks difficulties) txs);
     if negb (batch_valid verifier) then Err OneOrMoreBatchVerificationStatementsInvalid else Ok res);
  let all_txs := blocks ≫= snd in
  _ ← pure (check_kis_unique all_txs database);
  output_cache ← pure (get_output_cache all_txs database);
  mret (blocks, mk_prepare_cache output_cache true).

End verify.
End BlockVerification.
