(* ===== verification/BlockVerifyFacts.v ===== *)
(** * What block verification shows

    A block that passes [BlockVerification.verify_prepped_main_chain_block] against the
    context and the tables of a chain extends that chain: the chain with the block at its
    top is again one the database can hold and the context can follow. *)
From S2P Require Import Prelude Bytes HardForks Median ChainDb Difficulty RulesBase TxData TxRules TxContext BlockRules Weights HardForkState RxVms Context Helpers DbTables TxOps TxStore AltBlocks BlockOps ChainStore BlockchainService ChainReads TxVerification TxVerifyFacts BlockVerification.
From Stdlib Require Import ZArith Lia String.
From stdpp Require Import base tactics option list numbers sets gmap.
Import HardForks ChainDb RulesBase TxData TxRules TxContext Helpers DbTables TxOps TxStore AltBlocks BlockOps ChainStore BlockchainService ChainReads TxVerification TxVerifyFacts BlockVerification.

#[local] Open Scope Z_scope.
#[local] Open Scope usize_scope.

Module BlockVerifyFacts.

Section facts.
Context {O : MoneroOxide} {T : TransactionOps O} {C : Dalek O} {Cd : MoneroCodec O} {B : MoneroBatch O}.
Context {Vm : Type} {P : BlockPow O Vm} (new_vm : bytes -> option Vm).
Context {ML : MoneroOxideLaws O T}.

(** ** Data from the wire *)

(** What reading a transaction from its bytes guarantees ([monero_oxide]). *)
Record tx_wire (tx : Transaction) : Prop := {
  tw_typed : tx_typed tx;
  tw_shape : tx_shape tx;
  tw_read : tx_read (tx_serialize tx) = Some tx;
  tw_lock : timelock_ok (additional_timelock (prefix tx));
  tw_weight : tx_weight tx = tx_weight_of tx (tx_serialize tx);
}.

(** What reading a block guarantees. *)
Record block_wire (b : BlockRules.Block) : Prop := {
  bw_new : block_new (BlockRules.header b) (BlockRules.miner_transaction b) (BlockRules.transactions b) = Some b;
  bw_header : header_read (header_serialize (BlockRules.header b)) = Some (BlockRules.header b);
  bw_miner : tx_wire (BlockRules.miner_transaction b);
  bw_format : block_serialize b =
    header_serialize (BlockRules.header b) ++ tx_serialize (BlockRules.miner_transaction b)
    ++ varint_write (len (BlockRules.transactions b)) ++ concat (BlockRules.transactions b);
  bw_read : block_read (block_serialize b) = Some b /\ header_read (block_serialize b) = Some (BlockRules.header b);
}.

(** A transaction with inputs, all of which are spends. *)
Definition spends (tx : Transaction) : Prop :=
  inputs (prefix tx) <> [] /\ Forall (fun inp => is_gen inp = false) (inputs (prefix tx)).

(** A transaction as the node prepares it: read from its bytes; when its cached state says
    it was verified before, it has passed the semantic rules, of which one matters here. *)
Record prepared (x : TransactionVerificationData) : Prop := {
  pr_new : exists x0, new_tx_verification_data (tvd_tx x) = Ok x0 /\ x = with_state (cached_verification_state x) x0;
  pr_wire : tx_wire (tvd_tx x);
  pr_cached : cached_verification_state x <> NotVerified -> spends (tvd_tx x);
}.

Lemma sum_fee_inputs_checked {E E'} (e : E') ins f r :
  Forall (fun inp => is_gen inp = false) ins ->
  try_fold (fun fee input =>
    match input with
    | ToKey amount _ _ => ok_or (checked_add 64 fee (default 0 amount)) e
    | Gen _ => Ok fee
    end) f ins = Ok r -> sum_fee_inputs (E := E) f ins = Ok (Some r).
Proof using Type.
  intros H. revert f. induction H as [|inp ins Hi _ IH]; intros f; cbn [try_fold sum_fee_inputs]; [by intros [= <-]|].
  destruct inp as [h|amount os ki]; [done|]. destruct (checked_add 64 f (default 0 amount)) as [f'|]; [|done]. apply IH.
Qed.

Lemma sub_outputs_checked {E E'} (e : E') outs f r :
  try_fold (fun fee output => ok_or (checked_sub fee (default 0 (out_amount output))) e) f outs = Ok r ->
  try_fold (fun fee output => unwrap (E := E) (checked_sub fee (default 0 (out_amount output)))) f outs = Ok r.
Proof using Type.
  revert f. induction outs as [|o outs IH]; intros f; cbn [try_fold]; [by intros [= <-]|].
  destruct (checked_sub f _) as [f'|]; cbn [ok_or unwrap mbind result_bind]; [apply IH|done].
Qed.

Lemma tx_fee_checked {E} tx f : spends tx -> checked_tx_fee tx = Ok f -> tx_fee (E := E) tx = Ok f.
Proof using Type.
  intros [_ Hs]. destruct tx as [p sg|p [proofs|]]; cbn [checked_tx_fee tx_fee prefix] in *; cbn [ok_or unwrap mbind result_bind]; [|by intros [= <-]|done].
  destruct (try_fold _ 0 (inputs p)) as [g|?|] eqn:Ef; try done. cbn [mbind result_bind]. apply (sum_fee_inputs_checked (E := E)) in Ef; [|done].
  rewrite Ef. cbn [mbind result_bind]. apply sub_outputs_checked.
Qed.

(** What the database keeps of a transaction is what verification computed. *)
Lemma prepared_popped x : prepared x -> spends (tvd_tx x) -> popped_tx (tvd_tx x) = Ok (verified_tx x).
Proof using Type.
  intros [(x0 & Hn & Hx) Hw _] Hs. unfold new_tx_verification_data in Hn.
  destruct (checked_tx_fee (tvd_tx x)) as [f|?|] eqn:Ef; try done. cbn [map_err mbind result_bind] in Hn.
  destruct (from_raw (version (tvd_tx x))) as [v|]; [|done]. cbn [ok_or map_err mbind result_bind] in Hn. injection Hn as <-.
  unfold popped_tx. rewrite (tx_fee_checked _ _ Hs Ef). cbn [mbind result_bind]. rewrite Hx. unfold verified_tx. cbn. by rewrite (tw_weight _ Hw).
Qed.

Lemma prepared_fields x : prepared x -> tvd_tx_hash x = tx_hash (tvd_tx x) /\ tvd_tx_blob x = tx_serialize (tvd_tx x).
Proof using Type.
  intros [(x0 & Hn & Hx) _ _]. unfold new_tx_verification_data in Hn.
  destruct (checked_tx_fee (tvd_tx x)) as [f|?|]; try done. cbn [map_err mbind result_bind] in Hn.
  destruct (from_raw (version (tvd_tx x))) as [v|]; [|done]. cbn [ok_or map_err mbind result_bind] in Hn. injection Hn as <-.
  by rewrite Hx.
Qed.

(** A transaction that was not verified before has spends when it passes the semantic rules. *)
Lemma semantic_spends rng hf x : tx_typed (tvd_tx x) -> semantic_ok rng hf x -> spends (tvd_tx x).
Proof using ML.
  intros Ht (v & v' & H). unfold semantic in H. destruct (check_transaction_semantic _ _ _ _ _ _ _) as [r v2] eqn:Er.
  destruct r as [f|?|]; try done. pose proof (proj1 (check_transaction_semantic_Ok (tvd_tx x) (len (tvd_tx_blob x)) (tvd_tx_weight x) (tvd_tx_hash x) hf (rng x) v f Ht)) as Hs. rewrite Er in Hs.
  destruct (Hs eq_refl) as (_ & _ & so & si & _ & (Hne & Hi & _) & _). split; [done|].
  apply (List.Forall_impl _ (P := input_rule hf)); [|done]. by intros inp (a & os & ki & -> & _).
Qed.

(** The transactions of a block that was verified. *)
Lemma verify_transactions_ok rng chain t txs h top time hf txs' :
  stores chain t -> Forall prepared txs -> verify rng txs h top time hf t None = Ok txs' ->
  map verified_tx txs' = map verified_tx txs /\ Forall (fun x => spends (tvd_tx x)) txs /\
  NoDup (txs ≫= kis) /\ (forall k, k ∈ txs ≫= kis -> k ∉ all_kis (chain_txs chain)).
Proof using ML.
  intros Hst Hp Hv. destruct (full_verification_spec rng chain t txs h top time hf txs' Hst Hv) as (K1 & K2 & Hf).
  assert (Forall2 (fun x x' => verified_tx x' = verified_tx x /\ spends (tvd_tx x)) txs txs') as Hf2.
  { clear -Hf Hp ML. induction Hf as [|x x' txs txs' (n & Hn & Hpa & _) _ IH]; [constructor|].
    apply List.Forall_cons_iff in Hp as [Hx Hp]. constructor; [|by apply IH].
    assert (cached_verification_state x = NotVerified -> n = SemanticAndContextual) as Hnv.
    { intros E. unfold needed_for in Hn. rewrite E in Hn. by injection Hn as <-. }
    destruct (cached_verification_state x) eqn:Es.
    1:{ rewrite (Hnv eq_refl) in Hpa. destruct Hpa as [Hs (info & _ & ->)]. split; [done|]. by eapply semantic_spends; [apply (tw_typed _ (pr_wire _ Hx))|]. }
    all: split; [destruct n; [by rewrite Hpa|destruct Hpa as [_ (i & _ & ->)]; done|destruct Hpa as (i & _ & ->); done|by rewrite Hpa]|].
    all: apply (pr_cached _ Hx); by rewrite Es. }
  split_and!; [| |done|done].
  - clear -Hf2. induction Hf2 as [|x x' txs txs' [Hx _] _ IH]; [done|]. cbn. by rewrite Hx, IH.
  - clear -Hf2. induction Hf2 as [|x x' txs txs' [_ Hx] _ IH]; constructor; done.
Qed.

(** ** Consensus chains *)
Context (cfg : Context.ContextConfig).

(** What block verification computed for a block on top of the chain [past]. *)
Record block_facts (past : list VerifiedBlockInformation) (b : VerifiedBlockInformation) : Prop := {
  bf_hash : vb_block_hash b = hash_of_block (block b);
  bf_blob : block_blob b = block_serialize (block b);
  bf_miner : miner_inputs (block b) = [Gen (vb_height b)];
  bf_txs : Forall (fun x => spends (v_tx x)) (txs b);
  bf_coins : generated_coins b =
    usize_sum (map (fun o => default 0 (out_amount o)) (outputs (prefix (BlockRules.miner_transaction (block b)))))
    -! usize_sum (map v_fee (txs b));
  bf_version : from_version (BlockRules.hardfork_version (BlockRules.header (block b)))
               = Ok (HardForkState.fork_at (Context.hard_fork_cfg cfg) (len past));
  bf_previous : past <> [] -> BlockRules.previous (BlockRules.header (block b)) = Context.top_hash_of (map chain_block past);
  bf_context : past <> [] -> exists ctx, Context.context_of cfg (map chain_block past) = Ok ctx /\
    vb_long_term_weight b = Context.next_block_long_term_weight ctx (weight b) /\
    vb_cumulative_difficulty b = wrap 128 (Context.ctx_cumulative_difficulty ctx
      + BlockRules.next_difficulty (Context.context_to_verify_block ctx));
}.

Record consensus_chain (chain : list VerifiedBlockInformation) : Prop := {
  cc_valid : valid_chain chain;
  cc_facts : forall i b, chain !! i = Some b -> block_facts (take i chain) b;
}.

(** The hash functions do not collide on these transactions and blocks. *)
Definition no_tx_collision (l : list Transaction) : Prop := forall x y, x ∈ l -> y ∈ l -> tx_hash x = tx_hash y -> x = y.
Definition no_block_collision (l : list BlockRules.Block) : Prop :=
  forall x y, x ∈ l -> y ∈ l -> hash_of_block x = hash_of_block y -> x = y.

(** The transactions of a block and of a chain. *)
Lemma block_txs_cases b x : x ∈ block_txs b -> block_sound b ->
  s_hash x = tx_hash (s_tx x) /\ (s_tx x = BlockRules.miner_transaction (block b) \/ exists y, y ∈ txs b /\ s_tx x = v_tx y).
Proof using Type.
  unfold block_txs. rewrite elem_of_cons. intros [->|Hx] Hs; [split; [done|by left]|].
  apply list_elem_of_fmap in Hx as (y & -> & Hy). cbn. pose proof (bs_txs _ Hs) as Ht. rewrite Forall_forall in Ht.
  destruct (Ht y Hy) as (_ & _ & Hp). unfold popped_tx in Hp. destruct (tx_fee (v_tx y)) as [f|?|]; try done. cbn [mbind result_bind] in Hp.
  injection Hp as Hp. split; [by rewrite <- Hp|right; by exists y].
Qed.

Lemma chain_tx_cases chain x : consensus_chain chain -> x ∈ chain_txs chain ->
  s_hash x = tx_hash (s_tx x) /\
  ((exists h, 0 <= h < len chain /\ inputs (prefix (s_tx x)) = [Gen h]) \/ spends (s_tx x)).
Proof using Type.
  intros [Hv Hf] Hx. unfold chain_txs in Hx. apply list_elem_of_bind in Hx as (b & Hx & Hb).
  pose proof (vc_sound _ Hv) as Hs. rewrite Forall_forall in Hs. specialize (Hs b Hb).
  apply list_elem_of_lookup in Hb as [i Hi]. pose proof (Hf i b Hi) as Hbf. pose proof (vc_heights _ Hv i b Hi) as Hh.
  apply lookup_lt_Some in Hi. destruct (block_txs_cases b x Hx Hs) as [He [Hm|(y & Hy & Hxy)]]; (split; [done|]).
  - left. exists (vb_height b). split; [rewrite Hh; unfold len; lia|]. rewrite Hm. apply (bf_miner _ _ Hbf).
  - right. rewrite Hxy. pose proof (bf_txs _ _ Hbf) as Ht. rewrite Forall_forall in Ht. by apply Ht.
Qed.

Lemma spends_not_gen tx h : spends tx -> inputs (prefix tx) <> [Gen h].
Proof using Type. intros [_ Hs] E. rewrite E in Hs. by apply List.Forall_inv in Hs. Qed.

Lemma spends_kis tx : spends tx -> exists k, k ∈ kis_of tx.
Proof using Type.
  intros [Hne Hs]. unfold kis_of. destruct (inputs (prefix tx)) as [|[h|a os ki] ins]; [done|by apply List.Forall_inv in Hs|].
  exists (to_bytes ki). cbn. by left.
Qed.

Lemma gen_kis tx h : inputs (prefix tx) = [Gen h] -> kis_of tx = [].
Proof using Type. intros E. unfold kis_of. by rewrite E. Qed.

(** ** What [check_block] leaves *)
Lemma reward_u64 {E} w m coins hf r : BlockRules.calculate_block_reward (E := E) w m coins hf = Ok r -> is_u 64 (BlockRules.calculate_base_reward coins hf) -> is_u 64 r.
Proof using Type.
  unfold BlockRules.calculate_block_reward. intros H Hb. destruct (w <=? m); [by injection H as <-|]. destruct (Z.eqb_spec m 0) as [|Hm]; [done|].
  set (q := wrap 128 _ / m / m) in *. destruct (Z.leb_spec q u64_MAX) as [Hq|]; [|done]. injection H as <-. split; [|zlia].
  assert (0 <= wrap 128 (BlockRules.calculate_base_reward coins hf * (((2 *! m) -! w) *! w))) as Hw by (unfold wrap; apply Z.mod_pos_bound; lia).
  unfold q. set (x := wrap 128 _) in *. clearbody x. destruct (decide (0 < m)) as [Hp|Hp]; [apply Z.div_pos; [by apply Z.div_pos|lia]|].
  assert (x / m <= 0) as Hx by (rewrite <- (Z.div_opp_opp x m) by lia; apply Z.div_le_upper_bound; lia).
  rewrite <- (Z.div_opp_opp (x / m) m) by lia. apply Z.div_pos; lia.
Qed.

Lemma base_reward_u64 coins hf : is_u 64 (BlockRules.calculate_base_reward coins hf).
Proof using Type.
  unfold BlockRules.calculate_base_reward. generalize (20 -! (block_time hf / 60 -! 1)) as n. intros n.
  set (c := BlockRules.MINIMUM_REWARD_PER_MIN *! (block_time hf / 60)).
  assert (is_u 64 c) as Hc by (unfold c, wrap, is_u; apply Z.mod_pos_bound; lia).
  assert (is_u 64 (shr 64 (BlockRules.MONEY_SUPPLY -! coins) n)) as Hs.
  { unfold shr. assert (is_u 64 (BlockRules.MONEY_SUPPLY -! coins)) as Ha by (unfold wrap, is_u; apply Z.mod_pos_bound; lia).
    set (a := BlockRules.MONEY_SUPPLY -! coins) in *. rewrite Z.shiftr_div_pow2 by (apply Z.mod_pos_bound; lia). unfold is_u in *.
    pose proof (Z.pow_pos_nonneg 2 (n mod 64) ltac:(lia) ltac:(apply Z.mod_pos_bound; lia)) as Hp.
    split; [apply Z.div_pos; lia|]. apply Z.div_lt_upper_bound; [lia|]. nia. }
  unfold is_u in *. lia.
Qed.

Lemma miner_sum_usize outs hf ver s :
  Forall (fun o => is_u 64 (default 0 (out_amount o))) outs -> BlockRules.miner_sum_outputs outs hf ver = Ok s ->
  s = usize_sum (map (fun o => default 0 (out_amount o)) outs).
Proof using Type.
  intros Hu. unfold BlockRules.miner_sum_outputs, usize_sum. set (f := fun sum out => _). set (g := fun a b => a +! b).
  enough (forall a, is_u 64 a -> try_fold f a outs = Ok s -> s = foldl g a (map (fun o => default 0 (out_amount o)) outs)) as H by (apply H; zlia).
  induction Hu as [|o outs Ho _ IH]; intros a Ha; cbn [try_fold map foldl]; [by intros [= <-]|].
  destruct (f a o) as [r|?|] eqn:Ef; try done. cbn [mbind result_bind]. unfold f in Ef. apply bind_Ok in Ef as (? & _ & Ef). unfold checked_add in Ef.
  destruct (a + default 0 (out_amount o) <? 2 ^ 64) eqn:E; [|done]. injection Ef as <-. bsimp.
  intros H. replace (g a (default 0 (out_amount o))) with (a + default 0 (out_amount o)) by (unfold g; rewrite wrap_small; [done|unfold is_u in *; lia]).
  apply IH; [unfold is_u in *; lia|done].
Qed.

Lemma check_block_leaves blk fees w bl ctx now v coins :
  Forall (fun o => is_u 64 (default 0 (out_amount o))) (outputs (prefix (BlockRules.miner_transaction blk))) -> is_u 64 fees ->
  BlockRules.check_block blk fees w bl ctx now = Ok (v, coins) ->
  from_version (BlockRules.hardfork_version (BlockRules.header blk)) = Ok (BlockRules.current_hf ctx) /\
  NoDup (BlockRules.transactions blk) /\ miner_inputs blk = [Gen (BlockRules.chain_height ctx)] /\
  BlockRules.previous (BlockRules.header blk) = BlockRules.top_hash ctx /\
  coins = usize_sum (map (fun o => default 0 (out_amount o)) (outputs (prefix (BlockRules.miner_transaction blk)))) -! fees.
Proof using Type.
  intros Hu Hf H. unfold BlockRules.check_block in H.
  destruct (from_block_header _ _) as [[ver vote]|?|] eqn:Eh; try done. cbn [map_err mbind result_bind] in H.
  destruct (check_block_version_vote _ ver vote) as [[]|?|] eqn:Ev; try done. cbn [map_err mbind result_bind] in H.
  destruct (match BlockRules.median_block_timestamp ctx with Some _ => _ | None => _ end) as [[]|?|]; try done. cbn [mbind result_bind] in H.
  destruct (BlockRules.check_prev_id _ _) as [[]|?|] eqn:Ep; try done. cbn [mbind result_bind] in H.
  destruct (check_block_weight _ _) as [[]|?|]; try done. cbn [mbind result_bind] in H.
  destruct (block_size_sanity_check _ _) as [[]|?|]; try done. cbn [mbind result_bind] in H.
  destruct (check_amount_txs _) as [[]|?|]; try done. cbn [mbind result_bind] in H.
  destruct (BlockRules.check_txs_unique _) as [[]|?|] eqn:Eu; try done. cbn [mbind result_bind] in H.
  destruct (BlockRules.check_miner_tx _ _ _ _ _ _ _) as [g|?|] eqn:Em; try done. cbn [map_err mbind result_bind] in H. injection H as _ <-.
  apply BlockRules.check_txs_unique_Ok in Eu. pose proof (proj1 (BlockRules.version_vote_Ok _ _ _ ver vote Eh) Ev) as [Hver _].
  unfold BlockRules.check_miner_tx in Em. destruct (from_raw _) as [tv|]; [|done]. cbn [ok_or mbind result_bind] in Em.
  destruct (BlockRules.check_miner_tx_version _ _) as [[]|?|]; try done. cbn [mbind result_bind] in Em.
  destruct (match BlockRules.miner_transaction blk with Tx_V1 _ _ => _ | Tx_V2 _ _ => _ end) as [[]|?|]; try done. cbn [mbind result_bind] in Em.
  destruct (BlockRules.check_time_lock _ _) as [[]|?|]; try done. cbn [mbind result_bind] in Em.
  destruct (BlockRules.check_inputs _ _) as [[]|?|] eqn:Ei; try done. cbn [mbind result_bind] in Em. apply BlockRules.check_inputs_Ok in Ei.
  destruct (check_output_types _ _) as [[]|?|]; try done. cbn [map_err mbind result_bind] in Em.
  destruct (BlockRules.calculate_block_reward _ _ _ _) as [r|?|] eqn:Er; try done. cbn [mbind result_bind] in Em.
  destruct (BlockRules.miner_sum_outputs _ _ _) as [total|?|] eqn:Es; try done. cbn [mbind result_bind] in Em.
  apply miner_sum_usize in Es; [|done]. rewrite <- Es. apply reward_u64 in Er; [|apply base_reward_u64]. split_and!; [|done|done| |].
  - rewrite Hver. unfold from_version. by rewrite from_repr_as_u8.
  - unfold BlockRules.check_prev_id in Ep. by case_bool_decide.
  - unfold BlockRules.check_total_output_amt in Em. destruct (_ || _).
    + destruct (Z.eqb_spec total (r +! fees)) as [->|]; [|done]. injection Em as <-. unfold wrap, is_u in *.
      rewrite Zminus_mod_idemp_l. replace (r + fees - fees) with r by lia. by rewrite Z.mod_small.
    + destruct (_ || _); [done|]. by injection Em as <-.
Qed.

(** ** The verified block *)
Lemma zip_hashes hashes txs :
  len hashes = len txs -> forallb (fun p : bytes * TransactionVerificationData => bool_decide (p.1 = tvd_tx_hash p.2)) (zip hashes txs) = true ->
  hashes = map tvd_tx_hash txs.
Proof using Type.
  unfold len. revert txs. induction hashes as [|h hashes IH]; intros [|x txs] Hl H; [done|done|done|]. cbn in H. apply andb_true_iff in H as [H1 H2].
  apply bool_decide_eq_true_1 in H1. cbn in H1. cbn. rewrite H1, <- (IH txs); [done| |done]. cbn in Hl. lia.
Qed.

(** The block built from a prepared block with these transactions. *)
Definition built (context : Context.BlockchainContext) (pb : PreparedBlock) (txs : list TransactionVerificationData) (coins : Z)
    : VerifiedBlockInformation :=
  let w := pb_miner_tx_weight pb +! usize_sum (map tvd_tx_weight txs) in
  mk_verified_block (pb_block pb) (pb_block_blob pb) (map verified_tx txs) (pb_block_hash pb) (pb_pow_hash pb)
    (BlockRules.chain_height (Context.context_to_verify_block context)) coins w (Context.next_block_long_term_weight context w)
    (wrap 128 (Context.ctx_cumulative_difficulty context + BlockRules.next_difficulty (Context.context_to_verify_block context))).

Lemma verified_fields txs txs' :
  map verified_tx txs' = map verified_tx txs ->
  map tvd_tx_weight txs' = map tvd_tx_weight txs /\ map tvd_fee txs' = map tvd_fee txs.
Proof using Type.
  revert txs'. induction txs as [|x txs IH]; intros [|x' txs'] H; try done. cbn in H. injection H as H1 H2 H3 H4 H5 H. apply IH in H as [Hw Hf].
  cbn. by rewrite H3, H4, Hw, Hf.
Qed.

Lemma verify_prepped_Ok rng now chain t pb txs (c : Context.ContextTask Vm) b cache c' :
  stores chain t -> Forall prepared txs ->
  verify_prepped_main_chain_block rng now pb txs t None c = (Ok (b, cache), c') ->
  let context := Context.context_cache c in
  c' = c /\ BlockRules.transactions (pb_block pb) = map tvd_tx_hash txs /\
  Forall (fun x => spends (tvd_tx x)) txs /\ NoDup (txs ≫= kis) /\ (forall k, k ∈ txs ≫= kis -> k ∉ all_kis (chain_txs chain)) /\
  exists v coins, b = built context pb txs coins /\
    BlockRules.check_block (pb_block pb) (usize_sum (map tvd_fee txs)) (pb_miner_tx_weight pb +! usize_sum (map tvd_tx_weight txs))
      (len (pb_block_blob pb)) (Context.context_to_verify_block context) now = Ok (v, coins).
Proof using ML.
  intros Hst Hp H context. unfold verify_prepped_main_chain_block, mbind, svc_bind, get_context, block_err, pure in H. fold context in H.
  destruct (check_block_pow _ _) as [[]|?|]; try done. cbn [map_err] in H.
  destruct (Z.eqb_spec (len (BlockRules.transactions (pb_block pb))) (len txs)) as [Hl|]; [|done]. cbn [negb] in H.
  assert (exists txs', map verified_tx txs' = map verified_tx txs /\ BlockRules.transactions (pb_block pb) = map tvd_tx_hash txs /\
    Forall (fun x => spends (tvd_tx x)) txs /\ NoDup (txs ≫= kis) /\ (forall k, k ∈ txs ≫= kis -> k ∉ all_kis (chain_txs chain)) /\
    exists v coins, BlockRules.check_block (pb_block pb) (usize_sum (map tvd_fee txs')) (pb_miner_tx_weight pb +! usize_sum (map tvd_tx_weight txs'))
      (len (pb_block_blob pb)) (Context.context_to_verify_block context) now = Ok (v, coins) /\ c' = c /\ b = built context pb txs' coins) as Hfin.
  { case_bool_decide as Hn.
    - exists txs. rewrite Hn in Hl. destruct txs; [|done]. split_and!; [done|done|constructor|constructor|intros k Hk; by apply not_elem_of_nil in Hk|].
      destruct (BlockRules.check_block _ _ _ _ _ _) as [[v coins]|?|] eqn:Ec; try done. cbn [map_err] in H. exists v, coins. by injection H as <- _ <-.
    - destruct (forallb _ (zip _ txs)) eqn:Ez; [|done]. cbn [negb] in H. unfold prepare in H. cbn [collect mbind result_bind map_err] in H. rewrite app_nil_r in H.
      destruct (match Context.current_adjusted_timestamp_for_time_lock context now with Ok _ => _ | _ => _ end) as [time|?|]; try done.
      cbn [result_bind] in H. destruct (verify rng txs _ _ time _ t None) as [txs'|?|] eqn:Ev; try done.
      destruct (verify_transactions_ok rng chain t txs _ _ _ _ txs' Hst Hp Ev) as (V1 & V2 & V3 & V4). exists txs'.
      split_and!; [done|by apply zip_hashes|done|done|done|].
      destruct (BlockRules.check_block _ _ _ _ _ _) as [[v coins]|?|] eqn:Ec; try done. cbn [map_err] in H. exists v, coins. by injection H as <- _ <-. }
  destruct Hfin as (txs' & E1 & E2 & E3 & E4 & E5 & v & coins & Hc & -> & ->). destruct (verified_fields txs txs' E1) as [Ew Ef].
  split_and!; [done|done|done|done|done|]. exists v, coins. rewrite <- Ew, <- Ef. split; [|done]. unfold built. by rewrite E1, Ew.
Qed.

(** ** The chain with the block *)
Lemma context_fields chain ctx :
  Context.context_of cfg (map chain_block chain) = Ok ctx ->
  BlockRules.chain_height (Context.context_to_verify_block ctx) = len chain /\
  BlockRules.current_hf (Context.context_to_verify_block ctx) = HardForkState.fork_at (Context.hard_fork_cfg cfg) (len chain) /\
  BlockRules.top_hash (Context.context_to_verify_block ctx) = Context.top_hash_of (map chain_block chain).
Proof using Type.
  unfold Context.context_of, Context.context_with, Context.blockchain_context. rewrite len_map. intros H. inv_ok. by simplify_eq.
Qed.

Section extend.
Context (chain : list VerifiedBlockInformation) (Hcc : consensus_chain chain).
Context (ctx : Context.BlockchainContext) (Hctx : Context.context_of cfg (map chain_block chain) = Ok ctx).
Context (pb : PreparedBlock) (pb_hash : pb_block_hash pb = hash_of_block (pb_block pb)) (pb_blob : pb_block_blob pb = block_serialize (pb_block pb)).
Context (txs : list TransactionVerificationData) (Hwire : block_wire (pb_block pb)) (Hp : Forall prepared txs).
Context (Hhashes : BlockRules.transactions (pb_block pb) = map tvd_tx_hash txs).
Context (Hspends : Forall (fun x => spends (tvd_tx x)) txs) (K1 : NoDup (txs ≫= kis)).
Context (K2 : forall k, k ∈ txs ≫= kis -> k ∉ all_kis (chain_txs chain)).
Context (Hct : no_tx_collision (map s_tx (chain_txs chain) ++ BlockRules.miner_transaction (pb_block pb) :: map tvd_tx txs)).
Context (Hcb : no_block_collision (pb_block pb :: map block chain)).
Context (v : HardFork) (coins now : Z).
Context (Hcheck : BlockRules.check_block (pb_block pb) (usize_sum (map tvd_fee txs)) (pb_miner_tx_weight pb +! usize_sum (map tvd_tx_weight txs))
  (len (pb_block_blob pb)) (Context.context_to_verify_block ctx) now = Ok (v, coins)).
#[local] Abbreviation new := (built ctx pb txs coins).
Context (Hlen : len chain + 1 < 2 ^ 32) (Hroom : len (all_outs (chain_txs (chain ++ [new]))) < 2 ^ 64).

Lemma usize_sum_u64 l : is_u 64 (usize_sum l).
Proof using Type.
  unfold usize_sum. assert (is_u 64 0) as H by zlia. revert H. generalize 0 as a. induction l as [|x l IH]; intros a Ha; [done|]. cbn. apply IH.
  unfold wrap, is_u. apply Z.mod_pos_bound. lia.
Qed.

Lemma new_facts : block_facts chain new /\ NoDup (BlockRules.transactions (pb_block pb)).
Proof using Hcheck Hctx Hspends Hwire pb_blob pb_hash.
  destruct (context_fields chain ctx Hctx) as (F1 & F2 & F3).
  destruct (check_block_leaves (pb_block pb) _ _ _ _ now v coins (proj1 (tw_typed _ (bw_miner _ Hwire))) (usize_sum_u64 _) Hcheck) as (L1 & L2 & L3 & L5 & L4).
  split; [|done]. split; cbn [vb_block_hash block block_blob vb_height AltBlocks.txs generated_coins weight vb_long_term_weight vb_cumulative_difficulty built].
  - done.
  - done.
  - done.
  - apply Forall_map, (List.Forall_impl _ (P := fun x => spends (tvd_tx x))); done.
  - rewrite L4. f_equal. f_equal. by rewrite map_map.
  - by rewrite L1, F2.
  - intros _. by rewrite L5, F3.
  - intros _. by exists ctx.
Qed.

Lemma new_block_txs : map s_tx (block_txs new) = BlockRules.miner_transaction (pb_block pb) :: map tvd_tx txs /\
  map s_hash (block_txs new) = map tx_hash (map s_tx (block_txs new)).
Proof using Hp.
  unfold block_txs, built. cbn [block AltBlocks.txs map s_tx s_hash]. rewrite !map_map. cbn. split; [done|]. f_equal.
  apply map_ext_in. intros x Hx%list_elem_of_In. rewrite Forall_forall in Hp. apply (prepared_fields x (Hp x Hx)).
Qed.

Lemma new_kis : all_kis (block_txs new) = txs ≫= kis.
Proof using Hcheck Hctx Hspends Hwire pb_blob pb_hash.
  unfold all_kis, block_txs, built. cbn [block AltBlocks.txs mbind list_bind s_tx]. pose proof (gen_kis _ _ (bf_miner _ _ (proj1 new_facts))) as Hm.
  cbn [block built] in Hm. rewrite Hm. cbn [app vb_height]. clear. induction txs as [|x l IH]; [done|]. cbn [map mbind list_bind]. by rewrite IH.
Qed.

Lemma new_hash_fresh : vb_block_hash new ∉ map vb_block_hash chain.
Proof using Hcb Hcc Hcheck Hctx Hspends Hwire pb_blob pb_hash.
  intros (b & Hb & Hin)%list_elem_of_fmap. pose proof Hin as Hin'. apply list_elem_of_lookup in Hin as [i Hi].
  pose proof (cc_facts _ Hcc i b Hi) as Hf. pose proof (vc_heights _ (cc_valid _ Hcc) i b Hi) as Hh. apply lookup_lt_Some in Hi.
  destruct (context_fields chain ctx Hctx) as (F1 & _ & _). pose proof (proj1 new_facts) as Hn.
  assert (pb_block pb = block b) as He.
  { apply Hcb; [by left|right; by apply list_elem_of_fmap_2|]. rewrite (bf_hash _ _ Hf) in Hb. rewrite <- Hb. symmetry. exact (bf_hash _ _ Hn). }
  pose proof (bf_miner _ _ Hn) as M1. cbn [block vb_height built] in M1. rewrite He, (bf_miner _ _ Hf), Hh, F1 in M1. injection M1. unfold len. lia.
Qed.

(** No transaction of the block is in the chain. *)
Lemma new_tx_fresh x y : x ∈ block_txs new -> y ∈ chain_txs chain -> s_hash x <> s_hash y.
Proof using Hcc Hcheck Hct Hctx Hp Hspends Hwire K2 pb_blob pb_hash.
  intros Hx Hy E. destruct (chain_tx_cases chain y Hcc Hy) as [Hhy Hcy]. destruct new_block_txs as [Ht Hh].
  assert (s_hash x = tx_hash (s_tx x)) as Hhx.
  { apply list_elem_of_lookup in Hx as [i Hi]. pose proof (f_equal (fun l => l !! i) Hh) as Hl. cbv beta in Hl. rewrite !list_lookup_fmap, Hi in Hl. by injection Hl. }
  assert (s_tx x ∈ BlockRules.miner_transaction (pb_block pb) :: map tvd_tx txs) as Hxi by (rewrite <- Ht; by apply list_elem_of_fmap_2).
  assert (s_tx x = s_tx y) as He.
  { apply Hct; [apply elem_of_app; by right|apply elem_of_app; left; by apply list_elem_of_fmap_2|congruence]. }
  destruct (context_fields chain ctx Hctx) as (F1 & _ & _). apply elem_of_cons in Hxi as [Hm|Hxi].
  - pose proof (bf_miner _ _ (proj1 new_facts)) as M1. cbn [block vb_height built] in M1. unfold miner_inputs in M1. rewrite <- Hm, He, F1 in M1.
    destruct Hcy as [(h & Hb & Hg)|Hs]; [|by apply (spends_not_gen _ _ Hs) in M1]. rewrite M1 in Hg. injection Hg as Hg. lia.
  - apply list_elem_of_fmap in Hxi as (z & Hz & Hin). rewrite Forall_forall in Hspends. pose proof (Hspends z Hin) as Hsz.
    destruct (spends_kis _ Hsz) as [k Hk]. apply (K2 k).
    + apply list_elem_of_bind. by exists z.
    + unfold all_kis. apply list_elem_of_bind. exists y. split; [|done]. by rewrite <- He, Hz.
Qed.

Lemma new_sound : block_sound new.
Proof using Hcheck Hctx Hhashes Hp Hspends Hwire pb_blob pb_hash.
  pose proof (proj1 new_facts) as Hn. pose proof (bw_miner _ Hwire) as Hm. split; cbn [block AltBlocks.txs built vb_cumulative_difficulty].
  - rewrite Hhashes, map_map. done.
  - apply (bw_new _ Hwire).
  - apply (bw_header _ Hwire).
  - split; [apply (tw_shape _ Hm)|apply (tw_read _ Hm)].
  - apply Forall_map, Forall_forall. intros x Hx. rewrite Forall_forall in Hp, Hspends. cbn. split_and!.
    + apply (tw_shape _ (pr_wire _ (Hp x Hx))).
    + destruct (prepared_fields x (Hp x Hx)) as [_ ->]. apply (tw_read _ (pr_wire _ (Hp x Hx))).
    + apply prepared_popped; [by apply Hp|by apply Hspends].
  - apply (bw_format _ Hwire).
  - apply (bw_read _ Hwire).
  - eexists. apply (bf_version _ _ Hn).
  - unfold wrap, is_u. apply Z.mod_pos_bound. lia.
  - unfold block_txs, built. cbn [block AltBlocks.txs]. constructor; [apply (tw_lock _ Hm)|]. rewrite map_map. apply Forall_map, Forall_forall.
    intros x Hx. rewrite Forall_forall in Hp. apply (tw_lock _ (pr_wire _ (Hp x Hx))).
Qed.

Lemma new_valid : valid_chain (chain ++ [new]).
Proof using Hcc Hctx pb_hash pb_blob Hwire Hp Hhashes Hspends K1 K2 Hct Hcb Hcheck Hlen Hroom ML.
  pose proof Hcc as [[V1 V2 V3 V4 V5 V6 V7] _]. destruct (context_fields chain ctx Hctx) as (F1 & _ & _). destruct new_block_txs as [Ht Hh].
  split; [|by rewrite len_app| | | |done|].
  - intros i b Hi. apply lookup_app_Some in Hi as [Hi|[Hge Hi]]; [by apply V1|]. apply list_lookup_singleton_Some in Hi as [Hi <-].
    cbn [vb_height built]. rewrite F1. unfold len. lia.
  - rewrite map_app. apply NoDup_app. split_and!; [done| |apply NoDup_singleton]. intros h Hin Hh'. apply list_elem_of_singleton in Hh' as ->.
    by apply new_hash_fresh.
  - rewrite chain_txs_snoc, map_app. apply NoDup_app. split_and!; [done| |].
    + intros h (y & -> & Hy)%list_elem_of_fmap (x & Hxy & Hx)%list_elem_of_fmap. by eapply new_tx_fresh.
    + rewrite Hh, Ht. cbn [map]. apply NoDup_cons. split.
      * intros (tx & He & (x & -> & Hx)%list_elem_of_fmap)%list_elem_of_fmap.
        assert (BlockRules.miner_transaction (pb_block pb) = tvd_tx x) as Hm.
        { apply Hct; [apply elem_of_app; right; by left|apply elem_of_app; right; right; by apply list_elem_of_fmap_2|done]. }
        pose proof (bf_miner _ _ (proj1 new_facts)) as M1. unfold miner_inputs in M1. cbn [block built] in M1. rewrite Hm in M1.
        rewrite Forall_forall in Hspends. by apply (spends_not_gen _ _ (Hspends x Hx)) in M1.
      * rewrite map_map. pose proof (proj2 new_facts) as Hnd. rewrite Hhashes in Hnd.
        replace (map (fun x => tx_hash (tvd_tx x)) txs) with (map tvd_tx_hash txs); [done|]. apply map_ext_in. intros x Hx%list_elem_of_In.
        rewrite Forall_forall in Hp. apply (prepared_fields x (Hp x Hx)).
  - rewrite chain_txs_snoc, all_kis_app, new_kis. apply NoDup_app. split_and!; [done| |done]. intros k Hk Hk'. by apply (K2 k).
  - apply Forall_app. split; [done|]. constructor; [apply new_sound|constructor].
Qed.

Lemma new_chain : consensus_chain (chain ++ [new]).
Proof using Hcc Hctx pb_hash pb_blob Hwire Hp Hhashes Hspends K1 K2 Hct Hcb Hcheck Hlen Hroom ML.
  split; [apply new_valid|]. intros i b Hi. apply lookup_app_Some in Hi as [Hi|[Hge Hi]].
  - rewrite take_app_le; [by apply (cc_facts _ Hcc)|]. apply lookup_lt_Some in Hi. lia.
  - apply list_lookup_singleton_Some in Hi as [Hi <-]. replace i with (length chain) by lia. rewrite take_app_length. apply new_facts.
Qed.
End extend.

(** A verified block extends the chain it was verified on. *)
Lemma verified_block_extends rng now chain t pb txs (c : Context.ContextTask Vm) b cache c' :
  consensus_chain chain -> stores chain t -> Context.context_of cfg (map chain_block chain) = Ok (Context.context_cache c) ->
  pb_block_hash pb = hash_of_block (pb_block pb) -> pb_block_blob pb = block_serialize (pb_block pb) ->
  block_wire (pb_block pb) -> Forall prepared txs ->
  no_tx_collision (map s_tx (chain_txs chain) ++ BlockRules.miner_transaction (pb_block pb) :: map tvd_tx txs) ->
  no_block_collision (pb_block pb :: map block chain) -> len chain + 1 < 2 ^ 32 ->
  verify_prepped_main_chain_block rng now pb txs t None c = (Ok (b, cache), c') ->
  len (all_outs (chain_txs (chain ++ [b]))) < 2 ^ 64 ->
  c' = c /\ consensus_chain (chain ++ [b]) /\ block b = pb_block pb /\ AltBlocks.txs b = map verified_tx txs.
Proof using ML.
  intros Hcc Hst Hctx Hh Hbl Hw Hp Hct Hcb Hl Hv Hr.
  destruct (verify_prepped_Ok rng now chain t pb txs c b cache c' Hst Hp Hv) as (-> & V1 & V2 & V3 & V4 & v & coins & -> & Hck).
  split_and!; [done| |done|done]. by eapply new_chain.
Qed.

(** A block that is refused leaves the task as it was. *)
Lemma verify_prepped_state rng now t pb txs (c : Context.ContextTask Vm) r c' :
  verify_prepped_main_chain_block rng now pb txs t None c = (r, c') -> c' = c.
Proof using Type.
  unfold verify_prepped_main_chain_block, mbind, svc_bind, get_context, block_err, pure, mret, svc_ret. intros H.
  repeat case_match; simplify_eq/=; done.
Qed.

(** ** A block for the main chain *)
Lemma pull_loop (hashes : list bytes) (acc : list TransactionVerificationData) (txs : gmap bytes TransactionVerificationData) r txs' :
  try_fold (fun '((ordered_txs, txs) : list TransactionVerificationData * gmap bytes TransactionVerificationData) tx_hash =>
    tx ← ok_or (txs !! tx_hash) TxsIncludedWithBlockIncorrect;
    Ok (ordered_txs ++ [tx], delete tx_hash txs)) (acc, txs) hashes = Ok (r, txs') ->
  exists new, r = acc ++ new /\ Forall (fun x => x ∈ (map_to_list txs).*2) new.
Proof using Type.
  revert acc txs. induction hashes as [|h hashes IH]; intros acc txs H; cbn [try_fold] in H.
  { injection H as <- <-. exists []. rewrite app_nil_r. done. }
  destruct (txs !! h) as [x|] eqn:Ex; [|done]. cbn [ok_or mbind result_bind] in H. destruct (IH _ _ H) as (new & -> & Hn).
  exists (x :: new). rewrite <- app_assoc. split; [done|]. constructor.
  - apply list_elem_of_fmap. exists (h, x). split; [done|]. by apply elem_of_map_to_list.
  - apply (List.Forall_impl _ (P := fun x => x ∈ (map_to_list (delete h txs)).*2)); [|done]. intros y Hy.
    apply list_elem_of_fmap in Hy as ([k z] & -> & Hz). apply elem_of_map_to_list, lookup_delete_Some in Hz as [_ Hz].
    apply list_elem_of_fmap. exists (k, z). split; [done|]. by apply elem_of_map_to_list.
Qed.

Lemma pull_ordered_from blk txs ordered : pull_ordered_transactions blk txs = Ok ordered -> Forall (fun x => x ∈ (map_to_list txs).*2) ordered.
Proof using Type.
  unfold pull_ordered_transactions. destruct (negb _); [done|]. destruct (try_fold _ _ _) as [[r txs']|?|] eqn:E; try done. cbn [mbind result_bind].
  intros [= <-]. by apply pull_loop in E as (new & -> & Hn).
Qed.

Lemma verify_main_Ok rng now blk txs t (c : Context.ContextTask Vm) r c' :
  verify_main_chain_block new_vm rng now blk txs t c = (r, c') ->
  (forall blocks, Context.task_ok cfg blocks c -> Context.task_ok cfg blocks c') /\
  forall b, r = Ok b -> exists pb ordered cache, pb_block pb = blk /\ pb_block_hash pb = hash_of_block blk /\ pb_block_blob pb = block_serialize blk /\
    Forall (fun x => x ∈ (map_to_list txs).*2) ordered /\ verify_prepped_main_chain_block rng now pb ordered t None c' = (Ok (b, cache), c').
Proof using Type.
  unfold verify_main_chain_block, mbind at 1, svc_bind at 1, get_context at 1.
  set (rxs := if _ <? 12 then _ else _). unfold mbind at 1, svc_bind at 1. destruct (rxs c) as [rv c1] eqn:Erx.
  assert (forall blocks, Context.task_ok cfg blocks c -> Context.task_ok cfg blocks c1) as Hkeep.
  { intros blocks Hok. unfold rxs in Erx. destruct (_ <? 12); [by injection Erx as _ <-|]. unfold current_rx_vms, call in Erx.
    destruct (Context.handle_req new_vm c Context.CurrentRxVms t) as [q c2] eqn:Eq.
    assert (c1 = c2) as -> by (destruct q; by injection Erx). eapply Context.other_keeps; [| |exact Eq|exact Hok]; done. }
  assert (forall blocks, Context.task_ok cfg blocks c -> Context.task_ok cfg blocks c1) as Hk2 by exact Hkeep.
  destruct rv as [vms|e|]; [|intros [= <- <-]; done|intros [= <- <-]; done].
  unfold mbind, svc_bind, cons_err, block_err, pure. destruct (new_prepared blk _) as [pb|?|] eqn:Epb; cbn [map_err]; [|intros [= <- <-]; done|intros [= <- <-]; done].
  assert (pb_block pb = blk /\ pb_block_hash pb = hash_of_block blk /\ pb_block_blob pb = block_serialize blk) as (P1 & P2 & P3).
  { unfold new_prepared in Epb. destruct (header_forks blk) as [[v1 v2]|?|]; try done. cbn [mbind result_bind] in Epb.
    destruct (miner_inputs blk) as [|[h|? ? ?] [|? ?]]; try done. destruct (calculate_pow_hash _ _ _ _) as [ph|?|]; try done. cbn [map_err mbind result_bind] in Epb.
    by injection Epb as <-. }
  destruct (check_block_pow _ _) as [[]|?|]; cbn [map_err]; [|intros [= <- <-]; done|intros [= <- <-]; done].
  destruct (pull_ordered_transactions (pb_block pb) txs) as [ordered|?|] eqn:Eo; [|intros [= <- <-]; done|intros [= <- <-]; done].
  apply pull_ordered_from in Eo.
  destruct (verify_prepped_main_chain_block rng now pb ordered t None c1) as [rv c2] eqn:Ev. pose proof (verify_prepped_state rng now t pb ordered c1 rv c2 Ev) as ->.
  destruct rv as [[b cache]|e|]; unfold mret, svc_ret; intros [= <- <-]; (split; [done|]); [|done|done].
  intros b' [= <-]. by exists pb, ordered, cache.
Qed.

(** ** The order of the transactions *)
Lemma insert_middle {A} (l1 l : list A) a b : <[length l1 := b]> (l1 ++ a :: l) = l1 ++ b :: l.
Proof using Type. induction l1 as [|z l1 IH]; [done|]. cbn. f_equal. exact IH. Qed.

Lemma swap_parts {A} (l1 l2 l3 : list A) a b :
  swap (length l1) (length l1 + S (length l2)) (l1 ++ a :: l2 ++ b :: l3) = l1 ++ b :: l2 ++ a :: l3.
Proof using Type.
  unfold swap. rewrite list_lookup_middle by done. rewrite lookup_app_r by lia. replace (length l1 + S (length l2) - length l1)%nat with (S (length l2)) by lia.
  change ((a :: l2 ++ b :: l3) !! S (length l2)) with ((l2 ++ b :: l3) !! length l2). rewrite list_lookup_middle by done.
  rewrite insert_middle, insert_app_r. change (<[S (length l2):=a]> (b :: l2 ++ b :: l3)) with (b :: <[length l2:=a]> (l2 ++ b :: l3)). by rewrite insert_middle.
Qed.

Lemma order_loop_spec hs txs :
  forall l1 l2, txs = l1 ++ l2 -> length l2 = length hs ->
  match order_loop (length l1) hs txs with
  | Ok txs' => exists l2', txs' = l1 ++ l2' /\ l2' ≡ₚ l2 /\ map tvd_tx_hash l2' = hs
  | Err e => e = TxsIncludedWithBlockIncorrect /\ ~ (map tvd_tx_hash l2 ≡ₚ hs)
  | Panic => False
  end.
Proof using Type.
  revert txs. induction hs as [|h hs IH]; intros txs l1 l2 -> Hl; cbn [order_loop].
  { destruct l2; [|done]. by exists []. }
  destruct l2 as [|x l2]; [done|]. cbn [length] in Hl. rewrite list_lookup_middle by done. cbn [unwrap mbind result_bind].
  assert (forall y l2', tvd_tx_hash y = h -> y :: l2' ≡ₚ x :: l2 ->
    match order_loop (S (length l1)) hs (l1 ++ y :: l2') with
    | Ok txs' => exists l2'', txs' = l1 ++ l2'' /\ l2'' ≡ₚ x :: l2 /\ map tvd_tx_hash l2'' = h :: hs
    | Err e => e = TxsIncludedWithBlockIncorrect /\ ~ (map tvd_tx_hash (x :: l2) ≡ₚ h :: hs)
    | Panic => False
    end) as Hnext.
  { intros y l2' Hy Hperm. specialize (IH (l1 ++ y :: l2') (l1 ++ [y]) l2'). rewrite length_app, Nat.add_1_r in IH. cbn [length] in IH.
    assert (length l2' = length hs) as Hl' by (apply Permutation_length in Hperm; cbn in Hperm; lia).
    specialize (IH ltac:(by rewrite <- app_assoc) Hl'). destruct (order_loop (S (length l1)) hs (l1 ++ y :: l2')) as [txs'|e|]; [| |done].
    - destruct IH as (l3 & -> & Hp & Hm). exists (y :: l3). rewrite <- app_assoc. split_and!; [done|by rewrite Hp|cbn; by rewrite Hy, Hm].
    - destruct IH as [-> Hn]. split; [done|]. rewrite <- Hperm. cbn [map]. rewrite Hy. intros Hc. apply Permutation_cons_inv in Hc. done. }
  case_bool_decide as Hh; cbn [negb]; [by apply Hnext|].
  rewrite drop_app_length. destruct (list_find (fun tx => tvd_tx_hash tx = h) (x :: l2)) as [[k y]|] eqn:Ek.
  - apply list_find_Some in Ek as (Hk & Hy & _). destruct k as [|k]; [injection Hk as ->; done|]. cbn in Hk.
    assert (exists l3 l4, l2 = l3 ++ y :: l4 /\ length l3 = k) as (l3 & l4 & -> & <-).
    { exists (take k l2), (drop (S k) l2). split; [symmetry; by apply take_drop_middle|]. apply lookup_lt_Some in Hk. rewrite length_take. lia. }
    rewrite swap_parts. apply Hnext; [done|].
    rewrite <- (Permutation_middle l3 l4 x), <- (Permutation_middle l3 l4 y). apply perm_swap.
  - split; [done|]. intros Hc. apply list_find_None in Ek. assert (h ∈ map tvd_tx_hash (x :: l2)) as Hin by (rewrite Hc; by left).
    apply list_elem_of_fmap in Hin as (z & -> & Hz). rewrite Forall_forall in Ek. by apply (Ek z Hz).
Qed.

(** The transactions that come with a block are put in the order of the block by swaps:
    ordering succeeds exactly when the hashes given are those of the block, each as often
    as the block names it, and then returns the same transactions in the order of the
    block; otherwise it is an error, and never a panic. *)
Theorem order_transactions_spec blk txs :
  match order_transactions blk txs with
  | Ok txs' => txs' ≡ₚ txs /\ map tvd_tx_hash txs' = BlockRules.transactions blk
  | Err e => e = TxsIncludedWithBlockIncorrect /\ ~ (map tvd_tx_hash txs ≡ₚ BlockRules.transactions blk)
  | Panic => False
  end.
Proof using Type.
  unfold order_transactions. destruct (Z.eqb_spec (len (BlockRules.transactions blk)) (len txs)) as [Hl|Hl]; cbn [negb].
  - pose proof (order_loop_spec (BlockRules.transactions blk) txs [] txs eq_refl) as H. unfold len in Hl. specialize (H ltac:(lia)). cbn [length] in H.
    destruct (order_loop 0 _ txs) as [txs'|e|]; [|done|done]. destruct H as (l & -> & Hp & Hm). done.
  - split; [done|]. intros Hp. apply Permutation_length in Hp. rewrite length_map in Hp. unfold len in Hl. lia.
Qed.

(** The forks of an alternative block that is prepared for the main chain are swapped: what
    is called its vote is its version, and the other way round, unlike those of a block
    prepared from the network. *)
Theorem new_alt_block_swaps_forks alt pb (vm : option Vm) pb' :
  new_alt_block alt = Ok pb -> new_prepared (ab_block alt) vm = Ok pb' ->
  pb_hf_vote pb = pb_hf_version pb' /\ pb_hf_version pb = pb_hf_vote pb'.
Proof using Type.
  unfold new_alt_block, new_prepared, header_forks, from_block_header. destruct (from_version _) as [v|?|]; try done. cbn [map_err mbind result_bind].
  intros [= <-]. destruct (miner_inputs _) as [|[h|? ? ?] [|? ?]]; try done. destruct (calculate_pow_hash _ _ _ _) as [ph|?|]; try done.
  cbn [map_err mbind result_bind]. intros [= <-]. done.
Qed.

End facts.
End BlockVerifyFacts.
