(* ===== verification/Manager.v ===== *)
(** * The blockchain manager ([src/binaries/cuprated/src/blockchain/manager/handler.rs],
    [manager/commands.rs]; [block_to_verified_block_information] of
    [src/consensus/fast-sync/src/fast_sync.rs])

    The manager is the only writer of the blockchain database and of the context. It takes
    single blocks, batches of blocks and pop commands, one at a time, verifies and stores
    blocks, keeps alternative blocks and reorganises the chain when an alternative chain
    has more work. Its state is the tables, the context task and a count of the calls to
    the clock and to the random generator, whose answers are the functions [clock] and
    [random]; what it sends to other parts of the node is a list of events. The lock that
    keeps readers out during a reorganisation is left out. *)
From S2P Require Import Prelude Bytes HardForks Median ChainDb RulesBase TxData TxRules TxContext BlockRules Context Helpers DbTables TxOps AltBlocks BlockOps BlockchainService ChainReads FastSync TxVerification BlockVerification.
From Stdlib Require Import ZArith Lia String.
From stdpp Require Import base tactics option list numbers sets gmap.
Import HardForks ChainDb RulesBase TxData TxRules TxContext Helpers DbTables TxOps AltBlocks BlockOps BlockchainService ChainReads TxVerification BlockVerification.

#[local] Open Scope Z_scope.
#[local] Open Scope usize_scope.

Module Manager.

Section manager.
Context {O : MoneroOxide} {T : TransactionOps O} {C : Dalek O} {Cd : MoneroCodec O} {B : MoneroBatch O}.
Context {Vm : Type} {P : BlockPow O Vm} (new_vm : bytes -> option Vm).
Context (clock random : nat -> Z) (rng : TransactionVerificationData -> Rng).
(** [FAST_SYNC_HASHES], set once at the start; [Block::number] of [monero_oxide]. *)
Context (fast_sync_hashes : list bytes) (block_number : BlockRules.Block -> Z).

#[local] Abbreviation Block := BlockRules.Block.

(** What the manager sends out: a broadcast of a block, the key images a new block spends
    to the transaction pool, a ban of a peer and the order to stop the download. *)
Inductive Event :=
  | BroadcastBlock (block_bytes : bytes) (current_blockchain_height : Z)
  | TxpoolNewBlock (spent_key_images : list bytes)
  | BanPeer (peer : Z)
  | StopBlockDownloader.

Record BlockchainManager := mk_manager {
  tables : Tables;
  context : Context.ContextTask Vm;
  calls : nat;
  events : list Event;
}.

(** [anyhow::Error] *)
Inductive Error :=
  | ConsensusErr (e : ExtendedConsensusError)
  | DatabaseError (e : RuntimeError)
  | AltBlockInMainChain
  | TryFromError.

Inductive IncomingBlockOk := AddedToMainChain | AddedToAltChain.
Inductive AddAltBlock := AlreadyCached | NewlyCached (block_blob : bytes) | Reorged.

(** ** The monad of the manager *)
Definition act (A : Type) : Type := BlockchainManager -> result Error A * BlockchainManager.

#[export] Instance act_ret : MRet act := fun A a m => (Ok a, m).

#[export] Instance act_bind : MBind act := fun A B f x m =>
  match x m with
  | (Ok a, m) => f a m
  | (Err e, m) => (Err e, m)
  | (Panic, m) => (Panic, m)
  end.

Definition pure_act {A} (r : result Error A) : act A := fun m => (r, m).
Definition get_tables : act Tables := fun m => (Ok (tables m), m).
Definition blockchain_context : act Context.BlockchainContext := fun m => (Ok (Context.context_cache (context m)), m).
Definition emit (e : Event) : act () := fun m => (Ok (), mk_manager (tables m) (context m) (calls m) (events m ++ [e])).

(** [current_unix_timestamp()] and [rand::random()] *)
Definition now : act Z := fun m => (Ok (clock (calls m)), mk_manager (tables m) (context m) (S (calls m)) (events m)).
Definition random_id : act Z := fun m => (Ok (random (calls m)), mk_manager (tables m) (context m) (S (calls m)) (events m)).

(** A function of the consensus crate that talks to the context service. *)
Definition consensus {A} (s : svc (Vm := Vm) A) : act A := fun m =>
  match s (context m) with
  | (Ok a, c) => (Ok a, mk_manager (tables m) c (calls m) (events m))
  | (Err e, c) => (Err (ConsensusErr e), mk_manager (tables m) c (calls m) (events m))
  | (Panic, c) => (Panic, mk_manager (tables m) c (calls m) (events m))
  end.

(** A request to the context service that must succeed. *)
Definition context_call (req : Context.BlockChainContextRequest Vm) : act () := fun m =>
  match Context.handle_req new_vm (context m) req (tables m) with
  | (Ok _, c) => (Ok (), mk_manager (tables m) c (calls m) (events m))
  | (_, c) => (Panic, mk_manager (tables m) c (calls m) (events m))
  end.

(** Requests to the database; [id] is the id of the chain that popped blocks would get. *)
Definition database_write (id : Z) (req : BlockchainWriteRequest) : act BlockchainResponse := fun m =>
  match handle_blockchain_request id (tables m) req with
  | (Ok r, t) => (Ok r, mk_manager t (context m) (calls m) (events m))
  | (Err e, t) => (Err (DatabaseError e), mk_manager t (context m) (calls m) (events m))
  | (Panic, t) => (Panic, mk_manager t (context m) (calls m) (events m))
  end.

Definition database_read (req : BlockchainReadRequest) : act BlockchainResponse := fun m =>
  (map_err DatabaseError (map_request (tables m) req), m).

(** [.expect(..)] on a result *)
Definition expect_ok {A} (x : act A) : act A := fun m =>
  match x m with (Ok a, m) => (Ok a, m) | (_, m) => (Panic, m) end.

(** ** Adding a verified block *)
Definition add_valid_block_to_blockchain_cache (verified_block : VerifiedBlockInformation) : act () :=
  let header := BlockRules.header (block verified_block) in
  context_call (Context.Update (Context.mk_new_block_data (vb_block_hash verified_block) (vb_height verified_block)
    (BlockRules.timestamp header) (weight verified_block) (vb_long_term_weight verified_block)
    (generated_coins verified_block) (from_vote (BlockRules.hardfork_signal header)) (vb_cumulative_difficulty verified_block))).

Definition spent_key_images_of (txs : list VerifiedTransactionInformation) : result Error (list bytes) :=
  collect (fun input => match input with ToKey _ _ key_image => Ok (to_bytes key_image) | Gen _ => Panic end)
    (txs ≫= fun tx => inputs (prefix (v_tx tx))).

Definition add_valid_block_to_main_chain (verified_block : VerifiedBlockInformation) : act () :=
  spent_key_images ← pure_act (spent_key_images_of (txs verified_block));
  _ ← add_valid_block_to_blockchain_cache verified_block;
  _ ← expect_ok (database_write 0 (WriteBlock verified_block));
  emit (TxpoolNewBlock spent_key_images).

Definition batch_add_valid_block_to_blockchain_database (blocks : list VerifiedBlockInformation) : act () :=
  _ ← expect_ok (database_write 0 (BatchWriteBlocks blocks));
  mret ().

Definition broadcast_block (block_bytes : bytes) (blockchain_height : Z) : act () :=
  emit (BroadcastBlock block_bytes blockchain_height).

(** ** Popping blocks *)
Definition pop_blocks (numb_blocks : Z) : act Z :=
  id ← random_id;
  r ← expect_ok (database_write id (PopBlocks numb_blocks));
  old_main_chain_id ← pure_act (match r with PopBlocksResponse id => Ok id | _ => Panic end);
  _ ← context_call (Context.PopBlocks numb_blocks);
  mret old_main_chain_id.

(** ** Reorganising *)
Definition total_outputs_of (block : Block) : Z :=
  usize_sum (map (fun output => default 0 (out_amount output)) (outputs (prefix (BlockRules.miner_transaction block)))).

Definition alt_block_to_verified_block_information (alt : AltBlockInformation) (ctx : Context.BlockchainContext)
    : result Error VerifiedBlockInformation :=
  _ ← rassert (ab_height alt =? BlockRules.chain_height (Context.context_to_verify_block ctx));
  let total_fees := usize_sum (map v_fee (ab_txs alt)) in
  let total_outputs := total_outputs_of (ab_block alt) in
  let generated_coins := total_outputs -! total_fees in
  Ok (mk_verified_block (ab_block alt) (ab_block_blob alt) (ab_txs alt) (ab_block_hash alt) (repeat 255 32) (ab_height alt)
        generated_coins (ab_weight alt) (Context.next_block_long_term_weight ctx (ab_weight alt))
        (wrap 128 (Context.ctx_cumulative_difficulty ctx + BlockRules.next_difficulty (Context.context_to_verify_block ctx)))).

(** A loop of actions; stops at the first error. *)
Fixpoint for_each {A} (f : A -> act ()) (l : list A) : act () :=
  match l with
  | [] => mret ()
  | x :: l => _ ← f x; for_each f l
  end.

Definition alt_blocks_in_chain (id : Z) : act (list AltBlockInformation) :=
  r ← database_read (R_AltBlocksInChain id);
  pure_act (match r with AltBlocksInChain blocks => Ok blocks | _ => Panic end).

Definition verify_add_alt_block (alt_block : AltBlockInformation) : act () :=
  prepped_txs ← pure_act (collect (fun tx => ok_or (tvd_try_from tx) TryFromError) (ab_txs alt_block));
  prepped_block ← pure_act (map_err (fun e => ConsensusErr (ConsErr e)) (new_alt_block alt_block));
  time ← now;
  database ← get_tables;
  '((verified_block, _) : VerifiedBlockInformation * option BatchPrepareCache) ←
    consensus (verify_prepped_main_chain_block rng time prepped_block prepped_txs database None);
  add_valid_block_to_main_chain verified_block.

Definition verify_add_alt_blocks_to_main_chain (alt_blocks : list AltBlockInformation) : act () :=
  for_each verify_add_alt_block alt_blocks.

Definition add_old_block (alt : AltBlockInformation) : act () :=
  ctx ← blockchain_context;
  verified_block ← pure_act (alt_block_to_verified_block_information alt ctx);
  add_valid_block_to_main_chain verified_block.

Definition reverse_reorg (old_main_chain_id : Z) : act () :=
  blocks ← expect_ok (alt_blocks_in_chain old_main_chain_id);
  first ← pure_act (unwrap (head blocks));
  let split_height := ab_height first in
  ctx ← blockchain_context;
  let current_main_chain_height := BlockRules.chain_height (Context.context_to_verify_block ctx) in
  let numb_blocks := current_main_chain_height -! split_height in
  _ ← (if 0 <? numb_blocks then _ ← pop_blocks (current_main_chain_height -! split_height); mret () else mret ());
  _ ← for_each add_old_block blocks;
  _ ← expect_ok (database_write 0 FlushAltBlocks);
  mret ().

(** [match reorg_res { Ok(()) => Ok(()), Err(e) => { self.reverse_reorg(..).await; Err(e) } }] *)
Definition or_reverse (old_main_chain_id : Z) (x : act ()) : act () := fun m =>
  match x m with
  | (Err e, m) =>
      match reverse_reorg old_main_chain_id m with
      | (Ok _, m) => (Err e, m)
      | (r, m) => (r, m)
      end
  | r => r
  end.

Definition try_do_reorg (top_alt_block : AltBlockInformation) : act () :=
  alt_blocks ← alt_blocks_in_chain (ab_chain_id top_alt_block);
  let alt_blocks := alt_blocks ++ [top_alt_block] in
  first ← pure_act (unwrap (head alt_blocks));
  let split_height := ab_height first in
  ctx ← blockchain_context;
  let current_main_chain_height := BlockRules.chain_height (Context.context_to_verify_block ctx) in
  old_main_chain_id ← pop_blocks (current_main_chain_height -! split_height);
  or_reverse old_main_chain_id (verify_add_alt_blocks_to_main_chain alt_blocks).

(** ** Alternative blocks *)
Definition handle_incoming_alt_block (block : Block) (prepared_txs : gmap bytes TransactionVerificationData) : act AddAltBlock :=
  r ← expect_ok (database_read (R_FindBlock (hash_of_block block)));
  chain ← pure_act (match r with FindBlock chain => Ok chain | _ => Panic end);
  match chain with
  | Some (Alt _, _) => mret AlreadyCached
  | Some (Main, _) => pure_act (Err AltBlockInMainChain)
  | None =>
      time ← now;
      id ← random_id;
      database ← get_tables;
      alt_block_info ← consensus (sanity_check_alt_block new_vm time id block prepared_txs database);
      ctx ← blockchain_context;
      if Context.ctx_cumulative_difficulty ctx <? ab_cumulative_difficulty alt_block_info then
        _ ← try_do_reorg alt_block_info;
        mret Reorged
      else
        _ ← database_write 0 (WriteAltBlock alt_block_info);
        mret (NewlyCached (ab_block_blob alt_block_info))
  end.

(** ** Single blocks *)
Definition handle_incoming_block (block : Block) (prepared_txs : gmap bytes TransactionVerificationData) : act IncomingBlockOk :=
  ctx ← blockchain_context;
  if negb (bool_decide (BlockRules.previous (BlockRules.header block) = BlockRules.top_hash (Context.context_to_verify_block ctx))) then
    res ← handle_incoming_alt_block block prepared_txs;
    _ ← match res with
        | NewlyCached block_blob =>
            ctx ← blockchain_context;
            broadcast_block block_blob (BlockRules.chain_height (Context.context_to_verify_block ctx))
        | AlreadyCached | Reorged => mret ()
        end;
    mret AddedToAltChain
  else
    time ← now;
    database ← get_tables;
    verified_block ← consensus (verify_main_chain_block new_vm rng time block prepared_txs database);
    _ ← add_valid_block_to_main_chain verified_block;
    ctx ← blockchain_context;
    _ ← broadcast_block (block_blob verified_block) (BlockRules.chain_height (Context.context_to_verify_block ctx));
    mret AddedToMainChain.

(** ** Batches of blocks *)
Record BlockBatch := mk_batch { blocks : list (Block * list Transaction); peer : Z }.

(** The map of the prepared transactions; a panic for one that cannot be prepared. *)
Definition expect_prepared (txs : list Transaction) : result Error (gmap bytes TransactionVerificationData) :=
  try_fold (fun m tx =>
    match new_tx_verification_data tx with
    | Ok data => Ok (<[tvd_tx_hash data := data]> m)
    | _ => Panic
    end) ∅ txs.

(** Takes the transactions of the block out of the map, in the order of the block. *)
Definition take_txs (hashes : list bytes) (txs : gmap bytes TransactionVerificationData)
    : result Error (list VerifiedTransactionInformation * gmap bytes TransactionVerificationData) :=
  try_fold (fun '((verified_txs, txs) : list VerifiedTransactionInformation * gmap bytes TransactionVerificationData) tx =>
    data ← unwrap (txs !! tx);
    Ok (verified_txs ++ [verified_tx data], delete tx txs)) ([], txs) hashes.

Definition block_to_verified_block_information (block : Block) (txs : list Transaction) (ctx : Context.BlockchainContext)
    : result Error VerifiedBlockInformation :=
  match head (miner_inputs block) with
  | Some (Gen height) =>
      _ ← rassert (height =? BlockRules.chain_height (Context.context_to_verify_block ctx));
      txs ← expect_prepared txs;
      '((verified_txs, _) : list VerifiedTransactionInformation * gmap bytes TransactionVerificationData) ←
        take_txs (BlockRules.transactions block) txs;
      let total_fees := usize_sum (map v_fee verified_txs) in
      let generated_coins := total_outputs_of block -! total_fees in
      let weight := tx_weight (BlockRules.miner_transaction block) +! usize_sum (map v_tx_weight verified_txs) in
      Ok (mk_verified_block block (block_serialize block) verified_txs (hash_of_block block) (repeat 255 32) height
            generated_coins weight (Context.next_block_long_term_weight ctx weight)
            (wrap 128 (Context.ctx_cumulative_difficulty ctx + BlockRules.next_difficulty (Context.context_to_verify_block ctx))))
  | _ => Panic
  end.

Fixpoint fast_sync_loop (blocks : list (Block * list Transaction)) (valid_blocks : list VerifiedBlockInformation)
    : act (list VerifiedBlockInformation) :=
  match blocks with
  | [] => mret valid_blocks
  | (block, txs) :: blocks =>
      ctx ← blockchain_context;
      block ← pure_act (block_to_verified_block_information block txs ctx);
      _ ← add_valid_block_to_blockchain_cache block;
      fast_sync_loop blocks (valid_blocks ++ [block])
  end.

Definition handle_incoming_block_batch_fast_sync (batch : BlockBatch) : act () :=
  valid_blocks ← fast_sync_loop (blocks batch) [];
  batch_add_valid_block_to_blockchain_database valid_blocks.

(** What is done with a peer that sent an invalid block. *)
Definition ban_and_stop (peer : Z) : act () :=
  _ ← emit (BanPeer peer);
  emit StopBlockDownloader.

(** [let Ok(x) = r else { ban; return }] *)
Definition or_ban {A} (peer : Z) (x : act A) (k : A -> act ()) : act () := fun m =>
  match x m with
  | (Ok a, m) => k a m
  | (Err _, m) => ban_and_stop peer m
  | (Panic, m) => (Panic, m)
  end.

Fixpoint add_prepped_blocks (peer : Z) (blocks : list (PreparedBlock * list TransactionVerificationData))
    (output_cache : BatchPrepareCache) : act () :=
  match blocks with
  | [] => mret ()
  | (block, txs) :: blocks =>
      or_ban peer
        (time ← now;
         database ← get_tables;
         consensus (verify_prepped_main_chain_block rng time block txs database (Some output_cache)))
        (fun '(verified_block, cache) =>
           output_cache ← pure_act (unwrap cache);
           _ ← add_valid_block_to_main_chain verified_block;
           add_prepped_blocks peer blocks output_cache)
  end.

Definition handle_incoming_block_batch_main_chain (batch : BlockBatch) : act () :=
  last_block ← pure_act (unwrap (last (blocks batch)));
  if block_number (fst last_block) <? FastSync.fast_sync_stop_height fast_sync_hashes then handle_incoming_block_batch_fast_sync batch
  else
    or_ban (peer batch)
      (database ← get_tables; consensus (batch_prepare_main_chain_blocks new_vm rng (blocks batch) database))
      (fun '(prepped_blocks, output_cache) => add_prepped_blocks (peer batch) prepped_blocks output_cache).

(** The prepared transactions of an alternative block, under their hashes. *)
Definition prepare_alt_txs (txs : list Transaction) : result Error (gmap bytes TransactionVerificationData) :=
  try_fold (fun m tx =>
    data ← map_err (fun e => ConsensusErr (ConsErr e)) (new_tx_verification_data tx);
    Ok (<[tvd_tx_hash data := data]> m)) ∅ txs.

Fixpoint alt_chain_loop (peer : Z) (blocks : list (Block * list Transaction)) : act () :=
  match blocks with
  | [] => mret ()
  | (block, txs) :: blocks =>
      or_ban peer
        (txs ← pure_act (prepare_alt_txs txs);
         handle_incoming_alt_block block txs)
        (fun res =>
           match res with
           | Reorged =>
               if bool_decide (blocks = []) then mret ()
               else handle_incoming_block_batch_main_chain (mk_batch blocks peer)
           | NewlyCached _ | AlreadyCached => alt_chain_loop peer blocks
           end)
  end.

Definition handle_incoming_block_batch_alt_chain (batch : BlockBatch) : act () := alt_chain_loop (peer batch) (blocks batch).

Definition handle_incoming_block_batch (batch : BlockBatch) : act () :=
  first_block ← pure_act (unwrap (head (blocks batch)));
  ctx ← blockchain_context;
  if bool_decide (BlockRules.previous (BlockRules.header (fst first_block)) = BlockRules.top_hash (Context.context_to_verify_block ctx))
  then handle_incoming_block_batch_main_chain batch
  else handle_incoming_block_batch_alt_chain batch.

(** ** Commands *)
Inductive BlockchainManagerCommand :=
  | AddBlock (block : Block) (prepped_txs : gmap bytes TransactionVerificationData)
  | PopBlocksCommand (numb_blocks : Z).

(** The answer to a command is the result of handling the block; an error is sent back. *)
Definition handle_command (command : BlockchainManagerCommand) : act (option (result Error IncomingBlockOk)) :=
  match command with
  | AddBlock block prepped_txs => fun m =>
      match handle_incoming_block block prepped_txs m with
      | (Panic, m) => (Panic, m)
      | (res, m) => (Ok (Some res), m)
      end
  | PopBlocksCommand numb_blocks =>
      _ ← pop_blocks numb_blocks;
      _ ← expect_ok (database_write 0 FlushAltBlocks);
      mret None
  end.

End manager.
End Manager.
