(* ===== verification/ManagerFacts.v ===== *)
(** * What the blockchain manager shows

    The manager keeps the database and the context in step: both stand for the same chain
    of verified blocks. A block that is accepted extends the chain, a pop shortens both,
    and a reorganisation that fails leaves the chain as it was. *)
From S2P Require Import Prelude Bytes HardForks Median ChainDb RulesBase TxData TxRules TxContext BlockRules HardForkState Context Helpers DbTables TxOps TxStore AltBlocks BlockOps ChainStore BlockchainService ChainReads AltStore TxVerification TxVerifyFacts BlockVerification BlockVerifyFacts Manager.
From Stdlib Require Import ZArith Lia String.
From stdpp Require Import base tactics option list numbers sets gmap.
Import HardForks ChainDb RulesBase TxData TxRules TxContext Helpers DbTables TxOps TxStore AltBlocks BlockOps ChainStore BlockchainService ChainReads AltStore TxVerification TxVerifyFacts BlockVerification BlockVerifyFacts Manager.

#[local] Open Scope Z_scope.
#[local] Open Scope usize_scope.

Module ManagerFacts.

Section facts.
Context {O : MoneroOxide} {T : TransactionOps O} {C : Dalek O} {Cd : MoneroCodec O} {B : MoneroBatch O}.
Context {Vm : Type} {P : BlockPow O Vm} (new_vm : bytes -> option Vm) (mk : bytes -> Vm) (new_vm_mk : forall s, new_vm s = Some (mk s)).
Context (clock random : nat -> Z) (rng : TransactionVerificationData -> Rng).
Context {L : DalekLaws O C} {ML : MoneroOxideLaws O T}.
Context (cfg : Context.ContextConfig) (Hcfg : Context.context_config_ok cfg).

(** The database and the context stand for the chain. *)
Record in_step (chain : list VerifiedBlockInformation) (m : BlockchainManager (Vm := Vm)) : Prop := {
  st_chain : consensus_chain cfg chain;
  st_some : chain <> [];
  st_stores : stores chain (tables m);
  st_task : Context.task_ok cfg (map chain_block chain) (context m);
}.

Lemma chain_prefix l l' : consensus_chain cfg (l ++ l') -> consensus_chain cfg l.
Proof using Type.
  intros [Hv Hf]. split; [by eapply valid_chain_prefix|]. intros i b Hi. pose proof (lookup_lt_Some _ _ _ Hi) as Hlt.
  rewrite <- (take_app_le l l') by lia. apply Hf. by apply lookup_app_l_Some.
Qed.

Lemma chain_linked chain : consensus_chain cfg chain -> linked chain.
Proof using Type.
  intros [_ Hf] i b b' Hb Hb'. pose proof (lookup_lt_Some _ _ _ Hb') as Hlt. rewrite (bf_previous _ _ _ (Hf (S i) b' Hb')).
  - unfold Context.top_hash_of. rewrite last_lookup, length_map, length_take, list_lookup_fmap, lookup_take.
    replace (Init.Nat.pred (S i `min` length chain)) with i by lia. rewrite decide_True by lia. by rewrite Hb.
  - intros E. apply (f_equal length) in E. rewrite length_take in E. change (length []) with 0%nat in E. lia.
Qed.

Lemma chain_context_ok chain : consensus_chain cfg chain -> chain <> [] -> Context.chain_ok cfg (map chain_block chain).
Proof using Type.
  intros [Hv Hf] Hne. split.
  - rewrite len_map. pose proof (vc_len _ Hv). destruct chain; [done|]. unfold len in *. cbn [length] in *. zlia.
  - intros i hdr Hi. rewrite headers_chain, list_lookup_fmap in Hi. destruct (chain !! i) as [b|] eqn:Eb; [|done]. injection Hi as <-.
    pose proof (bf_version _ _ _ (Hf i b Eb)) as Hver. unfold ext_of, version_of. cbn [version]. rewrite Hver. apply lookup_lt_Some in Eb.
    unfold len. rewrite length_take. by replace (i `min` length chain)%nat with i by lia.
Qed.

Lemma in_step_context chain m : in_step chain m -> Context.context_of cfg (map chain_block chain) = Ok (Context.context_cache (context m)).
Proof using Type. intros [_ _ _ H]. by apply Context.task_ok_context. Qed.

(** ** Adding a block *)
Lemma spent_key_images_Ok xs : Forall (fun x => spends (v_tx x)) xs -> spent_key_images_of xs = Ok (xs ≫= fun x => kis_of (v_tx x)).
Proof using Type.
  intros Hs. unfold spent_key_images_of. induction Hs as [|x xs [_ Hx] _ IH]; [done|]. cbn [mbind list_bind] in *.
  assert (forall ins rest, Forall (fun inp => is_gen inp = false) ins -> forall ks,
    collect (fun input => match input with ToKey _ _ key_image => Ok (to_bytes key_image) | Gen _ => Panic end) rest = Ok (E := Error) ks ->
    collect (fun input => match input with ToKey _ _ key_image => Ok (to_bytes key_image) | Gen _ => Panic end) (ins ++ rest) = Ok (E := Error)
      (omap (fun inp => match inp with ToKey _ _ key_image => Some (to_bytes key_image) | Gen _ => None end) ins ++ ks)) as Happ.
  { intros ins rest Hg ks Hk. induction Hg as [|[h|a os ki] ins Hi _ IHi]; [done|done|]. cbn [app collect mbind result_bind omap list_omap].
    by rewrite IHi. }
  by apply Happ.
Qed.

Lemma add_valid_block_ok chain b m :
  in_step chain m -> consensus_chain cfg (chain ++ [b]) ->
  exists m', add_valid_block_to_main_chain new_vm b m = (Ok (), m') /\ in_step (chain ++ [b]) m' /\
    alt_part (tables m') = alt_part (tables m) /\ calls m' = calls m /\
    events m' = events m ++ [TxpoolNewBlock (txs b ≫= fun x => kis_of (v_tx x))].
Proof using Hcfg L ML.
  intros [Hcc Hne Hst Htk] Hcb. pose proof (cc_facts _ _ Hcb (length chain) b) as Hbf. rewrite take_app_length, list_lookup_middle in Hbf by done.
  specialize (Hbf eq_refl). unfold add_valid_block_to_main_chain, mbind, act_bind, pure_act.
  rewrite (spent_key_images_Ok _ (bf_txs _ _ _ Hbf)). unfold add_valid_block_to_blockchain_cache, context_call.
  pose proof (cc_valid _ _ Hcb) as Hvb. pose proof (vc_heights _ Hvb (length chain) b) as Hh. rewrite list_lookup_middle in Hh by done. specialize (Hh eq_refl).
  pose proof (vc_len _ Hvb) as Hl. rewrite len_app in Hl. change (len [b]) with 1 in Hl.
  destruct (Context.context_update new_vm cfg Hcfg (map chain_block chain) (chain_block b) (context m) (tables m)) as (c' & Hc & Hok).
  { by apply chain_context_ok. } { rewrite len_map. zlia. } { done. }
  unfold Context.new_data in Hc. rewrite len_map in Hc. unfold chain_block, ext_of in Hc. cbn [Context.cb_hash Context.cb_header Context.cb_coins ChainDb.timestamp block_weight ChainDb.long_term_weight vote ChainDb.cumulative_difficulty] in Hc.
  replace (vb_height b) with (len chain) by (rewrite Hh; done). rewrite Hc.
  destruct (add_block_stores chain b (tables m) Hvb Hst) as (t' & Ht & Hs' & Ha & _).
  unfold expect_ok, database_write, handle_blockchain_request. cbn [tables context]. rewrite Ht. cbn [mbind result_bind transaction].
  unfold emit. eexists. split; [done|]. split; [|done]. split; [done|by destruct chain|done|]. rewrite map_app. done.
Qed.

(** ** Popping blocks *)
Lemma pop_blocks_ok chain popped m :
  in_step (chain ++ popped) m -> chain <> [] -> Context.pop_ok cfg (map chain_block (chain ++ popped)) (len popped) ->
  random (calls m) <> 0 ->
  exists m', pop_blocks new_vm random (len popped) m = (Ok (random (calls m)), m') /\ in_step chain m' /\
    alt_holds (random (calls m)) (len chain) popped (tables m') /\ calls m' = S (calls m).
Proof using Hcfg L ML.
  intros [Hcc _ Hst Htk] Hne Hpop Hid. unfold pop_blocks, mbind, act_bind, random_id. cbn [calls].
  destruct (pop_request (random (calls m)) chain popped (tables m) Hid Hne (cc_valid _ _ Hcc) (chain_linked _ Hcc) Hst) as (t' & Ht & Hs' & Ha').
  unfold expect_ok, database_write. cbn [tables context]. rewrite Ht. cbn [pure_act]. unfold pure_act, context_call. cbn [tables context].
  pose proof (chain_prefix _ _ Hcc) as Hcp.
  assert (take (Z.to_nat (len (map chain_block (chain ++ popped)) - len popped)) (map chain_block (chain ++ popped)) = map chain_block chain) as Htake.
  { rewrite len_map, len_app, map_app. replace (Z.to_nat (len chain + len popped - len popped)) with (length (map chain_block chain)) by (rewrite length_map; unfold len; lia).
    by rewrite take_app_length. }
  destruct (Context.context_pop new_vm cfg Hcfg (map chain_block (chain ++ popped)) (len popped) (context m) t') as (c' & Hc & Hok).
  { apply chain_context_ok; [done|by destruct chain]. } { done. }
  { rewrite Htake. apply serves_context; [apply (cc_valid _ _ Hcp)|done|done]. } { done. }
  rewrite Hc. unfold mret, act_ret. eexists. split; [done|]. split; [|done]. split; [done|done|done|]. by rewrite Htake in Hok.
Qed.

(** ** Putting popped blocks back *)

(** What is not kept of a block is its proof-of-work hash. *)
Definition restored (b : VerifiedBlockInformation) : VerifiedBlockInformation :=
  mk_verified_block (block b) (block_blob b) (txs b) (vb_block_hash b) (repeat 255 32) (vb_height b) (generated_coins b) (weight b)
    (vb_long_term_weight b) (vb_cumulative_difficulty b).

Lemma restored_block past b ctx id :
  block_facts cfg past b -> past <> [] -> vb_height b = len past -> Context.context_of cfg (map chain_block past) = Ok ctx ->
  alt_block_to_verified_block_information (popped_alt id b) ctx = Ok (restored b).
Proof using Type.
  intros Hf Hne Hh Hctx. destruct (context_fields cfg past ctx Hctx) as (F1 & _ & _). destruct (bf_context _ _ _ Hf Hne) as (ctx' & Hctx' & W1 & W2).
  rewrite Hctx in Hctx'. injection Hctx' as <-. unfold alt_block_to_verified_block_information, popped_alt, restored.
  cbn [ab_height ab_block ab_block_blob ab_txs ab_block_hash ab_weight]. rewrite F1, Hh, Z.eqb_refl. cbn [rassert mbind result_bind].
  by rewrite W1, W2, (bf_coins _ _ _ Hf), (bf_blob _ _ _ Hf).
Qed.

Lemma add_old_block_ok chain b m id :
  in_step chain m -> consensus_chain cfg (chain ++ [b]) ->
  exists m', add_old_block new_vm (popped_alt id b) m = (Ok (), m') /\ in_step (chain ++ [b]) m' /\
    alt_part (tables m') = alt_part (tables m) /\ calls m' = calls m.
Proof using Hcfg L ML.
  intros Hin Hcb. pose proof (cc_facts _ _ Hcb (length chain) b) as Hbf. rewrite take_app_length, list_lookup_middle in Hbf by done.
  specialize (Hbf eq_refl). pose proof (vc_heights _ (cc_valid _ _ Hcb) (length chain) b) as Hh. rewrite list_lookup_middle in Hh by done. specialize (Hh eq_refl).
  unfold add_old_block, mbind, act_bind, blockchain_context, pure_act.
  rewrite (restored_block chain b _ id Hbf (st_some _ _ Hin) Hh (in_step_context _ _ Hin)).
  change (add_valid_block_to_main_chain new_vm (restored b) m) with (add_valid_block_to_main_chain new_vm b m).
  destruct (add_valid_block_ok chain b m Hin Hcb) as (m' & H1 & H2 & H3 & H4 & _). by exists m'.
Qed.

Lemma add_old_blocks_ok id rest chain m :
  in_step chain m -> consensus_chain cfg (chain ++ rest) ->
  exists m', for_each (add_old_block new_vm) (map (popped_alt id) rest) m = (Ok (), m') /\ in_step (chain ++ rest) m' /\ calls m' = calls m.
Proof using Hcfg L ML.
  revert chain m. induction rest as [|b rest IH]; intros chain m Hin Hcc; [rewrite app_nil_r; by exists m|].
  rewrite cons_middle, app_assoc in Hcc. destruct (add_old_block_ok chain b m id Hin (chain_prefix _ _ Hcc)) as (m1 & H1 & Hin1 & _ & Hc1).
  destruct (IH _ m1 Hin1 Hcc) as (m' & H2 & Hin2 & Hc2). exists m'. cbn [map for_each]. unfold mbind, act_bind. rewrite H1, H2, cons_middle, app_assoc.
  split_and!; [done|done|congruence].
Qed.

(** Popped blocks put back by [reverse_reorg]: the main tables are those from before. *)
Lemma reverse_reorg_ok chain vs popped id m t0 :
  id <> 0 -> chain <> [] -> popped <> [] -> consensus_chain cfg (chain ++ popped) -> stores (chain ++ popped) t0 ->
  in_step (chain ++ vs) m -> alt_holds id (len chain) popped (tables m) ->
  (vs <> [] -> Context.pop_ok cfg (map chain_block (chain ++ vs)) (len vs) /\ random (calls m) <> 0) ->
  exists m', reverse_reorg new_vm random id m = (Ok (), m') /\ in_step (chain ++ popped) m' /\ tables m' = flush_alt_blocks t0.
Proof using Hcfg L ML.
  intros Hid Hne Hpne Hcc Hst0 Hin Ha Hvs. unfold reverse_reorg, mbind, act_bind, expect_ok, Manager.alt_blocks_in_chain, database_read, mbind, act_bind.
  cbn [map_request]. rewrite (alt_chain_read id chain popped (tables m) Hid Hne Hpne (cc_valid _ _ Hcc) Ha). cbn [map_err]. unfold pure_act.
  destruct popped as [|b0 popped]; [done|]. cbn [map head unwrap]. unfold blockchain_context.
  pose proof (vc_heights _ (cc_valid _ _ Hcc) (length chain) b0) as Hh. rewrite list_lookup_middle in Hh by done. specialize (Hh eq_refl).
  destruct (context_fields cfg _ _ (in_step_context _ _ Hin)) as (F1 & _ & _). rewrite F1. cbn [ab_height popped_alt]. rewrite Hh.
  assert (len (chain ++ vs) -! Z.of_nat (length chain) = len vs) as Hn.
  { rewrite len_app. unfold len. pose proof (vc_len _ (cc_valid _ _ (st_chain _ _ Hin))) as Hl. rewrite len_app in Hl. unfold len in Hl. rewrite wrap_small; [lia|zlia]. }
  rewrite Hn.
  assert (exists m1, (if 0 <? len vs then mbind (M := act) (fun _ => mret ()) (pop_blocks new_vm random (len vs)) else mret ()) m = (Ok (), m1) /\ in_step chain m1) as (m1 & H1 & Hin1).
  { destruct vs as [|v vs]; [rewrite app_nil_r in Hin; exists m; done|]. destruct (Hvs ltac:(done)) as [Hp Hr].
    rewrite (proj2 (Z.ltb_lt _ _)) by (unfold len; cbn [length]; lia). destruct (pop_blocks_ok chain (v :: vs) m Hin Hne Hp Hr) as (m1 & H1 & Hin1 & _ & _).
    exists m1. unfold mbind, act_bind. by rewrite H1. }
  unfold mbind, act_bind in H1. rewrite H1. destruct (add_old_blocks_ok id (b0 :: popped) chain m1 Hin1 Hcc) as (m2 & H2 & Hin2 & _).
  cbn [map] in H2. rewrite H2. unfold database_write, handle_blockchain_request. cbn [transaction]. unfold mret, act_ret. eexists. split; [done|].
  pose proof (st_stores _ _ Hin2) as Hs2. split.
  - destruct Hin2 as [I1 I2 I3 I4]. split; [done|done| |done]. by apply (main_stores _ (tables m2)).
  - cbn [tables]. apply parts_eq; [|done]. by apply (stores_unique (chain ++ b0 :: popped) (tables m2) t0).
Qed.

(** ** Verifying alternative blocks *)

(** What [sanity_check_alt_block] or [pop_block] made of a block read from the wire. *)
Record alt_wire (alt : AltBlockInformation) : Prop := {
  aw_hash : ab_block_hash alt = hash_of_block (ab_block alt);
  aw_blob : ab_block_blob alt = block_serialize (ab_block alt);
  aw_block : block_wire (ab_block alt);
  aw_txs : Forall (fun x => tx_wire (v_tx x) /\ exists x0, new_tx_verification_data (v_tx x) = Ok x0 /\ x = verified_tx x0) (ab_txs alt);
}.

Definition same_block (alt : AltBlockInformation) (b : VerifiedBlockInformation) : Prop := block b = ab_block alt /\ txs b = ab_txs alt.

(** The transactions and blocks a reorganisation may bring together. *)
Definition alt_transactions (alt : AltBlockInformation) : list Transaction :=
  BlockRules.miner_transaction (ab_block alt) :: map v_tx (ab_txs alt).

Record room_for (chain : list VerifiedBlockInformation) (alts : list AltBlockInformation) : Prop := {
  rf_wire : Forall alt_wire alts;
  rf_txs : no_tx_collision (map s_tx (chain_txs chain) ++ (alts ≫= alt_transactions));
  rf_blocks : no_block_collision (map block chain ++ map ab_block alts);
  rf_len : len chain + len alts < 2 ^ 32;
  rf_outs : forall vs, Forall2 same_block alts vs -> len (all_outs (chain_txs (chain ++ vs))) < 2 ^ 64;
}.

Lemma tvd_try_from_prepared x x0 :
  tx_wire (v_tx x) -> new_tx_verification_data (v_tx x) = Ok x0 -> x = verified_tx x0 ->
  exists y, tvd_try_from x = Some y /\ prepared y /\ verified_tx y = x /\ tvd_tx y = v_tx x.
Proof using Type.
  intros Hw Hn Hx. pose proof Hn as Hn'. unfold new_tx_verification_data in Hn'. destruct (checked_tx_fee (v_tx x)) as [f|?|]; try done. cbn [map_err mbind result_bind] in Hn'.
  unfold tvd_try_from. destruct (from_raw (version (v_tx x))) as [v|] eqn:Ev; [|done]. cbn [ok_or map_err mbind result_bind] in Hn'. injection Hn' as Hx0.
  cbn [mbind option_bind]. eexists. split; [done|]. split; [split; cbn; [|done|done]|].
  - exists x0. split; [done|]. unfold with_state. rewrite Hx. rewrite <- Hx0. done.
  - split; [by destruct x|done].
Qed.

Lemma alt_txs_prepared xs :
  Forall (fun x => tx_wire (v_tx x) /\ exists x0, new_tx_verification_data (v_tx x) = Ok x0 /\ x = verified_tx x0) xs ->
  exists ys, collect (fun tx => ok_or (tvd_try_from tx) TryFromError) xs = Ok ys /\ Forall prepared ys /\ map verified_tx ys = xs.
Proof using Type.
  induction 1 as [|x xs (Hw & x0 & Hn & Hx) _ (ys & IH1 & IH2 & IH3)]; [exists []; split_and!; done || constructor|].
  destruct (tvd_try_from_prepared x x0 Hw Hn Hx) as (y & E1 & E2 & E3 & _). exists (y :: ys). cbn [collect map]. rewrite E1. cbn [ok_or mbind result_bind].
  rewrite IH1. cbn [mbind result_bind]. split_and!; [done|by constructor|by rewrite E3, IH3].
Qed.

Lemma sub_tx_collision l l' : (forall x, x ∈ l -> x ∈ l') -> no_tx_collision l' -> no_tx_collision l.
Proof using Type. intros Hs H x y Hx Hy. apply H; auto. Qed.

Lemma sub_block_collision l l' : (forall x, x ∈ l -> x ∈ l') -> no_block_collision l' -> no_block_collision l.
Proof using Type. intros Hs H x y Hx Hy. apply H; auto. Qed.

(** A block with the contents of an alternative block. *)
Definition some_block (alt : AltBlockInformation) : VerifiedBlockInformation := mk_verified_block (ab_block alt) [] (ab_txs alt) [] [] 0 0 0 0 0.

Lemma room_one chain alt alts b : room_for chain (alt :: alts) -> same_block alt b -> len (all_outs (chain_txs (chain ++ [b]))) < 2 ^ 64.
Proof using Type.
  intros [_ _ _ _ R5] Hb. assert (Forall2 same_block (alt :: alts) (b :: map some_block alts)) as Hf.
  { constructor; [done|]. rewrite <- (list_fmap_id alts) at 1. apply Forall2_fmap_2, Forall_Forall2_diag, Forall_forall. done. }
  pose proof (R5 _ Hf) as H. rewrite cons_middle, app_assoc, chain_txs_app in H.
  pose proof (all_outs_app_len (chain_txs (chain ++ [b])) (chain_txs (map some_block alts))). lia.
Qed.

Lemma room_next chain alt alts b : room_for chain (alt :: alts) -> same_block alt b -> room_for (chain ++ [b]) alts.
Proof using Type.
  intros [R1 R2 R3 R4 R5] [Hb Ht]. split.
  - by apply List.Forall_cons_iff in R1 as [_ ?].
  - revert R2. apply sub_tx_collision. intros x. rewrite chain_txs_snoc, map_app, !elem_of_app. cbn [mbind list_bind]. rewrite elem_of_app.
    intros [[?|Hx]|?]; [by left| |by right; right]. right. left. unfold alt_transactions. unfold block_txs in Hx. cbn [map s_tx] in Hx.
    rewrite map_map in Hx. cbn [s_tx] in Hx. by rewrite Hb, Ht in Hx.
  - revert R3. apply sub_block_collision. intros x. rewrite map_app. cbn [map]. rewrite Hb. clear. set_solver.
  - rewrite len_app. change (len (alt :: alts)) with (len ([alt] ++ alts)) in R4. rewrite len_app in R4. change (len [alt]) with 1 in R4. change (len [b]) with 1. lia.
  - intros vs Hvs. rewrite <- app_assoc. apply R5. by constructor.
Qed.

(** One alternative block: verified and added, or refused without a change. *)
Lemma verify_add_alt_block_ok chain alt alts m :
  in_step chain m -> room_for chain (alt :: alts) ->
  match verify_add_alt_block new_vm clock rng alt m with
  | (Ok _, m') => exists b, same_block alt b /\ in_step (chain ++ [b]) m' /\ alt_part (tables m') = alt_part (tables m)
  | (Err _, m') => in_step chain m' /\ tables m' = tables m
  | (Panic, _) => True
  end.
Proof using Hcfg L ML.
  intros Hin HR. pose proof HR as [R1 R2 R3 R4 _]. apply List.Forall_cons_iff in R1 as [[W1 W2 W3 W4] _]. unfold verify_add_alt_block, mbind, act_bind, pure_act.
  destruct (alt_txs_prepared _ W4) as (ys & -> & Hp & Hys). destruct (new_alt_block alt) as [pb|?|] eqn:Epb; [|done|done]. cbn [map_err].
  unfold new_alt_block in Epb. destruct (from_version _) as [hf|?|]; try done. cbn [map_err mbind result_bind] in Epb.
  assert (pb_block_hash pb = hash_of_block (pb_block pb) /\ pb_block_blob pb = block_serialize (pb_block pb) /\ pb_block pb = ab_block alt) as (P1 & P2 & P3) by (injection Epb as <-; done).
  clear Epb. unfold now, get_tables, consensus. cbn [tables context calls events].
  assert (map tvd_tx ys = map v_tx (ab_txs alt)) as Hty by (rewrite <- Hys, map_map; done).
  destruct (verify_prepped_main_chain_block rng _ pb ys (tables m) None (context m)) as [[[b cache]|e|] c'] eqn:Ev; [| |done].
  - assert (same_block alt b) as Hsb.
    { destruct (verify_prepped_Ok rng _ chain (tables m) pb ys (context m) b cache c' (st_stores _ _ Hin) Hp Ev) as (_ & _ & _ & _ & _ & v & coins & -> & _).
      split; [exact P3|exact Hys]. }
    destruct (verified_block_extends cfg rng (clock (calls m)) chain (tables m) pb ys (context m) b cache c' (st_chain _ _ Hin) (st_stores _ _ Hin) (in_step_context _ _ Hin) P1 P2) as (-> & Hcb & _).
    { by rewrite P3. } { done. }
    { revert R2. apply sub_tx_collision. intros x. rewrite Hty, P3. cbn [mbind list_bind]. unfold alt_transactions at 1.
      rewrite !elem_of_app, elem_of_cons. intros [?|[?|?]]; [by left| |]; right; left; [by left|by right]. }
    { revert R3. apply sub_block_collision. intros x. cbn [map]. rewrite P3, elem_of_app, !elem_of_cons. tauto. }
    { change (len (alt :: alts)) with (len ([alt] ++ alts)) in R4. rewrite len_app in R4. change (len [alt]) with 1 in R4. unfold len in *. lia. }
    { done. } { by eapply room_one. }
    set (m0 := mk_manager (tables m) (context m) (S (calls m)) (events m)). assert (in_step chain m0) as Hin0 by (destruct Hin; by split).
    destruct (add_valid_block_ok chain b m0 Hin0 Hcb) as (m' & Hm & Hin' & Ha & _). rewrite Hm. exists b. split_and!; done.
  - apply verify_prepped_state in Ev as ->. split; [|done]. destruct Hin. by split.
Qed.

Lemma verify_alts_ok alts chain m :
  in_step chain m -> room_for chain alts ->
  match verify_add_alt_blocks_to_main_chain new_vm clock rng alts m with
  | (Ok _, m') => exists vs, Forall2 same_block alts vs /\ in_step (chain ++ vs) m' /\ alt_part (tables m') = alt_part (tables m)
  | (Err _, m') => exists vs, len vs < len alts /\ in_step (chain ++ vs) m' /\ alt_part (tables m') = alt_part (tables m)
  | (Panic, _) => exists vs alt m1, alt ∈ alts /\ in_step (chain ++ vs) m1 /\ (verify_add_alt_block new_vm clock rng alt m1).1 = Panic
  end.
Proof using Hcfg L ML.
  revert chain m. induction alts as [|alt alts IH]; intros chain m Hin HR; cbn [verify_add_alt_blocks_to_main_chain for_each].
  { exists []. split_and!; [constructor|by rewrite app_nil_r|done]. }
  unfold mbind, act_bind. pose proof (verify_add_alt_block_ok chain alt alts m Hin HR) as H1.
  destruct (verify_add_alt_block new_vm clock rng alt m) as [[[]|e|] m1] eqn:E1; [| |].
  3:{ exists [], alt, m. rewrite E1, app_nil_r. split_and!; [by left|done|done]. }
  - destruct H1 as (b & Hb & Hin1 & Ha1). pose proof (IH _ m1 Hin1 (room_next _ _ _ _ HR Hb)) as H2. unfold verify_add_alt_blocks_to_main_chain in H2.
    destruct (for_each _ alts m1) as [[[]|e|] m2].
    3:{ destruct H2 as (vs & alt' & m3 & H3 & H4 & H5). exists (b :: vs), alt', m3. rewrite <- app_assoc in H4. split_and!; [by right|done|done]. }
    all: destruct H2 as (vs & Hvs & Hin2 & Ha2); exists (b :: vs); rewrite <- app_assoc in Hin2.
    + split_and!; [by constructor|done|congruence].
    + split_and!; [|done|congruence]. unfold len in *. cbn [length]. lia.
  - destruct H1 as [Hin1 ->]. exists []. split_and!; [unfold len; cbn [length]; lia|by rewrite app_nil_r|done].
Qed.

(** ** Claims *)

(** The fork does not change within [n] blocks above the chain, and [n] blocks fit the
    window of votes: the pops the hard-fork state survives. *)
Definition within_fork (chain : list VerifiedBlockInformation) (n : Z) : Prop :=
  n <= HardForkState.hf_window (Context.hard_fork_cfg cfg) /\
  forall k, 0 <= k <= n -> HardForkState.fork_at (Context.hard_fork_cfg cfg) (len chain) = HardForkState.fork_at (Context.hard_fork_cfg cfg) (len chain + k).

Lemma within_fork_pop chain vs n : within_fork chain n -> chain <> [] -> len vs <= n -> Context.pop_ok cfg (map chain_block (chain ++ vs)) (len vs).
Proof using Type.
  intros [Hw Hf] Hne Hl. unfold Context.pop_ok. rewrite len_map, len_app. replace (len chain + len vs - len vs) with (len chain) by lia.
  assert (0 <= len vs /\ 1 <= len chain) by (destruct chain; [done|unfold len; cbn [length]; lia]). split_and!; [lia|lia|lia|apply Hf; lia].
Qed.

Lemma in_step_calls chain m m' : tables m' = tables m -> context m' = context m -> in_step chain m -> in_step chain m'.
Proof using Type. intros H1 H2 [I1 I2 I3 I4]. split; [done|done|by rewrite H1|by rewrite H2]. Qed.

(** C3. A reorganisation inside one hard fork is all or nothing, unless verification
    panics. The blocks of an alternative chain that leaves the main chain above [chain] are
    tried, where no fork activates within the popped blocks or within the alternative ones,
    both fit the window of votes ([within_fork]: across an activation the hard-fork state
    is left on the later fork, see [HardForkState.hardfork_pop_full_window]), the blocks
    are within the size limits and no hashes collide ([room_for]). There are three
    outcomes. All the alternative blocks become the top of the main chain, database and
    context in step. Or one of them is refused: then reversing never fails, the database
    holds exactly the old chain again, table by table, the published context is the old
    one, and only the alternative blocks are gone. Or there is a panic, and it comes from
    [verify_add_alt_block] on one of the alternative blocks: popping, adding verified
    blocks and reversing never panic. *)
Theorem reorg_all_or_nothing chain popped alts top m :
  in_step (chain ++ popped) m -> chain <> [] -> popped <> [] ->
  BlockchainService.alt_blocks_in_chain (tables m) (ab_chain_id top) = Ok (AltBlocksInChain alts) ->
  (ab_height <$> head (alts ++ [top])) = Some (len chain) -> room_for chain (alts ++ [top]) ->
  within_fork chain (len popped) -> within_fork chain (len (alts ++ [top])) -> (forall n, random n <> 0) ->
  match try_do_reorg new_vm clock random rng top m with
  | (Ok _, m') => exists vs, Forall2 same_block (alts ++ [top]) vs /\ in_step (chain ++ vs) m'
  | (Err _, m') => in_step (chain ++ popped) m' /\ tables m' = flush_alt_blocks (tables m) /\
      Context.context_cache (context m') = Context.context_cache (context m)
  | (Panic, _) => exists vs alt m1, alt ∈ alts ++ [top] /\ in_step (chain ++ vs) m1 /\ (verify_add_alt_block new_vm clock rng alt m1).1 = Panic
  end.
Proof using Hcfg L ML.
  intros Hin Hne Hpne Hread Hfirst HR Hw1 Hw2 Hrand. unfold try_do_reorg, mbind, act_bind, Manager.alt_blocks_in_chain, database_read, mbind, act_bind.
  cbn [map_request]. rewrite Hread. cbn [map_err]. unfold pure_act. set (all := alts ++ [top]) in *.
  destruct (head all) as [first|] eqn:Ef; [|done]. injection Hfirst as Hf. cbn [unwrap]. unfold blockchain_context.
  destruct (context_fields cfg _ _ (in_step_context _ _ Hin)) as (F1 & _ & _). rewrite F1, Hf.
  assert (len (chain ++ popped) -! len chain = len popped) as ->.
  { pose proof (vc_len _ (cc_valid _ _ (st_chain _ _ Hin))) as Hl. rewrite len_app in *. unfold len in *. rewrite wrap_small; [lia|zlia]. }
  destruct (pop_blocks_ok chain popped m Hin Hne (within_fork_pop chain popped _ Hw1 Hne ltac:(lia)) (Hrand _)) as (m1 & -> & Hin1 & Ha1 & Hc1).
  unfold or_reverse. pose proof (verify_alts_ok all chain m1 Hin1 HR) as Hv.
  destruct (verify_add_alt_blocks_to_main_chain new_vm clock rng all m1) as [[[]|e|] m2].
  - destruct Hv as (vs & Hvs & Hin2 & _). by exists vs.
  - destruct Hv as (vs & Hl & Hin2 & Ha2).
    destruct (reverse_reorg_ok chain vs popped (random (calls m)) m2 (tables m) (Hrand _) Hne Hpne (st_chain _ _ Hin) (st_stores _ _ Hin) Hin2) as (m3 & -> & Hin3 & Ht3).
    { by eapply alt_holds_part. } { intros _. split; [apply (within_fork_pop chain vs _ Hw2 Hne); lia|apply Hrand]. }
    split_and!; [done|done|]. pose proof (in_step_context _ _ Hin3) as E3. rewrite (in_step_context _ _ Hin) in E3. by injection E3.
  - exact Hv.
Qed.

(** C4. A block for the main chain. Whatever block and prepared transactions come from the
    wire, a block that names the top block as its parent is either refused, and then
    database and chain context are as before, or it is added to database and context, and
    these are in step for the chain with the new block, which holds that block and its
    transactions in order; the block is then broadcast and the pool is told the key images
    it spends. The manager panics only if the verification of the block panics. *)
Theorem incoming_block_extends_chain chain m blk txs :
  in_step chain m -> BlockRules.previous (BlockRules.header blk) = Context.top_hash_of (map chain_block chain) ->
  block_wire blk -> (forall h x, txs !! h = Some x -> prepared x) ->
  no_tx_collision (map s_tx (chain_txs chain) ++ BlockRules.miner_transaction blk :: map (fun p => tvd_tx p.2) (map_to_list txs)) ->
  no_block_collision (blk :: map block chain) -> len chain + 1 < 2 ^ 32 ->
  (forall b, block b = blk -> Forall (fun x => exists y, y ∈ (map_to_list txs).*2 /\ x = verified_tx y) (AltBlocks.txs b) ->
     len (all_outs (chain_txs (chain ++ [b]))) < 2 ^ 64) ->
  match handle_incoming_block new_vm clock random rng blk txs m with
  | (Ok r, m') => r = AddedToMainChain /\ exists b, block b = blk /\ map v_tx_hash (AltBlocks.txs b) = BlockRules.transactions blk /\
      in_step (chain ++ [b]) m' /\
      events m' = events m ++ [TxpoolNewBlock (AltBlocks.txs b ≫= fun x => kis_of (v_tx x)); BroadcastBlock (block_serialize blk) (len chain + 1)]
  | (Err _, m') => in_step chain m' /\ tables m' = tables m /\ events m' = events m
  | (Panic, _) => (verify_main_chain_block new_vm rng (clock (calls m)) blk txs (tables m) (context m)).1 = Panic
  end.
Proof using Hcfg L ML.
  intros Hin Hprev Hw Htx Hct Hcb Hl Hroom. pose proof (in_step_context _ _ Hin) as Hctx. destruct (context_fields cfg chain _ Hctx) as (_ & _ & F3).
  unfold handle_incoming_block, mbind, act_bind, blockchain_context. rewrite F3, bool_decide_eq_true_2 by done. cbn [negb].
  unfold now, get_tables, consensus. cbn [tables context calls events].
  destruct (verify_main_chain_block new_vm rng (clock (calls m)) blk txs (tables m) (context m)) as [r c'] eqn:Ev.
  destruct (verify_main_Ok new_vm cfg rng _ blk txs (tables m) (context m) r c' Ev) as [Hkeep Hok].
  set (m0 := mk_manager (tables m) c' (S (calls m)) (events m)). assert (in_step chain m0) as Hin0.
  { destruct Hin as [I1 I2 I3 I4]. split; [done|done|done|by apply Hkeep]. }
  destruct r as [b|e|]; [|split_and!; done|done]. destruct (Hok b eq_refl) as (pb & ordered & cache & P1 & P2 & P3 & Hord & Hv).
  assert (Forall prepared ordered) as Hp.
  { apply (List.Forall_impl _ (P := fun x => x ∈ (map_to_list txs).*2)); [|done]. intros x ([h y] & -> & Hx)%list_elem_of_fmap.
    apply elem_of_map_to_list in Hx. by eapply Htx. }
  destruct (verify_prepped_Ok rng _ chain (tables m) pb ordered c' b cache c' (st_stores _ _ Hin) Hp Hv) as (_ & V1 & _ & _ & _ & v & coins & Hb & _).
  destruct (verified_block_extends cfg rng (clock (calls m)) chain (tables m) pb ordered c' b cache c' (st_chain _ _ Hin) (st_stores _ _ Hin) (in_step_context _ _ Hin0)) as (_ & Hcc & B1 & B2).
  { by rewrite P1. } { by rewrite P1. } { by rewrite P1. } { done. }
  { revert Hct. apply sub_tx_collision. intros x. rewrite P1, !elem_of_app, !elem_of_cons. intros [?|[?|Hx]]; [by left|right; by left|right; right].
    apply list_elem_of_fmap in Hx as (y & -> & Hy). rewrite Forall_forall in Hord. apply Hord, list_elem_of_fmap in Hy as (p & -> & Hy).
    apply list_elem_of_fmap. by exists p. }
  { by rewrite P1. } { done. } { done. }
  { apply Hroom; [by rewrite Hb|]. rewrite Hb. apply Forall_map, (List.Forall_impl _ (P := fun x => x ∈ (map_to_list txs).*2)); [|done]. intros x Hx. by exists x. }
  destruct (add_valid_block_ok chain b m0 Hin0 Hcc) as (m1 & Hm1 & Hin1 & _ & _ & Hev). rewrite Hm1. unfold broadcast_block, emit, mret, act_ret.
  split; [done|]. exists b. split_and!; [by rewrite B1| |by apply (in_step_calls _ m1)|].
  - rewrite B2, map_map. by rewrite <- P1, V1.
  - cbn [events]. destruct (context_fields cfg _ _ (in_step_context _ _ Hin1)) as (F1 & _ & _). rewrite F1, len_app. change (len [b]) with 1.
    rewrite Hev. cbn [events m0].
    rewrite <- app_assoc. cbn [app]. by rewrite Hb; cbn [block_blob built]; rewrite P3.
Qed.
End facts.

(** ** A node with two blocks

    A codec for version 1 miner transactions, which are known by their height and amount,
    and a node that has stored a genesis block. *)
Import Transparent TestHelpers.

Module TestNode.
Definition miner (h amount : Z) : Transaction (H := oxide) :=
  Tx_V1 (H := oxide) (mk_prefix (H := oxide) (TL_Block (h + 60)) [Gen (H := oxide) h] [mk_output (H := oxide) (Some amount) (20 + h) None]) [].

Definition amount_of (tx : Transaction (H := oxide)) : Z := default 0 (o ← head (outputs (prefix tx)); out_amount o).
Definition height_of (tx : Transaction (H := oxide)) : Z := match inputs (prefix tx) with Gen h :: _ => h | _ => 0 end.
Definition node_tx_serialize (tx : Transaction (H := oxide)) : bytes := [height_of tx; amount_of tx].

#[export] Instance node_codec : MoneroCodec oxide := {|
  tx_serialize := node_tx_serialize;
  tx_read b := match b with [h; amount] => Some (miner h amount) | _ => None end;
  tx_hash tx := height_of tx :: amount_of tx :: repeat 0 30;
  tx_weight _ := 2;
  header_serialize := TestStore.test_header_serialize;
  header_read := TestStore.test_header_read;
  block_serialize b :=
    TestStore.test_header_serialize (BlockRules.header b) ++ node_tx_serialize (BlockRules.miner_transaction b)
    ++ [len (BlockRules.transactions b)] ++ concat (BlockRules.transactions b);
  block_read b :=
    header ← TestStore.test_header_read b;
    match drop 35 b with
    | h :: amount :: n :: rest => Some (BlockRules.mk_block (O := oxide) header (miner h amount) (TestStore.chunks (Z.to_nat n) rest))
    | _ => None
    end;
  block_new header m txs := Some (BlockRules.mk_block (O := oxide) header m txs);
  varint_write n := [n];
|}.

#[export] Instance node_batch : MoneroBatch oxide := {|
  batch_new := 0%nat;
  batch_valid _ := true;
  calculate_clawback _ _ := 0;
|}.

(** A block is known by its height and its timestamp. *)
#[export] Instance node_pow : BlockPow oxide bytes := {|
  hash_of_block b := height_of (BlockRules.miner_transaction b) :: BlockRules.timestamp (BlockRules.header b) :: repeat 0 30;
  serialize_pow_hash _ := [];
  cryptonight_hash_v0 _ := repeat 0 32;
  cryptonight_hash_v1 _ := None;
  cryptonight_hash_v2 _ := repeat 0 32;
  cryptonight_hash_r _ _ := repeat 0 32;
  calculate_hash _ _ := None;
|}.

Definition node_block (h time amount : Z) (prev : bytes) : BlockRules.Block :=
  BlockRules.mk_block (O := oxide) (BlockRules.mk_header 1 1 time prev) (miner h amount) [].

Definition genesis_block : BlockRules.Block := node_block 0 0 17592186044415 (repeat 0 32).
Definition genesis : VerifiedBlockInformation (O := oxide) :=
  mk_verified_block (O := oxide) genesis_block (block_serialize genesis_block) [] (hash_of_block genesis_block) (repeat 0 32) 0
    17592186044415 2 2 1.

(** The reward of the second block. *)
Definition reward : Z := 17592169267200.
Definition second_block : BlockRules.Block := node_block 1 10 reward (hash_of_block genesis_block).

Definition cfg : Context.ContextConfig := Context.TestContext.cfg.
Definition clock (n : nat) : Z := 5000.
Definition random (n : nat) : Z := 7 + Z.of_nat n.
Definition rng (x : TransactionVerificationData (O := oxide)) : Rng (MoneroOxide := oxide) := ().

Definition db : Tables := match add_block genesis (no_blocks empty_tables) with Ok t => t | _ => empty_tables end.
Definition start : BlockchainManager (O := oxide) (Vm := bytes) := mk_manager db (Context.TestContext.task (Context.init_context Some cfg db)) 0 [].

(** The second block as it was verified, and two blocks of an alternative chain, the last
    of which pays too much. *)
Definition second : VerifiedBlockInformation (O := oxide) :=
  mk_verified_block (O := oxide) second_block (block_serialize second_block) [] (hash_of_block second_block) (repeat 0 32) 1 reward 2 2 2.

Definition alt_block (b : BlockRules.Block) (h : Z) : AltBlockInformation (O := oxide) :=
  mk_alt_block (O := oxide) b (block_serialize b) [] (hash_of_block b) (repeat 0 32) h 2 2 (1 + h) 9.

Definition alt1 : AltBlockInformation (O := oxide) := alt_block (node_block 1 20 reward (hash_of_block genesis_block)) 1.
Definition alt2 : AltBlockInformation (O := oxide) := alt_block (node_block 2 30 (2 * reward) (ab_block_hash alt1)) 2.

(** The node with both blocks of the main chain and the first alternative block. *)
Definition two : BlockchainManager (O := oxide) (Vm := bytes) := (add_valid_block_to_main_chain Some second start).2.
Definition forked : BlockchainManager (O := oxide) (Vm := bytes) :=
  mk_manager (match AltBlocks.add_alt_block alt1 (tables two) with Ok t => t | _ => tables two end) (context two) 0 [].
End TestNode.
Import TestNode.

Lemma test_tx_wire h amount : is_u 64 amount -> 0 <= h < 1000 -> tx_wire (TestNode.miner h amount).
Proof.
  intros Ha Hh. split; [|apply Forall_singleton; by eexists|done| |done].
  - split; apply Forall_singleton; [exact Ha|done].
  - unfold timelock_ok, MAX_BLOCK_HEIGHT. cbn. lia.
Qed.

Lemma test_block_wire h time amount prev :
  is_u 64 amount -> 0 <= h < 1000 -> length prev = 32%nat -> block_wire (TestNode.node_block h time amount prev).
Proof.
  intros Ha Hh Hp. do 33 (destruct prev as [|? prev]; try done). split; [done|done|by apply test_tx_wire|done|done].
Qed.

Lemma test_genesis_chain : consensus_chain (Vm := bytes) TestNode.cfg [TestNode.genesis].
Proof.
  assert (block_wire TestNode.genesis_block) as Hw by (apply test_block_wire; done). split.
  - split.
    + intros [|i] b Hb; [by injection Hb as <-|done].
    + done.
    + apply NoDup_singleton.
    + apply NoDup_singleton.
    + constructor.
    + done.
    + apply Forall_singleton. split; try done; [split; [apply (tw_shape _ (bw_miner _ Hw))|done]|by eexists|].
      apply Forall_singleton. unfold timelock_ok, MAX_BLOCK_HEIGHT. cbn. lia.
  - intros [|i] b Hb; [injection Hb as <-|done]. split; done.
Qed.

Lemma test_genesis_stores : stores [TestNode.genesis] TestNode.db.
Proof.
  destruct (add_blocks_stores [] [TestNode.genesis] (no_blocks empty_tables) (cc_valid _ _ test_genesis_chain) (stores_nil _)) as (t & E & Hst & _).
  unfold TestNode.db. cbn [try_fold] in E. destruct (add_block TestNode.genesis (no_blocks empty_tables)) as [t'|?|]; [|done|done]. by injection E as <-.
Qed.

Lemma test_start : in_step TestNode.cfg [TestNode.genesis] TestNode.start.
Proof.
  split; [apply test_genesis_chain|done|apply test_genesis_stores|].
  destruct (Context.context_init Some id (fun _ => eq_refl) TestNode.cfg Context.test_config_ok (map chain_block [TestNode.genesis]) TestNode.db) as (t & Ht & Hok).
  - apply chain_context_ok; [apply test_genesis_chain|done].
  - apply serves_context; [apply (cc_valid _ _ test_genesis_chain)|done|apply test_genesis_stores].
  - cbn [context TestNode.start]. unfold TestNode.start. cbn [context]. by rewrite Ht.
Qed.

Lemma incoming_block_extends_chain_witness :
  exists b m', handle_incoming_block Some TestNode.clock TestNode.random TestNode.rng TestNode.second_block ∅ TestNode.start = (Ok AddedToMainChain, m') /\
    block b = TestNode.second_block /\ in_step TestNode.cfg [TestNode.genesis; b] m'.
Proof.
  assert ((handle_incoming_block Some TestNode.clock TestNode.random TestNode.rng TestNode.second_block ∅ TestNode.start).1 = Ok AddedToMainChain) as Hr by (vm_compute; reflexivity).
  pose proof (incoming_block_extends_chain Some TestNode.clock TestNode.random TestNode.rng TestNode.cfg Context.test_config_ok [TestNode.genesis]
    TestNode.start TestNode.second_block ∅ test_start eq_refl) as H.
  destruct (handle_incoming_block Some TestNode.clock TestNode.random TestNode.rng TestNode.second_block ∅ TestNode.start) as [r m'].
  cbn [fst] in Hr. subst r. destruct H as (_ & b & Hb & _ & Hin & _).
  - apply test_block_wire; done.
  - intros h x Hx. done.
  - intros x y Hx Hy. rewrite map_to_list_empty in Hx, Hy. cbn in Hx, Hy. rewrite !elem_of_cons, elem_of_nil in Hx, Hy. naive_solver.
  - intros x y Hx Hy. cbn in Hx, Hy. rewrite !elem_of_cons, elem_of_nil in Hx, Hy. naive_solver.
  - done.
  - intros b Hb Ht. rewrite map_to_list_empty in Ht. destruct (AltBlocks.txs b) as [|x xs] eqn:Ex.
    + unfold chain_txs, block_txs. cbn. rewrite Hb, Ex. done.
    + apply List.Forall_inv in Ht as (y & Hy & _). by apply not_elem_of_nil in Hy.
  - exists b, m'. split; [reflexivity|]. split; [exact Hb|exact Hin].
Defined.

Lemma test_two_chain : consensus_chain (Vm := bytes) TestNode.cfg [TestNode.genesis; TestNode.second].
Proof.
  assert (block_wire TestNode.second_block) as Hw by (apply test_block_wire; done). destruct test_genesis_chain as [[V1 V2 V3 V4 V5 V6 V7] Hf]. split.
  - split.
    + intros [|[|i]] b Hb; [by injection Hb as <-|by injection Hb as <-|done].
    + done.
    + by apply (bool_decide_unpack _); vm_compute.
    + by apply (bool_decide_unpack _); vm_compute.
    + constructor.
    + done.
    + apply List.Forall_cons; [by apply List.Forall_inv in V7|].
      apply Forall_singleton. split; try done; [split; [apply (tw_shape _ (bw_miner _ Hw))|done]|by eexists|].
      apply Forall_singleton. unfold timelock_ok, MAX_BLOCK_HEIGHT. cbn. lia.
  - intros [|[|i]] b Hb; [injection Hb as <-; by apply (Hf 0%nat)|injection Hb as <-|done]. split; try done.
    intros _. eexists. split; [vm_compute; reflexivity|]. done.
Qed.

Lemma test_two : in_step TestNode.cfg [TestNode.genesis; TestNode.second] TestNode.two.
Proof.
  destruct (add_valid_block_ok Some TestNode.cfg Context.test_config_ok [TestNode.genesis] TestNode.second TestNode.start test_start test_two_chain) as (m' & Hm & Hin & _).
  unfold TestNode.two. by rewrite Hm.
Qed.

Lemma test_forked : in_step TestNode.cfg [TestNode.genesis; TestNode.second] TestNode.forked.
Proof.
  destruct test_two as [H1 H2 H3 H4]. split; [exact H1|done| |exact H4]. apply (main_stores _ (tables TestNode.two)); [|exact H3]. vm_compute. reflexivity.
Qed.

Lemma reorg_all_or_nothing_witness :
  exists e m', try_do_reorg Some TestNode.clock TestNode.random TestNode.rng TestNode.alt2 TestNode.forked = (Err e, m') /\
    in_step TestNode.cfg [TestNode.genesis; TestNode.second] m' /\ tables m' = flush_alt_blocks (tables TestNode.forked).
Proof.
  assert (exists e, (try_do_reorg Some TestNode.clock TestNode.random TestNode.rng TestNode.alt2 TestNode.forked).1 = Err e) as [e He]
    by (eexists; vm_compute; reflexivity).
  pose proof (reorg_all_or_nothing Some TestNode.clock TestNode.random TestNode.rng TestNode.cfg Context.test_config_ok [TestNode.genesis]
    [TestNode.second] [TestNode.alt1] TestNode.alt2 TestNode.forked test_forked) as H.
  destruct (try_do_reorg Some TestNode.clock TestNode.random TestNode.rng TestNode.alt2 TestNode.forked) as [r m'].
  cbn [fst] in He. subst r. destruct H as (Hin & Ht & _).
  - done.
  - done.
  - vm_compute. reflexivity.
  - reflexivity.
  - split.
    + repeat (apply List.Forall_cons; [split; [done|done|apply test_block_wire; done|constructor]|]). constructor.
    + intros x y Hx Hy. cbn in Hx, Hy. rewrite !elem_of_cons, elem_of_nil in Hx, Hy. naive_solver.
    + intros x y Hx Hy. cbn in Hx, Hy. rewrite !elem_of_cons, elem_of_nil in Hx, Hy. naive_solver.
    + done.
    + intros vs Hvs. inversion Hvs as [|? b1 ? vs1 [E1 F1] Hvs1]; subst. inversion Hvs1 as [|? b2 ? vs2 [E2 F2] Hvs2]; subst. inversion Hvs2; subst.
      unfold chain_txs, block_txs. cbn [app mbind list_bind]. rewrite E1, E2, F1, F2. done.
  - split; [done|]. intros k Hk. change (len [TestNode.second]) with 1 in Hk. change (len [TestNode.genesis]) with 1. assert (k = 0 \/ k = 1) as [->| ->] by lia; by vm_compute.
  - split; [done|]. intros k Hk. change (len ([TestNode.alt1] ++ [TestNode.alt2])) with 2 in Hk. change (len [TestNode.genesis]) with 1.
    assert (k = 0 \/ k = 1 \/ k = 2) as [->|[->| ->]] by lia; by vm_compute.
  - intros n. unfold TestNode.random. lia.
  - exists e, m'. split; [reflexivity|]. split; [exact Hin|exact Ht].
Defined.
End ManagerFacts.
