(* ===== verification/TxPool.v ===== *)
(** * The transaction pool database ([src/storage/txpool/src]: [types.rs], [tables.rs],
    [ops], [service/read.rs], [service/write.rs], [service/interface.rs], [free.rs])

    The tables of the pool, the operations on them, and the requests of the two services.
    A write request is one database transaction: committed as a whole or aborted. The
    requests whose handlers are [todo!()] in the source panic, so they have no response
    here; the clock is an argument. *)
From S2P Require Import Prelude Bytes HardForks ChainDb TxData RulesBase TxRules TxContext BlockRules Helpers DbTables TxOps TxVerification.
From Stdlib Require Import ZArith Lia String.
From stdpp Require Import base tactics option list numbers sets gmap.
Import HardForks ChainDb TxData RulesBase TxRules TxContext Helpers DbTables TxOps TxVerification.

#[local] Open Scope Z_scope.
#[local] Open Scope usize_scope.

Module TxPool.

(** ** Stored data *)
Definition STATE_STEM : Z := 1.
Definition DOUBLE_SPENT : Z := 2.

(** [flags.contains(f)], [flags.set(f, true)], [flags.remove(f)] *)
Definition flag_contains (flags f : Z) : bool := Z.land flags f =? f.
Definition flag_insert (flags f : Z) : Z := Z.lor flags f.
Definition flag_remove (flags f : Z) : Z := Z.ldiff flags f.
Definition flag_set (flags f : Z) (value : bool) : Z := if value then flag_insert flags f else flag_remove flags f.

Definition private (flags : Z) : bool := flag_contains flags STATE_STEM.

Record TransactionInfo := mk_info { ti_fee : Z; ti_weight : Z; received_at : Z; flags : Z }.

Record RawCachedVerificationState := mk_raw_state {
  raw_valid_at_hash : bytes;
  raw_hf : Z;
  raw_valid_past_timestamp : bytes;
}.

Definition state_of_raw (value : RawCachedVerificationState) : result RuntimeError CachedVerificationState :=
  if bool_decide (raw_valid_at_hash value = repeat 0 32) then
    if negb (raw_hf value =? 0) then hf ← expect (from_version (raw_hf value)); Ok (OnlySemantic hf)
    else Ok NotVerified
  else
    let timestamp := le_combine (raw_valid_past_timestamp value) in
    if timestamp =? 0 then
      hf ← expect (from_version (raw_hf value));
      Ok (ValidAtHashAndHF (raw_valid_at_hash value) hf)
    else
      hf ← expect (from_version (raw_hf value));
      Ok (ValidAtHashAndHFWithTimeBasedLock (raw_valid_at_hash value) hf (TL_Time timestamp)).

Definition raw_of_state {E} (value : CachedVerificationState) : result E RawCachedVerificationState :=
  match value with
  | NotVerified => Ok (mk_raw_state (repeat 0 32) 0 (repeat 0 8))
  | OnlySemantic hf => Ok (mk_raw_state (repeat 0 32) (as_u8 hf) (repeat 0 8))
  | ValidAtHashAndHF block_hash hf => Ok (mk_raw_state block_hash (as_u8 hf) (repeat 0 8))
  | ValidAtHashAndHFWithTimeBasedLock block_hash hf time_lock =>
      match time_lock with
      | TL_Time time => Ok (mk_raw_state block_hash (as_u8 hf) (le_split 8 time))
      | TL_None | TL_Block _ => Panic
      end
  end.

Record PoolTables := mk_pool_tables {
  transaction_blobs : gmap bytes bytes;
  transaction_infos : gmap bytes TransactionInfo;
  cached_states : gmap bytes RawCachedVerificationState;
  spent_key_images : gmap bytes bytes;
  known_blob_hashes : gmap bytes bytes;
}.

Definition empty_pool : PoolTables := mk_pool_tables ∅ ∅ ∅ ∅ ∅.

Definition set_spent_key_images (kis : gmap bytes bytes) (t : PoolTables) : PoolTables :=
  mk_pool_tables (transaction_blobs t) (transaction_infos t) (cached_states t) kis (known_blob_hashes t).

Definition set_infos (infos : gmap bytes TransactionInfo) (t : PoolTables) : PoolTables :=
  mk_pool_tables (transaction_blobs t) infos (cached_states t) (spent_key_images t) (known_blob_hashes t).

Inductive TxPoolWriteError := DoubleSpend (tx_hash : bytes) | PoolDatabase (e : RuntimeError).

(** [Database(#[from] RuntimeError)] *)
Definition db_err {A} (r : DbResult A) : result TxPoolWriteError A := map_err PoolDatabase r.

Section ops.
Context {O : MoneroOxide} {T : TransactionOps O} {C : Dalek O} {Cd : MoneroCodec O} {B : MoneroBatch O}.
(** [blake3::hash] *)
Context (blake3 : bytes -> bytes).

Definition transaction_blob_hash (tx_blob : bytes) : bytes := blake3 tx_blob.

(** ** Key images *)
Definition ki_from_input {E} (input : Input) : result E bytes :=
  match input with ToKey _ _ key_image => Ok (to_bytes key_image) | Gen _ => Panic end.

Definition add_tx_key_images (inputs : list Input) (tx_hash : bytes) (kis_table : gmap bytes bytes)
    : result TxPoolWriteError (gmap bytes bytes) :=
  try_fold (fun kis_table input =>
    ki ← ki_from_input input;
    match db_get kis_table ki with
    | Ok double_spend_tx_hash => Err (DoubleSpend double_spend_tx_hash)
    | _ => Ok (db_put ki tx_hash kis_table)
    end) kis_table inputs.

Definition remove_tx_key_images (inputs : list Input) (kis_table : gmap bytes bytes) : DbResult (gmap bytes bytes) :=
  try_fold (fun kis_table input => ki ← ki_from_input input; Ok (db_delete ki kis_table)) kis_table inputs.

(** ** Transactions *)
Definition add_transaction (now : Z) (tx : TransactionVerificationData) (state_stem : bool) (t : PoolTables)
    : result TxPoolWriteError PoolTables :=
  let blobs := db_put (tvd_tx_hash tx) (tvd_tx_blob tx) (transaction_blobs t) in
  let flags := flag_set 0 STATE_STEM state_stem in
  let infos := db_put (tvd_tx_hash tx) (mk_info (tvd_fee tx) (tvd_tx_weight tx) now flags) (transaction_infos t) in
  state ← raw_of_state (cached_verification_state tx);
  let states := db_put (tvd_tx_hash tx) state (cached_states t) in
  kis ← add_tx_key_images (inputs (prefix (tvd_tx tx))) (tvd_tx_hash tx) (spent_key_images t);
  let blob_hash := transaction_blob_hash (tvd_tx_blob tx) in
  Ok (mk_pool_tables blobs infos states kis (db_put blob_hash (tvd_tx_hash tx) (known_blob_hashes t))).

Definition remove_transaction (tx_hash : bytes) (t : PoolTables) : DbResult PoolTables :=
  '((tx_blob, blobs) : bytes * gmap bytes bytes) ← db_take tx_hash (transaction_blobs t);
  let infos := db_delete tx_hash (transaction_infos t) in
  let states := db_delete tx_hash (cached_states t) in
  tx ← unwrap (tx_read tx_blob);
  kis ← remove_tx_key_images (inputs (prefix tx)) (spent_key_images t);
  let blob_hash := transaction_blob_hash tx_blob in
  Ok (mk_pool_tables blobs infos states kis (db_delete blob_hash (known_blob_hashes t))).

Definition get_transaction_verification_data (tx_hash : bytes) (t : PoolTables) : DbResult TransactionVerificationData :=
  tx_blob ← db_get (transaction_blobs t) tx_hash;
  tx_info ← db_get (transaction_infos t) tx_hash;
  raw ← db_get (cached_states t) tx_hash;
  state ← state_of_raw raw;
  tx ← unwrap (tx_read tx_blob);
  version ← unwrap (from_raw (version tx));
  Ok (mk_tvd tx version tx_blob (ti_weight tx_info) (ti_fee tx_info) tx_hash state).

Definition in_stem_pool (tx_hash : bytes) (infos : gmap bytes TransactionInfo) : DbResult bool :=
  info ← db_get infos tx_hash;
  Ok (flag_contains (flags info) STATE_STEM).

(** ** The write service *)
Inductive TxpoolWriteRequest :=
  | AddTransaction (tx : TransactionVerificationData) (state_stem : bool)
  | RemoveTransaction (tx_hash : bytes)
  | Promote (tx_hash : bytes)
  | NewBlock (spent_key_images : list bytes).

Inductive TxpoolWriteResponse :=
  | WriteOk
  | NewBlockResponse (txs_removed : list bytes)
  | AddTransactionResponse (double_spent : option bytes).

Definition promoted (now : Z) (info : TransactionInfo) : TransactionInfo :=
  mk_info (ti_fee info) (ti_weight info) now (flag_remove (flags info) STATE_STEM).

(** The body of the loop of [new_block]: the tables and the transactions removed. *)
Definition new_block_step '((t, txs_removed) : PoolTables * list bytes) (key_image : bytes) : DbResult (PoolTables * list bytes) :=
  match db_get (spent_key_images t) key_image with
  | Ok tx_hash =>
      let txs_removed := txs_removed ++ [tx_hash] in
      match remove_transaction tx_hash t with
      | Ok t => Ok (t, txs_removed)
      | Err KeyNotFound => Ok (t, txs_removed)
      | Err e => Err e
      | Panic => Panic
      end
  | Err KeyNotFound => Ok (t, txs_removed)
  | Err e => Err e
  | Panic => Panic
  end.

Definition new_block_loop (t : PoolTables) (spent : list bytes) : DbResult (PoolTables * list bytes) :=
  try_fold new_block_step (t, []) spent.

Definition handle_txpool_request (now : Z) (t : PoolTables) (req : TxpoolWriteRequest) : DbResult TxpoolWriteResponse * PoolTables :=
  match req with
  | AddTransaction tx state_stem =>
      match add_transaction now tx state_stem t with
      | Ok t => (Ok (AddTransactionResponse None), t)
      | Err (DoubleSpend tx_hash) => (Ok (AddTransactionResponse (Some tx_hash)), t)
      | Err (PoolDatabase e) => (Err e, t)
      | Panic => (Panic, t)
      end
  | RemoveTransaction tx_hash =>
      match remove_transaction tx_hash t with
      | Ok t => (Ok WriteOk, t)
      | Err e => (Err e, t)
      | Panic => (Panic, t)
      end
  | Promote tx_hash =>
      match db_update tx_hash (fun info => Ok (Some (promoted now info))) (transaction_infos t) with
      | Ok infos => (Ok WriteOk, set_infos infos t)
      | Err e => (Err e, t)
      | Panic => (Panic, t)
      end
  | NewBlock spent =>
      match new_block_loop t spent with
      | Ok (t, txs_removed) => (Ok (NewBlockResponse txs_removed), t)
      | Err e => (Err e, t)
      | Panic => (Panic, t)
      end
  end.

(** ** The read service *)
Record TxEntry := mk_entry { id : bytes; weight : Z; fee : Z; is_private : bool; entry_received_at : Z }.

Inductive TxpoolReadRequest :=
  | TxBlob (tx_hash : bytes)
  | TxVerificationData (tx_hash : bytes)
  | FilterKnownTxBlobHashes (blob_hashes : gset bytes)
  | TxsForBlock (txs : list bytes)
  | Backlog
  | Size (include_sensitive_txs : bool)
  | PoolInfo (include_sensitive_txs : bool) (max_tx_count : Z) (start_time : option Z)
  | TxsByHash (tx_hashes : list bytes) (include_sensitive_txs : bool)
  | PoolKeyImagesSpent (key_images : gset bytes) (include_sensitive_txs : bool)
  | PoolKeyImagesSpentVec (key_images : list bytes) (include_sensitive_txs : bool)
  | WholePool (include_sensitive_txs : bool)
  | PoolStats (include_sensitive_txs : bool)
  | AllHashes (include_sensitive_txs : bool).

Inductive TxpoolReadResponse :=
  | TxBlobResponse (tx_blob : bytes) (state_stem : bool)
  | TxVerificationDataResponse (tx : TransactionVerificationData)
  | FilterKnownTxBlobHashesResponse (unknown_blob_hashes : gset bytes) (stem_pool_hashes : list bytes)
  | TxsForBlockResponse (txs : gmap bytes TransactionVerificationData) (missing : list Z)
  | BacklogResponse (backlog : list TxEntry).

Definition tx_blob (t : PoolTables) (tx_hash : bytes) : DbResult TxpoolReadResponse :=
  blob ← db_get (transaction_blobs t) tx_hash;
  stem ← in_stem_pool tx_hash (transaction_infos t);
  Ok (TxBlobResponse blob stem).

(** The closure [tx_unknown]: whether a blob hash is unknown, and the stem hashes. *)
Definition tx_unknown (t : PoolTables) (stem_pool_hashes : list bytes) (blob_hash : bytes) : DbResult (bool * list bytes) :=
  match db_get (known_blob_hashes t) blob_hash with
  | Ok tx_hash =>
      stem ← in_stem_pool tx_hash (transaction_infos t);
      Ok (false, if (stem : bool) then stem_pool_hashes ++ [tx_hash] else stem_pool_hashes)
  | Err KeyNotFound => Ok (true, stem_pool_hashes)
  | Err e => Err e
  | Panic => Panic
  end.

(** [retain] visits every hash; the last error is returned at the end. *)
Definition retain_unknown (t : PoolTables) '((unknown, stem, err) : gset bytes * list bytes * option RuntimeError) (blob_hash : bytes)
    : gset bytes * list bytes * option RuntimeError :=
  match tx_unknown t stem blob_hash with
  | Ok (true, stem) => ({[blob_hash]} ∪ unknown, stem, err)
  | Ok (false, stem) => (unknown, stem, err)
  | Err e => (unknown, stem, Some e)
  | Panic => (unknown, stem, err)
  end.

Definition filter_known_tx_blob_hashes (t : PoolTables) (blob_hashes : gset bytes) : DbResult TxpoolReadResponse :=
  let '(unknown, stem, err) := foldl (retain_unknown t) (∅, [], None) (elements blob_hashes) in
  match err with
  | Some e => Err e
  | None => Ok (FilterKnownTxBlobHashesResponse unknown stem)
  end.

Definition collect_tx (t : PoolTables) '((found, missing) : gmap bytes TransactionVerificationData * list Z) '((i, tx_hash) : nat * bytes)
    : DbResult (gmap bytes TransactionVerificationData * list Z) :=
  match get_transaction_verification_data tx_hash t with
  | Ok tx => Ok (<[tx_hash := tx]> found, missing)
  | Err KeyNotFound => Ok (found, missing ++ [Z.of_nat i])
  | Err e => Err e
  | Panic => Panic
  end.

Definition txs_for_block (t : PoolTables) (txs : list bytes) : DbResult TxpoolReadResponse :=
  '((found, missing) : gmap bytes TransactionVerificationData * list Z) ← try_fold (collect_tx t) (∅, []) (imap pair txs);
  Ok (TxsForBlockResponse found missing).

Definition entry_of (p : bytes * TransactionInfo) : TxEntry :=
  mk_entry p.1 (ti_weight p.2) (ti_fee p.2) (private (flags p.2)) (received_at p.2).

Definition backlog (t : PoolTables) : DbResult TxpoolReadResponse :=
  Ok (BacklogResponse (map entry_of (map_to_list (transaction_infos t)))).

Definition map_request (t : PoolTables) (req : TxpoolReadRequest) : DbResult TxpoolReadResponse :=
  match req with
  | TxBlob tx_hash => tx_blob t tx_hash
  | TxVerificationData tx_hash => tx ← get_transaction_verification_data tx_hash t; Ok (TxVerificationDataResponse tx)
  | FilterKnownTxBlobHashes blob_hashes => filter_known_tx_blob_hashes t blob_hashes
  | TxsForBlock txs => txs_for_block t txs
  | Backlog => backlog t
  | Size _ | PoolInfo _ _ _ | TxsByHash _ _ | PoolKeyImagesSpent _ _ | PoolKeyImagesSpentVec _ _ | WholePool _ | PoolStats _ | AllHashes _ => Panic
  end.

End ops.
End TxPool.
