(* ===== verification/TxPoolFacts.v ===== *)
(** * The transaction pool as a map

    The tables of the pool implement a map from transaction hashes to entries in which no
    two transactions spend the same key image; every request of the write service is a
    step of that map, and the read service answers from it. *)
From S2P Require Import Prelude Bytes HardForks ChainDb TxData RulesBase TxRules TxContext BlockRules Helpers DbTables TxOps TxStore ChainStore TxVerification TxVerifyFacts TxPool.
From Stdlib Require Import ZArith Lia String.
From stdpp Require Import base tactics option list numbers sets gmap.
Import HardForks ChainDb TxData RulesBase TxRules TxContext Helpers DbTables TxOps TxStore ChainStore TxVerification TxVerifyFacts TxPool.

#[local] Open Scope Z_scope.
#[local] Open Scope usize_scope.

Module TxPoolFacts.

Section facts.
Context {O : MoneroOxide} {T : TransactionOps O} {C : Dalek O} {Cd : MoneroCodec O} {B : MoneroBatch O}.
Context `{L : !MoneroOxideLaws O T}.
Context (blake3 : bytes -> bytes).

(** ** The stored form of a cached state *)

(** The states the verifier produces: the block hash is not the null hash, and a cached
    lock is a timestamp. *)
Definition storable_state (s : CachedVerificationState) : Prop :=
  match s with
  | NotVerified | OnlySemantic _ => True
  | ValidAtHashAndHF h _ => h <> repeat 0 32
  | ValidAtHashAndHFWithTimeBasedLock h _ l => h <> repeat 0 32 /\ exists time, l = TL_Time time /\ 0 < time < 2 ^ 64
  end.

Definition raw (s : CachedVerificationState) : RawCachedVerificationState :=
  match raw_of_state (E := RuntimeError) s with Ok r => r | _ => mk_raw_state [] 0 [] end.

Lemma from_version_as_u8 {E} hf : expect (E := E) (from_version (as_u8 hf)) = Ok hf.
Proof using Type. unfold from_version. by rewrite from_repr_as_u8. Qed.

Lemma raw_of_storable {E} s : storable_state s -> raw_of_state (E := E) s = Ok (raw s).
Proof using Type. destruct s as [|hf|h hf|h hf l]; cbn; try done. intros (_ & time & -> & _). done. Qed.

Lemma state_of_raw_raw s : storable_state s -> state_of_raw (raw s) = Ok s.
Proof using Type.
  destruct s as [|hf|h hf|h hf l]; cbn [storable_state]; intros Hs; unfold raw, raw_of_state, state_of_raw.
  - by rewrite bool_decide_eq_true_2.
  - cbn [raw_valid_at_hash raw_hf]. rewrite bool_decide_eq_true_2 by done. pose proof (as_u8_range hf).
    rewrite (proj2 (Z.eqb_neq (as_u8 hf) 0)) by lia. by rewrite from_version_as_u8.
  - cbn [raw_valid_at_hash raw_hf raw_valid_past_timestamp]. rewrite bool_decide_eq_false_2 by done.
    change (le_combine (repeat 0 8)) with 0. by rewrite from_version_as_u8.
  - destruct Hs as (Hh & time & -> & Ht). cbn [raw_valid_at_hash raw_hf raw_valid_past_timestamp]. rewrite bool_decide_eq_false_2 by done.
    rewrite le_combine_split, Z.mod_small by lia. rewrite (proj2 (Z.eqb_neq time 0)) by lia. by rewrite from_version_as_u8.
Qed.

(** ** The abstract pool *)
Record PoolEntry := mk_pool_entry { pe_tx : TransactionVerificationData; pe_stem : bool; pe_received : Z }.

#[local] Abbreviation Pool := (gmap bytes PoolEntry).

Definition blob_hash (e : PoolEntry) : bytes := blake3 (tvd_tx_blob (pe_tx e)).
Definition info_of (e : PoolEntry) : TransactionInfo :=
  mk_info (tvd_fee (pe_tx e)) (tvd_tx_weight (pe_tx e)) (pe_received e) (if pe_stem e then STATE_STEM else 0).

(** A transaction that passed verification: its hash and blob are its own, and it has
    inputs, none of them a miner's. *)
Record poolable (x : TransactionVerificationData) : Prop := {
  p_hash : tvd_tx_hash x = tx_hash (tvd_tx x);
  p_read : tx_read (tvd_tx_blob x) = Some (tvd_tx x);
  p_version : tvd_version x = tx_version (tvd_tx x);
  p_to_key : is_miner (tvd_tx x) = false;
  p_inputs : inputs (prefix (tvd_tx x)) <> [];
  p_state : storable_state (cached_verification_state x);
}.

(** No two transactions of the pool spend the same key image. *)
Definition no_double_spends (P : Pool) : Prop :=
  (forall h e, P !! h = Some e -> NoDup (kis (pe_tx e))) /\
  (forall h h' e e' k, P !! h = Some e -> P !! h' = Some e' -> k ∈ kis (pe_tx e) -> k ∈ kis (pe_tx e') -> h = h').

Record pool_ok (P : Pool) : Prop := {
  ok_entries : forall h e, P !! h = Some e -> tvd_tx_hash (pe_tx e) = h /\ poolable (pe_tx e);
  ok_spends : no_double_spends P;
  ok_blobs : forall h h' e e', P !! h = Some e -> P !! h' = Some e' -> blob_hash e = blob_hash e' -> h = h';
}.

Record pool_holds (P : Pool) (t : PoolTables) : Prop := {
  ph_ok : pool_ok P;
  ph_blobs : transaction_blobs t = (fun e => tvd_tx_blob (pe_tx e)) <$> P;
  ph_infos : transaction_infos t = info_of <$> P;
  ph_states : cached_states t = (fun e => raw (cached_verification_state (pe_tx e))) <$> P;
  ph_kis : forall k h, spent_key_images t !! k = Some h <-> exists e, P !! h = Some e /\ k ∈ kis (pe_tx e);
  ph_known : forall b h, known_blob_hashes t !! b = Some h <-> exists e, P !! h = Some e /\ b = blob_hash e;
}.

Lemma pool_holds_empty : pool_holds ∅ empty_pool.
Proof using Type.
  split; [|by rewrite fmap_empty..| |].
  - split; [by intros h e H; rewrite lookup_empty in H| |by intros h h' e e' H; rewrite lookup_empty in H].
    split; [by intros h e H; rewrite lookup_empty in H|by intros h h' e e' k H; rewrite lookup_empty in H].
  - intros k h. cbn. rewrite lookup_empty. split; [done|]. intros (e & He & _). by rewrite lookup_empty in He.
  - intros b h. cbn. rewrite lookup_empty. split; [done|]. intros (e & He & _). by rewrite lookup_empty in He.
Qed.

(** ** Key images *)
Definition ins_kis (ins : list Input) : list bytes :=
  omap (fun i => match i with ToKey _ _ k => Some (to_bytes k) | Gen _ => None end) ins.

Lemma ins_kis_cons a o k (ins : list Input) : ins_kis (ToKey a o k :: ins) = to_bytes k :: ins_kis ins.
Proof using Type. done. Qed.

Lemma add_tx_key_images_spec (ins : list Input) h m :
  existsb is_gen ins = false ->
  match add_tx_key_images ins h m with
  | Ok m' => NoDup (ins_kis ins) /\ (forall k : bytes, k ∈ ins_kis ins -> m !! k = None) /\
      forall k : bytes, m' !! k = if decide (k ∈ ins_kis ins) then Some h else m !! k
  | Err (DoubleSpend d) => exists k : bytes, k ∈ ins_kis ins /\ (m !! k = Some d \/ d = h /\ ~ NoDup (ins_kis ins))
  | _ => False
  end.
Proof using Type.
  unfold add_tx_key_images. revert m. induction ins as [|i ins IH]; intros m Hg.
  { cbn. split_and!; [constructor|intros k Hk; by apply not_elem_of_nil in Hk|intros k]. rewrite decide_False by apply not_elem_of_nil. done. }
  destruct i as [n|a o k0]; [done|]. cbn [existsb is_gen orb] in Hg. rewrite ins_kis_cons. cbn [try_fold ki_from_input mbind result_bind].
  unfold db_get, db_put. destruct (m !! to_bytes k0) as [d|] eqn:Em; cbn [ok_or mbind result_bind].
  { exists (to_bytes k0). split; [by left|by left]. }
  specialize (IH (<[to_bytes k0 := h]> m) Hg). destruct (try_fold _ _ ins) as [m'|e|]; [| |done].
  - destruct IH as (Hnd & Hnew & Hm'). assert (to_bytes k0 ∉ ins_kis ins) as Hn.
    { intros Hin. specialize (Hnew _ Hin). by rewrite lookup_insert_eq in Hnew. }
    split_and!; [by constructor| |].
    + intros k Hk. apply elem_of_cons in Hk as [->|Hk]; [done|]. specialize (Hnew _ Hk). rewrite lookup_insert_ne in Hnew; [done|]. by intros <-.
    + intros k. rewrite Hm'. destruct (decide (k ∈ ins_kis ins)) as [Hk|Hk].
      * by rewrite decide_True by (by right).
      * destruct (decide (k = to_bytes k0)) as [->|Hne]; [rewrite lookup_insert_eq, decide_True; [done|by left]|].
        rewrite lookup_insert_ne by done. rewrite decide_False; [done|]. by rewrite not_elem_of_cons.
  - destruct e as [d|]; [|done]. destruct IH as (k & Hk & Hd). exists k. split; [by right|].
    destruct (decide (k = to_bytes k0)) as [->|Hne].
    + right. assert (~ NoDup (to_bytes k0 :: ins_kis ins)) as Hnd by (by rewrite NoDup_cons; intros [? _]). split; [|done].
      destruct Hd as [Hd|[-> _]]; [|done]. rewrite lookup_insert_eq in Hd. congruence.
    + destruct Hd as [Hd|[-> Hd]]; [left; by rewrite lookup_insert_ne in Hd by done|right]. split; [done|]. rewrite NoDup_cons. by intros [_ ?].
Qed.

Lemma remove_tx_key_images_spec (ins : list Input) m :
  existsb is_gen ins = false ->
  exists m', remove_tx_key_images ins m = Ok m' /\ forall k : bytes, m' !! k = if decide (k ∈ ins_kis ins) then None else m !! k.
Proof using Type.
  unfold remove_tx_key_images. revert m. induction ins as [|i ins IH]; intros m Hg.
  { exists m. split; [done|]. intros k. rewrite decide_False by apply not_elem_of_nil. done. }
  destruct i as [n|a o k0]; [done|]. cbn [existsb is_gen orb] in Hg. rewrite ins_kis_cons. cbn [try_fold ki_from_input mbind result_bind].
  destruct (IH (db_delete (to_bytes k0) m) Hg) as (m' & -> & Hm'). exists m'. split; [done|]. intros k. rewrite Hm'.
  destruct (decide (k ∈ ins_kis ins)) as [Hk|Hk]; [by rewrite decide_True by (by right)|].
  unfold db_delete. destruct (decide (k = to_bytes k0)) as [->|Hne]; [by rewrite lookup_delete_eq, decide_True by (by left)|].
  rewrite lookup_delete_ne by done. rewrite decide_False; [done|]. by rewrite not_elem_of_cons.
Qed.

(** ** The steps of the pool *)

(** [h'] is the transaction [x] conflicts with: one of the pool that spends a key image of
    [x], or [x] itself when it spends one twice. *)
Definition conflicts (P : Pool) (x : TransactionVerificationData) (h' : bytes) : Prop :=
  (exists e k, P !! h' = Some e /\ k ∈ kis (pe_tx e) /\ k ∈ kis x) \/ h' = tvd_tx_hash x /\ ~ NoDup (kis x).

(** The entry spends one of the key images. *)
Definition spends_one (ks : list bytes) (e : PoolEntry) : bool := existsb (fun k => bool_decide (k ∈ ks)) (kis (pe_tx e)).

Definition promoted_entry (now : Z) (e : PoolEntry) : PoolEntry := mk_pool_entry (pe_tx e) false now.

(** What a request does to the pool; [None] is the error of a missing transaction. *)
Inductive pool_step (now : Z) (P : Pool) : TxpoolWriteRequest -> option TxpoolWriteResponse -> Pool -> Prop :=
  | step_added x stem :
      (forall h', ~ conflicts P x h') ->
      pool_step now P (AddTransaction x stem) (Some (AddTransactionResponse None)) (<[tvd_tx_hash x := mk_pool_entry x stem now]> P)
  | step_double_spend x stem h' :
      conflicts P x h' -> pool_step now P (AddTransaction x stem) (Some (AddTransactionResponse (Some h'))) P
  | step_removed h : is_Some (P !! h) -> pool_step now P (RemoveTransaction h) (Some WriteOk) (delete h P)
  | step_promoted h e : P !! h = Some e -> pool_step now P (Promote h) (Some WriteOk) (<[h := promoted_entry now e]> P)
  | step_remove_missing h : P !! h = None -> pool_step now P (RemoveTransaction h) None P
  | step_promote_missing h : P !! h = None -> pool_step now P (Promote h) None P
  | step_new_block ks removed :
      NoDup removed -> (forall h, h ∈ removed <-> exists e, P !! h = Some e /\ spends_one ks e = true) ->
      pool_step now P (NewBlock ks) (Some (NewBlockResponse removed)) (filter (fun p => spends_one ks p.2 = false) P).

(** The requests the pool manager sends: a verified transaction whose hash and blob hash
    are not those of another one. *)
Definition request_ok (P : Pool) (req : TxpoolWriteRequest) : Prop :=
  match req with
  | AddTransaction x _ => poolable x /\
      forall h e, P !! h = Some e -> h = tvd_tx_hash x \/ blob_hash e = blake3 (tvd_tx_blob x) -> h = tvd_tx_hash x /\ tvd_tx (pe_tx e) = tvd_tx x
  | _ => True
  end.

Lemma kis_eq (x : TransactionVerificationData) : ins_kis (inputs (prefix (tvd_tx x))) = kis x.
Proof using Type. done. Qed.

Lemma kis_inhabited x : poolable x -> exists k, k ∈ kis x.
Proof using Type.
  intros [_ _ _ Hg Hi _]. unfold kis, kis_of. unfold is_miner in Hg. destruct (inputs (prefix (tvd_tx x))) as [|[n|a o k] ins]; [done|done|].
  exists (to_bytes k). by left.
Qed.

Lemma spends_one_true ks e : spends_one ks e = true <-> exists k, k ∈ kis (pe_tx e) /\ k ∈ ks.
Proof using Type.
  unfold spends_one. rewrite existsb_exists. split; intros (k & H1 & H2); exists k.
  - split; [by apply list_elem_of_In|by apply bool_decide_eq_true in H2].
  - split; [by apply list_elem_of_In|by apply bool_decide_eq_true].
Qed.

Lemma lookup_fmap_None {A} (f : PoolEntry -> A) (P : Pool) h : (f <$> P) !! h = None <-> P !! h = None.
Proof using Type. rewrite lookup_fmap. by destruct (P !! h). Qed.

(** *** Adding *)
Lemma conflict_iff P t x d :
  pool_holds P t -> (exists k, k ∈ kis x /\ (spent_key_images t !! k = Some d \/ d = tvd_tx_hash x /\ ~ NoDup (kis x))) -> conflicts P x d.
Proof using Type.
  intros Ht (k & Hk & [Hd|[-> Hnd]]); [left|by right]. apply (ph_kis _ _ Ht) in Hd as (e & He & Hke). by exists e, k.
Qed.

Lemma no_conflict P t x :
  pool_holds P t -> NoDup (kis x) -> (forall k, k ∈ kis x -> spent_key_images t !! k = None) -> forall h', ~ conflicts P x h'.
Proof using Type.
  intros Ht Hnd Hk h' [(e & k & He & Hke & Hkx)|[_ Hd]]; [|done]. specialize (Hk k Hkx).
  assert (spent_key_images t !! k = Some h') as Hs by (apply (ph_kis _ _ Ht); by exists e). congruence.
Qed.

Lemma pool_ok_insert P x stem now :
  pool_ok P -> request_ok P (AddTransaction x stem) -> (forall h', ~ conflicts P x h') ->
  pool_ok (<[tvd_tx_hash x := mk_pool_entry x stem now]> P) /\ P !! tvd_tx_hash x = None.
Proof using Type.
  intros [He [Hs1 Hs2] Hb] [Hx Hcol] Hc.
  assert (P !! tvd_tx_hash x = None) as Hnone.
  { destruct (P !! tvd_tx_hash x) as [e|] eqn:E; [|done]. exfalso. destruct (kis_inhabited x Hx) as [k Hk].
    apply (Hc (tvd_tx_hash x)). left. exists e, k. split_and!; [done| |done]. unfold kis. destruct (Hcol _ _ E (or_introl eq_refl)) as [_ ->]. done. }
  split; [|done]. split; [| split |].
  - intros h e. destruct (decide (h = tvd_tx_hash x)) as [->|Hne]; [rewrite lookup_insert_eq; by intros [= <-]|rewrite lookup_insert_ne by done; apply He].
  - intros h e. destruct (decide (h = tvd_tx_hash x)) as [->|Hne]; [rewrite lookup_insert_eq; intros [= <-]|rewrite lookup_insert_ne by done; apply Hs1].
    destruct (decide (NoDup (kis x))) as [Hnd|Hnd]; [done|]. destruct (Hc (tvd_tx_hash x)). by right.
  - intros h h' e e' k. destruct (decide (h = tvd_tx_hash x)) as [->|Hne], (decide (h' = tvd_tx_hash x)) as [->|Hne'];
      rewrite ?lookup_insert_eq, ?lookup_insert_ne by done; intros E E' Hk Hk'; try done.
    + injection E as <-. destruct (Hc h'). left. by exists e', k.
    + injection E' as <-. destruct (Hc h). left. by exists e, k.
    + by apply (Hs2 h h' e e' k).
  - intros h h' e e'. destruct (decide (h = tvd_tx_hash x)) as [->|Hne], (decide (h' = tvd_tx_hash x)) as [->|Hne'];
      rewrite ?lookup_insert_eq, ?lookup_insert_ne by done; intros E E' Hbl; try done.
    + injection E as <-. symmetry. by apply (Hcol h' e' E'); right.
    + injection E' as <-. by apply (Hcol h e E); right.
    + by apply (Hb h h' e e').
Qed.

Lemma flag_stem stem : flag_set 0 STATE_STEM stem = if stem then STATE_STEM else 0.
Proof using Type. by destruct stem. Qed.

Lemma add_transaction_spec P t now x stem :
  pool_holds P t -> request_ok P (AddTransaction x stem) ->
  match add_transaction blake3 now x stem t with
  | Ok t' => (forall h', ~ conflicts P x h') /\ pool_holds (<[tvd_tx_hash x := mk_pool_entry x stem now]> P) t'
  | Err (DoubleSpend d) => conflicts P x d
  | _ => False
  end.
Proof using Type.
  intros Ht Hreq. pose proof (proj1 Hreq) as Hx. unfold add_transaction. rewrite (raw_of_storable _ (p_state _ Hx)). cbn [mbind result_bind].
  pose proof (add_tx_key_images_spec (inputs (prefix (tvd_tx x))) (tvd_tx_hash x) (spent_key_images t) (p_to_key _ Hx)) as Hk. rewrite kis_eq in Hk.
  destruct (add_tx_key_images _ _ _) as [m|e|]; [|destruct e as [d|]; [|done]; by apply (conflict_iff P t)|done]. cbn [mbind result_bind].
  destruct Hk as (Hnd & Hnew & Hm). pose proof (no_conflict P t x Ht Hnd Hnew) as Hc. split; [done|].
  destruct (pool_ok_insert P x stem now (ph_ok _ _ Ht) Hreq Hc) as [Hok Hnone].
  split; unfold db_put; cbn [transaction_blobs transaction_infos cached_states spent_key_images known_blob_hashes].
  - done.
  - by rewrite fmap_insert, (ph_blobs _ _ Ht).
  - rewrite fmap_insert, (ph_infos _ _ Ht). unfold info_of at 2. cbn. by rewrite flag_stem.
  - by rewrite fmap_insert, (ph_states _ _ Ht).
  - intros k h. rewrite Hm. destruct (decide (k ∈ kis x)) as [Hk|Hk].
    + split; [intros [= <-]; exists (mk_pool_entry x stem now); by rewrite lookup_insert_eq|].
      intros (e & He & Hke). destruct (decide (h = tvd_tx_hash x)) as [->|Hne]; [done|]. rewrite lookup_insert_ne in He by done.
      destruct (Hc h). left. by exists e, k.
    + rewrite (ph_kis _ _ Ht). split; intros (e & He & Hke).
      * exists e. rewrite lookup_insert_ne; [done|]. intros <-. congruence.
      * destruct (decide (h = tvd_tx_hash x)) as [->|Hne]; [rewrite lookup_insert_eq in He; by injection He as <-|].
        rewrite lookup_insert_ne in He by done. by exists e.
  - intros b h. unfold transaction_blob_hash. destruct (decide (b = blake3 (tvd_tx_blob x))) as [->|Hb].
    + rewrite lookup_insert_eq. split; [intros [= <-]; exists (mk_pool_entry x stem now); by rewrite lookup_insert_eq|].
      intros (e & He & Hbe). destruct (decide (h = tvd_tx_hash x)) as [->|Hne]; [done|]. rewrite lookup_insert_ne in He by done.
      by rewrite (proj1 (proj2 Hreq h e He (or_intror (eq_sym Hbe)))).
    + rewrite lookup_insert_ne by done. rewrite (ph_known _ _ Ht). split; intros (e & He & Hbe).
      * exists e. rewrite lookup_insert_ne; [done|]. intros <-. congruence.
      * destruct (decide (h = tvd_tx_hash x)) as [->|Hne]; [rewrite lookup_insert_eq in He; by injection He as <-|].
        rewrite lookup_insert_ne in He by done. by exists e.
Qed.

(** *** Removing *)
Lemma pool_ok_sub (P P' : Pool) : P' ⊆ P -> pool_ok P -> pool_ok P'.
Proof using Type.
  intros Hsub [He [Hs1 Hs2] Hb]. pose proof (fun h e => lookup_weaken P' P h e) as Hw.
  split; [intros h e E; apply He; eauto|split; [intros h e E; apply (Hs1 h); eauto|]|]; intros; eauto.
Qed.

Lemma remove_transaction_spec P t h :
  pool_holds P t ->
  match P !! h with
  | Some e => exists t', remove_transaction blake3 h t = Ok t' /\ pool_holds (delete h P) t'
  | None => remove_transaction blake3 h t = Err KeyNotFound
  end.
Proof using Type.
  intros Ht. unfold remove_transaction, db_take, db_get. rewrite (ph_blobs _ _ Ht), lookup_fmap.
  destruct (P !! h) as [e|] eqn:E; cbn [fmap option_fmap option_map ok_or mbind result_bind]; [|done].
  pose proof (ph_ok _ _ Ht) as Hok. destruct (ok_entries _ Hok h e E) as [_ He]. rewrite (p_read _ He). cbn [unwrap mbind result_bind].
  destruct (remove_tx_key_images_spec (inputs (prefix (tvd_tx (pe_tx e)))) (spent_key_images t) (p_to_key _ He)) as (m & -> & Hm).
  cbn [mbind result_bind]. eexists. split; [done|]. rewrite kis_eq in Hm.
  split; unfold db_delete; cbn [transaction_blobs transaction_infos cached_states spent_key_images known_blob_hashes].
  - apply (pool_ok_sub P); [apply delete_subseteq|done].
  - by rewrite fmap_delete.
  - by rewrite fmap_delete, (ph_infos _ _ Ht).
  - by rewrite fmap_delete, (ph_states _ _ Ht).
  - intros k h'. rewrite Hm. destruct (decide (k ∈ kis (pe_tx e))) as [Hk|Hk].
    + split; [done|]. intros (e' & He' & Hk'). destruct (decide (h' = h)) as [->|Hne]; [by rewrite lookup_delete_eq in He'|].
      rewrite lookup_delete_ne in He' by done. by destruct Hne; apply (proj2 (ok_spends _ Hok) h' h e' e k).
    + rewrite (ph_kis _ _ Ht). split; intros (e' & He' & Hk').
      * exists e'. rewrite lookup_delete_ne; [done|]. intros <-. congruence.
      * exists e'. destruct (decide (h' = h)) as [->|Hne]; [by rewrite lookup_delete_eq in He'|]. by rewrite lookup_delete_ne in He'.
  - intros b h'. unfold transaction_blob_hash. destruct (decide (b = blob_hash e)) as [->|Hb].
    + unfold blob_hash at 1. rewrite lookup_delete_eq. split; [done|]. intros (e' & He' & Hbe).
      destruct (decide (h' = h)) as [->|Hne]; [by rewrite lookup_delete_eq in He'|].
      rewrite lookup_delete_ne in He' by done. by destruct Hne; apply (ok_blobs _ Hok h' h e' e).
    + rewrite lookup_delete_ne by done. rewrite (ph_known _ _ Ht). split; intros (e' & He' & Hbe).
      * exists e'. rewrite lookup_delete_ne; [done|]. intros <-. congruence.
      * exists e'. destruct (decide (h' = h)) as [->|Hne]; [by rewrite lookup_delete_eq in He'|]. by rewrite lookup_delete_ne in He'.
Qed.

(** *** Promoting *)
Lemma pool_ok_promote P h e now : pool_ok P -> P !! h = Some e -> pool_ok (<[h := promoted_entry now e]> P).
Proof using Type.
  intros [He [Hs1 Hs2] Hb] E.
  assert (forall h' e', <[h := promoted_entry now e]> P !! h' = Some e' -> exists e0, P !! h' = Some e0 /\ pe_tx e' = pe_tx e0) as Hsame.
  { intros h' e'. destruct (decide (h' = h)) as [->|Hne]; [rewrite lookup_insert_eq; intros [= <-]; eauto|rewrite lookup_insert_ne by done; eauto]. }
  split; [|split|].
  - intros h' e' H'. destruct (Hsame h' e' H') as (e0 & H0 & ->). eauto.
  - intros h' e' H'. destruct (Hsame h' e' H') as (e0 & H0 & ->). eauto.
  - intros h1 h2 e1 e2 k H1 H2. destruct (Hsame h1 e1 H1) as (e0 & H0 & ->), (Hsame h2 e2 H2) as (e3 & H3 & ->). eauto.
  - intros h1 h2 e1 e2 H1 H2. unfold blob_hash. destruct (Hsame h1 e1 H1) as (e0 & H0 & ->), (Hsame h2 e2 H2) as (e3 & H3 & ->). eauto.
Qed.

Lemma promoted_info now e : promoted now (info_of e) = info_of (promoted_entry now e).
Proof using Type. unfold promoted, info_of, promoted_entry. cbn. by destruct (pe_stem e). Qed.

Lemma promote_spec P t h now e :
  pool_holds P t -> P !! h = Some e ->
  pool_holds (<[h := promoted_entry now e]> P) (set_infos (<[h := promoted now (info_of e)]> (transaction_infos t)) t).
Proof using Type.
  intros Ht E. assert (forall A (f : TransactionVerificationData -> A), f (pe_tx e) = f (pe_tx (promoted_entry now e))) as Hpe by done.
  assert (forall A (f : TransactionVerificationData -> A), (fun e => f (pe_tx e)) <$> <[h := promoted_entry now e]> P = (fun e => f (pe_tx e)) <$> P) as Hf.
  { intros A f. rewrite fmap_insert. cbn. apply insert_id. by rewrite lookup_fmap, E. }
  assert (forall h' (Q : TransactionVerificationData -> Prop),
    (exists e', P !! h' = Some e' /\ Q (pe_tx e')) <-> exists e', <[h := promoted_entry now e]> P !! h' = Some e' /\ Q (pe_tx e')) as Hq.
  { intros h' Q. destruct (decide (h' = h)) as [->|Hne]; [|by rewrite lookup_insert_ne]. rewrite lookup_insert_eq, E.
    split; intros (e' & [= <-] & HQ); eauto. }
  split; cbn [set_infos transaction_blobs transaction_infos cached_states spent_key_images known_blob_hashes].
  - by apply pool_ok_promote, E; apply (ph_ok _ _ Ht).
  - by rewrite (Hf _ tvd_tx_blob), (ph_blobs _ _ Ht).
  - by rewrite fmap_insert, (ph_infos _ _ Ht), promoted_info.
  - by rewrite (Hf _ (fun x => raw (cached_verification_state x))), (ph_states _ _ Ht).
  - intros k h'. rewrite (ph_kis _ _ Ht). apply (Hq h' (fun x => k ∈ kis x)).
  - intros b h'. rewrite (ph_known _ _ Ht). apply (Hq h' (fun x => b = blake3 (tvd_tx_blob x))).
Qed.

(** *** A new block *)
Lemma spends_one_nil e : spends_one [] e = false.
Proof using Type. destruct (spends_one [] e) eqn:E; [|done]. apply spends_one_true in E as (k & _ & Hk). by apply not_elem_of_nil in Hk. Qed.

Definition kept (ks : list bytes) (P : Pool) : Pool := filter (fun p => spends_one ks p.2 = false) P.

Lemma kept_lookup (ks : list bytes) (P : Pool) (h : bytes) e : kept ks P !! h = Some e <-> P !! h = Some e /\ spends_one ks e = false.
Proof using Type. unfold kept. by rewrite map_lookup_filter_Some. Qed.

Lemma spends_one_app (ks ks' : list bytes) e : spends_one (ks ++ ks') e = spends_one ks e || spends_one ks' e.
Proof using Type.
  apply eq_true_iff_eq. rewrite orb_true_iff, !spends_one_true. setoid_rewrite elem_of_app. split.
  - intros (k' & H1 & [H2|H2]); [left|right]; eauto.
  - intros [(k' & H1 & H2)|(k' & H1 & H2)]; eauto.
Qed.

Lemma kept_app (ks ks' : list bytes) (P : Pool) : kept (ks ++ ks') P = kept ks' (kept ks P).
Proof using Type. apply map_eq. intros h. apply option_eq. intros e. rewrite !kept_lookup, spends_one_app, orb_false_iff. by split; [intros (? & ? & ?)|intros ((? & ?) & ?)]. Qed.

Lemma spends_one_single k e : spends_one [k] e = true <-> k ∈ kis (pe_tx e).
Proof using Type. rewrite spends_one_true. setoid_rewrite list_elem_of_singleton. split; [by intros (? & ? & ->)|eauto]. Qed.

(** The key image of a transaction of the pool removes that transaction only. *)
Lemma kept_single (Q : Pool) h e k : pool_ok Q -> Q !! h = Some e -> k ∈ kis (pe_tx e) -> kept [k] Q = delete h Q.
Proof using Type.
  intros Hok E Hk. apply map_eq. intros h'. apply option_eq. intros e'. rewrite kept_lookup, lookup_delete_Some. split; intros [H1 H2].
  - split; [|done]. intros <-. rewrite E in H1. injection H1 as ->. apply spends_one_single in Hk. congruence.
  - split; [done|]. apply not_true_is_false. rewrite spends_one_single. intros Hk'. destruct H1. by apply (proj2 (ok_spends _ Hok) h h' e e' k).
Qed.

Lemma kept_none (Q : Pool) k : (forall h e, Q !! h = Some e -> k ∉ kis (pe_tx e)) -> kept [k] Q = Q.
Proof using Type.
  intros Hn. apply map_eq. intros h'. apply option_eq. intros e'. rewrite kept_lookup. split; [by intros [? _]|].
  intros E. split; [done|]. apply not_true_is_false. rewrite spends_one_single. eauto.
Qed.

(** The transactions removed so far are those that spend one of the key images seen. *)
Definition removed_ok (P : Pool) (ks : list bytes) (removed : list bytes) : Prop :=
  NoDup removed /\ forall h, h ∈ removed <-> exists e, P !! h = Some e /\ spends_one ks e = true.

Lemma removed_ok_snoc P ks removed k h e :
  pool_ok P -> removed_ok P ks removed -> kept ks P !! h = Some e -> k ∈ kis (pe_tx e) -> removed_ok P (ks ++ [k]) (removed ++ [h]).
Proof using Type.
  intros Hok [Hnd Hr] E Hk. apply kept_lookup in E as [E Hno]. split.
  - apply NoDup_app. split_and!; [done| |apply NoDup_singleton]. intros h' Hin ->%list_elem_of_singleton.
    apply Hr in Hin as (e' & E' & Hs). congruence.
  - intros h'. rewrite elem_of_app, list_elem_of_singleton, Hr. setoid_rewrite spends_one_app. setoid_rewrite orb_true_iff. split.
    + intros [(e' & E' & Hs)| ->]; [eauto|]. exists e. split; [done|]. right. by apply spends_one_single.
    + intros (e' & E' & [Hs|Hs]); [eauto|]. right. apply spends_one_single in Hs. by apply (proj2 (ok_spends _ Hok) h' h e' e k).
Qed.

Lemma removed_ok_skip P ks removed k :
  removed_ok P ks removed -> (forall h e, kept ks P !! h = Some e -> k ∉ kis (pe_tx e)) -> removed_ok P (ks ++ [k]) removed.
Proof using Type.
  intros [Hnd Hr] Hn. split; [done|]. intros h'. rewrite Hr. setoid_rewrite spends_one_app. setoid_rewrite orb_true_iff.
  split; intros (e' & E' & Hs); exists e'; (split; [done|]); [by left|]. destruct Hs as [Hs|Hs]; [done|].
  apply not_false_is_true. intros Hno. apply spends_one_single in Hs. by apply (Hn h' e'); [apply kept_lookup|].
Qed.

Lemma new_block_loop_spec (P : Pool) t ks :
  pool_holds P t ->
  exists t' removed, new_block_loop blake3 t ks = Ok (t', removed) /\ pool_holds (kept ks P) t' /\ removed_ok P ks removed.
Proof using Type.
  intros Ht. pose proof (ph_ok _ _ Ht) as Hok. unfold new_block_loop.
  assert (forall ks seen t removed, pool_holds (kept seen P) t -> removed_ok P seen removed ->
    exists t' removed', try_fold (new_block_step blake3) (t, removed) ks = Ok (t', removed') /\ pool_holds (kept (seen ++ ks) P) t' /\ removed_ok P (seen ++ ks) removed') as Hgen.
  { clear ks t Ht. induction ks as [|k ks IH]; intros seen t removed Ht Hr; cbn [try_fold]; [rewrite app_nil_r; eauto|].
    replace (seen ++ k :: ks) with ((seen ++ [k]) ++ ks) by (by rewrite <- app_assoc).
    assert (new_block_step blake3 (t, removed) k = match ok_or (spent_key_images t !! k) KeyNotFound with
      | Ok h => match remove_transaction blake3 h t with Ok t' => Ok (t', removed ++ [h]) | Err KeyNotFound => Ok (t, removed ++ [h]) | Err e => Err e | Panic => Panic end
      | Err KeyNotFound => Ok (t, removed) | Err e => Err e | Panic => Panic end) as -> by reflexivity.
    destruct (spent_key_images t !! k) as [h|] eqn:Es; cbn [ok_or].
    - apply (ph_kis _ _ Ht) in Es as (e & E & Hk). pose proof (remove_transaction_spec _ _ h Ht) as Hrem. rewrite E in Hrem.
      destruct Hrem as (t' & -> & Ht'). cbn [mbind result_bind]. apply IH; [|by apply (removed_ok_snoc P seen removed k h e)].
      rewrite kept_app, (kept_single _ h e k) by (try apply (ph_ok _ _ Ht); done). done.
    - assert (forall h e, kept seen P !! h = Some e -> k ∉ kis (pe_tx e)) as Hn.
      { intros h e E Hk. assert (spent_key_images t !! k = Some h); [apply (ph_kis _ _ Ht); eauto|congruence]. }
      cbn [mbind result_bind]. apply IH; [by rewrite kept_app, kept_none|by apply removed_ok_skip]. }
  destruct (Hgen ks [] t []) as (t' & removed & -> & H1 & H2); [|by split; [constructor|]; intros h; split; [intros ?%not_elem_of_nil|intros (e & _ & He); rewrite spends_one_nil in He]|eauto].
  replace (kept [] P) with P; [done|]. apply map_eq. intros h. apply option_eq. intros e. rewrite kept_lookup, spends_one_nil. by split; [|intros [? _]].
Qed.

(** C12. The write service refines the abstract pool: in a state that holds a pool, every
    request of the pool manager is answered, the answer and the new contents are those of
    a step of the pool, and the tables hold the new contents. A transaction that spends a
    key image again is refused and reported, leaving the pool as it was; a new block
    removes exactly the transactions that spend one of its key images. *)
Theorem txpool_refines (now : Z) (P : Pool) (t : PoolTables) (req : TxpoolWriteRequest) :
  pool_holds P t -> request_ok P req ->
  exists r P', pool_step now P req r P' /\ pool_holds P' (handle_txpool_request blake3 now t req).2 /\
    (handle_txpool_request blake3 now t req).1 = match r with Some r => Ok r | None => Err KeyNotFound end.
Proof using Type.
  intros Ht Hreq. destruct req as [x stem|h|h|ks]; cbn [handle_txpool_request].
  - pose proof (add_transaction_spec P t now x stem Ht Hreq) as Ha. destruct (add_transaction _ _ _ _ _) as [t'|[d|]|]; try done.
    + destruct Ha as [Hc Ht']. do 2 eexists. split; [by apply step_added|done].
    + do 2 eexists. split; [by apply step_double_spend|done].
  - pose proof (remove_transaction_spec P t h Ht) as Hr. destruct (P !! h) as [e|] eqn:E.
    + destruct Hr as (t' & -> & Ht'). do 2 eexists. split; [apply step_removed; by eexists|done].
    + rewrite Hr. do 2 eexists. split; [by apply step_remove_missing|done].
  - unfold db_update, db_get. assert (transaction_infos t !! h = info_of <$> (P !! h)) as -> by (by rewrite (ph_infos _ _ Ht), lookup_fmap).
    destruct (P !! h) as [e|] eqn:E; cbn [fmap option_fmap option_map ok_or mbind result_bind].
    + do 2 eexists. split; [by eapply step_promoted|]. split; [|done]. unfold db_put. cbn [snd]. by apply promote_spec.
    + do 2 eexists. split; [by apply step_promote_missing|done].
  - destruct (new_block_loop_spec P t ks Ht) as (t' & removed & -> & Ht' & Hr). do 2 eexists.
    split; [by apply step_new_block; apply Hr|done].
Qed.

(** ** Reachable pools *)

(** The same of the request, from the tables. *)
Definition fits (t : PoolTables) (req : TxpoolWriteRequest) : Prop :=
  match req with
  | AddTransaction x _ => poolable x /\
      forall h b, transaction_blobs t !! h = Some b -> h = tvd_tx_hash x \/ blake3 b = blake3 (tvd_tx_blob x) ->
        h = tvd_tx_hash x /\ tx_read b = Some (tvd_tx x)
  | _ => True
  end.

Lemma fits_request_ok (P : Pool) t req : pool_holds P t -> fits t req -> request_ok P req.
Proof using Type.
  intros Ht. destruct req as [x stem|h|h|ks]; try done. intros [Hx Hf]. split; [done|]. intros h e E Hor.
  destruct (Hf h (tvd_tx_blob (pe_tx e))) as [H1 H2]; [by rewrite (ph_blobs _ _ Ht), lookup_fmap, E|done|]. split; [done|].
  destruct (ok_entries _ (ph_ok _ _ Ht) h e E) as [_ He]. rewrite (p_read _ He) in H2. by injection H2.
Qed.

(** The pools the write service reaches from the empty one, whatever it is asked. *)
Inductive reachable : PoolTables -> Prop :=
  | reach_empty : reachable empty_pool
  | reach_request t now req : reachable t -> fits t req -> reachable (handle_txpool_request blake3 now t req).2.

Lemma reachable_holds t : reachable t -> exists P, pool_holds P t.
Proof using Type.
  induction 1 as [|t now req _ [P Ht] Hf]; [exists ∅; apply pool_holds_empty|].
  pose proof (fits_request_ok P t req Ht Hf) as Hreq. destruct req as [x stem|h|h|ks]; cbn [handle_txpool_request].
  - pose proof (add_transaction_spec P t now x stem Ht Hreq) as Ha. destruct (add_transaction _ _ _ _ _) as [t'|[d|]|]; try done; [|eauto].
    destruct Ha as [_ Ht']. eauto.
  - pose proof (remove_transaction_spec P t h Ht) as Hr. destruct (P !! h) as [e|]; [destruct Hr as (t' & -> & Ht')|rewrite Hr]; eauto.
  - unfold db_update, db_get. assert (transaction_infos t !! h = info_of <$> (P !! h)) as -> by (by rewrite (ph_infos _ _ Ht), lookup_fmap).
    destruct (P !! h) as [e|] eqn:E; cbn [fmap option_fmap option_map ok_or mbind result_bind]; [|eauto].
    eexists. by apply promote_spec.
  - destruct (new_block_loop_spec P t ks Ht) as (t' & removed & -> & Ht' & _). eauto.
Qed.

(** C13. No double spend ever enters the pool: in a pool reached from the empty one by any
    sequence of requests, the stored transactions parse, none spends a key image twice,
    and two of them never spend the same one. *)
Theorem pool_never_double_spends t h h' b b' :
  reachable t -> transaction_blobs t !! h = Some b -> transaction_blobs t !! h' = Some b' ->
  exists tx tx', tx_read b = Some tx /\ tx_read b' = Some tx' /\ NoDup (kis_of tx) /\
    (h <> h' -> forall k, k ∈ kis_of tx -> k ∉ kis_of tx').
Proof using Type.
  intros [P Ht]%reachable_holds Hb Hb'. rewrite (ph_blobs _ _ Ht), lookup_fmap in Hb, Hb'.
  destruct (P !! h) as [e|] eqn:E; [|done]. destruct (P !! h') as [e'|] eqn:E'; [|done]. injection Hb as <-. injection Hb' as <-.
  destruct (ph_ok _ _ Ht) as [He [Hs1 Hs2] _]. destruct (He _ _ E) as [_ H1], (He _ _ E') as [_ H2].
  exists (tvd_tx (pe_tx e)), (tvd_tx (pe_tx e')). split_and!; [apply H1|apply H2|by apply (Hs1 h)|]. intros Hne k Hk Hk'. by destruct Hne; apply (Hs2 h h' e e' k).
Qed.

(** ** Reading *)
Lemma get_tvd_spec (P : Pool) t h :
  pool_holds P t -> get_transaction_verification_data h t = match P !! h with Some e => Ok (pe_tx e) | None => Err KeyNotFound end.
Proof using T Cd L.
  intros Ht. unfold get_transaction_verification_data, db_get. rewrite (ph_blobs _ _ Ht), (ph_infos _ _ Ht), (ph_states _ _ Ht), !lookup_fmap.
  destruct (P !! h) as [e|] eqn:E; cbn [fmap option_fmap option_map ok_or mbind result_bind]; [|done].
  destruct (ok_entries _ (ph_ok _ _ Ht) h e E) as [<- He].
  rewrite (state_of_raw_raw _ (p_state _ He)). cbn [mbind result_bind]. rewrite (p_read _ He). cbn [unwrap mbind result_bind].
  rewrite from_raw_version. cbn [unwrap mbind result_bind]. rewrite <- (p_version _ He). cbn. by destruct (pe_tx e).
Qed.

Definition missing_from (P : Pool) (hs : list bytes) : list Z :=
  omap (fun '((i, h) : nat * bytes) => match P !! h with Some _ => None | None => Some (Z.of_nat i) end) (imap pair hs).

Lemma txs_for_block_spec (P : Pool) t hs :
  pool_holds P t ->
  exists found, txs_for_block t hs = Ok (TxsForBlockResponse found (missing_from P hs)) /\
    forall h, found !! h = if decide (h ∈ hs) then pe_tx <$> P !! h else None.
Proof using T Cd L.
  intros Ht. unfold txs_for_block, missing_from.
  assert (forall (l : list (nat * bytes)) found missing, exists found', try_fold (collect_tx t) (found, missing) l =
      Ok (found', missing ++ omap (fun '((i, h) : nat * bytes) => match P !! h with Some _ => None | None => Some (Z.of_nat i) end) l) /\
      forall h, found' !! h = if decide (h ∈ l.*2 /\ is_Some (P !! h)) then pe_tx <$> P !! h else found !! h) as Hgen.
  { induction l as [|[i h0] l IH]; intros found missing; cbn [try_fold].
    { exists found. rewrite app_nil_r. split; [done|]. intros h. rewrite decide_False; [done|]. intros [?%not_elem_of_nil _]. done. }
    assert (collect_tx t (found, missing) (i, h0) = match P !! h0 with Some e => Ok (<[h0 := pe_tx e]> found, missing) | None => Ok (found, missing ++ [Z.of_nat i]) end) as ->.
    { unfold collect_tx. rewrite (get_tvd_spec P t h0 Ht). by destruct (P !! h0). }
    cbn [omap list_omap]. destruct (P !! h0) as [e|] eqn:E; cbn [mbind result_bind].
    - destruct (IH (<[h0 := pe_tx e]> found) missing) as (f' & -> & Hf). exists f'. split; [done|]. intros h. rewrite Hf. cbn [fmap list_fmap snd].
      destruct (decide (h = h0)) as [->|Hne].
      + rewrite lookup_insert_eq. rewrite (decide_True (P := h0 ∈ h0 :: l.*2 /\ _)); [|by rewrite E; split; [left|eexists]]. rewrite E. by case_decide.
      + rewrite lookup_insert_ne by done. apply decide_ext. rewrite elem_of_cons. split; [by intros [? ?]; split; [right|]|by intros [[?|?] ?]].
    - destruct (IH found (missing ++ [Z.of_nat i])) as (f' & -> & Hf). exists f'. rewrite <- app_assoc. split; [done|]. intros h. rewrite Hf.
      apply decide_ext. cbn [fmap list_fmap snd]. rewrite elem_of_cons. split; [by intros [? ?]; split; [right|]|]. intros [[->|?] Hs]; [|done]. rewrite E in Hs. by destruct Hs. }
  destruct (Hgen (imap pair hs) ∅ []) as (found & -> & Hf). cbn [mbind result_bind app]. exists found. split; [done|]. intros h. rewrite Hf, lookup_empty.
  replace (imap pair hs).*2 with hs; [|by rewrite fmap_imap; clear; induction hs as [|a hs IH] using rev_ind; [|rewrite imap_app, <- IH]].
  destruct (decide (h ∈ hs)) as [Hin|Hn]; [|by rewrite decide_False by (by intros [? _])].
  destruct (P !! h) as [e|] eqn:E; [by rewrite decide_True by (split; [done|by eexists])|by rewrite decide_False by (intros [_ []]; done)].
Qed.

Lemma in_stem_pool_spec (P : Pool) t h e : pool_holds P t -> P !! h = Some e -> in_stem_pool h (transaction_infos t) = Ok (pe_stem e).
Proof using Type.
  intros Ht E. unfold in_stem_pool, db_get. rewrite (ph_infos _ _ Ht), lookup_fmap, E. cbn. by destruct (pe_stem e).
Qed.

Lemma tx_blob_spec (P : Pool) t h :
  pool_holds P t -> map_request t (TxBlob h) = match P !! h with Some e => Ok (TxBlobResponse (tvd_tx_blob (pe_tx e)) (pe_stem e)) | None => Err KeyNotFound end.
Proof using Type.
  intros Ht. cbn [map_request]. unfold tx_blob, db_get. rewrite (ph_blobs _ _ Ht), lookup_fmap.
  destruct (P !! h) as [e|] eqn:E; cbn [fmap option_fmap option_map ok_or mbind result_bind]; [|done]. by rewrite (in_stem_pool_spec P t h e Ht E).
Qed.

(** The entry a blob hash belongs to. *)
Definition known_as (P : Pool) (b h : bytes) (e : PoolEntry) : Prop := P !! h = Some e /\ b = blob_hash e.

Lemma tx_unknown_spec (P : Pool) t stem b :
  pool_holds P t ->
  (exists h e, known_as P b h e /\ tx_unknown t stem b = Ok (false, if pe_stem e then stem ++ [h] else stem)) \/
  (forall h e, ~ known_as P b h e) /\ tx_unknown t stem b = Ok (true, stem).
Proof using Type.
  intros Ht. unfold tx_unknown, db_get. destruct (known_blob_hashes t !! b) as [h|] eqn:E; cbn [ok_or].
  - left. apply (ph_known _ _ Ht) in E as (e & E & Hb). exists h, e. split; [done|]. by rewrite (in_stem_pool_spec P t h e Ht E).
  - right. split; [|done]. intros h e [He Hb]. assert (known_blob_hashes t !! b = Some h); [apply (ph_known _ _ Ht); eauto|congruence].
Qed.

Lemma filter_known_spec (P : Pool) (t : PoolTables) (bs : gset bytes) :
  pool_holds P t ->
  exists unknown stem, filter_known_tx_blob_hashes t bs = Ok (FilterKnownTxBlobHashesResponse unknown stem) /\
    (forall b, b ∈ unknown <-> b ∈ bs /\ forall h e, ~ known_as P b h e) /\
    (forall h, h ∈ stem <-> exists b e, b ∈ bs /\ known_as P b h e /\ pe_stem e = true).
Proof using Type.
  intros Ht. unfold filter_known_tx_blob_hashes.
  assert (forall (l : list bytes) u s, exists u' s', foldl (retain_unknown t) (u, s, None) l = (u', s', None) /\
    (forall b, b ∈ u' <-> b ∈ u \/ b ∈ l /\ forall h e, ~ known_as P b h e) /\
    (forall h, h ∈ s' <-> h ∈ s \/ exists b e, b ∈ l /\ known_as P b h e /\ pe_stem e = true)) as Hgen.
  { induction l as [|b0 l IH]; intros u s; cbn [foldl].
    { exists u, s. split; [done|]. split; intros z; (split; [by left|intros [?|Hz]; [done|]]).
      - by destruct Hz as [?%not_elem_of_nil _].
      - by destruct Hz as (b & e & ?%not_elem_of_nil & _). }
    unfold retain_unknown at 2. destruct (tx_unknown_spec P t s b0 Ht) as [(h0 & e0 & Hk & ->)|[Hk ->]].
    - destruct (IH u (if pe_stem e0 then s ++ [h0] else s)) as (u' & s' & -> & Hu & Hs). exists u', s'. split; [done|]. split.
      + intros b. rewrite Hu, elem_of_cons. split; [intros [?|[? ?]]; eauto|]. intros [?|[[->|?] Hn]]; eauto. by destruct (Hn _ _ Hk).
      + intros h. rewrite Hs. setoid_rewrite elem_of_cons. split.
        * intros [Hin|(b & e & Hb & ?)]; [|right; exists b, e; eauto]. destruct (pe_stem e0) eqn:Es; [|by left].
          apply elem_of_app in Hin as [?| ->%list_elem_of_singleton]; [by left|]. right. exists b0, e0. eauto.
        * intros [Hin|(b & e & [->|Hb] & Hke & He)]; [left|left|right; eauto]; [destruct (pe_stem e0); [apply elem_of_app; by left|done]|].
          assert (h = h0 /\ e = e0) as [-> ->].
          { destruct Hk as [H1 H2], Hke as [H3 H4]. assert (h = h0) as -> by (apply (ok_blobs _ (ph_ok _ _ Ht) h h0 e e0); congruence). split; congruence. }
          rewrite He. apply elem_of_app. right. by apply list_elem_of_singleton.
    - destruct (IH ({[b0]} ∪ u) s) as (u' & s' & -> & Hu & Hs). exists u', s'. split; [done|]. split.
      + intros b. rewrite Hu, elem_of_cons, elem_of_union, elem_of_singleton. split.
        * intros [[->|?]|[? ?]]; eauto.
        * intros [?|[[->|?] Hn]]; eauto.
      + intros h. rewrite Hs. setoid_rewrite elem_of_cons. split; [intros [?|(b & e & ? & ?)]; [by left|right; exists b, e; eauto]|].
        intros [?|(b & e & [->|?] & Hke & ?)]; [by left|by destruct (Hk _ _ Hke)|right; eauto]. }
  destruct (Hgen (elements bs) ∅ []) as (u & s & -> & Hu & Hs). exists u, s. split; [done|]. split.
  - intros b. rewrite Hu, elem_of_elements. split; [by intros [?%elem_of_empty|?]|by right].
  - intros h. rewrite Hs. setoid_rewrite elem_of_elements. split; [by intros [?%not_elem_of_nil|?]|by right].
Qed.

Definition backlog_entry (h : bytes) (e : PoolEntry) : TxEntry :=
  mk_entry h (tvd_tx_weight (pe_tx e)) (tvd_fee (pe_tx e)) (pe_stem e) (pe_received e).

(** The read service answers from the pool: a stored transaction is read back as it was
    added, cached verification state included; the transactions of a block are those the
    pool has, with the positions of the missing ones in order; the unknown blob hashes are
    those of no stored transaction; the stem transactions are reported as such; the
    backlog lists every transaction. *)
Theorem txpool_reads (P : Pool) (t : PoolTables) :
  pool_holds P t ->
  (forall h, map_request t (TxVerificationData h) = match P !! h with Some e => Ok (TxVerificationDataResponse (pe_tx e)) | None => Err KeyNotFound end) /\
  (forall h, map_request t (TxBlob h) = match P !! h with Some e => Ok (TxBlobResponse (tvd_tx_blob (pe_tx e)) (pe_stem e)) | None => Err KeyNotFound end) /\
  (forall hs, exists found, map_request t (TxsForBlock hs) = Ok (TxsForBlockResponse found (missing_from P hs)) /\
    forall h, found !! h = if decide (h ∈ hs) then pe_tx <$> P !! h else None) /\
  (forall bs, exists unknown stem, map_request t (FilterKnownTxBlobHashes bs) = Ok (FilterKnownTxBlobHashesResponse unknown stem) /\
    (forall b, b ∈ unknown <-> b ∈ bs /\ forall h e, ~ known_as P b h e) /\
    (forall h, h ∈ stem <-> exists b e, b ∈ bs /\ known_as P b h e /\ pe_stem e = true)) /\
  exists l, map_request t Backlog = Ok (BacklogResponse l) /\ forall x, x ∈ l <-> exists h e, P !! h = Some e /\ x = backlog_entry h e.
Proof using T Cd L.
  intros Ht. split_and!; cbn [map_request].
  - intros h. rewrite (get_tvd_spec P t h Ht). by destruct (P !! h).
  - intros h. by apply tx_blob_spec.
  - intros hs. by apply txs_for_block_spec.
  - intros bs. by apply filter_known_spec.
  - eexists. split; [done|]. intros x. rewrite (ph_infos _ _ Ht), list_elem_of_fmap. split.
    + intros ([h i] & -> & Hi). apply elem_of_map_to_list in Hi. rewrite lookup_fmap in Hi. destruct (P !! h) as [e|] eqn:E; [|done].
      injection Hi as <-. exists h, e. split; [done|]. unfold entry_of, backlog_entry. cbn. by destruct (pe_stem e).
    + intros (h & e & E & ->). exists (h, info_of e). split; [unfold entry_of, backlog_entry; cbn; by destruct (pe_stem e)|].
      apply elem_of_map_to_list. by rewrite lookup_fmap, E.
Qed.
End facts.

(** ** A concrete pool *)
Module TestPool.
Import Transparent TestHelpers.

(** A transaction that spends the key images listed in its blob, which is its hash as well. *)
Definition spend (kis : list Z) : Transaction (H := oxide) :=
  Tx_V1 (H := oxide)
    (mk_prefix (H := oxide) TL_None (map (fun k => ToKey (H := oxide) (Some 40) [0] k) kis) [mk_output (H := oxide) (Some 40) 5 None]) [].

#[export] Instance codec : MoneroCodec oxide := {|
  tx_serialize := tx_serialize (MoneroCodec := TestStore.codec);
  tx_read b := Some (spend b);
  tx_hash tx := omap (fun i : Input (H := oxide) => match i with ToKey _ _ k => Some k | Gen _ => None end) (inputs (prefix tx));
  tx_weight := tx_weight (MoneroCodec := TestStore.codec);
  header_serialize := header_serialize (MoneroCodec := TestStore.codec);
  header_read := header_read (MoneroCodec := TestStore.codec);
  block_serialize := block_serialize (MoneroCodec := TestStore.codec);
  block_read := block_read (MoneroCodec := TestStore.codec);
  block_new := block_new (MoneroCodec := TestStore.codec);
  varint_write := varint_write (MoneroCodec := TestStore.codec);
|}.

Definition data (kis : list Z) : TransactionVerificationData (O := oxide) :=
  mk_tvd (O := oxide) (spend kis) RingSignatures kis 100 6 kis (ValidAtHashAndHFWithTimeBasedLock [9] V13 (TL_Time 1500)).

Definition blake3 (b : bytes) : bytes := b.

Lemma poolable_data kis : kis <> [] -> poolable (data kis).
Proof. intros Hk. split; [|done|done| | |]; cbn; [by induction kis as [|k [|k' kis] IH]; [|done|cbn; f_equal; apply IH]|by induction kis as [|? [|? ?] IH]; [|done|apply IH]|by destruct kis|]. split; [done|]. exists 1500. split; [done|lia]. Qed.

(** Two transactions are added, the second one to the stem pool; a third one spends a key
    image of the first. *)
Definition requests : list TxpoolWriteRequest := [AddTransaction (data [11; 12]) false; AddTransaction (data [13]) true].
Definition full : PoolTables := foldl (fun t req => (handle_txpool_request blake3 1000 t req).2) empty_pool requests.
Definition contents : gmap bytes PoolEntry := {[ [11; 12] := mk_pool_entry (data [11; 12]) false 1000; [13] := mk_pool_entry (data [13]) true 1000 ]}.

Lemma full_reachable : reachable blake3 full.
Proof.
  unfold full, requests. cbn [foldl]. apply reach_request; [apply reach_request; [apply reach_empty|]|].
  - split; [by apply poolable_data|]. intros h b Hb. cbn in Hb. by rewrite lookup_empty in Hb.
  - split; [by apply poolable_data|]. intros h b Hb Hor.
    assert (transaction_blobs (handle_txpool_request blake3 1000 empty_pool (AddTransaction (data [11; 12]) false)).2 = {[ [11; 12] := [11; 12] ]}) as Ht
      by (vm_compute; reflexivity).
    rewrite Ht, lookup_singleton_Some in Hb. destruct Hb as [<- <-]. by destruct Hor.
Qed.

Lemma empty_request : request_ok blake3 ∅ (AddTransaction (data [11; 12]) false).
Proof. split; [by apply poolable_data|]. intros h e He. by rewrite lookup_empty in He. Qed.

Definition one : gmap bytes PoolEntry := <[ [11; 12] := mk_pool_entry (data [11; 12]) false 1000 ]> ∅.
Definition one_tables : PoolTables := (handle_txpool_request blake3 1000 empty_pool (AddTransaction (data [11; 12]) false)).2.

Lemma one_holds : pool_holds blake3 one one_tables.
Proof.
  pose proof (add_transaction_spec blake3 ∅ empty_pool 1000 (data [11; 12]) false (pool_holds_empty blake3) empty_request) as H.
  unfold one_tables. cbn [handle_txpool_request].
  assert (exists t, add_transaction blake3 1000 (data [11; 12]) false empty_pool = Ok t) as [t Ht] by (eexists; vm_compute; reflexivity).
  rewrite Ht in H |- *. apply H.
Qed.
End TestPool.
Import Transparent TestPool.

Lemma pool_never_double_spends_witness :
  transaction_blobs TestPool.full !! [11; 12] = Some [11; 12] /\ transaction_blobs TestPool.full !! [13] = Some [13] /\
  exists tx tx', tx_read [11; 12] = Some tx /\ tx_read [13] = Some tx' /\ forall k, k ∈ kis_of tx -> k ∉ kis_of tx'.
Proof.
  assert (transaction_blobs TestPool.full !! [11; 12] = Some [11; 12]) as H1 by (vm_compute; reflexivity).
  assert (transaction_blobs TestPool.full !! [13] = Some [13]) as H2 by (vm_compute; reflexivity).
  split; [exact H1|]. split; [exact H2|].
  destruct (pool_never_double_spends TestPool.blake3 TestPool.full [11; 12] [13] [11; 12] [13] TestPool.full_reachable H1 H2) as (tx & tx' & R1 & R2 & _ & H).
  exists tx, tx'. split; [exact R1|]. split; [exact R2|]. by apply H.
Defined.

(** A transaction that spends key image 12 again is refused. *)
Lemma txpool_refines_witness :
  exists P', pool_step 2000 TestPool.one (AddTransaction (TestPool.data [12; 14]) false) (Some (AddTransactionResponse (Some [11; 12]))) P' /\
    pool_holds TestPool.blake3 P' TestPool.one_tables.
Proof.
  destruct (txpool_refines TestPool.blake3 2000 TestPool.one TestPool.one_tables (AddTransaction (TestPool.data [12; 14]) false)) as (r & P' & Hs & Hh & Hr).
  - exact TestPool.one_holds.
  - split; [by apply TestPool.poolable_data|]. intros h e He Hor. unfold TestPool.one in He. apply lookup_insert_Some in He as [[<- <-]|[_ He]]; [by destruct Hor|by rewrite lookup_empty in He].
  - exists P'. destruct r as [r|]; [|vm_compute in Hr; discriminate].
    assert (r = AddTransactionResponse (Some [11; 12])) as -> by (vm_compute in Hr; congruence).
    split; [exact Hs|]. assert ((handle_txpool_request TestPool.blake3 2000 TestPool.one_tables (AddTransaction (TestPool.data [12; 14]) false)).2 = TestPool.one_tables) as E
      by (vm_compute; reflexivity). by rewrite E in Hh.
Defined.

Lemma txpool_reads_witness :
  map_request TestPool.one_tables (TxVerificationData [11; 12]) = Ok (TxVerificationDataResponse (TestPool.data [11; 12])) /\
  map_request TestPool.one_tables (TxVerificationData [13]) = Err KeyNotFound.
Proof.
  destruct (txpool_reads TestPool.blake3 TestPool.one TestPool.one_tables TestPool.one_holds) as [H _].
  split; rewrite H; vm_compute; reflexivity.
Defined.
End TxPoolFacts.
