(* ===== verification/TxPoolManager.v ===== *)
(** * The transaction pool manager ([src/binaries/cuprated/src/txpool]: [manager.rs],
    [relay_rules.rs], [txs_being_handled.rs], [incoming_tx.rs];
    [src/p2p/dandelion-tower/src/pool/incoming_tx.rs])

    The task that owns the pool database, tracks when a transaction is to be relayed again
    or dropped, and the handler of incoming transactions in front of it. The messages to
    the Dandelion++ pool and to the diffuse service are recorded in order. Each reading of
    the clock is a call of [clock]. *)
From S2P Require Import Prelude Bytes HardForks ChainDb RulesBase TxData TxRules TxContext BlockRules Helpers DbTables TxOps Context BlockchainService TxVerification TxPool.
From Stdlib Require Import ZArith Lia String.
From stdpp Require Import base tactics option list numbers sets gmap.
Import HardForks ChainDb RulesBase TxData TxRules TxContext Helpers DbTables TxOps TxVerification TxPool.

#[local] Open Scope Z_scope.
#[local] Open Scope usize_scope.

Module TxPoolManager.

(** ** Third-party parts *)

(** The keys [tokio_util::time::DelayQueue] hands out, the delays in seconds it takes (its
    [insert] panics on a timeout too far in the future), and the [extra] field of a
    transaction of [monero_oxide]. *)
Class PoolDeps (O : MoneroOxide) := {
  next_key : gmap Z (bytes * Z) -> Z;
  delay_taken : gmap Z (bytes * Z) -> Z -> bool;
  extra : TransactionPrefix -> bytes;
}.

(** A key in use is not handed out again. *)
Class PoolDepsLaws (O : MoneroOxide) (D : PoolDeps O) : Prop := {
  next_key_fresh : forall q, q !! next_key q = None;
}.

(** ** Routing states *)
Inductive State := Fluff | Stem.

#[export] Instance State_eq_dec : EqDecision State.
Proof. solve_decision. Defined.

Inductive TxState (PeerId : Type) := TxFluff | TxStem (from : PeerId) | TxLocal.
#[global] Arguments TxFluff {_}.
#[global] Arguments TxStem {_} _.
#[global] Arguments TxLocal {_}.

Definition is_stem_stage {PeerId} (s : TxState PeerId) : bool :=
  match s with TxLocal | TxStem _ => true | TxFluff => false end.

Record IncomingTx (PeerId : Type) := mk_incoming { in_tx : bytes; in_tx_id : bytes; routing_state : TxState PeerId }.
#[global] Arguments mk_incoming {_} _ _ _.
#[global] Arguments in_tx {_} _.
#[global] Arguments in_tx_id {_} _.
#[global] Arguments routing_state {_} _.

(** [IncomingTxBuilder::new(tx, tx_id).with_routing_state(state).with_state_in_db(db).build()] *)
Definition build_incoming {PeerId} (tx tx_id : bytes) (state : TxState PeerId) (state_in_db : option State) : option (IncomingTx PeerId) :=
  if bool_decide (state_in_db = Some Fluff) then None else Some (mk_incoming tx tx_id state).

(** ** Timeouts *)
Definition TX_RERELAY_TIME : Z := 300.

(** [calculate_next_timeout(received_at, max_time_in_pool)], the clock showing [now] *)
Definition calculate_next_timeout (now received_at max_time_in_pool : Z) : Z :=
  let time_in_pool := now -! received_at in
  let time_till_max_timeout := saturating_sub max_time_in_pool time_in_pool in
  let timeouts := time_in_pool / TX_RERELAY_TIME in
  Z.min ((timeouts +! 1) *! TX_RERELAY_TIME) time_till_max_timeout.

(** ** Relay rules *)
Definition MAX_TX_EXTRA_SIZE : Z := 1060.
Definition DYNAMIC_FEE_REFERENCE_TRANSACTION_WEIGHT : Z := 3000.
Definition FEE_MASK : Z := 10 ^ 4.

Inductive RelayRuleError := NonZeroTimelock | ExtraFieldTooLarge | FeeBelowMinimum.

(** A zero median panics. *)
Definition dynamic_base_fee (base_reward effective_media_block_weight : Z) : result RelayRuleError Z :=
  let median_block_weight := effective_media_block_weight in
  if median_block_weight =? 0 then Panic
  else
    let fee_per_byte_100 :=
      wrap 128 (base_reward * DYNAMIC_FEE_REFERENCE_TRANSACTION_WEIGHT) / median_block_weight / median_block_weight in
    let fee_per_byte := fee_per_byte_100 - fee_per_byte_100 / 20 in
    Ok (Z.max (wrap 64 fee_per_byte) 1).

Definition check_fee (tx_weight fee : Z) (context : BlockRules.ContextToVerifyBlock) : result RelayRuleError () :=
  base_reward ← BlockRules.calculate_block_reward 1 (BlockRules.effective_median_weight context)
    (BlockRules.already_generated_coins context) (BlockRules.current_hf context);
  fee_per_byte ← dynamic_base_fee base_reward (BlockRules.effective_median_weight context);
  let needed_fee := tx_weight *! fee_per_byte in
  let needed_fee := div_ceil needed_fee FEE_MASK *! FEE_MASK in
  if fee <? needed_fee -! needed_fee / 50 then Err FeeBelowMinimum else Ok ().

Section manager.
Context {O : MoneroOxide} {T : TransactionOps O} {C : Dalek O} {Cd : MoneroCodec O} {B : MoneroBatch O} {D : PoolDeps O}.
Context (blake3 : bytes -> bytes) (clock : nat -> Z).
Context {PeerId : Type}.

Definition check_tx_relay_rules (tx : TransactionVerificationData) (context : BlockRules.ContextToVerifyBlock) : result RelayRuleError () :=
  if match additional_timelock (prefix (tvd_tx tx)) with TL_None => false | _ => true end then Err NonZeroTimelock
  else if len (extra (prefix (tvd_tx tx))) >? MAX_TX_EXTRA_SIZE then Err ExtraFieldTooLarge
  else check_fee (tvd_tx_weight tx) (tvd_fee tx) context.

(** ** The manager's state *)
Record TxInfo := mk_tx_info {
  m_weight : Z;
  m_fee : Z;
  m_received_at : Z;
  m_private : bool;
  timeout_key : option Z;
}.

(** What the manager sends: a transaction to every peer, or to the Dandelion++ pool. *)
Inductive Message := Diffuse (tx_blob : bytes) | Route (tx : IncomingTx PeerId).

Record TxpoolManager := mk_txpool_manager {
  current_txs : gmap bytes TxInfo;
  tx_timeouts : gmap Z (bytes * Z);
  pool : PoolTables;
  maximum_age_secs : Z;
  calls : nat;
  messages : list Message;
}.

Definition set_current_txs (f : gmap bytes TxInfo -> gmap bytes TxInfo) (m : TxpoolManager) : TxpoolManager :=
  mk_txpool_manager (f (current_txs m)) (tx_timeouts m) (pool m) (maximum_age_secs m) (calls m) (messages m).
Definition set_tx_timeouts (q : gmap Z (bytes * Z)) (m : TxpoolManager) : TxpoolManager :=
  mk_txpool_manager (current_txs m) q (pool m) (maximum_age_secs m) (calls m) (messages m).
Definition set_pool (t : PoolTables) (m : TxpoolManager) : TxpoolManager :=
  mk_txpool_manager (current_txs m) (tx_timeouts m) t (maximum_age_secs m) (calls m) (messages m).
Definition send (msg : Message) (m : TxpoolManager) : TxpoolManager :=
  mk_txpool_manager (current_txs m) (tx_timeouts m) (pool m) (maximum_age_secs m) (calls m) (messages m ++ [msg]).

(** [current_unix_timestamp()]: the time, and the state in which the next reading is another one *)
Definition now (m : TxpoolManager) : Z * TxpoolManager :=
  (clock (calls m), mk_txpool_manager (current_txs m) (tx_timeouts m) (pool m) (maximum_age_secs m) (S (calls m)) (messages m)).

(** A handler: the new state, or a panic. *)
Abbreviation step := (result RuntimeError TxpoolManager).

(** [self.txpool_write_handle.call(req).await.expect(..)] *)
Definition write_call (req : TxpoolWriteRequest) (m : TxpoolManager) : result RuntimeError (TxpoolWriteResponse * TxpoolManager) :=
  let '(time, m) := now m in
  match handle_txpool_request blake3 time (pool m) req with
  | (Ok r, t) => Ok (r, set_pool t m)
  | _ => Panic
  end.

(** [self.tx_timeouts.insert(tx, Duration::from_secs(timeout))] *)
Definition insert_timeout (tx : bytes) (timeout : Z) (m : TxpoolManager) : result RuntimeError (Z * TxpoolManager) :=
  if delay_taken (tx_timeouts m) timeout
  then Ok (next_key (tx_timeouts m), set_tx_timeouts (<[next_key (tx_timeouts m) := (tx, timeout)]> (tx_timeouts m)) m)
  else Panic.

(** ** The handlers *)
Definition remove_tx_from_pool (tx : bytes) (remove_from_db : bool) (m : TxpoolManager) : step :=
  tx_info ← unwrap (current_txs m !! tx);
  let m := set_current_txs (delete tx) m in
  let m := match timeout_key tx_info with Some key => set_tx_timeouts (delete key (tx_timeouts m)) m | None => m end in
  if remove_from_db then '((_, m) : TxpoolWriteResponse * TxpoolManager) ← write_call (RemoveTransaction tx) m; Ok m
  else Ok m.

Definition rerelay_tx (tx : bytes) (m : TxpoolManager) : step :=
  match map_request (pool m) (TxBlob tx) with
  | Ok (TxBlobResponse tx_blob _) => Ok (send (Diffuse tx_blob) m)
  | _ => Panic
  end.

Definition handle_tx_timeout (tx : bytes) (m : TxpoolManager) : step :=
  match current_txs m !! tx with
  | None => Ok m
  | Some tx_info =>
      let '(time, m) := now m in
      let time_in_pool := time -! m_received_at tx_info in
      if time_in_pool +! 10 >? maximum_age_secs m then remove_tx_from_pool tx true m
      else
        let received_at := m_received_at tx_info in
        m ← rerelay_tx tx m;
        tx_info ← unwrap (current_txs m !! tx);
        let '(time, m) := now m in
        let next_timeout := calculate_next_timeout time received_at (maximum_age_secs m) in
        '((key, m) : Z * TxpoolManager) ← insert_timeout tx next_timeout m;
        Ok (set_current_txs <[tx := mk_tx_info (m_weight tx_info) (m_fee tx_info) (m_received_at tx_info) (m_private tx_info) (Some key)]> m)
  end.

Definition track_tx (tx : bytes) (weight fee : Z) (private : bool) (m : TxpoolManager) : step :=
  let '(received_at, m) := now m in
  if private then Ok (set_current_txs <[tx := mk_tx_info weight fee received_at private None]> m)
  else
    let '(time, m) := now m in
    let timeout := calculate_next_timeout time received_at (maximum_age_secs m) in
    '((key, m) : Z * TxpoolManager) ← insert_timeout tx timeout m;
    Ok (set_current_txs <[tx := mk_tx_info weight fee received_at private (Some key)]> m).

Definition handle_incoming_tx (tx : TransactionVerificationData) (state : TxState PeerId) (m : TxpoolManager) : step :=
  '((r, m) : TxpoolWriteResponse * TxpoolManager) ← write_call (AddTransaction tx (is_stem_stage state)) m;
  match r with
  | AddTransactionResponse (Some _) => Ok m
  | AddTransactionResponse None =>
      m ← track_tx (tvd_tx_hash tx) (tvd_tx_weight tx) (tvd_fee tx) (is_stem_stage state) m;
      incoming_tx ← unwrap (build_incoming (tvd_tx_blob tx) (tvd_tx_hash tx) state None);
      Ok (send (Route incoming_tx) m)
  | _ => Panic
  end.

Definition promote_tx (tx : bytes) (m : TxpoolManager) : step :=
  match current_txs m !! tx with
  | None => Ok m
  | Some tx_info =>
      if negb (m_private tx_info) then Ok m
      else
        let '(received_at, m) := now m in
        let '(time, m) := now m in
        let next_timeout := calculate_next_timeout time received_at (maximum_age_secs m) in
        '((key, m) : Z * TxpoolManager) ← insert_timeout tx next_timeout m;
        let m := set_current_txs <[tx := mk_tx_info (m_weight tx_info) (m_fee tx_info) received_at false (Some key)]> m in
        '((_, m) : TxpoolWriteResponse * TxpoolManager) ← write_call (Promote tx) m;
        Ok m
  end.

Definition new_block (spent_key_images : list bytes) (m : TxpoolManager) : step :=
  '((r, m) : TxpoolWriteResponse * TxpoolManager) ← write_call (NewBlock spent_key_images) m;
  match r with
  | NewBlockResponse removed_txs => try_fold (fun m tx => remove_tx_from_pool tx false m) m removed_txs
  | _ => Panic
  end.

(** ** Starting and running *)

(** One entry of the backlog: the stem transactions to promote so far, and the state. *)
Definition load_entry '((stem_txs, m) : list bytes * TxpoolManager) (tx : TxEntry) : result RuntimeError (list bytes * TxpoolManager) :=
  if is_private tx then
    Ok (stem_txs ++ [id tx], set_current_txs <[id tx := mk_tx_info (weight tx) (fee tx) (entry_received_at tx) (is_private tx) None]> m)
  else
    let '(time, m) := now m in
    let next_timeout := calculate_next_timeout time (entry_received_at tx) (maximum_age_secs m) in
    '((key, m) : Z * TxpoolManager) ← insert_timeout (id tx) next_timeout m;
    Ok (stem_txs, set_current_txs <[id tx := mk_tx_info (weight tx) (fee tx) (entry_received_at tx) (is_private tx) (Some key)]> m).

Definition start_txpool_manager (t : PoolTables) (maximum_age_secs : Z) : step :=
  match map_request t Backlog with
  | Ok (BacklogResponse backlog) =>
      '((stem_txs, m) : list bytes * TxpoolManager) ← try_fold load_entry ([], mk_txpool_manager ∅ ∅ t maximum_age_secs 0 []) backlog;
      try_fold (fun m tx => promote_tx tx m) m stem_txs
  | _ => Panic
  end.

(** The branches of the [select!] of [run]; a timeout names the timer that fired. *)
Inductive PoolEvent :=
  | TimeoutFired (key : Z)
  | IncomingTransaction (tx : TransactionVerificationData) (state : TxState PeerId)
  | PromoteTx (tx : bytes)
  | SpentKeyImages (spent_kis : list bytes).

Definition run_once (m : TxpoolManager) (ev : PoolEvent) : step :=
  match ev with
  | TimeoutFired key =>
      match tx_timeouts m !! key with
      | Some (tx, _) => handle_tx_timeout tx (set_tx_timeouts (delete key (tx_timeouts m)) m)
      | None => Ok m
      end
  | IncomingTransaction tx state => handle_incoming_tx tx state m
  | PromoteTx tx => promote_tx tx m
  | SpentKeyImages spent_kis => new_block spent_kis m
  end.

(** ** Transactions being handled *)

(** [try_add_tx] on the shared set and the local list of one request *)
Definition try_add_tx (tx_blob_hash : bytes) (handled : gset bytes) (local : list bytes) : bool * gset bytes * list bytes :=
  if bool_decide (tx_blob_hash ∈ handled) then (false, handled, local)
  else (true, {[tx_blob_hash]} ∪ handled, local ++ [tx_blob_hash]).

(** [Drop for TxsBeingHandledLocally] *)
Definition drop_local (local : list bytes) (handled : gset bytes) : gset bytes :=
  foldl (fun handled hash => handled ∖ {[hash]}) handled local.

(** ** Incoming transactions *)
Inductive IncomingTxError :=
  | Parse
  | Consensus (e : ExtendedConsensusError)
  | DuplicateTransaction
  | RelayRule (e : RelayRuleError).

(** The first pass of [prepare_incoming_txs]: the transactions no other request handles,
    with their blob hashes; the blob hashes of the message; the two trackers. *)
Fixpoint claim_blobs (tx_blobs : list bytes) (tx_blob_hashes handled : gset bytes) (local : list bytes)
    : result IncomingTxError (list (bytes * bytes) * gset bytes) * gset bytes * list bytes :=
  match tx_blobs with
  | [] => (Ok ([], tx_blob_hashes), handled, local)
  | tx_blob :: tx_blobs =>
      let tx_blob_hash := transaction_blob_hash blake3 tx_blob in
      if bool_decide (tx_blob_hash ∈ tx_blob_hashes) then (Err DuplicateTransaction, handled, local)
      else
        let tx_blob_hashes := {[tx_blob_hash]} ∪ tx_blob_hashes in
        let '(added, handled, local) := try_add_tx tx_blob_hash handled local in
        let '(rest, handled, local) := claim_blobs tx_blobs tx_blob_hashes handled local in
        (('((txs, hashes) : list (bytes * bytes) * gset bytes) ← rest;
          Ok (if (added : bool) then (tx_blob_hash, tx_blob) :: txs else txs, hashes)), handled, local)
  end.

(** [Transaction::read] and [new_tx_verification_data] *)
Definition parse_tx (tx_blob : bytes) : result IncomingTxError TransactionVerificationData :=
  tx ← ok_or (tx_read tx_blob) Parse;
  map_err (fun e => Consensus (ConsErr e)) (new_tx_verification_data tx).

(** The second pass: the unknown transactions, parsed, and the hashes of the known ones in
    the stem pool. *)
Definition filter_and_parse (t : PoolTables) (txs : list (bytes * bytes)) (tx_blob_hashes : gset bytes)
    : result IncomingTxError (list TransactionVerificationData * list bytes) :=
  match map_request t (FilterKnownTxBlobHashes tx_blob_hashes) with
  | Ok (FilterKnownTxBlobHashesResponse unknown_blob_hashes stem_pool_hashes) =>
      txs ← collect parse_tx (filter (fun p : bytes * bytes => p.1 ∈ unknown_blob_hashes) txs).*2;
      Ok (txs, stem_pool_hashes)
  | _ => Panic
  end.

Definition prepare_incoming_txs (t : PoolTables) (tx_blobs : list bytes) (handled : gset bytes)
    : result IncomingTxError (list TransactionVerificationData * list bytes) * gset bytes * list bytes :=
  let '(claimed, handled, local) := claim_blobs tx_blobs ∅ handled [] in
  (('((txs, tx_blob_hashes) : list (bytes * bytes) * gset bytes) ← claimed; filter_and_parse t txs tx_blob_hashes), handled, local).

(** The loop that passes the verified transactions on: those passed on before an error
    stay passed on. *)
Fixpoint pass_on (drop_relay_rule_errors : bool) (context : BlockRules.ContextToVerifyBlock) (txs : list TransactionVerificationData)
    : result IncomingTxError () * list TransactionVerificationData :=
  match txs with
  | [] => (Ok (), [])
  | tx :: txs =>
      match check_tx_relay_rules tx context with
      | Err e => if drop_relay_rule_errors then pass_on drop_relay_rule_errors context txs else (Err (RelayRule e), [])
      | Ok _ => let '(r, sent) := pass_on drop_relay_rule_errors context txs in (r, tx :: sent)
      | Panic => (Panic, [])
      end
  end.

(** The message for a transaction of the stem pool, if it is still there. *)
Definition rerelay_stem_tx (t : PoolTables) (state : TxState PeerId) (tx_hash : bytes) : option (IncomingTx PeerId) :=
  match map_request t (TxBlob tx_hash) with
  | Ok (TxBlobResponse tx_blob _) => build_incoming tx_blob tx_hash state (Some Stem)
  | _ => None
  end.

Record IncomingTxs := mk_incoming_txs {
  txs : list bytes;
  state : TxState PeerId;
  drop_relay_rule_errors : bool;
  do_not_relay : bool;
}.

(** What a request does: its result, the transactions passed to the manager, the messages
    to the Dandelion++ pool, and the transactions still being handled. *)
Record Handled := mk_handled {
  h_result : result IncomingTxError ();
  h_sent : list (TransactionVerificationData * TxState PeerId);
  h_routed : list (IncomingTx PeerId);
  h_handled : gset bytes;
}.

Definition handle_incoming_txs (rng : TransactionVerificationData -> Rng) (time : Z) (context : Context.BlockchainContext)
    (database : Tables) (t : PoolTables) (handled : gset bytes) (req : IncomingTxs) : Handled :=
  let '(prepared, handled, local) := prepare_incoming_txs t (txs req) handled in
  let ctx := Context.context_to_verify_block context in
  let verified : result IncomingTxError (list TransactionVerificationData * list bytes) :=
    '((txs, stem_pool_txs) : list TransactionVerificationData * list bytes) ← prepared;
    txs ← map_err (fun e => Consensus (ConsErr e)) (prepare txs []);
    time_for_time_lock ← expect (Context.current_adjusted_timestamp_for_time_lock context time);
    txs ← map_err Consensus (verify rng txs (BlockRules.chain_height ctx) (BlockRules.top_hash ctx) time_for_time_lock (BlockRules.current_hf ctx) database None);
    Ok (txs, stem_pool_txs) in
  match verified with
  | Ok (txs, stem_pool_txs) =>
      let '(r, sent) := pass_on (drop_relay_rule_errors req) ctx txs in
      let sent := map (fun tx => (tx, state req)) sent in
      match r with
      | Ok _ => mk_handled (Ok ()) sent (omap (rerelay_stem_tx t (state req)) stem_pool_txs) (drop_local local handled)
      | r => mk_handled r sent [] (drop_local local handled)
      end
  | Err e => mk_handled (Err e) [] [] (drop_local local handled)
  | Panic => mk_handled Panic [] [] (drop_local local handled)
  end.
End manager.
End TxPoolManager.
