(* ===== verification/Dandelion.v ===== *)
(** * Dandelion++ ([src/p2p/dandelion-tower/src], [src/binaries/cuprated/src/txpool/dandelion])

    How transactions leave the node without showing where they came from: the router sends
    a transaction along a stem to one peer or diffuses it to all; the pool manager puts a
    timer on every transaction in the stem and diffuses it if it is not seen again in time.
    Random draws, the peers that are found and whether services are ready are arguments;
    what the router and the manager send is a value or a log. *)
From S2P Require Import Prelude Bytes ChainDb RulesBase TxData TxContext Helpers DbTables TxOps TxVerification TxPool TxPoolManager.
From Stdlib Require Import ZArith Lia.
From stdpp Require Import base tactics option list numbers sets gmap relations.
Import TxData TxContext Helpers TxOps TxVerification TxPoolManager.

#[local] Open Scope Z_scope.

Inductive poll (A : Type) := Pending | Ready (a : A).
Arguments Pending {A}.
Arguments Ready {A} a.

Module Dandelion.

(** ** Configuration *)
Inductive Graph := Line | FourRegular.
Record DandelionConfig := mk_config { time_between_hop : Z; epoch_duration : Z; graph : Graph }.

Definition number_of_stems (c : DandelionConfig) : nat := match graph c with Line => 1 | FourRegular => 2 end.

(** The node's configuration, in milliseconds. *)
Definition DANDELION_CONFIG : DandelionConfig := mk_config 175 (10 * 60 * 1000) FourRegular.

Inductive DandelionRouterError :=
  | PeerError
  | BroadcastError
  | OutboundPeerStreamError
  | OutboundPeerDiscoverExited.

(** ** The router *)
Section router.
Context {Id Svc : Type} `{Countable Id}.

(** One poll of the stream of outbound peers; with a peer, its first [poll_ready]. *)
Inductive Discovered :=
  | DiscoverPending
  | DiscoverExited
  | DiscoverError
  | DiscoverPeer (key : Id) (svc : Svc) (ready : poll bool)
  | DiscoverExhausted.

Record DandelionRouter := mk_router {
  current_state : State;
  epoch_start : Z;
  local_route : option Id;
  stem_routes : gmap Id Id;
  stem_peers : gmap Id Svc;
  config : DandelionConfig;
}.

Definition state_of_draw (fluff : bool) : State := if fluff then Fluff else Stem.

Definition new_router (fluff : bool) (now : Z) (config : DandelionConfig) : DandelionRouter :=
  mk_router (state_of_draw fluff) now None ∅ ∅ config.

Definition set_stem_peers (peers : gmap Id Svc) (r : DandelionRouter) : DandelionRouter :=
  mk_router (current_state r) (epoch_start r) (local_route r) (stem_routes r) peers (config r).

Definition peers_needed (r : DandelionRouter) : nat :=
  match current_state r with Stem => number_of_stems (config r) | Fluff => 1 end.

(** The loop of [poll_prepare_graph]; [stream] is what the polls of the stream give, after
    which it is pending. *)
Fixpoint prepare_graph (needed : nat) (stream : list Discovered) (peers : gmap Id Svc)
    : poll (result DandelionRouterError ()) * gmap Id Svc :=
  if (needed <=? size peers)%nat then (Ready (Ok ()), peers)
  else
    match stream with
    | [] | DiscoverPending :: _ => (Pending, peers)
    | DiscoverError :: _ => (Ready (Err OutboundPeerStreamError), peers)
    | DiscoverExited :: _ => (Ready (Err OutboundPeerDiscoverExited), peers)
    | DiscoverExhausted :: _ => (Ready (Ok ()), peers)
    | DiscoverPeer key svc ready :: stream =>
        let peers := <[key := svc]> peers in
        match ready with
        | Pending => (Pending, peers)
        | Ready ok => prepare_graph needed stream (if ok then peers else delete key peers)
        end
    end.

(** What a poll of the router meets. *)
Record RouterEnv := mk_router_env {
  now : Z;
  fluff_draw : bool;
  peer_ready : Id -> poll bool;
  peer_stream : list Discovered;
  broadcast_ready : poll bool;
}.

Definition new_epoch (env : RouterEnv) (r : DandelionRouter) : DandelionRouter :=
  if epoch_duration (config r) <? now env - epoch_start r
  then mk_router (state_of_draw (fluff_draw env)) (now env) None ∅ ∅ (config r)
  else r.

(** Peers whose service has failed are dropped. *)
Definition retain_ready (env : RouterEnv) (peers : gmap Id Svc) : gmap Id Svc :=
  filter (fun x => match peer_ready env x.1 with Ready false => false | _ => true end = true) peers.
Definition peers_pending (env : RouterEnv) (peers : gmap Id Svc) : bool :=
  existsb (fun x => match peer_ready env x.1 with Pending => true | _ => false end) (map_to_list peers).

Definition poll_ready (env : RouterEnv) (r : DandelionRouter) : poll (result DandelionRouterError ()) * DandelionRouter :=
  let r := new_epoch env r in
  let r := set_stem_peers (retain_ready env (stem_peers r)) r in
  if peers_pending env (stem_peers r) then (Pending, r)
  else
    let '(res, peers) := prepare_graph (peers_needed r) (peer_stream env) (stem_peers r) in
    let r := set_stem_peers peers r in
    match res with
    | Ready (Ok _) =>
        match broadcast_ready env with
        | Pending => (Pending, r)
        | Ready true => (Ready (Ok ()), r)
        | Ready false => (Ready (Err BroadcastError), r)
        end
    | res => (res, r)
    end.

(** What a call sends, and where to. *)
Inductive Action := Diffuse (tx : bytes) | StemTo (peer : Id) (tx : bytes).

(** [iter().choose(rng)], the [n]th draw *)
Context (choose : nat -> list Id -> option Id).

Definition stem_ids (r : DandelionRouter) : list Id := map fst (map_to_list (stem_peers r)).

(** The loop that looks for a peer: a route to a peer that is gone is forgotten. *)
Fixpoint find_route {E} (fuel n : nat) (r : DandelionRouter) (route : option Id) : result E Id :=
  match fuel with
  | O => Panic
  | S fuel =>
      id ← match route with Some id => Ok id | None => unwrap (choose n (stem_ids r)) end;
      if bool_decide (is_Some (stem_peers r !! id)) then Ok id else find_route fuel (S n) r None
  end.

Definition stem_tx {E} (tx : bytes) (from : Id) (r : DandelionRouter) : result E (Action * DandelionRouter) :=
  if bool_decide (stem_peers r = ∅) then Ok (Diffuse tx, r)
  else
    id ← find_route 2 0 r (stem_routes r !! from);
    Ok (StemTo id tx, mk_router (current_state r) (epoch_start r) (local_route r) (<[from := id]> (stem_routes r)) (stem_peers r) (config r)).

Definition stem_local_tx {E} (tx : bytes) (r : DandelionRouter) : result E (Action * DandelionRouter) :=
  if bool_decide (stem_peers r = ∅) then Ok (Diffuse tx, r)
  else
    id ← find_route 2 0 r (local_route r);
    Ok (StemTo id tx, mk_router (current_state r) (epoch_start r) (Some id) (stem_routes r) (stem_peers r) (config r)).

(** [Service::call] *)
Definition call {E} (tx : bytes) (state : TxState Id) (r : DandelionRouter) : result E (Action * DandelionRouter) :=
  match state with
  | TxFluff => Ok (Diffuse tx, r)
  | TxStem from => match current_state r with Fluff => Ok (Diffuse tx, r) | Stem => stem_tx tx from r end
  | TxLocal => stem_local_tx tx r
  end.

(** ** The node's router: transactions of our own go over Tor where there is a peer *)
Record MainDandelionRouter := mk_main {
  clearnet_router : DandelionRouter;
  tor_router : option (option Svc);  (* the peer of the [AnonTxService] *)
  tor_net_rx : bool;
}.
Inductive MainAction := Clearnet (a : Action) | OverTor (peer : Svc) (tx : bytes).

(** [AnonTxService::poll_ready]: [ready] is the poll of the peer that is held. *)
Fixpoint anon_discover (stream : list Discovered) : poll (result DandelionRouterError ()) * option Svc :=
  match stream with
  | [] | DiscoverPending :: _ => (Pending, None)
  | DiscoverError :: _ => (Ready (Err OutboundPeerStreamError), None)
  | DiscoverExited :: _ => (Ready (Err OutboundPeerDiscoverExited), None)
  | DiscoverExhausted :: _ => (Ready (Ok ()), None)
  | DiscoverPeer _ svc Pending :: _ => (Pending, Some svc)
  | DiscoverPeer _ svc (Ready true) :: _ => (Ready (Ok ()), Some svc)
  | DiscoverPeer _ svc (Ready false) :: stream => anon_discover stream
  end.
Definition anon_poll_ready (ready : poll bool) (stream : list Discovered) (peer : option Svc)
    : poll (result DandelionRouterError ()) * option Svc :=
  match peer, ready with
  | Some svc, Pending => (Pending, Some svc)
  | Some svc, Ready true => (Ready (Ok ()), Some svc)
  | _, _ => anon_discover stream
  end.

(** [arrived] is what the channel of the Tor interface gives, [None] when it is closed. *)
Definition main_poll_ready (arrived : option bool) (tor_ready : poll bool) (tor_stream : list Discovered) (env : RouterEnv) (m : MainDandelionRouter)
    : poll (result DandelionRouterError ()) * MainDandelionRouter :=
  let m :=
    if bool_decide (tor_router m = None) && tor_net_rx m then
      match arrived with
      | Some true => mk_main (clearnet_router m) (Some None) false
      | Some false => m
      | None => mk_main (clearnet_router m) None false
      end
    else m in
  let '(tor, tor') :=
    match tor_router m with
    | Some peer => let '(res, peer) := anon_poll_ready tor_ready tor_stream peer in (res, Some peer)
    | None => (Ready (Ok ()), None)
    end in
  let m := mk_main (clearnet_router m) tor' (tor_net_rx m) in
  match tor with
  | Ready (Ok _) => let '(res, r) := poll_ready env (clearnet_router m) in (res, mk_main r tor' (tor_net_rx m))
  | res => (res, m)
  end.

Definition main_call {E} (tx : bytes) (state : TxState Id) (m : MainDandelionRouter) : result E (MainAction * MainDandelionRouter) :=
  match state, tor_router m with
  | TxLocal, Some (Some peer) => Ok (OverTor peer tx, mk_main (clearnet_router m) (Some None) (tor_net_rx m))
  | _, _ => '(a, r) ← call tx state (clearnet_router m); Ok (Clearnet a, mk_main r (tor_router m) (tor_net_rx m))
  end.
End router.
Arguments DandelionRouter Id Svc {_ _}.
Arguments Discovered : clear implicits.
Arguments RouterEnv : clear implicits.
Arguments Action : clear implicits.

(** ** The pool manager *)
Section pool.
Context {PeerId : Type} `{Countable PeerId}.
#[local] Abbreviation TxId := bytes.

(** What the manager does and learns, in order: requests to the router, timers, promotions
    in the backing pool, and transactions the pool was found not to have or to have made
    public. *)
Inductive Effect :=
  | Routed (tx : bytes) (tx_id : TxId) (state : TxState PeerId)
  | Embargoed (tx_id : TxId)
  | Promoted (tx_id : TxId)
  | NotInPool (tx_id : TxId)
  | AlreadyPublic (tx_id : TxId).

(** A timer is an entry of the delay queue; [routing_set] are the router's futures that
    have not finished. *)
Record DandelionPoolManager := mk_pool {
  routing_set : list (TxId * TxState PeerId);
  stem_origins : gmap TxId (gset PeerId);
  embargo_timers : gmap Z TxId;
  embargo_timer_keys : gmap TxId Z;
  log : list Effect;
}.

Definition new_pool : DandelionPoolManager := mk_pool [] ∅ ∅ ∅ [].

(** The services as an event meets them: whether the router gets ready, what the backing
    pool answers, whether it takes promotions. *)
Record PoolEnv := mk_pool_env {
  router_ready : bool;
  get : TxId -> result () (option (bytes * State));
  promote_ok : bool;
}.

Definition add_embargo_timer_for_tx (key : Z) (tx_id : TxId) (p : DandelionPoolManager) : DandelionPoolManager :=
  mk_pool (routing_set p) (stem_origins p) (<[key := tx_id]> (embargo_timers p)) (<[tx_id := key]> (embargo_timer_keys p)) (log p ++ [Embargoed tx_id]).

(** A request to the router, whose future joins the set; [None] ends the task. *)
Definition route (env : PoolEnv) (tx : bytes) (tx_id : TxId) (state : TxState PeerId) (p : DandelionPoolManager) : option DandelionPoolManager :=
  if router_ready env
  then Some (mk_pool (routing_set p ++ [(tx_id, state)]) (stem_origins p) (embargo_timers p) (embargo_timer_keys p) (log p ++ [Routed tx tx_id state]))
  else None.

Definition pool_stem_tx (env : PoolEnv) (tx : bytes) (tx_id : TxId) (from : option PeerId) (p : DandelionPoolManager) : option DandelionPoolManager :=
  let p :=
    match from with
    | Some peer =>
        mk_pool (routing_set p) (<[tx_id := default ∅ (stem_origins p !! tx_id) ∪ {[peer]}]> (stem_origins p)) (embargo_timers p) (embargo_timer_keys p) (log p)
    | None => p
    end in
  route env tx tx_id (match from with Some from => TxStem from | None => TxLocal end) p.

Definition pool_fluff_tx (env : PoolEnv) (tx : bytes) (tx_id : TxId) (p : DandelionPoolManager) : option DandelionPoolManager :=
  route env tx tx_id TxFluff p.

Definition note (e : Effect) (p : DandelionPoolManager) : DandelionPoolManager :=
  mk_pool (routing_set p) (stem_origins p) (embargo_timers p) (embargo_timer_keys p) (log p ++ [e]).

Definition promote_tx (env : PoolEnv) (tx_id : TxId) (p : DandelionPoolManager) : option DandelionPoolManager :=
  let timers := match embargo_timer_keys p !! tx_id with Some key => delete key (embargo_timers p) | None => embargo_timers p end in
  let p := mk_pool (routing_set p) (delete tx_id (stem_origins p)) timers (delete tx_id (embargo_timer_keys p)) (log p) in
  if promote_ok env then Some (note (Promoted tx_id) p) else None.

Definition promote_and_fluff_tx (env : PoolEnv) (tx_id : TxId) (p : DandelionPoolManager) : option DandelionPoolManager :=
  match get env tx_id with
  | Ok None => Some (note (NotInPool tx_id) p)
  | Ok (Some (tx, Fluff)) => Some (note (AlreadyPublic tx_id) p)
  | Ok (Some (tx, Stem)) => p ← promote_tx env tx_id p; pool_fluff_tx env tx tx_id p
  | _ => None
  end.

(** [key] is the key the delay queue gives a new timer. *)
Definition handle_incoming_tx (env : PoolEnv) (key : Z) (tx : bytes) (tx_state : TxState PeerId) (tx_id : TxId) (p : DandelionPoolManager)
    : option DandelionPoolManager :=
  match tx_state with
  | TxStem from =>
      if bool_decide (from ∈ default ∅ (stem_origins p !! tx_id)) then promote_and_fluff_tx env tx_id p
      else p ← pool_stem_tx env tx tx_id (Some from) p; Some (add_embargo_timer_for_tx key tx_id p)
  | TxFluff => pool_fluff_tx env tx tx_id p
  | TxLocal => p ← pool_stem_tx env tx tx_id None p; Some (add_embargo_timer_for_tx key tx_id p)
  end.

(** The branches of the loop of [run]. *)
Inductive PoolEvent :=
  | EmbargoFired (key : Z)
  | RoutingDone (n : nat) (res : result () State)
  | NewTx (key : Z) (tx : bytes) (tx_state : TxState PeerId) (tx_id : TxId).

Definition run_pool (env : PoolEnv) (ev : PoolEvent) (p : DandelionPoolManager) : option DandelionPoolManager :=
  match ev with
  | EmbargoFired key =>
      match embargo_timers p !! key with
      | Some tx_id => promote_and_fluff_tx env tx_id (mk_pool (routing_set p) (stem_origins p) (delete key (embargo_timers p)) (embargo_timer_keys p) (log p))
      | None => Some p
      end
  | RoutingDone n res =>
      match routing_set p !! n with
      | None => Some p
      | Some (tx_id, tx_state) =>
          let p := mk_pool (delete n (routing_set p)) (stem_origins p) (embargo_timers p) (embargo_timer_keys p) (log p) in
          match res with
          | Ok Fluff => promote_tx env tx_id p
          | Ok Stem => Some p
          | _ =>
              match get env tx_id with
              | Ok (Some (tx, _)) =>
                  match tx_state with
                  | TxFluff => pool_fluff_tx env tx tx_id p
                  | TxStem from => pool_stem_tx env tx tx_id (Some from) p
                  | TxLocal => pool_stem_tx env tx tx_id None p
                  end
              | Ok None => Some p
              | _ => None
              end
          end
      end
  | NewTx key tx tx_state tx_id => handle_incoming_tx env key tx tx_state tx_id p
  end.
End pool.
Arguments Effect : clear implicits.
Arguments PoolEvent : clear implicits.
Arguments DandelionPoolManager PeerId {_ _}.

(** The store behind the manager ([tx_store.rs]): the pool's database. *)
Section store.
Context {O : MoneroOxide} {T : TransactionOps O} {C : Dalek O} {Cd : MoneroCodec O} {B : MoneroBatch O}.

Definition store_get (t : TxPool.PoolTables) (tx_id : bytes) : result () (option (bytes * State)) :=
  match TxPool.map_request t (TxPool.TxBlob tx_id) with
  | Ok (TxPool.TxBlobResponse tx_blob state_stem) => Ok (Some (tx_blob, if state_stem then Stem else Fluff))
  | Err DbTables.KeyNotFound => Ok None
  | Err _ => Err ()
  | _ => Panic
  end.
End store.

End Dandelion.
