(* ===== verification/TxPoolManagerFacts.v ===== *)
(** * What the transaction pool manager guarantees

    The manager and its database agree, every public transaction has exactly one pending
    timeout and every stem transaction none, and no event makes the manager panic unless a
    delay is too long for the queue of the timers; when a timer fires, a public transaction
    is relayed again, or dropped at its maximum age. *)
From S2P Require Import Prelude Bytes HardForks ChainDb RulesBase TxData TxRules TxContext BlockRules Helpers DbTables TxOps TxStore ChainStore Context BlockchainService TxVerification TxVerifyFacts TxPool TxPoolFacts TxPoolManager.
From Stdlib Require Import ZArith Lia String.
From stdpp Require Import base tactics option list numbers sets gmap.
Import HardForks ChainDb RulesBase TxData TxRules TxContext Helpers DbTables TxOps TxStore ChainStore TxVerification TxVerifyFacts TxPool TxPoolFacts TxPoolManager.

#[local] Open Scope Z_scope.
#[local] Open Scope usize_scope.

Module TxPoolManagerFacts.

Section facts.
Context {O : MoneroOxide} {T : TransactionOps O} {C : Dalek O} {Cd : MoneroCodec O} {B : MoneroBatch O} {D : PoolDeps O}.
Context `{L : !MoneroOxideLaws O T} `{DL : !PoolDepsLaws O D}.
Context (blake3 : bytes -> bytes) (clock : nat -> Z).
Context {PeerId : Type}.

#[local] Abbreviation Manager := (TxpoolManager (PeerId := PeerId)).

(** ** The invariant *)

(** The manager's entry [i] of a transaction whose entry in the database is [e]. *)
Definition tracks_entry (i : TxInfo) (e : PoolEntry) : Prop :=
  m_weight i = tvd_tx_weight (pe_tx e) /\ m_fee i = tvd_fee (pe_tx e) /\ m_private i = pe_stem e.

Record timers_ok (txs : gmap bytes TxInfo) (q : gmap Z (bytes * Z)) : Prop := {
  to_private : forall h i, txs !! h = Some i -> m_private i = true -> timeout_key i = None;
  to_public : forall h i, txs !! h = Some i -> m_private i = false -> exists k d, timeout_key i = Some k /\ q !! k = Some (h, d);
  to_timer : forall k h d, q !! k = Some (h, d) -> exists i, txs !! h = Some i /\ timeout_key i = Some k;
}.

Record manager_ok (P : gmap bytes PoolEntry) (m : Manager) : Prop := {
  mo_pool : pool_holds blake3 P (pool m);
  mo_entries : map_relation (fun _ => tracks_entry) (fun _ _ => False) (fun _ _ => False) (current_txs m) P;
  mo_timers : timers_ok (current_txs m) (tx_timeouts m);
}.

Lemma entry_of_tracked P m h i : manager_ok P m -> current_txs m !! h = Some i -> exists e, P !! h = Some e /\ tracks_entry i e.
Proof using Type. intros [_ Hm _] E. specialize (Hm h). rewrite E in Hm. destruct (P !! h) as [e|]; [eauto|done]. Qed.

Lemma tracked_of_entry P m h e : manager_ok P m -> P !! h = Some e -> exists i, current_txs m !! h = Some i /\ tracks_entry i e.
Proof using Type. intros [_ Hm _] E. specialize (Hm h). rewrite E in Hm. destruct (current_txs m !! h) as [i|]; [eauto|done]. Qed.

(** A delay of at most [max_age] seconds is too long for the timers' queue. *)
Definition too_long (max_age : Z) : Prop := exists q d, d <= Z.max 0 max_age /\ delay_taken q d = false.

(** [r] succeeds with [Q], or it panics on a timeout that is too long. *)
Definition runs {A} (max_age : Z) (r : result RuntimeError A) (Q : A -> Prop) : Prop :=
  match r with Ok a => Q a | Err _ => False | Panic => too_long max_age end.

Lemma runs_bind {A A'} max_age (r : result RuntimeError A) (f : A -> result RuntimeError A') (Q : A -> Prop) (Q' : A' -> Prop) :
  runs max_age r Q -> (forall a, Q a -> runs max_age (f a) Q') -> runs max_age (a ← r; f a) Q'.
Proof using Type. destruct r; cbn; auto. Qed.

Lemma runs_weaken {A} max_age (r : result RuntimeError A) (Q Q' : A -> Prop) :
  runs max_age r Q -> (forall a, Q a -> Q' a) -> runs max_age r Q'.
Proof using Type. destruct r; cbn; auto. Qed.

Lemma insert_timeout_runs h time received_at max_age (m : Manager) :
  runs max_age (insert_timeout h (calculate_next_timeout time received_at max_age) m)
    (fun p => p = (next_key (tx_timeouts m), set_tx_timeouts (<[next_key (tx_timeouts m) := (h, calculate_next_timeout time received_at max_age)]> (tx_timeouts m)) m)).
Proof using Type.
  unfold insert_timeout. destruct (delay_taken _ _) eqn:E; [done|]. exists (tx_timeouts m), (calculate_next_timeout time received_at max_age). split; [|done].
  unfold calculate_next_timeout, saturating_sub. pose proof (wrap_is_u 64 (time - received_at) ltac:(lia)) as [? _]. lia.
Qed.

(** ** Changes of the timers *)

(** A transaction without a timer is given one. *)
Lemma timers_insert txs q h i d :
  timers_ok txs q -> (forall i', txs !! h = Some i' -> timeout_key i' = None) ->
  m_private i = false -> timeout_key i = Some (next_key q) ->
  timers_ok (<[h := i]> txs) (<[next_key q := (h, d)]> q).
Proof using DL.
  intros [H1 H2 H3] Hno Hpub Hkey. split.
  - intros h' i'. destruct (decide (h' = h)) as [->|Hne]; [rewrite lookup_insert_eq; intros [= <-]; congruence|rewrite lookup_insert_ne by done; apply H1].
  - intros h' i'. destruct (decide (h' = h)) as [->|Hne]; [rewrite lookup_insert_eq; intros [= <-] _; exists (next_key q), d; by rewrite lookup_insert_eq|].
    rewrite lookup_insert_ne by done. intros E Hp. destruct (H2 h' i' E Hp) as (k & d' & Hk & Hq). exists k, d'. split; [done|].
    rewrite lookup_insert_ne; [done|]. intros <-. by rewrite next_key_fresh in Hq.
  - intros k h' d'. destruct (decide (k = next_key q)) as [->|Hne].
    + rewrite lookup_insert_eq. intros [= <- <-]. exists i. by rewrite lookup_insert_eq.
    + rewrite lookup_insert_ne by done. intros Hq. destruct (H3 k h' d' Hq) as (i' & E & Hk). exists i'. split; [|done].
      rewrite lookup_insert_ne; [done|]. intros <-. rewrite (Hno i' E) in Hk. done.
Qed.

(** A stem transaction is added. *)
Lemma timers_insert_private txs q h i :
  timers_ok txs q -> txs !! h = None -> m_private i = true -> timeout_key i = None -> timers_ok (<[h := i]> txs) q.
Proof using Type.
  intros [H1 H2 H3] Hno Hpr Hkey. split.
  - intros h' i'. destruct (decide (h' = h)) as [->|Hne]; [rewrite lookup_insert_eq; by intros [= <-]|rewrite lookup_insert_ne by done; apply H1].
  - intros h' i'. destruct (decide (h' = h)) as [->|Hne]; [rewrite lookup_insert_eq; intros [= <-]; congruence|rewrite lookup_insert_ne by done; apply H2].
  - intros k h' d Hq. destruct (H3 k h' d Hq) as (i' & E & Hk). exists i'. split; [|done]. rewrite lookup_insert_ne; [done|]. intros <-. congruence.
Qed.

(** A transaction is removed, with its timer. *)
Lemma timers_remove txs q h i :
  timers_ok txs q -> txs !! h = Some i ->
  timers_ok (delete h txs) (match timeout_key i with Some k => delete k q | None => q end).
Proof using Type.
  intros [H1 H2 H3] E. split.
  - intros h' i' E'. rewrite lookup_delete_Some in E'. apply (H1 h'), E'.
  - intros h' i' E' Hp. rewrite lookup_delete_Some in E'. destruct E' as [Hne E']. destruct (H2 h' i' E' Hp) as (k & d & Hk & Hq).
    exists k, d. split; [done|]. destruct (timeout_key i) as [k'|] eqn:Ek; [|done]. rewrite lookup_delete_ne; [done|]. intros ->.
    destruct (H3 k h' d Hq) as (i'' & E'' & _). destruct (m_private i) eqn:Ep; [by rewrite (H1 h i E Ep) in Ek|].
    destruct (H2 h i E Ep) as (k2 & d2 & Hk2 & Hq2). assert (k2 = k) as -> by congruence. rewrite Hq in Hq2. congruence.
  - intros k h' d Hq. assert (q !! k = Some (h', d) /\ timeout_key i <> Some k) as [Hq' Hnk].
    { destruct (timeout_key i) as [k'|] eqn:Ek; [|done]. rewrite lookup_delete_Some in Hq. destruct Hq as [Hne Hq]. split; [done|]. congruence. }
    destruct (H3 k h' d Hq') as (i' & E' & Hk). exists i'. split; [|done]. rewrite lookup_delete_ne; [done|]. intros <-. congruence.
Qed.

(** A timer fires: its transaction has none left. *)
Lemma timers_fire txs q k h d i :
  timers_ok txs q -> q !! k = Some (h, d) -> txs !! h = Some i ->
  m_private i = false /\ timeout_key i = Some k /\ timers_ok (delete h txs) (delete k q).
Proof using Type.
  intros Hok Hq E. destruct (to_timer _ _ Hok k h d Hq) as (i' & E' & Hk). rewrite E in E'. injection E' as <-.
  split; [destruct (m_private i) eqn:Ep; [by rewrite (to_private _ _ Hok h i E Ep) in Hk|done]|]. split; [done|].
  pose proof (timers_remove txs q h i Hok E) as H. by rewrite Hk in H.
Qed.

(** ** The entries *)
#[local] Abbreviation tracked := (map_relation (fun _ => tracks_entry) (fun _ _ => False) (fun _ _ => False)).

Lemma tracked_delete (txs : gmap bytes TxInfo) (P : gmap bytes PoolEntry) h : tracked txs P -> tracked (delete h txs) (delete h P).
Proof using Type.
  intros H h'. destruct (decide (h' = h)) as [->|Hne]; [by rewrite !lookup_delete_eq|]. rewrite !lookup_delete_ne by done. apply H.
Qed.

Lemma tracked_insert (txs : gmap bytes TxInfo) (P : gmap bytes PoolEntry) h i e :
  tracked txs P -> tracks_entry i e -> tracked (<[h := i]> txs) (<[h := e]> P).
Proof using Type.
  intros H Hi h'. destruct (decide (h' = h)) as [->|Hne]; [by rewrite !lookup_insert_eq|]. rewrite !lookup_insert_ne by done. apply H.
Qed.

Lemma tracked_insert_l (txs : gmap bytes TxInfo) (P : gmap bytes PoolEntry) h i e :
  tracked txs P -> P !! h = Some e -> tracks_entry i e -> tracked (<[h := i]> txs) P.
Proof using Type. intros H E Hi. rewrite <- (insert_id P h e E). by apply tracked_insert. Qed.

(** ** Requests to the database *)
Lemma write_remove P (m : Manager) h e :
  pool_holds blake3 P (pool m) -> P !! h = Some e ->
  exists t', write_call blake3 clock (RemoveTransaction h) m = Ok (WriteOk, set_pool t' (now clock m).2) /\ pool_holds blake3 (delete h P) t'.
Proof using Type.
  intros Ht E. pose proof (remove_transaction_spec blake3 P (pool m) h Ht) as Hr. rewrite E in Hr. destruct Hr as (t' & Hr & Ht').
  exists t'. split; [|done]. unfold write_call. cbn. by rewrite Hr.
Qed.

Lemma write_promote P (m : Manager) h e :
  pool_holds blake3 P (pool m) -> P !! h = Some e ->
  exists t', write_call blake3 clock (Promote h) m = Ok (WriteOk, set_pool t' (now clock m).2) /\
    pool_holds blake3 (<[h := promoted_entry (clock (calls m)) e]> P) t'.
Proof using Type.
  intros Ht E. eexists. split; [|by apply (promote_spec blake3 P (pool m) h (clock (calls m)) e Ht E)].
  unfold write_call, db_update, db_get. cbn. unfold db_update, db_get. rewrite (ph_infos _ _ _ Ht) at 1. by rewrite lookup_fmap, E.
Qed.

Lemma write_new_block P (m : Manager) ks :
  pool_holds blake3 P (pool m) ->
  exists t' removed, write_call blake3 clock (NewBlock ks) m = Ok (NewBlockResponse removed, set_pool t' (now clock m).2) /\
    pool_holds blake3 (kept ks P) t' /\ removed_ok P ks removed.
Proof using Type.
  intros Ht. destruct (new_block_loop_spec blake3 P (pool m) ks Ht) as (t' & removed & Hn & Ht' & Hr). exists t', removed.
  split; [|done]. unfold write_call. cbn. by rewrite Hn.
Qed.

Lemma write_add P (m : Manager) x stem :
  pool_holds blake3 P (pool m) -> request_ok blake3 P (AddTransaction x stem) ->
  (exists d, write_call blake3 clock (AddTransaction x stem) m = Ok (AddTransactionResponse (Some d), set_pool (pool m) (now clock m).2)) \/
  exists t', write_call blake3 clock (AddTransaction x stem) m = Ok (AddTransactionResponse None, set_pool t' (now clock m).2) /\
    P !! tvd_tx_hash x = None /\ pool_holds blake3 (<[tvd_tx_hash x := mk_pool_entry x stem (clock (calls m))]> P) t'.
Proof using Type.
  intros Ht Hreq. pose proof (add_transaction_spec blake3 P (pool m) (clock (calls m)) x stem Ht Hreq) as Ha. unfold write_call. cbn.
  destruct (add_transaction _ _ _ _ _) as [t'|[d|]|]; try done; [right|left; by exists d].
  destruct Ha as [Hc Ht']. exists t'. split; [done|]. split; [|done]. by apply (pool_ok_insert blake3 P x stem 0 (ph_ok _ _ _ Ht) Hreq Hc).
Qed.

(** ** The handlers keep the invariant *)
Lemma remove_tx_raw P (m : Manager) h i e :
  pool_holds blake3 P (pool m) -> P !! h = Some e -> current_txs m !! h = Some i ->
  exists m', remove_tx_from_pool blake3 clock h true m = Ok m' /\ pool_holds blake3 (delete h P) (pool m') /\
    current_txs m' = delete h (current_txs m) /\
    tx_timeouts m' = match timeout_key i with Some k => delete k (tx_timeouts m) | None => tx_timeouts m end /\ messages m' = messages m.
Proof using Type.
  intros Ht E Ei. unfold remove_tx_from_pool. rewrite Ei. cbn [unwrap mbind result_bind].
  set (m1 := match timeout_key i with Some key => _ | None => _ end).
  assert (pool m1 = pool m) as E2 by (subst m1; by destruct (timeout_key i)).
  destruct (write_remove P m1 h e) as (t' & -> & Ht'); [by rewrite E2|done|]. cbn [mbind result_bind]. eexists. split; [done|].
  split; [done|]. subst m1. by destruct (timeout_key i).
Qed.

Lemma handle_tx_timeout_ok P (m : Manager) k h d :
  manager_ok P m -> tx_timeouts m !! k = Some (h, d) ->
  runs (maximum_age_secs m) (handle_tx_timeout blake3 clock h (set_tx_timeouts (delete k (tx_timeouts m)) m))
    (fun m' => exists P', manager_ok P' m' /\ (P' = P \/ P' = delete h P)).
Proof using DL.
  intros Hm Hq. pose proof Hm as [Ht He Hti]. destruct (to_timer _ _ Hti k h d Hq) as (i & Ei & Hk).
  destruct (timers_fire _ _ k h d i Hti Hq Ei) as (Hpub & _ & Hfire). destruct (entry_of_tracked P m h i Hm Ei) as (e & E & Hie).
  unfold handle_tx_timeout. cbn [current_txs set_tx_timeouts]. rewrite Ei. unfold now at 1.
  set (m1 := mk_txpool_manager _ _ _ _ _ _). destruct (_ >? _).
  - destruct (remove_tx_raw P m1 h i e Ht E Ei) as (m' & -> & Ht' & Hc & Hq' & _). exists (delete h P). split; [|by right].
    split; [done|rewrite Hc; by apply tracked_delete|]. rewrite Hc, Hq', Hk. subst m1. cbn. by rewrite delete_delete_eq.
  - assert (rerelay_tx h m1 = Ok (send (Diffuse (tvd_tx_blob (pe_tx e))) m1)) as ->.
    { unfold rerelay_tx. rewrite (tx_blob_spec blake3 P (pool m1) h Ht), E. done. }
    cbn [mbind result_bind]. assert (current_txs (send (Diffuse (tvd_tx_blob (pe_tx e))) m1) !! h = Some i) as -> by done.
    cbn [unwrap mbind result_bind]. unfold now at 1. eapply runs_bind; [apply insert_timeout_runs|]. intros [key m2] [= -> ->].
    exists P. split; [|by left]. destruct Hie as (Hw & Hf & Hp).
    split; cbn [set_current_txs set_tx_timeouts current_txs tx_timeouts pool]; [done|apply (tracked_insert_l _ _ h _ e); [done|done|by split_and!]|].
    rewrite <- insert_delete_eq. apply timers_insert; [done| |done|done]. intros i'. by rewrite lookup_delete_eq.
Qed.

Lemma promote_tx_ok P (m : Manager) h :
  manager_ok P m ->
  runs (maximum_age_secs m) (promote_tx blake3 clock h m) (fun m' => maximum_age_secs m' = maximum_age_secs m /\ exists time,
    manager_ok (match P !! h with Some e => if pe_stem e then <[h := promoted_entry time e]> P else P | None => P end) m').
Proof using DL.
  intros Hm. unfold promote_tx. destruct (current_txs m !! h) as [i|] eqn:Ei.
  2:{ split; [done|]. exists 0. destruct (P !! h) as [e|] eqn:E; [|done]. destruct (tracked_of_entry P m h e Hm E) as (i & Ei' & _). congruence. }
  destruct (entry_of_tracked P m h i Hm Ei) as (e & E & Hw & Hf & Hp). rewrite E, <- Hp. destruct (m_private i) eqn:Epr; cbn [negb]; [|split; [done|by exists 0]].
  destruct Hm as [Ht He Hti]. unfold now at 1 2. eapply runs_bind; [apply insert_timeout_runs|]. intros [key m2] [= -> ->].
  cbn [tx_timeouts set_tx_timeouts calls].
  set (m1 := set_current_txs _ _). destruct (write_promote P m1 h e) as (t' & -> & Ht'); [done|done|]. cbn [mbind result_bind].
  split; [done|]. exists (clock (calls m1)). split; cbn; [done|by apply tracked_insert|].
  apply timers_insert; [done| |done|done]. intros i'. rewrite Ei. intros [= <-]. by apply (to_private _ _ Hti h).
Qed.

Lemma track_tx_ok (txs : gmap bytes TxInfo) (m : Manager) h w f private :
  txs = current_txs m -> txs !! h = None -> timers_ok txs (tx_timeouts m) ->
  runs (maximum_age_secs m) (track_tx clock h w f private m) (fun m' => pool m' = pool m /\ timers_ok (current_txs m') (tx_timeouts m') /\
    exists r k, current_txs m' = <[h := mk_tx_info w f r private k]> txs).
Proof using DL.
  intros -> Hno Hti. unfold track_tx. unfold now at 1. destruct private.
  - split; [done|]. split; [by apply timers_insert_private|]. by do 2 eexists.
  - unfold now at 1. eapply runs_bind; [apply insert_timeout_runs|]. intros [key m2] [= -> ->]. split; [done|]. split; [|by do 2 eexists].
    apply timers_insert; [done| |done|done]. intros i' Ei. cbn in Ei. congruence.
Qed.

Lemma handle_incoming_tx_ok P (m : Manager) x state :
  manager_ok P m -> request_ok blake3 P (AddTransaction x (is_stem_stage state)) ->
  runs (maximum_age_secs m) (handle_incoming_tx blake3 clock x state m) (fun m' =>
    manager_ok P m' \/ exists time, P !! tvd_tx_hash x = None /\ manager_ok (<[tvd_tx_hash x := mk_pool_entry x (is_stem_stage state) time]> P) m').
Proof using DL.
  intros [Ht He Hti] Hreq. unfold handle_incoming_tx.
  destruct (write_add P m x (is_stem_stage state) Ht Hreq) as [(dh & ->)|(t' & -> & Hnone & Ht')]; cbn [mbind result_bind].
  { left. by split. }
  assert (current_txs m !! tvd_tx_hash x = None) as Hno.
  { specialize (He (tvd_tx_hash x)). rewrite Hnone in He. by destruct (current_txs m !! tvd_tx_hash x). }
  eapply runs_bind; [by apply (track_tx_ok (current_txs m) (set_pool t' (now clock m).2))|].
  intros m' (Hp & Hti' & r & k & Hc). right. exists (clock (calls m)). split; [done|].
  split; cbn; [by rewrite Hp|rewrite Hc; by apply tracked_insert|done].
Qed.

Lemma remove_all removed (m : Manager) :
  NoDup removed -> (forall h, h ∈ removed -> is_Some (current_txs m !! h)) -> timers_ok (current_txs m) (tx_timeouts m) ->
  exists m', try_fold (fun m tx => remove_tx_from_pool blake3 clock tx false m) m removed = Ok m' /\ pool m' = pool m /\
    timers_ok (current_txs m') (tx_timeouts m') /\
    forall h, current_txs m' !! h = if decide (h ∈ removed) then None else current_txs m !! h.
Proof using Type.
  revert m. induction removed as [|h removed IH]; intros m Hnd Hin Hti; cbn [try_fold].
  { exists m. split; [done|]. split; [done|]. split; [done|]. intros h. by rewrite decide_False by apply not_elem_of_nil. }
  apply NoDup_cons in Hnd as [Hn Hnd]. destruct (Hin h) as [i Ei]; [by left|]. unfold remove_tx_from_pool at 2. rewrite Ei. cbn [unwrap mbind result_bind].
  set (m1 := match timeout_key i with Some key => _ | None => _ end).
  assert (current_txs m1 = delete h (current_txs m) /\ pool m1 = pool m /\
    tx_timeouts m1 = match timeout_key i with Some k => delete k (tx_timeouts m) | None => tx_timeouts m end) as (E1 & E2 & E3)
    by (subst m1; by destruct (timeout_key i)).
  destruct (IH m1) as (m' & -> & Hp & Ht' & Hc).
  - done.
  - intros h' Hh'. rewrite E1, lookup_delete_ne by (by intros <-). apply Hin. by right.
  - rewrite E1, E3. by apply timers_remove.
  - exists m'. split; [done|]. split; [congruence|]. split; [done|]. intros h'. rewrite Hc, E1.
    destruct (decide (h' ∈ removed)) as [Hr|Hr]; [by rewrite decide_True by (by right)|].
    destruct (decide (h' = h)) as [->|Hne]; [by rewrite lookup_delete_eq, decide_True by (by left)|].
    rewrite lookup_delete_ne by done. rewrite decide_False; [done|]. by rewrite not_elem_of_cons.
Qed.

Lemma new_block_ok P (m : Manager) ks :
  manager_ok P m -> exists m', new_block blake3 clock ks m = Ok m' /\ manager_ok (kept ks P) m'.
Proof using Type.
  intros Hm. pose proof Hm as [Ht He Hti]. unfold new_block. destruct (write_new_block P m ks Ht) as (t' & removed & -> & Ht' & Hnd & Hr).
  cbn [mbind result_bind]. destruct (remove_all removed (set_pool t' (now clock m).2) Hnd) as (m' & -> & Hp & Hti' & Hc); [|done|].
  { intros h (e & E & _)%Hr. destruct (tracked_of_entry P m h e Hm E) as (i & Ei & _). by exists i. }
  exists m'. split; [done|]. split; [by rewrite Hp| |done]. intros h. rewrite Hc. cbn. specialize (He h).
  assert (kept ks P !! h = if decide (h ∈ removed) then None else P !! h) as ->; [|by destruct (decide (h ∈ removed))].
  apply option_eq. intros e. rewrite kept_lookup. destruct (decide (h ∈ removed)) as [Hin|Hn].
  - apply Hr in Hin as (e' & E' & Hs). split; [|done]. intros [E Hs']. congruence.
  - split; [by intros [? _]|]. intros E. split; [done|]. apply not_true_is_false. intros Hs. apply Hn, Hr. eauto.
Qed.

(** ** Starting *)
Definition info_of_entry (x : TxEntry) (i : TxInfo) : Prop := m_weight i = weight x /\ m_fee i = fee x /\ m_private i = is_private x.

Lemma load_entry_ok stem (m : Manager) x :
  current_txs m !! id x = None -> timers_ok (current_txs m) (tx_timeouts m) ->
  runs (maximum_age_secs m) (load_entry clock (stem, m) x) (fun '(stem', m1) =>
    stem' = (if is_private x then stem ++ [id x] else stem) /\ maximum_age_secs m1 = maximum_age_secs m /\ pool m1 = pool m /\
    timers_ok (current_txs m1) (tx_timeouts m1) /\ exists i, current_txs m1 = <[id x := i]> (current_txs m) /\ info_of_entry x i).
Proof using DL.
  intros Hx Hti. unfold load_entry. destruct (is_private x) eqn:Epr.
  - split_and!; [done..| |]; [cbn; by apply timers_insert_private|]. eexists. split; [done|by split_and!].
  - unfold now. eapply runs_bind; [apply insert_timeout_runs|]. intros [key m2] [= -> ->]. split_and!; [done..| |].
    + cbn. apply timers_insert; [done| |done|done]. intros i' Ei. congruence.
    + eexists. split; [done|by split_and!].
Qed.

Lemma load_entries l stem (m : Manager) :
  NoDup (map id l) -> (forall x, x ∈ l -> current_txs m !! id x = None) -> timers_ok (current_txs m) (tx_timeouts m) ->
  runs (maximum_age_secs m) (try_fold (load_entry clock) (stem, m) l) (fun '(stem', m') =>
    stem' = stem ++ map id (filter (fun x => is_private x = true) l) /\ maximum_age_secs m' = maximum_age_secs m /\ pool m' = pool m /\
    timers_ok (current_txs m') (tx_timeouts m') /\
    forall h, (h ∉ map id l -> current_txs m' !! h = current_txs m !! h) /\
      forall x, x ∈ l -> id x = h -> exists i, current_txs m' !! h = Some i /\ info_of_entry x i).
Proof using DL.
  revert stem m. induction l as [|x l IH]; intros stem m Hnd Hno Hti; cbn [try_fold].
  { rewrite app_nil_r. split_and!; [done..|]. intros h. split; [done|]. by intros x ?%not_elem_of_nil. }
  cbn [map] in Hnd. apply NoDup_cons in Hnd as [Hn Hnd].
  eapply runs_bind; [apply load_entry_ok; [apply Hno; by left|done]|]. intros [stem1 m1] (-> & Hage & Hp1 & Hti1 & i & Hc1 & Hi).
  assert (forall y, y ∈ l -> id y <> id x) as Hne.
  { intros y Hy Heq. apply Hn. rewrite <- Heq. apply list_elem_of_fmap. eauto. }
  rewrite <- Hage. eapply runs_weaken; [apply IH; [done| |done]|].
  { intros y Hy. rewrite Hc1, lookup_insert_ne by (apply not_eq_sym; auto). apply Hno. by right. }
  intros [stem' m'] (-> & Hage' & Hp & Hti' & Hc). split_and!; [|congruence|congruence|done|].
  - rewrite filter_cons. destruct (is_private x); [rewrite decide_True by done; cbn; by rewrite <- app_assoc|by rewrite decide_False].
  - intros h. destruct (Hc h) as [Hc2 Hc3]. split.
    + cbn [map]. rewrite not_elem_of_cons. intros [Hh Hh']. rewrite Hc2 by done. by rewrite Hc1, lookup_insert_ne.
    + intros y [->|Hy]%elem_of_cons Hid; [|by apply Hc3]. subst h. exists i. split; [|done]. by rewrite Hc2, Hc1, lookup_insert_eq.
Qed.

(** The stem transactions [hs] promoted. *)
Definition promoted_from (hs : list bytes) (P P' : gmap bytes PoolEntry) : Prop :=
  forall h, match P !! h, P' !! h with
    | Some e, Some e' => pe_tx e' = pe_tx e /\ pe_stem e' = (pe_stem e && negb (bool_decide (h ∈ hs)))
    | None, None => True
    | _, _ => False
    end.

Lemma promote_all hs P (m : Manager) :
  manager_ok P m -> runs (maximum_age_secs m) (try_fold (fun m tx => promote_tx blake3 clock tx m) m hs)
    (fun m' => exists P', manager_ok P' m' /\ promoted_from hs P P').
Proof using DL.
  revert P m. induction hs as [|h0 hs IH]; intros P m Hm; cbn [try_fold].
  { exists P. split; [done|]. intros h. destruct (P !! h) as [e|]; [|done]. split; [done|]. by rewrite andb_true_r. }
  eapply runs_bind; [by apply (promote_tx_ok P m h0)|]. intros m1 (Hage & time & Hm1). rewrite <- Hage.
  set (P1 := match P !! h0 with Some e => _ | None => _ end) in Hm1. eapply runs_weaken; [by apply (IH P1 m1)|]. intros m' (P' & Hm' & Hp). exists P'.
  split; [done|]. intros h. specialize (Hp h).
  assert (match P !! h, P1 !! h with Some e, Some e1 => pe_tx e1 = pe_tx e /\ pe_stem e1 = (pe_stem e && negb (bool_decide (h = h0))) | None, None => True | _, _ => False end) as H1.
  { subst P1. destruct (decide (h = h0)) as [->|Hne].
    - rewrite bool_decide_eq_true_2 by done. destruct (P !! h0) as [e|] eqn:E; [|by rewrite E]. destruct (pe_stem e) eqn:Es.
      + by rewrite lookup_insert_eq.
      + rewrite E. by rewrite Es.
    - rewrite bool_decide_eq_false_2 by done. assert (forall e : PoolEntry, pe_stem e = pe_stem e && negb false) as Ha by (intros e; by rewrite andb_true_r).
      destruct (P !! h0) as [e|]; [destruct (pe_stem e); rewrite ?lookup_insert_ne by done|]; destruct (P !! h) as [e'|]; auto. }
  destruct (P !! h) as [e|], (P1 !! h) as [e1|], (P' !! h) as [e'|]; try done. destruct Hp as [-> ->], H1 as [-> ->]. split; [done|].
  rewrite <- andb_assoc, <- negb_orb. f_equal. f_equal. apply eq_true_iff_eq. rewrite orb_true_iff, !bool_decide_eq_true, elem_of_cons. done.
Qed.

Lemma timers_empty : timers_ok ∅ ∅.
Proof using Type. split; intros ? ?; [by rewrite lookup_empty|by rewrite lookup_empty|]. intros d. by rewrite lookup_empty. Qed.

Lemma backlog_ids (P : gmap bytes PoolEntry) t :
  pool_holds blake3 P t -> exists l, map_request t Backlog = Ok (BacklogResponse l) /\ NoDup (map id l) /\
    forall x, x ∈ l <-> exists h e, P !! h = Some e /\ x = backlog_entry h e.
Proof using Type.
  intros Ht. exists (map (fun p => backlog_entry p.1 p.2) (map_to_list P)). split; [|split].
  - cbn [map_request]. unfold backlog. rewrite (ph_infos _ _ _ Ht), map_to_list_fmap. do 3 f_equal. rewrite map_map. apply map_ext.
    intros [h e]. unfold entry_of, backlog_entry. cbn. by destruct (pe_stem e).
  - rewrite map_map. cbn. apply (NoDup_fst_map_to_list P).
  - intros x. rewrite list_elem_of_fmap. split.
    + intros ([h e] & -> & He). apply elem_of_map_to_list in He. by exists h, e.
    + intros (h & e & E & ->). exists (h, e). by rewrite elem_of_map_to_list.
Qed.

Lemma start_ok (P : gmap bytes PoolEntry) t max_age :
  pool_holds blake3 P t ->
  runs max_age (start_txpool_manager blake3 clock t max_age) (fun m : Manager => exists P', manager_ok P' m /\
    forall h, match P !! h, P' !! h with Some e, Some e' => pe_tx e' = pe_tx e /\ pe_stem e' = false | None, None => True | _, _ => False end).
Proof using DL.
  intros Ht. unfold start_txpool_manager. destruct (backlog_ids P t Ht) as (l & -> & Hnd & Hl).
  set (m0 := mk_txpool_manager _ _ _ _ _ _). eapply (runs_bind max_age).
  { apply (load_entries l [] m0 Hnd); [by intros x _; cbn; rewrite lookup_empty|apply timers_empty]. }
  intros [stem m1] (-> & Hage & Hp & Hti & Hc). change max_age with (maximum_age_secs m0). rewrite <- Hage.
  assert (manager_ok P m1) as Hm1.
  { split; [by rewrite Hp| |done]. intros h. destruct (Hc h) as [Hc1 Hc2]. destruct (P !! h) as [e|] eqn:E.
    - destruct (Hc2 (backlog_entry h e)) as (i & -> & Hi); [apply Hl; eauto|done|]. done.
    - rewrite Hc1; [cbn; by rewrite lookup_empty|]. intros (x & -> & (h' & e & E' & ->)%Hl)%list_elem_of_fmap. cbn in E. congruence. }
  cbn [app]. eapply runs_weaken; [by apply (promote_all (map id (filter (fun x => is_private x = true) l)) P m1)|]. intros m' (P' & Hm' & Hpr).
  exists P'. split; [done|]. intros h. specialize (Hpr h). destruct (P !! h) as [e|] eqn:E, (P' !! h) as [e'|]; try done.
  destruct Hpr as [-> ->]. split; [done|]. destruct (pe_stem e) eqn:Es; [|done]. cbn. rewrite bool_decide_eq_true_2; [done|].
  apply list_elem_of_fmap. exists (backlog_entry h e). split; [done|]. apply list_elem_of_filter. split; [done|]. apply Hl. eauto.
Qed.

(** ** Runs of the manager *)

(** The incoming transactions are those the handler in front of the manager passes on. *)
Definition event_ok (t : PoolTables) (ev : PoolEvent (PeerId := PeerId)) : Prop :=
  match ev with IncomingTransaction x state => fits blake3 t (AddTransaction x (is_stem_stage state)) | _ => True end.

Inductive manages : Manager -> Prop :=
  | manages_start P t max_age m : pool_holds blake3 P t -> start_txpool_manager blake3 clock t max_age = Ok m -> manages m
  | manages_event m ev m' : manages m -> event_ok (pool m) ev -> run_once blake3 clock m ev = Ok m' -> manages m'.

Lemma run_once_ok P (m : Manager) ev :
  manager_ok P m -> event_ok (pool m) ev -> runs (maximum_age_secs m) (run_once blake3 clock m ev) (fun m' => exists P', manager_ok P' m').
Proof using DL.
  intros Hm Hev. destruct ev as [k|x state|h|ks]; cbn [run_once].
  - destruct (tx_timeouts m !! k) as [[h d]|] eqn:Eq; [|by exists P]. eapply runs_weaken; [by eapply handle_tx_timeout_ok|]. intros m' (P' & H2 & _). eauto.
  - pose proof (fits_request_ok blake3 P (pool m) _ (mo_pool _ _ Hm) Hev) as Hreq.
    eapply runs_weaken; [by apply (handle_incoming_tx_ok P m x state Hm Hreq)|]. intros m' [H2|(time & _ & H2)]; eauto.
  - eapply runs_weaken; [by apply (promote_tx_ok P m h)|]. intros m' (_ & time & H). eauto.
  - destruct (new_block_ok P m ks Hm) as (m' & -> & H2). cbn. eauto.
Qed.

Lemma manages_ok m : manages m -> exists P, manager_ok P m.
Proof using DL.
  induction 1 as [P t max_age m Ht Hs|m ev m' _ [P Hm] Hev Hr].
  - pose proof (start_ok P t max_age Ht) as H. rewrite Hs in H. destruct H as (P' & Hm & _). eauto.
  - pose proof (run_once_ok P m ev Hm Hev) as H. by rewrite Hr in H.
Qed.

(** C14. The pool manager and its database stay in step, whatever happens: started on a pool
    and run through any sequence of timeouts, incoming transactions, promotions and new
    blocks, the manager tracks exactly the transactions of the database, with their
    weights, fees and stem state; a public transaction has exactly one pending timer and a
    stem transaction none; and the next event never makes it panic, unless the maximum age
    is so long that the queue of the timers refuses a delay within it. *)
Theorem pool_manager_in_step m ev :
  manages m -> event_ok (pool m) ev ->
  (forall h, is_Some (current_txs m !! h) <-> is_Some (transaction_blobs (pool m) !! h)) /\
  (forall h i info, current_txs m !! h = Some i -> transaction_infos (pool m) !! h = Some info ->
     m_weight i = ti_weight info /\ m_fee i = ti_fee info /\ m_private i = private (flags info)) /\
  (forall h i, current_txs m !! h = Some i ->
     if m_private i then forall k d, tx_timeouts m !! k <> Some (h, d)
     else exists k, timeout_key i = Some k /\ (exists d, tx_timeouts m !! k = Some (h, d)) /\ forall k' d, tx_timeouts m !! k' = Some (h, d) -> k' = k) /\
  ((exists m', run_once blake3 clock m ev = Ok m') \/ (run_once blake3 clock m ev = Panic /\ too_long (maximum_age_secs m))).
Proof using DL.
  intros [P Hm]%manages_ok Hev. pose proof Hm as [Ht He [H1 H2 H3]]. split_and!.
  - intros h. rewrite (ph_blobs _ _ _ Ht), lookup_fmap, fmap_is_Some. specialize (He h).
    destruct (current_txs m !! h), (P !! h); try done; by split; intros [? ?].
  - intros h i info Ei Einfo. destruct (entry_of_tracked P m h i Hm Ei) as (e & E & Hw & Hf & Hp).
    rewrite (ph_infos _ _ _ Ht), lookup_fmap, E in Einfo. injection Einfo as <-. cbn. split_and!; [done|done|]. rewrite Hp. by destruct (pe_stem e).
  - intros h i Ei. destruct (m_private i) eqn:Ep.
    + intros k d Hq. destruct (H3 k h d Hq) as (i' & Ei' & Hk). rewrite Ei in Ei'. injection Ei' as <-. rewrite (H1 h i Ei Ep) in Hk. done.
    + destruct (H2 h i Ei Ep) as (k & d & Hk & Hq). exists k. split; [done|]. split; [eauto|]. intros k' d' Hq'.
      destruct (H3 k' h d' Hq') as (i' & Ei' & Hk'). congruence.
  - pose proof (run_once_ok P m ev Hm Hev) as Hr. destruct (run_once _ _ _ _); [left; eauto|done|by right].
Qed.

(** Starting the manager on a stored pool succeeds, if the queue of the timers takes every
    delay up to the maximum age, and makes every transaction public: a stem transaction of
    an earlier run is promoted, in the database as well, and nothing else changes. *)
Theorem start_promotes_stem_txs (P : gmap bytes PoolEntry) t max_age :
  pool_holds blake3 P t -> (forall q d, d <= Z.max 0 max_age -> delay_taken q d = true) ->
  exists (m : Manager) P', start_txpool_manager blake3 clock t max_age = Ok m /\ pool_holds blake3 P' (pool m) /\
    (forall h i, current_txs m !! h = Some i -> m_private i = false) /\
    forall h, match P !! h, P' !! h with Some e, Some e' => pe_tx e' = pe_tx e /\ pe_stem e' = false | None, None => True | _, _ => False end.
Proof using DL.
  intros Ht Hall. pose proof (start_ok P t max_age Ht) as Hs. destruct (start_txpool_manager blake3 clock t max_age) as [m| |]; [|done|].
  2:{ destruct Hs as (q & d & Hd & Hf). by rewrite Hall in Hf. }
  destruct Hs as (P' & Hm & HP). exists m, P'. split; [done|]. split; [apply Hm|]. split; [|done].
  intros h i Ei. destruct (entry_of_tracked P' m h i Hm Ei) as (e' & E' & _ & _ & ->). specialize (HP h). rewrite E' in HP.
  destruct (P !! h); [apply HP|done].
Qed.

(** C37. When the timer of a transaction of a running manager fires, the transaction is
    dropped from the manager and the database, with no timer left and nothing sent, if it is
    within ten seconds of its maximum age; otherwise it is sent to the peers once more and
    the next timer is set, to one relay interval for every interval begun in the pool but
    not beyond the maximum age. The other transactions are untouched. The manager panics
    only where the maximum age is so long that the queue of the timers refuses the delay.
    The clock is assumed not to go back behind the time the transaction came in. *)
Theorem fired_timer_relays_or_drops (m : Manager) k h d i :
  manages m -> tx_timeouts m !! k = Some (h, d) -> current_txs m !! h = Some i ->
  0 <= m_received_at i <= clock (calls m) -> m_received_at i <= clock (S (calls m)) ->
  clock (calls m) < 2 ^ 62 -> clock (S (calls m)) < 2 ^ 62 -> 0 <= maximum_age_secs m < 2 ^ 62 ->
  let age n := clock n - m_received_at i in
  let again := age (calls m) + 10 <= maximum_age_secs m in
  match run_once blake3 clock m (TimeoutFired k) with
  | Ok m' =>
      delete h (current_txs m') = delete h (current_txs m) /\
      ((~ again /\ messages m' = messages m /\ current_txs m' !! h = None /\ transaction_blobs (pool m') !! h = None /\
          forall k' d', tx_timeouts m' !! k' <> Some (h, d')) \/
       (again /\ pool m' = pool m /\
          (exists blob, transaction_blobs (pool m) !! h = Some blob /\ messages m' = messages m ++ [Diffuse blob]) /\
          exists k' i', current_txs m' !! h = Some i' /\ m_received_at i' = m_received_at i /\ timeout_key i' = Some k' /\
            tx_timeouts m' !! k' = Some (h, Z.min (300 * (age (S (calls m)) / 300 + 1)) (Z.max 0 (maximum_age_secs m - age (S (calls m)))))))
  | Err _ => False
  | Panic => again /\ too_long (maximum_age_secs m)
  end.
Proof using DL.
  intros [P Hm]%manages_ok Hq Ei Hr1 Hr2 Hc1 Hc2 Hmax age again. cbn [run_once]. rewrite Hq.
  pose proof (handle_tx_timeout_ok P m k h d Hm Hq) as Hok. pose proof (mo_pool _ _ Hm) as Ht.
  destruct (entry_of_tracked P m h i Hm Ei) as (e & E & Hie). revert Hok.
  unfold handle_tx_timeout. cbn [current_txs set_tx_timeouts]. rewrite Ei. unfold now at 1 3. cbn [calls set_tx_timeouts maximum_age_secs].
  set (m1 := mk_txpool_manager _ _ _ _ _ _). rewrite (wrap_small 64 (clock (calls m) - m_received_at i)) by zlia. rewrite (wrap_small 64) by zlia.
  destruct (_ >? _) eqn:Eage.
  - destruct (remove_tx_raw P m1 h i e Ht E Ei) as (m' & -> & Ht' & Hc & Hq' & Hmsg). cbn [runs]. intros (P' & Hm' & _).
    split; [rewrite Hc; by rewrite delete_delete_eq|]. left. split; [subst again age; cbv beta; lia|]. split; [by rewrite Hmsg|].
    assert (current_txs m' !! h = None) as Hnone by (rewrite Hc; by rewrite lookup_delete_eq). split; [done|]. split.
    + rewrite (ph_blobs _ _ _ Ht'), lookup_fmap. by rewrite lookup_delete_eq.
    + intros k' d' Hk'. destruct (to_timer _ _ (mo_timers _ _ Hm') k' h d' Hk') as (i' & Ei' & _). congruence.
  - assert (again) as Hagain by (subst again age; cbv beta; lia).
    assert (rerelay_tx h m1 = Ok (send (Diffuse (tvd_tx_blob (pe_tx e))) m1)) as -> by (unfold rerelay_tx; by rewrite (tx_blob_spec blake3 P (pool m1) h Ht), E).
    cbn [mbind result_bind]. assert (current_txs (send (Diffuse (tvd_tx_blob (pe_tx e))) m1) !! h = Some i) as -> by done.
    cbn [unwrap mbind result_bind]. unfold now, insert_timeout. cbn [tx_timeouts send]. destruct (delay_taken _ _); cbn [mbind result_bind runs]; [|done].
    intros _. split; [cbn [current_txs set_current_txs set_tx_timeouts send]; by rewrite delete_insert_eq|]. right. split; [done|]. split; [done|]. split.
    + exists (tvd_tx_blob (pe_tx e)). split; [|done]. by rewrite (ph_blobs _ _ _ Ht), lookup_fmap, E.
    + do 2 eexists. split; [cbn; by rewrite lookup_insert_eq|]. split; [done|]. split; [done|]. cbn. rewrite lookup_insert_eq. do 2 f_equal.
      unfold calculate_next_timeout, saturating_sub, TX_RERELAY_TIME. subst age. cbv beta. set (a := clock (S (calls m)) - m_received_at i).
      assert (0 <= a < 2 ^ 62) as Ha by (subst a; lia). pose proof (Z.div_le_upper_bound a 300 a ltac:(lia) ltac:(lia)). pose proof (Z.div_pos a 300 ltac:(lia) ltac:(lia)).
      pose proof (Z.mul_div_le a 300 ltac:(lia)). rewrite (wrap_small 64 a) by zlia. rewrite (wrap_small 64 (a / 300 + 1)) by zlia. rewrite wrap_small by zlia. f_equal. lia.
Qed.
End facts.

(** ** A concrete manager *)
Module TestManager.
Import Transparent TestHelpers TestPool.

Definition max_key (q : gmap Z (bytes * Z)) : Z := foldr Z.max 0 (map fst (map_to_list q)).

#[export] Instance deps : PoolDeps oxide := {| next_key q := 1 + max_key q; delay_taken _ d := d <=? (2 ^ 36 - 1) / 1000; extra _ := [] |}.

#[export] Instance deps_laws : PoolDepsLaws oxide deps.
Proof.
  split. intros q. cbn. destruct (q !! (1 + max_key q)) as [v|] eqn:E; [|done]. exfalso. apply elem_of_map_to_list in E. unfold max_key in E.
  assert (forall l (k : Z) (v : bytes * Z), (k, v) ∈ l -> k <= foldr Z.max 0 (map fst l)) as H.
  { induction l as [|[k' v'] l IH]; intros k0 v0 Hin; [by apply not_elem_of_nil in Hin|]. cbn.
    apply elem_of_cons in Hin as [[= -> ->]|Hin]; [lia|]. specialize (IH _ _ Hin). lia. }
  apply H in E. lia.
Qed.

Lemma day_fits : ~ too_long (D := deps) 86400.
Proof. intros (q & d & Hd & Hf). cbn in Hf. change ((2 ^ 36 - 1) / 1000) with 68719476 in Hf. lia. Qed.

(** The clock shows 1000 while the manager starts and 1300 afterwards. *)
Definition clock (n : nat) : Z := if (n <? 1)%nat then 1000 else 1300.
Definition started : TxpoolManager (PeerId := Z) :=
  match start_txpool_manager blake3 clock one_tables 86400 with Ok m => m | _ => mk_txpool_manager ∅ ∅ empty_pool 0 0 [] end.

Lemma started_eq : start_txpool_manager blake3 clock one_tables 86400 = Ok started.
Proof. vm_compute. reflexivity. Qed.
End TestManager.
Import Transparent TestPool TestManager.

Lemma pool_manager_in_step_witness :
  manages TestPool.blake3 TestManager.clock TestManager.started /\
  is_Some (current_txs TestManager.started !! [11; 12]) /\
  exists m', run_once TestPool.blake3 TestManager.clock TestManager.started (SpentKeyImages [12 :: repeat 0 31]) = Ok m'.
Proof.
  assert (manages TestPool.blake3 TestManager.clock TestManager.started) as Hm
    by exact (manages_start _ _ _ _ _ _ TestPool.one_holds TestManager.started_eq).
  destruct (pool_manager_in_step TestPool.blake3 TestManager.clock TestManager.started (SpentKeyImages [12 :: repeat 0 31]) Hm I) as (H1 & _ & _ & H4).
  split; [exact Hm|]. split; [|destruct H4 as [H4|[_ H4]]; [exact H4|destruct (day_fits H4)]]. apply H1. eexists. vm_compute. reflexivity.
Defined.

Lemma start_promotes_stem_txs_witness :
  exists (m : TxpoolManager (PeerId := Z)) P', start_txpool_manager TestPool.blake3 TestManager.clock TestPool.one_tables 86400 = Ok m /\
    pool_holds TestPool.blake3 P' (pool m).
Proof.
  destruct (start_promotes_stem_txs (PeerId := Z) TestPool.blake3 TestManager.clock TestPool.one TestPool.one_tables 86400 TestPool.one_holds) as (m & P' & H1 & H2 & _);
    [|exists m, P'; exact (conj H1 H2)].
  intros q d Hd. destruct (delay_taken q d) eqn:E; [reflexivity|]. destruct day_fits. exists q, d. split; [exact Hd|exact E].
Defined.

Lemma ok_inj {E A} (a b : A) : @Ok E A a = Ok b -> a = b.
Proof. by intros [= ->]. Qed.

(** After 300 seconds the transaction is sent again, and the next timer is set to 600. *)
Lemma fired_timer_relays_or_drops_witness :
  exists m' k', run_once TestPool.blake3 TestManager.clock TestManager.started (TimeoutFired 1) = Ok m' /\
    messages m' = [Diffuse [11; 12]] /\ tx_timeouts m' !! k' = Some ([11; 12], 600).
Proof.
  assert (manages TestPool.blake3 TestManager.clock TestManager.started) as Hm
    by exact (manages_start _ _ _ _ _ _ TestPool.one_holds TestManager.started_eq).
  assert (exists d i, tx_timeouts TestManager.started !! 1 = Some ([11; 12], d) /\ current_txs TestManager.started !! [11; 12] = Some i /\ m_received_at i = 1000) as (d & i & Hq & Ei & Hr)
    by (do 2 eexists; split; [vm_compute; reflexivity|]; split; [vm_compute; reflexivity|reflexivity]).
  assert (clock (calls started) = 1300 /\ clock (S (calls started)) = 1300 /\ maximum_age_secs started = 86400 /\
    transaction_blobs (pool started) !! [11; 12] = Some [11; 12] /\ messages started = []) as (C1 & C2 & C3 & C4 & C5) by (vm_compute; split_and!; reflexivity).
  pose proof (fired_timer_relays_or_drops TestPool.blake3 TestManager.clock TestManager.started 1 [11; 12] d i Hm Hq Ei) as H.
  rewrite Hr, C1, C2, C3 in H. specialize (H ltac:(lia) ltac:(lia) ltac:(lia) ltac:(lia) ltac:(lia)). cbv zeta beta in H.
  destruct (run_once _ _ _ _) as [m'|?|]; [|destruct H|destruct H as [_ H]; destruct (day_fits H)].
  destruct H as [_ [(Hn & _)|(_ & _ & (blob & Hb & Hmsg) & k' & i' & _ & _ & _ & Hk)]]; [exfalso; apply Hn; lia|].
  rewrite C4 in Hb. injection Hb as <-. rewrite C5 in Hmsg. exists m', k'. split; [reflexivity|]. split; [exact Hmsg|exact Hk].
Defined.

End TxPoolManagerFacts.
