(* ===== verification/IncomingTxFacts.v ===== *)
(** * What the handler of incoming transactions guarantees

    What the handler passes to the pool manager satisfies what the manager relies on; the
    relay rules in closed form; no two requests handle the same transaction at once. *)
From S2P Require Import Prelude Bytes HardForks ChainDb RulesBase TxData TxRules TxContext BlockRules Helpers DbTables TxOps TxStore AltBlocks BlockOps ChainStore Context BlockchainService OutputIndex TxVerification TxVerifyFacts FullVerifyFacts BlockVerification BlockVerifyFacts TxPool TxPoolFacts TxPoolManager TxPoolManagerFacts.
From Stdlib Require Import ZArith Lia String.
From stdpp Require Import base tactics option list numbers sets gmap.
Import HardForks ChainDb RulesBase TxData TxRules TxContext Helpers DbTables TxOps TxStore AltBlocks BlockOps ChainStore OutputIndex TxVerification TxVerifyFacts FullVerifyFacts BlockVerifyFacts TxPool TxPoolFacts TxPoolManager TxPoolManagerFacts.

#[local] Open Scope Z_scope.
#[local] Open Scope usize_scope.

Module IncomingTxFacts.

(** ** Fees *)

(** The fee per byte: 95% of the reference fee, and at least one. *)
Definition fee_per_byte (base_reward median : Z) : Z :=
  let reference := base_reward * 3000 / (median * median) in Z.max 1 (reference - reference / 20).

(** The fee of a weight, rounded up to the fee mask, with 2% of slack. *)
Definition least_fee (weight base_reward median : Z) : Z :=
  let needed := div_ceil (weight * fee_per_byte base_reward median) 10000 * 10000 in needed - needed / 50.

Lemma dynamic_base_fee_eq base_reward median :
  is_u 64 base_reward -> 100 <= median < 2 ^ 64 -> dynamic_base_fee base_reward median = Ok (fee_per_byte base_reward median).
Proof.
  intros Hb Hm. unfold dynamic_base_fee, fee_per_byte, DYNAMIC_FEE_REFERENCE_TRANSACTION_WEIGHT.
  rewrite (proj2 (Z.eqb_neq median 0)) by lia. rewrite (wrap_small 128) by zlia.
  rewrite Z.div_div by lia. set (q := base_reward * 3000 / (median * median)).
  assert (0 <= q <= base_reward) as Hq.
  { unfold is_u in Hb. assert (10000 <= median * median) as Hmm by nia. subst q. generalize dependent (median * median). intros mm Hmm.
    split; [apply Z.div_pos; lia|]. apply Z.div_le_upper_bound; [lia|]. nia. }
  pose proof (Z.div_pos q 20). pose proof (Z.mul_div_le q 20). rewrite wrap_small by zlia. f_equal. lia.
Qed.

Lemma check_fee_iff weight fee ctx :
  let median := BlockRules.effective_median_weight ctx in
  let reward := BlockRules.base_reward (BlockRules.already_generated_coins ctx) (BlockRules.current_hf ctx) in
  is_u 64 (BlockRules.already_generated_coins ctx) -> 100 <= median < 2 ^ 64 ->
  0 <= weight -> weight * fee_per_byte reward median + 10000 <= 2 ^ 64 ->
  check_fee weight fee ctx = if fee <? least_fee weight reward median then Err FeeBelowMinimum else Ok ().
Proof.
  intros median reward Hc Hm Hw Hover. assert (is_u 64 reward) as Hr by (pose proof (BlockRules.base_reward_bound _ (BlockRules.current_hf ctx) Hc); unfold reward; zlia). unfold check_fee, BlockRules.calculate_block_reward. fold median.
  rewrite (proj2 (Z.leb_le 1 median)) by lia. cbn [mbind result_bind]. rewrite BlockRules.calculate_base_reward_eq by done. fold reward.
  rewrite dynamic_base_fee_eq by done. cbn [mbind result_bind]. unfold least_fee, FEE_MASK. change (10 ^ 4) with 10000.
  set (f := fee_per_byte reward median) in *. assert (1 <= f) as Hf by (unfold f, fee_per_byte; lia).
  rewrite (wrap_small 64 (weight * f)) by (unfold is_u; nia). set (n := div_ceil (weight * f) 10000).
  assert (0 <= n /\ n * 10000 < 2 ^ 64) as [Hn Hn'].
  { unfold n. rewrite div_ceil_spec by lia. split; [apply Z.div_pos; nia|]. pose proof (Z.mul_div_le (weight * f + 10000 - 1) 10000). nia. }
  rewrite (wrap_small 64 (n * 10000)) by (unfold is_u; lia). pose proof (Z.div_pos (n * 10000) 50). pose proof (Z.mul_div_le (n * 10000) 50).
  rewrite wrap_small by (unfold is_u; lia). done.
Qed.

Section facts.
Context {O : MoneroOxide} {T : TransactionOps O} {C : Dalek O} {Cd : MoneroCodec O} {B : MoneroBatch O} {D : PoolDeps O}.
Context `{L : !MoneroOxideLaws O T}.
Context (blake3 : bytes -> bytes).
Context {PeerId : Type}.

(** The relay rules: no time lock, an extra field of at most 1060 bytes, and at least 98% of
    the dynamic fee of the weight. *)
Definition relay_rule (x : TransactionVerificationData) (ctx : BlockRules.ContextToVerifyBlock) : Prop :=
  additional_timelock (prefix (tvd_tx x)) = TL_None /\ len (extra (prefix (tvd_tx x))) <= 1060 /\
  least_fee (tvd_tx_weight x) (BlockRules.base_reward (BlockRules.already_generated_coins ctx) (BlockRules.current_hf ctx))
    (BlockRules.effective_median_weight ctx) <= tvd_fee x.

(** The coins and the median of a context are such that the fee of the weight fits 64 bits. *)
Definition fee_fits (x : TransactionVerificationData) (ctx : BlockRules.ContextToVerifyBlock) : Prop :=
  is_u 64 (BlockRules.already_generated_coins ctx) /\ 100 <= BlockRules.effective_median_weight ctx < 2 ^ 64 /\ 0 <= tvd_tx_weight x /\
  tvd_tx_weight x * fee_per_byte (BlockRules.base_reward (BlockRules.already_generated_coins ctx) (BlockRules.current_hf ctx))
    (BlockRules.effective_median_weight ctx) + 10000 <= 2 ^ 64.

Lemma check_tx_relay_rules_spec x ctx :
  fee_fits x ctx -> check_tx_relay_rules x ctx <> Panic /\ (check_tx_relay_rules x ctx = Ok () <-> relay_rule x ctx).
Proof using Type.
  intros (Hc & Hm & Hw & Hover). unfold check_tx_relay_rules, MAX_TX_EXTRA_SIZE, relay_rule.
  rewrite (check_fee_iff (tvd_tx_weight x) (tvd_fee x) ctx) by done. set (least := least_fee _ _ _).
  destruct (additional_timelock (prefix (tvd_tx x))) as [|?|?]; [|split; [done|]; split; [done|by intros (? & _)]..].
  destruct (len (extra (prefix (tvd_tx x))) >? 1060) eqn:El; [split; [done|]; split; [done|intros (_ & ? & _); lia]|].
  destruct (tvd_fee x <? least) eqn:Ef; (split; [done|]).
  - split; [done|]. intros (_ & _ & ?). lia.
  - split; [|done]. intros _. split_and!; [done|lia|lia].
Qed.

(** The relay rules in closed form: a transaction is relayed exactly when it has no time
    lock, its extra field has at most 1060 bytes, and it pays at least 98% of the dynamic
    fee of its weight, rounded up to a multiple of 10000; there is no overflow and no
    panic for a median of at least 100 bytes and a weight whose fee fits 64 bits. *)
Theorem relay_rules_iff x ctx :
  let median := BlockRules.effective_median_weight ctx in
  let reward := BlockRules.base_reward (BlockRules.already_generated_coins ctx) (BlockRules.current_hf ctx) in
  is_u 64 (BlockRules.already_generated_coins ctx) -> 100 <= median < 2 ^ 64 ->
  0 <= tvd_tx_weight x -> tvd_tx_weight x * fee_per_byte reward median + 10000 <= 2 ^ 64 ->
  check_tx_relay_rules x ctx <> Panic /\
  (check_tx_relay_rules x ctx = Ok () <->
   additional_timelock (prefix (tvd_tx x)) = TL_None /\ len (extra (prefix (tvd_tx x))) <= 1060 /\
   least_fee (tvd_tx_weight x) reward median <= tvd_fee x).
Proof using Type.
  intros median reward Hc Hm Hw Hover. by apply check_tx_relay_rules_spec.
Qed.

(** ** The trackers of transactions being handled *)
Lemma drop_local_spec local handled k : k ∈ drop_local local handled <-> k ∈ handled /\ k ∉ local.
Proof using Type.
  unfold drop_local. revert handled. induction local as [|h local IH]; intros handled; cbn [foldl].
  - split; [intros H; split; [done|apply not_elem_of_nil]|by intros [? _]].
  - rewrite IH, elem_of_difference, elem_of_singleton, not_elem_of_cons. by split; [intros [[? ?] ?]|intros (? & ? & ?)].
Qed.

(** What the first pass claims: the new hashes join both trackers. *)
Lemma claim_blobs_spec blobs seen handled local r handled' local' :
  claim_blobs blake3 blobs seen handled local = (r, handled', local') ->
  exists new, local' = local ++ new /\ (forall k, k ∈ new -> k ∉ handled) /\ (forall k, k ∈ handled' <-> k ∈ handled \/ k ∈ new) /\
    match r with
    | Ok (txs, hashes) => (forall k, k ∈ hashes <-> k ∈ seen \/ k ∈ map blake3 blobs) /\
        (forall h b, (h, b) ∈ txs -> h = blake3 b /\ b ∈ blobs /\ h ∈ new)
    | Err e => e = DuplicateTransaction
    | Panic => False
    end.
Proof using L.
  revert seen handled local r handled' local'. induction blobs as [|b blobs IH]; intros seen handled local r handled' local'; cbn [claim_blobs].
  { intros [= <- <- <-]. exists []. rewrite app_nil_r. split_and!; [done|by intros k ?%not_elem_of_nil| | |].
    - intros k. split; [by left|intros [?|?%not_elem_of_nil]; done].
    - intros k. split; [by left|intros [?|?%not_elem_of_nil]; done].
    - by intros h b ?%not_elem_of_nil. }
  unfold transaction_blob_hash. case_bool_decide as Hs.
  { intros [= <- <- <-]. exists []. rewrite app_nil_r. split_and!; [done|by intros k ?%not_elem_of_nil| |done].
    intros k. split; [by left|intros [?|?%not_elem_of_nil]; done]. }
  unfold try_add_tx. case_bool_decide as Hh.
  - destruct (claim_blobs blake3 blobs _ handled local) as [[r0 h0] l0] eqn:E. intros [= <- <- <-].
    destruct (IH _ _ _ _ _ _ E) as (new & H1 & H2 & H3 & H4). exists new. split_and!; [done|done|done|].
    destruct r0 as [[txs hashes]|?|]; cbn [mbind result_bind]; [|done|done]. destruct H4 as [H4 H5]. split.
    + intros k. rewrite H4, elem_of_union, elem_of_singleton. cbn [map]. rewrite elem_of_cons. tauto.
    + intros h b' Hin. destruct (H5 h b' Hin) as (? & ? & ?). split_and!; [done|by right|done].
  - destruct (claim_blobs blake3 blobs _ _ _) as [[r0 h0] l0] eqn:E. intros [= <- <- <-].
    destruct (IH _ _ _ _ _ _ E) as (new & H1 & H2 & H3 & H4). exists (blake3 b :: new). split_and!.
    + rewrite H1, <- app_assoc. done.
    + intros k [->|Hk]%elem_of_cons; [done|]. specialize (H2 k Hk). rewrite not_elem_of_union in H2. by apply H2.
    + intros k. rewrite H3, elem_of_union, elem_of_singleton, elem_of_cons. tauto.
    + destruct r0 as [[txs hashes]|?|]; cbn [mbind result_bind]; [|done|done]. destruct H4 as [H4 H5]. split.
      * intros k. rewrite H4, elem_of_union, elem_of_singleton. cbn [map]. rewrite elem_of_cons. tauto.
      * intros h b' [Heq|Hin]%elem_of_cons; [injection Heq as -> ->; split_and!; [done|by left|by left]|].
        destruct (H5 h b' Hin) as (? & ? & ?). split_and!; [done|by right|by right].
Qed.

(** The guard gives back what the request claimed. *)
Lemma claim_then_drop blobs handled r handled' local' :
  claim_blobs blake3 blobs ∅ handled [] = (r, handled', local') -> drop_local local' handled' = handled.
Proof using L.
  intros H. destruct (claim_blobs_spec _ _ _ _ _ _ _ H) as (new & -> & Hn & Hh & _). apply set_eq. intros k. cbn [app].
  rewrite drop_local_spec, Hh. split; [by intros [[?|?] ?]|]. intros Hk. split; [by left|]. intros Hin. by apply (Hn k).
Qed.

(** ** Cached states that can be stored *)

(** The unlock times of the table are [u64]s. *)
Definition unlock_typed (t : Tables) : Prop := map_Forall (fun _ v => is_u 64 v) (tx_unlock_time t).

Definition lock_typed (l : Timelock) : Prop := match l with TL_Time x => 0 < x < 2 ^ 64 | _ => True end.

Lemma time_lock_typed t flags idx l : unlock_typed t -> time_lock_of flags idx t = Ok l -> lock_typed l.
Proof using Type.
  intros Ht. unfold time_lock_of, db_get. destruct (flags_contain _ _); [|by intros [= <-]].
  destruct (tx_unlock_time t !! idx) as [u|] eqn:E; [|done]. cbn [ok_or mbind result_bind]. intros [= <-]. specialize (Ht idx u E). cbn in Ht.
  unfold u64_to_timelock. destruct (u =? 0) eqn:E0; [done|]. destruct (u <? MAX_BLOCK_HEIGHT); [done|]. cbn. unfold is_u in Ht. lia.
Qed.

Lemma db_output_lock t a i o : unlock_typed t -> db_output t a i = Some o -> lock_typed (time_lock o).
Proof using Type.
  intros Ht. unfold db_output, id_to_output_on_chain. cbn [amount amount_index]. destruct (a =? 0).
  - destruct (get_rct_output i t) as [r|?|]; try done. cbn [mbind result_bind]. unfold rct_output_to_output_on_chain.
    destruct (time_lock_of _ _ t) as [l|?|] eqn:El; try done. cbn [mbind result_bind]. intros [= <-]. by apply time_lock_typed in El.
  - destruct (get_output _ t) as [r|?|]; try done. cbn [mbind result_bind]. unfold output_to_output_on_chain.
    destruct (compute_zero_commitment a) as [c|?|]; try done. cbn [mbind result_bind].
    destruct (time_lock_of _ _ t) as [l|?|] eqn:El; try done. cbn [mbind result_bind]. intros [= <-]. by apply time_lock_typed in El.
Qed.

Lemma ring_members_typed t ins used :
  unlock_typed t -> get_ring_members_for_inputs (db_output t) ins = Ok used -> Forall (Forall (fun o => lock_typed (time_lock o))) used.
Proof using Type.
  intros Ht H. apply collect_Ok_inv in H. induction H as [|inp outs ins used Hi _ IH]; constructor; [|done].
  destruct inp as [n|a offs k]; [done|]. destruct (get_absolute_offsets offs) as [os|?|]; try done. cbn [mbind result_bind] in Hi.
  apply collect_Ok_inv in Hi. induction Hi as [|o out os outs Ho _ IHo]; constructor; [|done].
  apply ok_or_Ok in Ho. by apply db_output_lock in Ho.
Qed.

Lemma locks_typed used : Forall (Forall (fun o => lock_typed (time_lock o))) used -> Forall lock_typed (concat (map (omap is_locked) used)).
Proof using Type.
  induction 1 as [|outs used Ho _ IH]; cbn [map concat]; [constructor|]. apply Forall_app. split; [|done]. clear IH used.
  induction Ho as [|o outs Ho _ IH]; [constructor|]. cbn [omap list_omap]. destruct (is_locked o) as [l|] eqn:El; [|done]. constructor; [|done].
  unfold is_locked in El. destruct (time_lock o); try done; by injection El as <-.
Qed.

Lemma ring_locks_typed t hf ins v info :
  unlock_typed t -> ring_member_info_for_tx (db_output t) (db_number t) hf ins v = Ok info -> Forall lock_typed (time_locked_outs info).
Proof using Type.
  intros Ht. unfold ring_member_info_for_tx. destruct (get_ring_members_for_inputs (db_output t) ins) as [used|?|] eqn:Er; try done. cbn [mbind result_bind].
  destruct (if bool_decide (hf = V1) then _ else _) as [d|?|]; try done. cbn [mbind result_bind]. unfold new_ring_member_info.
  destruct (collect _ used) as [hs|?|]; try done. cbn [mbind result_bind]. destruct (iter_max hs) as [y|]; [|done]. cbn [unwrap mbind result_bind].
  intros [= <-]. cbn. by apply locks_typed, (ring_members_typed t ins).
Qed.

Lemma foldl_min_in l y : foldl Z.min y l ∈ y :: l.
Proof using Type.
  revert y. induction l as [|x l IH]; intros y; cbn [foldl]; [by left|]. specialize (IH (Z.min y x)).
  apply elem_of_cons in IH as [->|IH]; [|right; by right]. destruct (Z.min_spec y x) as [[_ ->]|[_ ->]]; [by left|right; by left].
Qed.

Lemma new_state_storable top hf (info : TxRingMembersInfo) :
  top <> repeat 0 32 -> Forall lock_typed (time_locked_outs info) -> storable_state (new_state top hf info).
Proof using Type.
  intros Htop Hl. unfold new_state. destruct (time_locked_outs info) as [|l ls]; [done|]. set (times := omap _ (l :: ls)).
  assert (Forall (fun x => 0 < x < 2 ^ 64) times) as Ht.
  { subst times. apply Forall_forall. intros x Hx. apply list_elem_of_omap in Hx as (l' & Hin & Hx). rewrite Forall_forall in Hl.
    specialize (Hl l' Hin). destruct l'; try done. by injection Hx as <-. }
  destruct times as [|x xs]; [done|]. split; [done|]. eexists. split; [done|]. rewrite Forall_forall in Ht. apply Ht, foldl_min_in.
Qed.

(** ** What is passed on *)
Lemma pass_on_spec dropping ctx (txs : list TransactionVerificationData) x :
  x ∈ (pass_on dropping ctx txs).2 -> x ∈ txs /\ check_tx_relay_rules x ctx = Ok ().
Proof using Type.
  induction txs as [|y txs IH]; cbn [pass_on]; [by intros ?%not_elem_of_nil|].
  destruct (check_tx_relay_rules y ctx) as [[]|e|] eqn:Er.
  - destruct (pass_on dropping ctx txs) as [r sent]. cbn [snd] in *. intros [->|Hin]%elem_of_cons; [by split; [left|]|].
    destruct (IH Hin). by split; [right|].
  - destruct dropping; [|by intros ?%not_elem_of_nil]. intros Hin. destruct (IH Hin). by split; [right|].
  - by intros ?%not_elem_of_nil.
Qed.

(** What reading a transaction guarantees, for the transactions of a message. *)
Definition wire_ok (blobs : list bytes) : Prop := forall b tx, b ∈ blobs -> tx_read b = Some tx -> tx_wire tx /\ tx_sized tx.

Lemma parse_tx_spec blobs b x :
  wire_ok blobs -> b ∈ blobs -> parse_tx b = Ok x -> tx_read b = Some (tvd_tx x) /\ prepared x /\ cached_verification_state x = NotVerified /\ tvd_version x = tx_version (tvd_tx x).
Proof using L.
  intros Hw Hin. unfold parse_tx. destruct (tx_read b) as [tx|] eqn:Er; [|done]. cbn [ok_or mbind result_bind]. intros Hn. apply map_err_Ok in Hn.
  pose proof Hn as Hn'. unfold new_tx_verification_data in Hn. destruct (checked_tx_fee tx) as [f|?|]; try done. cbn [map_err mbind result_bind] in Hn.
  rewrite from_raw_version in Hn. cbn [ok_or map_err mbind result_bind] in Hn. injection Hn as Hx. assert (tvd_tx x = tx) as Htx by (by subst x).
  rewrite Htx. split; [done|]. split; [|by subst x]. split; [|rewrite Htx; by eapply (Hw b)|by subst x].
  exists x. rewrite Htx. split; [done|]. by subst x.
Qed.

(** A transaction that was parsed and then passed full verification can be stored. *)
Lemma verified_poolable rng t h top time hf x x' n known :
  prepared x -> cached_verification_state x = NotVerified -> tvd_version x = tx_version (tvd_tx x) -> unlock_typed t -> top <> repeat 0 32 ->
  needed_for known hf h time x = Ok n -> passed rng t h top time hf n x x' ->
  poolable x' /\ tvd_tx x' = tvd_tx x /\ tvd_tx_hash x' = tvd_tx_hash x.
Proof using L.
  intros Hp Hc Hv Ht Htop Hn Hpa. assert (n = SemanticAndContextual) as -> by (unfold needed_for in Hn; rewrite Hc in Hn; by injection Hn as <-).
  destruct Hpa as [Hs (info & [Hi _] & ->)]. destruct (prepared_fields x Hp) as [Hh Hb]. pose proof (pr_wire _ Hp) as Hw.
  destruct (semantic_spends rng hf x (tw_typed _ Hw) Hs) as [Hne Hgen]. split; [|done]. split; cbn [with_state tvd_tx tvd_tx_blob tvd_tx_hash tvd_version cached_verification_state].
  - done.
  - rewrite Hb. apply Hw.
  - done.
  - unfold is_miner. apply not_true_is_false. rewrite existsb_exists. intros (i & Hin & Hg). rewrite List.Forall_forall in Hgen. rewrite (Hgen i Hin) in Hg. done.
  - done.
  - apply new_state_storable; [done|]. by apply (ring_locks_typed t) in Hi.
Qed.

(** Neither the hash of a transaction nor the hash of its blob collides with that of a
    different transaction of the pool. *)
Definition no_pool_collision (t : PoolTables) (tx : Transaction) : Prop :=
  forall h b tx', transaction_blobs t !! h = Some b -> tx_read b = Some tx' ->
    tx_hash tx' = tx_hash tx \/ blake3 b = blake3 (tx_serialize tx) -> tx' = tx.

Lemma poolable_fits (P : gmap bytes PoolEntry) t x x0 stem :
  pool_holds blake3 P t -> poolable x -> prepared x0 -> tvd_tx x = tvd_tx x0 -> tvd_tx_hash x = tvd_tx_hash x0 -> tvd_tx_blob x = tvd_tx_blob x0 ->
  no_pool_collision t (tvd_tx x) -> fits blake3 t (AddTransaction x stem).
Proof using Type.
  intros Ht Hx Hp E1 E2 E3 Hcol. destruct (prepared_fields x0 Hp) as [_ Hb]. split; [done|]. intros h b Hbl Hor.
  pose proof Hbl as Hbl'. rewrite (ph_blobs _ _ _ Ht), lookup_fmap in Hbl. destruct (P !! h) as [e|] eqn:E; [|done]. injection Hbl as <-.
  destruct (ok_entries _ _ (ph_ok _ _ _ Ht) h e E) as [Hhe He].
  assert (tvd_tx (pe_tx e) = tvd_tx x) as Heq.
  { apply (Hcol h (tvd_tx_blob (pe_tx e))); [done|apply He|]. destruct Hor as [->|Hb']; [left|right].
    - rewrite <- (p_hash _ He), Hhe. apply Hx.
    - by rewrite Hb', E3, Hb, E1. }
  split; [|rewrite (p_read _ He); by rewrite Heq]. rewrite <- Hhe, (p_hash _ He), Heq. symmetry. apply Hx.
Qed.

(** A transaction of the message that the pool does not know, as it was parsed. *)
Definition new_in (P : gmap bytes PoolEntry) (blobs : list bytes) (x : TransactionVerificationData) : Prop :=
  exists b, b ∈ blobs /\ parse_tx b = Ok x /\ forall h e, ~ known_as blake3 P (blake3 b) h e.

Lemma prepare_incoming_txs_spec (P : gmap bytes PoolEntry) t blobs handled xs stem handled' local' :
  pool_holds blake3 P t -> prepare_incoming_txs blake3 t blobs handled = (Ok (xs, stem), handled', local') -> Forall (new_in P blobs) xs.
Proof using L.
  intros Ht. unfold prepare_incoming_txs. destruct (claim_blobs blake3 blobs ∅ handled []) as [[r h'] l'] eqn:Ec. intros [= Hr <- <-].
  destruct (claim_blobs_spec _ _ _ _ _ _ _ Ec) as (new & _ & _ & _ & Hcl). destruct r as [[txs hashes]|?|]; try done. destruct Hcl as [Hh Htx].
  cbn [mbind result_bind] in Hr. unfold filter_and_parse in Hr. cbn [map_request] in Hr.
  destruct (filter_known_spec blake3 P t hashes Ht) as (unknown & st & Hf & Hu & _). rewrite Hf in Hr.
  destruct (collect parse_tx _) as [xs'|?|] eqn:Ex; try done. cbn [mbind result_bind] in Hr. injection Hr as <- <-.
  apply collect_Ok_inv in Ex. apply Forall_forall. intros x Hx. apply list_elem_of_lookup in Hx as [i Hi].
  destruct (Forall2_lookup_r _ _ _ _ _ Ex Hi) as (b & Hb & Hp). apply list_elem_of_lookup_2 in Hb.
  apply list_elem_of_fmap in Hb as ([h b'] & -> & [Hun Hin]%list_elem_of_filter). cbn [fst snd] in *. destruct (Htx h b' Hin) as (-> & Hb & _).
  exists b'. split; [done|]. split; [done|]. by apply Hu.
Qed.

(** What holds of a transaction the handler passes on: it was in the message and unknown to
    the pool; it satisfies the semantic rules, the contextual rules on the stored chain and
    the relay rules, its range proofs are among those the batch verifier accepted, and its
    key images are new; and the pool can take it. *)
Record taken_in (rng : TransactionVerificationData -> Rng) (chain : list VerifiedBlockInformation) (context : Context.BlockchainContext) (time : Z)
    (P : gmap bytes PoolEntry) (t : PoolTables) (blobs : list bytes) (x : TransactionVerificationData) (st : TxState PeerId) : Prop := {
  ti_message : exists b, b ∈ blobs /\ tx_read b = Some (tvd_tx x) /\ forall h e, ~ known_as blake3 P (blake3 b) h e;
  ti_semantic : let hf := BlockRules.current_hf (Context.context_to_verify_block context) in
    exists v, semantic_rules (tvd_tx x) (len (tvd_tx_blob x)) (tvd_tx_weight x) (tvd_tx_hash x) hf (rng (with_state NotVerified x)) v (tvd_fee x);
  ti_batch : exists batch, with_state NotVerified x ∈ batch /\ batch_valid (foldl (queue_proofs rng) batch_new batch) = true;
  ti_contextual : let ctx := Context.context_to_verify_block context in
    exists ms, contextual_promise (tvd_tx x) (out_at (chain_txs chain)) (out_count (chain_txs chain)) ms (BlockRules.chain_height ctx) time (BlockRules.current_hf ctx);
  ti_relay : let ctx := Context.context_to_verify_block context in fee_fits x ctx -> relay_rule x ctx;
  ti_fresh : forall k, k ∈ kis x -> k ∉ all_kis (chain_txs chain);
  ti_pool : no_pool_collision t (tvd_tx x) -> event_ok blake3 t (IncomingTransaction x st);
}.

Lemma with_state_twice s s' (x : TransactionVerificationData) : with_state s (with_state s' x) = with_state s x.
Proof using Type. done. Qed.

Lemma with_own_state (x : TransactionVerificationData) : with_state (cached_verification_state x) x = x.
Proof using Type. by destruct x. Qed.

Lemma verified_taken_in {DL : DalekLaws O C} rng chain database context time P t blobs xs xs' x st :
  let ctx := Context.context_to_verify_block context in
  valid_chain chain -> stores chain database -> unlock_typed database -> pool_holds blake3 P t -> wire_ok blobs -> BlockRules.top_hash ctx <> repeat 0 32 ->
  is_u 63 time -> Forall (new_in P blobs) xs ->
  verify rng xs (BlockRules.chain_height ctx) (BlockRules.top_hash ctx) time (BlockRules.current_hf ctx) database None = Ok xs' ->
  x ∈ xs' -> check_tx_relay_rules x ctx = Ok () -> taken_in rng chain context time P t blobs x st.
Proof using L.
  intros ctx Hv Hst Hun Ht Hw Htop H63 Hnew Ev Hx Hrel.
  assert (Forall (fun x0 => prepared x0 /\ cached_verification_state x0 = NotVerified /\ tvd_version x0 = tx_version (tvd_tx x0) /\ tx_sized (tvd_tx x0)) xs) as Hparsed.
  { revert Hnew. apply List.Forall_impl. intros y (b & Hb & Hparse & _). destruct (parse_tx_spec _ b y Hw Hb Hparse) as (Hr & H1 & H2 & H3).
    split_and!; [done|done|done|]. by apply (Hw b). }
  destruct (full_verification_rules chain database Hv Hst rng xs (BlockRules.chain_height ctx) (BlockRules.top_hash ctx) time (BlockRules.current_hf ctx) None xs' H63)
    as (Hk & Hf & Hb); [|by intros c|exact Ev|].
  { revert Hparsed. apply List.Forall_impl. intros y (Hp & _ & Hver & Hsz). split; [apply (tw_typed _ (pr_wire _ Hp))|done|done]. }
  destruct (full_verification_spec rng chain database xs _ _ time _ xs' Hst Ev) as (_ & _ & Hf2).
  apply list_elem_of_lookup in Hx as [i Hi]. destruct (Forall2_lookup_r _ _ _ _ _ Hf Hi) as (x0 & Hi0 & Hnow).
  destruct (Forall2_lookup_r _ _ _ _ _ Hf2 Hi) as (x0' & Hi0' & n & Hn & Hpa & _). rewrite Hi0 in Hi0'. injection Hi0' as <-.
  apply list_elem_of_lookup_2 in Hi0. rewrite Forall_forall in Hnew, Hparsed. destruct (Hnew x0 Hi0) as (b & Hbl & Hparse & Hunk).
  destruct (Hparsed x0 Hi0) as (Hprep & Hnv & Hver & _). destruct (parse_tx_spec _ b x0 Hw Hbl Hparse) as (Hread & _).
  destruct (verified_poolable rng database _ _ time _ x0 x n _ Hprep Hnv Hver Hun Htop Hn Hpa) as (Hpool & Htx & Hhash).
  destruct Hnow as [N1 N2 _]. destruct (N2 ltac:(unfold context_known; by rewrite Hnv)) as [Hctx (s & -> & _)].
  assert (x0 = with_state NotVerified (with_state s x0)) as Hx0 by (rewrite with_state_twice, <- Hnv; by rewrite with_own_state).
  split.
  - exists b. done.
  - rewrite <- Hx0. apply N1. unfold semantic_known. by rewrite Hnv.
  - eexists. split; [|exact Hb]. rewrite <- Hx0. apply list_elem_of_filter. split; [|done]. unfold semantic_known. by rewrite Hnv.
  - exact Hctx.
  - intros ctx' Hfee. by apply check_tx_relay_rules_spec.
  - intros k Hkx. apply (Hk I), list_elem_of_bind. by exists x0.
  - intros Hcol. by apply (poolable_fits P t _ x0).
Qed.

(** C15. What the handler of incoming transactions passes to the pool manager: transactions
    that were in the message, unknown to the pool, and that satisfy, on the stored chain
    and at the fork and time of the context, every semantic and contextual rule (outputs
    and inputs, ring members, locks, decoys, signatures, range proofs), with key images
    that are not spent in the chain; that satisfy the relay rules and meet what the pool
    asks of a transaction to be added. Whatever the outcome, the request leaves no
    transaction marked as being handled. *)
Theorem incoming_txs_sound {DL : DalekLaws O C} (rng : TransactionVerificationData -> Rng) (now time : Z) (context : Context.BlockchainContext)
    (chain : list VerifiedBlockInformation) (database : Tables)
    (P : gmap bytes PoolEntry) (t : PoolTables) (handled : gset bytes) (req : IncomingTxs (PeerId := PeerId)) :
  let r := handle_incoming_txs blake3 rng now context database t handled req in
  valid_chain chain -> stores chain database -> unlock_typed database -> pool_holds blake3 P t -> wire_ok (TxPoolManager.txs req) ->
  BlockRules.top_hash (Context.context_to_verify_block context) <> repeat 0 32 ->
  Context.current_adjusted_timestamp_for_time_lock context now = Ok time -> is_u 63 time ->
  h_handled r = handled /\
  forall x st, (x, st) ∈ h_sent r -> st = state req /\ taken_in rng chain context time P t (TxPoolManager.txs req) x st.
Proof using L.
  intros r Hv Hst Hun Ht Hw Htop Htime H63. subst r. unfold handle_incoming_txs. set (ctx := Context.context_to_verify_block context) in *.
  destruct (prepare_incoming_txs blake3 t (TxPoolManager.txs req) handled) as [[prepared0 handled'] local'] eqn:Ep.
  assert (drop_local local' handled' = handled) as Hd.
  { unfold prepare_incoming_txs in Ep. destruct (claim_blobs _ _ _ _ _) as [[r0 h0] l0] eqn:Ec. injection Ep as _ <- <-. by apply claim_then_drop in Ec. }
  destruct prepared0 as [[xs stem]|e|]; cbn [mbind result_bind]; [|by split; [|intros x st ?%not_elem_of_nil]..].
  pose proof (prepare_incoming_txs_spec P t _ _ _ _ _ _ Ht Ep) as Hnew. cbn [prepare collect mbind result_bind map_err]. rewrite app_nil_r, Htime.
  cbn [expect mbind result_bind].
  destruct (verify rng xs _ _ time _ database None) as [xs'|e|] eqn:Ev; cbn [map_err mbind result_bind]; [|by split; [|intros x st ?%not_elem_of_nil]..].
  destruct (pass_on _ ctx xs') as [r sent] eqn:Epa.
  assert (forall x st, (x, st) ∈ map (fun tx => (tx, state req)) sent -> st = state req /\ taken_in rng chain context time P t (TxPoolManager.txs req) x st) as Hsent;
    [|destruct r as [[]|e|]; split; done].
  intros x st (x' & [= -> ->] & Hin)%list_elem_of_fmap. split; [done|].
  pose proof (pass_on_spec (drop_relay_rule_errors req) ctx xs' x') as Hps. rewrite Epa in Hps. destruct (Hps Hin) as [Hx' Hrel].
  by eapply (verified_taken_in rng chain database context time P t (TxPoolManager.txs req) xs xs').
Qed.
End facts.

(** ** Requests that run at the same time *)

(** The shared set and the local lists of the requests in progress. *)
Record Trackers := mk_trackers { shared : gset bytes; in_progress : gmap nat (list bytes) }.

Inductive tracker_step (s : Trackers) : Trackers -> Prop :=
  | step_local_tracker i : in_progress s !! i = None -> tracker_step s (mk_trackers (shared s) (<[i := []]> (in_progress s)))
  | step_try_add i local h added handled' local' :
      in_progress s !! i = Some local -> try_add_tx h (shared s) local = (added, handled', local') ->
      tracker_step s (mk_trackers handled' (<[i := local']> (in_progress s)))
  | step_drop i local :
      in_progress s !! i = Some local -> tracker_step s (mk_trackers (drop_local local (shared s)) (delete i (in_progress s))).

(** The shared set is the disjoint union of the local lists. *)
Definition trackers_ok (s : Trackers) : Prop :=
  (forall i j li lj h, in_progress s !! i = Some li -> in_progress s !! j = Some lj -> h ∈ li -> h ∈ lj -> i = j) /\
  (forall h, h ∈ shared s <-> exists i l, in_progress s !! i = Some l /\ h ∈ l).

Lemma tracker_step_ok s s' : trackers_ok s -> tracker_step s s' -> trackers_ok s'.
Proof.
  intros [H1 H2] Hs. destruct Hs as [i Ei|i local h added handled' local' Ei Ha|i local Ei].
  - split; cbn.
    + intros a b la lb h [[<- <-]|[_ Ea]]%lookup_insert_Some [[<- <-]|[_ Eb]]%lookup_insert_Some Hla Hlb;
        [done|by apply not_elem_of_nil in Hla|by apply not_elem_of_nil in Hlb|eauto].
    + intros h. rewrite H2. split; intros (a & l & El & Hl).
      * exists a, l. rewrite lookup_insert_ne; [done|]. intros <-. congruence.
      * apply lookup_insert_Some in El as [[_ <-]|[_ El]]; [by apply not_elem_of_nil in Hl|eauto].
  - unfold try_add_tx in Ha. case_bool_decide as Hin; injection Ha as <- <- <-.
    { rewrite insert_id by done. by destruct s. }
    assert (forall a l, in_progress s !! a = Some l -> h ∉ l) as Hno by (intros a l El Hl; apply Hin, H2; eauto). split; cbn.
    + intros a b la lb k [[<- <-]|[Hai Ea]]%lookup_insert_Some [[<- <-]|[Hbi Eb]]%lookup_insert_Some; [done| | |eauto].
      * rewrite elem_of_app, list_elem_of_singleton. intros [Hla| ->] Hlb; [eauto|]. by apply (Hno b lb) in Hlb.
      * rewrite elem_of_app, list_elem_of_singleton. intros Hla [Hlb| ->]; [eauto|]. by apply (Hno a la) in Hla.
    + intros k. rewrite elem_of_union, elem_of_singleton, H2. split.
      * intros [->|(a & l & El & Hl)]; [exists i, (local ++ [h]); rewrite lookup_insert_eq; split; [done|]; apply elem_of_app; right; by apply list_elem_of_singleton|].
        destruct (decide (a = i)) as [->|Hne]; [exists i, (local ++ [h]); rewrite lookup_insert_eq; split; [done|]; apply elem_of_app; left; congruence|].
        exists a, l. by rewrite lookup_insert_ne.
      * intros (a & l & [[<- <-]|[Hne El]]%lookup_insert_Some & Hl); [|right; eauto].
        apply elem_of_app in Hl as [Hl| ->%list_elem_of_singleton]; [right; eauto|by left].
  - split; cbn.
    + intros a b la lb h [_ Ea]%lookup_delete_Some [_ Eb]%lookup_delete_Some. eauto.
    + intros h. rewrite drop_local_spec, H2. split.
      * intros [(a & l & El & Hl) Hn]. exists a, l. rewrite lookup_delete_ne; [done|]. intros <-. rewrite Ei in El. by injection El as ->.
      * intros (a & l & [Hne El]%lookup_delete_Some & Hl). split; [eauto|]. intros Hin. by destruct Hne; apply (H1 i a local l h).
Qed.

(** However the requests interleave, a transaction is handled by at most one of them at a
    time, and the shared set holds exactly the transactions some request still handles:
    none leaks when a request ends. *)
Theorem handled_by_one_request s :
  rtc tracker_step (mk_trackers ∅ ∅) s ->
  (forall i j li lj h, in_progress s !! i = Some li -> in_progress s !! j = Some lj -> h ∈ li -> h ∈ lj -> i = j) /\
  (forall h, h ∈ shared s <-> exists i l, in_progress s !! i = Some l /\ h ∈ l).
Proof.
  intros Hr. change (trackers_ok s). assert (trackers_ok (mk_trackers ∅ ∅)) as H0.
  { split; cbn; [intros i j li lj h Ei; by rewrite lookup_empty in Ei|]. intros h. split; [by intros ?%elem_of_empty|].
    intros (i & l & Ei & _). by rewrite lookup_empty in Ei. }
  induction Hr as [|s1 s2 s3 Hs _ IH]; [done|]. by apply IH, (tracker_step_ok s1).
Qed.

(** ** A concrete request *)
Module TestIncoming.
Import Transparent TestHelpers TestStore TestVerify TestManager.

Definition blake3 (b : bytes) : bytes := b.

(** The second block is the top of the chain. *)
Definition ctx : BlockRules.ContextToVerifyBlock := BlockRules.mk_context 300000 300000 (repeat 51 32) None 2 V1 0 0.
Definition context : Context.BlockchainContext := Context.mk_blockchain_context 0 ctx 300000 None.
Definition request : IncomingTxs (PeerId := Z) := mk_incoming_txs [ [] ] (TxStem 7) false false.
Definition spent : TransactionVerificationData (O := oxide) :=
  mk_tvd (O := oxide) TestStore.spend_tx RingSignatures [] 0 6 (repeat 78 32) (ValidAtHashAndHF (repeat 51 32) V1).
End TestIncoming.
Import Transparent TestHelpers TestStore TestVerify TestManager TestIncoming.

Lemma relay_rules_iff_witness : check_tx_relay_rules TestIncoming.spent TestIncoming.ctx = Ok ().
Proof.
  apply (relay_rules_iff TestIncoming.spent TestIncoming.ctx).
  - unfold is_u. cbn. lia.
  - cbn. lia.
  - cbn. lia.
  - vm_compute. discriminate.
  - split; [reflexivity|]. split; [cbn; unfold len; cbn; lia|]. vm_compute. discriminate.
Defined.

Lemma incoming_txs_sound_witness :
  (TestIncoming.spent, TxStem 7) ∈
    h_sent (handle_incoming_txs TestIncoming.blake3 TestVerify.rng 100 TestIncoming.context (TestStore.db 2) empty_pool ∅ TestIncoming.request) /\
  event_ok TestIncoming.blake3 empty_pool (IncomingTransaction TestIncoming.spent (TxStem 7)).
Proof.
  assert ((TestIncoming.spent, TxStem 7) ∈
    h_sent (handle_incoming_txs TestIncoming.blake3 TestVerify.rng 100 TestIncoming.context (TestStore.db 2) empty_pool ∅ TestIncoming.request)) as Hin
    by (vm_compute; left).
  split; [exact Hin|].
  destruct (incoming_txs_sound TestIncoming.blake3 TestVerify.rng 100 100 TestIncoming.context [TestStore.genesis; TestStore.second] (TestStore.db 2) ∅ empty_pool ∅ TestIncoming.request) as [_ H].
  - exact (valid_chain_prefix [TestStore.genesis; TestStore.second] [TestStore.third] TestStore.valid).
  - apply (TestStore.db_stores 2).
  - apply (bool_decide_unpack _). vm_compute. exact I.
  - apply pool_holds_empty.
  - intros b tx ->%list_elem_of_singleton [= <-]. split.
    + split; [split; repeat constructor; done|apply Forall_singleton; by eexists|reflexivity|exact I|reflexivity].
    + repeat constructor; cbn; done || lia.
  - vm_compute. discriminate.
  - reflexivity.
  - unfold is_u. lia.
  - destruct (H TestIncoming.spent (TxStem 7) Hin) as [_ Ht]. apply (ti_pool _ _ _ _ _ _ _ _ _ _ Ht). intros h b tx' Hb. cbn in Hb. rewrite lookup_empty in Hb. discriminate.
Defined.

(** Two requests: the second one does not get the transaction the first one handles. *)
Lemma handled_by_one_request_witness :
  rtc tracker_step (mk_trackers ∅ ∅) (mk_trackers {[ [5] ]} {[ 0%nat := [ [5] ]; 1%nat := [] ]}) /\
  exists i l, ({[ 0%nat := [ [5] ]; 1%nat := [] ]} : gmap nat (list bytes)) !! i = Some l /\ [5] ∈ l.
Proof.
  assert (rtc tracker_step (mk_trackers ∅ ∅) (mk_trackers {[ [5] ]} {[ 0%nat := [ [5] ]; 1%nat := [] ]})) as Hr.
  { eapply rtc_l; [apply (step_local_tracker (mk_trackers ∅ ∅) 1%nat); reflexivity|].
    eapply rtc_l; [apply (step_local_tracker _ 0%nat); reflexivity|].
    eapply rtc_l; [apply (step_try_add _ 0%nat [] [5] true {[ [5] ]} [ [5] ]); reflexivity|].
    eapply rtc_l; [apply (step_try_add _ 1%nat [] [5] false {[ [5] ]} []); reflexivity|]. vm_compute. apply rtc_refl. }
  split; [exact Hr|]. apply (handled_by_one_request _ Hr). cbn. by apply elem_of_singleton.
Defined.
End IncomingTxFacts.
