(* ===== verification/DandelionFacts.v ===== *)
(** * What Dandelion++ promises ([Dandelion])

    The router: where each transaction goes, that the transactions of one source keep to
    one stem during an epoch, and how many peers are used. The pool manager: a transaction
    in the stem has a timer until it is public or gone, and when the timer fires it is made
    public and diffused. *)
From S2P Require Import Prelude Bytes ChainDb RulesBase TxData TxContext Helpers DbTables TxOps TxVerification TxPool TxPoolFacts TxPoolManager Dandelion.
From Stdlib Require Import ZArith Lia.
From stdpp Require Import base tactics option list numbers sets gmap relations.
Import TxData TxContext Helpers TxOps TxVerification TxPoolManager TxPoolFacts Dandelion.

#[local] Open Scope Z_scope.

Module DandelionFacts.

(** ** The router *)
Section router.
Context {Id Svc : Type} `{Countable Id}.
Context (choose : nat -> list Id -> option Id).
Context (choose_ok : forall n l, l <> [] -> exists x, choose n l = Some x /\ x ∈ l).
Implicit Types (r : DandelionRouter Id Svc) (peers : gmap Id Svc).

Lemma stem_ids_elem r id : id ∈ stem_ids r <-> is_Some (stem_peers r !! id).
Proof using Type.
  unfold stem_ids. rewrite list_elem_of_fmap. split.
  - intros ([id' s] & -> & Hs%elem_of_map_to_list). by exists s.
  - intros [s Hs]. exists (id, s). by rewrite elem_of_map_to_list.
Qed.

Lemma find_route_spec {E} n r route :
  stem_peers r <> ∅ ->
  exists id, find_route (E := E) choose 2 n r route = Ok id /\ is_Some (stem_peers r !! id) /\
    forall id', route = Some id' -> is_Some (stem_peers r !! id') -> id = id'.
Proof using choose_ok.
  intros Hne.
  assert (Hpick : forall m, exists x, choose m (stem_ids r) = Some x /\ is_Some (stem_peers r !! x)).
  { intros m. destruct (choose_ok m (stem_ids r)) as (x & Hx & Hin).
    - intros Hnil. apply Hne, map_to_list_empty_iff. unfold stem_ids in Hnil. by destruct (map_to_list _).
    - exists x. split; [done|]. by apply stem_ids_elem. }
  cbn [find_route]. destruct route as [id|].
  - cbn [mbind result_bind]. case_bool_decide as Hid; [exists id; split_and!; naive_solver|].
    destruct (Hpick (S n)) as (x & -> & Hx). cbn [unwrap mbind result_bind]. rewrite bool_decide_eq_true_2 by done.
    exists x. split_and!; [done..|]. naive_solver.
  - destruct (Hpick n) as (x & -> & Hx). cbn [unwrap mbind result_bind]. rewrite bool_decide_eq_true_2 by done.
    exists x. split_and!; [done..|]. naive_solver.
Qed.

(** Where a transaction goes. *)
Definition routed_as (tx : bytes) (state : TxState Id) r (a : Action Id) r' : Prop :=
  stem_peers r' = stem_peers r /\ current_state r' = current_state r /\ epoch_start r' = epoch_start r /\ config r' = config r /\
  match state with
  | TxFluff => a = Diffuse tx /\ r' = r
  | TxStem from =>
      if decide (current_state r = Fluff \/ stem_peers r = ∅) then a = Diffuse tx /\ r' = r
      else exists id, a = StemTo id tx /\ is_Some (stem_peers r !! id) /\ stem_routes r' = <[from := id]> (stem_routes r) /\ local_route r' = local_route r /\
        (forall id', stem_routes r !! from = Some id' -> is_Some (stem_peers r !! id') -> id = id')
  | TxLocal =>
      if decide (stem_peers r = ∅) then a = Diffuse tx /\ r' = r
      else exists id, a = StemTo id tx /\ is_Some (stem_peers r !! id) /\ stem_routes r' = stem_routes r /\ local_route r' = Some id /\
        (forall id', local_route r = Some id' -> is_Some (stem_peers r !! id') -> id = id')
  end.

Lemma call_routes {E} tx state r :
  exists a r', call (E := E) choose tx state r = Ok (a, r') /\ routed_as tx state r a r'.
Proof using choose_ok.
  destruct state as [|from|]; cbn [call].
  - exists (Diffuse tx), r. by split_and!.
  - destruct (current_state r) eqn:Hs; [exists (Diffuse tx), r; split; [done|]; unfold routed_as; rewrite decide_True by (by left); done|].
    unfold stem_tx. case_bool_decide as He; [exists (Diffuse tx), r; split; [done|]; unfold routed_as; rewrite decide_True by (by right); done|].
    destruct (find_route_spec (E := E) 0 r (stem_routes r !! from) He) as (id & -> & Hid & Hsame). cbn [mbind result_bind].
    eexists _, _. split; [done|]. unfold routed_as. rewrite decide_False by (intros [?|?]; [congruence|done]). split_and!; try done. by exists id.
  - unfold stem_local_tx. case_bool_decide as He; [exists (Diffuse tx), r; split; [done|]; unfold routed_as; rewrite decide_True by done; done|].
    destruct (find_route_spec (E := E) 0 r (local_route r) He) as (id & -> & Hid & Hsame). cbn [mbind result_bind].
    eexists _, _. split; [done|]. unfold routed_as. rewrite decide_False by done. split_and!; try done. by exists id.
Qed.

(** Every transaction is diffused or goes to one peer that is in use, never panicking: a
    transaction that is to be fluffed, and a stem transaction in a fluff epoch, is
    diffused; other stem transactions, and our own in any epoch, go to one peer while there
    is one. *)
Theorem routing_decision {E} tx state r :
  exists a r', call (E := E) choose tx state r = Ok (a, r') /\ routed_as tx state r a r'.
Proof using choose_ok. apply call_routes. Qed.

(** A poll. *)
Definition discovered_ready (stream : list (Discovered Id Svc)) (id : Id) : Prop := exists svc, DiscoverPeer id svc (Ready true) ∈ stream.

Lemma prepare_graph_spec needed stream peers :
  (size peers <= needed)%nat ->
  let '(res, peers') := prepare_graph needed stream peers in
  (size peers' <= needed)%nat /\
  (forall u, res = Ready (Ok u) ->
     (size peers' = needed \/ DiscoverExhausted ∈ stream) /\ forall id, is_Some (peers' !! id) -> is_Some (peers !! id) \/ discovered_ready stream id).
Proof using Type.
  clear choose_ok choose. revert peers. induction stream as [|d stream IH]; intros peers Hsz; cbn [prepare_graph].
  - destruct (needed <=? size peers)%nat eqn:E; [apply Nat.leb_le in E|]; (split; [done|]); intros u Hu; [|done]. split; [left; lia|by left].
  - destruct (needed <=? size peers)%nat eqn:E; [apply Nat.leb_le in E; split; [done|]; intros u Hu; split; [left; lia|by left]|].
    apply Nat.leb_gt in E. destruct d as [| | |key svc ready|]; try (split; [done|]; intros u Hu; done).
    + assert (Hins : (size (<[key := svc]> peers) <= needed)%nat).
      { destruct (peers !! key) eqn:Ek; [rewrite (map_size_insert_Some (M := gmap Id)) by done; lia|rewrite (map_size_insert_None (M := gmap Id)) by done; lia]. }
      destruct ready as [|ok]; [split; [done|]; intros u Hu; done|].
      specialize (IH (if ok then <[key := svc]> peers else delete key (<[key := svc]> peers))).
      destruct (prepare_graph needed stream _) as [res peers']. destruct IH as [Hsz' Hok].
      { destruct ok; [done|]. rewrite delete_insert_eq. etrans; [apply map_subseteq_size, delete_subseteq|done]. }
      split; [done|]. intros u Hu. destruct (Hok u Hu) as [Hn Hids]. split; [destruct Hn; [by left|right; set_solver]|].
      intros id Hid. destruct (Hids id Hid) as [Hold|[svc' Hin]]; [|right; exists svc'; set_solver].
      destruct ok.
      * rewrite lookup_insert_is_Some in Hold. destruct Hold as [<-|[_ Hold]]; [right; exists svc; set_solver|by left].
      * rewrite delete_insert_eq in Hold. left. destruct Hold as [s Hs]. apply lookup_delete_Some in Hs as [_ Hs]. by eexists.
    + split; [done|]. intros u Hu. split; [right; set_solver|by left].
Qed.

(** The number of peers the state of the epoch calls for is never exceeded. *)
Definition router_inv r : Prop := (size (stem_peers r) <= peers_needed r)%nat.

Lemma retain_ready_spec (env : RouterEnv Id Svc) peers id :
  is_Some (retain_ready env peers !! id) <-> is_Some (peers !! id) /\ peer_ready env id <> Ready false.
Proof using Type.
  unfold retain_ready. split.
  - intros [s Hs]. apply map_lookup_filter_Some in Hs as [Hs Hr]. split; [by eexists|]. cbn in Hr. by intros Hf; rewrite Hf in Hr.
  - intros [[s Hs] Hr]. exists s. apply map_lookup_filter_Some. split; [done|]. cbn. by destruct (peer_ready env id) as [|[]].
Qed.

Lemma peers_pending_false (env : RouterEnv Id Svc) peers id :
  peers_pending env peers = false -> is_Some (peers !! id) -> peer_ready env id <> Pending.
Proof using Type.
  intros Hp [s Hs] Hr. apply not_true_iff_false in Hp. apply Hp. apply existsb_exists. exists (id, s).
  split; [by apply list_elem_of_In, elem_of_map_to_list|]. cbn. by rewrite Hr.
Qed.

Lemma retain_ready_size (env : RouterEnv Id Svc) peers : (size (retain_ready env peers) <= size peers)%nat.
Proof using Type. unfold retain_ready. apply map_subseteq_size, map_filter_subseteq. Qed.

Lemma new_epoch_inv (env : RouterEnv Id Svc) r : router_inv r -> router_inv (new_epoch env r).
Proof using Type. unfold new_epoch, router_inv. destruct (_ <? _); [|done]. cbn. rewrite map_size_empty. lia. Qed.

(** What a poll of the router leaves, in particular once it is ready: all peers in use have
    just been found ready, and they are as many as called for unless no more are known. *)
Definition router_polled (env : RouterEnv Id Svc) r (res : poll (result DandelionRouterError ())) r' : Prop :=
  router_inv r' /\ current_state r' = current_state (new_epoch env r) /\ stem_routes r' = stem_routes (new_epoch env r) /\
  local_route r' = local_route (new_epoch env r) /\
  (forall u, res = Ready (Ok u) ->
     (size (stem_peers r') = peers_needed r' \/ DiscoverExhausted ∈ peer_stream env) /\
     (forall id, is_Some (stem_peers r' !! id) ->
        is_Some (stem_peers (new_epoch env r) !! id) /\ peer_ready env id = Ready true \/ discovered_ready (peer_stream env) id)).

Lemma poll_ready_polled (env : RouterEnv Id Svc) r :
  router_inv r -> let '(res, r') := poll_ready env r in router_polled env r res r'.
Proof using Type.
  intros Hinv%(new_epoch_inv env). unfold poll_ready. set (r1 := new_epoch env r) in *.
  set (kept := retain_ready env (stem_peers r1)).
  assert (Hsz : (size kept <= peers_needed r1)%nat) by (etrans; [apply retain_ready_size|exact Hinv]).
  cbn [stem_peers set_stem_peers]. destruct (peers_pending env kept) eqn:Hp; [split_and!; done|].
  pose proof (prepare_graph_spec (peers_needed r1) (peer_stream env) kept Hsz) as Hg.
  change (peers_needed (set_stem_peers kept r1)) with (peers_needed r1).
  destruct (prepare_graph (peers_needed r1) (peer_stream env) kept) as [res peers]. destruct Hg as [Hsz' Hok].
  assert (Hall : forall u, res = Ready (Ok u) -> (size peers = peers_needed r1 \/ DiscoverExhausted ∈ peer_stream env) /\
    (forall id, is_Some (peers !! id) -> is_Some (stem_peers r1 !! id) /\ peer_ready env id = Ready true \/ discovered_ready (peer_stream env) id)).
  { intros u Hu. destruct (Hok u Hu) as [Hn Hids]. split; [done|]. intros id Hid. destruct (Hids id Hid) as [Hk|]; [left|by right].
    pose proof (peers_pending_false env kept id Hp Hk). apply retain_ready_spec in Hk as [? ?]. split; [done|].
    destruct (peer_ready env id) as [|[]]; done. }
  destruct res as [|[u| |]]; [..|]; try (split_and!; try done).
  destruct (broadcast_ready env) as [|[]]; split_and!; try done. intros u' _. by apply (Hall u).
Qed.

(** A poll of the router. *)
Theorem router_poll_spec (env : RouterEnv Id Svc) r :
  router_inv r -> let '(res, r') := poll_ready env r in router_polled env r res r'.
Proof using Type. apply poll_ready_polled. Qed.

(** Polls that start no new epoch, and calls, after which [id] is still in use. *)
Inductive epoch_step (id : Id) : relation (DandelionRouter Id Svc) :=
  | epoch_poll (env : RouterEnv Id Svc) r res r' :
      new_epoch env r = r -> router_inv r -> poll_ready env r = (res, r') -> is_Some (stem_peers r' !! id) -> epoch_step id r r'
  | epoch_call tx state r a r' : call (E := ()) choose tx state r = Ok (a, r') -> is_Some (stem_peers r !! id) -> epoch_step id r r'.

Lemma epoch_step_route id from r r' :
  epoch_step id r r' -> stem_routes r !! from = Some id ->
  stem_routes r' !! from = Some id /\ current_state r' = current_state r /\ is_Some (stem_peers r' !! id).
Proof using choose_ok.
  intros [env r0 res r1 He Hi Hp Hid|tx state r0 a r1 Hc Hid] Hr.
  - pose proof (poll_ready_polled env r0 Hi) as Hs. rewrite Hp in Hs. destruct Hs as (_ & Hst & Hro & _). rewrite He in *.
    rewrite Hro, Hst. done.
  - destruct (call_routes (E := ()) tx state r0) as (a' & r1' & Hc' & Hp & Hs & _ & _ & Ha). rewrite Hc in Hc'. injection Hc' as <- <-.
    rewrite Hp, Hs. split_and!; [|done..]. destruct state as [|from'|].
    + by destruct Ha as [_ ->].
    + destruct (decide _); [by destruct Ha as [_ ->]|]. destruct Ha as (id' & _ & _ & -> & _ & Hsame).
      destruct (decide (from' = from)) as [->|Hne]; [rewrite lookup_insert_eq; f_equal; by apply Hsame|by rewrite lookup_insert_ne].
    + destruct (decide _); [by destruct Ha as [_ ->]|]. by destruct Ha as (id' & _ & _ & -> & _).
Qed.

(** C40. During an epoch the transactions of one source all go to the same peer, as long as that
    peer is in use. *)
Theorem same_source_same_stem tx1 tx2 from id r r1 r2 :
  call (E := ()) choose tx1 (TxStem from) r = Ok (StemTo id tx1, r1) -> rtc (epoch_step id) r1 r2 ->
  exists r3, call (E := ()) choose tx2 (TxStem from) r2 = Ok (StemTo id tx2, r3).
Proof using choose_ok.
  intros Hc Hsteps.
  assert (Hr1 : stem_routes r1 !! from = Some id /\ current_state r1 = Stem /\ is_Some (stem_peers r1 !! id)).
  { destruct (call_routes (E := ()) tx1 (TxStem from) r) as (a & r' & Hc' & Hp & Hs & _ & _ & Ha). rewrite Hc in Hc'. injection Hc' as <- <-.
    destruct (decide _) as [|Hno] in Ha; [by destruct Ha|]. destruct Ha as (id' & [= <-] & Hid & -> & _ & _).
    rewrite lookup_insert_eq, Hp, Hs. split_and!; [done| |done]. destruct (current_state r); [|done]. destruct Hno. by left. }
  assert (Hr2 : stem_routes r2 !! from = Some id /\ current_state r2 = Stem /\ is_Some (stem_peers r2 !! id)).
  { clear Hc. induction Hsteps as [|r1 r1' r2 Hst _ IH]; [done|]. apply IH. destruct Hr1 as (Hro & Hcs & Hid).
    destruct (epoch_step_route id from r1 r1' Hst Hro) as (? & ? & ?). split_and!; [done|congruence|done]. }
  destruct Hr2 as (Hro & Hcs & Hid). destruct (call_routes (E := ()) tx2 (TxStem from) r2) as (a & r3 & -> & _ & _ & _ & _ & Ha).
  rewrite decide_False in Ha. 2: { intros [?|He]; [congruence|]. rewrite He, lookup_empty in Hid. by destruct Hid. }
  destruct Ha as (id' & -> & _ & _ & _ & Hsame). rewrite (Hsame id Hro Hid). by exists r3.
Qed.
End router.

(** ** The pool manager *)
Section pool.
Context {PeerId : Type} `{Countable PeerId}.
Implicit Types (p : DandelionPoolManager PeerId) (env : PoolEnv) (id : bytes).

(** An embargo that has not ended: the last entry on the transaction is its timer. *)
Definition on_embargo (id : bytes) (e : Effect PeerId) : option bool :=
  match e with
  | Embargoed id' => if decide (id' = id) then Some true else None
  | Promoted id' | NotInPool id' | AlreadyPublic id' => if decide (id' = id) then Some false else None
  | Routed _ _ _ => None
  end.
Definition embargoed (log : list (Effect PeerId)) (id : bytes) : bool := default false (last (omap (on_embargo id) log)).

Lemma embargoed_snoc log e id : embargoed (log ++ [e]) id = default (embargoed log id) (on_embargo id e).
Proof using Type.
  unfold embargoed. rewrite omap_app. cbn. destruct (on_embargo id e); [by rewrite last_snoc|by rewrite app_nil_r].
Qed.

(** Every embargo has its timer, but for that of [off]; the keys noted are of timers of
    their transaction, or of none. *)
Record pool_inv (off : option bytes) p : Prop := {
  inv_keys id k id' : embargo_timer_keys p !! id = Some k -> embargo_timers p !! k = Some id' -> id' = id;
  inv_embargo id : off <> Some id -> embargoed (log p) id = true -> exists k, embargo_timers p !! k = Some id;
}.

Lemma weaken_inv off p : pool_inv None p -> pool_inv off p.
Proof using Type. intros [Hk He]. split; auto. Qed.

(** An entry that ends the embargo of [id], or that ends none *)
Lemma note_end_inv p e id : on_embargo id e = Some false -> (forall id', on_embargo id' e <> Some true) -> pool_inv (Some id) p -> pool_inv None (note e p).
Proof using Type.
  intros He Hno [Hk Hem]. split; cbn; auto. intros id' _. rewrite embargoed_snoc. specialize (Hno id').
  destruct (decide (id = id')) as [<-|Hne]; [by rewrite He|]. destruct (on_embargo id' e) as [[]|]; cbn; try done. apply Hem. congruence.
Qed.

Lemma route_inv env tx id st p p' : pool_inv None p -> route env tx id st p = Some p' -> pool_inv None p'.
Proof using Type.
  intros [Hk He]. unfold route. destruct (router_ready env); [|done]. intros [= <-]. split; cbn; auto.
  intros id' Hid. rewrite embargoed_snoc. cbn. auto.
Qed.

Lemma pool_stem_inv env tx id from p p' : pool_inv None p -> pool_stem_tx env tx id from p = Some p' -> pool_inv None p'.
Proof using Type. intros Hi. unfold pool_stem_tx. destruct from; apply route_inv; [by destruct Hi|done]. Qed.

Lemma promote_inv env id p p' : pool_inv (Some id) p -> promote_tx env id p = Some p' -> pool_inv None p'.
Proof using Type.
  intros [Hk He]. unfold promote_tx. destruct (promote_ok env); [|done]. intros [= <-].
  assert (Hsub : forall k id', match embargo_timer_keys p !! id with Some key => delete key (embargo_timers p) | None => embargo_timers p end !! k = Some id' ->
    embargo_timers p !! k = Some id').
  { intros k id'. destruct (embargo_timer_keys p !! id); [|done]. by intros [_ ?]%lookup_delete_Some. }
  eapply (note_end_inv _ (Promoted id) id); [cbn; by rewrite decide_True|intros id'; cbn; by destruct (decide _)|]. split; cbn.
  - intros id' k id'' [_ Hk']%lookup_delete_Some Hs%Hsub. eauto.
  - intros id' Hne Hem. destruct (He id' Hne Hem) as (k & Hk'). exists k.
    destruct (embargo_timer_keys p !! id) as [key|] eqn:Ekey; [|done]. rewrite lookup_delete_ne; [done|]. intros ->. destruct Hne. f_equal. symmetry. eauto.
Qed.

Lemma promote_and_fluff_inv env id p p' : pool_inv (Some id) p -> promote_and_fluff_tx env id p = Some p' -> pool_inv None p'.
Proof using Type.
  intros Hi. unfold promote_and_fluff_tx.
  assert (Hend : forall e, e = NotInPool id \/ e = AlreadyPublic id -> pool_inv None (note e p)).
  { intros e [-> | ->]; (apply (note_end_inv p _ id); [cbn; by rewrite decide_True|intros id'; cbn; by destruct (decide _)|done]). }
  destruct (get env id) as [[[tx []]|]| |]; [..|done|done].
  - intros [= <-]. auto.
  - destruct (promote_tx env id p) as [p1|] eqn:E; [|done]. cbn. apply route_inv. by eapply promote_inv.
  - intros [= <-]. auto.
Qed.

(** What the delay queue promises of the key of a new timer: it is not that of a timer in
    the queue. A key can be given out again when its timer has fired or was removed. *)
Definition key_free (ev : PoolEvent PeerId) p : Prop :=
  match ev with NewTx key _ _ _ => embargo_timers p !! key = None | _ => True end.

(** The manager does not remember the key for another transaction. It does so for one that
    had left the pool, or was public, when its timer fired. *)
Definition key_forgotten (ev : PoolEvent PeerId) p : Prop :=
  match ev with NewTx key _ _ id => forall id', embargo_timer_keys p !! id' = Some key -> id' = id | _ => True end.

Lemma add_timer_inv key id p :
  pool_inv None p -> embargo_timers p !! key = None -> (forall id', embargo_timer_keys p !! id' = Some key -> id' = id) ->
  pool_inv None (add_embargo_timer_for_tx key id p).
Proof using Type.
  intros [Hk He] Hfree Hkey. split; cbn.
  - intros id' k id''. rewrite lookup_insert_Some. intros [[<- <-]|[Hne Hk']].
    + rewrite lookup_insert_eq. by intros [= <-].
    + rewrite lookup_insert_ne; [eauto|]. intros ->. destruct Hne. symmetry. auto.
  - intros id' Hn. rewrite embargoed_snoc. cbn. destruct (decide (id = id')) as [<-|Hne].
    + intros _. exists key. apply lookup_insert_eq.
    + cbn. intros (k & Hk')%He; [|done]. exists k. rewrite lookup_insert_ne; [done|]. intros ->. congruence.
Qed.

Lemma pool_stem_timers env tx id from p p' :
  pool_stem_tx env tx id from p = Some p' -> embargo_timers p' = embargo_timers p /\ embargo_timer_keys p' = embargo_timer_keys p.
Proof using Type. unfold pool_stem_tx, route. destruct (router_ready env); [|done]. intros [= <-]. by destruct from. Qed.

(** The timer that fires is taken out of the queue. *)
Lemma fired_inv key id p :
  pool_inv None p -> embargo_timers p !! key = Some id ->
  pool_inv (Some id) (mk_pool (routing_set p) (stem_origins p) (delete key (embargo_timers p)) (embargo_timer_keys p) (log p)).
Proof using Type.
  intros [Hk He] Hkey. split; cbn.
  - intros id' k id'' Hk' [_ ?]%lookup_delete_Some. eauto.
  - intros id' Hne (k & Hk')%He; [|done]. exists k. rewrite lookup_delete_ne; [done|]. intros ->. congruence.
Qed.

Lemma run_pool_inv env ev p p' :
  pool_inv None p -> key_free ev p -> key_forgotten ev p -> run_pool env ev p = Some p' -> pool_inv None p'.
Proof using Type.
  intros Hi Hfree Hkey Hrun. destruct ev as [key|n res|key tx st id]; cbn in Hrun, Hfree, Hkey |- *.
  - destruct (embargo_timers p !! key) as [id|] eqn:Hk; [|by injection Hrun as <-].
    eapply promote_and_fluff_inv; [by apply fired_inv|done].
  - destruct (routing_set p !! n) as [[id st]|]; [|by injection Hrun as <-].
    set (p1 := mk_pool (delete n (routing_set p)) (stem_origins p) (embargo_timers p) (embargo_timer_keys p) (log p)) in *.
    assert (Hi1 : pool_inv None p1) by by destruct Hi.
    assert (Hretry : match get env id with
      | Ok (Some (tx, _)) => match st with TxFluff => pool_fluff_tx env tx id p1 | TxStem from => pool_stem_tx env tx id (Some from) p1 | TxLocal => pool_stem_tx env tx id None p1 end
      | Ok None => Some p1 | _ => None end = Some p' -> pool_inv None p').
    { destruct (get env id) as [[[tx s]|]| |]; [|by intros [= <-]|done|done]. destruct st; [by apply route_inv|by apply pool_stem_inv..]. }
    destruct res as [[]| |]; auto; [|by injection Hrun as <-]. eapply promote_inv; [by apply (weaken_inv (Some id) p1)|done].
  - unfold handle_incoming_tx in Hrun.
    assert (forall from p1, pool_stem_tx env tx id from p = Some p1 -> pool_inv None (add_embargo_timer_for_tx key id p1)) as Hadd.
    { intros from p1 E. destruct (pool_stem_timers _ _ _ _ _ _ E) as [E1 E2]. apply add_timer_inv; [by eapply pool_stem_inv|by rewrite E1|by rewrite E2]. }
    destruct st as [|from|]; [..|].
    + by eapply route_inv.
    + case_bool_decide.
      * eapply promote_and_fluff_inv; [|done]. by apply (weaken_inv (Some id) p).
      * destruct (pool_stem_tx env tx id (Some from) p) as [p1|] eqn:E; [|done]. injection Hrun as <-. eauto.
    + destruct (pool_stem_tx env tx id None p) as [p1|] eqn:E; [|done]. injection Hrun as <-. eauto.
Qed.

(** The states of the manager, under any answers of the pool and the router, as long as no
    new timer is given a key that is remembered for another transaction. *)
Inductive pool_reached : DandelionPoolManager PeerId -> Prop :=
  | pool_start : pool_reached new_pool
  | pool_step p env ev p' : pool_reached p -> key_free ev p -> key_forgotten ev p -> run_pool env ev p = Some p' -> pool_reached p'.

Lemma pool_reached_inv p : pool_reached p -> pool_inv None p.
Proof using Type. induction 1; [by split; cbn|by eapply run_pool_inv]. Qed.

(** What happens to a transaction that comes in, by where it comes from. *)
Definition incoming_routed env (key : Z) (tx : bytes) (st : TxState PeerId) id p p' : Prop :=
  match st with
  | TxFluff => log p' = log p ++ [Routed tx id TxFluff] /\ embargo_timers p' = embargo_timers p
  | TxLocal => log p' = log p ++ [Routed tx id TxLocal; Embargoed id] /\ embargo_timers p' = <[key := id]> (embargo_timers p)
  | TxStem from =>
      if decide (from ∈ default ∅ (stem_origins p !! id)) then
        exists r, get env id = Ok r /\
          match r with
          | Some (tx', Stem) => log p' = log p ++ [Promoted id; Routed tx' id TxFluff]
          | Some (_, Fluff) => log p' = log p ++ [AlreadyPublic id]
          | None => log p' = log p ++ [NotInPool id]
          end
      else
        log p' = log p ++ [Routed tx id (TxStem from); Embargoed id] /\ embargo_timers p' = <[key := id]> (embargo_timers p) /\
        from ∈ default ∅ (stem_origins p' !! id)
  end.

Lemma route_log env tx id st p p' : route env tx id st p = Some p' ->
  log p' = log p ++ [Routed tx id st] /\ embargo_timers p' = embargo_timers p /\ stem_origins p' = stem_origins p.
Proof using Type. unfold route. destruct (router_ready env); [|done]. by intros [= <-]. Qed.

Lemma promote_and_fluff_log env id p p' : promote_and_fluff_tx env id p = Some p' ->
  exists r, get env id = Ok r /\
    match r with
    | Some (tx', Stem) => log p' = log p ++ [Promoted id; Routed tx' id TxFluff]
    | Some (_, Fluff) => log p' = log p ++ [AlreadyPublic id]
    | None => log p' = log p ++ [NotInPool id]
    end.
Proof using Type.
  unfold promote_and_fluff_tx. destruct (get env id) as [[[tx []]|]| |]; [..|done|done].
  - intros [= <-]. by eexists.
  - unfold promote_tx. destruct (promote_ok env); [|done]. cbn. intros (Hl & _ & _)%route_log. eexists. split; [done|]. cbn in *. by rewrite Hl, <- app_assoc.
  - intros [= <-]. by eexists.
Qed.

(** A transaction that comes in is diffused, or sent along the stem under an embargo; if
    the same peer sends a stem transaction twice it is made public. *)
Theorem incoming_tx_routing env key tx st id p p' :
  run_pool env (NewTx key tx st id) p = Some p' -> incoming_routed env key tx st id p p'.
Proof using Type.
  cbn. unfold handle_incoming_tx, incoming_routed. destruct st as [|from|].
  - by intros (? & ? & _)%route_log.
  - destruct (decide _) as [Hin|Hin]; [rewrite bool_decide_eq_true_2 by done; apply promote_and_fluff_log|].
    rewrite bool_decide_eq_false_2 by done. destruct (pool_stem_tx env tx id (Some from) p) as [p1|] eqn:E; [|done]. intros [= <-].
    apply route_log in E as (Hl & Ht & Ho). cbn in *. rewrite Hl, Ht, Ho, <- app_assoc, lookup_insert_eq. split_and!; [done..|]. cbn. set_solver.
  - destruct (pool_stem_tx env tx id None p) as [p1|] eqn:E; [|done]. intros [= <-].
    apply route_log in E as (Hl & Ht & Ho). cbn in *. by rewrite Hl, Ht, <- app_assoc.
Qed.

(** C17. The delay queue may give a new timer the key of one that has fired or was removed. As
    long as it does not give out a key that the manager still remembers for another
    transaction (it forgets keys when it promotes, but keeps those of transactions that had
    left the pool or were public when their timer fired, see [reused_key_ends_embargo]), a
    transaction put under an embargo has a timer until it has been promoted, or found not
    to be in the pool or to be public; and when the timer fires with the transaction in the
    stem pool, it is promoted and given to the router to be diffused. *)
Theorem embargo_makes_public {O : MoneroOxide} {T : TransactionOps O} {Cd : MoneroCodec O} (blake3 : bytes -> bytes)
    p (id : bytes) (P : gmap bytes PoolEntry) (t : TxPool.PoolTables) (e : PoolEntry) :
  pool_reached p -> embargoed (log p) id = true -> pool_holds blake3 P t -> P !! id = Some e -> pe_stem e = true ->
  exists key, embargo_timers p !! key = Some id /\
    exists p', run_pool (mk_pool_env true (store_get t) true) (EmbargoFired key) p = Some p' /\
      log p' = log p ++ [Promoted id; Routed (tvd_tx_blob (pe_tx e)) id TxFluff] /\ embargoed (log p') id = false.
Proof using Type.
  intros Hr Hem HP He Hst. destruct (inv_embargo _ _ (pool_reached_inv _ Hr) id ltac:(done) Hem) as (key & Hkey).
  exists key. split; [done|]. cbn [run_pool]. rewrite Hkey. unfold promote_and_fluff_tx. cbn [get].
  unfold store_get. rewrite (tx_blob_spec blake3 P t id HP), He, Hst. cbn. eexists. split; [done|]. cbn. rewrite <- app_assoc. split; [done|].
  change [Promoted id; Routed (tvd_tx_blob (pe_tx e)) id TxFluff] with ([Promoted id] ++ [Routed (tvd_tx_blob (pe_tx e)) id TxFluff] : list (Effect PeerId)).
  rewrite app_assoc, !embargoed_snoc. cbn. by rewrite decide_True.
Qed.
End pool.

(** ** Runs *)
Module TestDandelion.
Import Transparent TestHelpers.
Import Transparent TestPool.

(** A router with two peers; the first listed is chosen. *)
Definition first (n : nat) (l : list Z) : option Z := head l.
Lemma first_ok : forall n l, l <> [] -> exists x, first n l = Some x /\ x ∈ l.
Proof. intros n [|x l] H; [done|]. exists x. split; [done|]. by left. Qed.

Definition router : DandelionRouter Z () := mk_router Stem 0 None ∅ {[ 1 := (); 2 := () ]} DANDELION_CONFIG.
Definition routed : DandelionRouter Z () := mk_router Stem 0 None {[ 7 := 2 ]} {[ 1 := (); 2 := () ]} DANDELION_CONFIG.
Definition env : RouterEnv Z () := mk_router_env 100 true (fun _ => Ready true) [] (Ready true).

(** A transaction in the stem pool. *)
Definition stem_request : request_ok blake3 ∅ (TxPool.AddTransaction (data [13]) true).
Proof. split; [by apply poolable_data|]. intros h e He. by rewrite lookup_empty in He. Qed.
Definition stem_pool : gmap bytes PoolEntry := <[ [13] := mk_pool_entry (data [13]) true 1000 ]> ∅.
Definition stem_tables : TxPool.PoolTables := (TxPool.handle_txpool_request blake3 1000 TxPool.empty_pool (TxPool.AddTransaction (data [13]) true)).2.
Lemma stem_pool_holds : pool_holds blake3 stem_pool stem_tables.
Proof.
  pose proof (add_transaction_spec blake3 ∅ TxPool.empty_pool 1000 (data [13]) true (pool_holds_empty blake3) stem_request) as H.
  unfold stem_tables. cbn [TxPool.handle_txpool_request].
  assert (exists t, TxPool.add_transaction blake3 1000 (data [13]) true TxPool.empty_pool = Ok t) as [t Ht] by (eexists; vm_compute; reflexivity).
  rewrite Ht in H |- *. apply H.
Qed.

Definition ready_env (get : bytes -> result () (option (bytes * State))) : PoolEnv := mk_pool_env true get true.
Definition stored : bytes -> result () (option (bytes * State)) := store_get stem_tables.
Definition stemmed : DandelionPoolManager Z :=
  default new_pool (run_pool (ready_env stored) (NewTx 1 [13] (TxStem 7) [13]) new_pool).
Lemma stemmed_reached : pool_reached stemmed.
Proof. apply (pool_step new_pool (ready_env stored) (NewTx 1 [13] (TxStem 7) [13])); [constructor|done|done|vm_compute; reflexivity]. Qed.
End TestDandelion.
Import Transparent TestHelpers TestPool TestDandelion.

Lemma routing_decision_witness : exists a r', call (E := ()) first [13] (TxStem 7) router = Ok (a, r') /\ routed_as [13] (TxStem 7) router a r'.
Proof. exact (routing_decision first first_ok [13] (TxStem 7) router). Defined.

Lemma router_poll_spec_witness : let '(res, r') := poll_ready env router in router_polled env router res r'.
Proof. apply (router_poll_spec env router). vm_compute. lia. Defined.

Lemma same_source_same_stem_witness : exists r3, call (E := ()) first [14] (TxStem 7) routed = Ok (StemTo 2 [14], r3).
Proof.
  apply (same_source_same_stem first first_ok [13] [14] 7 2 router routed routed); [vm_compute; reflexivity|].
  apply rtc_once. apply (epoch_poll first 2 env routed (Ready (Ok ())) routed); [vm_compute; reflexivity..|]. vm_compute. eauto.
Defined.

Lemma incoming_tx_routing_witness : incoming_routed (ready_env TestDandelion.stored) 1 [13] (TxStem 7) [13] new_pool TestDandelion.stemmed.
Proof. apply (incoming_tx_routing (ready_env TestDandelion.stored) 1 [13] (TxStem 7) [13] new_pool). vm_compute. reflexivity. Defined.

Lemma embargo_makes_public_witness :
  exists key, embargo_timers TestDandelion.stemmed !! key = Some [13] /\
    exists p', run_pool (mk_pool_env true TestDandelion.stored true) (EmbargoFired key) TestDandelion.stemmed = Some p' /\
      log p' = log TestDandelion.stemmed ++ [Promoted [13]; Routed [13] [13] TxFluff] /\ embargoed (log p') [13] = false.
Proof.
  apply (embargo_makes_public TestPool.blake3 TestDandelion.stemmed [13] TestDandelion.stem_pool TestDandelion.stem_tables
    (mk_pool_entry (TestPool.data [13]) true 1000) TestDandelion.stemmed_reached); [vm_compute; reflexivity|exact TestDandelion.stem_pool_holds|vm_compute; reflexivity..].
Defined.

(** A queue that gives the key of a timer that has fired to a new one: the first timer
    fires when its transaction has left the pool, its key stays noted, and the end of its
    routing then takes the timer of another transaction away. *)
Definition reused_key : DandelionPoolManager Z :=
  foldl (fun p ev => default p (run_pool (ready_env (fun _ => Ok None)) ev p)) new_pool
    [NewTx 1 [13] (TxStem 7) [13]; EmbargoFired 1; NewTx 1 [14] (TxStem 7) [14]; RoutingDone 0 (Ok Fluff)].
Theorem reused_key_ends_embargo : embargoed (log reused_key) [14] = true /\ embargo_timers reused_key = ∅.
Proof. split; vm_compute; reflexivity. Qed.

(** Of a transaction that is gone when its timer fires, origin and key are kept. *)
Definition gone_tx : DandelionPoolManager Z :=
  foldl (fun p ev => default p (run_pool (ready_env (fun _ => Ok None)) ev p)) new_pool
    [NewTx 1 [13] (TxStem 7) [13]; RoutingDone 0 (Ok Stem); EmbargoFired 1].
Theorem gone_tx_is_remembered :
  embargo_timers gone_tx = ∅ /\ routing_set gone_tx = [] /\ stem_origins gone_tx = {[ [13] := {[7]} ]} /\ embargo_timer_keys gone_tx = {[ [13] := 1 ]}.
Proof. split_and!; vm_compute; reflexivity. Qed.
End DandelionFacts.
