(* ===== verification/ChainTracker.v ===== *)
(** * The chain tracker ([src/p2p/p2p/src/block_downloader/chain_tracker.rs])

    Follows one chain for the block downloader: takes the block ids that peers say come
    next, has the chain service check them, and hands out batches of ids to download that
    a peer with a given pruning seed keeps. What the tracker needs of the service is the
    class [EntryValidator]; fast sync ([FastSync]) implements it. *)
From S2P Require Import Prelude Bytes Pruning ChainDb TxData BlockRules TxContext Helpers DbTables TxOps AltBlocks BlockOps ChainStore BlockchainService ChainReads FastSync.
From Stdlib Require Import ZArith Lia.
From stdpp Require Import base tactics option list numbers sets gmap.
Import Pruning TxData TxContext Helpers TxOps ChainStore BlockchainService FastSync.

#[local] Open Scope Z_scope.
#[local] Open Scope usize_scope.

Module ChainTracker.

(** Durations of bans in seconds ([src/p2p/p2p/src/constants.rs]). *)
Definition MEDIUM_BAN : Z := 60 * 60 * 24.
Definition LONG_BAN : Z := 60 * 60 * 24 * 7.

(** [handle.ban_peer(duration)] *)
Record Ban := mk_ban { ban_handle : Z; ban_duration : Z }.

Record BlocksToRetrieve := mk_blocks {
  b_ids : list bytes;
  prev_id : bytes;
  b_start_height : Z;
  peer_who_told_us : Z;
  peer_who_told_us_handle : Z;
  requests_sent : Z;
  failures : Z;
}.

Inductive ChainTrackerError :=
  | NewEntryIsInvalid
  | NewEntryIsEmpty
  | NewEntryDoesNotFollowChain
  | ChainSvcError (e : BoxError).

Record ChainTracker := mk_tracker {
  valid_entries : list ChainEntry;
  unknown_entries : list ChainEntry;
  first_height : Z;
  top_seen_hash : bytes;
  previous_hash : bytes;
  our_genesis : bytes;
}.

Section chain_tracker.
(** [ChainSvcRequest::ValidateEntries] *)
Context (validate : list ChainEntry -> Z -> result BoxError (list ChainEntry * list ChainEntry)).

Definition new (new_entry : ChainEntry) (first_height : Z) (our_genesis previous_hash : bytes) : result ChainTrackerError ChainTracker :=
  top_seen_hash ← unwrap (last (ids new_entry));
  '(valid, unknown) ← map_err ChainSvcError (validate [new_entry] first_height);
  Ok (mk_tracker valid unknown first_height top_seen_hash previous_hash our_genesis).

Definition ids_len (entries : list ChainEntry) : Z := usize_sum (map (fun e => len (ids e)) entries).

Definition top_height (c : ChainTracker) : Z := first_height c +! ids_len (valid_entries c ++ unknown_entries c).

Definition should_ask_for_next_chain_entry (c : ChainTracker) (seed : PruningSeed) : bool :=
  has_full_block seed (top_height c) MAX_BLOCK_HEIGHT_USIZE.

Definition get_simple_history (c : ChainTracker) : list bytes := [top_seen_hash c; our_genesis c].

Definition block_requests_queued (c : ChainTracker) (batch_size : Z) : result ChainTrackerError Z :=
  _ ← rassert (negb (batch_size =? 0) || bool_decide (valid_entries c = []));
  Ok (usize_sum (map (fun e => div_ceil (len (ids e)) batch_size) (valid_entries c))).

(** The bans are what the call sends to the peers' connections. *)
Definition add_entry (c : ChainTracker) (chain_entry : ChainEntry) : result ChainTrackerError () * ChainTracker * list Ban :=
  match ids chain_entry with
  | [_] => (Err NewEntryIsEmpty, c, [])
  | [] => (Err NewEntryIsInvalid, c, [mk_ban (handle chain_entry) MEDIUM_BAN])
  | first :: new_ids =>
      if negb (bool_decide (first = top_seen_hash c)) then (Err NewEntryDoesNotFollowChain, c, [])
      else
        let new_entry := mk_entry new_ids (peer chain_entry) (handle chain_entry) in
        let top := default (top_seen_hash c) (last new_ids) in
        match validate (unknown_entries c ++ [new_entry]) (first_height c +! ids_len (valid_entries c)) with
        | Ok (valid, unknown) =>
            (Ok (), mk_tracker (valid_entries c ++ valid) unknown (first_height c) top (previous_hash c) (our_genesis c), [])
        | Err e => (Err (ChainSvcError e), mk_tracker (valid_entries c) [] (first_height c) top (previous_hash c) (our_genesis c), [])
        | Panic => (Panic, mk_tracker (valid_entries c) [] (first_height c) top (previous_hash c) (our_genesis c), [])
        end
  end.

Definition blocks_to_get (c : ChainTracker) (pruning_seed : PruningSeed) (max_blocks : Z)
    : result ChainTrackerError (option BlocksToRetrieve) * ChainTracker :=
  if negb (has_full_block pruning_seed (first_height c) MAX_BLOCK_HEIGHT_USIZE) then (Ok None, c)
  else
    match valid_entries c with
    | [] => (Ok None, c)
    | entry :: rest =>
        match get_next_pruned_block pruning_seed (first_height c) MAX_BLOCK_HEIGHT_USIZE with
        | Ok next =>
            let end_idx := Z.min (Z.min (len (ids entry)) max_blocks) (default MAX_BLOCK_HEIGHT_USIZE next -! first_height c) in
            if end_idx =? 0 then (Ok None, c)
            else
              let ids_to_get := take (Z.to_nat end_idx) (ids entry) in
              let left := drop (Z.to_nat end_idx) (ids entry) in
              let blocks := mk_blocks ids_to_get (previous_hash c) (first_height c) (peer entry) (handle entry) 0 0 in
              (Ok (Some blocks),
               mk_tracker (if bool_decide (left = []) then rest else mk_entry left (peer entry) (handle entry) :: rest)
                 (unknown_entries c) (first_height c +! end_idx) (top_seen_hash c)
                 (default (previous_hash c) (last ids_to_get)) (our_genesis c))
        | _ => (Panic, c)
        end
    end.
End chain_tracker.

(** ** What the tracker needs of the chain service

    [settled start pending] says that a pending rest that starts at [start] was left by an
    earlier request. *)
Definition has_ids (e : ChainEntry) : Prop := ids e <> [].

Class EntryValidator (settled : Z -> list ChainEntry -> Prop)
    (validate : list ChainEntry -> Z -> result BoxError (list ChainEntry * list ChainEntry)) : Prop := {
  settled_nil start : settled start [];
  validate_splits es start v u :
    0 <= start -> start + len (all_ids es) < 2 ^ 64 -> validate es start = Ok (v, u) -> tagged v ++ tagged u = tagged es;
  validate_settles pending e start v u :
    0 <= start -> start + len (all_ids (pending ++ [e])) < 2 ^ 64 -> settled start pending -> Forall has_ids (pending ++ [e]) ->
    validate (pending ++ [e]) start = Ok (v, u) -> Forall has_ids (v ++ u) /\ settled (start + len (all_ids v)) u;
  validate_never_panics es start : 0 <= start -> start + len (all_ids es) < 2 ^ 64 -> validate es start <> Panic;
}.

(** ** Fast sync keeps the promise *)
Section fast_sync_validator.
Context {O : MoneroOxide} {T : TransactionOps O} {C : Dalek O} {Cd : MoneroCodec O}.
Context (fast_sync_hashes : list bytes) (blake3 : bytes -> bytes) (t : DbTables.Tables).
Context (Hfit : len fast_sync_hashes * FAST_SYNC_BATCH_LEN < 2 ^ 64).

#[local] Abbreviation stop := (len fast_sync_hashes * FAST_SYNC_BATCH_LEN).

(** The shape of a successful result, whatever the database holds. *)
Lemma validate_entries_shape es start v u (n := len (all_ids es)) (B := FAST_SYNC_BATCH_LEN) :
  0 <= start -> start + n < 2 ^ 64 -> validate_entries fast_sync_hashes blake3 t es start = Ok (v, u) ->
  (stop <= start /\ v = es /\ u = []) \/
  (start < stop /\ v = [] /\ u = es /\ start / B = (start + n) / B) \/
  (start < stop /\ start / B < (start + n) / B /\
     exists v', v = rev v' /\ take_unknown (rev es) (n + start - Z.min ((start + n) / B * B) stop) [] = (v', u)).
Proof using Hfit.
  intros Hs Hl H. unfold validate_entries, fast_sync_stop_height in H. pose proof (len_nonneg fast_sync_hashes) as Hf0.
  pose proof (len_nonneg (all_ids es)) as He0. fold n in He0. assert (B = 512) as HB by done.
  assert (0 <= stop) as Hst0 by (unfold FAST_SYNC_BATCH_LEN; lia).
  rewrite (wrap_small 64 stop) in H by (unfold is_u; lia).
  destruct (stop <=? start) eqn:Estop; bsimp; [injection H as <- <-; by left|]. right.
  rewrite usize_sum_ids in H by (fold n; lia). fold n B in H. rewrite (Z.add_comm n start) in *.
  assert (0 <= start / B * B <= start) as Hlow by (rewrite HB; clear -Hs; dlia).
  assert (0 <= (start + n) / B * B <= start + n) as Hhigh by (rewrite HB; clear -Hs He0; dlia).
  rewrite (wrap_small 64 (start / B * B)), (wrap_small 64 (start + n)), (wrap_small 64 ((start + n) / B * B)) in H by zlia.
  set (d := start + n - Z.min _ _) in *. rewrite (wrap_small 64 d) in H by (unfold d; zlia).
  cbn [map_request] in H. unfold block_hash_in_range, range_list in H. apply bind_Ok in H as (resp & Hresp & H).
  apply map_err_Ok, bind_Ok in Hresp as (hs & Hhs & [= <-]).
  apply collect_Ok, Forall2_length in Hhs. rewrite length_seqZ in Hhs. cbn [fst snd] in Hhs.
  assert (len hs = start - start / B * B) as Hlen by (unfold len; lia).
  rewrite Hlen, (wrap_small 64 (n + _)) in H by zlia.
  destruct (n + _ <? B) eqn:Eshort; bsimp.
  - left. injection H as <- <-. split_and!; try done. rewrite HB in *. clear -Eshort He0. dlia.
  - right. destruct (take_unknown _ _ _) as [v' u'] eqn:Et.
    apply bind_Ok in H as ([[? ?] ?] & _ & H). apply bind_Ok in H as (? & _ & [= <- <-]).
    split_and!; [done|rewrite HB in *; clear -Eshort; dlia|]. by exists v'.
Qed.

Lemma validate_entries_splits es start v u :
  0 <= start -> start + len (all_ids es) < 2 ^ 64 -> validate_entries fast_sync_hashes blake3 t es start = Ok (v, u) ->
  tagged v ++ tagged u = tagged es.
Proof using Hfit.
  intros Hs Hl Hv. apply validate_entries_shape in Hv as [(_ & -> & ->)|[(_ & -> & -> & _)|(Hlt & Hq & v' & -> & Ht)]]; try done.
  { by rewrite app_nil_r. }
  pose proof (len_nonneg (all_ids es)). apply take_unknown_spec in Ht as [Ht _].
  - by rewrite rev_involutive, app_nil_r in Ht.
  - rewrite len_all_ids_rev. unfold FAST_SYNC_BATCH_LEN in *. clear -Hs Hq Hlt. dlia.
Qed.

Definition fast_sync_settled (start : Z) (pending : list ChainEntry) : Prop :=
  start < stop -> start / FAST_SYNC_BATCH_LEN = (start + len (all_ids pending)) / FAST_SYNC_BATCH_LEN.

Lemma has_ids_len e : has_ids e <-> 0 < len (ids e).
Proof using Type. unfold has_ids, len. destruct (ids e); cbn; split; intros; done || lia. Qed.

Lemma validate_entries_settles pending e start v u :
  0 <= start -> start + len (all_ids (pending ++ [e])) < 2 ^ 64 -> fast_sync_settled start pending ->
  Forall has_ids (pending ++ [e]) -> validate_entries fast_sync_hashes blake3 t (pending ++ [e]) start = Ok (v, u) ->
  Forall has_ids (v ++ u) /\ fast_sync_settled (start + len (all_ids v)) u.
Proof using Hfit.
  intros Hs Hl Hset Hids Hv. unfold fast_sync_settled in *.
  apply validate_entries_shape in Hv as [(Hge & -> & ->)|[(Hlt & -> & -> & Hq)|(Hlt & Hq & v' & -> & Ht)]]; [..|done|done].
  - rewrite app_nil_r. split; [done|]. pose proof (len_nonneg (all_ids (pending ++ [e]))). lia.
  - split; [done|]. change (len (all_ids [])) with 0. by rewrite Z.add_0_r.
  - specialize (Hset Hlt). assert (all_ids (pending ++ [e]) = all_ids pending ++ ids e) as Ha
      by (rewrite all_ids_app; f_equal; unfold all_ids; cbn; apply app_nil_r).
    rewrite Ha, len_app in *. set (p := len (all_ids pending)) in *. set (n := len (ids e)) in *.
    set (stop' := Z.min _ _) in *. pose proof (len_nonneg (all_ids pending)) as Hp0. fold p in Hp0.
    assert (start + p < stop' /\ stop' <= start + (p + n)) as [H1 H2].
    { unfold stop', FAST_SYNC_BATCH_LEN in *. clear -Hs Hq Hlt Hset Hp0. dlia. }
    rewrite take_unknown_last in Ht by (fold n; lia). fold n in Ht. apply Forall_app in Hids as [Hids He].
    destruct (_ =? 0) eqn:E0; bsimp; injection Ht as <- <-; rewrite rev_involutive.
    + rewrite app_nil_r. split; [by apply Forall_app|]. change (len (all_ids [])) with 0. by rewrite Z.add_0_r.
    + set (k := p + n + start - stop') in *. split.
      * rewrite !Forall_app. split_and!; [done|..]; (constructor; [|constructor]); apply has_ids_len; cbn [ids]; unfold len in *;
          rewrite ?length_take, ?length_drop; lia.
      * rewrite all_ids_app, len_app. fold p. unfold all_ids. cbn [mbind list_bind ids app]. rewrite !app_nil_r.
        assert (len (take (Z.to_nat (n - k)) (ids e)) = n - k) as -> by (unfold n, len in *; rewrite length_take; lia).
        assert (len (drop (Z.to_nat (n - k)) (ids e)) = k) as -> by (unfold n, len in *; rewrite length_drop; lia).
        replace (start + (p + (n - k))) with stop' by lia. replace (stop' + k) with (start + (p + n)) by lia.
        intros Hlt'. unfold stop', FAST_SYNC_BATCH_LEN in *. clear -Hlt'. dlia.
Qed.

Lemma fast_sync_settled_nil start : fast_sync_settled start [].
Proof using Type. intros _. change (len (all_ids [])) with 0. by rewrite Z.add_0_r. Qed.

#[export] Instance fast_sync_validator : EntryValidator fast_sync_settled (validate_entries fast_sync_hashes blake3 t) := {|
  settled_nil := fast_sync_settled_nil;
  validate_splits := validate_entries_splits;
  validate_settles := validate_entries_settles;
  validate_never_panics es start Hs Hl := np_validate_entries fast_sync_hashes blake3 t es start Hs Hl Hfit;
|}.
End fast_sync_validator.

(** ** The tracker's invariant *)

(** The seeds peers may have ([PruningSeed::decompress_p2p_rules]). *)
Definition p2p_seed (p : PruningSeed) : Prop :=
  match p with NotPruned => True | Pruned s => seed_wf s /\ log_stripes s = CRYPTONOTE_PRUNING_LOG_STRIPES end.

Definition tracked (c : ChainTracker) : list (bytes * Z * Z) := tagged (valid_entries c ++ unknown_entries c).

(** The heights the tracker deals with are below the sanity limit. *)
Definition sane_heights (c : ChainTracker) : Prop :=
  0 <= first_height c /\ first_height c + len (tracked c) + CRYPTONOTE_PRUNING_TIP_BLOCKS < MAX_BLOCK_HEIGHT_USIZE.

Lemma len_tagged es : len (tagged es) = len (all_ids es).
Proof. by rewrite all_ids_tagged, len_map. Qed.

Lemma tagged_cons e es : tagged (e :: es) = map (fun id => (id, peer e, handle e)) (ids e) ++ tagged es.
Proof. done. Qed.

(** A service with the same answers keeps the same promise. *)
Lemma validator_ext settled v1 v2 : (forall es start, v1 es start = v2 es start) -> EntryValidator settled v2 -> EntryValidator settled v1.
Proof.
  intros Heq [H1 H2 H3 H4]. split; [done|intros *; rewrite Heq..].
  - apply H2.
  - apply H3.
  - apply H4.
Qed.

Section tracker.
Context {settled : Z -> list ChainEntry -> Prop} {validate : list ChainEntry -> Z -> result BoxError (list ChainEntry * list ChainEntry)}.
Context `{V : !EntryValidator settled validate}.

(** No entry is empty, and the unchecked ones are a rest the service left. *)
Definition tracker_inv (c : ChainTracker) : Prop :=
  Forall has_ids (valid_entries c ++ unknown_entries c) /\
  settled (first_height c + len (all_ids (valid_entries c))) (unknown_entries c).

(** The last block we know of is the last one we track. *)
Definition top_is_tracked (c : ChainTracker) : Prop :=
  last (previous_hash c :: map (fun x => x.1.1) (tracked c)) = Some (top_seen_hash c).

Lemma top_height_eq c : sane_heights c -> top_height c = first_height c + len (tracked c).
Proof using Type.
  intros [H0 H]. unfold top_height, ids_len. unfold tracked in *. rewrite len_tagged in *.
  pose proof (len_nonneg (all_ids (valid_entries c ++ unknown_entries c))).
  unfold MAX_BLOCK_HEIGHT_USIZE, CRYPTONOTE_PRUNING_TIP_BLOCKS in *.
  rewrite usize_sum_ids by zlia. rewrite wrap_small by zlia. done.
Qed.

Lemma valid_len_eq c :
  sane_heights c -> first_height c +! ids_len (valid_entries c) = first_height c + len (all_ids (valid_entries c)) /\
  first_height c + len (all_ids (valid_entries c)) + len (all_ids (unknown_entries c)) + CRYPTONOTE_PRUNING_TIP_BLOCKS < MAX_BLOCK_HEIGHT_USIZE.
Proof using Type.
  intros [H0 H]. unfold tracked in *. rewrite len_tagged, all_ids_app, len_app in H.
  pose proof (len_nonneg (all_ids (valid_entries c))). pose proof (len_nonneg (all_ids (unknown_entries c))).
  unfold ids_len, MAX_BLOCK_HEIGHT_USIZE, CRYPTONOTE_PRUNING_TIP_BLOCKS in *.
  rewrite usize_sum_ids by zlia. rewrite wrap_small by zlia. lia.
Qed.

Lemma new_spec entry height genesis previous :
  has_ids entry -> 0 <= height -> height + len (ids entry) < 2 ^ 64 ->
  match new validate entry height genesis previous with
  | Ok c => tracker_inv c /\ top_is_tracked c /\ tracked c = tagged [entry] /\ first_height c = height /\
            previous_hash c = previous /\ our_genesis c = genesis
  | Err e => exists e', e = ChainSvcError e'
  | Panic => False
  end.
Proof using V.
  intros He Hh Hl. unfold new. destruct (ids entry) as [|x l] eqn:Ei; [done|]. rewrite <- Ei.
  assert (exists top, last (ids entry) = Some top) as [top Htop] by (apply last_is_Some; by rewrite Ei).
  rewrite Htop. cbn [unwrap mbind result_bind]. rewrite <- Ei in Hl.
  assert (all_ids [entry] = ids entry) as Ha by (unfold all_ids; cbn; by rewrite app_nil_r).
  destruct (validate [entry] height) as [[v u]|e|] eqn:Ev; cbn [map_err mbind result_bind]; [|by eexists|].
  2: { revert Ev. apply validate_never_panics; [done|]. by rewrite Ha. }
  pose proof (validate_splits [entry] height v u Hh ltac:(by rewrite Ha) Ev) as Ht.
  destruct (validate_settles [] entry height v u Hh ltac:(cbn [app]; by rewrite Ha) (settled_nil _) ltac:(by repeat constructor) Ev) as [Hn Hset].
  unfold tracker_inv, top_is_tracked, tracked. cbn. rewrite tagged_app, Ht. split_and!; try done.
  rewrite <- all_ids_tagged, Ha. destruct (ids entry); [done|]. exact Htop.
Qed.

(** What a call to [add_entry] leaves. *)
Definition entry_added (c : ChainTracker) (entry : ChainEntry) (x : result ChainTrackerError () * ChainTracker * list Ban) : Prop :=
  let '(r, c', bans) := x in
  first_height c' = first_height c /\ previous_hash c' = previous_hash c /\ our_genesis c' = our_genesis c /\ tracker_inv c' /\
  match r with
  | Ok _ => exists id new_ids, ids entry = top_seen_hash c :: id :: new_ids /\ bans = [] /\
      tracked c' = tracked c ++ map (fun id => (id, peer entry, handle entry)) (id :: new_ids) /\ top_is_tracked c' /\
      valid_entries c `prefix_of` valid_entries c'
  | Err NewEntryIsEmpty => len (ids entry) = 1 /\ c' = c /\ bans = []
  | Err NewEntryIsInvalid => ids entry = [] /\ c' = c /\ bans = [mk_ban (handle entry) MEDIUM_BAN]
  | Err NewEntryDoesNotFollowChain => head (ids entry) <> Some (top_seen_hash c) /\ c' = c /\ bans = []
  | Err (ChainSvcError e) => bans = [] /\ valid_entries c' = valid_entries c /\ unknown_entries c' = [] /\
      head (ids entry) = Some (top_seen_hash c) /\ Some (top_seen_hash c') = last (ids entry)
  | Panic => False
  end.

Lemma add_entry_all c entry :
  tracker_inv c -> sane_heights c -> first_height c + len (tracked c) + len (ids entry) < 2 ^ 64 ->
  entry_added c entry (add_entry validate c entry).
Proof using V.
  intros Hinv Hsane Hl. pose proof Hinv as [Hids Hset]. pose proof (valid_len_eq c Hsane) as [Hv Hb].
  assert (tracker_inv (mk_tracker (valid_entries c) [] (first_height c) (top_seen_hash c) (previous_hash c) (our_genesis c))) as Hforget.
  { apply Forall_app in Hids as [Hids _]. split; [by rewrite app_nil_r|apply settled_nil]. }
  unfold add_entry, entry_added. destruct (ids entry) as [|first [|id new_ids]] eqn:Ei; [by split_and!..|].
  destruct (negb _) eqn:Efirst.
  { rewrite negb_true_iff, bool_decide_eq_false in Efirst. split_and!; try done. cbn. congruence. }
  rewrite negb_false_iff, bool_decide_eq_true in Efirst. subst first.
  rewrite Hv. set (e := mk_entry (id :: new_ids) _ _). set (start := first_height c + len (all_ids (valid_entries c))) in *.
  assert (0 <= start) as Hs by (unfold start; destruct Hsane as [? _]; pose proof (len_nonneg (all_ids (valid_entries c))); lia).
  assert (start + len (all_ids (unknown_entries c ++ [e])) < 2 ^ 64) as Hfit.
  { rewrite all_ids_app, len_app. unfold all_ids at 2. cbn [mbind list_bind]. rewrite app_nil_r. cbn [ids e].
    unfold tracked in Hl. rewrite len_tagged, all_ids_app, len_app in Hl. unfold start, len in *. cbn [length] in *. lia. }
  assert (exists top, last (id :: new_ids) = Some top) as [top Htop] by (by apply last_is_Some).
  rewrite Htop. change (default (top_seen_hash c) (Some top)) with top.
  destruct (validate _ start) as [[v u]|e'|] eqn:Ev.
  - pose proof (validate_splits _ _ _ _ Hs Hfit Ev) as Ht. apply Forall_app in Hids as [Hi1 Hi2].
    destruct (validate_settles _ _ _ _ _ Hs Hfit Hset ltac:(apply Forall_app; split; [done|by repeat constructor]) Ev) as [Hn Hset'].
    cbn. split_and!; try done.
    + split; [cbn; rewrite <- (assoc_L _); by apply Forall_app|]. cbn. rewrite all_ids_app, len_app, Z.add_assoc. done.
    + assert (tracked (mk_tracker (valid_entries c ++ v) u (first_height c) top (previous_hash c) (our_genesis c)) =
        tracked c ++ map (fun id => (id, peer entry, handle entry)) (id :: new_ids)) as Htr.
      { unfold tracked. cbn [valid_entries unknown_entries]. rewrite <- (assoc_L _), !tagged_app, Ht, tagged_app, (assoc_L _). f_equal.
        unfold tagged. cbn [mbind list_bind]. by rewrite app_nil_r. }
      eexists _, _. split_and!; try done; [|by eexists].
      unfold top_is_tracked. rewrite Htr. cbn [previous_hash top_seen_hash]. rewrite map_app, map_map. cbn [fst]. rewrite map_id, app_comm_cons, last_app.
      by rewrite Htop.
  - cbn. split_and!; done.
  - exfalso. revert Ev. by apply validate_never_panics.
Qed.

Lemma next_pruned_bound c seed :
  p2p_seed seed -> sane_heights c -> has_full_block seed (first_height c) MAX_BLOCK_HEIGHT_USIZE = true ->
  exists next, get_next_pruned_block seed (first_height c) MAX_BLOCK_HEIGHT_USIZE = Ok next /\
    let n := default MAX_BLOCK_HEIGHT_USIZE next in
    first_height c < n <= MAX_BLOCK_HEIGHT_USIZE /\
    forall h, first_height c <= h < n -> has_full_block seed h MAX_BLOCK_HEIGHT_USIZE = true.
Proof using Type.
  intros Hseed [H0 Hs] Hfull. pose proof (len_nonneg (tracked c)).
  unfold CRYPTONOTE_PRUNING_TIP_BLOCKS in *. destruct seed as [|seed].
  { exists None. cbn. split_and!; [done|lia..|done]. }
  destruct Hseed as [Hwf Hlog]. destruct (seed_next_pruned_spec seed (first_height c) MAX_BLOCK_HEIGHT_USIZE) as (h & Hh & Hr & Hkept & Hp);
    unfold CRYPTONOTE_PRUNING_TIP_BLOCKS in *; [done|rewrite Hlog; done|lia..|]. 
  exists (Some h). split; [done|]. cbn. split; [|done]. split; [|lia].
  destruct (decide (h = first_height c)) as [-> |]; [|lia]. cbn in Hfull. rewrite Hp in Hfull by lia. done.
Qed.

#[local] Ltac keep_tracker :=
  eexists _, _; split; [reflexivity|]; repeat (split; [first [assumption | reflexivity | exact (fun H => H)]|]).

(** A batch [r] of at most [max_blocks] ids taken out of [c], which leaves [c']. *)
Definition handed_out (c : ChainTracker) (seed : PruningSeed) (max_blocks : Z) (r : option BlocksToRetrieve) (c' : ChainTracker) : Prop :=
  match r with
  | None => c' = c /\ (valid_entries c = [] \/ max_blocks = 0 \/ has_full_block seed (first_height c) MAX_BLOCK_HEIGHT_USIZE = false)
  | Some b =>
      1 <= len (b_ids b) <= max_blocks /\ b_start_height b = first_height c /\ prev_id b = previous_hash c /\
      requests_sent b = 0 /\ failures b = 0 /\
      tracked c = map (fun id => (id, peer_who_told_us b, peer_who_told_us_handle b)) (b_ids b) ++ tracked c' /\
      first_height c' = first_height c + len (b_ids b) /\ last (b_ids b) = Some (previous_hash c') /\
      forall h, first_height c <= h < first_height c' -> has_full_block seed h MAX_BLOCK_HEIGHT_USIZE = true
  end.

Lemma blocks_to_get_hands_out c seed max_blocks :
  tracker_inv c -> sane_heights c -> p2p_seed seed -> 0 <= max_blocks ->
  exists r c', blocks_to_get c seed max_blocks = (Ok r, c') /\ tracker_inv c' /\ sane_heights c' /\
    our_genesis c' = our_genesis c /\ (top_is_tracked c -> top_is_tracked c') /\ handed_out c seed max_blocks r c'.
Proof using Type.
  intros Hinv Hsane Hseed Hmax. unfold blocks_to_get, handed_out.
  destruct (has_full_block _ _ _) eqn:Hfull; cbn [negb]; [|keep_tracker; auto].
  destruct (valid_entries c) as [|entry rest] eqn:Ev; [keep_tracker; auto|].
  destruct (next_pruned_bound c seed Hseed Hsane Hfull) as (next & -> & Hn & Hkept). cbn zeta in Hn, Hkept.
  set (nx := default _ next) in *. pose proof Hsane as [H0 Hs]. pose proof Hinv as [Hids Hset]. rewrite Ev in Hids, Hset.
  apply List.Forall_cons_iff in Hids as [Hne Hids]. pose proof (proj1 (has_ids_len entry) Hne) as Hlen.
  rewrite (wrap_small 64 (nx - _)) by (unfold MAX_BLOCK_HEIGHT_USIZE in *; zlia).
  set (k := Z.min _ _). destruct (k =? 0) eqn:Ek; bsimp.
  { keep_tracker. right. left. lia. }
  assert (1 <= k <= len (ids entry) /\ k <= max_blocks /\ first_height c + k <= nx) as (Hk1 & Hk2 & Hk3) by lia.
  assert (len (take (Z.to_nat k) (ids entry)) = k) as Htake by (unfold len in *; rewrite length_take; lia).
  assert (exists x, last (take (Z.to_nat k) (ids entry)) = Some x) as [x Hx].
  { apply last_is_Some. intros E. rewrite E in Htake. change (len []) with 0 in Htake. lia. }
  rewrite Hx. change (default (previous_hash c) (Some x)) with x.
  set (left := drop (Z.to_nat k) (ids entry)).
  set (v' := if bool_decide (left = []) then rest else mk_entry left (peer entry) (handle entry) :: rest).
  assert (tagged v' = map (fun id => (id, peer entry, handle entry)) left ++ tagged rest) as Hv'.
  { unfold v'. destruct (bool_decide _) eqn:E; [|done]. apply bool_decide_eq_true in E. by rewrite E. }
  assert (Forall has_ids v') as Hv'ids.
  { unfold v'. apply Forall_app in Hids as [Hids _]. destruct (bool_decide _) eqn:E; [done|].
    apply bool_decide_eq_false in E. by constructor. }
  assert (len (all_ids v') = len (all_ids (entry :: rest)) - k) as Hlv.
  { rewrite <- !len_tagged, Hv', tagged_cons, !len_app, !len_map. unfold left, len in *. rewrite length_drop. lia. }
  assert (tracked c = map (fun id => (id, peer entry, handle entry)) (take (Z.to_nat k) (ids entry)) ++ tagged v' ++ tagged (unknown_entries c)) as Htr.
  { unfold tracked. rewrite Ev, Hv'. cbn [app]. rewrite tagged_cons, tagged_app, !(assoc_L (++)), <- map_app. unfold left. by rewrite take_drop. }
  assert (len (tracked c) = k + len (tagged v' ++ tagged (unknown_entries c))) as Hltr by (rewrite Htr, len_app, len_map, Htake; done).
  pose proof (len_nonneg (tagged v' ++ tagged (unknown_entries c))).
  rewrite (wrap_small 64 (first_height c + k)) by (unfold MAX_BLOCK_HEIGHT_USIZE in *; zlia).
  eexists _, _. split; [done|].
  cbn [b_ids b_start_height prev_id requests_sent failures peer_who_told_us peer_who_told_us_handle first_height previous_hash our_genesis].
  split_and!; try lia; try done.
  - split; [apply Forall_app; split; [done|by apply Forall_app in Hids as [_ ?]]|].
    cbn [first_height valid_entries unknown_entries]. rewrite Hlv. replace (first_height c + k + _) with (first_height c + len (all_ids (entry :: rest))) by lia. done.
  - unfold sane_heights, tracked. cbn [first_height valid_entries unknown_entries]. rewrite tagged_app. lia.
  - unfold top_is_tracked at 1. rewrite Htr. unfold top_is_tracked, tracked.
    cbn [valid_entries unknown_entries previous_hash top_seen_hash]. rewrite tagged_app, map_app, map_map. cbn [fst]. rewrite map_id, app_comm_cons, last_app.
    intros Ht. rewrite last_cons. destruct (last (map _ _)) eqn:E; [done|]. rewrite last_cons, Hx in Ht. done.
  - rewrite Htr. unfold tracked. cbn [valid_entries unknown_entries]. by rewrite tagged_app.
  - intros h Hh. apply Hkept. lia.
Qed.

(** [add_entry] on every path: the entry must overlap the last block we know of; on success
    exactly its other ids are appended, under the peer's name, and the last of them is the
    new top; an entry without ids gets its sender banned. When the service refuses the
    entry, the ids that waited for a check are forgotten and the refused entry's last id is
    kept as the top, although nothing tracked ends in it. *)
Theorem add_entry_spec c entry :
  tracker_inv c -> sane_heights c -> first_height c + len (tracked c) + len (ids entry) < 2 ^ 64 ->
  entry_added c entry (add_entry validate c entry).
Proof using V. apply add_entry_all. Qed.

(** [blocks_to_get] with a seed a peer may have: it hands out the next ids in order, at
    least one and at most [max_blocks] of them, all told by one peer, starting at the height
    and after the block reached so far, and only blocks the seed keeps; nothing is handed
    out only when the seed does not keep the next block or nothing checked is left, so the
    tracker never gets stuck. It never panics, and the last block known stays the last one
    tracked. *)
Theorem blocks_to_get_spec c seed max_blocks :
  tracker_inv c -> sane_heights c -> p2p_seed seed -> 0 <= max_blocks ->
  exists r c', blocks_to_get c seed max_blocks = (Ok r, c') /\ tracker_inv c' /\ sane_heights c' /\
    our_genesis c' = our_genesis c /\ (top_is_tracked c -> top_is_tracked c') /\ handed_out c seed max_blocks r c'.
Proof using Type. apply blocks_to_get_hands_out. Qed.
End tracker.

(** ** A tracker before the end of a stripe, with no embedded hashes *)
Module TestTracker.
Definition ids3 : list bytes := [[1]; [2]; [3]].
Definition tracker : ChainTracker := mk_tracker [mk_entry ids3 7 70] [] 4094 [3] [0] [99].
Definition seed : PruningSeed := Pruned (mk_seed 3 1).

Lemma tracker_ok : tracker_inv (settled := fast_sync_settled []) tracker.
Proof. split; [by repeat constructor|]. intros H. vm_compute in H. done. Qed.
End TestTracker.

Section witness.
Import Transparent TestHelpers TestStore TestTracker.

Lemma blocks_to_get_spec_witness :
  exists b c', blocks_to_get tracker seed 100 = (Ok (Some b), c') /\ b_ids b = [[1]; [2]] /\ first_height c' = 4096 /\
    has_full_block seed 4095 MAX_BLOCK_HEIGHT_USIZE = true.
Proof.
  destruct (blocks_to_get_spec (settled := fast_sync_settled []) tracker seed 100) as (r & c' & Hr & _ & _ & _ & _ & H).
  - apply tracker_ok.
  - vm_compute. split; [discriminate|done].
  - vm_compute. repeat split; discriminate.
  - done.
  - assert (r = Some (mk_blocks [[1]; [2]] [0] 4094 7 70 0 0)) as ->
      by (apply (f_equal fst) in Hr; injection Hr as <-; by vm_compute).
    eexists _, c'. split; [exact Hr|]. destruct H as (_ & _ & _ & _ & _ & _ & Hh & _ & Hk). cbn in Hh. split_and!; [done|done|].
    apply Hk. rewrite Hh. vm_compute. split; [discriminate|reflexivity].
Defined.

Lemma add_entry_spec_witness :
  exists c', add_entry (validate_entries [] (fun b => b) (TestStore.db 3)) tracker (mk_entry [[3]; [4]; [5]] 8 80) = (Ok (), c', []) /\
    tracked c' = tracked tracker ++ [([4], 8, 80); ([5], 8, 80)] /\ top_is_tracked c'.
Proof.
  pose proof (add_entry_spec (V := fast_sync_validator [] (fun b => b) (TestStore.db 3) ltac:(done)) tracker (mk_entry [[3]; [4]; [5]] 8 80)) as H.
  destruct (add_entry _ _ _) as [[r c'] bans] eqn:E. assert (r = Ok () /\ bans = []) as [-> ->].
  { apply (f_equal fst) in E as E1. apply (f_equal snd) in E as E2. cbn [fst snd] in E1, E2. split; [|rewrite <- E2; by vm_compute].
    apply (f_equal fst) in E1. cbn [fst] in E1. rewrite <- E1. by vm_compute. }
  destruct H as (_ & _ & _ & _ & id & new_ids & Hi & _ & Ht & Htop & _).
  - apply tracker_ok.
  - vm_compute. split; [discriminate|done].
  - by vm_compute.
  - cbn [ids] in Hi. injection Hi as <- <-. exists c'. split_and!; done.
Defined.
End witness.

End ChainTracker.
