(* ===== verification/BlockDownloader.v ===== *)
(** * The block downloader ([src/p2p/p2p/src/block_downloader.rs] and
    [block_queue.rs], [download_batch.rs], [request_chain.rs] below it;
    [src/binaries/cuprated/src/blockchain/chain_service.rs])

    Finds a chain to follow, hands batches of its blocks to free peers, checks what they
    send and gives the batches, in order, to the buffer. The state is the downloader with
    its chain tracker and its waiting peers; a turn of the main loop is one event (the
    timer, a finished download, a finished request for a chain entry) with the answers of
    the peers as part of the event. A spawned task is the request it was spawned with. A
    vector used as a stack is a list with its top first; a [BinaryHeap] and a [BTreeMap] are
    lists in ascending order, the order in which a heap is iterated is a parameter. *)
From S2P Require Import Prelude Bytes Pruning TxData BlockRules TxContext Helpers DbTables TxOps AltBlocks BlockOps BlockchainService FastSync ChainTracker WireMessages.
From Stdlib Require Import ZArith Lia.
From stdpp Require Import base tactics option list numbers sets gmap sorting.
Import Pruning TxData TxContext Helpers DbTables TxOps BlockchainService FastSync ChainTracker.

#[local] Open Scope Z_scope.
#[local] Open Scope usize_scope.

Module BlockDownloader.

(** The transactions of a block on the wire ([WireMessages]) *)
Abbreviation TransactionBlobs := Wire.TransactionBlobs.
Abbreviation NormalBlobs := Wire.NormalBlobs.
Abbreviation NoBlobs := Wire.NoBlobs.
Abbreviation blobs_len := Wire.blobs_len.
Abbreviation take_normal := Wire.take_normal.

(** ** Constants ([src/p2p/p2p/src/constants.rs]) *)
Definition INITIAL_CHAIN_REQUESTS_TO_SEND : nat := 3.
Definition MAX_BLOCK_BATCH_LEN : Z := 100.
Definition MAX_TRANSACTION_BLOB_SIZE : Z := 1000000.
Definition MAX_BLOCKS_IDS_IN_CHAIN_ENTRY : Z := 25000.
Definition MAX_DOWNLOAD_FAILURES : Z := 5.
Definition EMPTY_CHAIN_ENTRIES_BEFORE_TOP_ASSUMED : Z := 5.
Definition MOST_RECENT_BATCH_WEIGHTS_FOR_BATCH_SIZE : Z := 100.

Inductive BlockDownloadError :=
  | TimedOut
  | BufferWasClosed
  | PeerDidNotHaveRequestedData
  | PeersResponseWasInvalid
  | ChainInvalid
  | FailedToFindAChainToFollow
  | PeerSentNoOverlappingBlocks
  | ServiceError (e : BoxError).

(** A connected peer: its id, its handle and the seed it announced. *)
Record Client := mk_client { c_id : Z; c_handle : Z; pruning_seed : PruningSeed }.

Record BlockDownloaderConfig := mk_config {
  in_progress_queue_bytes : Z;
  target_batch_bytes : Z;
  initial_batch_len : Z;
}.

(** ** The size of the next batch *)
Record BatchSizeInformation := mk_size_info { bs_len : Z; byte_size : Z }.

(** A division by zero panics. *)
Definition usize_div {E} (a b : Z) : result E Z := if b =? 0 then Panic else Ok (a / b).

Definition calculate_next_block_batch_size {E} (previous_batch_size previous_batch_len target_batch_size : Z) : result E Z :=
  average ← usize_div (previous_batch_size *! 2) previous_batch_len;
  let adjusted_average_block_size := Z.max average 1 in
  let next_batch_len := Z.max (target_batch_size / adjusted_average_block_size) 1 in
  let next_batch_len := Z.min next_batch_len (div_ceil (previous_batch_len *! 3) 2) in
  Ok (Z.min next_batch_len MAX_BLOCK_BATCH_LEN).

Definition client_has_block_in_range (pruning_seed : PruningSeed) (start_height length : Z) : bool :=
  has_full_block pruning_seed start_height MAX_BLOCK_HEIGHT_USIZE &&
  has_full_block pruning_seed (start_height +! length) MAX_BLOCK_HEIGHT_USIZE.

(** ** Heaps and maps *)

(** [BinaryHeap<Reverse<_>>::push] *)
Fixpoint heap_push {A} (key : A -> Z) (x : A) (heap : list A) : list A :=
  match heap with
  | [] => [x]
  | y :: rest => if key x <=? key y then x :: heap else y :: heap_push key x rest
  end.

(** The keys of a [BTreeMap] in order. *)
Definition keys_in_order {A} (m : gmap Z A) : list Z := merge_sort Z.le (map fst (map_to_list m)).

(** [pending_peers.entry(seed).or_default().push(client)] *)
Fixpoint push_peer (client : Client) (pending : list (PruningSeed * list Client)) : list (PruningSeed * list Client) :=
  match pending with
  | [] => [(pruning_seed client, [client])]
  | (seed, peers) :: rest =>
      match cmp (pruning_seed client) seed with
      | Lt => (pruning_seed client, [client]) :: pending
      | Eq => (seed, client :: peers) :: rest
      | Gt => (seed, peers) :: push_peer client rest
      end
  end.

Section block_downloader.
Context {O : MoneroOxide} {T : TransactionOps O} {C : Dalek O} {Cd : MoneroCodec O}.
#[local] Abbreviation Block := BlockRules.Block.
(** [Block::hash] and [Block::number] of [monero_oxide] *)
Context (hash_of_block : Block -> bytes) (block_number : Block -> Z).

(** ** Batches and the queue ([block_queue.rs]) *)
Record BlockBatch := mk_block_batch { bb_blocks : list (Block * list Transaction); bb_size : Z; bb_peer_handle : Z }.
Record ReadyQueueBatch := mk_ready { start_height : Z; block_batch : BlockBatch }.

(** [buffer] is what was given to the [BufferAppender] so far. *)
Record BlockQueue := mk_queue {
  ready_batches : list ReadyQueueBatch;
  ready_batches_size : Z;
  buffer : list BlockBatch;
}.

Definition oldest_ready_batch (q : BlockQueue) : option Z := start_height <$> head (ready_batches q).

(** The loop that moves batches to the buffer; [open] says whether the stream still exists. *)
Fixpoint send_ready (open : bool) (height_to_stop_at : Z) (ready : list ReadyQueueBatch) (size : Z) (buffer : list BlockBatch)
    : result BlockDownloadError () * BlockQueue :=
  match ready with
  | [] => (Ok (), mk_queue [] size buffer)
  | batch :: rest =>
      if start_height batch <=? height_to_stop_at then
        let size := size -! bb_size (block_batch batch) in
        if open then send_ready open height_to_stop_at rest size (buffer ++ [block_batch batch])
        else (Err BufferWasClosed, mk_queue rest size buffer)
      else (Ok (), mk_queue ready size buffer)
  end.

Definition add_incoming_batch (open : bool) (new_batch : ReadyQueueBatch) (oldest_in_flight_start_height : option Z) (q : BlockQueue)
    : result BlockDownloadError () * BlockQueue :=
  send_ready open (default u64_MAX oldest_in_flight_start_height)
    (heap_push start_height new_batch (ready_batches q))
    (ready_batches_size q +! bb_size (block_batch new_batch)) (buffer q).

(** ** Downloading a batch ([download_batch.rs]) *)

(** An entry of a [GetObjectsResponse]: the block's blob and its transactions' blobs. *)
Record ObjectEntry := mk_object { oe_block : bytes; oe_txs : TransactionBlobs }.

(** [expected_txs.remove(&tx.hash())] for every transaction sent *)
Definition remove_tx_hashes (txs : list Transaction) (expected : gset bytes) : result BlockDownloadError (gset bytes) :=
  try_fold (fun (expected : gset bytes) tx =>
    if bool_decide (tx_hash tx ∈ expected) then Ok (expected ∖ {[tx_hash tx]}) else Err PeersResponseWasInvalid) expected txs.

Definition read_tx (tx_blob : bytes) : result BlockDownloadError Transaction :=
  if MAX_TRANSACTION_BLOB_SIZE <? len tx_blob then Err PeersResponseWasInvalid
  else ok_or (tx_read tx_blob) PeersResponseWasInvalid.

(** One block of the response, with its size. *)
Definition deserialize_entry (expected_start_height : Z) (requested_ids : list bytes) (previous_id : bytes) (x : Z * ObjectEntry)
    : result BlockDownloadError (Block * list Transaction * Z) :=
  let '(i, block_entry) := x in
  let expected_height := i +! expected_start_height in
  block ← ok_or (block_read (oe_block block_entry)) PeersResponseWasInvalid;
  requested ← unwrap (lookZ requested_ids i);
  if negb (bool_decide (requested = hash_of_block block)) || negb (len (BlockRules.transactions block) =? blobs_len (oe_txs block_entry))
  then Err PeersResponseWasInvalid
  else if (i =? 0) && negb (bool_decide (BlockRules.previous (BlockRules.header block) = previous_id)) then Err ChainInvalid
  else if negb (block_number block =? expected_height) then Err ChainInvalid
  else
    blobs ← ok_or (take_normal (oe_txs block_entry)) PeersResponseWasInvalid;
    txs ← collect read_tx blobs;
    left ← remove_tx_hashes txs (list_to_set (BlockRules.transactions block));
    if negb (bool_decide (left = ∅)) then Err PeersResponseWasInvalid
    else Ok (block, txs, foldl (fun size blob => size +! len blob) (len (oe_block block_entry)) blobs).

(** The blocks are handled in parallel: of several errors any may be returned, here the
    first. *)
Definition deserialize_batch (response : list ObjectEntry) (expected_start_height : Z) (requested_ids : list bytes)
    (previous_id : bytes) (peer_handle : Z) : result BlockDownloadError BlockBatch :=
  blocks ← collect (deserialize_entry expected_start_height requested_ids previous_id) (imap (fun i e => (Z.of_nat i, e)) response);
  Ok (mk_block_batch (map fst blocks) (usize_sum (map snd blocks)) peer_handle).

(** [response] is the peer's answer to the request, if it gave one. *)
Definition request_batch_from_peer (client : Client) (ids : list bytes) (previous_id : bytes) (expected_start_height : Z)
    (response : result BoxError (list ObjectEntry)) : result BlockDownloadError BlockBatch * list Ban :=
  match response with
  | Err e => (Err (ServiceError e), [])
  | Panic => (Panic, [])
  | Ok blocks =>
      if len ids <? len blocks then (Err PeersResponseWasInvalid, [mk_ban (c_handle client) MEDIUM_BAN])
      else if negb (len blocks =? len ids) then (Err PeerDidNotHaveRequestedData, [])
      else
        match deserialize_batch blocks expected_start_height ids previous_id (c_handle client) with
        | Err PeersResponseWasInvalid => (Err PeersResponseWasInvalid, [mk_ban (c_handle client) MEDIUM_BAN])
        | r => (r, [])
        end
  end.

(** ** Requests for chain entries ([request_chain.rs]) *)
Record ChainResponse := mk_chain_response {
  cumulative_difficulty_low64 : Z;
  cumulative_difficulty_top64 : Z;
  m_block_ids : list bytes;
}.

Definition cumulative_difficulty (r : ChainResponse) : Z :=
  Z.lor (shl 128 (cumulative_difficulty_top64 r) 64) (cumulative_difficulty_low64 r).

Definition request_chain_entry_from_peer (client : Client) (top genesis : bytes) (response : result BlockDownloadError ChainResponse)
    : result BlockDownloadError ChainEntry * list Ban :=
  let invalid := (Err PeersResponseWasInvalid, [mk_ban (c_handle client) MEDIUM_BAN]) in
  match response with
  | Err e => (Err e, [])
  | Panic => (Panic, [])
  | Ok chain_res =>
      match m_block_ids chain_res with
      | [] => invalid
      | first :: _ =>
          if MAX_BLOCKS_IDS_IN_CHAIN_ENTRY <? len (m_block_ids chain_res) then invalid
          else if negb (bool_decide (first = top) || bool_decide (first = genesis)) then invalid
          else if bool_decide (first = genesis) then (Err PeerDidNotHaveRequestedData, [])
          else (Ok (mk_entry (m_block_ids chain_res) (c_id client) (c_handle client)), [])
      end
  end.

(** ** The chain service ([chain_service.rs]) *)
Inductive ChainSvcRequest :=
  | Req_CompactHistory
  | Req_FindFirstUnknown (ids : list bytes)
  | Req_CumulativeDifficulty
  | Req_ValidateEntries (entries : list ChainEntry) (start_height : Z).

Inductive ChainSvcResponse :=
  | Res_CompactHistory (block_ids : list bytes) (cumulative_difficulty : Z)
  | Res_FindFirstUnknown (found : option (Z * Z))
  | Res_CumulativeDifficulty (cumulative_difficulty : Z)
  | Res_ValidateEntries (valid unknown : list ChainEntry).

Definition chain_service (fast_sync_hashes : list bytes) (blake3 : bytes -> bytes) (t : Tables) (req : ChainSvcRequest)
    : result BoxError ChainSvcResponse :=
  match req with
  | Req_CompactHistory =>
      res ← map_err DatabaseError (map_request t R_CompactChainHistory);
      match res with
      | CompactChainHistory block_ids cumulative_difficulty => Ok (Res_CompactHistory block_ids cumulative_difficulty)
      | _ => Panic
      end
  | Req_FindFirstUnknown req =>
      res ← map_err DatabaseError (map_request t (R_FindFirstUnknown req));
      match res with FindFirstUnknown res => Ok (Res_FindFirstUnknown res) | _ => Panic end
  | Req_CumulativeDifficulty =>
      res ← map_err DatabaseError (map_request t R_CompactChainHistory);
      match res with CompactChainHistory _ cumulative_difficulty => Ok (Res_CumulativeDifficulty cumulative_difficulty) | _ => Panic end
  | Req_ValidateEntries entries start_height =>
      '(valid, unknown) ← validate_entries fast_sync_hashes blake3 t entries start_height;
      Ok (Res_ValidateEntries valid unknown)
  end.

(** A request whose response must be of the right kind. *)
Definition ask_history (svc : ChainSvcRequest -> result BoxError ChainSvcResponse) : result BoxError (list bytes * Z) :=
  res ← svc Req_CompactHistory; match res with Res_CompactHistory ids cd => Ok (ids, cd) | _ => Panic end.
Definition ask_first_unknown (svc : ChainSvcRequest -> result BoxError ChainSvcResponse) (ids : list bytes) : result BoxError (option (Z * Z)) :=
  res ← svc (Req_FindFirstUnknown ids); match res with Res_FindFirstUnknown found => Ok found | _ => Panic end.
Definition ask_difficulty (svc : ChainSvcRequest -> result BoxError ChainSvcResponse) : result BoxError Z :=
  res ← svc Req_CumulativeDifficulty; match res with Res_CumulativeDifficulty cd => Ok cd | _ => Panic end.
Definition ask_validate (svc : ChainSvcRequest -> result BoxError ChainSvcResponse) (entries : list ChainEntry) (start_height : Z)
    : result BoxError (list ChainEntry * list ChainEntry) :=
  res ← svc (Req_ValidateEntries entries start_height); match res with Res_ValidateEntries valid unknown => Ok (valid, unknown) | _ => Panic end.

(** What a turn of the loop meets outside: the chain service, the peer set
    ([PeersWithMorePoW]), peers whose connection is closed, and whether the stream still
    exists. *)
Record Env := mk_env {
  our_chain_svc : ChainSvcRequest -> result BoxError ChainSvcResponse;
  peers_with_more_pow : Z -> result BoxError (list Client);
  is_closed : Client -> bool;
  stream_open : bool;
}.

(** The response with the highest cumulative difficulty, the first of several. *)
Definition best_response (replies : list (ChainResponse * Client)) : option (ChainResponse * Client) :=
  foldl (fun res task_res =>
    match res with
    | Some res => Some (if cumulative_difficulty res.1 <? cumulative_difficulty task_res.1 then task_res else res)
    | None => Some task_res
    end) None replies.

(** [replies] answers the request sent to the peers it is given, in the order in which the
    answers come in; peers that fail or are too slow have none. *)
Definition initial_chain_search (env : Env) (replies : list Client -> list (ChainResponse * Client))
    : result BlockDownloadError ChainTracker * list Ban :=
  match map_err ServiceError (
    '(block_ids, cumulative_difficulty) ← ask_history (our_chain_svc env);
    our_genesis ← unwrap (last block_ids);
    clients ← peers_with_more_pow env cumulative_difficulty;
    Ok (our_genesis, clients)) with
  | Err e => (Err e, [])
  | Panic => (Panic, [])
  | Ok (our_genesis, clients) =>
      match best_response (replies (take INITIAL_CHAIN_REQUESTS_TO_SEND clients)) with
      | None => (Err FailedToFindAChainToFollow, [])
      | Some (chain_res, peer) =>
          let hashes := m_block_ids chain_res in
          match ask_first_unknown (our_chain_svc env) hashes with
          | Err e => (Err (ServiceError e), [])
          | Panic => (Panic, [])
          | Ok None => (Err FailedToFindAChainToFollow, [])
          | Ok (Some (first_unknown, expected_height)) =>
              if first_unknown =? 0 then (Err PeerSentNoOverlappingBlocks, [mk_ban (c_handle peer) MEDIUM_BAN])
              else
                (previous_id ← unwrap (lookZ hashes (first_unknown -! 1));
                 _ ← rassert (first_unknown <=? len hashes);
                 map_err (fun _ => ChainInvalid)
                   (new (ask_validate (our_chain_svc env))
                      (mk_entry (drop (Z.to_nat first_unknown) hashes) (c_id peer) (c_handle peer)) expected_height our_genesis previous_id), [])
          end
      end
  end.

(** ** The downloader *)
Record DownloadTask := mk_task { t_client : Client; t_ids : list bytes; t_prev_id : bytes; t_start_height : Z }.

Record BlockDownloader := mk_downloader {
  chain_tracker : ChainTracker;
  pending_peers : list (PruningSeed * list Client);
  most_recent_batch_sizes : list (Z * BatchSizeInformation);
  amount_of_empty_chain_entries : Z;
  block_download_tasks : list DownloadTask;
  chain_entry_task : list (Client * bytes * bytes);
  inflight_requests : gmap Z BlocksToRetrieve;
  failed_batches : list Z;
  block_queue : BlockQueue;
  bans : list Ban;
}.

Context (config : BlockDownloaderConfig).
(** The order in which a heap's values are visited. *)
Context (iter_order : list (Z * BatchSizeInformation) -> list (Z * BatchSizeInformation)).

Definition new_downloader (tracker : ChainTracker) (bans : list Ban) : BlockDownloader :=
  mk_downloader tracker [] [] 0 [] [] ∅ [] (mk_queue [] 0 []) bans.

Definition act (A : Type) : Type := BlockDownloader -> result BlockDownloadError A * BlockDownloader.
#[export] Instance act_ret : MRet act := fun A a d => (Ok a, d).
#[export] Instance act_bind : MBind act := fun A B f x d =>
  match x d with
  | (Ok a, d) => f a d
  | (Err e, d) => (Err e, d)
  | (Panic, d) => (Panic, d)
  end.

Definition pure_act {A} (r : result BlockDownloadError A) : act A := fun d => (r, d).
Definition gets {A} (f : BlockDownloader -> A) : act A := fun d => (Ok (f d), d).
Definition modify (f : BlockDownloader -> BlockDownloader) : act () := fun d => (Ok (), f d).

Definition set_tracker (c : ChainTracker) (d : BlockDownloader) : BlockDownloader :=
  mk_downloader c (pending_peers d) (most_recent_batch_sizes d) (amount_of_empty_chain_entries d) (block_download_tasks d)
    (chain_entry_task d) (inflight_requests d) (failed_batches d) (block_queue d) (bans d).
Definition set_pending (p : list (PruningSeed * list Client)) (d : BlockDownloader) : BlockDownloader :=
  mk_downloader (chain_tracker d) p (most_recent_batch_sizes d) (amount_of_empty_chain_entries d) (block_download_tasks d)
    (chain_entry_task d) (inflight_requests d) (failed_batches d) (block_queue d) (bans d).
Definition set_sizes (l : list (Z * BatchSizeInformation)) (d : BlockDownloader) : BlockDownloader :=
  mk_downloader (chain_tracker d) (pending_peers d) l (amount_of_empty_chain_entries d) (block_download_tasks d)
    (chain_entry_task d) (inflight_requests d) (failed_batches d) (block_queue d) (bans d).
Definition set_empty_entries (n : Z) (d : BlockDownloader) : BlockDownloader :=
  mk_downloader (chain_tracker d) (pending_peers d) (most_recent_batch_sizes d) n (block_download_tasks d)
    (chain_entry_task d) (inflight_requests d) (failed_batches d) (block_queue d) (bans d).
Definition set_tasks (l : list DownloadTask) (d : BlockDownloader) : BlockDownloader :=
  mk_downloader (chain_tracker d) (pending_peers d) (most_recent_batch_sizes d) (amount_of_empty_chain_entries d) l
    (chain_entry_task d) (inflight_requests d) (failed_batches d) (block_queue d) (bans d).
Definition set_entry_tasks (l : list (Client * bytes * bytes)) (d : BlockDownloader) : BlockDownloader :=
  mk_downloader (chain_tracker d) (pending_peers d) (most_recent_batch_sizes d) (amount_of_empty_chain_entries d) (block_download_tasks d)
    l (inflight_requests d) (failed_batches d) (block_queue d) (bans d).
Definition set_inflight (m : gmap Z BlocksToRetrieve) (d : BlockDownloader) : BlockDownloader :=
  mk_downloader (chain_tracker d) (pending_peers d) (most_recent_batch_sizes d) (amount_of_empty_chain_entries d) (block_download_tasks d)
    (chain_entry_task d) m (failed_batches d) (block_queue d) (bans d).
Definition set_failed (l : list Z) (d : BlockDownloader) : BlockDownloader :=
  mk_downloader (chain_tracker d) (pending_peers d) (most_recent_batch_sizes d) (amount_of_empty_chain_entries d) (block_download_tasks d)
    (chain_entry_task d) (inflight_requests d) l (block_queue d) (bans d).
Definition set_queue (q : BlockQueue) (d : BlockDownloader) : BlockDownloader :=
  mk_downloader (chain_tracker d) (pending_peers d) (most_recent_batch_sizes d) (amount_of_empty_chain_entries d) (block_download_tasks d)
    (chain_entry_task d) (inflight_requests d) (failed_batches d) q (bans d).
Definition add_bans (l : list Ban) (d : BlockDownloader) : BlockDownloader :=
  mk_downloader (chain_tracker d) (pending_peers d) (most_recent_batch_sizes d) (amount_of_empty_chain_entries d) (block_download_tasks d)
    (chain_entry_task d) (inflight_requests d) (failed_batches d) (block_queue d) (bans d ++ l).

(** [self.block_download_tasks.spawn(download_batch_task(..))] *)
Definition spawn_download (client : Client) (b : BlocksToRetrieve) : act () :=
  modify (fun d => set_tasks (block_download_tasks d ++ [mk_task client (b_ids b) (prev_id b) (b_start_height b)]) d).

Definition average (x : Z * BatchSizeInformation) : result BlockDownloadError Z := usize_div (byte_size x.2) (bs_len x.2).

(** [max_by] returns the last of several maxima. *)
Definition biggest_batch (batches : list (Z * BatchSizeInformation)) : result BlockDownloadError (option (Z * BatchSizeInformation)) :=
  match batches with
  | [] => Ok None
  | x :: rest =>
      Some <$> try_fold (fun x y => av1 ← average x; av2 ← average y; Ok (if av2 <? av1 then x else y)) x rest
  end.

Definition amount_of_blocks_to_request (d : BlockDownloader) : result BlockDownloadError Z :=
  biggest ← biggest_batch (iter_order (most_recent_batch_sizes d));
  match biggest with
  | None => Ok (initial_batch_len config)
  | Some (_, info) => calculate_next_block_batch_size (byte_size info) (bs_len info) (target_batch_bytes config)
  end.

(** The loop over the in-flight batches below the oldest ready one. *)
Fixpoint find_inflight (client : Client) (inflight : gmap Z BlocksToRetrieve) (keys : list Z) : option BlocksToRetrieve :=
  match keys with
  | [] => None
  | k :: keys =>
      match inflight !! k with
      | Some in_flight_batch =>
          if 2 <=? requests_sent in_flight_batch then find_inflight client inflight keys
          else if negb (client_has_block_in_range (pruning_seed client) (b_start_height in_flight_batch) (len (b_ids in_flight_batch)))
          then None
          else Some in_flight_batch
      | None => find_inflight client inflight keys
      end
  end.

Definition request_inflight_batch_again (client : Client) : act (option Client) :=
  inflight ← gets inflight_requests;
  _ ← pure_act (rassert (negb (bool_decide (inflight = ∅))));
  oldest ← gets (fun d => oldest_ready_batch (block_queue d));
  oldest ← pure_act (unwrap oldest);
  match find_inflight client inflight (filter (fun k => k < oldest) (keys_in_order inflight)) with
  | Some in_flight_batch => _ ← spawn_download client in_flight_batch; mret None
  | None => mret (Some client)
  end.

(** Drops the failures of batches that came in since, from the front. *)
Fixpoint drop_stale (inflight : gmap Z BlocksToRetrieve) (failed : list Z) : list Z :=
  match failed with
  | [] => []
  | k :: rest => match inflight !! k with None => drop_stale inflight rest | Some _ => failed end
  end.

Definition sent_again (b : BlocksToRetrieve) : BlocksToRetrieve :=
  mk_blocks (b_ids b) (prev_id b) (b_start_height b) (peer_who_told_us b) (peer_who_told_us_handle b) (requests_sent b +! 1) (failures b).

(** The loop over the failed batches: whether the peer was given one. *)
Definition request_failed_batch (client : Client) : act bool :=
  _ ← modify (fun d => set_failed (drop_stale (inflight_requests d) (failed_batches d)) d);
  failed ← gets failed_batches;
  inflight ← gets inflight_requests;
  match failed with
  | [] => mret false
  | k :: rest =>
      match inflight !! k with
      | None => mret false
      | Some request =>
          if client_has_block_in_range (pruning_seed client) (b_start_height request) (len (b_ids request)) then
            let request := sent_again request in
            _ ← modify (set_inflight (<[k := request]> inflight));
            _ ← spawn_download client request;
            _ ← modify (set_failed rest);
            mret true
          else mret false
      end
  end.

Definition request_new_batch (client : Client) : act (option Client) :=
  d ← gets (fun d => d);
  max_blocks ← pure_act (amount_of_blocks_to_request d);
  let '(r, tracker) := blocks_to_get (chain_tracker d) (pruning_seed client) max_blocks in
  _ ← modify (set_tracker tracker);
  r ← pure_act (match r with Ok r => Ok r | _ => Panic end);
  match r with
  | None => mret (Some client)
  | Some b =>
      let b := mk_blocks (b_ids b) (prev_id b) (b_start_height b) (peer_who_told_us b) (peer_who_told_us_handle b) 1 (failures b) in
      _ ← modify (fun d => set_inflight (<[b_start_height b := b]> (inflight_requests d)) d);
      _ ← spawn_download client b;
      mret None
  end.

Definition request_block_batch (client : Client) : act (option Client) :=
  handled ← request_failed_batch client;
  if (handled : bool) then mret None
  else
    size ← gets (fun d => ready_batches_size (block_queue d));
    if in_progress_queue_bytes config <=? size then request_inflight_batch_again client
    else request_new_batch client.

(** The condition under which a peer is asked for the next chain entry. *)
Definition wants_chain_entry (client : Client) (d : BlockDownloader) : result BlockDownloadError bool :=
  if (len (chain_entry_task d) <? 2) && (amount_of_empty_chain_entries d <=? EMPTY_CHAIN_ENTRIES_BEFORE_TOP_ASSUMED) then
    amount ← amount_of_blocks_to_request d;
    queued ← match block_requests_queued (chain_tracker d) amount with Ok n => Ok n | _ => Panic end;
    Ok ((queued <? 500) && should_ask_for_next_chain_entry (chain_tracker d) (pruning_seed client))
  else Ok false.

Definition try_handle_free_client (client : Client) : act (option Client) :=
  d ← gets (fun d => d);
  wants ← pure_act (wants_chain_entry client d);
  if (wants : bool) then
    _ ← modify (fun d => set_entry_tasks (chain_entry_task d ++ [(client, top_seen_hash (chain_tracker d), our_genesis (chain_tracker d))]) d);
    mret None
  else request_block_batch client.

(** The peers of one pruning seed, from the top of their stack. *)
Fixpoint use_peers (is_closed : Client -> bool) (peers : list Client) : act (list Client) :=
  match peers with
  | [] => mret []
  | peer :: rest =>
      if is_closed peer then use_peers is_closed rest
      else
        client ← try_handle_free_client peer;
        match client with
        | Some peer => mret (peer :: rest)
        | None => use_peers is_closed rest
        end
  end.

Fixpoint use_pending (is_closed : Client -> bool) (pending : list (PruningSeed * list Client)) : act (list (PruningSeed * list Client)) :=
  match pending with
  | [] => mret []
  | (seed, peers) :: rest =>
      peers ← use_peers is_closed peers;
      rest ← use_pending is_closed rest;
      mret ((seed, peers) :: rest)
  end.

Definition check_pending_peers (env : Env) : act () :=
  pending ← gets pending_peers;
  pending ← use_pending (is_closed env) pending;
  modify (set_pending pending).

Definition add_pending (client : Client) : act () := modify (fun d => set_pending (push_peer client (pending_peers d)) d).

Definition check_for_free_clients (env : Env) : act () :=
  current_cumulative_difficulty ← pure_act (map_err ServiceError (ask_difficulty (our_chain_svc env)));
  clients ← pure_act (map_err ServiceError (peers_with_more_pow env current_cumulative_difficulty));
  _ ← modify (fun d => set_pending (foldl (fun p client => push_peer client p) (pending_peers d) clients) d);
  check_pending_peers env.

Definition failed_once (b : BlocksToRetrieve) : BlocksToRetrieve :=
  mk_blocks (b_ids b) (prev_id b) (b_start_height b) (peer_who_told_us b) (peer_who_told_us_handle b) (requests_sent b) (failures b +! 1).

(** A failed download. *)
Definition handle_failure (start_height : Z) (e : BlockDownloadError) : act () :=
  inflight ← gets inflight_requests;
  match e with
  | ChainInvalid =>
      _ ← modify (add_bans (match inflight !! start_height with
                            | Some entry => [mk_ban (peer_who_told_us_handle entry) LONG_BAN]
                            | None => []
                            end));
      pure_act (Err ChainInvalid)
  | _ =>
      match inflight !! start_height with
      | Some batch =>
          let batch := failed_once batch in
          _ ← modify (set_inflight (<[start_height := batch]> inflight));
          if MAX_DOWNLOAD_FAILURES <? failures batch then pure_act (Err TimedOut)
          else modify (fun d => set_failed (heap_push (fun k => k) start_height (failed_batches d)) d)
      | None => mret ()
      end
  end.

(** Notes the size of a batch that is higher than the lowest one noted; drops the lowest
    when there are too many. *)
Definition note_size (start_height : Z) (batch : BlockBatch) (sizes : list (Z * BatchSizeInformation)) : list (Z * BatchSizeInformation) :=
  if default 0 (fst <$> head sizes) <? start_height then
    let sizes := heap_push fst (start_height, mk_size_info (len (bb_blocks batch)) (bb_size batch)) sizes in
    if MOST_RECENT_BATCH_WEIGHTS_FOR_BATCH_SIZE <? len sizes then tail sizes else sizes
  else sizes.

Definition handle_download_batch_res (env : Env) (client : Client) (start_height : Z) (res : result BlockDownloadError BlockBatch) : act () :=
  match res with
  | Panic => pure_act Panic
  | Err e => handle_failure start_height e
  | Ok block_batch =>
      inflight ← gets inflight_requests;
      match inflight !! start_height with
      | None => _ ← add_pending client; check_pending_peers env
      | Some _ =>
          let inflight := delete start_height inflight in
          _ ← modify (set_inflight inflight);
          _ ← modify (fun d => set_sizes (note_size start_height block_batch (most_recent_batch_sizes d)) d);
          queue ← gets block_queue;
          let '(r, queue) := add_incoming_batch (stream_open env) (mk_ready start_height block_batch) (head (keys_in_order inflight)) queue in
          _ ← modify (set_queue queue);
          _ ← pure_act r;
          _ ← add_pending client;
          check_pending_peers env
      end
  end.

(** An event of the main loop; a finished task is named by its place. *)
Inductive Event :=
  | TimerFired
  | BatchDone (task : nat) (response : result BoxError (list ObjectEntry))
  | ChainEntryDone (task : nat) (response : result BlockDownloadError ChainResponse).

Definition found_top (d : BlockDownloader) : bool :=
  bool_decide (inflight_requests d = ∅) && (EMPTY_CHAIN_ENTRIES_BEFORE_TOP_ASSUMED <=? amount_of_empty_chain_entries d).

Definition count_empty_entry : act () := modify (fun d => set_empty_entries (amount_of_empty_chain_entries d +! 1) d).

(** One turn of the loop; [true] when the downloader is done. *)
Definition run_event (env : Env) (ev : Event) : act bool :=
  match ev with
  | TimerFired => _ ← check_for_free_clients env; gets found_top
  | BatchDone i response =>
      tasks ← gets block_download_tasks;
      match tasks !! i with
      | None => mret false
      | Some task =>
          _ ← modify (set_tasks (delete i tasks));
          let '(res, bans) := request_batch_from_peer (t_client task) (t_ids task) (t_prev_id task) (t_start_height task) response in
          _ ← modify (add_bans bans);
          _ ← handle_download_batch_res env (t_client task) (t_start_height task) res;
          gets found_top
      end
  | ChainEntryDone i response =>
      tasks ← gets chain_entry_task;
      match tasks !! i with
      | None => mret false
      | Some (client, top, genesis) =>
          _ ← modify (set_entry_tasks (delete i tasks));
          let '(res, bans) := request_chain_entry_from_peer client top genesis response in
          _ ← modify (add_bans bans);
          match res with
          | Panic => mret false
          | Err _ => _ ← count_empty_entry; mret false
          | Ok entry =>
              tracker ← gets chain_tracker;
              let '(r, tracker, bans) := add_entry (ask_validate (our_chain_svc env)) tracker entry in
              _ ← modify (set_tracker tracker);
              _ ← modify (add_bans bans);
              _ ← match r with
                  | Ok _ => modify (set_empty_entries 0)
                  | Err _ => count_empty_entry
                  | Panic => pure_act Panic
                  end;
              _ ← add_pending client;
              _ ← check_pending_peers env;
              mret false
          end
      end
  end.

(** The state before the loop: the search for a chain and a first look for peers. *)
Definition start_downloader (env : Env) (replies : list Client -> list (ChainResponse * Client))
    : result BlockDownloadError BlockDownloader :=
  let '(r, bans) := initial_chain_search env replies in
  tracker ← r;
  match check_for_free_clients env (new_downloader tracker bans) with
  | (Ok _, d) => Ok d
  | (Err e, _) => Err e
  | (Panic, _) => Panic
  end.
End block_downloader.

End BlockDownloader.
