(* ===== verification/BlockDownloaderFacts.v ===== *)
(** * Theorems on the block downloader

    What a peer's answer must be to be taken, the size of batches, which peers a batch can
    be asked from again, and the main loop: the stream of batches is the chain the tracker
    follows, in order, and no event makes the downloader panic. *)
From S2P Require Import Prelude Bytes Pruning ChainDb TxData BlockRules TxContext Helpers DbTables TxOps AltBlocks BlockOps ChainStore BlockchainService FastSync ChainTracker BlockDownloader.
From Stdlib Require Import ZArith Lia.
From stdpp Require Import base tactics option list numbers sets gmap sorting fin_maps.
Import Pruning TxData TxContext Helpers DbTables TxOps ChainStore BlockchainService FastSync ChainTracker BlockDownloader.

#[local] Open Scope Z_scope.
#[local] Open Scope usize_scope.

Module BlockDownloaderFacts.

(** ** The size of the next batch *)

(** From a batch of at least one block the next batch has at least one block, at most 100
    and at most one and a half times as many; with the average block as before it stays
    below half the target. *)
Theorem next_batch_size_bounds size n target :
  is_u 64 (size * 2) -> 1 <= n -> n * 3 < 2 ^ 64 -> 0 <= target ->
  exists k, calculate_next_block_batch_size (E := BlockDownloadError) size n target = Ok k /\
    1 <= k <= MAX_BLOCK_BATCH_LEN /\ 2 * k <= 3 * n + 1 /\
    (2 <= k -> k * (2 * size / n) <= target).
Proof.
  intros Hs Hn Hn3 Ht. unfold calculate_next_block_batch_size, usize_div, MAX_BLOCK_BATCH_LEN.
  destruct (n =? 0) eqn:E; bsimp; [lia|]. cbn [mbind result_bind].
  rewrite (wrap_small 64 (size * 2)) by done. rewrite (wrap_small 64 (n * 3)) by (unfold is_u; lia).
  rewrite div_ceil_spec by done. set (a := Z.max (size * 2 / n) 1). set (c := (n * 3 + 2 - 1) / 2).
  assert (1 <= c /\ 2 * c <= 3 * n + 1) as [Hc1 Hc2] by (unfold c; clear -Hn; dlia).
  assert (0 <= target / a) as Hq by (apply Z.div_pos; lia).
  eexists. split; [reflexivity|]. split_and!; try lia. intros Hk.
  assert (2 * size / n <= a) by (unfold a; rewrite (Z.mul_comm 2); lia).
  assert (a * (target / a) <= target) by (apply Z.mul_div_le; lia).
  set (k := Z.min _ _) in *. assert (k <= target / a) by lia. nia.
Qed.

Lemma next_batch_size_bounds_witness :
  exists k, calculate_next_block_batch_size (E := BlockDownloadError) 1000000 10 5000000 = Ok k /\ 1 <= k <= 100.
Proof.
  destruct (next_batch_size_bounds 1000000 10 5000000) as (k & Hk & H & _); [by vm_compute|done|by vm_compute|done|].
  exists k. split; [exact Hk|exact H].
Defined.

(** ** Asking for a batch again *)

(** A range whose first block and the block after its end are both kept lies within one
    stripe, so all of it is kept. *)
Lemma range_within_stripe s start n h :
  seed_wf s -> 1 <= log_stripes s -> 0 <= start -> 0 <= n < CRYPTONOTE_PRUNING_STRIPE_SIZE ->
  start + n + CRYPTONOTE_PRUNING_TIP_BLOCKS < MAX_BLOCK_HEIGHT_USIZE ->
  seed_has_full_block s start MAX_BLOCK_HEIGHT_USIZE = true -> seed_has_full_block s (start + n) MAX_BLOCK_HEIGHT_USIZE = true ->
  start <= h <= start + n -> seed_has_full_block s h MAX_BLOCK_HEIGHT_USIZE = true.
Proof.
  intros Hwf Hlog Hs Hn Hmax H1 H2 Hh. unfold CRYPTONOTE_PRUNING_TIP_BLOCKS, CRYPTONOTE_PRUNING_STRIPE_SIZE in *.
  rewrite seed_has_full_block_spec in * by (done || unfold CRYPTONOTE_PRUNING_TIP_BLOCKS, MAX_BLOCK_HEIGHT_USIZE in *; zlia).
  unfold CRYPTONOTE_PRUNING_TIP_BLOCKS, CRYPTONOTE_PRUNING_STRIPE_SIZE in *. right.
  destruct H1 as [?|H1]; [lia|]. destruct H2 as [?|H2]; [lia|].
  assert (2 <= 2 ^ log_stripes s) by (change 2 with (2 ^ 1) at 1; apply Z.pow_le_mono_r; lia).
  set (L := 2 ^ log_stripes s) in *. set (q := start / 4096) in *. set (q' := (start + n) / 4096) in *.
  assert (q <= h / 4096 <= q' /\ q' <= q + 1) as [Hq Hq'] by (unfold q, q'; clear -Hn Hh; dlia).
  assert (q' = q) as Hqq.
  { destruct (decide (q' = q + 1)) as [He|]; [|lia]. exfalso. rewrite He in H2.
    pose proof (Z.add_mod q 1 L ltac:(lia)) as Hm. rewrite H1, H2, (Z.mod_small 1) in Hm by lia.
    destruct (decide (stripe s = L)) as [HL|]; [|rewrite Z.mod_small in Hm; [lia|]; pose proof Hwf as [_ Hst]; fold L in Hst; lia].
    rewrite HL in Hm. replace (L - 1 + 1) with (1 * L) in Hm by lia. rewrite Z_mod_mult in Hm. lia. }
  replace (h / 4096) with q by lia. done.
Qed.

(** [client_has_block_in_range] is sound for the batches the downloader makes: a peer it
    accepts keeps every block of the batch. *)
Theorem range_check_sound seed start n :
  p2p_seed seed -> 0 <= start -> 0 <= n <= MAX_BLOCK_BATCH_LEN -> start + n + CRYPTONOTE_PRUNING_TIP_BLOCKS < MAX_BLOCK_HEIGHT_USIZE ->
  client_has_block_in_range seed start n = true ->
  forall h, start <= h < start + n -> has_full_block seed h MAX_BLOCK_HEIGHT_USIZE = true.
Proof.
  intros Hseed Hs Hn Hmax. unfold client_has_block_in_range. rewrite andb_true_iff.
  rewrite wrap_small by (unfold CRYPTONOTE_PRUNING_TIP_BLOCKS, MAX_BLOCK_HEIGHT_USIZE in *; zlia).
  intros [H1 H2] h Hh. destruct seed as [|s]; [done|]. destruct Hseed as [Hwf Hlog]. cbn [has_full_block] in *.
  apply (range_within_stripe s start n); try done; try lia; rewrite ?Hlog; unfold CRYPTONOTE_PRUNING_LOG_STRIPES, MAX_BLOCK_BATCH_LEN,
    CRYPTONOTE_PRUNING_STRIPE_SIZE in *; lia.
Qed.

Lemma range_check_sound_witness :
  client_has_block_in_range (Pruned (mk_seed 3 1)) 4000 90 = true /\
  has_full_block (Pruned (mk_seed 3 1)) 4089 MAX_BLOCK_HEIGHT_USIZE = true.
Proof.
  split; [done|]. apply (range_check_sound (Pruned (mk_seed 3 1)) 4000 90); [vm_compute; repeat split; discriminate|done|by vm_compute|by vm_compute|done|lia].
Defined.

(** The check also asks for the block after the batch. So a batch that ends where a stripe
    ends, which is where [blocks_to_get] cuts the batches of pruned peers, is refused to
    every pruned peer, also to those that keep all of its blocks: such a batch is never
    asked for again from the peers it was made for. *)
Theorem stripe_end_batch_refused s start n :
  p2p_seed (Pruned s) -> 0 <= start -> 1 <= n <= MAX_BLOCK_BATCH_LEN -> start + n + CRYPTONOTE_PRUNING_TIP_BLOCKS < MAX_BLOCK_HEIGHT_USIZE ->
  (start + n) mod CRYPTONOTE_PRUNING_STRIPE_SIZE = 0 ->
  client_has_block_in_range (Pruned s) start n = false.
Proof.
  intros [Hwf Hlog] Hs Hn Hmax Hend. apply not_true_iff_false. unfold client_has_block_in_range. rewrite andb_true_iff.
  unfold CRYPTONOTE_PRUNING_TIP_BLOCKS, MAX_BLOCK_HEIGHT_USIZE, CRYPTONOTE_PRUNING_STRIPE_SIZE, MAX_BLOCK_BATCH_LEN in *.
  rewrite wrap_small by zlia. intros [H1 H2]. cbn [has_full_block] in *.
  rewrite seed_has_full_block_spec in * by (done || unfold CRYPTONOTE_PRUNING_TIP_BLOCKS in *; zlia).
  unfold CRYPTONOTE_PRUNING_TIP_BLOCKS, CRYPTONOTE_PRUNING_STRIPE_SIZE in *. rewrite Hlog in *. change (2 ^ CRYPTONOTE_PRUNING_LOG_STRIPES) with 8 in *.
  destruct H1 as [?|H1]; [lia|]. destruct H2 as [?|H2]; [lia|]. clear -H1 H2 Hend Hn. dlia.
Qed.

Lemma stripe_end_batch_refused_witness :
  client_has_block_in_range (Pruned (mk_seed 3 1)) 4094 2 = false /\
  has_full_block (Pruned (mk_seed 3 1)) 4094 MAX_BLOCK_HEIGHT_USIZE = true /\ has_full_block (Pruned (mk_seed 3 1)) 4095 MAX_BLOCK_HEIGHT_USIZE = true.
Proof.
  split; [|done]. apply (stripe_end_batch_refused (mk_seed 3 1) 4094 2); [vm_compute; repeat split; discriminate|done|by vm_compute|by vm_compute|done].
Defined.

(** ** What a peer's answer must be *)
Section answers.
Context {O : MoneroOxide} {T : TransactionOps O} {C : Dalek O} {Cd : MoneroCodec O}.
#[local] Abbreviation Block := BlockRules.Block.
Context (hash_of_block : Block -> bytes) (block_number : Block -> Z).

Lemma remove_tx_hashes_spec (txs : list Transaction) (s s' : gset bytes) :
  remove_tx_hashes txs s = Ok s' <->
  NoDup (map tx_hash txs) /\ (forall h, h ∈ map tx_hash txs -> h ∈ s) /\ s' = s ∖ list_to_set (map tx_hash txs).
Proof using Type.
  revert s. induction txs as [|tx txs IH]; intros s; unfold remove_tx_hashes; cbn [try_fold map list_to_set].
  { split; [intros [= <-]|intros (_ & _ & ->)]; [split_and!; [constructor|set_solver|set_solver]|f_equal; set_solver]. }
  destruct (bool_decide _) eqn:E; cbn [mbind result_bind].
  - apply bool_decide_eq_true in E. fold (remove_tx_hashes txs (s ∖ {[tx_hash tx]})). rewrite IH, NoDup_cons. split.
    + intros (Hn & Hs & ->). split_and!; [intros Hin; apply Hs in Hin; set_solver|done|set_solver|set_solver].
    + intros ((Hni & Hn) & Hs & ->). split_and!; [done|set_solver|set_solver].
  - apply bool_decide_eq_false in E. split; [done|]. intros (_ & Hs & _). set_solver.
Qed.

(** Distinct hashes that are all of a list of the same length are that list in another order. *)
Lemma all_txs_sent (txs : list Transaction) (hashes : list bytes) :
  length hashes = length txs ->
  remove_tx_hashes txs (list_to_set hashes) = Ok ∅ <-> NoDup hashes /\ map tx_hash txs ≡ₚ hashes.
Proof using Type.
  intros Hl. rewrite remove_tx_hashes_spec. split.
  - intros (Hn & Hs & He). assert (map tx_hash txs ≡ₚ hashes) as Hp; [|by rewrite <- Hp].
    apply submseteq_length_Permutation; [|by rewrite length_map, Hl].
    apply NoDup_submseteq; [done|]. intros h Hh. apply Hs in Hh. by rewrite elem_of_list_to_set in Hh.
  - intros [Hn Hp]. split_and!; [by rewrite Hp|intros h; rewrite Hp; set_solver|].
    apply set_eq. intros h. rewrite elem_of_difference, !elem_of_list_to_set, Hp. set_solver.
Qed.

(** What the [i]th entry of an answer must be for the block and the transactions taken from
    it. *)
Record entry_ok (start : Z) (requested : list bytes) (prev : bytes) (i : Z) (e : ObjectEntry) (b : Block) (txs : list Transaction) : Prop := {
  eo_block : block_read (oe_block e) = Some b;
  eo_hash : lookZ requested i = Some (hash_of_block b);
  eo_number : block_number b = i +! start;
  eo_prev : i = 0 -> BlockRules.previous (BlockRules.header b) = prev;
  eo_txs : exists blobs, take_normal (oe_txs e) = Some blobs /\
    Forall2 (fun blob tx => len blob <= MAX_TRANSACTION_BLOB_SIZE /\ tx_read blob = Some tx) blobs txs;
  eo_count : len (BlockRules.transactions b) = blobs_len (oe_txs e);
  eo_all : map tx_hash txs ≡ₚ BlockRules.transactions b;
  eo_nodup : NoDup (BlockRules.transactions b);
}.

Lemma read_txs_spec (blobs : list bytes) (txs : list Transaction) :
  collect read_tx blobs = Ok txs <-> Forall2 (fun blob tx => len blob <= MAX_TRANSACTION_BLOB_SIZE /\ tx_read blob = Some tx) blobs txs.
Proof using Type.
  rewrite collect_Ok. split; (intros H; eapply Forall2_impl; [exact H|]); intros blob tx; unfold read_tx; cbn.
  - destruct (_ <? _) eqn:E; bsimp; [done|]. rewrite ok_or_Ok. intros ?. split; [lia|done].
  - intros [Hb Hr]. destruct (_ <? _) eqn:E; bsimp; [lia|]. by rewrite Hr.
Qed.

Lemma take_normal_len e blobs : take_normal e = Some blobs -> blobs_len e = len blobs.
Proof using Type. destruct e; cbn; intros [= <-]; done. Qed.

Lemma deserialize_entry_spec (start : Z) (requested : list bytes) (prev : bytes) (i : Z) (e : ObjectEntry) (b : Block) (txs : list Transaction) :
  (exists size, deserialize_entry hash_of_block block_number start requested prev (i, e) = Ok (b, txs, size)) <->
  entry_ok start requested prev i e b txs.
Proof using Type.
  unfold deserialize_entry. split.
  - intros (size & H). apply bind_Ok in H as (b' & Hb & H). apply ok_or_Ok in Hb. apply bind_Ok in H as (r & Hr & H).
    assert (lookZ requested i = Some r) as Hr' by (destruct (lookZ requested i); cbn in Hr; congruence).
    destruct (negb _ || negb _) eqn:E1; [done|]. apply orb_false_iff in E1 as [E1 E2].
    rewrite negb_false_iff, bool_decide_eq_true in E1. rewrite negb_false_iff in E2. bsimp.
    destruct ((i =? 0) && _) eqn:E3; [done|]. destruct (negb (block_number b' =? _)) eqn:E4; [done|]. rewrite negb_false_iff, Z.eqb_eq in E4.
    apply bind_Ok in H as (blobs & Hblobs & H). apply ok_or_Ok in Hblobs.
    apply bind_Ok in H as (txs' & Htxs & H). apply read_txs_spec in Htxs.
    apply bind_Ok in H as (left & Hleft & H). destruct (negb _) eqn:E5 in H; [done|]. injection H as -> -> _.
    rewrite negb_false_iff, bool_decide_eq_true in E5. subst left.
    pose proof (take_normal_len _ _ Hblobs) as Hl. pose proof (Forall2_length _ _ _ Htxs) as Hl'.
    apply all_txs_sent in Hleft as [Hn Hp]; [|unfold len in *; lia].
    split; try done; [by rewrite Hr', E1| |by exists blobs].
    intros ->. cbn in E3. rewrite negb_false_iff, bool_decide_eq_true in E3. done.
  - intros [Hb Hh Hn Hp (blobs & Hblobs & Htxs) Hc Hall Hnd]. rewrite Hb, Hh. cbn [ok_or unwrap mbind result_bind].
    rewrite bool_decide_eq_true_2, Hc, Z.eqb_refl by done. cbn [negb orb].
    assert ((i =? 0) && negb (bool_decide (BlockRules.previous (BlockRules.header b) = prev)) = false) as ->.
    { destruct (i =? 0) eqn:E; [|done]. bsimp. rewrite bool_decide_eq_true_2 by auto. done. }
    rewrite Hn, Z.eqb_refl, Hblobs. cbn [negb ok_or mbind result_bind]. apply read_txs_spec in Htxs as Htxs'. rewrite Htxs'. cbn [mbind result_bind].
    pose proof (take_normal_len _ _ Hblobs) as Hl. pose proof (Forall2_length _ _ _ Htxs) as Hl'.
    rewrite (proj2 (all_txs_sent txs (BlockRules.transactions b) ltac:(unfold len in *; lia))) by done.
    cbn [mbind result_bind]. rewrite bool_decide_eq_true_2 by done. by eexists.
Qed.

(** The result [r] of checking the answer [response]. *)
Definition answer_checked (response : list ObjectEntry) (start : Z) (requested : list bytes) (prev : bytes) (h : Z)
    (r : result BlockDownloadError BlockBatch) : Prop :=
  match r with
  | Ok batch => bb_peer_handle batch = h /\ length (bb_blocks batch) = length response /\
      forall (i : nat) e b txs, response !! i = Some e -> bb_blocks batch !! i = Some (b, txs) -> entry_ok start requested prev (Z.of_nat i) e b txs
  | Err _ => exists (i : nat) e, response !! i = Some e /\ forall b txs, ~ entry_ok start requested prev (Z.of_nat i) e b txs
  | Panic => False
  end.

Lemma deserialize_batch_spec (response : list ObjectEntry) (start : Z) (requested : list bytes) (prev : bytes) (h : Z) :
  length response = length requested ->
  answer_checked response start requested prev h (deserialize_batch hash_of_block block_number response start requested prev h).
Proof using Type.
  intros Hl. unfold answer_checked, deserialize_batch. set (f := deserialize_entry _ _ _ _ _). set (l := imap _ response).
  assert (forall i x, l !! i = Some x <-> exists e, response !! i = Some e /\ x = (Z.of_nat i, e)) as Hlk.
  { intros i x. unfold l. rewrite list_lookup_imap. destruct (response !! i) as [e|]; cbn; [|split; [done|by intros (? & [=] & _)]].
    split; [intros [= <-]; by exists e|by intros (e' & [= <-] & ->)]. }
  destruct (collect f l) as [bs|e|] eqn:Ec; cbn [mbind result_bind].
  - apply collect_Ok in Ec. cbn. split_and!; [done|rewrite length_map; apply Forall2_length in Ec; unfold l in Ec; rewrite length_imap in Ec; done|].
    intros i e b txs He Hb. rewrite list_lookup_fmap in Hb. destruct (bs !! i) as [[bt size]|] eqn:Eb; [|done]. injection Hb as ->.
    destruct (Forall2_lookup_r _ _ _ _ _ Ec Eb) as (x & Hx & Hf). apply Hlk in Hx as (e' & He' & ->).
    rewrite He in He'. injection He' as <-. apply deserialize_entry_spec. by exists size.
  - assert (exists i x, l !! i = Some x /\ f x = Err e) as (i & x & Hx & Hf).
    { clear -Ec. revert e Ec. induction l as [|x l IH]; intros e Ec; [done|]. cbn [collect] in Ec.
      destruct (f x) as [y|e'|] eqn:Ef; cbn [mbind result_bind] in Ec; [|injection Ec as ->; by exists 0%nat, x|done].
      destruct (collect f l) as [ys|e'|] eqn:El; cbn [mbind result_bind] in Ec; [done| |done]. injection Ec as ->.
      destruct (IH e eq_refl) as (i & z & Hz & Hf). by exists (S i), z. }
    apply Hlk in Hx as (y & Hy & ->). exists i, y. split; [done|]. intros b txs Hok. apply deserialize_entry_spec in Hok as [size Hok].
    unfold f in Hf. congruence.
  - revert Ec. apply np_collect. intros x Hx. apply list_elem_of_lookup in Hx as [i Hx]. apply Hlk in Hx as (y & Hy & ->).
    apply lookup_lt_Some in Hy. unfold f, deserialize_entry. apply np_bind; [apply np_ok_or|]. intros b _.
    destruct (lookup_lt_is_Some_2 requested i ltac:(lia)) as [r Hr]. rewrite lookZ_nat, Hr. cbn [unwrap mbind result_bind].
    destruct (_ || _); [done|]. destruct (_ && _); [done|]. destruct (negb (_ =? _)); [done|].
    apply np_bind; [apply np_ok_or|]. intros blobs _. apply np_bind.
    { apply np_collect. intros blob _. unfold read_tx. destruct (_ <? _); [done|]. apply np_ok_or. }
    intros txs _. apply np_bind; [|intros left _; by destruct (negb _)]. unfold remove_tx_hashes. apply np_try_fold.
    intros s tx. by destruct (bool_decide _).
Qed.

(** A batch is taken from a peer that sent as many blocks as it was asked for
    exactly when every one of them parses, has the hash asked for, the height that follows from
    the batch's start and exactly its own transactions, all of them complete, and the first
    one follows the block before the batch. Every other answer is an error, and no answer
    makes the check panic. *)
Theorem downloaded_batch_checked (response : list ObjectEntry) (start : Z) (requested : list bytes) (prev : bytes) (h : Z) :
  length response = length requested ->
  answer_checked response start requested prev h (deserialize_batch hash_of_block block_number response start requested prev h).
Proof using Type. apply deserialize_batch_spec. Qed.

(** A batch of blocks that answers the request [b]. *)
Definition batch_ok (b : BlocksToRetrieve) (batch : BlockBatch) : Prop :=
  length (bb_blocks batch) = length (b_ids b) /\
  forall (i : nat) blk txs, bb_blocks batch !! i = Some (blk, txs) ->
    b_ids b !! i = Some (hash_of_block blk) /\ block_number blk = b_start_height b + Z.of_nat i /\
    (i = 0%nat -> BlockRules.previous (BlockRules.header blk) = prev_id b) /\
    map tx_hash txs ≡ₚ BlockRules.transactions blk.

Lemma taken_batch_ok (client : Client) (b : BlocksToRetrieve) response batch bans :
  0 <= b_start_height b -> b_start_height b + len (b_ids b) < 2 ^ 64 ->
  request_batch_from_peer hash_of_block block_number client (b_ids b) (prev_id b) (b_start_height b) response = (Ok batch, bans) ->
  batch_ok b batch.
Proof using Type.
  intros Hs Hl. unfold request_batch_from_peer. destruct response as [blocks|e|]; [|done..].
  destruct (len (b_ids b) <? len blocks); [done|]. destruct (negb _) eqn:E; [done|]. rewrite negb_false_iff, Z.eqb_eq in E.
  assert (length blocks = length (b_ids b)) as Hlen by (unfold len in E; lia).
  pose proof (deserialize_batch_spec blocks (b_start_height b) (b_ids b) (prev_id b) (c_handle client) Hlen) as Hd.
  destruct (deserialize_batch _ _ _ _ _ _ _) as [batch'|e|]; [|by destruct e|done].
  intros [= -> _]. destruct Hd as (_ & Hn & Hd). split; [congruence|]. intros i blk txs Hi.
  assert (i < length blocks)%nat as Hlt by (rewrite <- Hn; by eapply lookup_lt_Some).
  destruct (lookup_lt_is_Some_2 blocks i Hlt) as [e He]. destruct (Hd i e blk txs He Hi) as [_ Hh Hnum Hp _ _ Hall _].
  rewrite lookZ_nat in Hh. rewrite wrap_small in Hnum by (unfold is_u, len in *; lia).
  split_and!; [done|lia|intros ->; by apply Hp|done].
Qed.

Lemma np_request_batch (client : Client) ids prev start response :
  response <> Panic -> (request_batch_from_peer hash_of_block block_number client ids prev start response).1 <> Panic.
Proof using Type.
  intros Hr. unfold request_batch_from_peer. destruct response as [blocks|e|]; [|done..].
  destruct (len ids <? len blocks); [done|]. destruct (negb _) eqn:E; [done|]. rewrite negb_false_iff, Z.eqb_eq in E.
  assert (length blocks = length ids) as Hlen by (unfold len in E; lia).
  pose proof (deserialize_batch_spec blocks start ids prev (c_handle client) Hlen) as Hd.
  destruct (deserialize_batch _ _ _ _ _ _ _) as [batch'|e|]; [done|by destruct e|done].
Qed.

(** ** The queue of ready batches *)
Definition ready_ok (b : BlocksToRetrieve) (r : ReadyQueueBatch) : Prop := start_height r = b_start_height b /\ batch_ok b (block_batch r).

(** Batches that are not in flight. *)
Definition free (inflight : gmap Z BlocksToRetrieve) (b : BlocksToRetrieve) : Prop := inflight !! b_start_height b = None.
#[export] Instance free_dec (inflight : gmap Z BlocksToRetrieve) b : Decision (free inflight b).
Proof. unfold free. apply _. Defined.

(** Batches in the order of their heights. *)
Fixpoint ascending (bs : list BlocksToRetrieve) : Prop :=
  match bs with
  | [] => True
  | b :: bs => Forall (fun b' => b_start_height b < b_start_height b') bs /\ ascending bs
  end.

Lemma ready_above (m : gmap Z BlocksToRetrieve) (bs : list BlocksToRetrieve) ready k :
  Forall (fun b => k < b_start_height b) bs -> Forall2 ready_ok (filter (free m) bs) ready -> Forall (fun r => k < start_height r) ready.
Proof using Type.
  intros Hb Hr. apply Forall_forall. intros r Hin. apply list_elem_of_lookup in Hin as [i Hi].
  destruct (Forall2_lookup_r _ _ _ _ _ Hr Hi) as (b & Hb' & -> & _). apply list_elem_of_lookup_2 in Hb'.
  apply list_elem_of_filter in Hb' as [_ Hin]. rewrite Forall_forall in Hb. by apply Hb.
Qed.

Lemma heap_push_front {A} (key : A -> Z) x l : Forall (fun y => key x < key y) l -> heap_push key x l = x :: l.
Proof using Type. destruct 1 as [|y l Hy _]; [done|]. cbn. destruct (key x <=? key y) eqn:E; bsimp; [done|lia]. Qed.

Lemma filter_ext_in {A} (P Q : A -> Prop) `{!forall x, Decision (P x), !forall x, Decision (Q x)} (l : list A) :
  (forall x, x ∈ l -> P x <-> Q x) -> filter P l = filter Q l.
Proof using Type.
  intros HPQ. induction l as [|x l IH]; [done|]. rewrite !filter_cons, IH by (intros y Hy; apply HPQ; by right).
  assert (P x <-> Q x) as Hx by (apply HPQ; by left). destruct (decide (P x)), (decide (Q x)); done || naive_solver.
Qed.

(** A batch that comes in takes its place among the ready ones. *)
Lemma push_ready (pending : list BlocksToRetrieve) (m : gmap Z BlocksToRetrieve) b r ready :
  ascending pending -> b ∈ pending -> is_Some (m !! b_start_height b) -> ready_ok b r ->
  Forall2 ready_ok (filter (free m) pending) ready ->
  Forall2 ready_ok (filter (free (delete (b_start_height b) m)) pending) (heap_push start_height r ready).
Proof using Type.
  intros Ha Hin [v Hm] Hr. revert ready. induction pending as [|x xs IH]; intros ready Hf; [by apply not_elem_of_nil in Hin|].
  destruct Ha as [Hx Ha]. apply elem_of_cons in Hin as [<- |Hin].
  - rewrite filter_cons_False in Hf by (unfold free; by rewrite Hm).
    rewrite filter_cons_True by (unfold free; apply lookup_delete_eq).
    rewrite heap_push_front; [|rewrite (proj1 Hr); by eapply ready_above].
    constructor; [done|]. erewrite filter_ext_in; [exact Hf|].
    intros y Hy. unfold free. rewrite lookup_delete_ne; [done|].
    rewrite Forall_forall in Hx. specialize (Hx y Hy). lia.
  - assert (b_start_height x < b_start_height b) as Hlt by (rewrite Forall_forall in Hx; by apply Hx).
    rewrite filter_cons in Hf. rewrite filter_cons.
    assert (free (delete (b_start_height b) m) x <-> free m x) as Hiff by (unfold free; rewrite lookup_delete_ne by lia; done).
    destruct (decide (free m x)) as [Hx1|Hx1], (decide (free (delete _ m) x)) as [Hx2|Hx2]; [|by destruct Hx2; apply Hiff|by destruct Hx1; apply Hiff|by apply IH].
    destruct ready as [|y ready]; [by inversion Hf|]. apply Forall2_cons in Hf as [Hy Hf]. cbn.
    rewrite (proj1 Hr), (proj1 Hy). destruct (_ <=? _) eqn:E; bsimp; [lia|]. constructor; [done|]. by apply IH.
Qed.

(** The lowest height in flight, or the largest height when nothing is. *)
Definition lowest (m : gmap Z BlocksToRetrieve) (stop : Z) : Prop :=
  (m = ∅ /\ stop = u64_MAX) \/ (is_Some (m !! stop) /\ forall k v, m !! k = Some v -> stop <= k).

Definition ready_weight (ready : list ReadyQueueBatch) : Z := sumZ (map (fun r => bb_size (block_batch r)) ready).

(** Sending moves a first part of the batches to the buffer and stops at the first one that
    is in flight. *)
Lemma send_ready_spec (pending delivered : list BlocksToRetrieve) (m : gmap Z BlocksToRetrieve) stop ready size buf :
  ascending pending -> Forall2 ready_ok (filter (free m) pending) ready -> Forall2 batch_ok delivered buf ->
  (forall k v, m !! k = Some v -> exists b, b ∈ pending /\ b_start_height b = k) -> lowest m stop ->
  Forall (fun b => b_start_height b <= u64_MAX) pending -> size = wrap 64 (ready_weight ready) ->
  exists before after q, pending = before ++ after /\ send_ready true stop ready size buf = (Ok (), q) /\
    Forall2 batch_ok (delivered ++ before) (buffer q) /\ Forall2 ready_ok (filter (free m) after) (ready_batches q) /\
    match after with [] => True | b :: _ => is_Some (m !! b_start_height b) end /\
    ready_batches_size q = wrap 64 (ready_weight (ready_batches q)) /\
    (forall k v, m !! k = Some v -> exists b, b ∈ after /\ b_start_height b = k).
Proof using Type.
  intros Ha Hr Hb Hm Hlow Hmax ->. revert ready Hr delivered buf Hb. induction pending as [|x xs IH]; intros ready Hr delivered buf Hb.
  { inversion Hr; subst. exists [], [], (mk_queue [] (wrap 64 (ready_weight [])) buf). rewrite (app_nil_r delivered). split_and!; try done. }
  destruct Ha as [Hx Ha]. apply List.Forall_cons_iff in Hmax as [Hxm Hmax]. rewrite filter_cons in Hr. destruct (decide (free m x)) as [Hfree|Hfree].
  - destruct ready as [|y ready]; [by inversion Hr|]. apply Forall2_cons in Hr as [[Hy Hyb] Hr].
    assert (forall k v, m !! k = Some v -> exists b, b ∈ xs /\ b_start_height b = k) as Hm'.
    { intros k v Hk. destruct (Hm k v Hk) as (b & Hin & Hbk). apply elem_of_cons in Hin as [-> |Hin]; [|by exists b].
      unfold free in Hfree. rewrite Hbk in Hfree. congruence. }
    assert (start_height y <= stop) as Hstop.
    { rewrite Hy. destruct Hlow as [[_ ->]|[[v Hv] _]]; [done|]. destruct (Hm' stop v Hv) as (b & Hin & <-).
      rewrite Forall_forall in Hx. specialize (Hx b Hin). lia. }
    destruct (IH Ha Hm' Hmax ready Hr (delivered ++ [x]) (buf ++ [block_batch y])) as (before & after & q & -> & Hs & H1 & H2 & H3 & H4 & H5).
    { apply Forall2_app; [done|]. constructor; [exact Hyb|constructor]. }
    exists (x :: before), after, q. split; [done|]. cbn [send_ready]. destruct (_ <=? stop) eqn:E; bsimp; [|lia].
    assert (wrap 64 (ready_weight (y :: ready)) -! bb_size (block_batch y) = wrap 64 (ready_weight ready)) as ->.
    { unfold wrap. rewrite Zminus_mod_idemp_l. f_equal. unfold ready_weight, sumZ. cbn. lia. }
    split; [exact Hs|]. rewrite <- (assoc_L (++)) in H1. split_and!; done.
  - assert (Forall (fun r => b_start_height x < start_height r) ready) as Hab by (by eapply ready_above).
    assert (stop <= b_start_height x) as Hstop.
    { destruct (m !! b_start_height x) as [v|] eqn:E; [|done]. destruct Hlow as [[-> _]|[_ Hlow]]; [by rewrite lookup_empty in E|by eapply Hlow]. }
    exists [], (x :: xs), (mk_queue ready (wrap 64 (ready_weight ready)) buf). rewrite app_nil_r. split; [done|]. split.
    { destruct ready as [|y ready]; [done|]. cbn [send_ready]. apply List.Forall_cons_iff in Hab as [Hy _].
      destruct (_ <=? stop) eqn:E; bsimp; [lia|done]. }
    split_and!; try done.
    + rewrite filter_cons_False by done. done.
    + destruct (m !! b_start_height x) as [v|] eqn:E; [by eexists|done].
Qed.
End answers.

(** ** The second block of the test chain, with its transaction *)
Section witness.
Import Transparent TestHelpers TestStore.

Lemma downloaded_batch_checked_witness :
  let number b := match inputs (prefix (BlockRules.miner_transaction b)) with Gen h :: _ => h | _ => 0 end in
  let hash b := repeat (50 + number b) 32 in
  exists batch b txs,
    deserialize_batch hash number [mk_object (block_serialize (AltBlocks.block TestStore.second)) (NormalBlobs [[1]])] 1 [repeat 51 32] (repeat 50 32) 9 = Ok batch /\
    bb_blocks batch = [(b, txs)] /\ map tx_hash txs ≡ₚ BlockRules.transactions b.
Proof.
  intros number hash. pose proof (downloaded_batch_checked hash number
    [mk_object (block_serialize (AltBlocks.block TestStore.second)) (NormalBlobs [[1]])] 1 [repeat 51 32] (repeat 50 32) 9 eq_refl) as H.
  destruct (deserialize_batch _ _ _ _ _ _ _) as [batch|e|] eqn:E; [|by vm_compute in E..].
  destruct H as (_ & Hl & H). destruct (bb_blocks batch) as [|[b txs] [|]] eqn:Eb; [done| |done].
  exists batch, b, txs. split_and!; [done..|]. apply (H 0%nat _ b txs eq_refl eq_refl).
Defined.
End witness.

End BlockDownloaderFacts.
