(* ===== verification/DownloadRunFacts.v ===== *)
(** * The main loop of the block downloader

    The invariant of the loop splits the batches the tracker has handed out into those
    that were delivered to the buffer and those that were not; the latter are ready or in
    flight, and the lowest of them is in flight. *)
From S2P Require Import Prelude Bytes Pruning ChainDb TxData BlockRules TxContext Helpers DbTables TxOps AltBlocks BlockOps ChainStore BlockchainService FastSync ChainTracker BlockDownloader BlockDownloaderFacts.
From Stdlib Require Import ZArith Lia.
From stdpp Require Import base tactics option list numbers sets gmap sorting fin_maps.
Import Pruning TxData TxContext Helpers DbTables TxOps ChainStore BlockchainService FastSync ChainTracker BlockDownloader BlockDownloaderFacts.

#[local] Open Scope Z_scope.
#[local] Open Scope usize_scope.

Module DownloadRunFacts.

(** ** Batches that follow each other *)

(** [bs] starts at height [h] after the block [p], each batch starts where the one before
    ends, and the last one ends at [h'] with the block [p']. *)
Fixpoint follows (h : Z) (p : bytes) (bs : list BlocksToRetrieve) (h' : Z) (p' : bytes) : Prop :=
  match bs with
  | [] => h' = h /\ p' = p
  | b :: bs => b_start_height b = h /\ prev_id b = p /\ exists q, last (b_ids b) = Some q /\ follows (h + len (b_ids b)) q bs h' p'
  end.

Lemma follows_app h p l1 l2 h' p' :
  follows h p (l1 ++ l2) h' p' <-> exists h1 p1, follows h p l1 h1 p1 /\ follows h1 p1 l2 h' p'.
Proof.
  revert h p. induction l1 as [|b l1 IH]; intros h p; cbn.
  { split; [intros H; by exists h, p|by intros (h1 & p1 & [-> ->] & H)]. }
  split.
  - intros (H1 & H2 & q & Hq & H). apply IH in H as (h1 & p1 & H3 & H4). exists h1, p1. eauto 10.
  - intros (h1 & p1 & (H1 & H2 & q & Hq & H3) & H4). split_and!; [done..|]. exists q. split; [done|]. apply IH. eauto.
Qed.

Lemma last_len {A} (l : list A) x : last l = Some x -> 1 <= len l.
Proof. destruct l; [done|]. unfold len. cbn. lia. Qed.

Lemma follows_len h p bs h' p' : follows h p bs h' p' -> len (bs ≫= b_ids) = h' - h.
Proof.
  revert h p. induction bs as [|b bs IH]; intros h p; cbn [follows]; [intros [-> _]; change ([] ≫= b_ids) with (@nil bytes); change (len []) with 0; lia|].
  intros (_ & _ & q & _ & H). apply IH in H. change ((b :: bs) ≫= b_ids) with (b_ids b ++ (bs ≫= b_ids)). rewrite len_app. lia.
Qed.

Lemma follows_bounds h p bs h' p' :
  follows h p bs h' p' -> h <= h' /\ Forall (fun b => h <= b_start_height b /\ 1 <= len (b_ids b) /\ b_start_height b + len (b_ids b) <= h') bs.
Proof.
  revert h p. induction bs as [|b bs IH]; intros h p; cbn; [intros [-> _]; split; [lia|constructor]|].
  intros (H1 & _ & q & Hq & H). apply last_len in Hq. apply IH in H as [Hle HF]. split; [lia|]. constructor; [lia|].
  eapply Forall_impl; [exact HF|]. intros b'. cbn. lia.
Qed.

Lemma follows_ascending h p bs h' p' : follows h p bs h' p' -> ascending bs.
Proof.
  revert h p. induction bs as [|b bs IH]; intros h p; cbn; [done|]. intros (H1 & _ & q & Hq & H). split; [|by eapply IH].
  apply last_len in Hq. apply follows_bounds in H as [_ HF]. eapply Forall_impl; [exact HF|]. intros b'. cbn. lia.
Qed.

(** The same request, whatever was counted on it. *)
Definition same_batch (b b' : BlocksToRetrieve) : Prop :=
  b_ids b = b_ids b' /\ prev_id b = prev_id b' /\ b_start_height b = b_start_height b'.

#[local] Arguments blocks_to_get : simpl never.
#[local] Arguments add_incoming_batch : simpl never.
#[local] Arguments client_has_block_in_range : simpl never.

(** The ids a tracker holds, in order. *)
Definition tracked_ids (c : ChainTracker) : list bytes := map (fun x => x.1.1) (tracked c).

Section run.
Context {O : MoneroOxide} {T : TransactionOps O} {C : Dalek O} {Cd : MoneroCodec O}.
Context (hash_of_block : BlockRules.Block -> bytes) (block_number : BlockRules.Block -> Z).
Context (config : BlockDownloaderConfig) (iter_order : list (Z * BatchSizeInformation) -> list (Z * BatchSizeInformation)).
Context (Hiter : forall l, iter_order l ≡ₚ l).
Context (Hqueue : 0 < in_progress_queue_bytes config) (Htarget : 0 <= target_batch_bytes config) (Hinitial : 1 <= initial_batch_len config).
(** The height and the block the download starts after; what the chain service settles. *)
Context (h0 : Z) (p0 : bytes) (settled : Z -> list ChainEntry -> Prop).
(** The ids the peers have told us of since, in order. *)
Context (told : list bytes).
#[local] Abbreviation batch_ok := (batch_ok hash_of_block block_number).
#[local] Abbreviation ready_ok := (ready_ok hash_of_block block_number).
#[local] Abbreviation act := (act (O := O)).

Record dl_ok (d : BlockDownloader) (delivered pending : list BlocksToRetrieve) : Prop := {
  dk_tracker : tracker_inv (settled := settled) (chain_tracker d);
  dk_sane : sane_heights (chain_tracker d);
  dk_follows : follows h0 p0 (delivered ++ pending) (first_height (chain_tracker d)) (previous_hash (chain_tracker d));
  dk_told : told = ((delivered ++ pending) ≫= b_ids) ++ tracked_ids (chain_tracker d);
  dk_buffer : Forall2 batch_ok delivered (buffer (block_queue d));
  dk_ready : Forall2 ready_ok (filter (free (inflight_requests d)) pending) (ready_batches (block_queue d));
  dk_inflight : forall k b, inflight_requests d !! k = Some b -> exists b', b' ∈ pending /\ same_batch b b' /\ b_start_height b' = k;
  dk_head : match pending with [] => True | b :: _ => is_Some (inflight_requests d !! b_start_height b) end;
  dk_size : ready_batches_size (block_queue d) = wrap 64 (ready_weight (ready_batches (block_queue d)));
  dk_tasks : Forall (fun t => p2p_seed (pruning_seed (t_client t)) /\
    exists b, b ∈ delivered ++ pending /\ t_ids t = b_ids b /\ t_prev_id t = prev_id b /\ t_start_height t = b_start_height b) (block_download_tasks d);
  dk_entry_tasks : Forall (fun t => p2p_seed (pruning_seed t.1.1)) (chain_entry_task d);
  dk_sizes : Forall (fun x => 1 <= bs_len x.2 <= MAX_BLOCK_HEIGHT_USIZE) (most_recent_batch_sizes d);
  dk_peers : Forall (fun x => Forall (fun c => p2p_seed (pruning_seed c)) x.2) (pending_peers d);
}.

Definition inv (d : BlockDownloader) : Prop := exists delivered pending, dl_ok d delivered pending.

(** The outcome of a step: an error, or a value with [Q] in a state with the invariant;
    never a panic. *)
Definition good {A} (Q : A -> Prop) (r : result BlockDownloadError A * BlockDownloader) : Prop :=
  match r with (Ok a, d') => inv d' /\ Q a | (Err _, _) => True | (Panic, _) => False end.

Lemma good_bind {A B} (x : act A) (f : A -> act B) (P : A -> Prop) (Q : B -> Prop) d :
  good P (x d) -> (forall a d', inv d' -> P a -> good Q (f a d')) -> good Q ((x ≫= f) d).
Proof using Type.
  intros Hx Hf. unfold mbind, act_bind. destruct (x d) as [[a|e|] d']; try done. destruct Hx as [Hi Ha]. by apply Hf.
Qed.

Lemma good_pure {A} (r : result BlockDownloadError A) (Q : A -> Prop) d :
  inv d -> r <> Panic -> (forall a, r = Ok a -> Q a) -> good Q (pure_act r d).
Proof using Type. intros Hd Hr HQ. unfold pure_act. destruct r; [split; [done|by apply HQ]|done|done]. Qed.

Lemma bind_modify {A} f (k : () -> act A) d : (modify f ≫= k) d = k () (f d).
Proof using Type. done. Qed.
Lemma bind_gets {A B} (f : BlockDownloader -> B) (k : B -> act A) d : (gets f ≫= k) d = k (f d) d.
Proof using Type. done. Qed.
Lemma bind_pure_Ok {A B} (b : B) (k : B -> act A) d : (pure_act (Ok b) ≫= k) d = k b d.
Proof using Type. done. Qed.
Lemma bind_spawn {A} client b (k : () -> act A) d :
  (spawn_download client b ≫= k) d = k () (set_tasks (block_download_tasks d ++ [mk_task client (b_ids b) (prev_id b) (b_start_height b)]) d).
Proof using Type. done. Qed.

#[local] Ltac run_act := repeat (rewrite ?bind_modify, ?bind_gets, ?bind_pure_Ok, ?bind_spawn; cbn beta iota zeta).

(** ** How many blocks to ask for *)
Lemma biggest_batch_ok l :
  Forall (fun x => 1 <= bs_len x.2 <= MAX_BLOCK_HEIGHT_USIZE) l ->
  exists r, biggest_batch l = Ok r /\ match r with None => True | Some x => 1 <= bs_len x.2 <= MAX_BLOCK_HEIGHT_USIZE end.
Proof using Type.
  destruct l as [|x l]; [by exists None|]. intros [Hx Hl]%List.Forall_cons_iff. unfold biggest_batch.
  set (f := fun x y => _). assert (exists r, try_fold f x l = Ok r /\ 1 <= bs_len r.2 <= MAX_BLOCK_HEIGHT_USIZE) as (r & -> & Hr); [|by exists (Some r)].
  revert x Hx. induction Hl as [|y l Hy _ IH]; intros x Hx; cbn [try_fold]; [by exists x|].
  assert (exists z, f x y = Ok z /\ (z = x \/ z = y)) as (z & -> & Hz).
  { unfold f, average, usize_div. destruct (bs_len x.2 =? 0) eqn:E1; bsimp; [lia|]. destruct (bs_len y.2 =? 0) eqn:E2; bsimp; [lia|].
    cbn [mbind result_bind]. eexists. split; [done|]. destruct (_ <? _); auto. }
  cbn [mbind result_bind]. apply IH. by destruct Hz as [-> | ->].
Qed.

Lemma amount_ok d delivered pending :
  dl_ok d delivered pending -> exists k, amount_of_blocks_to_request config iter_order d = Ok k /\ 1 <= k.
Proof using Hiter Htarget Hinitial.
  intros H. unfold amount_of_blocks_to_request. destruct (biggest_batch_ok (iter_order (most_recent_batch_sizes d))) as (r & -> & Hr).
  { rewrite Hiter. apply (dk_sizes _ _ _ H). }
  cbn [mbind result_bind]. destruct r as [[h info]|]; [|by eexists].
  unfold calculate_next_block_batch_size, usize_div. cbn [snd] in Hr. destruct (bs_len info =? 0) eqn:E; bsimp; [lia|].
  cbn [mbind result_bind]. eexists. split; [reflexivity|]. unfold MAX_BLOCK_HEIGHT_USIZE in Hr. rewrite (wrap_small 64 (_ * 3)) by zlia.
  assert (1 <= div_ceil (bs_len info * 3) 2) by (rewrite div_ceil_spec by done; clear -Hr; dlia).
  unfold MAX_BLOCK_BATCH_LEN. lia.
Qed.

(** ** Giving work to a peer *)
Lemma dl_ok_spawn d delivered pending client b k :
  dl_ok d delivered pending -> p2p_seed (pruning_seed client) -> inflight_requests d !! k = Some b ->
  dl_ok (set_tasks (block_download_tasks d ++ [mk_task client (b_ids b) (prev_id b) (b_start_height b)]) d) delivered pending.
Proof using Type.
  intros H Hc Hb. destruct (dk_inflight _ _ _ H k b Hb) as (b' & Hin & (E1 & E2 & E3) & _). destruct H. split; try done.
  cbn. apply Forall_app. split; [done|]. constructor; [|constructor]. cbn. split; [done|]. exists b'.
  split_and!; [|done..]. apply elem_of_app. by right.
Qed.

(** Counting on a request in flight changes nothing. *)
Lemma dl_ok_count d delivered pending k b b' :
  dl_ok d delivered pending -> inflight_requests d !! k = Some b -> same_batch b' b ->
  dl_ok (set_inflight (<[k := b']> (inflight_requests d)) d) delivered pending.
Proof using Type.
  intros H Hb (E1 & E2 & E3).
  assert (forall j, is_Some (<[k := b']> (inflight_requests d) !! j) <-> is_Some (inflight_requests d !! j)) as Hdom.
  { intros j. destruct (decide (j = k)) as [-> |Hj]; [rewrite lookup_insert_eq, Hb; split; by eexists|by rewrite lookup_insert_ne]. }
  destruct H. split; try done; cbn.
  - erewrite filter_ext_in; [done|]. intros x _. unfold free. rewrite !eq_None_not_Some. by rewrite Hdom.
  - intros j c Hj. destruct (decide (j = k)) as [-> |Hne].
    + rewrite lookup_insert_eq in Hj. injection Hj as <-. destruct (dk_inflight0 k b Hb) as (x & Hx & (F1 & F2 & F3) & Hk).
      exists x. split_and!; [done| |done]. unfold same_batch. split_and!; congruence.
    + rewrite lookup_insert_ne in Hj by done. by apply dk_inflight0.
  - destruct pending; [done|]. by apply Hdom.
Qed.

Lemma request_failed_batch_good client d :
  inv d -> p2p_seed (pruning_seed client) -> good (fun _ => True) (request_failed_batch client d).
Proof using Type.
  intros (delivered & pending & H) Hc. unfold request_failed_batch. run_act.
  set (f := drop_stale (inflight_requests d) (failed_batches d)).
  assert (dl_ok (set_failed f d) delivered pending) as H1 by (destruct H; by split).
  change (failed_batches (set_failed f d)) with f. clearbody f. change (inflight_requests (set_failed f d)) with (inflight_requests d).
  destruct f as [|k rest]; [split; [by do 2 eexists|done]|].
  destruct (inflight_requests d !! k) as [b|] eqn:Eb; [|split; [by do 2 eexists|done]].
  destruct (client_has_block_in_range _ _ _); [|split; [by do 2 eexists|done]]. run_act. split; [|done]. exists delivered, pending.
  pose proof (dl_ok_count _ _ _ k b (sent_again b) H1 Eb ltac:(done)) as H2.
  pose proof (dl_ok_spawn _ _ _ client (sent_again b) k H2 Hc ltac:(cbn; apply lookup_insert_eq)) as H3. destruct H3. by split.
Qed.

Lemma find_inflight_Some client m keys b : find_inflight client m keys = Some b -> exists k, m !! k = Some b.
Proof using Type.
  induction keys as [|k keys IH]; cbn [find_inflight]; [done|]. destruct (m !! k) as [b'|] eqn:E; [|exact IH].
  destruct (2 <=? _); [exact IH|]. destruct (negb _); [done|]. intros [= <-]. by exists k.
Qed.

(** With something ready, something is in flight. *)
Lemma request_inflight_good client d delivered pending :
  dl_ok d delivered pending -> p2p_seed (pruning_seed client) -> ready_batches (block_queue d) <> [] ->
  good (fun r => r = None \/ r = Some client) (request_inflight_batch_again client d).
Proof using Type.
  intros H Hc Hr. unfold request_inflight_batch_again. run_act.
  assert (exists k b, inflight_requests d !! k = Some b) as (k & b & Hk).
  { pose proof (dk_head _ _ _ H) as Hh. pose proof (dk_ready _ _ _ H) as Hf. destruct pending as [|x pending].
    - inversion Hf; congruence.
    - destruct Hh as [b Hb]. eauto. }
  rewrite bool_decide_eq_false_2 by (intros E; rewrite E, lookup_empty in Hk; done). cbn [negb rassert]. run_act.
  unfold oldest_ready_batch. destruct (ready_batches (block_queue d)) as [|r rs]; [done|]. cbn [head fmap option_fmap option_map unwrap]. run_act.
  destruct (find_inflight _ _ _) as [b'|] eqn:Ef; [|split; [by do 2 eexists|by right]].
  apply find_inflight_Some in Ef as [k' Hk']. run_act. split; [|by left]. exists delivered, pending. by eapply dl_ok_spawn.
Qed.

(** A batch the tracker hands out joins the end of the pending ones, in flight. *)
Lemma dl_ok_hand_out d delivered pending b c' b' :
  dl_ok d delivered pending -> tracker_inv (settled := settled) c' -> sane_heights c' -> same_batch b' b ->
  1 <= len (b_ids b) -> b_start_height b = first_height (chain_tracker d) -> prev_id b = previous_hash (chain_tracker d) ->
  first_height c' = first_height (chain_tracker d) + len (b_ids b) -> last (b_ids b) = Some (previous_hash c') ->
  tracked (chain_tracker d) = map (fun id => (id, peer_who_told_us b, peer_who_told_us_handle b)) (b_ids b) ++ tracked c' ->
  dl_ok (set_inflight (<[b_start_height b := b']> (inflight_requests d)) (set_tracker c' d)) delivered (pending ++ [b]).
Proof using Type.
  intros H Ht Hs Hsame Hlen Hst Hprev Hfh Hlast Htr. pose proof (follows_bounds _ _ _ _ _ (dk_follows _ _ _ H)) as [_ Hb].
  rewrite Forall_app in Hb. destruct Hb as [_ Hb].
  assert (forall x, x ∈ pending -> b_start_height x <> b_start_height b) as Hne.
  { intros x Hx. rewrite Forall_forall in Hb. specialize (Hb x Hx). cbn in Hb. lia. }
  destruct H. split; try done; cbn.
  - rewrite (assoc_L (++)). apply follows_app. eexists _, _. split; [done|]. cbn. split_and!; [done..|]. exists (previous_hash c'). by split_and!.
  - rewrite dk_told0. unfold tracked_ids. rewrite Htr, map_app, map_map. cbn [fst]. rewrite map_id, (assoc_L (++)), (assoc_L (++)), (bind_app _ (delivered ++ pending)).
    cbn [mbind list_bind]. by rewrite app_nil_r.
  - rewrite filter_app, filter_cons_False by (unfold free; rewrite lookup_insert_eq; done). rewrite app_nil_r.
    erewrite filter_ext_in; [done|]. intros x Hx. unfold free. rewrite lookup_insert_ne; [done|]. intros E. by apply (Hne x Hx).
  - intros k v. destruct (decide (k = b_start_height b)) as [-> |Hk].
    + rewrite lookup_insert_eq. intros [= <-]. exists b. split_and!; [apply elem_of_app; right; by left|done|done].
    + rewrite lookup_insert_ne by done. intros Hv. destruct (dk_inflight0 k v Hv) as (x & Hx & ? & ?). exists x. split_and!; [apply elem_of_app; by left|done|done].
  - destruct pending as [|x pending]; cbn; [rewrite lookup_insert_eq; by eexists|].
    rewrite lookup_insert_ne; [done|]. intros E. apply (Hne x); [by left|done].
  - eapply Forall_impl; [exact dk_tasks0|]. intros t (? & x & Hx & ?). split; [done|]. exists x. split; [|done]. rewrite (assoc_L (++)). apply elem_of_app. by left.
Qed.

Lemma request_new_batch_good client d :
  inv d -> p2p_seed (pruning_seed client) -> good (fun r => r = None \/ r = Some client) (request_new_batch config iter_order client d).
Proof using Hiter Htarget Hinitial.
  intros (delivered & pending & H) Hc. unfold request_new_batch. run_act.
  destruct (amount_ok d delivered pending H) as (k & -> & Hk). run_act.
  destruct (blocks_to_get_hands_out (settled := settled) (chain_tracker d) (pruning_seed client) k) as (r & c' & -> & Ht & Hs & _ & _ & Hh);
    [apply H|apply H|done|lia|]. run_act. destruct r as [b|].
  - destruct Hh as (Hl & Hst & Hprev & _ & _ & Htr & Hfh & Hlast & _). run_act. split; [|by left]. exists delivered, (pending ++ [b]).
    eapply (dl_ok_spawn _ _ _ client (mk_blocks (b_ids b) (prev_id b) (b_start_height b) _ _ 1 (failures b)) (b_start_height b)); [|done|cbn; apply lookup_insert_eq].
    refine (dl_ok_hand_out d delivered pending b c' _ H Ht Hs _ _ Hst Hprev Hfh Hlast Htr); [done|lia].
  - destruct Hh as [-> _]. split; [|by right]. exists delivered, pending. destruct H. by split.
Qed.

Lemma request_block_batch_good client d :
  inv d -> p2p_seed (pruning_seed client) -> good (fun r => r = None \/ r = Some client) (request_block_batch config iter_order client d).
Proof using Hiter Htarget Hinitial Hqueue.
  intros Hd Hc. unfold request_block_batch. eapply good_bind; [by apply request_failed_batch_good|]. intros handled d' Hd' _.
  destruct handled; [split; [done|by left]|]. run_act. destruct (_ <=? _) eqn:E; bsimp; [|by apply request_new_batch_good].
  destruct Hd' as (delivered & pending & H). eapply request_inflight_good; [done..|]. intros Hr.
  pose proof (dk_size _ _ _ H) as Hsize. rewrite Hr in Hsize. change (wrap 64 (ready_weight [])) with 0 in Hsize. lia.
Qed.

Lemma wants_ok client d : inv d -> wants_chain_entry config iter_order client d <> Panic.
Proof using Hiter Htarget Hinitial.
  intros (delivered & pending & H). unfold wants_chain_entry. destruct (_ && _); [|done].
  destruct (amount_ok d delivered pending H) as (k & -> & Hk). cbn [mbind result_bind]. unfold block_requests_queued.
  destruct (k =? 0) eqn:E; bsimp; [lia|]. done.
Qed.

Lemma try_handle_good client d :
  inv d -> p2p_seed (pruning_seed client) -> good (fun r => r = None \/ r = Some client) (try_handle_free_client config iter_order client d).
Proof using Hiter Htarget Hinitial Hqueue.
  intros Hd Hc. unfold try_handle_free_client. run_act. eapply good_bind; [apply (good_pure _ (fun _ => True)); [done|by apply wants_ok|done]|].
  intros wants d' Hd' _. destruct wants; [|by apply request_block_batch_good]. run_act. split; [|by left].
  destruct Hd' as (delivered & pending & H). exists delivered, pending. destruct H. split; try done. cbn. apply Forall_app. split; [done|]. by repeat constructor.
Qed.

Definition peers_ok (l : list Client) : Prop := Forall (fun c => p2p_seed (pruning_seed c)) l.

Lemma use_peers_good is_closed peers d : inv d -> peers_ok peers -> good peers_ok (use_peers config iter_order is_closed peers d).
Proof using Hiter Htarget Hinitial Hqueue.
  intros Hd Hp. revert d Hd. induction Hp as [|c peers Hc Hp IH]; intros d Hd; cbn [use_peers]; [by split; [|constructor]|].
  destruct (is_closed c); [by apply IH|]. eapply good_bind; [by apply try_handle_good|]. intros r d' Hd' [-> | ->]; [by apply IH|].
  split; [done|]. by constructor.
Qed.

Lemma use_pending_good is_closed l d :
  inv d -> Forall (fun x => peers_ok x.2) l -> good (fun l => Forall (fun x => peers_ok x.2) l) (use_pending config iter_order is_closed l d).
Proof using Hiter Htarget Hinitial Hqueue.
  intros Hd Hl. revert d Hd. induction Hl as [|[seed peers] l Hp Hl IH]; intros d Hd; cbn [use_pending]; [by split; [|constructor]|].
  eapply good_bind; [by apply use_peers_good|]. intros peers' d1 Hd1 Hp'. eapply good_bind; [by apply IH|]. intros l' d2 Hd2 Hl'.
  split; [done|]. by constructor.
Qed.

Lemma inv_set_pending l d : inv d -> Forall (fun x => peers_ok x.2) l -> inv (set_pending l d).
Proof using Type. intros (delivered & pending & H) Hl. exists delivered, pending. destruct H. by split. Qed.

Lemma inv_peers d : inv d -> Forall (fun x => peers_ok x.2) (pending_peers d).
Proof using Type. intros (delivered & pending & H). apply H. Qed.

Lemma check_pending_good env d : inv d -> good (fun _ => True) (check_pending_peers config iter_order env d).
Proof using Hiter Htarget Hinitial Hqueue.
  intros Hd. unfold check_pending_peers. run_act. eapply good_bind; [apply use_pending_good; [done|by apply inv_peers]|].
  intros l d' Hd' Hl. split; [|done]. by apply inv_set_pending.
Qed.

Lemma push_peer_ok client l : Forall (fun x => peers_ok x.2) l -> p2p_seed (pruning_seed client) -> Forall (fun x => peers_ok x.2) (push_peer client l).
Proof using Type.
  intros Hl Hc. induction Hl as [|[seed peers] l Hp Hl IH]; cbn; [by repeat constructor|].
  destruct (cmp _ _); repeat constructor; done.
Qed.

Lemma add_pending_good client d : inv d -> p2p_seed (pruning_seed client) -> good (fun _ => True) (add_pending client d).
Proof using Type. intros Hd Hc. split; [|done]. apply inv_set_pending; [done|]. by apply push_peer_ok; [apply inv_peers|]. Qed.

(** ** A batch comes in *)
Lemma ascending_inj (bs : list BlocksToRetrieve) x y :
  ascending bs -> x ∈ bs -> y ∈ bs -> b_start_height x = b_start_height y -> x = y.
Proof using Type.
  induction bs as [|b bs IH]; [intros _ Hx; by apply not_elem_of_nil in Hx|]. intros [Hb Ha] Hx Hy E. rewrite Forall_forall in Hb.
  apply elem_of_cons in Hx as [-> |Hx]; apply elem_of_cons in Hy as [-> |Hy]; [done| | |by apply IH].
  - specialize (Hb y Hy). cbn in Hb. lia.
  - specialize (Hb x Hx). cbn in Hb. lia.
Qed.

Lemma lowest_key (m : gmap Z BlocksToRetrieve) : lowest m (default u64_MAX (head (keys_in_order m))).
Proof using Type.
  unfold keys_in_order. pose proof (merge_sort_Permutation Z.le (map fst (map_to_list m))) as Hp.
  pose proof (StronglySorted_merge_sort Z.le (map fst (map_to_list m))) as Hs.
  assert (forall k, k ∈ merge_sort Z.le (map fst (map_to_list m)) <-> is_Some (m !! k)) as Hk.
  { intros k. rewrite Hp, list_elem_of_fmap. split.
    - intros ([k' v] & -> & Hin). apply elem_of_map_to_list in Hin. by exists v.
    - intros [v Hv]. exists (k, v). split; [done|]. by apply elem_of_map_to_list. }
  destruct (merge_sort _ _) as [|k ks]; cbn.
  - left. split; [|done]. apply map_empty. intros k. apply eq_None_not_Some. rewrite <- Hk. apply not_elem_of_nil.
  - right. split; [apply Hk; by left|]. intros k' v Hv. assert (k' ∈ k :: ks) as Hin by (apply Hk; by eexists).
    apply StronglySorted_inv in Hs as [_ Hs]. apply elem_of_cons in Hin as [-> |Hin]; [lia|]. rewrite Forall_forall in Hs. by apply Hs.
Qed.

(** Sending to a closed stream fails unless there is nothing to send. *)
Lemma send_ready_closed stop ready size buf q :
  send_ready (O := O) false stop ready size buf = (Ok (), q) -> send_ready true stop ready size buf = (Ok (), q).
Proof using Type. destruct ready as [|r ready]; cbn; [done|]. by destruct (_ <=? _). Qed.

Lemma send_now (open : bool) r oldest (bq q : BlockQueue) :
  add_incoming_batch open r oldest bq = (Ok (), q) ->
  send_ready true (default u64_MAX oldest) (heap_push start_height r (ready_batches bq)) (ready_batches_size bq +! bb_size (block_batch r)) (buffer bq) = (Ok (), q).
Proof using Type. unfold add_incoming_batch. destruct open; [done|]. apply send_ready_closed. Qed.

Lemma ready_weight_push r ready : ready_weight (O := O) (heap_push start_height r ready) = bb_size (block_batch r) + ready_weight ready.
Proof using Type.
  induction ready as [|y ready IH]; [done|]. cbn [heap_push]. destruct (_ <=? _); [done|]. unfold ready_weight, sumZ in *. cbn. rewrite IH. lia.
Qed.

Lemma heap_push_Forall {A} (P : A -> Prop) key x l : P x -> Forall P l -> Forall P (heap_push key x l).
Proof using Type. intros Hx Hl. induction Hl as [|y l Hy Hl IH]; cbn; [by repeat constructor|]. destruct (_ <=? _); by repeat constructor. Qed.

Lemma note_size_ok (P : Z * BatchSizeInformation -> Prop) start (batch : BlockBatch) sizes :
  P (start, mk_size_info (len (bb_blocks batch)) (bb_size batch)) -> Forall P sizes -> Forall P (note_size start batch sizes).
Proof using Type.
  intros Hp Hs. unfold note_size. destruct (_ <? start); [|done].
  pose proof (heap_push_Forall P fst _ sizes Hp Hs) as H. destruct (_ <? _); [|done]. destruct H; [constructor|done].
Qed.

Lemma batch_bounds d delivered pending b :
  dl_ok d delivered pending -> 0 <= h0 -> b ∈ delivered ++ pending ->
  0 <= b_start_height b /\ 1 <= len (b_ids b) /\ b_start_height b + len (b_ids b) <= MAX_BLOCK_HEIGHT_USIZE.
Proof using Type.
  intros H Hh Hin. pose proof (follows_bounds _ _ _ _ _ (dk_follows _ _ _ H)) as [_ HF]. rewrite Forall_forall in HF. specialize (HF b Hin). cbn in HF.
  destruct (dk_sane _ _ _ H) as [_ Hs]. pose proof (len_nonneg (tracked (chain_tracker d))). unfold CRYPTONOTE_PRUNING_TIP_BLOCKS in Hs. lia.
Qed.

(** The batch is stored and every batch up to the next one in flight is sent. *)
Lemma dl_ok_batch_in d delivered pending b batch (open : bool) q (m := delete (b_start_height b) (inflight_requests d)) :
  dl_ok d delivered pending -> 0 <= h0 -> b ∈ delivered ++ pending -> is_Some (inflight_requests d !! b_start_height b) -> batch_ok b batch ->
  add_incoming_batch open (mk_ready (b_start_height b) batch) (head (keys_in_order m)) (block_queue d) = (Ok (), q) ->
  inv (set_queue q (set_sizes (note_size (b_start_height b) batch (most_recent_batch_sizes d)) (set_inflight m d))).
Proof using Type.
  intros H Hh0 Hin [v Hv] Hbatch Hadd. pose proof (batch_bounds d delivered pending b H Hh0 Hin) as Hbb.
  pose proof (follows_ascending _ _ _ _ _ (dk_follows _ _ _ H)) as Hasc.
  assert (b ∈ pending) as Hp.
  { destruct (dk_inflight _ _ _ H _ _ Hv) as (b' & Hb' & _ & E). rewrite <- (ascending_inj _ b' b Hasc); [done|apply elem_of_app; by right|done|done]. }
  assert (ascending pending) as Hasc'.
  { pose proof (dk_follows _ _ _ H) as Hf. apply follows_app in Hf as (h1 & p1 & _ & Hf). by eapply follows_ascending. }
  apply send_now in Hadd. cbn [block_batch] in Hadd.
  destruct (send_ready_spec hash_of_block block_number pending delivered m (default u64_MAX (head (keys_in_order m)))
      (heap_push start_height (mk_ready (b_start_height b) batch) (ready_batches (block_queue d)))
      (ready_batches_size (block_queue d) +! bb_size batch) (buffer (block_queue d))) as (before & after & q' & Hba & Hs & H1 & H2 & H3 & H4 & H5).
  - done.
  - apply push_ready; [done|done|by eexists|done|apply H].
  - apply H.
  - intros k w Hk. apply lookup_delete_Some in Hk as [_ Hk]. destruct (dk_inflight _ _ _ H _ _ Hk) as (x & ? & _ & ?). by exists x.
  - apply lowest_key.
  - apply Forall_forall. intros x Hx. destruct (batch_bounds d delivered pending x H Hh0 ltac:(apply elem_of_app; by right)) as (? & ? & Hx').
    unfold MAX_BLOCK_HEIGHT_USIZE in Hx'. zlia.
  - rewrite (dk_size _ _ _ H), ready_weight_push. unfold wrap. rewrite Zplus_mod_idemp_l. f_equal. cbn. lia.
  - rewrite Hs in Hadd. injection Hadd as <-. exists (delivered ++ before), after. destruct H. split; try done; cbn.
    + by rewrite <- (assoc_L (++)), <- Hba.
    + by rewrite <- (assoc_L (++)), <- Hba.
    + intros k w Hk. destruct (H5 k w Hk) as (x & Hx & Ek). apply lookup_delete_Some in Hk as [_ Hk].
      destruct (dk_inflight0 _ _ Hk) as (y & Hy & Hsame & Eky). exists x. split_and!; try done.
      rewrite (ascending_inj pending x y); try done; [rewrite Hba; apply elem_of_app; by right|congruence].
    + by rewrite <- (assoc_L (++)), <- Hba.
    + apply note_size_ok; [|done]. cbn. destruct Hbatch as [Hbl _]. unfold len. rewrite Hbl. fold (len (b_ids b)). lia.
Qed.

(** ** The events *)

(** What the downloader relies on outside: the chain service settles entries, peers in the
    set have seeds of the network, and neither service panics. *)
Record good_env (env : Env) : Prop := {
  ge_validator : EntryValidator settled (ask_validate (our_chain_svc env));
  ge_difficulty : ask_difficulty (our_chain_svc env) <> Panic;
  ge_peers_np cd : peers_with_more_pow env cd <> Panic;
  ge_peers cd clients : peers_with_more_pow env cd = Ok clients -> peers_ok clients;
}.

(** Responses are of the kind asked for, and the heights stay below the sanity limit. *)
Definition event_ok (d : BlockDownloader) (ev : Event) : Prop :=
  match ev with
  | TimerFired => True
  | BatchDone _ response => response <> Panic
  | ChainEntryDone _ response =>
      match response with
      | Ok res => first_height (chain_tracker d) + len (tracked (chain_tracker d)) + len (m_block_ids res) + CRYPTONOTE_PRUNING_TIP_BLOCKS < MAX_BLOCK_HEIGHT_USIZE
      | _ => True
      end
  end.

Lemma check_for_free_clients_good env d : inv d -> good_env env -> good (fun _ => True) (check_for_free_clients config iter_order env d).
Proof using Hiter Htarget Hinitial Hqueue.
  intros Hd He. unfold check_for_free_clients.
  eapply good_bind; [apply (good_pure _ (fun _ => True)); [done|apply np_map_err, He|done]|]. intros cd d1 Hd1 _.
  eapply good_bind; [apply (good_pure _ peers_ok); [done|apply np_map_err, He|]|].
  { intros l Hl. apply map_err_Ok in Hl. by eapply ge_peers. }
  intros clients d2 Hd2 Hc. run_act. apply check_pending_good. apply inv_set_pending; [done|].
  pose proof (inv_peers d2 Hd2) as Hp. clear -Hc Hp. revert Hp. generalize (pending_peers d2) as l.
  induction Hc as [|c clients Hc _ IH]; intros l Hp; [done|]. cbn. apply IH. by apply push_peer_ok.
Qed.

Lemma handle_failure_good start e d : inv d -> good (fun _ => True) (handle_failure start e d).
Proof using Type.
  intros (delivered & pending & H). assert (inv d) as Hd by (by do 2 eexists). unfold handle_failure. run_act.
  destruct (inflight_requests d !! start) as [b|] eqn:Eb; [|by destruct e].
  pose proof (dl_ok_count d delivered pending start b (failed_once b) H Eb ltac:(done)) as H1.
  destruct e; try done; run_act; (destruct (_ <? _); [done|]); (split; [|done]); exists delivered, pending; destruct H1; by split.
Qed.

Lemma handle_res_good env client start res d delivered pending :
  dl_ok d delivered pending -> 0 <= h0 -> good_env env -> p2p_seed (pruning_seed client) -> res <> Panic ->
  (forall batch, res = Ok batch -> exists b, b ∈ delivered ++ pending /\ b_start_height b = start /\ batch_ok b batch) ->
  good (fun _ => True) (handle_download_batch_res config iter_order env client start res d).
Proof using Hiter Htarget Hinitial Hqueue.
  intros H Hh0 He Hc Hres Hok. assert (inv d) as Hd by (by do 2 eexists). unfold handle_download_batch_res. destruct res as [batch|e|]; [|by apply handle_failure_good|done].
  run_act. assert (forall d', inv d' -> good (fun _ : () => True) ((_ ← add_pending client; check_pending_peers config iter_order env) d')) as Hrest.
  { intros d' Hd'. eapply good_bind; [by apply add_pending_good|]. intros _ d2 Hd2 _. by apply check_pending_good. }
  destruct (inflight_requests d !! start) as [v|] eqn:Ev; [|by apply Hrest].
  destruct (Hok batch eq_refl) as (b & Hin & <- & Hb). run_act.
  destruct (add_incoming_batch _ _ _ _) as [r q] eqn:Eq. run_act.
  destruct r as [[]|e|]; [|done|].
  - run_act. apply Hrest. exact (dl_ok_batch_in d delivered pending b batch (stream_open env) q H Hh0 Hin (mk_is_Some _ _ Ev) Hb Eq).
  - exfalso. unfold add_incoming_batch in Eq. revert Eq. clear. generalize (heap_push start_height (mk_ready (b_start_height b) batch)) as f.
    intros f. match goal with |- send_ready ?o ?s ?r ?z ?bu = _ -> _ => generalize r as rs, z as size, bu as buf; generalize s as st end.
    intros st rs. induction rs as [|x rs IH]; intros size buf; cbn; [done|]. destruct (_ <=? _); [|done]. destruct (stream_open env); [apply IH|done].
Qed.

(** The first block of every batch follows the last block of the batch before. *)
Fixpoint linked (p : bytes) (batches : list BlockBatch) : Prop :=
  match batches with
  | [] => True
  | b :: rest =>
      exists first blk, fst <$> head (bb_blocks b) = Some first /\ BlockRules.previous (BlockRules.header first) = p /\
        fst <$> last (bb_blocks b) = Some blk /\ linked (hash_of_block blk) rest
  end.

Lemma batch_ok_ends b (batch : BlockBatch) q :
  batch_ok b batch -> last (b_ids b) = Some q ->
  exists first blk, fst <$> head (bb_blocks batch) = Some first /\ BlockRules.previous (BlockRules.header first) = prev_id b /\
    fst <$> last (bb_blocks batch) = Some blk /\ hash_of_block blk = q.
Proof using Type.
  intros [Hl Hb] Hq. assert (0 < length (bb_blocks batch))%nat as Hpos by (rewrite Hl; destruct (b_ids b); cbn in *; [done|lia]).
  rewrite !last_lookup in *. rewrite head_lookup.
  destruct (lookup_lt_is_Some_2 (bb_blocks batch) 0) as [[first ftxs] Hf]; [done|].
  destruct (lookup_lt_is_Some_2 (bb_blocks batch) (pred (length (bb_blocks batch)))) as [[blk txs] Hlast]; [lia|].
  exists first, blk. rewrite Hf, Hlast. destruct (Hb _ _ _ Hf) as (_ & _ & Hp & _). destruct (Hb _ _ _ Hlast) as (Hh & _). rewrite Hl in Hh.
  split_and!; [done|by apply Hp|done|congruence].
Qed.

Lemma delivered_blocks h p bs batches h' p' :
  follows h p bs h' p' -> Forall2 batch_ok bs batches ->
  linked p batches /\ len (batches ≫= bb_blocks) = h' - h /\
  forall (i : nat) blk txs, (batches ≫= bb_blocks) !! i = Some (blk, txs) ->
    block_number blk = h + Z.of_nat i /\ (bs ≫= b_ids) !! i = Some (hash_of_block blk) /\ map tx_hash txs ≡ₚ BlockRules.transactions blk.
Proof using Type.
  intros Hf HF. revert h p Hf. induction HF as [|b batch bs batches Hb _ IH]; intros h p Hf.
  { destruct Hf as [-> ->]. split_and!; [done|unfold len; cbn; lia|]. intros i blk txs Hi. by destruct i. }
  destruct Hf as (Hst & Hprev & q & Hq & Hf). apply IH in Hf as (Hlink & Hlen & Hall).
  destruct (batch_ok_ends b batch q Hb Hq) as (first & blk & H1 & H2 & H3 & H4). destruct Hb as [Hl Hb].
  change ((batch :: batches) ≫= bb_blocks) with (bb_blocks batch ++ (batches ≫= bb_blocks)).
  change ((b :: bs) ≫= b_ids) with (b_ids b ++ (bs ≫= b_ids)). split_and!.
  - cbn. exists first, blk. rewrite H4. split_and!; congruence.
  - rewrite len_app, Hlen. unfold len. rewrite Hl. lia.
  - intros i blk' txs Hi. rewrite lookup_app in Hi. destruct (bb_blocks batch !! i) as [x|] eqn:E.
    + injection Hi as ->. destruct (Hb i blk' txs E) as (Hh & Hn & _ & Htx). split_and!; [lia| |done]. by rewrite lookup_app, Hh.
    + apply lookup_ge_None in E. apply Hall in Hi as (Hn & Hh & Htx). split_and!; [|rewrite lookup_app_r by lia; by rewrite <- Hl|done].
      unfold len in *. rewrite Hl in *. lia.
Qed.

(** A tracker that has taken its first entry, before anything is handed out. *)
Lemma new_downloader_inv c bans :
  tracker_inv (settled := settled) c -> sane_heights c -> first_height c = h0 -> previous_hash c = p0 -> told = tracked_ids c -> inv (new_downloader c bans).
Proof using Type.
  intros Ht Hs Hh Hp Htold. exists [], []. split; try done; cbn; try constructor; try done.
Qed.

(** The blocks of a chain, given out in order. *)
Lemma inv_streams d :
  0 <= h0 -> inv d ->
  let batches := buffer (block_queue d) in
  exists delivered pending,
    told = (delivered ≫= b_ids) ++ (pending ≫= b_ids) ++ tracked_ids (chain_tracker d) /\
    follows h0 p0 (delivered ++ pending) (first_height (chain_tracker d)) (previous_hash (chain_tracker d)) /\
    len (batches ≫= bb_blocks) = len (delivered ≫= b_ids) /\ linked p0 batches /\
    (forall (i : nat) blk txs, (batches ≫= bb_blocks) !! i = Some (blk, txs) ->
      block_number blk = h0 + Z.of_nat i /\ told !! i = Some (hash_of_block blk) /\ map tx_hash txs ≡ₚ BlockRules.transactions blk) /\
    (forall b, b ∈ pending -> is_Some (inflight_requests d !! b_start_height b) \/
       ((exists r, r ∈ ready_batches (block_queue d) /\ start_height r = b_start_height b) /\
        exists k, is_Some (inflight_requests d !! k) /\ k < b_start_height b)).
Proof using Type.
  intros Hh0 (delivered & pending & H). cbn zeta. exists delivered, pending.
  pose proof (dk_follows _ _ _ H) as Hf. apply follows_app in Hf as Hf'. destruct Hf' as (h1 & p1 & Hf1 & Hf2).
  pose proof (dk_told _ _ _ H) as Ht. rewrite bind_app, <- (assoc_L (++)) in Ht.
  destruct (delivered_blocks _ _ _ _ _ _ Hf1 (dk_buffer _ _ _ H)) as (Hlink & Hlen & Hall).
  split_and!; [done|done| |done| |].
  - rewrite Hlen, (follows_len _ _ _ _ _ Hf1). lia.
  - intros i blk txs Hi. destruct (Hall i blk txs Hi) as (H1 & H2 & H3). split_and!; [done| |done]. rewrite Ht. by apply lookup_app_l_Some.
  - intros b Hb. destruct (inflight_requests d !! b_start_height b) as [v|] eqn:E; [left; by eexists|right].
    assert (b ∈ filter (free (inflight_requests d)) pending) as Hfree by (by apply list_elem_of_filter).
    apply list_elem_of_lookup in Hfree as [i Hi]. destruct (Forall2_lookup_l _ _ _ _ _ (dk_ready _ _ _ H) Hi) as (r & Hr & Hrs & _).
    split; [exists r; split; [by eapply list_elem_of_lookup_2|done]|].
    pose proof (dk_head _ _ _ H) as Hhead. apply follows_ascending in Hf2. destruct pending as [|x pending]; [by apply not_elem_of_nil in Hb|].
    exists (b_start_height x). split; [done|]. apply elem_of_cons in Hb as [-> |Hb]; [by rewrite E in Hhead; destruct Hhead|].
    destruct Hf2 as [Hx _]. rewrite Forall_forall in Hx. by apply Hx.
Qed.
End run.

(** ** Runs *)
Section runs.
Context {O : MoneroOxide} {T : TransactionOps O} {C : Dalek O} {Cd : MoneroCodec O}.
Context (hash_of_block : BlockRules.Block -> bytes) (block_number : BlockRules.Block -> Z).
Context (config : BlockDownloaderConfig) (iter_order : list (Z * BatchSizeInformation) -> list (Z * BatchSizeInformation)).
Context (Hiter : forall l, iter_order l ≡ₚ l).
Context (Hqueue : 0 < in_progress_queue_bytes config) (Htarget : 0 <= target_batch_bytes config) (Hinitial : 1 <= initial_batch_len config).
Context (h0 : Z) (p0 : bytes) (settled : Z -> list ChainEntry -> Prop).
#[local] Abbreviation ok := (dl_ok hash_of_block block_number h0 p0 settled).
#[local] Abbreviation keeps := (inv hash_of_block block_number h0 p0 settled).
#[local] Abbreviation fine := (good hash_of_block block_number h0 p0 settled).
#[local] Abbreviation env_ok := (good_env settled).

#[local] Ltac run_act := repeat (rewrite ?bind_modify, ?bind_gets, ?bind_pure_Ok, ?bind_spawn; cbn beta iota zeta).

(** The ids we have been told of after an event: an entry that is taken in adds its ids, the
    overlapping one apart; when the chain service refuses one, the ids that were waiting
    for a check are forgotten. *)
Definition told_after (env : Env) (ev : Event) (d : BlockDownloader) (told : list bytes) : list bytes :=
  match ev with
  | ChainEntryDone i response =>
      match chain_entry_task d !! i with
      | Some (client, top, genesis) =>
          match (request_chain_entry_from_peer client top genesis response).1 with
          | Ok entry =>
              match (add_entry (ask_validate (our_chain_svc env)) (chain_tracker d) entry).1.1 with
              | Ok _ => told ++ drop 1 (ids entry)
              | Err (ChainSvcError _) => take (length told - length (all_ids (unknown_entries (chain_tracker d)))) told
              | _ => told
              end
          | _ => told
          end
      | None => told
      end
  | _ => told
  end.

Lemma add_entry_good env told d delivered pending entry :
  ok told d delivered pending -> env_ok env ->
  first_height (chain_tracker d) + len (tracked (chain_tracker d)) + len (ids entry) + CRYPTONOTE_PRUNING_TIP_BLOCKS < MAX_BLOCK_HEIGHT_USIZE ->
  let '(r, c', bans') := add_entry (ask_validate (our_chain_svc env)) (chain_tracker d) entry in
  r <> Panic /\
  ok (match r with
      | Ok _ => told ++ drop 1 (ids entry)
      | Err (ChainSvcError _) => take (length told - length (all_ids (unknown_entries (chain_tracker d)))) told
      | _ => told
      end) (add_bans bans' (set_tracker c' d)) delivered pending.
Proof using Type.
  intros H He Hfit. pose proof (ge_validator _ _ He) as V. pose proof (dk_sane _ _ _ _ _ _ _ _ _ H) as Hsane.
  pose proof (add_entry_all (V := V) (chain_tracker d) entry (dk_tracker _ _ _ _ _ _ _ _ _ H) Hsane) as Hadd.
  specialize (Hadd ltac:(unfold MAX_BLOCK_HEIGHT_USIZE, CRYPTONOTE_PRUNING_TIP_BLOCKS in *; zlia)).
  destruct (add_entry _ _ _) as [[r c'] bans']. destruct Hadd as (Hf & Hp & _ & Ht & Hr).
  split; [by destruct r|]. assert (sane_heights c') as Hs'.
  { destruct Hsane as [H0 Hs]. pose proof (len_nonneg (ids entry)). split; [lia|]. rewrite Hf. destruct r as [[]|e|]; [| |done].
    - destruct Hr as (id & new_ids & Hi & _ & Htr & _). rewrite Htr, len_app, len_map. rewrite Hi in Hfit. unfold len in *. cbn [length] in *. lia.
    - destruct e; [by destruct Hr as (_ & -> & _)|by destruct Hr as (_ & -> & _)|by destruct Hr as (_ & -> & _)|].
      destruct Hr as (_ & Hv & Hu & _). unfold tracked in *. rewrite Hv, Hu, app_nil_r. rewrite tagged_app, len_app in Hs.
      pose proof (len_nonneg (tagged (unknown_entries (chain_tracker d)))). lia. }
  destruct H. split; try done; cbn; [by rewrite Hf, Hp|]. destruct r as [[]|e|]; [| |done].
  - destruct Hr as (id & new_ids & Hi & _ & Htr & _). rewrite Hi, dk_told0. unfold tracked_ids. rewrite Htr, map_app, map_map. cbn [fst drop]. by rewrite map_id, (assoc_L (++)).
  - destruct e; [by destruct Hr as (_ & -> & _)|by destruct Hr as (_ & -> & _)|by destruct Hr as (_ & -> & _)|].
    destruct Hr as (_ & Hv & Hu & _). rewrite dk_told0 at 2. rewrite dk_told0. unfold tracked_ids, tracked. rewrite Hv, Hu, app_nil_r, <- !all_ids_tagged, all_ids_app, (assoc_L (++)).
    rewrite take_app_le by (rewrite !length_app; lia). rewrite take_ge; [done|rewrite !length_app; lia].
Qed.

(** Every event keeps the invariant and none makes the downloader panic. *)
Lemma run_event_good told env ev d :
  keeps told d -> 0 <= h0 -> env_ok env -> event_ok d ev ->
  fine (told_after env ev d told) (fun _ => True) (run_event hash_of_block block_number config iter_order env ev d).
Proof using Hiter Htarget Hinitial Hqueue.
  intros Hd Hh0 He Hev. destruct ev as [|i response|i response]; cbn [run_event told_after].
  - eapply good_bind; [by eapply check_for_free_clients_good|]. intros _ d' Hd' _. by split.
  - run_act. destruct (block_download_tasks d !! i) as [t|] eqn:Et; [|by split].
    pose proof Hd as (delivered & pending & H). pose proof (dk_tasks _ _ _ _ _ _ _ _ _ H) as Htasks.
    pose proof (Forall_lookup_1 _ _ _ _ Htasks Et) as (Hc & b & Hin & E1 & E2 & E3). run_act. rewrite E1, E2, E3.
    pose proof (np_request_batch hash_of_block block_number (t_client t) (b_ids b) (prev_id b) (b_start_height b) response Hev) as Hnp.
    destruct (request_batch_from_peer _ _ _ _ _ _ _) as [res bans'] eqn:Er. run_act.
    eapply good_bind; [|intros _ d' Hd' _; by split].
    eapply handle_res_good with (delivered := delivered) (pending := pending); try done.
    + destruct H. split; try done. cbn. by apply Forall_delete.
    + intros batch ->. exists b. split_and!; [done..|]. destruct (batch_bounds _ _ _ _ _ _ d delivered pending b H Hh0 Hin) as (? & ? & Hmax).
      eapply taken_batch_ok; [done| |exact Er]. unfold MAX_BLOCK_HEIGHT_USIZE in Hmax. zlia.
  - run_act. destruct (chain_entry_task d !! i) as [[[client top] genesis]|] eqn:Et; [|by split].
    destruct Hd as (delivered & pending & H). pose proof (Forall_lookup_1 _ _ _ _ (dk_entry_tasks _ _ _ _ _ _ _ _ _ H) Et) as Hc. cbn in Hc. run_act.
    destruct (request_chain_entry_from_peer _ _ _ _) as [res bans'] eqn:Er. run_act.
    assert (ok told (add_bans bans' (set_entry_tasks (delete i (chain_entry_task d)) d)) delivered pending) as H1.
    { destruct H. split; try done. cbn. by apply Forall_delete. }
    set (d1 := add_bans _ _) in *. assert (keeps told d1) as Hd1 by (by do 2 eexists).
    destruct res as [entry|e|]; [| |by split].
    2: { run_act. split; [|done]. exists delivered, pending. destruct H1. by split. }
    run_act. assert (first_height (chain_tracker d1) + len (tracked (chain_tracker d1)) + len (ids entry) + CRYPTONOTE_PRUNING_TIP_BLOCKS < MAX_BLOCK_HEIGHT_USIZE) as Hfit.
    { clear -Er Hev. unfold request_chain_entry_from_peer in Er. destruct response as [r|e|]; [|done..].
      destruct (m_block_ids r) as [|x l] eqn:El; [done|]. destruct (_ <? _); [done|]. destruct (negb _); [done|]. destruct (bool_decide _); [done|].
      injection Er as <- _. cbn [ids]. rewrite <- El. exact Hev. }
    pose proof (add_entry_good env told d1 delivered pending entry H1 He Hfit) as Hadd.
    assert (chain_tracker d1 = chain_tracker d) as Etr by done. rewrite Etr in *. cbn [fst].
    destruct (add_entry _ _ _) as [[r c'] bans2] eqn:Ea. cbn [fst]. run_act.
    destruct Hadd as [Hnp H2]. set (d2 := add_bans bans2 (set_tracker c' d1)) in *.
    eapply good_bind; [|intros _ d3 Hd3 _; eapply good_bind; [by apply add_pending_good|]; intros _ d4 Hd4 _;
      eapply good_bind; [by apply check_pending_good|]; intros _ d5 Hd5 _; by split].
    instantiate (1 := fun _ => True). destruct r as [[]|e|]; [|..|done]; (split; [|done]); exists delivered, pending; destruct H2; by split.
Qed.

(** The states of the main loop with the ids the peers have told us of, from a tracker that
    follows a chain from [h0] after the block [p0]; the look for peers before the loop is the
    first [TimerFired]. *)
Inductive reachable : list bytes -> BlockDownloader -> Prop :=
  | reach_start c bans :
      tracker_inv (settled := settled) c -> sane_heights c -> first_height c = h0 -> previous_hash c = p0 -> reachable (tracked_ids c) (new_downloader c bans)
  | reach_event env ev told d finished d' :
      reachable told d -> env_ok env -> event_ok d ev ->
      run_event hash_of_block block_number config iter_order env ev d = (Ok finished, d') -> reachable (told_after env ev d told) d'.

Lemma reachable_inv told d : 0 <= h0 -> reachable told d -> keeps told d.
Proof using Hiter Htarget Hinitial Hqueue.
  intros Hh0. induction 1 as [c bans Ht Hs Hh Hp|env ev told d finished d' _ IH He Hev Hrun]; [by apply new_downloader_inv|].
  pose proof (run_event_good told env ev d IH Hh0 He Hev) as Hg. rewrite Hrun in Hg. apply Hg.
Qed.

(** C6. The main loop of the downloader, with a queue limit above zero, batches of at least one
    block, a chain service that settles entries and heights below the sanity limit. Whatever
    the peers answer and in whatever order, the blocks given to the buffer are those the
    peers told us of, in order, none missing and none twice: [told] is the list of ids that
    the chain entries taken in have named (the ids forgotten when the chain service refuses
    an entry left out), it is what was delivered, then what is pending, then what the
    tracker still holds, and the [i]th block delivered hashes to the [i]th id of it, has
    height [h0 + i] and comes with exactly its transactions. The first block of every batch
    has the last block of the batch before as its parent, that of the first batch the block
    the download started after; the parents of the other blocks of a batch are not checked
    by the downloader. Batches that are ready but not yet given on wait for a lower one that
    is in flight. *)
Theorem downloader_streams_the_chain told d :
  0 <= h0 -> reachable told d ->
  let batches := buffer (block_queue d) in
  exists delivered pending,
    told = (delivered ≫= b_ids) ++ (pending ≫= b_ids) ++ tracked_ids (chain_tracker d) /\
    follows h0 p0 (delivered ++ pending) (first_height (chain_tracker d)) (previous_hash (chain_tracker d)) /\
    len (batches ≫= bb_blocks) = len (delivered ≫= b_ids) /\ linked hash_of_block p0 batches /\
    (forall (i : nat) blk txs, (batches ≫= bb_blocks) !! i = Some (blk, txs) ->
      block_number blk = h0 + Z.of_nat i /\ told !! i = Some (hash_of_block blk) /\ map tx_hash txs ≡ₚ BlockRules.transactions blk) /\
    (forall b, b ∈ pending -> is_Some (inflight_requests d !! b_start_height b) \/
       ((exists r, r ∈ ready_batches (block_queue d) /\ start_height r = b_start_height b) /\
        exists k, is_Some (inflight_requests d !! k) /\ k < b_start_height b)).
Proof using Hiter Htarget Hinitial Hqueue.
  intros Hh0 Hr. apply reachable_inv in Hr; [|done]. exact (inv_streams _ _ _ _ _ _ d Hh0 Hr).
Qed.

(** C34. No event makes the downloader panic when it is configured with a queue limit above
    zero and with batches of at least one block: the assertions and unwraps of its code
    hold in every state of a run, as long as the services it calls do not panic and heights
    stay below the sanity limit. With a limit of zero the first request panics, see
    [zero_queue_panics]. *)
Theorem downloader_never_panics told d env ev :
  0 <= h0 -> reachable told d -> env_ok env -> event_ok d ev ->
  (run_event hash_of_block block_number config iter_order env ev d).1 <> Panic.
Proof using Hiter Htarget Hinitial Hqueue.
  intros Hh0 Hr He Hev. pose proof (run_event_good told env ev d (reachable_inv told d Hh0 Hr) Hh0 He Hev) as Hg.
  destruct (run_event _ _ _ _ _ _ _) as [[b|e|] d']; done.
Qed.

(** With [in_progress_queue_bytes] zero, which the configuration allows, the queue counts as
    full while it is empty: a free peer that is to be given blocks before any was requested
    makes the downloader panic, since nothing is in flight. *)
Theorem zero_queue_panics zero client (d : BlockDownloader) :
  in_progress_queue_bytes zero = 0 -> 0 <= ready_batches_size (block_queue d) -> inflight_requests d = ∅ ->
  (request_block_batch zero iter_order client d).1 = Panic.
Proof using Type.
  intros Hz Hs Hi. unfold request_block_batch, request_failed_batch, mbind, act_bind, modify, gets, mret, act_ret.
  cbn [inflight_requests failed_batches set_failed]. rewrite Hi.
  assert (forall l, drop_stale ∅ l = []) as Hds by (induction l as [|k l IH]; [done|]; cbn [drop_stale]; by rewrite lookup_empty).
  rewrite Hds. cbn [block_queue set_failed]. rewrite Hz, (proj2 (Z.leb_le _ _)) by done.
  unfold request_inflight_batch_again, gets, mbind, act_bind. cbn [inflight_requests set_failed]. rewrite Hi. done.
Qed.
End runs.

(** ** Duplicate requests *)
Section again.
Context {O : MoneroOxide} {T : TransactionOps O} {C : Dalek O} {Cd : MoneroCodec O}.

Lemma find_inflight_seed client client' m keys :
  pruning_seed client = pruning_seed client' -> find_inflight client m keys = find_inflight client' m keys.
Proof using Type. intros E. induction keys as [|k keys IH]; cbn; [done|]. rewrite E, IH. done. Qed.

(** A batch that is asked for again because it holds up the queue is not counted as sent
    once more: the limit of two requests per batch that the loop checks has no effect, and
    the next free peer with the same pruning seed is given the same batch once more. *)
Theorem duplicate_requests_not_counted client client' (d d' : BlockDownloader) :
  request_inflight_batch_again client d = (Ok None, d') -> pruning_seed client' = pruning_seed client ->
  inflight_requests d' = inflight_requests d /\
  exists b, block_download_tasks d' = block_download_tasks d ++ [mk_task client (b_ids b) (prev_id b) (b_start_height b)] /\
    request_inflight_batch_again client' d' =
      (Ok None, set_tasks (block_download_tasks d' ++ [mk_task client' (b_ids b) (prev_id b) (b_start_height b)]) d').
Proof using Type.
  intros Hr Hs. unfold request_inflight_batch_again in *. rewrite bind_gets in Hr. rewrite bind_gets. cbn beta in *.
  destruct (bool_decide (inflight_requests d = ∅)) eqn:Ee; cbn [negb rassert] in Hr; [done|]. rewrite bind_pure_Ok, bind_gets in Hr. cbn beta in Hr.
  destruct (oldest_ready_batch (block_queue d)) as [oldest|] eqn:Eo; cbn [unwrap] in Hr; [|done]. rewrite bind_pure_Ok in Hr. cbn beta in Hr.
  destruct (find_inflight _ _ _) as [b|] eqn:Ef; [|done]. rewrite bind_spawn in Hr. injection Hr as <-. split; [done|]. exists b. split; [done|].
  cbn [inflight_requests set_tasks]. rewrite Ee. cbn [negb rassert]. rewrite bind_pure_Ok, bind_gets. cbn [block_queue set_tasks]. rewrite Eo. cbn [unwrap].
  rewrite bind_pure_Ok, (find_inflight_seed client' client), Ef by done. rewrite bind_spawn. done.
Qed.
End again.

(** ** The search for a chain to follow *)
Section search.
Context {O : MoneroOxide} {T : TransactionOps O} {C : Dalek O} {Cd : MoneroCodec O}.

Lemma best_response_spec replies :
  match best_response replies with
  | None => replies = []
  | Some best => best ∈ replies /\ forall r, r ∈ replies -> cumulative_difficulty r.1 <= cumulative_difficulty best.1
  end.
Proof using Type.
  unfold best_response. set (f := fun res task_res => _).
  assert (forall replies best, exists best', foldl f (Some best) replies = Some best' /\ best' ∈ best :: replies /\
    forall r, r ∈ best :: replies -> cumulative_difficulty r.1 <= cumulative_difficulty best'.1) as Hf.
  { induction replies0 as [|r rs IH]; intros best; cbn [foldl].
    { exists best. split_and!; [done|by left|]. intros r Hr. apply list_elem_of_singleton in Hr as ->. lia. }
    change (f (Some best) r) with (Some (if cumulative_difficulty best.1 <? cumulative_difficulty r.1 then r else best)).
    destruct (IH (if cumulative_difficulty best.1 <? cumulative_difficulty r.1 then r else best)) as (best' & -> & Hin & Hmax).
    exists best'. split; [done|]. split.
    - apply elem_of_cons in Hin as [-> |Hin]; [destruct (_ <? _); [right; by left|by left]|right; by right].
    - pose proof (Hmax _ ltac:(by left)) as H0. intros x Hx. apply elem_of_cons in Hx as [-> |Hx]; [|apply elem_of_cons in Hx as [-> |Hx]].
      + destruct (_ <? _) eqn:E in H0; bsimp; lia.
      + destruct (_ <? _) eqn:E in H0; bsimp; lia.
      + apply Hmax. by right. }
  destruct replies as [|r rs]; [done|]. cbn [foldl]. change (f None r) with (Some r). destruct (Hf rs r) as (best' & -> & H). done.
Qed.

(** The answers of the chain service the search relies on. *)
Record good_service (settled : Z -> list ChainEntry -> Prop) (svc : ChainSvcRequest -> result BoxError ChainSvcResponse) : Prop := {
  gs_validator : EntryValidator settled (ask_validate svc);
  gs_history : ask_history svc <> Panic;
  gs_genesis ids cd : ask_history svc = Ok (ids, cd) -> ids <> [];
  gs_unknown_np ids : ask_first_unknown svc ids <> Panic;
  gs_unknown ids i h : ask_first_unknown svc ids = Ok (Some (i, h)) -> 0 <= i < len ids /\ 0 <= h /\ h + len ids < 2 ^ 64;
}.

(** The chain that is followed is the one with the highest cumulative difficulty any of the
    asked peers claims; the tracker starts at the first block of it that we do not have,
    after the last one that we have, and names the peer that told us. A peer whose answer
    shares no block with our chain is banned. The search never panics. *)
Theorem initial_chain_search_spec settled env replies :
  good_service settled (our_chain_svc env) -> (forall cd, peers_with_more_pow env cd <> Panic) ->
  match initial_chain_search env replies with
  | (Ok c, bans) =>
      bans = [] /\ tracker_inv (settled := settled) c /\ top_is_tracked c /\
      exists clients r peer i h,
        (r, peer) ∈ replies (take INITIAL_CHAIN_REQUESTS_TO_SEND clients) /\
        (forall r' peer', (r', peer') ∈ replies (take INITIAL_CHAIN_REQUESTS_TO_SEND clients) -> cumulative_difficulty r' <= cumulative_difficulty r) /\
        ask_first_unknown (our_chain_svc env) (m_block_ids r) = Ok (Some (i, h)) /\ first_height c = h /\
        lookZ (m_block_ids r) (i - 1) = Some (previous_hash c) /\
        tracked c = map (fun id => (id, c_id peer, c_handle peer)) (drop (Z.to_nat i) (m_block_ids r))
  | (Err e, bans) =>
      bans = [] \/ (e = PeerSentNoOverlappingBlocks /\ exists r peer h,
        ask_first_unknown (our_chain_svc env) (m_block_ids r) = Ok (Some (0, h)) /\ bans = [mk_ban (c_handle peer) MEDIUM_BAN])
  | (Panic, _) => False
  end.
Proof using Type.
  intros Hg Hnp. unfold initial_chain_search.
  destruct (ask_history (our_chain_svc env)) as [[block_ids cd]|e|] eqn:Eh; cbn [mbind result_bind map_err]; [|by left|by apply (gs_history _ _ Hg)].
  pose proof (gs_genesis _ _ Hg _ _ Eh) as Hne. destruct (proj2 (last_is_Some block_ids) Hne) as [genesis ->]. cbn [unwrap mbind result_bind].
  destruct (peers_with_more_pow env cd) as [clients|e|] eqn:Ep; cbn [mbind result_bind map_err]; [|by left|by apply (Hnp cd)].
  pose proof (best_response_spec (replies (take INITIAL_CHAIN_REQUESTS_TO_SEND clients))) as Hbest.
  destruct (best_response _) as [[r peer]|]; [|by left]. destruct Hbest as [Hin Hmax].
  destruct (ask_first_unknown _ (m_block_ids r)) as [[[i h]|]|e|] eqn:Eu; [|by left..|by apply (gs_unknown_np _ _ Hg _ Eu)].
  destruct (gs_unknown _ _ Hg _ _ _ Eu) as (Hi & Hh & Hfit).
  destruct (i =? 0) eqn:Ei; bsimp; [right; subst i; split; [done|]; by exists r, peer, h|].
  rewrite wrap_small by zlia. destruct (lookZ_is_Some (m_block_ids r) (i - 1)) as [prev Hprev]; [lia|].
  rewrite Hprev. cbn [unwrap mbind result_bind]. destruct (i <=? len (m_block_ids r)) eqn:Ele; bsimp; [|lia]. cbn [rassert mbind result_bind].
  set (entry := mk_entry _ _ _). pose proof (gs_validator _ _ Hg) as V.
  assert (len (ids entry) = len (m_block_ids r) - i) as Hlen by (unfold entry, len in *; cbn; rewrite length_drop; lia).
  pose proof (new_spec (V := V) entry h genesis prev) as Hnew.
  specialize (Hnew ltac:(apply has_ids_len; lia) Hh ltac:(lia)).
  destruct (new _ _ _ _ _) as [c|e|]; cbn [map_err]; [|by left|done]. destruct Hnew as (Ht & Htop & Htr & Hfh & Hp & _).
  split_and!; [done..|]. exists clients, r, peer, i, h. split_and!; try done; [|congruence|].
  - intros r' peer' Hr'. apply (Hmax (r', peer') Hr').
  - rewrite Htr. unfold tagged. cbn. by rewrite app_nil_r.
Qed.

(** The node's chain service on any database keeps what the tracker needs. *)
Lemma chain_service_validator (hashes : list bytes) blake3 t :
  len hashes * FAST_SYNC_BATCH_LEN < 2 ^ 64 -> EntryValidator (fast_sync_settled hashes) (ask_validate (chain_service hashes blake3 t)).
Proof using Type.
  intros Hfit. eapply validator_ext; [|exact (fast_sync_validator hashes blake3 t Hfit)].
  intros es start. unfold ask_validate, chain_service. by destruct (validate_entries _ _ _ _ _) as [[v u]|e|].
Qed.
End search.

(** ** A node with two blocks downloads the third *)
Module TestDownload.
Import Transparent TestHelpers TestStore.

Definition number_of (b : BlockRules.Block (O := oxide)) : Z :=
  match inputs (prefix (BlockRules.miner_transaction b)) with Gen h :: _ => h | _ => 0 end.
Definition hash_of (b : BlockRules.Block (O := oxide)) : bytes := repeat (50 + number_of b) 32.
Definition config : BlockDownloaderConfig := mk_config 1000 1000 10.
Definition client (n : Z) : Client := mk_client n (100 + n) NotPruned.
Definition env : Env := mk_env (chain_service [] (fun b => b) (TestStore.db 2)) (fun _ => Ok [client 1; client 2; client 3]) (fun _ => false) true.
Definition reply : ChainResponse := mk_chain_response 7 1 [repeat 51 32; repeat 52 32].
Definition replies (l : list Client) : list (ChainResponse * Client) :=
  map (fun c => (reply, c)) l.

Definition tracker : ChainTracker :=
  match initial_chain_search env replies with (Ok c, _) => c | _ => mk_tracker [] [] 0 [] [] [] end.
Definition step_to (ev : Event) (d : BlockDownloader (O := oxide)) : BlockDownloader (O := oxide) :=
  (run_event hash_of number_of config (fun l => l) env ev d).2.
Definition asked : BlockDownloader (O := oxide) := step_to TimerFired (new_downloader tracker []).
Definition downloaded : BlockDownloader (O := oxide) :=
  step_to (BatchDone 0 (Ok [mk_object (block_serialize (AltBlocks.block TestStore.third)) NoBlobs])) asked.
Lemma validator_ok : EntryValidator (fast_sync_settled []) (ask_validate (our_chain_svc env)).
Proof. by apply chain_service_validator. Qed.

Lemma env_ok : good_env (fast_sync_settled []) env.
Proof. split; [apply validator_ok|by vm_compute|done|]. intros cd clients [= <-]. by repeat constructor. Qed.

Lemma tracker_eq : tracker = mk_tracker [mk_entry [repeat 52 32] 1 101] [] 2 (repeat 52 32) (repeat 51 32) (repeat 50 32).
Proof. vm_compute. reflexivity. Qed.

Lemma download_tracker_ok : tracker_inv (settled := fast_sync_settled []) tracker /\ sane_heights tracker.
Proof.
  rewrite tracker_eq. split; [split; [by repeat constructor|intros H; by vm_compute in H]|].
  unfold sane_heights. cbn. unfold CRYPTONOTE_PRUNING_TIP_BLOCKS, MAX_BLOCK_HEIGHT_USIZE. unfold len. cbn. lia.
Qed.

#[local] Abbreviation reached := (reachable hash_of number_of config (fun l => l) 2 (repeat 51 32) (fast_sync_settled [])).

Definition ids : list bytes := tracked_ids tracker.

Lemma asked_reached : reached ids asked.
Proof.
  apply (reach_event _ _ _ _ _ _ _ env TimerFired ids (new_downloader tracker []) false).
  - by apply reach_start; [apply download_tracker_ok|apply download_tracker_ok|rewrite tracker_eq..].
  - apply env_ok.
  - done.
  - by vm_compute.
Qed.

Lemma downloaded_reached : reached ids downloaded.
Proof.
  apply (reach_event _ _ _ _ _ _ _ env (BatchDone 0 (Ok [mk_object (block_serialize (AltBlocks.block TestStore.third)) NoBlobs])) ids asked false).
  - apply asked_reached.
  - apply env_ok.
  - done.
  - by vm_compute.
Qed.
End TestDownload.

Section witness.
Import Transparent TestHelpers TestStore TestDownload.

Lemma downloader_streams_the_chain_witness :
  map (fun b => map (fun x => number_of x.1) (bb_blocks b)) (buffer (block_queue downloaded)) = [[2]] /\
  linked hash_of (repeat 51 32) (buffer (block_queue downloaded)) /\ ids = [repeat 52 32].
Proof.
  split; [by vm_compute|]. split; [|by vm_compute].
  destruct (downloader_streams_the_chain hash_of number_of config (fun l => l) ltac:(done) ltac:(done) ltac:(done) ltac:(done) 2 (repeat 51 32)
    (fast_sync_settled []) ids downloaded ltac:(done) downloaded_reached) as (? & ? & _ & _ & _ & H & _). exact H.
Defined.

Lemma downloader_never_panics_witness :
  (run_event hash_of number_of config (fun l => l) env (BatchDone 0 (Ok [])) asked).1 <> Panic.
Proof.
  apply (downloader_never_panics hash_of number_of config (fun l => l) ltac:(done) ltac:(done) ltac:(done) ltac:(done) 2 (repeat 51 32)
    (fast_sync_settled []) ids asked env); [done|apply asked_reached|apply env_ok|done].
Defined.
End witness.

End DownloadRunFacts.
